(* ===== verification/_CoqProject ===== *)
-Q . S2P
Prelude.v
RtList.v
Kservice.v
MemOps.v
Kernel.v
Scheduler.v
Object.v
TimerCore.v
Invariant.v
Thread.v
Timer.v
TimerCheck.v
Clock.v
Ipc.v
Timed.v
System.v
Semaphore.v
Mutex.v
Event.v
Mailbox.v
MessageQueue.v
Mempool.v
RingBuffer.v
Print.v
PrintSpec.v
Lock.v
Resume.v
SysHeap.v
HeapUse.v
Mem.v
HeapSpec.v
HeapCalls.v
HeapRealloc.v
MemHeap.v
MemHeapSpec.v
MemHeapAlloc.v
MemHeapCalls.v
MemHeapRealloc.v
Slab.v
PageSpec.v
SlabSpec.v
SlabMalloc.v
SlabFree.v
SlabCalls.v
Heaps.v
Path.v
Device.v
DriverIpc.v
Completion.v
DataQueue.v
Pipe.v
Portal.v
FinshVM.v
FinshCompiler.v
FinshCorrect.v
FinshInt.v
FinshToken.v
FinshHeap.v
FinshParser.v
FinshLex.v
FinshGrammar.v
FinshParse.v
FinshShell.v
FinshSession.v
Demo.v
Witnesses.v
WitnessesIpc.v
WitnessesMem.v
WitnessesPath.v
WitnessesMemHeap.v
WitnessesSlab.v
WitnessesDev.v
WitnessesPipe.v
WitnessesPrint.v
WitnessesFinsh.v
WitnessesShell.v
