(* ===== verification/Prelude.v ===== *)
(** The RT-Thread kernel: a verification library for the real-time operating system of
    this repository.

    * The program and what is modelled

    RT-Thread is a priority-based preemptive kernel in C.  The library models the code of
    the kernel proper and of the driver-level IPC, one file per component; paths are under
    src/ (so that src/scheduler.c here is src/src/scheduler.c in the repository):

    - [RtList]: the intrusive circular lists of include/rtservice.h, on which every queue of
      the kernel is built.  The pointer operations act on a store of next and prev links, and
      refine insertion and removal on sequences.
    - [Kservice], [MemOps]: src/kservice.c: the first set bit of a word, the memory and
      string operations.
    - [Kernel]: include/rtdef.h: configuration macros ([Config]), structures, constants, the
      state of the kernel and the monad of the kernel functions.
    - [Scheduler]: src/scheduler.c: ready queues, priority bitmap, context switch decision,
      scheduler lock.
    - [Object]: src/object.c: named objects on a list per class.
    - [TimerCore], [Timer], [TimerCheck]: src/timer.c: hard and soft timers on skip lists, the
      checks at each tick, the timer thread.
    - [Invariant]: no code: the invariant that ties states of threads and flags of timers to
      the lists they are on.
    - [Thread]: src/thread.c; [Clock]: src/clock.c, src/irq.c, src/idle.c.
    - [Ipc], [Semaphore], [Mutex], [Event], [Mailbox], [MessageQueue]: src/ipc.c.
    - [Mempool]: src/mempool.c, pools of fixed blocks.
    - [Lock]: no code: a semaphore that is used as a lock, as the heaps use one.
    - [Resume], [Mem], [HeapSpec], [HeapCalls], [HeapRealloc]: src/mem.c, the first-fit heap,
      whose calls wait for the semaphore of the heap.
    - [MemHeap], [MemHeapSpec], [MemHeapAlloc], [MemHeapCalls], [MemHeapRealloc]:
      src/memheap.c, heaps of linked blocks with a list of the free ones, alone and as the
      heap of the system.
    - [Slab], [PageSpec], [SlabSpec], [SlabMalloc], [SlabFree], [SlabCalls]: src/slab.c, the
      heap of large memories: a list of runs of free pages, and zones of pages cut into chunks
      of one size.
    - [SysHeap]: no code: the heap of the system as its users see it, an interface that
      [Heaps] shows both src/slab.c and src/mem.c to implement; [HeapUse]: rt_strdup and the
      aligned blocks of src/kservice.c, [Path]: dfs_normalize_path and dfs_subdir of
      components/dfs/src/dfs.c, both against the interface.
    - [Device]: src/device.c and the error numbers of src/kservice.c; [DriverIpc], [Completion],
      [DataQueue], [RingBuffer], [Pipe], [Portal]: components/drivers/src.  Pipes and portals
      are devices whose drivers are the repository's own: [Portal] links them into the device
      framework.
    - [Print]: the formatted output of src/kservice.c; [PrintSpec]: no code: what a format
      stands for, and that this is what is printed.
    - [FinshVM], [FinshCompiler], [FinshCorrect], [FinshInt]: the C-expression shell of
      components/finsh: finsh_vm.c and finsh_ops.c (the stack machine), finsh_compiler.c (type
      check and code generation), and the correctness of the one for the other.
    - [FinshToken] (finsh_token.c), [FinshHeap] (finsh_heap.c, finsh_var.c), [FinshParser]
      (finsh_parser.c, finsh_node.c), [FinshShell] (finsh_run_line of shell.c, finsh_init.c):
      the way of a line to the compiler; [FinshLex], [FinshGrammar], [FinshParse] and
      [FinshSession] hold no code but the theorems on them.
    - [Timed], [System]: no code: the list of active timers under each operation, and the
      kernel as a transition system over its calls and ticks.
    - [Demo], [Witnesses], [WitnessesIpc], [WitnessesMem], [WitnessesPath], [WitnessesMemHeap], [WitnessesSlab],
      [WitnessesDev], [WitnessesPipe], [WitnessesPrint], [WitnessesFinsh], [WitnessesShell]: a concrete kernel, and the theorems applied to it.

    * State and operations

    The scheduler, the threads, the timers and the object system share one state, [kcore];
    [kstate] adds the IPC objects, the memory pools and byte memory, [dstate] the devices and
    the error number, [dipc] the driver IPC with the interrupt mask, [mhstate] the memory heaps,
    [slstate] the slab allocator.  The shell has a state of its own,
    [shell]: lexer, node table, variables, heap and memory.  Components call each
    other as the code does: the IPC objects call the waiting lists of [Ipc], these suspend and
    resume threads ([Thread]), which move on the ready queues ([Scheduler]) and start and stop
    timers ([Timer]); the tick ([Clock]) fires timers, which wake threads.  [lift], [core],
    [on_core] and [on_heap] run an operation of the lower state on the upper one.

    A structure is a record with the fields of the code, and an object is named by an integer
    (its address, as far as the code uses it).  A list node is a value of [lnode], which names
    the structure and the member it is embedded in, so that rt_list_entry is a match.  A
    function is a value of [M S A], a function from the state that returns a result and the
    new state, or [None] when it does not return: a failed RT_ASSERT, a null pointer followed,
    or a loop that does not end.  [wp] is the total-correctness precondition of such a
    function; most lemmas about operations are [wp_] lemmas.

    A section of code between rt_hw_interrupt_disable and rt_hw_interrupt_enable is one step.
    A function that waits is cut where it calls rt_schedule with its thread suspended: the
    first part returns [Waiting], and a definition whose name ends in [_resumed] is what the
    thread does when it runs again ([outcome] in [Ipc]; [Resume] composes such functions).
    rt_schedule decides which thread runs next and records it in [k_switches]; the switch of
    registers is the port's.  Where a function has several critical sections with work in
    between (message queues), each is a definition, and [MessageQueue.mq_step] interleaves
    them.  Machine integers are [Z] with their wrap-around ([uint8], [uint16], [uint32],
    [int16], [int32]).

    * What the theorems show

    - Invariant: [System.reachable_invariant] shows, for every sequence of permitted kernel
      calls and ticks, that the READY threads are exactly those on the ready queues, each on the queue
      of its priority, that the bitmap names the highest of them, that waiting threads are
      suspended, that the active timers are sorted and in the future, and that every permitted
      call returns.  [System.wait_ends_in_time] bounds every wait with a time limit by as many
      ticks, over all such sequences.  [Scheduler.rt_schedule_runs_highest]
      adds that the thread that runs is the first of that queue.
    - Threads and timers: what each operation does on every branch; timers stay sorted by
      expiry with ties in the order of starting, also when the tick wraps; a check fires
      exactly the timers that are due.
    - IPC: each operation refines an abstract step ([sem_take_step], [mutex_take_step] and so
      on) on a value, a list of mails or a list of messages together with the queue of
      waiting threads; events are stated one by one ([Event.event_due]), where the code
      computes with words; the mutex with priority inheritance; the message queue under every
      interleaving of its critical sections.
    - Memory: pools refine a set of free blocks.  The heap refines a sequence of used and free
      blocks with no two free neighbours: rt_malloc is the first fit of that sequence, rt_free
      merges, rt_realloc keeps contents, what is granted is aligned, inside and disjoint.
      The memory heaps refine the same kind of sequence with the order of the free list, and a
      call on one heap leaves every other heap alone ([MemHeapSpec.area_kept_other]).
      The page allocator is a first fit on the sequence of free runs, and allocating and
      freeing restores it.  The slab allocator refines a map from pages to their uses (a zone
      with its free chunks, whole pages, the table of uses; [SlabSpec.slab_ok]): rt_malloc
      grants what was free, rt_free takes it back, no granted block shares a byte with another
      or with what the allocator keeps in memory, rt_realloc keeps contents
      ([SlabCalls]).
    - Drivers: devices are counted users of a driver; completions hand over; data queues and
      ring buffers are bounded FIFO queues.  Reads and writes of a pipe refine operations on a
      bounded sequence of bytes, and [Pipe.rt_pipe_stream] shows for every sequence of reads
      and writes, waiting ones included, that no byte is lost, doubled or overtaken; what one
      of two connected portals writes, the other reads.
    - Equivalence: rt_memcpy, rt_strstr, rt_memset by words against their definitions.
    - Text: rt_vsnprintf writes what the format stands for ([PrintSpec.meaning], which shares
      no parser and no digit with the code), cut to the buffer, and the digits it prints
      read back as the number.
    - Users of the heap: rt_strdup copies into a block of its own, rt_malloc_align and
      rt_free_align give aligned blocks and take them back, dfs_normalize_path leaves the
      path that its components lead to ([Path.dfs_normalize_path_resolves]), on either heap.
    - Shell: the code that the compiler emits for a checked tree runs on the machine to the
      value of the tree, within as many steps as the code has instructions.  The lexer gives
      back the lexemes of a line, the parser builds the trees of its statements, and
      [FinshSession.finsh_session_correct] composes all four: a session of declarations and
      statements over integer variables prints what C computes.  The reference is [sem], the
      meaning of an expression; [plain] says which expressions have a text without
      parentheses, which the parser does not accept.

    Several theorems record behaviour the code does not mean to have: a timed-out
    rt_mp_alloc leaves its pool's count too high, rt_ringbuffer_put_force can overtake the
    reader, rt_data_queue_pop can return with interrupts disabled, a data queue does not see
    that it is full once its index has wrapped, rt_malloc misses a last block that fits
    exactly, rt_realloc can hide a free block, a memory heap accepts a block twice and loses it
    when it moves ([WitnessesMemHeap]), rt_malloc of the slab allocator releases its lock twice
    when there are no pages ([WitnessesSlab]), rt_device_open counts a user whose open
    failed, a pipe wakes one reader for bytes that would serve several,
    dfs_normalize_path lets one step above the root pass ([WitnessesPath]), and the shell
    ([WitnessesFinsh], [WitnessesShell]) rejects parentheses, ignores casts, drops the line
    behind a declaration and mistakes several escapes and suffixes.

    * Bounds and fuel

    A loop over a list of threads or objects takes [loop_fuel] rounds at most, a field of the
    configuration that stands for the number of objects that fit into memory; theorems about
    such loops assume the list shorter than that, and show that the loop then ends.  The
    walks of the heap take [heap_fuel] or [pool_fuel], the size of the heap: each round passes
    a block of at least one byte.  The walks over runs and zones take [page_fuel], one round per page.  The loops of the timers are bounded by the number of rows and, within
    a row, by [loop_fuel].  String loops take the length of the string plus one.  The parser has
    the length of the line plus two as fuel, for loops and for the depth of its recursion:
    each round and each call takes a token, which has at least one character.

    * Not modelled

    The console of src/kservice.c; the hooks (empty by default) and debug
    output; stack contents and the check of stack overflow; the dynamic modules of src/module.c
    (an ELF loader, off in the default configuration); of the shell the editing of the line, its history, the built-in commands, the disassembler and the registration of
    symbols at run time.  The
    file systems apart from their paths, network stacks and the C libraries under components/ are mostly
    third-party code above the kernel; libcpu/ and bsp/ are assembly and register access.  A
    driver, the timeout functions of applications and the timer thread's object are
    parameters ([Device.Drivers], [call_timeout], [StaticThreads]); so is where a memory heap
    has its header and its lock ([MemHeap.MemHeapLayout]), and the lock of the slab allocator
    ([Slab.SlabSem]); so are, in the shell, the
    functions a command calls and whether char is signed ([FinshVM.Finsh]), the symbols the
    linker collects and what their entries say ([FinshParser.SymbolTables],
    [FinshCompiler.Symbols]) and the addresses of its arrays ([FinshHeap.FinshData]); the
    addresses of the driver functions of pipes and portals and the callbacks of applications
    are parameters of [Portal] and [Pipe].  Numbers are stored little-endian. *)
From Stdlib Require Export ZArith Lia.
From stdpp Require Export base tactics numbers list functions option sets.

#[global] Open Scope Z_scope.

Create HintDb kernel.

(** ** Machine integers: conversion to a w-bit type *)
Definition uint (w z : Z) : Z := z mod 2 ^ w.
Definition sint (w z : Z) : Z := (z + 2 ^ (w - 1)) mod 2 ^ w - 2 ^ (w - 1).
Lemma uint_range w z : 0 <= w -> 0 <= uint w z < 2 ^ w.
Proof. intros. apply Z.mod_pos_bound. lia. Qed.
Lemma uint_small w z : 0 <= z < 2 ^ w -> uint w z = z.
Proof. apply Z.mod_small. Qed.
Lemma uint_sint w z : 0 < w -> uint w (sint w z) = uint w z.
Proof.
  intros Hw. unfold uint, sint. rewrite Zminus_mod_idemp_l. f_equal. lia.
Qed.
Lemma uint_uint w w' z : 0 <= w <= w' -> uint w (uint w' z) = uint w z.
Proof.
  intros Hw. unfold uint. replace w' with (w + (w' - w)) by lia. rewrite Z.pow_add_r by lia.
  rewrite <- Znumtheory.Zmod_div_mod; [done|lia|lia|]. apply Z.divide_factor_l.
Qed.
Lemma sint_range w z : 0 < w -> - 2 ^ (w - 1) <= sint w z < 2 ^ (w - 1).
Proof.
  intros Hw. unfold sint. pose proof (Z.mod_pos_bound (z + 2 ^ (w - 1)) (2 ^ w) ltac:(apply Z.pow_pos_nonneg; lia)).
  assert (2 ^ w = 2 * 2 ^ (w - 1)) by (rewrite <- Z.pow_succ_r by lia; f_equal; lia). lia.
Qed.
Lemma sint_uint w z : sint w (uint w z) = sint w z.
Proof. unfold sint, uint. by rewrite Zplus_mod_idemp_l. Qed.
Lemma sint_small w z : 0 < w -> - 2 ^ (w - 1) <= z < 2 ^ (w - 1) -> sint w z = z.
Proof.
  intros Hw Hz. unfold sint.
  assert (2 ^ w = 2 * 2 ^ (w - 1)) by (rewrite <- Z.pow_succ_r by lia; f_equal; lia).
  rewrite Z.mod_small; lia.
Qed.
Lemma testbit_uint w v i : 0 <= i < w -> Z.testbit (uint w v) i = Z.testbit v i.
Proof. intros Hi. unfold uint. apply Z.mod_pow2_bits_low. lia. Qed.
Lemma testbit_high w v i : 0 <= v < 2 ^ w -> w <= i -> Z.testbit v i = false.
Proof.
  intros Hv Hi. destruct (decide (0 <= w)).
  - rewrite <- (Z.mod_small v (2 ^ w)) by done. apply Z.mod_pow2_bits_high. lia.
  - rewrite Z.pow_neg_r in Hv by lia. lia.
Qed.
Lemma testbit_nonzero v i : Z.testbit v i = true -> v <> 0.
Proof. intros H ->. by rewrite Z.bits_0 in H. Qed.
Lemma nonzero_testbit w v : 0 <= v < 2 ^ w -> v <> 0 -> exists i, 0 <= i < w /\ Z.testbit v i = true.
Proof.
  intros Hv Hnz. exists (Z.log2 v). pose proof (Z.log2_nonneg v).
  split; [split; [done|]; apply Z.log2_lt_pow2; lia|]. apply Z.bit_log2. lia.
Qed.
Lemma land_pow2 v i : 0 <= i -> (Z.land v (2 ^ i) =? 0) = negb (Z.testbit v i).
Proof.
  intros Hi. destruct (Z.testbit v i) eqn:E.
  - apply Z.eqb_neq. intros E0. apply (f_equal (fun w => Z.testbit w i)) in E0.
    by rewrite Z.land_spec, E, Z.pow2_bits_true, Z.testbit_0_l in E0.
  - apply Z.eqb_eq, Z.bits_inj'. intros j Hj. rewrite Z.land_spec, Z.testbit_0_l, Z.pow2_bits_eqb by done.
    destruct (Z.eqb_spec i j) as [<-|]; [by rewrite E|by rewrite andb_false_r].
Qed.
Notation uint8 := (uint 8).
Notation uint16 := (uint 16).
Notation uint32 := (uint 32).
Notation int16 := (sint 16).
Notation int32 := (sint 32).


(** ** Function update *)
#[global] Arguments fn_insert _ _ _ _ _ _ _ : simpl never.
Section fn_update.
Context {A B : Type} `{EqDecision A}.
Implicit Types (f : A -> B) (a b : A) (v : B).

Lemma upd_eq f a v : (<[a := v]> f) a = v.
Proof. apply fn_lookup_insert. Qed.
Lemma upd_ne f a b v : a <> b -> (<[a := v]> f) b = f b.
Proof. apply fn_lookup_insert_ne. Qed.
Lemma upd_case f a b v :
  (<[a := v]> f) b = if decide (a = b) then v else f b.
Proof. reflexivity. Qed.
End fn_update.

(** Case analysis on every function update applied to a point. *)
Ltac upd_simpl :=
  repeat first
    [ rewrite upd_eq in *
    | rewrite upd_ne in * by (congruence || done) ].
Ltac upd_destruct :=
  repeat match goal with
  | |- context [ (<[?a := _]> _) ?b ] => rewrite (upd_case _ a b); destruct (decide (a = b)); simplify_eq
  | H : context [ (<[?a := _]> _) ?b ] |- _ => rewrite (upd_case _ a b) in H; destruct (decide (a = b)); simplify_eq
  end.

(** Case analysis on the integer comparisons of the goal. *)
Ltac zcases :=
  repeat match goal with
  | |- context [?a <? ?b] => destruct (Z.ltb_spec a b)
  | |- context [?a <=? ?b] => destruct (Z.leb_spec a b)
  | |- context [?a >? ?b] => destruct (Z.gtb_spec a b)
  | |- context [?a >=? ?b] => destruct (Z.geb_spec a b)
  | |- context [?a =? ?b] => destruct (Z.eqb_spec a b)
  end.

(** List membership goals by splitting cons and app. *)
Ltac elems_neg :=
  repeat match goal with
  | H : _ ∉ _ :: _ |- _ => apply not_elem_of_cons in H as [? ?]
  | H : _ ∉ _ ++ _ |- _ => apply not_elem_of_app in H as [? ?]
  | H : NoDup (_ :: _) |- _ => apply NoDup_cons in H as [? ?]
  | H : NoDup (_ ++ _) |- _ => apply NoDup_app in H as (? & ? & ?)
  | H : _ /\ _ |- _ => destruct H
  end.
Ltac elems_goal :=
  repeat first [rewrite not_elem_of_app | rewrite not_elem_of_cons | rewrite elem_of_app | rewrite elem_of_cons].
Ltac elems_end :=
  subst; elems_goal; repeat split; first [ tauto | congruence | solve [auto 6] ].
Ltac elems_pos :=
  repeat match goal with
  | H : _ ∈ _ :: _ |- _ => apply elem_of_cons in H as [?|?]
  | H : _ ∈ _ ++ _ |- _ => apply elem_of_app in H as [?|?]
  | H : _ ∈ [] |- _ => apply elem_of_nil in H; destruct H
  end.
Ltac elems := elems_neg; first [ solve [elems_end] | elems_pos; solve [elems_end] ].

Lemma NoDup_mid {A} (l1 l2 : list A) x : NoDup (l1 ++ x :: l2) -> x ∉ l1 ++ l2.
Proof.
  rewrite NoDup_app. intros (_ & H1 & [H2 _]%NoDup_cons). rewrite elem_of_app.
  intros [Hx|Hx]; [|done]. apply (H1 x Hx). by left.
Qed.

(** ** Removing an element from a list *)
Section remove_elem.
Context {A : Type} `{EqDecision A}.
Implicit Types (x y : A) (l : list A).

Definition without (x : A) (l : list A) : list A := filter (fun y => y <> x) l.

Lemma elem_of_without x y l : y ∈ without x l <-> y <> x /\ y ∈ l.
Proof. unfold without. by rewrite list_elem_of_filter. Qed.
Lemma without_cons x y l :
  without x (y :: l) = if decide (y = x) then without x l else y :: without x l.
Proof. unfold without. rewrite filter_cons. repeat case_decide; congruence. Qed.
Lemma without_notin x l : x ∉ l -> without x l = l.
Proof.
  induction l as [|y l IH]; [done|]. intros [? ?]%not_elem_of_cons.
  rewrite without_cons, decide_False by congruence. by rewrite IH.
Qed.
Lemma without_app x l1 l2 : without x (l1 ++ l2) = without x l1 ++ without x l2.
Proof. apply filter_app. Qed.
Lemma without_mid x l1 l2 : NoDup (l1 ++ x :: l2) -> without x (l1 ++ x :: l2) = l1 ++ l2.
Proof.
  intros H%NoDup_mid. apply not_elem_of_app in H as [H1 H2].
  rewrite without_app, without_cons, decide_True by done. by rewrite !without_notin.
Qed.
Lemma without_hd x l : NoDup (x :: l) -> without x (x :: l) = l.
Proof. apply (without_mid x []). Qed.
Lemma NoDup_without x l : NoDup l -> NoDup (without x l).
Proof. apply (NoDup_filter (fun y => y <> x)). Qed.
Lemma without_length x l : (length (without x l) <= length l)%nat.
Proof. apply length_filter. Qed.
Lemma without_length_in x l : x ∈ l -> (length (without x l) < length l)%nat.
Proof.
  intros (l1 & l2 & ->)%list_elem_of_split. rewrite without_app, without_cons, decide_True by done.
  rewrite !length_app. cbn. pose proof (without_length x l1). pose proof (without_length x l2). lia.
Qed.
End remove_elem.

Lemma without_fmap {A B} `{EqDecision A, EqDecision B} (f : A -> B) `{!Inj (=) (=) f} x (l : list A) :
  without (f x) (f <$> l) = f <$> without x l.
Proof.
  induction l as [|y l IH]; [done|]. rewrite fmap_cons, !without_cons, IH.
  destruct (decide (y = x)) as [->|Hne]; [by rewrite decide_True|].
  rewrite decide_False by (intros E; by apply Hne, (inj f)). done.
Qed.
Lemma without_fmap_other {A B} `{EqDecision B} (f : A -> B) b (l : list A) :
  (forall a, f a <> b) -> without b (f <$> l) = f <$> l.
Proof.
  intros H. apply without_notin. intros (a & E & _)%list_elem_of_fmap. by apply (H a).
Qed.
