(* ===== verification/RtList.v ===== *)
(** Intrusive circular doubly-linked lists: include/rtservice.h. *)
From S2P Require Import Prelude.

Section RtList.
Context {N : Type} `{EqDecision N}.

(** struct rt_list_node { next; prev }, as a store from node addresses. *)
Record links := mk_links { l_next : N -> N; l_prev : N -> N }.

Definition set_next (s : links) (a b : N) : links :=
  mk_links (<[a := b]> (l_next s)) (l_prev s).
Definition set_prev (s : links) (a b : N) : links :=
  mk_links (l_next s) (<[a := b]> (l_prev s)).

Definition rt_list_init (s : links) (l : N) : links :=
  set_next (set_prev s l l) l l.

Definition rt_list_insert_after (s : links) (l n : N) : links :=
  let s := set_prev s (l_next s l) n in
  let s := set_next s n (l_next s l) in
  let s := set_next s l n in
  set_prev s n l.

Definition rt_list_insert_before (s : links) (l n : N) : links :=
  let s := set_next s (l_prev s l) n in
  let s := set_prev s n (l_prev s l) in
  let s := set_prev s l n in
  set_next s n l.

Definition rt_list_remove (s : links) (n : N) : links :=
  let s := set_prev s (l_next s n) (l_prev s n) in
  let s := set_next s (l_prev s n) (l_next s n) in
  let s := set_prev s n n in
  set_next s n n.

Definition rt_list_isempty (s : links) (l : N) : bool :=
  bool_decide (l_next s l = l).

(** ** Representation: rings of nodes *)
Definition linked (s : links) (a b : N) : Prop :=
  l_next s a = b /\ l_prev s b = a.

Fixpoint chain (s : links) (a : N) (xs : list N) (z : N) : Prop :=
  match xs with
  | [] => linked s a z
  | x :: xs => linked s a x /\ chain s x xs z
  end.

(** The ring headed by [h] holds the nodes [xs], in order. *)
Definition ring (s : links) (h : N) (xs : list N) : Prop :=
  chain s h xs h /\ NoDup (h :: xs).

(** [L] gives the content of every ring by its head; distinct heads have
    disjoint rings; a node that is a member of a list is not a head. *)
Definition rep (s : links) (L : N -> option (list N)) : Prop :=
  (forall h xs, L h = Some xs -> ring s h xs) /\
  (forall h1 h2 xs1 xs2 x, L h1 = Some xs1 -> L h2 = Some xs2 ->
     x ∈ h1 :: xs1 -> x ∈ h2 :: xs2 -> h1 = h2).

(** A node outside every list: detached ([Some []]) or not initialised. *)
Definition free_node (L : N -> option (list N)) (n : N) : Prop :=
  (L n = None \/ L n = Some []) /\ (forall h xs, L h = Some xs -> n ∉ xs).

Lemma chain_app s a xs x ys z :
  chain s a (xs ++ x :: ys) z <-> chain s a xs x /\ chain s x ys z.
Proof. revert a; induction xs as [|y xs IH]; intros a; cbn; [tauto|]. rewrite IH. tauto. Qed.

Lemma chain_frame s s' a xs z :
  (forall x, x ∈ a :: xs -> l_next s' x = l_next s x) ->
  (forall x, x ∈ xs ++ [z] -> l_prev s' x = l_prev s x) ->
  chain s a xs z -> chain s' a xs z.
Proof.
  revert a; induction xs as [|y xs IH]; intros a Hn Hp; cbn; unfold linked.
  - rewrite Hn, Hp by set_solver. done.
  - intros [[H1 H2] H3]. split.
    + rewrite Hn, Hp by set_solver. done.
    + apply IH; [| |done]; intros; [apply Hn|apply Hp]; set_solver.
Qed.

(** *** Local facts about a chain *)
Lemma chain_adj s h xs z ys a n zs :
  chain s h xs z -> h :: xs = ys ++ a :: n :: zs -> linked s a n.
Proof.
  intros Hc He. destruct ys as [|y ys]; injection He as -> ->; [apply Hc|].
  apply chain_app in Hc. apply Hc.
Qed.

Lemma chain_next s h xs z ys a zs :
  chain s h xs z -> h :: xs = ys ++ a :: zs -> linked s a (hd z zs).
Proof.
  intros Hc He. destruct zs as [|b zs]; [|eapply chain_adj; eauto].
  destruct ys as [|y ys]; injection He as -> ->; [apply Hc|].
  apply chain_app in Hc. apply Hc.
Qed.

Lemma chain_insert_after s n h xs z ys a zs :
  chain s h xs z -> h :: xs = ys ++ a :: zs ->
  NoDup (h :: xs) -> z ∉ xs -> n ∉ h :: xs -> n <> z ->
  exists xs', h :: xs' = ys ++ a :: n :: zs /\
    chain (rt_list_insert_after s a n) h xs' z.
Proof.
  revert h xs; induction ys as [|y ys IH]; intros h xs Hc He Hnd Hz Hn Hnz;
    injection He as -> ->.
  - exists (n :: zs). split; [done|].
    pose proof (chain_next s a zs z [] a zs Hc eq_refl) as [Hna Hpb].
    unfold rt_list_insert_after; cbn. split; [split; cbn; upd_destruct; elems|].
    destruct zs as [|b zs]; cbn in *.
    + split; cbn; rewrite ?Hna; upd_destruct; elems.
    + split; [split; cbn; rewrite ?Hna; upd_destruct; elems|].
      eapply chain_frame; [| |apply Hc]; intros x Hx; cbn; rewrite ?Hna;
        apply NoDup_cons in Hnd as [? Hnd]; apply NoDup_cons in Hnd as [? Hnd];
        upd_destruct; elems.
  - pose proof Hnd as Hnd0. apply NoDup_cons in Hnd as [Hh Hnd].
    assert (exists x1 xs1, ys ++ a :: zs = x1 :: xs1) as (x1 & xs1 & E)
      by (destruct ys; cbn; eauto).
    rewrite E in Hc, Hn, Hz, Hh, Hnd, Hnd0. destruct Hc as [Hl Hc].
    destruct (IH x1 xs1 Hc (eq_sym E) Hnd) as (xs1' & E' & Hc'); [elems..|].
    exists (x1 :: xs1'). split; [rewrite E'; done|]. split; [|exact Hc'].
    pose proof (chain_next s x1 xs1 z ys a zs Hc (eq_sym E)) as [Hna Hpb].
    assert (a ∈ x1 :: xs1) by (rewrite <- E; elems).
    assert (x1 <> hd z zs).
    { destruct zs as [|b zs]; cbn; [elems|]. intros ->.
      destruct ys as [|y' ys]; injection E as -> <-; elems. }
    destruct Hl as [Hl1 Hl2]. unfold rt_list_insert_after. split; cbn; rewrite ?Hna; upd_destruct; elems.
Qed.

Lemma chain_remove s h xs z ys a n zs :
  chain s h xs z -> h :: xs = ys ++ a :: n :: zs ->
  NoDup (h :: xs) -> z ∉ xs ->
  exists xs', h :: xs' = ys ++ a :: zs /\ chain (rt_list_remove s n) h xs' z.
Proof.
  revert h xs; induction ys as [|y ys IH]; intros h xs Hc He Hnd Hz;
    injection He as -> ->.
  - exists zs. split; [done|].
    pose proof (chain_next s a (n :: zs) z [a] n zs Hc eq_refl) as [Hnn Hpn].
    destruct Hc as [[Hl1 Hl2] Hc].
    apply NoDup_cons in Hnd as [? Hnd]. apply NoDup_cons in Hnd as [? Hnd].
    unfold rt_list_remove; cbn.
    assert (hd z zs <> n) by (destruct zs; cbn; elems).
    destruct zs as [|b zs]; cbn in *.
    + split; cbn; rewrite ?Hnn; upd_destruct; elems.
    + split; [split; cbn; rewrite ?Hnn; upd_destruct; elems|].
      eapply chain_frame; [| |apply Hc]; intros x Hx; cbn; rewrite ?Hnn;
        apply NoDup_cons in Hnd as [? Hnd]; upd_destruct; elems.
  - pose proof Hnd as Hnd0. apply NoDup_cons in Hnd as [Hh Hnd].
    assert (exists x1 xs1, ys ++ a :: n :: zs = x1 :: xs1) as (x1 & xs1 & E)
      by (destruct ys; cbn; eauto).
    rewrite E in Hc, Hz, Hh, Hnd, Hnd0. destruct Hc as [Hl Hc].
    destruct (IH x1 xs1 Hc (eq_sym E) Hnd) as (xs1' & E' & Hc'); [elems|].
    exists (x1 :: xs1'). split; [rewrite E'; done|]. split; [|exact Hc'].
    pose proof (chain_adj s x1 xs1 z ys a n zs Hc (eq_sym E)) as [Han Hpn].
    pose proof (chain_next s x1 xs1 z (ys ++ [a]) n zs Hc) as [Hnn Hpb].
    { rewrite <- app_assoc. exact (eq_sym E). }
    assert (a ∈ x1 :: xs1) by (rewrite <- E; elems).
    assert (n ∈ x1 :: xs1) by (rewrite <- E; elems).
    rewrite <- E in Hnd. assert (x1 <> n /\ hd z zs <> n /\ x1 <> hd z zs) as (? & ? & ?).
    { destruct ys as [|y' ys]; injection E as -> <-; cbn in Hnd;
        destruct zs as [|b zs]; cbn; elems. }
    destruct Hl as [Hl1 Hl2]. unfold rt_list_remove. split; cbn; rewrite ?Hnn; upd_destruct; elems.
Qed.

(** *** Frames: a primitive touches only the ring it works on *)
Definition agree_out (s s' : links) (P : N -> Prop) : Prop :=
  forall x, ~ P x -> l_next s' x = l_next s x /\ l_prev s' x = l_prev s x.

Lemma ring_frame s s' P h xs :
  agree_out s s' P -> (forall x, x ∈ h :: xs -> ~ P x) -> ring s h xs -> ring s' h xs.
Proof.
  intros Ha Hp [Hc Hnd]. split; [|done].
  eapply chain_frame; [| |exact Hc]; intros x Hx; apply Ha, Hp; elems.
Qed.

Lemma chain_in_next s h xs a : chain s h xs h -> a ∈ h :: xs -> l_next s a ∈ h :: xs.
Proof.
  intros Hc (ys & zs & E)%list_elem_of_split.
  destruct (chain_next s h xs h ys a zs Hc E) as [-> _].
  rewrite E. destruct zs; cbn; [|elems].
  destruct ys; injection E as -> ->; elems.
Qed.

Lemma chain_in_prev s h xs a : chain s h xs h -> a ∈ h :: xs -> l_prev s a ∈ h :: xs.
Proof.
  intros Hc Ha. destruct (decide (a = h)) as [->|Hne].
  - destruct (exists_last (l := h :: xs)) as (ys & b & E); [done|].
    destruct (chain_next s h xs h ys b [] Hc E) as [_ Hp]. cbn in Hp. rewrite Hp, E. elems.
  - apply list_elem_of_split in Ha as (ys & zs & E).
    destruct (exists_last (l := ys)) as (ys' & b & ->).
    { intros ->. cbn in E. congruence. }
    rewrite <- app_assoc in E. cbn in E.
    destruct (chain_adj s h xs h ys' b a zs Hc E) as [_ ->]. rewrite E. elems.
Qed.

(** The rings after a change confined to the ring of [h] and the free node [n]. *)
Lemma rep_insert s s' L h xs n xs' :
  rep s L -> L h = Some xs -> free_node L n -> n <> h ->
  (forall x, x ∈ h :: xs' <-> x = n \/ x ∈ h :: xs) ->
  agree_out s s' (fun x => x = n \/ x ∈ h :: xs) ->
  ring s' h xs' ->
  rep s' (<[h := Some xs']> (<[n := None]> L)).
Proof.
  intros [Hr Hd] Hh [Hn0 Hn] Hne Hin Ha Hr'. split.
  - intros g ys Hg. upd_destruct; [done|].
    eapply ring_frame; [exact Ha| |eauto]. intros x Hx [->|Hx'].
    + apply elem_of_cons in Hx as [->|Hx]; [congruence|]. by eapply Hn.
    + assert (g = h) by eauto. congruence.
  - assert (forall g ys x, L g = Some ys -> g <> h -> x ∈ g :: ys -> x ∈ h :: xs' -> g = h \/ g = n) as Hk.
    { intros g ys x Hg ? Hx [->|Hx']%Hin; [|left; eauto].
      apply elem_of_cons in Hx as [->|Hx]; [by right|]. exfalso; by eapply Hn. }
    intros h1 h2 xs1 xs2 x H1 H2 Hx1 Hx2. rewrite upd_case in H1, H2.
    destruct (decide (h = h1)) as [<-|N1], (decide (h = h2)) as [<-|N2]; [done|..];
      rewrite ?upd_case in H1; rewrite ?upd_case in H2; repeat case_decide; simplify_eq.
    + destruct (Hk h2 xs2 x); auto; congruence.
    + destruct (Hk h1 xs1 x); auto; congruence.
    + eauto.
Qed.

Lemma rep_delete s s' L h xs n xs' :
  rep s L -> L h = Some xs -> n ∈ xs -> n <> h ->
  (forall x, x ∈ h :: xs <-> x = n \/ x ∈ h :: xs') -> n ∉ xs' ->
  agree_out s s' (fun x => x ∈ h :: xs) ->
  ring s' h xs' -> ring s' n [] ->
  rep s' (<[n := Some []]> (<[h := Some xs']> L)).
Proof.
  intros [Hr Hd] Hh Hn Hne Hin Hnot Ha Hr' Hrn. split.
  - intros g ys Hg. upd_destruct; [done..|].
    eapply ring_frame; [exact Ha| |eauto]. intros x Hx Hx'.
    assert (g = h) by eauto. congruence.
  - assert (forall g ys x, L g = Some ys -> x ∈ g :: ys -> x ∈ h :: xs -> g = h) as Hk by eauto.
    intros h1 h2 xs1 xs2 x H1 H2 Hx1 Hx2. rewrite upd_case in H1, H2.
    destruct (decide (n = h1)) as [<-|N1], (decide (n = h2)) as [<-|N2]; [done|..];
      rewrite ?upd_case in H1; rewrite ?upd_case in H2; simplify_eq.
    + exfalso. apply elem_of_cons in Hx1 as [->|Hx1]; [|by apply elem_of_nil in Hx1].
      destruct (decide (h = h2)) as [<-|]; simplify_eq; [elems|]. cut (h2 = h); [congruence|]. eapply Hk; eauto; elems.
    + exfalso. apply elem_of_cons in Hx2 as [->|Hx2]; [|by apply elem_of_nil in Hx2].
      destruct (decide (h = h1)) as [<-|]; simplify_eq; [elems|]. cut (h1 = h); [congruence|]. eapply Hk; eauto; elems.
    + destruct (decide (h = h1)) as [<-|], (decide (h = h2)) as [<-|]; simplify_eq; [done|..|by eauto].
      * symmetry. eapply Hk; eauto. apply Hin. by right.
      * eapply Hk; eauto. apply Hin. by right.
Qed.

Lemma insert_after_agree s a n (P : N -> Prop) :
  P a -> P n -> P (l_next s a) -> agree_out s (rt_list_insert_after s a n) P.
Proof.
  intros Ha Hn Hb x Hx. unfold rt_list_insert_after; cbn.
  rewrite !upd_case. repeat case_decide; subst; try contradiction. done.
Qed.

(** Inserting before [l] is inserting after its predecessor. *)
Lemma insert_before_after s l n :
  l_next s (l_prev s l) = l -> n <> l -> n <> l_prev s l ->
  forall x, l_next (rt_list_insert_before s l n) x = l_next (rt_list_insert_after s (l_prev s l) n) x /\
            l_prev (rt_list_insert_before s l n) x = l_prev (rt_list_insert_after s (l_prev s l) n) x.
Proof.
  intros Hl H1 H2 x. unfold rt_list_insert_before, rt_list_insert_after; cbn.
  rewrite Hl, !upd_case. repeat case_decide; subst; try congruence; done.
Qed.

Lemma rep_pointwise s s' L :
  (forall x, l_next s' x = l_next s x /\ l_prev s' x = l_prev s x) -> rep s L -> rep s' L.
Proof.
  intros He [Hr Hd]. split; [|done]. intros h xs Hh.
  eapply ring_frame; [|intros x _ HF; exact HF|eauto].
  intros x _. apply He.
Qed.

(** *** The list primitives on represented lists *)
Lemma rep_insert_after s L h xs ys a zs n :
  rep s L -> L h = Some xs -> free_node L n -> n <> h -> h :: xs = ys ++ a :: zs ->
  exists xs', h :: xs' = ys ++ a :: n :: zs /\
    rep (rt_list_insert_after s a n) (<[h := Some xs']> (<[n := None]> L)).
Proof.
  intros Hrep Hh Hn Hne E. pose proof (proj1 Hrep h xs Hh) as [Hc Hnd].
  assert (n ∉ h :: xs) as Hnx by (apply not_elem_of_cons; split; [done|by eapply Hn]).
  pose proof Hnd as Hnd'. apply NoDup_cons in Hnd' as [Hhx _].
  destruct (chain_insert_after s n h xs h ys a zs) as (xs' & E' & Hc'); try done.
  exists xs'. split; [done|].
  assert (forall x, x ∈ h :: xs' <-> x = n \/ x ∈ h :: xs) as Hin.
  { intros x. rewrite E', E. elems_goal. tauto. }
  assert (a ∈ h :: xs) as Hax by (rewrite E; elems).
  eapply rep_insert; try done.
  - apply insert_after_agree; [by right|by left|].
    right. by apply chain_in_next.
  - split; [done|]. rewrite E', E in *.
    apply NoDup_app in Hnd as (N1 & N2 & N3). apply NoDup_cons in N3 as [N3 N4].
    apply NoDup_app; split; [done|]. split.
    + intros x Hx. specialize (N2 x Hx).
      intros [->|[->|?]%elem_of_cons]%elem_of_cons; elems.
    + rewrite !NoDup_cons. elems.
Qed.

Lemma rep_prev_next s L h xs a :
  rep s L -> L h = Some xs -> a ∈ h :: xs -> l_next s (l_prev s a) = a.
Proof.
  intros Hrep Hh Ha. pose proof (proj1 Hrep h xs Hh) as [Hc _].
  destruct (decide (a = h)) as [->|Hne].
  - destruct (exists_last (l := h :: xs)) as (ys & b & E); [done|].
    destruct (chain_next s h xs h ys b [] Hc E) as [Hn Hp]. cbn in *. congruence.
  - apply list_elem_of_split in Ha as (ys & zs & E).
    destruct (exists_last (l := ys)) as (ys' & b & ->).
    { intros ->. cbn in E. congruence. }
    rewrite <- app_assoc in E. cbn in E.
    destruct (chain_adj s h xs h ys' b a zs Hc E) as [? ?]. congruence.
Qed.

Lemma rep_insert_before s L h xs n l :
  rep s L -> L h = Some xs -> free_node L n -> n <> h -> l ∈ h :: xs ->
  forall xs', rep (rt_list_insert_after s (l_prev s l) n) (<[h := Some xs']> (<[n := None]> L)) ->
  rep (rt_list_insert_before s l n) (<[h := Some xs']> (<[n := None]> L)).
Proof.
  intros Hrep Hh Hn Hne Hl xs' H.
  assert (n ∉ h :: xs) as Hnx by (apply not_elem_of_cons; split; [done|by eapply Hn]).
  pose proof (proj1 Hrep h xs Hh) as [Hc Hnd].
  eapply rep_pointwise; [|exact H]. apply insert_before_after.
  - by eapply rep_prev_next.
  - intros ->; contradiction.
  - intros ->. apply Hnx. by apply chain_in_prev.
Qed.

(** Insertion after the head puts the node in front. *)
Lemma rep_insert_front s L h xs n :
  rep s L -> L h = Some xs -> free_node L n -> n <> h ->
  rep (rt_list_insert_after s h n) (<[h := Some (n :: xs)]> (<[n := None]> L)).
Proof.
  intros Hrep Hh Hn Hne.
  destruct (rep_insert_after s L h xs [] h xs n) as (xs' & E & H); try done.
  by injection E as ->.
Qed.

(** Insertion before the head appends the node. *)
Lemma rep_insert_tail s L h xs n :
  rep s L -> L h = Some xs -> free_node L n -> n <> h ->
  rep (rt_list_insert_before s h n) (<[h := Some (xs ++ [n])]> (<[n := None]> L)).
Proof.
  intros Hrep Hh Hn Hne. pose proof (proj1 Hrep h xs Hh) as [Hc Hnd].
  eapply rep_insert_before; try done; [elems|].
  destruct (exists_last (l := h :: xs)) as (ys & b & E); [done|].
  destruct (chain_next s h xs h ys b [] Hc E) as [_ Hp]. cbn in Hp. rewrite Hp.
  destruct (rep_insert_after s L h xs ys b [] n) as (xs' & E' & H); try done.
  enough (xs' = xs ++ [n]) as -> by done.
  change (ys ++ [b; n]) with (ys ++ [b] ++ [n]) in E'. rewrite app_assoc, <- E in E'.
  by injection E' as ->.
Qed.

(** Insertion before a member puts the node just before it. *)
Lemma rep_insert_mid s L h xs1 x xs2 n :
  rep s L -> L h = Some (xs1 ++ x :: xs2) -> free_node L n -> n <> h ->
  rep (rt_list_insert_before s x n) (<[h := Some (xs1 ++ n :: x :: xs2)]> (<[n := None]> L)).
Proof.
  intros Hrep Hh Hn Hne. pose proof (proj1 Hrep h _ Hh) as [Hc Hnd].
  eapply rep_insert_before; try done; [elems|].
  destruct (exists_last (l := h :: xs1)) as (ys & b & E); [done|].
  assert (h :: xs1 ++ x :: xs2 = ys ++ b :: x :: xs2) as E2.
  { change (h :: xs1 ++ x :: xs2) with ((h :: xs1) ++ x :: xs2). by rewrite E, <- app_assoc. }
  destruct (chain_adj s h _ h ys b x xs2 Hc E2) as [_ Hp]. rewrite Hp.
  destruct (rep_insert_after s L h _ ys b (x :: xs2) n Hrep Hh Hn Hne E2) as (xs' & E' & H).
  enough (xs' = xs1 ++ n :: x :: xs2) as -> by done.
  change (ys ++ b :: n :: x :: xs2) with (ys ++ [b] ++ (n :: x :: xs2)) in E'.
  rewrite app_assoc, <- E in E'. by injection E' as ->.
Qed.

Lemma rep_remove s L h xs1 n xs2 :
  rep s L -> L h = Some (xs1 ++ n :: xs2) ->
  rep (rt_list_remove s n) (<[n := Some []]> (<[h := Some (xs1 ++ xs2)]> L)).
Proof.
  intros Hrep Hh. pose proof (proj1 Hrep h _ Hh) as [Hc Hnd].
  destruct (exists_last (l := h :: xs1)) as (ys & b & E); [done|].
  assert (h :: xs1 ++ n :: xs2 = ys ++ b :: n :: xs2) as E2.
  { change (h :: xs1 ++ n :: xs2) with ((h :: xs1) ++ n :: xs2). by rewrite E, <- app_assoc. }
  pose proof Hnd as Hnd'. apply NoDup_cons in Hnd' as [Hhx Hnd'].
  destruct (chain_remove s h _ h ys b n xs2 Hc E2 Hnd Hhx) as (xs' & E' & Hc').
  assert (xs' = xs1 ++ xs2) as ->.
  { change (ys ++ b :: xs2) with (ys ++ [b] ++ xs2) in E'.
    rewrite app_assoc, <- E in E'. by injection E' as ->. }
  destruct (chain_adj s h _ h ys b n xs2 Hc E2) as [Hbn Hpn].
  assert (n ∈ h :: xs1 ++ n :: xs2) as Hnin by elems.
  pose proof (chain_in_next _ _ _ _ Hc Hnin) as Hnn.
  pose proof (chain_in_prev _ _ _ _ Hc Hnin) as Hnp.
  assert (n <> h) by (intros ->; apply Hhx; elems).
  eapply rep_delete; try done.
  - elems.
  - intros x. elems_goal. tauto.
  - apply NoDup_app in Hnd' as (N1 & N2 & N3). intros [Hx|Hx]%elem_of_app; [|elems].
    eapply N2; [exact Hx|elems].
  - intros x Hx. unfold rt_list_remove; cbn.
    assert ((<[l_next s n := l_prev s n]> (l_prev s)) n = l_prev s n) as ->
      by (rewrite upd_case; by case_decide).
    rewrite !(upd_case _ _ x). repeat case_decide; subst; try contradiction; done.
  - split; [done|]. apply NoDup_cons. split; [elems|].
    apply NoDup_app in Hnd' as (N1 & N2 & N3). apply NoDup_cons in N3 as [N3 N4].
    apply NoDup_app; split; [done|]; split; [|done]. intros x Hx. specialize (N2 x Hx). elems.
  - split; [|apply NoDup_singleton]. unfold rt_list_remove; cbn. split; cbn; by rewrite ?upd_eq.
Qed.

(** Removing a detached node leaves it detached. *)
Lemma rep_remove_single s L n :
  rep s L -> L n = Some [] -> rep (rt_list_remove s n) L.
Proof.
  intros Hrep Hn. pose proof (proj1 Hrep n _ Hn) as [[H1 H2] _].
  eapply rep_pointwise; [|exact Hrep]. intros x. unfold rt_list_remove; cbn.
  rewrite H1, H2, !upd_case. repeat case_decide; subst; try done; congruence.
Qed.

Lemma rep_init s L n :
  rep s L -> free_node L n -> rep (rt_list_init s n) (<[n := Some []]> L).
Proof.
  intros [Hr Hd] [Hn0 Hn]. split.
  - intros h xs Hh. rewrite upd_case in Hh. case_decide; simplify_eq.
    + split; [|apply NoDup_singleton]. unfold rt_list_init; cbn. split; cbn; by rewrite upd_eq.
    + eapply (ring_frame s _ (fun x => x = n)); [| |eauto].
      * intros x Hx. unfold rt_list_init; cbn. rewrite !upd_ne by congruence. done.
      * intros x Hx ->. apply elem_of_cons in Hx as [->|Hx]; [done|]. by eapply Hn.
  - assert (forall h xs, L h = Some xs -> n ∈ h :: xs -> n = h) as Hk.
    { intros h xs Hh [->|Hx]%elem_of_cons; [done|]. exfalso; by eapply Hn. }
    intros h1 h2 xs1 xs2 x H1 H2 Hx1 Hx2. rewrite upd_case in H1, H2.
    destruct (decide (n = h1)) as [<-|N1], (decide (n = h2)) as [<-|N2]; simplify_eq; [done|..|eauto].
    + apply list_elem_of_singleton in Hx1 as ->. eauto.
    + apply list_elem_of_singleton in Hx2 as ->. symmetry. eauto.
Qed.

(** *** Reading a represented list *)
Lemma rep_isempty s L h xs :
  rep s L -> L h = Some xs -> rt_list_isempty s h = bool_decide (xs = []).
Proof.
  intros Hrep Hh. pose proof (proj1 Hrep h _ Hh) as [Hc Hnd].
  unfold rt_list_isempty. apply bool_decide_ext.
  destruct xs as [|x xs]; [destruct Hc; split; done|]. destruct Hc as [[-> _] _].
  split; [intros ->|done]. exfalso. elems.
Qed.

Lemma rep_next_head s L h xs :
  rep s L -> L h = Some xs -> l_next s h = hd h xs.
Proof.
  intros Hrep Hh. pose proof (proj1 Hrep h _ Hh) as [Hc _].
  by destruct (chain_next s h xs h [] h xs Hc eq_refl).
Qed.

Lemma rep_next_mid s L h xs1 x xs2 :
  rep s L -> L h = Some (xs1 ++ x :: xs2) -> l_next s x = hd h xs2.
Proof.
  intros Hrep Hh. pose proof (proj1 Hrep h _ Hh) as [Hc _].
  by destruct (chain_next s h (xs1 ++ x :: xs2) h (h :: xs1) x xs2 Hc eq_refl).
Qed.

Lemma rep_prev s L h xs1 xs2 :
  rep s L -> L h = Some (xs1 ++ xs2) -> l_prev s (hd h xs2) = default h (last xs1).
Proof.
  intros Hrep Hh. pose proof (proj1 Hrep h _ Hh) as [Hc _].
  destruct xs1 as [|x xs1] using rev_ind.
  - by destruct (chain_next s h xs2 h [] h xs2 Hc eq_refl).
  - rewrite last_snoc. rewrite <- app_assoc in Hc. cbn in Hc.
    by destruct (chain_next s h (xs1 ++ x :: xs2) h (h :: xs1) x xs2 Hc eq_refl).
Qed.

Lemma rep_NoDup s L h xs : rep s L -> L h = Some xs -> NoDup xs.
Proof. intros Hrep Hh. pose proof (proj1 Hrep h _ Hh) as [_ Hnd]. elems. Qed.

Lemma rep_head_not_in s L h g xs ys : rep s L -> L h = Some xs -> L g = Some ys -> h ∉ ys.
Proof.
  intros Hrep Hh Hg Hin. assert (h = g) as <-.
  { eapply (proj2 Hrep h g xs ys h); eauto; apply elem_of_cons; auto. }
  pose proof (proj1 Hrep h _ Hg) as [_ Hnd]. elems.
Qed.

Lemma rep_free s L n : rep s L -> L n = Some [] -> free_node L n.
Proof.
  intros Hrep Hn. split; [by right|]. intros h xs Hh. eapply rep_head_not_in; eauto.
Qed.

(** A node is in at most one list. *)
Lemma rep_unique s L h1 h2 xs1 xs2 x :
  rep s L -> L h1 = Some xs1 -> L h2 = Some xs2 -> x ∈ xs1 -> x ∈ xs2 -> h1 = h2.
Proof. intros Hrep H1 H2 Hx1 Hx2. eapply (proj2 Hrep _ _ _ _ x); eauto; by apply elem_of_cons; right. Qed.

Lemma rep_ext s L L' : (forall h, L' h = L h) -> rep s L -> rep s L'.
Proof.
  intros He [H1 H2]. split.
  - intros h xs. rewrite He. apply H1.
  - intros h1 h2 xs1 xs2 x. rewrite !He. apply H2.
Qed.

(** Inserting after the last of the first members, or after the head. *)
Lemma rep_insert_pos s L h xs1 xs2 n :
  rep s L -> L h = Some (xs1 ++ xs2) -> free_node L n -> n <> h ->
  rep (rt_list_insert_after s (default h (last xs1)) n) (<[h := Some (xs1 ++ n :: xs2)]> (<[n := None]> L)).
Proof.
  intros Hrep Hh Hn Hne. destruct xs1 as [|x xs1 _] using rev_ind; [by apply rep_insert_front|].
  rewrite last_snoc. cbn [default]. rewrite <- app_assoc in Hh.
  destruct (rep_insert_after s L h _ (h :: xs1) x xs2 n Hrep Hh Hn Hne) as (xs' & E & H); [done|].
  injection E as ->. by rewrite <- app_assoc.
Qed.

(** *** Removal, wherever the node is *)
Definition on_list (L : N -> option (list N)) (n : N) : Prop :=
  L n = Some [] \/ exists h xs, L h = Some xs /\ n ∈ xs.
Definition unlink (L : N -> option (list N)) (n : N) : N -> option (list N) := fun h =>
  if decide (h = n) then Some [] else without n <$> L h.

Lemma unlink_eq L n : unlink L n n = Some [].
Proof. unfold unlink. by rewrite decide_True. Qed.
Lemma unlink_ne L n h : h <> n -> unlink L n h = without n <$> L h.
Proof. intros. unfold unlink. by rewrite decide_False. Qed.

Lemma rep_unlink s L n : rep s L -> on_list L n -> rep (rt_list_remove s n) (unlink L n).
Proof.
  intros Hrep [Hn|(h & xs & Hh & (xs1 & xs2 & ->)%list_elem_of_split)].
  - eapply rep_ext; [|by apply rep_remove_single]. intros g. unfold unlink.
    case_decide; [by subst|]. destruct (L g) as [ys|] eqn:Hg; [|done]. cbn.
    f_equal. apply without_notin. eapply rep_head_not_in; eauto.
  - pose proof (rep_NoDup _ _ _ _ Hrep Hh) as Hnd.
    eapply rep_ext; [|by eapply rep_remove]. intros g. unfold unlink.
    rewrite !upd_case. destruct (decide (g = n)) as [->|].
    + by rewrite decide_True.
    + rewrite (decide_False (P := n = g)) by congruence.
      destruct (decide (h = g)) as [<-|].
      * rewrite Hh. cbn. by rewrite without_mid.
      * destruct (L g) as [ys|] eqn:Hg; [|done]. cbn. f_equal. apply without_notin.
        intros Hin. apply n1. eapply (rep_unique s L h g); eauto. elems.
Qed.

Lemma unlink_free s L n : rep s L -> on_list L n -> free_node (unlink L n) n.
Proof.
  intros Hrep Hn. split; [right; apply unlink_eq|]. intros h xs Hh.
  unfold unlink in Hh. case_decide; simplify_eq; [apply not_elem_of_nil|].
  destruct (L h); [|done]. injection Hh as <-. rewrite elem_of_without. tauto.
Qed.

Lemma unlink_on_list L n m : L n = None \/ L n = Some [] -> on_list L m -> on_list (unlink L n) m.
Proof.
  intros Hn [Hm|(h & xs & Hh & Hin)]; (destruct (decide (m = n)) as [->|Hne]; [left; apply unlink_eq|]).
  - left. rewrite unlink_ne by done. by rewrite Hm.
  - right. exists h, (without n xs). rewrite unlink_ne, Hh.
    + split; [done|]. by apply elem_of_without.
    + intros ->. destruct Hn as [Hn|Hn]; simplify_eq. by apply elem_of_nil in Hin.
Qed.

(** The operations of rtservice.h on a store of next and prev pointers refine lists:
    insertion after a head prepends, insertion before it appends, removal deletes the
    member and detaches it, every other list of the store is unchanged, and the
    emptiness test is exact. *)
Theorem rt_list_refines s L h xs n x :
  rep s L -> L h = Some xs -> free_node L n -> n <> h -> x ∈ xs ->
  rep (rt_list_insert_after s h n) (<[h := Some (n :: xs)]> (<[n := None]> L)) /\
  rep (rt_list_insert_before s h n) (<[h := Some (xs ++ [n])]> (<[n := None]> L)) /\
  rep (rt_list_remove s x) (unlink L x) /\ (x <> h -> unlink L x h = Some (without x xs)) /\ unlink L x x = Some [] /\
  rt_list_isempty (rt_list_remove s x) h = bool_decide (xs = [x]).
Proof.
  intros Hrep Hh Hf Hne Hx.
  assert (on_list L x) as Hon by (right; eauto). pose proof (rep_unlink _ _ _ Hrep Hon) as Hu.
  assert (x <> h) as Hxh.
  { intros ->. pose proof (proj1 Hrep h _ Hh) as [_ Hnd]. apply NoDup_cons in Hnd as [Hn _]. done. }
  assert (unlink L x h = Some (without x xs)) as Hux by (rewrite unlink_ne, Hh by congruence; done).
  split; [by apply rep_insert_front|]. split; [by apply rep_insert_tail|]. split; [exact Hu|].
  split; [done|]. split; [apply unlink_eq|].
  rewrite (rep_isempty _ _ _ _ Hu Hux). apply bool_decide_ext.
  pose proof (rep_NoDup _ _ _ _ Hrep Hh) as Hnd. apply list_elem_of_split in Hx as (l1 & l2 & ->).
  rewrite without_mid by done. split.
  - intros [-> ->]%app_nil. done.
  - intros E. destruct l1 as [|y l1]; cbn in E; [by injection E as ->|]. injection E as -> E. by destruct l1.
Qed.
End RtList.
Arguments links : clear implicits.
