(* ===== verification/Kservice.v ===== *)
(** Kernel services (src/kservice.c): first-bit-set on a machine word, and the
    bounded string operations the object system uses. *)
From S2P Require Import Prelude.

(** ** __rt_ffs *)
Definition __lowest_bit_bitmap : list Z :=
  [ 0; 0; 1; 0; 2; 0; 1; 0; 3; 0; 1; 0; 2; 0; 1; 0;
    4; 0; 1; 0; 2; 0; 1; 0; 3; 0; 1; 0; 2; 0; 1; 0;
    5; 0; 1; 0; 2; 0; 1; 0; 3; 0; 1; 0; 2; 0; 1; 0;
    4; 0; 1; 0; 2; 0; 1; 0; 3; 0; 1; 0; 2; 0; 1; 0;
    6; 0; 1; 0; 2; 0; 1; 0; 3; 0; 1; 0; 2; 0; 1; 0;
    4; 0; 1; 0; 2; 0; 1; 0; 3; 0; 1; 0; 2; 0; 1; 0;
    5; 0; 1; 0; 2; 0; 1; 0; 3; 0; 1; 0; 2; 0; 1; 0;
    4; 0; 1; 0; 2; 0; 1; 0; 3; 0; 1; 0; 2; 0; 1; 0;
    7; 0; 1; 0; 2; 0; 1; 0; 3; 0; 1; 0; 2; 0; 1; 0;
    4; 0; 1; 0; 2; 0; 1; 0; 3; 0; 1; 0; 2; 0; 1; 0;
    5; 0; 1; 0; 2; 0; 1; 0; 3; 0; 1; 0; 2; 0; 1; 0;
    4; 0; 1; 0; 2; 0; 1; 0; 3; 0; 1; 0; 2; 0; 1; 0;
    6; 0; 1; 0; 2; 0; 1; 0; 3; 0; 1; 0; 2; 0; 1; 0;
    4; 0; 1; 0; 2; 0; 1; 0; 3; 0; 1; 0; 2; 0; 1; 0;
    5; 0; 1; 0; 2; 0; 1; 0; 3; 0; 1; 0; 2; 0; 1; 0;
    4; 0; 1; 0; 2; 0; 1; 0; 3; 0; 1; 0; 2; 0; 1; 0 ].

Definition lowest_bit (i : Z) : Z := nth (Z.to_nat i) __lowest_bit_bitmap 0.

Definition __rt_ffs (value : Z) : Z :=
  if value =? 0 then 0
  else if negb (Z.land value 0xff =? 0) then
    lowest_bit (Z.land value 0xff) + 1
  else if negb (Z.land value 0xff00 =? 0) then
    lowest_bit (Z.shiftr (Z.land value 0xff00) 8) + 9
  else if negb (Z.land value 0xff0000 =? 0) then
    lowest_bit (Z.shiftr (Z.land value 0xff0000) 16) + 17
  else
    lowest_bit (Z.shiftr (Z.land (uint32 value) 0xff000000) 24) + 25.

(** The reference definition of the result. *)
Definition lowest_set (v r : Z) : Prop :=
  Z.testbit v r = true /\ forall i, 0 <= i < r -> Z.testbit v i = false.

Definition lowest_set_byte (v : Z) : bool :=
  let r := lowest_bit v in
  Z.testbit v r && (0 <=? r) && (r <? 8) &&
  forallb (fun i => negb (Z.testbit v (Z.of_nat i)) || (r <=? Z.of_nat i)) (List.seq 0 8).

Lemma lowest_bit_table :
  forallb (fun n => (Nat.eqb n 0) || lowest_set_byte (Z.of_nat n)) (List.seq 0 256) = true.
Proof. vm_compute. reflexivity. Qed.

Lemma lowest_bit_spec v :
  0 < v < 256 -> 0 <= lowest_bit v < 8 /\ lowest_set v (lowest_bit v).
Proof.
  intros Hv. pose proof lowest_bit_table as Ht. rewrite forallb_forall in Ht.
  specialize (Ht (Z.to_nat v)). rewrite in_seq in Ht. specialize (Ht ltac:(lia)).
  apply orb_true_iff in Ht as [Ht|Ht]; [apply Nat.eqb_eq in Ht; lia|].
  rewrite Z2Nat.id in Ht by lia. unfold lowest_set_byte in Ht.
  apply andb_true_iff in Ht as [Ht H4]. apply andb_true_iff in Ht as [Ht H3].
  apply andb_true_iff in Ht as [H1 H2].
  apply Z.leb_le in H2. apply Z.ltb_lt in H3. split; [lia|]. split; [done|]. intros i Hi.
  rewrite forallb_forall in H4. specialize (H4 (Z.to_nat i)).
  rewrite in_seq, Z2Nat.id in H4 by lia. specialize (H4 ltac:(lia)).
  destruct (Z.testbit v i); [|done]. apply Z.leb_le in H4. lia.
Qed.

(** The byte at bit [k] of a word. *)
Definition byte_at (v k : Z) : Z := Z.shiftr v k mod 256.

Lemma byte_at_testbit v k i :
  0 <= k -> 0 <= i -> Z.testbit (byte_at v k) i = Z.testbit v (i + k) && (i <? 8).
Proof.
  intros Hk Hi. unfold byte_at. change 256 with (2 ^ 8).
  destruct (Z.ltb_spec i 8).
  - rewrite Z.mod_pow2_bits_low, Z.shiftr_spec by lia. by rewrite andb_true_r.
  - rewrite Z.mod_pow2_bits_high by lia. by rewrite andb_false_r.
Qed.

Lemma byte_at_range v k : 0 <= byte_at v k < 256.
Proof. unfold byte_at. apply Z.mod_pos_bound. lia. Qed.

Lemma land_mask_byte v k :
  0 <= k -> Z.land v (Z.shiftl 0xff k) = Z.shiftl (byte_at v k) k.
Proof.
  intros Hk. apply Z.bits_inj'. intros i Hi.
  rewrite Z.land_spec, !Z.shiftl_spec by lia.
  destruct (decide (i < k)).
  - rewrite !(Z.testbit_neg_r _ (i - k)) by lia. by rewrite andb_false_r.
  - rewrite byte_at_testbit by lia. replace (i - k + k) with i by lia. f_equal.
    change 0xff with (Z.ones 8). destruct (Z.ltb_spec (i - k) 8).
    + apply Z.ones_spec_low. lia.
    + apply Z.ones_spec_high. lia.
Qed.

Lemma lowest_set_byte_at v k r :
  0 <= k -> (forall i, 0 <= i < k -> Z.testbit v i = false) -> 0 <= r < 8 ->
  lowest_set (byte_at v k) r -> lowest_set v (r + k).
Proof.
  intros Hk Hlow Hr [H1 H2]. split.
  - rewrite byte_at_testbit in H1 by lia. by apply andb_true_iff in H1 as [? _].
  - intros i Hi. destruct (decide (i < k)); [apply Hlow; lia|].
    specialize (H2 (i - k) ltac:(lia)). rewrite byte_at_testbit in H2 by lia.
    replace (i - k + k) with i in H2 by lia.
    apply andb_false_iff in H2 as [?|E]; [done|]. apply Z.ltb_ge in E. lia.
Qed.

Lemma byte_at_zero v k :
  0 <= k -> byte_at v k = 0 -> forall i, k <= i < k + 8 -> Z.testbit v i = false.
Proof.
  intros Hk Hz i Hi. pose proof (byte_at_testbit v k (i - k) Hk ltac:(lia)) as H.
  rewrite Hz, Z.bits_0 in H. replace (i - k + k) with i in H by lia.
  destruct (Z.testbit v i); [|done]. symmetry in H. apply Z.ltb_ge in H. lia.
Qed.

Lemma byte_at_uint v k : 0 <= k -> k + 8 <= 32 -> byte_at (uint32 v) k = byte_at v k.
Proof.
  intros Hk Hk8. apply Z.bits_inj'. intros i Hi. rewrite !byte_at_testbit by lia.
  destruct (Z.ltb_spec i 8); [|by rewrite !andb_false_r]. by rewrite testbit_uint by lia.
Qed.

Lemma word_zero v :
  (forall i, 0 <= i < 32 -> Z.testbit v i = false) -> uint32 v = 0.
Proof.
  intros H. apply Z.bits_inj'. intros i Hi. rewrite Z.bits_0. destruct (decide (i < 32)).
  - rewrite testbit_uint by lia. apply H. lia.
  - unfold uint. apply Z.mod_pow2_bits_high. lia.
Qed.

Lemma __rt_ffs_lowest v :
  uint32 v <> 0 ->
  1 <= __rt_ffs v <= 32 /\ lowest_set v (__rt_ffs v - 1).
Proof.
  intros Hnz. unfold __rt_ffs.
  destruct (v =? 0) eqn:Ez; [apply Z.eqb_eq in Ez as ->; done|].
  assert (forall k, 0 <= k -> Z.land v (Z.shiftl 0xff k) = 0 <-> byte_at v k = 0) as Hb.
  { intros k Hk. rewrite land_mask_byte by done. rewrite Z.shiftl_mul_pow2 by done.
    assert (0 < 2 ^ k) by lia. nia. }
  assert (forall k, 0 <= k -> Z.shiftr (Z.land v (Z.shiftl 0xff k)) k = byte_at v k) as Hs.
  { intros k Hk. rewrite land_mask_byte by done. by rewrite Z.shiftr_shiftl_l, Z.sub_diag, Z.shiftl_0_r by done. }
  pose proof (Hb 0 ltac:(lia)) as H0. pose proof (Hb 8 ltac:(lia)) as H8.
  pose proof (Hb 16 ltac:(lia)) as H16.
  change (Z.shiftl 0xff 0) with 0xff in H0. change (Z.shiftl 0xff 8) with 0xff00 in H8.
  change (Z.shiftl 0xff 16) with 0xff0000 in H16.
  pose proof (Hs 8 ltac:(lia)) as S8. pose proof (Hs 16 ltac:(lia)) as S16.
  change (Z.shiftl 0xff 8) with 0xff00 in S8. change (Z.shiftl 0xff 16) with 0xff0000 in S16.
  pose proof (fun k => byte_at_range v k) as Hr.
  assert (Z.land v 0xff = byte_at v 0) as E0.
  { pose proof (Hs 0 ltac:(lia)) as S0. rewrite Z.shiftr_0_r in S0. exact S0. }
  pose proof (fun k r H1 => lowest_set_byte_at v k r H1) as Hl.
  destruct (Z.eqb_spec (Z.land v 0xff) 0) as [Z0|N0]; cbn [negb].
  2: { rewrite E0 in *. destruct (lowest_bit_spec (byte_at v 0)) as [Hrng Hlow]; [specialize (Hr 0); lia|].
       split; [lia|]. replace (lowest_bit (byte_at v 0) + 1 - 1) with (lowest_bit (byte_at v 0) + 0) by lia.
       apply Hl; auto; lia. }
  apply H0 in Z0. pose proof (byte_at_zero v 0 ltac:(lia) Z0) as L0.
  destruct (Z.eqb_spec (Z.land v 0xff00) 0) as [Z8|N8]; cbn [negb].
  2: { rewrite S8. destruct (lowest_bit_spec (byte_at v 8)) as [Hrng Hlow]; [specialize (Hr 8); lia|].
       split; [lia|]. replace (lowest_bit (byte_at v 8) + 9 - 1) with (lowest_bit (byte_at v 8) + 8) by lia.
       apply Hl; auto; lia. }
  apply H8 in Z8. pose proof (byte_at_zero v 8 ltac:(lia) Z8) as L8.
  assert (forall i, 0 <= i < 16 -> Z.testbit v i = false) as L16.
  { intros i Hi. destruct (decide (i < 8)); [apply L0|apply L8]; lia. }
  destruct (Z.eqb_spec (Z.land v 0xff0000) 0) as [Z16|N16]; cbn [negb].
  2: { rewrite S16. destruct (lowest_bit_spec (byte_at v 16)) as [Hrng Hlow]; [specialize (Hr 16); lia|].
       split; [lia|]. replace (lowest_bit (byte_at v 16) + 17 - 1) with (lowest_bit (byte_at v 16) + 16) by lia.
       apply Hl; auto; lia. }
  apply H16 in Z16. pose proof (byte_at_zero v 16 ltac:(lia) Z16) as L24.
  assert (forall i, 0 <= i < 24 -> Z.testbit v i = false) as L24'.
  { intros i Hi. destruct (decide (i < 16)); [apply L16|apply L24]; lia. }
  change 0xff000000 with (Z.shiftl 0xff 24). rewrite land_mask_byte by lia.
  rewrite Z.shiftr_shiftl_l, Z.sub_diag, Z.shiftl_0_r by lia. rewrite byte_at_uint by lia.
  assert (byte_at v 24 <> 0) as N24.
  { intros Z24. apply Hnz, word_zero. intros i Hi. pose proof (byte_at_zero v 24 ltac:(lia) Z24).
    destruct (decide (i < 24)); auto with lia. }
  destruct (lowest_bit_spec (byte_at v 24)) as [Hrng Hlow]; [specialize (Hr 24); lia|].
  split; [lia|]. replace (lowest_bit (byte_at v 24) + 25 - 1) with (lowest_bit (byte_at v 24) + 24) by lia.
  apply Hl; auto; lia.
Qed.

(** ** Bounded strings

    A C string is the list of its bytes before the terminating NUL; reading at
    or past the end of the list gives the NUL. *)
Fixpoint rt_strncpy (src : list Z) (n : nat) {struct n} : list Z :=
  match n with
  | O => []
  | S n =>
    match src with
    | [] => 0 :: replicate n 0
    | ch :: src => if ch =? 0 then 0 :: replicate n 0 else ch :: rt_strncpy src n
    end
  end.

(** [__res] is a signed char, zero when the loop ends by its count. *)
Fixpoint rt_strncmp (cs ct : list Z) (count : nat) : Z :=
  match count with
  | O => 0
  | S count =>
    let res := sint 8 (hd 0 cs - hd 0 ct) in
    if negb (res =? 0) || (hd 0 cs =? 0) then uint32 res
    else rt_strncmp (tl cs) (tl ct) count
  end.

Definition is_bytes (s : list Z) : Prop := Forall (fun c => 0 <= c < 256) s.

Lemma sint8_diff a b : 0 <= a < 256 -> 0 <= b < 256 -> sint 8 (a - b) = 0 <-> a = b.
Proof.
  intros Ha Hb. unfold sint. change (2 ^ (8 - 1)) with 128. change (2 ^ 8) with 256.
  split; [|intros ->; by rewrite Z.sub_diag].
  intros H. assert ((a - b + 128) mod 256 = 128) as Hm by lia.
  pose proof (Z.div_mod (a - b + 128) 256). lia.
Qed.

Lemma rt_strncpy_nil n : rt_strncpy [] n = replicate n 0.
Proof. by destruct n. Qed.

Lemma is_bytes_hd s : is_bytes s -> 0 <= hd 0 s < 256.
Proof. destruct 1; cbn; lia. Qed.
Lemma is_bytes_tl s : is_bytes s -> is_bytes (tl s).
Proof. destruct 1; [constructor|done]. Qed.

Lemma rt_strncpy_step s n :
  rt_strncpy s (S n) = hd 0 s :: (if hd 0 s =? 0 then replicate n 0 else rt_strncpy (tl s) n).
Proof. destruct s as [|ch s]; cbn; [done|]. destruct (Z.eqb_spec ch 0) as [->|]; done. Qed.

(** Two names compare equal exactly when their stored, NUL padded, copies are equal. *)
Lemma rt_strncmp_zero a b n :
  is_bytes a -> is_bytes b -> rt_strncmp a b n = 0 <-> rt_strncpy a n = rt_strncpy b n.
Proof.
  revert a b; induction n as [|n IH]; intros a b Ha Hb; [done|].
  rewrite !rt_strncpy_step. cbn [rt_strncmp].
  pose proof (is_bytes_hd _ Ha) as Ha0. pose proof (is_bytes_hd _ Hb) as Hb0.
  pose proof (sint8_diff _ _ Ha0 Hb0) as Hd.
  destruct (Z.eqb_spec (sint 8 (hd 0 a - hd 0 b)) 0) as [E|E]; cbn [negb orb].
  - apply Hd in E. rewrite <- E. destruct (Z.eqb_spec (hd 0 a) 0) as [E0|E0].
    + rewrite E0. split; done.
    + rewrite IH by (by apply is_bytes_tl). split; [by intros ->|]. by injection 1.
  - split; [|intros [= E']; exfalso; by apply E, Hd].
    intros H. exfalso. apply E. revert H. unfold uint, sint.
    change (2 ^ (8 - 1)) with 128. change (2 ^ 8) with 256. intros H.
    pose proof (Z.mod_pos_bound (hd 0 a - hd 0 b + 128) 256 ltac:(lia)).
    set (x := (hd 0 a - hd 0 b + 128) mod 256 - 128) in *.
    pose proof (Z.div_mod x (2 ^ 32)). lia.
Qed.

Lemma rt_strncpy_length s n : length (rt_strncpy s n) = n.
Proof.
  revert s; induction n as [|n IH]; intros s; [done|]. rewrite rt_strncpy_step. cbn.
  destruct (hd 0 s =? 0); [by rewrite length_replicate|by rewrite IH].
Qed.

Lemma rt_strncpy_bytes s n : is_bytes s -> is_bytes (rt_strncpy s n).
Proof.
  revert s; induction n as [|n IH]; intros s Hs; [constructor|].
  rewrite rt_strncpy_step. constructor; [by apply is_bytes_hd|].
  destruct (hd 0 s =? 0); [|by apply IH, is_bytes_tl].
  apply Forall_replicate. lia.
Qed.

(** Copying a stored name again changes nothing. *)
Lemma rt_strncpy_idem s n : rt_strncpy (rt_strncpy s n) n = rt_strncpy s n.
Proof.
  revert s; induction n as [|n IH]; intros s; [done|].
  rewrite (rt_strncpy_step s), rt_strncpy_step. cbn [hd tl].
  destruct (hd 0 s =? 0); [done|]. by rewrite IH.
Qed.

(** The C string in the first [n] bytes. *)
Fixpoint c_string (n : nat) (s : list Z) : list Z :=
  match n, s with
  | S n, ch :: s => if ch =? 0 then [] else ch :: c_string n s
  | _, _ => []
  end.
Lemma c_string_length n s : (length (c_string n s) <= n)%nat.
Proof. revert s. induction n as [|n IH]; intros [|ch s]; cbn; try lia. case_match; cbn; [lia|]. specialize (IH s). lia. Qed.
Lemma rt_strncpy_pad s n : rt_strncpy s n = c_string n s ++ replicate (n - length (c_string n s)) 0.
Proof.
  revert s. induction n as [|n IH]; intros [|ch s]; cbn; try done. case_match; [done|]. cbn. by rewrite IH.
Qed.
Lemma c_string_no_nul n s : 0 ∉ c_string n s.
Proof.
  revert s. induction n as [|n IH]; intros [|ch s]; cbn; try apply not_elem_of_nil.
  destruct (Z.eqb_spec ch 0) as [|Hne]; [apply not_elem_of_nil|]. apply not_elem_of_cons. split; [by apply not_eq_sym|apply IH].
Qed.
Lemma pad_inj (a b : list Z) n m : 0 ∉ a -> 0 ∉ b -> a ++ replicate n 0 = b ++ replicate m 0 -> a = b.
Proof.
  revert b. induction a as [|x a IH]; intros [|y b] Ha Hb E; [done| | |].
  - destruct n; [done|]. injection E as <- _. exfalso. apply Hb. by left.
  - destruct m; [done|]. injection E as -> _. exfalso. apply Ha. by left.
  - injection E as -> E. f_equal. apply not_elem_of_cons in Ha as [_ Ha]. apply not_elem_of_cons in Hb as [_ Hb]. by apply IH.
Qed.

(** rt_strncmp finds two names equal within [n] bytes exactly when their C strings cut
    to [n] bytes are equal, and rt_strncpy stores exactly that string, padded with NUL
    to [n] bytes. *)
Theorem rt_strncmp_strncpy_names a b n :
  is_bytes a -> is_bytes b ->
  (rt_strncmp a b n = 0 <-> c_string n a = c_string n b) /\
  rt_strncpy a n = c_string n a ++ replicate (n - length (c_string n a)) 0 /\
  length (rt_strncpy a n) = n /\ rt_strncmp (rt_strncpy a n) a n = 0.
Proof.
  intros Ha Hb. split; [|split; [apply rt_strncpy_pad|split; [apply rt_strncpy_length|]]].
  - rewrite (rt_strncmp_zero a b n Ha Hb), !rt_strncpy_pad. split; [|by intros ->].
    intros E. eapply pad_inj; [apply c_string_no_nul..|exact E].
  - apply rt_strncmp_zero; [by apply rt_strncpy_bytes|done|apply rt_strncpy_idem].
Qed.

(** __rt_ffs returns one plus the index of the lowest set bit of its 32-bit argument,
    through the byte table, and zero for zero. *)
Theorem rt_ffs_lowest_bit v :
  0 <= v < 2 ^ 32 ->
  (v = 0 /\ __rt_ffs v = 0) \/
  (v <> 0 /\ 1 <= __rt_ffs v <= 32 /\ Z.testbit v (__rt_ffs v - 1) = true /\
   forall i, 0 <= i < __rt_ffs v - 1 -> Z.testbit v i = false).
Proof.
  intros Hv. destruct (decide (v = 0)) as [->|Hnz]; [left; by split|right]. split; [done|].
  apply __rt_ffs_lowest. by rewrite uint_small.
Qed.
