(* ===== verification/MemOps.v ===== *)
(** Memory and string services (src/kservice.c): rt_memset, rt_memcpy, rt_memmove,
    rt_memcmp, rt_strlen, rt_strstr, rt_strcmp and rt_strcasecmp, with RT_TINY_SIZE
    off.  Memory is one byte per address; an rt_uint32_t is four bytes. *)
From S2P Require Import Prelude Kservice.

Notation memory := (Z -> Z).
Implicit Types (m : memory).

(** Loading and storing an aligned word; the order of the bytes does not matter to
    the code, only that a load undoes a store. *)
Definition word_byte (v i : Z) : Z := Z.land (Z.shiftr v (8 * i)) 255.
Definition store_word (a v : Z) m : memory :=
  <[a + 3 := word_byte v 3]> (<[a + 2 := word_byte v 2]> (<[a + 1 := word_byte v 1]> (<[a := word_byte v 0]> m))).
(** [*dst = *src] for two words. *)
Definition copy_word (dst src : Z) m : memory :=
  <[dst + 3 := m (src + 3)]> (<[dst + 2 := m (src + 2)]> (<[dst + 1 := m (src + 1)]> (<[dst := m src]> m))).
Definition LBLOCKSIZE : Z := 4.
Definition UNALIGNED (x : Z) : bool := negb (Z.land x (LBLOCKSIZE - 1) =? 0).

(** ** rt_memset *)
(** [while (count--) *m++ = d;] *)
Fixpoint byte_fill (count : nat) (s d : Z) m : memory :=
  match count with
  | O => m
  | S count => byte_fill count (s + 1) d (<[s := d]> m)
  end.
(** The unrolled loop and the word loop: the next address, what is left to fill, and
    the memory.  The fuel is the count, which every round decreases. *)
Fixpoint big_fill (fuel : nat) (aligned_addr buffer count : Z) m : Z * Z * memory :=
  match fuel with
  | O => (aligned_addr, count, m)
  | S fuel =>
    if count >=? LBLOCKSIZE * 4 then
      let m := store_word aligned_addr buffer m in
      let m := store_word (aligned_addr + 4) buffer m in
      let m := store_word (aligned_addr + 8) buffer m in
      let m := store_word (aligned_addr + 12) buffer m in
      big_fill fuel (aligned_addr + 16) buffer (count - 4 * LBLOCKSIZE) m
    else (aligned_addr, count, m)
  end.
Fixpoint word_fill (fuel : nat) (aligned_addr buffer count : Z) m : Z * Z * memory :=
  match fuel with
  | O => (aligned_addr, count, m)
  | S fuel =>
    if count >=? LBLOCKSIZE then
      word_fill fuel (aligned_addr + 4) buffer (count - LBLOCKSIZE) (store_word aligned_addr buffer m)
    else (aligned_addr, count, m)
  end.
Definition rt_memset (s c count : Z) m : memory :=
  let d := Z.land c 255 in
  if negb (count <? LBLOCKSIZE) && negb (UNALIGNED s) then
    let buffer := Z.lor (Z.shiftl d 8) d in
    let buffer := uint32 (Z.lor buffer (Z.shiftl buffer 16)) in
    let '(a, count, m) := big_fill (Z.to_nat count) s buffer count m in
    let '(a, count, m) := word_fill (Z.to_nat count) a buffer count m in
    byte_fill (Z.to_nat count) a d m
  else byte_fill (Z.to_nat count) s d m.

(** ** rt_memcpy *)
Fixpoint byte_copy (count : nat) (dst src : Z) m : memory :=
  match count with
  | O => m
  | S count => byte_copy count (dst + 1) (src + 1) (<[dst := m src]> m)
  end.
Fixpoint big_copy (fuel : nat) (dst src len : Z) m : Z * Z * Z * memory :=
  match fuel with
  | O => (dst, src, len, m)
  | S fuel =>
    if len >=? 4 * LBLOCKSIZE then
      let m := copy_word dst src m in
      let m := copy_word (dst + 4) (src + 4) m in
      let m := copy_word (dst + 8) (src + 8) m in
      let m := copy_word (dst + 12) (src + 12) m in
      big_copy fuel (dst + 16) (src + 16) (len - 4 * LBLOCKSIZE) m
    else (dst, src, len, m)
  end.
Fixpoint word_copy (fuel : nat) (dst src len : Z) m : Z * Z * Z * memory :=
  match fuel with
  | O => (dst, src, len, m)
  | S fuel =>
    if len >=? LBLOCKSIZE then
      word_copy fuel (dst + 4) (src + 4) (len - LBLOCKSIZE) (copy_word dst src m)
    else (dst, src, len, m)
  end.
Definition rt_memcpy (dst src count : Z) m : memory :=
  if negb (count <? 4 * LBLOCKSIZE) && negb (UNALIGNED src || UNALIGNED dst) then
    let '(dst, src, len, m) := big_copy (Z.to_nat count) dst src count m in
    let '(dst, src, len, m) := word_copy (Z.to_nat len) dst src len m in
    byte_copy (Z.to_nat len) dst src m
  else byte_copy (Z.to_nat count) dst src m.

(** ** rt_memmove and rt_memcmp *)
(** [while (n--) *(--tmp) = *(--s);] *)
Fixpoint byte_copy_down (n : nat) (tmp s : Z) m : memory :=
  match n with
  | O => m
  | S n => byte_copy_down n (tmp - 1) (s - 1) (<[tmp - 1 := m (s - 1)]> m)
  end.
Definition rt_memmove (dest src n : Z) m : memory :=
  if (src <? dest) && (dest <? src + n) then byte_copy_down (Z.to_nat n) (dest + n) (src + n) m
  else byte_copy (Z.to_nat n) dest src m.

Fixpoint memcmp_loop (count : nat) (su1 su2 : Z) m : Z :=
  match count with
  | O => 0
  | S count =>
    let res := m su1 - m su2 in
    if negb (res =? 0) then res else memcmp_loop count (su1 + 1) (su2 + 1) m
  end.
Definition rt_memcmp (cs ct count : Z) m : Z := memcmp_loop (Z.to_nat count) cs ct m.

(** ** Strings in memory *)
(** The scan ends at the NUL; [None] is a scan longer than the fuel. *)
Fixpoint strlen_loop (fuel : nat) (sc : Z) m : option Z :=
  match fuel with
  | O => None
  | S fuel => if m sc =? 0 then Some sc else strlen_loop fuel (sc + 1) m
  end.
Definition rt_strlen (fuel : nat) (s : Z) m : option Z :=
  sc ← strlen_loop fuel s m; Some (sc - s).

(** The result is the pointer returned, if any; the number of rounds is at most the
    length of the first string. *)
Fixpoint strstr_loop (fuel : nat) (s1 s2 l1 l2 : Z) m : option Z :=
  match fuel with
  | O => None
  | S fuel =>
    if l1 >=? l2 then
      if rt_memcmp s1 s2 l2 m =? 0 then Some s1
      else strstr_loop fuel (s1 + 1) s2 (l1 - 1) l2 m
    else None
  end.
Definition rt_strstr (fuel : nat) (s1 s2 : Z) m : option (option Z) :=
  l2 ← rt_strlen fuel s2 m;
  if l2 =? 0 then Some (Some s1)
  else
    l1 ← rt_strlen fuel s1 m;
    Some (strstr_loop (Z.to_nat (l1 + 1)) s1 s2 l1 l2 m).

(** ** Strings as lists of bytes; past the end of the list is the NUL.  A plain char
    is taken as unsigned, which only matters to the sign of the result. *)
Fixpoint rt_strcmp (cs ct : list Z) : Z :=
  match cs with
  | [] => uint32 (0 - hd 0 ct)
  | ch :: cs =>
    if negb (ch =? 0) && (ch =? hd 0 ct) then rt_strcmp cs (tl ct) else uint32 (ch - hd 0 ct)
  end.
Definition lower (c : Z) : Z := if (c >=? 65) && (c <=? 90) then c + 32 else c.
Fixpoint rt_strcasecmp (a b : list Z) : Z :=
  let ca := lower (Z.land (hd 0 a) 255) in
  let cb := lower (Z.land (hd 0 b) 255) in
  match a with
  | [] => uint32 (ca - cb)
  | _ :: a => if (ca =? cb) && negb (ca =? 0) then rt_strcasecmp a (tl b) else uint32 (ca - cb)
  end.

(** ** Specification: what memory holds afterwards *)
Definition filled (s n d : Z) m : memory := fun a => if decide (s <= a < s + n) then d else m a.
Definition moved (dst src n : Z) m : memory := fun a => if decide (dst <= a < dst + n) then m (src + (a - dst)) else m a.
(** A forward copy reads every byte before it is overwritten. *)
Definition forward_ok (dst src n : Z) : Prop := dst <= src \/ src + n <= dst.

Ltac mem_cases :=
  repeat first
    [ rewrite upd_case
    | match goal with |- context [decide ?P] => destruct (decide P) end ];
  subst; try lia; try done.

Lemma filled_0 s n d m a : n <= 0 -> filled s n d m a = m a.
Proof. intros H. unfold filled. by rewrite decide_False by lia. Qed.
Lemma filled_app s n k d m m' a :
  0 <= k -> 0 <= n -> (forall b, m' b = filled s k d m b) -> filled (s + k) n d m' a = filled s (k + n) d m a.
Proof. intros Hk Hn H. unfold filled at 1. rewrite H. unfold filled. mem_cases. Qed.
Lemma moved_0 dst src n m a : n <= 0 -> moved dst src n m a = m a.
Proof. intros H. unfold moved. by rewrite decide_False by lia. Qed.
Lemma moved_app dst src n k m m' a :
  0 <= k -> 0 <= n -> forward_ok dst src (k + n) -> (forall b, m' b = moved dst src k m b) ->
  moved (dst + k) (src + k) n m' a = moved dst src (k + n) m a.
Proof.
  intros Hk Hn Hf H. unfold moved at 1. rewrite !H. unfold moved. destruct Hf; mem_cases; f_equal; lia.
Qed.

Lemma byte_fill_spec count : forall s d m a, byte_fill count s d m a = filled s (Z.of_nat count) d m a.
Proof.
  induction count as [|count IH]; intros s d m a; [by rewrite filled_0|]. cbn [byte_fill]. rewrite IH.
  replace (Z.of_nat (S count)) with (1 + Z.of_nat count) by lia. apply filled_app; [lia..|].
  intros b. unfold filled. mem_cases.
Qed.
Lemma byte_copy_spec count : forall dst src m a,
  forward_ok dst src (Z.of_nat count) -> byte_copy count dst src m a = moved dst src (Z.of_nat count) m a.
Proof.
  induction count as [|count IH]; intros dst src m a Hf; [by rewrite moved_0|]. cbn [byte_copy].
  rewrite IH by (unfold forward_ok in *; lia). replace (Z.of_nat (S count)) with (1 + Z.of_nat count) in * by lia.
  apply moved_app; [lia|lia|done|]. intros b. unfold moved. mem_cases; f_equal; lia.
Qed.

(** The word [buffer] is four times the byte. *)
Lemma word_byte_buffer d i : 0 <= d < 256 -> 0 <= i < 4 ->
  word_byte (uint32 (Z.lor (Z.lor (Z.shiftl d 8) d) (Z.shiftl (Z.lor (Z.shiftl d 8) d) 16))) i = d.
Proof.
  intros Hd Hi.
  assert (forallb (fun d => forallb (fun i => word_byte (uint32 (Z.lor (Z.lor (Z.shiftl d 8) d)
    (Z.shiftl (Z.lor (Z.shiftl d 8) d) 16))) i =? d) [0; 1; 2; 3]) (seqZ 0 256) = true) as H by (by vm_compute).
  rewrite forallb_forall in H. specialize (H d). rewrite <- list_elem_of_In, elem_of_seqZ in H. specialize (H ltac:(lia)).
  rewrite forallb_forall in H. specialize (H i). apply Z.eqb_eq, H.
  assert (i = 0 \/ i = 1 \/ i = 2 \/ i = 3) as [-> | [-> | [-> | ->]]] by lia; cbn; auto.
Qed.
Lemma store_word_fill s v d m a : (forall i, 0 <= i < 4 -> word_byte v i = d) -> store_word s v m a = filled s 4 d m a.
Proof. intros H. unfold store_word. rewrite !H by lia. unfold filled. mem_cases. Qed.
Lemma copy_word_moved dst src m a : copy_word dst src m a = moved dst src 4 m a.
Proof. unfold copy_word, moved. mem_cases; f_equal; lia. Qed.

(** The word loops fill or copy a prefix, however many rounds they run. *)
Definition prefix_filled (s d count : Z) m (r : Z * Z * memory) : Prop :=
  let '(s', count', m') := r in
  s' = s + (count - count') /\ 0 <= count' <= count /\ forall b, m' b = filled s (count - count') d m b.
Lemma prefix_filled_step s d count k m m' r :
  0 <= k <= count -> (forall b, m' b = filled s k d m b) ->
  prefix_filled (s + k) d (count - k) m' r -> prefix_filled s d count m r.
Proof.
  destruct r as [[s' count'] m2]. intros Hk H (H1 & H2 & H3). split; [lia|]. split; [lia|]. intros b.
  rewrite H3, (filled_app s _ k d m) by (done || lia). f_equal. lia.
Qed.
Lemma prefix_filled_refl s d count m : 0 <= count -> prefix_filled s d count m (s, count, m).
Proof. intros H. split; [lia|]. split; [lia|]. intros b. rewrite filled_0 by lia. done. Qed.
Lemma word_fill_spec fuel : forall s v d count m, (forall i, 0 <= i < 4 -> word_byte v i = d) -> 0 <= count ->
  prefix_filled s d count m (word_fill fuel s v count m).
Proof.
  induction fuel as [|fuel IH]; intros s v d count m Hv Hc; cbn [word_fill]; [by apply prefix_filled_refl|].
  unfold LBLOCKSIZE. destruct (Z.geb_spec count 4); [|by apply prefix_filled_refl].
  eapply (prefix_filled_step _ _ _ 4); [lia|intros b; by apply store_word_fill|]. apply IH; [done|lia].
Qed.
Lemma store_words_filled s v d m a : (forall i, 0 <= i < 4 -> word_byte v i = d) ->
  store_word (s + 12) v (store_word (s + 8) v (store_word (s + 4) v (store_word s v m))) a = filled s 16 d m a.
Proof.
  intros Hv. assert (forall k b, 0 <= k <= 12 -> forall m', (forall b, m' b = filled s k d m b) ->
    store_word (s + k) v m' b = filled s (k + 4) d m b) as H.
  { intros k b Hk m' Hm. rewrite (store_word_fill _ _ d) by done. apply filled_app; [lia|lia|done]. }
  apply (H 12); [lia|]. intros b. apply (H 8); [lia|]. intros b'. apply (H 4); [lia|]. intros b2. by apply store_word_fill.
Qed.
Lemma big_fill_spec fuel : forall s v d count m, (forall i, 0 <= i < 4 -> word_byte v i = d) -> 0 <= count ->
  prefix_filled s d count m (big_fill fuel s v count m).
Proof.
  induction fuel as [|fuel IH]; intros s v d count m Hv Hc; cbn [big_fill]; [by apply prefix_filled_refl|].
  unfold LBLOCKSIZE. destruct (Z.geb_spec count (4 * 4)); [|by apply prefix_filled_refl].
  eapply (prefix_filled_step _ _ _ 16); [lia|intros b; by apply store_words_filled|apply IH; [done|lia]].
Qed.
Definition prefix_moved (dst src len : Z) m (r : Z * Z * Z * memory) : Prop :=
  let '(dst', src', len', m') := r in
  dst' = dst + (len - len') /\ src' = src + (len - len') /\ 0 <= len' <= len /\
  forall b, m' b = moved dst src (len - len') m b.
Lemma prefix_moved_step dst src len k m m' r :
  0 <= k <= len -> forward_ok dst src len -> (forall b, m' b = moved dst src k m b) ->
  prefix_moved (dst + k) (src + k) (len - k) m' r -> prefix_moved dst src len m r.
Proof.
  destruct r as [[[d' s'] l'] m2]. intros Hk Hf H (H1 & H2 & H3 & H4). split; [lia|]. split; [lia|]. split; [lia|]. intros b.
  rewrite H4, (moved_app dst src _ k m) by (done || unfold forward_ok in *; lia). f_equal. lia.
Qed.
Lemma prefix_moved_refl dst src len m : 0 <= len -> prefix_moved dst src len m (dst, src, len, m).
Proof. intros H. repeat split; try lia. intros b. rewrite moved_0 by lia. done. Qed.
Lemma word_copy_spec fuel : forall dst src len m, 0 <= len -> forward_ok dst src len ->
  prefix_moved dst src len m (word_copy fuel dst src len m).
Proof.
  induction fuel as [|fuel IH]; intros dst src len m Hl Hf; cbn [word_copy]; [by apply prefix_moved_refl|].
  unfold LBLOCKSIZE. destruct (Z.geb_spec len 4); [|by apply prefix_moved_refl].
  eapply (prefix_moved_step _ _ _ 4); [lia|done|intros b; apply copy_word_moved|]. apply IH; [lia|unfold forward_ok in *; lia].
Qed.
Lemma copy_words_moved dst src m a : forward_ok dst src 16 ->
  copy_word (dst + 12) (src + 12) (copy_word (dst + 8) (src + 8) (copy_word (dst + 4) (src + 4) (copy_word dst src m))) a =
  moved dst src 16 m a.
Proof.
  intros Hf. assert (forall k b, 0 <= k <= 12 -> forall m', (forall b, m' b = moved dst src k m b) ->
    copy_word (dst + k) (src + k) m' b = moved dst src (k + 4) m b) as H.
  { intros k b Hk m' Hm. rewrite copy_word_moved. apply moved_app; try done; unfold forward_ok in *; lia. }
  apply (H 12); [lia|]. intros b. apply (H 8); [lia|]. intros b'. apply (H 4); [lia|]. apply copy_word_moved.
Qed.
Lemma big_copy_spec fuel : forall dst src len m, 0 <= len -> forward_ok dst src len ->
  prefix_moved dst src len m (big_copy fuel dst src len m).
Proof.
  induction fuel as [|fuel IH]; intros dst src len m Hl Hf; cbn [big_copy]; [by apply prefix_moved_refl|].
  unfold LBLOCKSIZE. destruct (Z.geb_spec len (4 * 4)); [|by apply prefix_moved_refl].
  eapply (prefix_moved_step _ _ _ 16); [lia|done|intros b; apply copy_words_moved; unfold forward_ok in *; lia|].
  apply IH; [lia|unfold forward_ok in *; lia].
Qed.

(** ** The functions *)
Lemma rt_memset_filled s c count m a : 0 <= count -> rt_memset s c count m a = filled s count (c mod 256) m a.
Proof.
  intros Hc.
  assert (Z.land c 255 = c mod 256) as Ed by (change 255 with (Z.ones 8); by rewrite Z.land_ones).
  pose proof (Z.mod_pos_bound c 256 ltac:(lia)) as Hd. unfold rt_memset. rewrite Ed. set (d := c mod 256) in *.
  destruct (negb (count <? LBLOCKSIZE) && negb (UNALIGNED s));
    [|rewrite byte_fill_spec, Z2Nat.id by done; done].
  pose proof (fun i Hi => word_byte_buffer d i Hd Hi) as Hv. set (v := uint32 _) in *.
  pose proof (big_fill_spec (Z.to_nat count) s v d count m Hv Hc) as H1.
  destruct (big_fill _ _ _ _ _) as [[a1 c1] m1]. destruct H1 as (-> & Hc1 & H1).
  pose proof (word_fill_spec (Z.to_nat c1) (s + (count - c1)) v d c1 m1 Hv ltac:(lia)) as H2.
  assert (forall r, prefix_filled (s + (count - c1)) d c1 m1 r -> prefix_filled s d count m r) as Hstep.
  { intros r Hr. eapply (prefix_filled_step _ _ _ (count - c1)); [lia|done|]. by replace (count - (count - c1)) with c1 by lia. }
  apply Hstep in H2. clear Hstep.
  destruct (word_fill (Z.to_nat c1) (s + (count - c1)) v c1 m1) as [[a2 c2] m2] eqn:E2.
  destruct H2 as (Ea & Hc2 & H2). subst a2.
  rewrite byte_fill_spec, Z2Nat.id by lia. rewrite (filled_app s c2 (count - c2) d m) by (done || lia). f_equal. lia.
Qed.

(** rt_memset sets exactly the bytes of the area, whatever its alignment and length. *)
Theorem rt_memset_fills s c count m a :
  0 <= count -> rt_memset s c count m a = if decide (s <= a < s + count) then c mod 256 else m a.
Proof. apply rt_memset_filled. Qed.

Lemma rt_memcpy_moved dst src count m a :
  0 <= count -> dst <= src \/ src + count <= dst -> rt_memcpy dst src count m a = moved dst src count m a.
Proof.
  intros Hc Hf. unfold rt_memcpy.
  destruct (negb (count <? 4 * LBLOCKSIZE) && negb (UNALIGNED src || UNALIGNED dst));
    [|rewrite byte_copy_spec, Z2Nat.id by (rewrite ?Z2Nat.id; done); done].
  pose proof (big_copy_spec (Z.to_nat count) dst src count m Hc Hf) as H1.
  destruct (big_copy _ _ _ _ _) as [[[d1 s1] l1] m1]. destruct H1 as (-> & -> & Hl1 & H1).
  pose proof (word_copy_spec (Z.to_nat l1) (dst + (count - l1)) (src + (count - l1)) l1 m1 ltac:(lia)) as H2.
  specialize (H2 ltac:(unfold forward_ok in *; lia)).
  assert (prefix_moved dst src count m (word_copy (Z.to_nat l1) (dst + (count - l1)) (src + (count - l1)) l1 m1)) as H3.
  { eapply (prefix_moved_step _ _ _ (count - l1)); [lia|done|done|]. by replace (count - (count - l1)) with l1 by lia. }
  destruct (word_copy _ _ _ _ _) as [[[d2 s2] l2] m2]. destruct H3 as (-> & -> & Hl2 & H3).
  rewrite byte_copy_spec, Z2Nat.id by (rewrite ?Z2Nat.id; unfold forward_ok in *; lia).
  rewrite (moved_app dst src l2 (count - l2) m) by (done || unfold forward_ok in *; lia). f_equal. lia.
Qed.

(** rt_memcpy copies the area byte by byte, through words when both ends are
    aligned; the areas may overlap when the destination is the lower one. *)
Theorem rt_memcpy_copies dst src count m a :
  0 <= count -> dst <= src \/ src + count <= dst ->
  rt_memcpy dst src count m a = if decide (dst <= a < dst + count) then m (src + (a - dst)) else m a.
Proof. apply rt_memcpy_moved. Qed.

Lemma byte_copy_down_spec n : forall tmp s m a, s <= tmp ->
  byte_copy_down n tmp s m a = moved (tmp - Z.of_nat n) (s - Z.of_nat n) (Z.of_nat n) m a.
Proof.
  induction n as [|n IH]; intros tmp s m a H; [by rewrite moved_0|]. cbn [byte_copy_down]. rewrite IH by lia.
  unfold moved. mem_cases; f_equal; lia.
Qed.
(** rt_memmove copies the area, overlapping or not. *)
Theorem rt_memmove_copies dest src n m a :
  0 <= n -> rt_memmove dest src n m a = if decide (dest <= a < dest + n) then m (src + (a - dest)) else m a.
Proof.
  intros Hn. change (rt_memmove dest src n m a = moved dest src n m a). unfold rt_memmove.
  destruct ((src <? dest) && (dest <? src + n)) eqn:E.
  - rewrite byte_copy_down_spec, Z2Nat.id by lia. f_equal; lia.
  - rewrite byte_copy_spec, Z2Nat.id by (rewrite ?Z2Nat.id; unfold forward_ok; lia). done.
Qed.

(** *** Strings in memory *)
(** The [n] bytes from [a], and the C string [s] at [a]. *)
Definition bytes_at m (a : Z) (n : nat) : list Z := (fun i => m (a + Z.of_nat i)) <$> seq 0 n.
Definition string_at m (a : Z) (s : list Z) : Prop :=
  bytes_at m a (length s) = s /\ 0 ∉ s /\ m (a + Z.of_nat (length s)) = 0.
Lemma bytes_at_S m a n : bytes_at m a (S n) = m a :: bytes_at m (a + 1) n.
Proof.
  unfold bytes_at. cbn [seq fmap list_fmap]. f_equal; [f_equal; lia|]. rewrite <- fmap_S_seq, <- list_fmap_compose.
  apply list_fmap_ext. intros i x _. cbn. f_equal. lia.
Qed.
Lemma bytes_at_length m a n : length (bytes_at m a n) = n.
Proof. unfold bytes_at. by rewrite length_fmap, length_seq. Qed.
Lemma string_at_tl m a c s : string_at m a (c :: s) -> m a = c /\ c <> 0 /\ string_at m (a + 1) s.
Proof.
  unfold string_at. cbn [length]. rewrite bytes_at_S. intros ([= E1 E2] & [H1 H2]%not_elem_of_cons & H3).
  split; [done|]. split; [done|]. split; [done|]. split; [done|]. rewrite <- H3. f_equal. lia.
Qed.
Lemma string_at_drop m k : forall a s, string_at m a s -> (k <= length s)%nat -> string_at m (a + Z.of_nat k) (drop k s).
Proof.
  induction k as [|k IH]; intros a s Hs Hk; [by rewrite Z.add_0_r|]. destruct s as [|c s]; cbn in Hk; [lia|].
  apply string_at_tl in Hs as (_ & _ & Hs). replace (a + Z.of_nat (S k)) with (a + 1 + Z.of_nat k) by lia. apply IH; [done|lia].
Qed.
Lemma strlen_loop_spec m s : forall fuel a, string_at m a s -> (length s < fuel)%nat ->
  strlen_loop fuel a m = Some (a + Z.of_nat (length s)).
Proof.
  induction s as [|c s IH]; intros [|fuel] a Hs Hf; cbn [length] in *; try lia; cbn [strlen_loop].
  - destruct Hs as (_ & _ & Hs). cbn in Hs. rewrite Z.add_0_r in Hs |- *. by rewrite Hs.
  - apply string_at_tl in Hs as (-> & Hc & Hs). apply Z.eqb_neq in Hc. rewrite Hc.
    rewrite (IH _ _ Hs) by lia. f_equal. lia.
Qed.
(** Byte by byte: behind the string is the NUL. *)
Lemma string_at_nth m a s : string_at m a s <-> 0 ∉ s /\ forall i, (i <= length s)%nat -> m (a + Z.of_nat i) = nth i s 0.
Proof.
  revert a. induction s as [|c s IH]; intros a.
  - split; [|intros [H1 H2]; split; [done|split; [done|]; by apply (H2 O)]]. intros (_ & H1 & H2). split; [done|]. intros i Hi. cbn in Hi. by replace i with O by lia.
  - split.
    + intros H. apply string_at_tl in H as (E & Hc & H). apply IH in H as [H1 H2]. split; [by apply not_elem_of_cons|].
      intros [|i] Hi; cbn in *; [by rewrite Z.add_0_r|]. replace (a + Z.of_nat (S i)) with (a + 1 + Z.of_nat i) by lia. apply H2. lia.
    + intros [[H1 H1']%not_elem_of_cons H2]. assert (string_at m (a + 1) s) as (E1 & E2 & E3).
      { apply IH. split; [done|]. intros i Hi. replace (a + 1 + Z.of_nat i) with (a + Z.of_nat (S i)) by lia. apply (H2 (S i)). cbn. lia. }
      split_and!; [|by apply not_elem_of_cons|].
      * cbn [length]. rewrite bytes_at_S, E1. f_equal. rewrite <- (Z.add_0_r a) at 1. apply (H2 O). lia.
      * cbn [length]. rewrite <- E3. f_equal. lia.
Qed.
Lemma string_at_ext m m' a b s : (forall i, 0 <= i <= Z.of_nat (length s) -> m' (b + i) = m (a + i)) -> string_at m a s -> string_at m' b s.
Proof. rewrite !string_at_nth. intros He [H1 H2]. split; [done|]. intros i Hi. rewrite He by lia. by apply H2. Qed.
(** rt_strlen returns, and gives the number of bytes before the NUL. *)
Lemma rt_strlen_length m a s fuel : string_at m a s -> (length s < fuel)%nat ->
  rt_strlen fuel a m = Some (Z.of_nat (length s)).
Proof. intros Hs Hf. unfold rt_strlen. rewrite (strlen_loop_spec m s) by done. cbn. f_equal. lia. Qed.

Lemma rt_memcmp_zero m a b n : memcmp_loop n a b m = 0 <-> bytes_at m a n = bytes_at m b n.
Proof.
  revert a b. induction n as [|n IH]; intros a b; [done|]. cbn [memcmp_loop]. rewrite !bytes_at_S.
  destruct (Z.eqb_spec (m a - m b) 0) as [E|E]; cbn [negb].
  - rewrite IH. assert (m a = m b) as -> by lia. split; [by intros ->|by injection 1].
  - split; [done|]. injection 1. lia.
Qed.
(** What rt_strstr looks for: [s2] is a prefix of the rest of [s1]. *)
Definition occurs (s2 s1 : list Z) (k : nat) : Prop := take (length s2) (drop k s1) = s2.
#[global] Instance occurs_dec s2 s1 k : Decision (occurs s2 s1 k).
Proof. unfold occurs. apply _. Defined.
Lemma bytes_at_take m a s n : string_at m a s -> (n <= length s)%nat -> bytes_at m a n = take n s.
Proof.
  revert a s. induction n as [|n IH]; intros a s Hs Hn; [done|]. destruct s as [|c s]; cbn in Hn; [lia|].
  apply string_at_tl in Hs as (Ec & _ & Hs). rewrite bytes_at_S, Ec. cbn [take]. f_equal. apply IH; [done|lia].
Qed.
Lemma strstr_loop_spec m s2 a2 : string_at m a2 s2 -> forall fuel s1 a1, string_at m a1 s1 -> (length s1 < fuel)%nat ->
  match strstr_loop fuel a1 a2 (Z.of_nat (length s1)) (Z.of_nat (length s2)) m with
  | Some p => exists k, p = a1 + Z.of_nat k /\ (k <= length s1)%nat /\ occurs s2 s1 k /\ forall j, (j < k)%nat -> ~ occurs s2 s1 j
  | None => forall j, ~ occurs s2 s1 j
  end.
Proof.
  intros H2. induction fuel as [|fuel IH]; intros s1 a1 H1 Hf; [lia|]. cbn [strstr_loop].
  assert (forall j, occurs s2 s1 j -> (length s2 <= length s1 - j)%nat) as Hlen.
  { intros j Hj. unfold occurs in Hj. apply (f_equal length) in Hj. rewrite length_take, length_drop in Hj. lia. }
  destruct (Z.geb_spec (Z.of_nat (length s1)) (Z.of_nat (length s2))) as [Hge|Hlt]; [|intros j Hj%Hlen; lia].
  assert (rt_memcmp a1 a2 (Z.of_nat (length s2)) m = 0 <-> occurs s2 s1 0) as Hcmp.
  { unfold rt_memcmp. rewrite Nat2Z.id, rt_memcmp_zero. destruct H2 as (H2 & _ & _). rewrite H2.
    rewrite (bytes_at_take _ _ s1) by (done || lia). done. }
  destruct (Z.eqb_spec (rt_memcmp a1 a2 (Z.of_nat (length s2)) m) 0) as [E|E].
  - exists O. split; [lia|]. split; [lia|]. split; [by apply Hcmp|]. lia.
  - destruct s1 as [|c s1].
    { exfalso. apply E, Hcmp. cbn in Hge. destruct s2; [done|cbn in Hge; lia]. }
    apply string_at_tl in H1 as (_ & _ & H1). specialize (IH s1 (a1 + 1) H1 ltac:(cbn in Hf; lia)).
    cbn [length] in *. replace (Z.of_nat (S (length s1)) - 1) with (Z.of_nat (length s1)) by lia.
    destruct (strstr_loop _ _ _ _ _ _) as [p|].
    + destruct IH as (k & -> & Hk & Hocc & Hmin). exists (S k). split; [lia|]. split; [lia|]. split; [exact Hocc|].
      intros [|j] Hj; [by rewrite <- Hcmp|]. by apply (Hmin j); lia.
    + intros [|j] Hj; [by apply E, Hcmp|]. by apply (IH j).
Qed.
(** rt_strstr returns the first place where the second string occurs in the first
    one, and null when it occurs nowhere. *)
Theorem rt_strstr_first m a1 a2 s1 s2 fuel :
  string_at m a1 s1 -> string_at m a2 s2 -> (length s1 < fuel)%nat -> (length s2 < fuel)%nat ->
  (rt_strstr fuel a1 a2 m = Some None /\ forall j, ~ occurs s2 s1 j) \/
  (exists k, rt_strstr fuel a1 a2 m = Some (Some (a1 + Z.of_nat k)) /\ (k <= length s1)%nat /\
     occurs s2 s1 k /\ forall j, (j < k)%nat -> ~ occurs s2 s1 j).
Proof.
  intros H1 H2 Hf1 Hf2. unfold rt_strstr. rewrite (rt_strlen_length m a2 s2) by done. cbn [mbind option_bind].
  destruct (Z.eqb_spec (Z.of_nat (length s2)) 0) as [E|E].
  - right. exists O. destruct s2; [|cbn in E; lia]. split; [by rewrite Z.add_0_r|]. split; [lia|]. split; [done|]. lia.
  - rewrite (rt_strlen_length m a1 s1) by done. cbn [mbind option_bind].
    pose proof (strstr_loop_spec m s2 a2 H2 (Z.to_nat (Z.of_nat (length s1) + 1)) s1 a1 H1 ltac:(lia)) as H.
    destruct (strstr_loop _ _ _ _ _ _) as [p|]; [|by left]. destruct H as (k & -> & Hk). right. by exists k.
Qed.

(** *** Strings as lists *)
Lemma uint32_byte_diff a b : 0 <= a < 256 -> 0 <= b < 256 -> uint32 (a - b) = 0 <-> a = b.
Proof.
  intros Ha Hb. split; [|intros ->; by rewrite Z.sub_diag]. unfold uint. intros H.
  destruct (decide (a - b < 0)); [|rewrite Z.mod_small in H by lia; lia].
  rewrite <- (Z_mod_plus_full _ 1), Z.mod_small in H by lia. lia.
Qed.
(** The C string a list of bytes holds. *)
Fixpoint cut (s : list Z) : list Z := match s with [] => [] | ch :: s => if ch =? 0 then [] else ch :: cut s end.
Lemma rt_strcmp_zero a b : is_bytes a -> is_bytes b -> rt_strcmp a b = 0 <-> cut a = cut b.
Proof.
  revert b. induction a as [|x a IH]; intros b Ha Hb; cbn [rt_strcmp cut].
  - rewrite uint32_byte_diff by (lia || by apply is_bytes_hd). destruct b as [|y b]; cbn; [done|].
    destruct (Z.eqb_spec y 0); split; done.
  - pose proof (is_bytes_hd _ Ha) as Hx. cbn in Hx. pose proof (is_bytes_hd _ Hb) as Hy.
    destruct (Z.eqb_spec x 0) as [->|Hne]; cbn [negb andb].
    + rewrite uint32_byte_diff by lia. destruct b as [|y b]; cbn; [done|]. destruct (Z.eqb_spec y 0); split; done.
    + destruct (Z.eqb_spec x (hd 0 b)) as [E|E].
      * destruct b as [|y b]; cbn in E; [done|]. subst y. cbn [tl cut]. apply Z.eqb_neq in Hne. rewrite Hne.
        rewrite IH by ((by apply (is_bytes_tl (_ :: _))) || (by apply (is_bytes_tl (_ :: _) Ha)) || by apply (is_bytes_tl (_ :: _) Hb)).
        split; [by intros ->|by injection 1].
      * rewrite uint32_byte_diff by lia. split; [done|]. intros H. exfalso. apply E.
        destruct b as [|y b]; cbn in *; [done|]. destruct (y =? 0); [done|]. by injection H.
Qed.
Lemma lower_range c : 0 <= c < 256 -> 0 <= lower c < 256 /\ (lower c = 0 <-> c = 0).
Proof. unfold lower. zcases; cbn [andb]; lia. Qed.
(** rt_strcasecmp is zero exactly on strings that are equal in lower case. *)
Theorem rt_strcasecmp_lower a b : is_bytes a -> is_bytes b ->
  rt_strcasecmp a b = 0 <-> lower <$> cut a = lower <$> cut b.
Proof.
  assert (forall c, 0 <= c < 256 -> Z.land c 255 = c) as Hland.
  { intros c Hc. change 255 with (Z.ones 8). rewrite Z.land_ones by lia. by apply Z.mod_small. }
  revert b. induction a as [|x a IH]; intros b Ha Hb; cbn [rt_strcasecmp];
    pose proof (is_bytes_hd _ Ha) as Hx; pose proof (is_bytes_hd _ Hb) as Hy; rewrite !Hland by done; cbn [hd] in Hx |- *;
    pose proof (lower_range _ Hx) as [Rx Zx]; pose proof (lower_range _ Hy) as [Ry Zy].
  - rewrite uint32_byte_diff by done. destruct b as [|y b]; cbn in *; [done|]. destruct (Z.eqb_spec y 0) as [->|Hne]; [done|].
    split; [|done]. change (lower 0) with 0. intros E. symmetry in E. by apply Zy in E.
  - destruct (Z.eqb_spec (lower x) (lower (hd 0 b))) as [E|E]; cbn [andb].
    + destruct (Z.eqb_spec (lower x) 0) as [E0|E0]; cbn [negb].
      * rewrite E, Z.sub_diag. apply Zx in E0 as E1. subst x. cbn [cut Z.eqb]. split; [|done].
        intros _. destruct b as [|y b]; [done|]. cbn [hd] in *. assert (y = 0) as -> by (apply Zy; by rewrite <- E). done.
      * destruct b as [|y b]; cbn [hd] in *; [by rewrite E in E0|]. cbn [tl cut].
        destruct (Z.eqb_spec x 0) as [->|_]; [done|]. destruct (Z.eqb_spec y 0) as [->|_]; [by rewrite E in E0|].
        rewrite IH by ((by apply (is_bytes_tl (_ :: _))) || (by apply (is_bytes_tl (_ :: _) Ha)) || by apply (is_bytes_tl (_ :: _) Hb)). rewrite !fmap_cons, E.
        split; [by intros ->|by injection 1].
    + rewrite uint32_byte_diff by done. split; [done|]. intros H. exfalso. apply E.
      destruct b as [|y b]; cbn [cut hd] in *.
      * destruct (Z.eqb_spec x 0) as [->|]; [done|]. done.
      * destruct (Z.eqb_spec x 0) as [->|], (Z.eqb_spec y 0) as [->|]; try done. by injection H.
Qed.
