(* ===== verification/Kernel.v ===== *)
(** Kernel data model (include/rtdef.h) and the state/error monad of the kernel code.

    The configuration macros are the fields of [Config]; the C structures are
    records, the global variables and the object memory are the fields of
    [kcore] (scheduler, threads, timers, object system) and [kstate] (IPC
    objects on top of it).  A kernel function is a [M S A]: it runs on a state
    and returns, or it does not return ([None]: a failed RT_ASSERT or a loop
    that never ends). *)
From S2P Require Import Prelude RtList.

(** ** Configuration (rtconfig.h) *)
Class Config := {
  RT_THREAD_PRIORITY_MAX : Z;
  RT_TIMER_SKIP_LIST_LEVEL : nat;
  RT_TIMER_SKIP_LIST_MASK : Z;
  RT_USING_TIMER_SOFT : bool;
  RT_TIMER_THREAD_PRIO : Z;
  RT_TICK_PER_SECOND : Z;
  RT_NAME_MAX : nat;
  RT_ALIGN_SIZE : Z;
  (** bound on the number of nodes a list walk visits: the number of kernel
      objects that fit in memory *)
  loop_fuel : nat;
  prio_max_range : 1 <= RT_THREAD_PRIORITY_MAX <= 256;
  skip_level_pos : (0 < RT_TIMER_SKIP_LIST_LEVEL)%nat;
  loop_fuel_pos : (0 < loop_fuel)%nat
}.

(** ** Kernel heap: what rt_malloc and rt_free of the configured allocator offer *)
Class KHeap := {
  heap : Type;
  heap_malloc : heap -> Z -> option Z * heap;
  heap_free : heap -> Z -> heap
}.

(** ** Constants of rtdef.h *)
Definition RT_TICK_MAX : Z := 4294967295.

Definition RT_WAITING_FOREVER : Z := -1.
Definition RT_EOK : Z := 0.
Definition RT_ERROR : Z := 1.
Definition RT_ETIMEOUT : Z := 2.
Definition RT_EFULL : Z := 3.
Definition RT_EEMPTY : Z := 4.
Definition RT_ENOMEM : Z := 5.

Definition RT_THREAD_INIT : Z := 0.
Definition RT_THREAD_READY : Z := 1.
Definition RT_THREAD_SUSPEND : Z := 2.
Definition RT_THREAD_CLOSE : Z := 4.

Definition RT_THREAD_CTRL_STARTUP : Z := 0.
Definition RT_THREAD_CTRL_CLOSE : Z := 1.
Definition RT_THREAD_CTRL_CHANGE_PRIORITY : Z := 2.

Definition RT_TIMER_FLAG_ACTIVATED : Z := 1.
Definition RT_TIMER_FLAG_ONE_SHOT : Z := 0.
Definition RT_TIMER_FLAG_PERIODIC : Z := 2.
Definition RT_TIMER_FLAG_SOFT_TIMER : Z := 4.

Definition RT_TIMER_CTRL_SET_TIME : Z := 0.
Definition RT_TIMER_CTRL_GET_TIME : Z := 1.
Definition RT_TIMER_CTRL_SET_ONESHOT : Z := 2.
Definition RT_TIMER_CTRL_SET_PERIODIC : Z := 3.

Definition RT_IPC_FLAG_FIFO : Z := 0.
Definition RT_IPC_FLAG_PRIO : Z := 1.
Definition RT_IPC_CMD_RESET : Z := 1.

Definition RT_EVENT_FLAG_AND : Z := 1.
Definition RT_EVENT_FLAG_OR : Z := 2.
Definition RT_EVENT_FLAG_CLEAR : Z := 4.

(** RT_ALIGN and RT_ALIGN_DOWN on unsigned 32-bit sizes. *)
Definition RT_ALIGN (size align : Z) : Z :=
  Z.land (uint32 (size + align - 1)) (Z.lnot (align - 1)).
Definition RT_ALIGN_DOWN (size align : Z) : Z :=
  Z.land size (Z.lnot (align - 1)).

(** ** Kernel objects *)
Inductive rt_object_class_type :=
| RT_Object_Class_Thread
| RT_Object_Class_Semaphore
| RT_Object_Class_Mutex
| RT_Object_Class_Event
| RT_Object_Class_MailBox
| RT_Object_Class_MessageQueue
| RT_Object_Class_MemHeap
| RT_Object_Class_MemPool
| RT_Object_Class_Device
| RT_Object_Class_Timer
| RT_Object_Class_Unknown.

(** The enumeration values, every optional class configured and modules not. *)
Definition class_value (c : rt_object_class_type) : Z :=
  match c with
  | RT_Object_Class_Thread => 0
  | RT_Object_Class_Semaphore => 1
  | RT_Object_Class_Mutex => 2
  | RT_Object_Class_Event => 3
  | RT_Object_Class_MailBox => 4
  | RT_Object_Class_MessageQueue => 5
  | RT_Object_Class_MemHeap => 6
  | RT_Object_Class_MemPool => 7
  | RT_Object_Class_Device => 8
  | RT_Object_Class_Timer => 9
  | RT_Object_Class_Unknown => 10
  end.
Definition RT_Object_Class_Static : Z := 128.

(** Addresses: a timer is the one embedded in a thread or a timer object; an
    object is identified by its class and address. *)
Inductive timer_id := TThread (t : Z) | TObj (a : Z).
Inductive oid :=
| OThread (t : Z) | OTimer (tm : timer_id) | OSem (a : Z) | OMutex (a : Z)
| OEvent (a : Z) | OMailBox (a : Z) | OMessageQueue (a : Z) | OMemPool (a : Z) | ODevice (a : Z) | OMemHeap (a : Z).

(** Waiting lists of driver structures: suspended_list of a completion,
    suspended_push_list and suspended_pop_list of a data queue, suspended_read_list
    and suspended_write_list of a pipe. *)
Inductive wait_list := WCompletion | WPush | WPop | WRead | WWrite.
(** The list nodes of the kernel: heads and members. *)
Inductive lnode :=
| LReady (p : Z)                        (* &rt_thread_priority_table[p] *)
| LDefunct                              (* &rt_thread_defunct *)
| LTlist (t : Z)                        (* &thread->tlist *)
| LSuspend (o : oid)                    (* &ipc->suspend_thread *)
| LSender (a : Z)                       (* &mb->suspend_sender_thread *)
| LWait (w : wait_list) (a : Z)         (* &structure->w *)
| LTimerHead (soft : bool) (lvl : nat)  (* rt_timer_list, rt_soft_timer_list *)
| LRow (tm : timer_id) (lvl : nat)      (* &timer->row[lvl] *)
| LObjHead (c : rt_object_class_type)   (* &rt_object_container[c].object_list *)
| LObj (o : oid).                       (* &object->list *)

#[global] Instance class_eq_dec : EqDecision rt_object_class_type.
Proof. solve_decision. Defined.
#[global] Instance timer_id_eq_dec : EqDecision timer_id.
Proof. solve_decision. Defined.
#[global] Instance oid_eq_dec : EqDecision oid.
Proof. solve_decision. Defined.
#[global] Instance wait_list_eq_dec : EqDecision wait_list.
Proof. solve_decision. Defined.
#[global] Instance lnode_eq_dec : EqDecision lnode.
Proof. solve_decision. Defined.

(** What a timer calls when it expires: rt_thread_timeout or a user function. *)
Inductive timeout_fn := TF_rt_thread_timeout | TF_user (f : Z).

(** Context switches requested from the CPU port. *)
Inductive hw_switch :=
| Hw_switch_to (to : Z) | Hw_switch (from : option Z) (to : Z) | Hw_switch_interrupt (from : option Z) (to : Z).

Record rt_object : Type := mk_object {
  ob_name : list Z;
  ob_type : Z;
  ob_flag : Z
}.

Definition set_ob_name (v : list Z) (s : rt_object) : rt_object :=
  mk_object v (ob_type s) (ob_flag s).
Definition set_ob_type (v : Z) (s : rt_object) : rt_object :=
  mk_object (ob_name s) v (ob_flag s).
Definition set_ob_flag (v : Z) (s : rt_object) : rt_object :=
  mk_object (ob_name s) (ob_type s) v.

(** struct rt_thread; its object header is the [rt_object] at [OThread t]. *)
Record rt_thread : Type := mk_thread {
  th_entry : Z;
  th_parameter : Z;
  th_stack_addr : Z;
  th_stack_size : Z;
  th_error : Z;
  th_stat : Z;
  th_current_priority : Z;
  th_init_priority : Z;
  th_number : Z;
  th_high_mask : Z;
  th_number_mask : Z;
  th_event_set : Z;
  th_event_info : Z;
  th_init_tick : Z;
  th_remaining_tick : Z;
  th_cleanup : option Z;
  th_user_data : Z
}.

Definition set_th_entry (v : Z) (s : rt_thread) : rt_thread :=
  mk_thread v (th_parameter s) (th_stack_addr s) (th_stack_size s) (th_error s) (th_stat s) (th_current_priority s) (th_init_priority s) (th_number s) (th_high_mask s) (th_number_mask s) (th_event_set s) (th_event_info s) (th_init_tick s) (th_remaining_tick s) (th_cleanup s) (th_user_data s).
Definition set_th_parameter (v : Z) (s : rt_thread) : rt_thread :=
  mk_thread (th_entry s) v (th_stack_addr s) (th_stack_size s) (th_error s) (th_stat s) (th_current_priority s) (th_init_priority s) (th_number s) (th_high_mask s) (th_number_mask s) (th_event_set s) (th_event_info s) (th_init_tick s) (th_remaining_tick s) (th_cleanup s) (th_user_data s).
Definition set_th_stack_addr (v : Z) (s : rt_thread) : rt_thread :=
  mk_thread (th_entry s) (th_parameter s) v (th_stack_size s) (th_error s) (th_stat s) (th_current_priority s) (th_init_priority s) (th_number s) (th_high_mask s) (th_number_mask s) (th_event_set s) (th_event_info s) (th_init_tick s) (th_remaining_tick s) (th_cleanup s) (th_user_data s).
Definition set_th_stack_size (v : Z) (s : rt_thread) : rt_thread :=
  mk_thread (th_entry s) (th_parameter s) (th_stack_addr s) v (th_error s) (th_stat s) (th_current_priority s) (th_init_priority s) (th_number s) (th_high_mask s) (th_number_mask s) (th_event_set s) (th_event_info s) (th_init_tick s) (th_remaining_tick s) (th_cleanup s) (th_user_data s).
Definition set_th_error (v : Z) (s : rt_thread) : rt_thread :=
  mk_thread (th_entry s) (th_parameter s) (th_stack_addr s) (th_stack_size s) v (th_stat s) (th_current_priority s) (th_init_priority s) (th_number s) (th_high_mask s) (th_number_mask s) (th_event_set s) (th_event_info s) (th_init_tick s) (th_remaining_tick s) (th_cleanup s) (th_user_data s).
Definition set_th_stat (v : Z) (s : rt_thread) : rt_thread :=
  mk_thread (th_entry s) (th_parameter s) (th_stack_addr s) (th_stack_size s) (th_error s) v (th_current_priority s) (th_init_priority s) (th_number s) (th_high_mask s) (th_number_mask s) (th_event_set s) (th_event_info s) (th_init_tick s) (th_remaining_tick s) (th_cleanup s) (th_user_data s).
Definition set_th_current_priority (v : Z) (s : rt_thread) : rt_thread :=
  mk_thread (th_entry s) (th_parameter s) (th_stack_addr s) (th_stack_size s) (th_error s) (th_stat s) v (th_init_priority s) (th_number s) (th_high_mask s) (th_number_mask s) (th_event_set s) (th_event_info s) (th_init_tick s) (th_remaining_tick s) (th_cleanup s) (th_user_data s).
Definition set_th_init_priority (v : Z) (s : rt_thread) : rt_thread :=
  mk_thread (th_entry s) (th_parameter s) (th_stack_addr s) (th_stack_size s) (th_error s) (th_stat s) (th_current_priority s) v (th_number s) (th_high_mask s) (th_number_mask s) (th_event_set s) (th_event_info s) (th_init_tick s) (th_remaining_tick s) (th_cleanup s) (th_user_data s).
Definition set_th_number (v : Z) (s : rt_thread) : rt_thread :=
  mk_thread (th_entry s) (th_parameter s) (th_stack_addr s) (th_stack_size s) (th_error s) (th_stat s) (th_current_priority s) (th_init_priority s) v (th_high_mask s) (th_number_mask s) (th_event_set s) (th_event_info s) (th_init_tick s) (th_remaining_tick s) (th_cleanup s) (th_user_data s).
Definition set_th_high_mask (v : Z) (s : rt_thread) : rt_thread :=
  mk_thread (th_entry s) (th_parameter s) (th_stack_addr s) (th_stack_size s) (th_error s) (th_stat s) (th_current_priority s) (th_init_priority s) (th_number s) v (th_number_mask s) (th_event_set s) (th_event_info s) (th_init_tick s) (th_remaining_tick s) (th_cleanup s) (th_user_data s).
Definition set_th_number_mask (v : Z) (s : rt_thread) : rt_thread :=
  mk_thread (th_entry s) (th_parameter s) (th_stack_addr s) (th_stack_size s) (th_error s) (th_stat s) (th_current_priority s) (th_init_priority s) (th_number s) (th_high_mask s) v (th_event_set s) (th_event_info s) (th_init_tick s) (th_remaining_tick s) (th_cleanup s) (th_user_data s).
Definition set_th_event_set (v : Z) (s : rt_thread) : rt_thread :=
  mk_thread (th_entry s) (th_parameter s) (th_stack_addr s) (th_stack_size s) (th_error s) (th_stat s) (th_current_priority s) (th_init_priority s) (th_number s) (th_high_mask s) (th_number_mask s) v (th_event_info s) (th_init_tick s) (th_remaining_tick s) (th_cleanup s) (th_user_data s).
Definition set_th_event_info (v : Z) (s : rt_thread) : rt_thread :=
  mk_thread (th_entry s) (th_parameter s) (th_stack_addr s) (th_stack_size s) (th_error s) (th_stat s) (th_current_priority s) (th_init_priority s) (th_number s) (th_high_mask s) (th_number_mask s) (th_event_set s) v (th_init_tick s) (th_remaining_tick s) (th_cleanup s) (th_user_data s).
Definition set_th_init_tick (v : Z) (s : rt_thread) : rt_thread :=
  mk_thread (th_entry s) (th_parameter s) (th_stack_addr s) (th_stack_size s) (th_error s) (th_stat s) (th_current_priority s) (th_init_priority s) (th_number s) (th_high_mask s) (th_number_mask s) (th_event_set s) (th_event_info s) v (th_remaining_tick s) (th_cleanup s) (th_user_data s).
Definition set_th_remaining_tick (v : Z) (s : rt_thread) : rt_thread :=
  mk_thread (th_entry s) (th_parameter s) (th_stack_addr s) (th_stack_size s) (th_error s) (th_stat s) (th_current_priority s) (th_init_priority s) (th_number s) (th_high_mask s) (th_number_mask s) (th_event_set s) (th_event_info s) (th_init_tick s) v (th_cleanup s) (th_user_data s).
Definition set_th_cleanup (v : option Z) (s : rt_thread) : rt_thread :=
  mk_thread (th_entry s) (th_parameter s) (th_stack_addr s) (th_stack_size s) (th_error s) (th_stat s) (th_current_priority s) (th_init_priority s) (th_number s) (th_high_mask s) (th_number_mask s) (th_event_set s) (th_event_info s) (th_init_tick s) (th_remaining_tick s) v (th_user_data s).
Definition set_th_user_data (v : Z) (s : rt_thread) : rt_thread :=
  mk_thread (th_entry s) (th_parameter s) (th_stack_addr s) (th_stack_size s) (th_error s) (th_stat s) (th_current_priority s) (th_init_priority s) (th_number s) (th_high_mask s) (th_number_mask s) (th_event_set s) (th_event_info s) (th_init_tick s) (th_remaining_tick s) (th_cleanup s) v.

(** struct rt_timer; its flag is in the [rt_object] at [OTimer tm]. *)
Record rt_timer : Type := mk_timer {
  tm_timeout_func : timeout_fn;
  tm_parameter : Z;
  tm_init_tick : Z;
  tm_timeout_tick : Z
}.

Definition set_tm_timeout_func (v : timeout_fn) (s : rt_timer) : rt_timer :=
  mk_timer v (tm_parameter s) (tm_init_tick s) (tm_timeout_tick s).
Definition set_tm_parameter (v : Z) (s : rt_timer) : rt_timer :=
  mk_timer (tm_timeout_func s) v (tm_init_tick s) (tm_timeout_tick s).
Definition set_tm_init_tick (v : Z) (s : rt_timer) : rt_timer :=
  mk_timer (tm_timeout_func s) (tm_parameter s) v (tm_timeout_tick s).
Definition set_tm_timeout_tick (v : Z) (s : rt_timer) : rt_timer :=
  mk_timer (tm_timeout_func s) (tm_parameter s) (tm_init_tick s) v.

(** ** The state below the IPC layer *)
Section kcore.
Context {kh : KHeap}.

Record kcore : Type := mk_kcore {
  k_links : links lnode;
  k_objs : oid -> rt_object;
  k_threads : Z -> rt_thread;
  k_timers : timer_id -> rt_timer;
  k_rt_tick : Z;
  k_interrupt_nest : Z;
  k_lock_nest : Z;
  k_current_thread : option Z;
  k_current_priority : Z;
  k_ready_priority_group : Z;
  k_ready_table : Z -> Z;
  k_random_nr : Z;
  k_heap : heap;
  k_switches : list hw_switch
}.

Definition set_k_links (v : links lnode) (s : kcore) : kcore :=
  mk_kcore v (k_objs s) (k_threads s) (k_timers s) (k_rt_tick s) (k_interrupt_nest s) (k_lock_nest s) (k_current_thread s) (k_current_priority s) (k_ready_priority_group s) (k_ready_table s) (k_random_nr s) (k_heap s) (k_switches s).
Definition set_k_objs (v : oid -> rt_object) (s : kcore) : kcore :=
  mk_kcore (k_links s) v (k_threads s) (k_timers s) (k_rt_tick s) (k_interrupt_nest s) (k_lock_nest s) (k_current_thread s) (k_current_priority s) (k_ready_priority_group s) (k_ready_table s) (k_random_nr s) (k_heap s) (k_switches s).
Definition set_k_threads (v : Z -> rt_thread) (s : kcore) : kcore :=
  mk_kcore (k_links s) (k_objs s) v (k_timers s) (k_rt_tick s) (k_interrupt_nest s) (k_lock_nest s) (k_current_thread s) (k_current_priority s) (k_ready_priority_group s) (k_ready_table s) (k_random_nr s) (k_heap s) (k_switches s).
Definition set_k_timers (v : timer_id -> rt_timer) (s : kcore) : kcore :=
  mk_kcore (k_links s) (k_objs s) (k_threads s) v (k_rt_tick s) (k_interrupt_nest s) (k_lock_nest s) (k_current_thread s) (k_current_priority s) (k_ready_priority_group s) (k_ready_table s) (k_random_nr s) (k_heap s) (k_switches s).
Definition set_k_rt_tick (v : Z) (s : kcore) : kcore :=
  mk_kcore (k_links s) (k_objs s) (k_threads s) (k_timers s) v (k_interrupt_nest s) (k_lock_nest s) (k_current_thread s) (k_current_priority s) (k_ready_priority_group s) (k_ready_table s) (k_random_nr s) (k_heap s) (k_switches s).
Definition set_k_interrupt_nest (v : Z) (s : kcore) : kcore :=
  mk_kcore (k_links s) (k_objs s) (k_threads s) (k_timers s) (k_rt_tick s) v (k_lock_nest s) (k_current_thread s) (k_current_priority s) (k_ready_priority_group s) (k_ready_table s) (k_random_nr s) (k_heap s) (k_switches s).
Definition set_k_lock_nest (v : Z) (s : kcore) : kcore :=
  mk_kcore (k_links s) (k_objs s) (k_threads s) (k_timers s) (k_rt_tick s) (k_interrupt_nest s) v (k_current_thread s) (k_current_priority s) (k_ready_priority_group s) (k_ready_table s) (k_random_nr s) (k_heap s) (k_switches s).
Definition set_k_current_thread (v : option Z) (s : kcore) : kcore :=
  mk_kcore (k_links s) (k_objs s) (k_threads s) (k_timers s) (k_rt_tick s) (k_interrupt_nest s) (k_lock_nest s) v (k_current_priority s) (k_ready_priority_group s) (k_ready_table s) (k_random_nr s) (k_heap s) (k_switches s).
Definition set_k_current_priority (v : Z) (s : kcore) : kcore :=
  mk_kcore (k_links s) (k_objs s) (k_threads s) (k_timers s) (k_rt_tick s) (k_interrupt_nest s) (k_lock_nest s) (k_current_thread s) v (k_ready_priority_group s) (k_ready_table s) (k_random_nr s) (k_heap s) (k_switches s).
Definition set_k_ready_priority_group (v : Z) (s : kcore) : kcore :=
  mk_kcore (k_links s) (k_objs s) (k_threads s) (k_timers s) (k_rt_tick s) (k_interrupt_nest s) (k_lock_nest s) (k_current_thread s) (k_current_priority s) v (k_ready_table s) (k_random_nr s) (k_heap s) (k_switches s).
Definition set_k_ready_table (v : Z -> Z) (s : kcore) : kcore :=
  mk_kcore (k_links s) (k_objs s) (k_threads s) (k_timers s) (k_rt_tick s) (k_interrupt_nest s) (k_lock_nest s) (k_current_thread s) (k_current_priority s) (k_ready_priority_group s) v (k_random_nr s) (k_heap s) (k_switches s).
Definition set_k_random_nr (v : Z) (s : kcore) : kcore :=
  mk_kcore (k_links s) (k_objs s) (k_threads s) (k_timers s) (k_rt_tick s) (k_interrupt_nest s) (k_lock_nest s) (k_current_thread s) (k_current_priority s) (k_ready_priority_group s) (k_ready_table s) v (k_heap s) (k_switches s).
Definition set_k_heap (v : heap) (s : kcore) : kcore :=
  mk_kcore (k_links s) (k_objs s) (k_threads s) (k_timers s) (k_rt_tick s) (k_interrupt_nest s) (k_lock_nest s) (k_current_thread s) (k_current_priority s) (k_ready_priority_group s) (k_ready_table s) (k_random_nr s) v (k_switches s).
Definition set_k_switches (v : list hw_switch) (s : kcore) : kcore :=
  mk_kcore (k_links s) (k_objs s) (k_threads s) (k_timers s) (k_rt_tick s) (k_interrupt_nest s) (k_lock_nest s) (k_current_thread s) (k_current_priority s) (k_ready_priority_group s) (k_ready_table s) (k_random_nr s) (k_heap s) v.
End kcore.

(** ** IPC objects *)
Record rt_semaphore : Type := mk_sem {
  sem_value : Z
}.

Definition set_sem_value (v : Z) (s : rt_semaphore) : rt_semaphore :=
  mk_sem v.

Record rt_mutex : Type := mk_mutex {
  mutex_value : Z;
  mutex_original_priority : Z;
  mutex_hold : Z;
  mutex_owner : option Z
}.

Definition set_mutex_value (v : Z) (s : rt_mutex) : rt_mutex :=
  mk_mutex v (mutex_original_priority s) (mutex_hold s) (mutex_owner s).
Definition set_mutex_original_priority (v : Z) (s : rt_mutex) : rt_mutex :=
  mk_mutex (mutex_value s) v (mutex_hold s) (mutex_owner s).
Definition set_mutex_hold (v : Z) (s : rt_mutex) : rt_mutex :=
  mk_mutex (mutex_value s) (mutex_original_priority s) v (mutex_owner s).
Definition set_mutex_owner (v : option Z) (s : rt_mutex) : rt_mutex :=
  mk_mutex (mutex_value s) (mutex_original_priority s) (mutex_hold s) v.

Record rt_event : Type := mk_event {
  event_set : Z
}.

Definition set_event_set (v : Z) (s : rt_event) : rt_event :=
  mk_event v.

(** The words of the message pool are a function of the index. *)
Record rt_mailbox : Type := mk_mb {
  mb_pool_addr : option Z;
  mb_msg_pool : Z -> Z;
  mb_size : Z;
  mb_entry : Z;
  mb_in_offset : Z;
  mb_out_offset : Z
}.

Definition set_mb_pool_addr (v : option Z) (s : rt_mailbox) : rt_mailbox :=
  mk_mb v (mb_msg_pool s) (mb_size s) (mb_entry s) (mb_in_offset s) (mb_out_offset s).
Definition set_mb_msg_pool (v : Z -> Z) (s : rt_mailbox) : rt_mailbox :=
  mk_mb (mb_pool_addr s) v (mb_size s) (mb_entry s) (mb_in_offset s) (mb_out_offset s).
Definition set_mb_size (v : Z) (s : rt_mailbox) : rt_mailbox :=
  mk_mb (mb_pool_addr s) (mb_msg_pool s) v (mb_entry s) (mb_in_offset s) (mb_out_offset s).
Definition set_mb_entry (v : Z) (s : rt_mailbox) : rt_mailbox :=
  mk_mb (mb_pool_addr s) (mb_msg_pool s) (mb_size s) v (mb_in_offset s) (mb_out_offset s).
Definition set_mb_in_offset (v : Z) (s : rt_mailbox) : rt_mailbox :=
  mk_mb (mb_pool_addr s) (mb_msg_pool s) (mb_size s) (mb_entry s) v (mb_out_offset s).
Definition set_mb_out_offset (v : Z) (s : rt_mailbox) : rt_mailbox :=
  mk_mb (mb_pool_addr s) (mb_msg_pool s) (mb_size s) (mb_entry s) (mb_in_offset s) v.

(** The pool is an array of [max_msgs] cells, a [struct rt_mq_message] header
    followed by [msg_size] bytes; a message pointer is a cell index. *)
Record rt_messagequeue : Type := mk_mq {
  mq_pool_addr : option Z;
  mq_msg_size : Z;
  mq_max_msgs : Z;
  mq_entry : Z;
  mq_msg_queue_head : option Z;
  mq_msg_queue_tail : option Z;
  mq_msg_queue_free : option Z;
  mq_next : Z -> option Z;
  mq_data : Z -> list Z
}.

Definition set_mq_pool_addr (v : option Z) (s : rt_messagequeue) : rt_messagequeue :=
  mk_mq v (mq_msg_size s) (mq_max_msgs s) (mq_entry s) (mq_msg_queue_head s) (mq_msg_queue_tail s) (mq_msg_queue_free s) (mq_next s) (mq_data s).
Definition set_mq_msg_size (v : Z) (s : rt_messagequeue) : rt_messagequeue :=
  mk_mq (mq_pool_addr s) v (mq_max_msgs s) (mq_entry s) (mq_msg_queue_head s) (mq_msg_queue_tail s) (mq_msg_queue_free s) (mq_next s) (mq_data s).
Definition set_mq_max_msgs (v : Z) (s : rt_messagequeue) : rt_messagequeue :=
  mk_mq (mq_pool_addr s) (mq_msg_size s) v (mq_entry s) (mq_msg_queue_head s) (mq_msg_queue_tail s) (mq_msg_queue_free s) (mq_next s) (mq_data s).
Definition set_mq_entry (v : Z) (s : rt_messagequeue) : rt_messagequeue :=
  mk_mq (mq_pool_addr s) (mq_msg_size s) (mq_max_msgs s) v (mq_msg_queue_head s) (mq_msg_queue_tail s) (mq_msg_queue_free s) (mq_next s) (mq_data s).
Definition set_mq_msg_queue_head (v : option Z) (s : rt_messagequeue) : rt_messagequeue :=
  mk_mq (mq_pool_addr s) (mq_msg_size s) (mq_max_msgs s) (mq_entry s) v (mq_msg_queue_tail s) (mq_msg_queue_free s) (mq_next s) (mq_data s).
Definition set_mq_msg_queue_tail (v : option Z) (s : rt_messagequeue) : rt_messagequeue :=
  mk_mq (mq_pool_addr s) (mq_msg_size s) (mq_max_msgs s) (mq_entry s) (mq_msg_queue_head s) v (mq_msg_queue_free s) (mq_next s) (mq_data s).
Definition set_mq_msg_queue_free (v : option Z) (s : rt_messagequeue) : rt_messagequeue :=
  mk_mq (mq_pool_addr s) (mq_msg_size s) (mq_max_msgs s) (mq_entry s) (mq_msg_queue_head s) (mq_msg_queue_tail s) v (mq_next s) (mq_data s).
Definition set_mq_next (v : Z -> option Z) (s : rt_messagequeue) : rt_messagequeue :=
  mk_mq (mq_pool_addr s) (mq_msg_size s) (mq_max_msgs s) (mq_entry s) (mq_msg_queue_head s) (mq_msg_queue_tail s) (mq_msg_queue_free s) v (mq_data s).
Definition set_mq_data (v : Z -> list Z) (s : rt_messagequeue) : rt_messagequeue :=
  mk_mq (mq_pool_addr s) (mq_msg_size s) (mq_max_msgs s) (mq_entry s) (mq_msg_queue_head s) (mq_msg_queue_tail s) (mq_msg_queue_free s) (mq_next s) v.

(** Pointers to blocks are addresses, 0 is the null pointer. *)
Record rt_mempool : Type := mk_mp {
  mp_start_address : option Z;
  mp_size : Z;
  mp_block_size : Z;
  mp_block_list : Z;
  mp_block_total_count : Z;
  mp_block_free_count : Z;
  mp_suspend_thread_count : Z
}.

Definition set_mp_start_address (v : option Z) (s : rt_mempool) : rt_mempool :=
  mk_mp v (mp_size s) (mp_block_size s) (mp_block_list s) (mp_block_total_count s) (mp_block_free_count s) (mp_suspend_thread_count s).
Definition set_mp_size (v : Z) (s : rt_mempool) : rt_mempool :=
  mk_mp (mp_start_address s) v (mp_block_size s) (mp_block_list s) (mp_block_total_count s) (mp_block_free_count s) (mp_suspend_thread_count s).
Definition set_mp_block_size (v : Z) (s : rt_mempool) : rt_mempool :=
  mk_mp (mp_start_address s) (mp_size s) v (mp_block_list s) (mp_block_total_count s) (mp_block_free_count s) (mp_suspend_thread_count s).
Definition set_mp_block_list (v : Z) (s : rt_mempool) : rt_mempool :=
  mk_mp (mp_start_address s) (mp_size s) (mp_block_size s) v (mp_block_total_count s) (mp_block_free_count s) (mp_suspend_thread_count s).
Definition set_mp_block_total_count (v : Z) (s : rt_mempool) : rt_mempool :=
  mk_mp (mp_start_address s) (mp_size s) (mp_block_size s) (mp_block_list s) v (mp_block_free_count s) (mp_suspend_thread_count s).
Definition set_mp_block_free_count (v : Z) (s : rt_mempool) : rt_mempool :=
  mk_mp (mp_start_address s) (mp_size s) (mp_block_size s) (mp_block_list s) (mp_block_total_count s) v (mp_suspend_thread_count s).
Definition set_mp_suspend_thread_count (v : Z) (s : rt_mempool) : rt_mempool :=
  mk_mp (mp_start_address s) (mp_size s) (mp_block_size s) (mp_block_list s) (mp_block_total_count s) (mp_block_free_count s) v.

(** [k_mem] holds the header words of the memory pool blocks, by address. *)
Section kstate.
Context {kh : KHeap}.

Record kstate : Type := mk_kstate {
  k_core : kcore;
  k_sems : Z -> rt_semaphore;
  k_mutexes : Z -> rt_mutex;
  k_events : Z -> rt_event;
  k_mailboxes : Z -> rt_mailbox;
  k_mqs : Z -> rt_messagequeue;
  k_mps : Z -> rt_mempool;
  k_mem : Z -> Z
}.

Definition set_k_core (v : kcore) (s : kstate) : kstate :=
  mk_kstate v (k_sems s) (k_mutexes s) (k_events s) (k_mailboxes s) (k_mqs s) (k_mps s) (k_mem s).
Definition set_k_sems (v : Z -> rt_semaphore) (s : kstate) : kstate :=
  mk_kstate (k_core s) v (k_mutexes s) (k_events s) (k_mailboxes s) (k_mqs s) (k_mps s) (k_mem s).
Definition set_k_mutexes (v : Z -> rt_mutex) (s : kstate) : kstate :=
  mk_kstate (k_core s) (k_sems s) v (k_events s) (k_mailboxes s) (k_mqs s) (k_mps s) (k_mem s).
Definition set_k_events (v : Z -> rt_event) (s : kstate) : kstate :=
  mk_kstate (k_core s) (k_sems s) (k_mutexes s) v (k_mailboxes s) (k_mqs s) (k_mps s) (k_mem s).
Definition set_k_mailboxes (v : Z -> rt_mailbox) (s : kstate) : kstate :=
  mk_kstate (k_core s) (k_sems s) (k_mutexes s) (k_events s) v (k_mqs s) (k_mps s) (k_mem s).
Definition set_k_mqs (v : Z -> rt_messagequeue) (s : kstate) : kstate :=
  mk_kstate (k_core s) (k_sems s) (k_mutexes s) (k_events s) (k_mailboxes s) v (k_mps s) (k_mem s).
Definition set_k_mps (v : Z -> rt_mempool) (s : kstate) : kstate :=
  mk_kstate (k_core s) (k_sems s) (k_mutexes s) (k_events s) (k_mailboxes s) (k_mqs s) v (k_mem s).
Definition set_k_mem (v : Z -> Z) (s : kstate) : kstate :=
  mk_kstate (k_core s) (k_sems s) (k_mutexes s) (k_events s) (k_mailboxes s) (k_mqs s) (k_mps s) v.
End kstate.

(** ** The monad *)
Definition M (S A : Type) : Type := S -> option (A * S).

#[global] Instance M_ret S : MRet (M S) := fun A a s => Some (a, s).
#[global] Instance M_bind S : MBind (M S) := fun A B f m s =>
  match m s with Some (a, s') => f a s' | None => None end.

Section monad.
Context {S : Type}.
Definition gets {A} (f : S -> A) : M S A := fun s => Some (f s, s).
Definition modify (f : S -> S) : M S unit := fun s => Some (tt, f s).
(** RT_ASSERT: a failed assertion prints and loops for ever. *)
Definition rt_assert (b : bool) : M S unit := fun s => if b then Some (tt, s) else None.
(** A loop that does not end. *)
Definition diverge {A} : M S A := fun _ => None.

(** Total correctness: [m] returns from [s], in a result and state satisfying [Q]. *)
Definition wp {A} (m : M S A) (Q : A -> S -> Prop) (s : S) : Prop :=
  match m s with Some (a, s') => Q a s' | None => False end.

Lemma wp_ret {A} (a : A) Q s : Q a s -> wp (mret a) Q s.
Proof. done. Qed.
Lemma wp_bind {A B} (m : M S A) (f : A -> M S B) Q s :
  wp m (fun a s' => wp (f a) Q s') s -> wp (mbind f m) Q s.
Proof. unfold wp, mbind, M_bind. by destruct (m s) as [[a s']|]. Qed.
Lemma wp_gets {A} (f : S -> A) Q s : Q (f s) s -> wp (gets f) Q s.
Proof. done. Qed.
Lemma wp_modify f Q s : Q tt (f s) -> wp (modify f) Q s.
Proof. done. Qed.
Lemma wp_assert b Q s : b = true -> Q tt s -> wp (rt_assert b) Q s.
Proof. by intros ->. Qed.
Lemma wp_mono {A} (m : M S A) (Q Q' : A -> S -> Prop) s :
  wp m Q s -> (forall a s', Q a s' -> Q' a s') -> wp m Q' s.
Proof. unfold wp. destruct (m s) as [[a s']|]; eauto. Qed.
Lemma wp_conj {A} (m : M S A) (Q1 Q2 : A -> S -> Prop) s : wp m Q1 s -> wp m Q2 s -> wp m (fun a s' => Q1 a s' /\ Q2 a s') s.
Proof. unfold wp. destruct (m s) as [[a s']|]; auto. Qed.
Lemma wp_run {A} (m : M S A) Q s :
  wp m Q s <-> exists a s', m s = Some (a, s') /\ Q a s'.
Proof.
  unfold wp. destruct (m s) as [[a s']|]; split; try done; eauto.
  - by intros (? & ? & [= -> ->] & ?).
  - by intros (? & ? & ? & ?).
Qed.
(** Partial correctness: if [m] returns from [s], it does so satisfying [Q]. *)
Definition wlp {A} (m : M S A) (Q : A -> S -> Prop) (s : S) : Prop :=
  forall a s', m s = Some (a, s') -> Q a s'.
Lemma wlp_ret {A} (a : A) (Q : A -> S -> Prop) s : Q a s -> wlp (mret a) Q s.
Proof. by intros H ? ? [= <- <-]. Qed.
Lemma wlp_bind {A B} (m : M S A) (f : A -> M S B) Q s :
  wlp m (fun a s' => wlp (f a) Q s') s -> wlp (mbind f m) Q s.
Proof. unfold wlp, mbind, M_bind. intros H b s'. destruct (m s) as [[a s1]|]; [|done]. by apply H. Qed.
Lemma wlp_gets {A} (f : S -> A) (Q : A -> S -> Prop) s : Q (f s) s -> wlp (gets f) Q s.
Proof. by intros H ? ? [= <- <-]. Qed.
Lemma wlp_modify f (Q : unit -> S -> Prop) s : Q tt (f s) -> wlp (modify f) Q s.
Proof. by intros H ? ? [= <- <-]. Qed.
Lemma wlp_assert b (Q : unit -> S -> Prop) s : (b = true -> Q tt s) -> wlp (rt_assert b) Q s.
Proof. unfold rt_assert. intros H ? ?. destruct b; [|done]. intros [= <- <-]. by apply H. Qed.
Lemma wlp_diverge {A} (Q : A -> S -> Prop) s : wlp diverge Q s.
Proof. done. Qed.
Lemma wp_wlp {A} (m : M S A) Q s : wp m Q s -> wlp m Q s.
Proof. intros H a s' E. unfold wp in H. by rewrite E in H. Qed.
Lemma wlp_mono {A} (m : M S A) (Q Q' : A -> S -> Prop) s :
  wlp m Q s -> (forall a s', Q a s' -> Q' a s') -> wlp m Q' s.
Proof. unfold wlp. eauto. Qed.
End monad.
#[global] Instance: Params (@wp) 3 := {}.

(** ** Accessors used by the kernel code *)
Section accessors.
Context {kh : KHeap}.
Definition thread (t : Z) : M kcore rt_thread := gets (fun c => k_threads c t).
Definition mod_thread (t : Z) (f : rt_thread -> rt_thread) : M kcore unit :=
  modify (fun c => set_k_threads (<[t := f (k_threads c t)]> (k_threads c)) c).
Definition timer (tm : timer_id) : M kcore rt_timer := gets (fun c => k_timers c tm).
Definition mod_timer (tm : timer_id) (f : rt_timer -> rt_timer) : M kcore unit :=
  modify (fun c => set_k_timers (<[tm := f (k_timers c tm)]> (k_timers c)) c).
Definition object (o : oid) : M kcore rt_object := gets (fun c => k_objs c o).
Definition mod_object (o : oid) (f : rt_object -> rt_object) : M kcore unit :=
  modify (fun c => set_k_objs (<[o := f (k_objs c o)]> (k_objs c)) c).
Definition mod_links (f : links lnode -> links lnode) : M kcore unit :=
  modify (fun c => set_k_links (f (k_links c)) c).

(** The core operations, run below the IPC layer. *)
Definition lift {A} (m : M kcore A) : M kstate A := fun s =>
  match m (k_core s) with Some (a, c) => Some (a, set_k_core c s) | None => None end.

Lemma wp_lift {A} (m : M kcore A) Q s :
  wp m (fun a c => Q a (set_k_core c s)) (k_core s) -> wp (lift m) Q s.
Proof. unfold wp, lift. by destruct (m (k_core s)) as [[a c]|]. Qed.
End accessors.

(** Symbolic execution of the primitives of the monad. *)
Ltac wp_step :=
  lazymatch goal with
  | |- wp (mbind _ _) _ _ => apply wp_bind
  | |- wp (mret _) _ _ => apply wp_ret
  | |- wp (gets _) _ _ => apply wp_gets
  | |- wp (thread _) _ _ => apply wp_gets
  | |- wp (timer _) _ _ => apply wp_gets
  | |- wp (object _) _ _ => apply wp_gets
  | |- wp (modify _) _ _ => apply wp_modify
  | |- wp (mod_thread _ _) _ _ => apply wp_modify
  | |- wp (mod_timer _ _) _ _ => apply wp_modify
  | |- wp (mod_object _ _) _ _ => apply wp_modify
  | |- wp (mod_links _) _ _ => apply wp_modify
  | |- wp (rt_assert _) _ _ => apply wp_assert
  | |- wp (lift _) _ _ => apply wp_lift
  end.
Ltac wlp1 :=
  lazymatch goal with
  | |- wlp (mbind _ _) _ _ => apply wlp_bind
  | |- wlp (mret _) _ _ => apply wlp_ret
  | |- wlp (gets _) _ _ => apply wlp_gets
  | |- wlp (modify _) _ _ => apply wlp_modify
  | |- wlp (rt_assert _) _ _ => apply wlp_assert; intros _
  | |- wlp diverge _ _ => apply wlp_diverge
  end; cbn beta iota.
(** Field accesses of updated records. *)
Ltac ksimpl :=
  cbn [k_links k_objs k_threads k_timers k_rt_tick k_interrupt_nest k_lock_nest
       k_current_thread k_current_priority k_ready_priority_group k_ready_table
       k_random_nr k_heap k_switches
       set_k_links set_k_objs set_k_threads set_k_timers set_k_rt_tick
       set_k_interrupt_nest set_k_lock_nest set_k_current_thread
       set_k_current_priority set_k_ready_priority_group set_k_ready_table
       set_k_random_nr set_k_heap set_k_switches
       k_core k_sems k_mutexes k_events k_mailboxes k_mqs k_mps k_mem
       set_k_core set_k_sems set_k_mutexes set_k_events set_k_mailboxes set_k_mqs set_k_mps set_k_mem].
Ltac wp1 := wp_step; cbn beta iota.
Ltac wp_steps := repeat (wp_step; cbn beta; ksimpl); rewrite ?upd_eq.
