(* ===== verification/Scheduler.v ===== *)
(** The scheduler (src/scheduler.c): priority ready queues, ready bitmap,
    selection of the next thread, scheduler locking.

    The ready bitmap has the two layouts of the source: one word for at most 32
    priorities, a word of groups and a byte table above. *)
From S2P Require Import Prelude RtList Kservice Kernel.

Section scheduler.
Context {cfg : Config} {kh : KHeap}.

(** ** Operations *)

(** rt_list_entry(node, struct rt_thread, tlist): no thread is at any other node. *)
Definition rt_thread_entry (n : lnode) : M kcore Z :=
  match n with LTlist t => mret t | _ => diverge end.

(** A counted loop [for (i = lo; i < lo + n; i++)]. *)
Fixpoint for_up {S} (n : nat) (lo : Z) (body : Z -> M S unit) : M S unit :=
  match n with
  | O => mret tt
  | Datatypes.S n => body lo ;; for_up n (lo + 1) body
  end.

Definition rt_system_scheduler_init : M kcore unit :=
  modify (set_k_lock_nest 0) ;;
  for_up (Z.to_nat RT_THREAD_PRIORITY_MAX) 0 (fun offset =>
    mod_links (fun l => rt_list_init l (LReady offset))) ;;
  modify (set_k_current_priority (uint8 (RT_THREAD_PRIORITY_MAX - 1))) ;;
  modify (set_k_current_thread None) ;;
  modify (set_k_ready_priority_group 0) ;;
  (if RT_THREAD_PRIORITY_MAX >? 32
   then modify (set_k_ready_table (fun i => 0)) else mret tt) ;;
  mod_links (fun l => rt_list_init l LDefunct).

Definition highest_ready_priority (c : kcore) : Z :=
  if RT_THREAD_PRIORITY_MAX <=? 32 then
    uint32 (__rt_ffs (int32 (k_ready_priority_group c)) - 1)
  else
    let number := uint32 (__rt_ffs (int32 (k_ready_priority_group c)) - 1) in
    uint32 (Z.shiftl number 3 + __rt_ffs (k_ready_table c number) - 1).

Definition rt_system_scheduler_start : M kcore unit :=
  hp ← gets highest_ready_priority;
  n ← gets (fun c => l_next (k_links c) (LReady hp));
  to_thread ← rt_thread_entry n;
  modify (set_k_current_thread (Some to_thread)) ;;
  modify (fun c => set_k_switches (Hw_switch_to to_thread :: k_switches c) c).

Definition rt_schedule : M kcore unit :=
  lock ← gets k_lock_nest;
  if lock =? 0 then
    hp ← gets highest_ready_priority;
    n ← gets (fun c => l_next (k_links c) (LReady hp));
    to_thread ← rt_thread_entry n;
    from_thread ← gets k_current_thread;
    if bool_decide (Some to_thread = from_thread) then mret tt
    else
      modify (set_k_current_priority (uint8 hp)) ;;
      modify (set_k_current_thread (Some to_thread)) ;;
      nest ← gets k_interrupt_nest;
      if nest =? 0 then
        modify (fun c => set_k_switches (Hw_switch from_thread to_thread :: k_switches c) c)
      else
        modify (fun c => set_k_switches (Hw_switch_interrupt from_thread to_thread :: k_switches c) c)
  else mret tt.

Definition rt_schedule_insert_thread (t : Z) : M kcore unit :=
  mod_thread t (set_th_stat RT_THREAD_READY) ;;
  th ← thread t;
  mod_links (fun l => rt_list_insert_before l (LReady (th_current_priority th)) (LTlist t)) ;;
  (if RT_THREAD_PRIORITY_MAX >? 32 then
     modify (fun c => set_k_ready_table
       (<[th_number th := uint8 (Z.lor (k_ready_table c (th_number th)) (th_high_mask th))]> (k_ready_table c)) c)
   else mret tt) ;;
  modify (fun c => set_k_ready_priority_group
    (uint32 (Z.lor (k_ready_priority_group c) (th_number_mask th))) c).

Definition rt_schedule_remove_thread (t : Z) : M kcore unit :=
  th ← thread t;
  mod_links (fun l => rt_list_remove l (LTlist t)) ;;
  empty ← gets (fun c => rt_list_isempty (k_links c) (LReady (th_current_priority th)));
  if (empty : bool) then
    if RT_THREAD_PRIORITY_MAX >? 32 then
      modify (fun c => set_k_ready_table
        (<[th_number th := uint8 (Z.land (k_ready_table c (th_number th)) (Z.lnot (th_high_mask th)))]> (k_ready_table c)) c) ;;
      tb ← gets (fun c => k_ready_table c (th_number th));
      if tb =? 0 then
        modify (fun c => set_k_ready_priority_group
          (uint32 (Z.land (k_ready_priority_group c) (Z.lnot (th_number_mask th)))) c)
      else mret tt
    else
      modify (fun c => set_k_ready_priority_group
        (uint32 (Z.land (k_ready_priority_group c) (Z.lnot (th_number_mask th)))) c)
  else mret tt.

Definition rt_enter_critical : M kcore unit :=
  modify (fun c => set_k_lock_nest (int16 (k_lock_nest c + 1)) c).

Definition rt_exit_critical : M kcore unit :=
  modify (fun c => set_k_lock_nest (int16 (k_lock_nest c - 1)) c) ;;
  nest ← gets k_lock_nest;
  if nest <=? 0 then
    modify (set_k_lock_nest 0) ;;
    rt_schedule
  else mret tt.

Definition rt_critical_level (c : kcore) : Z := uint16 (k_lock_nest c).

(** ** The ready bitmap: group word [g], byte table [tb] *)
Definition ready_bit (g : Z) (tb : Z -> Z) (p : Z) : bool :=
  if RT_THREAD_PRIORITY_MAX <=? 32 then Z.testbit g p
  else Z.testbit (tb (Z.shiftr p 3)) (Z.land p 7).

(** The priority attributes of a thread, as rt_thread_startup computes them. *)
Definition masks_ok (th : rt_thread) : Prop :=
  let p := th_current_priority th in
  0 <= p < RT_THREAD_PRIORITY_MAX /\
  if RT_THREAD_PRIORITY_MAX <=? 32 then th_number_mask th = 2 ^ p
  else th_number th = Z.shiftr p 3 /\ th_number_mask th = 2 ^ (Z.shiftr p 3) /\
       th_high_mask th = 2 ^ (Z.land p 7).

(** The bitmap tells which of the ready queues are not empty. *)
Record bitmap_ok (g : Z) (tb : Z -> Z) (nonempty : Z -> Prop) : Prop := {
  bm_bits : forall p, 0 <= p < 256 -> ready_bit g tb p = true <-> nonempty p;
  bm_range : forall p, nonempty p -> 0 <= p < RT_THREAD_PRIORITY_MAX;
  bm_group : 0 <= g < 2 ^ 32;
  bm_table : forall n, 0 <= tb n < 256;
  bm_groups : 32 < RT_THREAD_PRIORITY_MAX -> forall n, 0 <= n < 32 ->
    Z.testbit g n = true <-> tb n <> 0
}.

Lemma ready_bit_word g tb p :
  RT_THREAD_PRIORITY_MAX <= 32 -> ready_bit g tb p = Z.testbit g p.
Proof. intros. unfold ready_bit. destruct (Z.leb_spec RT_THREAD_PRIORITY_MAX 32); [done|lia]. Qed.
Lemma ready_bit_byte g tb p :
  32 < RT_THREAD_PRIORITY_MAX -> ready_bit g tb p = Z.testbit (tb (Z.shiftr p 3)) (Z.land p 7).
Proof. intros. unfold ready_bit. destruct (Z.leb_spec RT_THREAD_PRIORITY_MAX 32); [lia|done]. Qed.

(** ** Selection of the highest ready priority *)
Lemma ffs_lowest g :
  0 <= g < 2 ^ 32 -> g <> 0 ->
  let r := uint32 (__rt_ffs (int32 g) - 1) in
  0 <= r < 32 /\ lowest_set g r.
Proof.
  intros Hg Hnz r. destruct (__rt_ffs_lowest (int32 g)) as [Hr [H1 H2]].
  { rewrite uint_sint by lia. by rewrite uint_small. }
  assert (r = __rt_ffs (int32 g) - 1) as -> by (apply uint_small; lia).
  assert (forall i, 0 <= i < 32 -> Z.testbit (int32 g) i = Z.testbit g i) as Hb.
  { intros i Hi. rewrite <- (testbit_uint 32 (int32 g)), uint_sint by lia. by rewrite uint_small. }
  split; [lia|]. split; [by rewrite <- Hb by lia|]. intros i Hi. rewrite <- Hb by lia. auto.
Qed.

Lemma ffs_lowest_byte b :
  0 <= b < 256 -> b <> 0 -> 1 <= __rt_ffs b <= 8 /\ lowest_set b (__rt_ffs b - 1).
Proof.
  intros Hb Hnz. destruct (__rt_ffs_lowest b) as [Hr Hl].
  { rewrite uint_small; lia. }
  split; [|done]. split; [lia|]. destruct Hl as [Hl _].
  destruct (decide (8 <= __rt_ffs b - 1)); [|lia].
  rewrite (testbit_high 8 b) in Hl by lia. done.
Qed.

Lemma prio_split p : 0 <= p -> p = Z.shiftl (Z.shiftr p 3) 3 + Z.land p 7 /\ 0 <= Z.land p 7 < 8.
Proof.
  intros Hp. rewrite Z.shiftr_div_pow2, Z.shiftl_mul_pow2 by lia.
  change 7 with (Z.ones 3). rewrite Z.land_ones by lia. change (2 ^ 3) with 8.
  pose proof (Z.div_mod p 8). pose proof (Z.mod_pos_bound p 8). lia.
Qed.

Lemma prio_join n b :
  0 <= n -> 0 <= b < 8 ->
  Z.shiftr (Z.shiftl n 3 + b) 3 = n /\ Z.land (Z.shiftl n 3 + b) 7 = b.
Proof.
  intros Hn Hb. rewrite Z.shiftr_div_pow2, Z.shiftl_mul_pow2 by lia.
  change 7 with (Z.ones 3). rewrite Z.land_ones by lia. change (2 ^ 3) with 8. split.
  - rewrite Z.div_add_l by lia. rewrite Z.div_small; lia.
  - rewrite Z.add_comm, Z_mod_plus_full. apply Z.mod_small. lia.
Qed.

Lemma ready_bit_group g tb NE p :
  32 < RT_THREAD_PRIORITY_MAX -> bitmap_ok g tb NE -> 0 <= p < 256 -> ready_bit g tb p = true ->
  Z.testbit g (Z.shiftr p 3) = true.
Proof.
  intros Hm Hb Hp Hr. apply (bm_groups _ _ _ Hb); [done| |].
  - rewrite Z.shiftr_div_pow2 by lia. change (2 ^ 3) with 8.
    pose proof (Z.div_lt_upper_bound p 8 32). pose proof (Z.div_pos p 8). lia.
  - rewrite ready_bit_byte in Hr by done. by eapply testbit_nonzero.
Qed.

Lemma highest_ready_priority_spec c NE p0 :
  bitmap_ok (k_ready_priority_group c) (k_ready_table c) NE -> NE p0 ->
  let hp := highest_ready_priority c in
  NE hp /\ forall q, NE q -> hp <= q.
Proof.
  set (g := k_ready_priority_group c). set (tb := k_ready_table c).
  intros Hb H0 hp. pose proof (bm_range _ _ _ Hb _ H0) as Hp0. pose proof prio_max_range as Hmax.
  pose proof (proj2 (bm_bits _ _ _ Hb p0 ltac:(lia)) H0) as Hbit0.
  unfold hp, highest_ready_priority. fold g tb. destruct (Z.leb_spec RT_THREAD_PRIORITY_MAX 32) as [Hm|Hm].
  - rewrite ready_bit_word in Hbit0 by done.
    destruct (ffs_lowest _ (bm_group _ _ _ Hb) (testbit_nonzero _ _ Hbit0)) as [Hr [H1 H2]].
    set (r := uint32 (__rt_ffs (int32 g) - 1)) in *.
    split. { apply (bm_bits _ _ _ Hb); [lia|]. by rewrite ready_bit_word. }
    intros q Hq. pose proof (bm_range _ _ _ Hb _ Hq).
    apply (bm_bits _ _ _ Hb) in Hq; [|lia]. rewrite ready_bit_word in Hq by done.
    destruct (decide (r <= q)); [done|]. rewrite H2 in Hq by lia. done.
  - pose proof (ready_bit_group _ _ _ p0 Hm Hb ltac:(lia) Hbit0) as Hg0.
    destruct (ffs_lowest _ (bm_group _ _ _ Hb) (testbit_nonzero _ _ Hg0)) as [Hr [H1 H2]].
    set (n := uint32 (__rt_ffs (int32 g) - 1)) in *.
    pose proof (proj1 (bm_groups _ _ _ Hb Hm n ltac:(lia)) H1) as Hnz.
    destruct (ffs_lowest_byte _ (bm_table _ _ _ Hb n) Hnz) as [Hrb [H3 H4]].
    set (b := __rt_ffs (tb n)) in *.
    assert (uint32 (Z.shiftl n 3 + b - 1) = Z.shiftl n 3 + (b - 1)) as ->.
    { rewrite Z.shiftl_mul_pow2 by lia. rewrite uint_small; lia. }
    destruct (prio_join n (b - 1) ltac:(lia) ltac:(lia)) as [J1 J2].
    assert (0 <= Z.shiftl n 3 <= 248) by (rewrite Z.shiftl_mul_pow2 by lia; lia).
    split. { apply (bm_bits _ _ _ Hb); [lia|]. rewrite ready_bit_byte, J1, J2 by done. done. }
    intros q Hq. pose proof (bm_range _ _ _ Hb _ Hq).
    apply (bm_bits _ _ _ Hb) in Hq; [|lia].
    pose proof (ready_bit_group _ _ _ q Hm Hb ltac:(lia) Hq) as Hgq. rewrite ready_bit_byte in Hq by done.
    destruct (prio_split q ltac:(lia)) as [Hsq Hlq].
    assert (0 <= Z.shiftr q 3) by (apply Z.shiftr_nonneg; lia).
    destruct (decide (Z.shiftr q 3 < n)) as [Hlt|Hge]; [rewrite H2 in Hgq by lia; done|].
    rewrite !Z.shiftl_mul_pow2 in * by lia.
    destruct (decide (Z.shiftr q 3 = n)) as [E|]; [|lia].
    rewrite E in Hq, Hsq. destruct (decide (b - 1 <= Z.land q 7)); [lia|].
    rewrite H4 in Hq by lia. done.
Qed.

(** ** Setting and clearing the bits of a priority *)
Definition set_bits_table (th : rt_thread) (tb : Z -> Z) : Z -> Z :=
  if RT_THREAD_PRIORITY_MAX >? 32
  then <[th_number th := uint8 (Z.lor (tb (th_number th)) (th_high_mask th))]> tb else tb.
Definition set_bits_group (th : rt_thread) (g : Z) : Z :=
  uint32 (Z.lor g (th_number_mask th)).
Definition clear_bits_table (th : rt_thread) (tb : Z -> Z) : Z -> Z :=
  if RT_THREAD_PRIORITY_MAX >? 32
  then <[th_number th := uint8 (Z.land (tb (th_number th)) (Z.lnot (th_high_mask th)))]> tb else tb.
Definition clear_bits_group (th : rt_thread) (g : Z) (tb : Z -> Z) : Z :=
  if (RT_THREAD_PRIORITY_MAX >? 32) && negb (clear_bits_table th tb (th_number th) =? 0) then g
  else uint32 (Z.land g (Z.lnot (th_number_mask th))).

Lemma testbit_set w v k i :
  0 <= k < w -> 0 <= i < w ->
  Z.testbit (uint w (Z.lor v (2 ^ k))) i = Z.testbit v i || (i =? k).
Proof.
  intros Hk Hi. rewrite testbit_uint by lia. rewrite Z.lor_spec, Z.pow2_bits_eqb by lia.
  f_equal. apply Z.eqb_sym.
Qed.
Lemma testbit_clear w v k i :
  0 <= k < w -> 0 <= i < w ->
  Z.testbit (uint w (Z.land v (Z.lnot (2 ^ k)))) i = Z.testbit v i && negb (i =? k).
Proof.
  intros Hk Hi. rewrite testbit_uint by lia. rewrite Z.land_spec, Z.lnot_spec, Z.pow2_bits_eqb by lia.
  by rewrite Z.eqb_sym.
Qed.

Lemma prio_eq p q : 0 <= p -> 0 <= q -> Z.shiftr p 3 = Z.shiftr q 3 -> Z.land p 7 = Z.land q 7 -> p = q.
Proof. intros Hp Hq E1 E2. destruct (prio_split p Hp), (prio_split q Hq). congruence. Qed.

Lemma shiftr3_range p : 0 <= p < 256 -> 0 <= Z.shiftr p 3 < 32.
Proof.
  intros. rewrite Z.shiftr_div_pow2 by lia. change (2 ^ 3) with 8.
  pose proof (Z.div_lt_upper_bound p 8 32). pose proof (Z.div_pos p 8). lia.
Qed.

Lemma bitmap_set th g tb NE :
  masks_ok th -> bitmap_ok g tb NE ->
  bitmap_ok (set_bits_group th g) (set_bits_table th tb)
    (fun q => q = th_current_priority th \/ NE q).
Proof.
  intros [Hp Hm] Hb. pose proof prio_max_range as Hmax.
  unfold set_bits_group, set_bits_table. set (p := th_current_priority th) in *.
  destruct (Z.leb_spec RT_THREAD_PRIORITY_MAX 32) as [H|H], (Z.gtb_spec RT_THREAD_PRIORITY_MAX 32); try lia.
  - rewrite Hm. split.
    + intros q Hq. rewrite ready_bit_word by done.
      destruct (decide (q < 32)).
      * rewrite testbit_set by lia. rewrite orb_true_iff, Z.eqb_eq.
        rewrite <- (bm_bits _ _ _ Hb q), ready_bit_word by done. tauto.
      * rewrite (testbit_high 32) by (try apply uint_range; lia). split; [done|].
        intros [->|Hq']; [lia|]. apply (bm_range _ _ _ Hb) in Hq'. lia.
    + intros q [->|Hq]; [done|]. by apply (bm_range _ _ _ Hb).
    + by apply uint_range.
    + apply Hb.
    + lia.
  - destruct Hm as (Hn & Hg & Hh). rewrite Hn, Hg, Hh.
    pose proof (shiftr3_range p ltac:(lia)). destruct (prio_split p ltac:(lia)) as [_ Hl].
    split.
    + intros q Hq. rewrite ready_bit_byte by done. rewrite upd_case.
      rewrite <- (bm_bits _ _ _ Hb q), ready_bit_byte by done.
      destruct (prio_split q ltac:(lia)) as [_ Hlq].
      case_decide as E.
      * rewrite testbit_set by lia. rewrite orb_true_iff, Z.eqb_eq, E.
        split; [intros [?|?]|intros [->|?]]; auto. left. apply prio_eq; lia.
      * split; [auto|]. intros [->|?]; done.
    + intros q [->|Hq]; [lia|]. by apply (bm_range _ _ _ Hb).
    + by apply uint_range.
    + intros n. rewrite upd_case. case_decide; [by apply (uint_range 8)|]. apply Hb.
    + intros _ n Hn'. rewrite testbit_set by lia. rewrite orb_true_iff, Z.eqb_eq, upd_case.
      rewrite (bm_groups _ _ _ Hb) by lia. case_decide as E.
      * subst n. split; [intros _|auto]. eapply (testbit_nonzero _ (Z.land p 7)).
        rewrite testbit_set by lia. by rewrite Z.eqb_refl, orb_true_r.
      * split; [intros [?|?]; [done|lia]|auto].
Qed.

Lemma bitmap_clear th g tb NE :
  masks_ok th -> bitmap_ok g tb NE ->
  bitmap_ok (clear_bits_group th g tb) (clear_bits_table th tb)
    (fun q => q <> th_current_priority th /\ NE q).
Proof.
  intros [Hp Hm] Hb. pose proof prio_max_range as Hmax.
  unfold clear_bits_group, clear_bits_table. set (p := th_current_priority th) in *.
  destruct (Z.leb_spec RT_THREAD_PRIORITY_MAX 32) as [H|H], (Z.gtb_spec RT_THREAD_PRIORITY_MAX 32); try lia.
  - cbn [andb]. rewrite Hm. split.
    + intros q Hq. rewrite ready_bit_word by done.
      destruct (decide (q < 32)).
      * rewrite testbit_clear by lia. rewrite andb_true_iff, negb_true_iff, Z.eqb_neq.
        rewrite <- (bm_bits _ _ _ Hb q), ready_bit_word by done. tauto.
      * rewrite (testbit_high 32) by (try apply uint_range; lia). split; [done|].
        intros [_ Hq']. apply (bm_range _ _ _ Hb) in Hq'. lia.
    + intros q [_ Hq]. by apply (bm_range _ _ _ Hb).
    + by apply uint_range.
    + apply Hb.
    + lia.
  - destruct Hm as (Hn & Hg & Hh). rewrite Hn, Hg, Hh, upd_eq. cbn [andb].
    pose proof (shiftr3_range p ltac:(lia)). destruct (prio_split p ltac:(lia)) as [_ Hl].
    split.
    + intros q Hq. rewrite ready_bit_byte by done. rewrite upd_case.
      rewrite <- (bm_bits _ _ _ Hb q), ready_bit_byte by done.
      destruct (prio_split q ltac:(lia)) as [_ Hlq].
      case_decide as E.
      * rewrite testbit_clear by lia. rewrite andb_true_iff, negb_true_iff, Z.eqb_neq, E.
        split; intros [K1 K2].
        -- split; [|done]. intros ->. by apply K2.
        -- split; [done|]. intros E'. apply K1, prio_eq; lia.
      * split; [|tauto]. intros Hq'. split; [by intros ->|done].
    + intros q [_ Hq]. by apply (bm_range _ _ _ Hb).
    + case_match; [apply Hb|by apply uint_range].
    + intros n. rewrite upd_case. case_decide; [by apply (uint_range 8)|]. apply Hb.
    + intros _ n Hn'. rewrite upd_case.
      destruct (Z.eqb_spec (uint8 (Z.land (tb (Z.shiftr p 3)) (Z.lnot (2 ^ Z.land p 7)))) 0) as [E|E]; cbn [negb].
      * rewrite testbit_clear by lia. rewrite andb_true_iff, negb_true_iff, Z.eqb_neq.
        rewrite (bm_groups _ _ _ Hb) by lia. case_decide; subst; [tauto|]. split; [tauto|]. auto.
      * rewrite (bm_groups _ _ _ Hb) by lia. case_decide; [subst n|done]. split; [done|].
        intros _ E'. apply E. by rewrite E'.
Qed.

(** ** The ready queues

    [R] is the set of threads on the ready queues; outside the operations it is
    the set of the threads in state READY. *)
Record ready_inv (R : Z -> Prop) (c : kcore) (L : lnode -> option (list lnode)) : Prop := {
  ri_rep : rep (k_links c) L;
  ri_queue : forall p, 0 <= p < RT_THREAD_PRIORITY_MAX -> exists ts,
    L (LReady p) = Some (LTlist <$> ts) /\
    forall t, t ∈ ts <-> R t /\ th_current_priority (k_threads c t) = p;
  ri_masks : forall t, R t -> masks_ok (k_threads c t);
  ri_bitmap : bitmap_ok (k_ready_priority_group c) (k_ready_table c)
    (fun p => exists t, R t /\ th_current_priority (k_threads c t) = p)
}.

Definition with_sched (c : kcore) (lk : links lnode) (thr : Z -> rt_thread) (g : Z) (tb : Z -> Z) : kcore :=
  set_k_links lk (set_k_threads thr (set_k_ready_priority_group g (set_k_ready_table tb c))).

Lemma bitmap_ext g tb NE NE' :
  (forall p, NE p <-> NE' p) -> bitmap_ok g tb NE -> bitmap_ok g tb NE'.
Proof.
  intros He Hb. split; try apply Hb.
  - intros p Hp. rewrite <- He. by apply (bm_bits _ _ _ Hb).
  - intros p Hp%He. by apply (bm_range _ _ _ Hb).
Qed.

(** A thread update that keeps the priority attributes keeps the queues. *)
Definition same_prio (th th' : rt_thread) : Prop :=
  th_current_priority th' = th_current_priority th /\ th_number th' = th_number th /\
  th_high_mask th' = th_high_mask th /\ th_number_mask th' = th_number_mask th.

Lemma same_prio_masks th th' : same_prio th th' -> masks_ok th -> masks_ok th'.
Proof. intros (E1 & E2 & E3 & E4). unfold masks_ok. by rewrite E1, E2, E3, E4. Qed.

Lemma ready_inv_frame R R' c c' L L' :
  ready_inv R c L ->
  (forall t, R t <-> R' t) ->
  rep (k_links c') L' -> (forall p, 0 <= p < RT_THREAD_PRIORITY_MAX -> L' (LReady p) = L (LReady p)) ->
  k_ready_priority_group c' = k_ready_priority_group c ->
  k_ready_table c' = k_ready_table c ->
  (forall t, R t -> same_prio (k_threads c t) (k_threads c' t)) ->
  ready_inv R' c' L'.
Proof.
  intros [H1 H2 H3 H4] HR El EL Eg Et Hs. split.
  - done.
  - intros p Hp. rewrite EL by done. destruct (H2 p Hp) as (ts & HL & Hts). exists ts. split; [done|].
    intros t. rewrite Hts, <- HR. split; intros [Ht E]; (split; [done|]); destruct (Hs t Ht); congruence.
  - intros t Ht%HR. eapply same_prio_masks; eauto.
  - rewrite Eg, Et. eapply bitmap_ext; [|done]. intros p.
    split; intros (t & Ht & E); exists t; [rewrite <- HR|rewrite HR]; (split; [done|]).
    + destruct (Hs t Ht); congruence.
    + apply HR in Ht. destruct (Hs t Ht); congruence.
Qed.

Definition ins_ready (L : lnode -> option (list lnode)) (t p : Z) (ts : list Z) :=
  <[LReady p := Some (LTlist <$> (ts ++ [t]))]> (<[LTlist t := None]> L).

#[global] Instance LTlist_inj : Inj (=) (=) LTlist.
Proof. by intros t u [=]. Qed.
Lemma elem_of_LTlist t (ts : list Z) : LTlist t ∈ LTlist <$> ts <-> t ∈ ts.
Proof. rewrite list_elem_of_fmap. split; [by intros (? & [= ->] & ?)|eauto]. Qed.

(** What the two operations compute. *)
Lemma wp_schedule_insert_run t c Q :
  let th := k_threads c t in
  Q tt (with_sched c
    (rt_list_insert_before (k_links c) (LReady (th_current_priority th)) (LTlist t))
    (<[t := set_th_stat RT_THREAD_READY th]> (k_threads c))
    (set_bits_group th (k_ready_priority_group c)) (set_bits_table th (k_ready_table c))) ->
  wp (rt_schedule_insert_thread t) Q c.
Proof.
  intros th HQ. unfold rt_schedule_insert_thread, set_bits_table in *. wp_steps.
  destruct (RT_THREAD_PRIORITY_MAX >? 32); wp_steps; exact HQ.
Qed.

Lemma wp_schedule_remove_run t c Q :
  let th := k_threads c t in
  let lk := rt_list_remove (k_links c) (LTlist t) in
  let e := rt_list_isempty lk (LReady (th_current_priority th)) in
  let g := k_ready_priority_group c in let tb := k_ready_table c in
  Q tt (with_sched c lk (k_threads c)
    (if e then clear_bits_group th g tb else g) (if e then clear_bits_table th tb else tb)) ->
  wp (rt_schedule_remove_thread t) Q c.
Proof.
  intros th lk e g tb HQ. unfold rt_schedule_remove_thread, clear_bits_group, clear_bits_table in *.
  wp_steps. fold th lk e.
  destruct e; [|by wp_steps].
  destruct (RT_THREAD_PRIORITY_MAX >? 32); cbn [andb] in *; wp_steps; [|exact HQ].
  rewrite upd_eq in HQ. fold th tb.
  destruct (uint8 (Z.land (tb (th_number th)) (Z.lnot (th_high_mask th))) =? 0); wp_steps; exact HQ.
Qed.

Lemma wp_schedule_insert_thread R c L t ts Q :
  let th := k_threads c t in let p := th_current_priority th in
  ready_inv R c L -> ~ R t -> masks_ok th -> free_node L (LTlist t) ->
  L (LReady p) = Some (LTlist <$> ts) ->
  (forall lk g tb, let c' := with_sched c lk (<[t := set_th_stat RT_THREAD_READY th]> (k_threads c)) g tb in
     ready_inv (fun u => u = t \/ R u) c' (ins_ready L t p ts) -> Q tt c') ->
  wp (rt_schedule_insert_thread t) Q c.
Proof.
  intros th p Hi HnR Hm Hf HL HQ.
  apply (wp_schedule_insert_run t c).
  apply HQ.
  assert (forall u, th_current_priority ((<[t := set_th_stat RT_THREAD_READY th]> (k_threads c)) u)
    = th_current_priority (k_threads c u)) as Ecp.
  { intros u. rewrite upd_case. case_decide; subst; done. }
  destruct Hi as [H1 H2 H3 H4]. split; cbn.
  - unfold ins_ready. rewrite fmap_app. by apply rep_insert_tail.
  - intros q Hq. unfold ins_ready. rewrite upd_case. destruct (decide (LReady p = LReady q)) as [[= <-]|Hne].
    + exists (ts ++ [t]). split; [done|]. destruct (H2 p Hq) as (ts' & HL' & Hts).
      rewrite HL in HL'. injection HL' as HL'. apply (inj (fmap LTlist)) in HL' as <-.
      intros u. rewrite Ecp, elem_of_app, Hts, list_elem_of_singleton.
      split; [intros [[??]| ->]; auto|intros [[->|?] ?]; auto].
    + rewrite upd_ne by done. destruct (H2 q Hq) as (ts' & HL' & Hts). exists ts'. split; [done|].
      intros u. rewrite Ecp, Hts. split; [tauto|]. intros [[->|?] E']; [|done].
      exfalso. apply Hne. unfold p, th. by rewrite E'.
  - intros u Hu. rewrite upd_case. case_decide; [done|]. destruct Hu as [->|?]; [done|]. eauto.
  - eapply bitmap_ext; [|by apply bitmap_set]. intros q. cbn. split.
    + intros [->|(u & Hu & <-)]; [exists t|exists u]; rewrite Ecp; auto.
    + intros (u & [->|Hu] & <-); rewrite Ecp; eauto.
Qed.

(** The bitmap after the removal: cleared exactly when the queue became empty. *)
Lemma bitmap_remove (R R' : Z -> Prop) c th lk L' (ts' : list Z) :
  let p := th_current_priority th in
  let e := rt_list_isempty lk (LReady p) in
  let g := k_ready_priority_group c in let tb := k_ready_table c in
  masks_ok th -> rep lk L' -> L' (LReady p) = Some (LTlist <$> ts') ->
  (forall t, t ∈ ts' <-> R' t /\ th_current_priority (k_threads c t) = p) ->
  (forall t, th_current_priority (k_threads c t) <> p -> R' t <-> R t) ->
  (forall t, R' t -> R t) ->
  bitmap_ok g tb (fun q => exists t, R t /\ th_current_priority (k_threads c t) = q) ->
  bitmap_ok (if e then clear_bits_group th g tb else g) (if e then clear_bits_table th tb else tb)
    (fun q => exists t, R' t /\ th_current_priority (k_threads c t) = q).
Proof.
  intros p e g tb Hm Hrep HL Hts Hne Hsub Hb. subst e.
  rewrite (rep_isempty _ _ _ _ Hrep HL). case_bool_decide as He.
  - assert (ts' = []) as -> by (by destruct ts').
    eapply bitmap_ext; [|by apply bitmap_clear]. intros q. cbn. fold p. split.
    + intros [Hq (t & Ht & E)]. exists t. split; [|done]. apply Hne; [congruence|done].
    + intros (t & Ht & E). split; [|eauto]. intros ->.
      assert (t ∈ []) as Hin by (by apply Hts). by apply elem_of_nil in Hin.
  - eapply bitmap_ext; [|exact Hb]. intros q. cbn. split.
    + intros (t & Ht & E). destruct (decide (q = p)) as [->|].
      * destruct ts' as [|u ts']; [done|]. exists u. apply Hts. by left.
      * exists t. split; [|done]. apply Hne; [congruence|done].
    + intros (t & Ht & E). eauto.
Qed.

(** Removing a thread from the list it is on, a ready queue or another. *)
Lemma wp_schedule_remove_thread R c L t Q :
  ready_inv R c L -> masks_ok (k_threads c t) -> on_list L (LTlist t) ->
  (forall lk g tb, let c' := with_sched c lk (k_threads c) g tb in
     ready_inv (fun u => u <> t /\ R u) c' (unlink L (LTlist t)) -> Q tt c') ->
  wp (rt_schedule_remove_thread t) Q c.
Proof.
  intros Hi Hm Hon HQ. apply wp_schedule_remove_run. destruct Hi as [H1 H2 H3 H4].
  pose proof (rep_unlink _ _ _ H1 Hon) as Hrep'. apply HQ.
  assert (forall p, 0 <= p < RT_THREAD_PRIORITY_MAX -> exists ts,
    unlink L (LTlist t) (LReady p) = Some (LTlist <$> ts) /\
    forall u, u ∈ ts <-> (u <> t /\ R u) /\ th_current_priority (k_threads c u) = p) as Hq.
  { intros p Hp. destruct (H2 p Hp) as (ts & HL & Hts). exists (without t ts).
    rewrite unlink_ne, HL by done. cbn. rewrite without_fmap by apply _. split; [done|].
    intros u. rewrite elem_of_without, Hts. tauto. }
  split; cbn; [done|exact Hq|intros u [_ Hu]; eauto|].
  destruct (Hq _ (proj1 Hm)) as (ts & HL & Hts).
  eapply (bitmap_remove R _ c _ _ _ ts); [done|exact Hrep'|exact HL|exact Hts| |tauto|done].
  intros u Hu. split; [tauto|]. intros ?. split; [|done]. by intros ->.
Qed.

(** ** rt_schedule *)
(** The thread rt_schedule runs: the first of the highest non-empty queue. *)
Definition highest_first (R : Z -> Prop) (c : kcore) (L : lnode -> option (list lnode)) (t : Z) : Prop :=
  R t /\ (forall u, R u -> th_current_priority (k_threads c t) <= th_current_priority (k_threads c u)) /\
  exists ts, L (LReady (th_current_priority (k_threads c t))) = Some (LTlist <$> (t :: ts)).

Lemma next_thread R c L :
  ready_inv R c L -> (exists t, R t) ->
  exists t, l_next (k_links c) (LReady (highest_ready_priority c)) = LTlist t /\
    highest_first R c L t /\ th_current_priority (k_threads c t) = highest_ready_priority c.
Proof.
  intros [H1 H2 H3 H4] [t0 H0].
  destruct (highest_ready_priority_spec c _ (th_current_priority (k_threads c t0)) H4) as [[t1 [Ht1 E1]] Hmin].
  { exists t0; eauto. }
  set (hp := highest_ready_priority c) in *.
  pose proof (H3 _ Ht1) as [Hp1 _]. rewrite E1 in Hp1.
  destruct (H2 hp Hp1) as (ts & HL & Hts). destruct ts as [|t ts].
  { assert (t1 ∈ []) as Hin by (by apply Hts). by apply elem_of_nil in Hin. }
  destruct (proj1 (Hts t)) as [Ht E]; [by left|].
  exists t. split; [by rewrite (rep_next_head _ _ _ _ H1 HL)|]. split; [|done]. split; [done|].
  split; [intros u Hu; rewrite E; eauto|]. rewrite E. eauto.
Qed.

Lemma next_thread_unique R c L t u :
  ready_inv R c L -> highest_first R c L t -> highest_first R c L u -> t = u.
Proof.
  intros Hi (H1 & H2 & ts & H3) (K1 & K2 & us & K3).
  pose proof (H2 _ K1). pose proof (K2 _ H1).
  assert (th_current_priority (k_threads c t) = th_current_priority (k_threads c u)) as E by lia.
  rewrite E, K3 in H3. by injection H3.
Qed.

Definition switched (c : kcore) (to : Z) : kcore :=
  set_k_switches ((if k_interrupt_nest c =? 0 then Hw_switch else Hw_switch_interrupt)
      (k_current_thread c) to :: k_switches c)
    (set_k_current_thread (Some to) (set_k_current_priority (uint8 (highest_ready_priority c)) c)).

Lemma wp_schedule R c L Q :
  ready_inv R c L -> (k_lock_nest c = 0 -> exists t, R t) ->
  (k_lock_nest c <> 0 -> Q tt c) ->
  (forall t, k_lock_nest c = 0 -> highest_first R c L t ->
     Q tt (if decide (Some t = k_current_thread c) then c else switched c t)) ->
  wp rt_schedule Q c.
Proof.
  intros Hi He HQ1 HQ2. unfold rt_schedule. wp_steps.
  destruct (Z.eqb_spec (k_lock_nest c) 0) as [E|E]; [|wp_steps; auto].
  destruct (next_thread R c L Hi (He E)) as (t & Hn & Ht & Ep).
  wp_steps. rewrite Hn. cbn [rt_thread_entry]. wp_steps.
  specialize (HQ2 t E Ht). case_decide as D.
  - rewrite bool_decide_true by done. by wp_steps.
  - rewrite bool_decide_false by done. unfold switched in HQ2. wp_steps.
    destruct (k_interrupt_nest c =? 0); wp_steps; exact HQ2.
Qed.
End scheduler.
