(* ===== verification/Object.v ===== *)
(** The object system (src/object.c): named kernel objects on one list per class. *)
From S2P Require Import Prelude RtList Kservice Kernel Scheduler.

Section object.
Context {cfg : Config} {kh : KHeap}.

(** RT_DEBUG_NOT_IN_INTERRUPT and RT_DEBUG_IN_THREAD_CONTEXT (include/rtdebug.h). *)
Definition RT_DEBUG_NOT_IN_INTERRUPT : M kcore unit :=
  nest ← gets k_interrupt_nest;
  rt_assert (nest =? 0).
Definition RT_DEBUG_IN_THREAD_CONTEXT : M kcore unit :=
  self ← gets k_current_thread;
  rt_assert (bool_decide (self <> None)) ;;
  RT_DEBUG_NOT_IN_INTERRUPT.

Definition oid_at (type : rt_object_class_type) (a : Z) : oid :=
  match type with
  | RT_Object_Class_Thread => OThread a
  | RT_Object_Class_Semaphore => OSem a
  | RT_Object_Class_Mutex => OMutex a
  | RT_Object_Class_Event => OEvent a
  | RT_Object_Class_MailBox => OMailBox a
  | RT_Object_Class_MessageQueue => OMessageQueue a
  | RT_Object_Class_MemPool => OMemPool a
  | RT_Object_Class_Device => ODevice a
  | RT_Object_Class_MemHeap => OMemHeap a
  | _ => OTimer (TObj a)
  end.
Definition oid_addr (o : oid) : Z :=
  match o with
  | OThread a | OSem a | OMutex a | OEvent a | OMailBox a | OMessageQueue a | OMemPool a | ODevice a | OMemHeap a => a
  | OTimer (TObj a) | OTimer (TThread a) => a
  end.

(** sizeof of the structure of a class: only the heap looks at it. *)
Class ObjectSizes := object_size : rt_object_class_type -> Z.
Context {sz : ObjectSizes}.

Definition rt_object_init (o : oid) (type : rt_object_class_type) (name : list Z) : M kcore unit :=
  mod_object o (fun ob =>
    set_ob_name (rt_strncpy name RT_NAME_MAX)
      (set_ob_type (uint8 (Z.lor (class_value type) RT_Object_Class_Static)) ob)) ;;
  mod_links (fun l => rt_list_insert_after l (LObjHead type) (LObj o)).

Definition rt_object_detach (o : oid) : M kcore unit :=
  mod_links (fun l => rt_list_remove l (LObj o)).

Definition RT_KERNEL_MALLOC (size : Z) : M kcore (option Z) := fun c =>
  let '(p, h) := heap_malloc (k_heap c) size in Some (p, set_k_heap h c).
Definition RT_KERNEL_FREE (a : Z) : M kcore unit :=
  modify (fun c => set_k_heap (heap_free (k_heap c) a) c).

Definition rt_object_allocate (type : rt_object_class_type) (name : list Z) : M kcore (option Z) :=
  RT_DEBUG_NOT_IN_INTERRUPT ;;
  p ← RT_KERNEL_MALLOC (object_size type);
  match p with
  | None => mret None
  | Some a =>
    let o := oid_at type a in
    mod_object o (set_ob_type (class_value type)) ;;
    mod_object o (set_ob_flag 0) ;;
    mod_object o (set_ob_name (rt_strncpy name RT_NAME_MAX)) ;;
    mod_links (fun l => rt_list_insert_after l (LObjHead type) (LObj o)) ;;
    mret (Some a)
  end.

Definition rt_object_delete (o : oid) : M kcore unit :=
  ob ← object o;
  rt_assert (Z.land (ob_type ob) RT_Object_Class_Static =? 0) ;;
  mod_links (fun l => rt_list_remove l (LObj o)) ;;
  RT_KERNEL_FREE (oid_addr o).

Definition rt_object_is_systemobject (o : oid) : M kcore bool :=
  ob ← object o;
  mret (negb (Z.land (ob_type ob) RT_Object_Class_Static =? 0)).

(** rt_list_entry(node, struct rt_object, list). *)
Definition rt_object_entry (n : lnode) : M kcore oid :=
  match n with LObj o => mret o | _ => diverge end.

(** The search loop shared by rt_object_find and rt_thread_find. *)
Fixpoint object_search (fuel : nat) (head node : lnode) (name : list Z) : M kcore (option oid) :=
  match fuel with
  | O => diverge
  | S fuel =>
    if decide (node = head) then mret None
    else
      o ← rt_object_entry node;
      ob ← object o;
      if rt_strncmp (ob_name ob) name RT_NAME_MAX =? 0 then mret (Some o)
      else
        node ← gets (fun c => l_next (k_links c) node);
        object_search fuel head node name
  end.

Definition class_of_value (type : Z) : option rt_object_class_type :=
  find (fun cl => class_value cl =? type)
    [ RT_Object_Class_Thread; RT_Object_Class_Semaphore; RT_Object_Class_Mutex;
      RT_Object_Class_Event; RT_Object_Class_MailBox; RT_Object_Class_MessageQueue;
      RT_Object_Class_MemHeap; RT_Object_Class_MemPool; RT_Object_Class_Device;
      RT_Object_Class_Timer; RT_Object_Class_Unknown ].

(** The head indexed by RT_Object_Class_Unknown lies past the end of the
    container array; its content is whatever memory holds there. *)
Definition rt_object_find (name : option (list Z)) (type : Z) : M kcore (option oid) :=
  match name with
  | None => mret None
  | Some name =>
    if type >? class_value RT_Object_Class_Unknown then mret None
    else
      nest ← gets k_interrupt_nest;
      rt_assert (nest =? 0) ;;
      rt_enter_critical ;;
      match class_of_value type with
      | None => diverge
      | Some cl =>
        node ← gets (fun c => l_next (k_links c) (LObjHead cl));
        r ← object_search loop_fuel (LObjHead cl) node name;
        rt_exit_critical ;;
        mret r
      end
  end.

(** ** Specification *)
#[global] Instance LObj_inj : Inj (=) (=) LObj.
Proof. by intros t u [=]. Qed.

Definition name_matches (c : kcore) (name : list Z) (o : oid) : bool :=
  rt_strncmp (ob_name (k_objs c o)) name RT_NAME_MAX =? 0.

Lemma object_search_spec c L cl name os2 Q :
  rep (k_links c) L ->
  forall os1 fuel, L (LObjHead cl) = Some (LObj <$> (os1 ++ os2)) ->
  (length os2 < fuel)%nat ->
  Q (find (name_matches c name) os2) c ->
  wp (object_search fuel (LObjHead cl) (hd (LObjHead cl) (LObj <$> os2)) name) Q c.
Proof.
  intros Hrep. induction os2 as [|o os2 IH]; intros os1 fuel HL Hf HQ;
    (destruct fuel as [|fuel]; cbn in Hf; [lia|]); cbn [object_search].
  - cbn [hd fmap list_fmap]. rewrite decide_True by done. by wp_steps.
  - cbn [hd fmap list_fmap]. rewrite decide_False by done. cbn [rt_object_entry]. wp_steps.
    cbn [find] in HQ. change (rt_strncmp (ob_name (k_objs c o)) name RT_NAME_MAX =? 0)
      with (name_matches c name o).
    destruct (name_matches c name o); [by wp_steps|]. wp_steps.
    assert (L (LObjHead cl) = Some ((LObj <$> os1) ++ LObj o :: (LObj <$> os2))) as HL'.
    { by rewrite HL, fmap_app, fmap_cons. }
    rewrite (rep_next_mid _ _ _ _ _ _ Hrep HL').
    apply (IH (os1 ++ [o])); [by rewrite <- app_assoc|lia|done].
Qed.

Lemma int16_succ_pred n : 0 <= n < 32767 -> int16 (n + 1) = n + 1 /\ int16 (int16 (n + 1) - 1) = n.
Proof. intros Hn. rewrite !sint_small by lia. lia. Qed.

(** rt_object_find returns the first object of the class list whose name matches. *)
Lemma rt_object_find_run R c L cl name os Q :
  ready_inv R c L -> (exists t, R t) ->
  L (LObjHead cl) = Some (LObj <$> os) -> (length os < loop_fuel)%nat ->
  k_interrupt_nest c = 0 -> 0 <= k_lock_nest c < 32767 ->
  cl <> RT_Object_Class_Unknown ->
  (forall c', k_objs c' = k_objs c -> k_links c' = k_links c ->
     k_threads c' = k_threads c -> k_lock_nest c' = k_lock_nest c ->
     Q (find (name_matches c name) os) c') ->
  wp (rt_object_find (Some name) (class_value cl)) Q c.
Proof.
  intros Hi He HL Hf Hn Hl Hcl HQ. unfold rt_object_find.
  destruct (Z.gtb_spec (class_value cl) (class_value RT_Object_Class_Unknown)) as [G|G].
  { destruct cl; cbn in G; lia. }
  wp_steps; [by rewrite Hn|]. unfold rt_enter_critical. wp_steps.
  assert (class_of_value (class_value cl) = Some cl) as -> by (by destruct cl).
  wp_steps. rewrite (rep_next_head _ _ _ _ (ri_rep _ _ _ Hi) HL).
  destruct (int16_succ_pred _ Hl) as [N1 N2]. rewrite N1 in *.
  set (c1 := set_k_lock_nest (k_lock_nest c + 1) c).
  apply (object_search_spec c1 L cl name os _ (ri_rep _ _ _ Hi) []); [exact HL|done|].
  change (name_matches c1 name) with (name_matches c name).
  unfold rt_exit_critical. wp_steps. subst c1. ksimpl. rewrite N2.
  destruct (Z.leb_spec (k_lock_nest c) 0) as [E|E]; wp_steps; [|by apply HQ].
  assert (k_lock_nest c = 0) as E0 by lia.
  eapply (wp_schedule R _ L).
  - by eapply ready_inv_frame; [exact Hi|done|exact (ri_rep _ _ _ Hi)|..].
  - done.
  - done.
  - intros t _ _. wp_steps. apply HQ; case_decide; try done; by rewrite E0.
Qed.

(** A freshly initialised object is in front of its class list, under its
    truncated name, with the static bit set. *)
Lemma wp_object_init R c L o type name os Q :
  ready_inv R c L -> L (LObjHead type) = Some (LObj <$> os) -> free_node L (LObj o) ->
  (forall lk, let L' := <[LObjHead type := Some (LObj <$> (o :: os))]> (<[LObj o := None]> L) in
     let ob := set_ob_name (rt_strncpy name RT_NAME_MAX)
       (set_ob_type (uint8 (Z.lor (class_value type) RT_Object_Class_Static)) (k_objs c o)) in
     let c' := set_k_links lk (set_k_objs (<[o := ob]> (k_objs c)) c) in
     ready_inv R c' L' -> Q tt c') ->
  wp (rt_object_init o type name) Q c.
Proof.
  intros Hi HL Hf HQ. unfold rt_object_init. wp_steps. apply HQ.
  eapply ready_inv_frame; [exact Hi|done| | |done..].
  - by apply rep_insert_front; [exact (ri_rep _ _ _ Hi)|..].
  - intros p. by rewrite !upd_ne.
Qed.
(** After rt_object_init, rt_object_find by the same name returns the new object: it
    is the first of its class list, under its truncated name; and in general the
    search returns the first object of the list whose stored name matches, with the
    scheduler lock released. *)
Theorem rt_object_init_find R c L o cl name os :
  ready_inv R c L -> (exists t, R t) -> L (LObjHead cl) = Some (LObj <$> os) -> free_node L (LObj o) ->
  (S (length os) < loop_fuel)%nat -> k_interrupt_nest c = 0 -> 0 <= k_lock_nest c < 32767 ->
  cl <> RT_Object_Class_Unknown -> is_bytes name ->
  exists c1 L1 c2, rt_object_init o cl name c = Some (tt, c1) /\ ready_inv R c1 L1 /\
    L1 (LObjHead cl) = Some (LObj <$> (o :: os)) /\
    rt_object_find (Some name) (class_value cl) c1 = Some (Some o, c2) /\ k_lock_nest c2 = k_lock_nest c.
Proof.
  intros Hi He HL Hf Hlen Hn Hl Hcl Hb.
  assert (wp (rt_object_init o cl name) (fun _ c1 => exists L1, ready_inv R c1 L1 /\ L1 (LObjHead cl) = Some (LObj <$> (o :: os)) /\
    wp (rt_object_find (Some name) (class_value cl)) (fun r c2 => r = Some o /\ k_lock_nest c2 = k_lock_nest c) c1) c) as Hw.
  { eapply wp_object_init; [exact Hi|exact HL|exact Hf|]. intros lk L' ob c' Hi'. exists L'. split; [exact Hi'|].
    assert (L' (LObjHead cl) = Some (LObj <$> (o :: os))) as HL' by (unfold L'; by rewrite upd_eq).
    split; [exact HL'|]. eapply (rt_object_find_run R c' L' cl name (o :: os)); try done.
    intros c2 Eo _ _ El. split; [|done]. cbn [find]. unfold name_matches, c', ob; ksimpl. rewrite upd_eq. cbn [ob_name set_ob_name].
    assert (rt_strncmp (rt_strncpy name RT_NAME_MAX) name RT_NAME_MAX = 0) as ->; [|done].
    apply rt_strncmp_zero; [by apply rt_strncpy_bytes|done|apply rt_strncpy_idem]. }
  apply wp_run in Hw as ([] & c1 & E1 & L1 & H1 & H2 & Hw). apply wp_run in Hw as (r & c2 & E2 & -> & H3).
  by exists c1, L1, c2.
Qed.
End object.
