(* ===== verification/TimerCore.v ===== *)
(** Timers, first part (src/timer.c): initialisation, stopping, removal and control
    of a timer.  Starting and checking timers is in Timer.v, after the threads. *)
From S2P Require Import Prelude RtList Kservice Kernel Scheduler Object.

Section timer_core.
Context {cfg : Config} {kh : KHeap} {sz : ObjectSizes}.

(** [for (i = lo; i < lo + n; i++)] over the rows of a timer. *)
Fixpoint for_rows {S} (n lo : nat) (body : nat -> M S unit) : M S unit :=
  match n with
  | O => mret tt
  | Datatypes.S n => body lo ;; for_rows n (Datatypes.S lo) body
  end.

Definition clear_flag (mask : Z) (ob : rt_object) : rt_object :=
  set_ob_flag (Z.land (ob_flag ob) (uint8 (Z.lnot mask))) ob.
Definition set_flag (mask : Z) (ob : rt_object) : rt_object :=
  set_ob_flag (uint8 (Z.lor (ob_flag ob) mask)) ob.

Definition _rt_timer_init (tm : timer_id) (timeout : timeout_fn) (parameter time flag : Z) : M kcore unit :=
  mod_object (OTimer tm) (set_ob_flag flag) ;;
  mod_object (OTimer tm) (clear_flag RT_TIMER_FLAG_ACTIVATED) ;;
  mod_timer tm (fun t => set_tm_parameter parameter (set_tm_timeout_func timeout t)) ;;
  mod_timer tm (fun t => set_tm_init_tick time (set_tm_timeout_tick 0 t)) ;;
  for_rows RT_TIMER_SKIP_LIST_LEVEL 0 (fun i =>
    mod_links (fun l => rt_list_init l (LRow tm i))).

Definition _rt_timer_remove (tm : timer_id) : M kcore unit :=
  for_rows RT_TIMER_SKIP_LIST_LEVEL 0 (fun i =>
    mod_links (fun l => rt_list_remove l (LRow tm i))).

(** rt_list_entry(node, struct rt_timer, row[lvl]). *)
Definition rt_timer_entry (n : lnode) (lvl : nat) : M kcore timer_id :=
  match n with
  | LRow tm l => if decide (l = lvl) then mret tm else diverge
  | _ => diverge
  end.

Definition rt_timer_list_next_timeout (soft : bool) : M kcore Z :=
  let lvl := (RT_TIMER_SKIP_LIST_LEVEL - 1)%nat in
  empty ← gets (fun c => rt_list_isempty (k_links c) (LTimerHead soft lvl));
  if (empty : bool) then mret RT_TICK_MAX
  else
    n ← gets (fun c => l_next (k_links c) (LTimerHead soft lvl));
    tm ← rt_timer_entry n lvl;
    t ← timer tm;
    mret (tm_timeout_tick t).

Definition rt_timer_next_timeout_tick : M kcore Z := rt_timer_list_next_timeout false.

Fixpoint count_rows (c : kcore) (tm : timer_id) (n : nat) : Z :=
  match n with
  | O => 0
  | S n => count_rows c tm n + (if rt_list_isempty (k_links c) (LRow tm n) then 0 else 1)
  end.
Definition rt_timer_count_height (tm : timer_id) (c : kcore) : Z :=
  count_rows c tm RT_TIMER_SKIP_LIST_LEVEL.

Definition rt_timer_init (tm : timer_id) (name : list Z) (timeout : timeout_fn)
    (parameter time flag : Z) : M kcore unit :=
  rt_object_init (OTimer tm) RT_Object_Class_Timer name ;;
  _rt_timer_init tm timeout parameter time flag.

Definition rt_timer_detach (tm : timer_id) : M kcore Z :=
  _rt_timer_remove tm ;;
  rt_object_detach (OTimer tm) ;;
  mret (- RT_EOK).

Definition rt_timer_create (name : list Z) (timeout : timeout_fn) (parameter time flag : Z) : M kcore (option timer_id) :=
  p ← rt_object_allocate RT_Object_Class_Timer name;
  match p with
  | None => mret None
  | Some a =>
    _rt_timer_init (TObj a) timeout parameter time flag ;;
    mret (Some (TObj a))
  end.

Definition rt_timer_delete (tm : timer_id) : M kcore Z :=
  _rt_timer_remove tm ;;
  rt_object_delete (OTimer tm) ;;
  mret (- RT_EOK).

Definition timer_activated (c : kcore) (tm : timer_id) : bool :=
  negb (Z.land (ob_flag (k_objs c (OTimer tm))) RT_TIMER_FLAG_ACTIVATED =? 0).

Definition rt_timer_stop (tm : timer_id) : M kcore Z :=
  act ← gets (fun c => timer_activated c tm);
  if negb act then mret (- RT_ERROR)
  else
    _rt_timer_remove tm ;;
    mod_object (OTimer tm) (clear_flag RT_TIMER_FLAG_ACTIVATED) ;;
    mret RT_EOK.

(** Returns the error code and the value of [*arg] afterwards. *)
Definition rt_timer_control (tm : timer_id) (cmd arg : Z) : M kcore (Z * Z) :=
  if cmd =? RT_TIMER_CTRL_GET_TIME then
    t ← timer tm;
    mret (RT_EOK, tm_init_tick t)
  else if cmd =? RT_TIMER_CTRL_SET_TIME then
    mod_timer tm (set_tm_init_tick (uint32 arg)) ;;
    mret (RT_EOK, arg)
  else if cmd =? RT_TIMER_CTRL_SET_ONESHOT then
    mod_object (OTimer tm) (clear_flag RT_TIMER_FLAG_PERIODIC) ;;
    mret (RT_EOK, arg)
  else if cmd =? RT_TIMER_CTRL_SET_PERIODIC then
    mod_object (OTimer tm) (set_flag RT_TIMER_FLAG_PERIODIC) ;;
    mret (RT_EOK, arg)
  else mret (RT_EOK, arg).

(** ** Removal of all the rows of a timer *)
Definition is_row (tm : timer_id) (lo n : nat) (x : lnode) : Prop :=
  match x with LRow tm' l => tm' = tm /\ (lo <= l < lo + n)%nat | _ => False end.
#[global] Instance is_row_dec tm lo n x : Decision (is_row tm lo n x).
Proof. destruct x; apply _. Defined.

Definition rows_gone_n (L : lnode -> option (list lnode)) (tm : timer_id) (lo n : nat) : lnode -> option (list lnode) :=
  fun h => if decide (is_row tm lo n h) then Some [] else filter (fun x => ~ is_row tm lo n x) <$> L h.
Definition rows_gone L tm := rows_gone_n L tm 0 RT_TIMER_SKIP_LIST_LEVEL.

Lemma rows_gone_n_0 L tm lo h : rows_gone_n L tm lo 0 h = L h.
Proof.
  unfold rows_gone_n. rewrite decide_False.
  2: { destruct h; cbn; [tauto..|intros [_ ?]; lia|tauto|tauto]. }
  destruct (L h) as [xs|]; [|done]. cbn. f_equal.
  induction xs as [|x xs IH]; [done|]. rewrite filter_cons, decide_True; [by rewrite IH|].
  destruct x; cbn; lia.
Qed.

Lemma rows_gone_n_S L tm lo n h :
  rows_gone_n (unlink L (LRow tm lo)) tm (S lo) n h = rows_gone_n L tm lo (S n) h.
Proof.
  unfold rows_gone_n, unlink. destruct (decide (is_row tm lo (S n) h)) as [Hr|Hr].
  - destruct h; try done. destruct Hr as [-> Hr].
    destruct (decide (lvl = lo)) as [->|].
    + rewrite decide_False by (cbn; intros [_ ?]; lia). by rewrite decide_True.
    + rewrite decide_True; [done|]. cbn. split; [done|lia].
  - rewrite decide_False.
    2: { intros Hx. apply Hr. destruct h; try done. destruct Hx as [-> ?]. split; [done|lia]. }
    rewrite decide_False; [|intros ->; apply Hr; cbn; split; [done|lia]].
    destruct (L h) as [xs|]; [|done]. cbn. f_equal. unfold without. rewrite list_filter_filter.
    apply list_filter_iff. intros x. destruct x; cbn; try (split; [tauto|split; [tauto|done]]).
    destruct (decide (tm0 = tm)) as [->|]; [|split; [tauto|split; [tauto|congruence]]].
    split; [intros [H1 H2] [_ H3]|intros H; split].
    + destruct (decide (lvl = lo)) as [->|]; [done|]. apply H1. split; [done|lia].
    + intros [_ H3]. apply H. split; [done|lia].
    + intros [= ->]. apply H. split; [done|lia].
Qed.

Definition rows_live (L : lnode -> option (list lnode)) (tm : timer_id) : Prop :=
  forall l, (l < RT_TIMER_SKIP_LIST_LEVEL)%nat -> on_list L (LRow tm l) /\ forall xs, L (LRow tm l) = Some xs -> xs = [].

Lemma wp_for_rows_remove tm n lo c L Q :
  rep (k_links c) L ->
  (forall l, (lo <= l < lo + n)%nat -> on_list L (LRow tm l) /\ forall xs, L (LRow tm l) = Some xs -> xs = []) ->
  (forall lk, rep lk (rows_gone_n L tm lo n) -> Q tt (set_k_links lk c)) ->
  wp (for_rows n lo (fun i => mod_links (fun l => rt_list_remove l (LRow tm i)))) Q c.
Proof.
  revert lo c L Q. induction n as [|n IH]; intros lo c L Q Hrep Hl HQ; cbn [for_rows].
  - wp_steps. destruct c. apply (HQ k_links). eapply rep_ext; [|exact Hrep]. apply rows_gone_n_0.
  - wp_steps. destruct (Hl lo ltac:(lia)) as [Hon Hnil].
    eapply IH; [by apply rep_unlink| |].
    + intros l Hlr. destruct (Hl l ltac:(lia)) as [Hon' Hnil']. split.
      * apply unlink_on_list; [|done]. destruct (L (LRow tm lo)) as [xs|] eqn:E; [|by left].
        right. f_equal. by apply Hnil.
      * intros xs. rewrite unlink_ne by (intros [= ->]; lia).
        destruct (L (LRow tm l)) as [ys|] eqn:E; [|done]. intros [= <-]. by rewrite (Hnil' ys).
    + intros lk Hlk. apply HQ. eapply rep_ext; [|exact Hlk]. intros h. symmetry. apply rows_gone_n_S.
Qed.

Lemma wp_timer_remove tm c L Q :
  rep (k_links c) L -> rows_live L tm ->
  (forall lk, rep lk (rows_gone L tm) -> Q tt (set_k_links lk c)) ->
  wp (_rt_timer_remove tm) Q c.
Proof.
  intros Hrep Hl HQ. eapply wp_for_rows_remove; [done| |done]. intros l Hlr. apply Hl. lia.
Qed.

Lemma rows_gone_head L tm h :
  (forall l, h <> LRow tm l) -> rows_gone L tm h = filter (fun x => ~ is_row tm 0 RT_TIMER_SKIP_LIST_LEVEL x) <$> L h.
Proof.
  intros Hh. unfold rows_gone, rows_gone_n. rewrite decide_False; [done|].
  destruct h; try tauto. intros [-> _]. by apply (Hh lvl).
Qed.
(** Lists without timer rows are left as they are. *)
Lemma rows_gone_other L tm h :
  (forall l, h <> LRow tm l) -> (forall xs, L h = Some xs -> forall l, LRow tm l ∉ xs) ->
  rows_gone L tm h = L h.
Proof.
  intros Hh Hx. rewrite rows_gone_head by done. destruct (L h) as [xs|] eqn:E; [|done]. cbn. f_equal.
  specialize (Hx _ eq_refl). clear E. induction xs as [|x xs IH]; [done|].
  rewrite filter_cons, decide_True.
  - rewrite IH; [done|]. intros l Hl. apply (Hx l). by right.
  - destruct x; try tauto. intros [-> _]. apply (Hx lvl). by left.
Qed.
Lemma rows_gone_threads L tm h ts :
  (forall l, h <> LRow tm l) -> L h = Some (LTlist <$> ts) -> rows_gone L tm h = Some (LTlist <$> ts).
Proof.
  intros Hh HL. rewrite rows_gone_other; [done..|]. intros xs E l. rewrite HL in E. injection E as <-.
  by intros (? & ? & _)%list_elem_of_fmap.
Qed.
End timer_core.
