(* ===== verification/Invariant.v ===== *)
(** The kernel invariant: which nodes are on which lists, given the states of the
    threads and the flags of the timers. *)
From S2P Require Import Prelude RtList Kservice Kernel Scheduler Object TimerCore.

Section invariant.
Context {cfg : Config} {kh : KHeap}.
Implicit Types (L : lnode -> option (list lnode)).

(** ** Typing of the lists *)
Definition node_in (h x : lnode) : Prop :=
  match h, x with
  | LReady _, LTlist _ | LDefunct, LTlist _ | LSuspend _, LTlist _ | LSender _, LTlist _ | LWait _ _, LTlist _ => True
  | LTimerHead _ l, LRow _ l' => l' = l
  | LObjHead _, LObj _ => True
  | _, _ => False
  end.
Definition typed L : Prop := forall h xs x, L h = Some xs -> x ∈ xs -> node_in h x.

(** A node without members of its own, on a list or detached. *)
Lemma typed_leaf L n xs :
  typed L -> L n = Some xs -> (forall x, ~ node_in n x) -> xs = [].
Proof.
  intros Ht HL Hn. destruct xs as [|x xs]; [done|].
  exfalso. apply (Hn x). eapply Ht; [exact HL|]. by left.
Qed.

Definition rows_on L (tm : timer_id) : Prop :=
  forall l, (l < RT_TIMER_SKIP_LIST_LEVEL)%nat -> on_list L (LRow tm l).
Lemma rows_on_live L tm : typed L -> rows_on L tm -> rows_live L tm.
Proof.
  intros Ht Hr l Hl. split; [by apply Hr|]. intros xs HL. eapply typed_leaf; [done|done|]. intros x. destruct x; cbn; tauto.
Qed.

(** ** The lists *)
Definition wait_head (h : lnode) : Prop :=
  match h with LSuspend _ | LSender _ | LWait _ _ => True | _ => False end.
Definition soft_ok (soft : bool) : Prop := soft = true -> RT_USING_TIMER_SOFT = true.
Definition live (stat : Z -> Z) (t : Z) : Prop := stat t = RT_THREAD_READY \/ stat t = RT_THREAD_SUSPEND.

Record lists_ok (stat : Z -> Z) (act : timer_id -> bool) L : Prop := {
  lo_typed : typed L;
  lo_thread : forall t, live stat t -> on_list L (LTlist t) /\ rows_on L (TThread t);
  lo_wait : forall h xs t, wait_head h -> L h = Some xs -> LTlist t ∈ xs -> stat t = RT_THREAD_SUSPEND;
  lo_heads : forall soft lvl, soft_ok soft -> (lvl < RT_TIMER_SKIP_LIST_LEVEL)%nat ->
    is_Some (L (LTimerHead soft lvl));
  lo_below : forall soft lvl xs tm, L (LTimerHead soft lvl) = Some xs -> LRow tm lvl ∈ xs ->
    (S lvl < RT_TIMER_SKIP_LIST_LEVEL)%nat ->
    exists ys, L (LTimerHead soft (S lvl)) = Some ys /\ LRow tm (S lvl) ∈ ys;
  lo_active : forall soft lvl xs tm, L (LTimerHead soft lvl) = Some xs -> LRow tm lvl ∈ xs ->
    (lvl < RT_TIMER_SKIP_LIST_LEVEL)%nat /\ act tm = true /\ rows_on L tm;
  lo_timed : forall soft lvl xs t, L (LTimerHead soft lvl) = Some xs -> LRow (TThread t) lvl ∈ xs ->
    stat t = RT_THREAD_SUSPEND
}.

(** Changes of the lists that keep every membership outside thread nodes. *)
Definition same_rows L L' : Prop :=
  (forall soft lvl, L' (LTimerHead soft lvl) = L (LTimerHead soft lvl)) /\
  (forall tm l, on_list L (LRow tm l) -> on_list L' (LRow tm l)).

Lemma lists_ok_threads stat stat' act L L' :
  lists_ok stat act L -> same_rows L L' -> typed L' ->
  (forall t, live stat' t -> live stat t /\ (on_list L (LTlist t) -> on_list L' (LTlist t))) ->
  (forall h xs t, wait_head h -> L' h = Some xs -> LTlist t ∈ xs -> stat' t = RT_THREAD_SUSPEND) ->
  (forall soft lvl xs t, L (LTimerHead soft lvl) = Some xs -> LRow (TThread t) lvl ∈ xs ->
     stat' t = RT_THREAD_SUSPEND) ->
  lists_ok stat' act L'.
Proof.
  intros [H1 H2 H3 H4 H5 H6 H7] [Hh Hr] Ht Hl Hw Htm. split.
  - done.
  - intros t Hlt. destruct (Hl t Hlt) as [Hlt' Hon]. destruct (H2 t Hlt') as [Ha Hb].
    split; [by apply Hon|]. intros l Hll. by apply Hr, Hb.
  - exact Hw.
  - intros soft lvl. rewrite Hh. apply H4.
  - intros soft lvl xs tm. rewrite !Hh. apply H5.
  - intros soft lvl xs tm. rewrite Hh. intros HL Hin. destruct (H6 _ _ _ _ HL Hin) as (? & ? & Hon).
    split; [done|]. split; [done|]. intros l Hll. by apply Hr, Hon.
  - intros soft lvl xs t. rewrite Hh. apply Htm.
Qed.

(** *** Unlinking a thread node *)
Lemma typed_unlink L n : typed L -> typed (unlink L n).
Proof.
  intros Ht h xs x. unfold unlink. case_decide; [intros [= <-] []%elem_of_nil|].
  destruct (L h) as [ys|] eqn:E; [|done]. intros [= <-] [_ Hx]%elem_of_without. eapply Ht; eauto.
Qed.
Lemma typed_thread L t : typed L -> L (LTlist t) = None \/ L (LTlist t) = Some [].
Proof.
  intros Ht. destruct (L (LTlist t)) as [xs|] eqn:E; [|by left]. right. f_equal.
  eapply typed_leaf; [done|done|]. intros x. destruct x; cbn; tauto.
Qed.
Lemma unlink_thread_head L t h :
  typed L -> h <> LTlist t -> (forall x, node_in h x -> x <> LTlist t) -> unlink L (LTlist t) h = L h.
Proof.
  intros Ht Hne Hx. rewrite unlink_ne by done. destruct (L h) as [xs|] eqn:E; [|done]. cbn. f_equal.
  apply without_notin. intros Hin. eapply Hx; [|done]. by eapply Ht.
Qed.
Lemma same_rows_unlink L t : typed L -> same_rows L (unlink L (LTlist t)).
Proof.
  intros Ht. split.
  - intros soft lvl. apply unlink_thread_head; [done..|]. intros x. by destruct x.
  - intros tm l. apply unlink_on_list. by apply typed_thread.
Qed.

Lemma lists_ok_unlink stat act L t :
  lists_ok stat act L -> lists_ok stat act (unlink L (LTlist t)).
Proof.
  intros H. pose proof (lo_typed _ _ _ H) as Ht. eapply lists_ok_threads; [done|by apply same_rows_unlink|by apply typed_unlink| | |].
  - intros u Hu. split; [done|]. apply unlink_on_list. by apply typed_thread.
  - intros h xs u Hh HL Hin. unfold unlink in HL. case_decide as D; [by subst|].
    destruct (L h) as [ys|] eqn:E; [|done]. injection HL as <-. apply elem_of_without in Hin as [_ Hin].
    by eapply (lo_wait _ _ _ H).
  - eapply lo_timed; eauto.
Qed.

(** *** Inserting a node *)
Definition ins L (n h : lnode) (xs : list lnode) : lnode -> option (list lnode) := <[h := Some xs]> (<[n := None]> L).
Lemma ins_head L n h xs : ins L n h xs h = Some xs.
Proof. apply upd_eq. Qed.
Lemma ins_other L n h xs g : g <> h -> g <> n -> ins L n h xs g = L g.
Proof. intros. unfold ins. by rewrite !upd_ne by congruence. Qed.

Lemma on_list_ins L n h ys xs m :
  free_node L n -> L h = Some ys -> (forall x, x ∈ xs <-> x = n \/ x ∈ ys) -> m <> h ->
  on_list L m \/ m = n -> on_list (ins L n h xs) m.
Proof.
  intros [Hf _] HL Hx Hm Hon. destruct (decide (m = n)) as [->|Hmn].
  - right. exists h, xs. split; [apply ins_head|]. apply Hx. by left.
  - destruct Hon as [[Hon|(g & zs & Hg & Hin)]|Hon]; [| |done].
    + left. by rewrite ins_other.
    + right. destruct (decide (g = h)) as [->|].
      * exists h, xs. split; [apply ins_head|]. apply Hx. right. congruence.
      * exists g, zs. rewrite ins_other; [done..|]. intros ->.
        destruct Hf; simplify_eq. by apply elem_of_nil in Hin.
Qed.
Lemma typed_ins L n h ys xs :
  typed L -> L h = Some ys -> (forall x, x ∈ xs <-> x = n \/ x ∈ ys) -> node_in h n -> typed (ins L n h xs).
Proof.
  intros Ht HL Hx Hn g zs x. unfold ins. rewrite upd_case. case_decide as D.
  - subst g. intros [= <-] [->|Hin]%Hx; [done|]. eapply Ht; eauto.
  - rewrite upd_case. case_decide; [done|]. apply Ht.
Qed.

(** A thread node goes on a ready queue or a waiting list. *)
Lemma lists_ok_ins stat act L t h ys xs :
  lists_ok stat act L -> free_node L (LTlist t) -> L h = Some ys ->
  (forall x, x ∈ xs <-> x = LTlist t \/ x ∈ ys) -> node_in h (LTlist t) ->
  (wait_head h -> stat t = RT_THREAD_SUSPEND) ->
  lists_ok stat act (ins L (LTlist t) h xs).
Proof.
  intros H Hf HL Hx Hn Hw. pose proof (lo_typed _ _ _ H) as Ht.
  assert (forall m, m <> h -> on_list L m -> on_list (ins L (LTlist t) h xs) m) as Hon.
  { intros m Hm Ho. eapply on_list_ins; eauto. }
  eapply lists_ok_threads; [done| |by eapply typed_ins| | |].
  - split.
    + intros soft lvl. apply ins_other; [|done]. by intros <-.
    + intros tm l. apply Hon. by intros <-.
  - intros u Hu. split; [done|]. apply Hon. by intros <-.
  - intros g zs u Hg. unfold ins. rewrite upd_case. case_decide as D.
    + subst g. intros [= <-] [[= ->]|Hin]%Hx; [auto|]. by eapply (lo_wait _ _ _ H).
    + rewrite upd_case. case_decide; [done|]. by eapply (lo_wait _ _ _ H).
  - eapply lo_timed; eauto.
Qed.

(** *** Changing the state of a thread *)
Lemma lists_ok_stat stat act L t s :
  lists_ok stat act L ->
  (live (<[t := s]> stat) t -> on_list L (LTlist t) /\ rows_on L (TThread t)) ->
  (s <> RT_THREAD_SUSPEND ->
     (forall h xs, wait_head h -> L h = Some xs -> LTlist t ∉ xs) /\
     (forall soft lvl xs, L (LTimerHead soft lvl) = Some xs -> LRow (TThread t) lvl ∉ xs)) ->
  lists_ok (<[t := s]> stat) act L.
Proof.
  intros [H1 H2 H3 H4 H5 H6 H7] Hl Hs. split; try done.
  - intros u Hu. destruct (decide (t = u)) as [<-|]; [auto|]. apply H2. unfold live in *. by rewrite upd_ne in Hu.
  - intros h xs u Hh HL Hin. rewrite upd_case. case_decide; [subst u|eauto].
    destruct (decide (s = RT_THREAD_SUSPEND)); [done|]. exfalso. destruct (Hs ltac:(done)) as [Hw _]. by eapply Hw.
  - intros soft lvl xs u HL Hin. rewrite upd_case. case_decide; [subst u|eauto].
    destruct (decide (s = RT_THREAD_SUSPEND)); [done|]. exfalso. destruct (Hs ltac:(done)) as [_ Hw]. by eapply Hw.
Qed.

(** *** Removing the rows of a timer *)
Lemma rows_gone_filter L tm h xs' :
  rows_gone L tm h = Some xs' -> (exists l, h = LRow tm l /\ xs' = []) \/
  exists xs, L h = Some xs /\ forall x, x ∈ xs' <-> x ∈ xs /\ ~ is_row tm 0 RT_TIMER_SKIP_LIST_LEVEL x.
Proof.
  unfold rows_gone, rows_gone_n. case_decide as D.
  - intros [= <-]. left. destruct h; try done. destruct D as [-> _]. eauto.
  - destruct (L h) as [xs|]; [|done]. intros [= <-]. right. exists xs. split; [done|]. intros x.
    rewrite list_elem_of_filter. tauto.
Qed.
Lemma typed_rows_gone L tm : typed L -> typed (rows_gone L tm).
Proof.
  intros Ht h xs' x HL Hx. destruct (rows_gone_filter _ _ _ _ HL) as [(l & -> & ->)|(xs & HL' & Hf)].
  - by apply elem_of_nil in Hx.
  - eapply Ht; [done|]. by apply Hf.
Qed.
Lemma on_list_rows_gone L tm m : typed L -> on_list L m -> on_list (rows_gone L tm) m.
Proof.
  intros Ht Hon. unfold on_list, rows_gone, rows_gone_n.
  destruct (decide (is_row tm 0 RT_TIMER_SKIP_LIST_LEVEL m)) as [D|D]; [by left|].
  destruct Hon as [Hon|(h & xs & Hh & Hin)]; [left; by rewrite Hon|]. right.
  exists h, (filter (fun x => ~ is_row tm 0 RT_TIMER_SKIP_LIST_LEVEL x) xs).
  rewrite decide_False, Hh.
  - split; [done|]. by apply list_elem_of_filter.
  - intros Hr. destruct h; try done. pose proof (Ht _ _ _ Hh Hin) as Hbad. by destruct m.
Qed.
Lemma on_list_rows_gone_row L tm l :
  (l < RT_TIMER_SKIP_LIST_LEVEL)%nat -> rows_gone L tm (LRow tm l) = Some [].
Proof. intros Hl. unfold rows_gone, rows_gone_n. rewrite decide_True; [done|]. split; [done|lia]. Qed.

Lemma lists_ok_rows_gone stat act L tm :
  lists_ok stat act L -> lists_ok stat (<[tm := false]> act) (rows_gone L tm) /\ lists_ok stat act (rows_gone L tm).
Proof.
  intros [H1 H2 H3 H4 H5 H6 H7].
  assert (forall soft lvl xs' tm', rows_gone L tm (LTimerHead soft lvl) = Some xs' -> LRow tm' lvl ∈ xs' ->
    tm' <> tm /\ exists xs, L (LTimerHead soft lvl) = Some xs /\ LRow tm' lvl ∈ xs) as Hin.
  { intros soft lvl xs' tm' HL Hx. destruct (rows_gone_filter _ _ _ _ HL) as [(? & ? & _)|(xs & HL' & Hf)]; [done|].
    pose proof (proj1 (Hf _) Hx) as [Hx1 Hr]. split; [|eauto]. intros ->. apply Hr.
    split; [done|]. destruct (H6 _ _ _ _ HL' Hx1). lia. }
  assert (forall tm', rows_on L tm' -> rows_on (rows_gone L tm) tm') as Hro.
  { intros tm' Hr l Hl. apply on_list_rows_gone; auto. }
  assert (lists_ok stat act (rows_gone L tm)) as H; [|split; [|done]; destruct H as [K1 K2 K3 K4 K5 K6 K7]; split; try done].
  - split.
    + by apply typed_rows_gone.
    + intros t Ht. destruct (H2 t Ht). split; [by apply on_list_rows_gone|auto].
    + intros h xs' t Hh HL Hx. destruct (rows_gone_filter _ _ _ _ HL) as [(? & -> & _)|(xs & HL' & Hf)]; [done|].
      eapply H3; [done|done|]. by apply Hf.
    + intros soft lvl Hs Hl. rewrite rows_gone_head by done. destruct (H4 soft lvl Hs Hl) as [xs ->]. eauto.
    + intros soft lvl xs' tm' HL Hx Hl. destruct (Hin _ _ _ _ HL Hx) as (Hne & xs & HL' & Hx').
      destruct (H5 _ _ _ _ HL' Hx' Hl) as (ys & HL2 & Hy).
      exists (filter (fun x => ~ is_row tm 0 RT_TIMER_SKIP_LIST_LEVEL x) ys).
      rewrite rows_gone_head, HL2 by done. split; [done|]. apply list_elem_of_filter. split; [|done]. by intros [? _].
    + intros soft lvl xs' tm' HL Hx. destruct (Hin _ _ _ _ HL Hx) as (Hne & xs & HL' & Hx').
      destruct (H6 _ _ _ _ HL' Hx') as (? & ? & ?). auto.
    + intros soft lvl xs' t HL Hx. destruct (Hin _ _ _ _ HL Hx) as (Hne & xs & HL' & Hx'). eauto.
  - intros soft lvl xs' tm' HL Hx. destruct (Hin _ _ _ _ HL Hx) as (Hne & _).
    destruct (K6 _ _ _ _ HL Hx) as (? & ? & ?). rewrite upd_ne by congruence. auto.
Qed.

(** ** The invariant *)
Definition thread_stat (c : kcore) (t : Z) : Z := th_stat (k_threads c t).
Definition thread_timer_ok (c : kcore) (t : Z) : Prop :=
  tm_timeout_func (k_timers c (TThread t)) = TF_rt_thread_timeout /\
  tm_parameter (k_timers c (TThread t)) = t /\
  Z.land (ob_flag (k_objs c (OTimer (TThread t)))) (Z.lor RT_TIMER_FLAG_PERIODIC RT_TIMER_FLAG_SOFT_TIMER) = 0.
Record kinv (c : kcore) L : Prop := {
  ki_ready : ready_inv (fun t => thread_stat c t = RT_THREAD_READY) c L;
  ki_lists : lists_ok (thread_stat c) (timer_activated c) L;
  ki_masks : forall t, live (thread_stat c) t -> masks_ok (k_threads c t);
  ki_timer : forall t, live (thread_stat c) t -> thread_timer_ok c t
}.

Lemma lists_ok_ext stat stat' act act' L :
  (forall t, stat' t = stat t) -> (forall tm, act' tm = act tm) -> lists_ok stat act L -> lists_ok stat' act' L.
Proof.
  intros Es Ea [H1 H2 H3 H4 H5 H6 H7]. split; try done.
  - intros t Ht. apply H2. unfold live in *. by rewrite <- Es.
  - intros h xs t Hh HL Hin. rewrite Es. eauto.
  - intros soft lvl xs tm HL Hin. rewrite Ea. eauto.
  - intros soft lvl xs t HL Hin. rewrite Es. eauto.
Qed.

(** The nodes of a live thread, and of its timer. *)
Lemma kinv_rep c L : kinv c L -> rep (k_links c) L.
Proof. intros H. exact (ri_rep _ _ _ (ki_ready _ _ H)). Qed.
Lemma kinv_on_list c L t : kinv c L -> live (thread_stat c) t -> on_list L (LTlist t).
Proof. intros H Ht. by destruct (lo_thread _ _ _ (ki_lists _ _ H) t Ht). Qed.
Lemma kinv_rows_on c L t : kinv c L -> live (thread_stat c) t -> rows_on L (TThread t).
Proof. intros H Ht. by destruct (lo_thread _ _ _ (ki_lists _ _ H) t Ht). Qed.
Lemma kinv_queue c L t :
  kinv c L -> live (thread_stat c) t -> exists ts, L (LReady (th_current_priority (k_threads c t))) = Some (LTlist <$> ts) /\
    (t ∈ ts <-> thread_stat c t = RT_THREAD_READY).
Proof.
  intros H Ht. destruct (ki_masks _ _ H t Ht) as [Hp _].
  destruct (ri_queue _ _ _ (ki_ready _ _ H) _ Hp) as (ts & HL & Hts). exists ts. split; [done|]. rewrite Hts. tauto.
Qed.

(** [c'] differs from [c] in the state of thread [t] and in what the lists do not
    depend on. *)
Lemma kinv_intro c c' L' :
  ready_inv (fun t => thread_stat c' t = RT_THREAD_READY) c' L' ->
  lists_ok (thread_stat c') (timer_activated c') L' ->
  (forall t, live (thread_stat c') t -> live (thread_stat c) t /\
     same_prio (k_threads c t) (k_threads c' t) /\
     (thread_timer_ok c t -> thread_timer_ok c' t)) ->
  (forall t, live (thread_stat c) t -> masks_ok (k_threads c t) /\ thread_timer_ok c t) ->
  kinv c' L'.
Proof.
  intros H1 H2 H3 H4. split; [done|done| |].
  - intros t Ht. destruct (H3 t Ht) as (Hl & Hs & _). eapply same_prio_masks; [done|]. by apply H4.
  - intros t Ht. destruct (H3 t Ht) as (Hl & _ & Htm). by apply Htm, H4.
Qed.
Lemma kinv_threads c L t : kinv c L -> live (thread_stat c) t -> masks_ok (k_threads c t) /\ thread_timer_ok c t.
Proof. intros [_ _ H1 H2] Ht. auto. Qed.

Lemma same_prio_refl th : same_prio th th.
Proof. by repeat split. Qed.
Lemma thread_stat_upd c thr t th u :
  k_threads c = thr -> th_stat ((<[t := th]> thr) u) = (<[t := th_stat th]> (thread_stat c)) u.
Proof. intros <-. unfold thread_stat. rewrite !upd_case. by case_decide. Qed.

(** ** rt_timer_stop *)
Definition stop_timer (c : kcore) (tm : timer_id) : kcore :=
  set_k_objs (<[OTimer tm := clear_flag RT_TIMER_FLAG_ACTIVATED (k_objs c (OTimer tm))]> (k_objs c)) c.

Lemma wp_timer_stop tm c L Q :
  rep (k_links c) L -> (timer_activated c tm = true -> rows_live L tm) ->
  (timer_activated c tm = false -> Q (- RT_ERROR) c) ->
  (timer_activated c tm = true -> forall lk, rep lk (rows_gone L tm) ->
     Q RT_EOK (set_k_links lk (stop_timer c tm))) ->
  wp (rt_timer_stop tm) Q c.
Proof.
  intros Hrep Hl H1 H2. unfold rt_timer_stop. wp_steps.
  destruct (timer_activated c tm) eqn:E; cbn [negb]; [|wp_steps; auto].
  wp_steps. eapply wp_timer_remove; [done|auto|]. intros lk Hlk. wp_steps. by apply (H2 eq_refl lk).
Qed.

Lemma clear_flag_bits m mask ob : Z.land (uint8 (Z.lnot mask)) m = m ->
  Z.land (ob_flag (clear_flag mask ob)) m = Z.land (ob_flag ob) m.
Proof. intros E. cbn. by rewrite <- Z.land_assoc, E. Qed.
Lemma clear_flag_cleared mask ob : Z.land (uint8 (Z.lnot mask)) mask = 0 ->
  Z.land (ob_flag (clear_flag mask ob)) mask = 0.
Proof. intros E. cbn. by rewrite <- Z.land_assoc, E, Z.land_0_r. Qed.

Lemma stop_timer_activated c tm tm' :
  timer_activated (stop_timer c tm) tm' = (<[tm := false]> (timer_activated c)) tm'.
Proof.
  unfold timer_activated, stop_timer; ksimpl. destruct (decide (tm = tm')) as [->|D].
  - by rewrite !upd_eq, clear_flag_cleared.
  - by rewrite !upd_ne by congruence.
Qed.
Lemma stop_timer_ok c tm t : thread_timer_ok c t -> thread_timer_ok (stop_timer c tm) t.
Proof.
  intros (H1 & H2 & H3). split; [done|]. split; [done|]. unfold stop_timer; ksimpl.
  destruct (decide (OTimer tm = OTimer (TThread t))) as [E|E].
  - rewrite E, upd_eq. injection E as ->. by rewrite clear_flag_bits.
  - by rewrite upd_ne.
Qed.
End invariant.
