(* ===== verification/Thread.v ===== *)
(** Threads (src/thread.c): initialisation, startup, suspension, resumption,
    priority change, yielding, timeout and termination of a thread.

    rt_thread_sleep starts a timer: it is in Timer.v.  The contents of a stack,
    and the saved stack pointer, are not in the model. *)
From S2P Require Import Prelude RtList Kservice Kernel Scheduler Object TimerCore Invariant.

Section thread.
Context {cfg : Config} {kh : KHeap} {sz : ObjectSizes}.

(** rt_current_thread, where the code dereferences it. *)
Definition current_thread : M kcore Z :=
  self ← gets k_current_thread;
  match self with Some t => mret t | None => diverge end.

Definition rt_thread_self (c : kcore) : option Z := k_current_thread c.

Definition rt_thread_exit : M kcore unit :=
  t ← current_thread;
  rt_schedule_remove_thread t ;;
  mod_thread t (set_th_stat RT_THREAD_CLOSE) ;;
  _ ← rt_timer_detach (TThread t);
  sys ← rt_object_is_systemobject (OThread t);
  th ← thread t;
  (if (sys : bool) && bool_decide (th_cleanup th = None) then
     rt_object_detach (OThread t)
   else
     mod_links (fun l => rt_list_insert_after l LDefunct (LTlist t))) ;;
  rt_schedule.

Definition _rt_thread_init (t entry parameter stack_start stack_size priority tick : Z) : M kcore Z :=
  mod_links (fun l => rt_list_init l (LTlist t)) ;;
  mod_thread t (set_th_entry entry) ;;
  mod_thread t (set_th_parameter parameter) ;;
  mod_thread t (set_th_stack_addr stack_start) ;;
  mod_thread t (set_th_stack_size (uint16 stack_size)) ;;
  rt_assert (priority <? RT_THREAD_PRIORITY_MAX) ;;
  mod_thread t (set_th_init_priority priority) ;;
  mod_thread t (set_th_current_priority priority) ;;
  mod_thread t (set_th_init_tick tick) ;;
  mod_thread t (set_th_remaining_tick tick) ;;
  mod_thread t (set_th_error RT_EOK) ;;
  mod_thread t (set_th_stat RT_THREAD_INIT) ;;
  mod_thread t (set_th_cleanup None) ;;
  mod_thread t (set_th_user_data 0) ;;
  ob ← object (OThread t);
  rt_timer_init (TThread t) (ob_name ob) TF_rt_thread_timeout t 0 RT_TIMER_FLAG_ONE_SHOT ;;
  mret RT_EOK.

Definition rt_thread_init (t : Z) (name : list Z) (entry parameter : Z)
    (stack_start : option Z) (stack_size priority tick : Z) : M kcore Z :=
  match stack_start with
  | None => rt_assert false ;; mret RT_EOK
  | Some stack_start =>
    rt_object_init (OThread t) RT_Object_Class_Thread name ;;
    _rt_thread_init t entry parameter stack_start stack_size priority tick
  end.

(** The priority attributes of [current_priority]. *)
Definition calc_priority (th : rt_thread) : rt_thread :=
  if RT_THREAD_PRIORITY_MAX >? 32 then
    let th := set_th_number (Z.shiftr (th_current_priority th) 3) th in
    let th := set_th_number_mask (uint32 (Z.shiftl 1 (th_number th))) th in
    set_th_high_mask (uint8 (Z.shiftl 1 (Z.land (th_current_priority th) 7))) th
  else set_th_number_mask (uint32 (Z.shiftl 1 (th_current_priority th))) th.

Definition rt_thread_suspend (t : Z) : M kcore Z :=
  th ← thread t;
  if negb (th_stat th =? RT_THREAD_READY) then mret (- RT_ERROR)
  else
    mod_thread t (set_th_stat RT_THREAD_SUSPEND) ;;
    rt_schedule_remove_thread t ;;
    mret RT_EOK.

Definition rt_thread_resume (t : Z) : M kcore Z :=
  th ← thread t;
  if negb (th_stat th =? RT_THREAD_SUSPEND) then mret (- RT_ERROR)
  else
    mod_links (fun l => rt_list_remove l (LTlist t)) ;;
    _ ← rt_timer_stop (TThread t);
    rt_schedule_insert_thread t ;;
    mret RT_EOK.

Definition rt_thread_startup (t : Z) : M kcore Z :=
  th ← thread t;
  rt_assert (th_stat th =? RT_THREAD_INIT) ;;
  mod_thread t (fun th => set_th_current_priority (th_init_priority th) th) ;;
  mod_thread t calc_priority ;;
  mod_thread t (set_th_stat RT_THREAD_SUSPEND) ;;
  _ ← rt_thread_resume t;
  self ← gets rt_thread_self;
  (if bool_decide (self <> None) then rt_schedule else mret tt) ;;
  mret RT_EOK.

Definition rt_thread_detach (t : Z) : M kcore Z :=
  rt_schedule_remove_thread t ;;
  _ ← rt_timer_detach (TThread t);
  mod_thread t (set_th_stat RT_THREAD_CLOSE) ;;
  rt_object_detach (OThread t) ;;
  th ← thread t;
  (if bool_decide (th_cleanup th <> None) then
     mod_links (fun l => rt_list_insert_after l LDefunct (LTlist t))
   else mret tt) ;;
  mret RT_EOK.

Definition rt_thread_create (name : list Z) (entry parameter stack_size priority tick : Z) : M kcore (option Z) :=
  p ← rt_object_allocate RT_Object_Class_Thread name;
  match p with
  | None => mret None
  | Some t =>
    s ← RT_KERNEL_MALLOC stack_size;
    match s with
    | None => rt_object_delete (OThread t) ;; mret None
    | Some stack_start =>
      _ ← _rt_thread_init t entry parameter stack_start stack_size priority tick;
      mret (Some t)
    end
  end.

Definition rt_thread_delete (t : Z) : M kcore Z :=
  rt_schedule_remove_thread t ;;
  _ ← rt_timer_detach (TThread t);
  mod_thread t (set_th_stat RT_THREAD_CLOSE) ;;
  mod_links (fun l => rt_list_insert_after l LDefunct (LTlist t)) ;;
  mret RT_EOK.

Definition rt_thread_yield : M kcore Z :=
  t ← current_thread;
  th ← thread t;
  lk ← gets k_links;
  if (th_stat th =? RT_THREAD_READY) &&
     bool_decide (l_next lk (LTlist t) <> l_prev lk (LTlist t)) then
    mod_links (fun l => rt_list_remove l (LTlist t)) ;;
    mod_links (fun l => rt_list_insert_before l (LReady (th_current_priority th)) (LTlist t)) ;;
    rt_schedule ;;
    mret RT_EOK
  else mret RT_EOK.

(** [arg] is the byte the argument points to. *)
Definition rt_thread_control (t cmd arg : Z) : M kcore Z :=
  if cmd =? RT_THREAD_CTRL_CHANGE_PRIORITY then
    th ← thread t;
    (if th_stat th =? RT_THREAD_READY then
       rt_schedule_remove_thread t ;;
       mod_thread t (set_th_current_priority (uint8 arg)) ;;
       mod_thread t calc_priority ;;
       rt_schedule_insert_thread t
     else
       mod_thread t (set_th_current_priority (uint8 arg)) ;;
       mod_thread t calc_priority) ;;
    mret RT_EOK
  else if cmd =? RT_THREAD_CTRL_STARTUP then rt_thread_startup t
  else if cmd =? RT_THREAD_CTRL_CLOSE then rt_thread_delete t
  else mret RT_EOK.

Definition rt_thread_timeout (parameter : Z) : M kcore unit :=
  th ← thread parameter;
  rt_assert (th_stat th =? RT_THREAD_SUSPEND) ;;
  mod_thread parameter (set_th_error (- RT_ETIMEOUT)) ;;
  mod_links (fun l => rt_list_remove l (LTlist parameter)) ;;
  rt_schedule_insert_thread parameter ;;
  rt_schedule.

Definition rt_thread_find (name : list Z) : M kcore (option oid) :=
  self ← gets rt_thread_self;
  (if bool_decide (self <> None) then rt_enter_critical else mret tt) ;;
  node ← gets (fun c => l_next (k_links c) (LObjHead RT_Object_Class_Thread));
  r ← object_search loop_fuel (LObjHead RT_Object_Class_Thread) node name;
  self ← gets rt_thread_self;
  (if bool_decide (self <> None) then rt_exit_critical else mret tt) ;;
  mret r.

(** ** Suspending a thread *)
Definition with_stat (s t : Z) (c : kcore) : Z -> rt_thread :=
  <[t := set_th_stat s (k_threads c t)]> (k_threads c).

Lemma same_prio_stat s t c u : same_prio (k_threads c u) (with_stat s t c u).
Proof. unfold with_stat. rewrite upd_case. case_decide; subst; by repeat split. Qed.
Lemma thread_stat_with_sched c lk s t g tb u :
  thread_stat (with_sched c lk (with_stat s t c) g tb) u = (<[t := s]> (thread_stat c)) u.
Proof. unfold thread_stat; cbn. unfold with_stat. rewrite !upd_case. by case_decide. Qed.

Lemma kinv_suspend c L t lk g tb :
  kinv c L -> thread_stat c t = RT_THREAD_READY ->
  let c' := with_sched c lk (with_stat RT_THREAD_SUSPEND t c) g tb in
  ready_inv (fun u => u <> t /\ thread_stat c u = RT_THREAD_READY) c' (unlink L (LTlist t)) ->
  kinv c' (unlink L (LTlist t)).
Proof.
  intros H Ht c' Hr.
  assert (live (thread_stat c) t) as Hlt by (by left).
  assert (forall u, thread_stat c' u = (<[t := RT_THREAD_SUSPEND]> (thread_stat c)) u) as Es
    by (intros; apply thread_stat_with_sched).
  apply (kinv_intro c).
  - eapply ready_inv_frame; [exact Hr| |exact (ri_rep _ _ _ Hr)|done..|intros; apply same_prio_refl].
    intros u. rewrite Es, upd_case. case_decide; subst; [|intuition congruence]. split; [tauto|done].
  - eapply lists_ok_ext; [exact Es|reflexivity|]. pose proof (lists_ok_unlink _ _ _ t (ki_lists _ _ H)) as Hu.
    apply lists_ok_stat; [exact Hu| |done]. intros _. by apply (lo_thread _ _ _ Hu).
  - intros u Hu. split; [|split; [apply same_prio_stat|done]].
    unfold live in *. rewrite !Es, upd_case in Hu. case_decide; subst; auto.
  - intros u. by apply (kinv_threads c L).
Qed.

Lemma wp_thread_suspend c L t Q :
  kinv c L ->
  (thread_stat c t <> RT_THREAD_READY -> Q (- RT_ERROR) c) ->
  (thread_stat c t = RT_THREAD_READY -> forall lk g tb,
     let c' := with_sched c lk (with_stat RT_THREAD_SUSPEND t c) g tb in
     kinv c' (unlink L (LTlist t)) -> Q RT_EOK c') ->
  wp (rt_thread_suspend t) Q c.
Proof.
  intros H Hno Hyes. unfold rt_thread_suspend. wp_steps. fold (thread_stat c t).
  destruct (Z.eqb_spec (thread_stat c t) RT_THREAD_READY) as [Ht|Ht]; cbn [negb]; wp_steps; [|auto].
  set (c1 := set_k_threads (with_stat RT_THREAD_SUSPEND t c) c).
  eapply (wp_schedule_remove_thread (fun u => thread_stat c u = RT_THREAD_READY) c1 L t).
  - eapply ready_inv_frame; [exact (ki_ready _ _ H)|done|exact (kinv_rep _ _ H)|done..|]. intros u _. apply same_prio_stat.
  - eapply same_prio_masks; [apply same_prio_stat|]. apply (ki_masks _ _ H). by left.
  - apply (kinv_on_list c); [done|by left].
  - intros lk g tb c' Hr. wp_steps. apply (Hyes Ht lk g tb). by apply kinv_suspend.
Qed.

(** ** Resuming a thread *)
Lemma kinv_relink c c' L L' :
  kinv c L -> rep (k_links c') L' -> k_threads c' = k_threads c ->
  k_ready_priority_group c' = k_ready_priority_group c -> k_ready_table c' = k_ready_table c ->
  (forall p ts, L (LReady p) = Some (LTlist <$> ts) -> (forall t, t ∈ ts -> thread_stat c t = RT_THREAD_READY) ->
     L' (LReady p) = Some (LTlist <$> ts)) ->
  lists_ok (thread_stat c) (timer_activated c') L' ->
  (forall t, thread_timer_ok c t -> thread_timer_ok c' t) ->
  kinv c' L'.
Proof.
  intros H Hrep Et Eg Eb Hq Hl Ht.
  assert (forall t, thread_stat c' t = thread_stat c t) as Es by (intros; unfold thread_stat; by rewrite Et).
  apply (kinv_intro c).
  - eapply ready_inv_frame; [exact (ki_ready _ _ H)|intros u; by rewrite Es|done| |done|done|].
    + intros p Hp. destruct (ri_queue _ _ _ (ki_ready _ _ H) p Hp) as (ts & HL & Hts).
      rewrite HL. apply Hq; [done|]. intros t. by rewrite Hts; intros [? _].
    + intros u _. rewrite Et. apply same_prio_refl.
  - by eapply lists_ok_ext; [exact Es| |exact Hl].
  - intros u Hu. unfold live in *. rewrite Es in Hu. rewrite Et. split; [done|]. split; [apply same_prio_refl|auto].
  - intros u. by apply (kinv_threads c L).
Qed.

(** [t], which is not READY, leaves the list it is on. *)
Lemma kinv_unlink c L t lk :
  kinv c L -> thread_stat c t <> RT_THREAD_READY -> rep lk (unlink L (LTlist t)) ->
  kinv (set_k_links lk c) (unlink L (LTlist t)).
Proof.
  intros H Ht Hlk. eapply kinv_relink; [exact H|done..| | |done].
  - intros p ts HL Hts. rewrite unlink_ne, HL by done. cbn. rewrite without_fmap by apply _. rewrite without_notin; [done|].
    intros Hin. by apply Ht, Hts.
  - apply lists_ok_unlink. exact (ki_lists _ _ H).
Qed.
(** A timer's rows leave their lists, and its flag may be cleared. *)
Lemma kinv_rows_gone c L tm lk :
  kinv c L -> rep lk (rows_gone L tm) ->
  kinv (set_k_links lk c) (rows_gone L tm) /\ kinv (set_k_links lk (stop_timer c tm)) (rows_gone L tm).
Proof.
  intros H Hlk. destruct (lists_ok_rows_gone _ _ _ tm (ki_lists _ _ H)) as [H1 H2].
  split; (eapply kinv_relink; [exact H|done..| | |]).
  1,4: (intros p ts HL _; by apply rows_gone_threads).
  - exact H2.
  - done.
  - eapply lists_ok_ext; [done| |exact H1]. intros. apply stop_timer_activated.
  - intros t Ht. by apply stop_timer_ok.
Qed.

(** No row of the timer is on a timer list. *)
Definition rows_off (L : lnode -> option (list lnode)) (tm : timer_id) : Prop :=
  forall soft lvl xs, L (LTimerHead soft lvl) = Some xs -> LRow tm lvl ∉ xs.
Lemma kinv_rows_off c L tm : kinv c L -> timer_activated c tm = false -> rows_off L tm.
Proof.
  intros H Ha soft lvl xs HL Hin. destruct (lo_active _ _ _ (ki_lists _ _ H) _ _ _ _ HL Hin) as (_ & E & _). congruence.
Qed.

Lemma kinv_insert c L t ts lk g tb :
  kinv c L -> live (thread_stat c) t -> free_node L (LTlist t) -> rows_off L (TThread t) ->
  let p := th_current_priority (k_threads c t) in
  L (LReady p) = Some (LTlist <$> ts) ->
  let c' := with_sched c lk (with_stat RT_THREAD_READY t c) g tb in
  ready_inv (fun u => u = t \/ thread_stat c u = RT_THREAD_READY) c' (ins_ready L t p ts) ->
  kinv c' (ins_ready L t p ts).
Proof.
  intros H Hlt Hf Hoff p HL c' Hr.
  assert (forall u, thread_stat c' u = (<[t := RT_THREAD_READY]> (thread_stat c)) u) as Es
    by (intros; apply thread_stat_with_sched).
  apply (kinv_intro c).
  - eapply ready_inv_frame; [exact Hr| |exact (ri_rep _ _ _ Hr)|done..|intros; apply same_prio_refl].
    intros u. rewrite Es, upd_case. case_decide; subst; [tauto|]. intuition congruence.
  - eapply lists_ok_ext; [exact Es|reflexivity|]. pose proof (ki_lists _ _ H) as Hs.
    eapply lists_ok_ins; [|done|exact HL| |done|done].
    + apply lists_ok_stat; [exact Hs| |].
      * intros _. by apply (lo_thread _ _ _ Hs).
      * intros _. split; [intros h xs _ Hh; by eapply Hf|exact Hoff].
    + intros x. rewrite fmap_app. change (LTlist <$> [t]) with [LTlist t].
      rewrite elem_of_app, list_elem_of_singleton. tauto.
  - intros u Hu. split; [|split; [apply same_prio_stat|done]].
    unfold live in *. rewrite !Es, upd_case in Hu. case_decide; subst; auto.
  - intros u. by apply (kinv_threads c L).
Qed.

(** Joining the ready queue, from the state in which the thread is on no list. *)
Lemma wp_insert_kinv c L t Q :
  kinv c L -> thread_stat c t = RT_THREAD_SUSPEND -> free_node L (LTlist t) -> rows_off L (TThread t) ->
  (forall ts lk g tb, let p := th_current_priority (k_threads c t) in
     L (LReady p) = Some (LTlist <$> ts) ->
     let c' := with_sched c lk (with_stat RT_THREAD_READY t c) g tb in
     kinv c' (ins_ready L t p ts) -> Q tt c') ->
  wp (rt_schedule_insert_thread t) Q c.
Proof.
  intros H Ht Hf Hoff HQ. assert (live (thread_stat c) t) as Hlt by (by right).
  destruct (kinv_queue _ _ _ H Hlt) as (ts & HL & _).
  eapply (wp_schedule_insert_thread (fun u => thread_stat c u = RT_THREAD_READY) c L t ts);
    [exact (ki_ready _ _ H)|by rewrite Ht|by apply (ki_masks _ _ H)|done|done|].
  intros lk g tb c' Hr. apply (HQ ts); [done|]. by apply kinv_insert.
Qed.

(** The lists and the core after [t] left its list and its timer was stopped, and
    the lists after it joined its ready queue. *)
Definition stopped_lists (c : kcore) (L : lnode -> option (list lnode)) (t : Z) : lnode -> option (list lnode) :=
  if timer_activated c (TThread t) then rows_gone (unlink L (LTlist t)) (TThread t) else unlink L (LTlist t).
Definition stopped_core (c : kcore) (t : Z) : kcore :=
  if timer_activated c (TThread t) then stop_timer c (TThread t) else c.
Definition resume_lists (c : kcore) L (t : Z) (ts : list Z) : lnode -> option (list lnode) :=
  ins_ready (stopped_lists c L t) t (th_current_priority (k_threads c t)) ts.

Lemma rows_gone_free L tm n :
  typed L -> free_node L n -> (forall l, n <> LRow tm l) -> free_node (rows_gone L tm) n.
Proof.
  intros Ht [H1 H2] Hn. split.
  - rewrite rows_gone_head by done. destruct H1 as [-> | ->]; auto.
  - intros h xs' HL Hin. destruct (rows_gone_filter _ _ _ _ HL) as [(? & -> & ->)|(xs & HL' & Hf)].
    + by apply elem_of_nil in Hin.
    + eapply H2; [exact HL'|]. by apply Hf.
Qed.
(** Lists of threads lose [t] and nothing else. *)
Lemma stopped_threads c L t h ts :
  h <> LTlist t -> (forall tm l, h <> LRow tm l) -> L h = Some (LTlist <$> ts) ->
  stopped_lists c L t h = Some (LTlist <$> without t ts).
Proof.
  intros Hne Hrow HL. assert (unlink L (LTlist t) h = Some (LTlist <$> without t ts)) as Hu.
  { rewrite unlink_ne, HL by done. cbn. by rewrite without_fmap by apply _. }
  unfold stopped_lists. case_match; [|done]. by apply rows_gone_threads.
Qed.
Lemma stopped_same c t :
  k_threads (stopped_core c t) = k_threads c /\ k_timers (stopped_core c t) = k_timers c.
Proof. unfold stopped_core. by case_match. Qed.

(** The first half of rt_thread_resume. *)
Lemma wp_take_off {A} (k : Z -> M kcore A) c L t Q :
  kinv c L -> thread_stat c t = RT_THREAD_SUSPEND ->
  (forall r lk, let c' := set_k_links lk (stopped_core c t) in
     kinv c' (stopped_lists c L t) -> free_node (stopped_lists c L t) (LTlist t) ->
     rows_off (stopped_lists c L t) (TThread t) -> wp (k r) Q c') ->
  wp (mod_links (fun l => rt_list_remove l (LTlist t)) ;; r ← rt_timer_stop (TThread t); k r) Q c.
Proof.
  intros H Ht HQ. assert (live (thread_stat c) t) as Hlt by (by right).
  pose proof (lo_typed _ _ _ (ki_lists _ _ H)) as Hty.
  pose proof (rep_unlink _ _ _ (kinv_rep _ _ H) (kinv_on_list _ _ _ H Hlt)) as Hu.
  pose proof (unlink_free _ _ _ (kinv_rep _ _ H) (kinv_on_list _ _ _ H Hlt)) as Hf.
  wp_steps. set (c1 := set_k_links (rt_list_remove (k_links c) (LTlist t)) c).
  assert (kinv c1 (unlink L (LTlist t))) as H1 by (apply kinv_unlink; [done|by rewrite Ht|done]).
  unfold stopped_lists, stopped_core in HQ.
  apply (wp_timer_stop _ c1 (unlink L (LTlist t))); [exact Hu|..]; change (timer_activated c1) with (timer_activated c).
  - intros _. apply rows_on_live; [by apply typed_unlink|]. by apply (kinv_rows_on c1).
  - intros E. rewrite E in HQ. apply HQ; [done|done|]. by eapply kinv_rows_off.
  - intros E lk Hlk. rewrite E in HQ. destruct (kinv_rows_gone _ _ _ _ H1 Hlk) as [_ H2].
    apply HQ; [exact H2|by apply rows_gone_free; [apply typed_unlink| |]|].
    eapply kinv_rows_off; [exact H2|].
    change (timer_activated (stop_timer c1 (TThread t)) (TThread t) = false).
    by rewrite stop_timer_activated, upd_eq.
Qed.

Lemma wp_thread_resume c L t Q :
  kinv c L ->
  (thread_stat c t <> RT_THREAD_SUSPEND -> Q (- RT_ERROR) c) ->
  (thread_stat c t = RT_THREAD_SUSPEND -> forall ts lk g tb,
     stopped_lists c L t (LReady (th_current_priority (k_threads c t))) = Some (LTlist <$> ts) ->
     let c' := with_sched (stopped_core c t) lk (with_stat RT_THREAD_READY t c) g tb in
     kinv c' (resume_lists c L t ts) -> Q RT_EOK c') ->
  wp (rt_thread_resume t) Q c.
Proof.
  intros H Hno Hyes. unfold rt_thread_resume. wp_step. cbn beta. wp_step. fold (thread_stat c t).
  destruct (Z.eqb_spec (thread_stat c t) RT_THREAD_SUSPEND) as [Ht|Ht]; cbn [negb]; [|wp_steps; auto].
  destruct (stopped_same c t) as [Eth _].
  eapply wp_take_off; [done|done|]. intros _ lk c1 H1 Hf1 Ho1. wp_step.
  assert (k_threads c1 = k_threads c) as Ec1 by done.
  eapply wp_insert_kinv; [exact H1|unfold thread_stat; by rewrite Ec1|done|done|].
  rewrite Ec1. intros ts lk' g tb p HL c' Hk. wp_step.
  assert (c' = with_sched (stopped_core c t) lk' (with_stat RT_THREAD_READY t c) g tb) as E
    by (unfold c', with_stat; by rewrite Ec1).
  clearbody c'. subst c'. by apply (Hyes Ht ts).
Qed.

(** ** rt_schedule under the invariant *)
(** What the scheduler changes: the current thread and the switch requests. *)
Definition rescheduled (c c' : kcore) : Prop :=
  exists cur prio sw, c' = set_k_switches sw (set_k_current_thread cur (set_k_current_priority prio c)).
Lemma rescheduled_refl c : rescheduled c c.
Proof. exists (k_current_thread c), (k_current_priority c), (k_switches c). by destruct c. Qed.
Lemma rescheduled_kinv c c' L : rescheduled c c' -> kinv c L -> kinv c' L.
Proof.
  intros (cur & prio & sw & ->) [H1 H2 H3 H4]. split; [|done..].
  eapply ready_inv_frame; [exact H1|done|exact (ri_rep _ _ _ H1)|done..|intros; apply same_prio_refl].
Qed.

(** The current thread after rt_schedule, when the scheduler is not locked. *)
Definition next_current (c c' : kcore) L : Prop :=
  k_lock_nest c = 0 -> exists t, k_current_thread c' = Some t /\
    highest_first (fun u => thread_stat c u = RT_THREAD_READY) c L t.

Lemma wp_schedule_kinv c L Q :
  kinv c L -> (k_lock_nest c = 0 -> exists t, thread_stat c t = RT_THREAD_READY) ->
  (forall c', rescheduled c c' -> kinv c' L -> next_current c c' L -> (k_lock_nest c <> 0 -> c' = c) -> Q tt c') ->
  wp rt_schedule Q c.
Proof.
  intros H He HQ. eapply wp_schedule; [exact (ki_ready _ _ H)|done| |].
  - intros Hl. apply HQ; [apply rescheduled_refl|done|by intros ?|done].
  - intros t Hl Ht. case_decide as D.
    + apply HQ; [apply rescheduled_refl|done| |done]. intros _. exists t. by rewrite <- D.
    + assert (rescheduled c (switched c t)) as Hr by (unfold switched; eexists _, _, _; reflexivity).
      apply HQ; [done|by eapply rescheduled_kinv| |done]. intros _. exists t. done.
Qed.

(** ** rt_thread_timeout *)
(** The state when a waiting thread is woken: its error code [e], READY, off its
    waiting list, its row of ready threads extended. *)
Definition with_error (e t : Z) (c : kcore) : kcore :=
  set_k_threads (<[t := set_th_error e (k_threads c t)]> (k_threads c)) c.
Lemma thread_stat_error e t c u : thread_stat (with_error e t c) u = thread_stat c u.
Proof. unfold thread_stat, with_error; ksimpl. rewrite upd_case. case_decide; by subst. Qed.
Lemma same_prio_error e t c u : same_prio (k_threads c u) (k_threads (with_error e t c) u).
Proof. unfold with_error; ksimpl. rewrite upd_case. case_decide; subst; by repeat split. Qed.

(** Thread updates that keep the state and the priority keep the invariant. *)
Lemma kinv_thread_frame c c' L :
  kinv c L -> k_links c' = k_links c -> k_objs c' = k_objs c -> k_timers c' = k_timers c ->
  k_ready_priority_group c' = k_ready_priority_group c -> k_ready_table c' = k_ready_table c ->
  (forall u, thread_stat c' u = thread_stat c u) -> (forall u, same_prio (k_threads c u) (k_threads c' u)) ->
  kinv c' L.
Proof.
  intros H El Eo Et Eg Eb Es Hs. apply (kinv_intro c).
  - eapply ready_inv_frame; [exact (ki_ready _ _ H)|intros u; by rewrite Es| |done..]. rewrite El. exact (kinv_rep _ _ H).
  - eapply lists_ok_ext; [exact Es| |exact (ki_lists _ _ H)]. intros tm. unfold timer_activated. by rewrite Eo.
  - intros u Hu. unfold live in *. rewrite Es in Hu. split; [done|]. split; [done|].
    unfold thread_timer_ok. by rewrite Et, Eo.
  - intros u. by apply (kinv_threads c L).
Qed.
Lemma kinv_error c L e t : kinv c L -> kinv (with_error e t c) L.
Proof.
  intros H. eapply kinv_thread_frame; [exact H|done..|apply thread_stat_error|apply same_prio_error].
Qed.
Lemma resume_lists_error c L e t ts : resume_lists (with_error e t c) L t ts = resume_lists c L t ts.
Proof. unfold resume_lists, with_error; ksimpl. by rewrite upd_eq. Qed.

Lemma ins_ready_wait L t p ts h us :
  wait_head h -> L h = Some (LTlist <$> us) -> ins_ready L t p ts h = Some (LTlist <$> us).
Proof. intros Hh HL. unfold ins_ready. rewrite !upd_ne; [done|by intros <-..]. Qed.
Lemma resume_lists_wait c L t ts h us :
  wait_head h -> L h = Some (LTlist <$> us) -> resume_lists c L t ts h = Some (LTlist <$> without t us).
Proof.
  intros Hh HL. unfold resume_lists. apply ins_ready_wait; [done|]. by apply stopped_threads; try by destruct h.
Qed.

(** A waiting thread whose timer fired runs again, with the error code of a
    timeout, and is on no waiting list. *)
Definition timed_out (c : kcore) (t : Z) := with_error (- RT_ETIMEOUT) t c.
Lemma wp_thread_timeout c L t Q :
  kinv c L -> thread_stat c t = RT_THREAD_SUSPEND -> rows_off L (TThread t) ->
  (forall ts lk g tb c', let p := th_current_priority (k_threads c t) in
     unlink L (LTlist t) (LReady p) = Some (LTlist <$> ts) ->
     let c1 := with_sched (timed_out c t) lk (with_stat RT_THREAD_READY t (timed_out c t)) g tb in
     let L' := ins_ready (unlink L (LTlist t)) t p ts in
     rescheduled c1 c' -> kinv c' L' -> next_current c1 c' L' -> Q tt c') ->
  wp (rt_thread_timeout t) Q c.
Proof.
  intros H Ht Hoff HQ. unfold rt_thread_timeout. wp_step. cbn beta. wp_step.
  wp_step. cbn beta. wp_step; [by apply Z.eqb_eq|]. wp_step. wp_step.
  change (wp (mod_links (fun l => rt_list_remove l (LTlist t)) ;; rt_schedule_insert_thread t ;; rt_schedule) Q (timed_out c t)).
  set (c0 := timed_out c t). assert (kinv c0 L) as H0 by (by apply kinv_error).
  assert (thread_stat c0 t = RT_THREAD_SUSPEND) as Ht0 by (unfold c0, timed_out; by rewrite thread_stat_error).
  assert (th_current_priority (k_threads c0 t) = th_current_priority (k_threads c t)) as Ep
    by (unfold c0, timed_out; apply same_prio_error).
  assert (live (thread_stat c0) t) as Hlt by (by right).
  pose proof (rep_unlink _ _ _ (kinv_rep _ _ H0) (kinv_on_list _ _ _ H0 Hlt)) as Hu.
  pose proof (unlink_free _ _ _ (kinv_rep _ _ H0) (kinv_on_list _ _ _ H0 Hlt)) as Hf.
  wp_step. wp_step. cbn beta.
  assert (kinv (set_k_links (rt_list_remove (k_links c0) (LTlist t)) c0) (unlink L (LTlist t))) as H1
    by (apply kinv_unlink; [done|by rewrite Ht0|done]).
  wp_step. eapply wp_insert_kinv; [exact H1|exact Ht0|done| |].
  { intros soft lvl xs. rewrite unlink_thread_head; [apply Hoff|by apply (lo_typed _ _ _ (ki_lists _ _ H))|done|].
    intros x. by destruct x. }
  cbn zeta. ksimpl. rewrite Ep. intros ts lk g tb HL Hk.
  eapply wp_schedule_kinv; [exact Hk| |].
  - intros _. exists t. rewrite (thread_stat_with_sched c0 lk RT_THREAD_READY t g tb). by rewrite upd_eq.
  - intros c' Hr Hk' Hn _. exact (HQ ts lk g tb c' HL Hr Hk' Hn).
Qed.

(** ** Changing the priority of a thread *)
Definition new_priority (prio : Z) (th : rt_thread) : rt_thread := calc_priority (set_th_current_priority prio th).

Lemma shiftl1 w k : 0 <= k < w -> uint w (Z.shiftl 1 k) = 2 ^ k.
Proof.
  intros Hk. rewrite Z.shiftl_1_l. apply uint_small. split; [lia|].
  apply Z.pow_lt_mono_r; lia.
Qed.
Lemma calc_priority_fields th :
  th_current_priority (calc_priority th) = th_current_priority th /\ th_stat (calc_priority th) = th_stat th /\
  th_error (calc_priority th) = th_error th.
Proof. unfold calc_priority. by case_match. Qed.
Lemma calc_priority_masks th :
  0 <= th_current_priority th < RT_THREAD_PRIORITY_MAX -> masks_ok (calc_priority th).
Proof.
  intros Hp. split; [by rewrite (proj1 (calc_priority_fields th))|]. pose proof prio_max_range as Hm.
  rewrite (proj1 (calc_priority_fields th)). unfold calc_priority.
  destruct (Z.leb_spec RT_THREAD_PRIORITY_MAX 32), (Z.gtb_spec RT_THREAD_PRIORITY_MAX 32); try lia; cbn.
  - apply shiftl1. lia.
  - pose proof (shiftr3_range (th_current_priority th) ltac:(lia)).
    destruct (prio_split (th_current_priority th) ltac:(lia)) as [_ Hl].
    split; [done|]. split; apply shiftl1; lia.
Qed.
Lemma new_priority_masks prio th : 0 <= prio < RT_THREAD_PRIORITY_MAX -> masks_ok (new_priority prio th).
Proof. intros. by apply calc_priority_masks. Qed.
Lemma new_priority_fields prio th :
  th_current_priority (new_priority prio th) = prio /\ th_stat (new_priority prio th) = th_stat th /\
  th_error (new_priority prio th) = th_error th.
Proof. apply (calc_priority_fields (set_th_current_priority prio th)). Qed.

(** The threads after the change; a READY thread has moved to the tail of the
    queue of its new priority. *)
Definition with_priority (prio t : Z) (c : kcore) : Z -> rt_thread :=
  <[t := new_priority prio (k_threads c t)]> (k_threads c).
Lemma with_priority_stat prio t c thr u :
  thr = with_priority prio t c -> th_stat (thr u) = thread_stat c u.
Proof.
  intros ->. unfold with_priority, thread_stat. rewrite upd_case. case_decide; [subst|done]. apply new_priority_fields.
Qed.

Lemma kinv_with_priority c c' L L' t prio :
  kinv c L -> 0 <= prio < RT_THREAD_PRIORITY_MAX ->
  (forall u, thread_stat c' u = thread_stat c u) -> k_objs c' = k_objs c -> k_timers c' = k_timers c ->
  (forall u, u <> t -> k_threads c' u = k_threads c u) -> masks_ok (k_threads c' t) ->
  ready_inv (fun u => thread_stat c u = RT_THREAD_READY) c' L' ->
  lists_ok (thread_stat c) (timer_activated c) L' ->
  kinv c' L'.
Proof.
  intros H Hp Es Eo Et Eth Hm Hr Hl. split.
  - eapply ready_inv_frame; [exact Hr|intros; by rewrite Es|exact (ri_rep _ _ _ Hr)|done..|intros; apply same_prio_refl].
  - eapply lists_ok_ext; [exact Es| |exact Hl]. intros tm. unfold timer_activated. by rewrite Eo.
  - intros u Hu. destruct (decide (u = t)) as [->|]; [done|]. rewrite Eth by done.
    apply (ki_masks _ _ H). unfold live in *. by rewrite Es in Hu.
  - intros u Hu. unfold thread_timer_ok. rewrite Et, Eo. apply (ki_timer _ _ H). unfold live in *. by rewrite Es in Hu.
Qed.

Lemma with_priority_other prio t c u : u <> t -> with_priority prio t c u = k_threads c u.
Proof. intros. unfold with_priority. by rewrite upd_ne. Qed.
Lemma with_priority_same prio t c : with_priority prio t c t = new_priority prio (k_threads c t).
Proof. unfold with_priority. by rewrite upd_eq. Qed.

(** The second half for a READY thread: back on a ready queue. *)
Lemma wp_reinsert c L t prio lk thr g tb Q :
  kinv c L -> 0 <= prio < RT_THREAD_PRIORITY_MAX -> thread_stat c t = RT_THREAD_READY ->
  (forall u, thr u = with_priority prio t c u) ->
  let c2 := with_sched c lk thr g tb in
  ready_inv (fun u => u <> t /\ thread_stat c u = RT_THREAD_READY) c2 (unlink L (LTlist t)) ->
  (forall ts thr lk g tb,
     unlink L (LTlist t) (LReady prio) = Some (LTlist <$> ts) ->
     (forall u, thr u = with_priority prio t c u) ->
     let c' := with_sched c lk thr g tb in
     kinv c' (ins_ready (unlink L (LTlist t)) t prio ts) -> Q tt c') ->
  wp (rt_schedule_insert_thread t) Q c2.
Proof.
  intros H Hp Ht Ethr c2 H2 HQ. assert (live (thread_stat c) t) as Hlt by (by left).
  pose proof (unlink_free _ _ _ (kinv_rep _ _ H) (kinv_on_list _ _ _ H Hlt)) as Hf.
  assert (k_threads c2 t = new_priority prio (k_threads c t)) as E3 by (cbn; by rewrite Ethr, with_priority_same).
  destruct (new_priority_fields prio (k_threads c t)) as (Ep & Es & _).
  destruct (ri_queue _ _ _ H2 prio Hp) as (ts & HL & _).
  eapply (wp_schedule_insert_thread _ c2 _ t ts); [exact H2|tauto|rewrite E3; by apply new_priority_masks|done|by rewrite E3, Ep|].
  rewrite E3, Ep. intros lk' g' tb' c3 H3.
  set (thr3 := <[t := set_th_stat RT_THREAD_READY (new_priority prio (k_threads c t))]> thr).
  assert (forall u, thr3 u = with_priority prio t c u) as E4.
  { intros u. unfold thr3. rewrite upd_case. case_decide; [subst u|by rewrite Ethr].
    rewrite with_priority_same. fold (thread_stat c t) in Es. rewrite Ht in Es.
    destruct (new_priority prio (k_threads c t)). cbn in *. by subst. }
  apply (HQ ts thr3 lk' g' tb' HL E4).
  eapply (kinv_with_priority c _ L _ t prio); [done|done| |done|done| | | |].
  - intros u. unfold thread_stat at 1; cbn. rewrite E4. by eapply with_priority_stat.
  - intros u Hu. cbn. by rewrite E4, with_priority_other.
  - cbn. rewrite E4, with_priority_same. by apply new_priority_masks.
  - eapply ready_inv_frame; [exact H3| |exact (ri_rep _ _ _ H3)|done..|intros; apply same_prio_refl].
    intros u. destruct (decide (u = t)); subst; tauto.
  - eapply lists_ok_ins; [by apply lists_ok_unlink, (ki_lists _ _ H)|exact Hf|exact HL| |done|done].
    intros x. rewrite fmap_app. change (LTlist <$> [t]) with [LTlist t].
    rewrite elem_of_app, list_elem_of_singleton. tauto.
Qed.

Lemma wp_change_priority c L t prio Q :
  kinv c L -> 0 <= prio < RT_THREAD_PRIORITY_MAX ->
  (thread_stat c t <> RT_THREAD_READY -> forall thr, (forall u, thr u = with_priority prio t c u) ->
     kinv (set_k_threads thr c) L -> Q RT_EOK (set_k_threads thr c)) ->
  (thread_stat c t = RT_THREAD_READY -> forall ts thr lk g tb,
     unlink L (LTlist t) (LReady prio) = Some (LTlist <$> ts) ->
     (forall u, thr u = with_priority prio t c u) ->
     let c' := with_sched c lk thr g tb in
     kinv c' (ins_ready (unlink L (LTlist t)) t prio ts) -> Q RT_EOK c') ->
  wp (rt_thread_control t RT_THREAD_CTRL_CHANGE_PRIORITY prio) Q c.
Proof.
  intros H Hp Hno Hyes. unfold rt_thread_control. rewrite Z.eqb_refl. pose proof prio_max_range as Hmax.
  rewrite (uint_small 8) by lia. pose proof (ki_ready _ _ H) as Hri.
  set (thr2 := <[t:=calc_priority (set_th_current_priority prio (k_threads c t))]> (<[t:=set_th_current_priority prio (k_threads c t)]> (k_threads c))).
  assert (forall u, thr2 u = with_priority prio t c u) as E2.
  { intros u. unfold thr2, with_priority. rewrite !upd_case. by case_decide. }
  do 2 (wp_step; cbn beta). wp_step. fold (thread_stat c t).
  destruct (Z.eqb_spec (thread_stat c t) RT_THREAD_READY) as [Ht|Ht].
  - assert (live (thread_stat c) t) as Hlt by (by left).
    wp_step. eapply (wp_schedule_remove_thread _ c L t); [exact Hri|by apply (ki_masks _ _ H)|by eapply kinv_on_list|].
    intros lk g tb c1 H1. do 2 (wp_step; cbn beta). do 2 (wp_step; cbn beta). unfold c1. ksimpl. rewrite upd_eq.
    apply (wp_reinsert c L t prio lk thr2 g tb); [done|done|done|done| |].
    + eapply ready_inv_frame; [exact H1|done|exact (ri_rep _ _ _ H1)|done..|].
      intros u [Hu _]. cbn. rewrite E2, with_priority_other by done. apply same_prio_refl.
    + intros ts thr lk' g' tb' HL Et c' Hk. wp_step. by apply (Hyes Ht ts).
  - do 2 (wp_step; cbn beta). wp_step. wp_step. ksimpl. rewrite upd_eq.
    apply (Hno Ht thr2 E2). eapply (kinv_with_priority c _ L _ t prio); [done|done| |done|done| | | |exact (ki_lists _ _ H)].
    + intros u. unfold thread_stat at 1; cbn. rewrite E2. by eapply with_priority_stat.
    + intros u Hu. ksimpl. by rewrite E2, with_priority_other.
    + ksimpl. rewrite E2, with_priority_same. by apply new_priority_masks.
    + eapply ready_inv_frame; [exact Hri|done|exact (ri_rep _ _ _ Hri)|done..|].
      intros u Hu. ksimpl. rewrite E2, with_priority_other; [apply same_prio_refl|]. by intros ->.
Qed.

(** ** rt_thread_startup *)
(** A thread as rt_thread_init leaves it, on no list. *)
Record thread_fresh (c : kcore) (L : lnode -> option (list lnode)) (t : Z) : Prop := {
  fr_stat : thread_stat c t = RT_THREAD_INIT;
  fr_prio : 0 <= th_init_priority (k_threads c t) < RT_THREAD_PRIORITY_MAX;
  fr_node : L (LTlist t) = Some [];
  fr_rows : forall l, (l < RT_TIMER_SKIP_LIST_LEVEL)%nat -> L (LRow (TThread t) l) = Some [];
  fr_timer : thread_timer_ok c t;
  fr_idle : timer_activated c (TThread t) = false
}.

Lemma kinv_wake_init c L t thr :
  kinv c L -> thread_fresh c L t ->
  (forall u, u <> t -> thr u = k_threads c u) -> th_stat (thr t) = RT_THREAD_SUSPEND -> masks_ok (thr t) ->
  kinv (set_k_threads thr c) L.
Proof.
  intros H [F1 F2 F3 F4 F5 F6] Eth Et Hm.
  assert (forall u, thread_stat (set_k_threads thr c) u = (<[t := RT_THREAD_SUSPEND]> (thread_stat c)) u) as Es.
  { intros u. unfold thread_stat at 1; ksimpl. rewrite upd_case. case_decide; [by subst|]. by rewrite Eth. }
  split.
  - eapply ready_inv_frame; [exact (ki_ready _ _ H)| |exact (kinv_rep _ _ H)|done..|].
    + intros u. rewrite Es, upd_case. case_decide; [subst u; rewrite F1; done|done].
    + intros u Hu. ksimpl. rewrite Eth; [apply same_prio_refl|]. intros ->. by rewrite F1 in Hu.
  - eapply lists_ok_ext; [exact Es|reflexivity|]. apply lists_ok_stat; [exact (ki_lists _ _ H)| |done].
    intros _. split; [by left|]. intros l Hl. left. by apply F4.
  - intros u Hu. ksimpl. destruct (decide (u = t)) as [->|]; [done|]. rewrite Eth by done. apply (ki_masks _ _ H).
    unfold live in *. by rewrite !Es, !upd_ne in Hu.
  - intros u Hu. destruct (decide (u = t)) as [->|]; [done|]. apply (ki_timer _ _ H).
    unfold live in *. by rewrite !Es, !upd_ne in Hu.
Qed.

Lemma wp_thread_startup c L t Q :
  kinv c L -> thread_fresh c L t ->
  (forall c1 L' c', thread_stat c1 t = RT_THREAD_READY -> (forall u, u <> t -> k_threads c1 u = k_threads c u) ->
     th_current_priority (k_threads c1 t) = th_init_priority (k_threads c t) ->
     k_lock_nest c1 = k_lock_nest c -> k_current_thread c1 = k_current_thread c ->
     (forall h, h <> LReady (th_init_priority (k_threads c t)) -> h <> LTlist t -> L' h = without (LTlist t) <$> L h) ->
     k_objs c1 = k_objs c /\ k_timers c1 = k_timers c /\ k_interrupt_nest c1 = k_interrupt_nest c /\ k_rt_tick c1 = k_rt_tick c ->
     kinv c' L' -> rescheduled c1 c' ->
     match k_current_thread c with Some _ => next_current c1 c' L' | None => c' = c1 end ->
     Q RT_EOK c') ->
  wp (rt_thread_startup t) Q c.
Proof.
  intros H Hfr HQ. unfold rt_thread_startup. do 2 (wp_step; cbn beta).
  wp_step. wp_step. { apply Z.eqb_eq. apply (fr_stat _ _ _ Hfr). }
  do 3 (wp_step; wp_step; cbn beta). ksimpl. rewrite !upd_eq.
  set (th := set_th_stat RT_THREAD_SUSPEND (calc_priority (set_th_current_priority (th_init_priority (k_threads c t)) (k_threads c t)))).
  set (thr := <[t := th]> _).
  assert (forall u, u <> t -> thr u = k_threads c u) as Eth by (intros u Hu; unfold thr; by rewrite !upd_ne).
  assert (thr t = th) as Et by (unfold thr; by rewrite upd_eq).
  change (wp (_ ← rt_thread_resume t; self ← gets rt_thread_self; (if bool_decide (self <> None) then rt_schedule else mret tt) ;; mret RT_EOK)
    Q (set_k_threads thr c)).
  assert (kinv (set_k_threads thr c) L) as H1.
  { eapply kinv_wake_init; [done|done|done|by rewrite Et|]. rewrite Et.
    eapply (same_prio_masks (new_priority (th_init_priority (k_threads c t)) (k_threads c t)));
      [|apply new_priority_masks; exact (fr_prio _ _ _ Hfr)]. by repeat split. }
  assert (thread_stat (set_k_threads thr c) t = RT_THREAD_SUSPEND) as Hs1 by (unfold thread_stat; ksimpl; by rewrite Et).
  wp_step. eapply wp_thread_resume; [exact H1|by rewrite Hs1|]. intros _ ts lk g tb HL c1 Hk.
  assert (thread_stat c1 t = RT_THREAD_READY) as Hr by (unfold thread_stat, c1; cbn; unfold with_stat; by rewrite upd_eq).
  assert (stopped_core (set_k_threads thr c) t = set_k_threads thr c) as Est.
  { unfold stopped_core. change (timer_activated (set_k_threads thr c)) with (timer_activated c). by rewrite (fr_idle _ _ _ Hfr). }
  unfold c1 in *. rewrite Est in *. clear c1.
  wp_step. wp_step. cbn beta. unfold rt_thread_self. cbn [with_sched k_current_thread].
  match type of Hk with kinv ?x _ => set (c1 := x) in * end.
  assert (forall u, u <> t -> k_threads c1 u = k_threads c u) as Eu.
  { intros u Hu. unfold c1; cbn. unfold with_stat; ksimpl. rewrite upd_ne by done. auto. }
  assert (th_current_priority (k_threads c1 t) = th_init_priority (k_threads c t)) as Ep.
  { unfold c1; cbn. unfold with_stat; ksimpl. rewrite upd_eq, Et. apply calc_priority_fields. }
  match type of Hk with kinv _ ?x => set (L' := x) in * end.
  assert (forall h, h <> LReady (th_init_priority (k_threads c t)) -> h <> LTlist t -> L' h = without (LTlist t) <$> L h) as HL'.
  { intros h Hh1 Hh2. unfold L', resume_lists, stopped_lists. change (timer_activated (set_k_threads thr c)) with (timer_activated c).
    rewrite (fr_idle _ _ _ Hfr). unfold ins_ready. ksimpl. rewrite Et. unfold th.
    rewrite !upd_ne; [by apply unlink_ne|done|]. intros <-. apply Hh1. f_equal. apply calc_priority_fields. }
  wp_step. change (k_current_thread c1) with (k_current_thread c). destruct (k_current_thread c) as [cur|] eqn:Ec.
  - rewrite bool_decide_true by done. eapply wp_schedule_kinv; [exact Hk|by eauto|].
    intros c' Hrs Hk' Hn _. wp_step. by eapply (HQ c1 L' c').
  - rewrite bool_decide_false by (by intros []). wp_step. wp_step.
    by eapply (HQ c1 L' c1); try done; apply rescheduled_refl.
Qed.

(** ** rt_thread_yield *)
(** The ring around a READY thread has other members exactly when its queue does. *)
Lemma ring_alone (lk : links lnode) (L : lnode -> option (list lnode)) h (us vs : list Z) t :
  rep lk L -> L h = Some (LTlist <$> (us ++ t :: vs)) -> (forall u, h <> LTlist u) ->
  l_next lk (LTlist t) = l_prev lk (LTlist t) <-> us = [] /\ vs = [].
Proof.
  intros Hrep HL Hh. rewrite fmap_app, fmap_cons in HL. pose proof (rep_NoDup _ _ _ _ Hrep HL) as Hnd.
  rewrite (rep_next_mid _ _ _ _ _ _ Hrep HL).
  pose proof (rep_prev _ _ _ (LTlist <$> us) (LTlist t :: (LTlist <$> vs)) Hrep HL) as Hp. cbn [hd] in Hp. rewrite Hp.
  rewrite fmap_last. destruct us as [|u us _] using rev_ind; [|rewrite last_snoc]; destruct vs as [|v vs]; cbn.
  - done.
  - split; [|by intros []]. intros E. by destruct (Hh v).
  - split; [intros E; by destruct (Hh u)|]. intros [E _]. by destruct us.
  - split; [|by intros [_ ?]]. intros [= ->]. exfalso.
    apply NoDup_app in Hnd as (_ & Hd & _). apply (Hd (LTlist u)).
    + apply elem_of_LTlist, elem_of_app. right. by left.
    + right. by left.
Qed.

Lemma kinv_rotate c L t us vs :
  let p := th_current_priority (k_threads c t) in
  kinv c L -> thread_stat c t = RT_THREAD_READY -> L (LReady p) = Some (LTlist <$> (us ++ t :: vs)) ->
  let lk := rt_list_insert_before (rt_list_remove (k_links c) (LTlist t)) (LReady p) (LTlist t) in
  kinv (set_k_links lk c) (ins_ready (unlink L (LTlist t)) t p (us ++ vs)).
Proof.
  intros p H Ht HL lk. assert (live (thread_stat c) t) as Hlt by (by left).
  pose proof (kinv_rep _ _ H) as Hrep. pose proof (kinv_on_list _ _ _ H Hlt) as Hon.
  pose proof (rep_unlink _ _ _ Hrep Hon) as Hu. pose proof (unlink_free _ _ _ Hrep Hon) as Hf.
  assert (NoDup (us ++ t :: vs)) as Hnd.
  { eapply NoDup_fmap_1, (rep_NoDup _ _ _ _ Hrep HL). }
  assert (unlink L (LTlist t) (LReady p) = Some (LTlist <$> (us ++ vs))) as HU.
  { rewrite unlink_ne, HL by done. cbn. rewrite without_fmap by apply _. by rewrite without_mid. }
  pose proof (rep_insert_tail _ _ _ _ _ Hu HU Hf ltac:(done)) as Hlk.
  assert (rep lk (ins_ready (unlink L (LTlist t)) t p (us ++ vs))) as Hrep'.
  { unfold ins_ready. by rewrite (fmap_app LTlist (us ++ vs)). }
  assert (forall q xs, q <> p -> L (LReady q) = Some xs -> (forall x, x ∈ xs -> x <> LTlist t) ->
    ins_ready (unlink L (LTlist t)) t p (us ++ vs) (LReady q) = Some xs) as Hq.
  { intros q xs Hqp HLq Hx. unfold ins_ready. rewrite !upd_ne by congruence. rewrite unlink_ne, HLq by done.
    cbn. f_equal. apply without_notin. intros Hin. by apply (Hx _ Hin). }
  split; [|eapply lists_ok_ins; [apply lists_ok_unlink, (ki_lists _ _ H)|done|exact HU| |done|done]|apply (ki_masks _ _ H)|apply (ki_timer _ _ H)].
  - destruct (ki_ready _ _ H) as [R1 R2 R3 R4]. split; [done| |done|done].
    intros q Hqr. destruct (R2 q Hqr) as (ts & HLq & Hts). destruct (decide (q = p)) as [->|Hne].
    + exists ((us ++ vs) ++ [t]). split; [unfold ins_ready; by rewrite upd_eq|]. intros u.
      rewrite HL in HLq. injection HLq as HLq. apply (inj (fmap LTlist)) in HLq as <-.
      etrans; [|apply (Hts u)]. rewrite !elem_of_app, !elem_of_cons, elem_of_nil. tauto.
    + exists ts. split; [|exact Hts]. apply Hq; [done|done|]. intros x Hx ->.
      apply elem_of_LTlist, Hts in Hx. apply Hne. by destruct Hx.
  - intros x. rewrite fmap_app. change (LTlist <$> [t]) with [LTlist t].
    rewrite elem_of_app, list_elem_of_singleton. tauto.
Qed.

Lemma wp_thread_yield c L t us vs Q :
  let p := th_current_priority (k_threads c t) in
  kinv c L -> k_current_thread c = Some t -> thread_stat c t = RT_THREAD_READY ->
  L (LReady p) = Some (LTlist <$> (us ++ t :: vs)) ->
  (us = [] -> vs = [] -> Q RT_EOK c) ->
  (forall lk c', let L' := ins_ready (unlink L (LTlist t)) t p (us ++ vs) in
     rescheduled (set_k_links lk c) c' -> kinv c' L' -> next_current (set_k_links lk c) c' L' -> Q RT_EOK c') ->
  wp rt_thread_yield Q c.
Proof.
  intros p H Hc Ht HL Halone HQ. unfold rt_thread_yield, current_thread.
  wp_step. wp_step. wp_step. cbn beta. rewrite Hc. wp_step. wp_step. wp_step. cbn beta. wp_step. wp_step.
  fold (thread_stat c t). rewrite Ht, Z.eqb_refl. cbn [andb].
  pose proof (ring_alone _ _ _ _ _ t (kinv_rep _ _ H) HL ltac:(done)) as Hring.
  destruct (decide (us = [] /\ vs = [])) as [D|D].
  - rewrite bool_decide_false by tauto. wp_step. destruct D. auto.
  - rewrite bool_decide_true by tauto. do 2 (wp_step; wp_step; cbn beta). fold p.
    match goal with |- wp _ _ ?x => set (c1 := x) end.
    pose proof (kinv_rotate c L t us vs H Ht HL) as Hk. fold p in Hk.
    wp_step. eapply wp_schedule_kinv; [exact Hk|intros _; by exists t|].
    intros c' Hr Hk' Hn _. wp_step. eapply HQ; eauto.
Qed.

(** Writing a field of a thread that the kernel invariant does not read. *)
Definition with_thread (t : Z) (f : rt_thread -> rt_thread) (c : kcore) : kcore :=
  set_k_threads (<[t := f (k_threads c t)]> (k_threads c)) c.
Definition soft_field (f : rt_thread -> rt_thread) : Prop :=
  forall th, th_stat (f th) = th_stat th /\ same_prio th (f th).
Lemma with_thread_stat t f c u : soft_field f -> thread_stat (with_thread t f c) u = thread_stat c u.
Proof. intros Hf. unfold thread_stat, with_thread; ksimpl. rewrite upd_case. case_decide; [subst; apply Hf|done]. Qed.
Lemma with_thread_prio t f c u : soft_field f -> same_prio (k_threads c u) (k_threads (with_thread t f c) u).
Proof. intros Hf. unfold with_thread; ksimpl. rewrite upd_case. case_decide; [subst; apply Hf|by repeat split]. Qed.
Lemma kinv_with_thread c L t f : soft_field f -> kinv c L -> kinv (with_thread t f c) L.
Proof.
  intros Hf H. eapply kinv_thread_frame; [exact H|done..| |]; intros u; [by apply with_thread_stat|by apply with_thread_prio].
Qed.
Lemma soft_error e : soft_field (set_th_error e). Proof. by repeat split. Qed.
Lemma soft_event_set s : soft_field (set_th_event_set s). Proof. by repeat split. Qed.
Lemma soft_event_info s : soft_field (set_th_event_info s). Proof. by repeat split. Qed.

(** ** The operations on threads *)
Definition runnable (c : kcore) : Prop := exists t, thread_stat c t = RT_THREAD_READY.
(** After a scheduling point: with the scheduler unlocked, the current thread is the
    first READY thread of highest priority. *)
Definition runs_highest (c c' : kcore) L : Prop :=
  rescheduled c c' /\ kinv c' L /\
  (k_lock_nest c <> 0 -> c' = c) /\
  (k_lock_nest c = 0 -> exists t, k_current_thread c' = Some t /\ highest_first (fun u => thread_stat c u = RT_THREAD_READY) c L t).

(** C3 rt_schedule gives the processor to the first thread of the highest non-empty
    priority queue; under a locked scheduler it changes nothing. *)
Theorem rt_schedule_runs_highest c L :
  kinv c L -> (k_lock_nest c = 0 -> runnable c) ->
  exists c', rt_schedule c = Some (tt, c') /\ runs_highest c c' L.
Proof.
  intros H He. cut (wp rt_schedule (fun _ c' => runs_highest c c' L) c).
  { intros ([] & c' & E & H')%wp_run. eauto. }
  eapply wp_schedule_kinv; [exact H|exact He|]. intros c' Hr Hk Hn Hl. by split_and!.
Qed.

(** rt_thread_suspend takes a READY thread off its queue and makes it SUSPEND, and
    refuses any other thread without a change; no other thread is touched and the
    kernel invariant is kept. *)
Theorem rt_thread_suspend_spec c L t :
  kinv c L ->
  (thread_stat c t <> RT_THREAD_READY /\ rt_thread_suspend t c = Some (- RT_ERROR, c)) \/
  (thread_stat c t = RT_THREAD_READY /\ exists c', rt_thread_suspend t c = Some (RT_EOK, c') /\
     kinv c' (unlink L (LTlist t)) /\ k_threads c' t = set_th_stat RT_THREAD_SUSPEND (k_threads c t) /\
     (forall u, u <> t -> k_threads c' u = k_threads c u) /\ k_current_thread c' = k_current_thread c).
Proof.
  intros H. destruct (decide (thread_stat c t = RT_THREAD_READY)) as [Ht|Ht].
  - right. split; [done|]. cut (wp (rt_thread_suspend t) (fun r c' => r = RT_EOK /\ kinv c' (unlink L (LTlist t)) /\
      k_threads c' t = set_th_stat RT_THREAD_SUSPEND (k_threads c t) /\
      (forall u, u <> t -> k_threads c' u = k_threads c u) /\ k_current_thread c' = k_current_thread c) c).
    { intros (r & c' & E & -> & H')%wp_run. eauto. }
    eapply wp_thread_suspend; [exact H|done|]. intros _ lk g tb c' Hk. split_and!; try done.
    + unfold c'; cbn. unfold with_stat. by rewrite upd_eq.
    + intros u Hu. unfold c'; cbn. unfold with_stat. by rewrite upd_ne.
  - left. split; [done|]. assert (wp (rt_thread_suspend t) (fun r c' => r = - RT_ERROR /\ c' = c) c) as Hw.
    { eapply wp_thread_suspend; [exact H|done|done]. }
    by apply wp_run in Hw as (r & c' & E & -> & ->).
Qed.

(** rt_thread_resume puts a suspended thread at the end of the queue of its
    priority, off any waiting list and with its timer stopped, and refuses any other
    thread without a change. *)
Theorem rt_thread_resume_spec c L t :
  kinv c L ->
  (thread_stat c t <> RT_THREAD_SUSPEND /\ rt_thread_resume t c = Some (- RT_ERROR, c)) \/
  (thread_stat c t = RT_THREAD_SUSPEND /\ exists c' L' ts, rt_thread_resume t c = Some (RT_EOK, c') /\ kinv c' L' /\
     k_threads c' t = set_th_stat RT_THREAD_READY (k_threads c t) /\
     (forall u, u <> t -> k_threads c' u = k_threads c u) /\
     L' (LReady (th_current_priority (k_threads c t))) = Some (LTlist <$> (ts ++ [t])) /\
     (forall h us, wait_head h -> L h = Some (LTlist <$> us) -> L' h = Some (LTlist <$> without t us)) /\
     timer_activated c' (TThread t) = false).
Proof.
  intros H. destruct (decide (thread_stat c t = RT_THREAD_SUSPEND)) as [Ht|Ht].
  - right. split; [done|]. cut (wp (rt_thread_resume t) (fun r c' => r = RT_EOK /\ exists L' ts, kinv c' L' /\
     k_threads c' t = set_th_stat RT_THREAD_READY (k_threads c t) /\
     (forall u, u <> t -> k_threads c' u = k_threads c u) /\
     L' (LReady (th_current_priority (k_threads c t))) = Some (LTlist <$> (ts ++ [t])) /\
     (forall h us, wait_head h -> L h = Some (LTlist <$> us) -> L' h = Some (LTlist <$> without t us)) /\
     timer_activated c' (TThread t) = false) c).
    { intros (r & c' & E & -> & L' & ts & H')%wp_run. exists c', L', ts. by split. }
    eapply wp_thread_resume; [exact H|done|]. intros _ ts lk g tb HL c' Hk. split; [done|].
    exists (resume_lists c L t ts), ts. split_and!; [exact Hk| | | | |].
    + unfold c'; cbn. unfold with_stat. by rewrite upd_eq.
    + intros u Hu. unfold c'; cbn. unfold with_stat. by rewrite upd_ne.
    + unfold resume_lists, ins_ready. by rewrite upd_eq, fmap_app.
    + intros h us Hh HL'. by apply resume_lists_wait.
    + unfold c', timer_activated; cbn. change (timer_activated (stopped_core c t) (TThread t) = false).
      unfold stopped_core. destruct (timer_activated c (TThread t)) eqn:E; [|exact E].
      by rewrite stop_timer_activated, upd_eq.
  - left. split; [done|]. assert (wp (rt_thread_resume t) (fun r c' => r = - RT_ERROR /\ c' = c) c) as Hw.
    { eapply wp_thread_resume; [exact H|done|done]. }
    by apply wp_run in Hw as (r & c' & E & -> & ->).
Qed.

(** rt_thread_yield by a READY current thread that shares its priority moves it to
    the end of the queue of its priority and gives the processor to the first thread
    of the highest priority; alone in its queue it keeps running. *)
Theorem rt_thread_yield_round_robin c L t us vs :
  kinv c L -> k_current_thread c = Some t -> thread_stat c t = RT_THREAD_READY ->
  L (LReady (th_current_priority (k_threads c t))) = Some (LTlist <$> (us ++ t :: vs)) ->
  exists c', rt_thread_yield c = Some (RT_EOK, c') /\
    ((us = [] /\ vs = [] /\ c' = c) \/
     exists L', kinv c' L' /\ k_threads c' = k_threads c /\
       L' (LReady (th_current_priority (k_threads c t))) = Some (LTlist <$> (us ++ vs ++ [t])) /\
       (k_lock_nest c = 0 -> exists n, k_current_thread c' = Some n /\ highest_first (fun u => thread_stat c u = RT_THREAD_READY) c L' n)).
Proof.
  intros H Hc Ht HL. set (p := th_current_priority (k_threads c t)) in *.
  cut (wp rt_thread_yield (fun r c' => r = RT_EOK /\ ((us = [] /\ vs = [] /\ c' = c) \/
     exists L', kinv c' L' /\ k_threads c' = k_threads c /\
       L' (LReady p) = Some (LTlist <$> (us ++ vs ++ [t])) /\
       (k_lock_nest c = 0 -> exists n, k_current_thread c' = Some n /\ highest_first (fun u => thread_stat c u = RT_THREAD_READY) c L' n))) c).
  { intros (r & c' & E & -> & H')%wp_run. eauto. }
  eapply (wp_thread_yield c L t us vs); [exact H|exact Hc|exact Ht|exact HL| |].
  - intros -> ->. split; [done|by left].
  - intros lk c' L' (cur & prio & sw & ->) Hk Hn. split; [done|]. right. exists L'. split; [exact Hk|]. split; [done|]. split.
    + unfold L', ins_ready. fold p. rewrite upd_eq, app_assoc. by rewrite (fmap_app LTlist (us ++ vs)).
    + intros Hl. exact (Hn Hl).
Qed.

(** Changing a priority through rt_thread_control moves a READY thread to the end of
    the queue of the new priority and recomputes its bit masks; the invariant of the
    ready queues and bitmaps is kept for every thread and both bitmap layouts. *)
Theorem rt_thread_change_priority_spec c L t prio :
  kinv c L -> 0 <= prio < RT_THREAD_PRIORITY_MAX ->
  exists c' L', rt_thread_control t RT_THREAD_CTRL_CHANGE_PRIORITY prio c = Some (RT_EOK, c') /\ kinv c' L' /\
    k_threads c' t = new_priority prio (k_threads c t) /\ masks_ok (k_threads c' t) /\
    (forall u, u <> t -> k_threads c' u = k_threads c u) /\
    (thread_stat c t = RT_THREAD_READY -> exists ts, L' (LReady prio) = Some (LTlist <$> (ts ++ [t]))) /\
    (thread_stat c t <> RT_THREAD_READY -> L' = L).
Proof.
  intros H Hp. cut (wp (rt_thread_control t RT_THREAD_CTRL_CHANGE_PRIORITY prio) (fun r c' => r = RT_EOK /\ exists L', kinv c' L' /\
    k_threads c' t = new_priority prio (k_threads c t) /\ masks_ok (k_threads c' t) /\
    (forall u, u <> t -> k_threads c' u = k_threads c u) /\
    (thread_stat c t = RT_THREAD_READY -> exists ts, L' (LReady prio) = Some (LTlist <$> (ts ++ [t]))) /\
    (thread_stat c t <> RT_THREAD_READY -> L' = L)) c).
  { intros (r & c' & E & -> & L' & H')%wp_run. by exists c', L'. }
  assert (forall thr, (forall u, thr u = with_priority prio t c u) -> thr t = new_priority prio (k_threads c t) /\
    masks_ok (thr t) /\ forall u, u <> t -> thr u = k_threads c u) as Hthr.
  { intros thr E. rewrite (E t), with_priority_same. split; [done|]. split; [by apply new_priority_masks|].
    intros u Hu. rewrite E. by apply with_priority_other. }
  eapply wp_change_priority; [exact H|exact Hp| |].
  - intros Ht thr E Hk. destruct (Hthr thr E) as (E1 & E2 & E3). split; [done|]. by exists L.
  - intros Ht ts thr lk g tb HL E c' Hk. destruct (Hthr thr E) as (E1 & E2 & E3). split; [done|].
    exists (ins_ready (unlink L (LTlist t)) t prio ts). split_and!; try done. intros _. exists ts.
    unfold ins_ready. by rewrite upd_eq, fmap_app.
Qed.

(** rt_thread_startup makes an initialised thread READY at its initial priority, and
    when a thread is running already the processor goes to the highest priority. *)
Theorem rt_thread_startup_spec c L t :
  kinv c L -> thread_fresh c L t ->
  exists c' L', rt_thread_startup t c = Some (RT_EOK, c') /\ kinv c' L' /\ thread_stat c' t = RT_THREAD_READY /\
    th_current_priority (k_threads c' t) = th_init_priority (k_threads c t) /\
    (forall u, u <> t -> k_threads c' u = k_threads c u) /\
    (k_current_thread c = None -> k_current_thread c' = None) /\
    (k_current_thread c <> None -> k_lock_nest c = 0 -> exists n, k_current_thread c' = Some n /\
       thread_stat c' n = RT_THREAD_READY /\ forall u, thread_stat c' u = RT_THREAD_READY ->
       th_current_priority (k_threads c' n) <= th_current_priority (k_threads c' u)).
Proof.
  intros H Hf. cut (wp (rt_thread_startup t) (fun r c' => r = RT_EOK /\ exists L', kinv c' L' /\ thread_stat c' t = RT_THREAD_READY /\
    th_current_priority (k_threads c' t) = th_init_priority (k_threads c t) /\
    (forall u, u <> t -> k_threads c' u = k_threads c u) /\
    (k_current_thread c = None -> k_current_thread c' = None) /\
    (k_current_thread c <> None -> k_lock_nest c = 0 -> exists n, k_current_thread c' = Some n /\
       thread_stat c' n = RT_THREAD_READY /\ forall u, thread_stat c' u = RT_THREAD_READY ->
       th_current_priority (k_threads c' n) <= th_current_priority (k_threads c' u))) c).
  { intros (r & c' & E & -> & L' & H')%wp_run. by exists c', L'. }
  eapply wp_thread_startup; [exact H|exact Hf|]. intros c1 L' c' Hs Ho Hp Hl Hc _ _ Hk (cur & prio & sw & ->) Hn.
  split; [done|]. exists L'. split; [exact Hk|]. split; [exact Hs|]. split; [exact Hp|]. split; [exact Ho|].
  destruct (k_current_thread c) as [n0|]; (split; [|]); try done.
  - intros _ Hlk. rewrite <- Hl in Hlk. destruct (Hn Hlk) as (n & Hn1 & Hn2 & Hn3 & _). by exists n.
  - intros _. by rewrite Hn, Hc.
Qed.
Lemma kinv_nest c c' L :
  kinv c L -> k_links c' = k_links c -> k_threads c' = k_threads c -> k_objs c' = k_objs c -> k_timers c' = k_timers c ->
  k_ready_priority_group c' = k_ready_priority_group c -> k_ready_table c' = k_ready_table c -> kinv c' L.
Proof.
  intros H E1 E2 E3 E4 E5 E6. eapply kinv_thread_frame; [exact H|done..| |]; intros u; [unfold thread_stat|]; by rewrite E2.
Qed.

(** Between rt_enter_critical and rt_exit_critical the scheduler does not switch
    threads; the pair restores the nesting depth. *)
Theorem critical_section_locks c L :
  kinv c L -> 0 <= k_lock_nest c < 32767 -> (k_lock_nest c = 0 -> runnable c) ->
  exists c1 c2, rt_enter_critical c = Some (tt, c1) /\ k_lock_nest c1 = k_lock_nest c + 1 /\
    rt_schedule c1 = Some (tt, c1) /\ rt_exit_critical c1 = Some (tt, c2) /\ k_lock_nest c2 = k_lock_nest c /\ kinv c2 L.
Proof.
  intros H Hl Hr. destruct (int16_succ_pred _ Hl) as [N1 N2].
  exists (set_k_lock_nest (int16 (k_lock_nest c + 1)) c). set (c1 := set_k_lock_nest _ c).
  assert (kinv c1 L) as H1 by (by apply (kinv_nest c)).
  assert (rt_schedule c1 = Some (tt, c1)) as Es.
  { assert (wp rt_schedule (fun _ c' => c' = c1) c1) as Hw.
    { eapply wp_schedule_kinv; [exact H1| |].
      - unfold c1; ksimpl. rewrite N1. lia.
      - intros c' _ _ _ E. apply E. unfold c1; ksimpl. rewrite N1. lia. }
    by apply wp_run in Hw as ([] & c' & E & ->). }
  assert (wp rt_exit_critical (fun _ c2 => k_lock_nest c2 = k_lock_nest c /\ kinv c2 L) c1) as Hw.
  { unfold rt_exit_critical. do 2 wp1. do 2 wp1. unfold c1; ksimpl. rewrite N2.
    destruct (Z.leb_spec (k_lock_nest c) 0) as [E|E].
    - do 2 wp1. eapply wp_schedule_kinv; [by eapply (kinv_nest c)|intros _; apply Hr; lia|].
      intros c' (cur & prio & sw & ->) Hk _ _. split; [ksimpl; lia|exact Hk].
    - wp1. split; [done|]. by apply (kinv_nest c). }
  apply wp_run in Hw as ([] & c2 & E2 & N & K). exists c2. split_and!; try done.
Qed.
End thread.
