(* ===== verification/Timer.v ===== *)
(** Timers, second part (src/timer.c): the skip list of active timers, the timer
    checks, the soft-timer thread; and rt_thread_sleep (src/thread.c). *)
From Stdlib Require Import Sorted.
From S2P Require Import Prelude RtList Kservice Kernel Scheduler Object TimerCore Invariant Thread.

(** The statically allocated kernel threads: addresses of the control block, the
    stack and the entry function, and size of the stack. *)
Class StaticThreads := {
  timer_thread : Z;
  timer_thread_stack : Z;
  timer_thread_stack_size : Z;
  timer_thread_entry : Z;
  timer_name : list Z;
  idle : Z;
  idle_stack : Z;
  idle_stack_size : Z;
  idle_entry : Z;
  idle_name : list Z
}.

Section timer.
Context {cfg : Config} {kh : KHeap} {sz : ObjectSizes} {st : StaticThreads}.

(** ** Starting a timer *)
(** The inner loop on one row: advance [row_head] while the next timer expires
    before the new one or with it. *)
Fixpoint row_walk (fuel : nat) (soft : bool) (row_lvl : nat) (timeout_tick : Z) (row_head : lnode) : M kcore lnode :=
  match fuel with
  | O => diverge
  | S fuel =>
    last ← gets (fun c => l_prev (k_links c) (LTimerHead soft row_lvl));
    if decide (row_head = last) then mret row_head
    else
      p ← gets (fun c => l_next (k_links c) row_head);
      tm ← rt_timer_entry p row_lvl;
      t ← timer tm;
      let d := uint32 (tm_timeout_tick t - timeout_tick) in
      if d =? 0 then row_walk fuel soft row_lvl timeout_tick p
      else if d <? RT_TICK_MAX / 2 then mret row_head
      else row_walk fuel soft row_lvl timeout_tick p
  end.

(** [row_head + 1]: the next row of the same timer, or the next list head. *)
Definition row_below (n : lnode) : lnode :=
  match n with
  | LTimerHead soft lvl => LTimerHead soft (S lvl)
  | LRow tm lvl => LRow tm (S lvl)
  | _ => n
  end.

(** The outer loop: the values of [row_head[lo..lo+n-1]]. *)
Fixpoint find_rows (n lo : nat) (soft : bool) (timeout_tick : Z) (row_head : lnode) : M kcore (list lnode) :=
  match n with
  | O => mret []
  | S n =>
    p ← row_walk loop_fuel soft lo timeout_tick row_head;
    rest ← find_rows n (S lo) soft timeout_tick (row_below p);
    mret (p :: rest)
  end.

(** The insertion loop on the rows above the last one: rows n-1 down to 0. *)
Fixpoint insert_rows (n : nat) (row_head : list lnode) (tm : timer_id) (tst_nr : Z) : M kcore unit :=
  match n with
  | O => mret tt
  | S n =>
    if Z.land tst_nr RT_TIMER_SKIP_LIST_MASK =? 0 then
      mod_links (fun l => rt_list_insert_after l (nth n row_head LDefunct) (LRow tm n)) ;;
      insert_rows n row_head tm (Z.shiftr tst_nr (Z.shiftr (RT_TIMER_SKIP_LIST_MASK + 1) 1))
    else mret tt
  end.

Definition has_flag (c : kcore) (tm : timer_id) (mask : Z) : bool :=
  negb (Z.land (ob_flag (k_objs c (OTimer tm))) mask =? 0).

(** The critical section: the timer goes on its list. *)
Definition timer_insert (tm : timer_id) (soft : bool) : M kcore unit :=
  t ← timer tm;
  row_head ← find_rows RT_TIMER_SKIP_LIST_LEVEL 0 soft (tm_timeout_tick t) (LTimerHead soft 0);
  modify (fun c => set_k_random_nr (uint32 (k_random_nr c + 1)) c) ;;
  tst_nr ← gets k_random_nr;
  let last := (RT_TIMER_SKIP_LIST_LEVEL - 1)%nat in
  mod_links (fun l => rt_list_insert_after l (nth last row_head LDefunct) (LRow tm last)) ;;
  insert_rows last row_head tm tst_nr ;;
  mod_object (OTimer tm) (set_flag RT_TIMER_FLAG_ACTIVATED).

Definition rt_timer_start (tm : timer_id) : M kcore Z :=
  act ← gets (fun c => timer_activated c tm);
  if (act : bool) then mret (- RT_ERROR)
  else
    t ← timer tm;
    rt_assert (tm_init_tick t <? RT_TICK_MAX / 2) ;;
    now ← gets k_rt_tick;
    mod_timer tm (set_tm_timeout_tick (uint32 (now + tm_init_tick t))) ;;
    is_soft ← gets (fun c => has_flag c tm RT_TIMER_FLAG_SOFT_TIMER);
    let soft := RT_USING_TIMER_SOFT && is_soft in
    timer_insert tm soft ;;
    (if soft then
       th ← thread timer_thread;
       if negb (th_stat th =? RT_THREAD_READY) then
         _ ← rt_thread_resume timer_thread;
         rt_schedule
       else mret tt
     else mret tt) ;;
    mret (- RT_EOK).

(** ** Checking the timers *)
(** What a user's timeout function does. *)
Context (user_timeout : Z -> Z -> M kcore unit).
Definition call_timeout (tm : timer_id) : M kcore unit :=
  t ← timer tm;
  match tm_timeout_func t with
  | TF_rt_thread_timeout => rt_thread_timeout (tm_parameter t)
  | TF_user f => user_timeout f (tm_parameter t)
  end.

(** The part of the loop body that runs an expired timer, in both checks. *)
Definition timer_expire (tm : timer_id) : M kcore Z :=
  _rt_timer_remove tm ;;
  call_timeout tm ;;
  current_tick ← gets k_rt_tick;
  periodic ← gets (fun c => has_flag c tm RT_TIMER_FLAG_PERIODIC);
  act ← gets (fun c => timer_activated c tm);
  mod_object (OTimer tm) (clear_flag RT_TIMER_FLAG_ACTIVATED) ;;
  (if (periodic : bool) && (act : bool) then
     _ ← rt_timer_start tm; mret tt
   else mret tt) ;;
  mret current_tick.

Fixpoint timer_check_loop (fuel : nat) (current_tick : Z) : M kcore unit :=
  match fuel with
  | O => diverge
  | S fuel =>
    let last := (RT_TIMER_SKIP_LIST_LEVEL - 1)%nat in
    empty ← gets (fun c => rt_list_isempty (k_links c) (LTimerHead false last));
    if (empty : bool) then mret tt
    else
      n ← gets (fun c => l_next (k_links c) (LTimerHead false last));
      tm ← rt_timer_entry n last;
      t ← timer tm;
      if uint32 (current_tick - tm_timeout_tick t) <? RT_TICK_MAX / 2 then
        current_tick ← timer_expire tm;
        timer_check_loop fuel current_tick
      else mret tt
  end.
Definition rt_timer_check (fuel : nat) : M kcore unit :=
  current_tick ← gets k_rt_tick;
  timer_check_loop fuel current_tick.

Fixpoint soft_timer_check_loop (fuel : nat) (current_tick : Z) (n : lnode) : M kcore unit :=
  match fuel with
  | O => diverge
  | S fuel =>
    let last := (RT_TIMER_SKIP_LIST_LEVEL - 1)%nat in
    if decide (n = LTimerHead true last) then mret tt
    else
      tm ← rt_timer_entry n last;
      t ← timer tm;
      if uint32 (current_tick - tm_timeout_tick t) <? RT_TICK_MAX / 2 then
        n ← gets (fun c => l_next (k_links c) n);
        current_tick ← timer_expire tm;
        soft_timer_check_loop fuel current_tick n
      else mret tt
  end.
Definition rt_soft_timer_check (fuel : nat) : M kcore unit :=
  current_tick ← gets k_rt_tick;
  n ← gets (fun c => l_next (k_links c) (LTimerHead true (RT_TIMER_SKIP_LIST_LEVEL - 1)%nat));
  soft_timer_check_loop fuel current_tick n.

(** ** rt_thread_sleep, up to the switch and after it *)
Definition rt_thread_sleep (tick : Z) : M kcore unit :=
  t ← current_thread;
  _ ← rt_thread_suspend t;
  _ ← rt_timer_control (TThread t) RT_TIMER_CTRL_SET_TIME tick;
  _ ← rt_timer_start (TThread t);
  rt_schedule.
(** [t] runs again. *)
Definition rt_thread_sleep_resumed (t : Z) : M kcore Z :=
  th ← thread t;
  (if th_error th =? - RT_ETIMEOUT then mod_thread t (set_th_error RT_EOK) else mret tt) ;;
  mret RT_EOK.
Definition rt_thread_delay (tick : Z) : M kcore unit := rt_thread_sleep tick.

(** ** The timer thread: an iteration of its loop, up to the point where it may
    wait and after it.  The first part tells whether the thread is in
    rt_thread_delay. *)
Definition rt_thread_timer_entry_wait : M kcore bool :=
  next_timeout ← rt_timer_list_next_timeout true;
  if next_timeout =? RT_TICK_MAX then
    t ← current_thread;
    _ ← rt_thread_suspend t;
    rt_schedule ;;
    mret false
  else
    current_tick ← gets k_rt_tick;
    if uint32 (next_timeout - current_tick) <? RT_TICK_MAX / 2 then
      rt_thread_delay (uint32 (next_timeout - current_tick)) ;;
      mret true
    else mret false.
Definition rt_thread_timer_entry_check (fuel : nat) (delayed : bool) : M kcore unit :=
  (if delayed then _ ← rt_thread_sleep_resumed timer_thread; mret tt else mret tt) ;;
  rt_enter_critical ;;
  rt_soft_timer_check fuel ;;
  rt_exit_critical.

(** ** Initialisation *)
Definition rt_system_timer_init : M kcore unit :=
  for_rows RT_TIMER_SKIP_LIST_LEVEL 0 (fun i =>
    mod_links (fun l => rt_list_init l (LTimerHead false i))).

Definition rt_system_timer_thread_init : M kcore unit :=
  if RT_USING_TIMER_SOFT then
    for_rows RT_TIMER_SKIP_LIST_LEVEL 0 (fun i =>
      mod_links (fun l => rt_list_init l (LTimerHead true i))) ;;
    _ ← rt_thread_init timer_thread timer_name timer_thread_entry 0
      (Some timer_thread_stack) timer_thread_stack_size RT_TIMER_THREAD_PRIO 10;
    _ ← rt_thread_startup timer_thread;
    mret tt
  else mret tt.
End timer.

(** ** The skip list *)
Section skip_list.
Context {cfg : Config} {kh : KHeap} {sz : ObjectSizes} {st : StaticThreads}.
Implicit Types (L : lnode -> option (list lnode)).

Definition row (lvl : nat) (tm : timer_id) : lnode := LRow tm lvl.
#[global] Instance row_inj lvl : Inj (=) (=) (row lvl).
Proof. by intros x y [=]. Qed.
(** The row head after the timers [a] of the list. *)
Definition pos (soft : bool) (lvl : nat) (a : list timer_id) : lnode :=
  default (LTimerHead soft lvl) (row lvl <$> last a).

Lemma typed_rows L soft lvl xs :
  typed L -> L (LTimerHead soft lvl) = Some xs -> exists tms, xs = row lvl <$> tms.
Proof.
  intros Ht HL. assert (forall x, x ∈ xs -> node_in (LTimerHead soft lvl) x) as Hx by (intros; by eapply Ht).
  clear HL. induction xs as [|x xs IH]; [by exists []|].
  destruct IH as [tms ->]; [intros; apply Hx; by right|].
  pose proof (Hx x ltac:(by left)) as Hn. destruct x; try done. cbn in Hn. subst. by exists (tm :: tms).
Qed.

(** Whether the walk passes the timer [tm] on its way to a timer that expires at
    [tmo]. *)
Definition passes (c : kcore) (tmo : Z) (tm : timer_id) : bool :=
  let d := uint32 (tm_timeout_tick (k_timers c tm) - tmo) in
  (d =? 0) || negb (d <? RT_TICK_MAX / 2).

Fixpoint pass_prefix (p : timer_id -> bool) (l : list timer_id) : list timer_id * list timer_id :=
  match l with
  | [] => ([], [])
  | x :: l => if p x then let '(a, b) := pass_prefix p l in (x :: a, b) else ([], x :: l)
  end.
Lemma pass_prefix_spec p l a b :
  pass_prefix p l = (a, b) ->
  l = a ++ b /\ (forall x, x ∈ a -> p x = true) /\ (forall y, head b = Some y -> p y = false).
Proof.
  revert a b. induction l as [|x l IH]; intros a b; cbn.
  - intros [= <- <-]. split; [done|]. split; [by intros ? ?%elem_of_nil|done].
  - destruct (p x) eqn:E.
    + destruct (pass_prefix p l) as [a' b'] eqn:E'. intros [= <- <-].
      destruct (IH _ _ eq_refl) as (-> & H1 & H2). split; [done|]. split; [|done].
      intros y [->|?]%elem_of_cons; auto.
    + intros [= <- <-]. split; [done|]. split; [by intros ? ?%elem_of_nil|]. by intros y [= <-].
Qed.

Lemma pos_inj soft lvl a b :
  NoDup (a ++ b) -> pos soft lvl a = pos soft lvl (a ++ b) -> b = [].
Proof.
  unfold pos. destruct b as [|x b _] using rev_ind; [done|]. rewrite app_assoc, last_snoc. cbn.
  intros Hnd. destruct a as [|y a _] using rev_ind; [done|]. rewrite last_snoc. cbn. intros [= ->]. exfalso.
  rewrite NoDup_app in Hnd. destruct Hnd as (_ & Hd & _). apply (Hd x); elems_goal; auto.
Qed.

Lemma wp_row_walk c L soft lvl tmo tms2 :
  rep (k_links c) L ->
  forall fuel tms1 Q, L (LTimerHead soft lvl) = Some (row lvl <$> (tms1 ++ tms2)) -> (length tms2 < fuel)%nat ->
  (forall a b, pass_prefix (passes c tmo) tms2 = (a, b) -> Q (pos soft lvl (tms1 ++ a)) c) ->
  wp (row_walk fuel soft lvl tmo (pos soft lvl tms1)) Q c.
Proof.
  intros Hrep. induction tms2 as [|tm tms2 IH]; intros fuel tms1 Q HL Hf HQ;
    (destruct fuel as [|fuel]; [cbn in Hf; lia|]); cbn [row_walk]; wp_step; wp_step; cbn beta.
  all: assert (l_prev (k_links c) (LTimerHead soft lvl) = pos soft lvl (tms1 ++ _)) as ->
    by (unfold pos; rewrite <- fmap_last; apply (rep_prev _ _ _ _ [] Hrep); by rewrite app_nil_r).
  - rewrite app_nil_r, decide_True by done. wp_step. specialize (HQ [] [] eq_refl). by rewrite app_nil_r in HQ.
  - assert (NoDup (tms1 ++ tm :: tms2)) as Hnd by (eapply NoDup_fmap_1, (rep_NoDup _ _ _ _ Hrep HL)).
    rewrite decide_False by (by intros E%pos_inj). wp_step. wp_step. cbn beta.
    assert (l_next (k_links c) (pos soft lvl tms1) = row lvl tm) as ->.
    { destruct tms1 as [|x tms1 _] using rev_ind.
      - cbn. by rewrite (rep_next_head _ _ _ _ Hrep HL).
      - unfold pos. rewrite last_snoc. change (l_next (k_links c) (row lvl x) = row lvl tm).
        rewrite <- app_assoc, fmap_app in HL. by rewrite (rep_next_mid _ _ _ _ _ _ Hrep HL). }
    cbn [row rt_timer_entry]. rewrite decide_True by done. do 2 wp_step. wp_step. wp_step. cbn beta.
    change (LRow tm lvl) with (row lvl tm).
    assert (row lvl tm = pos soft lvl (tms1 ++ [tm])) as Epos by (unfold pos; by rewrite last_snoc).
    cbn [pass_prefix] in HQ. unfold passes at 1 in HQ.
    assert (Hgo : wp (row_walk fuel soft lvl tmo (row lvl tm)) Q c \/ passes c tmo tm = false).
    { destruct (passes c tmo tm) eqn:E; [left|by right]. unfold passes in E. rewrite E in HQ. rewrite Epos.
      apply IH; [by rewrite <- app_assoc|cbn in Hf; lia|]. intros a b Ep. rewrite Ep in HQ.
      rewrite <- app_assoc. by apply (HQ (tm :: a) b). }
    unfold passes in Hgo. destruct (uint32 (tm_timeout_tick (k_timers c tm) - tmo) =? 0); [by destruct Hgo|].
    destruct (uint32 (tm_timeout_tick (k_timers c tm) - tmo) <? RT_TICK_MAX / 2); cbn in *; [|by destruct Hgo].
    specialize (HQ [] (tm :: tms2) eq_refl). by rewrite app_nil_r in HQ.
Qed.

(** The place the walk finds on a row: the timers [a] before it and [b] after it. *)
Record slot (c : kcore) L (soft : bool) (tmo : Z) (lvl : nat) (a b : list timer_id) : Prop := {
  sl_list : L (LTimerHead soft lvl) = Some (row lvl <$> (a ++ b));
  sl_before : forall x, last a = Some x -> passes c tmo x = true;
  sl_after : forall y, head b = Some y -> passes c tmo y = false
}.
(** The last row of a timer list, which holds every active timer, is shorter than
    the fuel of the walk; so are the rows above it. *)
Definition last_row : nat := (RT_TIMER_SKIP_LIST_LEVEL - 1)%nat.
Definition lists_short L : Prop :=
  forall soft xs, L (LTimerHead soft last_row) = Some xs -> (length xs < loop_fuel)%nat.

Lemma row_in_last stat act L soft d : lists_ok stat act L ->
  forall lvl tms tm, (lvl + d = last_row)%nat -> L (LTimerHead soft lvl) = Some (row lvl <$> tms) -> tm ∈ tms ->
  exists tms', L (LTimerHead soft last_row) = Some (row last_row <$> tms') /\ tm ∈ tms'.
Proof.
  intros H. unfold last_row. pose proof skip_level_pos. induction d as [|d IH]; intros lvl tms tm Hd HL Hin.
  - replace (RT_TIMER_SKIP_LIST_LEVEL - 1)%nat with lvl by lia. eauto.
  - destruct (lo_below _ _ _ H soft lvl _ tm HL) as (ys & HL' & Hin'); [by apply (list_elem_of_fmap_2 (row lvl))|lia|].
    destruct (typed_rows _ _ _ _ (lo_typed _ _ _ H) HL') as [tms' ->].
    change (LRow tm (S lvl)) with (row (S lvl) tm) in Hin'. apply list_elem_of_fmap in Hin' as (x & [= <-] & Hx).
    by apply (IH (S lvl) tms'); [lia|..].
Qed.
Lemma row_short stat act lk L soft lvl tms :
  rep lk L -> lists_ok stat act L -> lists_short L -> (lvl < RT_TIMER_SKIP_LIST_LEVEL)%nat ->
  L (LTimerHead soft lvl) = Some (row lvl <$> tms) -> (length tms < loop_fuel)%nat.
Proof.
  intros Hrep H Hs Hl HL. destruct tms as [|x tms].
  { exact loop_fuel_pos. }
  set (l := x :: tms) in *.
  assert (forall y, y ∈ l -> exists tms', L (LTimerHead soft last_row) = Some (row last_row <$> tms') /\ y ∈ tms') as Hin.
  { intros y Hy. eapply (row_in_last _ _ _ _ (last_row - lvl) H lvl l); [unfold last_row; lia|done|done]. }
  destruct (Hin x) as (tms' & HL' & _); [by left|]. pose proof (Hs _ _ HL') as Hlen. rewrite length_fmap in Hlen.
  eapply Nat.le_lt_trans; [|exact Hlen]. apply submseteq_length, NoDup_submseteq.
  - eapply NoDup_fmap_1, (rep_NoDup _ _ _ _ Hrep HL).
  - intros y Hy. destruct (Hin y Hy) as (tms2 & HL2 & Hy2). rewrite HL' in HL2. injection HL2 as HL2.
    by apply (inj (fmap (row last_row))) in HL2 as ->.
Qed.

Lemma wp_find_rows stat act c L soft tmo n :
  rep (k_links c) L -> lists_ok stat act L -> lists_short L -> soft_ok soft ->
  forall lo a0 b0 Q, (lo + n = RT_TIMER_SKIP_LIST_LEVEL)%nat ->
  ((0 < n)%nat -> L (LTimerHead soft lo) = Some (row lo <$> (a0 ++ b0)) /\ forall x, last a0 = Some x -> passes c tmo x = true) ->
  (forall rh, length rh = n -> (forall i, (i < n)%nat -> exists a b,
      slot c L soft tmo (lo + i) a b /\ nth i rh LDefunct = pos soft (lo + i) a) -> Q rh c) ->
  wp (find_rows n lo soft tmo (pos soft lo a0)) Q c.
Proof.
  intros Hrep Hok Hsh Hso. induction n as [|n IH]; intros lo a0 b0 Q Hn H0 HQ; cbn [find_rows].
  { wp_step. apply HQ; [done|]. intros i Hi. lia. }
  destruct H0 as [HL Hlast]; [lia|]. wp_step.
  eapply wp_row_walk; [done|exact HL| |].
  { pose proof (row_short _ _ _ _ _ lo _ Hrep Hok Hsh ltac:(lia) HL) as Hlen. rewrite length_app in Hlen. lia. }
  intros a b Hab. apply pass_prefix_spec in Hab as (-> & Ha & Hb).
  assert (slot c L soft tmo lo (a0 ++ a) b) as Hslot.
  { split; [by rewrite <- app_assoc| |done]. intros x Hx. destruct a as [|y a _] using rev_ind.
    - rewrite app_nil_r in Hx. auto.
    - rewrite app_assoc, last_snoc in Hx. injection Hx as <-. apply Ha. rewrite elem_of_app. right. by left. }
  wp_step.
  assert (exists a1 b1, row_below (pos soft lo (a0 ++ a)) = pos soft (S lo) a1 /\
    ((0 < n)%nat -> L (LTimerHead soft (S lo)) = Some (row (S lo) <$> (a1 ++ b1)) /\
      forall x, last a1 = Some x -> passes c tmo x = true)) as (a1 & b1 & -> & H1).
  { destruct Hslot as [Hs1 Hs2 _]. unfold pos at 1. destruct (last (a0 ++ a)) as [x|] eqn:Ex; cbn.
    - destruct (decide (0 < n)%nat) as [Hpos|]; [|exists [x], []; split; [done|lia]].
      destruct (lo_below _ _ _ Hok soft lo _ x Hs1) as (ys & HL1 & Hin); [|lia|].
      { change (LRow x lo) with (row lo x). apply list_elem_of_fmap_2.
        apply last_Some in Ex as [l' ->]. rewrite !elem_of_app. left. right. by left. }
      destruct (typed_rows _ _ _ _ (lo_typed _ _ _ Hok) HL1) as [tms ->].
      change (LRow x (S lo)) with (row (S lo) x) in Hin. apply list_elem_of_fmap in Hin as (x' & [= <-] & Hin).
      apply list_elem_of_split in Hin as (a1 & b1 & ->). exists (a1 ++ [x]), b1.
      unfold pos. rewrite last_snoc. split; [done|]. intros _. rewrite <- app_assoc. split; [done|].
      intros y [= <-]. by apply Hs2.
    - destruct (decide (0 < n)%nat) as [Hpos|]; [|exists [], []; split; [done|lia]].
      destruct (lo_heads _ _ _ Hok soft (S lo) Hso) as [ys HL1]; [lia|].
      destruct (typed_rows _ _ _ _ (lo_typed _ _ _ Hok) HL1) as [tms ->]. exists [], tms. done. }
  eapply (IH (S lo) a1 b1); [lia|exact H1|]. intros rh Hrh Hnth. wp_step.
  apply HQ; [cbn; lia|]. intros [|i] Hi.
  - exists (a0 ++ a), b. by rewrite Nat.add_0_r.
  - destruct (Hnth i) as (a2 & b2 & Hs & Hp); [lia|]. exists a2, b2. rewrite Nat.add_succ_r. done.
Qed.

(** ** The insertion *)
(** The lists after [tm] went on the rows [k] and below, at the places [A], [B]. *)
Definition ins_rows L (soft : bool) (tm : timer_id) (A B : nat -> list timer_id) (k : nat) : lnode -> option (list lnode) :=
  fun h => match h with
  | LTimerHead s l =>
    if decide (s = soft /\ (k <= l < RT_TIMER_SKIP_LIST_LEVEL)%nat) then Some (row l <$> (A l ++ tm :: B l)) else L h
  | LRow tm' l => if decide (tm' = tm /\ (k <= l < RT_TIMER_SKIP_LIST_LEVEL)%nat) then None else L h
  | _ => L h
  end.

Lemma ins_rows_step lk L soft tm A B k :
  (k < RT_TIMER_SKIP_LIST_LEVEL)%nat ->
  rep lk (ins_rows L soft tm A B (S k)) ->
  L (LTimerHead soft k) = Some (row k <$> (A k ++ B k)) -> L (LRow tm k) = Some [] ->
  rep (rt_list_insert_after lk (pos soft k (A k)) (LRow tm k)) (ins_rows L soft tm A B k).
Proof.
  intros Hk Hrep HL Hf.
  assert (ins_rows L soft tm A B (S k) (LTimerHead soft k) = Some ((row k <$> A k) ++ (row k <$> B k))) as HL'.
  { cbn. rewrite decide_False by (intros [_ ?]; lia). by rewrite HL, fmap_app. }
  assert (free_node (ins_rows L soft tm A B (S k)) (LRow tm k)) as Hf'.
  { eapply rep_free; [done|]. cbn. by rewrite decide_False by (intros [_ ?]; lia). }
  pose proof (rep_insert_pos _ _ _ _ _ _ Hrep HL' Hf' ltac:(done)) as H.
  rewrite fmap_last in H. eapply rep_ext; [|exact H]. intros h.
  destruct (decide (h = LTimerHead soft k)) as [->|Hh].
  { rewrite upd_eq. cbn. rewrite decide_True by (split; [done|lia]). by rewrite fmap_app. }
  rewrite upd_ne by done. destruct (decide (h = LRow tm k)) as [->|Hr].
  { rewrite upd_eq. cbn. by rewrite decide_True by (split; [done|lia]). }
  rewrite upd_ne by done. destruct h; try done; cbn.
  - destruct (decide (soft0 = soft /\ (k <= lvl < RT_TIMER_SKIP_LIST_LEVEL)%nat)) as [[-> D]|D].
    + rewrite decide_True; [done|]. split; [done|]. destruct (decide (lvl = k)); [congruence|lia].
    + rewrite decide_False; [done|]. intros [-> ?]. apply D. split; [done|lia].
  - destruct (decide (tm0 = tm /\ (k <= lvl < RT_TIMER_SKIP_LIST_LEVEL)%nat)) as [[-> D]|D].
    + rewrite decide_True; [done|]. split; [done|]. destruct (decide (lvl = k)); [congruence|lia].
    + rewrite decide_False; [done|]. intros [-> ?]. apply D. split; [done|lia].
Qed.

Lemma wp_insert_rows L soft tm A B rh n c nr Q :
  (n < RT_TIMER_SKIP_LIST_LEVEL)%nat ->
  rep (k_links c) (ins_rows L soft tm A B n) ->
  (forall l, (l < n)%nat -> L (LTimerHead soft l) = Some (row l <$> (A l ++ B l)) /\ L (LRow tm l) = Some [] /\
     nth l rh LDefunct = pos soft l (A l)) ->
  (forall k lk, (k < RT_TIMER_SKIP_LIST_LEVEL)%nat -> rep lk (ins_rows L soft tm A B k) -> Q tt (set_k_links lk c)) ->
  wp (insert_rows n rh tm nr) Q c.
Proof.
  intros Hn Hrep Hl HQ. revert c nr Hrep HQ. induction n as [|n IH]; intros c nr Hrep HQ; cbn [insert_rows].
  - wp_step. destruct c. by apply (HQ 0%nat k_links).
  - destruct (Z.land nr RT_TIMER_SKIP_LIST_MASK =? 0).
    + do 2 wp_step. destruct (Hl n) as (H1 & H2 & ->); [lia|].
      apply IH; [lia|intros; apply Hl; lia| |].
      * ksimpl. apply ins_rows_step; [lia|done..].
      * intros k lk Hk Hlk. by apply (HQ k lk).
    + wp_step. destruct c. by apply (HQ (S n) k_links).
Qed.

Lemma finite_choice {X} (P : nat -> X -> X -> Prop) n :
  (forall i, (i < n)%nat -> exists a b, P i a b) -> forall d : X,
  exists A B : nat -> X, forall i, (i < n)%nat -> P i (A i) (B i).
Proof.
  intros H d. induction n as [|n IH]; [exists (fun _ => d), (fun _ => d); lia|].
  destruct IH as (A & B & HAB); [intros; apply H; lia|]. destruct (H n) as (a & b & Hab); [lia|].
  exists (fun i => if decide (i = n) then a else A i), (fun i => if decide (i = n) then b else B i).
  intros i Hi. case_decide; [by subst|]. apply HAB. lia.
Qed.

(** An inactive timer's rows are detached. *)
Lemma rows_detached stat act L tm l :
  lists_ok stat act L -> act tm = false -> rows_on L tm -> (l < RT_TIMER_SKIP_LIST_LEVEL)%nat ->
  L (LRow tm l) = Some [].
Proof.
  intros H Ha Hr Hl. destruct (Hr l Hl) as [Hd|(h & xs & Hh & Hin)]; [done|]. exfalso.
  pose proof (lo_typed _ _ _ H _ _ _ Hh Hin) as Ht. destruct h; try done. cbn in Ht. subst.
  destruct (lo_active _ _ _ H _ _ _ _ Hh Hin) as (_ & E & _). congruence.
Qed.

Lemma ins_rows_in L soft tm A B k s lvl xs' x :
  ins_rows L soft tm A B k (LTimerHead s lvl) = Some xs' -> LRow x lvl ∈ xs' ->
  (forall l, (l < RT_TIMER_SKIP_LIST_LEVEL)%nat -> L (LTimerHead soft l) = Some (row l <$> (A l ++ B l))) ->
  (x = tm /\ s = soft /\ (k <= lvl < RT_TIMER_SKIP_LIST_LEVEL)%nat) \/
  exists xs, L (LTimerHead s lvl) = Some xs /\ LRow x lvl ∈ xs.
Proof.
  intros HL Hin Hs. cbn in HL. case_decide as D; [|eauto]. destruct D as [-> D]. injection HL as <-.
  change (LRow x lvl) with (row lvl x) in *. apply list_elem_of_fmap in Hin as (y & [= <-] & Hy).
  rewrite elem_of_app, elem_of_cons in Hy. destruct (decide (x = tm)) as [->|Hne]; [by left|]. right.
  exists (row lvl <$> (A lvl ++ B lvl)). split; [apply Hs; lia|]. apply list_elem_of_fmap_2. rewrite elem_of_app. tauto.
Qed.
Lemma ins_rows_keep L soft tm A B k s lvl xs x :
  L (LTimerHead s lvl) = Some xs -> x ∈ xs ->
  (forall l, (l < RT_TIMER_SKIP_LIST_LEVEL)%nat -> L (LTimerHead soft l) = Some (row l <$> (A l ++ B l))) ->
  exists ys, ins_rows L soft tm A B k (LTimerHead s lvl) = Some ys /\ x ∈ ys.
Proof.
  intros HL Hin Hs. cbn. case_decide as D; [|eauto]. destruct D as [-> D]. eexists. split; [done|].
  rewrite Hs in HL by lia. injection HL as <-. apply list_elem_of_fmap in Hin as (y & -> & Hy).
  apply list_elem_of_fmap_2. rewrite !elem_of_app, elem_of_cons in *. tauto.
Qed.
Lemma ins_rows_on L soft tm A B k m :
  (forall l, (l < RT_TIMER_SKIP_LIST_LEVEL)%nat -> L (LTimerHead soft l) = Some (row l <$> (A l ++ B l))) ->
  typed L -> (forall s l, m <> LTimerHead s l) -> on_list L m -> on_list (ins_rows L soft tm A B k) m.
Proof.
  intros Hs Ht Hm [Hd|(h & xs & Hh & Hin)].
  - destruct m; try (by left); [by destruct (Hm soft0 lvl)|].
    unfold on_list; cbn. case_decide as D; [|by left]. destruct D as [-> D]. right.
    exists (LTimerHead soft lvl), (row lvl <$> (A lvl ++ tm :: B lvl)). cbn. rewrite decide_True by done.
    split; [done|]. change (LRow tm lvl) with (row lvl tm). apply list_elem_of_fmap_2.
    rewrite elem_of_app, elem_of_cons. auto.
  - right. destruct h; try by (match type of Hh with _ ?g = _ => exists g, xs; split; [exact Hh|done] end).
    + destruct (ins_rows_keep L soft tm A B k _ _ _ _ Hh Hin Hs) as (ys & H1 & H2). eauto.
    + by pose proof (Ht _ _ _ Hh Hin).
Qed.

Lemma lists_ok_ins_rows stat act L soft tm A B k :
  lists_ok stat act L -> soft_ok soft -> (k < RT_TIMER_SKIP_LIST_LEVEL)%nat ->
  (forall l, (l < RT_TIMER_SKIP_LIST_LEVEL)%nat -> L (LTimerHead soft l) = Some (row l <$> (A l ++ B l))) ->
  rows_on L tm -> (forall t, tm = TThread t -> stat t = RT_THREAD_SUSPEND) ->
  lists_ok stat (<[tm := true]> act) (ins_rows L soft tm A B k).
Proof.
  intros H Hso Hk Hs Hr Ht. pose proof (lo_typed _ _ _ H) as Hty.
  assert (forall tm', rows_on L tm' -> rows_on (ins_rows L soft tm A B k) tm') as Hro.
  { intros tm' Hr' l Hl. apply ins_rows_on; auto. }
  split.
  - intros h xs' x HL Hin. destruct h; try by (eapply Hty; [exact HL|done]).
    + cbn in HL. case_decide as D; [|by eapply Hty]. injection HL as <-.
      apply list_elem_of_fmap in Hin as (y & -> & _). done.
    + cbn in HL. case_decide; [done|]. by eapply Hty.
  - intros t Hl. destruct (lo_thread _ _ _ H t Hl). split; [by apply ins_rows_on|auto].
  - intros h xs t Hw. destruct h; try done; by apply (lo_wait _ _ _ H).
  - intros s l Hso' Hl. cbn. case_decide; [eauto|]. by apply (lo_heads _ _ _ H).
  - intros s lvl xs' x HL Hin Hl. destruct (ins_rows_in _ _ _ _ _ _ _ _ _ _ HL Hin Hs) as [(-> & -> & D)|(xs & HL1 & Hin1)].
    + exists (row (S lvl) <$> (A (S lvl) ++ tm :: B (S lvl))). cbn. rewrite decide_True by (split; [done|lia]).
      split; [done|]. change (LRow tm (S lvl)) with (row (S lvl) tm). apply list_elem_of_fmap_2.
      rewrite elem_of_app, elem_of_cons. auto.
    + destruct (lo_below _ _ _ H _ _ _ _ HL1 Hin1 Hl) as (ys & HL2 & Hin2). by eapply ins_rows_keep.
  - intros s lvl xs' x HL Hin. rewrite upd_case.
    destruct (ins_rows_in _ _ _ _ _ _ _ _ _ _ HL Hin Hs) as [(-> & -> & D)|(xs & HL1 & Hin1)].
    + rewrite decide_True by done. split; [lia|]. auto.
    + destruct (lo_active _ _ _ H _ _ _ _ HL1 Hin1) as (? & ? & ?). split; [done|]. split; [by case_decide|auto].
  - intros s lvl xs' t HL Hin.
    destruct (ins_rows_in _ _ _ _ _ _ _ _ _ _ HL Hin Hs) as [(E & -> & D)|(xs & HL1 & Hin1)]; [by apply Ht|].
    by eapply (lo_timed _ _ _ H).
Qed.

(** The lists without a timer row keep their content. *)
Lemma ins_rows_other L soft tm A B k h :
  (forall s l, h <> LTimerHead s l) -> (forall l, h <> LRow tm l) -> ins_rows L soft tm A B k h = L h.
Proof.
  intros H1 H2. destruct h; try done; cbn; case_decide as D; try done.
  - by destruct (H1 soft0 lvl).
  - destruct D as [-> _]. by destruct (H2 lvl).
Qed.

(** ** timer_insert *)
Definition activated_core (c : kcore) (tm : timer_id) (lk : links lnode) : kcore :=
  set_k_objs (<[OTimer tm := set_flag RT_TIMER_FLAG_ACTIVATED (k_objs c (OTimer tm))]> (k_objs c))
    (set_k_links lk (set_k_random_nr (uint32 (k_random_nr c + 1)) c)).

Lemma flag_bits_or f k m : 0 <= m < 256 -> Z.land k m = 0 -> Z.land (uint8 (Z.lor f k)) m = Z.land f m.
Proof.
  intros Hm Hk. apply Z.bits_inj'. intros i Hi. rewrite !Z.land_spec.
  destruct (decide (i < 8)).
  - rewrite testbit_uint by lia. rewrite Z.lor_spec.
    assert (Z.testbit (Z.land k m) i = false) as E by (by rewrite Hk, Z.bits_0).
    rewrite Z.land_spec in E. by destruct (Z.testbit f i), (Z.testbit k i), (Z.testbit m i).
  - rewrite (testbit_high 8 m) by lia. by rewrite !andb_false_r.
Qed.
Lemma activated_core_act c tm lk tm' :
  timer_activated (activated_core c tm lk) tm' = (<[tm := true]> (timer_activated c)) tm'.
Proof.
  unfold timer_activated, activated_core; ksimpl. destruct (decide (tm = tm')) as [->|D].
  - rewrite !upd_eq. cbn [set_flag ob_flag set_ob_flag]. apply negb_true_iff, Z.eqb_neq.
    apply (testbit_nonzero _ 0). rewrite Z.land_spec, testbit_uint by lia. rewrite Z.lor_spec. cbn. by rewrite orb_true_r.
  - by rewrite !upd_ne by congruence.
Qed.

Lemma wp_timer_insert stat c L soft tm Q :
  let tmo := tm_timeout_tick (k_timers c tm) in
  rep (k_links c) L -> lists_ok stat (timer_activated c) L -> lists_short L -> soft_ok soft ->
  timer_activated c tm = false -> rows_on L tm -> (forall t, tm = TThread t -> stat t = RT_THREAD_SUSPEND) ->
  (forall A B k lk, (k < RT_TIMER_SKIP_LIST_LEVEL)%nat ->
     (forall l, (l < RT_TIMER_SKIP_LIST_LEVEL)%nat -> slot c L soft tmo l (A l) (B l)) ->
     let c' := activated_core c tm lk in let L' := ins_rows L soft tm A B k in
     rep lk L' -> lists_ok stat (timer_activated c') L' -> Q tt c') ->
  wp (timer_insert tm soft) Q c.
Proof.
  intros tmo Hrep Hok Hsh Hso Ha Hr Ht HQ. pose proof skip_level_pos as Hlev. unfold timer_insert.
  do 2 (wp_step; cbn beta). fold tmo. wp_step.
  destruct (lo_heads _ _ _ Hok soft 0 Hso Hlev) as [xs0 HL0].
  destruct (typed_rows _ _ _ _ (lo_typed _ _ _ Hok) HL0) as [tms0 ->].
  eapply (wp_find_rows stat _ c L soft tmo RT_TIMER_SKIP_LIST_LEVEL Hrep Hok Hsh Hso 0 [] tms0); [done|done|].
  intros rh Hrh Hslots. destruct (finite_choice _ _ Hslots []) as (A & B & HAB). cbn in HAB.
  do 2 wp_step. cbn beta. do 2 wp_step. cbn beta. do 2 wp_step. cbn beta. ksimpl. set (n := (RT_TIMER_SKIP_LIST_LEVEL - 1)%nat).
  destruct (HAB n) as [Hsn ->]; [lia|].
  assert (forall l, (l < RT_TIMER_SKIP_LIST_LEVEL)%nat -> L (LRow tm l) = Some []) as Hdet
    by (intros; by eapply rows_detached).
  wp_step. eapply (wp_insert_rows L soft tm A B rh n); [lia| | |].
  - ksimpl. apply ins_rows_step; [lia| |apply Hsn|apply Hdet; lia].
    eapply rep_ext; [|exact Hrep]. intros h. destruct h; try done; cbn; rewrite decide_False; try done; intros [_ ?]; lia.
  - intros l Hl. destruct (HAB l) as [[H1 _ _] H2]; [lia|]. split; [done|]. split; [apply Hdet; lia|done].
  - intros k lk Hk Hlk. wp_step. ksimpl. apply (HQ A B k lk Hk (fun l Hl => proj1 (HAB l Hl)) Hlk).
    eapply lists_ok_ext; [done|apply activated_core_act|]. apply lists_ok_ins_rows; try done.
    intros l Hl. by destruct (HAB l Hl) as [[H1 _ _] _].
Qed.

(** ** Order of expiry *)
(** Ticks until the timer expires, negative when it is overdue. *)
Definition ticks_left (c : kcore) (tm : timer_id) : Z :=
  int32 (tm_timeout_tick (k_timers c tm) - k_rt_tick c).
Definition expiry_sorted (c : kcore) (tms : list timer_id) : Prop :=
  StronglySorted (fun x y => ticks_left c x <= ticks_left c y) tms.
(** The timers of a list that is checked at every tick are overdue by one tick at
    most. *)
Definition expiry_window (c : kcore) (tms : list timer_id) : Prop :=
  forall x, x ∈ tms -> -1 <= ticks_left c x < RT_TICK_MAX / 2.

Lemma uint32_int32_diff a b n d : int32 (a - n) = d -> uint32 (a - uint32 (n + b)) = uint32 (d - b).
Proof.
  intros <-. unfold uint, sint. rewrite Zminus_mod_idemp_r.
  replace ((a - n + 2 ^ (32 - 1)) mod 2 ^ 32 - 2 ^ (32 - 1) - b)
    with ((a - n + 2 ^ (32 - 1)) mod 2 ^ 32 - (2 ^ (32 - 1) + b)) by lia.
  rewrite Zminus_mod_idemp_l. f_equal. lia.
Qed.

Lemma passes_delta c x b :
  0 <= b < RT_TICK_MAX / 2 -> -1 <= ticks_left c x < RT_TICK_MAX / 2 ->
  passes c (uint32 (k_rt_tick c + b)) x = bool_decide (ticks_left c x <= b).
Proof.
  intros Hb Hx. unfold passes. rewrite (uint32_int32_diff _ _ _ (ticks_left c x)) by done.
  change (RT_TICK_MAX / 2) with 2147483647 in *. set (d := ticks_left c x) in *.
  destruct (decide (d <= b)) as [Hle|Hle].
  - rewrite bool_decide_true by done. destruct (decide (d = b)) as [->|].
    + by rewrite Z.sub_diag.
    + assert (uint32 (d - b) = d - b + 2 ^ 32) as ->.
      { unfold uint. rewrite <- (Z.mod_small (d - b + 2 ^ 32) (2 ^ 32)) by lia.
        by rewrite <- (Z_mod_plus_full (d - b) 1), Z.mul_1_l. }
      zcases; cbn; lia.
  - rewrite bool_decide_false by done. rewrite uint_small by lia. zcases; cbn; lia.
Qed.

Lemma slot_sorted c L soft lvl a b n :
  slot c L soft (uint32 (k_rt_tick c + n)) lvl a b -> 0 <= n < RT_TICK_MAX / 2 ->
  expiry_window c (a ++ b) -> expiry_sorted c (a ++ b) ->
  (forall x, x ∈ a -> ticks_left c x <= n) /\ (forall y, y ∈ b -> n < ticks_left c y).
Proof.
  intros [_ Hl Hh] Hn Hw Hs. split.
  - intros x Hx. destruct a as [|z a _] using rev_ind; [by apply elem_of_nil in Hx|].
    assert (ticks_left c z <= n) as Hz.
    { specialize (Hl z). rewrite last_snoc in Hl. specialize (Hl eq_refl).
      rewrite passes_delta in Hl by (try done; apply Hw; rewrite !elem_of_app; left; right; by left).
      by apply bool_decide_eq_true in Hl. }
    apply elem_of_app in Hx as [Hx|Hx%list_elem_of_singleton]; [|by subst].
    rewrite <- app_assoc in Hs. apply list_elem_of_split in Hx as (l1 & l2 & ->).
    rewrite <- app_assoc in Hs. clear - Hs Hz. unfold expiry_sorted in Hs.
    induction l1 as [|y l1 IH]; cbn in Hs; inversion Hs as [|? ? H1 H2]; subst; [|auto].
    rewrite Forall_forall in H2. etrans; [apply H2|done]. rewrite !elem_of_app. right. by left.
  - intros y Hy. destruct b as [|z b]; [by apply elem_of_nil in Hy|].
    assert (n < ticks_left c z) as Hz.
    { specialize (Hh z eq_refl). rewrite passes_delta in Hh by (try done; apply Hw; rewrite elem_of_app; right; by left).
      apply bool_decide_eq_false in Hh. lia. }
    apply elem_of_cons in Hy as [->|Hy]; [done|].
    clear - Hs Hz Hy. unfold expiry_sorted in Hs. induction a as [|x a IH]; cbn in Hs; inversion Hs as [|? ? H1 H2]; subst; [|auto].
    rewrite Forall_forall in H2. specialize (H2 y Hy). lia.
Qed.

Lemma insert_sorted {A} (f : A -> Z) a b x :
  StronglySorted (fun u v => f u <= f v) (a ++ b) ->
  (forall u, u ∈ a -> f u <= f x) -> (forall v, v ∈ b -> f x <= f v) ->
  StronglySorted (fun u v => f u <= f v) (a ++ x :: b).
Proof.
  induction a as [|u a IH]; cbn; intros Hs Ha Hb.
  - constructor; [done|]. by apply Forall_forall.
  - inversion Hs as [|? ? H1 H2]; subst. constructor; [apply IH; auto; intros; apply Ha; by right|].
    rewrite Forall_forall in H2 |- *. intros v. rewrite elem_of_app, elem_of_cons.
    intros [Hv|[->|Hv]]; [apply H2; rewrite elem_of_app; auto|apply Ha; by left|apply H2; rewrite elem_of_app; auto].
Qed.

(** ** rt_timer_start *)
(** The timer's state when it is inserted: its expiry is [init_tick] ticks ahead. *)
Definition armed (c : kcore) (tm : timer_id) : kcore :=
  let t := k_timers c tm in
  set_k_timers (<[tm := set_tm_timeout_tick (uint32 (k_rt_tick c + tm_init_tick t)) t]> (k_timers c)) c.
Lemma armed_timer_ok c tm t : thread_timer_ok c t -> thread_timer_ok (armed c tm) t.
Proof.
  intros (H1 & H2 & H3). split; [|split; [|done]]; unfold armed; ksimpl; rewrite upd_case; case_decide; by subst.
Qed.

Lemma kinv_activated c L tm soft A B k lk :
  let c' := activated_core (armed c tm) tm lk in let L' := ins_rows L soft tm A B k in
  kinv c L -> rep lk L' -> lists_ok (thread_stat c) (timer_activated c') L' -> kinv c' L'.
Proof.
  intros c' L' H Hlk Hl. eapply kinv_relink; [exact H|done..| |exact Hl|].
  - intros p ts HL _. unfold L'. by rewrite ins_rows_other.
  - intros t Ht. apply armed_timer_ok with (tm := tm) in Ht as (H1 & H2 & H3). split; [done|]. split; [done|].
    unfold c', activated_core; ksimpl. destruct (decide (tm = TThread t)) as [->|]; [|by rewrite upd_ne by congruence].
    rewrite upd_eq. cbn [set_flag ob_flag set_ob_flag]. by rewrite flag_bits_or.
Qed.

(** The hard timers; the thread is woken that checks the soft ones. *)
Lemma wp_timer_start_hard c L tm Q :
  kinv c L -> lists_short L -> rows_on L tm -> has_flag c tm RT_TIMER_FLAG_SOFT_TIMER = false ->
  (forall t, tm = TThread t -> thread_stat c t = RT_THREAD_SUSPEND) ->
  tm_init_tick (k_timers c tm) < RT_TICK_MAX / 2 ->
  (timer_activated c tm = true -> Q (- RT_ERROR) c) ->
  (timer_activated c tm = false -> forall A B k lk, (k < RT_TIMER_SKIP_LIST_LEVEL)%nat ->
     (forall l, (l < RT_TIMER_SKIP_LIST_LEVEL)%nat ->
        slot (armed c tm) L false (tm_timeout_tick (k_timers (armed c tm) tm)) l (A l) (B l)) ->
     let c' := activated_core (armed c tm) tm lk in
     kinv c' (ins_rows L false tm A B k) -> Q RT_EOK c') ->
  wp (rt_timer_start tm) Q c.
Proof.
  intros H Hsh Hr Hsoft Ht Hinit H1 H2. unfold rt_timer_start. do 2 (wp_step; cbn beta).
  destruct (timer_activated c tm) eqn:Ha; [wp_step; auto|]. do 2 (wp_step; cbn beta).
  wp_step. wp_step; [by apply Z.ltb_lt|]. do 2 (wp_step; cbn beta). do 2 (wp_step; cbn beta).
  do 2 (wp_step; cbn beta). change (set_k_timers _ c) with (armed c tm).
  change (has_flag (armed c tm) tm RT_TIMER_FLAG_SOFT_TIMER) with (has_flag c tm RT_TIMER_FLAG_SOFT_TIMER).
  rewrite Hsoft, andb_false_r. wp_step.
  eapply (wp_timer_insert (thread_stat c) (armed c tm) L false tm); [exact (kinv_rep _ _ H)|exact (ki_lists _ _ H)|done|done|exact Ha|done|done|].
  intros A B k lk Hk Hs c' L' Hlk Hl. wp_step. wp_step. wp_step.
  eapply H2; [done|exact Hk|exact Hs|]. by apply kinv_activated.
Qed.

Lemma ticks_left_armed c tm lk x :
  ticks_left (activated_core (armed c tm) tm lk) x =
  if decide (x = tm) then int32 (uint32 (k_rt_tick c + tm_init_tick (k_timers c tm)) - k_rt_tick c) else ticks_left c x.
Proof.
  unfold ticks_left, activated_core, armed; ksimpl. case_decide as D; [subst; by rewrite upd_eq|by rewrite upd_ne].
Qed.
Lemma int32_armed now n : 0 <= n < RT_TICK_MAX / 2 -> int32 (uint32 (now + n) - now) = n.
Proof.
  change (RT_TICK_MAX / 2) with 2147483647. intros Hn. unfold uint, sint.
  replace ((now + n) mod 2 ^ 32 - now + 2 ^ (32 - 1)) with ((now + n) mod 2 ^ 32 - (now - 2 ^ (32 - 1))) by lia.
  rewrite Zminus_mod_idemp_l. replace (now + n - (now - 2 ^ (32 - 1))) with (n + 2 ^ 31) by lia.
  rewrite Z.mod_small; lia.
Qed.
Lemma expiry_sorted_ext c c' tms :
  (forall x, x ∈ tms -> ticks_left c' x = ticks_left c x) -> expiry_sorted c tms -> expiry_sorted c' tms.
Proof.
  unfold expiry_sorted. induction tms as [|x tms IH]; intros He Hs; [constructor|].
  inversion Hs as [|? ? H1 H2]; subst. constructor; [apply IH; [|done]; intros; apply He; by right|].
  rewrite Forall_forall in H2 |- *. intros y Hy. rewrite !He; [by apply H2|by right|by left].
Qed.

(** A hard timer goes behind the timers that expire before it or with it, and in
    front of the others. *)
Lemma wp_timer_start_sorted c L tm tms Q :
  kinv c L -> lists_short L -> rows_on L tm -> has_flag c tm RT_TIMER_FLAG_SOFT_TIMER = false ->
  (forall t, tm = TThread t -> thread_stat c t = RT_THREAD_SUSPEND) ->
  0 <= tm_init_tick (k_timers c tm) < RT_TICK_MAX / 2 -> timer_activated c tm = false ->
  L (LTimerHead false last_row) = Some (row last_row <$> tms) -> expiry_sorted c tms -> expiry_window c tms ->
  (forall A B k lk a b, tms = a ++ b -> (k < RT_TIMER_SKIP_LIST_LEVEL)%nat ->
     (forall l, (l < RT_TIMER_SKIP_LIST_LEVEL)%nat -> L (LTimerHead false l) = Some (row l <$> (A l ++ B l))) ->
     let c' := activated_core (armed c tm) tm lk in let L' := ins_rows L false tm A B k in
     kinv c' L' -> L' (LTimerHead false last_row) = Some (row last_row <$> (a ++ tm :: b)) ->
     ticks_left c' tm = tm_init_tick (k_timers c tm) ->
     (forall x, x ∈ a -> ticks_left c' x <= ticks_left c' tm) -> (forall x, x ∈ b -> ticks_left c' tm < ticks_left c' x) ->
     expiry_sorted c' (a ++ tm :: b) -> expiry_window c' (a ++ tm :: b) -> Q RT_EOK c') ->
  wp (rt_timer_start tm) Q c.
Proof.
  intros H Hsh Hr Hsoft Ht Hn Ha HL Hs Hw HQ. pose proof skip_level_pos as Hlev.
  set (n := tm_init_tick (k_timers c tm)) in *.
  assert (tm ∉ tms) as Hnin.
  { intros Hin. destruct (lo_active _ _ _ (ki_lists _ _ H) _ _ _ tm HL) as (_ & E & _); [|congruence].
    by apply (list_elem_of_fmap_2 (row last_row)). }
  eapply wp_timer_start_hard; [done|done|done|done|done|apply Hn|by rewrite Ha|].
  intros _ A B k lk Hk Hslots c' Hk'.
  destruct (Hslots last_row) as [S1 S2 S3]; [unfold last_row; lia|].
  rewrite HL in S1. injection S1 as S1. apply (inj (fmap (row last_row))) in S1.
  assert (forall x, x <> tm -> ticks_left (armed c tm) x = ticks_left c x) as Et.
  { intros x Hx. unfold ticks_left, armed; ksimpl. by rewrite upd_ne. }
  assert (forall x, x ∈ tms -> ticks_left c' x = ticks_left c x) as Et'.
  { intros x Hx. unfold c'. rewrite ticks_left_armed, decide_False; [done|]. by intros ->. }
  assert (ticks_left c' tm = n) as En.
  { unfold c'. rewrite ticks_left_armed, decide_True by done. by apply int32_armed. }
  assert (tm_timeout_tick (k_timers (armed c tm) tm) = uint32 (k_rt_tick (armed c tm) + n)) as Etmo
    by (unfold armed; ksimpl; by rewrite upd_eq).
  destruct (slot_sorted (armed c tm) L false last_row (A last_row) (B last_row) n) as [Hb1 Hb2].
  { rewrite <- Etmo. apply Hslots. unfold last_row. lia. }
  { done. }
  { rewrite <- S1. intros x Hx. rewrite Et; [auto|]. by intros ->. }
  { rewrite <- S1. eapply expiry_sorted_ext; [|exact Hs]. intros x Hx. apply Et. by intros ->. }
  assert (forall x, x ∈ A last_row -> ticks_left c' x <= ticks_left c' tm) as HA.
  { intros x Hx. rewrite En, Et' by (rewrite S1, elem_of_app; auto). rewrite <- Et; [auto|].
    intros ->. apply Hnin. rewrite S1, elem_of_app. auto. }
  assert (forall x, x ∈ B last_row -> ticks_left c' tm < ticks_left c' x) as HB.
  { intros x Hx. rewrite En, Et' by (rewrite S1, elem_of_app; auto). rewrite <- Et; [auto|].
    intros ->. apply Hnin. rewrite S1, elem_of_app. auto. }
  eapply (HQ A B k lk (A last_row) (B last_row)); try done.
  - intros l Hl. apply (Hslots l Hl).
  - cbn. rewrite decide_True; [done|]. unfold last_row. split; [done|lia].
  - unfold expiry_sorted. apply (insert_sorted (ticks_left c')); [|done|intros; apply Z.lt_le_incl; auto].
    rewrite <- S1. by eapply expiry_sorted_ext.
  - intros x. change (activated_core (armed c tm) tm lk) with c'.
    rewrite elem_of_app, elem_of_cons. intros Hx. destruct (decide (x = tm)) as [->|]; [rewrite En; lia|].
    rewrite Et' by (rewrite S1, elem_of_app; tauto). apply Hw. rewrite S1, elem_of_app. tauto.
Qed.

(** C16 rt_timer_start arms an inactive hard timer [init_tick] ticks ahead and inserts it
    in the bottom row of the skip list behind the timers that expire before it or with
    it and in front of the others, modulo the wrap of the 32-bit tick: the list stays
    sorted by the ticks left, at every height the timer is linked in. *)
Theorem rt_timer_start_sorted c L tm tms :
  kinv c L -> lists_short L -> rows_on L tm -> has_flag c tm RT_TIMER_FLAG_SOFT_TIMER = false ->
  (forall t, tm = TThread t -> thread_stat c t = RT_THREAD_SUSPEND) ->
  0 <= tm_init_tick (k_timers c tm) < RT_TICK_MAX / 2 -> timer_activated c tm = false ->
  L (LTimerHead false last_row) = Some (row last_row <$> tms) -> expiry_sorted c tms -> expiry_window c tms ->
  exists c' L' a b, rt_timer_start tm c = Some (RT_EOK, c') /\ tms = a ++ b /\ kinv c' L' /\
    L' (LTimerHead false last_row) = Some (row last_row <$> (a ++ tm :: b)) /\
    timer_activated c' tm = true /\ ticks_left c' tm = tm_init_tick (k_timers c tm) /\
    (forall x, x ∈ a -> ticks_left c' x <= ticks_left c' tm) /\ (forall x, x ∈ b -> ticks_left c' tm < ticks_left c' x) /\
    expiry_sorted c' (a ++ tm :: b) /\ (forall x, x ∈ tms -> ticks_left c' x = ticks_left c x).
Proof.
  intros H Hsh Hr Hsoft Ht Hn Ha HL Hs Hw.
  cut (wp (rt_timer_start tm) (fun r c' => r = RT_EOK /\ exists L' a b, tms = a ++ b /\ kinv c' L' /\
    L' (LTimerHead false last_row) = Some (row last_row <$> (a ++ tm :: b)) /\
    timer_activated c' tm = true /\ ticks_left c' tm = tm_init_tick (k_timers c tm) /\
    (forall x, x ∈ a -> ticks_left c' x <= ticks_left c' tm) /\ (forall x, x ∈ b -> ticks_left c' tm < ticks_left c' x) /\
    expiry_sorted c' (a ++ tm :: b) /\ (forall x, x ∈ tms -> ticks_left c' x = ticks_left c x)) c).
  { intros (r & c' & E & -> & L' & a & b & H')%wp_run. by exists c', L', a, b. }
  assert (tm ∉ tms) as Hnin.
  { intros Hin. destruct (lo_active _ _ _ (ki_lists _ _ H) _ _ _ tm HL) as (_ & E & _); [|congruence].
    by apply (list_elem_of_fmap_2 (row last_row)). }
  eapply (wp_timer_start_sorted c L tm tms); [done..|].
  intros A B k lk a b El Hk Hrows c' L' Hk' HL' Hleft Hx Hy Hs' _. split; [done|]. exists L', a, b. split_and!; try done.
  - unfold c'. by rewrite activated_core_act, upd_eq.
  - intros x Hin. unfold c'. rewrite ticks_left_armed, decide_False; [done|]. by intros ->.
Qed.

(** rt_timer_stop takes an active timer off every row of its skip list and clears its
    flag, leaving every other timer where it is; an inactive timer is refused without
    a change. *)
Theorem rt_timer_stop_spec c L tm :
  kinv c L -> (timer_activated c tm = true -> rows_on L tm) ->
  (timer_activated c tm = false /\ rt_timer_stop tm c = Some (- RT_ERROR, c)) \/
  (timer_activated c tm = true /\ exists c', rt_timer_stop tm c = Some (RT_EOK, c') /\ kinv c' (rows_gone L tm) /\
     timer_activated c' tm = false /\ (forall x, x <> tm -> timer_activated c' x = timer_activated c x) /\
     rows_off (rows_gone L tm) tm /\
     forall soft lvl tms, L (LTimerHead soft lvl) = Some (row lvl <$> tms) -> (lvl < RT_TIMER_SKIP_LIST_LEVEL)%nat ->
       rows_gone L tm (LTimerHead soft lvl) = Some (row lvl <$> without tm tms)).
Proof.
  intros H Hr. destruct (timer_activated c tm) eqn:Ha; [right|left]; (split; [done|]).
  - cut (wp (rt_timer_stop tm) (fun r c' => r = RT_EOK /\ kinv c' (rows_gone L tm) /\ timer_activated c' tm = false /\
      forall x, x <> tm -> timer_activated c' x = timer_activated c x) c).
    { intros (r & c' & E & -> & Hk & H1 & H2)%wp_run. exists c'. split_and!; try done; [by eapply kinv_rows_off|].
      intros soft lvl tms HL Hlvl. rewrite rows_gone_head, HL by done. cbn [fmap option_fmap option_map]. f_equal. clear HL.
      induction tms as [|x tms IH]; [done|]. rewrite fmap_cons, filter_cons, without_cons, IH.
      destruct (decide (x = tm)) as [->|Hne].
      - rewrite decide_False; [done|]. intros Hx. apply Hx. split; [done|lia].
      - rewrite decide_True; [done|]. intros [E' _]. by apply Hne. }
    eapply wp_timer_stop; [exact (kinv_rep _ _ H)|intros _; apply rows_on_live; [apply (lo_typed _ _ _ (ki_lists _ _ H))|auto]|by rewrite Ha|].
    intros _ lk Hlk. destruct (kinv_rows_gone _ _ _ _ H Hlk) as [_ Hk]. split; [done|]. split; [exact Hk|].
    assert (forall x, timer_activated (set_k_links lk (stop_timer c tm)) x = (<[tm := false]> (timer_activated c)) x) as E
      by (intros x; apply stop_timer_activated).
    split; [by rewrite E, upd_eq|]. intros x Hx. by rewrite E, upd_ne.
  - assert (wp (rt_timer_stop tm) (fun r c' => r = - RT_ERROR /\ c' = c) c) as Hw.
    { eapply wp_timer_stop; [exact (kinv_rep _ _ H)|by rewrite Ha|done|by rewrite Ha]. }
    by apply wp_run in Hw as (r & c' & E & -> & ->).
Qed.
End skip_list.
