(* ===== verification/TimerCheck.v ===== *)
(** The timer check at every tick (src/timer.c, rt_timer_check): every timer that is
    due fires, and only those. *)
From Stdlib Require Import Sorted.
From S2P Require Import Prelude RtList Kservice Kernel Scheduler Object TimerCore Invariant Thread Timer.

Section timer_check.
Context {cfg : Config} {kh : KHeap} {sz : ObjectSizes} {st : StaticThreads}.
Implicit Types (L : lnode -> option (list lnode)).
(** The timeout functions of the application: code outside the kernel.  They return
    and leave the kernel data alone. *)
Context (user_timeout : Z -> Z -> M kcore unit).
Hypothesis user_timeout_returns : forall f a c, user_timeout f a c = Some (tt, c).

Definition periodic (c : kcore) (tm : timer_id) : bool := has_flag c tm RT_TIMER_FLAG_PERIODIC.

(** A timer object on the hard list: an application function, and a period that is
    neither zero nor too long to be started again. *)
Definition timer_ok (c : kcore) (tm : timer_id) : Prop :=
  match tm with
  | TThread _ => True
  | TObj _ => (exists f, tm_timeout_func (k_timers c tm) = TF_user f) /\
      has_flag c tm RT_TIMER_FLAG_SOFT_TIMER = false /\
      (periodic c tm = true -> 0 < tm_init_tick (k_timers c tm) < RT_TICK_MAX / 2)
  end.
Record checking (c : kcore) L (tms : list timer_id) : Prop := {
  ck_inv : kinv c L;
  ck_short : lists_short L;
  ck_list : L (LTimerHead false last_row) = Some (row last_row <$> tms);
  ck_sorted : expiry_sorted c tms;
  ck_window : expiry_window c tms;
  ck_timers : forall tm, tm ∈ tms -> timer_ok c tm
}.
Definition due (c : kcore) (tm : timer_id) : Prop := ticks_left c tm <= 0.
#[local] Instance due_dec c tm : Decision (due c tm).
Proof. unfold due. apply _. Defined.

(** The test of the loop. *)
Lemma due_test c tm : -1 <= ticks_left c tm < RT_TICK_MAX / 2 ->
  (uint32 (k_rt_tick c - tm_timeout_tick (k_timers c tm)) <? RT_TICK_MAX / 2) = bool_decide (due c tm).
Proof.
  intros Hw. set (d := ticks_left c tm) in *.
  assert (uint32 (k_rt_tick c - tm_timeout_tick (k_timers c tm)) = uint32 (- d)) as ->.
  { unfold d, ticks_left, uint, sint. rewrite (Z.mod_eq (_ + _)) by lia.
    match goal with |- context [2 ^ 32 * ?q] => rewrite <- (Z_mod_plus_full _ q (2 ^ 32)) end. f_equal. lia. }
  change (RT_TICK_MAX / 2) with 2147483647 in *. unfold due. fold d. destruct (decide (d <= 0)) as [Hd|Hd].
  - rewrite bool_decide_true by done. rewrite uint_small by lia. apply Z.ltb_lt. lia.
  - rewrite bool_decide_false by done. assert (uint32 (- d) = 2 ^ 32 - d) as ->.
    { unfold uint. rewrite <- (Z.mod_small (2 ^ 32 - d) (2 ^ 32)) by lia.
      by rewrite <- (Z_mod_plus_full (- d) 1), Z.mul_1_l, Z.add_comm. }
    apply Z.ltb_ge. lia.
Qed.

(** ** Removing a due timer *)
Lemma lists_short_gone L tm : lists_short L -> lists_short (rows_gone L tm).
Proof.
  intros H soft xs' HL. rewrite rows_gone_head in HL by done. specialize (H soft).
  destruct (L (LTimerHead soft last_row)) as [xs|]; [|done]. injection HL as <-.
  eapply Nat.le_lt_trans; [apply length_filter|]. by apply H.
Qed.
Lemma lists_short_ext L L' : (forall soft, L' (LTimerHead soft last_row) = L (LTimerHead soft last_row)) -> lists_short L -> lists_short L'.
Proof. intros E H soft xs. rewrite E. apply H. Qed.
Lemma rows_gone_first L tm tms :
  L (LTimerHead false last_row) = Some (row last_row <$> tm :: tms) -> tm ∉ tms ->
  rows_gone L tm (LTimerHead false last_row) = Some (row last_row <$> tms).
Proof.
  intros HL Hn. pose proof skip_level_pos. rewrite rows_gone_head, HL by done. cbn [fmap option_fmap option_map]. f_equal.
  rewrite fmap_cons, filter_cons, decide_False.
  2: { intros Hr. apply Hr. split; [done|]. unfold last_row. lia. }
  clear HL. induction tms as [|x tms IH]; [done|]. apply not_elem_of_cons in Hn as [Hne Hn].
  rewrite fmap_cons, filter_cons, decide_True; [by rewrite IH|]. intros [E _]. by apply Hne.
Qed.
Lemma kinv_deactivate c L tm : kinv c L -> rows_off L tm -> kinv (stop_timer c tm) L.
Proof.
  intros H Hoff. eapply kinv_relink; [exact H|exact (kinv_rep _ _ H)|done..| |intros t; apply stop_timer_ok].
  pose proof (ki_lists _ _ H) as Hl. destruct Hl as [H1 H2 H3 H4 H5 H6 H7].
  eapply lists_ok_ext; [done|intros tm'; apply stop_timer_activated|]. split; try done.
  intros soft lvl xs tm' HL Hin. destruct (H6 _ _ _ _ HL Hin) as (K1 & K2 & K3). rewrite upd_ne; [done|].
  intros <-. by apply (Hoff soft lvl xs HL).
Qed.

(** What firing [tm] changes. *)
Definition thread_woken (th : rt_thread) : rt_thread := set_th_stat RT_THREAD_READY (set_th_error (- RT_ETIMEOUT) th).
Record fired (c : kcore) (tm : timer_id) (c' : kcore) : Prop := {
  fi_tick : k_rt_tick c' = k_rt_tick c;
  fi_timers : forall x, x <> tm -> k_timers c' x = k_timers c x;
  fi_func : tm_timeout_func (k_timers c' tm) = tm_timeout_func (k_timers c tm);
  fi_init : tm_init_tick (k_timers c' tm) = tm_init_tick (k_timers c tm);
  fi_objs : forall o, o <> OTimer tm -> k_objs c' o = k_objs c o;
  fi_soft : has_flag c' tm RT_TIMER_FLAG_SOFT_TIMER = has_flag c tm RT_TIMER_FLAG_SOFT_TIMER;
  fi_periodic : periodic c' tm = periodic c tm;
  fi_active : timer_activated c' tm = periodic c tm;
  fi_left : periodic c tm = true -> ticks_left c' tm = tm_init_tick (k_timers c tm);
  fi_threads : forall u, k_threads c' u = if decide (tm = TThread u) then thread_woken (k_threads c u) else k_threads c u
}.
Lemma fired_left c tm c' x : fired c tm c' -> x <> tm -> ticks_left c' x = ticks_left c x.
Proof. intros H Hx. unfold ticks_left. by rewrite (fi_tick _ _ _ H), (fi_timers _ _ _ H). Qed.
Lemma fired_timer_ok c tm c' x : fired c tm c' -> timer_ok c x -> timer_ok c' x.
Proof.
  intros H. destruct x as [t|a]; [done|]. unfold timer_ok. destruct (decide (TObj a = tm)) as [<-|Hne].
  - by rewrite (fi_func _ _ _ H), (fi_soft _ _ _ H), (fi_periodic _ _ _ H), (fi_init _ _ _ H).
  - unfold periodic, has_flag. by rewrite (fi_timers _ _ _ H), (fi_objs _ _ _ H) by congruence.
Qed.

Lemma expiry_tail c tm tms : expiry_sorted c (tm :: tms) -> expiry_sorted c tms.
Proof. by inversion 1. Qed.
Lemma stop_timer_flag c tm mask : Z.land (uint8 (Z.lnot RT_TIMER_FLAG_ACTIVATED)) mask = mask ->
  has_flag (stop_timer c tm) tm mask = has_flag c tm mask.
Proof. intros E. unfold has_flag, stop_timer; ksimpl. rewrite upd_eq. f_equal. f_equal. by apply clear_flag_bits. Qed.

(** The state after firing a timer that is not started again. *)
Lemma checking_fired c L tm tms c' L' :
  checking c L (tm :: tms) -> fired c tm c' -> kinv c' L' -> tm ∉ tms ->
  (forall soft, L' (LTimerHead soft last_row) = rows_gone L tm (LTimerHead soft last_row)) -> checking c' L' tms.
Proof.
  intros [C1 C2 C3 C4 C5 C6] Hf Hk Hn HL.
  assert (forall x, x ∈ tms -> ticks_left c' x = ticks_left c x) as Et by (intros x Hx; eapply fired_left; [done|]; by intros ->).
  split; [done| | | | |].
  - eapply lists_short_ext; [exact HL|]. by apply lists_short_gone.
  - rewrite HL. by apply rows_gone_first.
  - eapply expiry_sorted_ext; [exact Et|by eapply expiry_tail].
  - intros x Hx. rewrite Et by done. apply C5. by right.
  - intros x Hx. eapply fired_timer_ok; [exact Hf|]. apply C6. by right.
Qed.

(** The timer of a thread is neither periodic nor soft. *)
Lemma thread_timer_one_shot c t : thread_timer_ok c t -> periodic c (TThread t) = false.
Proof.
  intros (_ & _ & T3). unfold periodic, has_flag. apply negb_false_iff, Z.eqb_eq. eapply Z.bits_inj'. intros i Hi.
  apply (f_equal (fun z => Z.testbit z i)) in T3. rewrite !Z.land_spec, Z.lor_spec in T3. rewrite Z.land_spec, Z.bits_0 in *.
  by destruct (Z.testbit (ob_flag _) i), (Z.testbit RT_TIMER_FLAG_PERIODIC i).
Qed.

(** ** Firing a due timer *)
Definition fires (c : kcore) L (tm : timer_id) (tms : list timer_id) (now : Z) (c' : kcore) : Prop :=
  now = k_rt_tick c /\ fired c tm c' /\ exists L' tms', checking c' L' tms' /\
    forall x, x ∈ tms' <-> x ∈ tms \/ (x = tm /\ periodic c tm = true).

(** The common prefix: the rows are removed. *)
Lemma wp_expire_prefix c L tm tms Q :
  checking c L (tm :: tms) ->
  (forall lk, kinv (set_k_links lk c) (rows_gone L tm) -> kinv (set_k_links lk (stop_timer c tm)) (rows_gone L tm) ->
     tm ∉ tms -> timer_activated c tm = true -> rows_on (rows_gone L tm) tm -> rows_off (rows_gone L tm) tm -> Q tt (set_k_links lk c)) ->
  wp (_rt_timer_remove tm) Q c.
Proof.
  intros [C1 C2 C3 C4 C5 C6] HQ. pose proof (lo_typed _ _ _ (ki_lists _ _ C1)) as Hty.
  destruct (lo_active _ _ _ (ki_lists _ _ C1) _ _ _ tm C3) as (_ & Ha & Hr); [by left|].
  eapply wp_timer_remove; [exact (kinv_rep _ _ C1)|by apply rows_on_live|]. intros lk Hlk.
  destruct (kinv_rows_gone _ _ _ _ C1 Hlk) as [K1 K2]. apply HQ; try done.
  - pose proof (rep_NoDup _ _ _ _ (kinv_rep _ _ C1) C3) as Hnd. apply NoDup_fmap_1 in Hnd. by apply NoDup_cons in Hnd as [? _].
  - intros l Hl. left. by apply on_list_rows_gone_row.
  - eapply kinv_rows_off; [exact K2|]. change (timer_activated (stop_timer c tm) tm = false). by rewrite stop_timer_activated, upd_eq.
Qed.

Lemma wp_expire_thread c L t tms :
  checking c L (TThread t :: tms) ->
  wp (timer_expire user_timeout (TThread t)) (fires c L (TThread t) tms) c.
Proof.
  intros H. set (tm := TThread t). pose proof (lo_typed _ _ _ (ki_lists _ _ (ck_inv _ _ _ H))) as Hty.
  assert (thread_stat c t = RT_THREAD_SUSPEND) as Ht.
  { eapply (lo_timed _ _ _ (ki_lists _ _ (ck_inv _ _ _ H))); [exact (ck_list _ _ _ H)|]. by left. }
  pose proof (ki_timer _ _ (ck_inv _ _ _ H) t (or_intror Ht)) as Hto. destruct (Hto) as (T1 & T2 & T3).
  unfold timer_expire. wp1. eapply wp_expire_prefix; [exact H|]. intros lk K1 K2 Hn Ha Hr Hoff.
  wp1. unfold call_timeout. do 2 wp1. ksimpl. fold tm in T1, T2. rewrite T1, T2.
  eapply wp_thread_timeout; [exact K1|exact Ht|exact Hoff|]. cbn zeta. ksimpl.
  intros ts lk2 g tb c2 HL2 (cur & prio & sw & ->) K3 _. set (c2 := set_k_switches _ _) in *.
  set (L2 := ins_ready _ _ _ _) in *.
  assert (forall h, (exists s l, h = LTimerHead s l) -> L2 h = rows_gone L tm h) as Eh.
  { intros h (s & l & ->). unfold L2, ins_ready. rewrite !upd_ne by done.
    apply unlink_thread_head; [by apply typed_rows_gone|done|]. intros x. by destruct x. }
  assert (rows_off L2 tm) as Hoff2.
  { intros s l xs. rewrite Eh by eauto. apply Hoff. }
  pose proof (thread_timer_one_shot _ _ Hto) as Hper. fold tm in Hper.
  do 2 wp1. do 2 wp1. do 2 wp1. do 2 wp1. change (has_flag c2 tm RT_TIMER_FLAG_PERIODIC) with (periodic c tm). rewrite Hper.
  cbn [andb]. wp1. wp1. wp1. change (set_k_objs _ c2) with (stop_timer c2 tm).
  assert (fired c tm (stop_timer c2 tm)) as Hf.
  { split; try done.
    - intros o Ho. unfold stop_timer; ksimpl. by rewrite upd_ne.
    - by rewrite stop_timer_flag.
    - unfold periodic. by rewrite stop_timer_flag.
    - by rewrite stop_timer_activated, upd_eq, Hper.
    - by rewrite Hper.
    - intros u. unfold c2, stop_timer; ksimpl. unfold with_sched; ksimpl. unfold with_stat; ksimpl.
      unfold timed_out, with_error; ksimpl. rewrite upd_eq, !upd_case. repeat case_decide; try congruence; by simplify_eq. }
  split; [done|]. split; [done|]. exists L2, tms. split.
  - eapply checking_fired; [exact H|exact Hf|by apply kinv_deactivate|done|]. intros soft. apply Eh; eauto.
  - intros x. rewrite Hper. split; [auto|]. by intros [?|[_ ?]].
Qed.

Lemma stop_timer_ticks lk c tm x : ticks_left (set_k_links lk (stop_timer c tm)) x = ticks_left c x.
Proof. done. Qed.
Lemma activated_flag c tm lk mask : Z.land RT_TIMER_FLAG_ACTIVATED mask = 0 -> 0 <= mask < 256 ->
  has_flag (activated_core (armed c tm) tm lk) tm mask = has_flag c tm mask.
Proof.
  intros E Hm. unfold has_flag, activated_core, armed; ksimpl. rewrite upd_eq. cbn [set_flag ob_flag set_ob_flag].
  by rewrite flag_bits_or.
Qed.

(** A timer that is started again. *)
Lemma wp_expire_periodic c L a tms lk :
  let tm := TObj a in let c2 := set_k_links lk (stop_timer c tm) in
  checking c L (tm :: tms) -> kinv c2 (rows_gone L tm) -> tm ∉ tms -> rows_on (rows_gone L tm) tm -> periodic c tm = true ->
  wp (_ ← rt_timer_start tm; mret tt) (fun _ c' => fires c L tm tms (k_rt_tick c) c') c2.
Proof.
  intros tm c2 H K2 Hn Hr Hper. pose proof H as [C1 C2 C3 C4 C5 C6].
  destruct (C6 tm ltac:(by left)) as ((f & Hfu) & Hso & Hin). specialize (Hin Hper).
  wp1. eapply (wp_timer_start_sorted c2 (rows_gone L tm) tm tms); [exact K2|by apply lists_short_gone|exact Hr| |done| | | | | |].
  - change (has_flag (stop_timer c tm) tm RT_TIMER_FLAG_SOFT_TIMER = false). by rewrite stop_timer_flag.
  - change (0 <= tm_init_tick (k_timers c tm) < RT_TICK_MAX / 2). lia.
  - change (timer_activated (stop_timer c tm) tm = false). by rewrite stop_timer_activated, upd_eq.
  - by apply rows_gone_first.
  - eapply expiry_tail. exact C4.
  - intros x Hx. apply C5. by right.
  - intros A B k lk' l1 l2 El Hk Hrows c' L' K3 HL' Hleft _ _ Hs Hw. wp1.
    assert (fired c tm c') as Hf.
    { split; try done.
      - intros x Hx. unfold c', activated_core, armed; ksimpl. by rewrite upd_ne.
      - unfold c', activated_core, armed; ksimpl. by rewrite upd_eq.
      - unfold c', activated_core, armed; ksimpl. by rewrite upd_eq.
      - intros o Ho. unfold c', activated_core, armed, c2, stop_timer; ksimpl. by rewrite !upd_ne.
      - unfold c'. rewrite activated_flag by done. change (has_flag (stop_timer c tm) tm RT_TIMER_FLAG_SOFT_TIMER = has_flag c tm RT_TIMER_FLAG_SOFT_TIMER).
        by rewrite stop_timer_flag.
      - unfold periodic, c'. rewrite activated_flag by done.
        change (has_flag (stop_timer c tm) tm RT_TIMER_FLAG_PERIODIC = has_flag c tm RT_TIMER_FLAG_PERIODIC). by rewrite stop_timer_flag.
      - unfold c'. rewrite activated_core_act, upd_eq. by rewrite Hper. }
    split; [done|]. split; [done|]. exists L', (l1 ++ tm :: l2). split.
    + split; [exact K3| |exact HL'|exact Hs|exact Hw|].
      * intros soft xs HLs. destruct soft.
        -- apply (lists_short_gone L tm C2 true). unfold L', ins_rows in HLs. by rewrite decide_False in HLs by (by intros [? _]).
        -- rewrite HL' in HLs. injection HLs as <-. specialize (C2 _ _ C3). rewrite !length_fmap in *.
           rewrite El in C2. cbn in C2. rewrite length_app in *. cbn. lia.
      * intros x Hx. eapply fired_timer_ok; [exact Hf|]. apply C6. rewrite El. rewrite elem_of_app, elem_of_cons in Hx.
        rewrite elem_of_cons, elem_of_app. tauto.
    + intros x. rewrite El, !elem_of_app, elem_of_cons, Hper. tauto.
Qed.

Lemma wp_expire_user c L a tms :
  checking c L (TObj a :: tms) ->
  wp (timer_expire user_timeout (TObj a)) (fires c L (TObj a) tms) c.
Proof.
  intros H. set (tm := TObj a). destruct (ck_timers _ _ _ H tm ltac:(by left)) as ((f & Hfu) & Hso & Hin).
  unfold timer_expire. wp1. eapply wp_expire_prefix; [exact H|]. intros lk K1 K2 Hn Ha Hr Hoff.
  wp1. unfold call_timeout. do 2 wp1. ksimpl. fold tm. rewrite Hfu. unfold wp at 1. rewrite user_timeout_returns.
  do 2 wp1. do 2 wp1. do 2 wp1. do 2 wp1. change (has_flag (set_k_links lk c) tm RT_TIMER_FLAG_PERIODIC) with (periodic c tm).
  change (timer_activated (set_k_links lk c) tm) with (timer_activated c tm). rewrite Ha, andb_true_r.
  change (set_k_objs _ (set_k_links lk c)) with (set_k_links lk (stop_timer c tm)). wp1.
  destruct (periodic c tm) eqn:Hper.
  - eapply wp_mono; [by apply (wp_expire_periodic c L a tms)|]. intros u c1 Hf. by wp1.
  - wp1. wp1. set (c2 := set_k_links lk (stop_timer c tm)) in *.
    assert (fired c tm c2) as Hf.
    { split; try done.
      - intros o Ho. unfold c2, stop_timer; ksimpl. by rewrite upd_ne.
      - change (has_flag (stop_timer c tm) tm RT_TIMER_FLAG_SOFT_TIMER = has_flag c tm RT_TIMER_FLAG_SOFT_TIMER). by rewrite stop_timer_flag.
      - change (has_flag (stop_timer c tm) tm RT_TIMER_FLAG_PERIODIC = has_flag c tm RT_TIMER_FLAG_PERIODIC). by rewrite stop_timer_flag.
      - change (timer_activated (stop_timer c tm) tm = periodic c tm). by rewrite stop_timer_activated, upd_eq, Hper.
      - by rewrite Hper. }
    split; [done|]. split; [done|]. exists (rows_gone L tm), tms. split; [by eapply checking_fired|].
    intros x. rewrite Hper. split; [auto|]. by intros [?|[_ ?]].
Qed.
Lemma wp_timer_expire c L tm tms :
  checking c L (tm :: tms) -> wp (timer_expire user_timeout tm) (fires c L tm tms) c.
Proof. destruct tm; [apply wp_expire_thread|apply wp_expire_user]. Qed.

(** ** The check *)
Record checked (c : kcore) (tms : list timer_id) (c' : kcore) (tms' : list timer_id) : Prop := {
  ch_tick : k_rt_tick c' = k_rt_tick c;
  ch_mem : forall x, x ∈ tms' <-> x ∈ tms /\ (~ due c x \/ periodic c x = true);
  ch_left : forall x, x ∈ tms' -> ~ due c' x;
  ch_keep : forall x, x ∈ tms -> ~ due c x -> ticks_left c' x = ticks_left c x;
  ch_periodic : forall x, x ∈ tms -> due c x -> periodic c x = true -> ticks_left c' x = tm_init_tick (k_timers c x);
  ch_oneshot : forall x, x ∈ tms -> due c x -> periodic c x = false -> timer_activated c' x = false;
  ch_threads : forall t, k_threads c' t =
    if decide (TThread t ∈ tms /\ due c (TThread t)) then thread_woken (k_threads c t) else k_threads c t;
  ch_frame : forall x, x ∉ tms -> k_timers c' x = k_timers c x /\ k_objs c' (OTimer x) = k_objs c (OTimer x)
}.
Lemma checked_none c tms : (forall x, x ∈ tms -> ~ due c x) -> checked c tms c tms.
Proof.
  intros H. split; try done.
  - intros x. split; [|by intros [? _]]. auto.
  - intros x Hx Hd. by destruct (H x Hx).
  - intros x Hx Hd. by destruct (H x Hx).
  - intros t. rewrite decide_False; [done|]. intros [Ht Hd]. by apply (H _ Ht).
Qed.

(** The number of due timers, which every round of the loop decreases. *)
Definition due_count (c : kcore) (tms : list timer_id) : nat := length (filter (due c) tms).
Lemma due_head_sorted c tm tms : expiry_sorted c (tm :: tms) -> ~ due c tm -> forall x, x ∈ tm :: tms -> ~ due c x.
Proof.
  unfold due. inversion 1 as [|? ? H1 H2]; subst. rewrite Forall_forall in H2. intros Hd x [->|Hx]%elem_of_cons; [done|].
  specialize (H2 x Hx). lia.
Qed.

Lemma checking_NoDup c L tms : checking c L tms -> NoDup tms.
Proof.
  intros H. pose proof (rep_NoDup _ _ _ _ (kinv_rep _ _ (ck_inv _ _ _ H)) (ck_list _ _ _ H)) as Hnd.
  by apply NoDup_fmap_1 in Hnd.
Qed.
Lemma fired_due c tm c1 x : fired c tm c1 -> x <> tm -> due c1 x <-> due c x.
Proof. intros Hf Hx. unfold due. by rewrite (fired_left _ _ _ _ Hf Hx). Qed.
Lemma fired_periodic c tm c1 x : fired c tm c1 -> periodic c1 x = periodic c x.
Proof.
  intros Hf. destruct (decide (x = tm)) as [->|Hne]; [exact (fi_periodic _ _ _ Hf)|].
  unfold periodic, has_flag. by rewrite (fi_objs _ _ _ Hf) by congruence.
Qed.
Lemma fired_not_due c tm c1 : fired c tm c1 -> (periodic c tm = true -> 0 < tm_init_tick (k_timers c tm)) ->
  periodic c tm = true -> ~ due c1 tm.
Proof. intros Hf Hi Hp. unfold due. rewrite (fi_left _ _ _ Hf Hp). specialize (Hi Hp). lia. Qed.

Lemma due_count_fired c L tm tms c1 L1 tms1 :
  checking c L (tm :: tms) -> due c tm -> fired c tm c1 -> (periodic c tm = true -> ~ due c1 tm) -> checking c1 L1 tms1 ->
  (forall x, x ∈ tms1 <-> x ∈ tms \/ (x = tm /\ periodic c tm = true)) ->
  (due_count c1 tms1 < due_count c (tm :: tms))%nat.
Proof.
  intros H Hd Hf Hnd H1 Hmem. unfold due_count. rewrite filter_cons, decide_True by done. cbn [length]. apply Nat.lt_succ_r.
  apply submseteq_length, NoDup_submseteq; [by apply NoDup_filter, (checking_NoDup _ _ _ H1)|].
  intros x [Hx Hin]%list_elem_of_filter. apply list_elem_of_filter.
  destruct (decide (x = tm)) as [->|Hne]; [|split; [by apply (fired_due _ _ _ _ Hf Hne)|]; apply Hmem in Hin; tauto].
  apply Hmem in Hin as [Hin|[_ Hp]]; [|by destruct (Hnd Hp)].
  pose proof (checking_NoDup _ _ _ H) as [Hn _]%NoDup_cons. done.
Qed.

Lemma checked_fired c tm tms c1 tms1 c' tms' :
  due c tm -> tm ∉ tms -> fired c tm c1 -> (periodic c tm = true -> ~ due c1 tm) ->
  (forall x, x ∈ tms1 <-> x ∈ tms \/ (x = tm /\ periodic c tm = true)) ->
  checked c1 tms1 c' tms' -> checked c (tm :: tms) c' tms'.
Proof.
  intros Hd Hn Hf Hnd Hmem [D1 D2 D3 D4 D5 D6 D7 D8].
  assert (forall x, x ∈ tms -> x <> tm /\ x ∈ tms1) as Hin by (intros x Hx; split; [by intros ->|apply Hmem; auto]).
  assert (periodic c tm = false -> tm ∉ tms1) as Hout by (intros E [?|[_ ?]]%Hmem; congruence).
  split.
  - by rewrite D1, (fi_tick _ _ _ Hf).
  - intros x. rewrite D2, Hmem, elem_of_cons, (fired_periodic _ _ _ _ Hf). destruct (decide (x = tm)) as [->|Hne].
    + split; [intros [[?|[_ Hp]] _]; [done|split; [by left|by right]]|].
      intros [_ [?|Hp]]; [done|]. split; [by right|by right].
    + rewrite (fired_due _ _ _ _ Hf Hne). tauto.
  - exact D3.
  - intros x [->|Hx]%elem_of_cons Hx'; [done|]. destruct (Hin x Hx) as [Hne Hx1].
    rewrite D4; [by apply (fired_left _ _ _ _ Hf)|done|]. by rewrite (fired_due _ _ _ _ Hf Hne).
  - intros x [->|Hx]%elem_of_cons Hx' Hp.
    + rewrite D4; [by apply (fi_left _ _ _ Hf)|apply Hmem; auto|auto].
    + destruct (Hin x Hx) as [Hne Hx1]. rewrite D5; [by rewrite (fi_timers _ _ _ Hf)|done| |by rewrite (fired_periodic _ _ _ _ Hf)].
      by apply (fired_due _ _ _ _ Hf Hne).
  - intros x [->|Hx]%elem_of_cons Hx' Hp.
    + unfold timer_activated. destruct (D8 tm (Hout Hp)) as [_ ->]. rewrite <- Hp. apply (fi_active _ _ _ Hf).
    + destruct (Hin x Hx) as [Hne Hx1]. apply D6; [done| |by rewrite (fired_periodic _ _ _ _ Hf)].
      by apply (fired_due _ _ _ _ Hf Hne).
  - intros t. rewrite D7, !(fi_threads _ _ _ Hf t). destruct (decide (tm = TThread t)) as [->|Hne].
    + rewrite (decide_True (P := _ ∈ _ :: _ /\ _)) by (split; [by left|done]). rewrite decide_False; [done|].
      intros [[Hx|[_ Hp]]%Hmem Hx']; [done|]. by apply Hnd.
    + destruct (decide (TThread t ∈ tms1 /\ due c1 (TThread t))) as [[Hx Hx']|Hx].
      * rewrite decide_True; [done|]. apply (fired_due _ _ _ _ Hf (not_eq_sym Hne)) in Hx'. split; [|done].
        apply Hmem in Hx as [Hx|[Hx _]]; [by right|congruence].
      * rewrite decide_False; [done|]. intros [[?|Ht]%elem_of_cons Hdt]; [congruence|]. apply Hx.
        split; [apply Hmem; auto|]. by apply (fired_due _ _ _ _ Hf (not_eq_sym Hne)).
  - intros x [Hne Hx]%not_elem_of_cons. destruct (D8 x) as [-> ->]; [intros [?|[? _]]%Hmem; congruence|].
    by rewrite (fi_timers _ _ _ Hf), (fi_objs _ _ _ Hf) by congruence.
Qed.

Lemma wp_timer_check_loop fuel : forall c L tms,
  checking c L tms -> (due_count c tms < fuel)%nat ->
  wp (timer_check_loop user_timeout fuel (k_rt_tick c)) (fun _ c' => exists L' tms', checking c' L' tms' /\ checked c tms c' tms') c.
Proof.
  induction fuel as [|fuel IH]; intros c L tms H Hfuel; [lia|]. cbn [timer_check_loop].
  fold last_row. do 2 wp1. rewrite (rep_isempty _ _ _ _ (kinv_rep _ _ (ck_inv _ _ _ H)) (ck_list _ _ _ H)).
  destruct tms as [|tm tms].
  { rewrite bool_decide_true by done. wp1. exists L, []. split; [done|]. apply checked_none. intros x Hx. by apply elem_of_nil in Hx. }
  rewrite bool_decide_false by done. do 2 wp1. rewrite (rep_next_head _ _ _ _ (kinv_rep _ _ (ck_inv _ _ _ H)) (ck_list _ _ _ H)).
  cbn [fmap list_fmap hd row rt_timer_entry]. rewrite decide_True by done. wp1. wp1. do 2 wp1.
  rewrite due_test by (apply (ck_window _ _ _ H); by left). case_bool_decide as Hd.
  - wp1. eapply wp_mono; [by apply wp_timer_expire|]. intros now c1 (-> & Hf & L1 & tms1 & H1 & Hmem).
    pose proof (checking_NoDup _ _ _ H) as [Hn _]%NoDup_cons.
    assert (periodic c tm = true -> ~ due c1 tm) as Hnd.
    { intros Hp. eapply fired_not_due; [exact Hf| |done]. intros _. pose proof (ck_timers _ _ _ H tm ltac:(by left)) as Hok.
      destruct tm as [t|a]; [|destruct Hok as (_ & _ & Hok); by apply Hok].
      exfalso.
      assert (thread_stat c t = RT_THREAD_SUSPEND) as Ht.
      { eapply (lo_timed _ _ _ (ki_lists _ _ (ck_inv _ _ _ H))); [exact (ck_list _ _ _ H)|]. by left. }
      pose proof (thread_timer_one_shot _ _ (ki_timer _ _ (ck_inv _ _ _ H) t (or_intror Ht))). congruence. }
    rewrite <- (fi_tick _ _ _ Hf). eapply wp_mono.
    + eapply (IH c1 L1 tms1 H1). pose proof (due_count_fired _ _ _ _ _ _ _ H Hd Hf Hnd H1 Hmem). lia.
    + intros _ c' (L' & tms' & H' & Hch). exists L', tms'. split; [done|]. by eapply checked_fired.
  - wp1. exists L, (tm :: tms). split; [done|]. apply checked_none. eapply due_head_sorted; [exact (ck_sorted _ _ _ H)|done].
Qed.

Lemma wp_timer_check c L tms fuel :
  checking c L tms -> (length tms < fuel)%nat ->
  wp (rt_timer_check user_timeout fuel) (fun _ c' => exists L' tms', checking c' L' tms' /\ checked c tms c' tms') c.
Proof.
  intros H Hf. unfold rt_timer_check. do 2 wp1. eapply wp_timer_check_loop; [exact H|].
  unfold due_count. pose proof (length_filter (due c) tms). lia.
Qed.
(** C17 rt_timer_check terminates and fires exactly the due timers: every thread whose
    timer is due becomes READY with the error code -RT_ETIMEOUT, every periodic timer
    that is due is started again for its full period, every other due timer is no
    longer active, the timers that are not due keep their expiry, and the list stays
    sorted by expiry and holds no due timer any more. *)
Theorem rt_timer_check_fires_due c L tms fuel :
  checking c L tms -> (length tms < fuel)%nat ->
  exists c' L' tms', rt_timer_check user_timeout fuel c = Some (tt, c') /\
    checking c' L' tms' /\ checked c tms c' tms'.
Proof.
  intros H Hf. pose proof (wp_timer_check c L tms fuel H Hf) as ([] & c' & E & L' & tms' & H')%wp_run. by exists c', L', tms'.
Qed.
End timer_check.
