(* ===== verification/Clock.v ===== *)
(** System tick (src/clock.c), interrupt nesting (src/irq.c), idle thread
    (src/idle.c). *)
From S2P Require Import Prelude RtList Kservice Kernel Scheduler Object TimerCore Invariant Thread Timer TimerCheck.

Section clock.
Context {cfg : Config} {kh : KHeap} {sz : ObjectSizes} {st : StaticThreads}.
Context (user_timeout : Z -> Z -> M kcore unit).

(** ** clock.c *)
Definition rt_tick_get (c : kcore) : Z := k_rt_tick c.
Definition rt_tick_set (tick : Z) : M kcore unit := modify (set_k_rt_tick tick).

(** The accounting of the running thread's time slice; at its end it yields. *)
Definition account_slice : M kcore unit :=
  t ← current_thread;
  mod_thread t (fun th => set_th_remaining_tick (uint32 (th_remaining_tick th - 1)) th) ;;
  th ← thread t;
  (if th_remaining_tick th =? 0 then
     mod_thread t (set_th_remaining_tick (th_init_tick th)) ;;
     _ ← rt_thread_yield; mret tt
   else mret tt).
Definition rt_tick_increase (fuel : nat) : M kcore unit :=
  modify (fun c => set_k_rt_tick (uint32 (k_rt_tick c + 1)) c) ;;
  account_slice ;;
  rt_timer_check user_timeout fuel.

(** The product and the sum are 32-bit. *)
Definition rt_tick_from_millisecond (ms : Z) : Z :=
  uint32 (RT_TICK_PER_SECOND * ms + 999) / 1000.

(** ** irq.c *)
Definition rt_interrupt_enter : M kcore unit :=
  modify (fun c => set_k_interrupt_nest (uint8 (k_interrupt_nest c + 1)) c).
Definition rt_interrupt_leave : M kcore unit :=
  modify (fun c => set_k_interrupt_nest (uint8 (k_interrupt_nest c - 1)) c).
Definition rt_interrupt_get_nest (c : kcore) : Z := k_interrupt_nest c.

(** ** idle.c *)
(** What a thread's cleanup function (at an address) does to the thread. *)
Context (user_cleanup : Z -> Z -> M kcore unit).

(** One round of the loop on the defunct list; the result tells whether the
    function returns. *)
Definition idle_reap_one : M kcore bool :=
  RT_DEBUG_NOT_IN_INTERRUPT ;;
  empty ← gets (fun c => rt_list_isempty (k_links c) LDefunct);
  if (empty : bool) then mret true
  else
    n ← gets (fun c => l_next (k_links c) LDefunct);
    t ← rt_thread_entry n;
    mod_links (fun l => rt_list_remove l (LTlist t)) ;;
    th ← thread t;
    match th_cleanup th with Some f => user_cleanup f t | None => mret tt end ;;
    sys ← rt_object_is_systemobject (OThread t);
    if (sys : bool) then mret true
    else
      th ← thread t;
      RT_KERNEL_FREE (th_stack_addr th) ;;
      rt_object_delete (OThread t) ;;
      mret false.

Fixpoint rt_thread_idle_excute (fuel : nat) : M kcore unit :=
  match fuel with
  | O => diverge
  | S fuel =>
    empty ← gets (fun c => rt_list_isempty (k_links c) LDefunct);
    if (empty : bool) then mret tt
    else
      ret ← idle_reap_one;
      if (ret : bool) then mret tt else rt_thread_idle_excute fuel
  end.

Definition rt_thread_idle_init : M kcore unit :=
  _ ← rt_thread_init idle idle_name idle_entry 0 (Some idle_stack) idle_stack_size
    (uint8 (RT_THREAD_PRIORITY_MAX - 1)) 32;
  _ ← rt_thread_startup idle;
  mret tt.
End clock.

(** ** Properties *)
Section clock_props.
Context {cfg : Config} {kh : KHeap} {sz : ObjectSizes} {st : StaticThreads}.
Context (user_timeout : Z -> Z -> M kcore unit).
Hypothesis user_timeout_returns : forall f a c, user_timeout f a c = Some (tt, c).
Implicit Types (L : lnode -> option (list lnode)).

(** The time slice of the running thread after one more tick. *)
Definition slice_left (th : rt_thread) : Z := uint32 (th_remaining_tick th - 1).
Definition tick_slice (th : rt_thread) : rt_thread :=
  set_th_remaining_tick (if slice_left th =? 0 then th_init_tick th else slice_left th) th.

Lemma checking_frame c c' L L' tms :
  checking c L tms -> kinv c' L' -> (forall soft, L' (LTimerHead soft last_row) = L (LTimerHead soft last_row)) ->
  k_timers c' = k_timers c -> k_objs c' = k_objs c -> k_rt_tick c' = k_rt_tick c -> checking c' L' tms.
Proof.
  intros [C1 C2 C3 C4 C5 C6] Hk HL Et Eo En.
  assert (forall x, ticks_left c' x = ticks_left c x) as El by (intros x; unfold ticks_left; by rewrite Et, En).
  split; [done|by eapply lists_short_ext|by rewrite HL|by eapply expiry_sorted_ext; [intros; apply El|]| |].
  - intros x Hx. rewrite El. auto.
  - intros x Hx. specialize (C6 x Hx). unfold timer_ok, periodic, has_flag in *. by rewrite Et, Eo.
Qed.
Lemma ticks_left_tick c x : 0 < ticks_left c x < RT_TICK_MAX / 2 ->
  ticks_left (set_k_rt_tick (uint32 (k_rt_tick c + 1)) c) x = ticks_left c x - 1.
Proof.
  unfold ticks_left; ksimpl. change (RT_TICK_MAX / 2) with 2147483647. set (a := tm_timeout_tick _). set (n := k_rt_tick c).
  intros Hx. unfold sint, uint in *. rewrite (Z.mod_eq (n + 1)) by lia. set (q := (n + 1) / 2 ^ 32).
  replace (a - (n + 1 - 2 ^ 32 * q) + 2 ^ (32 - 1)) with (a - n + 2 ^ (32 - 1) - 1 + q * 2 ^ 32) by lia.
  rewrite Z_mod_plus_full, <- Zminus_mod_idemp_l. set (r := (a - n + 2 ^ (32 - 1)) mod 2 ^ 32) in *. rewrite Z.mod_small; lia.
Qed.
Lemma checking_tick c L tms :
  checking c L tms -> (forall x, x ∈ tms -> ~ due c x) ->
  checking (set_k_rt_tick (uint32 (k_rt_tick c + 1)) c) L tms.
Proof.
  intros [C1 C2 C3 C4 C5 C6] Hd. set (c1 := set_k_rt_tick _ c).
  assert (forall x, x ∈ tms -> ticks_left c1 x = ticks_left c x - 1) as El.
  { intros x Hx. apply ticks_left_tick. specialize (Hd x Hx). specialize (C5 x Hx). unfold due in Hd. lia. }
  assert (kinv c1 L) as Hk by (eapply kinv_relink; [exact C1|exact (kinv_rep _ _ C1)|done..|exact (ki_lists _ _ C1)|done]).
  split; [done|done|done| | |done].
  - clear - C4 El. unfold expiry_sorted in *. induction tms as [|x tms IH]; [constructor|].
    inversion C4 as [|? ? H1 H2]; subst. constructor; [apply IH; [done|]; intros; apply El; by right|].
    rewrite Forall_forall in H2 |- *. intros y Hy. rewrite !El by (by left || by right). specialize (H2 y Hy). lia.
  - intros x Hx. rewrite El by done. specialize (Hd x Hx). specialize (C5 x Hx). unfold due in Hd. lia.
Qed.

Lemma soft_remaining n : soft_field (set_th_remaining_tick n). Proof. by repeat split. Qed.
Lemma wp_mod_thread t f c Q : Q tt (with_thread t f c) -> wp (mod_thread t f) Q c.
Proof. done. Qed.
Lemma checking_with_thread c L tms t f : soft_field f -> checking c L tms -> checking (with_thread t f c) L tms.
Proof. intros Hf H. eapply checking_frame; [exact H|by apply kinv_with_thread, H|done..]. Qed.

Lemma wp_account_slice c L tms t :
  checking c L tms -> k_current_thread c = Some t -> thread_stat c t = RT_THREAD_READY ->
  wp account_slice (fun _ c' => exists L', checking c' L' tms /\ k_rt_tick c' = k_rt_tick c /\ k_timers c' = k_timers c /\
    k_objs c' = k_objs c /\
    forall u, k_threads c' u = if decide (u = t) then tick_slice (k_threads c t) else k_threads c u) c.
Proof.
  intros H Hcur Hr. unfold account_slice, current_thread. do 3 wp1. rewrite Hcur. wp1. wp1. apply wp_mod_thread. do 2 wp1.
  set (c1 := with_thread t _ c).
  assert (th_remaining_tick (k_threads c1 t) = slice_left (k_threads c t)) as El by (unfold c1, with_thread; ksimpl; by rewrite upd_eq).
  rewrite El. assert (checking c1 L tms) as H1 by (apply checking_with_thread; [by repeat split|done]).
  destruct (slice_left (k_threads c t) =? 0) eqn:E0.
  - wp1. apply wp_mod_thread. set (c2 := with_thread t _ c1).
    assert (checking c2 L tms) as H2 by (apply checking_with_thread; [apply soft_remaining|done]).
    assert (thread_stat c2 t = RT_THREAD_READY) as Hr2.
    { unfold c2. rewrite with_thread_stat by apply soft_remaining. unfold c1. by rewrite with_thread_stat by (by repeat split). }
    destruct (kinv_queue _ _ t (ck_inv _ _ _ H2) ltac:(by left)) as (ts & HL & Hts).
    pose proof (proj2 Hts Hr2) as (us & vs & ->)%list_elem_of_split.
    assert (forall u, k_threads c2 u = if decide (u = t) then tick_slice (k_threads c t) else k_threads c u) as Eth.
    { intros u. unfold c2, c1, with_thread; ksimpl. rewrite !upd_case. unfold tick_slice. rewrite E0.
      repeat case_decide; try congruence; by subst. }
    wp1. eapply (wp_thread_yield c2 L t us vs); [apply H2|exact Hcur|exact Hr2|exact HL| |].
    + intros _ _. wp1. exists L. split_and!; try done.
    + intros lk c' L' (cur & prio & sw & ->) Hk _. wp1. exists L'. split_and!; try done.
      eapply checking_frame; [exact H2|exact Hk| |done..]. intros soft. unfold L', ins_ready. rewrite !upd_ne by done.
      apply unlink_thread_head; [apply (lo_typed _ _ _ (ki_lists _ _ (ck_inv _ _ _ H2)))|done|]. intros x. by destruct x.
  - wp1. exists L. split_and!; try done. intros u. unfold c1, with_thread; ksimpl. rewrite upd_case. unfold tick_slice. rewrite E0.
    repeat case_decide; try congruence; by subst.
Qed.

(** The state [c2] between the accounting and the check. *)
Definition ticked (c : kcore) (t : Z) (c2 : kcore) : Prop :=
  k_rt_tick c2 = uint32 (k_rt_tick c + 1) /\ k_timers c2 = k_timers c /\ k_objs c2 = k_objs c /\
  forall u, k_threads c2 u = if decide (u = t) then tick_slice (k_threads c t) else k_threads c u.
Lemma ticked_left c t c2 L tms x : checking c L tms -> ticked c t c2 -> x ∈ tms -> ~ due c x -> ticks_left c2 x = ticks_left c x - 1.
Proof.
  intros H (En & Et & _) Hx Hd. rewrite <- ticks_left_tick by (pose proof (ck_window _ _ _ H x Hx); unfold due in *; lia).
  unfold ticks_left; ksimpl. by rewrite En, Et.
Qed.
Lemma ticked_periodic c t c2 x : ticked c t c2 -> periodic c2 x = periodic c x.
Proof. intros (_ & _ & Eo & _). unfold periodic, has_flag. by rewrite Eo. Qed.
Lemma wp_tick_increase c L tms t fuel :
  checking c L tms -> (forall x, x ∈ tms -> ~ due c x) -> k_current_thread c = Some t -> thread_stat c t = RT_THREAD_READY ->
  (length tms < fuel)%nat ->
  wp (rt_tick_increase user_timeout fuel) (fun _ c' => exists c2 L' tms', checking c' L' tms' /\ ticked c t c2 /\ checked c2 tms c' tms') c.
Proof.
  intros H Hd Hcur Hr Hfuel. set (c1 := set_k_rt_tick (uint32 (k_rt_tick c + 1)) c).
  pose proof (checking_tick _ _ _ H Hd) as H1. fold c1 in H1. unfold rt_tick_increase. do 2 wp1. fold c1. wp1.
  eapply wp_mono; [by apply (wp_account_slice c1 L tms t)|]. intros _ c2 (L2 & H2 & Hti).
  eapply wp_mono; [by apply (wp_timer_check _ user_timeout_returns c2 L2)|]. intros _ c' (L' & tms' & H' & Hch).
  by exists c2, L', tms'.
Qed.

(** rt_tick_increase advances the tick modulo 2^32, charges the running thread one
    tick of its slice (at its end the slice is refilled and the thread yields), and
    fires exactly the timers that had one tick left: their threads become READY with
    -RT_ETIMEOUT, their periodic timers start again. *)
Theorem rt_tick_increase_step c L tms t fuel :
  checking c L tms -> (forall x, x ∈ tms -> ~ due c x) -> k_current_thread c = Some t -> thread_stat c t = RT_THREAD_READY ->
  (length tms < fuel)%nat ->
  exists c' L' tms', rt_tick_increase user_timeout fuel c = Some (tt, c') /\ checking c' L' tms' /\
    k_rt_tick c' = uint32 (k_rt_tick c + 1) /\
    (forall x, x ∈ tms' <-> x ∈ tms /\ (ticks_left c x <> 1 \/ periodic c x = true)) /\
    (forall x, x ∈ tms' -> ~ due c' x) /\
    k_threads c' t = tick_slice (k_threads c t) /\
    (forall u, u <> t -> k_threads c' u =
       if decide (TThread u ∈ tms /\ ticks_left c (TThread u) = 1) then thread_woken (k_threads c u) else k_threads c u).
Proof.
  intros H Hd Hcur Hr Hfuel. pose proof (wp_tick_increase c L tms t fuel H Hd Hcur Hr Hfuel) as Hw.
  apply wp_run in Hw as ([] & c' & E & c2 & L' & tms' & H' & Ht & [D1 D2 D3 D4 D5 D6 D7 D8]).
  assert (forall x, x ∈ tms -> due c2 x <-> ticks_left c x = 1) as Hdue.
  { intros x Hx. unfold due. rewrite (ticked_left _ _ _ _ _ _ H Ht Hx (Hd x Hx)). pose proof (Hd x Hx). unfold due in *. lia. }
  pose proof (fun x => ticked_periodic _ _ _ x Ht) as Hper. destruct Ht as (En & Et & Eo & Eth).
  exists c', L', tms'. split; [done|]. split; [done|]. split; [by rewrite D1|]. split.
  { intros x. rewrite D2, Hper. split; intros [Hx Hx']; (split; [done|]); rewrite (Hdue x Hx) in *; done. }
  split; [done|]. split.
  - rewrite D7, decide_False; [by rewrite Eth, decide_True|]. intros [Hx _].
    pose proof (list_elem_of_fmap_2 (row last_row) _ _ Hx) as Hx'.
    pose proof (lo_timed _ _ _ (ki_lists _ _ (ck_inv _ _ _ H)) _ _ _ t (ck_list _ _ _ H) Hx') as Hs. by rewrite Hr in Hs.
  - intros u Hu. rewrite D7, Eth, (decide_False (P := u = t)) by done. destruct (decide (TThread u ∈ tms)) as [Hin|Hin].
    + specialize (Hdue _ Hin). repeat case_decide; tauto.
    + rewrite !decide_False by tauto. done.
Qed.

(** rt_tick_from_millisecond rounds the tick count up, as long as the 32-bit product
    does not overflow. *)
Theorem rt_tick_from_millisecond_ceil ms :
  0 <= ms -> 0 < RT_TICK_PER_SECOND -> RT_TICK_PER_SECOND * ms + 999 < 2 ^ 32 ->
  (rt_tick_from_millisecond ms - 1) * 1000 < RT_TICK_PER_SECOND * ms <= rt_tick_from_millisecond ms * 1000.
Proof.
  intros Hm Hp Hb. unfold rt_tick_from_millisecond. rewrite uint_small by nia.
  pose proof (Z.div_mod (RT_TICK_PER_SECOND * ms + 999) 1000 ltac:(lia)).
  pose proof (Z.mod_pos_bound (RT_TICK_PER_SECOND * ms + 999) 1000 ltac:(lia)). lia.
Qed.
End clock_props.
