(* ===== verification/Ipc.v ===== *)
(** Waiting lists of the IPC objects (src/ipc.c, the rt_ipc functions): suspending the current
    thread on a list, first come first served or by priority, and waking threads. *)
From Stdlib Require Import Sorted.
From S2P Require Import Prelude RtList Kservice Kernel Scheduler Object TimerCore Invariant Thread Timer.

(** A blocking call: it returned, or it waits for the processor with the local
    variables [P] it needs when it goes on. *)
Inductive outcome (P A : Type) : Type :=
| Returned (a : A)
| Waiting (p : P).
Arguments Returned {P A} a.
Arguments Waiting {P A} p.

Section ipc.
Context {cfg : Config} {kh : KHeap} {sz : ObjectSizes} {st : StaticThreads}.

Definition rt_ipc_object_init (o : oid) : M kcore Z :=
  mod_links (fun l => rt_list_init l (LSuspend o)) ;;
  mret RT_EOK.

(** The search for the first thread of lower priority, and the insertion. *)
Fixpoint prio_insert (fuel : nat) (list : lnode) (t : Z) (n : lnode) : M kcore unit :=
  match fuel with
  | O => diverge
  | S fuel =>
    if decide (n = list) then mod_links (fun l => rt_list_insert_before l list (LTlist t))
    else
      sthread ← rt_thread_entry n;
      th ← thread t;
      sth ← thread sthread;
      if th_current_priority th <? th_current_priority sth then
        mod_links (fun l => rt_list_insert_before l (LTlist sthread) (LTlist t))
      else
        n ← gets (fun c => l_next (k_links c) n);
        prio_insert fuel list t n
  end.

Definition rt_ipc_list_suspend (list : lnode) (t flag : Z) : M kcore Z :=
  _ ← rt_thread_suspend t;
  (if flag =? RT_IPC_FLAG_FIFO then
     mod_links (fun l => rt_list_insert_before l list (LTlist t))
   else if flag =? RT_IPC_FLAG_PRIO then
     n ← gets (fun c => l_next (k_links c) list);
     prio_insert loop_fuel list t n
   else mret tt) ;;
  mret RT_EOK.

Definition rt_ipc_list_resume (list : lnode) : M kcore Z :=
  n ← gets (fun c => l_next (k_links c) list);
  t ← rt_thread_entry n;
  _ ← rt_thread_resume t;
  mret RT_EOK.

Fixpoint resume_all_loop (fuel : nat) (list : lnode) : M kcore unit :=
  match fuel with
  | O => diverge
  | S fuel =>
    empty ← gets (fun c => rt_list_isempty (k_links c) list);
    if (empty : bool) then mret tt
    else
      n ← gets (fun c => l_next (k_links c) list);
      t ← rt_thread_entry n;
      mod_thread t (set_th_error (- RT_ERROR)) ;;
      _ ← rt_thread_resume t;
      resume_all_loop fuel list
  end.
Definition rt_ipc_list_resume_all (list : lnode) : M kcore Z :=
  resume_all_loop loop_fuel list ;;
  mret RT_EOK.

(** [if (time > 0)]: set the thread's timer and start it. *)
Definition start_thread_timer (t time : Z) : M kcore unit :=
  if time >? 0 then
    _ ← rt_timer_control (TThread t) RT_TIMER_CTRL_SET_TIME time;
    _ ← rt_timer_start (TThread t);
    mret tt
  else mret tt.

(** The sequence shared by the blocking calls: suspend on the list, start the timer,
    switch. *)
Definition block_on (h : lnode) (t flag time : Z) : M kcore unit :=
  _ ← rt_ipc_list_suspend h t flag;
  start_thread_timer t time ;;
  rt_schedule.

(** parent.parent.flag of an object. *)
Definition object_flag (o : oid) : M kcore Z := ob ← object o; mret (ob_flag ob).

(** ** The waiting queue *)
Implicit Types (L : lnode -> option (list lnode)).
(** The queue by priority: in front of the first thread of lower priority (a
    greater number). *)
Fixpoint prio_queue (prio : Z -> Z) (t : Z) (ws : list Z) : list Z :=
  match ws with
  | [] => [t]
  | w :: ws => if prio t <? prio w then t :: w :: ws else w :: prio_queue prio t ws
  end.
Definition enqueue (flag : Z) (prio : Z -> Z) (t : Z) (ws : list Z) : list Z :=
  if flag =? RT_IPC_FLAG_FIFO then ws ++ [t] else prio_queue prio t ws.
Definition prio_of (c : kcore) (t : Z) : Z := th_current_priority (k_threads c t).

Lemma prio_queue_elem prio t ws u : u ∈ prio_queue prio t ws <-> u = t \/ u ∈ ws.
Proof.
  induction ws as [|w ws IH]; cbn; [rewrite list_elem_of_singleton, elem_of_nil; tauto|].
  case_match; rewrite !elem_of_cons; [tauto|]. rewrite IH. tauto.
Qed.
Lemma enqueue_elem flag prio t ws u : u ∈ enqueue flag prio t ws <-> u = t \/ u ∈ ws.
Proof.
  unfold enqueue. case_match; [|apply prio_queue_elem]. rewrite elem_of_app, list_elem_of_singleton. tauto.
Qed.
(** A queue ordered by priority stays ordered, first come first served among equals. *)
Lemma prio_queue_sorted prio t ws :
  StronglySorted (fun a b => prio a <= prio b) ws -> StronglySorted (fun a b => prio a <= prio b) (prio_queue prio t ws).
Proof.
  induction ws as [|w ws IH]; cbn; intros Hs; [repeat constructor|].
  inversion Hs as [|? ? H1 H2]; subst. rewrite Forall_forall in H2.
  destruct (Z.ltb_spec (prio t) (prio w)); constructor; auto; rewrite Forall_forall.
  - intros u [->|Hu]%elem_of_cons; [lia|]. specialize (H2 u Hu). lia.
  - intros u [->|Hu]%prio_queue_elem; [lia|auto].
Qed.

Lemma rep_prio_insert c L h t ws2 :
  rep (k_links c) L -> free_node L (LTlist t) -> (forall u, h <> LTlist u) ->
  forall fuel ws1 Q, L h = Some (LTlist <$> (ws1 ++ ws2)) -> (length ws2 < fuel)%nat ->
  (forall lk, rep lk (ins L (LTlist t) h (LTlist <$> (ws1 ++ prio_queue (prio_of c) t ws2))) -> Q tt (set_k_links lk c)) ->
  wp (prio_insert fuel h t (hd h (LTlist <$> ws2))) Q c.
Proof.
  intros Hrep Hf Hh. induction ws2 as [|w ws2 IH]; intros fuel ws1 Q HL Hlen HQ;
    (destruct fuel as [|fuel]; [cbn in Hlen; lia|]); cbn [prio_insert fmap list_fmap hd].
  - rewrite decide_True by done. wp_step. apply HQ. rewrite app_nil_r in HL. cbn [prio_queue].
    rewrite fmap_app. apply rep_insert_tail; [done|done|done|]. apply not_eq_sym, Hh.
  - rewrite decide_False by (apply not_eq_sym, Hh). cbn [rt_thread_entry]. wp_step. wp_step.
    do 2 (wp_step; wp_step; cbn beta). cbn [prio_queue] in HQ. fold (prio_of c t) (prio_of c w).
    rewrite fmap_app, fmap_cons in HL. destruct (prio_of c t <? prio_of c w).
    + wp_step. apply HQ. rewrite fmap_app, !fmap_cons. apply rep_insert_mid; [done|done|done|]. apply not_eq_sym, Hh.
    + do 2 wp_step. rewrite (rep_next_mid _ _ _ _ _ _ Hrep HL).
      apply (IH fuel (ws1 ++ [w])); [by rewrite <- app_assoc, fmap_app|cbn in Hlen; lia|].
      intros lk Hlk. apply HQ. by rewrite <- app_assoc in Hlk.
Qed.

(** The thread's node, off every list, goes on the waiting list. *)
Lemma kinv_wait c L h t ws ws' lk :
  kinv c L -> thread_stat c t = RT_THREAD_SUSPEND -> free_node L (LTlist t) -> wait_head h ->
  L h = Some (LTlist <$> ws) -> (forall u, u ∈ ws' <-> u = t \/ u ∈ ws) ->
  rep lk (ins L (LTlist t) h (LTlist <$> ws')) -> kinv (set_k_links lk c) (ins L (LTlist t) h (LTlist <$> ws')).
Proof.
  intros H Ht Hf Hh HL Hws Hlk. eapply kinv_relink; [exact H|done..| | |done].
  - intros p ts Hp _. rewrite ins_other; [done| |done]. by intros <-.
  - eapply lists_ok_ins; [exact (ki_lists _ _ H)|done|exact HL| |by destruct h|done].
    intros x. rewrite !list_elem_of_fmap. split.
    + intros (u & -> & [->|Hu]%Hws); eauto.
    + intros [->|(u & -> & Hu)]; [exists t|exists u]; (split; [done|]); apply Hws; auto.
Qed.

Lemma wp_ipc_list_suspend c L h t flag ws Q :
  kinv c L -> thread_stat c t = RT_THREAD_READY -> wait_head h -> L h = Some (LTlist <$> ws) ->
  flag = RT_IPC_FLAG_FIFO \/ flag = RT_IPC_FLAG_PRIO -> (length ws < loop_fuel)%nat ->
  (forall lk g tb, let c' := with_sched c lk (with_stat RT_THREAD_SUSPEND t c) g tb in
     let L' := ins (unlink L (LTlist t)) (LTlist t) h (LTlist <$> enqueue flag (prio_of c) t ws) in
     kinv c' L' -> Q RT_EOK c') ->
  wp (rt_ipc_list_suspend h t flag) Q c.
Proof.
  intros H Ht Hh HL Hflag Hlen HQ. assert (live (thread_stat c) t) as Hlt by (by left).
  assert (forall u, h <> LTlist u) as Hhu by (by intros u ->).
  unfold rt_ipc_list_suspend. wp_step. eapply wp_thread_suspend; [exact H|by rewrite Ht|].
  intros _ lk g tb c1 H1. set (L1 := unlink L (LTlist t)) in *.
  assert (free_node L1 (LTlist t)) as Hf by (eapply unlink_free; [exact (kinv_rep _ _ H)|by eapply kinv_on_list]).
  assert (thread_stat c1 t = RT_THREAD_SUSPEND) as Hs1 by (unfold c1; by rewrite thread_stat_with_sched, upd_eq).
  assert (L1 h = Some (LTlist <$> ws)) as HL1.
  { unfold L1. rewrite unlink_ne, HL by done. cbn. rewrite without_fmap by apply _. rewrite without_notin; [done|].
    intros Hin. pose proof (lo_wait _ _ _ (ki_lists _ _ H) h _ t Hh HL (proj2 (elem_of_LTlist _ _) Hin)) as E. by rewrite Ht in E. }
  assert (forall u, prio_of c1 u = prio_of c u) as Ep by (intros u; apply (same_prio_stat RT_THREAD_SUSPEND t c u)).
  assert (forall ws, prio_queue (prio_of c1) t ws = prio_queue (prio_of c) t ws) as Epq.
  { intros vs. induction vs as [|v vs IH]; cbn; [done|]. by rewrite !Ep, IH. }
  assert (forall lk', rep lk' (ins L1 (LTlist t) h (LTlist <$> enqueue flag (prio_of c) t ws)) ->
    Q RT_EOK (set_k_links lk' c1)) as Hend.
  { intros lk' Hlk. apply (HQ lk' g tb). apply (kinv_wait c1 L1 h t ws); try done. intros u. apply enqueue_elem. }
  wp_step. destruct Hflag as [-> | ->]; cbn [Z.eqb RT_IPC_FLAG_FIFO RT_IPC_FLAG_PRIO Pos.eqb].
  - wp_step. wp_step. apply Hend. unfold enqueue; cbn. rewrite fmap_app. 
    apply rep_insert_tail; [exact (kinv_rep _ _ H1)|done|done|]. apply not_eq_sym, Hhu.
  - do 2 wp_step. rewrite (rep_next_head _ _ _ _ (kinv_rep _ _ H1) HL1).
    apply (rep_prio_insert c1 L1 h t ws (kinv_rep _ _ H1) Hf Hhu loop_fuel []); [done|done|].
    intros lk' Hlk. wp_step. apply Hend. cbn in Hlk. by rewrite Epq in Hlk.
Qed.

(** ** Waking the first waiting thread *)
Lemma wp_ipc_list_resume c L h t ws Q :
  kinv c L -> wait_head h -> L h = Some (LTlist <$> (t :: ws)) ->
  (forall ts lk g tb, let c' := with_sched (stopped_core c t) lk (with_stat RT_THREAD_READY t c) g tb in
     let L' := resume_lists c L t ts in
     kinv c' L' -> L' h = Some (LTlist <$> ws) -> thread_stat c' t = RT_THREAD_READY -> Q RT_EOK c') ->
  wp (rt_ipc_list_resume h) Q c.
Proof.
  intros H Hh HL HQ. unfold rt_ipc_list_resume. do 2 wp_step. cbn beta.
  rewrite (rep_next_head _ _ _ _ (kinv_rep _ _ H) HL). cbn. wp_step. wp_step. wp_step.
  assert (thread_stat c t = RT_THREAD_SUSPEND) as Ht.
  { eapply (lo_wait _ _ _ (ki_lists _ _ H)); [exact Hh|exact HL|]. by left. }
  assert (NoDup (t :: ws)) as Hnd by (eapply NoDup_fmap_1, (rep_NoDup _ _ _ _ (kinv_rep _ _ H) HL)).
  eapply wp_thread_resume; [exact H|by rewrite Ht|]. intros _ ts lk g tb _ c' Hk. wp_step.
  apply (HQ ts lk g tb Hk).
  - rewrite (resume_lists_wait _ _ _ _ _ _ Hh HL). by rewrite without_hd.
  - unfold thread_stat; cbn. unfold with_stat. by rewrite upd_eq.
Qed.

(** ** Starting the timer of the thread that waits *)
Definition timer_started (c c' : kcore) : Prop :=
  k_threads c' = k_threads c /\ k_current_thread c' = k_current_thread c /\ k_lock_nest c' = k_lock_nest c /\
  k_interrupt_nest c' = k_interrupt_nest c /\ k_rt_tick c' = k_rt_tick c /\
  (forall o, (forall tm, o <> OTimer tm) -> k_objs c' o = k_objs c o).

Lemma land_sub f m k : Z.land f m = 0 -> Z.land m k = k -> Z.land f k = 0.
Proof. intros H <-. by rewrite Z.land_assoc, H. Qed.

Lemma wp_start_thread_timer c L t time Q :
  kinv c L -> thread_stat c t = RT_THREAD_SUSPEND -> lists_short L -> time < RT_TICK_MAX / 2 ->
  (forall c' L', kinv c' L' -> timer_started c c' -> (forall h, wait_head h -> L' h = L h) -> 
     (0 < time -> timer_activated c' (TThread t) = true) -> Q tt c') ->
  wp (start_thread_timer t time) Q c.
Proof.
  intros H Ht Hsh Htime HQ. unfold start_thread_timer. destruct (Z.gtb_spec time 0) as [Hpos|Hpos].
  2: { wp_step. apply (HQ c L); [done|by repeat split|done|lia]. }
  wp_step. change (wp (mod_timer (TThread t) (set_tm_init_tick (uint32 time)) ;; mret (RT_EOK, time)) 
    (fun a s' => wp (_ ← rt_timer_start (TThread t); mret tt) Q s') c).
  assert (live (thread_stat c) t) as Hlt by (by right).
  wp_step. wp_step. wp_step. rewrite (uint_small 32) by (change (RT_TICK_MAX / 2) with 2147483647 in *; lia).
  set (c1 := set_k_timers _ c).
  assert (forall u, thread_timer_ok c u -> thread_timer_ok c1 u) as Hto.
  { intros u (K1 & K2 & K3). unfold c1, thread_timer_ok; ksimpl. rewrite upd_case. case_decide as D; [|done]. by injection D as ->. }
  assert (kinv c1 L) as H1.
  { eapply kinv_relink; [exact H|exact (kinv_rep _ _ H)|done..|exact (ki_lists _ _ H)|done]. }
  wp_step. eapply (wp_timer_start_hard c1 L (TThread t)); [done|done| | | | | |].
  - by apply (kinv_rows_on c1).
  - unfold has_flag. apply negb_false_iff, Z.eqb_eq. destruct (ki_timer _ _ H t Hlt) as (_ & _ & Hf).
    eapply land_sub; [exact Hf|done].
  - by intros u [= <-].
  - unfold c1; ksimpl. by rewrite upd_eq.
  - intros Ha. wp_step. apply (HQ c1 L); [done|by repeat split|done|done].
  - intros Ha A B k lk Hk Hs c' Hk'. wp_step. eapply HQ; [exact Hk'| | |].
    + repeat split. intros o Ho. unfold c', activated_core, armed; ksimpl. by rewrite upd_ne by (by apply not_eq_sym, Ho).
    + intros h Hh. apply ins_rows_other; by destruct h.
    + intros _. unfold c'. by rewrite activated_core_act, upd_eq.
Qed.

(** ** Waking every waiting thread *)
(** What waking threads keeps of the rest of the core. *)
Definition core_same (c c' : kcore) : Prop :=
  k_current_thread c' = k_current_thread c /\ k_lock_nest c' = k_lock_nest c /\
  k_interrupt_nest c' = k_interrupt_nest c /\ k_rt_tick c' = k_rt_tick c /\
  (forall o, (forall tm, o <> OTimer tm) -> k_objs c' o = k_objs c o).
Lemma core_same_refl c : core_same c c.
Proof. by repeat split. Qed.
Lemma core_same_trans c1 c2 c3 : core_same c1 c2 -> core_same c2 c3 -> core_same c1 c3.
Proof.
  intros (A1 & A2 & A3 & A4 & A5) (B1 & B2 & B3 & B4 & B5). repeat split; try congruence.
  intros o Ho. by rewrite B5, A5.
Qed.
Lemma stopped_core_same c t lk thr g tb : core_same c (with_sched (stopped_core c t) lk thr g tb).
Proof.
  unfold stopped_core. case_match; [|by repeat split]. repeat split.
  intros o Ho. unfold stop_timer; cbn. by rewrite upd_ne by (by apply not_eq_sym, Ho).
Qed.
Lemma resume_lists_other c L t ts h us :
  typed L -> rep (k_links c) L -> L h = Some (LTlist <$> us) -> t ∉ us -> wait_head h -> resume_lists c L t ts h = L h.
Proof. intros Ht Hrep HL Hin Hh. rewrite (resume_lists_wait _ _ _ _ _ _ Hh HL), HL. by rewrite without_notin. Qed.

Lemma typed_threads L h xs : typed L -> wait_head h -> L h = Some xs -> exists ts, xs = LTlist <$> ts.
Proof.
  intros Ht Hh HL. assert (forall x, x ∈ xs -> node_in h x) as Hx by (intros; by eapply Ht). clear HL.
  induction xs as [|x xs IH]; [by exists []|]. destruct IH as [ts ->]; [intros; apply Hx; by right|].
  pose proof (Hx x ltac:(by left)) as Hn. destruct h; try done; destruct x; try done; by eexists (_ :: ts).
Qed.

Lemma wp_resume_all h ws : wait_head h ->
  forall fuel c L Q, kinv c L -> L h = Some (LTlist <$> ws) -> (length ws < fuel)%nat ->
  (forall c' L', kinv c' L' -> L' h = Some [] -> core_same c c' ->
     (forall u, u ∈ ws -> thread_stat c' u = RT_THREAD_READY /\ th_error (k_threads c' u) = - RT_ERROR) ->
     (forall u, u ∉ ws -> k_threads c' u = k_threads c u) ->
     (forall g us, wait_head g -> g <> h -> L g = Some us -> L' g = Some us) -> Q tt c') ->
  wp (resume_all_loop fuel h) Q c.
Proof.
  intros Hh. induction ws as [|t ws IH]; intros fuel c L Q H HL Hf HQ;
    (destruct fuel as [|fuel]; [cbn in Hf; lia|]); cbn [resume_all_loop]; do 2 wp_step; cbn beta;
    rewrite (rep_isempty _ _ _ _ (kinv_rep _ _ H) HL).
  - rewrite bool_decide_true by done. wp_step. apply (HQ c L); try done. by intros u ?%elem_of_nil.
  - rewrite bool_decide_false by done. do 2 wp_step. cbn beta. rewrite (rep_next_head _ _ _ _ (kinv_rep _ _ H) HL).
    cbn [hd fmap list_fmap rt_thread_entry]. wp_step. wp_step. do 2 wp_step.
    change (wp (_ ← rt_thread_resume t; resume_all_loop fuel h) Q (with_error (- RT_ERROR) t c)).
    set (c0 := with_error (- RT_ERROR) t c). assert (kinv c0 L) as H0 by (by apply kinv_error).
    assert (thread_stat c0 t = RT_THREAD_SUSPEND) as Ht0.
    { eapply (lo_wait _ _ _ (ki_lists _ _ H0)); [exact Hh|exact HL|]. by left. }
    assert (NoDup (t :: ws)) as Hnd by (eapply NoDup_fmap_1, (rep_NoDup _ _ _ _ (kinv_rep _ _ H) HL)).
    pose proof Hnd as [Hnt _]%NoDup_cons.
    wp_step. eapply wp_thread_resume; [exact H0|by rewrite Ht0|]. intros _ ts lk g tb _ c1 H1.
    assert (forall u, k_threads c1 u = if decide (u = t) then set_th_stat RT_THREAD_READY (set_th_error (- RT_ERROR) (k_threads c t)) else k_threads c u) as Eth.
    { intros u. unfold c1; cbn. unfold with_stat, c0, with_error; ksimpl. rewrite !upd_eq, !upd_case. 
      repeat case_decide; subst; try done. }
    eapply (IH fuel c1 _ Q H1); [|cbn in Hf; lia|].
    { rewrite (resume_lists_wait _ _ _ _ _ _ Hh HL). by rewrite without_hd. }
    intros c' L' H' HL' Hsame Hin Hout Hoth. apply (HQ c' L' H' HL').
    + eapply core_same_trans; [|exact Hsame]. eapply core_same_trans; [|apply stopped_core_same]. by repeat split.
    + intros u [->|Hu]%elem_of_cons; [|auto]. unfold thread_stat. rewrite Hout, Eth by done. by rewrite decide_True.
    + intros u [Hne Hu]%not_elem_of_cons. rewrite Hout, Eth by done. by rewrite decide_False.
    + intros g' us Hg Hne Hus. apply Hoth; [done|done|].
      destruct (typed_threads _ _ _ (lo_typed _ _ _ (ki_lists _ _ H)) Hg Hus) as [us' ->].
      assert (t ∉ us') as Hnin.
      { intros Hin'. apply Hne. eapply (rep_unique _ _ _ _ _ _ (LTlist t) (kinv_rep _ _ H) Hus HL); [by apply elem_of_LTlist|by left]. }
      by rewrite (resume_lists_other c0 L t ts g' us' (lo_typed _ _ _ (ki_lists _ _ H0)) (kinv_rep _ _ H0) Hus Hnin Hg).
Qed.
Lemma wp_ipc_list_resume_all h ws c L Q :
  wait_head h -> kinv c L -> L h = Some (LTlist <$> ws) -> (length ws < loop_fuel)%nat ->
  (forall c' L', kinv c' L' -> L' h = Some [] -> core_same c c' ->
     (forall u, u ∈ ws -> thread_stat c' u = RT_THREAD_READY /\ th_error (k_threads c' u) = - RT_ERROR) ->
     (forall u, u ∉ ws -> k_threads c' u = k_threads c u) ->
     (forall g us, wait_head g -> g <> h -> L g = Some us -> L' g = Some us) -> Q RT_EOK c') ->
  wp (rt_ipc_list_resume_all h) Q c.
Proof.
  intros Hh H HL Hf HQ. unfold rt_ipc_list_resume_all. wp_step.
  eapply wp_resume_all; [done|exact H|exact HL|done|]. intros c' L' H1 H2 H3 H4 H5 H6. wp_step. eauto.
Qed.

(** ** Blocking the current thread *)
(** The thread that calls a blocking operation: it runs, in thread context, with
    the scheduler unlocked, and another thread (the idle thread) is ready. *)
Record caller (c : kcore) (t : Z) : Prop := {
  ca_current : k_current_thread c = Some t;
  ca_ready : thread_stat c t = RT_THREAD_READY;
  ca_nest : k_interrupt_nest c = 0;
  ca_lock : k_lock_nest c = 0;
  ca_other : exists u, u <> t /\ thread_stat c u = RT_THREAD_READY
}.

(** The common part of every blocking call: the thread waits on [h], with its timer
    running if there is a time limit, and another thread runs. *)
Record blocked (c c' : kcore) L' (h : lnode) (t : Z) (ws' : list Z) (time : Z) : Prop := {
  bl_inv : kinv c' L';
  bl_list : L' h = Some (LTlist <$> ws');
  bl_stat : thread_stat c' t = RT_THREAD_SUSPEND;
  bl_error : th_error (k_threads c' t) = th_error (k_threads c t);
  bl_prio : prio_of c' t = prio_of c t;
  bl_event : th_event_set (k_threads c' t) = th_event_set (k_threads c t) /\
             th_event_info (k_threads c' t) = th_event_info (k_threads c t);
  bl_others : forall u, u <> t -> k_threads c' u = k_threads c u;
  bl_timer : 0 < time -> timer_activated c' (TThread t) = true;
  bl_current : exists u, k_current_thread c' = Some u /\ thread_stat c' u = RT_THREAD_READY /\
    forall v, thread_stat c' v = RT_THREAD_READY ->
      th_current_priority (k_threads c' u) <= th_current_priority (k_threads c' v);
  bl_tick : k_rt_tick c' = k_rt_tick c;
  bl_objs : forall o, (forall tm, o <> OTimer tm) -> k_objs c' o = k_objs c o
}.

(** The thread is on the waiting list already: its timer and the switch. *)
Lemma wp_block_rest c L h t time ws ws' lk g tb Q :
  let c1 := with_sched c lk (with_stat RT_THREAD_SUSPEND t c) g tb in
  let L1 := ins (unlink L (LTlist t)) (LTlist t) h (LTlist <$> ws') in
  kinv c L -> kinv c1 L1 -> caller c t -> wait_head h -> L h = Some (LTlist <$> ws) ->
  lists_short L -> time < RT_TICK_MAX / 2 ->
  (forall c' L', blocked c c' L' h t ws' time ->
     (forall g us, wait_head g -> g <> h -> L g = Some us -> L' g = Some us) -> Q tt c') ->
  wp (start_thread_timer t time ;; rt_schedule) Q c1.
Proof.
  intros c1 L1 H H1 [C1 C2 C3 C4 (u & Hu & C5)] Hh HL Hsh Htime HQ.
  assert (forall v, k_threads c1 v = with_stat RT_THREAD_SUSPEND t c v) as E1 by done.
  assert (thread_stat c1 t = RT_THREAD_SUSPEND) as Hs1 by (unfold thread_stat; rewrite E1; unfold with_stat; by rewrite upd_eq).
  assert (forall v, v <> t -> k_threads c1 v = k_threads c v) as Eo by (intros; rewrite E1; unfold with_stat; by rewrite upd_ne).
  assert (forall g us, wait_head g -> g <> h -> L g = Some us -> L1 g = Some us) as HL1.
  { intros g' us Hg Hne Hus. unfold L1. rewrite ins_other by (try done; by intros ->).
    destruct (typed_threads _ _ _ (lo_typed _ _ _ (ki_lists _ _ H)) Hg Hus) as [us' ->].
    rewrite unlink_ne, Hus by (by intros ->). cbn. rewrite without_fmap by apply _. rewrite without_notin; [done|].
    intros Hin. pose proof (lo_wait _ _ _ (ki_lists _ _ H) g' _ t Hg Hus (proj2 (elem_of_LTlist _ _) Hin)) as E. by rewrite C2 in E. }
  assert (lists_short L1) as Hsh1.
  { intros soft xs. unfold L1. rewrite ins_other by (try done; by intros <-).
    rewrite unlink_thread_head; [apply Hsh|exact (lo_typed _ _ _ (ki_lists _ _ H))|done|]. intros x. by destruct x. }
  wp_step. eapply wp_start_thread_timer; [exact H1|done|exact Hsh1|done|].
  intros c2 L2 H2 (T1 & T2 & T3 & T4 & T5 & T6) HL2 Hact.
  eapply wp_schedule_kinv; [exact H2| |].
  { intros _. exists u. unfold thread_stat. rewrite T1, Eo by done. exact C5. }
  intros c3 Hr H3 Hn _. destruct (Hn ltac:(by rewrite T3)) as (n & Hcur & Hn1 & Hn2 & _).
  destruct Hr as (cur & prio & sw & ->).
  assert (k_threads c1 t = set_th_stat RT_THREAD_SUSPEND (k_threads c t)) as Et by (rewrite E1; unfold with_stat; by rewrite upd_eq).
  apply (HQ _ L2).
  - split; [exact H3| | | | | | |exact Hact| |by ksimpl; rewrite T5|].
    + rewrite HL2 by done. apply ins_head.
    + unfold thread_stat; ksimpl. rewrite T1. exact Hs1.
    + ksimpl. by rewrite T1, Et.
    + unfold prio_of; ksimpl. by rewrite T1, Et.
    + ksimpl. by rewrite T1, Et.
    + intros v Hv. ksimpl. rewrite T1. auto.
    + exists n. split; [exact Hcur|]. split; [exact Hn1|exact Hn2].
    + intros o Ho. ksimpl. by rewrite T6.
  - intros g' us Hg Hne Hus. rewrite HL2 by done. by apply HL1.
Qed.
Lemma wp_block_on c L h t flag time ws Q :
  kinv c L -> caller c t -> wait_head h -> L h = Some (LTlist <$> ws) ->
  flag = RT_IPC_FLAG_FIFO \/ flag = RT_IPC_FLAG_PRIO -> (length ws < loop_fuel)%nat ->
  lists_short L -> time < RT_TICK_MAX / 2 ->
  (forall c' L', blocked c c' L' h t (enqueue flag (prio_of c) t ws) time ->
     (forall g us, wait_head g -> g <> h -> L g = Some us -> L' g = Some us) -> Q tt c') ->
  wp (block_on h t flag time) Q c.
Proof.
  intros H Hca Hh HL Hflag Hlen Hsh Htime HQ. unfold block_on. wp_step.
  eapply wp_ipc_list_suspend; [exact H|apply Hca|done|exact HL|done|done|]. intros lk g tb c1 L1 H1.
  by eapply wp_block_rest.
Qed.
Definition ipc_flag_ok (flag : Z) : Prop := flag = RT_IPC_FLAG_FIFO \/ flag = RT_IPC_FLAG_PRIO.

Lemma current_thread_run c t Q : k_current_thread c = Some t -> Q t c -> wp current_thread Q c.
Proof. intros Hc HQ. unfold current_thread. wp1. wp1. rewrite Hc. by wp1. Qed.
Lemma thread_context_run c Q :
  k_current_thread c <> None -> k_interrupt_nest c = 0 -> Q tt c -> wp RT_DEBUG_IN_THREAD_CONTEXT Q c.
Proof.
  intros H1 H2 HQ. unfold RT_DEBUG_IN_THREAD_CONTEXT, RT_DEBUG_NOT_IN_INTERRUPT.
  do 2 wp1. do 2 wp1; [by apply bool_decide_eq_true|].
  do 2 wp1. wp1; [by apply Z.eqb_eq|]. done.
Qed.

(** The caller's error code is reset before it waits. *)
Lemma caller_error e c t : caller c t -> caller (with_error e t c) t.
Proof.
  intros [C1 C2 C3 C4 (u & Hu & C5)]. split; [done|by rewrite thread_stat_error|done|done|].
  exists u. by rewrite thread_stat_error.
Qed.

Lemma prio_of_error e t c u : prio_of (with_error e t c) u = prio_of c u.
Proof. apply (same_prio_error e t c u). Qed.
Lemma enqueue_ext flag p p' t ws : (forall u, p' u = p u) -> enqueue flag p' t ws = enqueue flag p t ws.
Proof.
  intros E. unfold enqueue. case_match; [done|]. induction ws as [|w ws IH]; cbn; [done|]. by rewrite !E, IH.
Qed.


(** Changing a priority leaves the waiting lists and the timer lists alone. *)
Lemma wp_change_priority_wait c L t prio Q :
  kinv c L -> 0 <= prio < RT_THREAD_PRIORITY_MAX ->
  (forall c' L', kinv c' L' -> core_same c c' -> (forall u, k_threads c' u = with_priority prio t c u) ->
     k_objs c' = k_objs c ->
     (forall h xs, wait_head h -> L h = Some xs -> L' h = Some xs) ->
     (forall soft l, L' (LTimerHead soft l) = L (LTimerHead soft l)) -> Q RT_EOK c') ->
  wp (rt_thread_control t RT_THREAD_CTRL_CHANGE_PRIORITY prio) Q c.
Proof.
  intros H Hp HQ. pose proof (lo_typed _ _ _ (ki_lists _ _ H)) as Hty. eapply wp_change_priority; [done|done| |].
  - intros _ thr Ethr Hk. apply (HQ _ L); try done.
  - intros Ht ts thr lk g tb _ Ethr c' Hk. apply (HQ _ _ Hk); try done.
    + intros h xs Hh HL. unfold ins_ready. rewrite !upd_ne by (by intros <-).
      rewrite unlink_ne, HL by (by intros ->). cbn. f_equal. apply without_notin. intros Hin.
      pose proof (lo_wait _ _ _ (ki_lists _ _ H) h _ t Hh HL Hin) as E. by rewrite Ht in E.
    + intros soft l. unfold ins_ready. rewrite !upd_ne by done.
      apply unlink_thread_head; [done|done|]. intros x. by destruct x.
Qed.

Lemma wp_set_error e t k Q :
  Q tt (set_k_core (with_error e t (k_core k)) k) -> wp (lift (mod_thread t (set_th_error e))) Q k.
Proof. done. Qed.
Lemma wp_lift_thread t k Q : Q (k_threads (k_core k) t) k -> wp (lift (thread t)) Q k.
Proof. unfold wp, lift, thread, gets. by destruct k. Qed.

Lemma set_k_core_id (k : kstate) : set_k_core (k_core k) k = k.
Proof. by destruct k. Qed.

(** Waking the first waiting thread and switching if someone waited. *)
Lemma wp_wake_first k L h ws Q :
  kinv (k_core k) L -> wait_head h -> L h = Some (LTlist <$> ws) ->
  (exists u, thread_stat (k_core k) u = RT_THREAD_READY) ->
  (ws = [] -> Q tt k) ->
  (forall w ws' c' L', ws = w :: ws' -> kinv c' L' -> L' h = Some (LTlist <$> ws') ->
     (forall g us, wait_head g -> g <> h -> L g = Some us -> L' g = Some us) ->
     k_threads c' w = set_th_stat RT_THREAD_READY (k_threads (k_core k) w) ->
     (forall u, u <> w -> k_threads c' u = k_threads (k_core k) u) ->
     Q tt (set_k_core c' k)) ->
  wp (empty ← gets (fun k => rt_list_isempty (k_links (k_core k)) h);
      if negb empty then _ ← lift (rt_ipc_list_resume h); lift rt_schedule else mret tt) Q k.
Proof.
  intros H Hh HL [u0 Hu0] H1 H2. do 2 wp1. rewrite (rep_isempty _ _ _ _ (kinv_rep _ _ H) HL).
  destruct ws as [|w ws'].
  - rewrite bool_decide_true by done. cbn [negb]. wp1. by apply H1.
  - rewrite bool_decide_false by done. cbn [negb]. do 2 wp1.
    eapply wp_ipc_list_resume; [exact H|done|exact HL|]. intros ts lk g tb c1 L' Hk HL' Hs. wp1. ksimpl.
    eapply wp_schedule_kinv; [exact Hk|intros _; by exists w|]. intros c' (cur & prio & sw & ->) Hk' Hn _.
    apply (H2 w ws' _ L'); try done.
    + intros g' us Hg Hne Hus.
      destruct (typed_threads _ _ _ (lo_typed _ _ _ (ki_lists _ _ H)) Hg Hus) as [us' ->].
      assert (w ∉ us') as Hnin.
      { intros Hin'. apply Hne. eapply (rep_unique _ _ _ _ _ _ (LTlist w) (kinv_rep _ _ H) Hus HL); [by apply elem_of_LTlist|by left]. }
      unfold L'. by rewrite (resume_lists_other (k_core k) L w ts g' us' (lo_typed _ _ _ (ki_lists _ _ H)) (kinv_rep _ _ H) Hus Hnin Hg).
    + unfold c1; cbn. unfold with_stat. by rewrite upd_eq.
    + intros u Hu. unfold c1; cbn. unfold with_stat. by rewrite upd_ne.
Qed.

(** A waiting list with RT_IPC_FLAG_PRIO stays ordered by priority, first come first
    served among equals: the list rt_ipc_list_suspend leaves is the old one with the
    caller in front of the first thread of lower priority. *)
Theorem rt_ipc_list_suspend_prio c L h t ws :
  kinv c L -> thread_stat c t = RT_THREAD_READY -> wait_head h -> L h = Some (LTlist <$> ws) -> (length ws < loop_fuel)%nat ->
  StronglySorted (fun a b => prio_of c a <= prio_of c b) ws ->
  exists c' L' ws1 ws2, rt_ipc_list_suspend h t RT_IPC_FLAG_PRIO c = Some (RT_EOK, c') /\ kinv c' L' /\
    thread_stat c' t = RT_THREAD_SUSPEND /\ ws = ws1 ++ ws2 /\ L' h = Some (LTlist <$> (ws1 ++ t :: ws2)) /\
    (forall u, u ∈ ws1 -> prio_of c' u <= prio_of c' t) /\ (forall u, u ∈ ws2 -> prio_of c' t < prio_of c' u) /\
    StronglySorted (fun a b => prio_of c' a <= prio_of c' b) (ws1 ++ t :: ws2).
Proof.
  intros H Ht Hh HL Hlen Hs.
  assert (exists ws1 ws2, ws = ws1 ++ ws2 /\ prio_queue (prio_of c) t ws = ws1 ++ t :: ws2 /\
    (forall u, u ∈ ws1 -> prio_of c u <= prio_of c t) /\ forall u, u ∈ ws2 -> prio_of c t < prio_of c u) as (ws1 & ws2 & E1 & E2 & H1 & H2).
  { clear - Hs. induction ws as [|w ws IH]; [exists [], []; split_and!; try done; by intros u Hu%elem_of_nil|]. cbn.
    inversion Hs as [|? ? Hs' Hw]; subst. rewrite Forall_forall in Hw. destruct (Z.ltb_spec (prio_of c t) (prio_of c w)).
    - exists [], (w :: ws). split_and!; try done; [by intros u Hu%elem_of_nil|]. intros u [->|Hu]%elem_of_cons; [done|]. specialize (Hw u Hu). lia.
    - destruct (IH Hs') as (ws1 & ws2 & -> & -> & H1 & H2). exists (w :: ws1), ws2. split_and!; try done.
      intros u [->|Hu]%elem_of_cons; auto. }
  cut (wp (rt_ipc_list_suspend h t RT_IPC_FLAG_PRIO) (fun r c' => r = RT_EOK /\ exists L', kinv c' L' /\
    thread_stat c' t = RT_THREAD_SUSPEND /\ L' h = Some (LTlist <$> (ws1 ++ t :: ws2)) /\ forall u, prio_of c' u = prio_of c u) c).
  { intros (r & c' & E & -> & L' & K1 & K2 & K3 & K4)%wp_run. exists c', L', ws1, ws2. split_and!; try done.
    - intros u Hu. rewrite !K4. auto.
    - intros u Hu. rewrite !K4. auto.
    - rewrite <- E2. pose proof (prio_queue_sorted (prio_of c) t ws Hs) as Hq. clear - Hq K4.
      induction Hq as [|a l Hq IH Hl]; constructor; [done|]. rewrite Forall_forall in Hl |- *. intros u Hu. rewrite !K4. auto. }
  eapply wp_ipc_list_suspend; [exact H|exact Ht|exact Hh|exact HL|by right|exact Hlen|]. intros lk g tb c' L' Hk.
  split; [done|]. exists L'. split; [exact Hk|]. split; [unfold c'; by rewrite thread_stat_with_sched, upd_eq|]. split.
  - unfold L'. rewrite ins_head. unfold enqueue; cbn [Z.eqb RT_IPC_FLAG_PRIO RT_IPC_FLAG_FIFO Pos.eqb]. by rewrite E2.
  - intros u. apply (same_prio_stat RT_THREAD_SUSPEND t c u).
Qed.
End ipc.
