(* ===== verification/Timed.v ===== *)
(** The hard timers under the operations of the kernel: what each operation does to the
    list of active timers and to the time they have left. *)
From Stdlib Require Import Sorted.
From S2P Require Import Prelude RtList Kservice Kernel Scheduler Object TimerCore Invariant Thread Timer TimerCheck Clock Ipc.

Section timed.
Context {cfg : Config} {kh : KHeap} {sz : ObjectSizes} {st : StaticThreads}.
Implicit Types (L : lnode -> option (list lnode)).

(** Between ticks: the active hard timers in order of expiry, all of them in the future;
    the timer of a thread is active only on this list. *)
Record timed (c : kcore) L (tms : list timer_id) : Prop := {
  td_inv : kinv c L;
  td_list : L (LTimerHead false last_row) = Some (row last_row <$> tms);
  td_sorted : expiry_sorted c tms;
  td_window : forall x, x ∈ tms -> 0 < ticks_left c x < RT_TICK_MAX / 2;
  td_timers : forall x, x ∈ tms -> timer_ok c x;
  td_active : forall t, timer_activated c (TThread t) = true -> TThread t ∈ tms;
  td_soft : forall xs, L (LTimerHead true last_row) = Some xs -> (length xs < loop_fuel)%nat
}.
(** The walks through the list of hard timers end. *)
Definition timers_short L : Prop := forall xs, L (LTimerHead false last_row) = Some xs -> (length xs < loop_fuel)%nat.
Lemma timed_short c L tms : timed c L tms -> timers_short L -> lists_short L.
Proof. intros H Hs [] xs HL; [by apply (td_soft _ _ _ H)|by apply Hs]. Qed.
Lemma timed_checking c L tms : timed c L tms -> timers_short L -> checking c L tms.
Proof.
  intros H Hs. pose proof (timed_short _ _ _ H Hs). destruct H as [H1 H2 H3 H4 H5 H6 H7]. split; try done.
  intros x Hx. specialize (H4 x Hx). lia.
Qed.
Lemma timed_not_due c L tms x : timed c L tms -> x ∈ tms -> ~ due c x.
Proof. intros H Hx. pose proof (td_window _ _ _ H x Hx). unfold due. lia. Qed.
Lemma timed_NoDup c L tms : timed c L tms -> NoDup tms.
Proof.
  intros H. pose proof (rep_NoDup _ _ _ _ (kinv_rep _ _ (td_inv _ _ _ H)) (td_list _ _ _ H)) as Hnd.
  by apply NoDup_fmap_1 in Hnd.
Qed.
Lemma timed_suspended c L tms t : timed c L tms -> TThread t ∈ tms -> thread_stat c t = RT_THREAD_SUSPEND.
Proof.
  intros H Hx. eapply (lo_timed _ _ _ (ki_lists _ _ (td_inv _ _ _ H))); [exact (td_list _ _ _ H)|].
  by apply (list_elem_of_fmap_2 (row last_row)).
Qed.

(** ** Operations that leave the timers alone *)
Record same_timers (c c' : kcore) L L' : Prop := {
  st_tick : k_rt_tick c' = k_rt_tick c;
  st_timers : k_timers c' = k_timers c;
  st_objs : forall tm, k_objs c' (OTimer tm) = k_objs c (OTimer tm);
  st_heads : forall soft, L' (LTimerHead soft last_row) = L (LTimerHead soft last_row)
}.
Lemma same_timers_left c c' L L' x : same_timers c c' L L' -> ticks_left c' x = ticks_left c x.
Proof. intros [E1 E2 _ _]. unfold ticks_left. by rewrite E1, E2. Qed.
Lemma same_timers_ok c c' L L' x : same_timers c c' L L' -> timer_ok c x -> timer_ok c' x.
Proof. intros [_ E2 E3 _]. unfold timer_ok, periodic, has_flag. by rewrite E2, E3. Qed.
Lemma timed_frame c c' L L' tms : timed c L tms -> kinv c' L' -> same_timers c c' L L' -> timed c' L' tms.
Proof.
  intros [H1 H2 H3 H4 H5 H6 H7] Hk Hs. split; try (rewrite (st_heads _ _ _ _ Hs)); try done.
  - eapply expiry_sorted_ext; [|exact H3]. intros. by eapply same_timers_left.
  - intros x Hx. rewrite (same_timers_left _ _ _ _ _ Hs). auto.
  - intros x Hx. eapply same_timers_ok; [exact Hs|auto].
  - intros t. unfold timer_activated. rewrite (st_objs _ _ _ _ Hs). apply H6.
Qed.
Lemma same_timers_trans c1 c2 c3 L1 L2 L3 : same_timers c1 c2 L1 L2 -> same_timers c2 c3 L2 L3 -> same_timers c1 c3 L1 L3.
Proof. intros [A1 A2 A3 A4] [B1 B2 B3 B4]. split; intros; congruence. Qed.
Lemma same_timers_rescheduled c c' L : rescheduled c c' -> same_timers c c' L L.
Proof. by intros (cur & prio & sw & ->). Qed.
Lemma unlink_heads c L t soft : kinv c L -> unlink L (LTlist t) (LTimerHead soft last_row) = L (LTimerHead soft last_row).
Proof. intros H. apply unlink_thread_head; [exact (lo_typed _ _ _ (ki_lists _ _ H))|done|]. intros x. by destruct x. Qed.
Lemma ins_ready_heads L t p ts soft : ins_ready L t p ts (LTimerHead soft last_row) = L (LTimerHead soft last_row).
Proof. unfold ins_ready. by rewrite !upd_ne. Qed.

(** ** A timer is stopped *)
Lemma rows_gone_without L tm tms : L (LTimerHead false last_row) = Some (row last_row <$> tms) ->
  rows_gone L tm (LTimerHead false last_row) = Some (row last_row <$> without tm tms).
Proof.
  intros HL. pose proof skip_level_pos. rewrite rows_gone_head, HL by done. cbn [fmap option_fmap option_map]. f_equal. clear HL.
  induction tms as [|x tms IH]; [done|]. rewrite fmap_cons, filter_cons, without_cons, IH. destruct (decide (x = tm)) as [->|Hne].
  - rewrite decide_False; [done|]. intros Hx. apply Hx. split; [done|]. unfold last_row. lia.
  - rewrite decide_True; [done|]. intros [E' _]. by apply Hne.
Qed.
Lemma sorted_without c tm tms : expiry_sorted c tms -> expiry_sorted c (without tm tms).
Proof.
  unfold expiry_sorted. induction tms as [|x tms IH]; intros Hs; [constructor|]. inversion Hs as [|? ? H1 H2]; subst.
  rewrite without_cons. case_decide; [auto|]. constructor; [auto|]. rewrite Forall_forall in *.
  intros y [_ Hy]%elem_of_without. auto.
Qed.
Record stopped_timers (c c' : kcore) L L' (tm : timer_id) : Prop := {
  sp_tick : k_rt_tick c' = k_rt_tick c;
  sp_timers : k_timers c' = k_timers c;
  sp_objs : forall x, x <> tm -> k_objs c' (OTimer x) = k_objs c (OTimer x);
  sp_inactive : timer_activated c' tm = false;
  sp_heads : forall soft, L' (LTimerHead soft last_row) = rows_gone L tm (LTimerHead soft last_row)
}.
Lemma timed_stopped c c' L L' tm tms :
  timed c L tms -> kinv c' L' -> stopped_timers c c' L L' tm ->
  timed c' L' (without tm tms) /\ forall x, ticks_left c' x = ticks_left c x.
Proof.
  intros [H1 H2 H3 H4 H5 H6 H7] Hk [E1 E2 E3 E4 E5].
  assert (forall x, ticks_left c' x = ticks_left c x) as El by (intros x; unfold ticks_left; by rewrite E1, E2).
  split; [|done]. split.
  - done.
  - rewrite E5. by apply rows_gone_without.
  - eapply expiry_sorted_ext; [intros; apply El|]. by apply sorted_without.
  - intros x [_ Hx]%elem_of_without. rewrite El. auto.
  - intros x [Hne Hx]%elem_of_without. specialize (H5 x Hx). unfold timer_ok, periodic, has_flag in *. by rewrite E2, E3.
  - intros t Ht. apply elem_of_without. destruct (decide (TThread t = tm)) as [<-|Hne]; [congruence|]. split; [done|].
    apply H6. unfold timer_activated in *. by rewrite <- E3.
  - intros xs. rewrite E5, rows_gone_head by done. destruct (L (LTimerHead true last_row)) as [ys|] eqn:E; [|done].
    intros [= <-]. eapply Nat.le_lt_trans; [apply length_filter|]. by apply H7.
Qed.

(** ** A timer is started *)
Lemma wp_timer_start_timed c L tm tms Q :
  timed c L tms -> timers_short L -> rows_on L tm -> has_flag c tm RT_TIMER_FLAG_SOFT_TIMER = false ->
  (forall t, tm = TThread t -> thread_stat c t = RT_THREAD_SUSPEND) ->
  0 < tm_init_tick (k_timers c tm) < RT_TICK_MAX / 2 -> timer_activated c tm = false -> timer_ok c tm ->
  (forall lk L' tms', let c' := activated_core (armed c tm) tm lk in
     timed c' L' tms' -> (forall x, x ∈ tms' <-> x = tm \/ x ∈ tms) -> ticks_left c' tm = tm_init_tick (k_timers c tm) ->
     (forall x, x ∈ tms -> ticks_left c' x = ticks_left c x) -> (forall h, wait_head h -> L' h = L h) -> Q RT_EOK c') ->
  wp (rt_timer_start tm) Q c.
Proof.
  intros H Hsh Hr Hso Ht Hin Ha Hok HQ. pose proof H as [H1 H2 H3 H4 H5 H6 H7].
  assert (tm ∉ tms) as Hn.
  { intros Hx. destruct (lo_active _ _ _ (ki_lists _ _ H1) _ _ _ tm H2) as (_ & E & _); [|congruence].
    by apply (list_elem_of_fmap_2 (row last_row)). }
  eapply (wp_timer_start_sorted c L tm tms); [done|by eapply timed_short|done..|lia|done|done|done|intros x Hx; specialize (H4 x Hx); lia|].
  intros A B k lk a b El Hk Hrows c' L' Hk' HL' Hleft _ _ Hs _.
  assert (forall x, x ∈ a ++ tm :: b <-> x = tm \/ x ∈ tms) as Hmem.
  { intros x. rewrite El, !elem_of_app, elem_of_cons. tauto. }
  assert (forall x, x ∈ tms -> ticks_left c' x = ticks_left c x) as Hkeep.
  { intros x Hx. unfold c'. rewrite ticks_left_armed, decide_False; [done|]. by intros ->. }
  apply (HQ lk L' (a ++ tm :: b)); [|done|done|done|].
  - split; [done|done|done|..].
    + intros x Hx%Hmem. change (0 < ticks_left c' x < RT_TICK_MAX / 2). destruct Hx as [->|Hx]; [by rewrite Hleft|]. rewrite Hkeep; auto.
    + intros x [->|Hx]%Hmem.
      * unfold timer_ok in *. destruct tm as [t|o]; [done|]. destruct Hok as (K1 & K2 & K3). split; [|split].
        -- unfold c', activated_core, armed; ksimpl. by rewrite upd_eq.
        -- unfold c'. by rewrite activated_flag.
        -- unfold periodic, c'. rewrite activated_flag by done. unfold activated_core, armed; ksimpl. by rewrite upd_eq.
      * assert (x <> tm) as Hne by (by intros ->). specialize (H5 x Hx). unfold timer_ok, periodic, has_flag, c', activated_core, armed in *; ksimpl.
        by rewrite !upd_ne by congruence.
    + intros t Hact. apply Hmem. unfold c' in Hact. rewrite activated_core_act, upd_case in Hact.
      case_decide as D; [by left|right]. by apply H6.
    + intros xs. unfold L', ins_rows. rewrite decide_False by (by intros [? _]). apply H7.
  - intros h Hh. apply ins_rows_other; by destruct h.
Qed.

(** [keeps P]: the timers outside [P] stay on the list with the time they have left. *)
Definition keeps (P : timer_id -> Prop) (c : kcore) (tms : list timer_id) (c' : kcore) (tms' : list timer_id) : Prop :=
  k_rt_tick c' = k_rt_tick c /\ forall x, x ∈ tms -> (x ∈ tms' /\ ticks_left c' x = ticks_left c x) \/ P x.
Lemma keeps_same P c c' L L' tms : same_timers c c' L L' -> keeps P c tms c' tms.
Proof. intros Hs. split; [apply Hs|]. intros x Hx. left. split; [done|]. by eapply same_timers_left. Qed.
Lemma keeps_trans P c1 c2 c3 t1 t2 t3 : keeps P c1 t1 c2 t2 -> keeps P c2 t2 c3 t3 -> keeps P c1 t1 c3 t3.
Proof.
  intros [A1 A2] [B1 B2]. split; [congruence|]. intros x Hx. destruct (A2 x Hx) as [[H1 E1]|]; [|by right].
  destruct (B2 x H1) as [[H2 E2]|]; [left|by right]. split; [done|congruence].
Qed.
Lemma keeps_weaken (P P' : timer_id -> Prop) c c' tms tms' : (forall x, P x -> P' x) -> keeps P c tms c' tms' -> keeps P' c tms c' tms'.
Proof. intros HP [A1 A2]. split; [done|]. intros x Hx. destruct (A2 x Hx); auto. Qed.
Definition timed_at (P : timer_id -> Prop) (c : kcore) (tms : list timer_id) (c' : kcore) L' : Prop :=
  exists tms', timed c' L' tms' /\ keeps P c tms c' tms'.
Definition outcome_timed (P : timer_id -> Prop) (c : kcore) (tms : list timer_id) (c' : kcore) : Prop := exists L', timed_at P c tms c' L'.
Lemma frame_at P c c' L L' tms : timed c L tms -> kinv c' L' -> same_timers c c' L L' -> timed_at P c tms c' L'.
Proof. intros H Hk Hs. exists tms. split; [by eapply timed_frame|by eapply keeps_same]. Qed.
Lemma outcome_frame P c c' L L' tms : timed c L tms -> kinv c' L' -> same_timers c c' L L' -> outcome_timed P c tms c'.
Proof. intros H Hk Hs. exists L'. by eapply frame_at. Qed.
Lemma outcome_refl P c L tms : timed c L tms -> outcome_timed P c tms c.
Proof. intros H. by eapply outcome_frame; [exact H|apply H|]. Qed.
Lemma stopped_at (P : timer_id -> Prop) c c' L L' tm tms :
  timed c L tms -> kinv c' L' -> stopped_timers c c' L L' tm -> P tm -> timed_at P c tms c' L'.
Proof.
  intros H Hk Hs HP. destruct (timed_stopped _ _ _ _ _ _ H Hk Hs) as [H' El]. exists (without tm tms). split; [done|].
  split; [apply Hs|]. intros x Hx. destruct (decide (x = tm)) as [->|Hne]; [by right|left].
  split; [by apply elem_of_without|apply El].
Qed.

(** ** The operations on threads *)
(** Resuming [t] takes its timer off the list, if it is there. *)
Lemma timed_resumed c L t ts lk thr g tb tms :
  timed c L tms -> let c' := with_sched (stopped_core c t) lk thr g tb in
  kinv c' (resume_lists c L t ts) -> timed_at (eq (TThread t)) c tms c' (resume_lists c L t ts).
Proof.
  intros H c' Hk. unfold c', resume_lists, stopped_lists, stopped_core in *.
  destruct (timer_activated c (TThread t)) eqn:Ha.
  - eapply (stopped_at _ c _ L _ (TThread t) tms H Hk); [|done]. split; try done.
    + intros x Hx. unfold with_sched, stop_timer; ksimpl. rewrite upd_ne; [done|]. congruence.
    + change (timer_activated (stop_timer c (TThread t)) (TThread t) = false). by rewrite stop_timer_activated, upd_eq.
    + intros soft. rewrite ins_ready_heads, !rows_gone_head by done. by rewrite (unlink_heads _ _ _ _ (td_inv _ _ _ H)).
  - eapply (frame_at _ c _ L _ tms H Hk). split; try done. intros soft.
    by rewrite ins_ready_heads, (unlink_heads _ _ _ _ (td_inv _ _ _ H)).
Qed.
Lemma wp_thread_resume_timed c L t tms :
  timed c L tms -> wp (rt_thread_resume t) (fun _ => outcome_timed (eq (TThread t)) c tms) c.
Proof.
  intros H. eapply wp_thread_resume; [apply H|intros _; by eapply outcome_refl|].
  intros _ ts lk g tb _ c' Hk. eexists. by eapply timed_resumed.
Qed.
Lemma wp_thread_suspend_timed P c L t tms :
  timed c L tms -> wp (rt_thread_suspend t) (fun _ => outcome_timed P c tms) c.
Proof.
  intros H. eapply wp_thread_suspend; [apply H|intros _; by eapply outcome_refl|]. intros _ lk g tb c' Hk.
  eapply (outcome_frame _ c c' L); [exact H|exact Hk|]. split; try done. intros soft. eapply unlink_heads, H.
Qed.
Lemma wp_schedule_timed P c L tms :
  timed c L tms -> (k_lock_nest c = 0 -> runnable c) -> wp rt_schedule (fun _ => outcome_timed P c tms) c.
Proof.
  intros H Hr. eapply wp_schedule_kinv; [apply H|exact Hr|]. intros c' Hs Hk _ _.
  eapply outcome_frame; [exact H|exact Hk|]. by apply same_timers_rescheduled.
Qed.

(** ** Waiting *)
Lemma ready_no_timer c L t tms : timed c L tms -> thread_stat c t = RT_THREAD_READY -> TThread t ∉ tms /\ timer_activated c (TThread t) = false.
Proof.
  intros H Ht. assert (TThread t ∉ tms) as Hn by (intros Hx; pose proof (timed_suspended _ _ _ _ H Hx) as E; by rewrite Ht in E).
  split; [done|]. destruct (timer_activated c (TThread t)) eqn:E; [|done]. by destruct Hn; apply (td_active _ _ _ H).
Qed.
(** The state of a thread that waits [time] ticks at most. *)
Definition waits_until (P : timer_id -> Prop) (c : kcore) (tms : list timer_id) (t time : Z) (c' : kcore) : Prop :=
  exists L' tms', timed c' L' tms' /\ keeps P c tms c' tms' /\
    (0 < time -> TThread t ∈ tms' /\ ticks_left c' (TThread t) = time) /\ (forall x, x ∈ tms' -> x = TThread t \/ x ∈ tms).
Lemma wp_start_armed_timer (P : timer_id -> Prop) c L t time tms :
  timed c L tms -> thread_stat c t = RT_THREAD_SUSPEND -> timers_short L -> timer_activated c (TThread t) = false -> 0 < time < RT_TICK_MAX / 2 ->
  wp (_ ← rt_timer_control (TThread t) RT_TIMER_CTRL_SET_TIME time; _ ← rt_timer_start (TThread t); mret tt)
     (fun _ c' => waits_until P c tms t time c' /\ k_threads c' = k_threads c) c.
Proof.
  intros H Ht Hsh Ha Htime. assert (TThread t ∉ tms) as Hn.
  { intros Hx. destruct (lo_active _ _ _ (ki_lists _ _ (td_inv _ _ _ H)) _ _ _ (TThread t) (td_list _ _ _ H)) as (_ & E & _); [|congruence].
    by apply (list_elem_of_fmap_2 (row last_row)). }
  wp1. change (wp (mod_timer (TThread t) (set_tm_init_tick (uint32 time)) ;; mret (RT_EOK, time))
    (fun a s' => wp (_ ← rt_timer_start (TThread t); mret tt) (fun _ c' => waits_until P c tms t time c' /\ k_threads c' = k_threads c) s') c).
  wp1. wp1. wp1. rewrite (uint_small 32) by (change (RT_TICK_MAX / 2) with 2147483647 in *; lia).
  set (c1 := set_k_timers _ c). pose proof H as [H1 H2 H3 H4 H5 H6 H7].
  assert (forall u, thread_timer_ok c u -> thread_timer_ok c1 u) as Hto.
  { intros u (K1 & K2 & K3). unfold c1, thread_timer_ok; ksimpl. rewrite upd_case. case_decide as D; [|done]. by injection D as ->. }
  assert (kinv c1 L) as K1 by (eapply kinv_relink; [exact H1|exact (kinv_rep _ _ H1)|done..|exact (ki_lists _ _ H1)|done]).
  assert (forall x, x ∈ tms -> ticks_left c1 x = ticks_left c x) as El.
  { intros x Hx. unfold ticks_left, c1; ksimpl. rewrite upd_ne; [done|]. by intros <-. }
  assert (timed c1 L tms) as Ht1.
  { split; [done|done|by eapply expiry_sorted_ext|..|done|done].
    - intros x Hx. rewrite El; auto.
    - intros x Hx. specialize (H5 x Hx). destruct x as [u|o]; [done|]. unfold timer_ok, c1 in *; ksimpl. by rewrite upd_ne. }
  wp1. eapply (wp_timer_start_timed c1 L (TThread t) tms); [exact Ht1|done|by apply (kinv_rows_on c1); [|right]| |by intros u [= <-]| |exact Ha|done|].
  - unfold has_flag. apply negb_false_iff, Z.eqb_eq. destruct (ki_timer _ _ H1 t (or_intror Ht)) as (_ & _ & Hf).
    eapply land_sub; [exact Hf|done].
  - unfold c1; ksimpl. by rewrite upd_eq.
  - intros lk L' tms' c' H' Hmem Hleft Hkeep _. wp1. split; [|done]. exists L', tms'. split; [done|]. split.
    + split; [done|]. intros x Hx. left. split; [apply Hmem; auto|]. rewrite <- El by done. by apply Hkeep.
    + split; [|intros x; apply Hmem]. intros _. split; [apply Hmem; by left|]. etrans; [exact Hleft|]. unfold c1; ksimpl. by rewrite upd_eq.
Qed.
Lemma waits_rescheduled P c c1 tms t time :
  (k_lock_nest c1 = 0 -> runnable c1) -> waits_until P c tms t time c1 -> wp rt_schedule (fun _ => waits_until P c tms t time) c1.
Proof.
  intros Hr (L' & tms' & H' & Hk & Ht & Hsub). eapply wp_schedule_kinv; [apply H'|exact Hr|]. intros c3 Hs K3 _ _.
  pose proof (same_timers_rescheduled _ _ L' Hs) as Hst. exists L', tms'. split; [by eapply timed_frame|]. split.
  - eapply keeps_trans; [exact Hk|by eapply keeps_same].
  - split; [|done]. intros Hpos. destruct (Ht Hpos). split; [done|]. by rewrite (same_timers_left _ _ _ _ _ Hst).
Qed.

(** Suspended, with the timer not yet started. *)
Lemma timed_waiting c c1 L L1 t tms lk g tb :
  timed c L tms -> thread_stat c t = RT_THREAD_READY -> c1 = with_sched c lk (with_stat RT_THREAD_SUSPEND t c) g tb ->
  kinv c1 L1 -> (forall soft, L1 (LTimerHead soft last_row) = L (LTimerHead soft last_row)) ->
  timed c1 L1 tms /\ same_timers c c1 L L1 /\ thread_stat c1 t = RT_THREAD_SUSPEND /\ timer_activated c1 (TThread t) = false.
Proof.
  intros H Ht -> Hk Hh. set (c1 := with_sched _ _ _ _ _) in *. assert (same_timers c c1 L L1) as Hs by done.
  split; [by eapply timed_frame|]. split; [done|]. split.
  - unfold c1. by rewrite thread_stat_with_sched, upd_eq.
  - by apply (ready_no_timer c L t tms).
Qed.
Lemma timers_short_heads L L1 : (forall soft, L1 (LTimerHead soft last_row) = L (LTimerHead soft last_row)) -> timers_short L -> timers_short L1.
Proof. intros E H xs. rewrite E. apply H. Qed.

Lemma wp_block_on_timed P c L h t flag time ws tms :
  timed c L tms -> caller c t -> wait_head h -> L h = Some (LTlist <$> ws) -> ipc_flag_ok flag -> (length ws < loop_fuel)%nat ->
  timers_short L -> time < RT_TICK_MAX / 2 ->
  wp (block_on h t flag time) (fun _ => waits_until P c tms t time) c.
Proof.
  intros H [C1 C2 C3 C4 (u & Hu & C5)] Hh HL Hfl Hlen Hsh Htime. unfold block_on. wp1.
  eapply wp_ipc_list_suspend; [apply H|done|done|exact HL|exact Hfl|done|]. intros lk g tb c1 L1 K1.
  assert (forall soft, L1 (LTimerHead soft last_row) = L (LTimerHead soft last_row)) as Hhd.
  { intros soft. unfold L1. rewrite ins_other by (try done; by intros <-). eapply unlink_heads, H. }
  destruct (timed_waiting _ _ _ _ _ _ _ _ _ H C2 eq_refl K1 Hhd) as (H1 & Hs1 & Ht1 & Ha1). fold c1 in H1, Hs1, Ht1, Ha1.
  assert (runnable c1) as Hrun.
  { exists u. unfold c1. rewrite thread_stat_with_sched, upd_ne by congruence. exact C5. }
  wp1. unfold start_thread_timer. destruct (Z.gtb_spec time 0) as [Hpos|Hpos].
  - eapply wp_mono; [apply (wp_start_armed_timer P c1 L1 t time tms); [done|done|by eapply timers_short_heads|done|lia]|].
    intros _ c2 [(L2 & tms2 & H2 & Hk & Hw) Eth]. apply waits_rescheduled.
    + intros _. destruct Hrun as [v Hv]. exists v. unfold thread_stat. by rewrite Eth.
    + exists L2, tms2. split; [done|]. split; [|done]. eapply keeps_trans; [by eapply keeps_same|done].
  - wp1. apply waits_rescheduled; [done|]. exists L1, tms. split; [done|]. split; [by eapply keeps_same|]. split; [lia|auto].
Qed.
Lemma wp_sleep_timed P c L t time tms :
  timed c L tms -> caller c t -> timers_short L -> 0 < time < RT_TICK_MAX / 2 ->
  wp (rt_thread_sleep time) (fun _ => waits_until P c tms t time) c.
Proof.
  intros H [C1 C2 C3 C4 (u & Hu & C5)] Hsh Htime. unfold rt_thread_sleep. wp1. apply (current_thread_run c t); [done|].
  wp1. eapply wp_thread_suspend; [apply H|by rewrite C2|]. intros _ lk g tb c1 K1.
  assert (forall soft, unlink L (LTlist t) (LTimerHead soft last_row) = L (LTimerHead soft last_row)) as Hhd.
  { intros soft. eapply unlink_heads, H. }
  destruct (timed_waiting _ _ _ _ _ _ _ _ _ H C2 eq_refl K1 Hhd) as (H1 & Hs1 & Ht1 & Ha1). fold c1 in H1, Hs1, Ht1, Ha1.
  assert (wp (_ ← rt_timer_control (TThread t) RT_TIMER_CTRL_SET_TIME time; _ ← rt_timer_start (TThread t); mret tt)
    (fun _ c' => wp rt_schedule (fun _ => waits_until P c tms t time) c') c1) as Hw.
  { eapply wp_mono; [apply (wp_start_armed_timer P c1 (unlink L (LTlist t)) t time tms); [done|done|by eapply timers_short_heads|done|done]|].
    intros _ c2 [(L2 & tms2 & H2 & Hk & Hw) Eth]. apply waits_rescheduled.
    + intros _. exists u. unfold thread_stat. rewrite Eth. change (thread_stat c1 u = RT_THREAD_READY).
      unfold c1. rewrite thread_stat_with_sched, upd_ne by congruence. exact C5.
    + exists L2, tms2. split; [done|]. split; [|done]. eapply keeps_trans; [by eapply keeps_same|done]. }
  revert Hw. unfold wp, mbind, M_bind. destruct (rt_timer_control _ _ _ c1) as [[a c2]|]; [|done].
  by destruct (rt_timer_start _ c2) as [[b c3]|].
Qed.

(** ** Waking *)
Lemma wp_wake_timed c L h t ws tms :
  timed c L tms -> L h = Some (LTlist <$> (t :: ws)) ->
  wp (rt_ipc_list_resume h) (fun _ => outcome_timed (eq (TThread t)) c tms) c.
Proof.
  intros H HL. unfold rt_ipc_list_resume. do 2 wp1. rewrite (rep_next_head _ _ _ _ (kinv_rep _ _ (td_inv _ _ _ H)) HL). cbn. wp1. wp1. wp1.
  eapply wp_mono; [by eapply wp_thread_resume_timed|]. intros a c' Ho. by wp1.
Qed.
Lemma timed_error e t c L tms : timed c L tms -> timed (with_error e t c) L tms.
Proof. intros H. eapply timed_frame; [exact H|by apply kinv_error, H|done]. Qed.
Lemma wp_wake_all_timed h : wait_head h -> forall ws fuel c L tms,
  timed c L tms -> L h = Some (LTlist <$> ws) -> (length ws < fuel)%nat ->
  wp (resume_all_loop fuel h) (fun _ => outcome_timed (fun x => exists t, x = TThread t /\ t ∈ ws) c tms) c.
Proof.
  intros Hh. induction ws as [|t ws IH]; intros fuel c L tms H HL Hf;
    (destruct fuel as [|fuel]; [cbn in Hf; lia|]); cbn [resume_all_loop]; do 2 wp1;
    rewrite (rep_isempty _ _ _ _ (kinv_rep _ _ (td_inv _ _ _ H)) HL).
  - rewrite bool_decide_true by done. wp1. by eapply outcome_refl.
  - rewrite bool_decide_false by done. do 2 wp1. rewrite (rep_next_head _ _ _ _ (kinv_rep _ _ (td_inv _ _ _ H)) HL).
    cbn [hd fmap list_fmap rt_thread_entry]. wp1. wp1. do 2 wp1.
    change (wp (_ ← rt_thread_resume t; resume_all_loop fuel h) (fun _ => outcome_timed (fun x => exists u, x = TThread u /\ u ∈ t :: ws) c tms) (with_error (- RT_ERROR) t c)).
    set (c0 := with_error (- RT_ERROR) t c). pose proof (timed_error (- RT_ERROR) t _ _ _ H) as H0. fold c0 in H0.
    assert (thread_stat c0 t = RT_THREAD_SUSPEND) as Ht0.
    { eapply (lo_wait _ _ _ (ki_lists _ _ (td_inv _ _ _ H0))); [exact Hh|exact HL|]. by left. }
    assert (NoDup (t :: ws)) as Hnd by (eapply NoDup_fmap_1, (rep_NoDup _ _ _ _ (kinv_rep _ _ (td_inv _ _ _ H)) HL)).
    wp1. eapply wp_thread_resume; [apply H0|by rewrite Ht0|]. intros _ ts lk g tb _ c1 H1.
    destruct (timed_resumed c0 L t ts lk _ g tb tms H0 H1) as (tms1 & K1 & Hk1). fold c1 in K1, Hk1.
    assert (resume_lists c0 L t ts h = Some (LTlist <$> ws)) as HL1.
    { rewrite (resume_lists_wait _ _ _ _ _ _ Hh HL). by rewrite without_hd. }
    eapply wp_mono; [eapply (IH fuel c1 _ tms1 K1 HL1); cbn in Hf; lia|]. intros _ c' (L' & tms' & K' & Hk').
    exists L', tms'. split; [exact K'|]. eapply (keeps_trans _ c0 c1 c'); (eapply keeps_weaken; [|done]).
    + intros x <-. exists t. split; [done|]. by left.
    + intros x (v & -> & Hv). exists v. split; [done|]. by right.
Qed.

(** ** The tick *)
Context (user_timeout : Z -> Z -> M kcore unit).
Hypothesis user_timeout_returns : forall f a c, user_timeout f a c = Some (tt, c).
(** What one tick does to the timers. *)
Record one_tick (c : kcore) (tms : list timer_id) (c' : kcore) (tms' : list timer_id) : Prop := {
  ot_tick : k_rt_tick c' = uint32 (k_rt_tick c + 1);
  ot_sub : forall x, x ∈ tms' -> x ∈ tms;
  ot_later : forall x, x ∈ tms -> 1 < ticks_left c x -> x ∈ tms' /\ ticks_left c' x = ticks_left c x - 1;
  ot_fired : forall t, TThread t ∈ tms -> ticks_left c (TThread t) = 1 ->
    thread_stat c' t = RT_THREAD_READY /\ th_error (k_threads c' t) = - RT_ETIMEOUT
}.
Lemma wp_tick_timed c L tms t :
  timed c L tms -> timers_short L -> k_current_thread c = Some t -> thread_stat c t = RT_THREAD_READY ->
  wp (rt_tick_increase user_timeout loop_fuel) (fun _ c' => exists L' tms', timed c' L' tms' /\ one_tick c tms c' tms') c.
Proof.
  intros H Hsh Hcur Hr. pose proof (timed_checking _ _ _ H Hsh) as Hc.
  assert (length tms < loop_fuel)%nat as Hf by (specialize (Hsh _ (td_list _ _ _ H)); by rewrite length_fmap in Hsh).
  eapply wp_mono; [eapply (wp_tick_increase _ user_timeout_returns c L tms t); [done|intros x; apply (timed_not_due _ _ _ x H)|done|done|done]|].
  intros _ c' (c2 & L' & tms' & H' & Ht & [D1 D2 D3 D4 D5 D6 D7 D8]).
  pose proof (fun x Hx => ticked_left _ _ _ _ _ x Hc Ht Hx (timed_not_due _ _ _ x H Hx)) as El.
  pose proof (fun x => ticked_periodic _ _ _ x Ht) as Hper. pose proof Ht as (En & Et & Eo & Eth).
  assert (forall x, x ∈ tms -> due c2 x <-> ticks_left c x = 1) as Hdue.
  { intros x Hx. unfold due. rewrite El by done. pose proof (td_window _ _ _ H x Hx). lia. }
  exists L', tms'. split; [|split].
  - pose proof (ck_short _ _ _ H' true). destruct H' as [K1 K2 K3 K4 K5 K6]. split; [done|done|done|..|done| |done].
    + intros x Hx. split; [|by apply K5]. specialize (D3 x Hx). unfold due in D3. lia.
    + intros u Ha. destruct (decide (TThread u ∈ tms)) as [Hin|Hin].
      * apply D2. split; [done|]. destruct (periodic c2 (TThread u)) eqn:Ep; [by right|left]. intros Hd.
        by rewrite (D6 _ Hin Hd Ep) in Ha.
      * exfalso. apply Hin, (td_active _ _ _ H). unfold timer_activated in *. rewrite <- Eo. by destruct (D8 _ Hin) as [_ <-].
  - by rewrite D1.
  - intros x Hx. by apply D2.
  - intros x Hx Hl. assert (~ due c2 x) as Hd by (rewrite Hdue by done; lia). split; [apply D2; auto|].
    by rewrite D4, El.
  - intros u Hx Hl. unfold thread_stat. rewrite D7, decide_True by (split; [done|by apply Hdue]). done.
Qed.
End timed.
