(* ===== verification/System.v ===== *)
(** The kernel as a transition system: threads and interrupt handlers call the kernel
    operations one after the other, in any order, ticks included; every state they reach
    satisfies the kernel invariant, and waiting with a time limit ends in time. *)
From Stdlib Require Import Sorted.
From S2P Require Import Prelude RtList Kservice Kernel Scheduler Object TimerCore Invariant Thread Timer TimerCheck Clock Ipc Timed.

Section system.
Context {cfg : Config} {kh : KHeap} {sz : ObjectSizes} {st : StaticThreads}.
Implicit Types (L : lnode -> option (list lnode)).
(** The timeout functions of the application return and leave the kernel data alone. *)
Context (user_timeout : Z -> Z -> M kcore unit).
Hypothesis user_timeout_returns : forall f a c, user_timeout f a c = Some (tt, c).

(** The calls, with their arguments. *)
Inductive kcall :=
| C_schedule
| C_suspend (t : Z)
| C_resume (t : Z)
| C_startup (t : Z)
| C_yield
| C_sleep (t time : Z)
| C_change_priority (t prio : Z)
| C_timer_start (a : Z)
| C_timer_stop (tm : timer_id)
| C_block (h : lnode) (t flag time : Z)
| C_wake (h : lnode)
| C_wake_all (h : lnode)
| C_tick
| C_enter_critical
| C_exit_critical
| C_interrupt_enter
| C_interrupt_leave.

Definition discard {A} (m : M kcore A) : M kcore unit := _ ← m; mret tt.
Definition run_call (x : kcall) : M kcore unit :=
  match x with
  | C_schedule => rt_schedule
  | C_suspend t => discard (rt_thread_suspend t)
  | C_resume t => discard (rt_thread_resume t)
  | C_startup t => discard (rt_thread_startup t)
  | C_yield => discard rt_thread_yield
  | C_sleep _ time => rt_thread_sleep time
  | C_change_priority t prio => discard (rt_thread_control t RT_THREAD_CTRL_CHANGE_PRIORITY prio)
  | C_timer_start a => discard (rt_timer_start (TObj a))
  | C_timer_stop tm => discard (rt_timer_stop tm)
  | C_block h t flag time => block_on h t flag time
  | C_wake h => discard (rt_ipc_list_resume h)
  | C_wake_all h => discard (rt_ipc_list_resume_all h)
  | C_tick => rt_tick_increase user_timeout loop_fuel
  | C_enter_critical => rt_enter_critical
  | C_exit_critical => rt_exit_critical
  | C_interrupt_enter => rt_interrupt_enter
  | C_interrupt_leave => rt_interrupt_leave
  end.

(** What the kernel expects of its callers. *)
Definition may_call (x : kcall) (c : kcore) L : Prop :=
  match x with
  | C_schedule => k_lock_nest c = 0 -> runnable c
  | C_suspend t | C_resume t => True
  | C_startup t => thread_fresh c L t
  | C_yield => exists t, k_current_thread c = Some t /\ thread_stat c t = RT_THREAD_READY
  | C_sleep t time => caller c t /\ timers_short L /\ 0 < time < RT_TICK_MAX / 2
  | C_change_priority t prio => 0 <= prio < RT_THREAD_PRIORITY_MAX
  | C_timer_start a => timers_short L /\ rows_on L (TObj a) /\ timer_ok c (TObj a) /\ 0 < tm_init_tick (k_timers c (TObj a)) < RT_TICK_MAX / 2
  | C_timer_stop tm => rows_on L tm
  | C_block h t flag time => caller c t /\ wait_head h /\ ipc_flag_ok flag /\ timers_short L /\ time < RT_TICK_MAX / 2 /\
      exists ws, L h = Some (LTlist <$> ws) /\ (length ws < loop_fuel)%nat
  | C_wake h => wait_head h /\ exists t ws, L h = Some (LTlist <$> (t :: ws))
  | C_wake_all h => wait_head h /\ exists ws, L h = Some (LTlist <$> ws) /\ (length ws < loop_fuel)%nat
  | C_tick => timers_short L /\ exists t, k_current_thread c = Some t /\ thread_stat c t = RT_THREAD_READY
  | C_exit_critical => runnable c
  | C_enter_critical | C_interrupt_enter | C_interrupt_leave => True
  end.

(** ** The effect of a call on the timers *)
(** After the call the invariant holds; the timer of a thread that waits has one tick
    less after a tick and as many after another call, unless the call stops it or the
    thread is READY. *)
Definition elapses (x : kcall) : Z := match x with C_tick => 1 | _ => 0 end.
Definition call_ok (x : kcall) (c : kcore) (tms : list timer_id) (c' : kcore) : Prop :=
  exists L' tms', timed c' L' tms' /\
    forall u, TThread u ∈ tms -> x <> C_timer_stop (TThread u) ->
      (TThread u ∈ tms' /\ ticks_left c' (TThread u) = ticks_left c (TThread u) - elapses x) \/ thread_stat c' u = RT_THREAD_READY.
Lemma call_ok_outcome P x c tms c' : elapses x = 0 -> outcome_timed P c tms c' ->
  (forall u, TThread u ∈ tms -> P (TThread u) -> x <> C_timer_stop (TThread u) -> thread_stat c' u = RT_THREAD_READY) -> call_ok x c tms c'.
Proof.
  intros Ex (L' & tms' & H' & _ & Hk) HP. exists L', tms'. split; [done|]. intros u Hu Hx.
  destruct (Hk _ Hu) as [[H1 H2]|Hp]; [left|right; auto]. split; [done|]. by rewrite Ex, Z.sub_0_r.
Qed.
Lemma call_ok_frame x c L c' L' tms : elapses x = 0 -> timed c L tms -> kinv c' L' -> same_timers c c' L L' -> call_ok x c tms c'.
Proof. intros Ex H Hk Hs. eapply (call_ok_outcome (fun _ => False)); [done|by eapply outcome_frame|done]. Qed.
Lemma call_ok_waits P x c tms t time c' : elapses x = 0 -> waits_until P c tms t time c' -> (forall y, ~ P y) -> call_ok x c tms c'.
Proof.
  intros Ex (L' & tms' & H' & Hk & _ & _) HP. eapply (call_ok_outcome P); [done|by exists L', tms'|]. intros u _ Hp. by destruct (HP _ Hp).
Qed.
Lemma wp_discard {A} (m : M kcore A) Q c : wp m (fun _ c' => Q tt c') c -> wp (discard m) Q c.
Proof. intros H. unfold discard. wp1. eapply wp_mono; [exact H|]. intros a c' HQ. by wp1. Qed.

Lemma exit_critical_ok c L tms : timed c L tms -> runnable c -> wp rt_exit_critical (fun _ => call_ok C_exit_critical c tms) c.
Proof.
  intros H Hr. unfold rt_exit_critical. do 2 wp1. do 2 wp1. ksimpl. set (c1 := set_k_lock_nest _ c).
  pose proof (td_inv _ _ _ H) as Hk. assert (kinv c1 L) as K1 by (by apply (kinv_nest c)).
  destruct (int16 (k_lock_nest c - 1) <=? 0); [|wp1; by eapply call_ok_frame].
  do 2 wp1. set (c2 := set_k_lock_nest _ _). assert (kinv c2 L) as K2 by (by apply (kinv_nest c1)).
  eapply wp_schedule_kinv; [exact K2|intros _; exact Hr|]. intros c3 Hs Hk3 _ _.
  eapply call_ok_frame; [done|exact H|exact Hk3|]. eapply (same_timers_trans _ c2); [done|by apply same_timers_rescheduled].
Qed.
Lemma yield_ok c L tms t : timed c L tms -> k_current_thread c = Some t -> thread_stat c t = RT_THREAD_READY ->
  wp rt_thread_yield (fun _ => call_ok C_yield c tms) c.
Proof.
  intros H Hc Ht. pose proof (td_inv _ _ _ H) as Hk. destruct (kinv_queue _ _ t Hk (or_introl Ht)) as (ts & HL & Hts).
  apply Hts, list_elem_of_split in Ht as Hin. destruct Hin as (us & vs & ->).
  eapply (wp_thread_yield c L t us vs); [exact Hk|exact Hc|by apply Hts|exact HL|by intros _ _; eapply call_ok_frame|].
  intros lk c' L' Hrs Hk' _. eapply call_ok_frame; [done|exact H|exact Hk'|].
  eapply (same_timers_trans _ (set_k_links lk c) _ _ L'); [|by apply same_timers_rescheduled]. split; try done.
  intros soft. unfold L'. rewrite ins_ready_heads. by eapply unlink_heads.
Qed.
Lemma startup_ok c L tms t : timed c L tms -> thread_fresh c L t -> wp (rt_thread_startup t) (fun _ => call_ok (C_startup t) c tms) c.
Proof.
  intros H Hf. pose proof (td_inv _ _ _ H) as Hk. eapply wp_thread_startup; [exact Hk|exact Hf|].
  intros c1 L' c' _ _ _ _ _ HL' (Eo & Et & _ & En) Hk' Hrs _.
  eapply call_ok_frame; [done|exact H|exact Hk'|]. eapply (same_timers_trans _ c1 _ _ L'); [|by apply same_timers_rescheduled].
  split; [done|done|by rewrite Eo|]. intros soft. rewrite HL' by done.
  etrans; [|apply (unlink_heads _ _ t soft Hk)]. by rewrite unlink_ne.
Qed.
Lemma change_priority_ok c L tms t prio : timed c L tms -> 0 <= prio < RT_THREAD_PRIORITY_MAX ->
  wp (rt_thread_control t RT_THREAD_CTRL_CHANGE_PRIORITY prio) (fun _ => call_ok (C_change_priority t prio) c tms) c.
Proof.
  intros H Hp. pose proof (td_inv _ _ _ H) as Hk. eapply wp_change_priority; [exact Hk|exact Hp| |].
  - intros _ thr _ Hk'. by eapply call_ok_frame.
  - intros _ ts thr lk g tb _ _ c' Hk'. eapply call_ok_frame; [done|exact H|exact Hk'|]. split; try done.
    intros soft. rewrite ins_ready_heads. by eapply unlink_heads.
Qed.
Lemma resume_ok c L tms t : timed c L tms -> wp (rt_thread_resume t) (fun _ => call_ok (C_resume t) c tms) c.
Proof.
  intros H. eapply wp_thread_resume; [apply H|intros _; eapply call_ok_frame; [done|exact H|apply H|done]|].
  intros _ ts lk g tb _ c' Hk. eapply call_ok_outcome; [done|eexists; by eapply timed_resumed|].
  intros u _ [= <-] _. unfold thread_stat, c'; cbn. unfold with_stat. by rewrite upd_eq.
Qed.
Lemma wake_ok c L tms h t ws : timed c L tms -> wait_head h -> L h = Some (LTlist <$> (t :: ws)) ->
  wp (rt_ipc_list_resume h) (fun _ => call_ok (C_wake h) c tms) c.
Proof.
  intros H Hh HL. eapply wp_mono.
  - apply wp_conj; [by eapply wp_wake_timed|].
    eapply (wp_ipc_list_resume c L h t ws (fun _ c' => thread_stat c' t = RT_THREAD_READY)); [apply H|done|exact HL|done].
  - intros _ c' [Ho Ht]. eapply call_ok_outcome; [done|exact Ho|]. by intros u _ [= <-] _.
Qed.
Lemma wake_all_ok c L tms h ws : timed c L tms -> wait_head h -> L h = Some (LTlist <$> ws) -> (length ws < loop_fuel)%nat ->
  wp (rt_ipc_list_resume_all h) (fun _ => call_ok (C_wake_all h) c tms) c.
Proof.
  intros H Hh HL Hlen. unfold rt_ipc_list_resume_all. wp1. eapply wp_mono.
  - apply wp_conj; [by eapply wp_wake_all_timed|].
    eapply (wp_resume_all h ws Hh _ c L (fun _ c' => forall u, u ∈ ws -> thread_stat c' u = RT_THREAD_READY));
      [apply H|exact HL|done|]. intros c' L' _ _ _ Hr _ _ u Hu. by apply Hr.
  - intros _ c' [Ho Ht]. wp1. eapply call_ok_outcome; [done|exact Ho|]. intros u _ (v & [= <-] & Hv) _. auto.
Qed.
Lemma timer_start_ok c L tms a : timed c L tms -> may_call (C_timer_start a) c L ->
  wp (rt_timer_start (TObj a)) (fun _ => call_ok (C_timer_start a) c tms) c.
Proof.
  intros H (Hsh & Hr & Hok & Hin). pose proof (td_inv _ _ _ H) as Hk. destruct (timer_activated c (TObj a)) eqn:Ha.
  - eapply (wp_timer_start_hard c L (TObj a)); [done|by eapply timed_short|done|apply Hok|done|lia| |by rewrite Ha].
    intros _. by eapply call_ok_frame.
  - eapply (wp_timer_start_timed c L (TObj a) tms); [done..|apply Hok|done|done|done|done|].
    intros lk L' tms' c' H' Hmem _ Hkeep _. exists L', tms'. split; [done|]. intros u Hu _. left.
    split; [apply Hmem; auto|]. rewrite Z.sub_0_r. by apply Hkeep.
Qed.
Lemma timer_stop_ok c L tms tm : timed c L tms -> rows_on L tm -> wp (rt_timer_stop tm) (fun _ => call_ok (C_timer_stop tm) c tms) c.
Proof.
  intros H Hr. pose proof (td_inv _ _ _ H) as Hk. eapply wp_timer_stop; [exact (kinv_rep _ _ Hk)| |intros _; by eapply call_ok_frame|].
  - intros _. apply rows_on_live; [exact (lo_typed _ _ _ (ki_lists _ _ Hk))|done].
  - intros _ lk Hlk. eapply (call_ok_outcome (eq tm)); [done| |by intros u _ -> Hx].
    exists (rows_gone L tm). eapply stopped_at; [exact H|by eapply kinv_rows_gone| |done]. split; try done.
    + intros x Hx. unfold stop_timer; ksimpl. rewrite upd_ne; [done|]. congruence.
    + change (timer_activated (stop_timer c tm) tm = false). by rewrite stop_timer_activated, upd_eq.
Qed.
Lemma tick_ok c L tms t : timed c L tms -> timers_short L -> k_current_thread c = Some t -> thread_stat c t = RT_THREAD_READY ->
  wp (rt_tick_increase user_timeout loop_fuel) (fun _ => call_ok C_tick c tms) c.
Proof.
  intros H Hsh Hc Ht. eapply wp_mono; [by eapply wp_tick_timed|]. intros _ c' (L' & tms' & H' & [O1 O4 O2 O3]).
  exists L', tms'. split; [done|]. intros u Hu _. pose proof (td_window _ _ _ H _ Hu).
  destruct (decide (ticks_left c (TThread u) = 1)) as [E|E]; [right; by apply O3|left; apply O2; [done|lia]].
Qed.
(** Every permitted call returns, in a state with the invariant. *)
Lemma call_kinv x c L tms : timed c L tms -> may_call x c L -> wp (run_call x) (fun _ => call_ok x c tms) c.
Proof.
  intros H Hx. pose proof (td_inv _ _ _ H) as Hk. destruct x; cbn [run_call may_call] in *; try apply wp_discard.
  - eapply wp_mono; [by apply (wp_schedule_timed (fun _ => False) _ _ _ H)|]. intros a c' Ho. eapply call_ok_outcome; [done|exact Ho|done].
  - eapply wp_mono; [by eapply (wp_thread_suspend_timed (fun _ => False))|]. intros a c' Ho. eapply call_ok_outcome; [done|exact Ho|done].
  - by eapply resume_ok.
  - by eapply startup_ok.
  - destruct Hx as (t & Hc & Ht). by eapply yield_ok.
  - destruct Hx as (Hca & Hsh & Htm). eapply wp_mono; [by eapply (wp_sleep_timed (fun _ => False))|].
    intros a c' Hw. eapply call_ok_waits; [done|exact Hw|auto].
  - by eapply change_priority_ok.
  - by eapply timer_start_ok.
  - by eapply timer_stop_ok.
  - destruct Hx as (Hca & Hh & Hfl & Hsh & Htm & ws & HL & Hlen).
    eapply wp_mono; [by eapply (wp_block_on_timed (fun _ => False))|]. intros a c' Hw. eapply call_ok_waits; [done|exact Hw|auto].
  - destruct Hx as (Hh & t & ws & HL). by eapply wake_ok.
  - destruct Hx as (Hh & ws & HL & Hlen). by eapply wake_all_ok.
  - destruct Hx as (Hsh & t & Hc & Ht). by eapply tick_ok.
  - unfold rt_enter_critical. wp1. eapply call_ok_frame; [done|exact H|by apply (kinv_nest c)|done].
  - by eapply exit_critical_ok.
  - unfold rt_interrupt_enter. wp1. eapply call_ok_frame; [done|exact H|by apply (kinv_nest c)|done].
  - unfold rt_interrupt_leave. wp1. eapply call_ok_frame; [done|exact H|by apply (kinv_nest c)|done].
Qed.

(** ** Runs *)
Inductive runs : kcore -> list kcall -> kcore -> Prop :=
| runs_nil c : runs c [] c
| runs_cons c L tms x c1 xs c2 :
    timed c L tms -> may_call x c L -> run_call x c = Some (tt, c1) -> runs c1 xs c2 -> runs c (x :: xs) c2.
Definition reachable (c0 c : kcore) : Prop := exists xs, runs c0 xs c.
Lemma call_returns x c L tms c1 : timed c L tms -> may_call x c L -> run_call x c = Some (tt, c1) -> call_ok x c tms c1.
Proof. intros H Hx E. pose proof (call_kinv x c L tms H Hx) as ([] & c' & E' & Ho)%wp_run. by simplify_eq. Qed.
Lemma runs_timed c xs c' : runs c xs c' -> (exists L tms, timed c L tms) -> exists L tms, timed c' L tms.
Proof.
  induction 1 as [|c L tms x c1 xs c2 H Hx E _ IH]; [done|]. intros _. apply IH.
  destruct (call_returns _ _ _ _ _ H Hx E) as (L' & tms' & H' & _). by exists L', tms'.
Qed.

(** The bitmap names the highest priority that has a READY thread. *)
Definition bitmap_exact (c : kcore) : Prop :=
  runnable c -> exists t, thread_stat c t = RT_THREAD_READY /\ highest_ready_priority c = th_current_priority (k_threads c t) /\
    forall u, thread_stat c u = RT_THREAD_READY -> highest_ready_priority c <= th_current_priority (k_threads c u).

(** C1 In every state that any sequence of permitted kernel calls and ticks reaches from a
    state with the invariant, the invariant holds: each READY thread is on the queue of
    its priority and on no other list, the queues hold nothing else, the bitmap yields
    the highest ready priority, waiting threads are suspended, the active timers are
    sorted and in the future; and every permitted call returns. *)
Theorem reachable_invariant c0 L0 tms0 c :
  timed c0 L0 tms0 -> reachable c0 c ->
  exists L tms, timed c L tms /\ bitmap_exact c /\
    (forall p, 0 <= p < RT_THREAD_PRIORITY_MAX -> exists ts, L (LReady p) = Some (LTlist <$> ts) /\ NoDup ts /\
       forall t, t ∈ ts <-> thread_stat c t = RT_THREAD_READY /\ th_current_priority (k_threads c t) = p) /\
    (forall h ws t, wait_head h -> L h = Some (LTlist <$> ws) -> t ∈ ws -> thread_stat c t = RT_THREAD_SUSPEND) /\
    StronglySorted (fun x y => ticks_left c x <= ticks_left c y) tms /\ (forall x, x ∈ tms -> 0 < ticks_left c x) /\
    (forall x, may_call x c L -> exists c', run_call x c = Some (tt, c')).
Proof.
  intros H0 [xs Hr]. destruct (runs_timed _ _ _ Hr) as (L & tms & H); [by exists L0, tms0|].
  pose proof (td_inv _ _ _ H) as Hk. exists L, tms. split; [done|]. split; [|split; [|split; [|split; [|split]]]].
  - intros [t Ht]. destruct (next_thread _ _ _ (ki_ready _ _ Hk) (ex_intro _ t Ht)) as (n & _ & (Hn & Hmin & _) & Ep).
    exists n. split; [exact Hn|]. rewrite Ep in Hmin. split; [done|]. exact Hmin.
  - intros p Hp. destruct (ri_queue _ _ _ (ki_ready _ _ Hk) p Hp) as (ts & HL & Hts). exists ts. split; [done|].
    split; [|done]. eapply NoDup_fmap_1, (rep_NoDup _ _ _ _ (kinv_rep _ _ Hk) HL).
  - intros h ws t Hh HL Ht. eapply (lo_wait _ _ _ (ki_lists _ _ Hk)); [exact Hh|exact HL|]. by apply elem_of_LTlist.
  - apply H.
  - intros x Hx. apply (td_window _ _ _ H x Hx).
  - intros x Hx. pose proof (call_kinv x c L tms H Hx) as Hw. apply wp_run in Hw as ([] & c1 & E1 & _). eauto.
Qed.

(** ** Waiting ends in time *)
Fixpoint ticks (xs : list kcall) : Z := match xs with [] => 0 | x :: xs => elapses x + ticks xs end.
Lemma ticks_nonneg xs : 0 <= ticks xs.
Proof. induction xs as [|x xs IH]; cbn [ticks]; [done|]. destruct x; cbn [elapses]; lia. Qed.
Lemma timed_activated c L tms tm : timed c L tms -> tm ∈ tms -> timer_activated c tm = true.
Proof.
  intros H Hx. destruct (lo_active _ _ _ (ki_lists _ _ (td_inv _ _ _ H)) _ _ _ tm (td_list _ _ _ H)) as (_ & E & _); [|done].
  by apply (list_elem_of_fmap_2 (row last_row)).
Qed.
Lemma pending_ends t c xs c' : runs c xs c' -> forall L tms, timed c L tms -> TThread t ∈ tms ->
  C_timer_stop (TThread t) ∉ xs -> ticks_left c (TThread t) <= ticks xs ->
  exists ys zs c1, xs = ys ++ zs /\ runs c ys c1 /\ ticks ys <= ticks_left c (TThread t) /\ thread_stat c1 t = RT_THREAD_READY.
Proof.
  induction 1 as [c|c L1 tms1 x c1 xs c2 H1 Hx E Hr IH]; intros L tms H Hin Hns Hle.
  { pose proof (td_window _ _ _ H _ Hin). cbn in Hle. lia. }
  apply not_elem_of_cons in Hns as [Hne Hns]. pose proof (td_active _ _ _ H1 t (timed_activated _ _ _ _ H Hin)) as Hin1.
  pose proof (td_window _ _ _ H _ Hin) as Hw. destruct (call_returns _ _ _ _ _ H1 Hx E) as (L' & tms' & H' & Hc).
  destruct (Hc t Hin1 (not_eq_sym Hne)) as [[Hin' El]|Hready].
  - destruct (IH L' tms' H' Hin' Hns) as (ys & zs & c3 & -> & R & T & S); [cbn [ticks] in Hle; lia|].
    exists (x :: ys), zs, c3. split; [done|]. split; [by eapply (runs_cons c L1 tms1 x c1)|]. split; [cbn [ticks]; lia|done].
  - exists [x], xs, c1. split; [done|]. split; [by eapply (runs_cons c L1 tms1 x c1), runs_nil|]. split; [|done].
    cbn [ticks]. destruct x; cbn [elapses]; lia.
Qed.
(** C2 A thread that waits with a time limit (rt_thread_sleep, or a blocking call on any
    waiting list) is READY after at most so many ticks, whatever the other threads and
    the interrupts do in between, provided that nobody stops its timer. *)
Theorem wait_ends_in_time c L tms x t time c1 xs c2 :
  timed c L tms -> may_call x c L -> (x = C_sleep t time \/ exists h flag, x = C_block h t flag time) -> 0 < time ->
  run_call x c = Some (tt, c1) -> runs c1 xs c2 -> C_timer_stop (TThread t) ∉ xs -> time <= ticks xs ->
  exists ys zs c', xs = ys ++ zs /\ runs c1 ys c' /\ ticks ys <= time /\ thread_stat c' t = RT_THREAD_READY.
Proof.
  intros H Hx Hwait Hpos E Hr Hns Hle.
  assert (waits_until (fun _ => False) c tms t time c1) as (L1 & tms1 & H1 & _ & Hw & _).
  { destruct Hwait as [->|(h & flag & ->)]; cbn [may_call run_call] in *.
    - destruct Hx as (Hca & Hsh & Htm). pose proof (wp_sleep_timed (fun _ => False) c L t time tms H Hca Hsh Htm) as Hw.
      apply wp_run in Hw as ([] & c' & E' & Hw). by simplify_eq.
    - destruct Hx as (Hca & Hh & Hfl & Hsh & Htm & ws & HL & Hlen).
      pose proof (wp_block_on_timed (fun _ => False) c L h t flag time ws tms H Hca Hh HL Hfl Hlen Hsh Htm) as Hw.
      apply wp_run in Hw as ([] & c' & E' & Hw). by simplify_eq. }
  destruct (Hw Hpos) as [Hin El]. pose proof (pending_ends t c1 xs c2 Hr L1 tms1 H1 Hin Hns) as Hp. rewrite El in Hp. auto.
Qed.
End system.
