(* ===== verification/Semaphore.v ===== *)
(** Semaphores (src/ipc.c, the rt_sem functions). *)
From S2P Require Import Prelude RtList Kservice Kernel Scheduler Object TimerCore Invariant Thread Timer Ipc.

Section semaphore.
Context {cfg : Config} {kh : KHeap} {sz : ObjectSizes} {st : StaticThreads}.

Definition sem (s : Z) : M kstate rt_semaphore := gets (fun k => k_sems k s).
Definition mod_sem (s : Z) (f : rt_semaphore -> rt_semaphore) : M kstate unit :=
  modify (fun k => set_k_sems (<[s := f (k_sems k s)]> (k_sems k)) k).

Definition rt_sem_init (s : Z) (name : list Z) (value flag : Z) : M kstate Z :=
  lift (rt_object_init (OSem s) RT_Object_Class_Semaphore name) ;;
  _ ← lift (rt_ipc_object_init (OSem s));
  mod_sem s (set_sem_value (uint16 value)) ;;
  lift (mod_object (OSem s) (set_ob_flag flag)) ;;
  mret RT_EOK.

Definition rt_sem_detach (s : Z) : M kstate Z :=
  _ ← lift (rt_ipc_list_resume_all (LSuspend (OSem s)));
  lift (rt_object_detach (OSem s)) ;;
  mret RT_EOK.

Definition rt_sem_create (name : list Z) (value flag : Z) : M kstate (option Z) :=
  lift RT_DEBUG_NOT_IN_INTERRUPT ;;
  p ← lift (rt_object_allocate RT_Object_Class_Semaphore name);
  match p with
  | None => mret None
  | Some s =>
    _ ← lift (rt_ipc_object_init (OSem s));
    mod_sem s (set_sem_value (uint16 value)) ;;
    lift (mod_object (OSem s) (set_ob_flag flag)) ;;
    mret (Some s)
  end.

Definition rt_sem_delete (s : Z) : M kstate Z :=
  lift RT_DEBUG_NOT_IN_INTERRUPT ;;
  _ ← lift (rt_ipc_list_resume_all (LSuspend (OSem s)));
  lift (rt_object_delete (OSem s)) ;;
  mret RT_EOK.

(** The thread that waits is the local variable kept across the switch. *)
Definition rt_sem_take (s time : Z) : M kstate (outcome Z Z) :=
  sm ← sem s;
  if sem_value sm >? 0 then
    mod_sem s (set_sem_value (uint16 (sem_value sm - 1))) ;;
    mret (Returned RT_EOK)
  else if time =? 0 then mret (Returned (- RT_ETIMEOUT))
  else
    lift RT_DEBUG_IN_THREAD_CONTEXT ;;
    t ← lift current_thread;
    lift (mod_thread t (set_th_error RT_EOK)) ;;
    flag ← lift (object_flag (OSem s));
    lift (block_on (LSuspend (OSem s)) t flag time) ;;
    mret (Waiting t).
Definition rt_sem_take_resumed (t : Z) : M kstate Z :=
  th ← lift (thread t);
  if negb (th_error th =? RT_EOK) then mret (th_error th) else mret RT_EOK.

Definition rt_sem_trytake (s : Z) : M kstate (outcome Z Z) := rt_sem_take s 0.

Definition rt_sem_release (s : Z) : M kstate Z :=
  empty ← gets (fun k => rt_list_isempty (k_links (k_core k)) (LSuspend (OSem s)));
  need_schedule ←
    (if negb empty then
       _ ← lift (rt_ipc_list_resume (LSuspend (OSem s))); mret true
     else
       mod_sem s (fun sm => set_sem_value (uint16 (sem_value sm + 1)) sm) ;; mret false);
  (if (need_schedule : bool) then lift rt_schedule else mret tt) ;;
  mret RT_EOK.

Definition rt_sem_control (s cmd arg : Z) : M kstate Z :=
  if cmd =? RT_IPC_CMD_RESET then
    _ ← lift (rt_ipc_list_resume_all (LSuspend (OSem s)));
    mod_sem s (set_sem_value (uint16 arg)) ;;
    lift rt_schedule ;;
    mret RT_EOK
  else mret (- RT_ERROR).

(** ** The abstract semaphore: a counter and a queue of waiting threads *)
Implicit Types (L : lnode -> option (list lnode)).
Record sem_rep (k : kstate) L (s v : Z) (ws : list Z) : Prop := {
  sr_inv : kinv (k_core k) L;
  sr_value : sem_value (k_sems k s) = v;
  sr_range : 0 <= v < 65536;
  sr_list : L (LSuspend (OSem s)) = Some (LTlist <$> ws);
  sr_excl : 0 < v -> ws = []
}.

Inductive sem_take_step (q : Z -> list Z -> list Z) (t time : Z) : Z -> list Z -> outcome Z Z -> Z -> list Z -> Prop :=
| take_now v ws : 0 < v -> sem_take_step q t time v ws (Returned RT_EOK) (v - 1) ws
| take_timeout ws : time = 0 -> sem_take_step q t time 0 ws (Returned (- RT_ETIMEOUT)) 0 ws
| take_wait ws : time <> 0 -> sem_take_step q t time 0 ws (Waiting t) 0 (q t ws).
Inductive sem_release_step : Z -> list Z -> option Z -> Z -> list Z -> Prop :=
| release_count v : sem_release_step v [] None (uint16 (v + 1)) []
| release_wake v w ws : sem_release_step v (w :: ws) (Some w) v ws.

Definition sem_flag (k : kstate) (s : Z) : Z := ob_flag (k_objs (k_core k) (OSem s)).
Lemma wp_sem_take k L s v ws t time Q :
  sem_rep k L s v ws -> caller (k_core k) t -> ipc_flag_ok (sem_flag k s) -> lists_short L ->
  (length ws < loop_fuel)%nat -> time < RT_TICK_MAX / 2 ->
  (0 < v -> sem_rep (set_k_sems (<[s := set_sem_value (v - 1) (k_sems k s)]> (k_sems k)) k) L s (v - 1) ws ->
     Q (Returned RT_EOK) (set_k_sems (<[s := set_sem_value (v - 1) (k_sems k s)]> (k_sems k)) k)) ->
  (v = 0 -> time = 0 -> Q (Returned (- RT_ETIMEOUT)) k) ->
  (v = 0 -> time <> 0 -> forall c' L',
     let ws' := enqueue (sem_flag k s) (prio_of (k_core k)) t ws in
     blocked (with_error RT_EOK t (k_core k)) c' L' (LSuspend (OSem s)) t ws' time ->
     sem_rep (set_k_core c' k) L' s 0 ws' -> Q (Waiting t) (set_k_core c' k)) ->
  wp (rt_sem_take s time) Q k.
Proof.
  intros [S1 S2 S3 S4 S5] Hca Hfl Hsh Hlen Htime H1 H2 H3. unfold rt_sem_take, sem, mod_sem. do 2 wp1.
  rewrite S2. destruct (Z.gtb_spec v 0) as [Hv|Hv].
  - do 2 wp1. rewrite uint_small by lia. wp1. apply H1; [done|].
    split; [done| |lia|done|].
    + ksimpl. by rewrite upd_eq.
    + intros _. by apply S5.
  - assert (v = 0) as -> by lia. destruct (Z.eqb_spec time 0) as [->|Ht]; [wp1; auto|].
    do 2 wp1. apply thread_context_run; [by rewrite (ca_current _ _ Hca)|apply (ca_nest _ _ Hca)|].
    do 2 wp1. apply (current_thread_run _ t); [apply (ca_current _ _ Hca)|].
    do 2 wp1. wp1. do 2 wp1. unfold object_flag. do 2 wp1. wp1. do 2 wp1.
    fold (with_error RT_EOK t (k_core k)) (sem_flag k s).
    change (ob_flag (k_objs (with_error RT_EOK t (k_core k)) (OSem s))) with (sem_flag k s).
    eapply (wp_block_on (with_error RT_EOK t (k_core k)) L); [by apply kinv_error|by apply caller_error|done|exact S4|done|done|done|done|].
    intros c' L' Hb _. wp1. rewrite (enqueue_ext _ (prio_of (k_core k))) in Hb by (intros; apply prio_of_error).
    apply (H3 eq_refl Ht c' L' Hb). split; [apply Hb|done|lia|apply Hb|lia].
Qed.

Lemma wp_sem_release k L s v ws Q :
  sem_rep k L s v ws -> (k_lock_nest (k_core k) = 0 -> exists u, thread_stat (k_core k) u = RT_THREAD_READY) ->
  (ws = [] -> let k' := set_k_sems (<[s := set_sem_value (uint16 (v + 1)) (k_sems k s)]> (k_sems k)) k in
     sem_rep k' L s (uint16 (v + 1)) [] -> Q RT_EOK k') ->
  (forall w ws' c1 c' L', ws = w :: ws' -> thread_stat c1 w = RT_THREAD_READY ->
     th_error (k_threads c1 w) = th_error (k_threads (k_core k) w) ->
     (forall u, u <> w -> k_threads c1 u = k_threads (k_core k) u) ->
     k_lock_nest c1 = k_lock_nest (k_core k) ->
     rescheduled c1 c' -> next_current c1 c' L' ->
     sem_rep (set_k_core c' k) L' s v ws' -> Q RT_EOK (set_k_core c' k)) ->
  wp (rt_sem_release s) Q k.
Proof.
  intros [S1 S2 S3 S4 S5] Hex H1 H2. unfold rt_sem_release, mod_sem. do 2 wp1.
  rewrite (rep_isempty _ _ _ _ (kinv_rep _ _ S1) S4). wp1. destruct ws as [|w ws'].
  - rewrite bool_decide_true by done. cbn [negb]. do 2 wp1. wp1. do 2 wp1. wp1. rewrite S2.
    apply H1; [done|]. split; [done| |by apply (uint_range 16)|done|done]. ksimpl. by rewrite upd_eq.
  - rewrite bool_decide_false by done. cbn [negb]. do 2 wp1. 
    eapply wp_ipc_list_resume; [exact S1|done|exact S4|]. intros ts lk g tb c1 L' Hk HL' Hs. wp1.
    do 2 wp1. ksimpl.
    eapply wp_schedule_kinv; [exact Hk|intros _; by exists w|]. intros c' Hr Hk' Hn _. wp1. ksimpl.
    assert (v = 0) as -> by (destruct (decide (0 < v)) as [Hv|]; [by specialize (S5 Hv)|lia]).
    eapply (H2 w ws' c1 c' L'); try done.
    + unfold c1; cbn. unfold with_stat. by rewrite upd_eq.
    + intros u Hu. unfold c1; cbn. unfold with_stat. by rewrite upd_ne.
    + unfold c1; cbn. unfold stopped_core. by case_match.
Qed.

(** C19 rt_sem_take implements the abstract take: it decrements a positive counter,
    fails at once with -RT_ETIMEOUT when it must not wait, and otherwise queues the
    caller, first come first served or by priority, and gives the processor away. *)
Theorem rt_sem_take_refines k L s v ws t time :
  sem_rep k L s v ws -> caller (k_core k) t -> ipc_flag_ok (sem_flag k s) -> lists_short L ->
  (length ws < loop_fuel)%nat -> time < RT_TICK_MAX / 2 ->
  exists r k' L' v' ws', rt_sem_take s time k = Some (r, k') /\
    sem_take_step (enqueue (sem_flag k s) (prio_of (k_core k))) t time v ws r v' ws' /\
    sem_rep k' L' s v' ws' /\
    (r = Waiting t -> thread_stat (k_core k') t = RT_THREAD_SUSPEND /\ k_current_thread (k_core k') <> Some t).
Proof.
  intros H Hca Hfl Hsh Hlen Htime.
  cut (wp (rt_sem_take s time) (fun r k' => exists L' v' ws',
    sem_take_step (enqueue (sem_flag k s) (prio_of (k_core k))) t time v ws r v' ws' /\ sem_rep k' L' s v' ws' /\
    (r = Waiting t -> thread_stat (k_core k') t = RT_THREAD_SUSPEND /\ k_current_thread (k_core k') <> Some t)) k).
  { intros (r & k' & E & L' & v' & ws' & H')%wp_run. by exists r, k', L', v', ws'. }
  eapply wp_sem_take; [exact H|done..| | |].
  - intros Hv H'. exists L, (v - 1), ws. split; [by constructor|done].
  - intros -> ->. exists L, 0, ws. split; [by constructor|done].
  - intros -> Ht c' L' ws' Hb H'. exists L', 0, ws'. split; [by constructor|]. split; [done|]. intros _.
    split; [apply Hb|]. destruct (bl_current _ _ _ _ _ _ _ Hb) as (u & Hu & Hr & _). ksimpl. rewrite Hu.
    intros [= ->]. pose proof (bl_stat _ _ _ _ _ _ _ Hb) as Hs. by rewrite Hs in Hr.
Qed.

(** C20 rt_sem_release hands the unit to the first waiting thread, which becomes
    READY, and otherwise increments the counter modulo 2^16. *)
Theorem rt_sem_release_refines k L s v ws :
  sem_rep k L s v ws -> (k_lock_nest (k_core k) = 0 -> exists u, thread_stat (k_core k) u = RT_THREAD_READY) ->
  exists k' L' v' ws' woken, rt_sem_release s k = Some (RT_EOK, k') /\
    sem_release_step v ws woken v' ws' /\ sem_rep k' L' s v' ws' /\
    match woken with
    | Some w => thread_stat (k_core k') w = RT_THREAD_READY /\
        th_error (k_threads (k_core k') w) = th_error (k_threads (k_core k) w)
    | None => k_core k' = k_core k
    end.
Proof.
  intros H Hex.
  cut (wp (rt_sem_release s) (fun r k' => r = RT_EOK /\ exists L' v' ws' woken,
    sem_release_step v ws woken v' ws' /\ sem_rep k' L' s v' ws' /\
    match woken with
    | Some w => thread_stat (k_core k') w = RT_THREAD_READY /\
        th_error (k_threads (k_core k') w) = th_error (k_threads (k_core k) w)
    | None => k_core k' = k_core k
    end) k).
  { intros (r & k' & E & -> & L' & v' & ws' & o & H')%wp_run. by exists k', L', v', ws', o. }
  eapply wp_sem_release; [exact H|done| |].
  - intros -> k' H'. split; [done|]. exists L, (uint16 (v + 1)), [], None. split; [constructor|done].
  - intros w ws' c1 c' L' -> Hs He Ho Hlk (cur & prio & sw & ->) Hn H'. split; [done|].
    exists L', v, ws', (Some w). split; [constructor|]. split; [done|]. split; [exact Hs|exact He].
Qed.

(** A caller that waits and is first in the queue receives the unit of the next
    rt_sem_release: its rt_sem_take returns RT_EOK, and the counter stays 0. *)
Theorem rt_sem_handoff k L s t time :
  sem_rep k L s 0 [] -> caller (k_core k) t -> ipc_flag_ok (sem_flag k s) -> lists_short L ->
  time <> 0 -> time < RT_TICK_MAX / 2 ->
  exists k1 k2 k3, rt_sem_take s time k = Some (Waiting t, k1) /\ rt_sem_release s k1 = Some (RT_EOK, k2) /\
    thread_stat (k_core k2) t = RT_THREAD_READY /\ sem_value (k_sems k2 s) = 0 /\
    rt_sem_take_resumed t k2 = Some (RT_EOK, k3).
Proof.
  intros H Hca Hfl Hsh Ht Htime.
  assert (wp (rt_sem_take s time) (fun r k1 => r = Waiting t /\ wp (rt_sem_release s) (fun e k2 => e = RT_EOK /\
    thread_stat (k_core k2) t = RT_THREAD_READY /\ sem_value (k_sems k2 s) = 0 /\
    th_error (k_threads (k_core k2) t) = RT_EOK) k1) k) as Hwp.
  { eapply wp_sem_take; [exact H|done|done|done|exact loop_fuel_pos|done|lia|done|].
    intros _ _ c' L' ws' Hb H1. split; [done|].
    assert (ws' = [t]) as -> by (unfold ws', enqueue; by case_match).
    eapply wp_sem_release; [exact H1| |done|].
    - intros _. destruct (bl_current _ _ _ _ _ _ _ Hb) as (u & _ & Hu & _). eauto.
    - intros w ws1 c1 c2 L2 [= <- <-] Hs He Ho _ (cur & prio & sw & ->) Hn H2. split; [done|].
      split; [exact Hs|]. split; [apply H2|]. ksimpl. rewrite He. ksimpl. rewrite (bl_error _ _ _ _ _ _ _ Hb).
      unfold with_error; ksimpl. by rewrite upd_eq. }
  apply wp_run in Hwp as (r & k1 & E1 & -> & Hwp). apply wp_run in Hwp as (e & k2 & E2 & -> & Hs & Hv & He).
  exists k1, k2, k2. repeat (split; [done|]). unfold rt_sem_take_resumed, mbind, M_bind, lift, thread, gets. by destruct k2; cbn in *; rewrite He.
Qed.

(** The reset of rt_sem_control wakes every waiting thread with the error code
    -RT_ERROR and sets the counter. *)
Theorem rt_sem_reset_wakes_all k L s v ws n :
  sem_rep k L s v ws -> 0 <= n < 65536 -> (length ws < loop_fuel)%nat ->
  (exists u, thread_stat (k_core k) u = RT_THREAD_READY) ->
  exists k' L', rt_sem_control s RT_IPC_CMD_RESET n k = Some (RT_EOK, k') /\ sem_rep k' L' s n [] /\
    (forall u, u ∈ ws -> thread_stat (k_core k') u = RT_THREAD_READY /\ th_error (k_threads (k_core k') u) = - RT_ERROR) /\
    (forall u, u ∉ ws -> k_threads (k_core k') u = k_threads (k_core k) u).
Proof.
  intros [S1 S2 S3 S4 S5] Hn Hlen [u0 Hu0].
  cut (wp (rt_sem_control s RT_IPC_CMD_RESET n) (fun r k' => r = RT_EOK /\ exists L', sem_rep k' L' s n [] /\
    (forall u, u ∈ ws -> thread_stat (k_core k') u = RT_THREAD_READY /\ th_error (k_threads (k_core k') u) = - RT_ERROR) /\
    (forall u, u ∉ ws -> k_threads (k_core k') u = k_threads (k_core k) u)) k).
  { intros (r & k' & E & -> & L' & H')%wp_run. by exists k', L'. }
  unfold rt_sem_control, mod_sem. cbn [Z.eqb RT_IPC_CMD_RESET Pos.eqb]. do 2 wp1.
  eapply (wp_ipc_list_resume_all (LSuspend (OSem s)) ws); [done|exact S1|exact S4|done|].
  intros c1 L1 H1 HL1 Hsame Hin Hout _. wp1. wp1. rewrite uint_small by lia. wp1. wp1.
  eapply (wp_schedule_kinv c1 L1); [exact H1| |].
  { intros _. exists u0. destruct (decide (u0 ∈ ws)) as [Hi|Hi]; [by apply Hin|]. unfold thread_stat. by rewrite Hout. }
  intros c2 (cur & prio & sw & ->) H2 _ _. wp1. split; [done|]. exists L1. split; [|split; [exact Hin|exact Hout]].
  split; [exact H2| |done|exact HL1|done]. ksimpl. by rewrite upd_eq.
Qed.
End semaphore.
