(* ===== verification/Mutex.v ===== *)
(** Mutexes (src/ipc.c, the rt_mutex functions): recursive, with priority inheritance. *)
From S2P Require Import Prelude RtList Kservice Kernel Scheduler Object TimerCore Invariant Thread Timer Ipc.

Section mutex.
Context {cfg : Config} {kh : KHeap} {sz : ObjectSizes} {st : StaticThreads}.

Definition mutex (m : Z) : M kstate rt_mutex := gets (fun k => k_mutexes k m).
Definition mod_mutex (m : Z) (f : rt_mutex -> rt_mutex) : M kstate unit :=
  modify (fun k => set_k_mutexes (<[m := f (k_mutexes k m)]> (k_mutexes k)) k).

Definition mutex_init_fields (m flag : Z) : M kstate unit :=
  mod_mutex m (fun _ => mk_mutex 1 255 0 None) ;;
  lift (mod_object (OMutex m) (set_ob_flag flag)).

Definition rt_mutex_init (m : Z) (name : list Z) (flag : Z) : M kstate Z :=
  lift (rt_object_init (OMutex m) RT_Object_Class_Mutex name) ;;
  _ ← lift (rt_ipc_object_init (OMutex m));
  mutex_init_fields m flag ;;
  mret RT_EOK.

Definition rt_mutex_detach (m : Z) : M kstate Z :=
  _ ← lift (rt_ipc_list_resume_all (LSuspend (OMutex m)));
  lift (rt_object_detach (OMutex m)) ;;
  mret RT_EOK.

Definition rt_mutex_create (name : list Z) (flag : Z) : M kstate (option Z) :=
  lift RT_DEBUG_NOT_IN_INTERRUPT ;;
  p ← lift (rt_object_allocate RT_Object_Class_Mutex name);
  match p with
  | None => mret None
  | Some m =>
    _ ← lift (rt_ipc_object_init (OMutex m));
    mutex_init_fields m flag ;;
    mret (Some m)
  end.

Definition rt_mutex_delete (m : Z) : M kstate Z :=
  lift RT_DEBUG_NOT_IN_INTERRUPT ;;
  _ ← lift (rt_ipc_list_resume_all (LSuspend (OMutex m)));
  lift (rt_object_delete (OMutex m)) ;;
  mret RT_EOK.

(** mutex->owner, where the code dereferences it. *)
Definition deref_owner (mx : rt_mutex) : M kstate Z :=
  match mutex_owner mx with Some o => mret o | None => diverge end.

Definition rt_mutex_take (m time : Z) : M kstate (outcome Z Z) :=
  lift RT_DEBUG_IN_THREAD_CONTEXT ;;
  t ← lift current_thread;
  lift (mod_thread t (set_th_error RT_EOK)) ;;
  mx ← mutex m;
  if decide (mutex_owner mx = Some t) then
    mod_mutex m (set_mutex_hold (uint8 (mutex_hold mx + 1))) ;;
    mret (Returned RT_EOK)
  else if mutex_value mx >? 0 then
    th ← lift (thread t);
    mod_mutex m (fun mx =>
      set_mutex_hold (uint8 (mutex_hold mx + 1))
        (set_mutex_original_priority (th_current_priority th)
          (set_mutex_owner (Some t)
            (set_mutex_value (uint16 (mutex_value mx - 1)) mx)))) ;;
    mret (Returned RT_EOK)
  else if time =? 0 then
    lift (mod_thread t (set_th_error (- RT_ETIMEOUT))) ;;
    mret (Returned (- RT_ETIMEOUT))
  else
    owner ← deref_owner mx;
    th ← lift (thread t);
    oth ← lift (thread owner);
    (if th_current_priority th <? th_current_priority oth then
       _ ← lift (rt_thread_control owner RT_THREAD_CTRL_CHANGE_PRIORITY (th_current_priority th));
       mret tt
     else mret tt) ;;
    flag ← lift (object_flag (OMutex m));
    lift (block_on (LSuspend (OMutex m)) t flag time) ;;
    mret (Waiting t).
Definition rt_mutex_take_resumed (t : Z) : M kstate Z :=
  th ← lift (thread t);
  if negb (th_error th =? RT_EOK) then mret (th_error th) else mret RT_EOK.

(** The last release, after the hold count reached 0 and the owner has its own
    priority again: the mutex is free, or the first waiting thread owns it. *)
Definition mutex_pass (m : Z) : M kstate bool :=
  empty ← gets (fun k => rt_list_isempty (k_links (k_core k)) (LSuspend (OMutex m)));
  if negb empty then
    n ← gets (fun k => l_next (k_links (k_core k)) (LSuspend (OMutex m)));
    u ← lift (rt_thread_entry n);
    uth ← lift (thread u);
    mod_mutex m (fun mx =>
      set_mutex_hold (uint8 (mutex_hold mx + 1))
        (set_mutex_original_priority (th_current_priority uth)
          (set_mutex_owner (Some u) mx))) ;;
    _ ← lift (rt_ipc_list_resume (LSuspend (OMutex m)));
    mret true
  else
    mod_mutex m (fun mx =>
      set_mutex_original_priority 255
        (set_mutex_owner None
          (set_mutex_value (uint16 (mutex_value mx + 1)) mx))) ;;
    mret false.

Definition rt_mutex_release (m : Z) : M kstate Z :=
  lift RT_DEBUG_IN_THREAD_CONTEXT ;;
  t ← lift current_thread;
  mx ← mutex m;
  if negb (bool_decide (Some t = mutex_owner mx)) then
    lift (mod_thread t (set_th_error (- RT_ERROR))) ;;
    mret (- RT_ERROR)
  else
    mod_mutex m (set_mutex_hold (uint8 (mutex_hold mx - 1))) ;;
    mx ← mutex m;
    need_schedule ←
      (if mutex_hold mx =? 0 then
         oth ← lift (thread t);
         (if negb (mutex_original_priority mx =? th_current_priority oth) then
            _ ← lift (rt_thread_control t RT_THREAD_CTRL_CHANGE_PRIORITY (mutex_original_priority mx));
            mret tt
          else mret tt) ;;
         mutex_pass m
       else mret false);
    (if (need_schedule : bool) then lift rt_schedule else mret tt) ;;
    mret RT_EOK.

Definition rt_mutex_control (m cmd arg : Z) : M kstate Z := mret (- RT_ERROR).

(** ** The abstract mutex: the owner with its nesting depth, and the waiting threads *)
Implicit Types (L : lnode -> option (list lnode)).
Record mutex_rep (k : kstate) L (m : Z) (own : option (Z * Z)) (ws : list Z) : Prop := {
  mr_inv : kinv (k_core k) L;
  mr_fields : match own with
    | None => mutex_value (k_mutexes k m) = 1 /\ mutex_owner (k_mutexes k m) = None /\ mutex_hold (k_mutexes k m) = 0
    | Some (o, n) => mutex_value (k_mutexes k m) = 0 /\ mutex_owner (k_mutexes k m) = Some o /\
        mutex_hold (k_mutexes k m) = n /\ 1 <= n <= 255 /\ o ∉ ws /\
        0 <= mutex_original_priority (k_mutexes k m) < RT_THREAD_PRIORITY_MAX
    end;
  mr_list : L (LSuspend (OMutex m)) = Some (LTlist <$> ws);
  mr_excl : own = None -> ws = []
}.
Definition mutex_flag (k : kstate) (m : Z) : Z := ob_flag (k_objs (k_core k) (OMutex m)).

Lemma kstate_prio k c u : prio_of (k_core (set_k_core c k)) u = prio_of c u.
Proof. done. Qed.

(** *** rt_mutex_take, the branches that do not wait *)
Definition upd_mutex (m : Z) (mx : rt_mutex) (k : kstate) : kstate := set_k_mutexes (<[m := mx]> (k_mutexes k)) k.

Lemma mutex_rep_upd k L m own ws own' ws' mx c :
  mutex_rep k L m own ws -> kinv c L -> ws' = ws ->
  mutex_rep (upd_mutex m mx (set_k_core c k)) L m own' ws' <->
  match own' with
  | None => mutex_value mx = 1 /\ mutex_owner mx = None /\ mutex_hold mx = 0
  | Some (o, n) => mutex_value mx = 0 /\ mutex_owner mx = Some o /\ mutex_hold mx = n /\ 1 <= n <= 255 /\ o ∉ ws' /\
        0 <= mutex_original_priority mx < RT_THREAD_PRIORITY_MAX
  end /\ (own' = None -> ws' = []).
Proof.
  intros [M1 M2 M3 M4] Hk ->. split.
  - intros [N1 N2 N3 N4]. split; [|done]. unfold upd_mutex in N2. revert N2; ksimpl. by rewrite upd_eq.
  - intros [N1 N2]. split; [done| |done|done]. unfold upd_mutex; ksimpl. by rewrite upd_eq.
Qed.

(** Waiting for a mutex that thread [o] owns, in a state [c1] where [o] has at least the
    priority of the caller. *)
Lemma wp_mutex_block k L c1 L1 m o n ws t time Q :
  mutex_rep k L m (Some (o, n)) ws -> caller (k_core k) t -> o <> t -> ipc_flag_ok (mutex_flag k m) -> lists_short L ->
  (length ws < loop_fuel)%nat -> time < RT_TICK_MAX / 2 ->
  kinv c1 L1 -> core_same (k_core k) c1 -> (forall u, u <> o -> k_threads c1 u = k_threads (with_error RT_EOK t (k_core k)) u) ->
  thread_stat c1 o = thread_stat (k_core k) o -> prio_of c1 o = Z.min (prio_of (k_core k) o) (prio_of (k_core k) t) ->
  k_objs c1 = k_objs (k_core k) ->
  (forall h xs, wait_head h -> L h = Some xs -> L1 h = Some xs) -> (forall soft l, L1 (LTimerHead soft l) = L (LTimerHead soft l)) ->
  (forall c' L', let ws' := enqueue (mutex_flag k m) (prio_of (k_core k)) t ws in
     L' (LSuspend (OMutex m)) = Some (LTlist <$> ws') ->
     thread_stat c' t = RT_THREAD_SUSPEND -> th_error (k_threads c' t) = RT_EOK ->
     prio_of c' o = Z.min (prio_of (k_core k) o) (prio_of (k_core k) t) ->
     (forall u, u <> o -> prio_of c' u = prio_of (k_core k) u) ->
     k_current_thread c' <> Some t -> (0 < time -> timer_activated c' (TThread t) = true) ->
     mutex_rep (set_k_core c' k) L' m (Some (o, n)) ws' -> Q (Waiting t) (set_k_core c' k)) ->
  wp (flag ← lift (object_flag (OMutex m)); lift (block_on (LSuspend (OMutex m)) t flag time) ;; mret (Waiting (A := Z) t)) Q (set_k_core c1 k).
Proof.
  intros [M1 M2 M3 M4] Hca Hot Hfl Hsh Hlen Htime Hk1 (S1 & S2 & S3 & S4 & S5) Eth Eso Epo Eob HL1 HT1 HQ.
  destruct M2 as (V & O & Hh & Hn' & Hon & Hor). set (mx := k_mutexes k m) in *.
  do 2 wp1. unfold object_flag. do 2 wp1. wp1. do 2 wp1.
  ksimpl. rewrite Eob. fold (mutex_flag k m).
  assert (k_threads c1 t = set_th_error RT_EOK (k_threads (k_core k) t)) as Et.
  { rewrite Eth by done. unfold with_error; ksimpl. by rewrite upd_eq. }
  assert (forall u, thread_stat c1 u = thread_stat (k_core k) u) as Es.
  { intros u. destruct (decide (u = o)) as [->|]; [done|]. unfold thread_stat. rewrite Eth by done. apply thread_stat_error. }
  assert (forall u, u <> o -> prio_of c1 u = prio_of (k_core k) u) as Ep.
  { intros u Hu. unfold prio_of. rewrite Eth by done. apply prio_of_error. }
  assert (forall u, u = t \/ u ∈ ws -> prio_of c1 u = prio_of (k_core k) u) as Epw.
  { intros u Hu. apply Ep. intros ->. destruct Hu; [by apply Hot|done]. }
  assert (enqueue (mutex_flag k m) (prio_of c1) t ws = enqueue (mutex_flag k m) (prio_of (k_core k)) t ws) as Eq.
  { unfold enqueue. case_match; [done|]. clear - Epw. induction ws as [|w ws IH]; cbn; [done|].
    rewrite !Epw by (rewrite ?elem_of_cons; auto). rewrite IH; [done|]. intros u Hu. apply Epw. rewrite elem_of_cons. tauto. }
  eapply (wp_block_on c1 L1); [exact Hk1| |done|by apply HL1|done|done|intros soft xs; rewrite HT1; apply Hsh|done|].
  { destruct Hca as [C1 C2 C3 C4 (u & Hu & C5)]. split; [congruence|by rewrite Es|congruence|congruence|].
    exists u. by rewrite Es. }
  rewrite Eq. intros c' L' Hb _. wp1. ksimpl.
  destruct (bl_current _ _ _ _ _ _ _ Hb) as (u & Hu & Hru & _).
  apply (HQ c' L'); try done; try apply Hb.
  - rewrite (bl_error _ _ _ _ _ _ _ Hb), Et. done.
  - unfold prio_of at 1. rewrite (bl_others _ _ _ _ _ _ _ Hb) by done. exact Epo.
  - intros v Hv. destruct (decide (v = t)) as [->|Hvt].
    + assert (prio_of c' t = prio_of c1 t) as ->; [|by apply Ep].
      by rewrite (bl_prio _ _ _ _ _ _ _ Hb).
    + unfold prio_of at 1. rewrite (bl_others _ _ _ _ _ _ _ Hb) by done. by apply Ep.
  - rewrite Hu. intros [= ->]. pose proof (bl_stat _ _ _ _ _ _ _ Hb) as Hs. by rewrite Hs in Hru.
  - split; [apply Hb| |apply Hb|done]. ksimpl. fold mx. repeat split; try done; try lia.
    rewrite enqueue_elem. intros [?|?]; [by apply Hot|done].
Qed.
Lemma wp_mutex_take k L m own ws t time Q :
  mutex_rep k L m own ws -> caller (k_core k) t -> ipc_flag_ok (mutex_flag k m) -> lists_short L ->
  (length ws < loop_fuel)%nat -> time < RT_TICK_MAX / 2 ->
  (forall n, own = Some (t, n) -> n < 255) ->
  let c0 := with_error RT_EOK t (k_core k) in let mx := k_mutexes k m in
  (own = None -> let k' := upd_mutex m (mk_mutex 0 (prio_of (k_core k) t) 1 (Some t)) (set_k_core c0 k) in
     mutex_rep k' L m (Some (t, 1)) [] -> Q (Returned RT_EOK) k') ->
  (forall n, own = Some (t, n) -> let k' := upd_mutex m (set_mutex_hold (n + 1) mx) (set_k_core c0 k) in
     mutex_rep k' L m (Some (t, n + 1)) ws -> Q (Returned RT_EOK) k') ->
  (forall o n, own = Some (o, n) -> o <> t -> time = 0 ->
     let k' := set_k_core (with_error (- RT_ETIMEOUT) t c0) k in
     mutex_rep k' L m own ws -> Q (Returned (- RT_ETIMEOUT)) k') ->
  (forall o n c' L', own = Some (o, n) -> o <> t -> time <> 0 ->
     let ws' := enqueue (mutex_flag k m) (prio_of (k_core k)) t ws in
     L' (LSuspend (OMutex m)) = Some (LTlist <$> ws') ->
     thread_stat c' t = RT_THREAD_SUSPEND -> th_error (k_threads c' t) = RT_EOK ->
     prio_of c' o = Z.min (prio_of (k_core k) o) (prio_of (k_core k) t) ->
     (forall u, u <> o -> prio_of c' u = prio_of (k_core k) u) ->
     k_current_thread c' <> Some t -> (0 < time -> timer_activated c' (TThread t) = true) ->
     mutex_rep (set_k_core c' k) L' m own ws' -> Q (Waiting t) (set_k_core c' k)) ->
  wp (rt_mutex_take m time) Q k.
Proof.
  intros Hm Hca Hfl Hsh Hlen Htime Hn c0 mx H1 H2 H3 H4. pose proof Hm as [M1 M2 M3 M4].
  assert (kinv c0 L) as Hk0 by (by apply kinv_error).
  pose proof (ki_masks _ _ M1 t (or_introl (ca_ready _ _ Hca))) as [Hpt _].
  unfold rt_mutex_take, mutex, mod_mutex. do 2 wp1.
  apply thread_context_run; [by rewrite (ca_current _ _ Hca)|apply (ca_nest _ _ Hca)|].
  do 2 wp1. apply (current_thread_run _ t); [apply (ca_current _ _ Hca)|]. wp1. apply wp_set_error.
  change (set_k_core (k_core k) k) with (set_k_core (k_core k) k). do 2 wp1. ksimpl. fold c0 mx.
  destruct own as [[o n]|].
  - destruct M2 as (V & O & Hh & Hn' & Hon & Hor). fold mx in V, O, Hh, Hor. rewrite O. destruct (decide (Some o = Some t)) as [[= ->]|Hne].
    + do 2 wp1. wp1. rewrite Hh, uint_small by (specialize (Hn n eq_refl); lia).
      apply (H2 n eq_refl). eapply mutex_rep_upd; [exact Hm|done|done|]. cbn. specialize (Hn n eq_refl).
      repeat split; try done; lia.
    + assert (o <> t) as Hot by congruence. rewrite V. cbn [Z.gtb Z.compare].
      destruct (Z.eqb_spec time 0) as [->|Ht].
      { do 3 wp1. wp1. ksimpl. apply (H3 o n eq_refl Hot eq_refl). split; [by apply kinv_error| |done|done].
        ksimpl. by fold mx. }
      wp1. unfold deref_owner. rewrite O. wp1. wp1. apply wp_lift_thread. wp1. apply wp_lift_thread. ksimpl.
      assert (forall u, th_current_priority (k_threads c0 u) = prio_of (k_core k) u) as Ep0 by (intros; apply prio_of_error).
      rewrite !Ep0.
      wp1. destruct (Z.ltb_spec (prio_of (k_core k) t) (prio_of (k_core k) o)) as [Hlt|Hge].
      * do 2 wp1. eapply (wp_change_priority_wait c0 L o); [done|exact Hpt|].
        intros c1 L1 Hk1 Hsame Eth Eob HL1 HT1. wp1.
        apply (wp_mutex_block k L c1 L1 m o n ws t time); try done.
        -- intros u Hu. by rewrite Eth, with_priority_other.
        -- unfold thread_stat at 1. rewrite Eth, with_priority_same. etrans; [apply new_priority_fields|]. apply thread_stat_error.
        -- unfold prio_of at 1. rewrite Eth, with_priority_same, (proj1 (new_priority_fields _ _)). fold (prio_of (k_core k) t). lia.
        -- intros c' L' ws' K1 K2 K3 K4 K5 K6 K7 K8. by apply (H4 o n c' L').
      * wp1. apply (wp_mutex_block k L c0 L m o n ws t time); try done.
        -- apply thread_stat_error.
        -- unfold c0. rewrite prio_of_error. lia.
        -- intros c' L' ws' K1 K2 K3 K4 K5 K6 K7 K8. by apply (H4 o n c' L').
  - destruct M2 as (V & O & Hh). fold mx in V, O, Hh. rewrite O. rewrite decide_False by done. rewrite V.
    assert (forall pr, pr = prio_of (k_core k) t -> set_mutex_hold (uint8 (mutex_hold mx + 1)) (set_mutex_original_priority pr
       (set_mutex_owner (Some t) (set_mutex_value (uint16 (mutex_value mx - 1)) mx))) = mk_mutex 0 (prio_of (k_core k) t) 1 (Some t)) as E.
    { intros pr ->. unfold set_mutex_hold, set_mutex_original_priority, set_mutex_owner, set_mutex_value; cbn. by rewrite V, Hh. }
    cbn [Z.gtb Z.compare]. wp1. apply wp_lift_thread. do 2 wp1. ksimpl.
    change (k_mutexes k m) with mx. rewrite E by (apply prio_of_error). wp1.
    assert (ws = []) as -> by (by apply M4).
    apply (H1 eq_refl). eapply mutex_rep_upd; [exact Hm|done|done|]. cbn.
    repeat split; try done; try lia; try apply Hpt. by intros ?%elem_of_nil.
Qed.

(** *** rt_mutex_release *)
Lemma wp_mutex_pass k L m o ws Q :
  kinv (k_core k) L -> L (LSuspend (OMutex m)) = Some (LTlist <$> ws) ->
  let mx := k_mutexes k m in
  mutex_value mx = 0 -> mutex_owner mx = Some o -> mutex_hold mx = 0 ->
  (ws = [] -> let k' := upd_mutex m (mk_mutex 1 255 0 None) k in
     mutex_rep k' L m None [] -> Q false k') ->
  (forall w ws' c' L', ws = w :: ws' -> let k' := upd_mutex m (mk_mutex 0 (prio_of (k_core k) w) 1 (Some w)) (set_k_core c' k) in
     kinv c' L' -> mutex_rep k' L' m (Some (w, 1)) ws' -> thread_stat c' w = RT_THREAD_READY ->
     core_same (k_core k) c' ->
     (forall u, prio_of c' u = prio_of (k_core k) u) -> (forall u, th_error (k_threads c' u) = th_error (k_threads (k_core k) u)) ->
     (forall u, thread_stat (k_core k) u = RT_THREAD_READY -> thread_stat c' u = RT_THREAD_READY) -> Q true k') ->
  wp (mutex_pass m) Q k.
Proof.
  intros H HL mx V O Hh H1 H2. unfold mutex_pass, mod_mutex. do 2 wp1. rewrite (rep_isempty _ _ _ _ (kinv_rep _ _ H) HL).
  destruct ws as [|w ws'].
  - rewrite bool_decide_true by done. cbn [negb]. do 2 wp1. ksimpl. change (k_mutexes k m) with mx. wp1.
    assert (set_mutex_original_priority 255 (set_mutex_owner None (set_mutex_value (uint16 (mutex_value mx + 1)) mx)) = mk_mutex 1 255 0 None) as ->.
    { unfold set_mutex_original_priority, set_mutex_owner, set_mutex_value; cbn. by rewrite V, Hh. }
    apply (H1 eq_refl). split; [done| |done|done]. unfold upd_mutex; ksimpl. by rewrite upd_eq.
  - rewrite bool_decide_false by done. cbn [negb]. do 2 wp1. rewrite (rep_next_head _ _ _ _ (kinv_rep _ _ H) HL).
    cbn [hd fmap list_fmap rt_thread_entry]. wp1. wp1. wp1. wp1. apply wp_lift_thread. do 2 wp1. ksimpl.
    change (k_mutexes k m) with mx.
    assert (set_mutex_hold (uint8 (mutex_hold mx + 1)) (set_mutex_original_priority (th_current_priority (k_threads (k_core k) w)) (set_mutex_owner (Some w) mx))
      = mk_mutex 0 (prio_of (k_core k) w) 1 (Some w)) as E.
    { unfold set_mutex_hold, set_mutex_original_priority, set_mutex_owner; cbn. by rewrite V, Hh. }
    ksimpl. rewrite E. do 2 wp1. ksimpl. 
    assert (thread_stat (k_core k) w = RT_THREAD_SUSPEND) as Hw.
    { eapply (lo_wait _ _ _ (ki_lists _ _ H)); [|exact HL|by left]. done. }
    assert (NoDup (w :: ws')) as [Hnw _]%NoDup_cons by (eapply NoDup_fmap_1, (rep_NoDup _ _ _ _ (kinv_rep _ _ H) HL)).
    eapply wp_ipc_list_resume; [exact H|done|exact HL|]. intros ts lk g tb c' L' Hk HL' Hs. wp1.
    apply (H2 w ws' c' L' eq_refl Hk).
    + split; [exact Hk| |exact HL'|done]. unfold upd_mutex; ksimpl. rewrite upd_eq. cbn.
      repeat split; try done; try lia; apply (ki_masks _ _ H w); by right.
    + exact Hs.
    + apply stopped_core_same.
    + intros u. unfold c'; cbn. apply (same_prio_stat RT_THREAD_READY w (k_core k) u).
    + intros u. unfold c'; cbn. unfold with_stat. rewrite upd_case. case_decide; by subst.
    + intros u Hu. unfold c', thread_stat; cbn. unfold with_stat. rewrite upd_case. by case_decide.
Qed.

Inductive mutex_take_step (q : Z -> list Z -> list Z) (t time : Z) :
  option (Z * Z) -> list Z -> outcome Z Z -> option (Z * Z) -> list Z -> Prop :=
| mtake_free : mutex_take_step q t time None [] (Returned RT_EOK) (Some (t, 1)) []
| mtake_again n ws : mutex_take_step q t time (Some (t, n)) ws (Returned RT_EOK) (Some (t, n + 1)) ws
| mtake_timeout o n ws : o <> t -> time = 0 ->
    mutex_take_step q t time (Some (o, n)) ws (Returned (- RT_ETIMEOUT)) (Some (o, n)) ws
| mtake_wait o n ws : o <> t -> time <> 0 ->
    mutex_take_step q t time (Some (o, n)) ws (Waiting t) (Some (o, n)) (q t ws).
Inductive mutex_release_step (t : Z) : option (Z * Z) -> list Z -> Z -> option (Z * Z) -> list Z -> Prop :=
| mrel_other own ws : (forall n, own <> Some (t, n)) -> mutex_release_step t own ws (- RT_ERROR) own ws
| mrel_nested n ws : 1 < n -> mutex_release_step t (Some (t, n)) ws RT_EOK (Some (t, n - 1)) ws
| mrel_free : mutex_release_step t (Some (t, 1)) [] RT_EOK None []
| mrel_pass w ws : mutex_release_step t (Some (t, 1)) (w :: ws) RT_EOK (Some (w, 1)) ws.

(** C14 rt_mutex_take implements the abstract take: a free mutex is acquired, the
    owner nests, and any other thread fails at once or queues; a caller of higher
    priority than the owner lends it its priority while it waits. *)
Theorem rt_mutex_take_refines k L m own ws t time :
  mutex_rep k L m own ws -> caller (k_core k) t -> ipc_flag_ok (mutex_flag k m) -> lists_short L ->
  (length ws < loop_fuel)%nat -> time < RT_TICK_MAX / 2 ->
  (forall n, own = Some (t, n) -> n < 255) ->
  exists r k' L' own' ws', rt_mutex_take m time k = Some (r, k') /\
    mutex_take_step (enqueue (mutex_flag k m) (prio_of (k_core k))) t time own ws r own' ws' /\
    mutex_rep k' L' m own' ws' /\
    (r = Waiting t -> thread_stat (k_core k') t = RT_THREAD_SUSPEND /\ k_current_thread (k_core k') <> Some t /\
       forall o n, own = Some (o, n) ->
         prio_of (k_core k') o = Z.min (prio_of (k_core k) o) (prio_of (k_core k) t)).
Proof.
  intros H Hca Hfl Hsh Hlen Htime Hn.
  cut (wp (rt_mutex_take m time) (fun r k' => exists L' own' ws',
    mutex_take_step (enqueue (mutex_flag k m) (prio_of (k_core k))) t time own ws r own' ws' /\ mutex_rep k' L' m own' ws' /\
    (r = Waiting t -> thread_stat (k_core k') t = RT_THREAD_SUSPEND /\ k_current_thread (k_core k') <> Some t /\
       forall o n, own = Some (o, n) ->
         prio_of (k_core k') o = Z.min (prio_of (k_core k) o) (prio_of (k_core k) t))) k).
  { intros (r & k' & E & L' & own' & ws' & H')%wp_run. by exists r, k', L', own', ws'. }
  eapply wp_mutex_take; [exact H|done|done|done|done|done|done|..].
  - intros -> k' H'. pose proof (mr_excl _ _ _ _ _ H eq_refl) as ->. exists L, (Some (t, 1)), [].
    split; [constructor|done].
  - intros n -> k' H'. exists L, (Some (t, n + 1)), ws. split; [constructor|done].
  - intros o n -> Ho -> k' H'. exists L, (Some (o, n)), ws. split; [by constructor|done].
  - intros o n c' L' -> Ho Ht ws' HL Hs He Hp Hpo Hcur Hact H'. exists L', (Some (o, n)), ws'.
    split; [by constructor|]. split; [done|]. intros _. split; [done|]. split; [done|]. by intros o' n' [= <- <-].
Qed.

(** What the last release promises of the state [k'] it ends in. *)
Definition mutex_released (k : kstate) (m t : Z) (own : option (Z * Z)) (ws : list Z) (r : Z) (k' : kstate) : Prop :=
  exists L' own' ws', mutex_release_step t own ws r own' ws' /\ mutex_rep k' L' m own' ws' /\
    (own = Some (t, 1) -> prio_of (k_core k') t = mutex_original_priority (k_mutexes k m) /\
       forall w n, own' = Some (w, n) -> thread_stat (k_core k') w = RT_THREAD_READY).
(** The hold count is 0 and the owner has its own priority again. *)
Lemma wp_mutex_hand_over k k1 c1 L1 m t ws :
  let mx := k_mutexes k m in
  k1 = upd_mutex m (set_mutex_hold 0 mx) k -> mutex_value mx = 0 -> mutex_owner mx = Some t ->
  kinv c1 L1 -> L1 (LSuspend (OMutex m)) = Some (LTlist <$> ws) ->
  prio_of c1 t = mutex_original_priority mx -> (k_lock_nest c1 = 0 -> thread_stat c1 t = RT_THREAD_READY) ->
  wp (mutex_pass m) (fun a s' => wp ((if a : bool then lift rt_schedule else mret tt) ;; mret RT_EOK)
    (mutex_released k m t (Some (t, 1)) ws) s') (set_k_core c1 k1).
Proof.
  intros mx -> V O Hk1 HL1 Hp1 Hr1. eapply (wp_mutex_pass _ L1 m t ws); ksimpl; [done|done|..];
    unfold upd_mutex; ksimpl; rewrite ?upd_eq; try done.
  - intros -> H'. cbn beta iota. wp1. wp1. wp1. exists L1, None, []. split; [constructor|]. split; [exact H'|].
    intros _. split; [exact Hp1|done].
  - intros w ws' c' L' -> Hk' H' Hw Hsame Hpr _ _. cbn beta iota. do 2 wp1. unfold upd_mutex; ksimpl.
    eapply wp_schedule_kinv; [exact Hk'|by eauto|]. intros c2 (cur & prio & sw & ->) Hk2 _ _. cbn beta iota. wp1.
    exists L', (Some (w, 1)), ws'. split; [constructor|]. split.
    + destruct H' as [N1 N2 N3 N4]. split; [exact Hk2| |done|done]. unfold upd_mutex in N2. revert N2; ksimpl. by rewrite !upd_eq.
    + intros _. split; [etrans; [apply Hpr|exact Hp1]|]. by intros w' n' [= <- <-].
Qed.

(** C15 rt_mutex_release implements the abstract release: only the owner releases;
    the last release gives the owner its own priority back and passes the mutex to
    the first waiting thread, which becomes READY, or frees it. *)
Theorem rt_mutex_release_refines k L m own ws t :
  mutex_rep k L m own ws -> caller (k_core k) t ->
  exists r k' L' own' ws', rt_mutex_release m k = Some (r, k') /\
    mutex_release_step t own ws r own' ws' /\ mutex_rep k' L' m own' ws' /\
    (own = Some (t, 1) -> prio_of (k_core k') t = mutex_original_priority (k_mutexes k m) /\
       forall w n, own' = Some (w, n) -> thread_stat (k_core k') w = RT_THREAD_READY).
Proof.
  intros H Hca. pose proof H as [M1 M2 M3 M4].
  cut (wp (rt_mutex_release m) (mutex_released k m t own ws) k).
  { intros (r & k' & E & L' & own' & ws' & H')%wp_run. by exists r, k', L', own', ws'. }
  unfold rt_mutex_release, mutex, mod_mutex. do 2 wp1.
  apply thread_context_run; [by rewrite (ca_current _ _ Hca)|apply (ca_nest _ _ Hca)|].
  do 2 wp1. apply (current_thread_run _ t); [apply (ca_current _ _ Hca)|]. do 2 wp1. ksimpl.
  assert (set_k_core (k_core k) k = k) as Ek by (by destruct k). rewrite Ek. set (mx := k_mutexes k m) in *.
  destruct (decide (mutex_owner mx = Some t)) as [Ho|Ho].
  2: { rewrite bool_decide_false by congruence. cbn [negb]. wp1. apply wp_set_error. wp1. exists L, own, ws.
       assert (forall n, own <> Some (t, n)) as Hno by (intros n ->; destruct M2 as (_ & ? & _); congruence).
       split; [by constructor|]. split; [|intros E; by destruct (Hno 1)].
       split; [by apply kinv_error|done|done|done]. }
  rewrite bool_decide_true by done. cbn [negb].
  destruct own as [[o n]|]; [|destruct M2 as (_ & ? & _); congruence].
  destruct M2 as (V & O & Hh & Hn & Hon & Hor). rewrite O in Ho. injection Ho as ->.
  do 2 wp1. ksimpl. rewrite (uint_small 8) by lia. do 2 wp1. ksimpl. rewrite upd_eq. fold mx. wp1.
  cbn [mutex_hold set_mutex_hold mutex_original_priority].
  set (mx1 := set_mutex_hold (mutex_hold mx - 1) mx). set (k1 := set_k_mutexes (<[m := mx1]> (k_mutexes k)) k).
  match goal with |- wp _ _ ?s => change s with k1 end. rewrite Hh. destruct (Z.eqb_spec (n - 1) 0) as [En|En].
  - assert (n = 1) as -> by lia. wp1. apply wp_lift_thread. change (k_core k1) with (k_core k). wp1.
    destruct (Z.eqb_spec (mutex_original_priority mx) (th_current_priority (k_threads (k_core k) t))) as [Eo|Eo]; cbn [negb].
    + wp1. assert (k1 = set_k_core (k_core k) k1) as -> by (unfold k1; by destruct k).
      apply (wp_mutex_hand_over k k1 (k_core k) L m t ws); [by unfold k1, mx1; rewrite Hh|done|done|done|done|by symmetry|intros _; apply (ca_ready _ _ Hca)].
    + do 2 wp1. eapply (wp_change_priority_wait _ L t); [exact M1|done|].
      intros c1 L1 Hk1 Hsame Eth Eob HL1 HT1. wp1. apply (wp_mutex_hand_over k k1 c1 L1 m t ws); [by unfold k1, mx1; rewrite Hh|done|done|done|by apply HL1| |].
      * unfold prio_of. rewrite Eth, with_priority_same. apply new_priority_fields.
      * intros _. unfold thread_stat. rewrite Eth, with_priority_same. etrans; [apply new_priority_fields|apply (ca_ready _ _ Hca)].
  - wp1. wp1. wp1. wp1. exists L, (Some (t, n - 1)), ws. split; [constructor; lia|]. split.
    + split; [done| |done|done]. unfold k1; ksimpl. rewrite upd_eq. cbn. repeat split; try done; lia.
    + intros [= ->]. lia.
Qed.
End mutex.
