(* ===== verification/Event.v ===== *)
(** Events (src/ipc.c, the rt_event functions). *)
From S2P Require Import Prelude RtList Kservice Kernel Scheduler Object TimerCore Invariant Thread Timer Ipc.

Section event.
Context {cfg : Config} {kh : KHeap} {sz : ObjectSizes} {st : StaticThreads}.

Definition event (e : Z) : M kstate rt_event := gets (fun k => k_events k e).
Definition mod_event (e : Z) (f : rt_event -> rt_event) : M kstate unit :=
  modify (fun k => set_k_events (<[e := f (k_events k e)]> (k_events k)) k).

Definition rt_event_init (e : Z) (name : list Z) (flag : Z) : M kstate Z :=
  lift (rt_object_init (OEvent e) RT_Object_Class_Event name) ;;
  lift (mod_object (OEvent e) (set_ob_flag flag)) ;;
  _ ← lift (rt_ipc_object_init (OEvent e));
  mod_event e (set_event_set 0) ;;
  mret RT_EOK.

Definition rt_event_detach (e : Z) : M kstate Z :=
  _ ← lift (rt_ipc_list_resume_all (LSuspend (OEvent e)));
  lift (rt_object_detach (OEvent e)) ;;
  mret RT_EOK.

Definition rt_event_create (name : list Z) (flag : Z) : M kstate (option Z) :=
  lift RT_DEBUG_NOT_IN_INTERRUPT ;;
  p ← lift (rt_object_allocate RT_Object_Class_Event name);
  match p with
  | None => mret None
  | Some e =>
    lift (mod_object (OEvent e) (set_ob_flag flag)) ;;
    _ ← lift (rt_ipc_object_init (OEvent e));
    mod_event e (set_event_set 0) ;;
    mret (Some e)
  end.

Definition rt_event_delete (e : Z) : M kstate Z :=
  lift RT_DEBUG_NOT_IN_INTERRUPT ;;
  _ ← lift (rt_ipc_list_resume_all (LSuspend (OEvent e)));
  lift (rt_object_delete (OEvent e)) ;;
  mret RT_EOK.

Definition flag_set (v mask : Z) : bool := negb (Z.land v mask =? 0).

(** What rt_event_send decides for one waiting thread, given the event set:
    whether it wakes, and what its event set becomes. *)
Definition event_match (th : rt_thread) (set : Z) : option Z :=
  if flag_set (th_event_info th) RT_EVENT_FLAG_AND then
    if Z.land (th_event_set th) set =? th_event_set th then Some (th_event_set th) else None
  else if flag_set (th_event_info th) RT_EVENT_FLAG_OR then
    if flag_set (th_event_set th) set then Some (Z.land (th_event_set th) set) else None
  else None.

Fixpoint event_send_loop (fuel : nat) (e : Z) (n : lnode) (need_schedule : bool) : M kstate bool :=
  match fuel with
  | O => diverge
  | S fuel =>
    if decide (n = LSuspend (OEvent e)) then mret need_schedule
    else
      t ← lift (rt_thread_entry n);
      th ← lift (thread t);
      ev ← event e;
      match event_match th (event_set ev) with
      | Some s =>
        lift (mod_thread t (set_th_event_set s)) ;;
        n ← gets (fun k => l_next (k_links (k_core k)) n);
        (if flag_set (th_event_info th) RT_EVENT_FLAG_CLEAR then
           mod_event e (fun ev => set_event_set (Z.land (event_set ev) (uint32 (Z.lnot s))) ev)
         else mret tt) ;;
        _ ← lift (rt_thread_resume t);
        event_send_loop fuel e n true
      | None =>
        n ← gets (fun k => l_next (k_links (k_core k)) n);
        event_send_loop fuel e n need_schedule
      end
  end.

Definition rt_event_send (e set : Z) : M kstate Z :=
  if set =? 0 then mret (- RT_ERROR)
  else
    mod_event e (fun ev => set_event_set (Z.lor (event_set ev) set) ev) ;;
    empty ← gets (fun k => rt_list_isempty (k_links (k_core k)) (LSuspend (OEvent e)));
    need_schedule ←
      (if negb empty then
         n ← gets (fun k => l_next (k_links (k_core k)) (LSuspend (OEvent e)));
         event_send_loop loop_fuel e n false
       else mret false);
    (if (need_schedule : bool) then lift rt_schedule else mret tt) ;;
    mret RT_EOK.

(** The result is the error code and what is stored in [*recved], if anything. *)
Definition rt_event_recv (e set option timeout : Z) : M kstate (outcome Z (Z * Datatypes.option Z)) :=
  lift RT_DEBUG_IN_THREAD_CONTEXT ;;
  if set =? 0 then mret (Returned (- RT_ERROR, None))
  else
    t ← lift current_thread;
    lift (mod_thread t (set_th_error RT_EOK)) ;;
    ev ← event e;
    ok ←
      (if flag_set option RT_EVENT_FLAG_AND then mret (Z.land (event_set ev) set =? set)
       else if flag_set option RT_EVENT_FLAG_OR then mret (flag_set (event_set ev) set)
       else rt_assert false ;; mret false);
    if (ok : bool) then
      (if flag_set option RT_EVENT_FLAG_CLEAR then
         mod_event e (fun ev => set_event_set (Z.land (event_set ev) (uint32 (Z.lnot set))) ev)
       else mret tt) ;;
      th ← lift (thread t);
      mret (Returned (th_error th, Some (Z.land (event_set ev) set)))
    else if timeout =? 0 then
      lift (mod_thread t (set_th_error (- RT_ETIMEOUT))) ;;
      th ← lift (thread t);
      mret (Returned (th_error th, None))
    else
      lift (mod_thread t (set_th_event_set set)) ;;
      lift (mod_thread t (set_th_event_info option)) ;;
      flag ← lift (object_flag (OEvent e));
      lift (block_on (LSuspend (OEvent e)) t flag timeout) ;;
      mret (Waiting t).
Definition rt_event_recv_resumed (t : Z) : M kstate (Z * Datatypes.option Z) :=
  th ← lift (thread t);
  if negb (th_error th =? RT_EOK) then mret (th_error th, None)
  else mret (th_error th, Some (th_event_set th)).

Definition rt_event_control (e cmd arg : Z) : M kstate Z :=
  if cmd =? RT_IPC_CMD_RESET then
    _ ← lift (rt_ipc_list_resume_all (LSuspend (OEvent e)));
    mod_event e (set_event_set 0) ;;
    lift rt_schedule ;;
    mret RT_EOK
  else mret (- RT_ERROR).

(** ** The abstract event: the set of pending bits and the waiting threads *)
Implicit Types (L : lnode -> Datatypes.option (list lnode)).
Record event_rep (k : kstate) L (e set : Z) (ws : list Z) : Prop := {
  er_inv : kinv (k_core k) L;
  er_set : event_set (k_events k e) = set;
  er_range : 0 <= set < 2 ^ 32;
  er_list : L (LSuspend (OEvent e)) = Some (LTlist <$> ws)
}.

(** *** What a waiting thread is owed, event by event
    A word holds 32 events, one per bit.  The reference says for each event what
    becomes of it; the code computes with whole words. *)
Definition word (f : Z -> bool) : Z := foldr (fun i v => if f i then Z.setbit v i else v) 0 (seqZ 0 32).
Definition each_event (f : Z -> bool) : bool := forallb f (seqZ 0 32).
Definition waits_for_all (th : rt_thread) : bool := Z.testbit (th_event_info th) 0.
Definition waits_for_any (th : rt_thread) : bool := Z.testbit (th_event_info th) 1.
Definition takes_events (th : rt_thread) : bool := Z.testbit (th_event_info th) 2.

(** The events [th] receives when [set] is pending, if it is to be woken: all it
    asked for once they are all there, or those of them that are there. *)
Definition event_due (th : rt_thread) (set : Z) : Datatypes.option Z :=
  let asked := Z.testbit (th_event_set th) in
  let pending := Z.testbit set in
  if waits_for_all th then
    if each_event (fun i => implb (asked i) (pending i)) then Some (word asked) else None
  else if waits_for_any th then
    if each_event (fun i => negb (asked i && pending i)) then None
    else Some (word (fun i => asked i && pending i))
  else None.
(** What is pending after [th] received [s]. *)
Definition events_left (th : rt_thread) (s set : Z) : Z :=
  if takes_events th then word (fun i => Z.testbit set i && negb (Z.testbit s i)) else set.

(** One pass over the waiting threads: the final set, the woken threads with the
    bits they received, and the threads that go on waiting. *)
Fixpoint event_pass (thr : Z -> rt_thread) (set : Z) (ws : list Z) : Z * list (Z * Z) * list Z :=
  match ws with
  | [] => (set, [], [])
  | w :: ws =>
    match event_due (thr w) set with
    | Some s =>
      let '(set', woken, rest) := event_pass thr (events_left (thr w) s set) ws in (set', (w, s) :: woken, rest)
    | None =>
      let '(set', woken, rest) := event_pass thr set ws in (set', woken, w :: rest)
    end
  end.

(** *** The code decides what the reference says *)
Lemma testbit_fold f l : NoDup l -> (forall i, i ∈ l -> 0 <= i) -> forall j, 0 <= j ->
  Z.testbit (foldr (fun i v => if (f i : bool) then Z.setbit v i else v) 0 l) j = bool_decide (j ∈ l) && f j.
Proof.
  induction l as [|i l IH]; intros Hnd Hl j Hj; cbn [foldr].
  - rewrite Z.testbit_0_l, bool_decide_false; [done|]. apply not_elem_of_nil.
  - apply NoDup_cons in Hnd as [Hi Hnd].
    assert (forall u, u ∈ l -> 0 <= u) as Hl' by (intros u Hu; apply Hl; by right).
    rewrite (bool_decide_ext (j ∈ i :: l) (j = i \/ j ∈ l)) by apply elem_of_cons.
    destruct (decide (j = i)) as [->|Hne].
    + rewrite bool_decide_true by (by left). destruct (f i) eqn:Ef; [rewrite Z.setbit_eq by done; done|].
      rewrite IH, Ef by done. by rewrite andb_false_r.
    + rewrite (bool_decide_ext (j = i \/ j ∈ l) (j ∈ l)) by tauto.
      destruct (f i); [rewrite Z.setbit_neq by (by (try apply Hl; try left) || congruence)|]; by apply IH.
Qed.
Lemma testbit_word f j : 0 <= j -> Z.testbit (word f) j = bool_decide (j < 32) && f j.
Proof.
  intros Hj. unfold word. rewrite testbit_fold by (try done; try apply NoDup_seqZ; intros i Hi%elem_of_seqZ; lia).
  f_equal. apply bool_decide_ext. rewrite elem_of_seqZ. lia.
Qed.
Lemma word_eq f v : 0 <= v < 2 ^ 32 -> (forall i, 0 <= i < 32 -> f i = Z.testbit v i) -> word f = v.
Proof.
  intros Hv H. apply Z.bits_inj'. intros i Hi. rewrite testbit_word by done. case_bool_decide as Hi32; [by apply H|].
  symmetry. apply (testbit_high 32); [done|lia].
Qed.
Lemma each_event_true f : each_event f = true <-> forall i, 0 <= i < 32 -> f i = true.
Proof.
  unfold each_event. rewrite forallb_forall. setoid_rewrite <- list_elem_of_In. setoid_rewrite elem_of_seqZ.
  split; intros H i Hi; apply H; lia.
Qed.
Lemma flag_set_bit v i : 0 <= i -> flag_set v (2 ^ i) = Z.testbit v i.
Proof. intros Hi. unfold flag_set. by rewrite land_pow2, negb_involutive. Qed.
Lemma land_range a b : 0 <= a < 2 ^ 32 -> 0 <= Z.land a b < 2 ^ 32.
Proof.
  intros Ha. assert (Z.land a b = uint32 (Z.land a b)) as ->; [|by apply uint_range].
  apply Z.bits_inj'. intros i Hi. destruct (decide (i < 32)); [by rewrite testbit_uint by lia|].
  rewrite (testbit_high 32 (uint32 _)) by (try apply uint_range; lia).
  rewrite Z.land_spec, (testbit_high 32 a) by lia. done.
Qed.

Lemma events_left_land th s set : 0 <= set < 2 ^ 32 -> 0 <= s < 2 ^ 32 ->
  events_left th s set = if flag_set (th_event_info th) RT_EVENT_FLAG_CLEAR then Z.land set (uint32 (Z.lnot s)) else set.
Proof.
  intros Hset Hs. unfold events_left, takes_events. rewrite <- (flag_set_bit _ 2) by lia. change (2 ^ 2) with RT_EVENT_FLAG_CLEAR.
  case_match; [|done]. apply word_eq; [by apply land_range|]. intros i Hi.
  by rewrite Z.land_spec, testbit_uint, Z.lnot_spec by lia.
Qed.
Lemma event_match_due th set : 0 <= th_event_set th < 2 ^ 32 -> 0 <= set < 2 ^ 32 -> event_match th set = event_due th set.
Proof.
  intros Ha Hset. unfold event_match, event_due, waits_for_all, waits_for_any.
  rewrite <- (flag_set_bit _ 0), <- (flag_set_bit _ 1) by lia. change (2 ^ 0) with RT_EVENT_FLAG_AND. change (2 ^ 1) with RT_EVENT_FLAG_OR.
  destruct (flag_set _ RT_EVENT_FLAG_AND); [|destruct (flag_set _ RT_EVENT_FLAG_OR); [|done]].
  - rewrite (word_eq (Z.testbit (th_event_set th)) (th_event_set th)) by done.
    destruct (each_event _) eqn:E.
    + rewrite each_event_true in E. case_match eqn:El; [done|]. apply Z.eqb_neq in El as []. symmetry.
      rewrite <- (word_eq (Z.testbit (th_event_set th)) (th_event_set th)) at 1 by done.
      apply word_eq; [by apply land_range|]. intros i Hi. specialize (E i Hi). rewrite Z.land_spec. by repeat destruct (Z.testbit _ _).
    + case_match eqn:El; [|done]. apply Z.eqb_eq in El. enough (each_event (fun i => implb (Z.testbit (th_event_set th) i) (Z.testbit set i)) = true) by congruence.
      apply each_event_true. intros i Hi. rewrite <- El at 1. rewrite Z.land_spec. by repeat destruct (Z.testbit _ _).
  - rewrite (word_eq _ (Z.land (th_event_set th) set)) by (try (by apply land_range); intros i Hi; by rewrite Z.land_spec).
    unfold flag_set. destruct (each_event _) eqn:E.
    + rewrite each_event_true in E. rewrite (proj2 (Z.eqb_eq _ _)); [done|]. apply Z.bits_inj'. intros i Hi. rewrite Z.testbit_0_l, Z.land_spec.
      destruct (decide (i < 32)); [|by rewrite (testbit_high 32 (th_event_set th)) by (done || lia)].
      apply negb_true_iff, E. lia.
    + case_match eqn:El; [done|]. apply negb_false_iff, Z.eqb_eq in El.
      enough (each_event (fun i => negb (Z.testbit (th_event_set th) i && Z.testbit set i)) = true) by congruence.
      apply each_event_true. intros i Hi. by rewrite <- Z.land_spec, El, Z.testbit_0_l.
Qed.
Lemma word_range f : 0 <= word f < 2 ^ 32.
Proof.
  assert (word f = uint32 (word f)) as ->; [|by apply uint_range]. apply Z.bits_inj'. intros i Hi.
  destruct (decide (i < 32)); [by rewrite testbit_uint by lia|].
  by rewrite (testbit_high 32 (uint32 _)), testbit_word, bool_decide_false by (try apply uint_range; lia).
Qed.
Lemma event_due_range th set s : event_due th set = Some s -> 0 <= s < 2 ^ 32.
Proof. unfold event_due. intros E. repeat case_match; simplify_eq; apply word_range. Qed.

Lemma event_pass_ext thr thr' ws : forall set,
  (forall w, w ∈ ws -> th_event_set (thr' w) = th_event_set (thr w) /\ th_event_info (thr' w) = th_event_info (thr w)) ->
  event_pass thr' set ws = event_pass thr set ws.
Proof.
  induction ws as [|w ws IH]; intros set H; [done|]. cbn.
  destruct (H w ltac:(by left)) as [E1 E2]. unfold event_due, events_left, waits_for_all, waits_for_any, takes_events. rewrite E1, E2.
  assert (forall w, w ∈ ws -> th_event_set (thr' w) = th_event_set (thr w) /\ th_event_info (thr' w) = th_event_info (thr w)) as H'
    by (intros u Hu; apply H; by right).
  repeat case_match; rewrite IH in * by done; congruence.
Qed.

Lemma event_pass_woken thr ws : forall set set' woken rest,
  event_pass thr set ws = (set', woken, rest) -> forall u s, (u, s) ∈ woken -> u ∈ ws.
Proof.
  induction ws as [|v ws IH]; cbn; intros set set' woken rest.
  - intros [= <- <- <-] u s Hin. by apply elem_of_nil in Hin.
  - destruct (event_due _ _).
    + destruct (event_pass _ _ ws) as [[? wk] ?] eqn:E. intros [= <- <- <-] u s [[= -> _]|Hin]%elem_of_cons; [by left|right; eauto].
    + destruct (event_pass _ _ ws) as [[? wk] ?] eqn:E. intros [= <- <- <-] u s Hin. right; eauto.
Qed.
Lemma events_left_range th s set : 0 <= set < 2 ^ 32 -> 0 <= events_left th s set < 2 ^ 32.
Proof. intros H. unfold events_left. case_match; [apply word_range|done]. Qed.

Lemma event_rep_core k L e set ws c L' ws' :
  event_rep k L e set ws -> kinv c L' -> L' (LSuspend (OEvent e)) = Some (LTlist <$> ws') -> event_rep (set_k_core c k) L' e set ws'.
Proof. intros [E1 E2 E3 E4] Hk HL. by split. Qed.

(** The thread [w] receives [s] and becomes READY. *)
Definition woken_with (s : Z) (th : rt_thread) : rt_thread := set_th_stat RT_THREAD_READY (set_th_event_set s th).
Lemma wp_event_wake e w s ws1 ws2 k k1 L set set1 Q :
  event_rep k L e set (ws1 ++ w :: ws2) ->
  k_core k1 = set_k_threads (<[w := set_th_event_set s (k_threads (k_core k) w)]> (k_threads (k_core k))) (k_core k) ->
  event_set (k_events k1 e) = set1 -> 0 <= set1 < 2 ^ 32 ->
  (forall k2 L2, event_rep k2 L2 e set1 (ws1 ++ ws2) -> core_same (k_core k) (k_core k2) ->
     (forall u, k_threads (k_core k2) u = if decide (u = w) then woken_with s (k_threads (k_core k) w) else k_threads (k_core k) u) ->
     Q RT_EOK k2) ->
  wp (lift (rt_thread_resume w)) Q k1.
Proof.
  intros [E1 E2 E3 E4] Ec Eset Hr HQ. set (th := k_threads (k_core k) w) in *. wp1. rewrite Ec. set (c1 := set_k_threads _ (k_core k)).
  assert (forall u, thread_stat c1 u = thread_stat (k_core k) u /\ same_prio (k_threads (k_core k) u) (k_threads c1 u)) as Hsame.
  { intros u. unfold c1, thread_stat; ksimpl. rewrite upd_case. case_decide; [subst u|]; by repeat split. }
  assert (kinv c1 L) as Hk1 by (eapply kinv_thread_frame; [exact E1|done..|apply Hsame|apply Hsame]).
  assert (thread_stat c1 w = RT_THREAD_SUSPEND) as Hw.
  { eapply (lo_wait _ _ _ (ki_lists _ _ Hk1)); [|exact E4|]; [done|]. apply elem_of_LTlist, elem_of_app. right. by left. }
  assert (NoDup (ws1 ++ w :: ws2)) as Hnd by (eapply NoDup_fmap_1, (rep_NoDup _ _ _ _ (kinv_rep _ _ E1) E4)).
  eapply (wp_thread_resume c1 L w); [exact Hk1|by rewrite Hw|]. intros _ ts lk g tb _ c2 Hk2.
  apply (HQ _ (resume_lists c1 L w ts)).
  - split; [exact Hk2|exact Eset|done|]. rewrite (resume_lists_wait c1 L w ts (LSuspend (OEvent e)) _ I E4). by rewrite without_mid.
  - eapply core_same_trans; [|exact (stopped_core_same c1 w lk _ g tb)]. by repeat split.
  - intros u. unfold c2; cbn. unfold with_stat, c1; ksimpl. rewrite upd_eq, !upd_case. repeat case_decide; by subst.
Qed.

(** What a pass over the waiting threads [ws2] leaves behind. *)
Definition event_passed (e : Z) (ws1 ws2 : list Z) (set : Z) (k : kstate) (need need' : bool) (k' : kstate) : Prop :=
  exists L' set' woken rest, event_pass (k_threads (k_core k)) set ws2 = (set', woken, rest) /\
    event_rep k' L' e set' (ws1 ++ rest) /\ core_same (k_core k) (k_core k') /\
    (forall w s, (w, s) ∈ woken -> k_threads (k_core k') w = woken_with s (k_threads (k_core k) w)) /\
    (forall u, (forall s, (u, s) ∉ woken) -> k_threads (k_core k') u = k_threads (k_core k) u) /\
    need' = need || negb (bool_decide (woken = [])).

Lemma event_passed_wake e w s ws1 ws2 set k k2 need need' k' :
  let th := k_threads (k_core k) w in
  event_due th set = Some s -> NoDup (w :: ws2) -> core_same (k_core k) (k_core k2) ->
  (forall u, k_threads (k_core k2) u = if decide (u = w) then woken_with s th else k_threads (k_core k) u) ->
  event_passed e ws1 ws2 (events_left th s set) k2 true need' k' ->
  event_passed e ws1 (w :: ws2) set k need need' k'.
Proof.
  intros th Em [Hw _]%NoDup_cons Hc Eth (L' & set' & woken & rest & Hp & H' & Hcs & Hwk & Hun & ->).
  rewrite (event_pass_ext (k_threads (k_core k))) in Hp.
  2: { intros u Hu. rewrite Eth, decide_False; [done|]. by intros ->. }
  pose proof (event_pass_woken _ _ _ _ _ _ Hp) as Hsub.
  exists L', set', ((w, s) :: woken), rest. cbn [event_pass]. fold th. rewrite Em, Hp.
  split; [done|]. split; [done|]. split; [by eapply core_same_trans|]. split; [|split; [|by rewrite orb_true_r]].
  - intros u s' [[= -> ->]|Hin]%elem_of_cons.
    + rewrite Hun by (intros s' Hin; by apply Hsub in Hin). by rewrite Eth, decide_True.
    + rewrite (Hwk _ _ Hin), Eth, decide_False; [done|]. intros ->. by apply Hsub in Hin.
  - intros u Hu. rewrite Hun by (intros s' Hin; apply (Hu s'); by right). rewrite Eth, decide_False; [done|].
    intros ->. apply (Hu s). by left.
Qed.
Lemma event_passed_skip e w ws1 ws2 set k need need' k' :
  event_due (k_threads (k_core k) w) set = None ->
  event_passed e (ws1 ++ [w]) ws2 set k need need' k' -> event_passed e ws1 (w :: ws2) set k need need' k'.
Proof.
  intros Em (L' & set' & woken & rest & Hp & H' & Hr). exists L', set', woken, (w :: rest). cbn [event_pass].
  rewrite Em, Hp. rewrite <- app_assoc in H'. done.
Qed.

(** The event sets of the threads are 32-bit words (rt_uint32_t). *)
Definition words_asked (k : kstate) (ws : list Z) : Prop :=
  forall w, w ∈ ws -> 0 <= th_event_set (k_threads (k_core k) w) < 2 ^ 32.
Lemma wp_event_send_loop e ws2 : forall fuel ws1 k L set need,
  event_rep k L e set (ws1 ++ ws2) -> (length ws2 < fuel)%nat -> words_asked k ws2 ->
  wp (event_send_loop fuel e (hd (LSuspend (OEvent e)) (LTlist <$> ws2)) need) (event_passed e ws1 ws2 set k need) k.
Proof.
  induction ws2 as [|w ws2 IH]; intros fuel ws1 k L set need H Hf Hwa;
    (destruct fuel as [|fuel]; [cbn in Hf; lia|]); cbn [event_send_loop hd fmap list_fmap].
  - rewrite decide_True by done. wp1. exists L, set, [], []. split_and!; try done; [intros w s Hin; by apply elem_of_nil in Hin|].
    rewrite bool_decide_true by done. by rewrite orb_false_r.
  - pose proof H as [E1 E2 E3 E4]. rewrite decide_False by done. unfold event. wp1. cbn [rt_thread_entry]. wp1. wp1.
    rewrite set_k_core_id. wp1. apply wp_lift_thread. do 2 wp1. rewrite E2. set (th := k_threads (k_core k) w) in *.
    assert (L (LSuspend (OEvent e)) = Some ((LTlist <$> ws1) ++ LTlist w :: (LTlist <$> ws2))) as HL by (by rewrite E4, fmap_app).
    pose proof (rep_next_mid _ _ _ _ _ _ (kinv_rep _ _ E1) HL) as Hnext.
    assert (NoDup (w :: ws2)) as Hnd.
    { eapply NoDup_app. eapply NoDup_fmap_1, (rep_NoDup _ _ _ _ (kinv_rep _ _ E1) E4). }
    rewrite (event_match_due th set) by (done || (apply Hwa; by left)).
    destruct (event_due th set) as [s|] eqn:Em.
    + wp1. change (wp (lift (mod_thread w (set_th_event_set s))) ?Q k) with
        (Q tt (set_k_core (set_k_threads (<[w := set_th_event_set s th]> (k_threads (k_core k))) (k_core k)) k)). cbn beta.
      set (c1 := set_k_threads _ (k_core k)). do 2 wp1. ksimpl.
      change (l_next (k_links c1) (LTlist w)) with (l_next (k_links (k_core k)) (LTlist w)). rewrite Hnext.
      set (set1 := events_left th s set).
      assert (forall k1, k_core k1 = c1 -> event_set (k_events k1 e) = set1 ->
        wp (_ ← lift (rt_thread_resume w); event_send_loop fuel e (hd (LSuspend (OEvent e)) (LTlist <$> ws2)) true)
          (event_passed e ws1 (w :: ws2) set k need) k1) as Hgo.
      { intros k1 Ek1 Es1. wp1. eapply (wp_event_wake e w s ws1 ws2 k k1); [exact H|exact Ek1|exact Es1|by apply events_left_range|].
        intros k2 L2 H2 Hc2 Eth. eapply wp_mono; [eapply (IH fuel ws1 k2 L2 set1 true H2); [cbn in Hf; lia|]|].
        { intros u Hu. rewrite Eth. case_decide; [subst u; by apply NoDup_cons in Hnd as [[] _]|apply Hwa; by right]. }
        intros need' k'. by apply event_passed_wake with (s := s) (k2 := k2). }
      unfold mod_event. wp1. unfold set1 in Hgo. rewrite (events_left_land th s set) in Hgo by (done || by eapply event_due_range). destruct (flag_set (th_event_info th) RT_EVENT_FLAG_CLEAR).
      * wp1. ksimpl. rewrite E2. apply Hgo; [done|]. ksimpl. by rewrite upd_eq.
      * wp1. by apply Hgo.
    + do 2 wp1. rewrite Hnext. eapply wp_mono; [eapply (IH fuel (ws1 ++ [w])); [by rewrite <- app_assoc|cbn in Hf; lia|intros u Hu; apply Hwa; by right]|].
      intros need' k'. by apply event_passed_skip.
Qed.

Lemma lor_range a b : 0 <= a < 2 ^ 32 -> 0 <= b < 2 ^ 32 -> 0 <= Z.lor a b < 2 ^ 32.
Proof.
  intros Ha Hb. assert (Z.lor a b = uint32 (Z.lor a b)) as ->; [|by apply uint_range].
  apply Z.bits_inj'. intros i Hi. destruct (decide (i < 32)); [by rewrite testbit_uint by lia|].
  rewrite (testbit_high 32 (uint32 _)) by (try apply uint_range; lia).
  by rewrite Z.lor_spec, (testbit_high 32 a), (testbit_high 32 b) by lia.
Qed.
Lemma event_passed_ready e ws1 ws2 set k need need' k' u :
  event_passed e ws1 ws2 set k need need' k' ->
  thread_stat (k_core k) u = RT_THREAD_READY -> thread_stat (k_core k') u = RT_THREAD_READY.
Proof.
  intros (L' & set' & woken & rest & _ & _ & _ & Hw & Ho & _) Hu. unfold thread_stat in *.
  destruct (decide (u ∈ woken.*1)) as [([v s] & -> & Hin)%list_elem_of_fmap|Hn]; [cbn; by rewrite (Hw v s)|].
  rewrite Ho; [done|]. intros s Hin. apply Hn, list_elem_of_fmap. by exists (u, s).
Qed.

(** C21 rt_event_send refines the abstract event: no bits is an error and changes
    nothing; otherwise the bits are added and the waiting threads are examined in queue
    order.  One that waits for all its events is woken once each of them is pending, one
    that waits for any once one of them is ([event_due], stated event by event); it
    receives those events, takes them out of the set if it asked so (the next one sees
    what is left) and becomes READY.  The others keep waiting unchanged, and if a thread
    was woken the processor goes to a ready thread of highest priority. *)
Theorem rt_event_send_refines k L e set0 bits ws :
  event_rep k L e set0 ws -> 0 <= bits < 2 ^ 32 -> (length ws < loop_fuel)%nat -> words_asked k ws ->
  (exists u, thread_stat (k_core k) u = RT_THREAD_READY) ->
  (bits = 0 /\ rt_event_send e bits k = Some (- RT_ERROR, k)) \/
  (bits <> 0 /\ exists k' L' set' woken rest, rt_event_send e bits k = Some (RT_EOK, k') /\
     event_pass (k_threads (k_core k)) (Z.lor set0 bits) ws = (set', woken, rest) /\ event_rep k' L' e set' rest /\
     (forall w s, (w, s) ∈ woken -> k_threads (k_core k') w = woken_with s (k_threads (k_core k) w)) /\
     (forall u, (forall s, (u, s) ∉ woken) -> k_threads (k_core k') u = k_threads (k_core k) u) /\
     (woken <> [] -> k_lock_nest (k_core k) = 0 -> exists u, k_current_thread (k_core k') = Some u /\
        thread_stat (k_core k') u = RT_THREAD_READY /\
        forall v, thread_stat (k_core k') v = RT_THREAD_READY -> prio_of (k_core k') u <= prio_of (k_core k') v)).
Proof.
  intros H Hb Hf Hwa [u0 Hu0]. destruct (decide (bits = 0)) as [->|Hnz]; [by left|right]. split; [done|].
  set (Q := fun r k' => r = RT_EOK /\ exists L' set' woken rest,
     event_pass (k_threads (k_core k)) (Z.lor set0 bits) ws = (set', woken, rest) /\ event_rep k' L' e set' rest /\
     (forall w s, (w, s) ∈ woken -> k_threads (k_core k') w = woken_with s (k_threads (k_core k) w)) /\
     (forall u, (forall s, (u, s) ∉ woken) -> k_threads (k_core k') u = k_threads (k_core k) u) /\
     (woken <> [] -> k_lock_nest (k_core k) = 0 -> exists u, k_current_thread (k_core k') = Some u /\
        thread_stat (k_core k') u = RT_THREAD_READY /\
        forall v, thread_stat (k_core k') v = RT_THREAD_READY -> prio_of (k_core k') u <= prio_of (k_core k') v)).
  cut (wp (rt_event_send e bits) Q k).
  { intros (r & k' & E & -> & L' & set' & woken & rest & Hq)%wp_run. by exists k', L', set', woken, rest. }
  pose proof H as [E1 E2 E3 E4]. unfold rt_event_send, mod_event. rewrite (proj2 (Z.eqb_neq _ _) Hnz).
  do 2 wp1. rewrite E2. set (k1 := set_k_events _ k).
  assert (event_rep k1 L e (Z.lor set0 bits) ws) as H1.
  { split; [exact E1| |by apply lor_range|exact E4]. unfold k1; ksimpl. by rewrite upd_eq. }
  do 2 wp1. rewrite (rep_isempty _ _ _ _ (kinv_rep _ _ E1) E4). wp1.
  destruct ws as [|w ws']; [rewrite bool_decide_true by done|rewrite bool_decide_false by done]; cbn [negb].
  - wp1. wp1. wp1. wp1. split; [done|]. exists L, (Z.lor set0 bits), [], []. split_and!; try done.
    intros ?? Hin. by apply elem_of_nil in Hin.
  - do 2 wp1. change (l_next (k_links (k_core k1)) (LSuspend (OEvent e))) with (l_next (k_links (k_core k)) (LSuspend (OEvent e))).
    rewrite (rep_next_head _ _ _ _ (kinv_rep _ _ E1) E4).
    eapply wp_mono; [eapply (wp_event_send_loop e (w :: ws') loop_fuel [] k1); [exact H1|done|exact Hwa]|].
    intros need k2 Hp. pose proof (event_passed_ready _ _ _ _ _ _ _ _ u0 Hp Hu0) as Hrd.
    destruct Hp as (L' & set' & woken & rest & Hp & H2 & Hc & Hw & Ho & ->). cbn [orb].
    wp1. case_bool_decide as Hwk; cbn [negb].
    + wp1. wp1. split; [done|]. by exists L', set', woken, rest.
    + wp1. eapply (wp_schedule_kinv (k_core k2)); [apply H2|by exists u0|]. intros c' (cur & prio & sw & ->) H3 Hn _. wp1.
      split; [done|]. exists L', set', woken, rest. split; [done|]. split; [by eapply event_rep_core; [|exact H3|apply H2]|].
      split; [exact Hw|]. split; [exact Ho|]. intros _ Hlk.
      destruct (Hn ltac:(destruct Hc as (_ & -> & _); exact Hlk)) as (u & Hu1 & Hu2 & Hu3 & _).
      exists u. split; [done|]. split; [done|]. exact Hu3.
Qed.

(** ** Receiving *)
Definition event_sat (option bits pending : Z) : bool :=
  if flag_set option RT_EVENT_FLAG_AND then Z.land pending bits =? bits else flag_set pending bits.
Definition event_left (option bits pending : Z) : Z :=
  if flag_set option RT_EVENT_FLAG_CLEAR then Z.land pending (uint32 (Z.lnot bits)) else pending.
Inductive event_recv_step (q : Z -> list Z -> list Z) (t bits option timeout : Z) :
    Z -> list Z -> outcome Z (Z * Datatypes.option Z) -> Z -> list Z -> Prop :=
| recv_nothing pending ws : bits = 0 ->
    event_recv_step q t bits option timeout pending ws (Returned (- RT_ERROR, None)) pending ws
| recv_now pending ws : bits <> 0 -> event_sat option bits pending = true ->
    event_recv_step q t bits option timeout pending ws
      (Returned (RT_EOK, Some (Z.land pending bits))) (event_left option bits pending) ws
| recv_timeout pending ws : bits <> 0 -> event_sat option bits pending = false -> timeout = 0 ->
    event_recv_step q t bits option timeout pending ws (Returned (- RT_ETIMEOUT, None)) pending ws
| recv_wait pending ws : bits <> 0 -> event_sat option bits pending = false -> timeout <> 0 ->
    event_recv_step q t bits option timeout pending ws (Waiting t) pending (q t ws).

Definition event_flag (k : kstate) (e : Z) : Z := ob_flag (k_objs (k_core k) (OEvent e)).
Lemma wp_lift_mod_thread t f k Q :
  Q tt (set_k_core (with_thread t f (k_core k)) k) -> wp (lift (mod_thread t f)) Q k.
Proof. done. Qed.
Lemma caller_with_thread c t u f : soft_field f -> caller c t -> caller (with_thread u f c) t.
Proof.
  intros Hf [C1 C2 C3 C4 (v & Hv & C5)]. split; [done|by rewrite with_thread_stat|done|done|].
  exists v. by rewrite with_thread_stat.
Qed.
Lemma event_rep_thread k L e set ws t f :
  soft_field f -> event_rep k L e set ws -> event_rep (set_k_core (with_thread t f (k_core k)) k) L e set ws.
Proof. intros Hf H. eapply event_rep_core; [exact H|apply kinv_with_thread, H; done|apply H]. Qed.
Hint Resolve soft_error soft_event_set soft_event_info event_rep_thread caller_with_thread kinv_with_thread : kernel.

(** The tail of rt_event_recv that waits. *)
Lemma wp_event_wait k L e pend ws t bits option timeout (Q : outcome Z (Z * Datatypes.option Z) -> kstate -> Prop) :
  event_rep k L e pend ws -> caller (k_core k) t -> ipc_flag_ok (event_flag k e) -> lists_short L ->
  (length ws < loop_fuel)%nat -> timeout < RT_TICK_MAX / 2 ->
  (forall c' L', event_rep (set_k_core c' k) L' e pend (enqueue (event_flag k e) (prio_of (k_core k)) t ws) ->
     thread_stat c' t = RT_THREAD_SUSPEND -> th_event_set (k_threads c' t) = bits ->
     th_event_info (k_threads c' t) = option -> th_error (k_threads c' t) = th_error (k_threads (k_core k) t) ->
     k_current_thread c' <> Some t -> Q (Waiting t) (set_k_core c' k)) ->
  wp (lift (mod_thread t (set_th_event_set bits)) ;; lift (mod_thread t (set_th_event_info option)) ;;
      flag ← lift (object_flag (OEvent e));
      lift (block_on (LSuspend (OEvent e)) t flag timeout) ;;
      mret (Waiting (A := Z * Datatypes.option Z) t)) Q k.
Proof.
  intros H Hca Hfl Hsh Hlen Ht HQ. wp1. apply wp_lift_mod_thread. wp1. apply wp_lift_mod_thread.
  set (k2 := set_k_core _ (set_k_core _ k)). set (c1 := with_thread t _ (k_core k)) in *.
  assert (event_rep k2 L e pend ws) as H2 by (unfold k2, c1; auto with kernel).
  assert (caller (k_core k2) t) as Hc2 by (unfold k2, c1; ksimpl; auto with kernel).
  do 2 wp1. unfold object_flag. do 2 wp1. wp1. change (ob_flag (k_objs (k_core k2) (OEvent e))) with (event_flag k e). do 2 wp1.
  change (set_k_core (k_core k2) k2) with k2.
  eapply (wp_block_on (k_core k2) L); [apply H2|exact Hc2|done|apply H2|done|done|done|done|]. intros c' L' Hb _. wp1.
  assert (forall u, prio_of (k_core k2) u = prio_of (k_core k) u) as Ep.
  { intros u. unfold k2, c1; ksimpl. transitivity (prio_of (with_thread t (set_th_event_set bits) (k_core k)) u).
    - apply (with_thread_prio t (set_th_event_info option)). auto with kernel.
    - apply (with_thread_prio t (set_th_event_set bits)). auto with kernel. }
  rewrite (enqueue_ext _ _ _ _ _ Ep) in Hb. destruct (bl_event _ _ _ _ _ _ _ Hb) as [B1 B2].
  assert (k_threads (k_core k2) t = set_th_event_info option (set_th_event_set bits (k_threads (k_core k) t))) as E2.
  { unfold k2, c1, with_thread; ksimpl. by rewrite !upd_eq. }
  apply (HQ c' L').
  - eapply event_rep_core; [exact H|apply Hb|apply Hb].
  - apply Hb.
  - by rewrite B1, E2.
  - by rewrite B2, E2.
  - by rewrite (bl_error _ _ _ _ _ _ _ Hb), E2.
  - destruct (bl_current _ _ _ _ _ _ _ Hb) as (u & -> & Hr & _). intros [= ->].
    by rewrite (bl_stat _ _ _ _ _ _ _ Hb) in Hr.
Qed.

(** C22 rt_event_recv refines the abstract receive: the bits asked for (all or any of
    them) are returned and consumed on request when they are pending; otherwise the
    call fails at once with -RT_ETIMEOUT, or records what the caller wants, queues it
    and gives the processor away. *)
Theorem rt_event_recv_refines k L e pend ws t bits option timeout :
  event_rep k L e pend ws -> caller (k_core k) t -> ipc_flag_ok (event_flag k e) -> lists_short L ->
  (length ws < loop_fuel)%nat -> timeout < RT_TICK_MAX / 2 ->
  flag_set option RT_EVENT_FLAG_AND || flag_set option RT_EVENT_FLAG_OR = true ->
  exists r k' L' pend' ws', rt_event_recv e bits option timeout k = Some (r, k') /\
    event_recv_step (enqueue (event_flag k e) (prio_of (k_core k))) t bits option timeout pend ws r pend' ws' /\
    event_rep k' L' e pend' ws' /\
    (r = Waiting t -> thread_stat (k_core k') t = RT_THREAD_SUSPEND /\ k_current_thread (k_core k') <> Some t /\
       th_event_set (k_threads (k_core k') t) = bits /\ th_event_info (k_threads (k_core k') t) = option).
Proof.
  intros H Hca Hfl Hsh Hlen Ht Hopt.
  set (Q := fun r k' => exists L' pend' ws',
    event_recv_step (enqueue (event_flag k e) (prio_of (k_core k))) t bits option timeout pend ws r pend' ws' /\
    event_rep k' L' e pend' ws' /\
    (r = Waiting t -> thread_stat (k_core k') t = RT_THREAD_SUSPEND /\ k_current_thread (k_core k') <> Some t /\
       th_event_set (k_threads (k_core k') t) = bits /\ th_event_info (k_threads (k_core k') t) = option)).
  cut (wp (rt_event_recv e bits option timeout) Q k).
  { intros (r & k' & E & L' & pend' & ws' & Hq)%wp_run. by exists r, k', L', pend', ws'. }
  unfold rt_event_recv. wp1. wp1. apply thread_context_run; [by rewrite (ca_current _ _ Hca)|apply (ca_nest _ _ Hca)|].
  rewrite set_k_core_id. destruct (Z.eqb_spec bits 0) as [->|Hb].
  { wp1. exists L, pend, ws. split; [by apply recv_nothing|done]. }
  do 2 wp1. apply (current_thread_run _ t); [apply (ca_current _ _ Hca)|]. rewrite set_k_core_id.
  wp1. apply wp_lift_mod_thread. set (c1 := with_thread t _ (k_core k)). set (k1 := set_k_core c1 k).
  assert (event_rep k1 L e pend ws) as H1 by (apply event_rep_thread; auto with kernel).
  assert (caller c1 t) as Hc1 by (apply caller_with_thread; auto with kernel).
  assert (th_error (k_threads c1 t) = RT_EOK) as Er by (unfold c1, with_thread; ksimpl; by rewrite upd_eq).
  unfold event. do 2 wp1. change (event_set (k_events k1 e)) with (event_set (k_events k e)). rewrite (er_set _ _ _ _ _ H).
  wp1. assert (forall Q', Q' (event_sat option bits pend) k1 ->
    wp (if flag_set option RT_EVENT_FLAG_AND then mret (Z.land pend bits =? bits)
        else if flag_set option RT_EVENT_FLAG_OR then mret (flag_set pend bits) else rt_assert false ;; mret false) Q' k1) as Hsat.
  { intros Q' HQ'. unfold event_sat in HQ'. destruct (flag_set option RT_EVENT_FLAG_AND); [by wp1|].
    cbn in Hopt. rewrite Hopt. by wp1. }
  apply Hsat. clear Hsat. destruct (event_sat option bits pend) eqn:Es.
  - assert (forall k2, k_core k2 = c1 -> event_rep k2 L e (event_left option bits pend) ws ->
      wp (th ← lift (thread t); mret (Returned (th_error th, Some (Z.land pend bits)))) Q k2) as Hend.
    { intros k2 Ec H2. wp1. apply wp_lift_thread. wp1. rewrite Ec, Er. exists L, (event_left option bits pend), ws.
      split; [by apply recv_now|]. done. }
    unfold mod_event. wp1. unfold event_left in Hend. destruct (flag_set option RT_EVENT_FLAG_CLEAR).
    + wp1. apply Hend; [done|]. rewrite (er_set _ _ _ _ _ H1). split; [apply H1| | |apply H1].
      * ksimpl. by rewrite upd_eq.
      * apply land_range, H.
    + wp1. by apply Hend.
  - destruct (Z.eqb_spec timeout 0) as [->|Hto].
    + wp1. apply wp_lift_mod_thread. wp1. apply wp_lift_thread. wp1.
      exists L, pend, ws. split; [|split; [|done]].
      * unfold with_thread; ksimpl. rewrite upd_eq. by apply recv_timeout.
      * apply (event_rep_thread k1); auto with kernel.
    + eapply (wp_event_wait k1 L e pend ws); [done..|].
      intros c' L' H' Hs He Hi _ Hcur. exists L', pend, (enqueue (event_flag k e) (prio_of (k_core k)) t ws).
      split; [by apply recv_wait|]. split; [|done].
      rewrite (enqueue_ext _ (prio_of (k_core k))) in H'; [exact H'|].
      intros u. apply (with_thread_prio t (set_th_error RT_EOK)); auto with kernel.
Qed.
End event.
