(* ===== verification/Mailbox.v ===== *)
(** Mailboxes (src/ipc.c, the rt_mb functions): a ring of words, with waiting
    receivers and waiting senders. *)
From S2P Require Import Prelude RtList Kservice Kernel Scheduler Object TimerCore Invariant Thread Timer Ipc.

(** The locals a blocked sender or receiver keeps. *)
Record mb_wait := mk_mb_wait {
  mw_thread : Z;
  mw_timeout : Z;
  mw_tick_delta : Z
}.

(** The new timeout after a wait that ended: the elapsed ticks are subtracted. *)
Definition remaining_timeout (timeout tick_delta now : Z) : Z :=
  if timeout >? 0 then
    let timeout := int32 (uint32 (timeout - uint32 (now - tick_delta))) in
    if timeout <? 0 then 0 else timeout
  else timeout.

Section mailbox.
Context {cfg : Config} {kh : KHeap} {sz : ObjectSizes} {st : StaticThreads}.

Definition mb (m : Z) : M kstate rt_mailbox := gets (fun k => k_mailboxes k m).
Definition mod_mb (m : Z) (f : rt_mailbox -> rt_mailbox) : M kstate unit :=
  modify (fun k => set_k_mailboxes (<[m := f (k_mailboxes k m)]> (k_mailboxes k)) k).
Definition link_empty (h : lnode) : M kstate bool :=
  gets (fun k => rt_list_isempty (k_links (k_core k)) h).
(** rt_free of a pointer that may be null. *)
Definition kernel_free_ptr (p : option Z) : M kstate unit :=
  match p with Some a => lift (RT_KERNEL_FREE a) | None => mret tt end.

Definition rt_mb_init (m : Z) (name : list Z) (msgpool size flag : Z) : M kstate Z :=
  lift (rt_object_init (OMailBox m) RT_Object_Class_MailBox name) ;;
  lift (mod_object (OMailBox m) (set_ob_flag flag)) ;;
  _ ← lift (rt_ipc_object_init (OMailBox m));
  mod_mb m (fun b => set_mb_out_offset 0 (set_mb_in_offset 0 (set_mb_entry 0
    (set_mb_size (uint16 size) (set_mb_pool_addr (Some msgpool) b))))) ;;
  lift (mod_links (fun l => rt_list_init l (LSender m))) ;;
  mret RT_EOK.

Definition rt_mb_detach (m : Z) : M kstate Z :=
  _ ← lift (rt_ipc_list_resume_all (LSuspend (OMailBox m)));
  _ ← lift (rt_ipc_list_resume_all (LSender m));
  lift (rt_object_detach (OMailBox m)) ;;
  mret RT_EOK.

Definition rt_mb_create (name : list Z) (size flag : Z) : M kstate (option Z) :=
  lift RT_DEBUG_NOT_IN_INTERRUPT ;;
  p ← lift (rt_object_allocate RT_Object_Class_MailBox name);
  match p with
  | None => mret None
  | Some m =>
    lift (mod_object (OMailBox m) (set_ob_flag flag)) ;;
    _ ← lift (rt_ipc_object_init (OMailBox m));
    mod_mb m (set_mb_size (uint16 size)) ;;
    b ← mb m;
    pool ← lift (RT_KERNEL_MALLOC (uint32 (mb_size b * 4)));
    mod_mb m (set_mb_pool_addr pool) ;;
    match pool with
    | None => lift (rt_object_delete (OMailBox m)) ;; mret None
    | Some _ =>
      mod_mb m (fun b => set_mb_out_offset 0 (set_mb_in_offset 0 (set_mb_entry 0 b))) ;;
      lift (mod_links (fun l => rt_list_init l (LSender m))) ;;
      mret (Some m)
    end
  end.

Definition rt_mb_delete (m : Z) : M kstate Z :=
  lift RT_DEBUG_NOT_IN_INTERRUPT ;;
  _ ← lift (rt_ipc_list_resume_all (LSuspend (OMailBox m)));
  _ ← lift (rt_ipc_list_resume_all (LSender m));
  b ← mb m;
  kernel_free_ptr (mb_pool_addr b) ;;
  lift (rt_object_delete (OMailBox m)) ;;
  mret RT_EOK.

(** Blocking: the part of both loops from the suspension to the switch. *)
Definition mb_block (m : Z) (list : lnode) (t timeout : Z) : M kstate mb_wait :=
  lift RT_DEBUG_IN_THREAD_CONTEXT ;;
  flag ← lift (object_flag (OMailBox m));
  tick ← gets (fun k => k_rt_tick (k_core k));
  lift (block_on list t flag timeout) ;;
  mret (mk_mb_wait t timeout (if timeout >? 0 then tick else 0)).

(** Storing a mail in the ring. *)
Definition mb_put (value : Z) (b : rt_mailbox) : rt_mailbox :=
  let b := set_mb_msg_pool (<[mb_in_offset b := value]> (mb_msg_pool b)) b in
  let b := set_mb_in_offset (uint16 (mb_in_offset b + 1)) b in
  let b := if mb_in_offset b >=? mb_size b then set_mb_in_offset 0 b else b in
  set_mb_entry (uint16 (mb_entry b + 1)) b.
(** Removing the oldest mail. *)
Definition mb_get (b : rt_mailbox) : Z * rt_mailbox :=
  let value := mb_msg_pool b (mb_out_offset b) in
  let b := set_mb_out_offset (uint16 (mb_out_offset b + 1)) b in
  let b := if mb_out_offset b >=? mb_size b then set_mb_out_offset 0 b else b in
  (value, set_mb_entry (uint16 (mb_entry b - 1)) b).

(** [if (!rt_list_isempty(list)) { rt_ipc_list_resume(list); rt_schedule(); }] *)
Definition wake_one (list : lnode) : M kstate unit :=
  empty ← link_empty list;
  if negb empty then
    _ ← lift (rt_ipc_list_resume list);
    lift rt_schedule
  else mret tt.

(** The while loop of rt_mb_send_wait, once, and what follows it. *)
Definition mb_send_loop (m value timeout : Z) (self : option Z) : M kstate (outcome mb_wait Z) :=
  b ← mb m;
  if mb_entry b =? mb_size b then
    match self with
    | None => diverge
    | Some t =>
      lift (mod_thread t (set_th_error RT_EOK)) ;;
      if timeout =? 0 then mret (Returned (- RT_EFULL))
      else w ← mb_block m (LSender m) t timeout; mret (Waiting w)
    end
  else
    mod_mb m (mb_put value) ;;
    wake_one (LSuspend (OMailBox m)) ;;
    mret (Returned RT_EOK).

Definition rt_mb_send_wait (m value timeout : Z) : M kstate (outcome mb_wait Z) :=
  self ← gets (fun k => rt_thread_self (k_core k));
  b ← mb m;
  if (mb_entry b =? mb_size b) && (timeout =? 0) then mret (Returned (- RT_EFULL))
  else mb_send_loop m value timeout self.
Definition rt_mb_send_resumed (m value : Z) (w : mb_wait) : M kstate (outcome mb_wait Z) :=
  th ← lift (thread (mw_thread w));
  if negb (th_error th =? RT_EOK) then mret (Returned (th_error th))
  else
    now ← gets (fun k => k_rt_tick (k_core k));
    mb_send_loop m value (remaining_timeout (mw_timeout w) (mw_tick_delta w) now) (Some (mw_thread w)).

Definition rt_mb_send (m value : Z) : M kstate (outcome mb_wait Z) := rt_mb_send_wait m value 0.

(** The result is the error code and what is stored in [*value], if anything. *)
Definition mb_recv_loop (m timeout : Z) (self : option Z) : M kstate (outcome mb_wait (Z * option Z)) :=
  b ← mb m;
  if mb_entry b =? 0 then
    match self with
    | None => diverge
    | Some t =>
      lift (mod_thread t (set_th_error RT_EOK)) ;;
      if timeout =? 0 then
        lift (mod_thread t (set_th_error (- RT_ETIMEOUT))) ;;
        mret (Returned (- RT_ETIMEOUT, None))
      else w ← mb_block m (LSuspend (OMailBox m)) t timeout; mret (Waiting w)
    end
  else
    mod_mb m (fun b => snd (mb_get b)) ;;
    wake_one (LSender m) ;;
    mret (Returned (RT_EOK, Some (fst (mb_get b)))).

Definition rt_mb_recv (m timeout : Z) : M kstate (outcome mb_wait (Z * option Z)) :=
  self ← gets (fun k => rt_thread_self (k_core k));
  b ← mb m;
  if (mb_entry b =? 0) && (timeout =? 0) then mret (Returned (- RT_ETIMEOUT, None))
  else mb_recv_loop m timeout self.
Definition rt_mb_recv_resumed (m : Z) (w : mb_wait) : M kstate (outcome mb_wait (Z * option Z)) :=
  th ← lift (thread (mw_thread w));
  if negb (th_error th =? RT_EOK) then mret (Returned (th_error th, None))
  else
    now ← gets (fun k => k_rt_tick (k_core k));
    mb_recv_loop m (remaining_timeout (mw_timeout w) (mw_tick_delta w) now) (Some (mw_thread w)).

Definition rt_mb_control (m cmd arg : Z) : M kstate Z :=
  if cmd =? RT_IPC_CMD_RESET then
    _ ← lift (rt_ipc_list_resume_all (LSuspend (OMailBox m)));
    _ ← lift (rt_ipc_list_resume_all (LSender m));
    mod_mb m (fun b => set_mb_out_offset 0 (set_mb_in_offset 0 (set_mb_entry 0 b))) ;;
    lift rt_schedule ;;
    mret RT_EOK
  else mret (- RT_ERROR).

(** ** The abstract mailbox: a bounded queue of words *)
Record mb_ok (b : rt_mailbox) (msgs : list Z) : Prop := {
  mbo_size : 0 < mb_size b < 65536;
  mbo_out : 0 <= mb_out_offset b < mb_size b;
  mbo_in : mb_in_offset b = (mb_out_offset b + mb_entry b) mod mb_size b;
  mbo_entry : 0 <= mb_entry b <= mb_size b;
  mbo_msgs : msgs = (fun i => mb_msg_pool b ((mb_out_offset b + i) mod mb_size b)) <$> seqZ 0 (mb_entry b)
}.
Lemma mb_ok_length b msgs : mb_ok b msgs -> Z.of_nat (length msgs) = mb_entry b.
Proof. intros [H1 H2 H3 H4 ->]. rewrite length_fmap, length_seqZ. lia. Qed.

Lemma ring_next size i : 0 < size < 65536 -> 0 <= i < size ->
  (if uint16 (i + 1) >=? size then 0 else uint16 (i + 1)) = (i + 1) mod size.
Proof.
  intros Hs Hi. rewrite (uint_small 16) by lia. destruct (Z.geb_spec (i + 1) size).
  - replace (i + 1) with size by lia. by rewrite Z.mod_same by lia.
  - by rewrite Z.mod_small by lia.
Qed.

Lemma mod_add_ne a i j n : 0 < n -> 0 <= i < n -> 0 <= j < n -> i <> j -> (a + i) mod n <> (a + j) mod n.
Proof.
  intros Hn Hi Hj Hne E. apply Hne.
  assert (i - j = n * ((a + i) / n - (a + j) / n)) as Hd.
  { pose proof (Z.div_mod (a + i) n ltac:(lia)). pose proof (Z.div_mod (a + j) n ltac:(lia)). nia. }
  assert ((a + i) / n - (a + j) / n = 0) by nia. nia.
Qed.

Lemma mb_put_fifo b msgs v :
  mb_ok b msgs -> mb_entry b < mb_size b -> mb_ok (mb_put v b) (msgs ++ [v]).
Proof.
  intros [H1 H2 H3 H4 H5] Hlt.
  assert (0 <= mb_in_offset b < mb_size b) as Hin by (rewrite H3; apply Z.mod_pos_bound; lia).
  assert (mb_put v b = mk_mb (mb_pool_addr b) (<[mb_in_offset b := v]> (mb_msg_pool b)) (mb_size b) (mb_entry b + 1)
    ((mb_in_offset b + 1) mod mb_size b) (mb_out_offset b)) as ->.
  { rewrite <- ring_next by done. unfold mb_put; cbn. destruct (Z.geb_spec (uint16 (mb_in_offset b + 1)) (mb_size b)); cbn;
      rewrite (uint_small 16 (mb_entry b + 1)) by lia; reflexivity. }
  split; cbn; [done|done| |lia|].
  - rewrite H3. by rewrite Zplus_mod_idemp_l, Z.add_assoc.
  - rewrite (seqZ_app 0 (mb_entry b) 1) by lia. rewrite fmap_app, H5. f_equal.
    + apply list_fmap_ext. intros k i (-> & Hk)%lookup_seqZ. cbn. rewrite upd_ne; [done|]. rewrite H3. apply mod_add_ne; lia.
    + rewrite seqZ_cons by lia. cbn [fmap list_fmap]. rewrite H3, Z.add_0_l. by rewrite upd_eq.
Qed.
Lemma mb_get_fifo b msgs v :
  mb_ok b (v :: msgs) -> fst (mb_get b) = v /\ mb_ok (snd (mb_get b)) msgs.
Proof.
  intros H. pose proof (mb_ok_length _ _ H) as Hl. destruct H as [H1 H2 H3 H4 H5]. cbn in Hl.
  rewrite seqZ_cons in H5 by lia. rewrite fmap_cons in H5. injection H5 as Ev Em. rewrite Z.add_0_r, Z.mod_small in Ev by lia.
  split; [by subst|].
  assert (snd (mb_get b) = mk_mb (mb_pool_addr b) (mb_msg_pool b) (mb_size b) (mb_entry b - 1) (mb_in_offset b)
    ((mb_out_offset b + 1) mod mb_size b)) as ->.
  { rewrite <- ring_next by done. unfold mb_get; cbn. destruct (Z.geb_spec (uint16 (mb_out_offset b + 1)) (mb_size b)); cbn;
      rewrite (uint_small 16 (mb_entry b - 1)) by lia; reflexivity. }
  split; cbn; [done|apply Z.mod_pos_bound; lia| |lia|].
  - rewrite H3, Zplus_mod_idemp_l. f_equal. lia.
  - rewrite Em. replace (Z.succ 0) with (1 + 0) by lia. rewrite <- fmap_add_seqZ, <- list_fmap_compose.
    replace (Z.pred (mb_entry b)) with (mb_entry b - 1) by lia.
    apply list_fmap_ext. intros k i (-> & Hk)%lookup_seqZ. cbn. rewrite Zplus_mod_idemp_l. f_equal. f_equal. lia.
Qed.

Implicit Types (L : lnode -> option (list lnode)).
Record mb_rep (k : kstate) L (m : Z) (msgs rs ss : list Z) : Prop := {
  mbr_inv : kinv (k_core k) L;
  mbr_ok : mb_ok (k_mailboxes k m) msgs;
  mbr_recv : L (LSuspend (OMailBox m)) = Some (LTlist <$> rs);
  mbr_send : L (LSender m) = Some (LTlist <$> ss)
}.
Definition mb_flag (k : kstate) (m : Z) : Z := ob_flag (k_objs (k_core k) (OMailBox m)).
Definition mb_capacity (k : kstate) (m : Z) : Z := mb_size (k_mailboxes k m).

(** What a blocked caller remembers. *)
Definition waiting (k : kstate) (t timeout : Z) : mb_wait :=
  mk_mb_wait t timeout (if timeout >? 0 then k_rt_tick (k_core k) else 0).

Inductive mb_send_step (q : Z -> list Z -> list Z) (cap v t timeout : Z) (w : mb_wait) :
    list Z -> list Z -> list Z -> outcome mb_wait Z -> list Z -> list Z -> list Z -> Prop :=
| send_full msgs rs ss : Z.of_nat (length msgs) = cap -> timeout = 0 ->
    mb_send_step q cap v t timeout w msgs rs ss (Returned (- RT_EFULL)) msgs rs ss
| send_block msgs rs ss : Z.of_nat (length msgs) = cap -> timeout <> 0 ->
    mb_send_step q cap v t timeout w msgs rs ss (Waiting w) msgs rs (q t ss)
| send_put msgs rs ss : Z.of_nat (length msgs) < cap ->
    mb_send_step q cap v t timeout w msgs rs ss (Returned RT_EOK) (msgs ++ [v]) (tail rs) ss.
Inductive mb_recv_step (q : Z -> list Z -> list Z) (t timeout : Z) (w : mb_wait) :
    list Z -> list Z -> list Z -> outcome mb_wait (Z * option Z) -> list Z -> list Z -> list Z -> Prop :=
| recv_empty rs ss : timeout = 0 ->
    mb_recv_step q t timeout w [] rs ss (Returned (- RT_ETIMEOUT, None)) [] rs ss
| recv_block rs ss : timeout <> 0 ->
    mb_recv_step q t timeout w [] rs ss (Waiting w) [] (q t rs) ss
| recv_get v msgs rs ss :
    mb_recv_step q t timeout w (v :: msgs) rs ss (Returned (RT_EOK, Some v)) msgs rs (tail ss).

(** What happens to the threads: the woken one is READY, all others are unchanged. *)
Definition woke (k k' : kstate) (ws : list Z) : Prop :=
  (forall w, head ws = Some w -> k_threads (k_core k') w = set_th_stat RT_THREAD_READY (k_threads (k_core k) w)) /\
  (forall u, head ws <> Some u -> k_threads (k_core k') u = k_threads (k_core k) u).
Definition slept (k k' : kstate) (t : Z) : Prop :=
  thread_stat (k_core k') t = RT_THREAD_SUSPEND /\ th_error (k_threads (k_core k') t) = RT_EOK /\
  k_current_thread (k_core k') <> Some t /\
  forall u, u <> t -> k_threads (k_core k') u = k_threads (k_core k) u.

(** The two waiting lists of the mailbox, the one to wake first. *)
Lemma wp_mb_wake k L m h g msgs hs gs Q :
  kinv (k_core k) L -> mb_ok (k_mailboxes k m) msgs -> wait_head h -> wait_head g -> g <> h ->
  L h = Some (LTlist <$> hs) -> L g = Some (LTlist <$> gs) ->
  (exists u, thread_stat (k_core k) u = RT_THREAD_READY) ->
  (forall c' L', kinv c' L' -> L' h = Some (LTlist <$> tail hs) -> L' g = Some (LTlist <$> gs) ->
     woke k (set_k_core c' k) hs -> Q tt (set_k_core c' k)) ->
  wp (wake_one h) Q k.
Proof.
  intros H Hok Hh Hg Hne HLh HLg Hex HQ. unfold wake_one, link_empty.
  eapply wp_wake_first; [exact H|done|exact HLh|done| |].
  - intros ->. rewrite <- (set_k_core_id k). by apply (HQ (k_core k) L).
  - intros w ws' c' L' -> Hk Hh' Ho Hw Hu. apply (HQ c' L'); try done.
    + by apply Ho.
    + split; [by intros ? [= <-]|]. intros u Hn. apply Hu. intros ->. by apply Hn.
Qed.
Lemma wp_mb_block k L m h g hs gs t timeout Q :
  kinv (k_core k) L -> caller (k_core k) t -> wait_head h -> wait_head g -> g <> h ->
  L h = Some (LTlist <$> hs) -> L g = Some (LTlist <$> gs) -> th_error (k_threads (k_core k) t) = RT_EOK ->
  ipc_flag_ok (mb_flag k m) -> lists_short L -> (length hs < loop_fuel)%nat -> timeout < RT_TICK_MAX / 2 ->
  (forall c' L', kinv c' L' -> L' h = Some (LTlist <$> enqueue (mb_flag k m) (prio_of (k_core k)) t hs) ->
     L' g = Some (LTlist <$> gs) -> slept k (set_k_core c' k) t -> Q (waiting k t timeout) (set_k_core c' k)) ->
  wp (mb_block m h t timeout) Q k.
Proof.
  intros H Hca Hh Hg Hne HLh HLg Her Hfl Hsh Hlen Ht HQ. unfold mb_block.
  wp1. wp1. apply thread_context_run; [by rewrite (ca_current _ _ Hca)|apply (ca_nest _ _ Hca)|]. rewrite set_k_core_id.
  do 2 wp1. unfold object_flag. do 2 wp1. wp1. rewrite set_k_core_id. do 2 wp1. do 2 wp1.
  fold (mb_flag k m). eapply (wp_block_on (k_core k) L); [exact H|done|done|exact HLh|done|done|done|done|].
  intros c' L' Hb Ho. wp1. apply (HQ c' L'); [apply Hb|apply Hb|by apply Ho|].
  split; [apply Hb|]. split; [ksimpl; by rewrite (bl_error _ _ _ _ _ _ _ Hb)|]. split; [|apply Hb].
  destruct (bl_current _ _ _ _ _ _ _ Hb) as (u & Hu & Hr & _). ksimpl. rewrite Hu.
  intros [= ->]. by rewrite (bl_stat _ _ _ _ _ _ _ Hb) in Hr.
Qed.

(** A call that may block is made by a thread. *)
Definition may_block (k : kstate) L (t timeout : Z) (ws : list Z) : Prop :=
  timeout <> 0 -> caller (k_core k) t /\ lists_short L /\ (length ws < loop_fuel)%nat /\ timeout < RT_TICK_MAX / 2.

Definition mb_sent (k : kstate) (m v t timeout : Z) (msgs rs ss : list Z) (r : outcome mb_wait Z) (k' : kstate) : Prop :=
  exists L' msgs' rs' ss',
    mb_send_step (enqueue (mb_flag k m) (prio_of (k_core k))) (mb_capacity k m) v t timeout (waiting k t timeout) msgs rs ss r msgs' rs' ss' /\
    mb_rep k' L' m msgs' rs' ss' /\
    match r with Waiting _ => slept k k' t | Returned e => (e = RT_EOK -> woke k k' rs) /\ (e <> RT_EOK -> k' = k) end.

Lemma wp_mb_send_loop k L m v t timeout msgs rs ss :
  mb_rep k L m msgs rs ss -> ipc_flag_ok (mb_flag k m) -> (exists u, thread_stat (k_core k) u = RT_THREAD_READY) ->
  may_block k L t timeout ss -> (timeout = 0 -> mb_entry (k_mailboxes k m) <> mb_size (k_mailboxes k m)) ->
  wp (mb_send_loop m v timeout (Some t)) (mb_sent k m v t timeout msgs rs ss) k.
Proof.
  intros [M1 M2 M3 M4] Hfl Hex Hmb Hnf. pose proof (mb_ok_length _ _ M2) as Hl. pose proof (mbo_entry _ _ M2) as Hent.
  unfold mb_send_loop, mb. do 2 wp1. destruct (Z.eqb_spec (mb_entry (k_mailboxes k m)) (mb_size (k_mailboxes k m))) as [Hf|Hf].
  - destruct (Z.eqb_spec timeout 0) as [Ht|Ht]; [by apply Hnf in Ht|]. destruct (Hmb Ht) as (Hca & Hsh & Hlen & Htm).
    wp1. apply wp_set_error. set (k1 := set_k_core _ k). wp1.
    eapply (wp_mb_block k1 L m (LSender m) (LSuspend (OMailBox m))); [by apply kinv_error|by apply caller_error|done|done|done|done|done| |done..|].
    { unfold k1, with_error; ksimpl. by rewrite upd_eq. }
    intros c' L' H' HLs HLr (S1 & S2 & S3 & S4). wp1. exists L', msgs, rs, (enqueue (mb_flag k m) (prio_of (k_core k)) t ss).
    rewrite (enqueue_ext _ (prio_of (k_core k))) in HLs by (intros u; apply prio_of_error).
    split; [apply send_block; unfold mb_capacity; lia|]. split; [by split|].
    split; [done|]. split; [done|]. split; [done|]. intros u Hu. rewrite S4 by done. unfold k1, with_error; ksimpl. by rewrite upd_ne.
  - unfold mod_mb. do 2 wp1. set (k1 := set_k_mailboxes _ k). wp1.
    assert (mb_ok (k_mailboxes k1 m) (msgs ++ [v])) as M2'.
    { unfold k1; ksimpl. rewrite upd_eq. apply mb_put_fifo; [done|lia]. }
    eapply (wp_mb_wake k1 L m (LSuspend (OMailBox m)) (LSender m)); [exact M1|exact M2'|done|done|done|exact M3|exact M4|exact Hex|].
    intros c' L' Hk HLr HLs Hw. wp1. exists L', (msgs ++ [v]), (tail rs), ss.
    split; [apply send_put; unfold mb_capacity; lia|]. split; [by split|]. split; [intros _; exact Hw|done].
Qed.

(** C23 rt_mb_send_wait refines the abstract bounded queue: with room the mail is
    appended and the first waiting receiver becomes READY; on a full mailbox the call
    fails at once with -RT_EFULL, or the caller is queued with the other senders and
    gives the processor away. *)
Theorem rt_mb_send_wait_refines k L m v t timeout msgs rs ss :
  mb_rep k L m msgs rs ss -> ipc_flag_ok (mb_flag k m) -> k_current_thread (k_core k) = Some t ->
  (exists u, thread_stat (k_core k) u = RT_THREAD_READY) -> may_block k L t timeout ss ->
  exists r k' L' msgs' rs' ss', rt_mb_send_wait m v timeout k = Some (r, k') /\
    mb_send_step (enqueue (mb_flag k m) (prio_of (k_core k))) (mb_capacity k m) v t timeout (waiting k t timeout) msgs rs ss r msgs' rs' ss' /\
    mb_rep k' L' m msgs' rs' ss' /\
    match r with Waiting _ => slept k k' t | Returned e => (e = RT_EOK -> woke k k' rs) /\ (e <> RT_EOK -> k' = k) end.
Proof.
  intros H Hfl Hcur Hex Hmb. cut (wp (rt_mb_send_wait m v timeout) (mb_sent k m v t timeout msgs rs ss) k).
  { intros (r & k' & E & L' & msgs' & rs' & ss' & H')%wp_run. by exists r, k', L', msgs', rs', ss'. }
  unfold rt_mb_send_wait, rt_thread_self, mb. do 2 wp1. do 2 wp1. rewrite Hcur.
  pose proof (mb_ok_length _ _ (mbr_ok _ _ _ _ _ _ H)) as Hl.
  destruct (Z.eqb_spec (mb_entry (k_mailboxes k m)) (mb_size (k_mailboxes k m))) as [Hf|Hf]; cbn [andb].
  - destruct (Z.eqb_spec timeout 0) as [->|Ht].
    + wp1. exists L, msgs, rs, ss. split; [by apply send_full; [unfold mb_capacity; lia|]|]. by split; [|split].
    + by apply (wp_mb_send_loop k L).
  - by apply (wp_mb_send_loop k L).
Qed.

Definition mb_received (k : kstate) (m t timeout : Z) (msgs rs ss : list Z) (r : outcome mb_wait (Z * option Z)) (k' : kstate) : Prop :=
  exists L' msgs' rs' ss',
    mb_recv_step (enqueue (mb_flag k m) (prio_of (k_core k))) t timeout (waiting k t timeout) msgs rs ss r msgs' rs' ss' /\
    mb_rep k' L' m msgs' rs' ss' /\
    match r with Waiting _ => slept k k' t | Returned (e, _) => (e = RT_EOK -> woke k k' ss) /\ (e <> RT_EOK -> k' = k) end.
Lemma wp_mb_recv_loop k L m t timeout msgs rs ss :
  mb_rep k L m msgs rs ss -> ipc_flag_ok (mb_flag k m) -> (exists u, thread_stat (k_core k) u = RT_THREAD_READY) ->
  may_block k L t timeout rs -> (timeout = 0 -> mb_entry (k_mailboxes k m) <> 0) ->
  wp (mb_recv_loop m timeout (Some t)) (mb_received k m t timeout msgs rs ss) k.
Proof.
  intros [M1 M2 M3 M4] Hfl Hex Hmb Hnf. pose proof (mb_ok_length _ _ M2) as Hl.
  unfold mb_recv_loop, mb. do 2 wp1. destruct (Z.eqb_spec (mb_entry (k_mailboxes k m)) 0) as [Hf|Hf].
  - destruct (Z.eqb_spec timeout 0) as [Ht|Ht]; [by apply Hnf in Ht|]. destruct (Hmb Ht) as (Hca & Hsh & Hlen & Htm).
    destruct msgs as [|? ?]; [|cbn in Hl; lia].
    wp1. apply wp_set_error. set (k1 := set_k_core _ k). wp1.
    eapply (wp_mb_block k1 L m (LSuspend (OMailBox m)) (LSender m)); [by apply kinv_error|by apply caller_error|done|done|done|done|done| |done..|].
    { unfold k1, with_error; ksimpl. by rewrite upd_eq. }
    intros c' L' H' HLr HLs (S1 & S2 & S3 & S4). wp1. exists L', [], (enqueue (mb_flag k m) (prio_of (k_core k)) t rs), ss.
    rewrite (enqueue_ext _ (prio_of (k_core k))) in HLr by (intros u; apply prio_of_error).
    split; [by apply recv_block|]. split; [by split|].
    split; [done|]. split; [done|]. split; [done|]. intros u Hu. rewrite S4 by done. unfold k1, with_error; ksimpl. by rewrite upd_ne.
  - destruct msgs as [|v msgs]; [cbn in Hl; lia|]. destruct (mb_get_fifo _ _ _ M2) as [Ev M2'].
    unfold mod_mb. do 2 wp1. set (k1 := set_k_mailboxes _ k). wp1.
    assert (mb_ok (k_mailboxes k1 m) msgs) as M2'' by (unfold k1; ksimpl; by rewrite upd_eq).
    eapply (wp_mb_wake k1 L m (LSender m) (LSuspend (OMailBox m))); [exact M1|exact M2''|done|done|done|exact M4|exact M3|exact Hex|].
    intros c' L' Hk HLs HLr Hw. wp1. rewrite Ev. exists L', msgs, rs, (tail ss).
    split; [apply recv_get|]. split; [by split|]. split; [intros _; exact Hw|done].
Qed.

(** C24 rt_mb_recv refines the abstract bounded queue: the oldest mail is returned and
    the first waiting sender becomes READY; on an empty mailbox the call fails at once
    with -RT_ETIMEOUT, or the caller is queued and gives the processor away. *)
Theorem rt_mb_recv_refines k L m t timeout msgs rs ss :
  mb_rep k L m msgs rs ss -> ipc_flag_ok (mb_flag k m) -> k_current_thread (k_core k) = Some t ->
  (exists u, thread_stat (k_core k) u = RT_THREAD_READY) -> may_block k L t timeout rs ->
  exists r k' L' msgs' rs' ss', rt_mb_recv m timeout k = Some (r, k') /\
    mb_recv_step (enqueue (mb_flag k m) (prio_of (k_core k))) t timeout (waiting k t timeout) msgs rs ss r msgs' rs' ss' /\
    mb_rep k' L' m msgs' rs' ss' /\
    match r with Waiting _ => slept k k' t | Returned (e, _) => (e = RT_EOK -> woke k k' ss) /\ (e <> RT_EOK -> k' = k) end.
Proof.
  intros H Hfl Hcur Hex Hmb. cut (wp (rt_mb_recv m timeout) (mb_received k m t timeout msgs rs ss) k).
  { intros (r & k' & E & L' & msgs' & rs' & ss' & H')%wp_run. by exists r, k', L', msgs', rs', ss'. }
  unfold rt_mb_recv, rt_thread_self, mb. do 2 wp1. do 2 wp1. rewrite Hcur.
  pose proof (mb_ok_length _ _ (mbr_ok _ _ _ _ _ _ H)) as Hl.
  destruct (Z.eqb_spec (mb_entry (k_mailboxes k m)) 0) as [Hf|Hf]; cbn [andb].
  - destruct (Z.eqb_spec timeout 0) as [->|Ht].
    + wp1. destruct msgs as [|? ?]; [|cbn in Hl; lia]. exists L, [], rs, ss. split; [by apply recv_empty|]. by split; [|split].
    + by apply (wp_mb_recv_loop k L).
  - by apply (wp_mb_recv_loop k L).
Qed.
End mailbox.
