(* ===== verification/MessageQueue.v ===== *)
(** Message queues (src/ipc.c, the rt_mq functions): a pool of message cells, each
    on the free list, on the queue, or in the hands of one sender or receiver that
    copies its bytes outside the critical sections. *)
From S2P Require Import Prelude RtList Kservice Kernel Scheduler Object TimerCore Invariant Thread Timer Ipc Mailbox.

Section messagequeue.
Context {cfg : Config} {kh : KHeap} {sz : ObjectSizes} {st : StaticThreads}.

Definition mq (q : Z) : M kstate rt_messagequeue := gets (fun k => k_mqs k q).
Definition mod_mq (q : Z) (f : rt_messagequeue -> rt_messagequeue) : M kstate unit :=
  modify (fun k => set_k_mqs (<[q := f (k_mqs k q)]> (k_mqs k)) k).

(** sizeof(struct rt_mq_message): one pointer. *)
Definition mq_header : Z := 4.

(** ** The message lists *)
(** [for (temp = lo; temp < lo + n; temp++)]: push the cells on the free list. *)
Fixpoint mq_push_cells (n : nat) (lo : Z) (b : rt_messagequeue) : rt_messagequeue :=
  match n with
  | O => b
  | S n =>
    let b := set_mq_next (<[lo := mq_msg_queue_free b]> (mq_next b)) b in
    mq_push_cells n (lo + 1) (set_mq_msg_queue_free (Some lo) b)
  end.
Definition mq_init_lists (b : rt_messagequeue) : rt_messagequeue :=
  let b := set_mq_msg_queue_free None (set_mq_msg_queue_tail None (set_mq_msg_queue_head None b)) in
  set_mq_entry 0 (mq_push_cells (Z.to_nat (mq_max_msgs b)) 0 b).

(** The first critical section of rt_mq_send and rt_mq_urgent. *)
Definition mq_alloc_msg (b : rt_messagequeue) : option (Z * rt_messagequeue) :=
  match mq_msg_queue_free b with
  | None => None
  | Some msg => Some (msg, set_mq_msg_queue_free (mq_next b msg) b)
  end.
(** Copying the bytes of the caller's buffer into the cell. *)
Definition mq_write (msg : Z) (buffer : list Z) (b : rt_messagequeue) : rt_messagequeue :=
  set_mq_data (<[msg := buffer ++ drop (length buffer) (mq_data b msg)]> (mq_data b)) b.
(** The second critical section: at the tail, or at the head. *)
Definition mq_link_tail (msg : Z) (b : rt_messagequeue) : rt_messagequeue :=
  let b := match mq_msg_queue_tail b with
           | Some tl => set_mq_next (<[tl := Some msg]> (mq_next b)) b
           | None => b
           end in
  let b := set_mq_msg_queue_tail (Some msg) b in
  let b := match mq_msg_queue_head b with
           | None => set_mq_msg_queue_head (Some msg) b
           | Some _ => b
           end in
  set_mq_entry (uint16 (mq_entry b + 1)) b.
Definition mq_link_head (msg : Z) (b : rt_messagequeue) : rt_messagequeue :=
  let b := set_mq_next (<[msg := mq_msg_queue_head b]> (mq_next b)) b in
  let b := set_mq_msg_queue_head (Some msg) b in
  let b := match mq_msg_queue_tail b with
           | None => set_mq_msg_queue_tail (Some msg) b
           | Some _ => b
           end in
  set_mq_entry (uint16 (mq_entry b + 1)) b.
(** The first critical section of rt_mq_recv after its wait: unlink the head. *)
Definition mq_unlink_head (b : rt_messagequeue) : option (Z * rt_messagequeue) :=
  match mq_msg_queue_head b with
  | None => None
  | Some msg =>
    let b := set_mq_msg_queue_head (mq_next b msg) b in
    Some (msg, if bool_decide (mq_msg_queue_tail b = Some msg) then set_mq_msg_queue_tail None b else b)
  end.
(** Its second one: put the cell on the free list. *)
Definition mq_free_msg (msg : Z) (b : rt_messagequeue) : rt_messagequeue :=
  set_mq_msg_queue_free (Some msg) (set_mq_next (<[msg := mq_msg_queue_free b]> (mq_next b)) b).

(** The reset loop: every queued message to the free list. *)
Fixpoint mq_release_all (fuel : nat) (b : rt_messagequeue) : option rt_messagequeue :=
  match fuel with
  | O => None
  | S fuel =>
    match mq_unlink_head b with
    | None => Some b
    | Some (msg, b) => mq_release_all fuel (mq_free_msg msg b)
    end
  end.

(** ** The operations *)
Definition rt_mq_init (q : Z) (name : list Z) (msgpool msg_size pool_size flag : Z) : M kstate Z :=
  lift (rt_object_init (OMessageQueue q) RT_Object_Class_MessageQueue name) ;;
  lift (mod_object (OMessageQueue q) (set_ob_flag flag)) ;;
  _ ← lift (rt_ipc_object_init (OMessageQueue q));
  mod_mq q (set_mq_pool_addr (Some msgpool)) ;;
  mod_mq q (set_mq_msg_size (uint16 (RT_ALIGN msg_size RT_ALIGN_SIZE))) ;;
  mod_mq q (fun b => set_mq_max_msgs (uint16 (pool_size / (mq_msg_size b + mq_header))) b) ;;
  mod_mq q mq_init_lists ;;
  mret RT_EOK.

Definition rt_mq_detach (q : Z) : M kstate Z :=
  _ ← lift (rt_ipc_list_resume_all (LSuspend (OMessageQueue q)));
  lift (rt_object_detach (OMessageQueue q)) ;;
  mret RT_EOK.

Definition rt_mq_delete (q : Z) : M kstate Z :=
  lift RT_DEBUG_NOT_IN_INTERRUPT ;;
  _ ← lift (rt_ipc_list_resume_all (LSuspend (OMessageQueue q)));
  b ← mq q;
  kernel_free_ptr (mq_pool_addr b) ;;
  lift (rt_object_delete (OMessageQueue q)) ;;
  mret RT_EOK.

Definition rt_mq_create (name : list Z) (msg_size max_msgs flag : Z) : M kstate (option Z) :=
  lift RT_DEBUG_NOT_IN_INTERRUPT ;;
  p ← lift (rt_object_allocate RT_Object_Class_MessageQueue name);
  match p with
  | None => mret None
  | Some q =>
    lift (mod_object (OMessageQueue q) (set_ob_flag flag)) ;;
    _ ← lift (rt_ipc_object_init (OMessageQueue q));
    mod_mq q (set_mq_msg_size (uint16 (RT_ALIGN msg_size RT_ALIGN_SIZE))) ;;
    mod_mq q (set_mq_max_msgs (uint16 max_msgs)) ;;
    b ← mq q;
    pool ← lift (RT_KERNEL_MALLOC (uint32 ((mq_msg_size b + mq_header) * mq_max_msgs b)));
    mod_mq q (set_mq_pool_addr pool) ;;
    match pool with
    | None => _ ← rt_mq_delete q; mret None
    | Some _ => mod_mq q mq_init_lists ;; mret (Some q)
    end
  end.

(** rt_mq_send and rt_mq_urgent up to the end of the first critical section: the
    error code, or the cell that the caller fills. *)
Definition mq_send_begin (q : Z) (buffer : list Z) (size : Z) : M kstate (Z + Z) :=
  rt_assert (negb (size =? 0)) ;;
  b ← mq q;
  if size >? mq_msg_size b then mret (inl (- RT_ERROR))
  else
    match mq_alloc_msg b with
    | None => mret (inl (- RT_EFULL))
    | Some (msg, b') => mod_mq q (fun _ => b') ;; mret (inr msg)
    end.
(** Between the critical sections, and the second one. *)
Definition mq_send_copy (q msg : Z) (buffer : list Z) (size : Z) : M kstate unit :=
  mod_mq q (fun b => set_mq_next (<[msg := None]> (mq_next b)) b) ;;
  mod_mq q (mq_write msg (take (Z.to_nat size) buffer)).
Definition mq_send_end (q msg : Z) : M kstate Z :=
  mod_mq q (mq_link_tail msg) ;;
  wake_one (LSuspend (OMessageQueue q)) ;;
  mret RT_EOK.
Definition rt_mq_send (q : Z) (buffer : list Z) (size : Z) : M kstate Z :=
  r ← mq_send_begin q buffer size;
  match r with
  | inl err => mret err
  | inr msg => mq_send_copy q msg buffer size ;; mq_send_end q msg
  end.

Definition mq_urgent_copy (q msg : Z) (buffer : list Z) (size : Z) : M kstate unit :=
  mod_mq q (mq_write msg (take (Z.to_nat size) buffer)).
Definition mq_urgent_end (q msg : Z) : M kstate Z :=
  mod_mq q (mq_link_head msg) ;;
  wake_one (LSuspend (OMessageQueue q)) ;;
  mret RT_EOK.
Definition rt_mq_urgent (q : Z) (buffer : list Z) (size : Z) : M kstate Z :=
  r ← mq_send_begin q buffer size;
  match r with
  | inl err => mret err
  | inr msg => mq_urgent_copy q msg buffer size ;; mq_urgent_end q msg
  end.

(** The result is the error code and the bytes stored in the buffer, if any. *)
Definition mq_block (q t timeout : Z) : M kstate mb_wait :=
  flag ← lift (object_flag (OMessageQueue q));
  tick ← gets (fun k => k_rt_tick (k_core k));
  lift (block_on (LSuspend (OMessageQueue q)) t flag timeout) ;;
  mret (mk_mb_wait t timeout (if timeout >? 0 then tick else 0)).

Definition mq_recv_begin (q timeout : Z) (self : option Z) : M kstate (outcome mb_wait (Z + Z)) :=
  b ← mq q;
  if mq_entry b =? 0 then
    lift RT_DEBUG_IN_THREAD_CONTEXT ;;
    match self with
    | None => diverge
    | Some t =>
      lift (mod_thread t (set_th_error RT_EOK)) ;;
      if timeout =? 0 then
        lift (mod_thread t (set_th_error (- RT_ETIMEOUT))) ;;
        mret (Returned (inl (- RT_ETIMEOUT)))
      else w ← mq_block q t timeout; mret (Waiting w)
    end
  else
    match mq_unlink_head b with
    | None => diverge
    | Some (msg, b) =>
      mod_mq q (fun _ => set_mq_entry (uint16 (mq_entry b - 1)) b) ;;
      mret (Returned (inr msg))
    end.
Definition mq_recv_copy (q msg size : Z) : M kstate (list Z) :=
  b ← mq q;
  mret (take (Z.to_nat (if size >? mq_msg_size b then mq_msg_size b else size)) (mq_data b msg)).
Definition mq_recv_end (q msg : Z) : M kstate unit := mod_mq q (mq_free_msg msg).
Definition mq_recv_finish (q size : Z) (r : outcome mb_wait (Z + Z)) : M kstate (outcome mb_wait (Z * option (list Z))) :=
  match r with
  | Waiting w => mret (Waiting w)
  | Returned (inl err) => mret (Returned (err, None))
  | Returned (inr msg) =>
    data ← mq_recv_copy q msg size;
    mq_recv_end q msg ;;
    mret (Returned (RT_EOK, Some data))
  end.

Definition rt_mq_recv (q size timeout : Z) : M kstate (outcome mb_wait (Z * option (list Z))) :=
  rt_assert (negb (size =? 0)) ;;
  self ← gets (fun k => rt_thread_self (k_core k));
  b ← mq q;
  if (mq_entry b =? 0) && (timeout =? 0) then mret (Returned (- RT_ETIMEOUT, None))
  else r ← mq_recv_begin q timeout self; mq_recv_finish q size r.
Definition rt_mq_recv_resumed (q size : Z) (w : mb_wait) : M kstate (outcome mb_wait (Z * option (list Z))) :=
  th ← lift (thread (mw_thread w));
  if negb (th_error th =? RT_EOK) then mret (Returned (th_error th, None))
  else
    now ← gets (fun k => k_rt_tick (k_core k));
    r ← mq_recv_begin q (remaining_timeout (mw_timeout w) (mw_tick_delta w) now) (Some (mw_thread w));
    mq_recv_finish q size r.

Definition rt_mq_control (q cmd arg : Z) : M kstate Z :=
  if cmd =? RT_IPC_CMD_RESET then
    _ ← lift (rt_ipc_list_resume_all (LSuspend (OMessageQueue q)));
    b ← mq q;
    match mq_release_all (S (Z.to_nat (mq_max_msgs b))) b with
    | None => diverge
    | Some b =>
      mod_mq q (fun _ => set_mq_entry 0 b) ;;
      lift rt_schedule ;;
      mret RT_EOK
    end
  else mret (- RT_ERROR).

(** ** The cells *)
(** [cs] are the cells from [p] along the next pointers. *)
Fixpoint chain (next : Z -> option Z) (p : option Z) (cs : list Z) : Prop :=
  match cs with
  | [] => p = None
  | c :: cs => p = Some c /\ chain next (next c) cs
  end.
Lemma chain_upd next c v cs : forall p, c ∉ cs -> chain next p cs -> chain (<[c := v]> next) p cs.
Proof.
  induction cs as [|d cs IH]; intros p Hc; [done|]. apply not_elem_of_cons in Hc as [Hne Hc]. cbn.
  intros [-> H]. split; [done|]. rewrite upd_ne by done. by apply IH.
Qed.
Lemma chain_snoc next c tl cs : forall p,
  NoDup cs -> c ∉ cs -> next c = None -> last cs = Some tl -> chain next p cs -> chain (<[tl := Some c]> next) p (cs ++ [c]).
Proof.
  induction cs as [|d cs IH]; intros p Hnd Hc Hn Hl; [done|]. apply not_elem_of_cons in Hc as [Hne Hc].
  apply NoDup_cons in Hnd as [Hd Hnd]. cbn [chain app]. intros [-> H]. split; [done|]. destruct cs as [|e cs].
  - injection Hl as <-. rewrite upd_eq. cbn. by rewrite upd_ne.
  - rewrite upd_ne; [by apply IH|]. intros ->. apply Hd. apply last_Some_elem_of. done.
Qed.

(** The pool: the free cells, the queued cells in order, and the cells that senders
    and receivers hold, are all the cells of the pool. *)
Record mq_ok (b : rt_messagequeue) (free queue held : list Z) : Prop := {
  mqo_free : chain (mq_next b) (mq_msg_queue_free b) free;
  mqo_queue : chain (mq_next b) (mq_msg_queue_head b) queue;
  mqo_tail : mq_msg_queue_tail b = last queue;
  mqo_entry : mq_entry b = Z.of_nat (length queue);
  mqo_cells : free ++ queue ++ held ≡ₚ seqZ 0 (mq_max_msgs b);
  mqo_max : 0 <= mq_max_msgs b < 65536
}.
Lemma mq_ok_NoDup b free queue held : mq_ok b free queue held -> NoDup (free ++ queue ++ held).
Proof. intros H. rewrite (mqo_cells _ _ _ _ H). apply NoDup_seqZ. Qed.
Lemma mq_ok_entry b free queue held : mq_ok b free queue held ->
  Z.of_nat (length free + length queue + length held) = mq_max_msgs b.
Proof.
  intros H. pose proof (Permutation_length (mqo_cells _ _ _ _ H)) as E. pose proof (mqo_max _ _ _ _ H).
  rewrite !length_app, length_seqZ in E. lia.
Qed.
Lemma mq_ok_held b free queue held held' : held ≡ₚ held' -> mq_ok b free queue held -> mq_ok b free queue held'.
Proof. intros Hp [H1 H2 H3 H4 H5 H6]. split; try done. by rewrite <- Hp. Qed.

Lemma mq_push_ok n : forall lo b free, 0 <= lo ->
  chain (mq_next b) (mq_msg_queue_free b) free -> (forall c, c ∈ free -> c < lo) ->
  let b' := mq_push_cells n lo b in
  chain (mq_next b') (mq_msg_queue_free b') (rev (seqZ lo (Z.of_nat n)) ++ free) /\
  mq_msg_queue_head b' = mq_msg_queue_head b /\ mq_msg_queue_tail b' = mq_msg_queue_tail b /\
  mq_max_msgs b' = mq_max_msgs b /\ mq_msg_size b' = mq_msg_size b.
Proof.
  induction n as [|n IH]; intros lo b free Hlo H Hc; [done|].
  rewrite Nat2Z.inj_succ, seqZ_cons by lia. rewrite Z.pred_succ. cbn [rev mq_push_cells]. rewrite <- app_assoc.
  change (Z.succ lo) with (lo + 1). 
  apply (IH (lo + 1) (set_mq_msg_queue_free (Some lo) (set_mq_next (<[lo := mq_msg_queue_free b]> (mq_next b)) b)) (lo :: free)); [lia| |].
  - cbn. split; [done|]. rewrite upd_eq. apply chain_upd; [|done]. intros Hin%Hc. lia.
  - intros c [->|Hin%Hc]%elem_of_cons; lia.
Qed.
Lemma mq_init_ok b :
  0 <= mq_max_msgs b < 65536 -> mq_ok (mq_init_lists b) (rev (seqZ 0 (mq_max_msgs b))) [] [].
Proof.
  intros Hm. unfold mq_init_lists. set (b0 := set_mq_msg_queue_free None _).
  destruct (mq_push_ok (Z.to_nat (mq_max_msgs b)) 0 b0 [] ltac:(lia) eq_refl) as (H1 & H2 & H3 & H4 & H5).
  { intros c Hc. by apply elem_of_nil in Hc. }
  rewrite Z2Nat.id, app_nil_r in H1 by lia. split; cbn; [exact H1|by rewrite H2|by rewrite H3|done| |by rewrite H4].
  rewrite H4, app_nil_r. symmetry. apply Permutation_rev.
Qed.

Lemma perm_held {A} (c : A) free queue held : free ++ queue ++ c :: held ≡ₚ c :: free ++ queue ++ held.
Proof. by rewrite !app_assoc, <- Permutation_middle. Qed.
Lemma perm_queue {A} (c : A) free queue held : free ++ (c :: queue) ++ held ≡ₚ c :: free ++ queue ++ held.
Proof. cbn. by rewrite <- Permutation_middle. Qed.
Lemma perm_tail {A} (c : A) free queue held : free ++ (queue ++ [c]) ++ held ≡ₚ c :: free ++ queue ++ held.
Proof. rewrite <- app_assoc. apply perm_held. Qed.

Lemma mq_alloc_ok b free queue held : mq_ok b free queue held ->
  match free with
  | [] => mq_alloc_msg b = None
  | c :: free' => exists b', mq_alloc_msg b = Some (c, b') /\ mq_ok b' free' queue (c :: held) /\
      mq_data b' = mq_data b /\ mq_next b' = mq_next b /\ mq_msg_size b' = mq_msg_size b /\ mq_max_msgs b' = mq_max_msgs b
  end.
Proof.
  intros [H1 H2 H3 H4 H5 H6]. unfold mq_alloc_msg. destruct free as [|c free]; cbn in H1; [by rewrite H1|].
  destruct H1 as [-> H1]. eexists. split; [done|]. split; [|done]. split; cbn; try done.
  rewrite <- H5. apply perm_held.
Qed.
(** A held cell may be written; the lists do not change. *)
Lemma mq_set_next_ok b free queue held c v : mq_ok b free queue held -> c ∈ held ->
  mq_ok (set_mq_next (<[c := v]> (mq_next b)) b) free queue held.
Proof.
  intros H Hc. pose proof (mq_ok_NoDup _ _ _ _ H) as Hnd. destruct H as [H1 H2 H3 H4 H5 H6].
  apply NoDup_app in Hnd as (_ & Hf & [_ [Hq _]]%NoDup_app).
  split; cbn; try done; apply chain_upd; try done.
  - intros Hin. apply (Hf c Hin). apply elem_of_app. by right.
  - intros Hin. by apply (Hq c Hin).
Qed.
Lemma mq_write_ok b free queue held c buf : mq_ok b free queue held -> mq_ok (mq_write c buf b) free queue held.
Proof. by intros [H1 H2 H3 H4 H5 H6]. Qed.

Lemma mq_link_tail_ok b free queue held c :
  mq_ok b free queue (c :: held) -> mq_next b c = None -> mq_ok (mq_link_tail c b) free (queue ++ [c]) held.
Proof.
  intros H Hn. pose proof (mq_ok_NoDup _ _ _ _ H) as Hnd. pose proof (mq_ok_entry _ _ _ _ H) as Hlen. cbn in Hlen.
  destruct H as [H1 H2 H3 H4 H5 H6]. apply NoDup_app in Hnd as (Hndf & Hf & [Hndq [Hq _]]%NoDup_app).
  assert (c ∉ queue) as Hcq by (intros Hin; apply (Hq c Hin); by left).
  assert (uint16 (mq_entry b + 1) = Z.of_nat (length (queue ++ [c]))) as He.
  { rewrite (uint_small 16), length_app by lia. cbn. lia. }
  assert (free ++ (queue ++ [c]) ++ held ≡ₚ seqZ 0 (mq_max_msgs b)) as Hp by (rewrite perm_tail, <- perm_held; exact H5).
  unfold mq_link_tail. rewrite H3. destruct (last queue) as [tl|] eqn:El.
  - assert (exists d queue', queue = d :: queue') as (d & queue' & Eq) by (destruct queue; [done|eauto]).
    assert (tl ∈ queue) as Htl by (by apply last_Some_elem_of).
    assert (mq_msg_queue_head b = Some d) as Hh by (rewrite Eq in H2; apply H2). cbn. rewrite Hh. split; cbn.
    + apply chain_upd; [|done]. intros Hin. apply (Hf tl Hin). apply elem_of_app. by left.
    + by apply chain_snoc.
    + by rewrite last_snoc.
    + exact He.
    + exact Hp.
    + done.
  - apply last_None in El as ->. cbn in H2. cbn. rewrite H2. split; cbn; try done.
Qed.
Lemma mq_link_head_ok b free queue held c :
  mq_ok b free queue (c :: held) -> mq_ok (mq_link_head c b) free (c :: queue) held.
Proof.
  intros H. pose proof (mq_ok_NoDup _ _ _ _ H) as Hnd. pose proof (mq_ok_entry _ _ _ _ H) as Hlen. cbn in Hlen.
  destruct H as [H1 H2 H3 H4 H5 H6]. apply NoDup_app in Hnd as (_ & Hf & [_ [Hq _]]%NoDup_app).
  assert (c ∉ queue) as Hcq by (intros Hin; apply (Hq c Hin); by left).
  assert (c ∉ free) as Hcf by (intros Hin; apply (Hf c Hin); apply elem_of_app; right; by left).
  unfold mq_link_head. cbn. rewrite H3.
  assert (forall b', mq_msg_queue_tail b' = last (c :: queue) -> mq_next b' = <[c := mq_msg_queue_head b]> (mq_next b) ->
    mq_msg_queue_head b' = Some c -> mq_msg_queue_free b' = mq_msg_queue_free b -> mq_entry b' = mq_entry b ->
    mq_max_msgs b' = mq_max_msgs b ->
    mq_ok (set_mq_entry (uint16 (mq_entry b' + 1)) b') free (c :: queue) held) as Hgo.
  { intros b' Et En Eh Ef Ee Em. split; cbn.
    - rewrite En, Ef. by apply chain_upd.
    - rewrite En, Eh. split; [done|]. rewrite upd_eq. by apply chain_upd.
    - exact Et.
    - rewrite Ee, (uint_small 16) by lia. lia.
    - cbn [set_mq_entry mq_max_msgs]. rewrite Em, <- H5. transitivity (c :: free ++ queue ++ held); [apply (perm_queue c)|symmetry; apply (perm_held c)].
    - by rewrite Em. }
  destruct (last queue) as [tl|] eqn:El; apply Hgo; try done; cbn.
  - rewrite H3. destruct queue; [done|]. by rewrite last_cons, El.
  - apply last_None in El as ->. done.
Qed.
Lemma mq_unlink_ok b free c queue held :
  mq_ok b free (c :: queue) held -> exists b', mq_unlink_head b = Some (c, b') /\
    mq_ok (set_mq_entry (uint16 (mq_entry b' - 1)) b') free queue (c :: held) /\
    mq_data b' = mq_data b /\ mq_next b' = mq_next b /\ mq_msg_size b' = mq_msg_size b /\ mq_max_msgs b' = mq_max_msgs b.
Proof.
  intros H. pose proof (mq_ok_NoDup _ _ _ _ H) as Hnd. pose proof (mq_ok_entry _ _ _ _ H) as Hlen. cbn in Hlen.
  destruct H as [H1 H2 H3 H4 H5 H6]. apply NoDup_app in Hnd as (_ & Hf & [[Hc _]%NoDup_cons _]%NoDup_app).
  destruct H2 as [Hh H2]. unfold mq_unlink_head. rewrite Hh. eexists. split; [done|].
  assert (free ++ queue ++ c :: held ≡ₚ seqZ 0 (mq_max_msgs b)) as Hp by (by rewrite perm_held, <- perm_queue).
  cbn [mq_msg_queue_tail set_mq_msg_queue_head]. rewrite H3. destruct queue as [|d queue].
  - cbn. rewrite bool_decide_true by done. split; [|done]. split; cbn; try done.
    cbn [length] in *. rewrite (uint_small 16) by lia. lia.
  - rewrite last_cons. cbn [from_option].
    destruct (last (d :: queue)) as [tl|] eqn:El; [|by apply last_None in El].
    rewrite bool_decide_false by (intros [= ->]; apply Hc; by apply last_Some_elem_of).
    split; [|done]. split; try done; cbn -[last].
    cbn [length] in *. rewrite (uint_small 16) by lia. lia.
Qed.
Lemma mq_free_ok b free queue held c :
  mq_ok b free queue (c :: held) -> mq_ok (mq_free_msg c b) (c :: free) queue held.
Proof.
  intros H. pose proof (mq_ok_NoDup _ _ _ _ H) as Hnd.
  destruct H as [H1 H2 H3 H4 H5 H6]. apply NoDup_app in Hnd as (_ & Hf & [_ [Hq _]]%NoDup_app).
  assert (c ∉ queue) as Hcq by (intros Hin; apply (Hq c Hin); by left).
  assert (c ∉ free) as Hcf by (intros Hin; apply (Hf c Hin); apply elem_of_app; right; by left).
  split; cbn; try done.
  - split; [done|]. rewrite upd_eq. by apply chain_upd.
  - by apply chain_upd.
  - rewrite <- H5. by rewrite perm_held.
Qed.

Lemma mq_release_ok queue : forall fuel b free held,
  mq_ok (set_mq_entry (Z.of_nat (length queue)) b) free queue held -> (length queue < fuel)%nat ->
  exists b', mq_release_all fuel b = Some b' /\ mq_ok (set_mq_entry 0 b') (rev queue ++ free) [] held.
Proof.
  induction queue as [|c queue IH]; intros fuel b free held H Hf; (destruct fuel as [|fuel]; [cbn in Hf; lia|]); cbn [mq_release_all].
  - pose proof (mqo_queue _ _ _ _ H) as Hh. cbn in Hh. unfold mq_unlink_head. rewrite Hh. eauto.
  - destruct (mq_unlink_ok _ _ _ _ _ H) as (b1 & Hu & H1 & _).
    assert (exists b1', mq_unlink_head b = Some (c, b1') /\ b1 = set_mq_entry (Z.of_nat (length (c :: queue))) b1') as (b1' & -> & ->).
    { unfold mq_unlink_head in *. cbn [mq_msg_queue_head set_mq_entry] in Hu. destruct (mq_msg_queue_head b); [|done].
      injection Hu as -> <-. eexists. split; [done|]. cbn. by case_bool_decide. }
    pose proof (mq_ok_entry _ _ _ _ H) as Hlen. pose proof (mqo_max _ _ _ _ H) as Hmax. cbn in Hlen, Hmax.
    destruct (IH fuel (mq_free_msg c b1') (c :: free) held) as (b' & E & H'); [|cbn in Hf; lia|].
    + apply mq_free_ok in H1. destruct H1 as [K1 K2 K3 K4 K5 K6]. split; try done.
    + exists b'. split; [done|]. cbn [rev]. by rewrite <- app_assoc.
Qed.

(** ** The abstract message queue: a bounded list of messages *)
Implicit Types (L : lnode -> option (list lnode)).
Record mq_rep (k : kstate) L (q : Z) (msgs : list (list Z)) (ws : list Z) : Prop := {
  mqr_inv : kinv (k_core k) L;
  mqr_cells : exists free queue, mq_ok (k_mqs k q) free queue [] /\ msgs = mq_data (k_mqs k q) <$> queue;
  mqr_list : L (LSuspend (OMessageQueue q)) = Some (LTlist <$> ws)
}.
Definition mq_flag (k : kstate) (q : Z) : Z := ob_flag (k_objs (k_core k) (OMessageQueue q)).
Definition mq_full (k : kstate) (q : Z) (msgs : list (list Z)) : Prop := Z.of_nat (length msgs) = mq_max_msgs (k_mqs k q).

(** [m] is a cell that holds the bytes of [buffer]. *)
Definition holds (m buffer : list Z) : Prop := take (length buffer) m = buffer.
(** The messages after a send at the tail or at the head. *)
Definition mq_added (urgent : bool) (m : list Z) (msgs : list (list Z)) : list (list Z) :=
  if urgent then m :: msgs else msgs ++ [m].

Lemma fmap_upd_notin {B} (f : Z -> B) c v (cs : list Z) : c ∉ cs -> (<[c := v]> f) <$> cs = f <$> cs.
Proof.
  intros Hc. apply list_fmap_ext. intros i d Hd. apply upd_ne. intros ->. apply Hc. by eapply list_elem_of_lookup_2.
Qed.

(** Both critical sections of a send, and the copy between them. *)
Definition mq_fill (urgent : bool) (c : Z) (buffer : list Z) (b : rt_messagequeue) : rt_messagequeue :=
  mq_write c buffer (if urgent then b else set_mq_next (<[c := None]> (mq_next b)) b).
Definition mq_link (urgent : bool) (c : Z) (b : rt_messagequeue) : rt_messagequeue :=
  if urgent then mq_link_head c b else mq_link_tail c b.
Definition mq_add (urgent : bool) (c : Z) (buffer : list Z) (b : rt_messagequeue) : rt_messagequeue :=
  mq_link urgent c (mq_fill urgent c buffer b).
Lemma mq_add_ok urgent b free queue c buffer :
  mq_ok b free queue [c] -> exists queue', mq_ok (mq_add urgent c buffer b) free queue' [] /\
    mq_data (mq_add urgent c buffer b) <$> queue' =
      mq_added urgent (buffer ++ drop (length buffer) (mq_data b c)) (mq_data b <$> queue).
Proof.
  intros H. assert (c ∉ queue) as Hcq.
  { pose proof (mq_ok_NoDup _ _ _ _ H) as Hnd. apply NoDup_app in Hnd as (_ & _ & [_ [Hq _]]%NoDup_app).
    intros Hin. apply (Hq c Hin). by left. }
  unfold mq_add, mq_fill. destruct urgent; cbn [mq_link mq_added].
  - exists (c :: queue). split; [apply mq_link_head_ok; by apply mq_write_ok|].
    assert (mq_data (mq_link_head c (mq_write c buffer b)) = mq_data (mq_write c buffer b)) as ->.
    { unfold mq_link_head. cbn. by case_match. }
    cbn. rewrite upd_eq. f_equal. by apply fmap_upd_notin.
  - exists (queue ++ [c]). set (b1 := set_mq_next _ b).
    assert (mq_ok b1 free queue [c]) as H1 by (apply mq_set_next_ok; [done|by left]).
    split; [apply mq_link_tail_ok; [by apply mq_write_ok|cbn; by rewrite upd_eq]|].
    assert (mq_data (mq_link_tail c (mq_write c buffer b1)) = mq_data (mq_write c buffer b1)) as ->.
    { unfold mq_link_tail. by repeat (case_match; cbn). }
    rewrite fmap_app. cbn. rewrite upd_eq. f_equal. by apply fmap_upd_notin.
Qed.

Lemma wp_mod_mq q f k Q : Q tt (set_k_mqs (<[q := f (k_mqs k q)]> (k_mqs k)) k) -> wp (mod_mq q f) Q k.
Proof. done. Qed.

Definition mq_send_with (urgent : bool) : Z -> list Z -> Z -> M kstate Z := if urgent then rt_mq_urgent else rt_mq_send.
(** Who wakes when a message arrives. *)
Definition mq_sent (k : kstate) L (q : Z) (urgent : bool) (buffer : list Z) (msgs : list (list Z)) (ws : list Z) (r : Z) (k' : kstate) : Prop :=
  (mq_msg_size (k_mqs k q) < Z.of_nat (length buffer) /\ r = - RT_ERROR /\ k' = k) \/
  (Z.of_nat (length buffer) <= mq_msg_size (k_mqs k q) /\ mq_full k q msgs /\ r = - RT_EFULL /\ k' = k) \/
  (Z.of_nat (length buffer) <= mq_msg_size (k_mqs k q) /\ ~ mq_full k q msgs /\ r = RT_EOK /\
     exists L' m, holds m buffer /\ mq_rep k' L' q (mq_added urgent m msgs) (tail ws) /\ woke k k' ws).

Lemma wp_mq_wake k L q b msgs ws Q :
  kinv (k_core k) L -> L (LSuspend (OMessageQueue q)) = Some (LTlist <$> ws) -> (exists u, thread_stat (k_core k) u = RT_THREAD_READY) ->
  k_mqs k q = b -> (exists free queue, mq_ok b free queue [] /\ msgs = mq_data b <$> queue) ->
  (forall k' L', mq_rep k' L' q msgs (tail ws) -> woke k k' ws -> Q RT_EOK k') ->
  wp (wake_one (LSuspend (OMessageQueue q)) ;; mret RT_EOK) Q k.
Proof.
  intros Hk HL Hex Hb Hok HQ. wp1. unfold wake_one, link_empty. eapply wp_wake_first; [exact Hk|done|exact HL|exact Hex|..].
  - intros ->. wp1. apply (HQ k L); [|done]. split; [done|by rewrite Hb|done].
  - intros w ws' c' L' -> Hk' Hh' _ Hw Hu. wp1. apply (HQ _ L'); [split; [done|ksimpl; by rewrite Hb|done]|].
    split; [by intros ? [= <-]|]. intros u Hn. apply Hu. intros ->. by apply Hn.
Qed.

Lemma wp_mq_send_with urgent k L q buffer msgs ws :
  mq_rep k L q msgs ws -> buffer <> [] -> (exists u, thread_stat (k_core k) u = RT_THREAD_READY) ->
  wp (mq_send_with urgent q buffer (Z.of_nat (length buffer))) (mq_sent k L q urgent buffer msgs ws) k.
Proof.
  intros [Hk (free & queue & Hok & Hm) HL] Hne Hex.
  assert (Z.of_nat (length buffer) <> 0) as Hnz by (destruct buffer; cbn; [done|lia]).
  assert (wp (mq_send_begin q buffer (Z.of_nat (length buffer))) (fun r k' => match r with
    | inl e => mq_sent k L q urgent buffer msgs ws e k'
    | inr c => exists free' b', free = c :: free' /\ mq_ok b' free' queue [c] /\ mq_data b' = mq_data (k_mqs k q) /\
        k' = set_k_mqs (<[q := b']> (k_mqs k)) k /\ Z.of_nat (length buffer) <= mq_msg_size (k_mqs k q) end) k) as Hbegin.
  { unfold mq_send_begin, mq. do 2 wp1; [by apply negb_true_iff, Z.eqb_neq|]. do 2 wp1.
    destruct (Z.gtb_spec (Z.of_nat (length buffer)) (mq_msg_size (k_mqs k q))) as [Hs|Hs]; [wp1; by left|].
    pose proof (mq_alloc_ok _ _ _ _ Hok) as Ha. pose proof (mq_ok_entry _ _ _ _ Hok) as Hl.
    destruct free as [|c free].
    - rewrite Ha. wp1. right. left. split; [lia|]. split; [|done]. unfold mq_full. rewrite Hm, length_fmap. cbn in Hl. lia.
    - destruct Ha as (b' & -> & Hok' & Ed & _). wp1. apply wp_mod_mq. wp1. exists free, b'. by split_and!. }
  assert (forall c free' b' Q, Q = mq_sent k L q urgent buffer msgs ws -> free = c :: free' -> mq_ok b' free' queue [c] ->
    mq_data b' = mq_data (k_mqs k q) -> Z.of_nat (length buffer) <= mq_msg_size (k_mqs k q) ->
    forall k1, k_core k1 = k_core k -> k_mqs k1 q = mq_add urgent c buffer b' ->
    wp (wake_one (LSuspend (OMessageQueue q)) ;; mret RT_EOK) Q k1) as Hend.
  { intros c free' b' Q -> -> Hok' Ed Hs k1 Ec Eq. destruct (mq_add_ok urgent _ _ _ _ buffer Hok') as (queue' & Hok2 & Eq2).
    eapply (wp_mq_wake k1 L q (mq_add urgent c buffer b')); [by rewrite Ec|exact HL|destruct Hex as [u Hu]; exists u; by rewrite Ec|by rewrite Eq|exists free', queue'; split; [exact Hok2|by rewrite Eq2, Ed, <- Hm]|].
    intros k' L' Hr Hw. right. right. split; [done|]. split; [|split; [done|]].
    - unfold mq_full. pose proof (mq_ok_entry _ _ _ _ Hok) as Hl. rewrite Hm, length_fmap. cbn in Hl. lia.
    - exists L', (buffer ++ drop (length buffer) (mq_data (k_mqs k q) c)). split; [by unfold holds; rewrite take_app_length|].
      split; [exact Hr|]. unfold woke in *. by rewrite Ec in Hw. }
  destruct urgent; cbn [mq_send_with]; [unfold rt_mq_urgent|unfold rt_mq_send]; wp1;
    (eapply wp_mono; [exact Hbegin|]); intros [e|c] k1; try (intros H; wp1; exact H);
    intros (free' & b' & Ef & Hok' & Ed & -> & Hs).
  - unfold mq_urgent_copy, mq_urgent_end. wp1. apply wp_mod_mq. wp1. apply wp_mod_mq. ksimpl. rewrite !upd_eq.
    rewrite Nat2Z.id, firstn_all. eapply Hend; [done|exact Ef|exact Hok'|exact Ed|exact Hs|done|]. ksimpl. by rewrite upd_eq.
  - unfold mq_send_copy, mq_send_end. wp1. wp1. apply wp_mod_mq. apply wp_mod_mq. wp1. apply wp_mod_mq. ksimpl. rewrite !upd_eq.
    rewrite Nat2Z.id, firstn_all. eapply Hend; [done|exact Ef|exact Hok'|exact Ed|exact Hs|done|]. ksimpl. by rewrite upd_eq.
Qed.

(** C25 rt_mq_send refines the bounded queue of messages: a buffer that is too long or
    a full queue is refused without a change; otherwise a message that holds the
    buffer is appended, and the first waiting receiver becomes READY. *)
Theorem rt_mq_send_refines k L q buffer msgs ws :
  mq_rep k L q msgs ws -> buffer <> [] -> (exists u, thread_stat (k_core k) u = RT_THREAD_READY) ->
  exists r k', rt_mq_send q buffer (Z.of_nat (length buffer)) k = Some (r, k') /\ mq_sent k L q false buffer msgs ws r k'.
Proof. intros H Hne Hex. by apply wp_run, (wp_mq_send_with false). Qed.

(** rt_mq_urgent is rt_mq_send, but the message goes to the head of the queue: it is
    the next one received. *)
Theorem rt_mq_urgent_refines k L q buffer msgs ws :
  mq_rep k L q msgs ws -> buffer <> [] -> (exists u, thread_stat (k_core k) u = RT_THREAD_READY) ->
  exists r k', rt_mq_urgent q buffer (Z.of_nat (length buffer)) k = Some (r, k') /\ mq_sent k L q true buffer msgs ws r k'.
Proof. intros H Hne Hex. by apply wp_run, (wp_mq_send_with true). Qed.

(** ** Receiving *)
Inductive mq_recv_step (enq : Z -> list Z -> list Z) (n : nat) (t timeout : Z) (w : mb_wait) :
    list (list Z) -> list Z -> outcome mb_wait (Z * option (list Z)) -> list (list Z) -> list Z -> Prop :=
| mrecv_empty ws : timeout = 0 ->
    mq_recv_step enq n t timeout w [] ws (Returned (- RT_ETIMEOUT, None)) [] ws
| mrecv_block ws : timeout <> 0 ->
    mq_recv_step enq n t timeout w [] ws (Waiting w) [] (enq t ws)
| mrecv_get m msgs ws :
    mq_recv_step enq n t timeout w (m :: msgs) ws (Returned (RT_EOK, Some (take n m))) msgs ws.

Lemma wp_mq_block k L q ws t timeout Q :
  kinv (k_core k) L -> caller (k_core k) t -> L (LSuspend (OMessageQueue q)) = Some (LTlist <$> ws) ->
  th_error (k_threads (k_core k) t) = RT_EOK ->
  ipc_flag_ok (mq_flag k q) -> lists_short L -> (length ws < loop_fuel)%nat -> timeout < RT_TICK_MAX / 2 ->
  (forall c' L', kinv c' L' -> L' (LSuspend (OMessageQueue q)) = Some (LTlist <$> enqueue (mq_flag k q) (prio_of (k_core k)) t ws) ->
     slept k (set_k_core c' k) t -> Q (waiting k t timeout) (set_k_core c' k)) ->
  wp (mq_block q t timeout) Q k.
Proof.
  intros H Hca HL Her Hfl Hsh Hlen Ht HQ. unfold mq_block.
  do 2 wp1. unfold object_flag. do 2 wp1. wp1. rewrite set_k_core_id. do 2 wp1. do 2 wp1.
  fold (mq_flag k q). eapply (wp_block_on (k_core k) L); [exact H|done|done|exact HL|done|done|done|done|].
  intros c' L' Hb Ho. wp1. apply (HQ c' L'); [apply Hb|apply Hb|].
  split; [apply Hb|]. split; [ksimpl; by rewrite (bl_error _ _ _ _ _ _ _ Hb)|]. split; [|apply Hb].
  destruct (bl_current _ _ _ _ _ _ _ Hb) as (u & Hu & Hr & _). ksimpl. rewrite Hu.
  intros [= ->]. by rewrite (bl_stat _ _ _ _ _ _ _ Hb) in Hr.
Qed.

Definition recv_bytes (k : kstate) (q size : Z) : nat := Z.to_nat (Z.min size (mq_msg_size (k_mqs k q))).
Definition mq_received (k : kstate) (q size t timeout : Z) (msgs : list (list Z)) (ws : list Z)
    (r : outcome mb_wait (Z * option (list Z))) (k' : kstate) : Prop :=
  exists L' msgs' ws',
    mq_recv_step (enqueue (mq_flag k q) (prio_of (k_core k))) (recv_bytes k q size) t timeout (waiting k t timeout) msgs ws r msgs' ws' /\
    mq_rep k' L' q msgs' ws' /\
    match r with Waiting _ => slept k k' t | Returned _ => k_core k' = k_core k end.

(** Taking the first message and freeing its cell. *)
Lemma wp_mq_take k L q size t timeout m msgs ws :
  mq_rep k L q (m :: msgs) ws ->
  wp (r ← (b ← mq q; match mq_unlink_head b with
           | None => diverge
           | Some (msg, b) => mod_mq q (fun _ => set_mq_entry (uint16 (mq_entry b - 1)) b) ;;
                              mret (Returned (P := mb_wait) (inr (A := Z) msg)) end);
      mq_recv_finish q size r) (mq_received k q size t timeout (m :: msgs) ws) k.
Proof.
  intros [Hk (free & queue & Hok & Hm) HL]. destruct queue as [|c queue]; [done|]. injection Hm as Em Hm.
  assert (c ∉ queue) as Hcq.
  { pose proof (mq_ok_NoDup _ _ _ _ Hok) as Hnd. by apply NoDup_app in Hnd as (_ & _ & [[Hq _]%NoDup_cons _]%NoDup_app). }
  destruct (mq_unlink_ok _ _ _ _ _ Hok) as (b' & Eu & Hok' & Ed & En & Es & Ex).
  unfold mq. wp1. do 2 wp1. rewrite Eu. wp1. apply wp_mod_mq. wp1. cbn [mq_recv_finish]. set (b1 := set_mq_entry _ b') in *.
  unfold mq_recv_copy, mq_recv_end, mq. wp1. do 2 wp1. wp1. wp1. apply wp_mod_mq. wp1. ksimpl. rewrite !upd_eq.
  apply mq_free_ok in Hok'. exists L, msgs, ws. split; [|split; [|done]].
  - change (mq_data b1) with (mq_data b'). change (mq_msg_size b1) with (mq_msg_size b'). rewrite Ed, Es, <- Em.
    replace (if size >? mq_msg_size (k_mqs k q) then mq_msg_size (k_mqs k q) else size)
      with (Z.min size (mq_msg_size (k_mqs k q))) by (zcases; lia). apply mrecv_get.
  - split; [done| |done]. exists (c :: free), queue. ksimpl. rewrite upd_eq. split; [exact Hok'|]. by rewrite Hm, <- Ed.
Qed.

(** C26 rt_mq_recv refines the bounded queue of messages: the oldest message is copied
    out, cut to the size of the buffer, and its cell becomes free; on an empty queue
    the call fails at once with -RT_ETIMEOUT, or the caller is queued and gives the
    processor away. *)
Theorem rt_mq_recv_refines k L q size t timeout msgs ws :
  mq_rep k L q msgs ws -> 0 < size -> ipc_flag_ok (mq_flag k q) -> k_current_thread (k_core k) = Some t ->
  may_block k L t timeout ws ->
  exists r k' L' msgs' ws', rt_mq_recv q size timeout k = Some (r, k') /\
    mq_recv_step (enqueue (mq_flag k q) (prio_of (k_core k))) (recv_bytes k q size) t timeout (waiting k t timeout) msgs ws r msgs' ws' /\
    mq_rep k' L' q msgs' ws' /\
    match r with Waiting _ => slept k k' t | Returned _ => k_core k' = k_core k end.
Proof.
  intros H Hsz Hfl Hcur Hmb. cut (wp (rt_mq_recv q size timeout) (mq_received k q size t timeout msgs ws) k).
  { intros (r & k' & E & L' & msgs' & ws' & H')%wp_run. by exists r, k', L', msgs', ws'. }
  pose proof H as [Hk (free & queue & Hok & Hm) HL]. pose proof (mqo_entry _ _ _ _ Hok) as He.
  unfold rt_mq_recv, rt_thread_self, mq. do 2 wp1; [by apply negb_true_iff, Z.eqb_neq; lia|]. do 2 wp1. rewrite Hcur. do 2 wp1.
  destruct queue as [|c queue].
  - cbn in He, Hm. change (Z.of_nat 0) with 0 in He. rewrite He. cbn [Z.eqb andb]. subst msgs. destruct (Z.eqb_spec timeout 0) as [->|Ht].
    { wp1. exists L, [], ws. split; [by apply mrecv_empty|done]. }
    destruct (Hmb Ht) as (Hca & Hsh & Hlen & Htm). unfold mq_recv_begin, mq. wp1. do 2 wp1. rewrite He. cbn [Z.eqb].
    wp1. wp1. apply thread_context_run; [by rewrite (ca_current _ _ Hca)|apply (ca_nest _ _ Hca)|]. rewrite set_k_core_id.
    wp1. apply wp_set_error. set (k1 := set_k_core _ k). rewrite (proj2 (Z.eqb_neq _ _) Ht). wp1.
    eapply (wp_mq_block k1 L q); [by apply kinv_error|by apply caller_error|done| |done..|].
    { unfold k1, with_error; ksimpl. by rewrite upd_eq. }
    intros c' L' H' HL' (S1 & S2 & S3 & S4). wp1. cbn [mq_recv_finish]. wp1.
    exists L', [], (enqueue (mq_flag k q) (prio_of (k_core k)) t ws).
    rewrite (enqueue_ext _ (prio_of (k_core k))) in HL' by (intros u; apply prio_of_error).
    split; [by apply mrecv_block|]. split; [split; [done| |done]; by exists free, []|].
    split; [done|]. split; [done|]. split; [done|]. intros u Hu. rewrite S4 by done. unfold k1, with_error; ksimpl. by rewrite upd_ne.
  - destruct msgs as [|m msgs]; [done|]. assert (mq_entry (k_mqs k q) =? 0 = false) as E0 by (apply Z.eqb_neq; cbn in He; lia).
    rewrite E0. cbn [andb]. pose proof (wp_mq_take k L q size t timeout m msgs ws H) as Ht.
    unfold mq_recv_begin. revert Ht. unfold wp, mbind, M_bind, mq, gets. by rewrite E0.
Qed.

(** ** Interleaving of the critical sections *)
(** A sender between its critical sections ([filled] when the bytes are copied), or a
    receiver that copies the message [m] out of its cell. *)
Inductive mq_user :=
| USend (c : Z) (buffer : list Z) (filled urgent : bool)
| URecv (c : Z) (m : list Z).
Definition user_cell (u : mq_user) : Z := match u with USend c _ _ _ => c | URecv c _ => c end.
Inductive mq_label := LNone | LPut (urgent : bool) (buffer : list Z) | LGet (m : list Z).

(** Any number of senders and receivers: each step is one critical section, or the
    copy of one of them, of rt_mq_send, rt_mq_urgent or rt_mq_recv. *)
Inductive mq_step : rt_messagequeue * list mq_user -> mq_label -> rt_messagequeue * list mq_user -> Prop :=
| st_alloc b us urgent buffer c b' : mq_alloc_msg b = Some (c, b') ->
    mq_step (b, us) LNone (b', USend c buffer false urgent :: us)
| st_fill b us1 us2 urgent buffer c :
    mq_step (b, us1 ++ USend c buffer false urgent :: us2) LNone
      (mq_fill urgent c buffer b, us1 ++ USend c buffer true urgent :: us2)
| st_link b us1 us2 urgent buffer c :
    mq_step (b, us1 ++ USend c buffer true urgent :: us2) (LPut urgent buffer) (mq_link urgent c b, us1 ++ us2)
| st_unlink b us c b' : mq_entry b <> 0 -> mq_unlink_head b = Some (c, b') ->
    mq_step (b, us) (LGet (mq_data b c))
      (set_mq_entry (uint16 (mq_entry b' - 1)) b', URecv c (mq_data b c) :: us)
| st_free b us1 us2 c m :
    mq_step (b, us1 ++ URecv c m :: us2) LNone (mq_free_msg c b, us1 ++ us2).
(** The specification: one list of buffers, changed in one step. *)
Inductive spec_step : list (list Z) -> mq_label -> list (list Z) -> Prop :=
| sp_none bs : spec_step bs LNone bs
| sp_put urgent buffer bs : spec_step bs (LPut urgent buffer) (mq_added urgent buffer bs)
| sp_get m buffer bs : holds m buffer -> spec_step (buffer :: bs) (LGet m) bs.
Inductive mq_runs (s0 : rt_messagequeue * list mq_user) : list mq_label -> rt_messagequeue * list mq_user -> Prop :=
| runs_nil : mq_runs s0 [] s0
| runs_snoc ls s l s' : mq_runs s0 ls s -> mq_step s l s' -> mq_runs s0 (ls ++ [l]) s'.
Inductive spec_runs : list mq_label -> list (list Z) -> Prop :=
| spec_nil : spec_runs [] []
| spec_snoc ls bs l bs' : spec_runs ls bs -> spec_step bs l bs' -> spec_runs (ls ++ [l]) bs'.

Definition user_ok (b : rt_messagequeue) (u : mq_user) : Prop :=
  match u with
  | USend c buffer filled urgent =>
      filled = true -> holds (mq_data b c) buffer /\ (urgent = false -> mq_next b c = None)
  | URecv c m => mq_data b c = m
  end.
Record sys_inv (s : rt_messagequeue * list mq_user) (bs : list (list Z)) : Prop := {
  si_cells : exists free queue, mq_ok s.1 free queue (user_cell <$> s.2) /\ Forall2 holds (mq_data s.1 <$> queue) bs;
  si_users : Forall (user_ok s.1) s.2
}.
Lemma users_mono b b' us :
  Forall (user_ok b) us -> (forall u, u ∈ us -> mq_data b' (user_cell u) = mq_data b (user_cell u)) ->
  (forall u, u ∈ us -> mq_next b' (user_cell u) = mq_next b (user_cell u)) -> Forall (user_ok b') us.
Proof.
  rewrite !Forall_forall. intros H Hd Hn u Hu. specialize (H u Hu). specialize (Hd u Hu). specialize (Hn u Hu).
  destruct u; cbn in *; rewrite Hd; [rewrite Hn|]; done.
Qed.
Lemma holds_fill buffer m : holds (buffer ++ drop (length buffer) m) buffer.
Proof. unfold holds. by rewrite take_app_length. Qed.
Lemma fill_data urgent c buffer b d :
  mq_data (mq_fill urgent c buffer b) d = if decide (c = d) then buffer ++ drop (length buffer) (mq_data b c) else mq_data b d.
Proof. unfold mq_fill. destruct urgent; cbn; apply upd_case. Qed.
Lemma fill_next urgent c buffer b d : d <> c -> mq_next (mq_fill urgent c buffer b) d = mq_next b d.
Proof. intros Hd. unfold mq_fill. destruct urgent; cbn; [done|by rewrite upd_ne]. Qed.
Lemma fill_ok urgent c buffer b free queue held : mq_ok b free queue held -> c ∈ held ->
  mq_ok (mq_fill urgent c buffer b) free queue held.
Proof. intros H Hc. unfold mq_fill. apply mq_write_ok. destruct urgent; [done|by apply mq_set_next_ok]. Qed.
Lemma link_data urgent c b : mq_data (mq_link urgent c b) = mq_data b.
Proof. destruct urgent; unfold mq_link, mq_link_head, mq_link_tail; by repeat (case_match; cbn). Qed.
Lemma link_next urgent c b free queue held d : mq_ok b free queue (c :: held) -> d ∈ held ->
  mq_next (mq_link urgent c b) d = mq_next b d.
Proof.
  intros H Hd. pose proof (mq_ok_NoDup _ _ _ _ H) as Hnd. apply NoDup_app in Hnd as (_ & _ & [_ [Hq Hh]]%NoDup_app).
  apply NoDup_cons in Hh as [Hc _]. assert (c <> d) as Hne by (by intros ->).
  destruct urgent; unfold mq_link, mq_link_head, mq_link_tail.
  - cbn. case_match; cbn; by rewrite upd_ne.
  - rewrite (mqo_tail _ _ _ _ H). destruct (last queue) as [tl|] eqn:E; cbn; case_match; cbn; try done; rewrite upd_ne; try done;
      intros ->; apply (Hq d); [by apply last_Some_elem_of|by right|by apply last_Some_elem_of|by right].
Qed.
Lemma link_ok urgent c b free queue held : mq_ok b free queue (c :: held) -> (urgent = false -> mq_next b c = None) ->
  mq_ok (mq_link urgent c b) free (if urgent then c :: queue else queue ++ [c]) held.
Proof. intros H Hn. destruct urgent; [by apply mq_link_head_ok|apply mq_link_tail_ok; auto]. Qed.

Lemma sys_init b : 0 <= mq_max_msgs b < 65536 -> sys_inv (mq_init_lists b, []) [].
Proof. intros Hm. split; [|constructor]. exists (rev (seqZ 0 (mq_max_msgs b))), []. split; [by apply mq_init_ok|constructor]. Qed.

Lemma fmap_mid (us1 us2 : list mq_user) u :
  user_cell <$> us1 ++ u :: us2 ≡ₚ user_cell u :: (user_cell <$> us1 ++ us2).
Proof. by rewrite !fmap_app, fmap_cons, Permutation_middle. Qed.
Lemma held_cells b free queue u us1 us2 : mq_ok b free queue (user_cell <$> us1 ++ u :: us2) ->
  mq_ok b free queue (user_cell u :: (user_cell <$> us1 ++ us2)) /\
  (user_cell u ∉ queue) /\ forall v, v ∈ us1 ++ us2 -> user_cell v ∈ user_cell <$> us1 ++ us2 /\ user_cell v <> user_cell u.
Proof.
  intros H. pose proof (mq_ok_held _ _ _ _ _ (fmap_mid us1 us2 u) H) as H'. split; [done|].
  pose proof (mq_ok_NoDup _ _ _ _ H') as Hnd. apply NoDup_app in Hnd as (_ & _ & [_ [Hq Hh]]%NoDup_app).
  apply NoDup_cons in Hh as [Hc _]. split.
  - intros Hin. apply (Hq _ Hin). by left.
  - intros v Hv. assert (user_cell v ∈ user_cell <$> us1 ++ us2) as Hi by (apply list_elem_of_fmap; eauto).
    split; [done|]. intros E. by rewrite E in Hi.
Qed.
Lemma Forall_mid {A} (P : A -> Prop) us1 u us2 : Forall P (us1 ++ u :: us2) <-> P u /\ Forall P (us1 ++ us2).
Proof. rewrite !Forall_app, Forall_cons. tauto. Qed.

Lemma holds_fmap_ext b b' queue bs : Forall2 holds (mq_data b <$> queue) bs ->
  (forall c, c ∈ queue -> mq_data b' c = mq_data b c) -> Forall2 holds (mq_data b' <$> queue) bs.
Proof.
  intros H He. assert (mq_data b' <$> queue = mq_data b <$> queue) as ->; [|done].
  apply list_fmap_ext. intros i c Hc. apply He. by eapply list_elem_of_lookup_2.
Qed.
Lemma sim_fill b us1 us2 urgent buffer c bs :
  sys_inv (b, us1 ++ USend c buffer false urgent :: us2) bs ->
  sys_inv (mq_fill urgent c buffer b, us1 ++ USend c buffer true urgent :: us2) bs.
Proof.
  intros [(free & queue & Hok & Hb) Hu]. apply Forall_mid in Hu as [_ Hu]. cbn [fst snd user_cell] in *.
  destruct (held_cells _ _ _ _ _ _ Hok) as (Hok' & Hcq & Hne). cbn [fst snd user_cell] in *. split; cbn [fst snd].
  - exists free, queue. split.
    + eapply mq_ok_held; [symmetry; apply fmap_mid|]. apply fill_ok; [exact Hok'|by left].
    + eapply holds_fmap_ext; [exact Hb|]. intros d Hd. rewrite fill_data, decide_False; [done|]. by intros ->.
  - apply Forall_mid. split.
    + intros _. rewrite fill_data, decide_True by done. split; [apply holds_fill|]. intros ->. unfold mq_fill, mq_write; cbn. by rewrite upd_eq.
    + eapply users_mono; [exact Hu| |]; intros v Hv; destruct (Hne v Hv) as [_ Hv'].
      * by rewrite fill_data, decide_False.
      * by apply fill_next.
Qed.
Lemma sim_link b us1 us2 urgent buffer c bs :
  sys_inv (b, us1 ++ USend c buffer true urgent :: us2) bs ->
  sys_inv (mq_link urgent c b, us1 ++ us2) (mq_added urgent buffer bs).
Proof.
  intros [(free & queue & Hok & Hb) Hu]. apply Forall_mid in Hu as [Hcn Hu]. destruct (Hcn eq_refl) as [Hc Hn]. cbn [fst snd user_cell] in *.
  destruct (held_cells _ _ _ _ _ _ Hok) as (Hok' & Hcq & Hne). cbn [fst snd user_cell] in *. split; cbn [fst snd].
  - exists free, (if urgent then c :: queue else queue ++ [c]). split; [by apply link_ok|]. rewrite link_data.
    destruct urgent; cbn [mq_added]; [by constructor|]. rewrite fmap_app. apply Forall2_app; [done|]. by repeat constructor.
  - eapply users_mono; [exact Hu| |]; intros v Hv; [by rewrite link_data|].
    eapply link_next; [exact Hok'|]. by apply Hne.
Qed.
(** Every step of the interleaved system is a step of the specification. *)
Lemma mq_step_sim s l s' bs :
  mq_step s l s' -> sys_inv s bs -> exists bs', spec_step bs l bs' /\ sys_inv s' bs'.
Proof.
  intros [b us urgent buffer c b' Ea|b us1 us2 urgent buffer c|b us1 us2 urgent buffer c|b us c b' He Eu|b us1 us2 c m] Hinv.
  - exists bs. split; [constructor|]. destruct Hinv as [(free & queue & Hok & Hb) Hu]. cbn [fst snd user_cell] in *.
    pose proof (mq_alloc_ok _ _ _ _ Hok) as Ha. destruct free as [|d free]; [congruence|].
    destruct Ha as (b1 & Ea' & Hok' & Ed & En & _). rewrite Ea in Ea'. injection Ea' as <- <-. split; cbn [fst snd].
    + exists free, queue. by rewrite Ed.
    + constructor; [done|]. eapply users_mono; [exact Hu| |]; intros v _; by rewrite ?Ed, ?En.
  - exists bs. split; [constructor|]. by apply sim_fill.
  - eexists. split; [constructor|]. by apply sim_link.
  - destruct Hinv as [(free & queue & Hok & Hb) Hu]. cbn [fst snd user_cell] in *.
    destruct queue as [|d queue]; [by rewrite (mqo_entry _ _ _ _ Hok) in He|].
    destruct (mq_unlink_ok _ _ _ _ _ Hok) as (b1 & Eu' & Hok' & Ed & En & _). rewrite Eu in Eu'. injection Eu' as <- <-.
    cbn in Hb. destruct bs as [|buffer bs]; [by inversion Hb|]. apply Forall2_cons in Hb as [Hh Hb].
    exists bs. split; [by constructor|]. split; cbn [fst snd].
    + exists free, queue. cbn [mq_data set_mq_entry]. by rewrite Ed.
    + constructor; [by cbn; rewrite Ed|]. eapply users_mono; [exact Hu| |]; intros v _; cbn; by rewrite ?Ed, ?En.
  - exists bs. split; [constructor|]. destruct Hinv as [(free & queue & Hok & Hb) Hu]. cbn [fst snd user_cell] in *.
    apply Forall_mid in Hu as [_ Hu]. destruct (held_cells _ _ _ _ _ _ Hok) as (Hok' & Hcq & Hne). cbn [fst snd user_cell] in *. split; cbn [fst snd].
    + exists (c :: free), queue. split; [by apply mq_free_ok|done].
    + eapply users_mono; [exact Hu|done|]. intros v Hv. cbn. apply upd_ne. intros E. by apply (Hne v Hv).
Qed.

(** C18 Any number of rt_mq_send, rt_mq_urgent and rt_mq_recv may be interleaved at
    their critical sections: the messages taken are those of one atomic queue of
    buffers run in the order of the link and unlink steps, every cell of the pool is
    free, queued or held by exactly one of them, and a receiver's message stays
    intact in its cell until it has copied it. *)
Theorem mq_interleaving b ls b' us :
  0 <= mq_max_msgs b < 65536 -> mq_runs (mq_init_lists b, []) ls (b', us) ->
  exists bs free queue, spec_runs ls bs /\ mq_ok b' free queue (user_cell <$> us) /\
    Forall2 holds (mq_data b' <$> queue) bs /\ forall c m, URecv c m ∈ us -> mq_data b' c = m.
Proof.
  intros Hm Hr. assert (exists bs, spec_runs ls bs /\ sys_inv (b', us) bs) as (bs & Hs & [(free & queue & Hok & Hb) Hu]).
  { remember (b', us) as s eqn:Es. clear Es. induction Hr as [|ls s l s' Hr IH Hstep].
    - exists []. split; [constructor|by apply sys_init].
    - destruct IH as (bs & Hs & Hi). destruct (mq_step_sim _ _ _ _ Hstep Hi) as (bs' & Hs' & Hi').
      exists bs'. split; [by econstructor|done]. }
  exists bs, free, queue. split_and!; try done. intros c m Hin. rewrite Forall_forall in Hu. exact (Hu _ Hin).
Qed.

(** The reset of rt_mq_control terminates and returns every queued message to the
    free list, whatever cells are held by others. *)
Theorem mq_reset_frees_all b free queue held :
  mq_ok b free queue held -> exists b', mq_release_all (S (Z.to_nat (mq_max_msgs b))) b = Some b' /\
    mq_ok (set_mq_entry 0 b') (rev queue ++ free) [] held.
Proof.
  intros H. pose proof (mq_ok_entry _ _ _ _ H) as Hl. pose proof (mqo_max _ _ _ _ H). apply mq_release_ok; [|lia].
  destruct H as [H1 H2 H3 H4 H5 H6]. by split.
Qed.
End messagequeue.
