(* ===== verification/Mempool.v ===== *)
(** Memory pools (src/mempool.c): fixed-size blocks on a free list threaded through
    their header words, with waiting threads. *)
From S2P Require Import Prelude RtList Kservice Kernel Scheduler Object TimerCore Invariant Thread Timer Ipc.

Section mempool.
Context {cfg : Config} {kh : KHeap} {sz : ObjectSizes} {st : StaticThreads}.

Definition mp (p : Z) : M kstate rt_mempool := gets (fun k => k_mps k p).
Definition mod_mp (p : Z) (f : rt_mempool -> rt_mempool) : M kstate unit :=
  modify (fun k => set_k_mps (<[p := f (k_mps k p)]> (k_mps k)) k).
(** Reading and writing a pointer; the null pointer is not accessible. *)
Definition load (a : Z) : M kstate Z :=
  if a =? 0 then diverge else gets (fun k => k_mem k a).
Definition store (a v : Z) : M kstate unit :=
  if a =? 0 then diverge else modify (fun k => set_k_mem (<[a := v]> (k_mem k)) k).

(** sizeof(rt_uint8_t * ). *)
Definition ptr_size : Z := 4.

(** The loop that links every block to the next one. *)
Fixpoint mp_link_blocks (n : nat) (block_ptr offset stride : Z) : M kstate unit :=
  match n with
  | O => mret tt
  | S n =>
    store (block_ptr + offset * stride) (block_ptr + (offset + 1) * stride) ;;
    mp_link_blocks n block_ptr (offset + 1) stride
  end.
Definition mp_init_blocks (p block_ptr : Z) : M kstate unit :=
  b ← mp p;
  let stride := mp_block_size b + ptr_size in
  mp_link_blocks (Z.to_nat (mp_block_total_count b)) block_ptr 0 stride ;;
  store (block_ptr + (mp_block_total_count b - 1) * stride) 0 ;;
  mod_mp p (set_mp_block_list block_ptr).

Definition rt_mp_init (p : Z) (name : list Z) (start size block_size : Z) : M kstate Z :=
  lift (rt_object_init (OMemPool p) RT_Object_Class_MemPool name) ;;
  mod_mp p (set_mp_start_address (Some start)) ;;
  mod_mp p (set_mp_size (RT_ALIGN_DOWN size RT_ALIGN_SIZE)) ;;
  mod_mp p (set_mp_block_size (RT_ALIGN block_size RT_ALIGN_SIZE)) ;;
  mod_mp p (fun b => set_mp_block_total_count (mp_size b / uint32 (mp_block_size b + ptr_size)) b) ;;
  mod_mp p (fun b => set_mp_block_free_count (mp_block_total_count b) b) ;;
  lift (mod_links (fun l => rt_list_init l (LSuspend (OMemPool p)))) ;;
  mod_mp p (set_mp_suspend_thread_count 0) ;;
  mp_init_blocks p start ;;
  mret RT_EOK.

(** Waking every waiting thread, in rt_mp_detach and rt_mp_delete. *)
Fixpoint mp_resume_all (fuel : nat) (p : Z) : M kstate unit :=
  match fuel with
  | O => diverge
  | S fuel =>
    empty ← gets (fun k => rt_list_isempty (k_links (k_core k)) (LSuspend (OMemPool p)));
    if (empty : bool) then mret tt
    else
      n ← gets (fun k => l_next (k_links (k_core k)) (LSuspend (OMemPool p)));
      t ← lift (rt_thread_entry n);
      lift (mod_thread t (set_th_error (- RT_ERROR))) ;;
      _ ← lift (rt_thread_resume t);
      mod_mp p (fun b => set_mp_suspend_thread_count (uint32 (mp_suspend_thread_count b - 1)) b) ;;
      mp_resume_all fuel p
  end.

Definition rt_mp_detach (p : Z) : M kstate Z :=
  mp_resume_all loop_fuel p ;;
  lift (rt_object_detach (OMemPool p)) ;;
  mret RT_EOK.

Definition rt_mp_create (name : list Z) (block_count block_size : Z) : M kstate (option Z) :=
  lift RT_DEBUG_NOT_IN_INTERRUPT ;;
  a ← lift (rt_object_allocate RT_Object_Class_MemPool name);
  match a with
  | None => mret None
  | Some p =>
    mod_mp p (set_mp_block_size (RT_ALIGN block_size RT_ALIGN_SIZE)) ;;
    mod_mp p (fun b => set_mp_size (uint32 ((mp_block_size b + ptr_size) * block_count)) b) ;;
    b ← mp p;
    start ← lift (RT_KERNEL_MALLOC (uint32 ((mp_block_size b + ptr_size) * block_count)));
    mod_mp p (set_mp_start_address start) ;;
    match start with
    | None => lift (rt_object_delete (OMemPool p)) ;; mret None
    | Some start =>
      mod_mp p (set_mp_block_total_count block_count) ;;
      mod_mp p (fun b => set_mp_block_free_count (mp_block_total_count b) b) ;;
      lift (mod_links (fun l => rt_list_init l (LSuspend (OMemPool p)))) ;;
      mod_mp p (set_mp_suspend_thread_count 0) ;;
      mp_init_blocks p start ;;
      mret (Some p)
    end
  end.

Definition rt_mp_delete (p : Z) : M kstate Z :=
  lift RT_DEBUG_NOT_IN_INTERRUPT ;;
  mp_resume_all loop_fuel p ;;
  b ← mp p;
  match mp_start_address b with Some a => lift (RT_KERNEL_FREE a) | None => mret tt end ;;
  lift (rt_object_delete (OMemPool p)) ;;
  mret RT_EOK.

(** Taking the first free block: the result is the address behind its header. *)
Definition mp_take_block (p : Z) : M kstate Z :=
  mod_mp p (fun b => set_mp_block_free_count (uint32 (mp_block_free_count b - 1)) b) ;;
  b ← mp p;
  let block_ptr := mp_block_list b in
  next ← load block_ptr;
  mod_mp p (set_mp_block_list next) ;;
  store block_ptr p ;;
  mret (block_ptr + ptr_size).

Definition rt_mp_alloc (p time : Z) : M kstate (outcome Z (option Z)) :=
  b ← mp p;
  if negb (mp_block_free_count b =? 0) then
    a ← mp_take_block p;
    mret (Returned (Some a))
  else if time =? 0 then mret (Returned None)
  else
    lift RT_DEBUG_NOT_IN_INTERRUPT ;;
    t ← lift current_thread;
    _ ← lift (rt_thread_suspend t);
    lift (mod_links (fun l => rt_list_insert_after l (LSuspend (OMemPool p)) (LTlist t))) ;;
    mod_mp p (fun b => set_mp_suspend_thread_count (uint32 (mp_suspend_thread_count b + 1)) b) ;;
    lift (start_thread_timer t time) ;;
    lift rt_schedule ;;
    mret (Waiting t).
Definition rt_mp_alloc_resumed (p t : Z) : M kstate (option Z) :=
  th ← lift (thread t);
  if negb (th_error th =? RT_EOK) then mret None
  else
    a ← mp_take_block p;
    mret (Some a).

(** Putting a block back, before a waiting thread is looked for. *)
Definition mp_put_block (p block_ptr : Z) : M kstate rt_mempool :=
  mod_mp p (fun b => set_mp_block_free_count (uint32 (mp_block_free_count b + 1)) b) ;;
  b ← mp p;
  store block_ptr (mp_block_list b) ;;
  mod_mp p (set_mp_block_list block_ptr) ;;
  mret b.
Definition rt_mp_free (block : Z) : M kstate unit :=
  let block_ptr := block - ptr_size in
  p ← load block_ptr;
  b ← mp_put_block p block_ptr;
  if mp_suspend_thread_count b >? 0 then
    n ← gets (fun k => l_next (k_links (k_core k)) (LSuspend (OMemPool p)));
    t ← lift (rt_thread_entry n);
    lift (mod_thread t (set_th_error RT_EOK)) ;;
    _ ← lift (rt_thread_resume t);
    mod_mp p (fun b => set_mp_suspend_thread_count (uint32 (mp_suspend_thread_count b - 1)) b) ;;
    lift rt_schedule
  else mret tt.

(** ** The free list *)
Fixpoint blocks (mem : Z -> Z) (a : Z) (bs : list Z) : Prop :=
  match bs with
  | [] => a = 0
  | b :: bs => a = b /\ b <> 0 /\ blocks mem (mem b) bs
  end.
Lemma blocks_upd mem a bs b v : b ∉ bs -> blocks mem a bs -> blocks (<[b := v]> mem) a bs.
Proof.
  revert a. induction bs as [|c bs IH]; intros a Hb; [done|]. apply not_elem_of_cons in Hb as [Hne Hb]. cbn.
  intros (-> & Hc & H). split; [done|]. split; [done|]. rewrite upd_ne by done. by apply IH.
Qed.
Implicit Types (L : lnode -> option (list lnode)).
(** The pool [p]: its free blocks in order, the blocks given out, whose headers point
    to the pool, and the waiting threads, latest first. *)
Record mp_rep (k : kstate) L (p : Z) (free used ws : list Z) : Prop := {
  mpr_inv : kinv (k_core k) L;
  mpr_free : blocks (k_mem k) (mp_block_list (k_mps k p)) free;
  mpr_used : forall b, b ∈ used -> b <> 0 /\ k_mem k b = p;
  mpr_nodup : NoDup (free ++ used);
  mpr_count : mp_block_free_count (k_mps k p) = Z.of_nat (length free);
  mpr_total : Z.of_nat (length free + length used) = mp_block_total_count (k_mps k p) /\ mp_block_total_count (k_mps k p) < 2 ^ 32;
  mpr_list : L (LSuspend (OMemPool p)) = Some (LTlist <$> ws);
  mpr_waiting : mp_suspend_thread_count (k_mps k p) = Z.of_nat (length ws) /\ Z.of_nat (length ws) < 2 ^ 32
}.

Lemma wp_load a k Q : a <> 0 -> Q (k_mem k a) k -> wp (load a) Q k.
Proof. intros Ha HQ. unfold load. rewrite (proj2 (Z.eqb_neq _ _) Ha). done. Qed.
Lemma wp_store a v k Q : a <> 0 -> Q tt (set_k_mem (<[a := v]> (k_mem k)) k) -> wp (store a v) Q k.
Proof. intros Ha HQ. unfold store. rewrite (proj2 (Z.eqb_neq _ _) Ha). done. Qed.
Lemma wp_mod_mp p f k Q : Q tt (set_k_mps (<[p := f (k_mps k p)]> (k_mps k)) k) -> wp (mod_mp p f) Q k.
Proof. done. Qed.

Lemma wp_mp_take k L p b free used ws Q :
  mp_rep k L p (b :: free) used ws ->
  (forall k', mp_rep k' L p free (b :: used) ws -> k_core k' = k_core k -> Q (b + ptr_size) k') ->
  wp (mp_take_block p) Q k.
Proof.
  intros [H1 H2 H3 H4 H5 H6 H7 H8] HQ. cbn in H2, H5, H6. destruct H2 as (Hb & Hnz & H2).
  apply NoDup_cons in H4 as [Hnin H4]. apply not_elem_of_app in Hnin as [Hnf Hnu].
  unfold mp_take_block, mp. wp1. apply wp_mod_mp. do 2 wp1. wp1. ksimpl. rewrite upd_eq. cbn [mp_block_list set_mp_block_free_count].
  rewrite Hb. apply wp_load; [done|]. wp1. apply wp_mod_mp. wp1. apply wp_store; [done|]. wp1. apply HQ; [|done].
  split; ksimpl; rewrite ?upd_eq; cbn [mp_block_list mp_block_free_count mp_block_total_count mp_suspend_thread_count set_mp_block_list set_mp_block_free_count];
    try done.
  - by apply blocks_upd.
  - intros c [->|Hc]%elem_of_cons; [by rewrite upd_eq|]. destruct (H3 c Hc). split; [done|]. rewrite upd_ne; [done|]. by intros ->.
  - rewrite <- Permutation_middle. apply NoDup_cons. split; [|done]. by apply not_elem_of_app.
  - rewrite H5, uint_small by lia. lia.
  - cbn. lia.
Qed.

Lemma wp_mp_put k L p b free used ws Q :
  mp_rep k L p free used ws -> b ∈ used ->
  (forall k' c, mp_rep k' L p (b :: free) (without b used) ws -> k_core k' = k_core k ->
     mp_suspend_thread_count c = Z.of_nat (length ws) -> Q c k') ->
  wp (mp_put_block p b) Q k.
Proof.
  intros [H1 H2 H3 H4 H5 H6 H7 H8] Hb HQ. destruct (H3 b Hb) as [Hnz Hown].
  assert (b ∉ free) as Hnf by (apply NoDup_app in H4 as (_ & H4 & _); intros Hin; by apply (H4 b)).
  unfold mp_put_block, mp. wp1. apply wp_mod_mp. do 2 wp1. wp1. apply wp_store; [done|]. wp1. apply wp_mod_mp. wp1.
  ksimpl. rewrite upd_eq. cbn [mp_block_list set_mp_block_free_count]. apply HQ; [|done|apply H8].
  apply NoDup_app in H4 as (Hn1 & Hn2 & Hn3).
  apply list_elem_of_split in Hb as (u1 & u2 & ->).
  rewrite without_mid by done. rewrite length_app in H6; cbn in H6.
  split; ksimpl; rewrite ?upd_eq; cbn [mp_block_list mp_block_free_count mp_block_total_count mp_suspend_thread_count set_mp_block_list set_mp_block_free_count];
    try done.
  - cbn. split; [done|]. split; [done|]. rewrite upd_eq. by apply blocks_upd.
  - intros c Hc. destruct (H3 c) as [? ?]; [apply elem_of_app in Hc as [?|?]; apply elem_of_app; rewrite elem_of_cons; auto|].
    split; [done|]. rewrite upd_ne; [done|]. intros ->. by apply (NoDup_mid _ _ _ Hn3).
  - cbn. apply NoDup_cons. split.
    + rewrite !elem_of_app. intros [Hin|Hin]; [done|]. apply (NoDup_mid _ _ _ Hn3). by apply elem_of_app.
    + apply NoDup_app. split; [done|]. split.
      * intros x Hx Hin. apply (Hn2 x Hx). apply elem_of_app in Hin as [?|?]; apply elem_of_app; rewrite elem_of_cons; auto.
      * apply NoDup_app in Hn3 as (A1 & A2 & A3). apply NoDup_cons in A3 as [_ A3]. apply NoDup_app. split_and!; try done.
        intros x Hx Hin. apply (A2 x Hx). by right.
  - rewrite H5, uint_small by lia. cbn. lia.
  - rewrite length_app. cbn. lia.
Qed.

(** ** The operations *)
Inductive mp_alloc_step (t time : Z) : list Z -> list Z -> list Z -> outcome Z (option Z) -> list Z -> list Z -> list Z -> Prop :=
| alloc_now b free used ws :
    mp_alloc_step t time (b :: free) used ws (Returned (Some (b + ptr_size))) free (b :: used) ws
| alloc_none used ws : time = 0 -> mp_alloc_step t time [] used ws (Returned None) [] used ws
| alloc_wait used ws : time <> 0 -> mp_alloc_step t time [] used ws (Waiting t) [] used (t :: ws).

(** The part of rt_mp_alloc that waits. *)
Lemma wp_mp_wait k L p used ws t time (Q : outcome Z (option Z) -> kstate -> Prop) :
  mp_rep k L p [] used ws -> caller (k_core k) t -> lists_short L -> time < RT_TICK_MAX / 2 -> Z.of_nat (S (length ws)) < 2 ^ 32 ->
  (forall k' L', mp_rep k' L' p [] used (t :: ws) -> thread_stat (k_core k') t = RT_THREAD_SUSPEND ->
     k_current_thread (k_core k') <> Some t -> Q (Waiting t) k') ->
  wp (_ ← lift (rt_thread_suspend t);
      lift (mod_links (fun l => rt_list_insert_after l (LSuspend (OMemPool p)) (LTlist t))) ;;
      mod_mp p (fun b => set_mp_suspend_thread_count (uint32 (mp_suspend_thread_count b + 1)) b) ;;
      lift (start_thread_timer t time) ;;
      lift rt_schedule ;;
      mret (Waiting t)) Q k.
Proof.
  intros [H1 H2 H3 H4 H5 H6 H7 H8] Hca Hsh Htm Hlen HQ. set (h := LSuspend (OMemPool p)) in *. do 2 wp1.
  eapply wp_thread_suspend; [exact H1|by rewrite (ca_ready _ _ Hca)|]. intros _ lk g tb c1 Hk1. do 3 wp1.
  wp1. apply wp_mod_mp. set (L1 := unlink L (LTlist t)) in *.
  assert (live (thread_stat (k_core k)) t) as Hlt by (left; apply Hca).
  assert (free_node L1 (LTlist t)) as Hf by (eapply unlink_free; [exact (kinv_rep _ _ H1)|by eapply kinv_on_list]).
  assert (L1 h = Some (LTlist <$> ws)) as HL1.
  { unfold L1. rewrite unlink_ne, H7 by done. cbn. rewrite without_fmap by apply _. rewrite without_notin; [done|].
    intros Hin. pose proof (lo_wait _ _ _ (ki_lists _ _ H1) h _ t I H7 (proj2 (elem_of_LTlist _ _) Hin)) as E.
    by rewrite (ca_ready _ _ Hca) in E. }
  assert (thread_stat c1 t = RT_THREAD_SUSPEND) as Hs1 by (unfold c1; by rewrite thread_stat_with_sched, upd_eq).
  set (lk2 := rt_list_insert_after _ h (LTlist t)).
  assert (kinv (set_k_links lk2 c1) (ins L1 (LTlist t) h (LTlist <$> (t :: ws)))) as Hk2.
  { apply (kinv_wait c1 L1 h t ws); try done; [by intros; rewrite elem_of_cons|].
    apply rep_insert_front; [exact (kinv_rep _ _ Hk1)|done|done|done]. }
  pose proof (wp_block_rest (k_core k) L h t time ws (t :: ws) lk2 g tb) as Hrest. cbn zeta in Hrest.
  wp1. wp1. ksimpl.
  assert (wp (start_thread_timer t time ;; rt_schedule)
    (fun _ c' => wp (mret (Waiting t)) Q (set_k_core c' (set_k_mps
      (<[p := set_mp_suspend_thread_count (uint32 (mp_suspend_thread_count (k_mps k p) + 1)) (k_mps k p)]> (k_mps k)) k)))
    (set_k_links lk2 c1)) as Hend.
  { apply Hrest; [exact H1|exact Hk2|exact Hca|done|exact H7|exact Hsh|exact Htm|]. intros c' L' Hb _. wp1.
    apply (HQ _ L').
    - destruct H8 as [H8 H8']. split; ksimpl; rewrite ?upd_eq; try done; [apply Hb|apply Hb|]. cbn. rewrite H8, uint_small by lia. split; [lia|done].
    - apply Hb.
    - destruct (bl_current _ _ _ _ _ _ _ Hb) as (u & Hu & Hr & _). ksimpl. rewrite Hu.
      intros [= ->]. by rewrite (bl_stat _ _ _ _ _ _ _ Hb) in Hr. }
  apply wp_run in Hend as (u & c' & E & Hend). unfold mbind, M_bind in E.
  destruct (start_thread_timer t time (set_k_links lk2 c1)) as [[u1 c2]|] eqn:E1; [|done].
  apply wp_run. exists u1, c2. split; [exact E1|]. wp1. wp1. apply wp_run. exists u, c'. split; [exact E|exact Hend].
Qed.

(** C39 rt_mp_alloc refines the pool: it hands out the first free block and marks it
    with its pool; an exhausted pool gives null at once, or suspends the caller in
    front of the other waiting threads. *)
Theorem rt_mp_alloc_refines k L p free used ws t time :
  mp_rep k L p free used ws ->
  (time <> 0 -> free = [] -> caller (k_core k) t /\ lists_short L /\ time < RT_TICK_MAX / 2 /\ Z.of_nat (S (length ws)) < 2 ^ 32) ->
  exists r k' L' free' used' ws', rt_mp_alloc p time k = Some (r, k') /\
    mp_alloc_step t time free used ws r free' used' ws' /\ mp_rep k' L' p free' used' ws' /\
    match r with
    | Waiting _ => thread_stat (k_core k') t = RT_THREAD_SUSPEND /\ k_current_thread (k_core k') <> Some t
    | Returned _ => k_core k' = k_core k
    end.
Proof.
  intros H Hcall.
  cut (wp (rt_mp_alloc p time) (fun r k' => exists L' free' used' ws',
    mp_alloc_step t time free used ws r free' used' ws' /\ mp_rep k' L' p free' used' ws' /\
    match r with
    | Waiting _ => thread_stat (k_core k') t = RT_THREAD_SUSPEND /\ k_current_thread (k_core k') <> Some t
    | Returned _ => k_core k' = k_core k
    end) k).
  { intros (r & k' & E & L' & free' & used' & ws' & H')%wp_run. by exists r, k', L', free', used', ws'. }
  unfold rt_mp_alloc, mp. do 2 wp1. rewrite (mpr_count _ _ _ _ _ _ H). destruct free as [|b free].
  - change (Z.of_nat (length []) =? 0) with true. cbn [negb]. destruct (Z.eqb_spec time 0) as [->|Ht].
    { wp1. exists L, [], used, ws. split; [by apply alloc_none|done]. }
    destruct (Hcall Ht eq_refl) as (Hca & Hsh & Htm & Hlen).
    wp1. wp1. unfold RT_DEBUG_NOT_IN_INTERRUPT. do 2 wp1. wp1; [apply Z.eqb_eq; apply Hca|]. rewrite set_k_core_id.
    do 2 wp1. apply (current_thread_run _ t); [apply Hca|]. rewrite set_k_core_id.
    eapply (wp_mp_wait k L p); [done..|]. intros k' L' Hk' Hs Hcur.
    exists L', [], used, (t :: ws). split; [by apply alloc_wait|done].
  - cbn [length]. rewrite (proj2 (Z.eqb_neq _ _)) by lia. cbn [negb]. wp1.
    eapply wp_mp_take; [exact H|]. intros k' Hk' Ec. wp1. exists L, free, (b :: used), ws. split; [constructor|done].
Qed.

(** Waking the first waiting thread, with its error code cleared. *)
Lemma wp_mp_wake k L p free used w ws Q :
  mp_rep k L p free used (w :: ws) ->
  (forall k' L', mp_rep k' L' p free used ws ->
     k_threads (k_core k') w = set_th_stat RT_THREAD_READY (set_th_error RT_EOK (k_threads (k_core k) w)) ->
     (forall u, u <> w -> k_threads (k_core k') u = k_threads (k_core k) u) -> Q tt k') ->
  wp (n ← gets (fun k => l_next (k_links (k_core k)) (LSuspend (OMemPool p)));
      t ← lift (rt_thread_entry n);
      lift (mod_thread t (set_th_error RT_EOK)) ;;
      _ ← lift (rt_thread_resume t);
      mod_mp p (fun b => set_mp_suspend_thread_count (uint32 (mp_suspend_thread_count b - 1)) b) ;;
      lift rt_schedule) Q k.
Proof.
  intros [H1 H2 H3 H4 H5 H6 H7 [H8 H8']] HQ. cbn [length] in H8, H8'. set (h := LSuspend (OMemPool p)) in *. do 2 wp1.
  rewrite (rep_next_head _ _ _ _ (kinv_rep _ _ H1) H7). cbn [fmap list_fmap hd rt_thread_entry]. wp1. wp1. wp1. rewrite set_k_core_id.
  wp1. apply wp_set_error. wp1. wp1. ksimpl. set (c0 := with_error RT_EOK w (k_core k)).
  assert (kinv c0 L) as H0 by (by apply kinv_error).
  assert (thread_stat c0 w = RT_THREAD_SUSPEND) as Hw.
  { eapply (lo_wait _ _ _ (ki_lists _ _ H0)); [|exact H7|]; [done|]. by left. }
  assert (NoDup (w :: ws)) as Hnd by (eapply NoDup_fmap_1, (rep_NoDup _ _ _ _ (kinv_rep _ _ H1) H7)).
  eapply (wp_thread_resume c0 L w); [exact H0|by rewrite Hw|]. intros _ ts lk g tb _ c2 Hk2.
  wp1. apply wp_mod_mp. wp1. ksimpl.
  assert (forall u, k_threads c2 u = if decide (u = w) then set_th_stat RT_THREAD_READY (set_th_error RT_EOK (k_threads (k_core k) w)) else k_threads (k_core k) u) as Eth.
  { intros u. unfold c2; cbn. unfold with_stat, c0, with_error; ksimpl. rewrite !upd_eq, !upd_case. repeat case_decide; by subst. }
  eapply wp_schedule_kinv; [exact Hk2| |].
  { intros _. exists w. unfold thread_stat. by rewrite Eth, decide_True. }
  intros c' (cur & prio & sw & ->) Hk' _ _. apply (HQ _ (resume_lists c0 L w ts)).
  - split; ksimpl; rewrite ?upd_eq; try done.
    + rewrite (resume_lists_wait c0 L w ts h (w :: ws) I H7). by rewrite without_hd.
    + cbn. rewrite H8, uint_small by lia. split; lia.
  - ksimpl. by rewrite Eth, decide_True.
  - intros u Hu. ksimpl. by rewrite Eth, decide_False.
Qed.

(** rt_mp_free refines the pool: the block goes back to the front of the free list
    of the pool its header names, and the latest waiting thread becomes READY with its
    error code cleared. *)
Theorem rt_mp_free_refines k L p free used ws b :
  mp_rep k L p free used ws -> b ∈ used ->
  exists k' L', rt_mp_free (b + ptr_size) k = Some (tt, k') /\ mp_rep k' L' p (b :: free) (without b used) (tail ws) /\
    (forall w, head ws = Some w -> k_threads (k_core k') w = set_th_stat RT_THREAD_READY (set_th_error RT_EOK (k_threads (k_core k) w))) /\
    (forall u, head ws <> Some u -> k_threads (k_core k') u = k_threads (k_core k) u).
Proof.
  intros H Hb. destruct (mpr_used _ _ _ _ _ _ H b Hb) as [Hnz Hown].
  cut (wp (rt_mp_free (b + ptr_size)) (fun _ k' => exists L', mp_rep k' L' p (b :: free) (without b used) (tail ws) /\
    (forall w, head ws = Some w -> k_threads (k_core k') w = set_th_stat RT_THREAD_READY (set_th_error RT_EOK (k_threads (k_core k) w))) /\
    (forall u, head ws <> Some u -> k_threads (k_core k') u = k_threads (k_core k) u)) k).
  { intros ([] & k' & E & L' & H')%wp_run. by exists k', L'. }
  unfold rt_mp_free. replace (b + ptr_size - ptr_size) with b by lia. wp1. apply wp_load; [done|]. rewrite Hown. wp1.
  eapply wp_mp_put; [exact H|done|]. intros k1 c H1 Ec ->. rewrite <- Ec. destruct ws as [|w ws].
  - change (Z.of_nat (length []) >? 0) with false. cbn beta iota. wp1. exists L. split; [exact H1|]. done.
  - cbn [length]. assert (Z.of_nat (S (length ws)) >? 0 = true) as -> by (apply Z.gtb_lt; lia).
    eapply wp_mp_wake; [exact H1|]. intros k' L' H' Hw Hu. exists L'. split; [exact H'|].
    split; [by intros ? [= <-]|]. intros u Hn. apply Hu. intros ->. by apply Hn.
Qed.

(** A counted waiter that is no longer in the list. *)
Lemma free_lost_waiter k L p b :
  kinv (k_core k) L -> b <> 0 -> k_mem k b = p -> L (LSuspend (OMemPool p)) = Some [] ->
  0 < mp_suspend_thread_count (k_mps k p) -> rt_mp_free (b + ptr_size) k = None.
Proof.
  intros Hk Hnz Hown HL Hc. unfold rt_mp_free. replace (b + ptr_size - ptr_size) with b by lia.
  unfold mp_put_block, load, store. rewrite (proj2 (Z.eqb_neq _ _) Hnz).
  unfold mbind, M_bind, gets, mod_mp, modify, mp, mret, M_ret. cbn -[Z.gtb uint]. rewrite Hown. rewrite !upd_eq. cbn -[Z.gtb uint].
  assert (mp_suspend_thread_count (k_mps k p) >? 0 = true) as -> by (apply Z.gtb_lt; lia).
  unfold lift; ksimpl. rewrite (rep_next_head _ _ _ _ (kinv_rep _ _ Hk) HL). cbn. done.
Qed.

(** ** Building the free list *)
Definition block_addr (base stride i : Z) : Z := base + i * stride.
Definition block_list (base stride n : Z) : list Z := block_addr base stride <$> seqZ 0 n.
Lemma wp_link_blocks base stride n : 0 < base -> 0 < stride -> forall off k Q, 0 <= off ->
  (forall k', (forall i, off <= i < off + Z.of_nat n -> k_mem k' (block_addr base stride i) = block_addr base stride (i + 1)) ->
     (forall a, (forall i, off <= i < off + Z.of_nat n -> a <> block_addr base stride i) -> k_mem k' a = k_mem k a) ->
     k_mps k' = k_mps k -> k_core k' = k_core k -> Q tt k') ->
  wp (mp_link_blocks n base off stride) Q k.
Proof.
  intros Hb Hs. induction n as [|n IH]; intros off k Q Hoff HQ; cbn [mp_link_blocks].
  - wp1. apply HQ; [lia|done|done|done].
  - wp1. apply wp_store; [nia|]. eapply IH; [lia|]. intros k' H1 H2 H3 H4. ksimpl. apply HQ; [| |exact H3|exact H4].
    + intros i Hi. destruct (decide (i = off)) as [->|Hne]; [|apply H1; lia].
      rewrite H2 by (intros j Hj; unfold block_addr; nia). ksimpl. unfold block_addr. by rewrite upd_eq.
    + intros a Ha. rewrite H2 by (intros i Hi; apply Ha; lia). ksimpl. apply upd_ne. intros <-. apply (Ha off); [lia|done].
Qed.

Lemma blocks_seq mem base stride n : 0 < base -> 0 < stride -> forall off, 0 <= off ->
  (forall i, off <= i < off + Z.of_nat n - 1 -> mem (block_addr base stride i) = block_addr base stride (i + 1)) ->
  (0 < n)%nat -> mem (block_addr base stride (off + Z.of_nat n - 1)) = 0 ->
  blocks mem (block_addr base stride off) (block_addr base stride <$> seqZ off (Z.of_nat n)).
Proof.
  intros Hb Hs. induction n as [|n IH]; intros off Hoff H1 Hn H2; [lia|].
  rewrite seqZ_cons by lia. rewrite fmap_cons. cbn [blocks]. split; [done|]. split; [unfold block_addr; nia|].
  replace (Z.pred (Z.of_nat (S n))) with (Z.of_nat n) by lia. destruct (decide (n = 0%nat)) as [->|Hn0].
  - cbn. by replace (off + Z.of_nat 1 - 1) with off in H2 by lia.
  - rewrite H1 by lia. change (Z.succ off) with (off + 1). apply IH; [lia| |lia|].
    + intros i Hi. apply H1. lia.
    + by replace (off + 1 + Z.of_nat n - 1) with (off + Z.of_nat (S n) - 1) by lia.
Qed.
Lemma block_list_NoDup base stride n : 0 < stride -> NoDup (block_list base stride n).
Proof. intros Hs. apply NoDup_fmap_2; [|apply NoDup_seqZ]. intros i j. unfold block_addr. nia. Qed.

(** The initialisation loop of a pool with at least one block builds the free list
    of all its blocks in address order, none overlapping another, every one within
    the pool, and writes only their headers. *)
Theorem mp_init_blocks_chain k p base :
  let n := mp_block_total_count (k_mps k p) in
  let stride := mp_block_size (k_mps k p) + ptr_size in
  0 < base -> 0 < stride -> 0 < n ->
  exists k', mp_init_blocks p base k = Some (tt, k') /\ k_core k' = k_core k /\
    blocks (k_mem k') (mp_block_list (k_mps k' p)) (block_list base stride n) /\
    NoDup (block_list base stride n) /\ Z.of_nat (length (block_list base stride n)) = n /\
    (forall b, b ∈ block_list base stride n -> base <= b /\ b + stride <= base + n * stride) /\
    (forall a, a ∉ block_list base stride n -> k_mem k' a = k_mem k a).
Proof.
  intros n stride Hb Hs Hn. set (bs := block_list base stride n).
  assert (forall b, b ∈ bs <-> exists i, 0 <= i < n /\ b = block_addr base stride i) as Hbs.
  { intros b. unfold bs, block_list. rewrite list_elem_of_fmap. setoid_rewrite elem_of_seqZ. split.
    - intros (i & -> & Hi). exists i. split; [lia|done].
    - intros (i & Hi & ->). exists i. split; [done|lia]. }
  cut (wp (mp_init_blocks p base) (fun _ k' => k_core k' = k_core k /\ blocks (k_mem k') (mp_block_list (k_mps k' p)) bs /\
    (forall a, a ∉ bs -> k_mem k' a = k_mem k a)) k).
  { intros ([] & k' & E & Hc & H1 & H2)%wp_run. exists k'. split_and!; try done.
    - by apply block_list_NoDup.
    - unfold bs, block_list. rewrite length_fmap, length_seqZ. lia.
    - intros b (i & Hi & ->)%Hbs. unfold block_addr. nia. }
  unfold mp_init_blocks, mp. do 2 wp1. fold n stride. wp1. apply (wp_link_blocks base stride); [done|done|lia|].
  intros k1 H1 H2 H3 H4. rewrite Z2Nat.id in * by lia. wp1. apply wp_store; [nia|]. apply wp_mod_mp. ksimpl.
  rewrite upd_eq. cbn [mp_block_list set_mp_block_list]. split; [exact H4|]. split.
  - unfold bs, block_list.
    pose proof (blocks_seq (<[base + (n - 1) * stride := 0]> (k_mem k1)) base stride (Z.to_nat n) Hb Hs 0) as Hbl.
    rewrite Z2Nat.id in Hbl by lia. replace (block_addr base stride 0) with base in Hbl by (unfold block_addr; lia).
    apply Hbl; clear Hbl; [lia| |lia|].
    + intros i Hi. rewrite upd_ne by (unfold block_addr; nia). apply H1. lia.
    + unfold block_addr. rewrite Z.add_0_l. by rewrite upd_eq.
  - intros a Ha. rewrite upd_ne.
    + apply H2. intros i Hi ->. apply Ha, Hbs. exists i. split; [lia|done].
    + intros <-. apply Ha, Hbs. exists (n - 1). split; [lia|done].
Qed.

(** The wait of rt_mp_alloc is not undone when it times out: the thread leaves the
    waiting list and its call gives null, but it stays counted, and the next
    rt_mp_free takes the empty list for a thread and never returns properly. *)
Theorem rt_mp_timeout_breaks_free k L p used t b :
  mp_rep k L p [] used [t] -> rows_off L (TThread t) -> b ∈ used ->
  exists k1, lift (rt_thread_timeout t) k = Some (tt, k1) /\ rt_mp_alloc_resumed p t k1 = Some (None, k1) /\
    mp_suspend_thread_count (k_mps k1 p) = 1 /\ rt_mp_free (b + ptr_size) k1 = None.
Proof.
  intros H Hoff Hb. destruct (mpr_used _ _ _ _ _ _ H b Hb) as [Hnz Hown]. destruct H as [H1 H2 H3 H4 H5 H6 H7 H8].
  assert (thread_stat (k_core k) t = RT_THREAD_SUSPEND) as Ht.
  { eapply (lo_wait _ _ _ (ki_lists _ _ H1)); [|exact H7|]; [done|by left]. }
  assert (wp (rt_thread_timeout t) (fun _ c' => exists L', kinv c' L' /\ L' (LSuspend (OMemPool p)) = Some [] /\
    th_error (k_threads c' t) = - RT_ETIMEOUT) (k_core k)) as Hw.
  { eapply wp_thread_timeout; [exact H1|exact Ht|exact Hoff|]. intros ts lk g tb c' pr HL c1 L' (cur & prio & sw & ->) Hk _.
    exists L'. split; [exact Hk|]. split.
    - unfold L', ins_ready. rewrite !upd_ne by done. rewrite unlink_ne, H7 by done. cbn. by rewrite decide_False by (intros Hn; by apply Hn).
    - unfold c1; cbn. unfold with_stat; ksimpl. rewrite upd_eq. unfold timed_out, with_error; ksimpl. by rewrite upd_eq. }
  apply wp_run in Hw as ([] & c' & E & L' & Hk & HL & He). exists (set_k_core c' k). split; [unfold lift; by rewrite E|].
  split; [|split; [apply H8|]].
  - unfold rt_mp_alloc_resumed, mbind, M_bind, lift, thread, gets. ksimpl. by rewrite He.
  - eapply free_lost_waiter; [exact Hk|exact Hnz|exact Hown|exact HL|]. ksimpl. destruct H8 as [-> _]. done.
Qed.
End mempool.
