(* ===== verification/RingBuffer.v ===== *)
(** The ring buffer of the device drivers (components/drivers/src/ringbuffer.c and
    the inline functions of components/drivers/include/rtdevice.h), and its
    refinement of a bounded byte queue. *)
From S2P Require Import Prelude Kernel.

(** The buffer's bytes are a function of the index.  The indices are 15-bit and
    the mirrors 1-bit fields. *)
Record rt_ringbuffer : Type := mk_rb {
  rb_buffer : Z -> Z;
  rb_read_mirror : Z;
  rb_read_index : Z;
  rb_write_mirror : Z;
  rb_write_index : Z;
  rb_buffer_size : Z
}.
Definition set_rb_buffer (v : Z -> Z) (s : rt_ringbuffer) : rt_ringbuffer :=
  mk_rb v (rb_read_mirror s) (rb_read_index s) (rb_write_mirror s) (rb_write_index s) (rb_buffer_size s).
Definition set_rb_read (m i : Z) (s : rt_ringbuffer) : rt_ringbuffer :=
  mk_rb (rb_buffer s) (uint 1 m) (uint 15 i) (rb_write_mirror s) (rb_write_index s) (rb_buffer_size s).
Definition set_rb_write (m i : Z) (s : rt_ringbuffer) : rt_ringbuffer :=
  mk_rb (rb_buffer s) (rb_read_mirror s) (rb_read_index s) (uint 1 m) (uint 15 i) (rb_buffer_size s).

Inductive rt_ringbuffer_state := RT_RINGBUFFER_EMPTY | RT_RINGBUFFER_FULL | RT_RINGBUFFER_HALFFULL.

Section ringbuffer.
Context {cfg : Config}.

(** The parameter is an rt_int16_t: a caller's larger size is narrowed before
    [size > 0], an RT_ASSERT, is tested. *)
Definition rt_ringbuffer_init (pool : Z -> Z) (size : Z) : option rt_ringbuffer :=
  let size := int16 size in
  if size >? 0 then Some (mk_rb pool 0 0 0 0 (int16 (RT_ALIGN_DOWN size RT_ALIGN_SIZE))) else None.

Definition rt_ringbuffer_get_size (rb : rt_ringbuffer) : Z := uint16 (rb_buffer_size rb).

Definition rt_ringbuffer_status (rb : rt_ringbuffer) : rt_ringbuffer_state :=
  if rb_read_index rb =? rb_write_index rb then
    if rb_read_mirror rb =? rb_write_mirror rb then RT_RINGBUFFER_EMPTY else RT_RINGBUFFER_FULL
  else RT_RINGBUFFER_HALFFULL.

Definition rt_ringbuffer_data_len (rb : rt_ringbuffer) : Z :=
  match rt_ringbuffer_status rb with
  | RT_RINGBUFFER_EMPTY => 0
  | RT_RINGBUFFER_FULL => uint16 (rb_buffer_size rb)
  | RT_RINGBUFFER_HALFFULL =>
    if rb_write_index rb >? rb_read_index rb
    then uint16 (rb_write_index rb - rb_read_index rb)
    else uint16 (rb_buffer_size rb - (rb_read_index rb - rb_write_index rb))
  end.
Definition rt_ringbuffer_space_len (rb : rt_ringbuffer) : Z :=
  rb_buffer_size rb - rt_ringbuffer_data_len rb.

(** memcpy into the buffer, and out of it. *)
Definition copy_in (off : Z) (src : list Z) (buf : Z -> Z) : Z -> Z := fun i =>
  if (off <=? i) && (i <? off + Z.of_nat (length src)) then nth (Z.to_nat (i - off)) src 0 else buf i.
Definition copy_out (off n : Z) (buf : Z -> Z) : list Z :=
  (fun k => buf (off + Z.of_nat k)) <$> seq 0 (Z.to_nat n).

(** The copy and the new write side shared by put and put_force. *)
Definition rb_store (ptr : list Z) (length : Z) (rb : rt_ringbuffer) : rt_ringbuffer :=
  if rb_buffer_size rb - rb_write_index rb >? length then
    let rb' := set_rb_buffer (copy_in (rb_write_index rb) (take (Z.to_nat length) ptr) (rb_buffer rb)) rb in
    set_rb_write (rb_write_mirror rb) (rb_write_index rb + length) rb'
  else
    let room := rb_buffer_size rb - rb_write_index rb in
    let buf := copy_in (rb_write_index rb) (take (Z.to_nat room) ptr) (rb_buffer rb) in
    let buf := copy_in 0 (take (Z.to_nat (length - room)) (drop (Z.to_nat room) ptr)) buf in
    set_rb_write (Z.lnot (rb_write_mirror rb)) (length - room) (set_rb_buffer buf rb).

Definition rt_ringbuffer_put (ptr : list Z) (length : Z) (rb : rt_ringbuffer) : Z * rt_ringbuffer :=
  let size := uint16 (rt_ringbuffer_space_len rb) in
  if size =? 0 then (0, rb)
  else
    let length := if size <? length then size else length in
    (length, rb_store ptr length rb).

Definition rt_ringbuffer_put_force (ptr : list Z) (length : Z) (rb : rt_ringbuffer) : Z * rt_ringbuffer :=
  let old_state := rt_ringbuffer_status rb in
  let length := if length >? rb_buffer_size rb then uint16 (rb_buffer_size rb) else length in
  let rb' := rb_store ptr length rb in
  if rb_buffer_size rb - rb_write_index rb >? length then
    match old_state with
    | RT_RINGBUFFER_FULL => (length, set_rb_read (rb_read_mirror rb') (rb_write_index rb') rb')
    | _ => (length, rb')
    end
  else
    match old_state with
    | RT_RINGBUFFER_FULL => (length, set_rb_read (Z.lnot (rb_read_mirror rb')) (rb_write_index rb') rb')
    | _ => (length, rb')
    end.

(** The bytes stored through [ptr] are the second component. *)
Definition rt_ringbuffer_get (length : Z) (rb : rt_ringbuffer) : Z * list Z * rt_ringbuffer :=
  let size := rt_ringbuffer_data_len rb in
  if size =? 0 then (0, [], rb)
  else
    let length := if size <? length then size else length in
    let room := rb_buffer_size rb - rb_read_index rb in
    if room >? length then
      (length, copy_out (rb_read_index rb) length (rb_buffer rb),
       set_rb_read (rb_read_mirror rb) (rb_read_index rb + length) rb)
    else
      (length, copy_out (rb_read_index rb) room (rb_buffer rb) ++ copy_out 0 (length - room) (rb_buffer rb),
       set_rb_read (Z.lnot (rb_read_mirror rb)) (length - room) rb).

Definition rt_ringbuffer_putchar (ch : Z) (rb : rt_ringbuffer) : Z * rt_ringbuffer :=
  if rt_ringbuffer_space_len rb =? 0 then (0, rb)
  else
    let rb := set_rb_buffer (<[rb_write_index rb := ch]> (rb_buffer rb)) rb in
    if rb_write_index rb =? rb_buffer_size rb - 1
    then (1, set_rb_write (Z.lnot (rb_write_mirror rb)) 0 rb)
    else (1, set_rb_write (rb_write_mirror rb) (rb_write_index rb + 1) rb).

Definition rt_ringbuffer_putchar_force (ch : Z) (rb : rt_ringbuffer) : Z * rt_ringbuffer :=
  let old_state := rt_ringbuffer_status rb in
  let rb := set_rb_buffer (<[rb_write_index rb := ch]> (rb_buffer rb)) rb in
  if rb_write_index rb =? rb_buffer_size rb - 1 then
    let rb := set_rb_write (Z.lnot (rb_write_mirror rb)) 0 rb in
    match old_state with
    | RT_RINGBUFFER_FULL => (1, set_rb_read (Z.lnot (rb_read_mirror rb)) (rb_write_index rb) rb)
    | _ => (1, rb)
    end
  else
    let rb := set_rb_write (rb_write_mirror rb) (rb_write_index rb + 1) rb in
    match old_state with
    | RT_RINGBUFFER_FULL => (1, set_rb_read (rb_read_mirror rb) (rb_write_index rb) rb)
    | _ => (1, rb)
    end.

Definition rt_ringbuffer_getchar (rb : rt_ringbuffer) : Z * option Z * rt_ringbuffer :=
  if rt_ringbuffer_data_len rb =? 0 then (0, None, rb)
  else
    let ch := rb_buffer rb (rb_read_index rb) in
    if rb_read_index rb =? rb_buffer_size rb - 1
    then (1, Some ch, set_rb_read (Z.lnot (rb_read_mirror rb)) 0 rb)
    else (1, Some ch, set_rb_read (rb_read_mirror rb) (rb_read_index rb + 1) rb).

(** ** The abstract queue *)
(** Well-formed: the write side is [len] bytes ahead of the read side, in the
    doubled buffer. *)
Definition rb_len (rb : rt_ringbuffer) : Z :=
  rb_write_index rb - rb_read_index rb +
  (if rb_read_mirror rb =? rb_write_mirror rb then 0 else rb_buffer_size rb).
Record rb_ok (rb : rt_ringbuffer) : Prop := {
  ok_size : 0 < rb_buffer_size rb <= 32767;
  ok_read : 0 <= rb_read_index rb < rb_buffer_size rb;
  ok_write : 0 <= rb_write_index rb < rb_buffer_size rb;
  ok_rm : rb_read_mirror rb = 0 \/ rb_read_mirror rb = 1;
  ok_wm : rb_write_mirror rb = 0 \/ rb_write_mirror rb = 1;
  ok_len : 0 <= rb_len rb <= rb_buffer_size rb
}.
Definition wrap (size i : Z) : Z := if i <? size then i else i - size.
Definition rb_contents (rb : rt_ringbuffer) : list Z :=
  (fun k => rb_buffer rb (wrap (rb_buffer_size rb) (rb_read_index rb + Z.of_nat k)))
    <$> seq 0 (Z.to_nat (rb_len rb)).

Lemma rb_contents_length rb : length (rb_contents rb) = Z.to_nat (rb_len rb).
Proof. unfold rb_contents. by rewrite length_fmap, length_seq. Qed.

Lemma rb_contents_lookup rb k :
  rb_contents rb !! k =
  if decide (Z.of_nat k < rb_len rb)
  then Some (rb_buffer rb (wrap (rb_buffer_size rb) (rb_read_index rb + Z.of_nat k))) else None.
Proof.
  unfold rb_contents. rewrite list_lookup_fmap. case_decide.
  - rewrite lookup_seq_lt by lia. done.
  - rewrite lookup_seq_ge by lia. done.
Qed.

Lemma rb_data_len rb : rb_ok rb -> rt_ringbuffer_data_len rb = rb_len rb.
Proof.
  intros [Hs Hr Hw Hrm Hwm Hl]. unfold rt_ringbuffer_data_len, rt_ringbuffer_status.
  unfold rb_len in *.
  destruct (Z.eqb_spec (rb_read_index rb) (rb_write_index rb));
    destruct (Z.eqb_spec (rb_read_mirror rb) (rb_write_mirror rb)); try lia.
  - rewrite uint_small; lia.
  - destruct (Z.gtb_spec (rb_write_index rb) (rb_read_index rb)); rewrite uint_small; lia.
  - destruct (Z.gtb_spec (rb_write_index rb) (rb_read_index rb)); rewrite uint_small; lia.
Qed.

Lemma rb_status rb : rb_ok rb ->
  rt_ringbuffer_status rb =
  if rb_len rb =? 0 then RT_RINGBUFFER_EMPTY
  else if rb_len rb =? rb_buffer_size rb then RT_RINGBUFFER_FULL else RT_RINGBUFFER_HALFFULL.
Proof.
  intros [Hs Hr Hw Hrm Hwm Hl]. unfold rt_ringbuffer_status, rb_len in *.
  destruct (Z.eqb_spec (rb_read_index rb) (rb_write_index rb));
    destruct (Z.eqb_spec (rb_read_mirror rb) (rb_write_mirror rb));
    repeat match goal with |- context [?a =? ?b] => destruct (Z.eqb_spec a b) end; try done; lia.
Qed.

(** ** The store *)
Lemma uint1_lnot m : m = 0 \/ m = 1 -> uint 1 (Z.lnot m) = 1 - m.
Proof. by intros [->| ->]. Qed.
Lemma uint1_id m : m = 0 \/ m = 1 -> uint 1 m = m.
Proof. by intros [->| ->]. Qed.

(** How far index [j] is ahead of the write index. *)
Definition ahead (rb : rt_ringbuffer) (j : Z) : Z :=
  if j >=? rb_write_index rb then j - rb_write_index rb else j - rb_write_index rb + rb_buffer_size rb.

Lemma rb_store_buffer rb ptr n j :
  rb_ok rb -> 0 <= n <= rb_buffer_size rb -> n <= Z.of_nat (length ptr) -> 0 <= j < rb_buffer_size rb ->
  rb_buffer (rb_store ptr n rb) j =
  if ahead rb j <? n then nth (Z.to_nat (ahead rb j)) ptr 0 else rb_buffer rb j.
Proof.
  intros [Hs Hr Hw Hrm Hwm Hl] Hn Hp Hj. unfold rb_store, ahead.
  set (w := rb_write_index rb) in *. set (s := rb_buffer_size rb) in *.
  destruct (Z.gtb_spec (s - w) n) as [G|G]; cbn [rb_buffer set_rb_write set_rb_buffer]; unfold copy_in;
    rewrite !length_take, ?length_drop;
    destruct (Z.geb_spec j w);
    match goal with |- context [?a <? n] => destruct (Z.ltb_spec a n) end;
    repeat match goal with
    | |- context [(?a <=? ?b) && (?c <? ?d)] =>
      destruct (Z.leb_spec a b), (Z.ltb_spec c d); cbn [andb]; try lia
    end; try done;
    rewrite ?nth_firstn; repeat case_match; try lia;
    repeat match goal with H : (_ <? _)%nat = _ |- _ => (apply Nat.ltb_lt in H || apply Nat.ltb_ge in H) end; try lia;
    rewrite ?nth_skipn; f_equal; lia.
Qed.

Lemma rb_store_write rb ptr n :
  rb_ok rb -> 0 <= n <= rb_buffer_size rb ->
  let rb' := rb_store ptr n rb in
  rb_buffer_size rb' = rb_buffer_size rb /\ rb_read_index rb' = rb_read_index rb /\
  rb_read_mirror rb' = rb_read_mirror rb /\
  rb_write_index rb' = wrap (rb_buffer_size rb) (rb_write_index rb + n) /\
  rb_write_mirror rb' = (if rb_write_index rb + n <? rb_buffer_size rb then rb_write_mirror rb else 1 - rb_write_mirror rb).
Proof.
  intros [Hs Hr Hw Hrm Hwm Hl] Hn rb'. unfold rb', rb_store, wrap.
  destruct (Z.gtb_spec (rb_buffer_size rb - rb_write_index rb) n);
    destruct (Z.ltb_spec (rb_write_index rb + n) (rb_buffer_size rb)); try lia;
    cbn [rb_buffer_size rb_read_index rb_read_mirror rb_write_index rb_write_mirror set_rb_write set_rb_buffer];
    rewrite ?uint1_lnot, ?uint1_id by done; rewrite uint_small by lia; repeat split; lia.
Qed.

Lemma wrap_range s i : 0 <= i < 2 * s -> 0 <= wrap s i < s.
Proof. unfold wrap. destruct (Z.ltb_spec i s); lia. Qed.

Lemma rb_put_store rb ptr n :
  rb_ok rb -> 0 <= n <= rb_buffer_size rb - rb_len rb -> n <= Z.of_nat (length ptr) ->
  rb_ok (rb_store ptr n rb) /\ rb_contents (rb_store ptr n rb) = rb_contents rb ++ take (Z.to_nat n) ptr.
Proof.
  intros Hok Hn Hp. pose proof Hok as [Hs Hr Hw Hrm Hwm Hl].
  destruct (rb_store_write rb ptr n Hok ltac:(lia)) as (E1 & E2 & E3 & E4 & E5).
  assert (rb_len (rb_store ptr n rb) = rb_len rb + n) as El.
  { unfold rb_len in *. rewrite E1, E2, E3, E4, E5. unfold wrap in *.
    destruct (Z.ltb_spec (rb_write_index rb + n) (rb_buffer_size rb));
      repeat match goal with |- context [?a =? ?b] => destruct (Z.eqb_spec a b) end;
      destruct (Z.eqb_spec (rb_read_mirror rb) (rb_write_mirror rb)); lia. }
  split.
  - split; rewrite ?E1, ?E2, ?E3, ?El; try lia.
    + rewrite E4. unfold wrap. case_match; lia.
    + rewrite E5. case_match; lia.
  - apply list_eq. intros i. rewrite rb_contents_lookup, El, E1, E2.
    destruct (decide (Z.of_nat i < rb_len rb)) as [Hi|Hi].
    + rewrite lookup_app_l by (rewrite rb_contents_length; lia).
      rewrite rb_contents_lookup. rewrite !decide_True by lia. f_equal.
      rewrite rb_store_buffer; [|done|lia|done|apply wrap_range; lia].
      match goal with |- context [?a <? n] => assert (n <= a) as Ha end.
      { unfold ahead, wrap, rb_len in *. destruct (Z.eqb_spec (rb_read_mirror rb) (rb_write_mirror rb));
          destruct (Z.ltb_spec (rb_read_index rb + Z.of_nat i) (rb_buffer_size rb));
          match goal with |- context [?a >=? ?b] => destruct (Z.geb_spec a b) end; lia. }
      destruct (Z.ltb_spec (ahead rb (wrap (rb_buffer_size rb) (rb_read_index rb + Z.of_nat i))) n); [lia|done].
    + rewrite lookup_app_r by (rewrite rb_contents_length; lia). rewrite rb_contents_length.
      case_decide.
      * rewrite rb_store_buffer; [|done|lia|done|apply wrap_range; lia].
        assert (ahead rb (wrap (rb_buffer_size rb) (rb_read_index rb + Z.of_nat i)) = Z.of_nat i - rb_len rb) as ->.
        { unfold ahead, wrap, rb_len in *. destruct (Z.eqb_spec (rb_read_mirror rb) (rb_write_mirror rb));
            destruct (Z.ltb_spec (rb_read_index rb + Z.of_nat i) (rb_buffer_size rb));
            match goal with |- context [?a >=? ?b] => destruct (Z.geb_spec a b) end; lia. }
        destruct (Z.ltb_spec (Z.of_nat i - rb_len rb) n); [|lia].
        rewrite lookup_take_lt by lia.
        replace (i - Z.to_nat (rb_len rb))%nat with (Z.to_nat (Z.of_nat i - rb_len rb)) by lia.
        symmetry. apply nth_lookup_Some' || (destruct (nth_lookup_or_length ptr (Z.to_nat (Z.of_nat i - rb_len rb)) 0); [done|lia]).
      * rewrite lookup_take_ge by lia. done.
Qed.

(** ** The operations on the queue *)
(** rt_ringbuffer_put appends as many bytes as there is room for. *)
Theorem rt_ringbuffer_put_fifo rb ptr n :
  rb_ok rb -> 0 <= n < 65536 -> n <= Z.of_nat (length ptr) ->
  let m := Z.min n (rb_buffer_size rb - rb_len rb) in
  let '(r, rb') := rt_ringbuffer_put ptr n rb in
  r = m /\ rb_ok rb' /\ rb_contents rb' = rb_contents rb ++ take (Z.to_nat m) ptr.
Proof.
  intros Hok Hn Hp m. pose proof Hok as [Hs _ _ _ _ Hl]. unfold rt_ringbuffer_put, rt_ringbuffer_space_len.
  rewrite rb_data_len by done. rewrite (uint_small 16) by lia.
  destruct (Z.eqb_spec (rb_buffer_size rb - rb_len rb) 0) as [E|E].
  - split; [lia|]. split; [done|]. replace m with 0 by lia. by rewrite app_nil_r.
  - destruct (Z.ltb_spec (rb_buffer_size rb - rb_len rb) n); (split; [lia|]).
    + replace m with (rb_buffer_size rb - rb_len rb) by lia. apply rb_put_store; [done|lia..].
    + replace m with n by lia. apply rb_put_store; [done|lia..].
Qed.

(** Moving the read side forward by [n] bytes. *)
Definition rb_advance (n : Z) (rb : rt_ringbuffer) : rt_ringbuffer :=
  if rb_buffer_size rb - rb_read_index rb >? n
  then set_rb_read (rb_read_mirror rb) (rb_read_index rb + n) rb
  else set_rb_read (Z.lnot (rb_read_mirror rb)) (n - (rb_buffer_size rb - rb_read_index rb)) rb.

Lemma rb_advance_ok rb n :
  rb_ok rb -> 0 <= n <= rb_len rb ->
  rb_ok (rb_advance n rb) /\ rb_contents (rb_advance n rb) = drop (Z.to_nat n) (rb_contents rb).
Proof.
  intros Hok Hn. pose proof Hok as [Hs Hr Hw Hrm Hwm Hl].
  assert (let rb' := rb_advance n rb in
    rb_buffer rb' = rb_buffer rb /\ rb_buffer_size rb' = rb_buffer_size rb /\
    rb_write_index rb' = rb_write_index rb /\ rb_write_mirror rb' = rb_write_mirror rb /\
    rb_read_index rb' = wrap (rb_buffer_size rb) (rb_read_index rb + n) /\
    rb_read_mirror rb' = if rb_read_index rb + n <? rb_buffer_size rb then rb_read_mirror rb else 1 - rb_read_mirror rb)
    as (E0 & E1 & E2 & E3 & E4 & E5).
  { unfold rb_advance, wrap. destruct (Z.gtb_spec (rb_buffer_size rb - rb_read_index rb) n);
      destruct (Z.ltb_spec (rb_read_index rb + n) (rb_buffer_size rb)); try lia;
      cbn [rb_buffer rb_buffer_size rb_read_index rb_read_mirror rb_write_index rb_write_mirror set_rb_read];
      rewrite ?uint1_lnot, ?uint1_id by done; rewrite uint_small by lia; repeat split; lia. }
  pose proof (wrap_range (rb_buffer_size rb) (rb_read_index rb + n) ltac:(lia)) as Hwr.
  assert (rb_len (rb_advance n rb) = rb_len rb - n) as El.
  { unfold rb_len in *. rewrite E1, E2, E3, E4, E5. unfold wrap in *.
    destruct (Z.ltb_spec (rb_read_index rb + n) (rb_buffer_size rb));
      repeat match goal with |- context [?a =? ?b] => destruct (Z.eqb_spec a b) end;
      destruct (Z.eqb_spec (rb_read_mirror rb) (rb_write_mirror rb)); lia. }
  split.
  - split; rewrite ?E1, ?E2, ?E3, ?E4, ?El; try lia. rewrite E5. case_match; lia.
  - apply list_eq. intros i. rewrite lookup_drop, !rb_contents_lookup, El, E0, E1, E4.
    do 2 case_decide; try lia; [|done]. do 2 f_equal. unfold wrap in *.
    destruct (Z.ltb_spec (rb_read_index rb + n) (rb_buffer_size rb));
      repeat match goal with |- context [?a <? ?b] => destruct (Z.ltb_spec a b) end; lia.
Qed.

Lemma copy_out_lookup off n buf i :
  copy_out off n buf !! i = if decide (Z.of_nat i < n) then Some (buf (off + Z.of_nat i)) else None.
Proof.
  unfold copy_out. rewrite list_lookup_fmap. case_decide.
  - by rewrite lookup_seq_lt by lia.
  - by rewrite lookup_seq_ge by lia.
Qed.
Lemma copy_out_length off n buf : length (copy_out off n buf) = Z.to_nat n.
Proof. unfold copy_out. by rewrite length_fmap, length_seq. Qed.

(** rt_ringbuffer_get removes and returns the oldest bytes. *)
Theorem rt_ringbuffer_get_fifo rb n :
  rb_ok rb -> 0 <= n < 65536 ->
  let m := Z.min n (rb_len rb) in
  let '(r, bytes, rb') := rt_ringbuffer_get n rb in
  r = m /\ bytes = take (Z.to_nat m) (rb_contents rb) /\
  rb_ok rb' /\ rb_contents rb' = drop (Z.to_nat m) (rb_contents rb).
Proof.
  intros Hok Hn m. pose proof Hok as [Hs Hr _ _ _ Hl]. unfold rt_ringbuffer_get.
  rewrite rb_data_len by done. destruct (Z.eqb_spec (rb_len rb) 0) as [E|E].
  - replace m with 0 by lia. auto.
  - set (len := if rb_len rb <? n then rb_len rb else n).
    assert (len = m) as -> by (unfold len, m; case_match; lia).
    assert (0 <= m <= rb_len rb) as Hm by lia. clearbody m.
    pose proof (rb_advance_ok rb m Hok Hm) as Hadv. unfold rb_advance in Hadv.
    assert (forall i, take (Z.to_nat m) (rb_contents rb) !! i =
      if decide (Z.of_nat i < m) then Some (rb_buffer rb (wrap (rb_buffer_size rb) (rb_read_index rb + Z.of_nat i))) else None) as Ht.
    { intros i. case_decide.
      - rewrite lookup_take_lt, rb_contents_lookup by lia. by rewrite decide_True by lia.
      - by rewrite lookup_take_ge by lia. }
    destruct (Z.gtb_spec (rb_buffer_size rb - rb_read_index rb) m) as [G|G];
      (split; [done|]; split; [|exact Hadv]); apply list_eq; intros i; rewrite Ht.
    + rewrite copy_out_lookup. case_decide; [|done]. do 2 f_equal. unfold wrap.
      destruct (Z.ltb_spec (rb_read_index rb + Z.of_nat i) (rb_buffer_size rb)); lia.
    + unfold wrap. destruct (decide (Z.of_nat i < rb_buffer_size rb - rb_read_index rb)).
      * rewrite lookup_app_l by (rewrite copy_out_length; lia). rewrite copy_out_lookup, !decide_True by lia.
        do 2 f_equal. destruct (Z.ltb_spec (rb_read_index rb + Z.of_nat i) (rb_buffer_size rb)); lia.
      * rewrite lookup_app_r by (rewrite copy_out_length; lia). rewrite copy_out_length, copy_out_lookup.
        do 2 case_decide; try lia; [|done].
        do 2 f_equal. destruct (Z.ltb_spec (rb_read_index rb + Z.of_nat i) (rb_buffer_size rb)); lia.
Qed.


(** rt_ringbuffer_put_force on a full buffer drops the oldest bytes. *)
Theorem rt_ringbuffer_put_force_full rb ptr n :
  rb_ok rb -> rb_len rb = rb_buffer_size rb -> 0 <= n < 65536 -> n <= Z.of_nat (length ptr) ->
  let m := Z.min n (rb_buffer_size rb) in
  let '(r, rb') := rt_ringbuffer_put_force ptr n rb in
  r = m /\ rb_ok rb' /\ rb_contents rb' = drop (Z.to_nat m) (rb_contents rb) ++ take (Z.to_nat m) ptr.
Proof.
  intros Hok Hfull Hn Hp m. pose proof Hok as [Hs Hr Hw Hrm Hwm Hl]. unfold rt_ringbuffer_put_force.
  rewrite rb_status by done. rewrite Hfull, Z.eqb_refl.
  destruct (Z.eqb_spec (rb_buffer_size rb) 0); [lia|]. rewrite (uint_small 16) by lia.
  assert ((if n >? rb_buffer_size rb then rb_buffer_size rb else n) = m) as ->.
  { unfold m. destruct (Z.gtb_spec n (rb_buffer_size rb)); lia. }
  assert (0 <= m <= rb_buffer_size rb /\ m <= Z.of_nat (length ptr)) as [Hm Hmp] by lia. clearbody m.
  destruct (rb_store_write rb ptr m Hok ltac:(lia)) as (E1 & E2 & E3 & E4 & E5).
  set (st := rb_store ptr m rb) in *.
  assert (rb_read_index rb = rb_write_index rb /\ rb_read_mirror rb <> rb_write_mirror rb) as [Hri Hmm].
  { unfold rb_len in Hfull. destruct (Z.eqb_spec (rb_read_mirror rb) (rb_write_mirror rb)); lia. }
  pose proof (wrap_range (rb_buffer_size rb) (rb_write_index rb + m) ltac:(lia)) as Hwr.
  assert (forall rm, (rm = 0 \/ rm = 1) -> uint 1 rm = rm -> rm <> rb_write_mirror st ->
    let rb' := mk_rb (rb_buffer st) rm (rb_write_index st) (rb_write_mirror st) (rb_write_index st) (rb_buffer_size st) in
    rb_ok rb' /\ rb_contents rb' = drop (Z.to_nat m) (rb_contents rb) ++ take (Z.to_nat m) ptr) as Hgoal.
  { intros rm Hrm' _ Hne rb'. 
    assert (rb_len rb' = rb_buffer_size rb) as El.
    { unfold rb_len, rb'; cbn. destruct (Z.eqb_spec rm (rb_write_mirror st)); [done|]. lia. }
    split.
    - split; rewrite ?El; unfold rb'; cbn; rewrite ?E1, ?E4; try lia. rewrite E5. case_match; lia.
    - apply list_eq. intros i. rewrite rb_contents_lookup, El. unfold rb'; cbn. rewrite E1, E4.
      destruct (decide (Z.of_nat i < rb_buffer_size rb - m)) as [Hi|Hi].
      + rewrite lookup_app_l by (rewrite length_drop, rb_contents_length; lia).
        rewrite lookup_drop, rb_contents_lookup, !decide_True by lia. f_equal.
        unfold st. rewrite rb_store_buffer by (try done; apply wrap_range; lia).
        match goal with |- context [?a <? m] => assert (~ a < m) as Ha end.
        { unfold ahead, wrap. zcases; lia. }
        destruct (Z.ltb_spec (ahead rb (wrap (rb_buffer_size rb) (wrap (rb_buffer_size rb) (rb_write_index rb + m) + Z.of_nat i))) m); [lia|].
        f_equal. unfold wrap. zcases; lia.
      + rewrite lookup_app_r by (rewrite length_drop, rb_contents_length; lia).
        rewrite length_drop, rb_contents_length, Hfull. case_decide.
        * unfold st. rewrite rb_store_buffer by (try done; apply wrap_range; lia).
          assert (ahead rb (wrap (rb_buffer_size rb) (wrap (rb_buffer_size rb) (rb_write_index rb + m) + Z.of_nat i))
            = m + Z.of_nat i - rb_buffer_size rb) as ->.
          { unfold ahead, wrap. zcases; lia. }
          destruct (Z.ltb_spec (m + Z.of_nat i - rb_buffer_size rb) m); [|lia].
          rewrite lookup_take_lt by lia.
          replace (i - (Z.to_nat (rb_buffer_size rb) - Z.to_nat m))%nat
            with (Z.to_nat (m + Z.of_nat i - rb_buffer_size rb)) by lia.
          symmetry. destruct (nth_lookup_or_length ptr (Z.to_nat (m + Z.of_nat i - rb_buffer_size rb)) 0); [done|lia].
        * rewrite lookup_take_ge by lia. done. }
  destruct (Z.gtb_spec (rb_buffer_size rb - rb_write_index rb) m) as [G|G]; (split; [done|]);
    unfold set_rb_read; rewrite E3; rewrite (uint_small 15) by (rewrite E4; lia).
  - rewrite uint1_id by done. apply Hgoal; [done|by apply uint1_id|]. rewrite E5.
    destruct (Z.ltb_spec (rb_write_index rb + m) (rb_buffer_size rb)); lia.
  - rewrite uint1_lnot by done. apply Hgoal; [lia|apply uint1_id; lia|]. rewrite E5.
    destruct (Z.ltb_spec (rb_write_index rb + m) (rb_buffer_size rb)); lia.
Qed.

(** The size of the buffer does not change. *)
Lemma rb_store_size rb ptr n : rb_buffer_size (rb_store ptr n rb) = rb_buffer_size rb.
Proof. unfold rb_store. by case_match. Qed.
Lemma rb_get_size rb n : rb_buffer_size (rt_ringbuffer_get n rb).2 = rb_buffer_size rb.
Proof. unfold rt_ringbuffer_get. by repeat case_match. Qed.
Lemma rb_put_size rb ptr n : rb_buffer_size (rt_ringbuffer_put ptr n rb).2 = rb_buffer_size rb.
Proof. unfold rt_ringbuffer_put. case_match; [done|]. apply rb_store_size. Qed.

(** rt_ringbuffer_put_force on a buffer that is not full, with more bytes than
    there is room for: the write side overtakes the read side and the buffer
    afterwards seems to hold only the excess. *)
Theorem rt_ringbuffer_put_force_overtakes rb ptr n :
  rb_ok rb -> rb_len rb < rb_buffer_size rb -> 0 <= n <= rb_buffer_size rb ->
  rb_buffer_size rb < rb_len rb + n ->
  rt_ringbuffer_data_len (snd (rt_ringbuffer_put_force ptr n rb)) = rb_len rb + n - rb_buffer_size rb.
Proof.
  intros Hok Hlt Hn Hover. pose proof Hok as [Hs Hr Hw Hrm Hwm Hl].
  destruct (rb_store_write rb ptr n Hok Hn) as (E1 & E2 & E3 & E4 & E5).
  assert (snd (rt_ringbuffer_put_force ptr n rb) = rb_store ptr n rb) as ->.
  { unfold rt_ringbuffer_put_force. rewrite rb_status by done.
    destruct (Z.gtb_spec n (rb_buffer_size rb)); [lia|].
    destruct (Z.eqb_spec (rb_len rb) 0), (Z.eqb_spec (rb_len rb) (rb_buffer_size rb)); try lia;
      by destruct (rb_buffer_size rb - rb_write_index rb >? n). }
  unfold rt_ringbuffer_data_len, rt_ringbuffer_status. rewrite E1, E2, E3, E4, E5.
  unfold rb_len, wrap in *.
  destruct (Z.ltb_spec (rb_write_index rb + n) (rb_buffer_size rb));
    destruct (Z.eqb_spec (rb_read_mirror rb) (rb_write_mirror rb));
    repeat match goal with
    | |- context [?a =? ?b] => destruct (Z.eqb_spec a b)
    | |- context [?a >? ?b] => destruct (Z.gtb_spec a b)
    end; try lia; rewrite uint_small; lia.
Qed.


(** One byte: rt_ringbuffer_putchar and rt_ringbuffer_getchar. *)
Lemma rb_ext rb rb' :
  (forall i, rb_buffer rb i = rb_buffer rb' i) -> rb_read_mirror rb = rb_read_mirror rb' ->
  rb_read_index rb = rb_read_index rb' -> rb_write_mirror rb = rb_write_mirror rb' ->
  rb_write_index rb = rb_write_index rb' -> rb_buffer_size rb = rb_buffer_size rb' ->
  (rb_ok rb -> rb_ok rb') /\ rb_contents rb = rb_contents rb'.
Proof.
  destruct rb, rb'. cbn. intros Hb -> -> -> -> ->. split.
  - by intros [? ? ? ? ? ?].
  - apply list_eq. intros i. rewrite !rb_contents_lookup. unfold rb_len. cbn. by rewrite Hb.
Qed.

Lemma copy_in_one off ch buf i : copy_in off [ch] buf i = (<[off := ch]> buf) i.
Proof.
  unfold copy_in. rewrite upd_case. cbn [length]. case_decide as E.
  - subst i. destruct (Z.leb_spec off off), (Z.ltb_spec off (off + Z.of_nat 1)); try lia. cbn [andb].
    by rewrite Z.sub_diag.
  - by destruct (Z.leb_spec off i), (Z.ltb_spec i (off + Z.of_nat 1)); try lia.
Qed.
Lemma copy_in_nil off buf i : copy_in off [] buf i = buf i.
Proof.
  unfold copy_in. cbn [length]. by destruct (Z.leb_spec off i), (Z.ltb_spec i (off + Z.of_nat 0)); try lia.
Qed.

(** rt_ringbuffer_putchar appends one byte, unless the buffer is full. *)
Theorem rt_ringbuffer_putchar_fifo rb ch :
  rb_ok rb ->
  let '(r, rb') := rt_ringbuffer_putchar ch rb in
  rb_ok rb' /\
  if rb_len rb =? rb_buffer_size rb then r = 0 /\ rb' = rb
  else r = 1 /\ rb_contents rb' = rb_contents rb ++ [ch].
Proof.
  intros Hok. pose proof Hok as [Hs Hr Hw Hrm Hwm Hl]. unfold rt_ringbuffer_putchar, rt_ringbuffer_space_len.
  rewrite rb_data_len by done.
  destruct (Z.eqb_spec (rb_buffer_size rb - rb_len rb) 0), (Z.eqb_spec (rb_len rb) (rb_buffer_size rb)); try lia; [auto|].
  destruct (rb_put_store rb [ch] 1 Hok ltac:(lia) ltac:(cbn; lia)) as [Hok' Hc].
  change (take (Z.to_nat 1) [ch]) with [ch] in Hc. rewrite <- Hc.
  cbn [rb_write_index rb_buffer_size rb_write_mirror set_rb_buffer].
  match goal with |- let '(_, _) := ?e in _ => assert (exists rb', e = (1, rb') /\
    (rb_ok (rb_store [ch] 1 rb) -> rb_ok rb') /\ rb_contents (rb_store [ch] 1 rb) = rb_contents rb') as H end.
  { unfold rb_store.
    destruct (Z.eqb_spec (rb_write_index rb) (rb_buffer_size rb - 1)) as [E|E]; eexists; (split; [reflexivity|]);
      destruct (Z.gtb_spec (rb_buffer_size rb - rb_write_index rb) 1); try lia; apply rb_ext;
      cbn [rb_buffer rb_buffer_size rb_read_index rb_read_mirror rb_write_index rb_write_mirror set_rb_write set_rb_buffer]; try done.
    - intros i. replace (rb_buffer_size rb - rb_write_index rb) with 1 by lia.
      cbn [Z.sub Z.add Z.opp Z.pos_sub Z.to_nat Pos.to_nat Pos.iter_op take drop firstn skipn].
      change (take (Z.to_nat 1) [ch]) with [ch]. change (take (Z.to_nat 0) (drop (Z.to_nat 1) [ch])) with (@nil Z).
      by rewrite copy_in_nil, copy_in_one.
    - f_equal. lia.
    - intros i. change (take (Z.to_nat 1) [ch]) with [ch]. by rewrite copy_in_one. }
  destruct H as (rb' & -> & Hok1 & Hc1). rewrite Hc1. auto.
Qed.

(** rt_ringbuffer_getchar removes and returns the oldest byte, if there is one. *)
Theorem rt_ringbuffer_getchar_fifo rb :
  rb_ok rb ->
  let '(r, ch, rb') := rt_ringbuffer_getchar rb in
  rb_ok rb' /\
  match rb_contents rb with
  | [] => r = 0 /\ ch = None /\ rb' = rb
  | b :: rest => r = 1 /\ ch = Some b /\ rb_contents rb' = rest
  end.
Proof.
  intros Hok. pose proof Hok as [Hs Hr _ _ _ Hl]. unfold rt_ringbuffer_getchar.
  rewrite rb_data_len by done. pose proof (rb_contents_length rb) as Hlen.
  destruct (Z.eqb_spec (rb_len rb) 0) as [E|E].
  { rewrite E in Hlen. destruct (rb_contents rb); [auto|done]. }
  destruct (rb_advance_ok rb 1 Hok ltac:(lia)) as [Hok' Hc].
  pose proof (rb_contents_lookup rb 0) as H0. rewrite decide_True in H0 by lia.
  change (Z.of_nat 0) with 0 in H0. rewrite Z.add_0_r in H0.
  unfold wrap in H0. destruct (Z.ltb_spec (rb_read_index rb) (rb_buffer_size rb)); [|lia].
  destruct (rb_contents rb) as [|b rest]; [done|]. injection H0 as ->. cbn in Hc.
  unfold rb_advance in *.
  destruct (Z.eqb_spec (rb_read_index rb) (rb_buffer_size rb - 1)) as [Er|Er];
    destruct (Z.gtb_spec (rb_buffer_size rb - rb_read_index rb) 1); try lia; [|auto].
  replace (1 - (rb_buffer_size rb - rb_read_index rb)) with 0 in * by lia. auto.
Qed.
End ringbuffer.
