(* ===== verification/Print.v ===== *)
(** Formatted output (src/kservice.c): rt_vsnprintf and the functions built on it, with
    RT_PRINTF_PRECISION on, RT_PRINTF_SPECIAL and RT_PRINTF_LONGLONG off.  Strings are
    lists of characters without their NUL; the output goes to memory.  The ints of
    print_number do not overflow (their overflow is undefined), and the place of the
    next character, which the code counts on past the end of the buffer, does not run
    around the end of the address space: for that a width would have to come near 2^32.
    What the directives stand for is stated independently in PrintSpec.v. *)
From Stdlib Require Import Ascii.
From S2P Require Import Prelude Kservice MemOps.
Implicit Types (m : memory).

Definition chr (a : ascii) : Z := Z.of_N (N_of_ascii a).
Arguments chr a%_char_scope.
Definition isdigit (c : Z) : bool := uint32 (c - chr "0") <? 10.
Definition ZEROPAD : Z := 1.
Definition SIGN : Z := 2.
Definition PLUS : Z := 4.
Definition SPACE : Z := 8.
Definition LEFT : Z := 16.
Definition SPECIAL : Z := 32.
Definition LARGE : Z := 64.
Definition has (flags mask : Z) : bool := negb (Z.land flags mask =? 0).

(** ** Writing: [if (str <= end) *str = c; ++str;] *)
Definition put (stop c : Z) (o : Z * memory) : Z * memory :=
  let '(str, m) := o in (str + 1, if str <=? stop then <[str := c]> m else m).
Fixpoint puts (stop : Z) (cs : list Z) (o : Z * memory) : Z * memory :=
  match cs with [] => o | c :: cs => puts stop cs (put stop c o) end.
(** [while (size-- > 0)] put [c]: the place after it, and the value of [size]. *)
Definition put_while (stop c size : Z) (o : Z * memory) : (Z * memory) * Z :=
  (puts stop (replicate (Z.to_nat size) c) o, Z.min size 0 - 1).

(** ** print_number *)
(** The remainder, and the quotient left in [*n]. *)
Definition divide (n base : Z) : Z * Z :=
  if base =? 10 then (uint32 n mod 10, uint32 n / 10) else (uint32 n mod 16, uint32 n / 16).
Definition digit_char (large : bool) (d : Z) : Z := if d <? 10 then chr "0" + d else (if large then chr "A" else chr "a") + (d - 10).
(** [while (num != 0) tmp[i++] = digits[divide(&num, base)];] tmp has 16 places. *)
Fixpoint tmp_digits (fuel : nat) (large : bool) (num base : Z) : list Z :=
  match fuel with
  | O => []
  | S fuel => if num =? 0 then [] else let '(res, num) := divide num base in digit_char large res :: tmp_digits fuel large num base
  end.
(** The character of the sign, 0 for none, and the number that is left to print. *)
Definition get_sign (type num : Z) : Z * Z :=
  if has type SIGN then
    if num <? 0 then (chr "-", int32 (- num))
    else if has type PLUS then (chr "+", num)
    else if has type SPACE then (chr " ", num)
    else (0, num)
  else (0, num).
Definition print_number (stop num base s precision type : Z) (buf : Z * memory) : Z * memory :=
  let type := if has type LEFT then Z.land type (Z.lnot ZEROPAD) else type in
  let c := if has type ZEROPAD then chr "0" else chr " " in
  let '(sign, num) := get_sign type num in
  let tmp := if num =? 0 then [chr "0"] else tmp_digits 16 (has type LARGE) num base in
  let i := Z.of_nat (length tmp) in
  let precision := if i >? precision then i else precision in
  let size := s - precision in
  let '(buf, size) :=
    if negb (has type (Z.lor ZEROPAD LEFT)) then
      let size := if negb (sign =? 0) && (size >? 0) then size - 1 else size in
      put_while stop (chr " ") size buf
    else (buf, size) in
  let '(buf, size) :=
    if negb (sign =? 0) then (put stop sign buf, if fst buf <=? stop then size - 1 else size) else (buf, size) in
  let '(buf, size) := if negb (has type LEFT) then put_while stop c size buf else (buf, size) in
  let '(buf, _) := put_while stop (chr "0") (precision - i) buf in
  let buf := puts stop (rev tmp) buf in
  fst (put_while stop (chr " ") size buf).

(** ** Parsing a conversion: what is left of the format comes back *)
(** The arguments: a word, or a pointer to a string. *)
Inductive arg := Word (v : Z) | Text (s : option (list Z)).
Definition va_word (args : list arg) : option (Z * list arg) :=
  match args with Word v :: args => Some (v, args) | _ => None end.
Fixpoint parse_flags (fmt : list Z) (flags : Z) : Z * list Z :=
  match fmt with
  | c :: rest =>
    if c =? chr "-" then parse_flags rest (Z.lor flags LEFT)
    else if c =? chr "+" then parse_flags rest (Z.lor flags PLUS)
    else if c =? chr " " then parse_flags rest (Z.lor flags SPACE)
    else if c =? chr "#" then parse_flags rest (Z.lor flags SPECIAL)
    else if c =? chr "0" then parse_flags rest (Z.lor flags ZEROPAD)
    else (flags, fmt)
  | [] => (flags, [])
  end.
Fixpoint skip_atoi (s : list Z) (i : Z) : Z * list Z :=
  match s with
  | c :: rest => if isdigit c then skip_atoi rest (int32 (i * 10 + c - chr "0")) else (i, s)
  | [] => (i, [])
  end.
Definition parse_width (fmt : list Z) (flags : Z) (args : list arg) : option (Z * Z * list Z * list arg) :=
  if isdigit (hd 0 fmt) then let '(w, fmt) := skip_atoi fmt 0 in Some (w, flags, fmt, args)
  else if hd 0 fmt =? chr "*" then
    '(v, args) ← va_word args;
    if int32 v <? 0 then Some (int32 (- int32 v), Z.lor flags LEFT, tl fmt, args) else Some (int32 v, flags, tl fmt, args)
  else Some (-1, flags, fmt, args).
Definition parse_precision (fmt : list Z) (args : list arg) : option (Z * list Z * list arg) :=
  if hd 0 fmt =? chr "." then
    let fmt := tl fmt in
    '(p, fmt, args) ←
      (if isdigit (hd 0 fmt) then let '(p, fmt) := skip_atoi fmt 0 in Some (p, fmt, args)
       else if hd 0 fmt =? chr "*" then '(v, args) ← va_word args; Some (int32 v, tl fmt, args)
       else Some (-1, fmt, args));
    Some (if p <? 0 then 0 else p, fmt, args)
  else Some (-1, fmt, args).
Definition parse_qualifier (fmt : list Z) : Z * list Z :=
  if (hd 0 fmt =? chr "h") || (hd 0 fmt =? chr "l") then (hd 0 fmt, tl fmt) else (0, fmt).
(** Base and flags of the integer conversions. *)
Definition int_conversion (c flags : Z) : option (Z * Z) :=
  if c =? chr "o" then Some (8, flags)
  else if c =? chr "X" then Some (16, Z.lor flags LARGE)
  else if c =? chr "x" then Some (16, flags)
  else if (c =? chr "d") || (c =? chr "i") then Some (10, Z.lor flags SIGN)
  else if c =? chr "u" then Some (10, flags)
  else None.
(** The argument converted as the qualifier says; num is an rt_uint32_t, and
    print_number takes a long. *)
Definition get_num (qualifier flags v : Z) : Z :=
  let num :=
    if qualifier =? chr "h" then let num := uint32 (uint16 v) in if has flags SIGN then uint32 (int16 num) else num
    else let num := uint32 v in if has flags SIGN then uint32 (int32 num) else num in
  int32 num.

(** ** rt_vsnprintf *)
Definition spaces (n : Z) : list Z := replicate (Z.to_nat n) (chr " ").
(** [%c]: the width is counted down before each test. *)
Definition print_char (stop width flags v : Z) (str : Z * memory) : Z * memory :=
  let '(str, width) := if negb (has flags LEFT) then (puts stop (spaces (width - 1)) str, Z.min (width - 1) 0) else (str, width) in
  let str := put stop (uint8 v) str in
  puts stop (spaces (width - 1)) str.
(** [%s] *)
Definition print_string (stop width precision flags : Z) (s : option (list Z)) (str : Z * memory) : Z * memory :=
  let s := match s with Some s => s | None => chr <$> ["("; "N"; "U"; "L"; "L"; ")"]%char end in
  let len := Z.of_nat (length s) in
  let len := if (precision >? 0) && (len >? precision) then precision else len in
  let '(str, width) := if negb (has flags LEFT) then (puts stop (spaces (width - len)) str, Z.min width len - 1) else (str, width) in
  let str := puts stop (take (Z.to_nat len) s) str in
  puts stop (spaces (width - len)) str.

(** The switch on the conversion character, the first one of [fmt]. *)
Definition conversion (stop width precision flags qualifier : Z) (fmt : list Z) (args : list arg) (str : Z * memory) :
    option ((Z * memory) * list Z * list arg) :=
  let c := hd 0 fmt in
  if c =? chr "c" then
    '(v, args) ← va_word args; Some (print_char stop width flags v str, tl fmt, args)
  else if c =? chr "s" then
    match args with
    | Text s :: args => Some (print_string stop width precision flags s str, tl fmt, args)
    | _ => None
    end
  else if c =? chr "p" then
    let '(width, flags) := if width =? -1 then (8, Z.lor flags ZEROPAD) else (width, flags) in
    '(v, args) ← va_word args; Some (print_number stop (int32 v) 16 width precision flags str, tl fmt, args)
  else if c =? chr "%" then Some (put stop (chr "%") str, tl fmt, args)
  else
    match int_conversion c flags with
    | Some (base, flags) =>
      '(v, args) ← va_word args;
      Some (print_number stop (get_num qualifier flags v) base width precision flags str, tl fmt, args)
    | None =>
      let str := put stop (chr "%") str in
      Some (if negb (c =? 0) then (put stop c str, tl fmt, args) else (str, fmt, args))
    end.
(** One conversion, after its percent sign. *)
Definition directive (stop : Z) (fmt : list Z) (args : list arg) (str : Z * memory) : option ((Z * memory) * list Z * list arg) :=
  let '(flags, fmt) := parse_flags fmt 0 in
  '(width, flags, fmt, args) ← parse_width fmt flags args;
  '(precision, fmt, args) ← parse_precision fmt args;
  let '(qualifier, fmt) := parse_qualifier fmt in
  conversion stop width precision flags qualifier fmt args str.
Fixpoint vsnprintf_loop (fuel : nat) (stop : Z) (fmt : list Z) (args : list arg) (str : Z * memory) : option (Z * memory) :=
  match fuel with
  | O => None
  | S fuel =>
    match fmt with
    | [] => Some str
    | c :: fmt =>
      if negb (c =? chr "%") then vsnprintf_loop fuel stop fmt args (put stop c str)
      else '(str, fmt, args) ← directive stop fmt args str; vsnprintf_loop fuel stop fmt args str
    end
  end.
Definition rt_vsnprintf (buf size : Z) (fmt : list Z) (args : list arg) m : option (Z * memory) :=
  let stop := uint32 (buf + size - 1) in
  let stop := if stop <? buf then 2 ^ 32 - 1 else stop in
  '(str, m) ← vsnprintf_loop (S (length fmt)) stop fmt args (buf, m);
  Some (int32 (str - buf), if str <=? stop then <[str := 0]> m else <[stop := 0]> m).
Definition rt_snprintf (buf size : Z) (fmt : list Z) (args : list arg) m : option (Z * memory) := rt_vsnprintf buf size fmt args m.
Definition rt_vsprintf (buf : Z) (fmt : list Z) (args : list arg) m : option (Z * memory) := rt_vsnprintf buf (2 ^ 32 - 1) fmt args m.
Definition rt_sprintf (buf : Z) (fmt : list Z) (args : list arg) m : option (Z * memory) := rt_vsprintf buf fmt args m.

(** ** The text that a format stands for *)
Definition digits (large : bool) (base n : Z) : list Z := rev (tmp_digits 16 large n base).
Definition signs (c : Z) : list Z := if c =? 0 then [] else [c].
Definition zeros (n : Z) : list Z := replicate (Z.to_nat n) (chr "0").
Definition number_text (num base width precision flags : Z) : list Z :=
  let '(sign, num) := get_sign flags num in
  let ds := if num =? 0 then [chr "0"] else digits (has flags LARGE) base num in
  let body := zeros (precision - Z.of_nat (length ds)) ++ ds in
  let fill := width - Z.of_nat (length (signs sign ++ body)) in
  if has flags LEFT then signs sign ++ body ++ spaces fill
  else if has flags ZEROPAD then signs sign ++ zeros fill ++ body
  else spaces fill ++ signs sign ++ body.
Definition string_text (s : option (list Z)) (width precision flags : Z) : list Z :=
  let s := match s with Some s => s | None => chr <$> ["("; "N"; "U"; "L"; "L"; ")"]%char end in
  let s := if precision >? 0 then take (Z.to_nat precision) s else s in
  let fill := spaces (width - Z.of_nat (length s)) in
  if has flags LEFT then s ++ fill else fill ++ s.
Definition char_text (v width flags : Z) : list Z :=
  if has flags LEFT then uint8 v :: spaces (width - 1) else spaces (width - 1) ++ [uint8 v].
Definition conversion_text (width precision flags qualifier : Z) (fmt : list Z) (args : list arg) : option (list Z * list Z * list arg) :=
  let c := hd 0 fmt in
  if c =? chr "c" then '(v, args) ← va_word args; Some (char_text v width flags, tl fmt, args)
  else if c =? chr "s" then
    match args with Text s :: args => Some (string_text s width precision flags, tl fmt, args) | _ => None end
  else if c =? chr "p" then
    '(v, args) ← va_word args;
    Some (if width =? -1 then number_text (int32 v) 16 8 precision (Z.lor flags ZEROPAD)
          else number_text (int32 v) 16 width precision flags, tl fmt, args)
  else if c =? chr "%" then Some ([c], tl fmt, args)
  else
    match int_conversion c flags with
    | Some (base, flags) =>
      '(v, args) ← va_word args; Some (number_text (get_num qualifier flags v) base width precision flags, tl fmt, args)
    | None => Some (chr "%" :: signs c, if c =? 0 then fmt else tl fmt, args)
    end.
Definition directive_text (fmt : list Z) (args : list arg) : option (list Z * list Z * list arg) :=
  let '(flags, fmt) := parse_flags fmt 0 in
  '(width, flags, fmt, args) ← parse_width fmt flags args;
  '(precision, fmt, args) ← parse_precision fmt args;
  let '(qualifier, fmt) := parse_qualifier fmt in
  conversion_text width precision flags qualifier fmt args.
Fixpoint format_loop (fuel : nat) (fmt : list Z) (args : list arg) : option (list Z) :=
  match fuel with
  | O => None
  | S fuel =>
    match fmt with
    | [] => Some []
    | c :: fmt =>
      if negb (c =? chr "%") then out ← format_loop fuel fmt args; Some (c :: out)
      else '(text, fmt, args) ← directive_text fmt args; out ← format_loop fuel fmt args; Some (text ++ out)
    end
  end.
(** The text of a format, if the arguments fit it. *)
Definition format (fmt : list Z) (args : list arg) : option (list Z) := format_loop (S (length fmt)) fmt args.

(** ** Writing *)
Lemma puts_app stop cs ds o : puts stop (cs ++ ds) o = puts stop ds (puts stop cs o).
Proof. revert o. induction cs as [|c cs IH]; intros o; [done|]. apply IH. Qed.
Lemma puts_str stop cs o : fst (puts stop cs o) = fst o + Z.of_nat (length cs).
Proof.
  revert o. induction cs as [|c cs IH]; intros [str m]; [cbn; lia|]. cbn [puts]. rewrite IH. cbn [put fst length]. lia.
Qed.
(** The text [cs] at [buf], cut after [stop]. *)
Definition place (buf stop : Z) (cs : list Z) m : memory := fun a =>
  if decide (buf <= a <= stop) then default (m a) (cs !! Z.to_nat (a - buf)) else m a.
(** [out] has been written so far; past the end of the buffer only the count matters. *)
Definition written (buf stop : Z) m0 (out : list Z) (o : Z * memory) : Prop :=
  (forall a, snd o a = place buf stop out m0 a) /\
  (fst o = buf + Z.of_nat (length out) \/ (stop < buf + Z.of_nat (length out) < fst o)).
Lemma written_put buf stop m0 out o c : buf <= stop + 1 ->
  written buf stop m0 out o -> written buf stop m0 (out ++ [c]) (put stop c o).
Proof.
  intros Hb. destruct o as [str m]. intros [Hm Hs]. cbn [fst snd] in *. split; cbn [put fst snd]; [|rewrite length_app; cbn [length]; lia].
  intros a. destruct (Z.leb_spec str stop) as [Hle|Hgt].
  - destruct Hs as [->|]; [|lia]. rewrite upd_case. unfold place. case_decide as D.
    + subst a. rewrite decide_True by lia. replace (Z.to_nat _) with (length out) by lia.
      by rewrite lookup_app_r, Nat.sub_diag by lia.
    + rewrite Hm. unfold place. case_decide; [|done]. destruct (decide (Z.to_nat (a - buf) < length out)%nat).
      * by rewrite lookup_app_l.
      * rewrite !lookup_ge_None_2; [done| |lia]. rewrite length_app. cbn [length]. lia.
  - rewrite Hm. unfold place. case_decide; [|done]. rewrite lookup_app_l; [done|]. lia.
Qed.
Lemma written_puts buf stop m0 cs : buf <= stop + 1 -> forall out o,
  written buf stop m0 out o -> written buf stop m0 (out ++ cs) (puts stop cs o).
Proof.
  intros Hb. induction cs as [|c cs IH]; intros out o H; [by rewrite app_nil_r|].
  change (c :: cs) with ([c] ++ cs). rewrite app_assoc. cbn [app puts]. by apply IH, written_put.
Qed.
(** Past the end, the characters do not matter. *)
Lemma written_past buf stop m0 out o cs ds : buf <= stop + 1 -> stop < fst o -> (length ds <= length cs)%nat ->
  written buf stop m0 out o -> written buf stop m0 (out ++ ds) (puts stop cs o).
Proof.
  intros Hb Ho Hl H. pose proof (written_puts _ _ _ cs Hb _ _ H) as [Hm Hs]. destruct H as [_ Hs0].
  split; rewrite ?puts_str in *.
  - intros a. rewrite Hm. unfold place. case_decide; [|done]. by rewrite !lookup_app_l by lia.
  - rewrite !length_app in *. lia.
Qed.

(** ** Numbers *)
Lemma has_lor f a b : has f (Z.lor a b) = has f a || has f b.
Proof.
  unfold has. rewrite Z.land_lor_distr_r. destruct (Z.eqb_spec (Z.land f a) 0) as [->|Ha]; [by rewrite Z.lor_0_l|].
  cbn [negb orb]. apply negb_true_iff, Z.eqb_neq. rewrite Z.lor_eq_0_iff. tauto.
Qed.
Lemma has_clear f mask : Z.land (Z.lnot ZEROPAD) mask = mask -> has (Z.land f (Z.lnot ZEROPAD)) mask = has f mask.
Proof. intros E. unfold has. by rewrite <- Z.land_assoc, E. Qed.
Lemma has_cleared f : has (Z.land f (Z.lnot ZEROPAD)) ZEROPAD = false.
Proof. unfold has. by rewrite <- Z.land_assoc, Z.land_0_r. Qed.
Lemma put_as_puts stop sign o : (if negb (sign =? 0) then put stop sign o else o) = puts stop (signs sign) o.
Proof. unfold signs. by destruct (sign =? 0). Qed.

Lemma put_puts stop c o : put stop c o = puts stop [c] o.
Proof. done. Qed.
Lemma spaces_nil n : n <= 0 -> spaces n = [].
Proof. intros H. unfold spaces. by rewrite Z2Nat.nonpos. Qed.

Lemma signs_some c : c <> 0 -> signs c = [c].
Proof. intros H. unfold signs. by destruct (Z.eqb_spec c 0). Qed.

(** Two texts are equal up to the counts of their fillings, or the first one lies past
    the end of the buffer and is not the shorter one. *)
Ltac fills :=
  repeat match goal with |- context [replicate (Z.to_nat ?n) _] => rewrite (Z2Nat.nonpos n) by lia end;
  cbn [replicate app]; rewrite ?app_nil_r, <- ?app_assoc; cbn [app];
  first [left; solve [repeat first [lia | reflexivity | progress f_equal]] | right; split; [done|]; cbn [length]; rewrite ?length_app, ?length_replicate, ?length_rev; cbn [length]; lia].
(** print_number writes the text of the number; a sign past the end of the buffer can
    make it count one character more. *)
Lemma print_number_text stop num base width precision flags o :
  exists cs, print_number stop num base width precision flags o = puts stop cs o /\
    (cs = number_text num base width precision flags \/
     (stop < fst o /\ (length (number_text num base width precision flags) <= length cs)%nat)).
Proof.
  unfold print_number, number_text. set (type := if has flags LEFT then _ else flags).
  assert (get_sign type num = get_sign flags num) as ->.
  { unfold get_sign, type. destruct (has flags LEFT); [|done]. by rewrite !has_clear. }
  assert (has type LARGE = has flags LARGE) as -> by (unfold type; destruct (has flags LEFT); [by rewrite has_clear|done]).
  assert (has type LEFT = has flags LEFT) as EL by (unfold type; destruct (has flags LEFT) eqn:E; [by rewrite has_clear|done]).
  assert (has type ZEROPAD = negb (has flags LEFT) && has flags ZEROPAD) as EZ.
  { unfold type. destruct (has flags LEFT); [by rewrite has_cleared|done]. }
  rewrite has_lor, EL, EZ. destruct (get_sign flags num) as [sign n]. unfold digits.
  set (tmp := if n =? 0 then [chr "0"] else tmp_digits 16 (has flags LARGE) n base).
  assert ((if n =? 0 then [chr "0"] else rev (tmp_digits 16 (has flags LARGE) n base)) = rev tmp) as -> by (unfold tmp; by destruct (n =? 0)).
  set (i := Z.of_nat (length tmp)). unfold spaces, zeros, put_while. rewrite !length_app, length_replicate, length_rev. fold i.
  replace (if i >? precision then i else precision) with (i + Z.of_nat (Z.to_nat (precision - i))) by (destruct (Z.gtb_spec i precision); lia).
  set (nz := Z.to_nat (precision - i)). replace (Z.to_nat (_ - i)) with nz by lia. subst i. clearbody nz tmp.
  destruct (has flags LEFT), (has flags ZEROPAD), (Z.eqb_spec sign 0) as [->|Hs]; cbn [negb andb orb];
    rewrite ?(signs_some _ Hs), ?put_puts; cbn [fst signs Z.eqb length app].
  all: try match goal with |- context [?a >? ?b] => destruct (Z.gtb_spec a b) end.
  all: try match goal with |- context [fst ?b <=? ?e] => destruct (Z.leb_spec (fst b) e) end.
  all: rewrite <- !puts_app; eexists; (split; [reflexivity|]).
  all: fills.
Qed.
Lemma written_number buf stop m0 out o num base width precision flags : buf <= stop + 1 -> written buf stop m0 out o ->
  written buf stop m0 (out ++ number_text num base width precision flags) (print_number stop num base width precision flags o).
Proof.
  intros Hb H. destruct (print_number_text stop num base width precision flags o) as (cs & -> & [->|[? ?]]);
    [by apply written_puts|by apply written_past].
Qed.
Lemma print_char_text stop width flags v o : print_char stop width flags v o = puts stop (char_text v width flags) o.
Proof.
  unfold print_char, char_text. destruct (has flags LEFT); cbn [negb]; rewrite put_puts, <- !puts_app; [done|].
  rewrite (spaces_nil (_ `min` _ - 1)) by lia. by rewrite app_nil_r.
Qed.
Lemma print_string_text stop width precision flags s o :
  print_string stop width precision flags s o = puts stop (string_text s width precision flags) o.
Proof.
  unfold print_string, string_text. set (t := match s with Some s => s | None => _ end). clearbody t.
  set (u := if precision >? 0 then take (Z.to_nat precision) t else t).
  assert ((if (precision >? 0) && (Z.of_nat (length t) >? precision) then precision else Z.of_nat (length t)) = Z.of_nat (length u) /\
          take (length u) t = u) as [-> Hu].
  { subst u. destruct (Z.gtb_spec precision 0); cbn [andb]; [|by rewrite firstn_all].
    rewrite length_take. destruct (Z.gtb_spec (Z.of_nat (length t)) precision).
    - split; [lia|]. f_equal. lia.
    - rewrite (take_ge t (Z.to_nat precision)) by lia. split; [lia|]. by rewrite Nat.min_r, firstn_all by lia. }
  rewrite Nat2Z.id, Hu. destruct (has flags LEFT); cbn [negb]; rewrite <- !puts_app; [done|].
  rewrite (spaces_nil (_ `min` _ - 1 - _)) by lia. by rewrite app_nil_r.
Qed.

(** ** The whole format *)
Lemma conversion_written buf stop m0 out o width precision flags qualifier fmt args text fmt' args' :
  buf <= stop + 1 -> written buf stop m0 out o ->
  conversion_text width precision flags qualifier fmt args = Some (text, fmt', args') ->
  exists o', conversion stop width precision flags qualifier fmt args o = Some (o', fmt', args') /\ written buf stop m0 (out ++ text) o'.
Proof.
  intros Hb H. unfold conversion_text, conversion.
  case (Z.eqb_spec (hd 0 fmt) (chr "c")) as [_|_].
  { destruct (va_word args) as [[v rest]|]; [|done]. cbn [mbind option_bind]. intros [= <- <- <-].
    rewrite print_char_text. eauto using written_puts. }
  case (Z.eqb_spec (hd 0 fmt) (chr "s")) as [_|_].
  { destruct args as [|[v|s] rest]; [done..|]. intros [= <- <- <-]. rewrite print_string_text. eauto using written_puts. }
  case (Z.eqb_spec (hd 0 fmt) (chr "p")) as [_|_].
  { destruct (va_word args) as [[v rest]|]; [|by destruct (width =? -1)]. cbn [mbind option_bind]. intros [= <- <- <-].
    destruct (width =? -1); eauto using written_number. }
  case (Z.eqb_spec (hd 0 fmt) (chr "%")) as [->|_].
  { intros [= <- <- <-]. rewrite put_puts. eauto using written_puts. }
  destruct (int_conversion (hd 0 fmt) flags) as [[base fl]|].
  { destruct (va_word args) as [[v rest]|]; [|done]. cbn [mbind option_bind]. intros [= <- <- <-]. eauto using written_number. }
  intros [= <- <- <-]. unfold signs. destruct (Z.eqb_spec (hd 0 fmt) 0) as [E|E]; cbn [negb]; rewrite !put_puts, <- ?puts_app.
  - eauto using written_puts.
  - eexists; split; [done|]. by apply (written_puts _ _ _ [chr "%"; hd 0 fmt]).
Qed.
Lemma directive_written buf stop m0 out o fmt args text fmt' args' : buf <= stop + 1 -> written buf stop m0 out o ->
  directive_text fmt args = Some (text, fmt', args') ->
  exists o', directive stop fmt args o = Some (o', fmt', args') /\ written buf stop m0 (out ++ text) o'.
Proof.
  intros Hb H. unfold directive_text, directive. destruct (parse_flags fmt 0) as [fl f1].
  destruct (parse_width f1 fl args) as [[[[w fl2] f2] a2]|]; [cbn [mbind option_bind]|done].
  destruct (parse_precision f2 a2) as [[[p f3] a3]|]; [cbn [mbind option_bind]|done].
  destruct (parse_qualifier f3) as [q f4]. by apply conversion_written.
Qed.
Lemma loop_written fuel buf stop m0 : buf <= stop + 1 -> forall fmt args text out o, written buf stop m0 out o ->
  format_loop fuel fmt args = Some text ->
  exists o', vsnprintf_loop fuel stop fmt args o = Some o' /\ written buf stop m0 (out ++ text) o'.
Proof.
  intros Hb. induction fuel as [|fuel IH]; intros fmt args text out o H; [done|]. cbn [format_loop vsnprintf_loop].
  destruct fmt as [|c fmt]; [intros [= <-]; exists o; by rewrite app_nil_r|]. destruct (negb (c =? chr "%")).
  - destruct (format_loop fuel fmt args) as [t|] eqn:E; [|done]. intros [= <-].
    change (c :: t) with ([c] ++ t). rewrite app_assoc. eapply IH; [|exact E]. by apply written_put.
  - destruct (directive_text fmt args) as [[[t f2] a2]|] eqn:D; [cbn [mbind option_bind]|done].
    destruct (format_loop fuel f2 a2) as [t2|] eqn:E; [|done]. intros [= <-].
    destruct (directive_written _ _ _ _ _ _ _ _ _ _ Hb H D) as (o1 & -> & H1). cbn [mbind option_bind].
    rewrite app_assoc. eapply IH; [exact H1|exact E].
Qed.

(** A conversion reads on in the format, and leaves at least its end. *)
Lemma parse_flags_le fmt fl : (length (snd (parse_flags fmt fl)) <= length fmt)%nat.
Proof.
  revert fl. induction fmt as [|c fmt IH]; intros fl; cbn [parse_flags]; [done|].
  repeat case_match; cbn [snd length]; try done; (etrans; [apply IH|lia]).
Qed.
Lemma skip_atoi_le s i : (length (snd (skip_atoi s i)) <= length s)%nat.
Proof.
  revert i. induction s as [|c s IH]; intros i; cbn [skip_atoi]; [done|].
  case_match; cbn [snd length]; [|done]. etrans; [apply IH|lia].
Qed.
Lemma tl_le (fmt : list Z) : (length (tl fmt) <= length fmt)%nat.
Proof. destruct fmt; cbn; lia. Qed.
Lemma parse_width_le fmt fl args w fl' fmt' args' :
  parse_width fmt fl args = Some (w, fl', fmt', args') -> (length fmt' <= length fmt)%nat.
Proof.
  unfold parse_width. case (isdigit _).
  { destruct (skip_atoi fmt 0) as [i f] eqn:E. intros [= <- <- <- <-]. pose proof (skip_atoi_le fmt 0) as H. by rewrite E in H. }
  case (hd 0 fmt =? chr "*"); [|by intros [= <- <- <- <-]].
  destruct (va_word args) as [[v rest]|]; [cbn [mbind option_bind]|done].
  case_match; intros [= <- <- <- <-]; apply tl_le.
Qed.
Lemma parse_precision_le fmt args p fmt' args' : parse_precision fmt args = Some (p, fmt', args') -> (length fmt' <= length fmt)%nat.
Proof.
  unfold parse_precision. case (hd 0 fmt =? chr "."); [|by intros [= <- <- <-]]. pose proof (tl_le fmt) as Ht. case (isdigit _).
  { destruct (skip_atoi (tl fmt) 0) as [i f] eqn:E. cbn [mbind option_bind]. intros [= <- <- <-].
    pose proof (skip_atoi_le (tl fmt) 0) as H. rewrite E in H. cbn [snd] in H. lia. }
  case (hd 0 (tl fmt) =? chr "*"); [|by intros [= <- <- <-]].
  destruct (va_word args) as [[v rest]|]; [cbn [mbind option_bind]|done]. intros [= <- <- <-].
  pose proof (tl_le (tl fmt)). lia.
Qed.
Lemma parse_qualifier_le fmt : (length (snd (parse_qualifier fmt)) <= length fmt)%nat.
Proof. unfold parse_qualifier. case_match; cbn [snd]; [apply tl_le|done]. Qed.
Lemma conversion_text_le width precision flags qualifier fmt args text fmt' args' :
  conversion_text width precision flags qualifier fmt args = Some (text, fmt', args') -> (length fmt' <= length fmt)%nat.
Proof.
  unfold conversion_text, va_word. pose proof (tl_le fmt).
  repeat (case_match; try done); cbn [mbind option_bind] in *; by intros [= <- <- <-].
Qed.
Lemma directive_text_le fmt args text fmt' args' : directive_text fmt args = Some (text, fmt', args') -> (length fmt' <= length fmt)%nat.
Proof.
  unfold directive_text. pose proof (parse_flags_le fmt 0) as H1. destruct (parse_flags fmt 0) as [fl f1]. cbn [snd] in H1.
  destruct (parse_width f1 fl args) as [[[[w fl2] f2] a2]|] eqn:E2; [cbn [mbind option_bind]|done]. apply parse_width_le in E2.
  destruct (parse_precision f2 a2) as [[[p f3] a3]|] eqn:E3; [cbn [mbind option_bind]|done]. apply parse_precision_le in E3.
  pose proof (parse_qualifier_le f3) as H4. destruct (parse_qualifier f3) as [q f4]. cbn [snd] in H4.
  intros H%conversion_text_le. lia.
Qed.
(** The arguments do not fit the format: a conversion finds none left, or one of the
    other kind. *)
Inductive mismatch : list Z -> list arg -> Prop :=
| mismatch_here fmt args : directive_text fmt args = None -> mismatch (chr "%" :: fmt) args
| mismatch_char c fmt args : c <> chr "%" -> mismatch fmt args -> mismatch (c :: fmt) args
| mismatch_next fmt args text fmt' args' : directive_text fmt args = Some (text, fmt', args') ->
    mismatch fmt' args' -> mismatch (chr "%" :: fmt) args.
Lemma format_loop_defined fuel fmt args : (length fmt < fuel)%nat -> ~ mismatch fmt args -> is_Some (format_loop fuel fmt args).
Proof.
  revert fmt args. induction fuel as [|fuel IH]; intros fmt args Hf Hm; [lia|]. destruct fmt as [|c fmt]; [by eexists|].
  cbn [format_loop length] in *. destruct (Z.eqb_spec c (chr "%")) as [->|Hc]; cbn [negb].
  - destruct (directive_text fmt args) as [[[t f2] a2]|] eqn:E; [cbn [mbind option_bind]|destruct Hm; by apply mismatch_here].
    pose proof (directive_text_le _ _ _ _ _ E).
    destruct (IH f2 a2) as [t2 ->]; [lia| |by eexists]. intros Hm'. apply Hm. by eapply mismatch_next.
  - destruct (IH fmt args) as [t ->]; [lia| |by eexists]. intros Hm'. apply Hm. by apply mismatch_char.
Qed.
Lemma format_matches fuel fmt args text : format_loop fuel fmt args = Some text -> ~ mismatch fmt args.
Proof.
  intros H Hm. revert fuel text H. induction Hm as [fmt args D|c fmt args Hc Hm IH|fmt args t f2 a2 D Hm IH]; intros [|fuel] text; try done;
    cbn [format_loop]; rewrite ?Z.eqb_refl; cbn [negb]; rewrite ?D; cbn [mbind option_bind]; [done| |].
  - destruct (Z.eqb_spec c (chr "%")); [done|]. cbn [negb]. destruct (format_loop fuel fmt args) eqn:E; [|done]. by destruct (IH _ _ E).
  - destruct (format_loop fuel f2 a2) eqn:E; [|done]. by destruct (IH _ _ E).
Qed.

(** rt_vsnprintf writes the text of the format, cut to the buffer. *)
Lemma vsnprintf_writes buf size fmt args text m : 0 <= buf -> 0 < size -> buf + size <= 2 ^ 32 -> format fmt args = Some text ->
  exists n m', rt_vsnprintf buf size fmt args m = Some (int32 n, m') /\
    (forall a, m' a = place buf (buf + size - 1) (take (Z.to_nat (size - 1)) text ++ [0]) m a) /\
    (n = Z.of_nat (length text) \/ size <= Z.of_nat (length text) < n).
Proof.
  intros Hb Hs He Ht. unfold format in Ht.
  assert (uint32 (buf + size - 1) = buf + size - 1) as Hstop by (unfold uint; rewrite Z.mod_small; lia).
  unfold rt_vsnprintf. rewrite Hstop. destruct (Z.ltb_spec (buf + size - 1) buf); [lia|].
  destruct (loop_written (S (length fmt)) buf (buf + size - 1) m ltac:(lia) fmt args text [] (buf, m)) as ([str m1] & E & Hw & Hn); [|done|].
  { split; cbn; [|lia]. intros a. unfold place. by case_decide. }
  exists (str - buf). rewrite E. cbn [mbind option_bind fst snd app] in *. eexists.
  split; [done|]. split; [|lia].
  assert ((if str <=? buf + size - 1 then <[str := 0]> m1 else <[buf + size - 1 := 0]> m1)
          = <[buf + Z.of_nat (length (take (Z.to_nat (size - 1)) text)) := 0]> m1) as ->.
  { rewrite length_take. destruct (Z.leb_spec str (buf + size - 1)); do 2 f_equal; lia. }
  intros a. rewrite upd_case. set (k := length (take _ text)). assert (k = Z.to_nat (size - 1) `min` length text)%nat as Hk by apply length_take.
  unfold place. case_decide as D.
  - subst a. rewrite decide_True by lia. replace (Z.to_nat _) with k by lia. by rewrite lookup_app_r, Nat.sub_diag.
  - rewrite Hw. unfold place. case_decide; [|done]. destruct (decide (Z.to_nat (a - buf) < k)%nat).
    + rewrite lookup_app_l by done. by rewrite lookup_take_lt by lia.
    + rewrite !lookup_ge_None_2; [done|rewrite length_app; cbn [length]; lia|lia].
Qed.

(** Whatever the format, if the arguments fit it rt_vsnprintf terminates, and no byte
    outside the buffer changes. *)
Lemma rt_vsnprintf_bounded buf size fmt args m : 0 <= buf -> 0 < size -> buf + size <= 2 ^ 32 -> ~ mismatch fmt args ->
  exists n m', rt_vsnprintf buf size fmt args m = Some (n, m') /\ forall a, ~ (buf <= a < buf + size) -> m' a = m a.
Proof.
  intros Hb Hs He Hm. destruct (format_loop_defined (S (length fmt)) fmt args) as [text Ht]; [lia|done|].
  destruct (vsnprintf_writes buf size fmt args text m Hb Hs He Ht) as (n & m' & E & H & _). exists (int32 n), m'. split; [done|].
  intros a Ha. rewrite H. unfold place. by rewrite decide_False by lia.
Qed.

(** ** Reading decimal numbers back *)
Lemma isdigit_digit d : 0 <= d < 10 -> isdigit (chr "0" + d) = true.
Proof. intros H. unfold isdigit. rewrite Z.add_simpl_l. unfold uint. rewrite Z.mod_small by lia. lia. Qed.
Lemma skip_atoi_digits fuel large n rest : 0 <= n < 2 ^ 31 -> n < 10 ^ Z.of_nat fuel ->
  skip_atoi (rev (tmp_digits fuel large n 10) ++ rest) 0 = skip_atoi rest n.
Proof.
  revert n rest. induction fuel as [|fuel IH]; intros n rest Hn Hf; [by replace n with 0 by lia|].
  cbn [tmp_digits]. destruct (Z.eqb_spec n 0) as [->|H0]; [done|]. cbn [divide Z.eqb Pos.eqb].
  assert (uint32 n = n) as -> by (unfold uint; rewrite Z.mod_small; lia).
  pose proof (Z.div_mod n 10 ltac:(lia)). pose proof (Z.mod_pos_bound n 10 ltac:(lia)).
  cbn [rev]. rewrite <- app_assoc. rewrite IH; [|lia|].
  2:{ apply Z.div_lt_upper_bound; [lia|]. rewrite Nat2Z.inj_succ, Z.pow_succ_r in Hf; lia. }
  unfold digit_char. destruct (Z.ltb_spec (n mod 10) 10); [|lia]. cbn [app skip_atoi]. rewrite isdigit_digit by lia.
  f_equal. rewrite sint_small; lia.
Qed.
Lemma skip_atoi_stop rest n : isdigit (hd 0 rest) = false -> skip_atoi rest n = (n, rest).
Proof. destruct rest as [|c rest]; [done|]. cbn [hd skip_atoi]. by intros ->. Qed.
Lemma get_num_small flags n : - 2 ^ 31 <= n < 2 ^ 31 -> get_num 0 flags n = n.
Proof.
  intros Hn. unfold get_num. change (0 =? chr "h") with false. cbn match.
  case_match; by rewrite ?sint_uint, ?(sint_small 32 n) by lia.
Qed.

(** What "%d" prints for an int above the least one, skip_atoi reads back: the sign is a minus
    exactly for negative numbers, and the digits behind it stand for the magnitude. *)
Theorem decimal_roundtrip n rest : - 2 ^ 31 < n < 2 ^ 31 -> isdigit (hd 0 rest) = false ->
  exists ds, format (chr <$> ["%"; "d"]%char) [Word n] = Some (signs (if n <? 0 then chr "-" else 0) ++ ds) /\
    skip_atoi (ds ++ rest) 0 = (Z.abs n, rest).
Proof.
  intros Hn Hr. assert (format (chr <$> ["%"; "d"]%char) [Word n] = Some (number_text (get_num 0 SIGN n) 10 (-1) (-1) SIGN ++ [])) as -> by reflexivity.
  rewrite get_num_small, app_nil_r by lia. unfold number_text.
  assert (get_sign SIGN n = (if n <? 0 then chr "-" else 0, Z.abs n)) as ->.
  { unfold get_sign. cbn. destruct (Z.ltb_spec n 0); [|f_equal; lia]. f_equal. rewrite sint_small; lia. }
  exists (if Z.abs n =? 0 then [chr "0"] else digits false 10 (Z.abs n)). split.
  - change (has SIGN LEFT) with false. change (has SIGN ZEROPAD) with false. change (has SIGN LARGE) with false. cbn match.
    unfold zeros. rewrite spaces_nil, Z2Nat.nonpos by lia. done.
  - destruct (Z.eqb_spec (Z.abs n) 0) as [->|H0]; [by rewrite <- (skip_atoi_stop rest 0)|].
    unfold digits. rewrite skip_atoi_digits by lia. by apply skip_atoi_stop.
Qed.

(** ** Departures *)
(** "%o" prints hexadecimal digits: divide knows base 10 and takes every other one for 16. *)
Lemma octal_digits fuel large n : tmp_digits fuel large n 8 = tmp_digits fuel large n 16.
Proof.
  revert n. induction fuel as [|fuel IH]; intros n; [done|]. cbn [tmp_digits divide Z.eqb Pos.eqb].
  destruct (n =? 0); [done|]. by rewrite IH.
Qed.
Lemma octal_is_hex num width precision flags : number_text num 8 width precision flags = number_text num 16 width precision flags.
Proof. unfold number_text, digits. destruct (get_sign flags num) as [sign n]. by rewrite octal_digits. Qed.
(** A size of 0 is no limit: everything up to the end of the address space may be written. *)
Lemma rt_vsnprintf_size_zero buf fmt args m : 0 < buf < 2 ^ 32 -> rt_vsnprintf buf 0 fmt args m = rt_vsnprintf buf (2 ^ 32 - buf) fmt args m.
Proof.
  intros Hb. unfold rt_vsnprintf. rewrite !uint_small by lia.
  destruct (Z.ltb_spec (buf + 0 - 1) buf); [|lia]. destruct (Z.ltb_spec (buf + (2 ^ 32 - buf) - 1) buf); [lia|].
  by replace (buf + (2 ^ 32 - buf) - 1) with (2 ^ 32 - 1) by lia.
Qed.
