(* ===== verification/PrintSpec.v ===== *)
(** What a format of rt_vsnprintf stands for, stated without the code: a format is a list
    of characters and directives, a directive is a structure of flags, width, precision,
    qualifier and conversion, and its meaning is written down with its alphabet of
    digits.  rt_vsnprintf writes the meaning of every such format.  "%o" is left out,
    because the code prints it in hexadecimal ([Print.octal_is_hex]); so is a percent sign
    at the very end of a format.  The flag # changes nothing, because RT_PRINTF_SPECIAL is
    off, and the precision 0 does not cut a string. *)
From Stdlib Require Import Ascii String.
From S2P Require Import Prelude MemOps Print.

(** ** Formats *)
Inductive pflag := Minus | Plus | Blank | Hash | Zero.
#[export] Instance pflag_eq_dec : EqDecision pflag.
Proof. solve_decision. Defined.
Inductive field_width := NoWidth | Width (n : Z) | WidthArg.
Inductive field_precision := NoPrecision | BareDot | Precision (n : Z) | PrecisionArg.
Inductive qualifier := NoQualifier | Half | Long.
Inductive conv :=
  Decimal | Integer | Unsigned | LowHex | UpHex | Char | Str | Pointer | Percent | Unknown (c : Z).
Record directive_spec := mk_directive {
  d_flags : list pflag; d_width : field_width; d_precision : field_precision; d_qualifier : qualifier; d_conversion : conv
}.
Inductive piece := Literal (c : Z) | Directive (d : directive_spec).

(** ** Numerals *)
Definition chars (s : string) : list Z := chr <$> list_ascii_of_string s.
Arguments chars s%_string.
Definition decimal : list Z := chars "0123456789".
Definition low_hex : list Z := chars "0123456789abcdef".
Definition up_hex : list Z := chars "0123456789ABCDEF".
(** The digits of a word [n], the base being the size of the alphabet: one, and one
    more for each power of the base up to [n]; the digit of weight b^i is (n / b^i) mod b. *)
Definition numeral (alphabet : list Z) (n : Z) : list Z :=
  let b := Z.of_nat (Datatypes.length alphabet) in
  let more := Datatypes.length (filter (fun k => b ^ Z.of_nat k <= n) (seq 1 31)) in
  (fun i => nth (Z.to_nat ((n / b ^ Z.of_nat i) mod b)) alphabet 0) <$> rev (seq 0 (S more)).

(** ** The text of a format *)
Definition render_flag (f : pflag) : Z :=
  chr match f with Minus => "-" | Plus => "+" | Blank => " " | Hash => "#" | Zero => "0" end.
Definition render_width (w : field_width) : list Z :=
  match w with NoWidth => [] | Width n => numeral decimal n | WidthArg => chars "*" end.
Definition render_precision (p : field_precision) : list Z :=
  match p with NoPrecision => [] | BareDot => chars "." | Precision n => chars "." ++ numeral decimal n | PrecisionArg => chars ".*" end.
Definition render_qualifier (q : qualifier) : list Z :=
  match q with NoQualifier => [] | Half => chars "h" | Long => chars "l" end.
Definition render_conversion (c : conv) : Z :=
  match c with
  | Decimal => chr "d" | Integer => chr "i" | Unsigned => chr "u" | LowHex => chr "x" | UpHex => chr "X"
  | Char => chr "c" | Str => chr "s" | Pointer => chr "p" | Percent => chr "%" | Unknown c => c
  end.
Definition render_directive (d : directive_spec) : list Z :=
  (render_flag <$> d_flags d) ++ render_width (d_width d) ++ render_precision (d_precision d) ++
  render_qualifier (d_qualifier d) ++ [render_conversion (d_conversion d)].
Definition render_piece (p : piece) : list Z :=
  match p with Literal c => [c] | Directive d => chr "%" :: render_directive d end.
Definition render (ps : list piece) : list Z := ps ≫= render_piece.

(** A width does not begin with 0, and the number skip_atoi reads stays an int; an
    unknown conversion is a character with no role in a directive. *)
Definition width_ok (w : field_width) : Prop := match w with Width n => 1 <= n < 2 ^ 31 - 48 | _ => True end.
Definition precision_ok (p : field_precision) : Prop := match p with Precision n => 0 <= n < 2 ^ 31 - 48 | _ => True end.
Definition conversion_ok (c : conv) : Prop :=
  match c with Unknown c => 0 < c < 256 /\ c ∉ chars "-+ #0123456789*.hldiuoxXcsp%" | _ => True end.
Definition piece_ok (p : piece) : Prop :=
  match p with
  | Literal c => 0 < c < 256 /\ c <> chr "%"
  | Directive d => width_ok (d_width d) /\ precision_ok (d_precision d) /\ conversion_ok (d_conversion d)
  end.

(** ** The meaning of a directive *)
Definition fill (n : Z) (c : ascii) : list Z := replicate (Z.to_nat n) (chr c).
(** A text in its field. *)
Definition field (lf : bool) (w : Z) (cs : list Z) : list Z :=
  let gap := fill (w - Z.of_nat (Datatypes.length cs)) " " in if lf then cs ++ gap else gap ++ cs.
(** An integer: its sign, its digits, at least [p] of them, and with the flag 0 zeros
    between the two up to the width. *)
Definition sign_text (fs : list pflag) (signed : bool) (x : Z) : list Z :=
  if negb signed then [] else if x <? 0 then chars "-"
  else if decide (Plus ∈ fs) then chars "+" else if decide (Blank ∈ fs) then chars " " else [].
Definition number (fs : list pflag) (lf zero : bool) (w p : Z) (alphabet : list Z) (signed : bool) (x : Z) : list Z :=
  let sign := sign_text fs signed x in
  let ds := numeral alphabet (Z.abs x) in
  let body := fill (p - Z.of_nat (Datatypes.length ds)) "0" ++ ds in
  if zero && negb lf then sign ++ fill (w - Z.of_nat (Datatypes.length (sign ++ body))) "0" ++ body
  else field lf w (sign ++ body).
(** The width and whether the text stands on the left: a negative argument means both
    (the least int has no absolute value). *)
Definition width_meaning (d : directive_spec) (args : list arg) : option (option Z * bool * list arg) :=
  let lf := bool_decide (Minus ∈ d_flags d) in
  match d_width d, args with
  | NoWidth, _ => Some (None, lf, args)
  | Width n, _ => Some (Some n, lf, args)
  | WidthArg, Word v :: args =>
    let v := int32 v in if v =? - 2 ^ 31 then None else Some (Some (Z.abs v), lf || (v <? 0), args)
  | WidthArg, _ => None
  end.
(** No precision and the precision 0 mean the same. *)
Definition precision_meaning (d : directive_spec) (args : list arg) : option (Z * list arg) :=
  match d_precision d, args with
  | NoPrecision, _ | BareDot, _ => Some (0, args)
  | Precision n, _ => Some (n, args)
  | PrecisionArg, Word v :: args => Some (Z.max 0 (int32 v), args)
  | PrecisionArg, _ => None
  end.
Definition short (q : qualifier) : bool := match q with Half => true | _ => false end.
Definition conversion_meaning (d : directive_spec) (lf : bool) (w : option Z) (p : Z) (args : list arg) : option (list Z * list arg) :=
  let fs := d_flags d in
  let zero := bool_decide (Zero ∈ fs) in
  let wd := default 0 w in
  let signed v := number fs lf zero wd p decimal true (if short (d_qualifier d) then int16 v else int32 v) in
  let unsigned alphabet v := number fs lf zero wd p alphabet false (if short (d_qualifier d) then uint16 v else uint32 v) in
  match d_conversion d, args with
  | (Decimal | Integer), Word v :: args => Some (signed v, args)
  | Unsigned, Word v :: args => Some (unsigned decimal v, args)
  | LowHex, Word v :: args => Some (unsigned low_hex v, args)
  | UpHex, Word v :: args => Some (unsigned up_hex v, args)
  | Pointer, Word v :: args =>
    Some (number fs lf (zero || negb (bool_decide (is_Some w))) (default 8 w) p low_hex false (uint32 v), args)
  | Char, Word v :: args => Some (field lf wd [uint8 v], args)
  | Str, Text s :: args =>
    Some (field lf wd (let s := default (chars "(NULL)") s in if 0 <? p then take (Z.to_nat p) s else s), args)
  | Percent, args => Some (chars "%", args)
  | Unknown c, args => Some ([chr "%"; c], args)
  | _, _ => None
  end.
Definition directive_meaning (d : directive_spec) (args : list arg) : option (list Z * list arg) :=
  '(w, lf, args) ← width_meaning d args;
  '(p, args) ← precision_meaning d args;
  conversion_meaning d lf w p args.
Fixpoint meaning (ps : list piece) (args : list arg) : option (list Z) :=
  match ps with
  | [] => Some []
  | Literal c :: ps => out ← meaning ps args; Some (c :: out)
  | Directive d :: ps => '(t, args) ← directive_meaning d args; out ← meaning ps args; Some (t ++ out)
  end.

(** ** Numerals are what print_number and skip_atoi compute with *)
Definition more (b n : Z) (i k : nat) : nat := Datatypes.length (filter (fun k => b ^ Z.of_nat k <= n) (seq i k)).
Lemma more_shift b n k : 0 < b -> forall i, more b n (S i) k = more b (n / b) i k.
Proof.
  intros Hb. unfold more. induction k as [|k IH]; intros i; [done|]. cbn [seq]. rewrite !filter_cons.
  assert (b ^ Z.of_nat (S i) <= n <-> b ^ Z.of_nat i <= n / b) as E.
  { rewrite Nat2Z.inj_succ, Z.pow_succ_r by lia. split; intros H.
    - apply Z.div_le_lower_bound; lia.
    - etrans; [apply Z.mul_le_mono_nonneg_l; [lia|exact H]|]. apply Z.mul_div_le. lia. }
  destruct (decide (b ^ Z.of_nat (S i) <= n)), (decide (b ^ Z.of_nat i <= n / b)); try tauto; cbn [Datatypes.length]; by rewrite IH.
Qed.
Lemma more_none b n k : 1 < b -> 0 <= n < b -> forall i, (1 <= i)%nat -> more b n i k = O.
Proof.
  intros Hb Hn. unfold more. induction k as [|k IH]; intros i Hi; [done|]. cbn [seq]. rewrite filter_cons_False; [apply IH; lia|].
  assert (b ^ 1 <= b ^ Z.of_nat i) by (apply Z.pow_le_mono_r; lia). lia.
Qed.
Lemma more_step b n : 2 <= b -> b <= n < 2 ^ 32 -> more b n 1 31 = S (more b (n / b) 1 31).
Proof.
  intros Hb Hn. unfold more. change (seq 1 31) with ([1%nat] ++ seq 2 30) at 1. change (seq 1 31) with (seq 1 30 ++ [31%nat]).
  rewrite !filter_app, !length_app. fold (more b n 2 30). fold (more b (n / b) 1 30). rewrite more_shift by lia.
  rewrite filter_cons_True by (change (Z.of_nat 1) with 1; lia). rewrite filter_cons_False; [cbn [Datatypes.length filter list_filter]; lia|].
  change (Z.of_nat 31) with 31. assert (2 ^ 31 <= b ^ 31) by (apply Z.pow_le_mono_l; lia).
  assert (n / b < 2 ^ 31) by (apply Z.div_lt_upper_bound; nia). lia.
Qed.

(** An alphabet, with the base and the case of print_number that it stands for. *)
Record alphabet_of (alphabet : list Z) (b : Z) (large : bool) : Prop := {
  al_base : b = 10 \/ b = 16;
  al_length : Z.of_nat (Datatypes.length alphabet) = b;
  al_digit : forall d, 0 <= d < b -> digit_char large d = nth (Z.to_nat d) alphabet 0
}.
Lemma alphabet_check alphabet b large : b = 10 \/ b = 16 -> Z.of_nat (Datatypes.length alphabet) = b ->
  forallb (fun d => digit_char large d =? nth (Z.to_nat d) alphabet 0) (seqZ 0 b) = true -> alphabet_of alphabet b large.
Proof.
  intros Hb Hl H. split; [done..|]. intros d Hd. rewrite forallb_forall in H. apply Z.eqb_eq, H, list_elem_of_In, elem_of_seqZ. lia.
Qed.
Lemma decimal_alphabet large : alphabet_of decimal 10 large.
Proof. apply alphabet_check; [by left|done|by destruct large; vm_compute]. Qed.
Lemma low_alphabet : alphabet_of low_hex 16 false.
Proof. apply alphabet_check; [by right|done|by vm_compute]. Qed.
Lemma up_alphabet : alphabet_of up_hex 16 true.
Proof. apply alphabet_check; [by right|done|by vm_compute]. Qed.

Lemma tmp_digits_positional alphabet b large fuel : alphabet_of alphabet b large -> forall n, 0 < n < 2 ^ 32 -> n < b ^ Z.of_nat fuel ->
  tmp_digits fuel large n b = (fun i => nth (Z.to_nat ((n / b ^ Z.of_nat i) mod b)) alphabet 0) <$> seq 0 (S (more b n 1 31)).
Proof.
  intros [Hb _ Hd]. assert (forall n, 0 < n < 2 ^ 32 -> divide n b = (n mod b, n / b)) as Hdiv.
  { intros n Hn. unfold divide. destruct Hb as [-> | ->]; cbn [Z.eqb Pos.eqb]; by rewrite uint_small by lia. }
  assert (2 <= b) as Hb2 by lia.
  induction fuel as [|fuel IH]; intros n Hn Hf; [cbn in Hf; lia|]. cbn [tmp_digits]. destruct (Z.eqb_spec n 0); [lia|].
  rewrite Hdiv by done. cbn [seq fmap list_fmap]. rewrite Hd by (apply Z.mod_pos_bound; lia). change (Z.of_nat 0) with 0. rewrite Z.pow_0_r, Z.div_1_r. f_equal.
  pose proof (Z.div_mod n b ltac:(lia)). pose proof (Z.mod_pos_bound n b ltac:(lia)). destruct (decide (n < b)) as [Hlt|Hge].
  - rewrite Z.div_small, more_none by lia. by destruct fuel.
  - rewrite more_step by lia. rewrite Nat2Z.inj_succ, Z.pow_succ_r in Hf by lia. assert (1 <= n / b) by (apply Z.div_le_lower_bound; lia).
    rewrite IH; [|split; [lia|]|apply Z.div_lt_upper_bound; lia].
    2: { apply Z.div_lt_upper_bound; nia. }
    rewrite <- (fmap_S_seq 0), <- list_fmap_compose. apply list_fmap_ext. intros _ i _. cbn [compose].
    rewrite Nat2Z.inj_succ, Z.pow_succ_r, Z.div_div by (try apply Z.pow_pos_nonneg; lia). done.
Qed.
Lemma tmp_digits_numeral alphabet b large n : alphabet_of alphabet b large -> 0 < n < 2 ^ 32 -> rev (tmp_digits 16 large n b) = numeral alphabet n.
Proof.
  intros Ha Hn. pose proof (al_base _ _ _ Ha). rewrite (tmp_digits_positional alphabet) by (done || (destruct H as [-> | ->]; cbn; lia)).
  unfold numeral. rewrite (al_length _ _ _ Ha). symmetry. apply List.map_rev.
Qed.
Lemma numeral_zero alphabet b large : alphabet_of alphabet b large -> numeral alphabet 0 = chars "0".
Proof.
  intros Ha. unfold numeral. rewrite (al_length _ _ _ Ha). assert (2 <= b) by (pose proof (al_base _ _ _ Ha); lia). fold (more b 0 1 31). rewrite more_none by lia.
  cbn. rewrite Z.mod_0_l by lia. cbn. rewrite <- (al_digit _ _ _ Ha 0) by lia. done.
Qed.
(** The digits that print_number collects; an unsigned word comes in as an int. *)
Definition collected (large : bool) (b num : Z) : list Z := if num =? 0 then [chr "0"] else digits large b num.
Lemma collected_numeral alphabet b large n : alphabet_of alphabet b large -> 0 <= n < 2 ^ 32 -> collected large b n = numeral alphabet n.
Proof.
  intros Ha Hn. unfold collected. destruct (Z.eqb_spec n 0) as [->|]; [by rewrite (numeral_zero alphabet b large)|].
  unfold digits. apply (tmp_digits_numeral _ _ _ _ Ha). lia.
Qed.
Lemma collected_word large b x : 0 <= x < 2 ^ 32 -> collected large b (int32 x) = collected large b x.
Proof.
  intros Hx. assert (int32 x = 0 <-> x = 0) as Hz.
  { split; intros E; [|by subst]. pose proof (uint_sint 32 x ltac:(lia)) as E2. rewrite E, (uint_small 32 x) in E2 by lia. by rewrite <- E2. }
  unfold collected. destruct (Z.eqb_spec (int32 x) 0), (Z.eqb_spec x 0); try tauto. unfold digits. cbn [tmp_digits].
  destruct (Z.eqb_spec (int32 x) 0), (Z.eqb_spec x 0); try tauto. unfold divide. by rewrite uint_sint by lia.
Qed.

(** ** Flags *)
Definition flag_bit (f : pflag) : Z :=
  match f with Minus => LEFT | Plus => PLUS | Blank => SPACE | Hash => SPECIAL | Zero => ZEROPAD end.
Definition flag_bits (fs : list pflag) : Z := foldl (fun v f => Z.lor v (flag_bit f)) 0 fs.
Lemma has_or a b i : 0 <= i -> has (Z.lor a b) (2 ^ i) = has a (2 ^ i) || has b (2 ^ i).
Proof. intros Hi. unfold has. by rewrite !land_pow2, !negb_involutive, Z.lor_spec. Qed.
Lemma has_fold fs i : 0 <= i -> forall v, has (foldl (fun v f => Z.lor v (flag_bit f)) v fs) (2 ^ i) = has v (2 ^ i) || existsb (fun f => has (flag_bit f) (2 ^ i)) fs.
Proof.
  intros Hi. induction fs as [|f fs IH]; intros v; cbn [foldl existsb]; [by rewrite orb_false_r|]. by rewrite IH, has_or, orb_assoc.
Qed.
Lemma existsb_flag (f : pflag) fs (p : pflag -> bool) : (forall g, p g = bool_decide (g = f)) -> existsb p fs = bool_decide (f ∈ fs).
Proof.
  intros Hp. induction fs as [|g fs IH]; cbn [existsb]; [symmetry; apply bool_decide_eq_false, not_elem_of_nil|].
  rewrite IH, Hp. destruct (decide (g = f)) as [->|Hne]; [rewrite (bool_decide_true (f = f)), (bool_decide_true (f ∈ f :: fs)) by (done || by left); done|].
  rewrite (bool_decide_false (g = f)) by done. cbn [orb]. apply bool_decide_ext. rewrite elem_of_cons. naive_solver.
Qed.
Lemma flag_bit_pow f : exists i, 0 <= i /\ flag_bit f = 2 ^ i.
Proof.
  destruct f; [exists 4|exists 2|exists 3|exists 5|exists 0]; by split.
Qed.
Lemma flag_bit_apart f g : has (flag_bit g) (flag_bit f) = bool_decide (g = f).
Proof. by destruct f, g. Qed.
Lemma has_flag fs f : has (flag_bits fs) (flag_bit f) = bool_decide (f ∈ fs).
Proof.
  destruct (flag_bit_pow f) as (i & Hi & E). unfold flag_bits. rewrite E, has_fold by done.
  change (has 0 (2 ^ i)) with (negb (0 =? 0)). cbn [orb]. apply existsb_flag. intros g. rewrite <- E. apply flag_bit_apart.
Qed.
(** The other two bits are set by the conversion. *)
Lemma has_conversion_bit fs mask : mask = SIGN \/ mask = LARGE -> has (flag_bits fs) mask = false.
Proof.
  intros Hm. assert (exists i, 0 <= i /\ mask = 2 ^ i) as (i & Hi & E) by (destruct Hm as [-> | ->]; [exists 1|exists 6]; by split).
  unfold flag_bits. rewrite E, has_fold by done. change (has 0 (2 ^ i)) with (negb (0 =? 0)). cbn [orb negb Z.eqb].
  rewrite <- E. clear E. induction fs as [|f fs IH]; [done|]. cbn [existsb]. rewrite IH. by destruct Hm as [-> | ->], f.
Qed.
Lemma has_lor_l a b mask : has (Z.lor a b) mask = has a mask || has b mask.
Proof. unfold has. rewrite !(Z.land_comm _ mask). apply has_lor. Qed.

(** ** Numbers *)
(** What number_text makes of the bits [fl] and the number [num]. *)
Record number_input (fs : list pflag) (fl num b : Z) (lf zero : bool) (alphabet : list Z) (signed : bool) (x : Z) : Prop := {
  ni_sign : has fl SIGN = signed;
  ni_plus : has fl PLUS = bool_decide (Plus ∈ fs);
  ni_blank : has fl SPACE = bool_decide (Blank ∈ fs);
  ni_left : has fl LEFT = lf;
  ni_zero : has fl ZEROPAD = zero;
  ni_alphabet : alphabet_of alphabet b (has fl LARGE);
  ni_num : if signed then num = x /\ - 2 ^ 31 <= x < 2 ^ 31 else num = int32 x /\ 0 <= x < 2 ^ 32
}.
Lemma sign_of fs fl num b lf zero alphabet signed x : number_input fs fl num b lf zero alphabet signed x ->
  exists sign num', get_sign fl num = (sign, num') /\ signs sign = sign_text fs signed x /\
    collected (has fl LARGE) b num' = numeral alphabet (Z.abs x).
Proof.
  intros [E1 E2 E3 _ _ Ha Hn]. unfold get_sign, sign_text. rewrite E1, E2, E3. destruct signed; cbn [negb].
  - destruct Hn as [-> Hx]. destruct (Z.ltb_spec x 0).
    + exists (chr "-"), (int32 (- x)). split; [done|]. split; [done|]. rewrite <- (sint_uint 32 (- x)), (uint_small 32 (- x)) by lia.
      rewrite collected_word by lia. rewrite (collected_numeral alphabet) by (done || lia). f_equal. lia.
    + assert (collected (has fl LARGE) b x = numeral alphabet (Z.abs x)) as Ec by (rewrite (collected_numeral alphabet) by (done || lia); f_equal; lia).
      repeat case_bool_decide; repeat case_decide; try done; eexists _, x; by split_and!.
  - destruct Hn as [-> Hx]. exists 0, (int32 x). split; [done|]. split; [done|]. rewrite collected_word, (collected_numeral alphabet) by (done || lia).
    f_equal. lia.
Qed.
Lemma fill_ext a b c : Z.max a 0 = Z.max b 0 -> fill a c = fill b c.
Proof. intros E. unfold fill. f_equal. lia. Qed.
Lemma number_meaning fs fl num b lf zero alphabet signed x w w' p p' :
  number_input fs fl num b lf zero alphabet signed x -> Z.max w 0 = Z.max w' 0 -> Z.max p 0 = Z.max p' 0 ->
  number_text num b w p fl = number fs lf zero w' p' alphabet signed x.
Proof.
  intros H Hw Hp. destruct (sign_of _ _ _ _ _ _ _ _ _ H) as (sign & num' & Es & Et & Ed). destruct H as [_ _ _ E4 E5 _ _].
  unfold number_text, number, field. rewrite Es, Et, E4, E5. fold (collected (has fl LARGE) b num'). rewrite Ed.
  set (ds := numeral _ _). set (sg := sign_text _ _ _).
  change (zeros (p - Z.of_nat (Datatypes.length ds))) with (fill (p - Z.of_nat (Datatypes.length ds)) "0").
  rewrite (fill_ext (p - _) (p' - Z.of_nat (Datatypes.length ds))) by lia. set (body := _ ++ ds). set (n := Z.of_nat (Datatypes.length (sg ++ body))).
  assert (forall c, fill (w - n) c = fill (w' - n) c) as Hf by (intros c; apply fill_ext; lia).
  change (spaces (w - n)) with (fill (w - n) " "). change (zeros (w - n)) with (fill (w - n) "0"). rewrite !Hf.
  destruct lf, zero; cbn [andb negb]; by rewrite ?app_assoc.
Qed.
Lemma get_num_signed q fl v : has fl SIGN = true ->
  get_num (hd 0 (render_qualifier q)) fl v = if short q then int16 v else int32 v.
Proof.
  intros Hs. unfold get_num. rewrite Hs. pose proof (uint_range 16 v ltac:(lia)).
  pose proof (sint_range 16 v ltac:(lia)).
  destruct q; cbn [short].
  - change (int32 (uint32 (int32 (uint32 v))) = int32 v). by rewrite !sint_uint, sint_small by (try lia; apply (sint_range 32); lia).
  - change (int32 (uint32 (int16 (uint32 (uint16 v)))) = int16 v). rewrite (uint_small 32 (uint16 v)), sint_uint, sint_uint, (sint_small 32) by lia. done.
  - change (int32 (uint32 (int32 (uint32 v))) = int32 v). by rewrite !sint_uint, sint_small by (try lia; apply (sint_range 32); lia).
Qed.
Lemma get_num_unsigned q fl v : has fl SIGN = false ->
  get_num (hd 0 (render_qualifier q)) fl v = int32 (if short q then uint16 v else uint32 v).
Proof.
  intros Hs. unfold get_num. rewrite Hs. pose proof (uint_range 16 v ltac:(lia)). destruct q; try done.
  change (int32 (uint32 (uint16 v)) = int32 (uint16 v)). by rewrite sint_uint.
Qed.

(** ** Parsing a directive *)
Lemma eqb_outside s c a : c ∉ chars s -> bool_decide (chr a ∈ chars s) = true -> (c =? chr a) = false.
Proof. intros Hc Ha%bool_decide_eq_true. apply Z.eqb_neq. by intros ->. Qed.
Lemma outside_less s s' c : forallb (fun x => bool_decide (x ∈ chars s)) (chars s') = true -> c ∉ chars s -> c ∉ chars s'.
Proof. intros H Hc Hc'. rewrite forallb_forall in H. apply Hc, (bool_decide_unpack _). rewrite H; [done|]. by apply list_elem_of_In. Qed.
Lemma isdigit_decimal c : 0 <= c < 256 -> isdigit c = bool_decide (c ∈ decimal).
Proof.
  intros Hc. assert (forallb (fun c => eqb (isdigit c) (bool_decide (c ∈ decimal))) (seqZ 0 256) = true) as H by (by vm_compute).
  rewrite forallb_forall in H. apply eqb_prop, H, list_elem_of_In, elem_of_seqZ. lia.
Qed.
(** What stands behind the part that was read: it begins with none of [s]. *)
Definition behind (s : string) (rest : list Z) : Prop := exists c cs, rest = c :: cs /\ 0 < c < 256 /\ c ∉ chars s.
Lemma behind_less s s' rest : forallb (fun x => bool_decide (x ∈ chars s)) (chars s') = true -> behind s rest -> behind s' rest.
Proof. intros H (c & cs & -> & Hc & Hn). exists c, cs. split; [done|]. split; [done|]. by eapply outside_less. Qed.
Lemma behind_isdigit rest : behind "0123456789" rest -> isdigit (hd 0 rest) = false.
Proof. intros (c & cs & -> & Hc & Hn). cbn [hd]. rewrite isdigit_decimal by lia. by apply bool_decide_eq_false. Qed.
Lemma behind_eqb s a rest : behind s rest -> bool_decide (chr a ∈ chars s) = true -> (hd 0 rest =? chr a) = false.
Proof. intros (c & cs & -> & Hc & Hn) Ha. by eapply eqb_outside. Qed.

Lemma parse_flags_behind rest v : behind "-+ #0" rest -> parse_flags rest v = (v, rest).
Proof.
  intros H. pose proof H as (c & cs & -> & _). cbn [parse_flags]. change c with (hd 0 (c :: cs)). by rewrite !(behind_eqb _ _ _ H) by done.
Qed.
Lemma parse_flags_render fs rest : behind "-+ #0" rest -> parse_flags ((render_flag <$> fs) ++ rest) 0 = (flag_bits fs, rest).
Proof.
  intros H. unfold flag_bits. generalize 0 as v. induction fs as [|f fs IH]; intros v; cbn [fmap list_fmap app foldl]; [by apply parse_flags_behind|].
  rewrite <- IH. by destruct f.
Qed.
Lemma numeral_digits n : 1 <= n < 2 ^ 31 -> numeral decimal n = rev (tmp_digits 16 false n 10).
Proof. intros Hn. symmetry. apply (tmp_digits_numeral _ _ _ _ (decimal_alphabet false)). lia. Qed.
Lemma tmp_digits_last fuel n : 0 < n < 2 ^ 31 -> n < 10 ^ Z.of_nat fuel ->
  exists d ds, rev (tmp_digits fuel false n 10) = (chr "0" + d) :: ds /\ 1 <= d < 10.
Proof.
  revert n. induction fuel as [|fuel IH]; intros n Hn Hf; [cbn in Hf; lia|]. cbn [tmp_digits]. destruct (Z.eqb_spec n 0); [lia|].
  unfold divide. cbn [Z.eqb Pos.eqb]. rewrite uint_small by lia. cbn [rev].
  pose proof (Z.div_mod n 10 ltac:(lia)). pose proof (Z.mod_pos_bound n 10 ltac:(lia)). rewrite Nat2Z.inj_succ, Z.pow_succ_r in Hf by lia.
  destruct (decide (n < 10)) as [Hlt|Hge].
  - rewrite Z.div_small, Z.mod_small by lia. exists n, []. split; [|lia]. unfold digit_char. destruct (Z.ltb_spec n 10); [|lia]. by destruct fuel.
  - destruct (IH (n / 10)) as (d & ds & -> & Hd); [lia|apply Z.div_lt_upper_bound; lia|]. eexists d, _. by split.
Qed.
Lemma digit_outside s d : forallb (fun x => negb (bool_decide (x ∈ chars s))) (chars "123456789") = true -> 1 <= d < 10 -> chr "0" + d ∉ chars s.
Proof.
  intros H Hd Hin. rewrite forallb_forall in H. specialize (H (chr "0" + d)). rewrite bool_decide_true in H by done. discriminate H.
  apply list_elem_of_In. assert (d = 1 \/ d = 2 \/ d = 3 \/ d = 4 \/ d = 5 \/ d = 6 \/ d = 7 \/ d = 8 \/ d = 9) as Hd' by lia.
  apply (bool_decide_unpack _). repeat destruct Hd' as [-> | Hd']; try subst d; by vm_compute.
Qed.
Lemma numeral_head n : 1 <= n < 2 ^ 31 -> exists d ds, numeral decimal n = (chr "0" + d) :: ds /\ 1 <= d < 10.
Proof. intros Hn. rewrite numeral_digits by done. apply tmp_digits_last; [lia|cbn; lia]. Qed.
Lemma skip_atoi_numeral n rest : 0 <= n < 2 ^ 31 -> behind "0123456789" rest ->
  isdigit (hd 0 (numeral decimal n ++ rest)) = true /\ skip_atoi (numeral decimal n ++ rest) 0 = (n, rest).
Proof.
  intros Hn Hr%behind_isdigit. destruct (Z.eqb_spec n 0) as [->|H0].
  - rewrite (numeral_zero _ _ _ (decimal_alphabet false)). split; [done|]. exact (skip_atoi_stop rest 0 Hr).
  - destruct (numeral_head n) as (d & ds & E & Hd); [lia|]. split; [rewrite E; apply isdigit_digit; lia|].
    rewrite numeral_digits, skip_atoi_digits by (cbn; lia). by apply skip_atoi_stop.
Qed.

(** The flags after the width was read. *)
Record flags_read (fs : list pflag) (fl : Z) (lf : bool) : Prop := {
  fr_left : has fl LEFT = lf;
  fr_other : forall mask, has LEFT mask = false -> has fl mask = has (flag_bits fs) mask
}.
Lemma flags_read_none fs : flags_read fs (flag_bits fs) (bool_decide (Minus ∈ fs)).
Proof. split; [apply (has_flag fs Minus)|done]. Qed.
Lemma flags_read_left fs : flags_read fs (Z.lor (flag_bits fs) LEFT) true.
Proof. split; [rewrite has_lor_l; apply orb_true_r|]. intros mask Hm. by rewrite has_lor_l, Hm, orb_false_r. Qed.

Lemma width_read d args w lf args' rest : width_ok (d_width d) -> behind "0123456789*" rest ->
  width_meaning d args = Some (w, lf, args') ->
  exists fl, parse_width (render_width (d_width d) ++ rest) (flag_bits (d_flags d)) args = Some (default (-1) w, fl, rest, args') /\
    flags_read (d_flags d) fl lf /\ (forall n, w = Some n -> 0 <= n).
Proof.
  intros Hok Hb. assert (behind "0123456789" rest) as Hd by (by eapply behind_less; [|exact Hb]).
  unfold width_meaning, parse_width. destruct (d_width d) as [|n|]; cbn [render_width] in *.
  - intros [= <- <- <-]. cbn [app]. rewrite behind_isdigit, (behind_eqb _ "*" _ Hb) by done.
    eexists. split; [done|]. by split; [apply flags_read_none|].
  - intros [= <- <- <-]. destruct (skip_atoi_numeral n rest ltac:(cbn in Hok; lia) Hd) as [E1 E2]. rewrite E1, E2.
    eexists. split; [done|]. split; [apply flags_read_none|]. intros ? [= <-]. cbn in Hok. lia.
  - destruct args as [|[v|] args]; [done| |done]. pose proof (sint_range 32 v ltac:(lia)). cbn [va_word mbind option_bind].
    destruct (Z.eqb_spec (int32 v) (- 2 ^ 31)); [done|]. intros [= <- <- <-].
    change (isdigit (hd 0 (chars "*" ++ rest))) with false. change (hd 0 (chars "*" ++ rest) =? chr "*") with true. cbn match.
    change (tl (chars "*" ++ rest)) with rest. change (default (-1) (Some (Z.abs (int32 v)))) with (Z.abs (int32 v)). destruct (Z.ltb_spec (int32 v) 0).
    + rewrite orb_true_r. exists (Z.lor (flag_bits (d_flags d)) LEFT). split; [|split; [apply flags_read_left|intros ? [= <-]; lia]].
      rewrite (sint_small 32 (- int32 v)) by lia. do 4 f_equal. lia.
    + rewrite orb_false_r. exists (flag_bits (d_flags d)). split; [|split; [apply flags_read_none|intros ? [= <-]; lia]].
      do 4 f_equal. lia.
Qed.
Lemma precision_read d args p args' rest : precision_ok (d_precision d) -> behind "0123456789*." rest ->
  precision_meaning d args = Some (p, args') ->
  exists p', parse_precision (render_precision (d_precision d) ++ rest) args = Some (p', rest, args') /\ Z.max p' 0 = Z.max p 0.
Proof.
  intros Hok Hb. assert (behind "0123456789" rest) as Hd by (by eapply behind_less; [|exact Hb]).
  unfold precision_meaning, parse_precision. destruct (d_precision d) as [| |n|]; cbn [render_precision] in *.
  - intros [= <- <-]. cbn [app]. rewrite (behind_eqb _ "." _ Hb) by done. by eexists.
  - intros [= <- <-]. change (tl (chars "." ++ rest)) with rest. change (hd 0 (chars "." ++ rest) =? chr ".") with true. cbn match.
    rewrite behind_isdigit, (behind_eqb _ "*" _ Hb) by done. by eexists.
  - intros [= <- <-]. rewrite <- app_assoc. change (tl (chars "." ++ ?l)) with l. change (hd 0 (chars "." ++ numeral decimal n ++ rest) =? chr ".") with true. cbn match.
    destruct (skip_atoi_numeral n rest ltac:(cbn in Hok; lia) Hd) as [E1 E2]. rewrite E1, E2. cbn [mbind option_bind].
    destruct (Z.ltb_spec n 0); [cbn in Hok; lia|]. by eexists.
  - destruct args as [|[v|] args]; [done| |done]. intros [= <- <-]. cbn [va_word mbind option_bind].
    change (hd 0 (chars ".*" ++ rest) =? chr ".") with true. cbn match. change (tl (chars ".*" ++ rest)) with (chr "*" :: rest).
    change (isdigit (hd 0 (chr "*" :: rest))) with false. change (hd 0 (chr "*" :: rest) =? chr "*") with true. cbn match. cbn [mbind option_bind tl].
    eexists. split; [done|]. destruct (Z.ltb_spec (int32 v) 0); lia.
Qed.
(** The character of the conversion, and what comes before it. *)
Lemma conversion_behind c rest : conversion_ok c -> behind "-+ #0123456789*.hl" (render_conversion c :: rest).
Proof.
  intros Hok. exists (render_conversion c), rest. split; [done|]. destruct c as [| | | | | | | | |c]; cbn [conversion_ok render_conversion] in *.
  10: { split; [apply Hok|]. eapply outside_less; [|apply Hok]. done. }
  all: split; [by vm_compute|apply (bool_decide_unpack _); by vm_compute].
Qed.
Lemma qualifier_behind q c rest : conversion_ok c -> behind "-+ #0123456789*." (render_qualifier q ++ render_conversion c :: rest).
Proof.
  intros Hok. destruct q; [by eapply behind_less; [|by apply conversion_behind]|..].
  all: eexists _, _; split; [reflexivity|]; split; [by vm_compute|apply (bool_decide_unpack _); by vm_compute].
Qed.
Lemma precision_behind p rest : behind "-+ #0123456789*." rest -> behind "-+ #0123456789*" (render_precision p ++ rest).
Proof.
  intros H. destruct p; [by eapply behind_less; [|exact H]|..].
  all: eexists (chr "."), _; split; [reflexivity|]; split; [by vm_compute|apply (bool_decide_unpack _); by vm_compute].
Qed.
Lemma width_behind w rest : width_ok w -> behind "-+ #0123456789*" rest -> behind "-+ #0" (render_width w ++ rest).
Proof.
  intros Hok H. destruct w as [|n|]; [by eapply behind_less; [|exact H]| |].
  - destruct (numeral_head n) as (d & ds & E & Hd); [cbn in Hok; lia|]. cbn [render_width]. rewrite E.
    eexists (chr "0" + d), _. split; [reflexivity|]. split; [change (0 < 48 + d < 256); lia|by apply digit_outside].
  - eexists (chr "*"), _. split; [reflexivity|]. split; [by vm_compute|apply (bool_decide_unpack _); by vm_compute].
Qed.
Lemma qualifier_read q c rest : conversion_ok c ->
  parse_qualifier (render_qualifier q ++ render_conversion c :: rest) = (hd 0 (render_qualifier q), render_conversion c :: rest).
Proof.
  intros Hok. pose proof (conversion_behind c rest Hok) as H. destruct q; try done. unfold parse_qualifier. cbn [render_qualifier app].
  by rewrite (behind_eqb _ "h" _ H), (behind_eqb _ "l" _ H).
Qed.

(** ** Converting *)
Lemma input_of fs fl lf extra b alphabet signed num x :
  flags_read fs fl lf -> has extra SIGN = signed -> has extra PLUS = false -> has extra SPACE = false -> has extra LEFT = false ->
  alphabet_of alphabet b (has extra LARGE) ->
  (if signed then num = x /\ - 2 ^ 31 <= x < 2 ^ 31 else num = int32 x /\ 0 <= x < 2 ^ 32) ->
  number_input fs (Z.lor fl extra) num b lf (bool_decide (Zero ∈ fs) || has extra ZEROPAD) alphabet signed x.
Proof.
  intros [Hl Ho] X1 X2 X3 X4 Ha Hn. assert (forall mask, has LEFT mask = false -> has (Z.lor fl extra) mask = has (flag_bits fs) mask || has extra mask) as E.
  { intros mask Hm. by rewrite has_lor_l, Ho. }
  split; rewrite ?has_lor_l; try done.
  - by rewrite Ho, has_conversion_bit by (done || by left).
  - rewrite Ho, X2, orb_false_r by done. apply (has_flag fs Plus).
  - rewrite Ho, X3, orb_false_r by done. apply (has_flag fs Blank).
  - by rewrite X4, orb_false_r.
  - rewrite Ho by done. f_equal. apply (has_flag fs Zero).
  - by rewrite Ho, has_conversion_bit by (done || by right).
Qed.
Lemma char_meaning lf fl w v : has fl LEFT = lf -> char_text v (default (-1) w) fl = field lf (default 0 w) [uint8 v].
Proof.
  intros <-. unfold char_text, field. change (Z.of_nat (Datatypes.length [uint8 v])) with 1. rewrite (fill_ext _ (default (-1) w - 1)) by (destruct w; cbn; lia).
  by destruct (has fl LEFT).
Qed.
Lemma string_meaning lf fl w p p' s : has fl LEFT = lf -> Z.max p' 0 = Z.max p 0 ->
  string_text s (default (-1) w) p' fl = field lf (default 0 w) (let s := default (chars "(NULL)") s in if 0 <? p then take (Z.to_nat p) s else s).
Proof.
  intros <- Hp. unfold string_text, field. cbv zeta. change (chr <$> _) with (chars "(NULL)").
  assert ((if p' >? 0 then take (Z.to_nat p') (default (chars "(NULL)") s) else default (chars "(NULL)") s) =
    (if 0 <? p then take (Z.to_nat p) (default (chars "(NULL)") s) else default (chars "(NULL)") s)) as E.
  { rewrite Z.gtb_ltb. destruct (Z.ltb_spec 0 p'), (Z.ltb_spec 0 p); try done; try lia. by replace p' with p by lia. }
  unfold default, from_option, id in E. rewrite E. set (t := if 0 <? p then _ else _).
  rewrite (fill_ext (default 0 w - _) (default (-1) w - Z.of_nat (Datatypes.length t))) by (destruct w; cbn; lia). by destruct (has fl LEFT).
Qed.
Lemma unsigned_text fs fl lf extra b alphabet q v w p p' :
  flags_read fs fl lf -> has extra SIGN = false -> has extra PLUS = false -> has extra SPACE = false -> has extra LEFT = false ->
  has extra ZEROPAD = false -> alphabet_of alphabet b (has extra LARGE) -> Z.max p' 0 = Z.max p 0 ->
  number_text (get_num (hd 0 (render_qualifier q)) (Z.lor fl extra) v) b (default (-1) w) p' (Z.lor fl extra) =
  number fs lf (bool_decide (Zero ∈ fs)) (default 0 w) p alphabet false (if short q then uint16 v else uint32 v).
Proof.
  intros Hfl X1 X2 X3 X4 X5 Ha Hp.
  rewrite get_num_unsigned by (rewrite has_lor_l, X1, (fr_other _ _ _ Hfl), has_conversion_bit by (done || by left); done).
  apply number_meaning; [|destruct w; cbn; lia|done]. 
  replace (bool_decide (Zero ∈ fs)) with (bool_decide (Zero ∈ fs) || has extra ZEROPAD) by (by rewrite X5, orb_false_r). apply input_of; try done.
  pose proof (uint_range 16 v ltac:(lia)). pose proof (uint_range 32 v ltac:(lia)). cbn match. split; [done|]. destruct (short q); lia.
Qed.
Lemma signed_text fs fl lf q v w p p' : flags_read fs fl lf -> Z.max p' 0 = Z.max p 0 ->
  number_text (get_num (hd 0 (render_qualifier q)) (Z.lor fl SIGN) v) 10 (default (-1) w) p' (Z.lor fl SIGN) =
  number fs lf (bool_decide (Zero ∈ fs)) (default 0 w) p decimal true (if short q then int16 v else int32 v).
Proof.
  intros Hfl Hp. rewrite get_num_signed by (rewrite has_lor_l; apply orb_true_r).
  apply number_meaning; [|destruct w; cbn; lia|done]. rewrite <- (orb_false_r (bool_decide _)).
  apply (input_of fs fl lf SIGN); try done; [apply decimal_alphabet|].
  pose proof (sint_range 16 v ltac:(lia)). pose proof (sint_range 32 v ltac:(lia)). cbn match. split; [done|]. destruct (short q); lia.
Qed.
Lemma pointer_text fs fl lf v w p p' : flags_read fs fl lf -> Z.max p' 0 = Z.max p 0 -> (forall n, w = Some n -> 0 <= n) ->
  (if default (-1) w =? -1 then number_text (int32 v) 16 8 p' (Z.lor fl ZEROPAD) else number_text (int32 v) 16 (default (-1) w) p' fl) =
  number fs lf (bool_decide (Zero ∈ fs) || negb (bool_decide (is_Some w))) (default 8 w) p low_hex false (uint32 v).
Proof.
  intros Hfl Hp Hwn. pose proof (uint_range 32 v ltac:(lia)). destruct w as [n|]; cbn [default from_option id].
  - pose proof (Hwn n eq_refl). destruct (Z.eqb_spec n (-1)); [lia|]. apply number_meaning; [|done|done].
    rewrite (bool_decide_true (is_Some (Some n))) by done. rewrite <- (Z.lor_0_r fl). apply input_of; try done; [apply low_alphabet|]. by rewrite sint_uint.
  - rewrite Z.eqb_refl. apply number_meaning; [|done|done]. rewrite (bool_decide_false (is_Some None)) by (by intros []).
    apply (input_of fs fl lf ZEROPAD); try done; [apply low_alphabet|]. by rewrite sint_uint.
Qed.
Lemma unknown_text c rest args w p fl q : conversion_ok (Unknown c) ->
  conversion_text w p fl q (c :: rest) args = Some ([chr "%"; c], rest, args).
Proof.
  intros [Hc Hn]. unfold conversion_text, int_conversion. cbn [hd tl]. rewrite !(eqb_outside _ c _ Hn) by done. cbn [orb].
  unfold signs. by destruct (Z.eqb_spec c 0); [lia|].
Qed.
#[local] Opaque number_text string_text char_text.
Lemma conversion_read d fl w lf p p' args t args' rest :
  let c := d_conversion d in let fs := d_flags d in
  conversion_ok c -> flags_read fs fl lf -> (forall n, w = Some n -> 0 <= n) -> Z.max p' 0 = Z.max p 0 ->
  conversion_meaning d lf w p args = Some (t, args') ->
  conversion_text (default (-1) w) p' fl (hd 0 (render_qualifier (d_qualifier d))) (render_conversion c :: rest) args = Some (t, rest, args').
Proof.
  intros c fs Hc Hfl Hwn Hp. unfold conversion_meaning. subst c fs. destruct (d_conversion d) as [| | | | | | | | |c] eqn:Ec; cbn [render_conversion].
  10: { intros [= <- <-]. by apply unknown_text. }
  9: { by intros [= <- <-]. }
  all: destruct args as [|[v|s] args]; try done; intros [= <- <-].
  - rewrite <- (signed_text _ fl lf _ v w p p') by done. done.
  - rewrite <- (signed_text _ fl lf _ v w p p') by done. done.
  - rewrite <- (unsigned_text _ fl lf 0 10 decimal _ v w p p') by (done || apply decimal_alphabet). by rewrite Z.lor_0_r.
  - rewrite <- (unsigned_text _ fl lf 0 16 low_hex _ v w p p') by (done || apply low_alphabet). by rewrite Z.lor_0_r.
  - rewrite <- (unsigned_text _ fl lf LARGE 16 up_hex _ v w p p') by (done || apply up_alphabet). done.
  - rewrite <- (char_meaning lf fl w v) by apply Hfl. done.
  - pose proof (string_meaning lf fl w p p' s (fr_left _ _ _ Hfl) Hp) as E. cbv zeta in E |- *. by rewrite <- E.
  - rewrite <- (pointer_text _ fl lf v w p p') by done. done.
Qed.
Lemma directive_read d args t args' rest : piece_ok (Directive d) -> directive_meaning d args = Some (t, args') ->
  directive_text (render_directive d ++ rest) args = Some (t, rest, args').
Proof.
  intros (Hw & Hp & Hc). unfold directive_meaning. destruct (width_meaning d args) as [[[w lf] args1]|] eqn:Ew; [cbn [mbind option_bind]|done].
  destruct (precision_meaning d args1) as [[p args2]|] eqn:Ep; [cbn [mbind option_bind]|done]. intros Hm.
  unfold directive_text, render_directive. rewrite <- !app_assoc. cbn [app].
  pose proof (qualifier_behind (d_qualifier d) _ rest Hc) as B1. pose proof (precision_behind (d_precision d) _ B1) as B2.
  pose proof (width_behind _ _ Hw B2) as B3. rewrite parse_flags_render by done.
  destruct (width_read d args w lf args1 _ Hw ltac:(eapply behind_less; [|exact B2]; done) Ew) as (fl & -> & Hfl & Hwn). cbn [mbind option_bind].
  destruct (precision_read d args1 p args2 _ Hp ltac:(eapply behind_less; [|exact B1]; done) Ep) as (p' & -> & Hpp). cbn [mbind option_bind].
  rewrite qualifier_read by done. by eapply conversion_read.
Qed.
Lemma format_render ps : Forall piece_ok ps -> forall fuel args t, (Datatypes.length (render ps) < fuel)%nat ->
  meaning ps args = Some t -> format_loop fuel (render ps) args = Some t.
Proof.
  induction 1 as [|x ps Hx _ IH]; intros fuel args t Hf Hm; (destruct fuel as [|fuel]; [lia|]); cbn [format_loop meaning] in *.
  - by injection Hm as <-.
  - unfold render in *. cbn [mbind list_bind] in *. fold (render ps) in *. rewrite length_app in Hf. destruct x as [c|d]; cbn [render_piece app Datatypes.length] in *.
    + destruct (meaning ps args) as [out|] eqn:E; [|done]. injection Hm as <-. destruct (Z.eqb_spec c (chr "%")) as [->|]; [by destruct Hx|].
      cbn [negb]. by rewrite (IH fuel args out) by (done || lia).
    + destruct (directive_meaning d args) as [[t1 args1]|] eqn:Ed; [cbn [mbind option_bind] in *|done].
      destruct (meaning ps args1) as [out|] eqn:E; [|done]. injection Hm as <-. rewrite Z.eqb_refl. cbn [negb].
      rewrite (directive_read d args t1 args1) by done. cbn [mbind option_bind]. by rewrite (IH fuel args1 out) by (done || lia).
Qed.

