(* ===== verification/Lock.v ===== *)
(** Semaphores as locks: what taking and releasing one that is free does to the kernel.  The
    allocators of src/memheap.c and src/slab.c share these lemmas. *)
From S2P Require Import Prelude RtList Kernel Scheduler Object TimerCore Invariant Thread Timer Ipc Semaphore.

Section lock.
Context {cfg : Config} {kh : KHeap} {sz : ObjectSizes} {st : StaticThreads}.
Implicit Types (k : kstate) (a : Z).

(** The semaphore at [a] is free and nobody waits for it. *)
Record lock_free k a : Prop := {
  lf_value : sem_value (k_sems k a) = 1;
  lf_empty : rt_list_isempty (k_links (k_core k)) (LSuspend (OSem a)) = true
}.
(** [k'] is [k] with the counter [v] of the lock. *)
Record lock_at k k' a (v : Z) : Prop := {
  la_eq : k' = set_k_sems (k_sems k') k;
  la_sems : forall q, k_sems k' q = if decide (q = a) then mk_sem v else k_sems k q
}.
(** A semaphore that its own contract says is free. *)
Lemma sem_rep_lock_free k L a : sem_rep k L a 1 [] -> lock_free k a.
Proof. intros [S1 S2 S3 S4 S5]. split; [done|]. rewrite (rep_isempty _ _ _ _ (kinv_rep _ _ S1) S4). done. Qed.
Lemma lock_at_refl k a : lock_free k a -> lock_at k k a 1.
Proof. intros [Q1 _]. split; [by destruct k|]. intros q. case_decide as E; [|done]. subst q. rewrite <- Q1. by destruct (k_sems k a). Qed.
Lemma lock_at_free k k' a : lock_free k a -> lock_at k k' a 1 -> lock_free k' a.
Proof. intros [Q1 Q2] [E Hs]. split; [by rewrite Hs, decide_True|by rewrite E]. Qed.
Lemma lock_at_trans k k1 k2 a v w : lock_at k k1 a v -> lock_at k1 k2 a w -> lock_at k k2 a w.
Proof. intros [E1 H1] [E2 H2]. split; [rewrite E2; by rewrite E1|]. intros q. rewrite H2. case_decide; [done|]. by rewrite H1, decide_False. Qed.
(** Another lock is as it was. *)
Lemma lock_at_other k k' a v b : b <> a -> lock_at k k' a v -> lock_free k b -> lock_free k' b.
Proof. intros Hne [E Hs] [Q1 Q2]. split; [by rewrite Hs, decide_False|by rewrite E]. Qed.

Lemma wp_lock_take k a (Q : outcome Z Z -> kstate -> Prop) :
  lock_free k a -> (forall k', lock_at k k' a 0 -> Q (Returned RT_EOK) k') -> wp (rt_sem_take a RT_WAITING_FOREVER) Q k.
Proof.
  intros [Q1 _] HQ. unfold rt_sem_take, sem, mod_sem. do 2 wp1. rewrite Q1. cbn [Z.gtb Z.compare].
  do 2 wp1. wp1. apply HQ. split; [done|]. intros q. cbn. rewrite upd_case.
  destruct (decide (a = q)) as [<-|]; [by rewrite decide_True|by rewrite decide_False].
Qed.
(** A release counts up while nobody waits, whether the lock was held or not. *)
Lemma wp_lock_release k k1 a v (Q : Z -> kstate -> Prop) :
  lock_free k a -> lock_at k k1 a v -> 0 <= v < 65535 -> (forall k2, lock_at k k2 a (v + 1) -> Q RT_EOK k2) -> wp (rt_sem_release a) Q k1.
Proof.
  intros [Q1 Q2] [E Hs] Hv HQ. unfold rt_sem_release, mod_sem. do 2 wp1.
  rewrite E. ksimpl. rewrite Q2. cbn [negb]. wp1. do 2 wp1. wp1. do 2 wp1. wp1. apply HQ. split; [done|].
  intros q. cbn. rewrite upd_case, !Hs, (decide_True (P := a = a)) by done.
  destruct (decide (a = q)) as [<-|]; [|by rewrite !decide_False]. rewrite decide_True by done. cbn. by rewrite uint_small by lia.
Qed.
(** A semaphore that starts at 1. *)
Lemma wp_lock_init k a name (Q : Z -> kstate -> Prop) : (forall k', lock_free k' a -> Q RT_EOK k') -> wp (rt_sem_init a name 1 RT_IPC_FLAG_FIFO) Q k.
Proof.
  intros HQ. unfold rt_sem_init, rt_object_init, rt_ipc_object_init, mod_sem. wp_steps. apply HQ. split.
  - cbn. by rewrite upd_eq.
  - cbn. unfold rt_list_isempty. rewrite bool_decide_eq_true. cbn. by rewrite !upd_eq.
Qed.
End lock.
