(* ===== verification/Resume.v ===== *)
(** Functions that may wait: a call either ends or leaves its thread waiting, with
    what the thread does when the scheduler runs it again. *)
From S2P Require Import Prelude RtList Kservice Kernel Ipc.

(** The result of running until the function returns or calls rt_schedule with its
    own thread suspended. *)
Inductive res (S A : Type) : Type :=
| Done (a : A)
| Wait (t : Z) (k : S -> option (res S A * S)).
Arguments Done {S A} a.
Arguments Wait {S A} t k.

Definition R (S A : Type) : Type := S -> option (res S A * S).
#[global] Instance R_ret S : MRet (R S) := fun A a s => Some (Done a, s).
Fixpoint res_bind {S A B} (f : A -> R S B) (r : res S A) : R S B := fun s =>
  match r with
  | Done a => f a s
  | Wait t k => Some (Wait t (fun s => match k s with Some (r, s') => res_bind f r s' | None => None end), s)
  end.
#[global] Instance R_bind S : MBind (R S) := fun A B f m s =>
  match m s with Some (r, s') => res_bind f r s' | None => None end.
(** A part that does not wait. *)
Definition now {S A} (m : M S A) : R S A := fun s =>
  match m s with Some (a, s') => Some (Done a, s') | None => None end.
(** A call that may wait once, and its second half. *)
Definition await {S P A} (first : M S (outcome P A)) (thread_of : P -> Z) (resumed : P -> M S A) : R S A := fun s =>
  match first s with
  | Some (Returned a, s') => Some (Done a, s')
  | Some (Waiting p, s') => Some (Wait (thread_of p) (now (resumed p)), s')
  | None => None
  end.

Section resume.
Context {S : Type}.

(** [m] ends without waiting. *)
Definition wpr {A} (m : R S A) (Q : A -> S -> Prop) (s : S) : Prop :=
  match m s with Some (Done a, s') => Q a s' | _ => False end.
Lemma wpr_ret {A} (a : A) Q s : Q a s -> wpr (mret a) Q s.
Proof. done. Qed.
Lemma wpr_bind {A B} (m : R S A) (f : A -> R S B) Q s :
  wpr m (fun a s' => wpr (f a) Q s') s -> wpr (mbind f m) Q s.
Proof. unfold wpr, mbind, R_bind. destruct (m s) as [[[a|t k] s']|]; done. Qed.
Lemma wpr_now {A} (m : M S A) Q s : wp m Q s -> wpr (now m) Q s.
Proof. unfold wp, wpr, now. by destruct (m s) as [[a s']|]. Qed.
Lemma wpr_mono {A} (m : R S A) (Q Q' : A -> S -> Prop) s :
  wpr m Q s -> (forall a s', Q a s' -> Q' a s') -> wpr m Q' s.
Proof. unfold wpr. destruct (m s) as [[[a|t k] s']|]; auto. Qed.
Lemma wpr_run {A} (m : R S A) Q s : wpr m Q s <-> exists a s', m s = Some (Done a, s') /\ Q a s'.
Proof.
  unfold wpr. destruct (m s) as [[[a|t k] s']|]; split; try done; eauto.
  - by intros (? & ? & [= -> ->] & ?).
  - by intros (? & ? & ? & ?).
  - by intros (? & ? & ? & ?).
Qed.
Lemma wpr_await {P A} (first : M S (outcome P A)) thread_of resumed Q s :
  wp first (fun r s' => match r with Returned a => Q a s' | Waiting _ => False end) s ->
  wpr (await first thread_of resumed) Q s.
Proof. unfold wp, wpr, await. destruct (first s) as [[[a|p] s']|]; done. Qed.

(** [m] stops: an assertion fails. *)
Definition stops {A} (m : R S A) (s : S) : Prop := m s = None.
Lemma stops_here {A B} (m : R S A) (f : A -> R S B) s : stops m s -> stops (mbind f m) s.
Proof. unfold stops, mbind, R_bind. by intros ->. Qed.
Lemma stops_later {A B} (m : R S A) (f : A -> R S B) s : wpr m (fun a s' => stops (f a) s') s -> stops (mbind f m) s.
Proof. unfold stops, wpr, mbind, R_bind. destruct (m s) as [[[a|t k] s']|]; done. Qed.
End resume.
Ltac wpr1 :=
  lazymatch goal with
  | |- wpr (mbind _ _) _ _ => apply wpr_bind
  | |- wpr (mret _) _ _ => apply wpr_ret
  | |- wpr (now _) _ _ => apply wpr_now
  end; cbn beta iota.
