(* ===== verification/SysHeap.v ===== *)
(** The heap of the system as its users see it: rt_malloc, rt_free and the bytes of memory,
    with what the allocators promise about them.  Users of the heap are proved against this
    interface, and the allocators implement it. *)
From S2P Require Import Prelude MemOps Kernel Resume.

(** Pointers are addresses, 0 for RT_NULL. *)
Class SystemHeap (S : Type) := {
  sys_malloc : Z -> R S Z;
  sys_free : Z -> R S unit;
  sys_bytes : S -> memory;
  set_sys_bytes : memory -> S -> S
}.

(** [heap_live V a n]: in the view [V] of a heap a block of [n] bytes is granted at [a];
    [heap_range V] is the memory that the heap manages.  A request that fails promises no
    more than it leaves the bytes alone: the lock of the heap may be broken after it
    ([WitnessesSlab.slab_fail_releases_twice]). *)
Class HeapLaws (S : Type) {H : SystemHeap S} := {
  heap_view : Type;
  heap_rep : S -> heap_view -> Prop;
  heap_live : heap_view -> Z -> Z -> Prop;
  heap_range : heap_view -> Z -> Prop;
  malloc_law s V n (Q : Z -> S -> Prop) : heap_rep s V -> 0 <= n <= 2 ^ 31 ->
    (forall s', sys_bytes s' = sys_bytes s -> Q 0 s') ->
    (forall a m V' s', heap_rep s' V' -> a <> 0 -> n <= m -> (forall b k, heap_live V' b k <-> heap_live V b k \/ b = a /\ k = m) ->
       (forall k, ~ heap_live V a k) -> (forall x, heap_range V' x <-> heap_range V x) -> sys_bytes s' = sys_bytes s -> Q a s') ->
    wpr (sys_malloc n) Q s;
  free_law s V a n (Q : unit -> S -> Prop) : heap_rep s V -> heap_live V a n ->
    (forall V' s', heap_rep s' V' -> (forall b k, heap_live V' b k <-> heap_live V b k /\ b <> a) ->
       (forall x, heap_range V' x <-> heap_range V x) -> sys_bytes s' = sys_bytes s -> Q tt s') ->
    wpr (sys_free a) Q s;
  live_bounds s V a n : heap_rep s V -> heap_live V a n -> 0 < a /\ 0 < n /\ a mod 4 = 0 /\ a + n <= 2 ^ 32;
  live_in_range s V a n x : heap_rep s V -> heap_live V a n -> a <= x < a + n -> heap_range V x;
  live_apart s V a n b m : heap_rep s V -> heap_live V a n -> heap_live V b m -> a = b /\ n = m \/ a + n <= b \/ b + m <= a;
  bytes_law v s : sys_bytes (set_sys_bytes v s) = v;
  bytes_frame v s V : heap_rep s V -> heap_rep (set_sys_bytes v s) V
}.

Section system_heap.
Context {S : Type} `{HeapLaws S}.
Implicit Types (s : S) (V : heap_view).

(** Code that works on the bytes. *)
Definition on_bytes {A} (m : M memory A) : R S A := now (fun s =>
  match m (sys_bytes s) with Some (a, v) => Some (a, set_sys_bytes v s) | None => None end).
Lemma wpr_on_bytes {A} (m : M memory A) (Q : A -> S -> Prop) s :
  wp m (fun a v => Q a (set_sys_bytes v s)) (sys_bytes s) -> wpr (on_bytes m) Q s.
Proof. unfold wpr, on_bytes, now, wp. by destruct (m (sys_bytes s)) as [[a v]|]. Qed.

(** Memory that a new block will not touch: in a granted block, or outside the heap. *)
Definition kept_from V (a n : Z) : Prop :=
  (exists b m, heap_live V b m /\ b <= a /\ a + n <= b + m) \/ forall x, a <= x < a + n -> ~ heap_range V x.
(** In [s'] the heap has granted a block of [m >= n] bytes at [a], and nothing else changed. *)
Record new_block s' V V' (a n m : Z) : Prop := {
  nb_rep : heap_rep s' V';
  nb_null : a <> 0;
  nb_size : n <= m;
  nb_live : forall b k, heap_live V' b k <-> heap_live V b k \/ b = a /\ k = m;
  nb_new : forall k, ~ heap_live V a k;
  nb_range : forall x, heap_range V' x <-> heap_range V x
}.
Lemma wpr_sys_malloc s V n (Q : Z -> S -> Prop) : heap_rep s V -> 0 <= n <= 2 ^ 31 ->
  (forall s', sys_bytes s' = sys_bytes s -> Q 0 s') ->
  (forall a m V' s', new_block s' V V' a n m -> sys_bytes s' = sys_bytes s -> Q a s') -> wpr (sys_malloc n) Q s.
Proof. intros Hs Hn HN HS. eapply malloc_law; [exact Hs|exact Hn|exact HN|]. intros a m V' s' H1 H2 H3 H4 H5 H6 H7. apply (HS a m V'); [by split|done]. Qed.
Lemma new_block_granted s' V V' a n m : new_block s' V V' a n m -> heap_live V' a m.
Proof. intros H'. apply (nb_live _ _ _ _ _ _ H'). by right. Qed.
Lemma new_block_bytes v s' V V' a n m : new_block s' V V' a n m -> new_block (set_sys_bytes v s') V V' a n m.
Proof. intros [H1 H2 H3 H4 H5 H6]. split; try done. by apply bytes_frame. Qed.
(** What was kept from the heap shares no byte with the new block. *)
Lemma new_block_apart s' V V' a k m b n : new_block s' V V' a k m -> 0 < n -> kept_from V b n -> a + m <= b \/ b + n <= a.
Proof.
  intros Hb Hn Hk. pose proof (new_block_granted _ _ _ _ _ _ Hb) as Ha. destruct Hb as [Hs' _ _ HV Hnew Hr]. destruct Hk as [(c & j & Hc & H1 & H2)|Hk].
  - assert (heap_live V' c j) as Hc' by (apply HV; by left). destruct (live_apart s' V' a m c j Hs' Ha Hc') as [[-> ->]|?]; [by destruct (Hnew j)|lia].
  - destruct (decide (a + m <= b \/ b + n <= a)) as [|Hno]; [done|]. pose proof (live_bounds s' V' a m Hs' Ha). exfalso.
    apply (Hk (Z.max a b)); [lia|]. apply Hr. eapply live_in_range; [exact Hs'|exact Ha|lia].
Qed.
End system_heap.
