(* ===== verification/HeapUse.v ===== *)
(** What src/kservice.c builds on the heap: rt_strdup, and aligned blocks (rt_malloc_align and
    rt_free_align). *)
From S2P Require Import Prelude MemOps Kernel Resume SysHeap.

(** A word of memory, the least significant byte first. *)
Definition load_word (a : Z) (m : memory) : Z := m a + 256 * m (a + 1) + 65536 * m (a + 2) + 16777216 * m (a + 3).

Section heap_use.
Context {cfg : Config} {S : Type} {sh : SystemHeap S}.

(** rt_strlen on the bytes of the heap; [None] is a string longer than [loop_fuel]. *)
Definition string_length (s : Z) : R S Z :=
  on_bytes (fun m => match rt_strlen loop_fuel s m with Some n => Some (n, m) | None => None end).
Definition rt_strdup (s : Z) : R S Z :=
  n ← string_length s;
  let len := uint32 (n + 1) in
  tmp ← sys_malloc len;
  if tmp =? 0 then mret 0
  else
    on_bytes (modify (rt_memcpy tmp s len)) ;;
    mret tmp.

(** Where the aligned block of a block at [ptr] starts: at least a word behind it. *)
Definition align_up (ptr align : Z) : Z :=
  if Z.land ptr (align - 1) =? 0 then uint32 (ptr + align)
  else Z.land (uint32 (ptr + (align - 1))) (Z.lnot (align - 1)).
Definition rt_malloc_align (size align : Z) : R S Z :=
  let align := Z.land (uint32 (align + 3)) (Z.lnot 3) in
  let align_size := uint32 (Z.land (uint32 (size + 3)) (Z.lnot 3) + align) in
  ptr ← sys_malloc align_size;
  if negb (ptr =? 0) then
    let align_ptr := align_up ptr align in
    on_bytes (modify (store_word (align_ptr - 4) ptr)) ;;
    mret align_ptr
  else mret ptr.
Definition rt_free_align (ptr : Z) : R S unit :=
  real_ptr ← on_bytes (gets (load_word (ptr - 4)));
  sys_free real_ptr.
End heap_use.

Lemma store_word_at a v m x : store_word a v m x = if decide (a <= x < a + 4) then word_byte v (x - a) else m x.
Proof.
  unfold store_word. rewrite !upd_case. repeat case_decide; try lia; try done; f_equal; lia.
Qed.
Lemma load_store_word a v m : 0 <= v < 2 ^ 32 -> load_word a (store_word a v m) = v.
Proof.
  intros Hv. unfold load_word. rewrite !store_word_at, !decide_True by lia. unfold word_byte.
  rewrite !Z.shiftr_div_pow2 by lia. change 255 with (Z.ones 8). rewrite !Z.land_ones by lia.
  replace (a - a) with 0 by lia. replace (a + 1 - a) with 1 by lia. replace (a + 2 - a) with 2 by lia. replace (a + 3 - a) with 3 by lia.
  change (2 ^ (8 * 0)) with 1. change (2 ^ (8 * 1)) with 256. change (2 ^ (8 * 2)) with 65536. change (2 ^ (8 * 3)) with 16777216. change (2 ^ 8) with 256 in *.
  change (2 ^ 32) with 4294967296 in Hv. Z.div_mod_to_equations. lia.
Qed.

(** Powers of two as masks. *)
Lemma land_mask x k : 0 <= k -> Z.land x (2 ^ k - 1) = x mod 2 ^ k.
Proof. intros Hk. replace (2 ^ k - 1) with (Z.ones k) by (rewrite Z.ones_equiv; lia). by apply Z.land_ones. Qed.
Lemma land_round x k : 0 <= k -> Z.land x (Z.lnot (2 ^ k - 1)) = x - x mod 2 ^ k.
Proof.
  intros Hk. rewrite <- Z.ldiff_land. replace (2 ^ k - 1) with (Z.ones k) by (rewrite Z.ones_equiv; lia).
  rewrite Z.ldiff_ones_r, Z.shiftl_mul_pow2, Z.shiftr_div_pow2 by lia. pose proof (Z.div_mod x (2 ^ k)). lia.
Qed.
Lemma round_word x : Z.land x (Z.lnot 3) = x - x mod 4.
Proof. exact (land_round x 2 ltac:(lia)). Qed.
(** The aligned block has a word in front of it and room for the request. *)
Lemma align_up_spec ptr k : 2 <= k -> 0 < ptr -> ptr mod 4 = 0 -> ptr + 2 ^ k < 2 ^ 32 ->
  ptr + 4 <= align_up ptr (2 ^ k) <= ptr + 2 ^ k /\ align_up ptr (2 ^ k) mod 2 ^ k = 0.
Proof.
  intros Hk Hp H4 Hm. pose proof (Z.pow_pos_nonneg 2 k). assert (2 ^ k = 4 * 2 ^ (k - 2)) as E by (rewrite <- (Z.pow_add_r 2 2) by lia; f_equal; lia).
  assert (0 < 2 ^ (k - 2)) as Hk2 by (apply Z.pow_pos_nonneg; lia).
  unfold align_up. rewrite land_mask by lia. destruct (Z.eqb_spec (ptr mod 2 ^ k) 0) as [E0|E0].
  - rewrite uint_small by lia. split; [lia|]. rewrite Z.add_mod, E0, Z.mod_same by lia. apply Z.mod_0_l. lia.
  - rewrite uint_small, land_round by lia. set (n := 2 ^ k) in *. pose proof (Z.mod_pos_bound ptr n ltac:(lia)) as Hb. pose proof (Z.div_mod ptr n ltac:(lia)) as Hd.
    assert (ptr mod n = 4 * (ptr mod n / 4)) as E4.
    { assert ((ptr mod n) mod 4 = 0) as Hm4; [|pose proof (Z.div_mod (ptr mod n) 4); lia].
      rewrite (Z.mod_eq ptr n), E by lia. replace (ptr - 4 * 2 ^ (k - 2) * (ptr / (4 * 2 ^ (k - 2)))) with (ptr + (- (2 ^ (k - 2) * (ptr / (4 * 2 ^ (k - 2))))) * 4) by lia.
      by rewrite Z.mod_add. }
    assert ((ptr + (n - 1)) mod n = ptr mod n - 1) as ->.
    { symmetry. apply (Z.mod_unique _ _ (ptr / n + 1)); lia. }
    split; [lia|]. replace (ptr + (n - 1) - (ptr mod n - 1)) with ((ptr / n + 1) * n) by lia. apply Z.mod_mul. lia.
Qed.

Section heap_use_spec.
Context {cfg : Config} {S : Type} {sh : SystemHeap S} {hl : HeapLaws S}.
Implicit Types (s : S).

Lemma wpr_string_length s p str (Q : Z -> S -> Prop) : string_at (sys_bytes s) p str -> (length str < loop_fuel)%nat ->
  (forall s', s' = set_sys_bytes (sys_bytes s) s -> Q (Z.of_nat (length str)) s') -> wpr (string_length p) Q s.
Proof. intros Hs Hf HQ. apply wpr_on_bytes. unfold wp. rewrite (rt_strlen_length _ _ str) by done. by apply HQ. Qed.

(** The new string is in a block of its own; no other byte has changed. *)
Record duplicated s s' (V V' : heap_view) (r : Z) (str : list Z) : Prop := {
  du_block : exists m, new_block s' V V' r (Z.of_nat (length str) + 1) m;
  du_string : string_at (sys_bytes s') r str;
  du_bytes : forall x, ~ r <= x < r + Z.of_nat (length str) + 1 -> sys_bytes s' x = sys_bytes s x
}.
Lemma wpr_strdup s V p str (Q : Z -> S -> Prop) : heap_rep s V -> string_at (sys_bytes s) p str -> kept_from V p (Z.of_nat (length str) + 1) ->
  (length str < loop_fuel)%nat -> Z.of_nat (length str) < 2 ^ 31 -> (forall s', sys_bytes s' = sys_bytes s -> Q 0 s') ->
  (forall r V' s', duplicated s s' V V' r str -> r <> 0 -> Q r s') -> wpr (rt_strdup p) Q s.
Proof.
  intros Hs Hp Hk Hf Hl HN HS. unfold rt_strdup. wpr1. eapply wpr_string_length; [done..|]. intros s1 ->.
  rewrite uint_small by lia. wpr1. eapply wpr_sys_malloc; [by apply bytes_frame|lia|..].
  - intros s2 E. rewrite bytes_law in E. rewrite Z.eqb_refl. wpr1. by apply HN.
  - intros a m V' s2 Hb E. rewrite bytes_law in E. pose proof (nb_null _ _ _ _ _ _ Hb) as Ha. apply Z.eqb_neq in Ha as Ha'. rewrite Ha'. wpr1. apply wpr_on_bytes. wp1. wpr1.
    pose proof (new_block_apart _ _ _ _ _ _ p (Z.of_nat (length str) + 1) Hb ltac:(lia) Hk) as Hap. pose proof (nb_size _ _ _ _ _ _ Hb) as Hm.
    assert (forall x, sys_bytes (set_sys_bytes (rt_memcpy a p (Z.of_nat (length str) + 1) (sys_bytes s2)) s2) x =
      if decide (a <= x < a + (Z.of_nat (length str) + 1)) then sys_bytes s (p + (x - a)) else sys_bytes s x) as Eb.
    { intros x. rewrite bytes_law, rt_memcpy_copies by lia. by rewrite E. }
    apply (HS a V'); [|done]. split.
    + exists m. by apply new_block_bytes.
    + eapply string_at_ext; [|exact Hp]. intros i Hi. rewrite Eb, decide_True by lia. f_equal. lia.
    + intros x Hx. rewrite Eb, decide_False by lia. done.
Qed.
(** rt_strdup returns RT_NULL, or a block of its own with the same string in it. *)
Theorem rt_strdup_copies s V p str : heap_rep s V -> string_at (sys_bytes s) p str -> kept_from V p (Z.of_nat (length str) + 1) ->
  (length str < loop_fuel)%nat -> Z.of_nat (length str) < 2 ^ 31 ->
  exists r s', rt_strdup p s = Some (Done r, s') /\ (r = 0 /\ sys_bytes s' = sys_bytes s \/ r <> 0 /\ exists V', duplicated s s' V V' r str).
Proof.
  intros Hs Hp Hk Hf Hl. apply wpr_run. eapply wpr_strdup; [done..| |]; [by left|]. intros r V' s' Hd Hr. right. split; [done|]. by exists V'.
Qed.

(** *** Aligned blocks *)
(** An aligned block of [size] bytes at [r], inside a block at [a]. *)
Record aligned_block s s' (V V' : heap_view) (r size align a : Z) : Prop := {
  ab_block : exists m, new_block s' V V' a (r + size - a) m;
  ab_aligned : r mod align = 0;
  ab_before : a + 4 <= r;
  ab_word : load_word (r - 4) (sys_bytes s') = a;
  ab_bytes : forall x, ~ r - 4 <= x < r -> sys_bytes s' x = sys_bytes s x
}.
Lemma wpr_malloc_align s V size k (Q : Z -> S -> Prop) : heap_rep s V -> 2 <= k -> 0 < size -> size + 3 + 2 ^ k <= 2 ^ 31 ->
  (forall s', sys_bytes s' = sys_bytes s -> Q 0 s') ->
  (forall r a V' s', aligned_block s s' V V' r size (2 ^ k) a -> r <> 0 -> Q r s') -> wpr (rt_malloc_align size (2 ^ k)) Q s.
Proof.
  intros Hs Hk Hsz Hsum HN HS. unfold rt_malloc_align. pose proof (Z.pow_pos_nonneg 2 k ltac:(lia) ltac:(lia)) as Hn.
  assert ((2 ^ k) mod 4 = 0) as Hn4 by (replace k with (k - 2 + 2) by lia; rewrite Z.pow_add_r by lia; apply Z.mod_mul; lia).
  assert (Z.land (uint32 (2 ^ k + 3)) (Z.lnot 3) = 2 ^ k) as ->.
  { rewrite uint_small, round_word by lia. rewrite (Z.add_mod (2 ^ k) 3), Hn4 by lia. change ((0 + 3 mod 4) mod 4) with 3. lia. }
  rewrite (uint_small 32 (size + 3)), round_word by lia. pose proof (Z.mod_pos_bound (size + 3) 4 ltac:(lia)) as Hm.
  rewrite uint_small by lia. wpr1. eapply wpr_sys_malloc; [exact Hs|lia| |].
  - intros s1 E. cbn [negb Z.eqb]. wpr1. by apply HN.
  - intros a m V' s1 Hb E. pose proof (nb_null _ _ _ _ _ _ Hb) as Ha. apply Z.eqb_neq in Ha. rewrite Ha. cbn [negb].
    pose proof (new_block_granted _ _ _ _ _ _ Hb) as Hg. pose proof (live_bounds _ _ _ _ (nb_rep _ _ _ _ _ _ Hb) Hg) as (B1 & B2 & B3 & B4).
    pose proof (nb_size _ _ _ _ _ _ Hb) as Hsm. destruct (decide (a + 2 ^ k < 2 ^ 32)) as [Hlt|]; [|lia].
    destruct (align_up_spec a k Hk B1 B3 Hlt) as [[R1 R2] R3]. set (r := align_up a (2 ^ k)) in *. wpr1. apply wpr_on_bytes. wp1. wpr1.
    apply (HS r a V'); [|lia]. apply (new_block_bytes (store_word (r - 4) a (sys_bytes s1))) in Hb. split; rewrite ?bytes_law.
    + exists m. destruct Hb. split; try done. lia.
    + done.
    + lia.
    + apply load_store_word. lia.
    + intros x Hx. rewrite store_word_at, decide_False, E by lia. done.
Qed.
Lemma wpr_free_align s V r a m (Q : unit -> S -> Prop) : heap_rep s V -> heap_live V a m -> load_word (r - 4) (sys_bytes s) = a ->
  (forall V' s', heap_rep s' V' -> (forall b k, heap_live V' b k <-> heap_live V b k /\ b <> a) -> (forall x, heap_range V' x <-> heap_range V x) ->
     sys_bytes s' = sys_bytes s -> Q tt s') -> wpr (rt_free_align r) Q s.
Proof.
  intros Hs Ha Hw HQ. unfold rt_free_align. wpr1. apply wpr_on_bytes. wp1. rewrite Hw. eapply free_law; [by apply bytes_frame|exact Ha|].
  intros V' s' H1 H2 H3 H4. rewrite bytes_law in H4. by eapply HQ.
Qed.

(** A block from rt_malloc_align is aligned to the power of two that was asked for, lies
    inside a block that was not granted before, and whatever its owner writes into its
    [size] bytes, rt_free_align gives the heap back as it was. *)
Theorem rt_malloc_align_free s V size k r s1 : heap_rep s V -> 2 <= k -> 0 < size -> size + 3 + 2 ^ k <= 2 ^ 31 ->
  rt_malloc_align size (2 ^ k) s = Some (Done r, s1) -> r <> 0 ->
  r mod 2 ^ k = 0 /\
  (exists a m V1, heap_rep s1 V1 /\ (forall b j, heap_live V1 b j <-> heap_live V b j \/ b = a /\ j = m) /\ (forall j, ~ heap_live V a j) /\ a + 4 <= r /\ r + size <= a + m) /\
  forall v, (forall x, ~ r <= x < r + size -> v x = sys_bytes s1 x) ->
    exists s2 V2, rt_free_align r (set_sys_bytes v s1) = Some (Done tt, s2) /\ heap_rep s2 V2 /\ (forall b j, heap_live V2 b j <-> heap_live V b j) /\ sys_bytes s2 = v.
Proof.
  intros Hs Hk Hsz Hsum E Hr. assert (wpr (rt_malloc_align size (2 ^ k)) (fun r s1 => r <> 0 -> exists a V1, aligned_block s s1 V V1 r size (2 ^ k) a) s) as Hw.
  { eapply wpr_malloc_align; [done..| |]; [by intros|]. intros r' a V' s' Ha _ _. by exists a, V'. }
  unfold wpr in Hw. rewrite E in Hw. destruct (Hw Hr) as (a & V1 & [(m & Hb) Hal Hbe Hwd Hby]). destruct Hb as [B1 B2 B3 B4 B5 B6].
  split; [done|]. split; [exists a, m, V1; split_and!; try done; lia|]. intros v Hv.
  assert (wpr (rt_free_align r) (fun _ s2 => exists V2, heap_rep s2 V2 /\ (forall b j, heap_live V2 b j <-> heap_live V b j) /\ sys_bytes s2 = v) (set_sys_bytes v s1)) as Hf.
  { apply (wpr_free_align _ V1 r a m); [by apply bytes_frame|by apply B4; right| |].
    - rewrite bytes_law. etrans; [|exact Hwd]. unfold load_word. rewrite !Hv by lia. done.
    - intros V2 s2 H1 H2 _ H4. rewrite bytes_law in H4. exists V2. split_and!; try done. intros b j. rewrite H2, B4. split; [|].
      + intros [[?|[-> ->]] ?]; done.
      + intros Hbj. split; [by left|]. intros ->. by apply (B5 j). }
  apply wpr_run in Hf as ([] & s2 & E2 & V2 & H1 & H2 & H3). by exists s2, V2.
Qed.
End heap_use_spec.
