(* ===== verification/Mem.v ===== *)
(** The small memory allocator (src/mem.c): a first-fit heap of blocks linked by
    offsets, protected by a semaphore.  Block headers and the bytes of the blocks are
    kept apart; headers are indexed by their offset from heap_ptr, bytes by address. *)
From S2P Require Import Prelude RtList Kservice MemOps Kernel Scheduler Object TimerCore Invariant Thread Timer Ipc Semaphore Resume.

Record heap_mem : Type := mk_heap_mem { hm_magic : Z; hm_used : Z; hm_next : Z; hm_prev : Z }.
Definition set_hm_magic (v : Z) (s : heap_mem) : heap_mem := mk_heap_mem v (hm_used s) (hm_next s) (hm_prev s).
Definition set_hm_used (v : Z) (s : heap_mem) : heap_mem := mk_heap_mem (hm_magic s) v (hm_next s) (hm_prev s).
Definition set_hm_next (v : Z) (s : heap_mem) : heap_mem := mk_heap_mem (hm_magic s) (hm_used s) v (hm_prev s).
Definition set_hm_prev (v : Z) (s : heap_mem) : heap_mem := mk_heap_mem (hm_magic s) (hm_used s) (hm_next s) v.

(** The static variables of mem.c; [heap_end] and [lfree] as offsets. *)
Record heap_state : Type := mk_heap {
  h_ptr : Z;
  h_end : Z;
  h_lfree : Z;
  h_size : Z;                    (* mem_size_aligned *)
  h_used_mem : Z;
  h_max_mem : Z;
  h_node : Z -> heap_mem;
  h_bytes : memory
}.
Definition set_h_lfree (v : Z) (s : heap_state) : heap_state :=
  mk_heap (h_ptr s) (h_end s) v (h_size s) (h_used_mem s) (h_max_mem s) (h_node s) (h_bytes s).
Definition set_h_used_mem (v : Z) (s : heap_state) : heap_state :=
  mk_heap (h_ptr s) (h_end s) (h_lfree s) (h_size s) v (h_max_mem s) (h_node s) (h_bytes s).
Definition set_h_max_mem (v : Z) (s : heap_state) : heap_state :=
  mk_heap (h_ptr s) (h_end s) (h_lfree s) (h_size s) (h_used_mem s) v (h_node s) (h_bytes s).
Definition set_h_node (v : Z -> heap_mem) (s : heap_state) : heap_state :=
  mk_heap (h_ptr s) (h_end s) (h_lfree s) (h_size s) (h_used_mem s) (h_max_mem s) v (h_bytes s).
Definition set_h_bytes (v : memory) (s : heap_state) : heap_state :=
  mk_heap (h_ptr s) (h_end s) (h_lfree s) (h_size s) (h_used_mem s) (h_max_mem s) (h_node s) v.

Section heap_sections.
Context {cfg : Config}.

Definition HEAP_MAGIC : Z := 7840.
Definition MIN_SIZE : Z := 12.
Definition MIN_SIZE_ALIGNED : Z := RT_ALIGN MIN_SIZE RT_ALIGN_SIZE.
(** sizeof(struct heap_mem) is 12: two half words and two sizes. *)
Definition SIZEOF_STRUCT_MEM : Z := RT_ALIGN 12 RT_ALIGN_SIZE.

Definition node (p : Z) : M heap_state heap_mem := gets (fun h => h_node h p).
Definition mod_node (p : Z) (f : heap_mem -> heap_mem) : M heap_state unit :=
  modify (fun h => set_h_node (<[p := f (h_node h p)]> (h_node h)) h).

(** Plugging the hole forward, and backward. *)
Definition plug_next (mem : Z) : M heap_state unit :=
  m ← node mem;
  heap_end ← gets h_end;
  let nmem := hm_next m in
  n ← node nmem;
  if negb (mem =? nmem) && (hm_used n =? 0) && negb (nmem =? heap_end) then
    lfree ← gets h_lfree;
    (if lfree =? nmem then modify (set_h_lfree mem) else mret tt) ;;
    mod_node mem (set_hm_next (hm_next n)) ;;
    n ← node nmem;
    mod_node (hm_next n) (set_hm_prev mem)
  else mret tt.
Definition plug_prev (mem : Z) : M heap_state unit :=
  m ← node mem;
  let pmem := hm_prev m in
  p ← node pmem;
  if negb (pmem =? mem) && (hm_used p =? 0) then
    lfree ← gets h_lfree;
    (if lfree =? mem then modify (set_h_lfree pmem) else mret tt) ;;
    mod_node pmem (set_hm_next (hm_next m)) ;;
    m ← node mem;
    mod_node (hm_next m) (set_hm_prev pmem)
  else mret tt.
Definition plug_holes (mem : Z) : M heap_state unit :=
  m ← node mem;
  heap_end ← gets h_end;
  rt_assert (0 <=? mem) ;;
  rt_assert (mem <? heap_end) ;;
  rt_assert (hm_used m =? 0) ;;
  plug_next mem ;;
  plug_prev mem.

(** [used_mem += n] and the maximum. *)
Definition count_used (n : Z) : M heap_state unit :=
  modify (fun h => set_h_used_mem (uint32 (h_used_mem h + n)) h) ;;
  modify (fun h => if h_max_mem h <? h_used_mem h then set_h_max_mem (h_used_mem h) h else h).

(** [while (lfree->used && lfree != heap_end) lfree = lfree->next;] *)
Fixpoint advance_lfree (fuel : nat) : M heap_state unit :=
  match fuel with
  | O => diverge
  | S fuel =>
    lfree ← gets h_lfree;
    heap_end ← gets h_end;
    m ← node lfree;
    if negb (hm_used m =? 0) && negb (lfree =? heap_end) then
      modify (set_h_lfree (hm_next m)) ;; advance_lfree fuel
    else mret tt
  end.
(** Every block is at least one byte long, so a walk visits at most that many. *)
Definition heap_fuel (h : heap_state) : nat := S (S (Z.to_nat (h_end h))).

(** The block [ptr] fits: it is split, or taken as it is. *)
Definition malloc_headers (ptr size : Z) : M heap_state unit :=
  m ← node ptr;
  msize ← gets h_size;
  (if uint32 (hm_next m - (ptr + SIZEOF_STRUCT_MEM)) >=? size + SIZEOF_STRUCT_MEM + MIN_SIZE_ALIGNED then
     let ptr2 := ptr + SIZEOF_STRUCT_MEM + size in
     mod_node ptr2 (set_hm_used 0) ;;
     mod_node ptr2 (set_hm_next (hm_next m)) ;;
     mod_node ptr2 (set_hm_prev ptr) ;;
     mod_node ptr (set_hm_next ptr2) ;;
     mod_node ptr (set_hm_used 1) ;;
     m2 ← node ptr2;
     (if negb (hm_next m2 =? msize + SIZEOF_STRUCT_MEM) then mod_node (hm_next m2) (set_hm_prev ptr2) else mret tt) ;;
     count_used (size + SIZEOF_STRUCT_MEM)
   else
     mod_node ptr (set_hm_used 1) ;;
     m ← node ptr;
     count_used (hm_next m - ptr)) ;;
  mod_node ptr (set_hm_magic HEAP_MAGIC).
(** Then the lowest free block is found again, if it was this one. *)
Definition malloc_take (ptr size : Z) : M heap_state unit :=
  malloc_headers ptr size ;;
  lfree ← gets h_lfree;
  if ptr =? lfree then
    fuel ← gets heap_fuel;
    advance_lfree fuel ;;
    lfree ← gets h_lfree;
    heap_end ← gets h_end;
    m ← node lfree;
    rt_assert ((lfree =? heap_end) || (hm_used m =? 0))
  else mret tt.

(** The search: the offset of the block taken, if any. *)
Fixpoint malloc_scan (fuel : nat) (ptr size : Z) : M heap_state (option Z) :=
  match fuel with
  | O => diverge
  | S fuel =>
    msize ← gets h_size;
    if ptr <? uint32 (msize - size) then
      m ← node ptr;
      if (hm_used m =? 0) && (uint32 (hm_next m - (ptr + SIZEOF_STRUCT_MEM)) >=? size) then
        malloc_take ptr size ;; mret (Some ptr)
      else malloc_scan fuel (hm_next m) size
    else mret None
  end.
Definition malloc_section (size : Z) : M heap_state (option Z) :=
  lfree ← gets h_lfree;
  fuel ← gets heap_fuel;
  malloc_scan fuel lfree size.
(** The assertions of rt_malloc on the block it returns. *)
Definition malloc_asserts (mem size : Z) : M heap_state unit :=
  base ← gets h_ptr;
  heap_end ← gets h_end;
  rt_assert (uint32 (base + mem + SIZEOF_STRUCT_MEM + size) <=? base + heap_end) ;;
  rt_assert ((base + mem + SIZEOF_STRUCT_MEM) mod RT_ALIGN_SIZE =? 0) ;;
  rt_assert (Z.land (base + mem) (RT_ALIGN_SIZE - 1) =? 0).

(** The critical section of rt_free on the block [mem]. *)
Definition free_section (mem : Z) : M heap_state unit :=
  m ← node mem;
  rt_assert (negb (hm_used m =? 0)) ;;
  rt_assert (hm_magic m =? HEAP_MAGIC) ;;
  mod_node mem (set_hm_used 0) ;;
  mod_node mem (set_hm_magic 0) ;;
  lfree ← gets h_lfree;
  (if mem <? lfree then modify (set_h_lfree mem) else mret tt) ;;
  m ← node mem;
  modify (fun h => set_h_used_mem (uint32 (h_used_mem h - (hm_next m - mem))) h) ;;
  plug_holes mem.

(** The split of rt_realloc. *)
Definition realloc_shrink (ptr size newsize : Z) : M heap_state unit :=
  modify (fun h => set_h_used_mem (uint32 (h_used_mem h - (size - newsize))) h) ;;
  let ptr2 := ptr + SIZEOF_STRUCT_MEM + newsize in
  m ← node ptr;
  msize ← gets h_size;
  mod_node ptr2 (set_hm_magic HEAP_MAGIC) ;;
  mod_node ptr2 (set_hm_used 0) ;;
  mod_node ptr2 (set_hm_next (hm_next m)) ;;
  mod_node ptr2 (set_hm_prev ptr) ;;
  mod_node ptr (set_hm_next ptr2) ;;
  m2 ← node ptr2;
  (if negb (hm_next m2 =? msize + SIZEOF_STRUCT_MEM) then mod_node (hm_next m2) (set_hm_prev ptr2) else mret tt) ;;
  plug_holes ptr2.
End heap_sections.

(** This allocator as the heap of the kernel: without contention the semaphore does
    not matter, and the assertions of rt_malloc and rt_free hold (proved below). *)
Definition malloc_size {cfg : Config} (size : Z) : Z :=
  let size := RT_ALIGN size RT_ALIGN_SIZE in if size <? MIN_SIZE_ALIGNED then MIN_SIZE_ALIGNED else size.
Definition small_malloc {cfg : Config} (h : heap_state) (size : Z) : option Z * heap_state :=
  if size =? 0 then (None, h)
  else if RT_ALIGN size RT_ALIGN_SIZE >? h_size h then (None, h)
  else
    match malloc_section (malloc_size size) h with
    | Some (Some mem, h') => (Some (h_ptr h + mem + SIZEOF_STRUCT_MEM), h')
    | Some (None, h') => (None, h')
    | None => (None, h)
    end.
Definition small_free {cfg : Config} (h : heap_state) (rmem : Z) : heap_state :=
  match free_section (rmem - h_ptr h - SIZEOF_STRUCT_MEM) h with Some (_, h') => h' | None => h end.
#[global] Instance small_heap {cfg : Config} : KHeap := {|
  heap := heap_state; heap_malloc := small_malloc; heap_free := small_free |}.

(** The address of the static semaphore. *)
Class HeapSem := heap_sem : Z.

Section mem.
Context {cfg : Config} {sz : ObjectSizes} {st : StaticThreads} {hs : HeapSem}.

Definition the_heap (k : kstate) : heap_state := k_heap (k_core k).
Definition on_heap {A} (m : M heap_state A) : M kstate A := fun k =>
  match m (the_heap k) with
  | Some (a, h) => Some (a, set_k_core (set_k_heap h (k_core k)) k)
  | None => None
  end.
Definition take_heap_sem : R kstate Z := await (rt_sem_take heap_sem RT_WAITING_FOREVER) id rt_sem_take_resumed.
Definition release_heap_sem : R kstate Z := now (rt_sem_release heap_sem).

Definition heap_sem_name : list Z := [104; 101; 97; 112].
Definition rt_system_heap_init (begin_addr end_addr : Z) : M kstate unit :=
  let begin_align := RT_ALIGN begin_addr RT_ALIGN_SIZE in
  let end_align := RT_ALIGN_DOWN end_addr RT_ALIGN_SIZE in
  lift RT_DEBUG_NOT_IN_INTERRUPT ;;
  if (end_align >? 2 * SIZEOF_STRUCT_MEM) && (end_align - 2 * SIZEOF_STRUCT_MEM >=? begin_align) then
    let msize := end_align - begin_align - 2 * SIZEOF_STRUCT_MEM in
    let last := msize + SIZEOF_STRUCT_MEM in
    on_heap (modify (fun h => mk_heap begin_align last (h_lfree h) msize (h_used_mem h) (h_max_mem h) (h_node h) (h_bytes h)) ;;
      mod_node 0 (fun _ => mk_heap_mem HEAP_MAGIC 0 last 0) ;;
      mod_node last (fun _ => mk_heap_mem HEAP_MAGIC 1 last last)) ;;
    _ ← rt_sem_init heap_sem heap_sem_name 1 RT_IPC_FLAG_FIFO;
    on_heap (modify (set_h_lfree 0))
  else mret tt.

Definition rt_malloc (size : Z) : R kstate (option Z) :=
  now (lift RT_DEBUG_NOT_IN_INTERRUPT) ;;
  if size =? 0 then mret None
  else
    msize ← now (on_heap (gets h_size));
    if RT_ALIGN size RT_ALIGN_SIZE >? msize then mret None
    else
      let size := malloc_size size in
      _ ← take_heap_sem;
      mem ← now (on_heap (malloc_section size));
      _ ← release_heap_sem;
      match mem with
      | None => mret None
      | Some mem =>
        now (on_heap (malloc_asserts mem size)) ;;
        base ← now (on_heap (gets h_ptr));
        mret (Some (base + mem + SIZEOF_STRUCT_MEM))
      end.

Definition in_heap (h : heap_state) (rmem : Z) : bool := (h_ptr h <=? rmem) && (rmem <? h_ptr h + h_end h).
Definition rt_free (rmem : option Z) : R kstate unit :=
  now (lift RT_DEBUG_NOT_IN_INTERRUPT) ;;
  match rmem with
  | None => mret tt
  | Some rmem =>
    now (rt_assert (Z.land rmem (RT_ALIGN_SIZE - 1) =? 0)) ;;
    inside ← now (on_heap (gets (fun h => in_heap h rmem)));
    now (rt_assert inside) ;;
    if negb inside then mret tt
    else
      base ← now (on_heap (gets h_ptr));
      _ ← take_heap_sem;
      now (on_heap (free_section (rmem - base - SIZEOF_STRUCT_MEM))) ;;
      _ ← release_heap_sem;
      mret tt
  end.

(** The branch that moves the block: rt_malloc, rt_memcpy, rt_free. *)
Definition realloc_move (rmem size newsize : Z) : R kstate (option Z) :=
  nmem ← rt_malloc newsize;
  match nmem with
  | None => mret None
  | Some nmem =>
    now (on_heap (modify (fun h => set_h_bytes (rt_memcpy nmem rmem (if size <? newsize then size else newsize) (h_bytes h)) h))) ;;
    rt_free (Some rmem) ;;
    mret (Some nmem)
  end.
Definition rt_realloc (rmem : option Z) (newsize : Z) : R kstate (option Z) :=
  now (lift RT_DEBUG_NOT_IN_INTERRUPT) ;;
  let newsize := RT_ALIGN newsize RT_ALIGN_SIZE in
  msize ← now (on_heap (gets h_size));
  if newsize >? msize then mret None
  else
    match rmem with
    | None => rt_malloc newsize
    | Some rmem =>
      _ ← take_heap_sem;
      inside ← now (on_heap (gets (fun h => in_heap h rmem)));
      if negb inside then _ ← release_heap_sem; mret (Some rmem)
      else
        base ← now (on_heap (gets h_ptr));
        let ptr := rmem - SIZEOF_STRUCT_MEM - base in
        m ← now (on_heap (node ptr));
        let size := uint32 (hm_next m - ptr - SIZEOF_STRUCT_MEM) in
        if size =? newsize then _ ← release_heap_sem; mret (Some rmem)
        else if newsize + SIZEOF_STRUCT_MEM + MIN_SIZE <? size then
          now (on_heap (realloc_shrink ptr size newsize)) ;;
          _ ← release_heap_sem;
          mret (Some rmem)
        else
          _ ← release_heap_sem;
          realloc_move rmem size newsize
    end.

Definition rt_calloc (count size : Z) : R kstate (option Z) :=
  now (lift RT_DEBUG_NOT_IN_INTERRUPT) ;;
  p ← rt_malloc (uint32 (count * size));
  match p with
  | None => mret None
  | Some p =>
    now (on_heap (modify (fun h => set_h_bytes (rt_memset p 0 (uint32 (count * size)) (h_bytes h)) h))) ;;
    mret (Some p)
  end.

(** The total, used and maximum sizes it stores. *)
Definition rt_memory_info (h : heap_state) : Z * Z * Z := (h_size h, h_used_mem h, h_max_mem h).
End mem.
