(* ===== verification/HeapSpec.v ===== *)
(** The small memory allocator refines a list of blocks: the heap is a sequence of
    used and free blocks without two free neighbours; rt_malloc takes the first
    free block that fits, rt_free gives it back and merges it. *)
From S2P Require Import Prelude RtList Kservice MemOps Kernel Scheduler Object TimerCore Invariant Thread Timer Ipc Semaphore Resume Mem.

(** A block: its size with the header, and whether it is used. *)
Notation block := (Z * bool)%type.
Fixpoint total (bs : list block) : Z := match bs with [] => 0 | (n, _) :: bs => n + total bs end.
Fixpoint used_total (bs : list block) : Z :=
  match bs with [] => 0 | (n, u) :: bs => (if u : bool then n else 0) + used_total bs end.
Lemma total_app a b : total (a ++ b) = total a + total b.
Proof. induction a as [|[n u] a IH]; cbn; lia. Qed.
Lemma used_total_app a b : used_total (a ++ b) = used_total a + used_total b.
Proof. induction a as [|[n u] a IH]; cbn; lia. Qed.

(** The first free block at or after [pos]; the end of the heap when there is none. *)
Fixpoint first_free (pos : Z) (bs : list block) : Z :=
  match bs with [] => pos | (n, u) :: bs => if u : bool then first_free (pos + n) bs else pos end.
(** [o] is the offset of a free block, or the end of the heap. *)
Fixpoint free_or_end (pos : Z) (bs : list block) (o : Z) : Prop :=
  match bs with [] => o = pos | (n, u) :: bs => u = false /\ o = pos \/ free_or_end (pos + n) bs o end.
Definition is_free (b : block) : bool := negb b.2.
(** No two free blocks side by side. *)
Fixpoint merged (bs : list block) : Prop :=
  match bs with
  | b :: (c :: _) as bs' => is_free b && is_free c = false /\ merged bs'
  | _ => True
  end.

Lemma first_free_app pos a b : first_free pos (a ++ b) = if forallb (fun c => c.2) a then first_free (pos + total a) b else first_free pos a.
Proof.
  revert pos. induction a as [|[n u] a IH]; intros pos; cbn; [by rewrite Z.add_0_r|]. destruct u; cbn; [|done].
  rewrite IH. replace (pos + n + total a) with (pos + (n + total a)) by lia. done.
Qed.
Lemma first_free_or_end pos bs : free_or_end pos bs (first_free pos bs).
Proof. revert pos. induction bs as [|[n u] bs IH]; intros pos; cbn; [done|]. destruct u; [right; apply IH|by left]. Qed.
Lemma free_or_end_app pos a b o :
  free_or_end pos (a ++ b) o <-> (exists x n y, a = x ++ (n, false) :: y /\ o = pos + total x) \/ free_or_end (pos + total a) b o.
Proof.
  revert pos. induction a as [|[n u] a IH]; intros pos; cbn [app total free_or_end].
  - rewrite Z.add_0_r. split; [by right|]. intros [(x & n & y & E & _)|H]; [by destruct x|done].
  - rewrite IH. replace (pos + n + total a) with (pos + (n + total a)) by lia. split.
    + intros [[-> ->]|[(x & k & y & -> & ->)|H]]; [left|left|by right].
      * exists [], n, a. cbn. split; [done|lia].
      * exists ((n, u) :: x), k, y. cbn. split; [done|lia].
    + intros [(x & k & y & E & ->)|H]; [|by right; right]. destruct x as [|c x]; cbn in E.
      * injection E as <- <- <-. left. cbn. split; [done|lia].
      * injection E as <- ->. right. left. exists x, k, y. cbn. split; [done|lia].
Qed.
Lemma merged_cons b bs : merged (b :: bs) <-> (forall c, head bs = Some c -> is_free b && is_free c = false) /\ merged bs.
Proof. destruct bs as [|c bs]; cbn; [by split; [|intros [_ H]]|]. split; [intros [H1 H2]|intros [H1 H2]]; (split; [|done]); auto. by intros ? [= <-]. Qed.
Lemma merged_app a b : merged (a ++ b) <-> merged a /\ merged b /\
  forall c d, last a = Some c -> head b = Some d -> is_free c && is_free d = false.
Proof.
  induction a as [|x a IH].
  - split; [intros H; split_and!; [done|exact H|done]|by intros (_ & H & _)].
  - cbn [app]. rewrite !merged_cons, IH. destruct a as [|y a].
    + cbn. split.
      * intros (H1 & _ & H2 & _). split_and!; try done. intros c d [= <-]. apply H1.
      * intros ((_ & _) & H2 & H3). split_and!; try done. intros d Hd. by apply (H3 x).
    + cbn [app head last]. split; [intros (H1 & H2 & H3 & H4)|intros ((H1 & H2) & H3 & H4)]; split_and!; done.
Qed.

Section seg.
Context {cfg : Config}.
Implicit Types (nd : Z -> heap_mem).

(** The headers of the blocks [bs] from offset [pos]; [prev] is the block before. *)
Fixpoint seg nd (prev pos : Z) (bs : list block) (top : Z) : Prop :=
  match bs with
  | [] => pos = top
  | (n, u) :: bs =>
    hm_next (nd pos) = pos + n /\ hm_prev (nd pos) = prev /\
    hm_used (nd pos) = (if u : bool then 1 else 0) /\ (u = true -> hm_magic (nd pos) = HEAP_MAGIC) /\
    SIZEOF_STRUCT_MEM <= n /\ n mod RT_ALIGN_SIZE = 0 /\ seg nd pos (pos + n) bs top
  end.
(** The last block before [pos + total bs]. *)
Fixpoint before (prev pos : Z) (bs : list block) : Z :=
  match bs with [] => prev | (n, _) :: bs => before pos (pos + n) bs end.

Lemma seg_app nd prev pos a b top :
  seg nd prev pos (a ++ b) top <-> seg nd prev pos a (pos + total a) /\ seg nd (before prev pos a) (pos + total a) b top.
Proof.
  revert prev pos. induction a as [|[n u] a IH]; intros prev pos; cbn [app seg before total].
  - rewrite Z.add_0_r. split; [done|by intros [_ ?]].
  - rewrite IH. replace (pos + n + total a) with (pos + (n + total a)) by lia. tauto.
Qed.
Lemma seg_top nd prev pos bs top : seg nd prev pos bs top -> top = pos + total bs.
Proof.
  revert prev pos. induction bs as [|[n u] bs IH]; intros prev pos; cbn; [intros ->; lia|].
  intros (_ & _ & _ & _ & _ & _ & H). apply IH in H. lia.
Qed.
Context (Hsz : 0 < SIZEOF_STRUCT_MEM).
Lemma seg_total nd prev pos bs top : seg nd prev pos bs top -> 0 <= total bs /\ Z.of_nat (length bs) <= total bs.
Proof using Hsz.
  revert prev pos. induction bs as [|[n u] bs IH]; intros prev pos; cbn [seg total length]; [cbn; lia|].
  intros (_ & _ & _ & _ & Hn & _ & H). apply IH in H. lia.
Qed.
(** Only the headers at the block starts matter. *)
Lemma seg_frame nd nd' prev pos bs top :
  seg nd prev pos bs top -> (forall q, pos <= q < top -> nd' q = nd q) -> seg nd' prev pos bs top.
Proof using Hsz.
  revert prev pos. induction bs as [|[n u] bs IH]; intros prev pos H Hf; [done|]. pose proof (seg_top _ _ _ _ _ H) as Ht.
  pose proof (seg_total _ _ _ _ _ H) as Htot. cbn [seg total] in *. destruct H as (H1 & H2 & H3 & H4 & H5 & H6 & H7).
  rewrite (Hf pos) by (pose proof (seg_total _ _ _ _ _ H7); lia). split_and!; try done. apply IH; [done|]. intros q Hq. apply Hf. lia.
Qed.
(** Another block comes before. *)
Definition upd_prev nd (q v : Z) : Z -> heap_mem := <[q := set_hm_prev v (nd q)]> nd.
Lemma seg_reprev nd prev pos bs top v : seg nd prev pos bs top -> seg (upd_prev nd pos v) v pos bs top.
Proof using Hsz.
  destruct bs as [|[n u] bs]; [done|]. cbn [seg]. unfold upd_prev at 1 2 3 4. rewrite upd_eq.
  intros (H1 & H2 & H3 & H4 & H5 & H6 & H7). split_and!; try done. eapply seg_frame; [exact H7|].
  intros q Hq. unfold upd_prev. rewrite upd_ne by lia. done.
Qed.
End seg.

(** ** Alignment *)
(** RT_ALIGN_SIZE is a power of two, at least a word. *)
Class AlignOK (cfg : Config) : Prop := align_pow2 : exists k, 2 <= k <= 6 /\ RT_ALIGN_SIZE = 2 ^ k.
Section align.
Context {cfg : Config} {al : AlignOK cfg}.
Lemma align_range : 4 <= RT_ALIGN_SIZE <= 64.
Proof. destruct al as (k & Hk & ->). change 4 with (2 ^ 2). change 64 with (2 ^ 6). split; apply Z.pow_le_mono_r; lia. Qed.
Lemma land_align x : Z.land x (Z.lnot (RT_ALIGN_SIZE - 1)) = x - x mod RT_ALIGN_SIZE.
Proof.
  destruct al as (k & Hk & ->). rewrite <- Z.ldiff_land. replace (2 ^ k - 1) with (Z.ones k) by (rewrite Z.ones_equiv; lia).
  rewrite Z.ldiff_ones_r, Z.shiftl_mul_pow2, Z.shiftr_div_pow2 by lia. pose proof (Z.div_mod x (2 ^ k)). lia.
Qed.
Lemma land_low x : Z.land x (RT_ALIGN_SIZE - 1) = x mod RT_ALIGN_SIZE.
Proof.
  destruct al as (k & Hk & ->). replace (2 ^ k - 1) with (Z.ones k) by (rewrite Z.ones_equiv; lia). apply Z.land_ones. lia.
Qed.
Lemma RT_ALIGN_spec s : 0 <= s -> s + RT_ALIGN_SIZE <= 2 ^ 32 ->
  s <= RT_ALIGN s RT_ALIGN_SIZE < s + RT_ALIGN_SIZE /\ RT_ALIGN s RT_ALIGN_SIZE mod RT_ALIGN_SIZE = 0.
Proof.
  intros Hs Hm. pose proof align_range as Ha. unfold RT_ALIGN. rewrite land_align, uint_small by lia.
  assert (0 < RT_ALIGN_SIZE) as Hp by lia. set (x := s + RT_ALIGN_SIZE - 1). pose proof (Z.mod_pos_bound x _ Hp). split; [unfold x in *; lia|].
  rewrite Zminus_mod_idemp_r, Z.sub_diag. done.
Qed.
Lemma RT_ALIGN_mod s : RT_ALIGN s RT_ALIGN_SIZE mod RT_ALIGN_SIZE = 0.
Proof. unfold RT_ALIGN. rewrite land_align, Zminus_mod_idemp_r, Z.sub_diag. done. Qed.
Lemma RT_ALIGN_range s : 0 <= RT_ALIGN s RT_ALIGN_SIZE < 2 ^ 32.
Proof.
  pose proof align_range as Ha. unfold RT_ALIGN. rewrite land_align. set (x := uint32 _).
  assert (0 <= x < 2 ^ 32) as Hx by (apply uint_range; lia). assert (0 < RT_ALIGN_SIZE) as Hp by lia.
  pose proof (Z.mod_pos_bound x _ Hp). pose proof (Z.mod_le x _ (proj1 Hx) Hp). lia.
Qed.
Lemma header_size : 12 <= SIZEOF_STRUCT_MEM < 76 /\ SIZEOF_STRUCT_MEM mod RT_ALIGN_SIZE = 0.
Proof. pose proof align_range. destruct (RT_ALIGN_spec 12) as [H1 H2]; [lia..|]. unfold SIZEOF_STRUCT_MEM. split; [lia|done]. Qed.
Lemma min_size : 12 <= MIN_SIZE_ALIGNED < 76 /\ MIN_SIZE_ALIGNED mod RT_ALIGN_SIZE = 0.
Proof. apply header_size. Qed.
Lemma header_pos : 0 < SIZEOF_STRUCT_MEM.
Proof. pose proof header_size. lia. Qed.
Lemma align_header : RT_ALIGN_SIZE <= SIZEOF_STRUCT_MEM.
Proof.
  pose proof header_size as [H1 H2]. pose proof align_range. apply Z.divide_pos_le; [lia|]. apply Z.mod_divide; [lia|done].
Qed.
Lemma mod_align_add a b : a mod RT_ALIGN_SIZE = 0 -> b mod RT_ALIGN_SIZE = 0 -> (a + b) mod RT_ALIGN_SIZE = 0.
Proof. intros Ha Hb. rewrite Zplus_mod, Ha, Hb. done. Qed.
Lemma mod_align_sub a b : a mod RT_ALIGN_SIZE = 0 -> b mod RT_ALIGN_SIZE = 0 -> (a - b) mod RT_ALIGN_SIZE = 0.
Proof. intros Ha Hb. rewrite Zminus_mod, Ha, Hb. done. Qed.
End align.

(** ** The heap as a list of blocks *)
Section heap_spec.
Context {cfg : Config} {al : AlignOK cfg}.

Record heap_ok (h : heap_state) (bs : list block) : Prop := {
  ho_seg : seg (h_node h) 0 0 bs (h_end h);
  ho_end : h_end h = h_size h + SIZEOF_STRUCT_MEM /\ hm_used (h_node h (h_end h)) = 1;
  ho_size : MIN_SIZE_ALIGNED <= h_size h /\ h_size h mod RT_ALIGN_SIZE = 0;
  ho_base : 0 <= h_ptr h /\ h_ptr h mod RT_ALIGN_SIZE = 0 /\ h_ptr h + h_end h + SIZEOF_STRUCT_MEM <= 2 ^ 32;
  ho_merged : merged bs;
  ho_lfree : free_or_end 0 bs (h_lfree h);
  ho_used : h_used_mem h = used_total bs
}.
(** lfree is the lowest free block. *)
Definition lowest (h : heap_state) (bs : list block) : Prop := h_lfree h = first_free 0 bs.

Lemma ho_total h bs : heap_ok h bs -> h_end h = total bs.
Proof. intros H. pose proof (seg_top _ _ _ _ _ (ho_seg _ _ H)). lia. Qed.
Lemma used_total_range nd prev pos bs top : seg nd prev pos bs top -> 0 <= used_total bs <= total bs.
Proof.
  pose proof header_pos. revert prev pos. induction bs as [|[n u] bs IH]; intros prev pos; cbn [seg used_total total]; [lia|].
  intros (_ & _ & _ & _ & Hn & _ & Hs). apply IH in Hs. destruct u; lia.
Qed.
Lemma total_mod nd prev pos bs top : seg nd prev pos bs top -> total bs mod RT_ALIGN_SIZE = 0.
Proof.
  pose proof align_range. revert prev pos. induction bs as [|[n u] bs IH]; intros prev pos; cbn [seg total]; [done|].
  intros (_ & _ & _ & _ & _ & Hm & Hs). apply IH in Hs. by apply mod_align_add.
Qed.
(** The header of a block in the middle, and the bounds of its offsets. *)
Record in_mid (h : heap_state) (pre : list block) (n : Z) (u : bool) (post : list block) : Prop := {
  im_next : hm_next (h_node h (total pre)) = total pre + n;
  im_prev : hm_prev (h_node h (total pre)) = before 0 0 pre;
  im_used : hm_used (h_node h (total pre)) = if u then 1 else 0;
  im_magic : u = true -> hm_magic (h_node h (total pre)) = HEAP_MAGIC;
  im_size : SIZEOF_STRUCT_MEM <= n /\ n mod RT_ALIGN_SIZE = 0;
  im_pre : seg (h_node h) 0 0 pre (total pre);
  im_post : seg (h_node h) (total pre) (total pre + n) post (h_end h);
  im_range : 0 <= total pre /\ total pre + n <= h_end h /\ h_end h = total pre + n + total post
}.
Lemma seg_mid h pre n u post : seg (h_node h) 0 0 (pre ++ (n, u) :: post) (h_end h) -> in_mid h pre n u post.
Proof.
  pose proof header_pos as Hp. rewrite seg_app, Z.add_0_l. intros (H1 & H2 & H3 & H4 & H5 & H6 & H7 & H8).
  pose proof (seg_total Hp _ _ _ _ _ H1). pose proof (seg_total Hp _ _ _ _ _ H8). pose proof (seg_top _ _ _ _ _ H8).
  split; try done. lia.
Qed.

Lemma wp_node p (Q : heap_mem -> heap_state -> Prop) h : Q (h_node h p) h -> wp (node p) Q h.
Proof. done. Qed.
Lemma wp_mod_node p f (Q : unit -> heap_state -> Prop) h :
  Q tt (set_h_node (<[p := f (h_node h p)]> (h_node h)) h) -> wp (mod_node p f) Q h.
Proof. done. Qed.

(** *** The search *)
Definition fits (size n : Z) : Prop := SIZEOF_STRUCT_MEM + size <= n.
#[local] Instance fits_dec size n : Decision (fits size n).
Proof. unfold fits. apply _. Defined.
(** None of the blocks is free and fits. *)
Definition unfit (size : Z) (bs : list block) : Prop := forall n, (n, false) ∈ bs -> ~ fits size n.
Lemma wp_malloc_scan h pre size (Q : option Z -> heap_state -> Prop) : forall rest dn fuel,
  heap_ok h (pre ++ dn ++ rest) -> 0 < size <= h_size h -> (length rest < fuel)%nat -> unfit size dn ->
  (forall x n post, dn ++ rest = x ++ (n, false) :: post -> total (pre ++ x) < h_size h - size -> fits size n -> unfit size x ->
     wp (malloc_take (total (pre ++ x)) size ;; mret (Some (total (pre ++ x)))) Q h) ->
  ((forall x n post, dn ++ rest = x ++ (n, false) :: post -> total (pre ++ x) < h_size h - size -> ~ fits size n) -> Q None h) ->
  wp (malloc_scan fuel (total (pre ++ dn)) size) Q h.
Proof.
  induction rest as [|[n u] rest IH]; intros dn [|fuel] H Hs Hf Hdn Hok Hno; cbn [length] in Hf; try lia; cbn [malloc_scan];
    do 2 wp1; rewrite uint_small by (pose proof (ho_base _ _ H); pose proof (ho_end _ _ H); pose proof header_pos; lia).
  - rewrite app_nil_r in *. pose proof (ho_total _ _ H) as Ht. pose proof (ho_end _ _ H) as [He _]. pose proof header_pos.
    destruct (Z.ltb_spec (total (pre ++ dn)) (h_size h - size)) as [Hlt|_]; [lia|]. wp1. apply Hno.
    intros x m y -> _. apply Hdn. rewrite elem_of_app. right. by left.
  - assert (heap_ok h ((pre ++ dn) ++ (n, u) :: rest)) as H' by (by rewrite <- app_assoc).
    pose proof (seg_mid _ _ _ _ _ (ho_seg _ _ H')) as [M1 M2 M3 M4 M5 M6 M7 M8].
    pose proof (ho_base _ _ H) as Hb. pose proof header_pos.
    destruct (Z.ltb_spec (total (pre ++ dn)) (h_size h - size)) as [Hlt|Hge].
    + wp1. apply wp_node. rewrite M3, M1, uint_small by lia.
      assert ((if u then 1 else 0) =? 0 = negb u) as -> by (by destruct u).
      destruct (decide (u = false /\ fits size n)) as [[-> Hfit]|Hskip].
      * destruct (Z.geb_spec (total (pre ++ dn) + n - (total (pre ++ dn) + SIZEOF_STRUCT_MEM)) size);
          [|unfold fits in Hfit; lia]. cbn [negb andb]. by apply (Hok dn n rest).
      * assert (negb u && (total (pre ++ dn) + n - (total (pre ++ dn) + SIZEOF_STRUCT_MEM) >=? size) = false) as ->.
        { destruct u; [done|]. cbn. destruct (Z.geb_spec (total (pre ++ dn) + n - (total (pre ++ dn) + SIZEOF_STRUCT_MEM)) size); [|done].
          exfalso. apply Hskip. split; [done|unfold fits; lia]. }
        assert (total (pre ++ dn) + n = total (pre ++ dn ++ [(n, u)])) as -> by (rewrite !total_app; cbn; lia).
        assert (dn ++ (n, u) :: rest = (dn ++ [(n, u)]) ++ rest) as E by (by rewrite <- app_assoc). rewrite E in *.
        apply IH; try done; [lia|]. intros k [Hk|Hk%list_elem_of_singleton]%elem_of_app; [by apply Hdn|].
        injection Hk as -> <-. intros Hfit. by apply Hskip.
    + wp1. apply Hno. intros x k y E Hlt. destruct (decide ((k, false) ∈ dn)) as [Hin|Hnin]; [by apply Hdn|].
      exfalso. assert (exists z, x = dn ++ z) as [z ->].
      { clear - E Hnin. revert x E. induction dn as [|b dn IH]; intros x E; [by exists x|].
        apply not_elem_of_cons in Hnin as [Hb Hd]. destruct x as [|c x]; cbn in E; [by injection E|].
        injection E as <- E. destruct (IH Hd x E) as [z ->]. by exists z. }
      rewrite <- app_assoc in E. apply app_inv_head in E.
      assert (seg (h_node h) 0 0 ((pre ++ dn) ++ z ++ (k, false) :: y) (h_end h)) as Hseg by (rewrite <- E; apply (ho_seg _ _ H')).
      rewrite seg_app in Hseg. destruct Hseg as [_ Hseg]. rewrite seg_app in Hseg. destruct Hseg as [Hseg _].
      pose proof (seg_total header_pos _ _ _ _ _ Hseg). rewrite !total_app in *. lia.
Qed.

(** *** Taking a block *)
(** What a block of size [n] becomes: the used part, and the remainder if it can
    hold a block. *)
Definition carve (size n : Z) : list block :=
  if n - SIZEOF_STRUCT_MEM >=? size + SIZEOF_STRUCT_MEM + MIN_SIZE_ALIGNED
  then [(SIZEOF_STRUCT_MEM + size, true); (n - SIZEOF_STRUCT_MEM - size, false)] else [(n, true)].
Lemma carve_total size n : total (carve size n) = n.
Proof. unfold carve. case_match; cbn; lia. Qed.
Lemma carve_first_free size n pos post :
  first_free pos (carve size n ++ post) = pos + (if n - SIZEOF_STRUCT_MEM >=? size + SIZEOF_STRUCT_MEM + MIN_SIZE_ALIGNED
    then SIZEOF_STRUCT_MEM + size else n) \/ first_free pos (carve size n ++ post) = first_free (pos + n) post.
Proof. unfold carve. case_match; cbn; auto. Qed.
Lemma carve_merged size n pre post : merged (pre ++ (n, false) :: post) -> merged (pre ++ carve size n ++ post).
Proof.
  rewrite !merged_app. intros (H1 & [H2 H2']%merged_cons & H3). split; [done|]. unfold carve.
  case_match; cbn [app]; rewrite !merged_cons; cbn [head]; split_and!; try done; intros; simplify_eq/=; auto using andb_false_r.
Qed.

(** The memory of headers after the split, and after the simple use. *)
Lemma seg_carve nd nd' pre n u post size top :
  let p := total pre in let p2 := p + SIZEOF_STRUCT_MEM + size in
  seg nd 0 0 (pre ++ (n, u) :: post) top -> 0 <= size -> size mod RT_ALIGN_SIZE = 0 ->
  size + SIZEOF_STRUCT_MEM <= n - SIZEOF_STRUCT_MEM ->
  hm_next (nd' p) = p2 -> hm_used (nd' p) = 1 -> hm_magic (nd' p) = HEAP_MAGIC -> hm_prev (nd' p) = hm_prev (nd p) ->
  hm_next (nd' p2) = p + n -> hm_used (nd' p2) = 0 -> hm_prev (nd' p2) = p ->
  (forall q, 0 <= q < top -> q <> p -> q <> p2 -> nd' q = upd_prev nd (p + n) p2 q) ->
  seg nd' 0 0 (pre ++ [(SIZEOF_STRUCT_MEM + size, true); (n - SIZEOF_STRUCT_MEM - size, false)] ++ post) top.
Proof.
  intros p p2. rewrite !seg_app, !Z.add_0_l. fold p. pose proof header_pos as Hp. pose proof header_size as [_ Hm].
  intros (Hpre & M1 & M2 & M3 & M4 & M5 & M6 & Hpost) Hs Hsm Hn N1 N2 N3 N4 N5 N6 N7 Hf.
  pose proof (seg_total Hp _ _ _ _ _ Hpre) as [Hp0 _]. pose proof (seg_total Hp _ _ _ _ _ Hpost) as [Hq0 _]. pose proof (seg_top _ _ _ _ _ Hpost).
  split.
  - eapply (seg_frame Hp); [exact Hpre|]. intros q Hq. rewrite Hf by (unfold p2; lia). unfold upd_prev. rewrite upd_ne by lia. done.
  - cbn [app seg]. fold p. replace (p + (SIZEOF_STRUCT_MEM + size)) with p2 by (unfold p2; lia).
    replace (p2 + (n - SIZEOF_STRUCT_MEM - size)) with (p + n) by (unfold p2; lia).
    split_and!; try done; try lia; [by apply mod_align_add|by repeat apply mod_align_sub|cbn; lia|].
    replace (p + total _) with (p + n) by (cbn; lia). cbn [before]. replace (p + (SIZEOF_STRUCT_MEM + size)) with p2 by (unfold p2; lia).
    eapply (seg_frame Hp); [eapply (seg_reprev Hp); exact Hpost|]. intros q Hq. apply Hf; unfold p2; lia.
Qed.
Lemma seg_use nd nd' pre n post top :
  let p := total pre in
  seg nd 0 0 (pre ++ (n, false) :: post) top ->
  hm_next (nd' p) = hm_next (nd p) -> hm_used (nd' p) = 1 -> hm_magic (nd' p) = HEAP_MAGIC -> hm_prev (nd' p) = hm_prev (nd p) ->
  (forall q, 0 <= q < top -> q <> p -> nd' q = nd q) -> seg nd' 0 0 (pre ++ [(n, true)] ++ post) top.
Proof.
  intros p. rewrite !seg_app, !Z.add_0_l. fold p. pose proof header_pos as Hp.
  intros (Hpre & M1 & M2 & M3 & M4 & M5 & M6 & Hpost) N1 N2 N3 N4 Hf.
  pose proof (seg_total Hp _ _ _ _ _ Hpre) as [Hp0 _]. pose proof (seg_total Hp _ _ _ _ _ Hpost) as [Hq0 _]. pose proof (seg_top _ _ _ _ _ Hpost).
  split.
  - eapply (seg_frame Hp); [exact Hpre|]. intros q Hq. apply Hf; lia.
  - cbn [app seg]. fold p. split_and!; try done; try congruence; [cbn; lia|].
    replace (p + total _) with (p + n) by (cbn; lia). eapply (seg_frame Hp); [exact Hpost|]. intros q Hq. apply Hf; lia.
Qed.

(** lfree moves to the first free block of the rest. *)
Lemma wp_advance bs : forall h fuel Q pos prev,
  seg (h_node h) prev pos bs (h_end h) -> h_lfree h = pos -> (length bs < fuel)%nat ->
  Q tt (set_h_lfree (first_free pos bs) h) -> wp (advance_lfree fuel) Q h.
Proof.
  induction bs as [|[n u] bs IH]; intros h [|fuel] Q pos prev Hs Hl Hf HQ; cbn [length] in Hf; try lia; cbn [advance_lfree];
    do 2 wp1; rewrite Hl; do 2 wp1; do 1 wp1; apply wp_node; cbn [seg first_free] in *.
  - rewrite Hs, Z.eqb_refl. cbn [negb]. rewrite andb_false_r. wp1. destruct h; cbn in *; subst; exact HQ.
  - destruct Hs as (M1 & M2 & M3 & M4 & M5 & M6 & Hs). pose proof header_pos as Hp.
    pose proof (seg_total Hp _ _ _ _ _ Hs). pose proof (seg_top _ _ _ _ _ Hs). rewrite M3.
    destruct (Z.eqb_spec pos (h_end h)); [lia|]. destruct u; cbn [negb andb Z.eqb].
    + do 2 wp1. eapply IH; [cbn; exact Hs|cbn; done|lia|]. exact HQ.
    + wp1. destruct h; cbn in *; subst; exact HQ.
Qed.

(** What a section leaves alone. *)
Definition same_area (h h' : heap_state) : Prop := h_ptr h' = h_ptr h /\ h_end h' = h_end h /\ h_size h' = h_size h /\ h_bytes h' = h_bytes h.

Definition taken (size n : Z) : Z :=
  if n - SIZEOF_STRUCT_MEM >=? size + SIZEOF_STRUCT_MEM + MIN_SIZE_ALIGNED then SIZEOF_STRUCT_MEM + size else n.
Lemma carve_used size n : used_total (carve size n) = taken size n.
Proof. unfold carve, taken. case_match; cbn; lia. Qed.

Lemma wp_count_used h n (Q : unit -> heap_state -> Prop) : 0 <= h_used_mem h + n < 2 ^ 32 ->
  Q tt (set_h_max_mem (Z.max (h_max_mem h) (h_used_mem h + n)) (set_h_used_mem (h_used_mem h + n) h)) -> wp (count_used n) Q h.
Proof.
  intros Hn HQ. unfold count_used. do 3 wp1. cbn [h_max_mem h_used_mem set_h_used_mem]. rewrite uint_small by done.
  destruct (Z.ltb_spec (h_max_mem h) (h_used_mem h + n)).
  - rewrite Z.max_r in HQ by lia. exact HQ.
  - rewrite Z.max_l in HQ by lia. exact HQ.
Qed.

Lemma wp_malloc_headers h pre n post size (Q : unit -> heap_state -> Prop) :
  heap_ok h (pre ++ (n, false) :: post) -> fits size n -> 0 < size -> size mod RT_ALIGN_SIZE = 0 ->
  (forall h', seg (h_node h') 0 0 (pre ++ carve size n ++ post) (h_end h') -> same_area h h' ->
     hm_used (h_node h' (h_end h')) = 1 -> h_used_mem h' = h_used_mem h + taken size n ->
     h_max_mem h' = Z.max (h_max_mem h) (h_used_mem h') -> h_lfree h' = h_lfree h -> Q tt h') ->
  wp (malloc_headers (total pre) size) Q h.
Proof.
  intros H Hfit Hs Hsm HQ. pose proof (seg_mid _ _ _ _ _ (ho_seg _ _ H)) as [M1 M2 M3 M4 M5 M6 M7 M8]. unfold fits in Hfit.
  pose proof (ho_base _ _ H) as Hb. pose proof (ho_end _ _ H) as [He Heu]. pose proof header_pos as Hp. pose proof min_size as [Hmin _].
  pose proof (ho_used _ _ H) as Hu. pose proof (used_total_range _ _ _ _ _ (ho_seg _ _ H)) as Hur. pose proof (ho_total _ _ H) as Ht.
  rewrite used_total_app in Hu, Hur. rewrite total_app in Hur, Ht. cbn [used_total total] in Hu, Hur, Ht.
  assert (used_total pre + used_total post <= total pre + total post) as Hup.
  { pose proof (used_total_range _ _ _ _ _ M6). pose proof (used_total_range _ _ _ _ _ M7). lia. }
  assert (total pre <> total pre + SIZEOF_STRUCT_MEM + size) as Hne by lia.
  unfold malloc_headers. wp1. apply wp_node. do 2 wp1. rewrite M1, uint_small by lia.
  replace (total pre + n - (total pre + SIZEOF_STRUCT_MEM)) with (n - SIZEOF_STRUCT_MEM) by lia.
  wp1. unfold taken, carve in HQ. destruct (Z.geb_spec (n - SIZEOF_STRUCT_MEM) (size + SIZEOF_STRUCT_MEM + MIN_SIZE_ALIGNED)) as [Hg|Hg].
  - cbv zeta. set (p := total pre) in *. set (p2 := p + SIZEOF_STRUCT_MEM + size) in *.
    do 5 (wp1; apply wp_mod_node; cbn [h_node set_h_node]). wp1. apply wp_node. cbn [h_node set_h_node].
    rewrite !(upd_ne _ p p2) by done. rewrite !upd_eq. cbn [hm_next set_hm_prev set_hm_next]. rewrite <- He.
    set (nd := h_node h) in *.
    assert (forall nd' : Z -> heap_mem, (forall q, nd' q = if decide (q = p) then mk_heap_mem (hm_magic (nd p)) 1 p2 (hm_prev (nd p))
        else if decide (q = p2) then mk_heap_mem (hm_magic (nd p2)) 0 (p + n) p
        else if decide (q = p + n /\ p + n <> h_end h) then set_hm_prev p2 (nd q) else nd q) ->
      wp (count_used (size + SIZEOF_STRUCT_MEM) ;; mod_node p (set_hm_magic HEAP_MAGIC)) Q (set_h_node nd' h)) as Hend.
    { intros nd' Hnd. wp1. apply wp_count_used; [cbn; lia|]. apply wp_mod_node. cbn.
      replace (h_used_mem h + (size + SIZEOF_STRUCT_MEM)) with (h_used_mem h + (SIZEOF_STRUCT_MEM + size)) by lia.
      apply HQ; try done; cbn.
      - assert (forall q, (<[p := set_hm_magic HEAP_MAGIC (nd' p)]> nd') q = if decide (q = p) then mk_heap_mem HEAP_MAGIC 1 p2 (hm_prev (nd p)) else nd' q) as Hq.
        { intros q. rewrite upd_case. destruct (decide (p = q)) as [<-|Hpq]; [rewrite Hnd, !decide_True by done; done|].
          by rewrite decide_False by congruence. }
        apply (seg_carve nd _ _ n false); try done; fold p; fold p2; try lia; [exact (ho_seg _ _ H)|rewrite Hq, ?Hnd..|].
        1-4: by rewrite decide_True by done.
        1-3: by rewrite decide_False, !decide_False, decide_True by congruence.
        intros q Hq1 Hq2 Hq3. rewrite Hq, Hnd, !(decide_False (P := q = _)) by done. unfold upd_prev. rewrite upd_case.
        destruct (decide (q = p + n)) as [->|]; [rewrite (decide_True (P := p + n = p + n)) by done; by rewrite decide_True by lia|].
        rewrite !decide_False by (congruence || tauto). done.
      - rewrite upd_ne by lia. rewrite Hnd, !decide_False by lia. done. }
    destruct (Z.eqb_spec (p + n) (h_end h)) as [En|En]; cbn [negb].
    + wp1. apply Hend. intros q. rewrite !upd_case. repeat case_decide; subst; try lia; try done; cbn; f_equal; try done; try tauto.
    + wp1. apply wp_mod_node. apply Hend. intros q. cbn [h_node set_h_node]. rewrite !upd_case. repeat case_decide; subst; try lia; try done; cbn; try tauto.
  - wp1. apply wp_mod_node. cbn [h_node set_h_node]. wp1. apply wp_node. cbn [h_node set_h_node]. rewrite upd_eq. cbn [hm_next set_hm_used]. rewrite M1.
    replace (total pre + n - total pre) with n by lia. apply wp_count_used; [cbn; lia|]. apply wp_mod_node. cbn. rewrite upd_eq.
    apply HQ; try done; cbn.
    + eapply (seg_use (h_node h)); [exact (ho_seg _ _ H)|rewrite ?upd_eq; done..|]. intros q Hq Hne'. by rewrite !upd_ne by done.
    + rewrite !upd_ne by lia. done.
Qed.

Lemma used_pre_post pre n post : used_total (pre ++ (n, false) :: post) = used_total pre + used_total post.
Proof. rewrite used_total_app. done. Qed.
Lemma free_or_end_total nd prev bs pos top o : seg nd prev pos bs top -> free_or_end pos bs o -> o <> pos -> pos < o.
Proof.
  pose proof header_pos as Hp. revert prev pos. induction bs as [|[n u] bs IH]; intros prev pos; cbn [seg free_or_end]; [done|].
  intros (_ & _ & _ & _ & Hn & _ & Hs) [[_ ->]|Ho] Hne; [done|]. destruct (decide (o = pos + n)); [lia|].
  pose proof (IH _ _ Hs Ho n0). lia.
Qed.
(** Replacing the free block at lfree, and another one. *)
Lemma forallb_used_first pos bs : forallb (fun c : block => c.2) bs = true -> first_free pos bs = pos + total bs.
Proof. revert pos. induction bs as [|[n []] bs IH]; intros pos H; cbn in *; [lia| |done]. rewrite IH by done. lia. Qed.
Lemma forallb_free_first nd prev pos bs top : seg nd prev pos bs top -> forallb (fun c : block => c.2) bs = false ->
  pos <= first_free pos bs < pos + total bs.
Proof.
  pose proof header_pos as Hp. revert prev pos. induction bs as [|[n u] bs IH]; intros prev pos; [done|]. cbn [seg forallb first_free total].
  intros (_ & _ & _ & _ & Hn & _ & Hs) Hb. pose proof (seg_total Hp _ _ _ _ _ Hs). destruct u; cbn in Hb.
  - specialize (IH _ _ Hs Hb). lia.
  - lia.
Qed.
Lemma lowest_replace nd pre n mid post top :
  seg nd 0 0 (pre ++ (n, false) :: post) top -> first_free 0 (pre ++ (n, false) :: post) <> total pre ->
  first_free 0 (pre ++ mid ++ post) = first_free 0 (pre ++ (n, false) :: post).
Proof.
  rewrite seg_app, !first_free_app. intros [Hs _] Hne. destruct (forallb _ pre); [|done]. cbn in Hne. lia.
Qed.
Lemma free_or_end_replace pre n mid post o :
  total mid = n -> free_or_end 0 (pre ++ (n, false) :: post) o -> o <> total pre -> free_or_end 0 (pre ++ mid ++ post) o.
Proof.
  intros Hm. rewrite !free_or_end_app. change (0 + total pre) with (total pre). cbn [free_or_end]. intros [H|[[_ ->]|H]] Hne; [by left|done|].
  right. right. by rewrite Hm.
Qed.

Lemma wp_malloc_take h pre n post size (Q : unit -> heap_state -> Prop) :
  heap_ok h (pre ++ (n, false) :: post) -> fits size n -> 0 < size -> size mod RT_ALIGN_SIZE = 0 ->
  (forall h', heap_ok h' (pre ++ carve size n ++ post) ->
     (lowest h (pre ++ (n, false) :: post) -> lowest h' (pre ++ carve size n ++ post)) -> same_area h h' ->
     h_used_mem h' = h_used_mem h + taken size n -> h_max_mem h' = Z.max (h_max_mem h) (h_used_mem h') -> Q tt h') ->
  wp (malloc_take (total pre) size) Q h.
Proof.
  intros H Hfit Hs Hsm HQ. unfold malloc_take. wp1. eapply wp_malloc_headers; [done..|].
  intros h1 Hseg (A1 & A2 & A3 & A4) Htop Hu Hmax Hl. set (bs := pre ++ (n, false) :: post) in *. set (bs' := pre ++ carve size n ++ post) in *.
  assert (forall h', h_node h' = h_node h1 -> h_used_mem h' = h_used_mem h1 -> same_area h1 h' -> free_or_end 0 bs' (h_lfree h') -> heap_ok h' bs') as Hok.
  { intros h' E1 E2 (B1 & B2 & B3 & B4) Hf. destruct H as [G1 G2 G3 G4 G5 G6 G7].
    split; rewrite ?E1, ?E2, ?B1, ?B2, ?B3, ?A1, ?A3; rewrite ?A2; try done.
    - by rewrite <- A2.
    - split; [apply G2|]. by rewrite <- A2.
    - by apply carve_merged.
    - rewrite Hu, G7. unfold bs, bs'. rewrite used_pre_post, !used_total_app, carve_used. lia. }
  do 2 wp1. destruct (Z.eqb_spec (total pre) (h_lfree h1)) as [E|E].
  - do 2 wp1. assert (bs' = pre ++ (carve size n ++ post)) as Ebs by done. rewrite Ebs, seg_app, Z.add_0_l in Hseg. destruct Hseg as [Hs1 Hs2].
    pose proof (seg_total header_pos _ _ _ _ _ Hs1). pose proof (seg_total header_pos _ _ _ _ _ Hs2). pose proof (seg_top _ _ _ _ _ Hs2).
    wp1. eapply wp_advance; [exact Hs2|done|unfold heap_fuel; lia|].
    set (o := first_free (total pre) (carve size n ++ post)). set (h2 := set_h_lfree o h1).
    assert (heap_ok h2 bs') as Hok2.
    { apply Hok; try done. cbn. rewrite Ebs, free_or_end_app, Z.add_0_l. right. apply first_free_or_end. }
    do 2 wp1. do 2 wp1. wp1. apply wp_node. wp1.
    + cbn [h_lfree h_end h_node set_h_lfree h2]. pose proof (first_free_or_end (total pre) (carve size n ++ post)) as Hf. fold o in Hf.
      destruct (Z.eqb_spec o (h_end h1)) as [|Hne]; [done|]. cbn [orb].
      assert (forall prev bs pos top, seg (h_node h1) prev pos bs top -> free_or_end pos bs o -> o <> top -> hm_used (h_node h1 o) = 0) as Hfree.
      { intros pr b. revert pr. induction b as [|[k u] b IH]; intros pr pos top; cbn [seg free_or_end]; [by intros -> ->|].
        intros (_ & _ & Hu' & _ & _ & _ & Hb) [[-> ->]|Ho] Ht; [done|]. by eapply IH. }
      rewrite (Hfree _ _ _ _ Hs2 Hf Hne). done.
    + apply HQ; try done. intros Hlow. change (o = first_free 0 (pre ++ carve size n ++ post)).
      assert (total pre = first_free 0 (pre ++ (n, false) :: post)) as Hp by (rewrite E, Hl; exact Hlow).
      rewrite first_free_app in Hp |- *. destruct (forallb _ pre) eqn:Eb; [done|].
      pose proof (forallb_free_first _ _ _ _ _ Hs1 Eb). lia.
  - wp1. apply HQ; try done.
    + apply Hok; try done. rewrite Hl. apply (free_or_end_replace _ n); [by rewrite carve_total|exact (ho_lfree _ _ H)|congruence].
    + intros Hlow. unfold lowest in *. rewrite Hl, Hlow. symmetry. eapply lowest_replace; [exact (ho_seg _ _ H)|]. fold bs. congruence.
Qed.

(** *** Plugging holes *)
(** The invariant before the holes are plugged. *)
Record raw_ok (h : heap_state) (bs : list block) : Prop := {
  ro_seg : seg (h_node h) 0 0 bs (h_end h);
  ro_end : h_end h = h_size h + SIZEOF_STRUCT_MEM /\ hm_used (h_node h (h_end h)) = 1;
  ro_size : MIN_SIZE_ALIGNED <= h_size h /\ h_size h mod RT_ALIGN_SIZE = 0;
  ro_base : 0 <= h_ptr h /\ h_ptr h mod RT_ALIGN_SIZE = 0 /\ h_ptr h + h_end h + SIZEOF_STRUCT_MEM <= 2 ^ 32;
  ro_lfree : free_or_end 0 bs (h_lfree h);
  ro_used : h_used_mem h = used_total bs
}.
Lemma heap_ok_raw h bs : heap_ok h bs <-> raw_ok h bs /\ merged bs.
Proof. split; [intros []; by split|intros [[] ?]; by split]. Qed.

Definition merge_nodes (nd : Z -> heap_mem) (a b : Z) : Z -> heap_mem :=
  let nd := <[a := set_hm_next b (nd a)]> nd in <[b := set_hm_prev a (nd b)]> nd.
Lemma seg_merge nd pre n k post top :
  seg nd 0 0 (pre ++ (n, false) :: (k, false) :: post) top ->
  seg (merge_nodes nd (total pre) (total pre + n + k)) 0 0 (pre ++ (n + k, false) :: post) top.
Proof.
  rewrite !seg_app, !Z.add_0_l. pose proof header_pos as Hp. cbn [seg]. set (p := total pre).
  intros (Hpre & M1 & M2 & M3 & M4 & M5 & M6 & N1 & N2 & N3 & N4 & N5 & N6 & Hpost).
  pose proof (seg_total Hp _ _ _ _ _ Hpre) as [Hp0 _]. pose proof (seg_total Hp _ _ _ _ _ Hpost) as [Hq0 _]. pose proof (seg_top _ _ _ _ _ Hpost).
  assert (merge_nodes nd p (p + n + k) p = set_hm_next (p + n + k) (nd p)) as Ep by (unfold merge_nodes; rewrite upd_ne by lia; by rewrite upd_eq).
  split.
  - eapply (seg_frame Hp); [exact Hpre|]. intros q Hq. unfold merge_nodes. by rewrite !upd_ne by lia.
  - rewrite Ep. cbn [hm_next hm_prev hm_used hm_magic set_hm_next]. split_and!; try done; try lia; [by apply mod_align_add|].
    replace (p + (n + k)) with (p + n + k) by lia. eapply (seg_frame Hp); [eapply (seg_reprev Hp); exact Hpost|].
    intros q Hq. unfold merge_nodes, upd_prev. rewrite (upd_ne _ p (p + n + k)) by lia. rewrite !upd_case.
    by repeat (case_decide; subst; try lia).
Qed.
Lemma merge_nodes_used nd a b q : hm_used (merge_nodes nd a b q) = hm_used (nd q).
Proof. unfold merge_nodes. rewrite !upd_case. repeat case_decide; subst; done. Qed.
Lemma first_free_free pos pre n X Y : first_free pos (pre ++ (n, false) :: X) = first_free pos (pre ++ (n, false) :: Y).
Proof. by rewrite !first_free_app. Qed.
Lemma first_free_le nd pre n X top : seg nd 0 0 (pre ++ (n, false) :: X) top -> first_free 0 (pre ++ (n, false) :: X) <= total pre.
Proof.
  rewrite seg_app, first_free_app. intros [Hs _]. destruct (forallb _ pre) eqn:E; [cbn; lia|].
  pose proof (forallb_free_first _ _ _ _ _ Hs E). lia.
Qed.
Lemma used_merge pre n k post : used_total (pre ++ (n, false) :: (k, false) :: post) = used_total (pre ++ (n + k, false) :: post).
Proof. rewrite !used_total_app. done. Qed.
(** Both merges: [a] and its right neighbour become one block; lfree moves if it was
    the right one. *)
Definition merge_lfree (lfree a b : Z) : Z := if lfree =? b then a else lfree.
Lemma raw_merge h pre n k post l nd :
  raw_ok h (pre ++ (n, false) :: (k, false) :: post) ->
  l = merge_lfree (h_lfree h) (total pre) (total pre + n) -> nd = merge_nodes (h_node h) (total pre) (total pre + n + k) ->
  let h' := set_h_node nd (set_h_lfree l h) in
  raw_ok h' (pre ++ (n + k, false) :: post) /\
  (lowest h (pre ++ (n, false) :: (k, false) :: post) -> lowest h' (pre ++ (n + k, false) :: post)).
Proof.
  intros [G1 G2 G3 G4 G5 G6] -> -> h'. split.
  - split; cbn [h_node h_end h_size h_ptr h_lfree h_used_mem h' set_h_node set_h_lfree]; try done.
    + by apply seg_merge.
    + rewrite merge_nodes_used. exact G2.
    + unfold merge_lfree. destruct (Z.eqb_spec (h_lfree h) (total pre + n)) as [E|E].
      * rewrite free_or_end_app. right. by left.
      * revert G5. rewrite !free_or_end_app. change (0 + total pre) with (total pre). cbn [free_or_end].
        replace (total pre + (n + k)) with (total pre + n + k) by lia. tauto.
    + by rewrite <- used_merge.
  - intros Hl. unfold lowest, merge_lfree in *. cbn. pose proof (first_free_le _ _ _ _ _ G1) as Hle.
    apply seg_mid in G1 as [_ _ _ _ [Hs _] _ _ _]. pose proof header_pos. destruct (Z.eqb_spec (h_lfree h) (total pre + n)); [lia|].
    rewrite Hl. rewrite !first_free_app. done.
Qed.
Definition merge_right (n : Z) (post : list block) : Z * list block :=
  match post with (k, false) :: post => (n + k, post) | _ => (n, post) end.
Definition kept (h h' : heap_state) : Prop := same_area h h' /\ h_used_mem h' = h_used_mem h /\ h_max_mem h' = h_max_mem h.

Lemma wp_plug_next h pre n post (Q : unit -> heap_state -> Prop) :
  raw_ok h (pre ++ (n, false) :: post) ->
  (forall h', let '(n', post') := merge_right n post in raw_ok h' (pre ++ (n', false) :: post') -> kept h h' ->
     (lowest h (pre ++ (n, false) :: post) -> lowest h' (pre ++ (n', false) :: post')) -> Q tt h') ->
  wp (plug_next (total pre)) Q h.
Proof.
  intros H HQ. pose proof (seg_mid _ _ _ _ _ (ro_seg _ _ H)) as [M1 M2 M3 M4 M5 M6 M7 M8]. pose proof header_pos as Hp.
  unfold plug_next. wp1. apply wp_node. do 2 wp1. wp1. apply wp_node. rewrite M1.
  destruct (Z.eqb_spec (total pre) (total pre + n)); [lia|]. cbn [negb andb].
  destruct post as [|[k u] post].
  - cbn [seg] in M7. pose proof (ro_end _ _ H) as [_ He]. rewrite M7, He. cbn. apply (HQ h); done.
  - cbn [seg] in M7. destruct M7 as (N1 & N2 & N3 & N4 & N5 & N6 & N7). pose proof (seg_total Hp _ _ _ _ _ N7). pose proof (seg_top _ _ _ _ _ N7).
    rewrite N3. destruct u; cbn [merge_right] in HQ; [apply (HQ h); done|]. cbn [Z.eqb andb].
    destruct (Z.eqb_spec (total pre + n) (h_end h)); [lia|]. cbn [negb].
    do 2 wp1. assert (forall l, l = merge_lfree (h_lfree h) (total pre) (total pre + n) ->
      wp (mod_node (total pre) (set_hm_next (hm_next (h_node h (total pre + n)))) ;; n ← node (total pre + n); mod_node (hm_next n) (set_hm_prev (total pre)))
        Q (set_h_lfree l h)) as Hend.
    { intros l Hl. wp1. apply wp_mod_node. wp1. apply wp_node. apply wp_mod_node.
      cbn [h_node set_h_node set_h_lfree]. rewrite upd_ne by lia. rewrite N1.
      destruct (raw_merge h pre n k post l _ H Hl eq_refl) as [R1 R2]. apply (HQ _); [exact R1|done|exact R2]. }
    unfold merge_lfree in Hend. wp1. destruct (h_lfree h =? total pre + n) eqn:E.
    + wp1. apply Hend. done.
    + wp1. specialize (Hend (h_lfree h) eq_refl). destruct h; exact Hend.
Qed.
Lemma before_snoc prev pos pre k u : before prev pos (pre ++ [(k, u)]) = pos + total pre.
Proof. revert prev pos. induction pre as [|[n v] pre IH]; intros prev pos; cbn; [lia|]. rewrite IH. lia. Qed.
(** The step backward. *)
Definition merge_left (pre : list block) (n : Z) (post : list block) : list block :=
  match last pre with Some (k, false) => removelast pre ++ (k + n, false) :: post | _ => pre ++ (n, false) :: post end.
Lemma merge_left_snoc pre k u n post :
  merge_left (pre ++ [(k, u)]) n post = if u : bool then pre ++ (k, u) :: (n, false) :: post else pre ++ (k + n, false) :: post.
Proof. unfold merge_left. rewrite last_snoc, removelast_last. destruct u; [|done]. by rewrite <- app_assoc. Qed.
Lemma wp_plug_prev h pre n post (Q : unit -> heap_state -> Prop) :
  raw_ok h (pre ++ (n, false) :: post) ->
  (forall h', raw_ok h' (merge_left pre n post) -> kept h h' ->
     (lowest h (pre ++ (n, false) :: post) -> lowest h' (merge_left pre n post)) -> Q tt h') ->
  wp (plug_prev (total pre)) Q h.
Proof.
  intros H HQ. pose proof (seg_mid _ _ _ _ _ (ro_seg _ _ H)) as [M1 M2 M3 M4 M5 M6 M7 M8]. pose proof header_pos as Hp.
  unfold plug_prev. wp1. apply wp_node. wp1. apply wp_node. rewrite M2.
  destruct pre as [|[k u] pre _] using rev_ind; [apply (HQ h); done|]. rewrite before_snoc, merge_left_snoc in *. change (0 + total pre) with (total pre).
  rewrite <- app_assoc in *. cbn [app] in *. pose proof (seg_mid _ _ _ _ _ (ro_seg _ _ H)) as [N1 N2 N3 N4 N5 N6 N7 N8].
  rewrite total_app in *. cbn [total] in *. rewrite Z.add_0_r in *. destruct (Z.eqb_spec (total pre) (total pre + k)); [lia|]. rewrite N3. cbn [negb andb].
  destruct u; [apply (HQ h); done|]. cbn [Z.eqb]. do 2 wp1.
  assert (forall l, l = merge_lfree (h_lfree h) (total pre) (total pre + k) ->
    wp (mod_node (total pre) (set_hm_next (hm_next (h_node h (total pre + k)))) ;; m ← node (total pre + k); mod_node (hm_next m) (set_hm_prev (total pre)))
      Q (set_h_lfree l h)) as Hend.
  { intros l Hl. wp1. apply wp_mod_node. wp1. apply wp_node. apply wp_mod_node.
    cbn [h_node set_h_node set_h_lfree]. rewrite upd_ne by lia. rewrite M1.
    destruct (raw_merge h pre k n post l _ H Hl eq_refl) as [R1 R2]. apply (HQ _); [exact R1|done|exact R2]. }
  unfold merge_lfree in Hend. wp1. destruct (h_lfree h =? total pre + k) eqn:E.
  - wp1. apply Hend. done.
  - wp1. specialize (Hend (h_lfree h) eq_refl). destruct h; exact Hend.
Qed.

(** The blocks after both steps: no free neighbours remain. *)
Definition plugged (pre : list block) (n : Z) (post : list block) : list block :=
  let '(n, post) := merge_right n post in merge_left pre n post.
Lemma merged_swap a n m b : merged (a ++ (n, false) :: b) -> merged (a ++ (m, false) :: b).
Proof. rewrite !merged_app, !merged_cons. cbn. intros (H1 & (H2 & H3) & H4). split_and!; try done. intros c d Hc [= <-]. by apply (H4 c (n, false)). Qed.
Lemma plugged_merged pre u n post : merged (pre ++ (n, u) :: post) -> merged (plugged pre n post).
Proof.
  rewrite merged_app, merged_cons. intros (H1 & (H2 & H3) & H4). unfold plugged.
  assert (forall m post', merged post' -> (forall c, head post' = Some c -> is_free c = false) -> merged (merge_left pre m post')) as Hl.
  { intros m post' Hm Hh. assert (merged ((m, false) :: post')) as Hm' by (rewrite merged_cons; split; [intros c Hc; cbn; by apply Hh|done]).
    destruct pre as [|[k v] pre _] using rev_ind; [done|]. rewrite merge_left_snoc. apply merged_app in H1 as (G1 & _ & G2).
    destruct v.
    - rewrite merged_app. split_and!; [done| |].
      + rewrite merged_cons. by split; [intros ? [= <-]|].
      + intros c d Hc [= <-]. apply (G2 c); done.
    - rewrite merged_app. split_and!; [done| |].
      + rewrite merged_cons. split; [intros c Hc; cbn; by apply Hh|done].
      + intros c d Hc [= <-]. by apply (G2 c (k, false)). }
  destruct post as [|[k []] post]; cbn [merge_right]; apply Hl; try done.
  - intros c [= <-]. done.
  - by apply merged_cons in H3 as [_ H3].
  - intros c Hc. apply merged_cons in H3 as [H3 _]. exact (H3 _ Hc).
Qed.
Lemma wp_plug_holes h pre n post (Q : unit -> heap_state -> Prop) :
  raw_ok h (pre ++ (n, false) :: post) -> (exists u, merged (pre ++ (n, u) :: post)) ->
  (forall h', heap_ok h' (plugged pre n post) -> kept h h' ->
     (lowest h (pre ++ (n, false) :: post) -> lowest h' (plugged pre n post)) -> Q tt h') ->
  wp (plug_holes (total pre)) Q h.
Proof.
  intros H [u Hm] HQ. pose proof (seg_mid _ _ _ _ _ (ro_seg _ _ H)) as [M1 M2 M3 M4 M5 M6 M7 M8]. pose proof header_pos as Hp.
  apply plugged_merged in Hm. unfold plug_holes. wp1. apply wp_node. do 2 wp1. pose proof (seg_total Hp _ _ _ _ _ M7).
  wp1. wp1; [by apply Z.leb_le; lia|]. wp1. wp1; [by apply Z.ltb_lt; lia|]. wp1. wp1; [by rewrite M3|]. wp1. apply (wp_plug_next _ _ _ _ _ H). intros h1. unfold plugged in *. destruct (merge_right n post) as [n' post'] eqn:E.
  intros H1 (A1 & A2 & A3) L1. apply (wp_plug_prev _ _ _ _ _ H1). intros h2 H2 (B1 & B2 & B3) L2. apply HQ.
  - by apply heap_ok_raw.
  - unfold kept, same_area in *. destruct A1 as (?&?&?&?), B1 as (?&?&?&?). split_and!; congruence.
  - auto.
Qed.
(** *** The first fit *)
(** The reference allocator: the first free block at or after [from] and before
    [top] in which the size fits, and the blocks afterwards. *)
Fixpoint first_fit (pos from top size : Z) (bs : list block) : option (Z * list block) :=
  match bs with
  | [] => None
  | (n, u) :: bs =>
    if negb u && (from <=? pos) && (pos <? top) && (SIZEOF_STRUCT_MEM + size <=? n)
    then Some (pos, carve size n ++ bs)
    else match first_fit (pos + n) from top size bs with Some (o, bs') => Some (o, (n, u) :: bs') | None => None end
  end.
Definition under {A B} (pre : list A) (r : option (B * list A)) : option (B * list A) :=
  match r with Some (o, bs) => Some (o, pre ++ bs) | None => None end.
Lemma first_fit_below nd prev from top size bs rest : forall pos, seg nd prev pos bs (pos + total bs) -> pos + total bs <= from ->
  first_fit pos from top size (bs ++ rest) = under bs (first_fit (pos + total bs) from top size rest).
Proof.
  pose proof header_pos as Hp. revert prev. induction bs as [|[n u] bs IH]; intros prev pos Hs Hle; cbn [app total first_fit] in *.
  - rewrite Z.add_0_r. unfold under. by destruct first_fit as [[]|].
  - cbn [seg] in Hs. destruct Hs as (_ & _ & _ & _ & Hn & _ & Hs). replace (pos + (n + total bs)) with (pos + n + total bs) in * by lia.
    pose proof (seg_total Hp _ _ _ _ _ Hs). destruct (Z.leb_spec from pos) as [|_]; [lia|]. rewrite andb_false_r. cbn [andb].
    rewrite (IH pos) by (done || lia). unfold under. by destruct first_fit as [[]|].
Qed.
Lemma first_fit_skip from top size bs rest : unfit size bs -> forall pos,
  first_fit pos from top size (bs ++ rest) = under bs (first_fit (pos + total bs) from top size rest).
Proof.
  induction bs as [|[n u] bs IH]; intros Hun pos; cbn [app total first_fit].
  - rewrite Z.add_0_r. unfold under. by destruct first_fit as [[]|].
  - replace (pos + (n + total bs)) with (pos + n + total bs) by lia. rewrite IH by (intros m Hm; apply Hun; by right).
    assert (negb u && (from <=? pos) && (pos <? top) && (SIZEOF_STRUCT_MEM + size <=? n) = false) as ->.
    { destruct u; [done|]. destruct (Z.leb_spec (SIZEOF_STRUCT_MEM + size) n) as [Hle|]; [|apply andb_false_r].
      destruct (Hun n); [left|exact Hle]. }
    unfold under. by destruct first_fit as [[]|].
Qed.
Lemma first_fit_none from top size bs : forall pos,
  (forall x n post, bs = x ++ (n, false) :: post -> pos + total x < top -> ~ fits size n) -> first_fit pos from top size bs = None.
Proof.
  induction bs as [|[n u] bs IH]; intros pos H; cbn [first_fit]; [done|].
  rewrite IH.
  - destruct u; [done|]. destruct (Z.ltb_spec pos top) as [Hlt|]; [|by rewrite andb_false_r].
    destruct (Z.leb_spec (SIZEOF_STRUCT_MEM + size) n) as [Hle|]; [|by rewrite !andb_false_r].
    destruct (H [] n bs eq_refl); [cbn; lia|exact Hle].
  - intros x m post -> Hlt. apply (H ((n, u) :: x) m post); [done|cbn; lia].
Qed.
Lemma free_or_end_split nd prev pos bs top o : seg nd prev pos bs top -> free_or_end pos bs o ->
  exists pre rest, bs = pre ++ rest /\ o = pos + total pre.
Proof.
  revert prev pos. induction bs as [|[n u] bs IH]; intros prev pos; cbn [seg free_or_end].
  - intros _ ->. exists [], []. cbn. split; [done|lia].
  - intros (_ & _ & _ & _ & _ & _ & Hs) [[_ ->]|Ho].
    + exists [], ((n, u) :: bs). cbn. split; [done|lia].
    + destruct (IH _ _ Hs Ho) as (pre & rest & -> & ->). exists ((n, u) :: pre), rest. cbn. split; [done|lia].
Qed.

Definition malloc_result (h : heap_state) (bs : list block) (size : Z) : option (Z * list block) :=
  first_fit 0 (h_lfree h) (h_size h - size) size bs.
Lemma wp_malloc_section h bs size (Q : option Z -> heap_state -> Prop) :
  heap_ok h bs -> 0 < size <= h_size h -> size mod RT_ALIGN_SIZE = 0 ->
  (malloc_result h bs size = None -> Q None h) ->
  (forall pre n post h', bs = pre ++ (n, false) :: post -> fits size n ->
     malloc_result h bs size = Some (total pre, pre ++ carve size n ++ post) ->
     heap_ok h' (pre ++ carve size n ++ post) ->
     (lowest h bs -> lowest h' (pre ++ carve size n ++ post)) -> same_area h h' ->
     h_used_mem h' = h_used_mem h + taken size n -> h_max_mem h' = Z.max (h_max_mem h) (h_used_mem h') ->
     Q (Some (total pre)) h') ->
  wp (malloc_section size) Q h.
Proof.
  intros H Hs Hsm Hno Hok. destruct (free_or_end_split _ _ _ _ _ _ (ho_seg _ _ H) (ho_lfree _ _ H)) as (pre & rest & -> & Hl).
  change (0 + total pre) with (total pre) in Hl. pose proof (ho_seg _ _ H) as Hseg. rewrite seg_app, Z.add_0_l in Hseg. destruct Hseg as [Hs1 Hs2].
  pose proof header_pos as Hp. pose proof (seg_total Hp _ _ _ _ _ Hs1). pose proof (seg_total Hp _ _ _ _ _ Hs2).
  pose proof (seg_top _ _ _ _ _ Hs2) as Htop.
  assert (malloc_result h (pre ++ rest) size = under pre (first_fit (total pre) (total pre) (h_size h - size) size rest)) as Hres.
  { unfold malloc_result. rewrite Hl. by apply (first_fit_below (h_node h) 0); [rewrite Z.add_0_l|]. }
  unfold malloc_section. do 2 wp1. do 2 wp1. rewrite Hl, Hres in *. rewrite <- (app_nil_r pre) at 1.
  eapply (wp_malloc_scan h pre size Q rest []); [exact H|done|unfold heap_fuel; lia|by intros ? ?%elem_of_nil| |].
  - cbn [app]. intros x n post -> Hlt Hfit Hun. wp1.
    assert (forall l : list block, pre ++ x ++ l = (pre ++ x) ++ l) as Eapp by (intros; by rewrite app_assoc).
    rewrite Eapp in *. eapply wp_malloc_take; [exact H|done|lia|done|]. intros h' K1 K2 K3 K4 K5. wp1.
    apply (Hok (pre ++ x) n post h'); try done.
    rewrite first_fit_skip by done. cbn [first_fit negb andb]. rewrite total_app in *.
    destruct (Z.leb_spec (total pre) (total pre + total x)) as [_|Hb].
    + destruct (Z.ltb_spec (total pre + total x) (h_size h - size)); [|lia].
      destruct (Z.leb_spec (SIZEOF_STRUCT_MEM + size) n); [|unfold fits in Hfit; lia]. cbn. by rewrite <- app_assoc.
    + rewrite seg_app in Hs2. destruct Hs2 as [Hx _]. pose proof (seg_total Hp _ _ _ _ _ Hx). lia.
  - cbn [app]. intros Hn. apply Hno. rewrite first_fit_none; [done|]. intros x n post -> Hlt. eapply Hn; [done|]. by rewrite total_app.
Qed.
Lemma wp_malloc_asserts h pre n post size (Q : unit -> heap_state -> Prop) :
  heap_ok h (pre ++ (n, true) :: post) -> 0 <= size -> SIZEOF_STRUCT_MEM + size <= n -> Q tt h -> wp (malloc_asserts (total pre) size) Q h.
Proof.
  intros H Hs0 Hs HQ. pose proof (seg_mid _ _ _ _ _ (ho_seg _ _ H)) as [M1 M2 M3 M4 M5 M6 M7 M8].
  pose proof (ho_base _ _ H) as (B1 & B2 & B3). pose proof header_size as [_ Hm]. pose proof header_pos.
  assert ((h_ptr h + total pre) mod RT_ALIGN_SIZE = 0) as Ha by (apply mod_align_add; [done|by eapply total_mod]).
  unfold malloc_asserts. do 2 wp1. do 2 wp1. rewrite uint_small by lia. wp1. wp1; [by apply Z.leb_le; lia|].
  wp1. wp1; [by apply Z.eqb_eq, mod_align_add|]. wp1; [by rewrite land_low; apply Z.eqb_eq|]. done.
Qed.

(** *** Giving a block back *)
Lemma lowest_free_step pre n u post h : lowest h (pre ++ (n, true) :: post) -> forall h',
  h_lfree h' = (if total pre <? h_lfree h then total pre else h_lfree h) -> u = false ->
  seg (h_node h) 0 0 (pre ++ (n, true) :: post) (h_end h) -> lowest h' (pre ++ (n, u) :: post).
Proof.
  unfold lowest. intros Hl h' E -> Hs. rewrite E, Hl. apply seg_mid in Hs as [_ _ _ _ [Hn _] Hpre Hpost _].
  rewrite !first_free_app, Z.add_0_l. pose proof header_pos. destruct (forallb _ pre) eqn:Eb; cbn [first_free].
  - destruct (forallb (fun c : block => c.2) post) eqn:Ep.
    + rewrite (forallb_used_first _ post Ep). pose proof (seg_total header_pos _ _ _ _ _ Hpost). destruct (Z.ltb_spec (total pre) (total pre + n + total post)); lia.
    + rewrite (seg_top _ _ _ _ _ Hpost) in Hpost. pose proof (forallb_free_first _ _ _ _ _ Hpost Ep).
      destruct (Z.ltb_spec (total pre) (first_free (total pre + n) post)); lia.
  - pose proof (forallb_free_first _ _ _ _ _ Hpre Eb). destruct (Z.ltb_spec (total pre) (first_free 0 pre)); lia.
Qed.
Definition unused_node (nd : Z -> heap_mem) (p : Z) : Z -> heap_mem :=
  let nd := <[p := set_hm_used 0 (nd p)]> nd in <[p := set_hm_magic 0 (nd p)]> nd.
Lemma seg_unused_node nd pre n post top :
  seg nd 0 0 (pre ++ (n, true) :: post) top -> seg (unused_node nd (total pre)) 0 0 (pre ++ (n, false) :: post) top.
Proof.
  pose proof header_pos as Hp. rewrite !seg_app, !Z.add_0_l. cbn [seg]. intros (Hpre & M1 & M2 & M3 & M4 & M5 & M6 & Hpost). unfold unused_node.
  rewrite !upd_eq. cbn. split.
  - eapply (seg_frame Hp); [exact Hpre|]. intros q Hq. by rewrite !upd_ne by lia.
  - split_and!; try done. eapply (seg_frame Hp); [exact Hpost|]. intros q Hq. by rewrite !upd_ne by lia.
Qed.
(** Whenever [m] returns, [P] holds of the heap it leaves. *)
Definition ends {A} (P : heap_state -> Prop) (m : M heap_state A) : Prop := forall h a h', m h = Some (a, h') -> P h'.
Lemma ends_bind {A B} P (m : M heap_state A) (f : A -> M heap_state B) : (forall a, ends P (f a)) -> ends P (m ≫= f).
Proof. intros Hf h b h' E. unfold mbind, M_bind in E. destruct (m h) as [[a h1]|]; [|done]. by eapply Hf. Qed.
(** Merging forgets no header: the freed one stays marked as not used, even when
    another block swallows it. *)
Definition keeps_used {A} (m : M heap_state A) : Prop :=
  forall h a h', m h = Some (a, h') -> forall p, hm_used (h_node h' p) = hm_used (h_node h p).
Lemma keeps_bind {A B} (m : M heap_state A) (f : A -> M heap_state B) : keeps_used m -> (forall a, keeps_used (f a)) -> keeps_used (m ≫= f).
Proof.
  intros Hm Hf h b h' E p. unfold mbind, M_bind in E. destruct (m h) as [[a h1]|] eqn:Em; [|done].
  rewrite (Hf _ _ _ _ E). by apply (Hm h a).
Qed.
Lemma keeps_gets {A} (f : heap_state -> A) : keeps_used (gets f).
Proof. by intros h a h' [= _ <-]. Qed.
Lemma keeps_ret {A} (a : A) : keeps_used (mret a).
Proof. by intros h b h' [= _ <-]. Qed.
Lemma keeps_lfree v : keeps_used (modify (set_h_lfree v)).
Proof. by intros h a h' [= _ <-]. Qed.
Lemma keeps_node q f : (forall m, hm_used (f m) = hm_used m) -> keeps_used (mod_node q f).
Proof. intros Hf h a h' [= _ <-] p. cbn. rewrite upd_case. case_decide; [subst; by rewrite Hf|done]. Qed.
Lemma plug_keeps_used mem : keeps_used (plug_next mem) /\ keeps_used (plug_prev mem).
Proof.
  unfold plug_next, plug_prev, node. split.
  all: repeat first [apply keeps_bind; [|intros ?] | apply keeps_gets | apply keeps_ret | apply keeps_lfree | by apply keeps_node | case_match].
Qed.
Lemma free_section_clears mem : ends (fun h => hm_used (h_node h mem) = 0) (free_section mem).
Proof.
  unfold free_section. do 9 (apply ends_bind; intros ?). intros h [] h' E. unfold plug_holes, node, mbind, M_bind, gets, rt_assert in E.
  destruct (0 <=? mem); [|done]. destruct (mem <? h_end h); [|done]. destruct (Z.eqb_spec (hm_used (h_node h mem)) 0) as [E0|]; [|done].
  destruct (plug_next mem h) as [[[] h1]|] eqn:E1; [|done].
  by rewrite (proj2 (plug_keeps_used mem) _ _ _ E), (proj1 (plug_keeps_used mem) _ _ _ E1).
Qed.
Lemma wp_free_section h pre n post (Q : unit -> heap_state -> Prop) :
  heap_ok h (pre ++ (n, true) :: post) ->
  (forall h', heap_ok h' (plugged pre n post) -> (lowest h (pre ++ (n, true) :: post) -> lowest h' (plugged pre n post)) ->
     same_area h h' -> h_used_mem h' = h_used_mem h - n -> h_max_mem h' = h_max_mem h -> Q tt h') ->
  wp (free_section (total pre)) Q h.
Proof.
  intros H HQ. pose proof (seg_mid _ _ _ _ _ (ho_seg _ _ H)) as [M1 M2 M3 M4 M5 M6 M7 M8]. pose proof (ho_seg _ _ H) as Hseg.
  pose proof header_pos as Hp. pose proof (ho_base _ _ H) as (B1 & B2 & B3). unfold free_section. wp1. apply wp_node.
  wp1. wp1; [by rewrite M3|]. wp1. wp1; [by rewrite M4|]. wp1. apply wp_mod_node. wp1. apply wp_mod_node.
  do 2 wp1. set (h1 := set_h_node _ _). change (h_lfree h1) with (h_lfree h).
  assert (h_node h1 = unused_node (h_node h) (total pre)) as En by done.
  assert (forall l, l = (if total pre <? h_lfree h then total pre else h_lfree h) ->
    wp (m ← node (total pre); modify (fun h => set_h_used_mem (uint32 (h_used_mem h - (hm_next m - total pre))) h) ;; plug_holes (total pre)) Q (set_h_lfree l h1)) as Hend.
  { intros l El. wp1. apply wp_node. do 2 wp1. change (h_node (set_h_lfree l h1)) with (h_node h1). rewrite En.
    assert (hm_next (unused_node (h_node h) (total pre) (total pre)) = total pre + n) as -> by (unfold unused_node; rewrite !upd_eq; exact M1).
    replace (total pre + n - total pre) with n by lia. set (h2 := set_h_used_mem _ _).
    assert (h_used_mem h2 = used_total pre + used_total post) as Eu.
    { change (uint32 (h_used_mem h - n) = used_total pre + used_total post). rewrite (ho_used _ _ H), used_total_app. cbn [used_total].
      pose proof (used_total_range _ _ _ _ _ M6). pose proof (used_total_range _ _ _ _ _ M7). rewrite uint_small by lia. lia. }
    assert (raw_ok h2 (pre ++ (n, false) :: post)) as Hraw.
    { split; try done.
      - apply seg_unused_node, Hseg.
      - split; [apply H|]. change (h_node h2) with (unused_node (h_node h) (total pre)). change (h_end h2) with (h_end h). unfold unused_node.
        pose proof (seg_total Hp _ _ _ _ _ M7). rewrite !upd_ne by lia. apply H.
      - apply H.
      - change (h_lfree h2) with l. pose proof (ho_lfree _ _ H) as Hf. revert Hf. rewrite !free_or_end_app. cbn [free_or_end].
        rewrite El. destruct (total pre <? h_lfree h); [by right; left|]. intros [Hf|[[? _]|Hf]]; [by left|done|by right; right].
      - by rewrite Eu, used_pre_post. }
    eapply wp_plug_holes; [exact Hraw|exists true; apply H|]. intros h' H1 (A1 & A2 & A3) H2. apply HQ; try done.
    - intros Hl. apply H2. by eapply (lowest_free_step pre n false post h Hl).
    - rewrite A2, Eu, (ho_used _ _ H), used_total_app. cbn. lia. }
  wp1. destruct (total pre <? h_lfree h) eqn:E; wp1; apply (Hend _ eq_refl).
Qed.
End heap_spec.
