(* ===== verification/HeapCalls.v ===== *)
(** The calls of the small memory allocator (rt_system_heap_init, rt_malloc, rt_free,
    rt_realloc, rt_calloc) when its semaphore is free: none of them waits, nothing but
    the heap changes, and the blocks change as the first-fit reference says. *)
From S2P Require Import Prelude RtList Kservice MemOps Kernel Scheduler Object TimerCore Invariant Thread Timer Ipc Semaphore Resume Mem HeapSpec.

Section quiet.
Context {cfg : Config} {sz : ObjectSizes} {st : StaticThreads} {hs : HeapSem}.
Implicit Types (L : lnode -> option (list lnode)).

(** The semaphore is free and no interrupt is served. *)
Record quiet (k : kstate) : Prop := {
  qu_value : sem_value (k_sems k heap_sem) = 1;
  qu_empty : rt_list_isempty (k_links (k_core k)) (LSuspend (OSem heap_sem)) = true;
  qu_nest : k_interrupt_nest (k_core k) = 0
}.
(** [k'] is [k] with the heap [h] and the semaphore counter [v]. *)
Record heap_step (k k' : kstate) (h : heap_state) (v : Z) : Prop := {
  mv_eq : k' = set_k_sems (k_sems k') (set_k_core (set_k_heap h (k_core k)) k);
  mv_sems : forall s, k_sems k' s = if decide (s = heap_sem) then mk_sem v else k_sems k s
}.
Lemma mv_core k k' h v : heap_step k k' h v -> k_core k' = set_k_heap h (k_core k).
Proof. intros [-> _]. done. Qed.
Lemma mv_heap k k' h v : heap_step k k' h v -> the_heap k' = h.
Proof. intros H. unfold the_heap. by rewrite (mv_core _ _ _ _ H). Qed.
Lemma heap_step_refl k : quiet k -> heap_step k k (the_heap k) 1.
Proof.
  intros [Q1 _ _]. split; [by destruct k as [[]]|]. intros s. case_decide as E; [|done]. subst s. rewrite <- Q1. by destruct (k_sems k heap_sem).
Qed.
Lemma heap_step_quiet k k' h : quiet k -> heap_step k k' h 1 -> quiet k'.
Proof.
  intros [Q1 Q2 Q3] H. split; rewrite ?(mv_core _ _ _ _ H); [|done..]. rewrite (mv_sems _ _ _ _ H). by rewrite decide_True.
Qed.
Lemma heap_step_trans k k1 k2 h1 h2 v1 v2 : heap_step k k1 h1 v1 -> heap_step k1 k2 h2 v2 -> heap_step k k2 h2 v2.
Proof.
  intros [-> E1] [-> E2]. split; [done|]. intros s. cbn in *. rewrite E2. case_decide; [done|]. by rewrite E1, decide_False.
Qed.
Lemma set_heap_kinv h (c : kcore) L : kinv c L -> kinv (set_k_heap h c) L.
Proof.
  intros H. apply (kinv_intro c).
  - destruct H as [[] _ _ _]. by split.
  - exact (ki_lists _ _ H).
  - intros t Ht. split_and!; done.
  - intros t Ht. by apply (kinv_threads _ L).
Qed.
(** What the semaphore's own contract says of a free heap. *)
Lemma sem_rep_quiet k L : sem_rep k L heap_sem 1 [] -> k_interrupt_nest (k_core k) = 0 -> quiet k.
Proof. intros [S1 S2 S3 S4 S5] Hn. split; [done| |done]. rewrite (rep_isempty _ _ _ _ (kinv_rep _ _ S1) S4). done. Qed.
Lemma sem_rep_heap_step k k' L h : sem_rep k L heap_sem 1 [] -> heap_step k k' h 1 -> sem_rep k' L heap_sem 1 [].
Proof.
  intros [S1 S2 S3 S4 S5] H. split; try done.
  - rewrite (mv_core _ _ _ _ H). by apply set_heap_kinv.
  - rewrite (mv_sems _ _ _ _ H). by rewrite decide_True.
Qed.

Lemma not_in_interrupt_run (Q : unit -> kstate -> Prop) k : k_interrupt_nest (k_core k) = 0 -> Q tt k -> wp (lift RT_DEBUG_NOT_IN_INTERRUPT) Q k.
Proof. intros Hn HQ. wp1. unfold RT_DEBUG_NOT_IN_INTERRUPT. do 2 wp1. rewrite Hn. wp1; [done|]. by rewrite set_k_core_id. Qed.
Lemma wpr_not_in_interrupt {A} (f : unit -> R kstate A) Q k :
  k_interrupt_nest (k_core k) = 0 -> wpr (f tt) Q k -> wpr (now (lift RT_DEBUG_NOT_IN_INTERRUPT) ≫= f) Q k.
Proof. intros Hn HQ. wpr1. wpr1. by apply not_in_interrupt_run. Qed.
Lemma wp_run_eq {S A} (m : M S A) (Q : A -> S -> Prop) s : wp m (fun a s' => m s = Some (a, s') -> Q a s') s -> wp m Q s.
Proof. unfold wp. destruct (m s) as [[a s']|]; auto. Qed.
Lemma wpr_on_heap {A} (m : M heap_state A) Q k k1 h v :
  heap_step k k1 h v -> wp m (fun a h' => forall k2, heap_step k k2 h' v -> Q a k2) h -> wpr (now (on_heap m)) Q k1.
Proof.
  intros H Hm. wpr1. unfold wp, on_heap in *. rewrite (mv_heap _ _ _ _ H). destruct (m h) as [[a h']|]; [|done]. apply Hm.
  destruct H as [-> E]. split; [done|exact E].
Qed.
Lemma wpr_gets_heap {A} (f : heap_state -> A) Q k1 : Q (f (the_heap k1)) k1 -> wpr (now (on_heap (gets f))) Q k1.
Proof. intros H. wpr1. unfold wp, on_heap, gets. assert (set_k_core (set_k_heap (the_heap k1) (k_core k1)) k1 = k1) as -> by (by destruct k1 as [[]]). exact H. Qed.
Lemma wpr_take Q k : quiet k -> (forall k1, heap_step k k1 (the_heap k) 0 -> Q RT_EOK k1) -> wpr take_heap_sem Q k.
Proof.
  intros [Q1 _ _] HQ. apply wpr_await. unfold rt_sem_take, sem, mod_sem. do 2 wp1. rewrite Q1. cbn [Z.gtb Z.compare].
  do 2 wp1. wp1. apply HQ. split; [by destruct k as [[]]|]. intros s. cbn. rewrite upd_case.
  destruct (decide (heap_sem = s)) as [<-|]; [by rewrite decide_True|by rewrite decide_False].
Qed.
Lemma wpr_release Q k k1 h : quiet k -> heap_step k k1 h 0 -> (forall k2, heap_step k k2 h 1 -> Q RT_EOK k2) -> wpr release_heap_sem Q k1.
Proof.
  intros [Q1 Q2 Q3] H HQ. unfold release_heap_sem. wpr1. unfold rt_sem_release, mod_sem. do 2 wp1.
  rewrite (mv_core _ _ _ _ H). ksimpl. rewrite Q2. cbn [negb]. wp1. do 2 wp1. wp1. do 2 wp1. wp1. apply HQ.
  destruct H as [-> E]. split; [done|]. intros s. cbn in *. rewrite upd_case, !E, (decide_True (P := heap_sem = heap_sem)) by done.
  destruct (decide (heap_sem = s)) as [<-|]; [by rewrite decide_True|by rewrite !decide_False].
Qed.
End quiet.

Section calls.
Context {cfg : Config} {al : AlignOK cfg} {sz : ObjectSizes} {st : StaticThreads} {hs : HeapSem}.
Implicit Types (k : kstate).

(** ** rt_malloc *)
Definition malloc_spec (h : heap_state) (bs : list block) (size : Z) : option (Z * list block) :=
  if (size =? 0) || (RT_ALIGN size RT_ALIGN_SIZE >? h_size h) then None else malloc_result h bs (malloc_size size).
Lemma malloc_size_ok size n : MIN_SIZE_ALIGNED <= n -> RT_ALIGN size RT_ALIGN_SIZE <= n ->
  0 < malloc_size size <= n /\ malloc_size size mod RT_ALIGN_SIZE = 0.
Proof.
  intros Hn Ha. pose proof min_size as [H1 H2]. pose proof (RT_ALIGN_range size). unfold malloc_size.
  destruct (Z.ltb_spec (RT_ALIGN size RT_ALIGN_SIZE) MIN_SIZE_ALIGNED); (split; [lia|]); [done|apply RT_ALIGN_mod].
Qed.
Lemma malloc_size_ge size : 0 <= size -> size + RT_ALIGN_SIZE <= 2 ^ 32 -> size <= malloc_size size.
Proof. intros H1 H2. destruct (RT_ALIGN_spec size H1 H2) as [H _]. unfold malloc_size. destruct (Z.ltb_spec (RT_ALIGN size RT_ALIGN_SIZE) MIN_SIZE_ALIGNED); lia. Qed.
Lemma carve_head size n post : fits size n -> exists m post', carve size n ++ post = (m, true) :: post' /\ SIZEOF_STRUCT_MEM + size <= m <= n.
Proof.
  unfold fits, carve. intros Hf. pose proof min_size. pose proof header_pos.
  destruct (Z.geb_spec (n - SIZEOF_STRUCT_MEM) (size + SIZEOF_STRUCT_MEM + MIN_SIZE_ALIGNED)).
  - eexists _, _. split; [reflexivity|lia].
  - eexists _, _. split; [reflexivity|lia].
Qed.
(** A block was granted: the heap [h'] has it used at [pre]. *)
Record granted (h h' : heap_state) (bs pre : list block) (n : Z) (post : list block) (size : Z) : Prop := {
  gr_was : bs = pre ++ (n, false) :: post;
  gr_fits : fits (malloc_size size) n;
  gr_spec : malloc_spec h bs size = Some (total pre, pre ++ carve (malloc_size size) n ++ post);
  gr_ok : heap_ok h' (pre ++ carve (malloc_size size) n ++ post);
  gr_lowest : lowest h bs -> lowest h' (pre ++ carve (malloc_size size) n ++ post);
  gr_area : same_area h h';
  gr_used : h_used_mem h' = h_used_mem h + taken (malloc_size size) n;
  gr_max : h_max_mem h' = Z.max (h_max_mem h) (h_used_mem h')
}.
Lemma wpr_malloc k bs size (Q : option Z -> kstate -> Prop) :
  quiet k -> heap_ok (the_heap k) bs ->
  (malloc_spec (the_heap k) bs size = None -> heap_malloc (the_heap k) size = (None, the_heap k) ->
     forall k', heap_step k k' (the_heap k) 1 -> Q None k') ->
  (forall pre n post h', granted (the_heap k) h' bs pre n post size ->
     heap_malloc (the_heap k) size = (Some (h_ptr (the_heap k) + total pre + SIZEOF_STRUCT_MEM), h') ->
     forall k', heap_step k k' h' 1 -> Q (Some (h_ptr (the_heap k) + total pre + SIZEOF_STRUCT_MEM)) k') ->
  wpr (rt_malloc size) Q k.
Proof.
  intros Hq H Hno Hok. set (h := the_heap k) in *. apply wpr_not_in_interrupt; [apply Hq|]. unfold malloc_spec, heap_malloc in *. cbn [small_heap] in *.
  unfold small_malloc in *. destruct (size =? 0) eqn:E0; [wpr1; apply Hno; [done|done|by apply heap_step_refl]|]. wpr1. apply wpr_gets_heap. fold h.
  destruct (Z.gtb_spec (RT_ALIGN size RT_ALIGN_SIZE) (h_size h)) as [|Ha]; [wpr1; apply Hno; [done|done|by apply heap_step_refl]|]. cbn [orb] in *.
  destruct (malloc_size_ok size (h_size h)) as [Hs Hsm]; [apply (ho_size _ _ H)|done|].
  wpr1. apply wpr_take; [done|]. intros k1 M1. fold h in M1. wpr1. eapply wpr_on_heap; [exact M1|].
  apply wp_run_eq. eapply wp_malloc_section; [exact H|exact Hs|exact Hsm|..].
  - intros Hn Hr k2 M2. wpr1. eapply wpr_release; [exact Hq|exact M2|]. intros k3 M3. wpr1. rewrite Hr in Hno. by apply Hno.
  - intros pre n post h' Ebs Hfit Hres Hk Hl Hsa Hu Hx Hr k2 M2. wpr1. eapply wpr_release; [exact Hq|exact M2|]. intros k3 M3. wpr1.
    eapply wpr_on_heap; [exact M3|]. destruct (carve_head _ n post Hfit) as (m & post' & Ec & Hm). pose proof Hk as Hk'. rewrite Ec in Hk'.
    eapply wp_malloc_asserts; [exact Hk'|lia|lia|]. intros k4 M4. wpr1. apply wpr_gets_heap. wpr1.
    rewrite (mv_heap _ _ _ _ M4), (proj1 Hsa). rewrite Hr in Hok. apply (Hok pre n post h'); [|done|done].
    split; try done. unfold malloc_spec. rewrite E0. cbn [orb]. destruct (Z.gtb_spec (RT_ALIGN size RT_ALIGN_SIZE) (h_size h)); [lia|done].
Qed.

(** C4 With its semaphore free, rt_malloc never waits and never fails an assertion. It
    returns what the first-fit reference says: NULL with the heap unchanged, or the
    first block at or after lfree that fits, split when the remainder can hold a block;
    the heap stays well formed, and nothing else in the kernel changes. *)
Theorem rt_malloc_refines k bs size :
  quiet k -> heap_ok (the_heap k) bs ->
  exists r k' h', rt_malloc size k = Some (Done r, k') /\ heap_step k k' h' 1 /\ heap_malloc (the_heap k) size = (r, h') /\
    match malloc_spec (the_heap k) bs size with
    | None => r = None /\ h' = the_heap k
    | Some (o, bs') => r = Some (h_ptr (the_heap k) + o + SIZEOF_STRUCT_MEM) /\ heap_ok h' bs' /\
        (lowest (the_heap k) bs -> lowest h' bs') /\ same_area (the_heap k) h'
    end.
Proof.
  intros Hq H. assert (wpr (rt_malloc size) (fun r k' => exists h', heap_step k k' h' 1 /\ heap_malloc (the_heap k) size = (r, h') /\
    match malloc_spec (the_heap k) bs size with
    | None => r = None /\ h' = the_heap k
    | Some (o, bs') => r = Some (h_ptr (the_heap k) + o + SIZEOF_STRUCT_MEM) /\ heap_ok h' bs' /\
        (lowest (the_heap k) bs -> lowest h' bs') /\ same_area (the_heap k) h'
    end) k) as Hw.
  { apply (wpr_malloc k bs); [done|done|..].
    - intros E Er k' M. rewrite E. eauto.
    - intros pre n post h' G Er k' M. exists h'. rewrite (gr_spec _ _ _ _ _ _ _ G). split_and!; try done; apply G. }
  apply wpr_run in Hw as (r & k' & E & h' & Hr). by exists r, k', h'.
Qed.

(** What rt_malloc returns is safe to use: an aligned address whose block was free,
    lies inside the heap, has at least the requested size, and is used afterwards,
    while the used blocks of before stay where they were. *)
Theorem rt_malloc_safe k bs size a k' :
  quiet k -> heap_ok (the_heap k) bs -> 0 <= size -> size + RT_ALIGN_SIZE <= 2 ^ 32 -> rt_malloc size k = Some (Done (Some a), k') ->
  exists pre n post m post', bs = pre ++ (n, false) :: post /\ heap_ok (the_heap k') (pre ++ (m, true) :: post') /\
    a = h_ptr (the_heap k) + total pre + SIZEOF_STRUCT_MEM /\ a mod RT_ALIGN_SIZE = 0 /\ m <= n /\
    a + size <= h_ptr (the_heap k) + total pre + m /\ total pre + m <= h_end (the_heap k) /\
    (post' = post \/ post' = (n - m, false) :: post).
Proof.
  intros Hq H Hs0 Hs E. assert (wpr (rt_malloc size) (fun r k' => r = Some a -> exists pre n post m post', bs = pre ++ (n, false) :: post /\
    heap_ok (the_heap k') (pre ++ (m, true) :: post') /\
    a = h_ptr (the_heap k) + total pre + SIZEOF_STRUCT_MEM /\ a mod RT_ALIGN_SIZE = 0 /\ m <= n /\
    a + size <= h_ptr (the_heap k) + total pre + m /\ total pre + m <= h_end (the_heap k) /\
    (post' = post \/ post' = (n - m, false) :: post)) k) as Hw.
  { apply (wpr_malloc k bs); [done|done|done|]. intros pre n post h' [-> Hf _ Hk _ _ _ _] _ k1 M [= <-]. exists pre, n, post.
    rewrite (mv_heap _ _ _ _ M). pose proof (seg_mid _ _ _ _ _ (ho_seg _ _ H)) as [_ _ _ _ _ Hpre _ Hr].
    pose proof (malloc_size_ge size Hs0 Hs). pose proof header_pos. pose proof min_size.
    assert ((h_ptr (the_heap k) + total pre + SIZEOF_STRUCT_MEM) mod RT_ALIGN_SIZE = 0).
    { pose proof (ho_base _ _ H) as (_ & ? & _). apply mod_align_add; [|apply header_size]. apply mod_align_add; [done|by eapply total_mod]. }
    unfold fits in Hf. unfold carve in Hk.
    destruct (Z.geb_spec (n - SIZEOF_STRUCT_MEM) (malloc_size size + SIZEOF_STRUCT_MEM + MIN_SIZE_ALIGNED)); cbn [app] in Hk.
    - eexists _, _. split; [done|]. split; [exact Hk|]. split_and!; try done; try lia. right. do 2 f_equal. lia.
    - eexists _, _. split; [done|]. split; [exact Hk|]. split_and!; try done; try lia. by left. }
  unfold wpr in Hw. rewrite E in Hw. by apply Hw.
Qed.

(** ** rt_free *)
Lemma block_address h pre n u post : heap_ok h (pre ++ (n, u) :: post) ->
  let a := h_ptr h + total pre + SIZEOF_STRUCT_MEM in
  a mod RT_ALIGN_SIZE = 0 /\ (total pre + SIZEOF_STRUCT_MEM < h_end h -> in_heap h a = true).
Proof.
  intros H a. pose proof (seg_mid _ _ _ _ _ (ho_seg _ _ H)) as [_ _ _ _ [Hn _] Hpre Hpost Hr]. pose proof (ho_base _ _ H) as (_ & Hb & _). split.
  - apply mod_align_add; [|apply header_size]. apply mod_align_add; [done|by eapply total_mod].
  - intros Hne. pose proof header_pos as Hp. unfold in_heap, a. apply andb_true_intro. split; [apply Z.leb_le; lia|apply Z.ltb_lt; lia].
Qed.
(** The blocks behind the addresses rt_malloc returns. *)
Record used_block (h : heap_state) (bs pre : list block) (n : Z) (post : list block) (a : Z) : Prop := {
  ub_ok : heap_ok h bs;
  ub_at : bs = pre ++ (n, true) :: post;
  ub_addr : a = h_ptr h + total pre + SIZEOF_STRUCT_MEM;
  ub_data : total pre + SIZEOF_STRUCT_MEM < h_end h
}.
Lemma wpr_free k bs pre n post a (Q : unit -> kstate -> Prop) :
  quiet k -> used_block (the_heap k) bs pre n post a ->
  (forall h' k', heap_ok h' (plugged pre n post) -> (lowest (the_heap k) bs -> lowest h' (plugged pre n post)) ->
     same_area (the_heap k) h' -> h_used_mem h' = h_used_mem (the_heap k) - n -> h_max_mem h' = h_max_mem (the_heap k) ->
     hm_used (h_node h' (total pre)) = 0 -> heap_step k k' h' 1 -> Q tt k') ->
  wpr (rt_free (Some a)) Q k.
Proof.
  intros Hq [H -> -> Hd] HQ. set (h := the_heap k) in *. destruct (block_address _ _ _ _ _ H) as [Ha Hin]. specialize (Hin Hd). cbn zeta in *.
  apply wpr_not_in_interrupt; [apply Hq|]. wpr1. wpr1. wp1; [by rewrite land_low; apply Z.eqb_eq|]. wpr1. apply wpr_gets_heap.
  fold h. rewrite Hin. wpr1. wpr1. wp1; [done|]. cbn [negb]. wpr1. apply wpr_gets_heap. wpr1. apply wpr_take; [done|]. intros k1 M1. wpr1.
  eapply wpr_on_heap; [exact M1|]. fold h. replace (h_ptr h + total pre + SIZEOF_STRUCT_MEM - h_ptr h - SIZEOF_STRUCT_MEM) with (total pre) by lia.
  apply wp_run_eq. eapply wp_free_section; [exact H|]. intros h' H1 H2 H3 H4 H5 E k2 M2. apply free_section_clears in E. wpr1. eapply wpr_release; [exact Hq|exact M2|]. intros k3 M3. wpr1. by apply (HQ h').
Qed.

(** C5 rt_free gives a used block back: no assertion fails, the block is free and merged
    with its free neighbours on both sides, lfree stays the lowest free block and the
    statistics lose the size of the block. *)
Theorem rt_free_refines k bs pre n post a :
  quiet k -> used_block (the_heap k) bs pre n post a ->
  exists k' h', rt_free (Some a) k = Some (Done tt, k') /\ heap_step k k' h' 1 /\ heap_ok h' (plugged pre n post) /\
    (lowest (the_heap k) bs -> lowest h' (plugged pre n post)) /\ same_area (the_heap k) h' /\
    h_used_mem h' = h_used_mem (the_heap k) - n.
Proof.
  intros Hq Hu. assert (wpr (rt_free (Some a)) (fun _ k' => exists h', heap_step k k' h' 1 /\ heap_ok h' (plugged pre n post) /\
    (lowest (the_heap k) bs -> lowest h' (plugged pre n post)) /\ same_area (the_heap k) h' /\
    h_used_mem h' = h_used_mem (the_heap k) - n) k) as Hw.
  { eapply wpr_free; [done..|]. intros h' k' H1 H2 H3 H4 H5 _ M. by exists h'. }
  apply wpr_run in Hw as ([] & k' & E & h' & Hr). by exists k', h'.
Qed.

(** The call stops at an assertion unless the header below the address is that of a
    used block. *)
Lemma rt_free_stops k a : quiet k ->
  a mod RT_ALIGN_SIZE <> 0 \/ in_heap (the_heap k) a = false \/
    hm_used (h_node (the_heap k) (a - h_ptr (the_heap k) - SIZEOF_STRUCT_MEM)) = 0 ->
  rt_free (Some a) k = None.
Proof.
  intros Hq Hbad. set (h := the_heap k) in *. change (stops (rt_free (Some a)) k). unfold rt_free.
  apply stops_later, wpr_now. apply not_in_interrupt_run; [apply Hq|]. assert (forall (f : unit -> R kstate unit) b, (b = true -> stops (f tt) k) ->
    stops (now (rt_assert b) ≫= f) k) as Hassert.
  { intros f [] Hf; [apply stops_later, wpr_now; wp1; [done|]; by apply Hf|done]. }
  apply Hassert. rewrite land_low, Z.eqb_eq. intros Ea. apply stops_later, wpr_gets_heap. fold h.
  apply Hassert. intros Ein. rewrite Ein. cbn [negb]. destruct Hbad as [?|[?|Hz]]; [done|congruence|].
  apply stops_later, wpr_gets_heap. fold h. apply stops_later, wpr_take; [done|]. intros k1 M1. apply stops_here.
  unfold stops, now, on_heap. rewrite (mv_heap _ _ _ _ M1). fold h. unfold free_section, node, mbind, M_bind, gets. by rewrite Hz.
Qed.
(** An address that no block can have, or that of a free block. *)
Definition no_used_block (h : heap_state) (bs : list block) (a : Z) : Prop :=
  a mod RT_ALIGN_SIZE <> 0 \/ in_heap h a = false \/
  exists pre n post, bs = pre ++ (n, false) :: post /\ a = h_ptr h + total pre + SIZEOF_STRUCT_MEM.

(** C40 rt_free stops at an assertion when the address is not aligned, lies outside the
    heap or is that of a free block; and when a block is freed twice in a row, also if
    the first time a neighbour swallowed it, so that no block starts there any more. *)
Theorem rt_free_rejects k bs :
  quiet k -> heap_ok (the_heap k) bs ->
  (forall a, no_used_block (the_heap k) bs a -> rt_free (Some a) k = None) /\
  (forall pre n post a, used_block (the_heap k) bs pre n post a ->
     exists k', rt_free (Some a) k = Some (Done tt, k') /\ rt_free (Some a) k' = None).
Proof.
  intros Hq H. split.
  - intros a Hbad. apply rt_free_stops; [done|]. destruct Hbad as [?|[?|(pre & n & post & -> & ->)]]; [by left|by right; left|].
    right. right. replace (_ - _ - _) with (total pre) by lia. apply (seg_mid _ _ _ _ _ (ho_seg _ _ H)).
  - intros pre n post a Hu. assert (wpr (rt_free (Some a)) (fun _ k' => rt_free (Some a) k' = None) k) as Hw.
    { eapply wpr_free; [done..|]. intros h' k' _ _ A _ _ Hz M. apply rt_free_stops; [by eapply heap_step_quiet|].
      right. right. rewrite (mv_heap _ _ _ _ M), (ub_addr _ _ _ _ _ _ Hu), (proj1 A). by replace (_ - _ - _) with (total pre) by lia. }
    apply wpr_run in Hw as ([] & k' & E). by exists k'.
Qed.

(** What was allocated and freed again leaves the heap as it was. *)
Lemma plugged_carve pre n post size : merged (pre ++ (n, false) :: post) -> fits size n ->
  exists m post', carve size n ++ post = (m, true) :: post' /\ SIZEOF_STRUCT_MEM + size <= m /\ plugged pre m post' = pre ++ (n, false) :: post.
Proof.
  intros (H1 & H2 & H3)%merged_app Hf. apply merged_cons in H2 as [H2 _].
  assert (merge_left pre n post = pre ++ (n, false) :: post) as Hl.
  { unfold merge_left. destruct (last pre) as [[k []]|] eqn:E; try done. by specialize (H3 _ (n, false) eq_refl eq_refl). }
  unfold carve, fits in *. pose proof min_size. pose proof header_pos.
  destruct (Z.geb_spec (n - SIZEOF_STRUCT_MEM) (size + SIZEOF_STRUCT_MEM + MIN_SIZE_ALIGNED)).
  - eexists _, _. split; [reflexivity|]. split; [lia|]. unfold plugged. cbn [merge_right app]. by replace (_ + _ + _) with n by lia.
  - eexists _, _. split; [reflexivity|]. split; [lia|]. unfold plugged. destruct post as [|[k []] post]; cbn [merge_right]; try done.
    by specialize (H2 (k, false) eq_refl).
Qed.
(** A round trip: freeing what rt_malloc just returned restores the blocks and the
    statistics of used memory. *)
Theorem rt_malloc_free_roundtrip k bs size a k1 :
  quiet k -> heap_ok (the_heap k) bs -> rt_malloc size k = Some (Done (Some a), k1) ->
  exists k2 h2, rt_free (Some a) k1 = Some (Done tt, k2) /\ heap_step k k2 h2 1 /\ heap_ok h2 bs /\
    (lowest (the_heap k) bs -> lowest h2 bs) /\ h_used_mem h2 = h_used_mem (the_heap k).
Proof.
  intros Hq H E. assert (wpr (rt_malloc size) (fun r k1 => r = Some a -> wpr (rt_free (Some a)) (fun _ k2 => exists h2, heap_step k k2 h2 1 /\
    heap_ok h2 bs /\ (lowest (the_heap k) bs -> lowest h2 bs) /\ h_used_mem h2 = h_used_mem (the_heap k)) k1) k) as Hw.
  { apply (wpr_malloc k bs); [done..|]. intros pre n post h' [-> Hf _ Hk Hl Hsa Hu _] _ k' M [= <-].
    destruct (plugged_carve pre n post (malloc_size size) (ho_merged _ _ H) Hf) as (m & post' & Ec & Hm & Ep). rewrite Ec in *.
    pose proof min_size. assert (0 < malloc_size size) as Hs by (unfold malloc_size; case_match; lia).
    eapply (wpr_free k' _ pre m post'); [by eapply heap_step_quiet| |].
    - split; rewrite ?(mv_heap _ _ _ _ M); [exact Hk|done|by rewrite (proj1 Hsa)|].
      pose proof (seg_mid _ _ _ _ _ (ho_seg _ _ Hk)) as [_ _ _ _ _ _ _ Hr]. lia.
    - rewrite (mv_heap _ _ _ _ M), Ep. intros h2 k2 R1 R2 R3 R4 R5 _ M2. exists h2. split_and!; [by eapply heap_step_trans|done|auto|].
      rewrite (ho_used _ _ R1), (ho_used _ _ H). done. }
  unfold wpr in Hw at 1. rewrite E in Hw. specialize (Hw eq_refl). apply wpr_run in Hw as ([] & k2 & E2 & h2 & Hr). by exists k2, h2.
Qed.

(** The search stops before offset mem_size_aligned - size, so a request for all of a
    fresh heap fails although its free block has exactly that many bytes. *)
Theorem rt_malloc_whole_heap_fails k bs :
  quiet k -> heap_ok (the_heap k) bs -> exists k', rt_malloc (h_size (the_heap k)) k = Some (Done None, k').
Proof.
  intros Hq H. set (n := h_size (the_heap k)) in *. pose proof (ho_size _ _ H) as [Hs1 Hs2]. fold n in Hs1, Hs2. pose proof min_size as [Hm _].
  assert (malloc_spec (the_heap k) bs n = None) as En.
  { assert (RT_ALIGN n RT_ALIGN_SIZE = n) as Ea.
    { pose proof (ho_base _ _ H) as (B1 & _ & B3). pose proof (ho_end _ _ H) as [E _]. fold n in E. pose proof align_header. pose proof align_range.
      destruct (RT_ALIGN_spec n) as [R1 R2]; [lia|lia|]. pose proof (mod_align_sub _ _ R2 Hs2) as R3. rewrite Z.mod_small in R3 by lia. lia. }
    unfold malloc_spec. destruct (Z.eqb_spec n 0); [lia|]. rewrite Ea. fold n. destruct (Z.gtb_spec n n); [lia|]. cbn [orb].
    assert (malloc_size n = n) as -> by (unfold malloc_size; rewrite Ea; destruct (Z.ltb_spec n MIN_SIZE_ALIGNED); lia).
    unfold malloc_result. fold n. apply first_fit_none. intros x m post -> Hlt. pose proof (ho_seg _ _ H) as Hseg.
    apply seg_mid in Hseg as [_ _ _ _ _ _ _ Hr]. lia. }
  assert (wpr (rt_malloc n) (fun r _ => r = None) k) as Hw.
  { apply (wpr_malloc k bs); [done..|]. intros pre m post h' G _ k' _. pose proof (gr_spec _ _ _ _ _ _ _ G). congruence. }
  apply wpr_run in Hw as (r & k' & E & ->). by exists k'.
Qed.
End calls.
