(* ===== verification/HeapRealloc.v ===== *)
(** The start of the heap (rt_system_heap_init), and the calls built on rt_malloc and
    rt_free: rt_calloc clears its block, rt_realloc keeps the contents. *)
From S2P Require Import Prelude RtList Kservice MemOps Kernel Scheduler Object TimerCore Invariant Thread Timer Ipc Semaphore Resume Mem HeapSpec HeapCalls.

Section realloc.
Context {cfg : Config} {al : AlignOK cfg} {sz : ObjectSizes} {st : StaticThreads} {hs : HeapSem}.

(** ** The start *)
Lemma RT_ALIGN_DOWN_spec s : 0 <= s < 2 ^ 32 -> RT_ALIGN_DOWN s RT_ALIGN_SIZE <= s /\ RT_ALIGN_DOWN s RT_ALIGN_SIZE mod RT_ALIGN_SIZE = 0.
Proof.
  intros Hs. unfold RT_ALIGN_DOWN. rewrite land_align. pose proof align_range. assert (0 < RT_ALIGN_SIZE) as Hp by lia. pose proof (Z.mod_pos_bound s _ Hp).
  split; [lia|]. by rewrite Zminus_mod_idemp_r, Z.sub_diag.
Qed.
Lemma wp_on_heap {A} (m : M heap_state A) Q k :
  wp m (fun a h' => Q a (set_k_core (set_k_heap h' (k_core k)) k)) (the_heap k) -> wp (on_heap m) Q k.
Proof. unfold wp, on_heap. destruct (m (the_heap k)) as [[a h]|]; done. Qed.
Lemma wp_sem_init s name value flag (Q : Z -> kstate -> Prop) k :
  0 <= value < 65536 ->
  (forall k', sem_value (k_sems k' s) = value -> rt_list_isempty (k_links (k_core k')) (LSuspend (OSem s)) = true ->
     k_interrupt_nest (k_core k') = k_interrupt_nest (k_core k) -> the_heap k' = the_heap k -> Q RT_EOK k') ->
  wp (rt_sem_init s name value flag) Q k.
Proof.
  intros Hv HQ. unfold rt_sem_init, rt_object_init, rt_ipc_object_init, mod_sem. wp_steps. apply HQ; try done.
  - cbn. rewrite upd_eq. by rewrite uint_small.
  - cbn. unfold rt_list_isempty. rewrite bool_decide_eq_true. cbn. by rewrite !upd_eq.
Qed.
(** The fresh heap, whatever the memory held before. *)
Lemma heap_ok_fresh h n :
  hm_next (h_node h 0) = n -> hm_prev (h_node h 0) = 0 -> hm_used (h_node h 0) = 0 -> hm_used (h_node h n) = 1 ->
  h_end h = n -> h_size h = n - SIZEOF_STRUCT_MEM -> h_lfree h = 0 -> h_used_mem h = 0 ->
  SIZEOF_STRUCT_MEM + MIN_SIZE_ALIGNED <= n -> n mod RT_ALIGN_SIZE = 0 ->
  0 <= h_ptr h -> h_ptr h mod RT_ALIGN_SIZE = 0 -> h_ptr h + n + SIZEOF_STRUCT_MEM <= 2 ^ 32 ->
  heap_ok h [(n, false)] /\ lowest h [(n, false)].
Proof.
  intros H1 H2 H3 H4 H5 H6 H7 H8 H9 H10 H11 H12 H13. pose proof header_size as [? ?]. pose proof min_size as [? ?]. split; [|done].
  split; cbn [seg merged free_or_end used_total]; rewrite ?H5, ?H6; try done.
  - split_and!; try done. lia.
  - split; [lia|done].
  - split; [lia|by apply mod_align_sub].
  - by left.
Qed.
(** After rt_system_heap_init the heap is one free block between the two headers, its
    semaphore is free, and lfree points to it. *)
Theorem rt_system_heap_init_fresh k b e :
  k_interrupt_nest (k_core k) = 0 -> h_used_mem (the_heap k) = 0 -> 0 <= b -> 0 <= e < 2 ^ 32 ->
  RT_ALIGN b RT_ALIGN_SIZE + 2 * SIZEOF_STRUCT_MEM + MIN_SIZE_ALIGNED <= RT_ALIGN_DOWN e RT_ALIGN_SIZE ->
  exists k', rt_system_heap_init b e k = Some (tt, k') /\ quiet k' /\
    let n := RT_ALIGN_DOWN e RT_ALIGN_SIZE - RT_ALIGN b RT_ALIGN_SIZE - SIZEOF_STRUCT_MEM in
    heap_ok (the_heap k') [(n, false)] /\ lowest (the_heap k') [(n, false)] /\ h_ptr (the_heap k') = RT_ALIGN b RT_ALIGN_SIZE /\
    h_ptr (the_heap k') + n + SIZEOF_STRUCT_MEM <= e.
Proof.
  intros Hn Hu Hb He Hfit. destruct (RT_ALIGN_DOWN_spec e He) as [D1 D2]. pose proof (RT_ALIGN_range b). pose proof (RT_ALIGN_mod b) as A2.
  pose proof header_size as [H1 H2]. pose proof min_size as [H3 H4]. set (x := RT_ALIGN b RT_ALIGN_SIZE) in *. set (y := RT_ALIGN_DOWN e RT_ALIGN_SIZE) in *.
  set (n := y - x - SIZEOF_STRUCT_MEM). cbv zeta.
  assert (wp (rt_system_heap_init b e) (fun _ k' => quiet k' /\ heap_ok (the_heap k') [(n, false)] /\ lowest (the_heap k') [(n, false)] /\
    h_ptr (the_heap k') = x /\ h_ptr (the_heap k') + n + SIZEOF_STRUCT_MEM <= e) k) as Hw.
  { unfold rt_system_heap_init. fold x y. wp1. apply not_in_interrupt_run; [done|].
    destruct (Z.gtb_spec y (2 * SIZEOF_STRUCT_MEM)); [|lia]. destruct (Z.geb_spec (y - 2 * SIZEOF_STRUCT_MEM) x); [|lia]. cbn [andb].
    wp1. apply wp_on_heap. wp1. wp1. wp1. apply wp_mod_node, wp_mod_node. wp1. apply wp_sem_init; [done|]. intros k1 S1 S2 S3 S4.
    apply wp_on_heap. wp1. set (k2 := set_k_core _ k1). assert (the_heap k2 = set_h_lfree 0 (the_heap k1)) as Eh by done. rewrite S4 in Eh.
    split; [split; [done|done|exact (eq_trans S3 Hn)]|]. rewrite Eh. replace (y - x - 2 * SIZEOF_STRUCT_MEM + SIZEOF_STRUCT_MEM) with n by (unfold n; lia).
    assert (0 < n) as Hn0 by (unfold n; lia). assert (n mod RT_ALIGN_SIZE = 0) as Hnm by (by repeat apply mod_align_sub).
    match goal with |- heap_ok ?h _ /\ _ => assert (heap_ok h [(n, false)] /\ lowest h [(n, false)]) as [F1 F2] end.
    { apply heap_ok_fresh; cbn; rewrite ?upd_eq, ?(upd_ne _ n 0), ?upd_eq by lia; try done; try lia; unfold n; lia. }
    split_and!; try done. cbn. unfold n. lia. }
  apply wp_run in Hw as ([] & k' & E & Hr). by exists k'.
Qed.

(** ** The blocks by their offsets *)
Fixpoint block_at (pos : Z) (bs : list block) (p n : Z) (u : bool) : Prop :=
  match bs with [] => False | b :: bs => pos = p /\ b = (n, u) \/ block_at (pos + b.1) bs p n u end.
Lemma block_at_app pos a b p n u : block_at pos (a ++ b) p n u <-> block_at pos a p n u \/ block_at (pos + total a) b p n u.
Proof.
  revert pos. induction a as [|[m v] a IH]; intros pos; cbn [app block_at total]; [rewrite Z.add_0_r; tauto|].
  rewrite IH. cbn [fst]. replace (pos + m + total a) with (pos + (m + total a)) by lia. tauto.
Qed.
Lemma block_at_split bs p n u : block_at 0 bs p n u <-> exists pre post, bs = pre ++ (n, u) :: post /\ p = total pre.
Proof.
  assert (forall pos, block_at pos bs p n u <-> exists pre post, bs = pre ++ (n, u) :: post /\ p = pos + total pre) as H.
  { induction bs as [|[m v] bs IH]; intros pos; cbn [block_at].
    - split; [done|]. intros (pre & post & E & _). by destruct pre.
    - rewrite IH. cbn [fst]. split.
      + intros [[-> [= -> ->]]|(pre & post & -> & ->)]; [exists [], bs; cbn; split; [done|lia]|].
        exists ((m, v) :: pre), post. cbn. split; [done|lia].
      + intros (pre & post & E & ->). destruct pre as [|c pre]; cbn in E.
        * injection E as -> -> ->. left. cbn. split; [lia|done].
        * injection E as <- ->. right. exists pre, post. cbn. split; [done|lia]. }
  apply H.
Qed.
(** Two blocks are the same or apart. *)
Lemma block_at_apart nd prev pos bs top p n u q m v : seg nd prev pos bs top -> block_at pos bs p n u -> block_at pos bs q m v ->
  (p = q /\ n = m /\ u = v) \/ p + n <= q \/ q + m <= p.
Proof.
  pose proof header_pos as Hp. assert (forall prev pos bs, seg nd prev pos bs top -> block_at pos bs p n u -> pos <= p) as Hlow.
  { intros pr po b. revert pr po. induction b as [|[k w] b IH]; intros pr po; cbn [seg block_at]; [done|].
    intros (_ & _ & _ & _ & Hk & _ & Hs) [[-> _]|Hb]; [lia|]. specialize (IH _ _ Hs Hb). cbn in *. lia. }
  assert (forall prev pos bs, seg nd prev pos bs top -> block_at pos bs q m v -> pos <= q) as Hlow'.
  { intros pr po b. revert pr po. induction b as [|[k w] b IH]; intros pr po; cbn [seg block_at]; [done|].
    intros (_ & _ & _ & _ & Hk & _ & Hs) [[-> _]|Hb]; [lia|]. specialize (IH _ _ Hs Hb). cbn in *. lia. }
  revert prev pos. induction bs as [|[k w] bs IH]; intros prev pos; cbn [seg block_at]; [done|].
  intros (_ & _ & _ & _ & Hk & _ & Hs) [[<- [= <- <-]]|Ha] [[<- [= <- <-]]|Hb]; cbn in *.
  - by left.
  - right. left. by apply (Hlow' _ _ _ Hs).
  - right. right. by apply (Hlow _ _ _ Hs).
  - by eapply IH.
Qed.
(** Taking a block adds one used block; giving one back removes it. *)
Lemma used_carve pre n post size : fits size n -> exists m, SIZEOF_STRUCT_MEM + size <= m <= n /\
  forall p k, block_at 0 (pre ++ carve size n ++ post) p k true <-> block_at 0 (pre ++ (n, false) :: post) p k true \/ (p = total pre /\ k = m).
Proof.
  intros Hf. unfold fits, carve in *. pose proof min_size. pose proof header_pos.
  destruct (Z.geb_spec (n - SIZEOF_STRUCT_MEM) (size + SIZEOF_STRUCT_MEM + MIN_SIZE_ALIGNED)); [exists (SIZEOF_STRUCT_MEM + size)|exists n];
    (split; [lia|]); intros p k; rewrite !block_at_app; cbn [app block_at fst]; rewrite ?Z.add_0_l.
  - replace (total pre + total _) with (total pre + n) by (cbn; lia). naive_solver.
  - replace (total pre + total _) with (total pre + n) by (cbn; lia). naive_solver.
Qed.
Lemma used_plugged pre n post p k :
  block_at 0 (plugged pre n post) p k true <-> block_at 0 pre p k true \/ block_at (total pre + n) post p k true.
Proof.
  assert (forall n post, block_at 0 (merge_left pre n post) p k true <-> block_at 0 pre p k true \/ block_at (total pre + n) post p k true) as Hl.
  { intros m po. destruct pre as [|[j u] pre' _] using rev_ind.
    - cbn. split; [intros [[_ [=]]|?]; auto|intros [[]|?]; auto].
    - rewrite merge_left_snoc, !total_app. cbn [total]. rewrite Z.add_0_r.
      destruct u; rewrite !block_at_app; cbn [block_at fst]; rewrite ?Z.add_0_l.
      + split; [intros [?|[[-> [= ->]]|[[_ [=]]|?]]]; auto; left; right; by left|intros [[?|[[-> [= ->]]|[]]]|?]; auto].
      + replace (total pre' + (j + m)) with (total pre' + j + m) by lia.
        split; [intros [?|[[_ [=]]|?]]; auto|intros [[?|[[_ [=]]|[]]]|?]; auto]. }
  unfold plugged. destruct post as [|[j []] post]; cbn [merge_right]; rewrite Hl; try done. cbn [block_at fst].
  replace (total pre + (n + j)) with (total pre + n + j) by lia. split; [intros [?|?]; auto|intros [?|[[_ [=]]|?]]; auto].
Qed.
Lemma used_block_at h bs pre n post a : used_block h bs pre n post a -> block_at 0 bs (total pre) n true.
Proof. intros [_ -> _ _]. apply block_at_split. by exists pre, post. Qed.
Lemma heap_ok_bytes h bs m : heap_ok h bs -> heap_ok (set_h_bytes m h) bs.
Proof. by intros []. Qed.

(** ** rt_calloc *)
(** rt_calloc allocates like rt_malloc and clears exactly the bytes asked for. *)
Theorem rt_calloc_zeroed k bs count size :
  quiet k -> heap_ok (the_heap k) bs -> let n := uint32 (count * size) in
  exists r k' h', rt_calloc count size k = Some (Done r, k') /\ heap_step k k' h' 1 /\
    match malloc_spec (the_heap k) bs n with
    | None => r = None /\ h' = the_heap k
    | Some (o, bs') => let a := h_ptr (the_heap k) + o + SIZEOF_STRUCT_MEM in r = Some a /\ heap_ok h' bs' /\
        forall b, h_bytes h' b = if decide (a <= b < a + n) then 0 else h_bytes (the_heap k) b
    end.
Proof.
  intros Hq H n. assert (wpr (rt_calloc count size) (fun r k' => exists h', heap_step k k' h' 1 /\
    match malloc_spec (the_heap k) bs n with
    | None => r = None /\ h' = the_heap k
    | Some (o, bs') => let a := h_ptr (the_heap k) + o + SIZEOF_STRUCT_MEM in r = Some a /\ heap_ok h' bs' /\
        forall b, h_bytes h' b = if decide (a <= b < a + n) then 0 else h_bytes (the_heap k) b
    end) k) as Hw.
  { unfold rt_calloc. apply wpr_not_in_interrupt; [apply Hq|]. wpr1. fold n. apply (wpr_malloc k bs); [done|done|..].
    - intros E _ k' M. wpr1. rewrite E. eauto.
    - intros pre m post h' G _ k' M. wpr1. rewrite (gr_spec _ _ _ _ _ _ _ G). eapply wpr_on_heap; [exact M|]. wp1. intros k2 M2. wpr1.
      eexists. split; [exact M2|]. split; [done|]. split; [apply heap_ok_bytes, G|]. intros b. cbn.
      rewrite rt_memset_filled by (apply (uint_range 32); lia). pose proof (gr_area _ _ _ _ _ _ _ G) as (_ & _ & _ & ->). done. }
  apply wpr_run in Hw as (r & k' & E & h' & Hr). by exists r, k', h'.
Qed.

(** ** rt_realloc *)
(** The used block is cut after [newsize] bytes, and the rest is free. *)
Definition shrunk (pre : list block) (n newsize : Z) (post : list block) : list block :=
  plugged (pre ++ [(SIZEOF_STRUCT_MEM + newsize, true)]) (n - SIZEOF_STRUCT_MEM - newsize) post.
Lemma seg_shrink h pre n post newsize :
  let p := total pre in let p2 := p + SIZEOF_STRUCT_MEM + newsize in
  heap_ok h (pre ++ (n, true) :: post) -> 0 <= newsize -> newsize mod RT_ALIGN_SIZE = 0 ->
  newsize + 2 * SIZEOF_STRUCT_MEM <= n ->
  forall nd : Z -> heap_mem, (forall q, nd q = if decide (q = p) then set_hm_next p2 (h_node h p)
     else if decide (q = p2) then mk_heap_mem HEAP_MAGIC 0 (p + n) p
     else if decide (q = p + n /\ p + n <> h_end h) then set_hm_prev p2 (h_node h q) else h_node h q) ->
  seg nd 0 0 ((pre ++ [(SIZEOF_STRUCT_MEM + newsize, true)]) ++ (n - SIZEOF_STRUCT_MEM - newsize, false) :: post) (h_end h).
Proof.
  intros p p2 H H0 Hm Hn nd Hnd. pose proof (seg_mid _ _ _ _ _ (ho_seg _ _ H)) as [M1 M2 M3 M4 M5 M6 M7 M8]. specialize (M4 eq_refl).
  pose proof header_pos. rewrite <- app_assoc. fold p in M1, M2, M3, M4, M8 |- *.
  assert (nd p = set_hm_next p2 (h_node h p)) as Ep by (rewrite Hnd; by rewrite decide_True).
  assert (nd p2 = mk_heap_mem HEAP_MAGIC 0 (p + n) p) as Ep2 by (rewrite Hnd, decide_False by (unfold p2; lia); by rewrite decide_True).
  apply (seg_carve (h_node h) nd pre n true post newsize); try done; fold p; fold p2; rewrite ?Ep, ?Ep2; try done; try lia.
  - exact (ho_seg _ _ H).
  - intros q Hq1 Hq2 Hq3. rewrite Hnd, !(decide_False (P := q = _)) by done. unfold upd_prev. rewrite upd_case.
    destruct (decide (p + n = q)) as [<-|]; [by rewrite decide_True by lia|by rewrite decide_False by lia].
Qed.
Lemma wp_realloc_shrink h pre n post newsize (Q : unit -> heap_state -> Prop) :
  heap_ok h (pre ++ (n, true) :: post) -> 0 <= newsize -> newsize mod RT_ALIGN_SIZE = 0 -> newsize + 2 * SIZEOF_STRUCT_MEM <= n ->
  (forall h', heap_ok h' (shrunk pre n newsize post) -> same_area h h' -> Q tt h') ->
  wp (realloc_shrink (total pre) (n - SIZEOF_STRUCT_MEM) newsize) Q h.
Proof.
  intros H H0 Hm Hn HQ. pose proof (seg_mid _ _ _ _ _ (ho_seg _ _ H)) as [M1 M2 M3 M4 M5 M6 M7 M8]. pose proof header_pos as Hp.
  pose proof (seg_shrink _ _ _ _ _ H H0 Hm Hn) as Hseg. pose proof (ho_end _ _ H) as [He Heu]. pose proof (ho_base _ _ H) as Hb.
  pose proof (seg_total Hp _ _ _ _ _ M7) as [Ht _]. set (p := total pre) in *. set (p2 := p + SIZEOF_STRUCT_MEM + newsize) in *. cbv zeta in Hseg.
  set (r := n - SIZEOF_STRUCT_MEM - newsize) in *. set (pre' := pre ++ [(SIZEOF_STRUCT_MEM + newsize, true)]) in *.
  assert (total pre' = p2) as Ep' by (unfold pre'; rewrite total_app; cbn; unfold p2, p; lia).
  assert (used_total pre' + used_total post = h_used_mem h - r) as Eu.
  { rewrite (ho_used _ _ H). unfold pre'. rewrite !used_total_app. cbn. unfold r. lia. }
  assert (0 <= h_used_mem h - r < 2 ^ 32) as Hur.
  { rewrite <- Eu. pose proof (used_total_range _ _ _ _ _ M6). pose proof (used_total_range _ _ _ _ _ M7).
    unfold pre'. rewrite used_total_app. cbn. fold p in H1. lia. }
  unfold realloc_shrink. do 2 wp1. fold p2. cbv zeta. wp1. apply wp_node. do 2 wp1.
  do 5 (wp1; apply wp_mod_node). wp1. apply wp_node. cbn [h_node set_h_node set_h_used_mem h_size h_used_mem]. rewrite M1.
  assert (p <> p2) as Hne by (unfold p2; lia). rewrite !(upd_ne _ p p2) by done. rewrite !upd_eq. cbn [hm_next set_hm_prev set_hm_next]. rewrite <- He.
  replace (uint32 (h_used_mem h - (n - SIZEOF_STRUCT_MEM - newsize))) with (h_used_mem h - r) by (symmetry; by apply uint_small).
  assert (forall nd' : Z -> heap_mem, (forall q, nd' q = if decide (q = p) then set_hm_next p2 (h_node h p)
     else if decide (q = p2) then mk_heap_mem HEAP_MAGIC 0 (p + n) p
     else if decide (q = p + n /\ p + n <> h_end h) then set_hm_prev p2 (h_node h q) else h_node h q) ->
     wp (plug_holes p2) Q (set_h_node nd' (set_h_used_mem (h_used_mem h - r) h))) as Hend.
  { intros nd' Hnd. rewrite <- Ep'. eapply (wp_plug_holes _ pre' r post).
    - destruct H as [G1 G2 G3 G4 G5 G6 G7]. split; cbn; try done.
      + by apply Hseg.
      + split; [done|]. rewrite Hnd, !decide_False by (unfold p2; lia). done.
      + revert G6. unfold pre'. rewrite !free_or_end_app, total_app. change (0 + total pre) with p. cbn [free_or_end total].
        replace (0 + (p + (SIZEOF_STRUCT_MEM + newsize + 0)) + r) with (p + n) by (unfold r; lia).
        intros [(x & k & y & -> & ->)|[[? _]|Hf]]; [left; exists x, k, (y ++ [(SIZEOF_STRUCT_MEM + newsize, true)]); by rewrite <- app_assoc|done|by right; right].
      + by rewrite used_pre_post.
    - exists true. pose proof (ho_merged _ _ H) as Hmg. unfold pre'. rewrite <- app_assoc. revert Hmg. rewrite !merged_app, !merged_cons.
      intros (G1 & (G2 & G3) & G4). split_and!; try done; intros; simplify_eq/=; auto using andb_false_r.
    - intros h' K1 (K2 & _) _. by apply HQ. }
  destruct (Z.eqb_spec (p + n) (h_end h)) as [En|En]; cbn [negb].
  - wp1. apply Hend. intros q. rewrite !upd_case. repeat case_decide; subst; try lia; try done; cbn; f_equal; try done; try tauto.
  - wp1. apply wp_mod_node. apply Hend. intros q. cbn [h_node set_h_node]. rewrite !upd_case. repeat case_decide; subst; try lia; try done; cbn; try tauto.
Qed.
Lemma shrunk_eq pre n newsize post : exists post', shrunk pre n newsize post = pre ++ (SIZEOF_STRUCT_MEM + newsize, true) :: post' /\ post' <> [].
Proof.
  unfold shrunk, plugged. destruct (merge_right _ post) as [m po]. rewrite merge_left_snoc. by eexists.
Qed.
Lemma shrunk_used pre n newsize post p j : block_at 0 (pre ++ (n, true) :: post) p j true -> p <> total pre ->
  block_at 0 (shrunk pre n newsize post) p j true.
Proof.
  unfold shrunk. rewrite used_plugged, !block_at_app, total_app. cbn [block_at fst total]. rewrite Z.add_0_l.
  replace (total pre + (SIZEOF_STRUCT_MEM + newsize + 0) + (n - SIZEOF_STRUCT_MEM - newsize)) with (total pre + n) by lia. naive_solver.
Qed.

(** What rt_realloc promises of the result [r], for the block [n] at [pre] in [h]. *)
Definition kept_block (h : heap_state) (bs pre : list block) (n newsize a : Z) (h' : heap_state) (r : option Z) : Prop :=
  match r with
  | None => h' = h
  | Some b => exists bs' pre' n' post', used_block h' bs' pre' n' post' b /\ SIZEOF_STRUCT_MEM + newsize <= n' /\
      (forall i, 0 <= i < n - SIZEOF_STRUCT_MEM -> i < newsize -> h_bytes h' (b + i) = h_bytes h (a + i)) /\
      (forall p j, block_at 0 bs p j true -> p <> total pre -> block_at 0 bs' p j true)
  end.
Lemma wpr_realloc_move k bs pre n post a newsize (Q : option Z -> kstate -> Prop) :
  quiet k -> used_block (the_heap k) bs pre n post a -> 0 <= newsize -> newsize + RT_ALIGN_SIZE <= 2 ^ 32 ->
  (forall r k' h', heap_step k k' h' 1 -> kept_block (the_heap k) bs pre n newsize a h' r -> Q r k') ->
  wpr (realloc_move a (n - SIZEOF_STRUCT_MEM) newsize) Q k.
Proof.
  intros Hq Hu H0 Hmax HQ. pose proof (used_block_at _ _ _ _ _ _ Hu) as Hat. pose proof (ub_ok _ _ _ _ _ _ Hu) as H.
  unfold realloc_move. wpr1. apply (wpr_malloc k bs); [done|done|..].
  - intros _ _ k' M. wpr1. by apply (HQ None _ (the_heap k)).
  - intros pre1 n1 post1 h1 G _ k1 M1. set (h := the_heap k) in *. set (b := h_ptr h + total pre1 + SIZEOF_STRUCT_MEM).
    destruct (used_carve pre1 n1 post1 _ (gr_fits _ _ _ _ _ _ _ G)) as (m & Hm & Hused). set (bs1 := pre1 ++ carve _ n1 ++ post1) in *.
    pose proof (gr_area _ _ _ _ _ _ _ G) as (A1 & A2 & A3 & A4). pose proof (gr_ok _ _ _ _ _ _ _ G) as H1. fold bs1 in H1. rewrite <- (gr_was _ _ _ _ _ _ _ G) in Hused.
    assert (block_at 0 bs1 (total pre) n true) as Hold by (apply Hused; by left).
    assert (block_at 0 bs1 (total pre1) m true) as Hnew by (apply Hused; by right).
    assert (block_at 0 bs (total pre1) n1 false) as Hfree by (apply block_at_split; exists pre1, post1; split; [apply G|done]).
    pose proof (malloc_size_ge newsize H0 Hmax) as Hge. pose proof min_size as [Hmin _].
    assert (0 < malloc_size newsize) as Hpos by (unfold malloc_size; destruct (Z.ltb_spec (RT_ALIGN newsize RT_ALIGN_SIZE) MIN_SIZE_ALIGNED); lia).
    pose proof header_pos as Hp0. assert (SIZEOF_STRUCT_MEM <= n) as Hn0.
    { pose proof (ho_seg _ _ H) as Hs. rewrite (ub_at _ _ _ _ _ _ Hu) in Hs. by apply seg_mid in Hs as [_ _ _ _ [? _] _ _ _]. }
    assert (total pre <> total pre1) as Hne.
    { intros E. destruct (block_at_apart _ _ _ _ _ _ _ _ _ _ _ (ho_seg _ _ H) Hat Hfree) as [(_ & _ & [=])|Hor].
      pose proof (gr_fits _ _ _ _ _ _ _ G) as Hf. unfold fits in Hf. lia. }
    pose proof (block_at_apart _ _ _ _ _ _ _ _ _ _ _ (ho_seg _ _ H1) Hold Hnew) as Hap. destruct Hap as [(? & _)|Hap]; [done|].
    wpr1. eapply wpr_on_heap; [exact M1|]. wp1. intros k2 M2. set (h2 := set_h_bytes _ h1) in *.
    apply block_at_split in Hold as (pre2 & post2 & E2 & Ep2). apply wpr_bind.
    eapply (wpr_free k2 bs1 pre2 n post2); [by eapply heap_step_quiet| |].
    + split; rewrite ?(mv_heap _ _ _ _ M2); [by apply heap_ok_bytes|done| |].
      * change (h_ptr h2) with (h_ptr h1). rewrite A1, <- Ep2. apply Hu.
      * change (h_end h2) with (h_end h1). rewrite A2, <- Ep2. apply Hu.
    + rewrite (mv_heap _ _ _ _ M2). intros h3 k3 K1 _ (B1 & B2 & B3 & B4) _ _ _ M3. wpr1. apply (HQ _ _ h3); [by eapply heap_step_trans|].
      assert (forall p j, p <> total pre -> block_at 0 bs1 p j true -> block_at 0 (plugged pre2 n post2) p j true) as Hother.
      { intros p j Hp. rewrite used_plugged, E2, block_at_app. cbn [block_at fst]. rewrite Z.add_0_l. naive_solver. }
      pose proof (Hother _ _ (not_eq_sym Hne) Hnew) as Hnew3. apply block_at_split in Hnew3 as (pre3 & post3 & E3 & Ep3).
      exists (plugged pre2 n post2), pre3, m, post3. split_and!; [|lia| |].
      * split; [done|done|unfold b; rewrite <- Ep3, B1; cbn; by rewrite A1|]. rewrite <- Ep3, B2. cbn.
        pose proof (seg_total header_pos _ _ _ _ _ (ho_seg _ _ H1)). apply block_at_split in Hnew as (pre4 & post4 & E4 & Ep4).
        rewrite E4 in H1. pose proof (seg_mid _ _ _ _ _ (ho_seg _ _ H1)) as [_ _ _ _ _ _ _ Hr]. lia.
      * intros i Hi1 Hi2. rewrite B4. cbn. rewrite A4. pose proof (ub_addr _ _ _ _ _ _ Hu) as Ea. fold h in Ea.
        rewrite rt_memcpy_moved by (destruct (Z.ltb_spec (n - SIZEOF_STRUCT_MEM) newsize); unfold b; lia). unfold MemOps.moved.
        rewrite decide_True by (destruct (Z.ltb_spec (n - SIZEOF_STRUCT_MEM) newsize); lia). f_equal. lia.
      * intros p j Hp Hpne. apply Hother; [done|]. apply Hused. by left.
Qed.
(** C27 rt_realloc of a used block gives NULL with the heap unchanged, or a used block of at
    least the new size that starts with the bytes of the old one, up to the smaller size;
    every other used block stays where it is, and the heap stays well formed. *)
Theorem rt_realloc_keeps k bs pre n post a newsize :
  quiet k -> used_block (the_heap k) bs pre n post a -> 0 <= newsize -> newsize + RT_ALIGN_SIZE <= 2 ^ 32 ->
  exists r k' h', rt_realloc (Some a) newsize k = Some (Done r, k') /\ heap_step k k' h' 1 /\
    kept_block (the_heap k) bs pre n newsize a h' r.
Proof.
  intros Hq Hu H0 Hmax. set (h := the_heap k) in *. pose proof (ub_ok _ _ _ _ _ _ Hu) as H. pose proof (ub_at _ _ _ _ _ _ Hu) as Eb.
  pose proof (ub_addr _ _ _ _ _ _ Hu) as Ea. pose proof (ub_data _ _ _ _ _ _ Hu) as Hd. destruct (RT_ALIGN_spec newsize H0 Hmax) as [Al1 Al2].
  rewrite Eb in H. destruct (block_address _ _ _ _ _ H) as [_ Hin]. specialize (Hin Hd). rewrite <- Ea in Hin.
  pose proof (seg_mid _ _ _ _ _ (ho_seg _ _ H)) as [M1 _ _ _ [Hn _] _ _ Hr]. pose proof (ho_base _ _ H) as Hb. pose proof header_pos as Hp.
  set (ns := RT_ALIGN newsize RT_ALIGN_SIZE) in *.
  assert (forall h' r, kept_block h bs pre n ns a h' r -> kept_block h bs pre n newsize a h' r) as Hweak.
  { intros h' [b|]; [|done]. intros (bs' & pre' & n' & post' & K1 & K2 & K3 & K4). exists bs', pre', n', post'.
    split_and!; [done|lia|intros i Hi1 Hi2; apply K3; lia|done]. }
  assert (wpr (rt_realloc (Some a) newsize) (fun r k' => exists h', heap_step k k' h' 1 /\ kept_block h bs pre n newsize a h' r) k) as Hw.
  { unfold rt_realloc. apply wpr_not_in_interrupt; [apply Hq|]. wpr1. apply wpr_gets_heap. fold ns h.
    destruct (Z.gtb_spec ns (h_size h)) as [|Hfit]; [wpr1; exists h; split; [by apply heap_step_refl|done]|].
    wpr1. apply wpr_take; [done|]. fold h. intros k1 N1. wpr1. apply wpr_gets_heap. rewrite (mv_heap _ _ _ _ N1), Hin. cbn [negb].
    wpr1. apply wpr_gets_heap. rewrite (mv_heap _ _ _ _ N1). wpr1. apply wpr_gets_heap. rewrite (mv_heap _ _ _ _ N1).
    replace (a - SIZEOF_STRUCT_MEM - h_ptr h) with (total pre) by lia. rewrite M1.
    replace (total pre + n - total pre - SIZEOF_STRUCT_MEM) with (n - SIZEOF_STRUCT_MEM) by lia. rewrite uint_small by lia.
    destruct (Z.eqb_spec (n - SIZEOF_STRUCT_MEM) ns) as [E|E]; [|destruct (Z.ltb_spec (ns + SIZEOF_STRUCT_MEM + MIN_SIZE) (n - SIZEOF_STRUCT_MEM)) as [Hlt|Hge]].
    - wpr1. eapply wpr_release; [done|exact N1|]. intros k2 N2. wpr1. exists h. split; [done|]. apply Hweak.
      exists bs, pre, n, post. split_and!; [done|lia|done|done].
    - wpr1. eapply wpr_on_heap; [exact N1|]. eapply wp_realloc_shrink; [exact H|lia|done|unfold MIN_SIZE in *; lia|].
      intros h' K1 (B1 & B2 & B3 & B4) k2 N2. wpr1. eapply wpr_release; [done|exact N2|]. intros k3 N3. wpr1. exists h'. split; [done|]. apply Hweak.
      destruct (shrunk_eq pre n ns post) as (post' & Es & _). exists (shrunk pre n ns post), pre, (SIZEOF_STRUCT_MEM + ns), post'.
      split_and!; [split; [done|done|by rewrite B1|by rewrite B2]|lia|by intros; rewrite B4|].
      intros p j. rewrite Eb. apply shrunk_used.
    - wpr1. eapply wpr_release; [done|exact N1|]. intros k2 N2. 
      assert (the_heap k2 = h) as E2 by apply (mv_heap _ _ _ _ N2). eapply (wpr_realloc_move k2 bs pre n post); rewrite ?E2; try done; try lia.
      + by eapply heap_step_quiet.
      + unfold ns in *. pose proof align_header. pose proof (ho_end _ _ H). lia.
      + intros r k3 h3 N3 Hk. exists h3. split; [by eapply heap_step_trans|by apply Hweak]. }
  apply wpr_run in Hw as (r & k' & E & h' & Hr'). by exists r, k', h'.
Qed.
End realloc.
