(* ===== verification/MemHeap.v ===== *)
(** The memory heap allocator (src/memheap.c): heaps of blocks that are linked in the order of
    their addresses and, when they are free, in a list of their own; each heap has a semaphore
    as its lock.  The headers of the blocks and their bytes are kept apart. *)
From S2P Require Import Prelude RtList Kservice MemOps Kernel Scheduler Object TimerCore Invariant Thread Timer Ipc Semaphore Resume.

(** struct rt_memheap. *)
Record rt_memheap : Type := mk_memheap {
  mp_start_addr : Z;
  mp_pool_size : Z;
  mp_available_size : Z;
  mp_max_used_size : Z;
  mp_block_list : Z;
  mp_free_list : Z
}.
Definition set_mp_available_size (v : Z) (s : rt_memheap) : rt_memheap :=
  mk_memheap (mp_start_addr s) (mp_pool_size s) v (mp_max_used_size s) (mp_block_list s) (mp_free_list s).
Definition set_mp_max_used_size (v : Z) (s : rt_memheap) : rt_memheap :=
  mk_memheap (mp_start_addr s) (mp_pool_size s) (mp_available_size s) v (mp_block_list s) (mp_free_list s).
(** struct rt_memheap_item by address, field by field: [next] and [prev] in [mi_list],
    [next_free] and [prev_free] in [mi_free].  The heaps by address, and the bytes. *)
Record memheaps : Type := mk_memheaps {
  mi_magic : Z -> Z;
  mi_pool_ptr : Z -> Z;
  mi_list : @links Z;
  mi_free : @links Z;
  mh_pools : Z -> rt_memheap;
  mh_bytes : memory
}.
Definition set_mi_magic (v : Z -> Z) (s : memheaps) : memheaps := mk_memheaps v (mi_pool_ptr s) (mi_list s) (mi_free s) (mh_pools s) (mh_bytes s).
Definition set_mi_pool_ptr (v : Z -> Z) (s : memheaps) : memheaps := mk_memheaps (mi_magic s) v (mi_list s) (mi_free s) (mh_pools s) (mh_bytes s).
Definition set_mi_list (v : @links Z) (s : memheaps) : memheaps := mk_memheaps (mi_magic s) (mi_pool_ptr s) v (mi_free s) (mh_pools s) (mh_bytes s).
Definition set_mi_free (v : @links Z) (s : memheaps) : memheaps := mk_memheaps (mi_magic s) (mi_pool_ptr s) (mi_list s) v (mh_pools s) (mh_bytes s).
Definition set_mh_pools (v : Z -> rt_memheap) (s : memheaps) : memheaps := mk_memheaps (mi_magic s) (mi_pool_ptr s) (mi_list s) (mi_free s) v (mh_bytes s).
Definition set_mh_bytes (v : memory) (s : memheaps) : memheaps := mk_memheaps (mi_magic s) (mi_pool_ptr s) (mi_list s) (mi_free s) (mh_pools s) v.
(** Where a heap has its members free_header and lock, and the static heap of the system. *)
Class MemHeapLayout := {
  free_header : Z -> Z;
  heap_lock : Z -> Z;
  system_heap : Z
}.

Section memheap_sections.
Context {cfg : Config} {lay : MemHeapLayout}.

Definition RT_MEMHEAP_MAGIC : Z := 0x1ea01ea0.
Definition RT_MEMHEAP_MASK : Z := 0xfffffffe.
Definition RT_MEMHEAP_USED : Z := 0x01.
Definition RT_MEMHEAP_MINIALLOC : Z := 12.
(** sizeof(struct rt_memheap_item) is 24: six words. *)
Definition RT_MEMHEAP_SIZE : Z := RT_ALIGN 24 RT_ALIGN_SIZE.

Definition item_next (a : Z) : M memheaps Z := gets (fun s => l_next (mi_list s) a).
Definition item_prev (a : Z) : M memheaps Z := gets (fun s => l_prev (mi_list s) a).
Definition item_next_free (a : Z) : M memheaps Z := gets (fun s => l_next (mi_free s) a).
Definition item_prev_free (a : Z) : M memheaps Z := gets (fun s => l_prev (mi_free s) a).
Definition set_item_next (a v : Z) : M memheaps unit := modify (fun s => set_mi_list (set_next (mi_list s) a v) s).
Definition set_item_prev (a v : Z) : M memheaps unit := modify (fun s => set_mi_list (set_prev (mi_list s) a v) s).
Definition set_item_next_free (a v : Z) : M memheaps unit := modify (fun s => set_mi_free (set_next (mi_free s) a v) s).
Definition set_item_prev_free (a v : Z) : M memheaps unit := modify (fun s => set_mi_free (set_prev (mi_free s) a v) s).
Definition set_item_magic (a v : Z) : M memheaps unit := modify (fun s => set_mi_magic (<[a := v]> (mi_magic s)) s).
Definition set_item_pool_ptr (a v : Z) : M memheaps unit := modify (fun s => set_mi_pool_ptr (<[a := v]> (mi_pool_ptr s)) s).
Definition pool (h : Z) : M memheaps rt_memheap := gets (fun s => mh_pools s h).
Definition mod_pool (h : Z) (f : rt_memheap -> rt_memheap) : M memheaps unit :=
  modify (fun s => set_mh_pools (<[h := f (mh_pools s h)]> (mh_pools s)) s).

Definition RT_MEMHEAP_IS_USED (a : Z) : M memheaps bool := gets (fun s => negb (Z.land (mi_magic s a) RT_MEMHEAP_USED =? 0)).
Definition MEMITEM_SIZE (a : Z) : M memheaps Z := gets (fun s => uint32 (l_next (mi_list s) a - a - RT_MEMHEAP_SIZE)).
(** [available_size += n]; [available_size -= n] with the maximum. *)
Definition add_available (h n : Z) : M memheaps unit :=
  mod_pool h (fun p => set_mp_available_size (uint32 (mp_available_size p + n)) p).
Definition take_available (h n : Z) : M memheaps unit :=
  mod_pool h (fun p => set_mp_available_size (uint32 (mp_available_size p - n)) p) ;;
  mod_pool h (fun p => let used := uint32 (mp_pool_size p - mp_available_size p) in
                       if used >? mp_max_used_size p then set_mp_max_used_size used p else p).

(** *** The two lists *)
(** A free block at the front of the free list. *)
Definition insert_free (h a : Z) : M memheaps unit :=
  p ← pool h;
  let l := mp_free_list p in
  first ← item_next_free l;
  set_item_next_free a first ;;
  set_item_prev_free a l ;;
  first ← item_next_free l;
  set_item_prev_free first a ;;
  set_item_next_free l a.
Definition remove_free (a : Z) : M memheaps unit :=
  next ← item_next_free a;
  prev ← item_prev_free a;
  set_item_prev_free next prev ;;
  next ← item_next_free a;
  prev ← item_prev_free a;
  set_item_next_free prev next.
(** A new block behind [a]. *)
Definition link_block (a new : Z) : M memheaps unit :=
  set_item_prev new a ;;
  next ← item_next a;
  set_item_next new next ;;
  next ← item_next a;
  set_item_prev next new ;;
  set_item_next a new.
Definition new_item (h a : Z) : M memheaps unit :=
  set_item_magic a RT_MEMHEAP_MAGIC ;;
  set_item_pool_ptr a h.

(** *** rt_memheap_alloc *)
Fixpoint alloc_search (fuel : nat) (list size ptr free_size : Z) : M memheaps (Z * Z) :=
  match fuel with
  | O => diverge
  | S fuel =>
    if negb (ptr =? list) && (free_size <? size) then
      free_size ← MEMITEM_SIZE ptr;
      if free_size <? size then next ← item_next_free ptr; alloc_search fuel list size next free_size
      else alloc_search fuel list size ptr free_size
    else mret (ptr, free_size)
  end.
(** A heap has at most a block for every byte. *)
Definition pool_fuel (p : rt_memheap) : nat := S (S (S (Z.to_nat (mp_pool_size p)))).
Definition alloc_take (h ptr size free_size : Z) : M memheaps unit :=
  (if free_size >=? uint32 (size + RT_MEMHEAP_SIZE + RT_MEMHEAP_MINIALLOC) then
     let new_ptr := ptr + size + RT_MEMHEAP_SIZE in
     new_item h new_ptr ;;
     link_block ptr new_ptr ;;
     remove_free ptr ;;
     set_item_next_free ptr 0 ;;
     set_item_prev_free ptr 0 ;;
     insert_free h new_ptr ;;
     take_available h (size + RT_MEMHEAP_SIZE)
   else
     take_available h free_size ;;
     remove_free ptr ;;
     set_item_next_free ptr 0 ;;
     set_item_prev_free ptr 0) ;;
  magic ← gets (fun s => mi_magic s ptr);
  set_item_magic ptr (Z.lor magic RT_MEMHEAP_USED).
Definition alloc_section (h size : Z) : M memheaps (option Z) :=
  p ← pool h;
  first ← item_next_free (mp_free_list p);
  '(ptr, free_size) ← alloc_search (pool_fuel p) (mp_free_list p) size first 0;
  if free_size >=? size then alloc_take h ptr size free_size ;; mret (Some (ptr + RT_MEMHEAP_SIZE))
  else mret None.

(** *** rt_memheap_free *)
(** The block joins the one before it; whether it did not. *)
Definition join_left (h a : Z) : M memheaps (Z * bool) :=
  prev ← item_prev a;
  used ← RT_MEMHEAP_IS_USED prev;
  if negb used then
    add_available h RT_MEMHEAP_SIZE ;;
    next ← item_next a;
    set_item_next prev next ;;
    next ← item_next a;
    prev ← item_prev a;
    set_item_prev next prev ;;
    prev ← item_prev a;
    mret (prev, false)
  else mret (a, true).
Definition absorb_next (a : Z) : M memheaps unit :=
  new ← item_next a;
  next ← item_next new;
  set_item_prev next a ;;
  next ← item_next new;
  set_item_next a next ;;
  remove_free new.
Definition join_right (h a : Z) : M memheaps unit :=
  next ← item_next a;
  used ← RT_MEMHEAP_IS_USED next;
  if negb used then add_available h RT_MEMHEAP_SIZE ;; absorb_next a else mret tt.
Definition memheap_free_section (h a : Z) : M memheaps unit :=
  magic ← gets (fun s => mi_magic s a);
  set_item_magic a (Z.land magic RT_MEMHEAP_MASK) ;;
  size ← MEMITEM_SIZE a;
  add_available h size ;;
  '(a, insert_header) ← join_left h a;
  join_right h a ;;
  if (insert_header : bool) then insert_free h a else mret tt.

(** *** rt_memheap_realloc *)
(** The block grows into the free one behind it; whether it did. *)
Definition memheap_grow (h a newsize oldsize : Z) : M memheaps bool :=
  next_ptr ← item_next a;
  rt_assert (next_ptr >? a) ;;
  used ← RT_MEMHEAP_IS_USED next_ptr;
  if negb used then
    nextsize ← MEMITEM_SIZE next_ptr;
    rt_assert (next_ptr >? 0) ;;
    if uint32 (nextsize + oldsize) >? uint32 (newsize + RT_MEMHEAP_MINIALLOC) then
      take_available h (newsize - oldsize) ;;
      remove_free next_ptr ;;
      next ← item_next next_ptr;
      prev ← item_prev next_ptr;
      set_item_prev next prev ;;
      next ← item_next next_ptr;
      prev ← item_prev next_ptr;
      set_item_next prev next ;;
      let next_ptr := uint32 (a + RT_MEMHEAP_SIZE + newsize) in
      new_item h next_ptr ;;
      link_block a next_ptr ;;
      insert_free h next_ptr ;;
      mret true
    else mret false
  else mret false.
(** The end of the block becomes a free one. *)
Definition memheap_shrink (h a newsize : Z) : M memheaps unit :=
  let new_ptr := a + newsize + RT_MEMHEAP_SIZE in
  new_item h new_ptr ;;
  link_block a new_ptr ;;
  next ← item_next new_ptr;
  used ← RT_MEMHEAP_IS_USED next;
  (if negb used then
     free_ptr ← item_next new_ptr;
     size ← MEMITEM_SIZE free_ptr;
     mod_pool h (fun p => set_mp_available_size (uint32 (mp_available_size p - size)) p) ;;
     absorb_next new_ptr
   else mret tt) ;;
  insert_free h new_ptr ;;
  size ← MEMITEM_SIZE new_ptr;
  add_available h size.

(** *** rt_memheap_init, without its objects *)
Definition item_init (h a : Z) : M memheaps unit :=
  new_item h a ;;
  set_item_next a 0 ;;
  set_item_prev a 0 ;;
  set_item_next_free a a ;;
  set_item_prev_free a a.
(** The tail, a used block of length 0, which leads back to the start. *)
Definition tail_init (h item start_addr : Z) : M memheaps unit :=
  set_item_magic item (Z.lor RT_MEMHEAP_MAGIC RT_MEMHEAP_USED) ;;
  set_item_pool_ptr item h ;;
  set_item_next item start_addr ;;
  set_item_prev item start_addr ;;
  set_item_prev_free item 0 ;;
  set_item_next_free item 0.
Definition init_section (h start_addr size : Z) : M memheaps unit :=
  let pool_size := RT_ALIGN_DOWN size RT_ALIGN_SIZE in
  let available := uint32 (pool_size - 2 * RT_MEMHEAP_SIZE) in
  let header := free_header h in
  mod_pool h (fun p => mk_memheap start_addr pool_size available (uint32 (pool_size - available)) (mp_block_list p) (mp_free_list p)) ;;
  item_init h header ;;
  mod_pool h (fun p => mk_memheap (mp_start_addr p) (mp_pool_size p) (mp_available_size p) (mp_max_used_size p) (mp_block_list p) header) ;;
  let item := start_addr in
  item_init h item ;;
  set_item_next item (item + available + RT_MEMHEAP_SIZE) ;;
  next ← item_next item;
  set_item_prev item next ;;
  mod_pool h (fun p => mk_memheap (mp_start_addr p) (mp_pool_size p) (mp_available_size p) (mp_max_used_size p) item (mp_free_list p)) ;;
  insert_free h item ;;
  item ← item_next item;
  tail_init h item start_addr.
End memheap_sections.

(** The kernel with the lock of each heap, errno, and the heaps. *)
Record mhstate {cfg : Config} {kh : KHeap} : Type := mk_mhstate { ms_kernel : kstate; ms_errno : Z; ms_mem : memheaps }.

Section memheap.
Context {cfg : Config} {kh : KHeap} {sz : ObjectSizes} {st : StaticThreads} {lay : MemHeapLayout}.

Definition set_ms_kernel (v : kstate) (s : mhstate) : mhstate := mk_mhstate _ _ v (ms_errno s) (ms_mem s).
Definition set_ms_errno (v : Z) (s : mhstate) : mhstate := mk_mhstate _ _ (ms_kernel s) v (ms_mem s).
Definition set_ms_mem (v : memheaps) (s : mhstate) : mhstate := mk_mhstate _ _ (ms_kernel s) (ms_errno s) v.
Definition on_kernel {A} (m : M kstate A) : M mhstate A := fun s =>
  match m (ms_kernel s) with Some (a, k) => Some (a, set_ms_kernel k s) | None => None end.
Definition on_mem {A} (m : M memheaps A) : M mhstate A := fun s =>
  match m (ms_mem s) with Some (a, h) => Some (a, set_ms_mem h s) | None => None end.
(** rt_set_errno of src/kservice.c *)
Definition memheap_set_errno (error : Z) : M mhstate unit :=
  nest ← gets (fun s => k_interrupt_nest (k_core (ms_kernel s)));
  if negb (nest =? 0) then modify (set_ms_errno error)
  else
    tid ← gets (fun s => rt_thread_self (k_core (ms_kernel s)));
    match tid with
    | None => modify (set_ms_errno error)
    | Some t => on_kernel (lift (mod_thread t (set_th_error error)))
    end.

Definition rt_memheap_init (h : Z) (name : list Z) (start_addr size : Z) : M mhstate Z :=
  rt_assert (negb (h =? 0)) ;;
  on_kernel (lift (rt_object_init (OMemHeap h) RT_Object_Class_MemHeap name)) ;;
  on_mem (init_section h start_addr size) ;;
  _ ← on_kernel (rt_sem_init (heap_lock h) name 1 RT_IPC_FLAG_FIFO);
  mret RT_EOK.
Definition rt_memheap_detach (h : Z) : M mhstate Z :=
  rt_assert (negb (h =? 0)) ;;
  on_kernel (lift (rt_object_detach (OSem (heap_lock h)))) ;;
  on_kernel (lift (rt_object_detach (OMemHeap h))) ;;
  mret RT_EOK.

Definition take_lock (h : Z) : R mhstate Z :=
  await (on_kernel (rt_sem_take (heap_lock h) RT_WAITING_FOREVER)) id (fun t => on_kernel (rt_sem_take_resumed t)).
Definition release_lock (h : Z) : R mhstate Z := now (on_kernel (rt_sem_release (heap_lock h))).
(** A size as the heaps grant it. *)
Definition memheap_size (size : Z) : Z :=
  let size := RT_ALIGN size RT_ALIGN_SIZE in if size <? RT_MEMHEAP_MINIALLOC then RT_MEMHEAP_MINIALLOC else size.
(** [f] under the lock; [otherwise] with errno set when the lock is not granted. *)
Definition with_lock {A} (h : Z) (f : M memheaps A) (otherwise : A) : R mhstate A :=
  result ← take_lock h;
  if negb (result =? RT_EOK) then now (memheap_set_errno result) ;; mret otherwise
  else
    a ← now (on_mem f);
    _ ← release_lock h;
    mret a.

Definition rt_memheap_alloc (h size : Z) : R mhstate (option Z) :=
  now (rt_assert (negb (h =? 0))) ;;
  let size := memheap_size size in
  p ← now (on_mem (pool h));
  if size <? mp_available_size p then with_lock h (alloc_section h size) None
  else mret None.
Definition rt_memheap_free (ptr : Z) : R mhstate unit :=
  if ptr =? 0 then mret tt
  else
    let header_ptr := ptr - RT_MEMHEAP_SIZE in
    magic ← now (on_mem (gets (fun s => mi_magic s header_ptr)));
    now (rt_assert (Z.land magic RT_MEMHEAP_MASK =? RT_MEMHEAP_MAGIC)) ;;
    h ← now (on_mem (gets (fun s => mi_pool_ptr s header_ptr)));
    with_lock h (memheap_free_section h header_ptr) tt.

(** The branch that moves the block. *)
Definition memheap_move (h ptr newsize oldsize : Z) : R mhstate (option Z) :=
  new_ptr ← rt_memheap_alloc h newsize;
  match new_ptr with
  | None => mret None
  | Some new_ptr =>
    now (on_mem (modify (fun s => set_mh_bytes (rt_memcpy new_ptr ptr (if oldsize <? newsize then oldsize else newsize) (mh_bytes s)) s))) ;;
    rt_memheap_free ptr ;;
    mret (Some new_ptr)
  end.
Definition rt_memheap_realloc (h ptr newsize : Z) : R mhstate (option Z) :=
  if newsize =? 0 then rt_memheap_free ptr ;; mret None
  else
    let newsize := memheap_size newsize in
    if ptr =? 0 then rt_memheap_alloc h newsize
    else
      let header_ptr := ptr - RT_MEMHEAP_SIZE in
      oldsize ← now (on_mem (MEMITEM_SIZE header_ptr));
      if newsize >? oldsize then
        result ← take_lock h;
        if negb (result =? RT_EOK) then now (memheap_set_errno result) ;; mret None
        else
          grown ← now (on_mem (memheap_grow h header_ptr newsize oldsize));
          _ ← release_lock h;
          if (grown : bool) then mret (Some ptr) else memheap_move h ptr newsize oldsize
      else if uint32 (newsize + RT_MEMHEAP_SIZE + RT_MEMHEAP_MINIALLOC) >=? oldsize then mret (Some ptr)
      else with_lock h (memheap_shrink h header_ptr newsize ;; mret (Some ptr)) None.

(** ** As the heap of the system (RT_USING_MEMHEAP_AS_HEAP) *)
Definition memheap_system_heap_init (begin_addr end_addr : Z) : M mhstate unit :=
  _ ← rt_memheap_init system_heap [104; 101; 97; 112] begin_addr (uint32 (end_addr - begin_addr));
  mret tt.
(** The other heaps, in the order of their class list. *)
Fixpoint other_heaps (fuel : nat) (node : lnode) (size : Z) : R mhstate (option Z) :=
  match fuel with
  | O => now diverge
  | S fuel =>
    match node with
    | LObj (OMemHeap h) =>
      ptr ← (if h =? system_heap then mret None else rt_memheap_alloc h size);
      match ptr with
      | Some ptr => mret (Some ptr)
      | None =>
        next ← now (gets (fun s => l_next (k_links (k_core (ms_kernel s))) node));
        other_heaps fuel next size
      end
    | LObjHead RT_Object_Class_MemHeap => mret None
    | _ => now diverge
    end
  end.
Definition memheap_malloc (size : Z) : R mhstate (option Z) :=
  ptr ← rt_memheap_alloc system_heap size;
  match ptr with
  | Some ptr => mret (Some ptr)
  | None =>
    first ← now (gets (fun s => l_next (k_links (k_core (ms_kernel s))) (LObjHead RT_Object_Class_MemHeap)));
    other_heaps loop_fuel first size
  end.
Definition memheap_free (rmem : Z) : R mhstate unit := rt_memheap_free rmem.
Definition memheap_realloc (rmem newsize : Z) : R mhstate (option Z) :=
  if rmem =? 0 then memheap_malloc newsize
  else
    let header_ptr := rmem - RT_MEMHEAP_SIZE in
    h ← now (on_mem (gets (fun s => mi_pool_ptr s header_ptr)));
    new_ptr ← rt_memheap_realloc h rmem newsize;
    match new_ptr with
    | Some new_ptr => mret (Some new_ptr)
    | None =>
      if newsize =? 0 then mret None
      else
        new_ptr ← memheap_malloc newsize;
        match new_ptr with
        | None => mret None
        | Some new_ptr =>
          oldsize ← now (on_mem (MEMITEM_SIZE header_ptr));
          let n := if newsize >? oldsize then oldsize else newsize in
          now (on_mem (modify (fun s => set_mh_bytes (rt_memcpy new_ptr rmem n (mh_bytes s)) s))) ;;
          mret (Some new_ptr)
        end
    end.
Definition memheap_calloc (count size : Z) : R mhstate (option Z) :=
  let total_size := uint32 (count * size) in
  ptr ← memheap_malloc total_size;
  match ptr with
  | None => mret None
  | Some ptr =>
    now (on_mem (modify (fun s => set_mh_bytes (rt_memset ptr 0 total_size (mh_bytes s)) s))) ;;
    mret (Some ptr)
  end.
End memheap.
