(* ===== verification/MemHeapSpec.v ===== *)
(** The memory heap allocator refines a list of blocks with a list of the free ones: a pool is
    a sequence of used and free blocks without two free neighbours, closed by an empty used
    block; the free list has the addresses of its free blocks, the latest first. *)
From S2P Require Import Prelude RtList Kservice MemOps Kernel Scheduler Object TimerCore Invariant Thread Timer Ipc Semaphore Resume Mem HeapSpec MemHeap.

(** *** Rings of nodes *)
Section rings.
Context {N : Type} `{EqDecision N}.
Implicit Types (s : links N).
Lemma ring_push s h xs n : ring s h xs -> n ∉ h :: xs -> ring (rt_list_insert_after s h n) h (n :: xs).
Proof.
  intros [Hc Hnd] Hn. pose proof Hnd as Hnd'. apply NoDup_cons in Hnd' as [Hh _].
  destruct (chain_insert_after s n h xs h [] h xs Hc eq_refl Hnd Hh Hn) as (xs' & E & Hc'); [elems|].
  injection E as ->. split; [done|]. rewrite !NoDup_cons in *. elems.
Qed.
Lemma ring_drop s h xs n ys : ring s h (xs ++ n :: ys) -> ring (rt_list_remove s n) h (xs ++ ys).
Proof.
  intros [Hc Hnd]. pose proof Hnd as [Hh _]%NoDup_cons.
  destruct (exists_last (l := h :: xs)) as (zs & a & E); [done|].
  destruct (chain_remove s h (xs ++ n :: ys) h zs a n ys Hc) as (xs' & E' & Hc'); [|done|done|].
  - change (h :: xs ++ n :: ys) with ((h :: xs) ++ n :: ys). by rewrite E, <- app_assoc.
  - assert (h :: xs' = h :: xs ++ ys) as [= ->].
    { rewrite E'. change (zs ++ a :: ys) with (zs ++ [a] ++ ys). by rewrite app_assoc, <- E. }
    split; [done|]. rewrite !NoDup_cons in *. destruct Hnd as [H1 H2]. split; [elems|].
    apply NoDup_app in H2 as (? & Hd & [? ?]%NoDup_cons). apply NoDup_app. split_and!; try done. intros x Hx Hy. apply (Hd x Hx). by right.
Qed.
Lemma ring_succ s h xs n ys : ring s h (xs ++ n :: ys) -> l_next s n = hd h ys.
Proof. intros [Hc _]. by destruct (chain_next s h _ h (h :: xs) n ys Hc eq_refl) as [-> _]. Qed.
Lemma ring_first s h xs : ring s h xs -> l_next s h = hd h xs /\ l_prev s (hd h xs) = h.
Proof. intros [Hc _]. exact (chain_next s h _ h [] h xs Hc eq_refl). Qed.
Lemma ring_neighbours s h xs n : ring s h xs -> n ∈ xs -> l_next s n ∈ h :: xs /\ l_prev s n ∈ h :: xs /\ l_next s n <> n /\ l_prev s n <> n.
Proof.
  intros [Hc Hnd] Hn. assert (n ∈ h :: xs) as Hn' by by right. split_and!; [by eapply chain_in_next|by eapply chain_in_prev| |].
  - apply list_elem_of_split in Hn as (l1 & l2 & ->). rewrite (ring_succ s h l1 n l2) by by split. intros E. revert Hnd. rewrite app_comm_cons, NoDup_app. intros (_ & Hd & [Hn _]%NoDup_cons).
    destruct l2 as [|m l2]; cbn in E; subst; [apply (Hd n); by left|apply Hn; by left].
  - apply list_elem_of_split in Hn as (l1 & l2 & ->). destruct (exists_last (l := h :: l1)) as (zs & a & E); [done|].
    destruct (chain_adj s h (l1 ++ n :: l2) h zs a n l2 Hc) as [_ ->].
    + change (h :: l1 ++ n :: l2) with ((h :: l1) ++ n :: l2). by rewrite E, <- app_assoc.
    + intros ->. change (h :: l1 ++ n :: l2) with ((h :: l1) ++ n :: l2) in Hnd. rewrite E in Hnd. apply NoDup_app in Hnd as (_ & Hd & _).
      apply (Hd n); [rewrite elem_of_app; right|]; by left.
Qed.
(** A list that looks the same at its members. *)
Lemma ring_same s s' h xs : ring s h xs -> (forall x, x ∈ h :: xs -> l_next s' x = l_next s x /\ l_prev s' x = l_prev s x) -> ring s' h xs.
Proof. intros [Hc Hnd] H. split; [|done]. eapply chain_frame; [| |exact Hc]; intros x Hx; apply H; [done|elems]. Qed.
End rings.

Section blocks.
Context {cfg : Config} {al : AlignOK cfg}.

Lemma align_mod4 x : x mod RT_ALIGN_SIZE = 0 -> x mod 4 = 0.
Proof.
  destruct al as (k & Hk & ->). intros Hx. apply Z.mod_divide; [lia|]. transitivity (2 ^ k); [|by apply Z.mod_divide; [lia|]].
  change (2 ^ 2 | 2 ^ k). exists (2 ^ (k - 2)). rewrite <- (Z.pow_add_r 2 (k - 2) 2) by lia. f_equal. lia.
Qed.
Lemma item_size : 24 <= RT_MEMHEAP_SIZE < 88 /\ RT_MEMHEAP_SIZE mod 4 = 0.
Proof. pose proof align_range. destruct (RT_ALIGN_spec 24) as [H1 H2]; [lia..|]. split; [unfold RT_MEMHEAP_SIZE; lia|by apply align_mod4]. Qed.
Definition magic_of (u : bool) : Z := if u then Z.lor RT_MEMHEAP_MAGIC RT_MEMHEAP_USED else RT_MEMHEAP_MAGIC.
Lemma magic_of_used u : negb (Z.land (magic_of u) RT_MEMHEAP_USED =? 0) = u.
Proof. by destruct u. Qed.

(** The headers of the blocks [bs] from [pos] in the heap [h]; [prev] is the block before. *)
Fixpoint mblocks (s : memheaps) (h prev pos : Z) (bs : list block) : Prop :=
  match bs with
  | [] => True
  | (n, u) :: bs =>
    l_next (mi_list s) pos = pos + n /\ l_prev (mi_list s) pos = prev /\
    mi_magic s pos = magic_of u /\ mi_pool_ptr s pos = h /\
    RT_MEMHEAP_SIZE + RT_MEMHEAP_MINIALLOC <= n /\ n mod 4 = 0 /\ mblocks s h pos (pos + n) bs
  end.
(** The empty used block at the end, which leads back to the first. *)
Definition mtail (s : memheaps) (h first prev pos : Z) : Prop :=
  l_next (mi_list s) pos = first /\ l_prev (mi_list s) pos = prev /\ mi_magic s pos = magic_of true /\ mi_pool_ptr s pos = h.
Definition mseg (s : memheaps) (h first prev pos : Z) (bs : list block) : Prop :=
  mblocks s h prev pos bs /\ mtail s h first (before prev pos bs) (pos + total bs).

Definition same_item (s s' : memheaps) (q : Z) : Prop :=
  l_next (mi_list s') q = l_next (mi_list s) q /\ l_prev (mi_list s') q = l_prev (mi_list s) q /\
  mi_magic s' q = mi_magic s q /\ mi_pool_ptr s' q = mi_pool_ptr s q.

Lemma before_app a b prev pos : before prev pos (a ++ b) = before (before prev pos a) (pos + total a) b.
Proof.
  revert prev pos. induction a as [|[n u] a IH]; intros prev pos; cbn; [by rewrite Z.add_0_r|]. rewrite IH. f_equal. lia.
Qed.
Lemma mblocks_app s h prev pos a b :
  mblocks s h prev pos (a ++ b) <-> mblocks s h prev pos a /\ mblocks s h (before prev pos a) (pos + total a) b.
Proof.
  revert prev pos. induction a as [|[n u] a IH]; intros prev pos; cbn [app mblocks before total].
  - rewrite Z.add_0_r. tauto.
  - rewrite IH. replace (pos + n + total a) with (pos + (n + total a)) by lia. tauto.
Qed.
Lemma mseg_app s h first prev pos a b :
  mseg s h first prev pos (a ++ b) <-> mblocks s h prev pos a /\ mseg s h first (before prev pos a) (pos + total a) b.
Proof.
  unfold mseg. rewrite mblocks_app, before_app, total_app. replace (pos + (total a + total b)) with (pos + total a + total b) by lia. tauto.
Qed.
Lemma mseg_cons s h first prev pos n u bs :
  mseg s h first prev pos ((n, u) :: bs) <-> mblocks s h prev pos [(n, u)] /\ mseg s h first pos (pos + n) bs.
Proof. change ((n, u) :: bs) with ([(n, u)] ++ bs). rewrite mseg_app. cbn [before total]. by rewrite Z.add_0_r. Qed.
Lemma mblocks_total s h prev pos bs : mblocks s h prev pos bs -> 24 * Z.of_nat (length bs) <= total bs /\ total bs mod 4 = 0.
Proof.
  pose proof item_size as [Hi _]. revert prev pos. induction bs as [|[n u] bs IH]; intros prev pos; cbn [mblocks total length]; [by cbn|].
  intros (_ & _ & _ & _ & Hn & Hm & H). apply IH in H as [H1 H2]. unfold RT_MEMHEAP_MINIALLOC in *. split; [lia|].
  by rewrite Zplus_mod, Hm, H2.
Qed.
Lemma mblocks_frame s s' h prev pos bs :
  mblocks s h prev pos bs -> (forall q, pos <= q < pos + total bs -> same_item s s' q) -> mblocks s' h prev pos bs.
Proof.
  pose proof item_size as [Hi _]. revert prev pos. induction bs as [|[n u] bs IH]; intros prev pos H Hf; [done|].
  cbn [mblocks total] in *. destruct H as (H1 & H2 & H3 & H4 & H5 & H6 & H7). pose proof (mblocks_total _ _ _ _ _ H7) as [Ht _].
  unfold RT_MEMHEAP_MINIALLOC in *. destruct (Hf pos) as (-> & -> & -> & ->); [lia|]. split_and!; try done.
  apply IH; [done|]. intros q Hq. apply Hf. lia.
Qed.
Lemma mseg_frame s s' h first prev pos bs :
  mseg s h first prev pos bs -> (forall q, pos <= q <= pos + total bs -> same_item s s' q) -> mseg s' h first prev pos bs.
Proof.
  intros [H1 (T1 & T2 & T3 & T4)] Hf. pose proof (mblocks_total _ _ _ _ _ H1) as [Ht _]. split.
  - eapply mblocks_frame; [exact H1|]. intros q Hq. apply Hf. lia.
  - destruct (Hf (pos + total bs)) as (E1 & E2 & E3 & E4); [lia|]. unfold mtail. rewrite E1, E2, E3, E4. done.
Qed.
(** Another block comes before. *)
Lemma mseg_reprev s s' h first prev prev' pos bs :
  mseg s h first prev pos bs -> (forall q, pos < q <= pos + total bs -> same_item s s' q) ->
  l_next (mi_list s') pos = l_next (mi_list s) pos -> l_prev (mi_list s') pos = prev' ->
  mi_magic s' pos = mi_magic s pos -> mi_pool_ptr s' pos = mi_pool_ptr s pos -> mseg s' h first prev' pos bs.
Proof.
  intros H Hf E1 E2 E3 E4. destruct bs as [|[n u] bs].
  - destruct H as [_ (T1 & T2 & T3 & T4)]. split; [done|]. unfold mtail in *. cbn [total before] in *. rewrite Z.add_0_r in *. by rewrite E1, E2, E3, E4.
  - apply mseg_cons in H as [(H1 & H2 & H3 & H4 & H5 & H6 & _) H]. pose proof item_size as [Hi _]. unfold RT_MEMHEAP_MINIALLOC in *.
    apply mseg_cons. split; [cbn [mblocks]; rewrite E1, E2, E3, E4; done|]. eapply mseg_frame; [exact H|].
    intros q Hq. apply Hf. cbn [total]. lia.
Qed.

(** *** What the headers say around a block *)
Definition first_used (bs : list block) : bool := match bs with [] => true | (_, u) :: _ => u end.
Definition last_used (bs : list block) : bool := match last bs with Some (_, u) => u | None => true end.
Lemma last_used_snoc bs n u : last_used (bs ++ [(n, u)]) = u.
Proof. unfold last_used. by rewrite last_snoc. Qed.
Lemma mseg_first s h first prev pos bs : mseg s h first prev pos bs ->
  l_prev (mi_list s) pos = prev /\ mi_magic s pos = magic_of (first_used bs) /\ mi_pool_ptr s pos = h.
Proof.
  intros [H (T1 & T2 & T3 & T4)]. destruct bs as [|[n u] bs]; cbn [total before] in *; [rewrite Z.add_0_r in *; done|].
  destruct H as (H1 & H2 & H3 & H4 & _). done.
Qed.
Lemma mblocks_last s h prev pos bs : mblocks s h prev pos bs -> bs <> [] -> mi_magic s (before prev pos bs) = magic_of (last_used bs).
Proof.
  intros H Hne. destruct bs as [|[n u] bs _] using rev_ind; [done|]. rewrite before_snoc, last_used_snoc. apply mblocks_app in H as [_ H]. apply H.
Qed.
Record pool_mid (s : memheaps) (h first : Z) (pre : list block) (n : Z) (u : bool) (post : list block) : Prop := {
  pm_next : l_next (mi_list s) (first + total pre) = first + total pre + n;
  pm_prev : l_prev (mi_list s) (first + total pre) = before (first + total (pre ++ (n, u) :: post)) first pre;
  pm_magic : mi_magic s (first + total pre) = magic_of u;
  pm_pool : mi_pool_ptr s (first + total pre) = h;
  pm_size : RT_MEMHEAP_SIZE + RT_MEMHEAP_MINIALLOC <= n /\ n mod 4 = 0;
  pm_next_prev : l_prev (mi_list s) (first + total pre + n) = first + total pre;
  pm_next_magic : mi_magic s (first + total pre + n) = magic_of (first_used post);
  pm_prev_magic : mi_magic s (before (first + total (pre ++ (n, u) :: post)) first pre) = magic_of (last_used pre);
  pm_blocks : mblocks s h (first + total (pre ++ (n, u) :: post)) first pre;
  pm_rest : mseg s h first (first + total pre) (first + total pre + n) post;
  pm_pre : 24 * Z.of_nat (length pre) <= total pre /\ total pre mod 4 = 0;
  pm_post : 24 * Z.of_nat (length post) <= total post /\ total post mod 4 = 0;
  pm_total : total (pre ++ (n, u) :: post) = total pre + n + total post
}.
Lemma mseg_mid s h first pre n u post :
  mseg s h first (first + total (pre ++ (n, u) :: post)) first (pre ++ (n, u) :: post) -> pool_mid s h first pre n u post.
Proof.
  intros H. pose proof H as H0. apply mseg_app in H as [H1 H2]. apply mseg_cons in H2 as [(M1 & M2 & M3 & M4 & M5 & M6 & _) H3].
  pose proof (mseg_first _ _ _ _ _ _ H3) as (F1 & F2 & _). pose proof (mblocks_total _ _ _ _ _ H1). pose proof H3 as [H4 _].
  pose proof (mblocks_total _ _ _ _ _ H4). split; try done.
  - destruct pre as [|b pre]; [|by eapply mblocks_last]. destruct H0 as [_ (_ & _ & T3 & _)]. exact T3.
  - rewrite total_app. cbn [total]. lia.
Qed.

(** *** Replacing blocks *)
Lemma mseg_replace s s' h first pre old new post :
  let top := first + total (pre ++ old ++ post) in let a := first + total pre in let z := a + total old in
  mseg s h first top first (pre ++ old ++ post) -> total new = total old -> old <> [] ->
  (forall q, first <= q < a \/ z < q <= top -> same_item s s' q) ->
  mblocks s' h (before top first pre) a new ->
  l_next (mi_list s') z = l_next (mi_list s) z -> l_prev (mi_list s') z = before (before top first pre) a new ->
  mi_magic s' z = mi_magic s z -> mi_pool_ptr s' z = mi_pool_ptr s z ->
  mseg s' h first (first + total (pre ++ new ++ post)) first (pre ++ new ++ post).
Proof.
  intros top a z H Ht Hne Hf Hnew E1 E2 E3 E4. unfold top in *. rewrite !total_app in *. rewrite Ht. rewrite !mseg_app in H |- *. fold a in H |- *.
  rewrite Ht. destruct H as (H1 & H2 & H3). pose proof (mblocks_total _ _ _ _ _ H1) as [P1 _]. pose proof (mblocks_total _ _ _ _ _ H2) as [P2 _].
  pose proof (mblocks_total _ _ _ _ _ (proj1 H3)) as [P3 _].
  assert (0 < total old) by (destruct old; [done|]; cbn [length] in P2; lia). split; [|split; [exact Hnew|]].
  - eapply mblocks_frame; [exact H1|]. intros q Hq. apply Hf. left. unfold a. lia.
  - eapply mseg_reprev; [exact H3| |exact E1|exact E2|exact E3|exact E4]. intros q Hq. apply Hf. right. unfold z, a in *. lia.
Qed.
End blocks.

(** Function updates decided by arithmetic. *)
Ltac upd_lia := repeat first [rewrite upd_eq | rewrite upd_ne by lia].

Section moves.
Context {cfg : Config} {al : AlignOK cfg}.
(** The block is split; the new end of it is free. *)
Lemma mseg_split s s' h first pre n u v m post :
  let top := first + total (pre ++ (n, u) :: post) in let a := first + total pre in let b := a + m in
  mseg s h first top first (pre ++ (n, u) :: post) ->
  RT_MEMHEAP_SIZE + RT_MEMHEAP_MINIALLOC <= m -> m mod 4 = 0 -> RT_MEMHEAP_SIZE + RT_MEMHEAP_MINIALLOC <= n - m ->
  l_next (mi_list s') a = b -> l_prev (mi_list s') a = l_prev (mi_list s) a -> mi_magic s' a = magic_of v -> mi_pool_ptr s' a = mi_pool_ptr s a ->
  l_next (mi_list s') b = a + n -> l_prev (mi_list s') b = a -> mi_magic s' b = magic_of false -> mi_pool_ptr s' b = h ->
  l_next (mi_list s') (a + n) = l_next (mi_list s) (a + n) -> l_prev (mi_list s') (a + n) = b ->
  mi_magic s' (a + n) = mi_magic s (a + n) -> mi_pool_ptr s' (a + n) = mi_pool_ptr s (a + n) ->
  (forall q, q <> a -> q <> b -> q <> a + n -> same_item s s' q) ->
  mseg s' h first top first (pre ++ (m, v) :: (n - m, false) :: post).
Proof.
  intros top a b H Hm1 Hm2 Hm3 A1 A2 A3 A4 B1 B2 B3 B4 Z1 Z2 Z3 Z4 Hf. pose proof (mseg_mid _ _ _ _ _ _ _ H) as [M1 M2 M3 M4 M5 _ _ _ _ _ _ _ _].
  pose proof item_size as [Hi _]. unfold RT_MEMHEAP_MINIALLOC in *.
  replace top with (first + total (pre ++ [(m, v); (n - m, false)] ++ post)) by (unfold top; rewrite !total_app; cbn [total]; lia).
  apply (mseg_replace s s' h first pre [(n, u)] [(m, v); (n - m, false)] post); cbn [total]; rewrite ?Z.add_0_r; try done.
  - lia.
  - intros q Hq. apply Hf; unfold b, a in *; lia.
  - cbn [mblocks]. fold a. fold b. fold a in M2. rewrite A1, A2, A3, A4, B1, B2, B3, B4, M2. unfold RT_MEMHEAP_MINIALLOC. split_and!; try done; try lia.
    rewrite Zminus_mod, Hm2. by destruct M5 as [_ ->].
Qed.
(** Two blocks become one. *)
Lemma mseg_join s s' h first pre n u k v post :
  let top := first + total (pre ++ (n, u) :: (k, v) :: post) in let a := first + total pre in
  mseg s h first top first (pre ++ (n, u) :: (k, v) :: post) ->
  l_next (mi_list s') a = a + n + k -> l_prev (mi_list s') a = l_prev (mi_list s) a -> mi_magic s' a = mi_magic s a -> mi_pool_ptr s' a = mi_pool_ptr s a ->
  l_next (mi_list s') (a + n + k) = l_next (mi_list s) (a + n + k) -> l_prev (mi_list s') (a + n + k) = a ->
  mi_magic s' (a + n + k) = mi_magic s (a + n + k) -> mi_pool_ptr s' (a + n + k) = mi_pool_ptr s (a + n + k) ->
  (forall q, q <> a -> q <> a + n -> q <> a + n + k -> same_item s s' q) ->
  mseg s' h first top first (pre ++ (n + k, u) :: post).
Proof.
  intros top a H A1 A2 A3 A4 Z1 Z2 Z3 Z4 Hf. pose proof (mseg_mid _ _ _ _ _ _ _ H) as [M1 M2 M3 M4 M5 _ _ _ _ MR _ _ _].
  apply mseg_cons in MR as [(N1 & N2 & N3 & N4 & N5 & N6 & _) _]. pose proof item_size as [Hi _]. unfold RT_MEMHEAP_MINIALLOC in *.
  replace top with (first + total (pre ++ [(n + k, u)] ++ post)) by (unfold top; rewrite !total_app; cbn [total]; lia).
  apply (mseg_replace s s' h first pre [(n, u); (k, v)] [(n + k, u)] post); cbn [total]; rewrite ?Z.add_0_r, ?Z.add_assoc; try done.
  - intros q Hq. apply Hf; unfold a in *; lia.
  - cbn [mblocks]. fold a in M1, M2, M3, M4 |- *. rewrite A1, A2, A3, A4, M2, M3, M4. unfold RT_MEMHEAP_MINIALLOC. split_and!; try done; try lia.
    rewrite Zplus_mod, N6. by destruct M5 as [_ ->].
Qed.
(** The block is marked. *)
Lemma mseg_mark s s' h first pre n u v post :
  let top := first + total (pre ++ (n, u) :: post) in let a := first + total pre in
  mseg s h first top first (pre ++ (n, u) :: post) ->
  mi_list s' = mi_list s -> mi_pool_ptr s' = mi_pool_ptr s -> mi_magic s' = <[a := magic_of v]> (mi_magic s) ->
  mseg s' h first top first (pre ++ (n, v) :: post).
Proof.
  intros top a H E1 E2 E3. pose proof (mseg_mid _ _ _ _ _ _ _ H) as [M1 M2 M3 M4 M5 _ _ _ _ _ _ _ _].
  pose proof item_size as [Hi _]. unfold RT_MEMHEAP_MINIALLOC in *.
  replace top with (first + total (pre ++ [(n, v)] ++ post)) by (unfold top; rewrite !total_app; cbn [total]; lia).
  apply (mseg_replace s s' h first pre [(n, u)] [(n, v)] post); cbn [total]; rewrite ?Z.add_0_r, ?E1, ?E2, ?E3; try done.
  - intros q Hq. unfold same_item. rewrite E1, E2, E3, upd_ne by (unfold a in *; lia). done.
  - cbn [mblocks]. fold a in M1, M2, M3, M4 |- *. rewrite E1, E2, E3, upd_eq, M1, M2, M4. unfold RT_MEMHEAP_MINIALLOC. tauto.
  - pose proof (mseg_first _ _ _ _ _ _ (pm_rest _ _ _ _ _ _ _ (mseg_mid _ _ _ _ _ _ _ H))) as [-> _]. done.
  - fold a. rewrite upd_ne by lia. done.
Qed.
End moves.

(** *** The free list and the counters *)
Section free_list.
Context {cfg : Config} {lay : MemHeapLayout}.
Lemma agree_trans (l1 l2 l3 : links Z) P : agree_out l1 l2 P -> agree_out l2 l3 P -> agree_out l1 l3 P.
Proof. intros H1 H2 x Hx. destruct (H1 x Hx) as [<- <-]. by apply H2. Qed.
Lemma agree_refl (l : links Z) P : agree_out l l P.
Proof. done. Qed.

Lemma wp_insert_free s h hd fs a (P : Z -> Prop) (Q : unit -> memheaps -> Prop) :
  mp_free_list (mh_pools s h) = hd -> ring (mi_free s) hd fs -> a ∉ hd :: fs -> P a -> (forall x, x ∈ hd :: fs -> P x) ->
  (forall l', ring l' hd (a :: fs) -> agree_out (mi_free s) l' P -> Q tt (set_mi_free l' s)) -> wp (insert_free h a) Q s.
Proof.
  intros <- Hr Ha Pa HP HQ. set (hd := mp_free_list (mh_pools s h)) in *. pose proof (ring_push _ _ _ _ Hr Ha) as Hp.
  assert (hd <> a) as Hne by (intros ->; apply Ha; by left).
  assert (l_next (mi_free s) hd ∈ hd :: fs) as Hin by (apply chain_in_next; [apply Hr|by left]).
  assert (l_next (mi_free s) hd <> a) by (intros E; rewrite E in Hin; done).
  unfold insert_free, pool, item_next_free, set_item_next_free, set_item_prev_free. wp1. wp1. fold hd. do 2 wp1. do 2 wp1. do 2 wp1. do 2 wp1. do 2 wp1. wp1.
  cbn [mi_free set_mi_free set_next set_prev l_next l_prev]. rewrite (upd_ne _ a hd) by congruence.
  apply (HQ (mk_links (<[hd:=a]> (<[a:=l_next (mi_free s) hd]> (l_next (mi_free s)))) (<[l_next (mi_free s) hd:=a]> (<[a:=hd]> (l_prev (mi_free s)))))).
  - apply (ring_same (rt_list_insert_after (mi_free s) hd a)); [exact Hp|]. intros x _. cbn. rewrite !upd_case. repeat case_decide; subst; done.
  - intros x Hx. cbn. rewrite !upd_ne by (intros <-; auto using list_elem_of_here). done.
Qed.
Lemma wp_remove_free s hd xs a ys (P : Z -> Prop) (Q : unit -> memheaps -> Prop) :
  ring (mi_free s) hd (xs ++ a :: ys) -> (forall x, x ∈ hd :: xs ++ a :: ys -> P x) ->
  (forall l', ring l' hd (xs ++ ys) -> agree_out (mi_free s) l' P -> Q tt (set_mi_free l' s)) -> wp (remove_free a) Q s.
Proof.
  intros Hr HP HQ. pose proof (ring_drop _ _ _ _ _ Hr) as Hd. destruct (ring_neighbours _ _ _ a Hr) as (Hn & Hp & Hn' & Hp'); [elems|].
  unfold remove_free, item_next_free, item_prev_free, set_item_next_free, set_item_prev_free. do 2 wp1. do 2 wp1. do 2 wp1. do 2 wp1. do 2 wp1. wp1.
  cbn [mi_free set_mi_free set_next set_prev l_next l_prev]. rewrite !(upd_ne (l_prev _)) by done.
  apply (HQ (mk_links (<[l_prev (mi_free s) a:=l_next (mi_free s) a]> (l_next (mi_free s))) (<[l_next (mi_free s) a:=l_prev (mi_free s) a]> (l_prev (mi_free s))))).
  - apply (ring_same (rt_list_remove (mi_free s) a)); [exact Hd|]. intros x Hx. cbn. rewrite (upd_ne (l_prev _)) by done.
    assert (a <> x) by (intros <-; pose proof (proj2 Hr) as Hnd; change (hd :: xs ++ a :: ys) with ((hd :: xs) ++ a :: ys) in Hnd; by apply NoDup_mid in Hnd).
    rewrite !(upd_ne _ a) by done. done.
  - intros x Hx. cbn. rewrite !upd_ne by (intros <-; auto). done.
Qed.
Lemma wp_clear_next s hd fs a v (P : Z -> Prop) (Q : unit -> memheaps -> Prop) :
  ring (mi_free s) hd fs -> a ∉ hd :: fs -> P a ->
  (forall l', ring l' hd fs -> agree_out (mi_free s) l' P -> Q tt (set_mi_free l' s)) -> wp (set_item_next_free a v) Q s.
Proof.
  intros Hr Ha Pa HQ. unfold set_item_next_free. wp1. apply HQ.
  - eapply ring_same; [exact Hr|]. intros x Hx. cbn. rewrite upd_ne by (intros <-; done). done.
  - intros x Hx. cbn. rewrite upd_ne by (intros <-; done). done.
Qed.
Lemma wp_clear_prev s hd fs a v (P : Z -> Prop) (Q : unit -> memheaps -> Prop) :
  ring (mi_free s) hd fs -> a ∉ hd :: fs -> P a ->
  (forall l', ring l' hd fs -> agree_out (mi_free s) l' P -> Q tt (set_mi_free l' s)) -> wp (set_item_prev_free a v) Q s.
Proof.
  intros Hr Ha Pa HQ. unfold set_item_prev_free. wp1. apply HQ.
  - eapply ring_same; [exact Hr|]. intros x Hx. cbn. rewrite upd_ne by (intros <-; done). done.
  - intros x Hx. cbn. rewrite upd_ne by (intros <-; done). done.
Qed.

(** The links of the blocks after [new] is put behind [a]. *)
Definition link_after (l : links Z) (a new : Z) : links Z :=
  mk_links (<[a := new]> (<[new := l_next l a]> (l_next l))) (<[l_next l a := new]> (<[new := a]> (l_prev l))).
Lemma wp_link_block s a new (Q : unit -> memheaps -> Prop) :
  a <> new -> Q tt (set_mi_list (link_after (mi_list s) a new) s) -> wp (link_block a new) Q s.
Proof.
  intros Hne HQ. unfold link_block, item_next, set_item_next, set_item_prev. do 2 wp1. do 2 wp1. do 2 wp1. do 2 wp1. do 2 wp1. wp1.
  cbn [mi_list set_mi_list set_next set_prev l_next l_prev]. rewrite (upd_ne _ new a) by congruence. exact HQ.
Qed.

(** [s'] is [s] with the record [p] of the heap [h]. *)
Definition pool_upd (s s' : memheaps) (h : Z) (p : rt_memheap) : Prop :=
  s' = set_mh_pools (mh_pools s') s /\ mh_pools s' h = p /\ forall h', h' <> h -> mh_pools s' h' = mh_pools s h'.
Lemma pool_upd_now s h p : pool_upd s (set_mh_pools (<[h := p]> (mh_pools s)) s) h p.
Proof. split_and!; [done|apply upd_eq|]. intros h' Hne. cbn. by rewrite upd_ne. Qed.
Lemma pool_upd_trans s s1 s2 h p q : pool_upd s s1 h p -> pool_upd s1 s2 h q -> pool_upd s s2 h q.
Proof. intros (-> & _ & H1) (-> & H2 & H3). split_and!; [done|done|]. intros h' Hne. rewrite H3 by done. by apply H1. Qed.
Lemma pool_upd_intro s h p (Q : unit -> memheaps -> Prop) :
  (forall ps, ps h = p -> (forall h', h' <> h -> ps h' = mh_pools s h') -> Q tt (set_mh_pools ps s)) -> forall s', pool_upd s s' h p -> Q tt s'.
Proof. intros HQ s' (E & H1 & H2). rewrite E. by apply HQ. Qed.
Lemma wp_add_available s h n (Q : unit -> memheaps -> Prop) :
  0 <= mp_available_size (mh_pools s h) + n < 2 ^ 32 ->
  (forall ps, ps h = set_mp_available_size (mp_available_size (mh_pools s h) + n) (mh_pools s h) -> (forall h', h' <> h -> ps h' = mh_pools s h') ->
     Q tt (set_mh_pools ps s)) ->
  wp (add_available h n) Q s.
Proof. intros Hn HQ. pose proof (pool_upd_intro _ _ _ _ HQ) as HQ'. clear HQ. unfold add_available, mod_pool. wp1. rewrite uint_small by done. apply HQ', pool_upd_now. Qed.
(** The record after [n] bytes are taken. *)
Definition pool_taken (n : Z) (p : rt_memheap) : rt_memheap :=
  let av := mp_available_size p - n in
  mk_memheap (mp_start_addr p) (mp_pool_size p) av (Z.max (mp_max_used_size p) (mp_pool_size p - av)) (mp_block_list p) (mp_free_list p).
Lemma wp_take_available s h n (Q : unit -> memheaps -> Prop) :
  0 <= n <= mp_available_size (mh_pools s h) -> mp_available_size (mh_pools s h) <= mp_pool_size (mh_pools s h) < 2 ^ 32 ->
  (forall ps, ps h = pool_taken n (mh_pools s h) -> (forall h', h' <> h -> ps h' = mh_pools s h') -> Q tt (set_mh_pools ps s)) ->
  wp (take_available h n) Q s.
Proof.
  intros Hn Hp HQ. pose proof (pool_upd_intro _ _ _ _ HQ) as HQ'. clear HQ. unfold take_available, mod_pool. wp1. wp1. wp1. apply HQ'. eapply pool_upd_trans; [apply pool_upd_now|].
  cbn [mh_pools set_mh_pools]. rewrite upd_eq. set (p := mh_pools s h) in *. cbn [mp_pool_size mp_available_size set_mp_available_size mp_max_used_size].
  rewrite !(uint_small 32) by (rewrite ?(uint_small 32) by lia; lia).
  assert (pool_taken n p = if mp_pool_size p - (mp_available_size p - n) >? mp_max_used_size p
    then set_mp_max_used_size (mp_pool_size p - (mp_available_size p - n)) (set_mp_available_size (mp_available_size p - n) p)
    else set_mp_available_size (mp_available_size p - n) p) as ->.
  { unfold pool_taken. case_match eqn:E; unfold set_mp_max_used_size, set_mp_available_size; cbn; f_equal; lia. }
  apply pool_upd_now.
Qed.
End free_list.

(** *** The invariant of a heap *)
(** The addresses of the free blocks, and the bytes they can grant. *)
Fixpoint free_at (pos : Z) (bs : list block) : list Z :=
  match bs with [] => [] | (n, u) :: bs => (if u : bool then [] else [pos]) ++ free_at (pos + n) bs end.
Lemma free_at_app pos a b : free_at pos (a ++ b) = free_at pos a ++ free_at (pos + total a) b.
Proof.
  revert pos. induction a as [|[n u] a IH]; intros pos; cbn [app free_at total]; [by rewrite Z.add_0_r|].
  rewrite IH, <- app_assoc. by replace (pos + n + total a) with (pos + (n + total a)) by lia.
Qed.

Section invariant.
Context {cfg : Config} {al : AlignOK cfg} {lay : MemHeapLayout}.
Fixpoint free_bytes (bs : list block) : Z :=
  match bs with [] => 0 | (n, u) :: bs => (if u : bool then 0 else n - RT_MEMHEAP_SIZE) + free_bytes bs end.
Lemma free_bytes_app a b : free_bytes (a ++ b) = free_bytes a + free_bytes b.
Proof. induction a as [|[n u] a IH]; cbn [app free_bytes]; lia. Qed.
Lemma free_bytes_range s h prev pos bs : mblocks s h prev pos bs -> 0 <= free_bytes bs <= total bs.
Proof.
  pose proof item_size as [Hi _]. revert prev pos. induction bs as [|[n u] bs IH]; intros prev pos; cbn [mblocks free_bytes total]; [lia|].
  intros (_ & _ & _ & _ & Hn & _ & H). apply IH in H. unfold RT_MEMHEAP_MINIALLOC in *. destruct u; lia.
Qed.
Lemma free_at_range s h prev pos bs x : mblocks s h prev pos bs -> x ∈ free_at pos bs -> pos <= x < pos + total bs.
Proof.
  pose proof item_size as [Hi _]. revert prev pos. induction bs as [|[n u] bs IH]; intros prev pos; cbn [mblocks free_at total]; [by intros _ ?%elem_of_nil|].
  intros (_ & _ & _ & _ & Hn & _ & H) Hx. pose proof (mblocks_total _ _ _ _ _ H) as [Ht _]. unfold RT_MEMHEAP_MINIALLOC in *.
  apply elem_of_app in Hx as [Hx|Hx]; [|apply (IH _ _ H) in Hx; lia]. destruct u; [by apply elem_of_nil in Hx|].
  apply list_elem_of_singleton in Hx as ->. lia.
Qed.
Lemma free_at_split pos bs x : x ∈ free_at pos bs -> exists pre n post, bs = pre ++ (n, false) :: post /\ x = pos + total pre.
Proof.
  revert pos. induction bs as [|[n u] bs IH]; intros pos; cbn [free_at]; [by intros ?%elem_of_nil|].
  intros [Hx|Hx]%elem_of_app.
  - destruct u; [by apply elem_of_nil in Hx|]. apply list_elem_of_singleton in Hx as ->. exists [], n, bs. cbn. split; [done|lia].
  - destruct (IH _ Hx) as (pre & k & post & -> & ->). exists ((n, u) :: pre), k, post. cbn. split; [done|lia].
Qed.

Record memheap_ok (s : memheaps) (h first : Z) (bs : list block) (fs : list Z) : Prop := {
  mo_seg : mseg s h first (first + total bs) first bs;
  mo_free : ring (mi_free s) (free_header h) fs;
  mo_perm : fs ≡ₚ free_at first bs;
  mo_merged : merged bs;
  mo_header : ~ first <= free_header h <= first + total bs;
  mo_range : 0 < first /\ first mod 4 = 0 /\ first + total bs + RT_MEMHEAP_SIZE <= 2 ^ 32;
  mo_start : mp_start_addr (mh_pools s h) = first /\ mp_free_list (mh_pools s h) = free_header h;
  mo_size : mp_pool_size (mh_pools s h) = total bs + RT_MEMHEAP_SIZE;
  mo_available : mp_available_size (mh_pools s h) = free_bytes bs;
  mo_max : mp_pool_size (mh_pools s h) - mp_available_size (mh_pools s h) <= mp_max_used_size (mh_pools s h) <= mp_pool_size (mh_pools s h)
}.
(** The area of a heap: its memory and its free header.  What a section does outside. *)
Definition in_area (h first len a : Z) : Prop := first <= a <= first + len \/ a = free_header h.
Record area_kept (s s' : memheaps) (h first len : Z) : Prop := {
  ak_items : forall q, ~ in_area h first len q -> same_item s s' q;
  ak_free : agree_out (mi_free s) (mi_free s') (in_area h first len);
  ak_pools : forall h', h' <> h -> mh_pools s' h' = mh_pools s h';
  ak_bytes : mh_bytes s' = mh_bytes s
}.
(** A heap elsewhere is as it was. *)
Lemma area_kept_other s s' h first len h' first' bs fs :
  area_kept s s' h first len -> memheap_ok s h' first' bs fs -> h' <> h ->
  (forall a, in_area h' first' (total bs) a -> ~ in_area h first len a) -> memheap_ok s' h' first' bs fs.
Proof.
  intros [K1 K2 K3 K4] [O1 O2 O3 O4 O5 O6 O7 O8 O9 O10] Hne Hd. pose proof (mblocks_total _ _ _ _ _ (proj1 O1)) as [Ht _].
  split; rewrite ?(K3 h') by done; try done.
  - eapply mseg_frame; [exact O1|]. intros q Hq. apply K1, Hd. by left.
  - eapply ring_same; [exact O2|]. intros x Hx. apply K2, Hd. apply elem_of_cons in Hx as [->|Hx]; [by right|]. left.
    rewrite O3 in Hx. apply (free_at_range _ _ _ _ _ _ (proj1 O1)) in Hx. lia.
Qed.
Lemma memheap_ok_size s h first bs fs : memheap_ok s h first bs fs -> mp_available_size (mh_pools s h) <= mp_pool_size (mh_pools s h) < 2 ^ 32.
Proof.
  intros H. pose proof (free_bytes_range _ _ _ _ _ (proj1 (mo_seg _ _ _ _ _ H))). pose proof (mo_range _ _ _ _ _ H). rewrite (mo_size _ _ _ _ _ H), (mo_available _ _ _ _ _ H).
  pose proof item_size as [Hi _]. lia.
Qed.
(** The free list and its header are inside the area. *)
Lemma memheap_ok_in_area s h first bs fs x : memheap_ok s h first bs fs -> x ∈ free_header h :: fs -> in_area h first (total bs) x.
Proof.
  intros H [->|Hx]%elem_of_cons; [by right|]. left. rewrite (mo_perm _ _ _ _ _ H) in Hx. pose proof (mo_seg _ _ _ _ _ H) as [Hb _].
  apply (free_at_range _ _ _ _ _ _ Hb) in Hx. lia.
Qed.
Lemma memheap_ok_length s h first bs fs : memheap_ok s h first bs fs -> (length fs + 2 <= pool_fuel (mh_pools s h))%nat.
Proof.
  intros H. rewrite (Permutation_length (mo_perm _ _ _ _ _ H)). unfold pool_fuel. rewrite (mo_size _ _ _ _ _ H).
  pose proof (mblocks_total _ _ _ _ _ (proj1 (mo_seg _ _ _ _ _ H))) as [Ht _]. pose proof item_size as [Hi _].
  assert (forall pos l, (length (free_at pos l) <= length l)%nat) as Hl.
  { intros pos l. revert pos. induction l as [|[n []] l IH]; intros pos; cbn; [lia| |]; specialize (IH (pos + n)); lia. }
  specialize (Hl first bs). lia.
Qed.
Lemma wp_item_size s h first pre n u post (Q : Z -> memheaps -> Prop) :
  mseg s h first (first + total (pre ++ (n, u) :: post)) first (pre ++ (n, u) :: post) -> n < 2 ^ 32 ->
  Q (n - RT_MEMHEAP_SIZE) s -> wp (MEMITEM_SIZE (first + total pre)) Q s.
Proof.
  intros H Hn HQ. pose proof (mseg_mid _ _ _ _ _ _ _ H) as [M1 _ _ _ [M5 _] _ _ _ _ _ _ _ _]. pose proof item_size as [Hi _].
  unfold MEMITEM_SIZE. wp1. rewrite M1. replace (first + total pre + n - (first + total pre) - RT_MEMHEAP_SIZE) with (n - RT_MEMHEAP_SIZE) by lia.
  unfold RT_MEMHEAP_MINIALLOC in *. rewrite uint_small by lia. exact HQ.
Qed.
End invariant.
