(* ===== verification/MemHeapAlloc.v ===== *)
(** The critical sections of rt_memheap_alloc and rt_memheap_free on the blocks of a heap: the
    first block of the free list that fits is taken, and a block that is given back joins its
    free neighbours. *)
From S2P Require Import Prelude RtList Kservice MemOps Kernel Scheduler Object TimerCore Invariant Thread Timer Ipc Semaphore Resume Mem HeapSpec MemHeap MemHeapSpec.

Section alloc.
Context {cfg : Config} {al : AlignOK cfg} {lay : MemHeapLayout}.

(** *** The reference *)
Definition block_fits (first size : Z) (bs : list block) (x : Z) : Prop :=
  exists pre n post, bs = pre ++ (n, false) :: post /\ x = first + total pre /\ RT_MEMHEAP_SIZE + size <= n.
(** A block is split when the rest can hold another. *)
Definition splits (size n : Z) : bool := n - RT_MEMHEAP_SIZE >=? size + RT_MEMHEAP_SIZE + RT_MEMHEAP_MINIALLOC.
Definition mcarve (size n : Z) : list block :=
  if splits size n then [(RT_MEMHEAP_SIZE + size, true); (n - (RT_MEMHEAP_SIZE + size), false)] else [(n, true)].
Definition remainder (a size n : Z) : list Z := if splits size n then [a + (RT_MEMHEAP_SIZE + size)] else [].
Inductive memheap_alloc_step (first size : Z) : list block -> list Z -> option Z -> list block -> list Z -> Prop :=
| alloc_none bs fs : (forall x, x ∈ fs -> ~ block_fits first size bs x) -> memheap_alloc_step first size bs fs None bs fs
| alloc_block xs ys pre n post :
    (forall x, x ∈ xs -> ~ block_fits first size (pre ++ (n, false) :: post) x) -> RT_MEMHEAP_SIZE + size <= n ->
    memheap_alloc_step first size (pre ++ (n, false) :: post) (xs ++ (first + total pre) :: ys) (Some (first + total pre + RT_MEMHEAP_SIZE))
      (pre ++ mcarve size n ++ post) (remainder (first + total pre) size n ++ xs ++ ys).
Lemma mcarve_merged size n pre post : merged (pre ++ (n, false) :: post) -> merged (pre ++ mcarve size n ++ post).
Proof.
  rewrite !merged_app. intros (H1 & [H2 H2']%merged_cons & H3). split; [done|]. unfold mcarve.
  case_match; cbn [app]; rewrite !merged_cons; cbn [head]; split_and!; try done; intros; simplify_eq/=; auto using andb_false_r.
Qed.
Lemma mcarve_total size n : total (mcarve size n) = n.
Proof. unfold mcarve. case_match; cbn; lia. Qed.
(** The bytes taken. *)
Definition mtaken (size n : Z) : Z := if splits size n then size + RT_MEMHEAP_SIZE else n - RT_MEMHEAP_SIZE.
Lemma free_bytes_carve size n : free_bytes (mcarve size n) = n - RT_MEMHEAP_SIZE - mtaken size n.
Proof. unfold mcarve, mtaken. case_match; cbn; lia. Qed.
Lemma free_at_carve a size n : free_at a (mcarve size n) = remainder a size n.
Proof. unfold mcarve, remainder. by case_match. Qed.

(** *** The search *)
Lemma block_unique s h prev pos pre n post pre' n' post' :
  mblocks s h prev pos (pre ++ (n, false) :: post) -> pre ++ (n, false) :: post = pre' ++ (n', false) :: post' -> total pre = total pre' ->
  pre = pre' /\ n = n' /\ post = post'.
Proof.
  revert prev pos pre'. induction pre as [|[k u] pre IH]; intros prev pos [|[k' u'] pre'] H E Ht; cbn [app mblocks total] in *.
  - by injection E as -> ->.
  - injection E as <- <- ->. destruct H as (_ & _ & _ & _ & Hk & _ & H). apply mblocks_app in H as [H _]. apply mblocks_total in H as [H _].
    pose proof item_size. unfold RT_MEMHEAP_MINIALLOC in *. lia.
  - injection E as -> -> <-. destruct H as (_ & _ & _ & _ & Hk & _ & H). apply mblocks_app in H as [H _]. apply mblocks_total in H as [H _].
    pose proof item_size. unfold RT_MEMHEAP_MINIALLOC in *. lia.
  - injection E as <- <- E. destruct H as (_ & _ & _ & _ & Hk & _ & H). destruct (IH _ _ pre' H E) as (-> & -> & ->); [lia|done].
Qed.
Lemma block_fits_at s h prev first size pre n post :
  mblocks s h prev first (pre ++ (n, false) :: post) -> block_fits first size (pre ++ (n, false) :: post) (first + total pre) -> RT_MEMHEAP_SIZE + size <= n.
Proof.
  intros H (pre' & n' & post' & E & Ht & Hf). destruct (block_unique _ _ _ _ _ _ _ _ _ _ H E) as (_ & -> & _); [lia|done].
Qed.
Lemma wp_alloc_search s h first bs fs size (Q : Z * Z -> memheaps -> Prop) : memheap_ok s h first bs fs ->
  (forall xs ys pre n post, bs = pre ++ (n, false) :: post -> fs = xs ++ (first + total pre) :: ys ->
     (forall x, x ∈ xs -> ~ block_fits first size bs x) -> RT_MEMHEAP_SIZE + size <= n -> Q (first + total pre, n - RT_MEMHEAP_SIZE) s) ->
  ((forall x, x ∈ fs -> ~ block_fits first size bs x) -> forall v, v < size -> Q (free_header h, v) s) ->
  forall rest xs fuel free_size, fs = xs ++ rest -> free_size < size -> (length rest + 2 <= fuel)%nat -> (forall x, x ∈ xs -> ~ block_fits first size bs x) ->
  wp (alloc_search fuel (free_header h) size (hd (free_header h) rest) free_size) Q s.
Proof.
  intros H Hok Hno. pose proof (mo_free _ _ _ _ _ H) as Hr. pose proof (mo_seg _ _ _ _ _ H) as Hs.
  induction rest as [|a rest IH]; intros xs [|fuel] free_size E Hlt Hf Hxs; cbn [length hd] in Hf |- *; try lia; cbn [alloc_search].
  - rewrite Z.eqb_refl. cbn [negb andb]. wp1. apply Hno; [|done]. rewrite app_nil_r in E. by subst.
  - assert (a <> free_header h) as Hne.
    { intros ->. pose proof (proj2 Hr) as Hnd. rewrite E in Hnd. apply NoDup_cons in Hnd as [Hn _]. elems. }
    destruct (Z.eqb_spec a (free_header h)) as [|_]; [done|]. destruct (Z.ltb_spec free_size size) as [_|]; [|lia]. cbn [negb andb].
    assert (a ∈ free_at first bs) as Ha by (rewrite <- (mo_perm _ _ _ _ _ H), E; elems).
    apply free_at_split in Ha as (pre & n & post & -> & ->). pose proof (mo_range _ _ _ _ _ H) as (R1 & R2 & R3).
    pose proof (pm_total _ _ _ _ _ _ _ (mseg_mid _ _ _ _ _ _ _ Hs)) as Ht. pose proof (pm_post _ _ _ _ _ _ _ (mseg_mid _ _ _ _ _ _ _ Hs)) as [Hp1 _].
    pose proof (pm_pre _ _ _ _ _ _ _ (mseg_mid _ _ _ _ _ _ _ Hs)) as [Hp2 _]. pose proof item_size as [Hi _].
    wp1. eapply wp_item_size; [exact Hs|lia|]. cbn beta. destruct (Z.ltb_spec (n - RT_MEMHEAP_SIZE) size) as [Hl|Hg].
    + wp1. unfold item_next_free. wp1. rewrite E in Hr. rewrite (ring_succ _ _ _ _ _ Hr). apply (IH (xs ++ [first + total pre])); [by rewrite <- app_assoc|done|lia|].
      intros x [Hx| ->%list_elem_of_singleton]%elem_of_app; [by apply Hxs|]. intros Hb. apply (block_fits_at _ _ _ _ _ _ _ _ (proj1 Hs)) in Hb. lia.
    + destruct fuel as [|fuel]; [lia|]. cbn [alloc_search]. destruct (Z.ltb_spec (n - RT_MEMHEAP_SIZE) size) as [|_]; [lia|]. rewrite andb_false_r.
      wp1. eapply Hok; [done|exact E|exact Hxs|lia].
Qed.

(** *** Taking a block *)
Lemma wp_alloc_take s h first pre n post xs ys size (Q : unit -> memheaps -> Prop) :
  let a := first + total pre in let bs := pre ++ (n, false) :: post in
  memheap_ok s h first bs (xs ++ a :: ys) -> RT_MEMHEAP_MINIALLOC <= size -> size mod 4 = 0 -> RT_MEMHEAP_SIZE + size <= n ->
  (forall s', memheap_ok s' h first (pre ++ mcarve size n ++ post) (remainder a size n ++ xs ++ ys) -> area_kept s s' h first (total bs) -> 
     mp_max_used_size (mh_pools s' h) = Z.max (mp_max_used_size (mh_pools s h)) (mp_pool_size (mh_pools s' h) - mp_available_size (mh_pools s' h)) -> Q tt s') ->
  wp (alloc_take h a size (n - RT_MEMHEAP_SIZE)) Q s.
Proof.
  intros a bs H Hmin Hs4 Hfit HQ.
  pose proof (mseg_mid _ _ _ _ _ _ _ (mo_seg _ _ _ _ _ H)) as [M1 M2 M3 M4 M5 M6 M7 M8 M9 M10 M11 M12 M13]. fold a in M1, M2, M3, M4, M6.
  pose proof item_size as [Hi Hi4]. unfold RT_MEMHEAP_MINIALLOC in *.
  pose proof (mo_free _ _ _ _ _ H) as Hr. pose proof (mo_start _ _ _ _ _ H) as [S1 S2]. pose proof (memheap_ok_size _ _ _ _ _ H) as Hps.
  pose proof (mo_range _ _ _ _ _ H) as (R1 & R2 & R3). fold bs in M2, M8, M9, M13, R3.
  assert (forall x, x ∈ free_header h :: xs ++ a :: ys -> in_area h first (total bs) x) as HP by (intros x; by apply (memheap_ok_in_area _ _ _ bs _ x H)).
  assert (in_area h first (total bs) a) as Pa by (apply HP; clear; rewrite elem_of_cons, elem_of_app, elem_of_cons; auto).
  assert (forall x, x ∈ free_header h :: xs ++ ys -> in_area h first (total bs) x) as HP'.
  { intros x Hx. apply HP. revert Hx. clear. rewrite !elem_of_cons, !elem_of_app, elem_of_cons. tauto. }
  assert (a ∉ free_header h :: xs ++ ys) as Ha.
  { pose proof (proj2 Hr) as Hnd. change (free_header h :: xs ++ a :: ys) with ((free_header h :: xs) ++ a :: ys) in Hnd. by apply NoDup_mid in Hnd. }
  assert (free_bytes bs = free_bytes pre + (n - RT_MEMHEAP_SIZE) + free_bytes post) as Hfb by (unfold bs; rewrite free_bytes_app; cbn; lia).
  pose proof (free_bytes_range _ _ _ _ _ M9) as F1. pose proof (free_bytes_range _ _ _ _ _ (proj1 M10)) as F2. pose proof (mo_available _ _ _ _ _ H) as Hav. fold bs in Hav.
  assert (free_at first bs = free_at first pre ++ a :: free_at (a + n) post) as Hfa by (unfold bs; rewrite free_at_app; done).
  pose proof (mo_perm _ _ _ _ _ H) as Hperm. fold bs in Hperm. rewrite Hfa in Hperm.
  assert (xs ++ ys ≡ₚ free_at first pre ++ free_at (a + n) post) as Hperm' by (rewrite <- !Permutation_middle in Hperm; by apply Permutation_cons_inv in Hperm).
  assert (forall b, b <> a -> first + total pre <= b < first + total pre + n -> b ∉ free_header h :: xs ++ ys) as Hb.
  { intros b Hba Hbr [->|Hx]%elem_of_cons; [destruct (mo_header _ _ _ _ _ H); fold bs; lia|]. rewrite Hperm' in Hx.
    apply elem_of_app in Hx as [Hx|Hx]; [apply (free_at_range _ _ _ _ _ _ M9) in Hx|apply (free_at_range _ _ _ _ _ _ (proj1 M10)) in Hx; fold a in Hx]; lia. }
  unfold alloc_take. rewrite (uint_small 32 (size + _ + _)) by (unfold RT_MEMHEAP_MINIALLOC; lia). wp1. unfold mcarve, remainder, mtaken in HQ. fold (splits size n). destruct (splits size n) eqn:Esp'; pose proof Esp' as Esp; unfold splits, RT_MEMHEAP_MINIALLOC in Esp.
  - cbv zeta. set (b := a + size + RT_MEMHEAP_SIZE). assert (a < b < a + n) as Hab by (unfold b; lia).
    unfold new_item, set_item_magic, set_item_pool_ptr. wp1. do 2 wp1. wp1. wp1. apply wp_link_block; [lia|]. cbn [mi_list set_mi_pool_ptr set_mi_magic].
    wp1. eapply wp_remove_free; [exact Hr|exact HP|]. intros l1 Hr1 K1. cbn [mi_free set_mi_list set_mi_pool_ptr set_mi_magic] in K1.
    wp1. eapply wp_clear_next; [exact Hr1|exact Ha|exact Pa|]. intros l2 Hr2 K2. wp1. eapply wp_clear_prev; [exact Hr2|exact Ha|exact Pa|]. intros l3 Hr3 K3.
    wp1. eapply (wp_insert_free _ _ _ _ _ (in_area h first (total bs))); [exact S2|exact Hr3|apply Hb; lia|left; lia|exact HP'|]. intros l4 Hr4 K4.
    cbn [mi_free set_mi_free] in K2, K3, K4. apply wp_take_available; [cbn; lia|exact Hps|]. intros ps P1 P2.
    cbn [mh_pools set_mi_free set_mi_list set_mi_pool_ptr set_mi_magic] in P1, P2. do 2 wp1. wp1.
    cbn [mi_magic set_mh_pools set_mi_free set_mi_list set_mi_pool_ptr set_mi_magic]. rewrite upd_ne by lia. rewrite M3.
    assert (agree_out (mi_free s) l4 (in_area h first (total bs))) as K by eauto using agree_trans. replace b with (a + (RT_MEMHEAP_SIZE + size)) in * by (unfold b; lia). clear b.
    set (m := RT_MEMHEAP_SIZE + size) in *. set (b := a + m) in *.
    assert (total (pre ++ [(m, true); (n - m, false)] ++ post) = total bs) as Et by (unfold bs; rewrite !total_app; cbn; lia).
    apply HQ.
    + split; cbn [mh_pools mi_free set_mi_magic set_mh_pools set_mi_free]; rewrite ?P1; try done.
      * rewrite Et. apply (mseg_split s _ h first pre n false true m post (mo_seg _ _ _ _ _ H)); fold a bs b; cbn; upd_lia; rewrite ?M1; upd_lia; try done; try lia.
        -- unfold RT_MEMHEAP_MINIALLOC, m. lia.
        -- unfold m. by rewrite Zplus_mod, Hi4, Hs4.
        -- unfold RT_MEMHEAP_MINIALLOC, m. lia.
        -- intros q Q1 Q2 Q3. unfold same_item. cbn. rewrite ?M1. upd_lia. done.
      * rewrite free_at_app. cbn [app free_at]. fold a b. replace (b + (n - m)) with (a + n) by (unfold b; lia). rewrite Hperm'. apply Permutation_middle.
      * pose proof (mcarve_merged size n pre post (mo_merged _ _ _ _ _ H)) as Hm. unfold mcarve in Hm. rewrite Esp' in Hm. exact Hm.
      * rewrite Et. exact (mo_header _ _ _ _ _ H).
      * rewrite Et. split_and!; done.
      * rewrite Et. apply (mo_size _ _ _ _ _ H).
      * cbn. rewrite Hav, Hfb, free_bytes_app. cbn. unfold m. lia.
      * pose proof (mo_max _ _ _ _ _ H). cbn. unfold m in *. lia.
    + split; cbn [mh_pools mi_free set_mi_magic set_mh_pools set_mi_free]; try done. intros q Hq. unfold same_item, in_area in *. cbn. rewrite ?M1. upd_lia. done.
    + cbn [mh_pools set_mi_magic set_mh_pools]. by rewrite P1.
  - wp1. apply wp_take_available; [lia|exact Hps|]. intros ps P1 P2.
    wp1. eapply (wp_remove_free _ _ _ _ _ (in_area h first (total bs))); [exact Hr|exact HP|]. intros l1 Hr1 K1.
    wp1. eapply wp_clear_next; [exact Hr1|exact Ha|exact Pa|]. intros l2 Hr2 K2. eapply wp_clear_prev; [exact Hr2|exact Ha|exact Pa|]. intros l3 Hr3 K3.
    cbn [mi_free set_mi_free set_mh_pools] in K1, K2, K3. assert (agree_out (mi_free s) l3 (in_area h first (total bs))) as K by eauto using agree_trans.
    do 2 wp1. unfold set_item_magic. wp1. cbn [mi_magic set_mh_pools set_mi_free]. rewrite M3. cbn [app] in HQ.
    assert (total (pre ++ (n, true) :: post) = total bs) as Et by (unfold bs; rewrite !total_app; done).
    apply HQ.
    + split; cbn [mh_pools mi_free set_mi_magic set_mh_pools set_mi_free]; rewrite ?P1; try done.
      * rewrite Et. by apply (mseg_mark s _ h first pre n false true post (mo_seg _ _ _ _ _ H)).
      * rewrite free_at_app. cbn [app free_at]. exact Hperm'.
      * pose proof (mcarve_merged size n pre post (mo_merged _ _ _ _ _ H)) as Hm. unfold mcarve in Hm. rewrite Esp' in Hm. exact Hm.
      * rewrite Et. exact (mo_header _ _ _ _ _ H).
      * rewrite Et. split_and!; done.
      * rewrite Et. apply (mo_size _ _ _ _ _ H).
      * cbn. rewrite Hav, Hfb, free_bytes_app. cbn. lia.
      * pose proof (mo_max _ _ _ _ _ H). cbn. lia.
    + split; cbn [mh_pools mi_free set_mi_magic set_mh_pools set_mi_free]; try done. intros q Hq. unfold same_item, in_area in *. cbn. upd_lia. done.
    + cbn [mh_pools set_mi_magic set_mh_pools set_mi_free]. by rewrite P1.
Qed.

Lemma wp_alloc_section s h first bs fs size (Q : option Z -> memheaps -> Prop) :
  memheap_ok s h first bs fs -> RT_MEMHEAP_MINIALLOC <= size -> size mod 4 = 0 ->
  (memheap_alloc_step first size bs fs None bs fs -> Q None s) ->
  (forall r bs' fs' s', memheap_alloc_step first size bs fs (Some r) bs' fs' -> memheap_ok s' h first bs' fs' -> area_kept s s' h first (total bs) ->
     mp_max_used_size (mh_pools s' h) = Z.max (mp_max_used_size (mh_pools s h)) (mp_pool_size (mh_pools s' h) - mp_available_size (mh_pools s' h)) -> Q (Some r) s') ->
  wp (alloc_section h size) Q s.
Proof.
  intros H Hmin Hs4 Hno Hok. pose proof (mo_start _ _ _ _ _ H) as [S1 S2]. pose proof (mo_free _ _ _ _ _ H) as Hr. unfold RT_MEMHEAP_MINIALLOC in *.
  unfold alloc_section, pool. do 2 wp1. rewrite S2. unfold item_next_free. do 2 wp1. rewrite (proj1 (ring_first _ _ _ Hr)).
  wp1. refine (wp_alloc_search s h first bs fs size _ H _ _ fs [] _ 0 eq_refl _ _ _); [| |lia|exact (memheap_ok_length _ _ _ _ _ H)|by intros x ?%elem_of_nil].
  - intros xs ys pre n post -> -> Hxs Hf. destruct (Z.geb_spec (n - RT_MEMHEAP_SIZE) size) as [_|]; [|lia].
    wp1. eapply wp_alloc_take; [exact H|exact Hmin|exact Hs4|exact Hf|]. intros s' H1 H2 H3. wp1. eapply Hok; [|exact H1|exact H2|exact H3]. by constructor.
  - intros Hn v Hv. destruct (Z.geb_spec v size) as [|_]; [lia|]. wp1. apply Hno. by constructor.
Qed.

(** *** Giving a block back *)
Definition left_join (pre : list block) (n : Z) : list block * Z :=
  match last pre with Some (k, false) => (removelast pre, k + n) | _ => (pre, n) end.
(** The block after the join with its left neighbour, and the heap after both joins. *)
Lemma left_join_cases pre n :
  last_used pre = true /\ left_join pre n = (pre, n) \/ exists p k, pre = p ++ [(k, false)] /\ last_used pre = false /\ left_join pre n = (p, k + n).
Proof.
  destruct pre as [|[k u] p _] using rev_ind; [by left|]. unfold left_join. rewrite last_used_snoc, last_snoc, removelast_last.
  destruct u; [by left|]. right. eauto.
Qed.
Lemma plugged_left pre n post : plugged pre n post = let '(p, m) := left_join pre n in let '(m', post') := merge_right m post in p ++ (m', false) :: post'.
Proof.
  destruct pre as [|[k u] p _] using rev_ind; unfold plugged, left_join.
  - cbn. by destruct merge_right.
  - rewrite last_snoc, removelast_last. destruct u, post as [|[j []] post]; cbn [merge_right]; rewrite merge_left_snoc, <- ?app_assoc; try done.
    by rewrite Z.add_assoc.
Qed.
(** The free list: the block is put in front unless it joined its left neighbour, and the right neighbour leaves. *)
Definition freed_list (first : Z) (pre : list block) (n : Z) (post : list block) (fs : list Z) : list Z :=
  (if last_used pre then [first + total pre] else []) ++ (if first_used post then fs else without (first + total pre + n) fs).

Lemma wp_used s a u (Q : bool -> memheaps -> Prop) : mi_magic s a = magic_of u -> Q u s -> wp (RT_MEMHEAP_IS_USED a) Q s.
Proof. intros E HQ. unfold RT_MEMHEAP_IS_USED. wp1. rewrite E, magic_of_used. exact HQ. Qed.
Definition add_bytes (n : Z) (p : rt_memheap) : rt_memheap := set_mp_available_size (mp_available_size p + n) p.
Lemma add_bytes_add n m p : add_bytes m (add_bytes n p) = add_bytes (n + m) p.
Proof. unfold add_bytes, set_mp_available_size. cbn. f_equal. lia. Qed.
Lemma add_bytes_0 p : add_bytes 0 p = p.
Proof. destruct p. unfold add_bytes, set_mp_available_size. cbn. by rewrite Z.add_0_r. Qed.

Lemma wp_join_left s h first pre n post (Q : Z * bool -> memheaps -> Prop) :
  let bs := pre ++ (n, false) :: post in
  mseg s h first (first + total bs) first bs -> 0 <= mp_available_size (mh_pools s h) /\ mp_available_size (mh_pools s h) + RT_MEMHEAP_SIZE < 2 ^ 32 ->
  (forall s' p m, left_join pre n = (p, m) -> mseg s' h first (first + total bs) first (p ++ (m, false) :: post) -> mi_free s' = mi_free s ->
     mh_pools s' h = add_bytes (if last_used pre then 0 else RT_MEMHEAP_SIZE) (mh_pools s h) -> area_kept s s' h first (total bs) -> 
     Q (first + total p, last_used pre) s') ->
  wp (join_left h (first + total pre)) Q s.
Proof.
  intros bs H Hav HQ. pose proof (mseg_mid _ _ _ _ _ _ _ H) as [M1 M2 M3 M4 M5 M6 M7 M8 M9 M10 M11 M12 M13]. pose proof item_size as [Hi _].
  unfold join_left, item_prev. do 2 wp1. rewrite M2. wp1. eapply wp_used; [exact M8|].
  destruct (left_join_cases pre n) as [[Hu Hl]|(p & k & -> & Hu & Hl)]; rewrite Hu, Hl in *; cbn [negb].
  - wp1. eapply HQ; [reflexivity|exact H|done| |]; [by rewrite add_bytes_0|done].
  - rewrite before_snoc in *. rewrite total_app in *. cbn [total] in *. rewrite Z.add_0_r in *. set (b := first + total p) in *. replace (first + (total p + k)) with (b + k) in * by (unfold b; lia).
    assert (bs = p ++ (k, false) :: (n, false) :: post) as E by (unfold bs; by rewrite <- app_assoc). clearbody bs. subst bs.
    destruct (mseg_mid s h first p k false ((n, false) :: post) H) as [N1 N2 N3 N4 N5 N6 N7 N8 N9 N10 N11 N12 N13].
    fold b in N1, N2, N3, N4, N6. unfold RT_MEMHEAP_MINIALLOC in *.
    wp1. apply wp_add_available; [lia|]. intros ps P1 P2. unfold item_next, set_item_next, set_item_prev. do 2 wp1. do 2 wp1. do 2 wp1. do 2 wp1. do 2 wp1. do 2 wp1. wp1.
    cbn [mi_list set_mi_list set_mh_pools set_next set_prev l_next l_prev]. rewrite ?M1, ?M2, !(upd_ne _ b (b + k)), ?M1 by lia. rewrite (upd_ne _ (b + k + n)), M2 by lia.
    eapply HQ; [reflexivity| |done|exact P1|].
    + apply (mseg_join s _ h first p k false n false post H); fold b; cbn; upd_lia; try done; try (rewrite Z.add_assoc; done).
      intros q Q1 Q2 Q3. unfold same_item. cbn. upd_lia. done.
    + split; cbn; try done. intros q Hq. unfold same_item, in_area in *. cbn. rewrite N13 in *. cbn [total] in *. upd_lia. done.
Qed.

Lemma wp_absorb_next s h first pre n u k v post xs ys (Q : unit -> memheaps -> Prop) :
  let bs := pre ++ (n, u) :: (k, v) :: post in let a := first + total pre in
  mseg s h first (first + total bs) first bs -> ring (mi_free s) (free_header h) (xs ++ (a + n) :: ys) ->
  (forall x, x ∈ free_header h :: xs ++ (a + n) :: ys -> in_area h first (total bs) x) ->
  (forall s', mseg s' h first (first + total bs) first (pre ++ (n + k, u) :: post) -> ring (mi_free s') (free_header h) (xs ++ ys) ->
     mh_pools s' = mh_pools s -> area_kept s s' h first (total bs) -> Q tt s') ->
  wp (absorb_next a) Q s.
Proof.
  intros bs a H Hr HP HQ. pose proof (mseg_mid _ _ _ _ _ _ _ H) as [M1 M2 M3 M4 M5 M6 M7 M8 M9 M10 M11 M12 M13]. fold a in M1, M2, M3, M4, M6, M10.
  apply mseg_cons in M10 as [(N1 & N2 & N3 & N4 & N5 & N6 & _) [MR _]]. pose proof item_size as [Hi _]. unfold RT_MEMHEAP_MINIALLOC in *. cbn [total] in M12, M13.
  pose proof (mblocks_total _ _ _ _ _ MR) as [Hpost _].
  unfold absorb_next, item_next, set_item_next, set_item_prev. do 2 wp1. do 2 wp1. do 2 wp1. do 2 wp1. do 2 wp1. rewrite M1, N1.
  cbn [mi_list set_mi_list set_next set_prev l_next l_prev]. rewrite N1.
  eapply (wp_remove_free _ _ _ _ _ (in_area h first (total bs))); [exact Hr|exact HP|]. intros l Hl K. cbn [mi_free set_mi_list] in K. apply HQ; try done.
  - apply (mseg_join s _ h first pre n u k v post H); fold a; cbn; upd_lia; try done. intros q Q1 Q2 Q3. unfold same_item. cbn. upd_lia. done.
  - split; cbn; try done. intros q Hq. unfold same_item, in_area, a in *. unfold bs in Hq; rewrite M13 in Hq. cbn. upd_lia. done.
Qed.
Lemma wp_join_right s h first pre n post fs (Q : unit -> memheaps -> Prop) :
  let bs := pre ++ (n, false) :: post in let a := first + total pre in
  mseg s h first (first + total bs) first bs -> 0 <= mp_available_size (mh_pools s h) /\ mp_available_size (mh_pools s h) + RT_MEMHEAP_SIZE < 2 ^ 32 ->
  ring (mi_free s) (free_header h) fs -> (forall x, x ∈ free_header h :: fs -> in_area h first (total bs) x) -> (first_used post = false -> a + n ∈ fs) ->
  (forall s' m post', merge_right n post = (m, post') -> mseg s' h first (first + total bs) first (pre ++ (m, false) :: post') -> 
     ring (mi_free s') (free_header h) (if first_used post then fs else without (a + n) fs) -> 
     mh_pools s' h = add_bytes (if first_used post then 0 else RT_MEMHEAP_SIZE) (mh_pools s h) -> area_kept s s' h first (total bs) -> Q tt s') ->
  wp (join_right h a) Q s.
Proof.
  intros bs a H Hav Hr HP Hin HQ. pose proof (mseg_mid _ _ _ _ _ _ _ H) as [M1 M2 M3 M4 M5 M6 M7 M8 M9 M10 M11 M12 M13]. fold a in M1, M7.
  unfold join_right, item_next. do 2 wp1. rewrite M1. wp1. eapply wp_used; [exact M7|]. destruct (first_used post) eqn:Eu; cbn [negb].
  - wp1. eapply HQ; [|exact H|exact Hr|by rewrite add_bytes_0|done]. by destruct post as [|[k []] post].
  - destruct post as [|[k []] post]; [done..|]. destruct (list_elem_of_split _ _ (Hin eq_refl)) as (xs & ys & ->).
    pose proof (proj2 Hr) as [_ Hnd]%NoDup_cons. rewrite (without_mid _ _ _ Hnd) in HQ.
    wp1. apply wp_add_available; [pose proof item_size; lia|]. intros ps P1 P2. eapply wp_absorb_next; [eapply (mseg_frame s); [exact H|done]|exact Hr|exact HP|]. intros s' H' Hr' E [K1 K2 K3 K4].
    eapply HQ; [done|exact H'|exact Hr'|by rewrite E|]. split; try done. intros h' Hne. rewrite K3 by done. by apply P2.
Qed.

Lemma area_kept_trans s1 s2 s3 h first len : area_kept s1 s2 h first len -> area_kept s2 s3 h first len -> area_kept s1 s3 h first len.
Proof.
  intros [A1 A2 A3 A4] [B1 B2 B3 B4]. split; [|by eapply agree_trans| |by rewrite B4].
  - intros q Hq. destruct (A1 q Hq) as (E1 & E2 & E3 & E4), (B1 q Hq) as (F1 & F2 & F3 & F4). split_and!; congruence.
  - intros h' Hne. rewrite B3 by done. by apply A3.
Qed.
Lemma memheap_ok_close s s' h first bs bs' fs fs' : memheap_ok s h first bs fs -> total bs' = total bs ->
  mseg s' h first (first + total bs) first bs' -> ring (mi_free s') (free_header h) fs' -> fs' ≡ₚ free_at first bs' -> merged bs' ->
  mh_pools s' h = set_mp_available_size (free_bytes bs') (mh_pools s h) -> free_bytes bs <= free_bytes bs' <= total bs' -> memheap_ok s' h first bs' fs'.
Proof.
  intros H Et H1 H2 H3 H4 H5 H6. pose proof (mo_max _ _ _ _ _ H) as Hm. pose proof (mo_available _ _ _ _ _ H) as Ha. pose proof item_size as [Hi _]. pose proof (mo_size _ _ _ _ _ H) as Hz. pose proof (mo_start _ _ _ _ _ H) as [Hs Hl].
  split; rewrite ?Et, ?H5; try done; cbn; try done; [apply (mo_header _ _ _ _ _ H)|apply (mo_range _ _ _ _ _ H)|lia].
Qed.

(** What the joins keep. *)
Lemma without_perm (x : Z) l l' : NoDup l -> l ≡ₚ x :: l' -> without x l ≡ₚ l'.
Proof.
  intros Hnd E. transitivity (without x (x :: l')); [unfold without; by rewrite E|]. rewrite without_hd; [done|]. by rewrite <- E.
Qed.
Lemma plugged_counts pre n post :
  total (plugged pre n post) = total pre + n + total post /\
  free_bytes (plugged pre n post) = free_bytes pre + free_bytes post + (n - RT_MEMHEAP_SIZE) +
    (if last_used pre then 0 else RT_MEMHEAP_SIZE) + (if first_used post then 0 else RT_MEMHEAP_SIZE).
Proof.
  rewrite plugged_left. destruct (left_join_cases pre n) as [[Hu ->]|(p & k & -> & Hu & ->)], post as [|[j []] post]; rewrite Hu; cbn [merge_right first_used];
    rewrite !total_app, !free_bytes_app; cbn [total free_bytes]; split; lia.
Qed.
Lemma freed_list_perm first pre n post fs : NoDup fs -> fs ≡ₚ free_at first (pre ++ (n, true) :: post) ->
  freed_list first pre n post fs ≡ₚ free_at first (plugged pre n post).
Proof.
  rewrite plugged_left, free_at_app. cbn [free_at app]. intros Hnd E. unfold freed_list. set (a := first + total pre) in *.
  assert (exists B, (if first_used post then fs else without (a + n) fs) ≡ₚ free_at first pre ++ B /\
    forall pos m, pos + m = a + n -> let '(m', post') := merge_right m post in free_at (pos + m') post' = B) as (B & EB & HB).
  { destruct post as [|[k []] post]; cbn [first_used merge_right]; [eexists; split; [exact E|]; by intros pos m ->..|]. cbn [free_at app] in E.
    exists (free_at (a + n + k) post). split; [|intros pos m <-; f_equal; lia]. apply without_perm; [done|]. rewrite E. symmetry. apply Permutation_middle. }
  rewrite EB. destruct (left_join_cases pre n) as [[Hu ->]|(p & k & -> & Hu & ->)]; rewrite Hu.
  - specialize (HB a n eq_refl). destruct (merge_right n post) as [m' post']. rewrite free_at_app. cbn [free_at app]. fold a. rewrite HB. apply Permutation_middle.
  - specialize (HB (first + total p) (k + n)). unfold a in HB. rewrite total_app in HB. cbn [total] in HB. specialize (HB ltac:(lia)).
    destruct (merge_right (k + n) post) as [m' post']. rewrite !free_at_app. cbn [free_at app]. by rewrite HB, <- app_assoc.
Qed.

Lemma wp_memheap_free_section s h first pre n post fs (Q : unit -> memheaps -> Prop) :
  let bs := pre ++ (n, true) :: post in memheap_ok s h first bs fs ->
  (forall s', memheap_ok s' h first (plugged pre n post) (freed_list first pre n post fs) -> area_kept s s' h first (total bs) ->
     mp_max_used_size (mh_pools s' h) = mp_max_used_size (mh_pools s h) -> Q tt s') ->
  wp (memheap_free_section h (first + total pre)) Q s.
Proof.
  intros bs H HQ. set (a := first + total pre). pose proof (mo_seg _ _ _ _ _ H) as Hs. pose proof (mseg_mid _ _ _ _ _ _ _ Hs) as [M1 M2 M3 M4 M5 M6 M7 M8 M9 M10 M11 M12 M13]. fold bs in M13.
  fold a in M3. pose proof item_size as [Hi _]. pose proof (mo_range _ _ _ _ _ H) as (R1 & R2 & R3). fold bs in R3. pose proof (mo_available _ _ _ _ _ H) as Hav. fold bs in Hav.
  pose proof (free_bytes_range _ _ _ _ _ M9) as F1. pose proof (free_bytes_range _ _ _ _ _ (proj1 M10)) as F2. destruct (plugged_counts pre n post) as [Ct Cb].
  assert (free_bytes bs = free_bytes pre + free_bytes post) as Fb by (unfold bs; rewrite free_bytes_app; done). unfold RT_MEMHEAP_MINIALLOC in *.
  unfold memheap_free_section, set_item_magic. do 2 wp1. wp1. wp1. rewrite M3. change (Z.land (magic_of true) RT_MEMHEAP_MASK) with (magic_of false).
  set (s1 := set_mi_magic _ s). assert (mseg s1 h first (first + total bs) first (pre ++ (n, false) :: post)) as Hs1 by (by apply (mseg_mark s s1 h first pre n true false post Hs)).
  assert (total (pre ++ (n, false) :: post) = total bs) as Et by (unfold bs; rewrite !total_app; done). rewrite <- Et in Hs1.
  assert (area_kept s s1 h first (total bs)) as K1.
  { split; try done. intros q Hq. unfold same_item, in_area in *. cbn. unfold a. upd_lia. done. }
  wp1. eapply (wp_item_size s1); [exact Hs1|lia|]. wp1. apply wp_add_available; [change (mh_pools s1) with (mh_pools s); lia|]. intros ps P1 P2. change (mh_pools s1) with (mh_pools s) in P1, P2.
  wp1. eapply wp_join_left; [eapply (mseg_frame s1); [exact Hs1|done]|cbn; rewrite P1; cbn; lia|]. intros s2 p m Hl Hs2 E2 Hp2 K2. rewrite Et in Hs2, K2.
  change (mi_free (set_mh_pools ps s1)) with (mi_free s) in E2. cbn [mh_pools set_mh_pools] in Hp2. cbv beta.
  assert (total p + m = total pre + n /\ (last_used pre = true -> p = pre)) as [Ep Hpre].
  { destruct (left_join_cases pre n) as [[_ E]|(p' & k & -> & Hu & E)]; rewrite E in Hl; injection Hl as <- <-; [done|]. rewrite total_app, Hu. cbn. split; [lia|done]. }
  assert (total (p ++ (m, false) :: post) = total bs) as Et2 by (rewrite total_app; cbn [total]; lia).
  pose proof (mo_perm _ _ _ _ _ H) as Hperm. fold bs in Hperm. unfold bs in Hperm. rewrite free_at_app in Hperm. cbn [free_at app] in Hperm. fold a in Hperm.
  wp1. eapply (wp_join_right s2 h first p m post fs); rewrite ?Et2; [exact Hs2| |rewrite E2; apply H|intros x Hx; by eapply memheap_ok_in_area| |].
  { rewrite Hp2. cbn. rewrite P1. cbn. destruct (last_used pre); lia. }
  { intros Hu. rewrite Hperm, elem_of_app. right. destruct post as [|[k []] post]; try done. cbn [free_at app]. replace (first + total p + m) with (a + n) by (unfold a; lia). by left. }
  replace (first + total p + m) with (a + n) by (unfold a; lia). intros s3 m' post' Hm Hs3 Hr3 Hp3 K3.
  assert (p ++ (m', false) :: post' = plugged pre n post) as Epl by (rewrite plugged_left, Hl, Hm; done). rewrite Epl in Hs3.
  assert (mh_pools s3 h = set_mp_available_size (free_bytes (plugged pre n post)) (mh_pools s h)) as Hp.
  { rewrite Hp3, Hp2, P1. unfold add_bytes, set_mp_available_size. cbn. f_equal. rewrite Cb. lia. }
  assert (NoDup fs) as Hnd by (pose proof (proj2 (mo_free _ _ _ _ _ H)) as [_ ?]%NoDup_cons; done).
  pose proof (freed_list_perm first pre n post fs Hnd (mo_perm _ _ _ _ _ H)) as Hfp. pose proof (plugged_merged _ _ _ _ (mo_merged _ _ _ _ _ H)) as Hmg.
  assert (area_kept s s3 h first (total bs)) as K.
  { eapply area_kept_trans; [exact K1|]. eapply area_kept_trans; [|eapply area_kept_trans; [exact K2|exact K3]]. split; try done. }
  assert (free_bytes bs <= free_bytes (plugged pre n post) <= total (plugged pre n post)) as Hfb.
  { split; [rewrite Cb; destruct (last_used pre), (first_used post); lia|]. apply (free_bytes_range _ _ _ _ _ (proj1 Hs3)). }
  assert (total (plugged pre n post) = total bs) as Ept by lia.
  unfold freed_list in *. destruct (last_used pre) eqn:Hu.
  - rewrite (Hpre eq_refl). fold a. eapply (wp_insert_free _ _ _ _ _ (in_area h first (total bs))); [rewrite Hp; apply (mo_start _ _ _ _ _ H)|exact Hr3| |left; unfold a; lia| |].
    + intros [E|Hx]%elem_of_cons; [destruct (mo_header _ _ _ _ _ H); fold bs; unfold a in *; lia|].
      assert (a ∈ fs) as Ha by (destruct (first_used post); [done|]; by apply elem_of_without in Hx as [_ Hx]).
      rewrite Hperm in Ha. apply elem_of_app in Ha as [Ha|Ha]; [apply (free_at_range _ _ _ _ _ _ M9) in Ha|apply (free_at_range _ _ _ _ _ _ (proj1 M10)) in Ha]; unfold a in *; lia.
    + intros x Hx. eapply memheap_ok_in_area; [exact H|]. apply elem_of_cons in Hx as [->|Hx]; [by left|right]. destruct (first_used post); [done|]. by apply elem_of_without in Hx as [_ Hx].
    + intros l Hrl Kl. apply HQ; [|eapply area_kept_trans; [exact K|by split]|cbn; by rewrite Hp].
      eapply memheap_ok_close; [exact H|exact Ept|eapply mseg_frame; [exact Hs3|done]|exact Hrl|exact Hfp|exact Hmg|exact Hp|exact Hfb].
  - wp1. apply HQ; [|exact K|by rewrite Hp]. by eapply memheap_ok_close.
Qed.
End alloc.
