(* ===== verification/MemHeapCalls.v ===== *)
(** The calls of the memory heap allocator when the lock of the heap is free: none of them
    waits, nothing but that heap changes, and its blocks change as the reference says. *)
From S2P Require Import Prelude RtList Kservice MemOps Kernel Scheduler Object TimerCore Invariant Thread Timer Ipc Semaphore Lock Resume Mem HeapSpec HeapCalls HeapRealloc MemHeap MemHeapSpec MemHeapAlloc.

Section calls.
Context {cfg : Config} {al : AlignOK cfg} {kh : KHeap} {sz : ObjectSizes} {st : StaticThreads} {lay : MemHeapLayout}.

(** *** The lock *)
Lemma wp_on_kernel {A} (m : M kstate A) (Q : A -> mhstate -> Prop) s :
  wp m (fun a k => Q a (set_ms_kernel k s)) (ms_kernel s) -> wp (on_kernel m) Q s.
Proof. unfold wp, on_kernel. by destruct (m (ms_kernel s)) as [[a k]|]. Qed.
Lemma wp_on_mem {A} (m : M memheaps A) (Q : A -> mhstate -> Prop) s :
  wp m (fun a v => Q a (set_ms_mem v s)) (ms_mem s) -> wp (on_mem m) Q s.
Proof. unfold wp, on_mem. by destruct (m (ms_mem s)) as [[a k]|]. Qed.
Lemma wpr_gets_mem {A} (f : memheaps -> A) (Q : A -> mhstate -> Prop) s : Q (f (ms_mem s)) s -> wpr (now (on_mem (gets f))) Q s.
Proof. intros H. wpr1. apply wp_on_mem. wp1. by destruct s. Qed.
Lemma wpr_take_lock s h (Q : Z -> mhstate -> Prop) :
  lock_free (ms_kernel s) (heap_lock h) -> (forall k, lock_at (ms_kernel s) k (heap_lock h) 0 -> Q RT_EOK (set_ms_kernel k s)) -> wpr (take_lock h) Q s.
Proof. intros Hl HQ. apply wpr_await, wp_on_kernel. by apply wp_lock_take. Qed.
Lemma wpr_release_lock s k h (Q : Z -> mhstate -> Prop) :
  lock_free k (heap_lock h) -> lock_at k (ms_kernel s) (heap_lock h) 0 -> (forall k', lock_at k k' (heap_lock h) 1 -> Q RT_EOK (set_ms_kernel k' s)) ->
  wpr (release_lock h) Q s.
Proof. intros Hl Hk HQ. unfold release_lock. wpr1. apply wp_on_kernel. by eapply wp_lock_release. Qed.
(** What a call leaves alone outside the memory. *)
Record call_kept (s s' : mhstate) (h : Z) : Prop := {
  ck_kernel : lock_at (ms_kernel s) (ms_kernel s') (heap_lock h) 1;
  ck_errno : ms_errno s' = ms_errno s
}.
Lemma call_kept_free s s' h : lock_free (ms_kernel s) (heap_lock h) -> call_kept s s' h -> lock_free (ms_kernel s') (heap_lock h).
Proof. intros H [K _]. by eapply lock_at_free. Qed.
Lemma call_kept_refl s h : lock_free (ms_kernel s) (heap_lock h) -> call_kept s s h.
Proof. intros H. split; [by apply lock_at_refl|done]. Qed.
Lemma call_kept_trans s s1 s2 h : call_kept s s1 h -> call_kept s1 s2 h -> call_kept s s2 h.
Proof. intros [K1 E1] [K2 E2]. split; [by eapply lock_at_trans|by rewrite E2]. Qed.
Lemma wpr_with_lock {A} s h (f : M memheaps A) (o : A) (Q : A -> mhstate -> Prop) :
  lock_free (ms_kernel s) (heap_lock h) ->
  wp f (fun a v => forall s', call_kept s s' h -> ms_mem s' = v -> Q a s') (ms_mem s) -> wpr (with_lock h f o) Q s.
Proof.
  intros Hl Hf. unfold with_lock. wpr1. apply wpr_take_lock; [done|]. intros k Hk. cbn [negb Z.eqb RT_EOK]. wpr1. wpr1. apply wp_on_mem.
  eapply wp_mono; [exact Hf|]. intros a v HQ. wpr1. eapply wpr_release_lock; [exact Hl|exact Hk|]. intros k' Hk'. wpr1. by apply HQ.
Qed.
Lemma memheap_size_ok size : RT_MEMHEAP_MINIALLOC <= memheap_size size /\ memheap_size size mod 4 = 0.
Proof.
  unfold memheap_size, RT_MEMHEAP_MINIALLOC. destruct (Z.ltb_spec (RT_ALIGN size RT_ALIGN_SIZE) 12) as [|Hs]; [done|]. split; [done|].
  apply align_mod4, RT_ALIGN_mod.
Qed.
Lemma memheap_size_ge size : 0 <= size -> size + RT_ALIGN_SIZE <= 2 ^ 32 -> size <= memheap_size size.
Proof. intros H1 H2. destruct (RT_ALIGN_spec size H1 H2) as [H _]. unfold memheap_size, RT_MEMHEAP_MINIALLOC. destruct (Z.ltb_spec (RT_ALIGN size RT_ALIGN_SIZE) 12); lia. Qed.

(** *** rt_memheap_alloc and rt_memheap_free *)
(** What rt_memheap_alloc may return: a heap that has no more than the size free is not searched. *)
Definition alloc_result (first size : Z) (bs : list block) (fs : list Z) (r : option Z) (bs' : list block) (fs' : list Z) : Prop :=
  if memheap_size size <? free_bytes bs then memheap_alloc_step first (memheap_size size) bs fs r bs' fs'
  else r = None /\ bs' = bs /\ fs' = fs.
(** What a call on the heap [h] does to the memory. *)
Record heap_moved (s s' : mhstate) (h first : Z) (bs : list block) (bs' : list block) (fs' : list Z) : Prop := {
  hv_call : call_kept s s' h;
  hv_ok : memheap_ok (ms_mem s') h first bs' fs';
  hv_area : area_kept (ms_mem s) (ms_mem s') h first (total bs)
}.
Lemma wpr_memheap_alloc s h first bs fs size (Q : option Z -> mhstate -> Prop) :
  h <> 0 -> lock_free (ms_kernel s) (heap_lock h) -> memheap_ok (ms_mem s) h first bs fs ->
  (forall r s' bs' fs', heap_moved s s' h first bs bs' fs' -> alloc_result first size bs fs r bs' fs' -> Q r s') ->
  wpr (rt_memheap_alloc h size) Q s.
Proof.
  intros Hh Hl H HQ. unfold rt_memheap_alloc, alloc_result in *. wpr1. wpr1. wp1; [by apply Z.eqb_neq in Hh as ->|]. wpr1. apply wpr_gets_mem.
  rewrite (mo_available _ _ _ _ _ H). destruct (memheap_size_ok size) as [S1 S2]. destruct (memheap_size size <? free_bytes bs).
  - apply wpr_with_lock; [done|]. eapply wp_alloc_section; [exact H|exact S1|exact S2|..].
    + intros Hn s' K Em. apply (HQ None s' bs fs); [|exact Hn]. split; [done|by rewrite Em|rewrite Em]. done.
    + intros r bs' fs' m Hst Hok Ha _ s' K Em. apply (HQ (Some r) s' bs' fs'); [|exact Hst]. by split; rewrite ?Em.
  - wpr1. apply (HQ None s bs fs); [|done]. split; [by apply call_kept_refl|done|done].
Qed.

(** C6 With the lock of its heap free, rt_memheap_alloc never waits and never fails an
    assertion.  It takes the first block of the free list that fits, split when the rest can
    hold a block, which then is the first of the free list; or it returns NULL with the heap
    as it was, when no block fits or the heap has not more than the size free. *)
Theorem rt_memheap_alloc_refines s h first bs fs size :
  h <> 0 -> lock_free (ms_kernel s) (heap_lock h) -> memheap_ok (ms_mem s) h first bs fs ->
  exists r s' bs' fs', rt_memheap_alloc h size s = Some (Done r, s') /\ heap_moved s s' h first bs bs' fs' /\ alloc_result first size bs fs r bs' fs'.
Proof.
  intros Hh Hl H. assert (wpr (rt_memheap_alloc h size) (fun r s' => exists bs' fs', heap_moved s s' h first bs bs' fs' /\ alloc_result first size bs fs r bs' fs') s) as Hw.
  { eapply wpr_memheap_alloc; [done..|]. eauto. }
  apply wpr_run in Hw as (r & s' & E & bs' & fs' & Hr). by exists r, s', bs', fs'.
Qed.

Lemma wpr_memheap_free s h first pre n post fs (Q : unit -> mhstate -> Prop) :
  let bs := pre ++ (n, true) :: post in
  lock_free (ms_kernel s) (heap_lock h) -> memheap_ok (ms_mem s) h first bs fs ->
  (forall s', heap_moved s s' h first bs (plugged pre n post) (freed_list first pre n post fs) -> Q tt s') ->
  wpr (rt_memheap_free (first + total pre + RT_MEMHEAP_SIZE)) Q s.
Proof.
  intros bs Hl H HQ. pose proof (mseg_mid _ _ _ _ _ _ _ (mo_seg _ _ _ _ _ H)) as [M1 M2 M3 M4 M5 M6 M7 M8 M9 M10 M11 M12 M13]. pose proof item_size as [Hi _].
  pose proof (mo_range _ _ _ _ _ H) as (R1 & _). unfold rt_memheap_free. destruct (Z.eqb_spec (first + total pre + RT_MEMHEAP_SIZE) 0); [lia|].
  replace (first + total pre + RT_MEMHEAP_SIZE - RT_MEMHEAP_SIZE) with (first + total pre) by lia. wpr1. apply wpr_gets_mem. rewrite M3. wpr1. wpr1. wp1; [done|].
  wpr1. apply wpr_gets_mem. rewrite M4. apply wpr_with_lock; [done|]. eapply wp_memheap_free_section; [exact H|].
  intros m Hok Ha _ s' K Em. apply HQ. by split; rewrite ?Em.
Qed.
(** C7 rt_memheap_free gives a used block back: it joins its free neighbours on both sides,
    and is the first of the free list unless it joined the block before it; other heaps, the
    bytes and the kernel are as they were. *)
Theorem rt_memheap_free_refines s h first pre n post fs :
  let bs := pre ++ (n, true) :: post in
  lock_free (ms_kernel s) (heap_lock h) -> memheap_ok (ms_mem s) h first bs fs ->
  exists s', rt_memheap_free (first + total pre + RT_MEMHEAP_SIZE) s = Some (Done tt, s') /\
    heap_moved s s' h first bs (plugged pre n post) (freed_list first pre n post fs).
Proof.
  intros bs Hl H. assert (wpr (rt_memheap_free (first + total pre + RT_MEMHEAP_SIZE)) (fun _ s' => heap_moved s s' h first bs (plugged pre n post) (freed_list first pre n post fs)) s) as Hw.
  { eapply wpr_memheap_free; [done..|]. eauto. }
  apply wpr_run in Hw as ([] & s' & E & Hr). by exists s'.
Qed.

(** *** The start *)
Lemma wp_mod_pool s h f (Q : unit -> memheaps -> Prop) :
  (forall ps, ps h = f (mh_pools s h) -> (forall h', h' <> h -> ps h' = mh_pools s h') -> Q tt (set_mh_pools ps s)) -> wp (mod_pool h f) Q s.
Proof. intros HQ. unfold mod_pool. wp1. apply HQ; [apply upd_eq|]. intros h' Hne. by rewrite upd_ne. Qed.
(** Only the item [a] changes. *)
Record item_only (s s' : memheaps) (a : Z) : Prop := {
  io_items : forall q, q <> a -> same_item s s' q;
  io_free : agree_out (mi_free s) (mi_free s') (fun x => x = a);
  io_rest : mh_pools s' = mh_pools s /\ mh_bytes s' = mh_bytes s
}.
Ltac item_only_tac := split; [intros q Hq; unfold same_item; cbn; upd_simpl; done|intros x Hx; cbn; upd_simpl; done|done].
Lemma wp_item_init s h a (Q : unit -> memheaps -> Prop) :
  (forall s', item_only s s' a -> mi_magic s' a = magic_of false -> mi_pool_ptr s' a = h -> l_next (mi_free s') a = a -> l_prev (mi_free s') a = a -> Q tt s') ->
  wp (item_init h a) Q s.
Proof.
  intros HQ. unfold item_init, new_item, set_item_magic, set_item_pool_ptr, set_item_next, set_item_prev, set_item_next_free, set_item_prev_free. do 3 wp1. do 4 wp1. wp1. wp1. wp1.
  apply HQ; [item_only_tac|cbn; by rewrite ?upd_eq..].
Qed.
Lemma wp_tail_init s h a start (Q : unit -> memheaps -> Prop) :
  (forall s', item_only s s' a -> mtail s' h start start a -> Q tt s') -> wp (tail_init h a start) Q s.
Proof.
  intros HQ. unfold tail_init, set_item_magic, set_item_pool_ptr, set_item_next, set_item_prev, set_item_next_free, set_item_prev_free. do 5 wp1. do 5 wp1. wp1.
  apply HQ; [item_only_tac|unfold mtail; cbn; by rewrite !upd_eq].
Qed.
Lemma item_only_area s s' a h first len : item_only s s' a -> in_area h first len a -> area_kept s s' h first len.
Proof. intros [H1 H2 [H3 H4]] Ha. split; [intros q Hq; apply H1; by intros ->|intros x Hx; apply H2; by intros ->|by rewrite H3|done]. Qed.

Lemma wp_init_section s h start size (Q : unit -> memheaps -> Prop) :
  let pool := RT_ALIGN_DOWN size RT_ALIGN_SIZE in
  0 <= size < 2 ^ 32 -> 2 * RT_MEMHEAP_SIZE + RT_MEMHEAP_MINIALLOC <= pool -> 0 < start -> start mod 4 = 0 -> start + pool <= 2 ^ 32 ->
  ~ start <= free_header h < start + pool ->
  (forall s', memheap_ok s' h start [(pool - RT_MEMHEAP_SIZE, false)] [start] -> area_kept s s' h start (pool - RT_MEMHEAP_SIZE) -> Q tt s') ->
  wp (init_section h start size) Q s.
Proof.
  intros pl Hs Hp R1 R2 R3 Hhd HQ. pose proof item_size as [Hi Hi4]. destruct (RT_ALIGN_DOWN_spec size Hs) as [D1 D2]. fold pl in D1, D2. unfold RT_MEMHEAP_MINIALLOC in *.
  unfold init_section. cbv zeta. fold pl.
  rewrite (uint_small 32 (pl - 2 * RT_MEMHEAP_SIZE)) by lia. replace (pl - (pl - 2 * RT_MEMHEAP_SIZE)) with (2 * RT_MEMHEAP_SIZE) by lia. rewrite (uint_small 32 (2 * _)) by lia.
  set (hd := free_header h) in *. replace (start + (pl - 2 * RT_MEMHEAP_SIZE) + RT_MEMHEAP_SIZE) with (start + (pl - RT_MEMHEAP_SIZE)) by lia.
  set (n := pl - RT_MEMHEAP_SIZE) in *. set (P := in_area h start n). assert (P start /\ P hd /\ P (start + n)) as (P1 & P2 & P3) by (unfold P, in_area; fold hd; lia).
  wp1. apply wp_mod_pool. intros ps1 A1 B1. wp1. apply wp_item_init. intros s2 I2 _ _ F2 G2. wp1. apply wp_mod_pool. intros ps3 A3 B3.
  wp1. apply wp_item_init. intros s4 I4 M4 N4 F4 G4. unfold set_item_next, set_item_prev, item_next. do 2 wp1. do 2 wp1. do 2 wp1. wp1. apply wp_mod_pool. intros ps5 A5 B5.
  cbn [mi_list set_mi_free set_mh_pools set_mi_list set_next set_prev l_next l_prev]. rewrite upd_eq.
  pose proof (io_rest _ _ _ I2) as [E2 _]. pose proof (io_rest _ _ _ I4) as [E4 _]. cbn [mh_pools set_mh_pools set_mi_list] in A1, B1, A3, B3, A5, B5, E2, E4.
  rewrite E2, A1 in A3. rewrite E4, A3 in A5. cbn in A5.
  assert (hd <> start) as Hne by lia. destruct (io_free _ _ _ I4 hd Hne) as [F4' G4']. cbn in F4', G4'. rewrite F2 in F4'. rewrite G2 in G4'.
  assert (ring (mi_free s4) hd []) as Hr by (split; [by split|by apply NoDup_singleton]).
  wp1. eapply (wp_insert_free _ _ hd _ _ P); [cbn; by rewrite A5|exact Hr|by intros ?%list_elem_of_singleton|exact P1|by intros x ->%list_elem_of_singleton|]. intros l6 Hr6 K6.
  do 2 wp1. cbn [mi_list set_mi_free set_mh_pools set_mi_list set_next set_prev l_next l_prev]. rewrite upd_eq.
  apply wp_tail_init. intros s7 I7 T7.
  assert (forall q, q <> start + n -> same_item (set_mi_list (set_prev (set_next (mi_list s4) start (start + n)) start (start + n)) s4) s7 q) as S7 by apply I7.
  destruct (S7 start) as (C1 & C2 & C3 & C4); [lia|]. cbn in C1, C2, C3, C4. rewrite upd_eq in C1, C2. rewrite M4 in C3. rewrite N4 in C4.
  assert (mh_pools s7 = ps5) as E7 by apply I7.
  apply HQ.
  - split; rewrite ?E7, ?A5; cbn [total app free_at free_bytes mp_start_addr mp_free_list mp_pool_size mp_available_size mp_max_used_size]; fold hd; rewrite ?Z.add_0_r; try done; try lia.
    + split; [|cbn; rewrite Z.add_0_r; exact T7]. cbn. split_and!; try done; [unfold RT_MEMHEAP_MINIALLOC; lia|].
      assert (pl mod 4 = 0) as Hp4 by (by apply align_mod4).
      unfold n. by rewrite Zminus_mod, Hp4, Hi4.
    + eapply ring_same; [exact Hr6|]. intros x Hx. apply I7. intros ->. apply elem_of_cons in Hx as [Hx|Hx%list_elem_of_singleton]; lia.
  - eapply area_kept_trans; [|eapply item_only_area; [exact I7|exact P3]].
    eapply (area_kept_trans _ s2); [eapply (area_kept_trans _ (set_mh_pools ps1 s)); [by split|eapply item_only_area; [exact I2|exact P2]]|].
    eapply (area_kept_trans _ s4).
    + pose proof (item_only_area _ _ _ h start n I4 P1) as [J1 J2 J3 J4]. split; [exact J1|exact J2| |exact J4]. intros h' Hh. rewrite (J3 h' Hh). by apply B3.
    + split; [|exact K6| |done].
      * intros q Hq. unfold same_item. cbn. rewrite !upd_ne by (intros ->; done). done.
      * intros h' Hh. cbn. by apply B5.
Qed.

(** After rt_memheap_init the heap is one free block in front of its tail, and its lock is
    free, whatever the memory held before. *)
Theorem rt_memheap_init_fresh s h name start size :
  let pool := RT_ALIGN_DOWN size RT_ALIGN_SIZE in
  h <> 0 -> 0 <= size < 2 ^ 32 -> 2 * RT_MEMHEAP_SIZE + RT_MEMHEAP_MINIALLOC <= pool -> 0 < start -> start mod 4 = 0 -> start + pool <= 2 ^ 32 ->
  ~ start <= free_header h < start + pool ->
  exists s', rt_memheap_init h name start size s = Some (RT_EOK, s') /\ lock_free (ms_kernel s') (heap_lock h) /\
    memheap_ok (ms_mem s') h start [(pool - RT_MEMHEAP_SIZE, false)] [start] /\ area_kept (ms_mem s) (ms_mem s') h start (pool - RT_MEMHEAP_SIZE).
Proof.
  intros pl Hh Hs Hp R1 R2 R3 Hhd. assert (wp (rt_memheap_init h name start size) (fun r s' => r = RT_EOK /\ lock_free (ms_kernel s') (heap_lock h) /\
    memheap_ok (ms_mem s') h start [(pl - RT_MEMHEAP_SIZE, false)] [start] /\ area_kept (ms_mem s) (ms_mem s') h start (pl - RT_MEMHEAP_SIZE)) s) as Hw.
  { unfold rt_memheap_init. wp1. wp1; [by apply Z.eqb_neq in Hh as ->|]. wp1. apply wp_on_kernel. unfold rt_object_init. wp_steps.
    apply wp_on_mem. eapply wp_init_section; [exact Hs|exact Hp|exact R1|exact R2|exact R3|exact Hhd|]. intros m Hok Ha.
    wp1. apply wp_on_kernel. apply wp_lock_init. intros k' Hk'. wp1. split; [done|]. split; [exact Hk'|].
    split; [exact Hok|exact Ha]. }
  apply wp_run in Hw as (r & s' & E & -> & Hr). by exists s'.
Qed.

(** *** What is granted *)
Lemma mcarve_head size n post : RT_MEMHEAP_SIZE + size <= n -> exists m post', mcarve size n ++ post = (m, true) :: post' /\ RT_MEMHEAP_SIZE + size <= m <= n /\
    (post' = post \/ post' = (n - m, false) :: post).
Proof.
  intros Hf. unfold mcarve. destruct (splits size n) eqn:E; unfold splits, RT_MEMHEAP_MINIALLOC in E; eexists _, _; (split; [reflexivity|]).
  - pose proof item_size as [Hi _]. split; [lia|by right].
  - split; [lia|by left].
Qed.
Lemma plugged_mcarve pre n m post post' : merged (pre ++ (n, false) :: post) -> post' = post /\ m = n \/ post' = (n - m, false) :: post ->
  plugged pre m post' = pre ++ (n, false) :: post.
Proof.
  intros (H1 & H2 & H3)%merged_app Hp. apply merged_cons in H2 as [H2 _].
  assert (last_used pre = true) as Hu.
  { destruct pre as [|[k []] pre _] using rev_ind; [done|by rewrite last_used_snoc|]. specialize (H3 (k, false) (n, false)). rewrite last_snoc in H3. by specialize (H3 eq_refl eq_refl). }
  rewrite plugged_left. destruct (left_join_cases pre m) as [[_ ->]|(p & k & -> & Hf & _)]; [|congruence].
  destruct Hp as [[-> ->]| ->].
  - destruct post as [|[k []] post]; try done. by specialize (H2 (k, false) eq_refl).
  - cbn [merge_right]. by replace (m + (n - m)) with n by lia.
Qed.
(** C8 What rt_memheap_alloc returns is safe to use: a word-aligned address behind a header,
    in a block that was free and is used afterwards, of at least the size asked for, inside the
    heap, while all other used blocks stay; and freeing it gives the blocks of before back. *)
Theorem rt_memheap_alloc_free s h first bs fs size a s1 :
  h <> 0 -> lock_free (ms_kernel s) (heap_lock h) -> memheap_ok (ms_mem s) h first bs fs -> 0 <= size -> size + RT_ALIGN_SIZE <= 2 ^ 32 ->
  rt_memheap_alloc h size s = Some (Done (Some a), s1) ->
  exists pre n post m post', bs = pre ++ (n, false) :: post /\ (post' = post /\ m = n \/ post' = (n - m, false) :: post) /\
    a = first + total pre + RT_MEMHEAP_SIZE /\ a mod 4 = 0 /\ a + size <= first + total pre + m /\ m <= n /\
    (exists fs1, memheap_ok (ms_mem s1) h first (pre ++ (m, true) :: post') fs1) /\
    exists s2 fs2, rt_memheap_free a s1 = Some (Done tt, s2) /\ call_kept s s2 h /\ memheap_ok (ms_mem s2) h first bs fs2.
Proof.
  intros Hh Hl H H0 Hsz E. destruct (memheap_size_ok size) as [Hmin _]. pose proof (memheap_size_ge size H0 Hsz) as Hge. pose proof item_size as [Hi Hi4].
  assert (wpr (rt_memheap_alloc h size) (fun r s1 => forall a, r = Some a -> exists pre n post m post', bs = pre ++ (n, false) :: post /\ (post' = post /\ m = n \/ post' = (n - m, false) :: post) /\
    a = first + total pre + RT_MEMHEAP_SIZE /\ a mod 4 = 0 /\ a + size <= first + total pre + m /\ m <= n /\
    (exists fs1, memheap_ok (ms_mem s1) h first (pre ++ (m, true) :: post') fs1) /\
    exists s2 fs2, rt_memheap_free a s1 = Some (Done tt, s2) /\ call_kept s s2 h /\ memheap_ok (ms_mem s2) h first bs fs2) s) as Hw.
  { eapply wpr_memheap_alloc; [done..|]. intros r s' bs' fs' [K Hok Ha] Hr b ->. unfold alloc_result in Hr. destruct (_ <? _); [|by destruct Hr].
    inversion Hr as [|xs ys pre n post Hxs Hf]; subst. destruct (mcarve_head _ n post Hf) as (m & post' & Em & Hm & Hp). rewrite Em in Hok.
    assert (post' = post /\ m = n \/ post' = (n - m, false) :: post) as Hp'.
    { destruct Hp as [->|]; [|by right]. left. split; [done|]. pose proof (f_equal total Em) as Et. rewrite total_app, mcarve_total in Et. cbn in Et. lia. }
    pose proof (mseg_mid _ _ _ _ _ _ _ (mo_seg _ _ _ _ _ Hok)) as [_ _ _ _ _ _ _ _ _ _ M11 _ _]. pose proof (mo_range _ _ _ _ _ H) as (R1 & R2 & R3).
    exists pre, n, post, m, post'. split; [done|]. split; [exact Hp'|]. split; [done|].
    split; [rewrite Zplus_mod, (Zplus_mod first), R2, (proj2 M11), Hi4; done|]. split; [lia|]. split; [lia|]. split; [by eexists|].
    assert (wpr (rt_memheap_free (first + total pre + RT_MEMHEAP_SIZE)) (fun _ s2 => exists fs2, call_kept s s2 h /\ memheap_ok (ms_mem s2) h first (pre ++ (n, false) :: post) fs2) s') as Hw.
    { eapply wpr_memheap_free; [by eapply call_kept_free|exact Hok|]. intros s2 [K2 Hok2 _]. eexists. split; [by eapply call_kept_trans|].
      rewrite (plugged_mcarve pre n m post post') in Hok2; [exact Hok2|by apply H|done]. }
    apply wpr_run in Hw as ([] & s2 & E2 & fs2 & K2 & Hok2). by exists s2, fs2. }
  unfold wpr in Hw. rewrite E in Hw. by apply Hw.
Qed.
End calls.
