(* ===== verification/MemHeapRealloc.v ===== *)
(** rt_memheap_realloc: a block grows into the free block behind it, gives its end back, or
    moves with its contents. *)
From S2P Require Import Prelude RtList Kservice MemOps Kernel Scheduler Object TimerCore Invariant Thread Timer Ipc Semaphore Lock Resume Mem HeapSpec HeapCalls HeapRealloc MemHeap MemHeapSpec MemHeapAlloc MemHeapCalls.

Section sections.
Context {cfg : Config} {al : AlignOK cfg} {lay : MemHeapLayout}.

Lemma memheap_ok_taken s s' h first bs bs' fs fs' n : memheap_ok s h first bs fs -> total bs' = total bs ->
  mseg s' h first (first + total bs) first bs' -> ring (mi_free s') (free_header h) fs' -> fs' ≡ₚ free_at first bs' -> merged bs' ->
  mh_pools s' h = pool_taken n (mh_pools s h) -> 0 <= n -> free_bytes bs' = free_bytes bs - n -> memheap_ok s' h first bs' fs'.
Proof.
  intros H Et H1 H2 H3 H4 H5 H6 H7. pose proof (mo_max _ _ _ _ _ H) as Hm. pose proof (mo_available _ _ _ _ _ H) as Ha. pose proof (mo_size _ _ _ _ _ H) as Hz.
  pose proof (mo_start _ _ _ _ _ H) as [Hs Hl]. pose proof (free_bytes_range _ _ _ _ _ (proj1 H1)) as Hf.
  split; rewrite ?Et, ?H5; try done; cbn; try done; [apply (mo_header _ _ _ _ _ H)|apply (mo_range _ _ _ _ _ H)|lia|lia].
Qed.
(** The free list without the block behind, and with the new one in front. *)
Lemma free_behind s h first pre n k post fs : memheap_ok s h first (pre ++ (n, true) :: (k, false) :: post) fs ->
  exists xs ys, fs = xs ++ (first + total pre + n) :: ys /\ xs ++ ys ≡ₚ free_at first pre ++ free_at (first + total pre + n + k) post /\
  forall b, first + total pre <= b < first + total pre + n + k -> b ∉ free_header h :: xs ++ ys.
Proof.
  intros H. pose proof (mo_perm _ _ _ _ _ H) as Hp. rewrite free_at_app in Hp. cbn [free_at app] in Hp.
  assert (first + total pre + n ∈ fs) as Hin by (rewrite Hp, elem_of_app; right; by left). apply list_elem_of_split in Hin as (xs & ys & ->). exists xs, ys.
  rewrite <- !Permutation_middle in Hp. apply Permutation_cons_inv in Hp. split_and!; [done|done|]. intros b Hb [->|Hx]%elem_of_cons.
  - pose proof (mo_header _ _ _ _ _ H) as Hh. pose proof (mseg_mid _ _ _ _ _ _ _ (mo_seg _ _ _ _ _ H)) as [_ _ _ _ _ _ _ _ _ M10 M11 M12 M13].
    apply mseg_cons in M10 as [_ [MR _]]. pose proof (mblocks_total _ _ _ _ _ MR) as [Ht _]. cbn [total] in M13. lia.
  - pose proof (mseg_mid _ _ _ _ _ _ _ (mo_seg _ _ _ _ _ H)) as [_ _ _ _ _ _ _ _ M9 M10 _ _ _]. apply mseg_cons in M10 as [_ [MR _]].
    rewrite Hp in Hx. apply elem_of_app in Hx as [Hx|Hx]; [apply (free_at_range _ _ _ _ _ _ M9) in Hx|apply (free_at_range _ _ _ _ _ _ MR) in Hx]; lia.
Qed.

Definition grown (pre : list block) (n k newsize : Z) (post : list block) : list block :=
  pre ++ (RT_MEMHEAP_SIZE + newsize, true) :: (n + k - (RT_MEMHEAP_SIZE + newsize), false) :: post.
Lemma wp_memheap_grow s h first pre n post fs newsize (Q : bool -> memheaps -> Prop) :
  let bs := pre ++ (n, true) :: post in memheap_ok s h first bs fs -> n - RT_MEMHEAP_SIZE < newsize -> newsize mod 4 = 0 -> newsize + RT_MEMHEAP_MINIALLOC < 2 ^ 32 ->
  Q false s ->
  (forall s' k post' fs', post = (k, false) :: post' -> memheap_ok s' h first (grown pre n k newsize post') fs' -> area_kept s s' h first (total bs) -> Q true s') ->
  wp (memheap_grow h (first + total pre) newsize (n - RT_MEMHEAP_SIZE)) Q s.
Proof.
  intros bs H Hlt Hn4 Hmax Hno Hok. set (a := first + total pre). pose proof (mo_seg _ _ _ _ _ H) as Hs.
  pose proof (mseg_mid _ _ _ _ _ _ _ Hs) as [M1 M2 M3 M4 M5 M6 M7 M8 M9 M10 M11 M12 M13]. fold a in M1, M2, M3, M4, M6, M7, M10. pose proof item_size as [Hi Hi4]. unfold RT_MEMHEAP_MINIALLOC in *.
  pose proof (mo_range _ _ _ _ _ H) as (R1 & R2 & R3). fold bs in R3, M13. pose proof (mo_start _ _ _ _ _ H) as [S1 S2].
  unfold memheap_grow, item_next, item_prev. do 2 wp1. rewrite M1. wp1. wp1; [apply Z.gtb_lt; lia|]. wp1. eapply wp_used; [exact M7|].
  destruct post as [|[k []] post]; cbn [first_used negb]; [wp1; exact Hno..|]. pose proof M10 as MR. apply mseg_cons in MR as [(N1 & N2 & N3 & N4 & N5 & N6 & _) [MR _]].
  pose proof (mblocks_total _ _ _ _ _ MR) as [Hpost _]. cbn [total] in M13. unfold RT_MEMHEAP_MINIALLOC in *.
  assert (bs = (pre ++ [(n, true)]) ++ (k, false) :: post) as E by (unfold bs; by rewrite <- app_assoc).
  assert (a + n = first + total (pre ++ [(n, true)])) as Ea by (rewrite total_app; cbn; unfold a; lia).
  wp1. rewrite Ea. eapply wp_item_size; [rewrite <- E; exact Hs|lia|]. rewrite <- Ea. wp1. wp1; [apply Z.gtb_lt; lia|]. rewrite !uint_small by lia.
  destruct (Z.gtb_spec (k - RT_MEMHEAP_SIZE + (n - RT_MEMHEAP_SIZE)) (newsize + 12)) as [Hg|]; [|wp1; exact Hno].
  destruct (free_behind _ _ _ _ _ _ _ _ H) as (xs & ys & Ef & Hperm & Hb). subst fs. fold a in Hperm, Hb. pose proof (mo_free _ _ _ _ _ H) as Hr. fold a in Hr.
  pose proof (memheap_ok_size _ _ _ _ _ H) as Hps. pose proof (mo_available _ _ _ _ _ H) as Hav.
  assert (free_bytes bs = free_bytes pre + (k - RT_MEMHEAP_SIZE) + free_bytes post) as Hfb by (unfold bs; rewrite free_bytes_app; cbn; lia).
  pose proof (free_bytes_range _ _ _ _ _ M9) as F1. pose proof (free_bytes_range _ _ _ _ _ MR) as F2.
  assert (forall x, x ∈ free_header h :: xs ++ (a + n) :: ys -> in_area h first (total bs) x) as HP by (intros x; apply (memheap_ok_in_area _ _ _ bs _ x H)).
  assert (forall x, x ∈ free_header h :: xs ++ ys -> in_area h first (total bs) x) as HP'.
  { intros x Hx. apply HP. revert Hx. clear. rewrite !elem_of_cons, !elem_of_app, elem_of_cons. tauto. }
  wp1. apply wp_take_available; [fold bs in Hav; lia|exact Hps|]. intros ps P1 P2.
  wp1. eapply (wp_remove_free _ _ _ _ _ (in_area h first (total bs))); [exact Hr|exact HP|]. intros l1 Hr1 K1.
  unfold set_item_prev at 1, set_item_next at 1. do 2 wp1. do 2 wp1. do 2 wp1. do 2 wp1. do 2 wp1. wp1. wp1.
  cbn [mi_list set_mi_free set_mh_pools set_mi_list set_next set_prev l_next l_prev]. rewrite !N1, !N2. rewrite (upd_ne _ (a + n + k) (a + n)), N2 by lia.
  match goal with |- wp _ _ ?v => set (s3 := v) end.
  assert (mseg s3 h first (first + total bs) first (pre ++ (n + k, true) :: post)) as Hs3.
  { apply (mseg_join s s3 h first pre n true k false post Hs); fold a; cbn; upd_lia; try done. intros q Q1 Q2 Q3. unfold same_item. cbn. upd_lia. done. }
  assert (total (pre ++ (n + k, true) :: post) = total bs) as Et by (rewrite total_app, M13; cbn; lia). rewrite <- Et in Hs3.
  rewrite uint_small by (unfold a; lia). replace (a + RT_MEMHEAP_SIZE + newsize) with (a + (RT_MEMHEAP_SIZE + newsize)) by lia. set (m := RT_MEMHEAP_SIZE + newsize) in *.
  assert (m mod 4 = 0) as Hm4 by (unfold m; by rewrite Zplus_mod, Hi4, Hn4).
  unfold new_item, set_item_magic, set_item_pool_ptr. wp1. wp1. wp1. wp1. wp1. apply wp_link_block; [unfold m; lia|]. cbn [mi_list set_mi_pool_ptr set_mi_magic].
  assert (l_next (mi_list s3) a = a + n + k) as E3 by (cbn; by upd_lia).
  wp1. eapply (wp_insert_free _ _ _ _ _ (in_area h first (total bs))); [cbn; rewrite P1; exact S2|exact Hr1|apply Hb; unfold m; lia|left; unfold a, m; lia|exact HP'|]. intros l2 Hr2 K2. wp1.
  apply (Hok _ k post (a + m :: xs ++ ys)); [done| |].
  - eapply (memheap_ok_taken s _ h first bs); [exact H|unfold grown; rewrite total_app, M13; cbn; lia| |exact Hr2| | |cbn; rewrite P1; reflexivity|lia|].
    + rewrite <- Et. apply (mseg_split s3 _ h first pre (n + k) true true m post Hs3); fold a; unfold RT_MEMHEAP_MINIALLOC; try (unfold m; lia); try exact Hm4;
        cbn [mi_list mi_magic mi_pool_ptr set_mi_free set_mi_list set_mi_pool_ptr set_mi_magic link_after l_next l_prev]; rewrite ?E3, ?Z.add_assoc; upd_lia; try done.
      intros q Q1 Q2 Q3. unfold same_item. cbn [mi_list mi_magic mi_pool_ptr set_mi_free set_mi_list set_mi_pool_ptr set_mi_magic link_after l_next l_prev]. rewrite E3. upd_lia. done.
    + unfold grown. fold m. rewrite free_at_app. cbn [free_at app]. fold a. replace (a + m + (n + k - m)) with (a + n + k) by lia. rewrite Hperm. apply Permutation_middle.
    + unfold grown. pose proof (mo_merged _ _ _ _ _ H) as Hmg. unfold bs in Hmg. revert Hmg. rewrite !merged_app, !merged_cons.
      intros (G1 & (G2 & G3 & G4) & G5). split_and!; try done; intros; simplify_eq/=; auto using andb_false_r.
    + unfold grown. fold m. rewrite Hfb, free_bytes_app. cbn. unfold m. lia.
  - split; cbn [mi_free mh_pools mh_bytes set_mi_free set_mi_list set_mi_pool_ptr set_mi_magic]; [|by eapply agree_trans|exact P2|done].
    intros q Hq. unfold same_item. cbn [mi_list mi_magic mi_pool_ptr set_mi_free set_mi_list set_mi_pool_ptr set_mi_magic link_after l_next l_prev]. rewrite E3.
    cbn. unfold in_area, a, m in *. upd_lia. done.
Qed.

(** The block keeps [newsize] bytes, and its end joins the block behind. *)
Definition cut (pre : list block) (n newsize : Z) (post : list block) : list block :=
  plugged (pre ++ [(RT_MEMHEAP_SIZE + newsize, true)]) (n - (RT_MEMHEAP_SIZE + newsize)) post.
Lemma cut_eq pre n newsize post : cut pre n newsize post =
  let '(j, post') := merge_right (n - (RT_MEMHEAP_SIZE + newsize)) post in pre ++ (RT_MEMHEAP_SIZE + newsize, true) :: (j, false) :: post'.
Proof. unfold cut, plugged. destruct (merge_right _ post) as [j post']. by rewrite merge_left_snoc. Qed.
(** The end of the block goes to the free list. *)
Lemma wp_put_remainder s s3 h first bs fs pre m j post fs3 (Q : unit -> memheaps -> Prop) :
  let b := first + total pre + m in let bs' := pre ++ (m, true) :: (j, false) :: post in
  memheap_ok s h first bs fs -> total bs' = total bs -> merged bs' -> free_bytes bs <= free_bytes bs' ->
  mseg s3 h first (first + total bs) first bs' -> ring (mi_free s3) (free_header h) fs3 ->
  fs3 ≡ₚ free_at first pre ++ free_at (b + j) post -> b ∉ free_header h :: fs3 -> (forall x, x ∈ free_header h :: fs3 -> in_area h first (total bs) x) ->
  mh_pools s3 h = set_mp_available_size (free_bytes pre + free_bytes post) (mh_pools s h) -> area_kept s s3 h first (total bs) ->
  (forall s' fs', memheap_ok s' h first bs' fs' -> area_kept s s' h first (total bs) -> Q tt s') ->
  wp (insert_free h b ;; size ← MEMITEM_SIZE b; add_available h size) Q s3.
Proof.
  intros b bs' H Et Hmg Hfb Hs3 Hr3 Hp3 Hb3 Ha3 Hps3 K3 HQ. pose proof (mo_range _ _ _ _ _ H) as (R1 & R2 & R3). pose proof (mo_start _ _ _ _ _ H) as [S1 S2]. pose proof item_size as [Hi _].
  pose proof (proj1 Hs3) as Hb4. apply mblocks_app in Hb4 as [Hb4 Hb5]. cbn [mblocks] in Hb5. destruct Hb5 as (_ & _ & _ & _ & J0 & _ & _ & _ & _ & _ & J1 & _ & Hb5).
  pose proof (mblocks_total _ _ _ _ _ Hb4) as [T4 _]. pose proof (mblocks_total _ _ _ _ _ Hb5) as [T5 _]. pose proof (free_bytes_range _ _ _ _ _ Hb4) as F4. pose proof (free_bytes_range _ _ _ _ _ Hb5) as F5.
  unfold RT_MEMHEAP_MINIALLOC in *. assert (total bs = total pre + m + j + total post) as Et' by (rewrite <- Et; unfold bs'; rewrite total_app; cbn; lia).
  wp1. eapply (wp_insert_free _ _ _ _ _ (in_area h first (total bs))); [rewrite Hps3; exact S2|exact Hr3|exact Hb3|left; unfold b; lia|exact Ha3|]. intros l4 Hr4 K4.
  assert (b = first + total (pre ++ [(m, true)])) as Eb by (rewrite total_app; cbn; unfold b; lia).
  wp1. rewrite Eb. eapply (wp_item_size _ h first (pre ++ [(m, true)]) j false post); [rewrite <- app_assoc; cbn [app]; fold bs'; rewrite Et; eapply mseg_frame; [exact Hs3|done]|lia|].
  apply wp_add_available; [cbn; rewrite Hps3; cbn; lia|]. intros ps P1 P2. cbn [mh_pools set_mi_free] in P1, P2. eapply HQ.
  - eapply (memheap_ok_close s _ h first bs); [exact H|exact Et|eapply mseg_frame; [exact Hs3|done]|exact Hr4| |exact Hmg| |].
    + unfold bs'. rewrite free_at_app. cbn [free_at app]. fold b. rewrite Hp3. apply Permutation_middle.
    + cbn. rewrite P1, Hps3. unfold set_mp_available_size. cbn. f_equal. unfold bs'. rewrite free_bytes_app. cbn. lia.
    + split; [exact Hfb|]. apply (free_bytes_range _ _ _ _ _ (proj1 Hs3)).
  - eapply area_kept_trans; [exact K3|]. split; [done|exact K4|exact P2|done].
Qed.
Lemma wp_memheap_shrink s h first pre n post fs newsize (Q : unit -> memheaps -> Prop) :
  let bs := pre ++ (n, true) :: post in memheap_ok s h first bs fs -> RT_MEMHEAP_MINIALLOC <= newsize -> newsize mod 4 = 0 ->
  newsize + RT_MEMHEAP_SIZE + RT_MEMHEAP_MINIALLOC < n - RT_MEMHEAP_SIZE ->
  (forall s' fs', memheap_ok s' h first (cut pre n newsize post) fs' -> area_kept s s' h first (total bs) -> Q tt s') ->
  wp (memheap_shrink h (first + total pre) newsize) Q s.
Proof.
  intros bs H Hmin Hn4 Hlt HQ. set (a := first + total pre). pose proof (mo_seg _ _ _ _ _ H) as Hs.
  pose proof (mseg_mid _ _ _ _ _ _ _ Hs) as [M1 M2 M3 M4 M5 M6 M7 M8 M9 M10 M11 M12 M13]. fold a in M1, M2, M3, M4, M6, M7, M10. pose proof item_size as [Hi Hi4]. unfold RT_MEMHEAP_MINIALLOC in *.
  pose proof (mo_range _ _ _ _ _ H) as (R1 & R2 & R3). fold bs in R3, M13. pose proof (mo_start _ _ _ _ _ H) as [S1 S2]. pose proof (mo_free _ _ _ _ _ H) as Hr.
  unfold memheap_shrink. replace (a + newsize + RT_MEMHEAP_SIZE) with (a + (RT_MEMHEAP_SIZE + newsize)) by lia. set (m := RT_MEMHEAP_SIZE + newsize). set (b := a + m).
  assert (m mod 4 = 0) as Hm4 by (unfold m; by rewrite Zplus_mod, Hi4, Hn4).
  unfold new_item, set_item_magic, set_item_pool_ptr. wp1. wp1. wp1. wp1. wp1. apply wp_link_block; [unfold b, m; lia|]. cbn [mi_list set_mi_pool_ptr set_mi_magic].
  match goal with |- wp _ _ ?v => set (s2 := v) end.
  assert (mseg s2 h first (first + total bs) first (pre ++ (m, true) :: (n - m, false) :: post)) as Hs2.
  { apply (mseg_split s s2 h first pre n true true m post Hs); fold a b; unfold RT_MEMHEAP_MINIALLOC; try (unfold m; lia); try exact Hm4; cbn; rewrite ?M1; upd_lia; try done; try (unfold b, m; lia).
    intros q Q1 Q2 Q3. unfold same_item. cbn. rewrite M1. upd_lia. done. }
  assert (area_kept s s2 h first (total bs)) as K2.
  { split; try done. intros q Hq. unfold same_item, in_area, b, m, a in *. cbn. rewrite M1. upd_lia. done. }
  destruct (plugged_counts (pre ++ [(m, true)]) (n - m) post) as [Ct Cb]. change (plugged _ _ _) with (cut pre n newsize post) in Ct, Cb. rewrite last_used_snoc, free_bytes_app in Cb. rewrite total_app in Ct. cbn [free_bytes total] in Cb, Ct.
  assert (merged (cut pre n newsize post)) as Hmg.
  { apply (plugged_merged _ true). pose proof (mo_merged _ _ _ _ _ H) as Hmg. unfold bs in Hmg. revert Hmg. rewrite <- app_assoc. cbn [app]. rewrite !merged_app, !merged_cons.
    intros (G1 & (G2 & G3) & G4). split_and!; try done; intros; simplify_eq/=; auto using andb_false_r. }
  assert (free_bytes bs = free_bytes pre + free_bytes post) as Hfb by (unfold bs; rewrite free_bytes_app; done). pose proof (mo_available _ _ _ _ _ H) as Hav. fold bs in Hav.
  pose proof (free_bytes_range _ _ _ _ _ M9) as F1. pose proof (free_bytes_range _ _ _ _ _ (proj1 M10)) as F2.
  assert (forall s3 j post' fs3, cut pre n newsize post = pre ++ (m, true) :: (j, false) :: post' ->
    mseg s3 h first (first + total bs) first (pre ++ (m, true) :: (j, false) :: post') -> ring (mi_free s3) (free_header h) fs3 ->
    fs3 ≡ₚ free_at first pre ++ free_at (b + j) post' -> b ∉ free_header h :: fs3 -> (forall x, x ∈ free_header h :: fs3 -> in_area h first (total bs) x) ->
    mh_pools s3 h = set_mp_available_size (free_bytes pre + free_bytes post') (mh_pools s h) -> area_kept s s3 h first (total bs) ->
    wp (insert_free h b ;; size ← MEMITEM_SIZE b; add_available h size) Q s3) as Hend.
  { intros s3 j post' fs3 Ec. rewrite Ec in Ct, Cb, Hmg, HQ. intros. eapply (wp_put_remainder s s3 h first bs fs pre m j post' fs3); try done; [lia|rewrite Cb; destruct (first_used post); lia]. }
  assert (total (pre ++ (m, true) :: (n - m, false) :: post) = total bs) as Et2 by (rewrite total_app, M13; cbn; lia).
  assert (pre ++ (m, true) :: (n - m, false) :: post = (pre ++ [(m, true)]) ++ (n - m, false) :: post) as E2 by (by rewrite <- app_assoc).
  assert (b = first + total (pre ++ [(m, true)])) as Eb by (rewrite total_app; cbn; unfold b, a; lia).
  rewrite <- Et2, E2 in Hs2. pose proof (mseg_mid _ _ _ _ _ _ _ Hs2) as [B1 _ _ _ _ _ B7 _ _ _ _ _ _]. rewrite <- Eb in B1, B7. replace (b + (n - m)) with (a + n) in B1, B7 by (unfold b; lia).
  unfold item_next. do 2 wp1. rewrite B1. wp1. eapply wp_used; [exact B7|]. destruct (first_used post) eqn:Eu; cbn [negb].
  - pose proof (mo_perm _ _ _ _ _ H) as Hp. unfold bs in Hp. rewrite free_at_app in Hp. cbn [free_at app] in Hp. fold a in Hp.
    wp1. apply (Hend s2 (n - m) post fs).
    + rewrite cut_eq. fold m. by destruct post as [|[k []] post].
    + by rewrite <- Et2, E2.
    + exact Hr.
    + replace (b + (n - m)) with (a + n) by (unfold b; lia). exact Hp.
    + intros [E|Hx]%elem_of_cons; [apply (mo_header _ _ _ _ _ H); fold bs; unfold b, a, m in *; lia|]. rewrite Hp in Hx.
      apply elem_of_app in Hx as [Hx|Hx]; [apply (free_at_range _ _ _ _ _ _ M9) in Hx|apply (free_at_range _ _ _ _ _ _ (proj1 M10)) in Hx]; unfold b, a, m in *; lia.
    + intros x Hx. by eapply memheap_ok_in_area.
    + change (mh_pools s2) with (mh_pools s). rewrite <- Hfb, <- Hav. by destruct (mh_pools s h).
    + exact K2.
  - destruct post as [|[k []] post]; [done..|]. cbn [first_used] in *. destruct (free_behind _ _ _ _ _ _ _ _ H) as (xs & ys & -> & Hperm & Hb). fold a in Hperm, Hb, Hr.
    cbn [free_bytes] in Hfb, F2. pose proof M10 as MR. apply mseg_cons in MR as [(N1 & N2 & N3 & N4 & N5 & N6 & _) [MR _]]. cbn [total] in M13. pose proof (mblocks_total _ _ _ _ _ MR) as [Hpost _].
    unfold RT_MEMHEAP_MINIALLOC in *. pose proof (free_bytes_range _ _ _ _ _ MR) as F3.
    assert (a + n = first + total ((pre ++ [(m, true)]) ++ [(n - m, false)])) as Ea by (rewrite total_app; cbn [total]; unfold b in *; lia).
    do 3 wp1. rewrite B1. wp1. rewrite Ea. eapply wp_item_size; [rewrite <- app_assoc; exact Hs2|lia|]. wp1. apply wp_mod_pool. intros ps P1 P2. change (mh_pools s2) with (mh_pools s) in P1, P2.
    assert (forall x, x ∈ free_header h :: xs ++ (a + n) :: ys -> in_area h first (total bs) x) as HP by (intros x Hx; by eapply memheap_ok_in_area).
    rewrite Eb. eapply (wp_absorb_next _ h first (pre ++ [(m, true)]) (n - m) false k false post xs ys); [eapply (mseg_frame s2); [exact Hs2|done]| | |].
    + rewrite <- Eb. replace (b + (n - m)) with (a + n) by (unfold b; lia). exact Hr.
    + rewrite <- Eb, <- E2, Et2. replace (b + (n - m)) with (a + n) by (unfold b; lia). exact HP.
    + rewrite <- E2, Et2, <- Eb. intros s3 Hs3 Hr3 Hps3 K3. apply (Hend s3 (n - m + k) post (xs ++ ys)).
      * rewrite cut_eq. done.
      * rewrite <- app_assoc in Hs3. exact Hs3.
      * exact Hr3.
      * replace (b + (n - m + k)) with (a + n + k) by (unfold b; lia). exact Hperm.
      * apply Hb. unfold b, a, m. lia.
      * intros x Hx. apply HP. revert Hx. clear. rewrite !elem_of_cons, !elem_of_app, elem_of_cons. tauto.
      * rewrite Hps3. cbn. rewrite P1. f_equal. rewrite Hav, Hfb, uint_small by lia. lia.
      * eapply area_kept_trans; [exact K2|]. eapply area_kept_trans; [|exact K3]. by split.
Qed.
End sections.

Section realloc_calls.
Context {cfg : Config} {al : AlignOK cfg} {kh : KHeap} {sz : ObjectSizes} {st : StaticThreads} {lay : MemHeapLayout}.

(** *** Used blocks by their offsets *)
Lemma used_mcarve pre n post size : RT_MEMHEAP_SIZE + size <= n -> exists m, RT_MEMHEAP_SIZE + size <= m <= n /\
  forall p k, block_at 0 (pre ++ mcarve size n ++ post) p k true <-> block_at 0 (pre ++ (n, false) :: post) p k true \/ (p = total pre /\ k = m).
Proof.
  intros Hf. unfold mcarve. destruct (splits size n) eqn:E; unfold splits, RT_MEMHEAP_MINIALLOC in E; [exists (RT_MEMHEAP_SIZE + size)|exists n];
    pose proof item_size; (split; [lia|]); intros p k; rewrite !block_at_app; cbn [app block_at fst]; rewrite ?Z.add_0_l.
  - replace (total pre + total _) with (total pre + n) by (cbn; lia). naive_solver.
  - replace (total pre + total _) with (total pre + n) by (cbn; lia). naive_solver.
Qed.
Lemma grown_used pre n k newsize post p j : block_at 0 (pre ++ (n, true) :: (k, false) :: post) p j true -> p <> total pre ->
  block_at 0 (grown pre n k newsize post) p j true.
Proof.
  unfold grown. rewrite !block_at_app. cbn [block_at fst]. rewrite Z.add_0_l.
  replace (total pre + (RT_MEMHEAP_SIZE + newsize) + (n + k - (RT_MEMHEAP_SIZE + newsize))) with (total pre + n + k) by lia. naive_solver.
Qed.
Lemma cut_used pre n newsize post p j : block_at 0 (pre ++ (n, true) :: post) p j true -> p <> total pre -> block_at 0 (cut pre n newsize post) p j true.
Proof.
  unfold cut. rewrite used_plugged, !block_at_app, total_app. cbn [block_at fst total]. rewrite Z.add_0_l.
  replace (total pre + (RT_MEMHEAP_SIZE + newsize + 0) + (n - (RT_MEMHEAP_SIZE + newsize))) with (total pre + n) by lia. naive_solver.
Qed.
Lemma mblocks_low s h d p n u bs : forall prev pos, mblocks s h prev (d + pos) bs -> block_at pos bs p n u -> pos <= p /\ p + n <= pos + total bs.
Proof.
  pose proof item_size as [Hi _]. induction bs as [|[k w] bs IH]; intros prev pos; cbn [mblocks block_at total]; [done|].
  intros (_ & _ & _ & _ & Hk & _ & Hs) Hb. rewrite <- Z.add_assoc in Hs. pose proof (mblocks_total _ _ _ _ _ Hs) as [Ht _]. unfold RT_MEMHEAP_MINIALLOC in *.
  destruct Hb as [[-> [= <- <-]]|Hb]; [lia|]. specialize (IH _ _ Hs Hb). cbn in *. lia.
Qed.
(** Two blocks are the same or apart. *)
Lemma mblocks_apart s h d p n u q m v bs : forall prev pos, mblocks s h prev (d + pos) bs -> block_at pos bs p n u -> block_at pos bs q m v ->
  (p = q /\ n = m /\ u = v) \/ p + n <= q \/ q + m <= p.
Proof.
  induction bs as [|[k w] bs IH]; intros prev pos; cbn [mblocks block_at]; [done|].
  intros (_ & _ & _ & _ & Hk & _ & Hs) Ha Hb. rewrite <- Z.add_assoc in Hs. pose proof item_size as [Hi _]. cbn [fst] in *.
  destruct Ha as [[<- [= <- <-]]|Ha], Hb as [[<- [= <- <-]]|Hb].
  - by left.
  - right. left. by destruct (mblocks_low _ _ _ _ _ _ _ _ _ Hs Hb).
  - right. right. by destruct (mblocks_low _ _ _ _ _ _ _ _ _ Hs Ha).
  - by eapply IH.
Qed.
Lemma blocks_apart s h first bs fs p n u q m v : memheap_ok s h first bs fs -> block_at 0 bs p n u -> block_at 0 bs q m v ->
  (p = q /\ n = m /\ u = v) \/ p + n <= q \/ q + m <= p.
Proof. intros H. apply (mblocks_apart s h first _ _ _ _ _ _ bs (first + total bs)). rewrite Z.add_0_r. apply (mo_seg _ _ _ _ _ H). Qed.

(** What rt_memheap_realloc promises of the result [r], for the block [n] at [pre]. *)
Definition realloc_kept (s s' : mhstate) (h first : Z) (bs pre : list block) (n newsize : Z) (r : option Z) : Prop :=
  let a := first + total pre + RT_MEMHEAP_SIZE in
  exists bs' fs', memheap_ok (ms_mem s') h first bs' fs' /\
  match r with
  | None => bs' = bs /\ mh_bytes (ms_mem s') = mh_bytes (ms_mem s)
  | Some b => exists pre' n' post', bs' = pre' ++ (n', true) :: post' /\ b = first + total pre' + RT_MEMHEAP_SIZE /\ RT_MEMHEAP_SIZE + newsize <= n' /\
      (forall i, 0 <= i < n - RT_MEMHEAP_SIZE -> i < newsize -> mh_bytes (ms_mem s') (b + i) = mh_bytes (ms_mem s) (a + i)) /\
      (forall x, ~ b <= x < b + newsize -> mh_bytes (ms_mem s') x = mh_bytes (ms_mem s) x) /\
      (forall p j, block_at 0 bs p j true -> p <> total pre -> block_at 0 bs' p j true)
  end.
(** Every heap elsewhere is as it was. *)
Definition others_kept (s s' : mhstate) (h first len : Z) : Prop := forall h' first' bs fs, memheap_ok (ms_mem s) h' first' bs fs -> h' <> h ->
  (forall a, in_area h' first' (total bs) a -> ~ in_area h first len a) -> memheap_ok (ms_mem s') h' first' bs fs.
Lemma others_kept_area s s' h first len : area_kept (ms_mem s) (ms_mem s') h first len -> others_kept s s' h first len.
Proof. intros K h' first' bs fs H Hne Hd. by eapply area_kept_other. Qed.
Lemma others_kept_trans s s1 s2 h first len : others_kept s s1 h first len -> others_kept s1 s2 h first len -> others_kept s s2 h first len.
Proof. intros K1 K2 h' first' bs fs H Hne Hd. apply (K2 h' first' bs fs); [|done|done]. by apply K1. Qed.
Lemma memheap_ok_bytes s h first bs fs m : memheap_ok s h first bs fs -> memheap_ok (set_mh_bytes m s) h first bs fs.
Proof. intros []. split; try done. by eapply mseg_frame. Qed.

Lemma wpr_memheap_move s h first pre n post fs newsize (Q : option Z -> mhstate -> Prop) :
  let bs := pre ++ (n, true) :: post in
  h <> 0 -> lock_free (ms_kernel s) (heap_lock h) -> memheap_ok (ms_mem s) h first bs fs -> 0 < newsize -> newsize + RT_ALIGN_SIZE <= 2 ^ 32 ->
  (forall r s', call_kept s s' h -> others_kept s s' h first (total bs) -> realloc_kept s s' h first bs pre n newsize r -> Q r s') ->
  wpr (memheap_move h (first + total pre + RT_MEMHEAP_SIZE) newsize (n - RT_MEMHEAP_SIZE)) Q s.
Proof.
  intros bs Hh Hl H H0 Hmax HQ. set (a := first + total pre + RT_MEMHEAP_SIZE). pose proof (memheap_size_ge newsize ltac:(lia) Hmax) as Hge. pose proof item_size as [Hi _].
  assert (block_at 0 bs (total pre) n true) as Hat by (apply block_at_split; by exists pre, post).
  pose proof (mseg_mid _ _ _ _ _ _ _ (mo_seg _ _ _ _ _ H)) as [_ _ _ _ [Hn _] _ _ _ _ _ _ _ _]. unfold RT_MEMHEAP_MINIALLOC in Hn.
  unfold memheap_move. wpr1. eapply wpr_memheap_alloc; [done..|]. intros r s1 bs1 fs1 [K1 Hok1 Ha1] Hr.
  assert (r = None /\ bs1 = bs /\ fs1 = fs \/ exists pre1 n1 post1, bs = pre1 ++ (n1, false) :: post1 /\ r = Some (first + total pre1 + RT_MEMHEAP_SIZE) /\
     RT_MEMHEAP_SIZE + memheap_size newsize <= n1 /\ bs1 = pre1 ++ mcarve (memheap_size newsize) n1 ++ post1) as [(-> & -> & ->)|(pre1 & n1 & post1 & E1 & -> & Hf & ->)].
  { unfold alloc_result in Hr. destruct (_ <? _); [|by left]. inversion Hr; [by left|right]. subst. eauto 8. }
  - wpr1. apply HQ; [exact K1|by apply others_kept_area|]. exists bs, fs. split; [exact Hok1|]. split; [done|apply Ha1].
  - destruct (used_mcarve pre1 n1 post1 _ Hf) as (m & Hm & Hused). rewrite <- E1 in Hused. set (b := first + total pre1 + RT_MEMHEAP_SIZE) in *.
    set (bs1 := pre1 ++ mcarve _ n1 ++ post1) in *. assert (block_at 0 bs1 (total pre) n true) as Hold by (apply Hused; by left).
    assert (block_at 0 bs1 (total pre1) m true) as Hnew by (apply Hused; by right).
    assert (total pre <> total pre1) as Hne.
    { intros E. assert (block_at 0 bs (total pre1) n1 false) as Hfr by (rewrite E1; apply block_at_split; by exists pre1, post1).
      destruct (blocks_apart _ _ _ _ _ _ _ _ _ _ _ H Hat Hfr) as [(_ & _ & [=])|Hor]. lia. }
    destruct (blocks_apart _ _ _ _ _ _ _ _ _ _ _ Hok1 Hold Hnew) as [(? & _)|Hap]; [done|].
    wpr1. wpr1. apply wp_on_mem. wp1. set (cp := rt_memcpy b a _ _). set (s2 := set_ms_mem _ s1).
    pose proof Hold as Hold'. apply block_at_split in Hold' as (pre2 & post2 & E2 & Ep2). rewrite E2 in Hok1.
    wpr1. unfold a. rewrite Ep2. eapply (wpr_memheap_free s2 h first pre2 n post2); [exact (call_kept_free s s1 h Hl K1)|apply memheap_ok_bytes, Hok1|]. intros s3 [K3 Hok3 Ha3]. wpr1. apply HQ.
    + apply (call_kept_trans s s1); [exact K1|]. destruct K3 as [L3 L4]. split; [exact L3|exact L4].
    + rewrite <- E2 in Ha3. assert (total bs1 = total bs) as Et by (unfold bs1; rewrite E1, !total_app, mcarve_total; cbn; lia). rewrite Et in Ha3.
      apply (others_kept_trans s s1); [by apply others_kept_area|]. apply (others_kept_trans s1 s2); [|by apply others_kept_area].
      intros h' first' bs' fs' Hx _ _. by apply memheap_ok_bytes.
    + assert (forall p j, p <> total pre -> block_at 0 bs1 p j true -> block_at 0 (plugged pre2 n post2) p j true) as Hother.
      { intros p j Hp. rewrite used_plugged, E2, block_at_app. cbn [block_at fst]. rewrite Z.add_0_l. naive_solver. }
      pose proof (Hother _ _ (not_eq_sym Hne) Hnew) as Hnew3. apply block_at_split in Hnew3 as (pre3 & post3 & E3 & Ep3).
      eexists _, _. split; [exact Hok3|]. exists pre3, m, post3. rewrite (ak_bytes _ _ _ _ _ Ha3). change (mh_bytes (ms_mem s2)) with cp.
      assert (forall x, cp x = if decide (b <= x < b + (if n - RT_MEMHEAP_SIZE <? newsize then n - RT_MEMHEAP_SIZE else newsize)) then mh_bytes (ms_mem s) (a + (x - b)) else mh_bytes (ms_mem s) x) as Hcp.
      { intros x. unfold cp. rewrite rt_memcpy_moved by (destruct (Z.ltb_spec (n - RT_MEMHEAP_SIZE) newsize); unfold a, b; lia). unfold MemOps.moved. by rewrite (ak_bytes _ _ _ _ _ Ha1). }
      split_and!; [exact E3|by rewrite <- Ep3|lia| | |].
      * intros i Hi1 Hi2. rewrite Hcp, decide_True by (destruct (Z.ltb_spec (n - RT_MEMHEAP_SIZE) newsize); lia). f_equal. lia.
      * intros x Hx. rewrite Hcp, decide_False by (destruct (Z.ltb_spec (n - RT_MEMHEAP_SIZE) newsize); lia). done.
      * intros p j Hp Hpne. apply Hother; [done|]. apply Hused. by left.
Qed.

(** C9 rt_memheap_realloc of a used block gives NULL with the blocks and bytes as they were, or
    a used block of at least the new size that starts with the bytes of the old one, up to the
    smaller size, whether it grew in place, gave its end back or moved; no other byte, no other
    used block and no other heap changes. *)
Theorem rt_memheap_realloc_keeps s h first pre n post fs newsize :
  let bs := pre ++ (n, true) :: post in
  h <> 0 -> lock_free (ms_kernel s) (heap_lock h) -> memheap_ok (ms_mem s) h first bs fs -> 0 < newsize -> newsize + 2 * RT_ALIGN_SIZE + RT_MEMHEAP_MINIALLOC <= 2 ^ 32 ->
  exists r s', rt_memheap_realloc h (first + total pre + RT_MEMHEAP_SIZE) newsize s = Some (Done r, s') /\
    call_kept s s' h /\ others_kept s s' h first (total bs) /\ realloc_kept s s' h first bs pre n (memheap_size newsize) r.
Proof.
  intros bs Hh Hl H H0 Hmax. destruct (memheap_size_ok newsize) as [Hs1 Hs2]. pose proof align_range as HA. pose proof item_size as [Hi _].
  destruct (RT_ALIGN_spec newsize ltac:(lia)) as [Al _]; [unfold RT_MEMHEAP_MINIALLOC in *; lia|].
  assert (memheap_size newsize + RT_ALIGN_SIZE + RT_MEMHEAP_MINIALLOC <= 2 ^ 32) as Hsz.
  { unfold memheap_size, RT_MEMHEAP_MINIALLOC in *. destruct (Z.ltb_spec (RT_ALIGN newsize RT_ALIGN_SIZE) 12); lia. }
  set (a := first + total pre + RT_MEMHEAP_SIZE). set (ns := memheap_size newsize) in *. pose proof (mo_seg _ _ _ _ _ H) as Hsg. pose proof (mo_range _ _ _ _ _ H) as (R1 & R2 & R3).
  pose proof (mseg_mid _ _ _ _ _ _ _ Hsg) as [_ _ _ _ [Hn Hn4] _ _ _ _ _ M11 M12 M13]. fold bs in M13, R3. unfold RT_MEMHEAP_MINIALLOC in *.
  assert (wpr (rt_memheap_realloc h a newsize) (fun r s' => call_kept s s' h /\ others_kept s s' h first (total bs) /\ realloc_kept s s' h first bs pre n ns r) s) as Hw.
  { unfold rt_memheap_realloc. destruct (Z.eqb_spec newsize 0); [lia|]. fold ns. destruct (Z.eqb_spec a 0); [unfold a in *; lia|].
    replace (a - RT_MEMHEAP_SIZE) with (first + total pre) by (unfold a; lia).
    wpr1. wpr1. apply wp_on_mem. eapply wp_item_size; [exact Hsg|lia|]. assert (set_ms_mem (ms_mem s) s = s) as -> by (by destruct s).
    assert (forall s' mid fs', call_kept s s' h -> area_kept (ms_mem s) (ms_mem s') h first (total bs) -> memheap_ok (ms_mem s') h first mid fs' ->
      (exists m post', mid = pre ++ (m, true) :: post' /\ RT_MEMHEAP_SIZE + ns <= m) -> (forall p j, block_at 0 bs p j true -> p <> total pre -> block_at 0 mid p j true) ->
      call_kept s s' h /\ others_kept s s' h first (total bs) /\ realloc_kept s s' h first bs pre n ns (Some a)) as Hin.
    { intros s' mid fs' K Ka Hok (m & post' & E & Hm) Hu. split; [exact K|]. split; [by apply others_kept_area|]. exists mid, fs'. split; [exact Hok|].
      exists pre, m, post'. rewrite (ak_bytes _ _ _ _ _ Ka). by split_and!. }
    destruct (Z.gtb_spec ns (n - RT_MEMHEAP_SIZE)) as [Hgt|Hle]; [|destruct (Z.geb_spec (uint32 (ns + RT_MEMHEAP_SIZE + RT_MEMHEAP_MINIALLOC)) (n - RT_MEMHEAP_SIZE)) as [Hge|Hlt]].
    - wpr1. apply wpr_take_lock; [done|]. intros k Hk. cbn [negb Z.eqb RT_EOK]. wpr1. wpr1. apply wp_on_mem. cbn [ms_mem set_ms_kernel]. eapply wp_memheap_grow; [exact H|lia|exact Hs2|unfold RT_MEMHEAP_MINIALLOC; lia| |].
      + wpr1. eapply wpr_release_lock; [exact Hl|exact Hk|]. intros k' Hk'. cbn beta iota.
        match goal with |- wpr _ _ ?v => set (s1 := v) end. assert (call_kept s s1 h) as K1 by by split.
        eapply (wpr_memheap_move s1 h first pre n post fs ns); [done|by apply (call_kept_free s)|exact H|lia|lia|]. intros r s' K2 Ko Hr. split; [by eapply call_kept_trans|]. by split.
      + intros m k0 post' fs' -> Hok Ha. cbn beta. wpr1. eapply wpr_release_lock; [exact Hl|exact Hk|]. intros k' Hk'. cbn beta iota. wpr1.
        eapply (Hin _ (grown pre n k0 ns post')); [by split|exact Ha|exact Hok|by eexists _, _|]. intros p j. apply grown_used.
    - wpr1. eapply (Hin s bs fs); [by apply call_kept_refl|done|exact H|exists n, post; split; [done|lia]|done].
    - apply wpr_with_lock; [done|]. rewrite uint_small in Hlt by (unfold RT_MEMHEAP_MINIALLOC; lia). wp1. eapply wp_memheap_shrink; [exact H|unfold RT_MEMHEAP_MINIALLOC; lia|exact Hs2|unfold RT_MEMHEAP_MINIALLOC in *; lia|].
      intros m fs' Hok Ha. wp1. intros s' K Em. eapply (Hin s' (cut pre n ns post) fs'); rewrite ?Em; [exact K|exact Ha|exact Hok| |intros p j; apply cut_used].
      rewrite cut_eq. destruct (merge_right _ post) as [j post']. by eexists _, _. }
  apply wpr_run in Hw as (r & s' & E & Hr). by exists r, s'.
Qed.
End realloc_calls.
