(* ===== verification/Slab.v ===== *)
(** The slab allocator (src/slab.c): pages in a list of free runs, and zones of pages cut into
    chunks of one size, protected by one semaphore.  The headers of free runs, of zones and
    of free chunks, the table of page uses and the bytes are kept apart.  A pointer is its
    address, 0 for RT_NULL.  RT_MEM_STATS is on, as slab.c defines it. *)
From S2P Require Import Prelude RtList Kservice MemOps Kernel Scheduler Object TimerCore Invariant Thread Timer Ipc Semaphore Resume.

(** struct slab_zone; z_next, the link of the lists of zones, is kept apart. *)
Record slab_zone : Type := mk_zone {
  z_magic : Z;
  z_nfree : Z;
  z_nmax : Z;
  z_baseptr : Z;
  z_uindex : Z;
  z_chunksize : Z;
  z_zoneindex : Z;
  z_freechunk : Z
}.
Definition set_z_magic (v : Z) (s : slab_zone) : slab_zone :=
  mk_zone v (z_nfree s) (z_nmax s) (z_baseptr s) (z_uindex s) (z_chunksize s) (z_zoneindex s) (z_freechunk s).
Definition set_z_nfree (v : Z) (s : slab_zone) : slab_zone :=
  mk_zone (z_magic s) v (z_nmax s) (z_baseptr s) (z_uindex s) (z_chunksize s) (z_zoneindex s) (z_freechunk s).
Definition set_z_uindex (v : Z) (s : slab_zone) : slab_zone :=
  mk_zone (z_magic s) (z_nfree s) (z_nmax s) (z_baseptr s) v (z_chunksize s) (z_zoneindex s) (z_freechunk s).
Definition set_z_freechunk (v : Z) (s : slab_zone) : slab_zone :=
  mk_zone (z_magic s) (z_nfree s) (z_nmax s) (z_baseptr s) (z_uindex s) (z_chunksize s) (z_zoneindex s) v.

(** struct rt_page_head and struct memusage (by its index) field by field, the zones, the
    chunks, and the static variables. *)
Record slabs : Type := mk_slabs {
  pg_next : Z -> Z;
  pg_page : Z -> Z;
  rt_page_list : Z;
  sl_zones : Z -> slab_zone;
  z_next : Z -> Z;
  c_next : Z -> Z;
  zone_array : Z -> Z;
  zone_free : Z;
  zone_free_cnt : Z;
  zone_size : Z;
  zone_limit : Z;
  zone_page_cnt : Z;
  mu_type : Z -> Z;
  mu_size : Z -> Z;
  memusage : Z;
  heap_start : Z;
  heap_end : Z;
  used_mem : Z;
  max_mem : Z;
  sl_bytes : memory
}.
Definition set_pg_next (v : Z -> Z) (s : slabs) : slabs :=
  mk_slabs v (pg_page s) (rt_page_list s) (sl_zones s) (z_next s) (c_next s) (zone_array s) (zone_free s) (zone_free_cnt s) (zone_size s) (zone_limit s) (zone_page_cnt s) (mu_type s) (mu_size s) (memusage s) (heap_start s) (heap_end s) (used_mem s) (max_mem s) (sl_bytes s).
Definition set_pg_page (v : Z -> Z) (s : slabs) : slabs :=
  mk_slabs (pg_next s) v (rt_page_list s) (sl_zones s) (z_next s) (c_next s) (zone_array s) (zone_free s) (zone_free_cnt s) (zone_size s) (zone_limit s) (zone_page_cnt s) (mu_type s) (mu_size s) (memusage s) (heap_start s) (heap_end s) (used_mem s) (max_mem s) (sl_bytes s).
Definition set_rt_page_list (v : Z) (s : slabs) : slabs :=
  mk_slabs (pg_next s) (pg_page s) v (sl_zones s) (z_next s) (c_next s) (zone_array s) (zone_free s) (zone_free_cnt s) (zone_size s) (zone_limit s) (zone_page_cnt s) (mu_type s) (mu_size s) (memusage s) (heap_start s) (heap_end s) (used_mem s) (max_mem s) (sl_bytes s).
Definition set_sl_zones (v : Z -> slab_zone) (s : slabs) : slabs :=
  mk_slabs (pg_next s) (pg_page s) (rt_page_list s) v (z_next s) (c_next s) (zone_array s) (zone_free s) (zone_free_cnt s) (zone_size s) (zone_limit s) (zone_page_cnt s) (mu_type s) (mu_size s) (memusage s) (heap_start s) (heap_end s) (used_mem s) (max_mem s) (sl_bytes s).
Definition set_z_next (v : Z -> Z) (s : slabs) : slabs :=
  mk_slabs (pg_next s) (pg_page s) (rt_page_list s) (sl_zones s) v (c_next s) (zone_array s) (zone_free s) (zone_free_cnt s) (zone_size s) (zone_limit s) (zone_page_cnt s) (mu_type s) (mu_size s) (memusage s) (heap_start s) (heap_end s) (used_mem s) (max_mem s) (sl_bytes s).
Definition set_c_next (v : Z -> Z) (s : slabs) : slabs :=
  mk_slabs (pg_next s) (pg_page s) (rt_page_list s) (sl_zones s) (z_next s) v (zone_array s) (zone_free s) (zone_free_cnt s) (zone_size s) (zone_limit s) (zone_page_cnt s) (mu_type s) (mu_size s) (memusage s) (heap_start s) (heap_end s) (used_mem s) (max_mem s) (sl_bytes s).
Definition set_zone_array (v : Z -> Z) (s : slabs) : slabs :=
  mk_slabs (pg_next s) (pg_page s) (rt_page_list s) (sl_zones s) (z_next s) (c_next s) v (zone_free s) (zone_free_cnt s) (zone_size s) (zone_limit s) (zone_page_cnt s) (mu_type s) (mu_size s) (memusage s) (heap_start s) (heap_end s) (used_mem s) (max_mem s) (sl_bytes s).
Definition set_zone_free (v : Z) (s : slabs) : slabs :=
  mk_slabs (pg_next s) (pg_page s) (rt_page_list s) (sl_zones s) (z_next s) (c_next s) (zone_array s) v (zone_free_cnt s) (zone_size s) (zone_limit s) (zone_page_cnt s) (mu_type s) (mu_size s) (memusage s) (heap_start s) (heap_end s) (used_mem s) (max_mem s) (sl_bytes s).
Definition set_zone_free_cnt (v : Z) (s : slabs) : slabs :=
  mk_slabs (pg_next s) (pg_page s) (rt_page_list s) (sl_zones s) (z_next s) (c_next s) (zone_array s) (zone_free s) v (zone_size s) (zone_limit s) (zone_page_cnt s) (mu_type s) (mu_size s) (memusage s) (heap_start s) (heap_end s) (used_mem s) (max_mem s) (sl_bytes s).
Definition set_zone_size (v : Z) (s : slabs) : slabs :=
  mk_slabs (pg_next s) (pg_page s) (rt_page_list s) (sl_zones s) (z_next s) (c_next s) (zone_array s) (zone_free s) (zone_free_cnt s) v (zone_limit s) (zone_page_cnt s) (mu_type s) (mu_size s) (memusage s) (heap_start s) (heap_end s) (used_mem s) (max_mem s) (sl_bytes s).
Definition set_zone_limit (v : Z) (s : slabs) : slabs :=
  mk_slabs (pg_next s) (pg_page s) (rt_page_list s) (sl_zones s) (z_next s) (c_next s) (zone_array s) (zone_free s) (zone_free_cnt s) (zone_size s) v (zone_page_cnt s) (mu_type s) (mu_size s) (memusage s) (heap_start s) (heap_end s) (used_mem s) (max_mem s) (sl_bytes s).
Definition set_zone_page_cnt (v : Z) (s : slabs) : slabs :=
  mk_slabs (pg_next s) (pg_page s) (rt_page_list s) (sl_zones s) (z_next s) (c_next s) (zone_array s) (zone_free s) (zone_free_cnt s) (zone_size s) (zone_limit s) v (mu_type s) (mu_size s) (memusage s) (heap_start s) (heap_end s) (used_mem s) (max_mem s) (sl_bytes s).
Definition set_mu_type (v : Z -> Z) (s : slabs) : slabs :=
  mk_slabs (pg_next s) (pg_page s) (rt_page_list s) (sl_zones s) (z_next s) (c_next s) (zone_array s) (zone_free s) (zone_free_cnt s) (zone_size s) (zone_limit s) (zone_page_cnt s) v (mu_size s) (memusage s) (heap_start s) (heap_end s) (used_mem s) (max_mem s) (sl_bytes s).
Definition set_mu_size (v : Z -> Z) (s : slabs) : slabs :=
  mk_slabs (pg_next s) (pg_page s) (rt_page_list s) (sl_zones s) (z_next s) (c_next s) (zone_array s) (zone_free s) (zone_free_cnt s) (zone_size s) (zone_limit s) (zone_page_cnt s) (mu_type s) v (memusage s) (heap_start s) (heap_end s) (used_mem s) (max_mem s) (sl_bytes s).
Definition set_memusage (v : Z) (s : slabs) : slabs :=
  mk_slabs (pg_next s) (pg_page s) (rt_page_list s) (sl_zones s) (z_next s) (c_next s) (zone_array s) (zone_free s) (zone_free_cnt s) (zone_size s) (zone_limit s) (zone_page_cnt s) (mu_type s) (mu_size s) v (heap_start s) (heap_end s) (used_mem s) (max_mem s) (sl_bytes s).
Definition set_heap_start (v : Z) (s : slabs) : slabs :=
  mk_slabs (pg_next s) (pg_page s) (rt_page_list s) (sl_zones s) (z_next s) (c_next s) (zone_array s) (zone_free s) (zone_free_cnt s) (zone_size s) (zone_limit s) (zone_page_cnt s) (mu_type s) (mu_size s) (memusage s) v (heap_end s) (used_mem s) (max_mem s) (sl_bytes s).
Definition set_heap_end (v : Z) (s : slabs) : slabs :=
  mk_slabs (pg_next s) (pg_page s) (rt_page_list s) (sl_zones s) (z_next s) (c_next s) (zone_array s) (zone_free s) (zone_free_cnt s) (zone_size s) (zone_limit s) (zone_page_cnt s) (mu_type s) (mu_size s) (memusage s) (heap_start s) v (used_mem s) (max_mem s) (sl_bytes s).
Definition set_used_mem (v : Z) (s : slabs) : slabs :=
  mk_slabs (pg_next s) (pg_page s) (rt_page_list s) (sl_zones s) (z_next s) (c_next s) (zone_array s) (zone_free s) (zone_free_cnt s) (zone_size s) (zone_limit s) (zone_page_cnt s) (mu_type s) (mu_size s) (memusage s) (heap_start s) (heap_end s) v (max_mem s) (sl_bytes s).
Definition set_max_mem (v : Z) (s : slabs) : slabs :=
  mk_slabs (pg_next s) (pg_page s) (rt_page_list s) (sl_zones s) (z_next s) (c_next s) (zone_array s) (zone_free s) (zone_free_cnt s) (zone_size s) (zone_limit s) (zone_page_cnt s) (mu_type s) (mu_size s) (memusage s) (heap_start s) (heap_end s) (used_mem s) v (sl_bytes s).
Definition set_sl_bytes (v : memory) (s : slabs) : slabs :=
  mk_slabs (pg_next s) (pg_page s) (rt_page_list s) (sl_zones s) (z_next s) (c_next s) (zone_array s) (zone_free s) (zone_free_cnt s) (zone_size s) (zone_limit s) (zone_page_cnt s) (mu_type s) (mu_size s) (memusage s) (heap_start s) (heap_end s) (used_mem s) (max_mem s) v.

Section slab_sections.
Context {cfg : Config}.

Definition RT_MM_PAGE_SIZE : Z := 4096.
Definition RT_MM_PAGE_MASK : Z := RT_MM_PAGE_SIZE - 1.
Definition RT_MM_PAGE_BITS : Z := 12.
Definition ZALLOC_SLAB_MAGIC : Z := 0x51ab51ab.
Definition ZALLOC_ZONE_LIMIT : Z := 16 * 1024.
Definition ZALLOC_MIN_ZONE_SIZE : Z := 32 * 1024.
Definition ZALLOC_MAX_ZONE_SIZE : Z := 128 * 1024.
Definition NZONES : Z := 72.
Definition ZONE_RELEASE_THRESH : Z := 2.
Definition MIN_CHUNK_SIZE : Z := 8.
Definition MIN_CHUNK_MASK : Z := MIN_CHUNK_SIZE - 1.
Definition PAGE_TYPE_FREE : Z := 0.
Definition PAGE_TYPE_SMALL : Z := 1.
Definition PAGE_TYPE_LARGE : Z := 2.
(** sizeof(slab_zone): nine words. *)
Definition SIZEOF_SLAB_ZONE : Z := 36.
(** sizeof(struct memusage): the two bit fields share a word. *)
Definition SIZEOF_MEMUSAGE : Z := 4.

(** *** Fields *)
Definition page_next (b : Z) : M slabs Z := gets (fun s => pg_next s b).
Definition page_count (b : Z) : M slabs Z := gets (fun s => pg_page s b).
Definition set_page_next (b v : Z) : M slabs unit := modify (fun s => set_pg_next (<[b := v]> (pg_next s)) s).
Definition set_page_count (b v : Z) : M slabs unit := modify (fun s => set_pg_page (<[b := v]> (pg_page s)) s).
Definition zone (z : Z) : M slabs slab_zone := gets (fun s => sl_zones s z).
Definition mod_zone (z : Z) (f : slab_zone -> slab_zone) : M slabs unit :=
  modify (fun s => set_sl_zones (<[z := f (sl_zones s z)]> (sl_zones s)) s).
Definition zone_next (z : Z) : M slabs Z := gets (fun s => z_next s z).
Definition set_zone_next (z v : Z) : M slabs unit := modify (fun s => set_z_next (<[z := v]> (z_next s)) s).
Definition zone_head (zi : Z) : M slabs Z := gets (fun s => zone_array s zi).
Definition set_zone_head (zi v : Z) : M slabs unit := modify (fun s => set_zone_array (<[zi := v]> (zone_array s)) s).
Definition set_usage (i type size : Z) : M slabs unit :=
  modify (fun s => set_mu_size (<[i := uint 30 size]> (mu_size s)) (set_mu_type (<[i := type]> (mu_type s)) s)).
(** The index of btokup(addr) in the table. *)
Definition btokup (addr : Z) : M slabs Z := gets (fun s => Z.shiftr (uint32 (addr - heap_start s)) RT_MM_PAGE_BITS).
(** [used_mem += n] and the maximum. *)
Definition count_mem (n : Z) : M slabs unit :=
  modify (fun s => set_used_mem (uint32 (used_mem s + n)) s) ;;
  modify (fun s => if used_mem s >? max_mem s then set_max_mem (used_mem s) s else s).
Definition uncount_mem (n : Z) : M slabs unit := modify (fun s => set_used_mem (uint32 (used_mem s - n)) s).

(** *** The page allocator *)
(** [prev], the address of a link: &rt_page_list or &b->next. *)
Inductive page_link := PageList | PageNext (b : Z).
Definition load_page (prev : page_link) : M slabs Z :=
  match prev with PageList => gets rt_page_list | PageNext b => page_next b end.
Definition store_page (prev : page_link) (v : Z) : M slabs unit :=
  match prev with PageList => modify (set_rt_page_list v) | PageNext b => set_page_next b v end.
(** A walk passes at most a run for every page. *)
Definition page_fuel (s : slabs) : nat := S (S (Z.to_nat (Z.shiftr (heap_end s - heap_start s) RT_MM_PAGE_BITS))).

Fixpoint page_search (fuel : nat) (prev : page_link) (npages : Z) : M slabs Z :=
  match fuel with
  | O => diverge
  | S fuel =>
    b ← load_page prev;
    if b =? 0 then mret b
    else
      page ← page_count b;
      if page >? npages then
        let n := b + npages * RT_MM_PAGE_SIZE in
        next ← page_next b;
        set_page_next n next ;;
        set_page_count n (page - npages) ;;
        store_page prev n ;;
        mret b
      else if page =? npages then
        next ← page_next b;
        store_page prev next ;;
        mret b
      else page_search fuel (PageNext b) npages
  end.
Definition page_alloc_section (npages : Z) : M slabs Z :=
  fuel ← gets page_fuel;
  page_search fuel PageList npages.

(** A run of its own in front of [b]. *)
Definition page_insert (prev : page_link) (n npages b : Z) : M slabs unit :=
  set_page_count n npages ;;
  set_page_next n b ;;
  store_page prev n.
(** The run [b] grows to the end, and takes in the next run if it ends there. *)
Definition page_extend (b npages : Z) : M slabs unit :=
  page ← page_count b;
  set_page_count b (uint32 (page + npages)) ;;
  page ← page_count b;
  next ← page_next b;
  if b + page * RT_MM_PAGE_SIZE =? next then
    more ← page_count next;
    set_page_count b (uint32 (page + more)) ;;
    last ← page_next next;
    set_page_next b last
  else mret tt.
Fixpoint page_free_loop (fuel : nat) (prev : page_link) (n npages : Z) : M slabs unit :=
  match fuel with
  | O => diverge
  | S fuel =>
    b ← load_page prev;
    if b =? 0 then page_insert prev n npages b
    else
      page ← page_count b;
      rt_assert (page >? 0) ;;
      rt_assert ((b >? n) || (b + page * RT_MM_PAGE_SIZE <=? n)) ;;
      if b + page * RT_MM_PAGE_SIZE =? n then page_extend b npages
      else if b =? n + npages * RT_MM_PAGE_SIZE then
        set_page_count n (uint32 (page + npages)) ;;
        next ← page_next b;
        set_page_next n next ;;
        store_page prev n
      else if b >? n + npages * RT_MM_PAGE_SIZE then page_insert prev n npages b
      else page_free_loop fuel (PageNext b) n npages
  end.
Definition page_free_section (addr npages : Z) : M slabs unit :=
  fuel ← gets page_fuel;
  page_free_loop fuel PageList addr npages.

(** *** Chunk sizes *)
(** The index, and the size rounded up. *)
Definition zoneindex (bytes : Z) : Z * Z :=
  let n := bytes in
  if n <? 128 then
    let n := Z.land (uint32 (n + 7)) (Z.lnot 7) in (int32 (n / 8 - 1), n)
  else if n <? 256 then
    let n := Z.land (uint32 (n + 15)) (Z.lnot 15) in (n / 16 + 7, n)
  else if n <? 8192 then
    if n <? 512 then
      let n := Z.land (uint32 (n + 31)) (Z.lnot 31) in (n / 32 + 15, n)
    else if n <? 1024 then
      let n := Z.land (uint32 (n + 63)) (Z.lnot 63) in (n / 64 + 23, n)
    else if n <? 2048 then
      let n := Z.land (uint32 (n + 127)) (Z.lnot 127) in (n / 128 + 31, n)
    else if n <? 4096 then
      let n := Z.land (uint32 (n + 255)) (Z.lnot 255) in (n / 256 + 39, n)
    else
      let n := Z.land (uint32 (n + 511)) (Z.lnot 511) in (n / 512 + 47, n)
  else if n <? 16384 then
    let n := Z.land (uint32 (n + 1023)) (Z.lnot 1023) in (n / 1024 + 55, n)
  else (0, n).
(** Where the chunks of [size] bytes start in a zone. *)
Definition chunk_offset (size : Z) : Z :=
  let off := SIZEOF_SLAB_ZONE in
  if uint32 (Z.lor size (uint32 (size - 1)) + 1) =? uint32 (Z.shiftl size 1) then Z.land (uint32 (off + size - 1)) (Z.lnot (size - 1))
  else Z.land (off + MIN_CHUNK_MASK) (Z.lnot MIN_CHUNK_MASK).
Definition zone_zero : slab_zone := mk_zone 0 0 0 0 0 0 0 0.

(** *** The critical sections of rt_malloc *)
(** A chunk of the zone [z], the first of its list: one that was never used, while there is
    one, or else the first of the freed ones. *)
Definition take_chunk (zi z size : Z) : M slabs Z :=
  h ← zone z;
  rt_assert (z_nfree h >? 0) ;;
  mod_zone z (set_z_nfree (z_nfree h - 1)) ;;
  (if z_nfree h - 1 =? 0 then
     next ← zone_next z;
     set_zone_head zi next ;;
     set_zone_next z 0
   else mret tt) ;;
  h ← zone z;
  chunk ←
    (if negb (z_uindex h + 1 =? z_nmax h) then
       mod_zone z (set_z_uindex (z_uindex h + 1)) ;;
       mret (z_baseptr h + (z_uindex h + 1) * size)
     else
       let chunk := z_freechunk h in
       next ← gets (fun s => c_next s chunk);
       mod_zone z (set_z_freechunk next) ;;
       mret chunk);
  count_mem (z_chunksize h) ;;
  mret chunk.
(** The first of the free zones, which leaves their list. *)
Definition pop_zone (z : Z) : M slabs unit :=
  next ← zone_next z;
  modify (set_zone_free next) ;;
  modify (fun s => set_zone_free_cnt (zone_free_cnt s - 1) s).
(** The entries of the pages of a zone: [kup] is the first of the [n] left. *)
Fixpoint mark_pages (n : nat) (kup off : Z) : M slabs unit :=
  match n with
  | O => mret tt
  | S n => set_usage kup PAGE_TYPE_SMALL off ;; mark_pages n (kup + 1) (off + 1)
  end.
Definition mark_zone (z : Z) : M slabs unit :=
  kup ← btokup z;
  cnt ← gets zone_page_cnt;
  mark_pages (Z.to_nat cnt) kup 0.
(** A new zone for chunks of [size] bytes, and its first chunk. *)
Definition zone_setup (zi z size : Z) : M slabs Z :=
  mod_zone z (fun _ => zone_zero) ;;
  set_zone_next z 0 ;;
  let off := chunk_offset size in
  zsize ← gets zone_size;
  let nmax := uint32 (zsize - off) / size in
  mod_zone z (fun h => mk_zone ZALLOC_SLAB_MAGIC (nmax - 1) nmax (z + off) 0 size zi (z_freechunk h)) ;;
  h ← zone z;
  let chunk := z_baseptr h + z_uindex h * size in
  head ← zone_head zi;
  set_zone_next z head ;;
  set_zone_head zi z ;;
  count_mem (z_chunksize h) ;;
  mret chunk.

(** *** The critical sections of rt_free *)
Definition page_of (ptr : Z) : Z := Z.land ptr (Z.lnot RT_MM_PAGE_MASK).
(** The zone of a chunk. *)
Definition chunk_zone (ptr : Z) : M slabs Z :=
  kup ← btokup (page_of ptr);
  off ← gets (fun s => mu_size s kup);
  mret (page_of ptr - off * RT_MM_PAGE_SIZE).
(** [pz], the address of a link: &zone_array[zi] or &z->z_next. *)
Inductive zone_link := ZoneArray (zi : Z) | ZoneNext (z : Z).
Definition load_zone (pz : zone_link) : M slabs Z :=
  match pz with ZoneArray zi => zone_head zi | ZoneNext z => zone_next z end.
Definition store_zone (pz : zone_link) (v : Z) : M slabs unit :=
  match pz with ZoneArray zi => set_zone_head zi v | ZoneNext z => set_zone_next z v end.
Fixpoint unlink_zone (fuel : nat) (pz : zone_link) (z : Z) : M slabs unit :=
  match fuel with
  | O => diverge
  | S fuel =>
    p ← load_zone pz;
    if p =? z then next ← zone_next z; store_zone pz next
    else if p =? 0 then diverge
    else unlink_zone fuel (ZoneNext p) z
  end.
Fixpoint unmark_pages (n : nat) (kup : Z) : M slabs unit :=
  match n with
  | O => mret tt
  | S n => set_usage kup PAGE_TYPE_FREE 0 ;; unmark_pages n (kup + 1)
  end.
Definition put_chunk (z ptr : Z) : M slabs unit :=
  h ← zone z;
  rt_assert (z_magic h =? ZALLOC_SLAB_MAGIC) ;;
  modify (fun s => set_c_next (<[ptr := z_freechunk h]> (c_next s)) s) ;;
  mod_zone z (set_z_freechunk ptr) ;;
  uncount_mem (z_chunksize h) ;;
  mod_zone z (set_z_nfree (z_nfree h + 1)) ;;
  if z_nfree h =? 0 then
    head ← zone_head (z_zoneindex h);
    set_zone_next z head ;;
    set_zone_head (z_zoneindex h) z
  else mret tt.
(** The zone moves to the free zones. *)
Definition retire_zone (z : Z) : M slabs unit :=
  h ← zone z;
  fuel ← gets page_fuel;
  unlink_zone fuel (ZoneArray (z_zoneindex h)) z ;;
  mod_zone z (set_z_magic (-1)) ;;
  free ← gets zone_free;
  set_zone_next z free ;;
  modify (set_zone_free z) ;;
  modify (fun s => set_zone_free_cnt (zone_free_cnt s + 1) s).
(** With too many free zones the first of them goes back to the pages. *)
Definition release_zone : M slabs (option Z) :=
  cnt ← gets zone_free_cnt;
  if cnt >? ZONE_RELEASE_THRESH then
    z ← gets zone_free;
    pop_zone z ;;
    kup ← btokup z;
    pages ← gets zone_page_cnt;
    unmark_pages (Z.to_nat pages) kup ;;
    mret (Some z)
  else mret None.
(** The zone to release, if any. *)
Definition chunk_free_section (ptr : Z) : M slabs (option Z) :=
  z ← chunk_zone ptr;
  put_chunk z ptr ;;
  h ← zone z;
  next ← zone_next z;
  head ← zone_head (z_zoneindex h);
  if (z_nfree h =? z_nmax h) && (negb (next =? 0) || negb (head =? z)) then
    retire_zone z ;;
    release_zone
  else mret None.
Definition large_free_section (kup : Z) : M slabs Z :=
  size ← gets (fun s => mu_size s kup);
  modify (fun s => set_mu_size (<[kup := 0]> (mu_size s)) s) ;;
  uncount_mem (size * RT_MM_PAGE_SIZE) ;;
  mret size.

(** *** The size of the zones *)
Fixpoint zone_size_loop (fuel : nat) (zsize limsize : Z) : Z :=
  match fuel with
  | O => zsize
  | S fuel =>
    if (zsize <? ZALLOC_MAX_ZONE_SIZE) && (Z.shiftl zsize 1 <? limsize / 1024) then zone_size_loop fuel (Z.shiftl zsize 1) limsize
    else zsize
  end.
(** Two doublings reach the maximum. *)
Definition zone_size_of (limsize : Z) : Z := zone_size_loop 2 ZALLOC_MIN_ZONE_SIZE limsize.
Definition zone_limit_of (zsize : Z) : Z :=
  let limit := zsize / 4 in if limit >? ZALLOC_ZONE_LIMIT then ZALLOC_ZONE_LIMIT else limit.
End slab_sections.

(** The kernel with the semaphore of the heap, and the heap.  [slab_heap_sem] is heap_sem. *)
Record slstate {cfg : Config} {kh : KHeap} : Type := mk_slstate { ss_kernel : kstate; ss_slab : slabs }.
Class SlabSem := slab_heap_sem : Z.

Section slab.
Context {cfg : Config} {kh : KHeap} {sz : ObjectSizes} {st : StaticThreads} {hs : SlabSem}.

Definition set_ss_kernel (v : kstate) (s : slstate) : slstate := mk_slstate _ _ v (ss_slab s).
Definition set_ss_slab (v : slabs) (s : slstate) : slstate := mk_slstate _ _ (ss_kernel s) v.
Definition on_slab_kernel {A} (m : M kstate A) : M slstate A := fun s =>
  match m (ss_kernel s) with Some (a, k) => Some (a, set_ss_kernel k s) | None => None end.
Definition on_slab {A} (m : M slabs A) : R slstate A := now (fun s =>
  match m (ss_slab s) with Some (a, v) => Some (a, set_ss_slab v s) | None => None end).
(** rt_sem_take(&heap_sem, RT_WAITING_FOREVER) and rt_sem_release(&heap_sem), whose results are
    not looked at. *)
Definition lock_heap : R slstate unit :=
  _ ← await (on_slab_kernel (rt_sem_take slab_heap_sem RT_WAITING_FOREVER)) id (fun t => on_slab_kernel (rt_sem_take_resumed t));
  mret tt.
Definition unlock_heap : R slstate unit :=
  _ ← now (on_slab_kernel (rt_sem_release slab_heap_sem));
  mret tt.
Definition locked {A} (f : M slabs A) : R slstate A :=
  lock_heap ;;
  a ← on_slab f;
  unlock_heap ;;
  mret a.

Definition rt_page_alloc (npages : Z) : R slstate Z :=
  if npages =? 0 then mret 0 else locked (page_alloc_section npages).
Definition rt_page_free (addr npages : Z) : R slstate unit :=
  now (rt_assert (negb (addr =? 0))) ;;
  now (rt_assert (addr mod RT_MM_PAGE_SIZE =? 0)) ;;
  now (rt_assert (negb (npages =? 0))) ;;
  locked (page_free_section addr npages).
Definition rt_page_init (addr npages : Z) : R slstate unit :=
  now (rt_assert (negb (addr =? 0))) ;;
  now (rt_assert (negb (npages =? 0))) ;;
  on_slab (modify (set_rt_page_list 0)) ;;
  rt_page_free addr npages.

Definition slab_heap_init (begin_addr end_addr : Z) : R slstate unit :=
  now (on_slab_kernel (lift RT_DEBUG_NOT_IN_INTERRUPT)) ;;
  let hstart := RT_ALIGN begin_addr RT_MM_PAGE_SIZE in
  let hend := RT_ALIGN_DOWN end_addr RT_MM_PAGE_SIZE in
  on_slab (modify (fun s => set_heap_end hend (set_heap_start hstart s))) ;;
  if hstart >=? hend then mret tt
  else
    let limsize := hend - hstart in
    let npages := limsize / RT_MM_PAGE_SIZE in
    _ ← now (on_slab_kernel (rt_sem_init slab_heap_sem [104; 101; 97; 112] 1 RT_IPC_FLAG_FIFO));
    rt_page_init hstart npages ;;
    let zsize := zone_size_of limsize in
    on_slab (modify (set_zone_size zsize)) ;;
    on_slab (modify (set_zone_limit (zone_limit_of zsize))) ;;
    on_slab (modify (set_zone_page_cnt (zsize / RT_MM_PAGE_SIZE))) ;;
    let limsize := RT_ALIGN (npages * SIZEOF_MEMUSAGE) RT_MM_PAGE_SIZE in
    table ← rt_page_alloc (limsize / RT_MM_PAGE_SIZE);
    on_slab (modify (set_memusage table)).

(** The branch of rt_malloc for whole pages. *)
Definition malloc_large (size : Z) : R slstate Z :=
  let size := RT_ALIGN size RT_MM_PAGE_SIZE in
  chunk ← rt_page_alloc (Z.shiftr size RT_MM_PAGE_BITS);
  if chunk =? 0 then mret 0
  else
    on_slab (kup ← btokup chunk; set_usage kup PAGE_TYPE_LARGE (Z.shiftr size RT_MM_PAGE_BITS)) ;;
    lock_heap ;;
    on_slab (count_mem size) ;;
    unlock_heap ;;
    mret chunk.
(** No zone has a chunk free; the heap is locked. *)
Definition malloc_zone (zi size : Z) : R slstate Z :=
  z ← on_slab (gets zone_free);
  if negb (z =? 0) then
    on_slab (pop_zone z) ;;
    chunk ← on_slab (zone_setup zi z size);
    unlock_heap ;;
    mret chunk
  else
    unlock_heap ;;
    zsize ← on_slab (gets zone_size);
    z ← rt_page_alloc (zsize / RT_MM_PAGE_SIZE);
    if z =? 0 then
      unlock_heap ;;
      mret 0
    else
      lock_heap ;;
      on_slab (mark_zone z) ;;
      chunk ← on_slab (zone_setup zi z size);
      unlock_heap ;;
      mret chunk.
Definition slab_malloc (size : Z) : R slstate Z :=
  if size =? 0 then mret 0
  else
    limit ← on_slab (gets zone_limit);
    if size >=? limit then malloc_large size
    else
      lock_heap ;;
      let '(zi, size) := zoneindex size in
      now (rt_assert (zi <? NZONES)) ;;
      z ← on_slab (zone_head zi);
      if negb (z =? 0) then
        chunk ← on_slab (take_chunk zi z size);
        unlock_heap ;;
        mret chunk
      else malloc_zone zi size.

Definition slab_free (ptr : Z) : R slstate unit :=
  if ptr =? 0 then mret tt
  else
    kup ← on_slab (btokup (page_of ptr));
    type ← on_slab (gets (fun s => mu_type s kup));
    if type =? PAGE_TYPE_LARGE then
      size ← locked (large_free_section kup);
      rt_page_free ptr size
    else
      released ← locked (chunk_free_section ptr);
      match released with
      | Some z =>
        zsize ← on_slab (gets zone_size);
        rt_page_free z (zsize / RT_MM_PAGE_SIZE)
      | None => mret tt
      end.

(** The old contents go to the new block, up to the smaller size. *)
Definition realloc_copy (nptr ptr size osize : Z) : M slabs unit :=
  modify (fun s => set_sl_bytes (rt_memcpy nptr ptr (if size >? osize then osize else size) (sl_bytes s)) s).
Definition slab_realloc (ptr size : Z) : R slstate Z :=
  if ptr =? 0 then slab_malloc size
  else if size =? 0 then slab_free ptr ;; mret 0
  else
    kup ← on_slab (btokup (page_of ptr));
    type ← on_slab (gets (fun s => mu_type s kup));
    if type =? PAGE_TYPE_LARGE then
      pages ← on_slab (gets (fun s => mu_size s kup));
      let osize := uint32 (Z.shiftl pages RT_MM_PAGE_BITS) in
      nptr ← slab_malloc size;
      if nptr =? 0 then mret 0
      else
        on_slab (realloc_copy nptr ptr size osize) ;;
        slab_free ptr ;;
        mret nptr
    else if type =? PAGE_TYPE_SMALL then
      z ← on_slab (chunk_zone ptr);
      h ← on_slab (zone z);
      now (rt_assert (z_magic h =? ZALLOC_SLAB_MAGIC)) ;;
      let '(_, size) := zoneindex size in
      if z_chunksize h =? size then mret ptr
      else
        nptr ← slab_malloc size;
        if nptr =? 0 then mret 0
        else
          h ← on_slab (zone z);
          on_slab (realloc_copy nptr ptr size (z_chunksize h)) ;;
          slab_free ptr ;;
          mret nptr
    else mret 0.
Definition slab_calloc (count size : Z) : R slstate Z :=
  let total := uint32 (count * size) in
  p ← slab_malloc total;
  if negb (p =? 0) then
    on_slab (modify (fun s => set_sl_bytes (rt_memset p 0 total (sl_bytes s)) s)) ;;
    mret p
  else mret p.
Definition rt_memory_info : R slstate (Z * Z * Z) :=
  on_slab (gets (fun s => (heap_end s - heap_start s, used_mem s, max_mem s))).
End slab.
