(* ===== verification/PageSpec.v ===== *)
(** The page allocator of src/slab.c refines first fit on a sequence of runs of free pages, in
    the order of their addresses and without adjacent runs. *)
From S2P Require Import Prelude RtList Kservice MemOps Kernel Scheduler Object TimerCore Invariant Thread Timer Ipc Semaphore Lock Resume Slab.

Notation PAGE := RT_MM_PAGE_SIZE.
(** A run: its first page and its length. *)
Notation run := (Z * Z)%type.
Definition run_end (r : run) : Z := r.1 + r.2 * PAGE.

(** *** The reference *)
Fixpoint page_take (n : Z) (rs : list run) : option (Z * list run) :=
  match rs with
  | [] => None
  | (b, k) :: rs =>
    if k >? n then Some (b, (b + n * PAGE, k - n) :: rs)
    else if k =? n then Some (b, rs)
    else '(a, rs') ← page_take n rs; Some (a, (b, k) :: rs')
  end.
(** The run [b] of [k] pages in front of [rs], joined with the next one when they touch. *)
Definition join_run (b k : Z) (rs : list run) : list run :=
  match rs with
  | (c, m) :: rs' => if b + k * PAGE =? c then (b, k + m) :: rs' else (b, k) :: rs
  | [] => [(b, k)]
  end.
Fixpoint page_give (a n : Z) (rs : list run) : list run :=
  match rs with
  | [] => [(a, n)]
  | (b, k) :: rs =>
    if b + k * PAGE =? a then join_run b (k + n) rs
    else if b =? a + n * PAGE then (a, k + n) :: rs
    else if b >? a + n * PAGE then (a, n) :: (b, k) :: rs
    else (b, k) :: page_give a n rs
  end.

(** *** Well-formed sequences *)
(** Runs above [lo] and up to [hi], with gaps between them. *)
Fixpoint apart (lo : Z) (rs : list run) (hi : Z) : Prop :=
  match rs with
  | [] => True
  | (b, n) :: rs => lo < b /\ b mod PAGE = 0 /\ 0 < n /\ b + n * PAGE <= hi /\ apart (b + n * PAGE) rs hi
  end.
(** No page of [n] from [a] on is in a run. *)
Definition clear_of (a n : Z) (rs : list run) : Prop := Forall (fun r => run_end r <= a \/ a + n * PAGE <= r.1) rs.
Definition in_run (x : Z) (r : run) : Prop := r.1 <= x < run_end r.
(** The address [x] is in a free page. *)
Definition page_free_at (rs : list run) (x : Z) : Prop := Exists (in_run x) rs.

Lemma page_mod a n : (a + n * PAGE) mod PAGE = a mod PAGE.
Proof. unfold RT_MM_PAGE_SIZE. apply Z_mod_plus_full. Qed.
Lemma apart_weaken lo lo' rs hi : lo' <= lo -> apart lo rs hi -> apart lo' rs hi.
Proof. destruct rs as [|[b n] rs]; cbn; [done|]. intuition lia. Qed.
Lemma apart_ends lo rs hi : apart lo rs hi -> Forall (fun r => lo < r.1 /\ r.1 < run_end r /\ run_end r <= hi) rs.
Proof.
  revert lo. induction rs as [|[b n] rs IH]; intros lo; cbn [apart]; [done|]. intros (H1 & H2 & H3 & H4 & H5).
  constructor; [unfold run_end, RT_MM_PAGE_SIZE in *; cbn in *; lia|]. eapply Forall_impl; [by apply IH|]. unfold RT_MM_PAGE_SIZE in *. cbn. intros r. lia.
Qed.
Lemma apart_length lo rs hi : apart lo rs hi -> lo <= hi -> lo + Z.of_nat (length rs) * PAGE <= hi.
Proof.
  revert lo. induction rs as [|[b n] rs IH]; intros lo; cbn [apart length]; [lia|]. intros (H1 & H2 & H3 & H4 & H5) _.
  apply IH in H5; unfold RT_MM_PAGE_SIZE in *; lia.
Qed.
Lemma page_take_apart n lo rs hi a rs' : 0 < n -> apart lo rs hi -> page_take n rs = Some (a, rs') -> apart lo rs' hi /\ lo < a.
Proof.
  intros Hn. revert lo rs'. induction rs as [|[b k] rs IH]; intros lo rs'; cbn [page_take apart]; [done|].
  intros (H1 & H2 & H3 & H4 & H5). destruct (Z.gtb_spec k n); [|destruct (Z.eqb_spec k n)].
  - intros [= <- <-]. cbn [apart]. replace (b + n * PAGE + (k - n) * PAGE) with (b + k * PAGE) by lia.
    rewrite page_mod. unfold RT_MM_PAGE_SIZE in *. split_and!; try done; lia.
  - intros [= <- <-]. split; [|done]. eapply apart_weaken; [|done]. unfold RT_MM_PAGE_SIZE in *. lia.
  - destruct (page_take n rs) as [[a' rs'']|]; [|done]. intros [= <- <-]. destruct (IH _ _ H5 eq_refl) as [IH1 IH2].
    split; [by cbn|]. unfold RT_MM_PAGE_SIZE in *. lia.
Qed.
(** What is taken was free, and nothing else stops being free. *)
Lemma page_take_free n lo rs hi a rs' x : 0 < n -> apart lo rs hi -> page_take n rs = Some (a, rs') ->
  page_free_at rs x <-> page_free_at rs' x \/ a <= x < a + n * PAGE.
Proof.
  intros Hn. revert lo rs'. induction rs as [|[b k] rs IH]; intros lo rs'; cbn [page_take apart]; [done|].
  intros (H1 & H2 & H3 & H4 & H5). unfold page_free_at in *. destruct (Z.gtb_spec k n); [|destruct (Z.eqb_spec k n)].
  - intros [= <- <-]. rewrite !Exists_cons. unfold in_run, run_end, RT_MM_PAGE_SIZE. cbn. intuition lia.
  - intros [= <- <-]. rewrite !Exists_cons. unfold in_run, run_end, RT_MM_PAGE_SIZE. cbn. subst. intuition lia.
  - destruct (page_take n rs) as [[a' rs'']|]; [|done]. intros [= <- <-]. rewrite !Exists_cons, (IH _ _ H5 eq_refl). tauto.
Qed.
Lemma page_take_clear n lo rs hi a rs' : 0 < n -> apart lo rs hi -> page_take n rs = Some (a, rs') -> clear_of a n rs' /\ a mod PAGE = 0 /\ a + n * PAGE <= hi.
Proof.
  intros Hn. revert lo rs'. induction rs as [|[b k] rs IH]; intros lo rs'; cbn [page_take apart]; [done|].
  intros (H1 & H2 & H3 & H4 & H5). pose proof (apart_ends _ _ _ H5) as He. destruct (Z.gtb_spec k n); [|destruct (Z.eqb_spec k n)].
  - intros [= <- <-]. unfold RT_MM_PAGE_SIZE in *. split_and!; [|done|lia]. constructor; [cbn; right; unfold RT_MM_PAGE_SIZE; lia|].
    eapply Forall_impl; [exact He|]. unfold RT_MM_PAGE_SIZE. cbn. intros r. lia.
  - intros [= <- <-]. subst. split_and!; [|done|done]. eapply Forall_impl; [exact He|]. unfold RT_MM_PAGE_SIZE. cbn. intros r. lia.
  - destruct (page_take n rs) as [[a' rs'']|] eqn:E; [|done]. intros [= <- <-]. destruct (IH _ _ H5 eq_refl) as (IH1 & IH2 & IH3).
    destruct (page_take_apart n _ _ _ _ _ Hn H5 E) as [_ Ha]. split_and!; try done. constructor; [|done]. left. unfold run_end. cbn. lia.
Qed.
Lemma join_run_free b k rs x : 0 < k -> Forall (fun r : run => 0 < r.2) rs ->
  page_free_at (join_run b k rs) x <-> b <= x < b + k * PAGE \/ page_free_at rs x.
Proof.
  intros Hk. unfold page_free_at. destruct rs as [|[c m] rs]; cbn [join_run]; intros Hp; [rewrite Exists_cons; unfold in_run, run_end; cbn; tauto|].
  apply Forall_cons in Hp as [Hm _]. cbn in Hm. destruct (Z.eqb_spec (b + k * PAGE) c) as [<-|]; rewrite !Exists_cons; unfold in_run, run_end; cbn; [|tauto].
  rewrite Z.mul_add_distr_r. unfold RT_MM_PAGE_SIZE in *. intuition lia.
Qed.
Lemma join_run_apart lo b k rs hi : lo < b -> b mod PAGE = 0 -> 0 < k -> b + k * PAGE <= hi -> apart (b + k * PAGE - 1) rs hi -> apart lo (join_run b k rs) hi.
Proof.
  intros H1 H2 H3 H4 H5. destruct rs as [|[c m] rs]; cbn [join_run apart] in *; [done|]. destruct H5 as (J1 & J2 & J3 & J4 & J5).
  destruct (Z.eqb_spec (b + k * PAGE) c) as [<-|]; cbn [apart]; rewrite ?Z.mul_add_distr_r, ?Z.add_assoc; split_and!; try done; lia.
Qed.
Lemma apart_pos lo rs hi : apart lo rs hi -> Forall (fun r : run => 0 < r.2) rs.
Proof. revert lo. induction rs as [|[b n] rs IH]; intros lo; cbn [apart]; [done|]. intros (H1 & H2 & H3 & H4 & H5). constructor; [done|by eapply IH]. Qed.
Lemma page_give_free a n lo rs hi x : 0 < n -> apart lo rs hi -> page_free_at (page_give a n rs) x <-> a <= x < a + n * PAGE \/ page_free_at rs x.
Proof.
  intros Hn. revert lo. induction rs as [|[b k] rs IH]; intros lo; cbn [page_give apart].
  - intros _. unfold page_free_at. rewrite Exists_cons. unfold in_run, run_end. cbn. tauto.
  - intros (H1 & H2 & H3 & H4 & H5). destruct (Z.eqb_spec (b + k * PAGE) a) as [<-|]; [|destruct (Z.eqb_spec b (a + n * PAGE)) as [->|]; [|destruct (Z.gtb_spec b (a + n * PAGE))]].
    + rewrite join_run_free by (lia || by eapply apart_pos). unfold page_free_at. rewrite Exists_cons. unfold in_run, run_end. cbn.
      rewrite Z.mul_add_distr_r. unfold RT_MM_PAGE_SIZE in *. intuition lia.
    + unfold page_free_at. rewrite !Exists_cons. unfold in_run, run_end, RT_MM_PAGE_SIZE in *. cbn. intuition lia.
    + unfold page_free_at. rewrite !Exists_cons. unfold in_run, run_end. cbn. tauto.
    + unfold page_free_at in *. rewrite !Exists_cons, (IH _ H5). tauto.
Qed.
Lemma page_give_apart a n lo rs hi : 0 < n -> apart lo rs hi -> clear_of a n rs -> lo < a -> a mod PAGE = 0 -> a + n * PAGE <= hi -> apart lo (page_give a n rs) hi.
Proof.
  intros Hn. revert lo. induction rs as [|[b k] rs IH]; intros lo; cbn [page_give apart]; [done|].
  intros (H1 & H2 & H3 & H4 & H5) [Hb Hc]%Forall_cons Hlo Ha Hhi. unfold run_end in Hb. cbn in Hb.
  destruct (Z.eqb_spec (b + k * PAGE) a) as [<-|]; [|destruct (Z.eqb_spec b (a + n * PAGE)) as [->|]; [|destruct (Z.gtb_spec b (a + n * PAGE))]].
  - apply join_run_apart; rewrite ?Z.mul_add_distr_r, ?Z.add_assoc; try done; [lia|].
    destruct rs as [|[c m] rs]; [done|]. apply Forall_cons in Hc as [Hc _]. unfold run_end in Hc. cbn [apart fst snd] in *.
    destruct H5 as (J1 & J2 & J3 & J4 & J5). unfold RT_MM_PAGE_SIZE in *. split_and!; try done. lia.
  - cbn [apart]. replace (a + (k + n) * PAGE) with (a + n * PAGE + k * PAGE) by lia. split_and!; try done; lia.
  - cbn [apart]. split_and!; try done; lia.
  - cbn [apart]. split_and!; try done. apply IH; try done. unfold RT_MM_PAGE_SIZE in *. lia.
Qed.
(** Giving back what was taken restores the sequence. *)
Lemma page_give_take n lo rs hi a rs' : 0 < n -> apart lo rs hi -> page_take n rs = Some (a, rs') -> page_give a n rs' = rs.
Proof.
  intros Hn. revert lo rs'. induction rs as [|[b k] rs IH]; intros lo rs'; cbn [page_take apart]; [done|].
  intros (H1 & H2 & H3 & H4 & H5). destruct (Z.gtb_spec k n); [|destruct (Z.eqb_spec k n)].
  - intros [= <- <-]. cbn [page_give]. destruct (Z.eqb_spec (b + n * PAGE + (k - n) * PAGE) b); [unfold RT_MM_PAGE_SIZE in *; lia|].
    rewrite Z.eqb_refl. by replace (k - n + n) with k by lia.
  - intros [= <- <-]. subst k. destruct rs as [|[c m] rs]; cbn [page_give]; [done|]. cbn [apart] in H5. destruct H5 as (J1 & J2 & J3 & J4 & J5).
    destruct (Z.eqb_spec (c + m * PAGE) b); [unfold RT_MM_PAGE_SIZE in *; lia|]. destruct (Z.eqb_spec c (b + n * PAGE)); [lia|].
    destruct (Z.gtb_spec c (b + n * PAGE)); [done|lia].
  - destruct (page_take n rs) as [[a' rs'']|] eqn:E; [|done]. intros [= <- <-]. destruct (page_take_apart n _ _ _ _ _ Hn H5 E) as [_ Ha].
    cbn [page_give]. destruct (Z.eqb_spec (b + k * PAGE) a'); [lia|]. destruct (Z.eqb_spec b (a' + n * PAGE)); [unfold RT_MM_PAGE_SIZE in *; lia|].
    destruct (Z.gtb_spec b (a' + n * PAGE)); [unfold RT_MM_PAGE_SIZE in *; lia|]. f_equal. by eapply IH.
Qed.
(** Nothing is taken exactly when no run is long enough. *)
Lemma page_take_none n rs : page_take n rs = None <-> Forall (fun r => r.2 < n) rs.
Proof.
  induction rs as [|[b k] rs IH]; cbn [page_take]; [by split|]. rewrite Forall_cons, <- IH. cbn.
  destruct (Z.gtb_spec k n); [|destruct (Z.eqb_spec k n)]; [split; [done|lia]..|]. destruct (page_take n rs) as [[a rs']|]; cbn; split; try done; [intros [_ ?]; done|]. intros _. split; [lia|done].
Qed.

(** *** The state *)
(** The list of run heads from [p] on. *)
Fixpoint page_runs (s : slabs) (p : Z) (rs : list run) : Prop :=
  match rs with
  | [] => p = 0
  | (b, n) :: rs => p = b /\ pg_page s b = n /\ page_runs s (pg_next s b) rs
  end.
Record page_ok (s : slabs) (rs : list run) : Prop := {
  po_runs : page_runs s (rt_page_list s) rs;
  po_apart : apart (heap_start s - 1) rs (heap_end s);
  po_heap : 0 < heap_start s <= heap_end s /\ heap_end s < 2 ^ 32
}.
(** The page allocator writes the heads of runs. *)
Definition page_moved (s s' : slabs) : Prop :=
  s' = set_pg_next (pg_next s') (set_pg_page (pg_page s') (set_rt_page_list (rt_page_list s') s)).
Lemma page_moved_refl s : page_moved s s.
Proof. by destruct s. Qed.
Lemma page_moved_heap s s' : page_moved s s' -> heap_start s' = heap_start s /\ heap_end s' = heap_end s.
Proof. by intros ->. Qed.
Definition page_at (prev : page_link) (s : slabs) : Z := match prev with PageList => rt_page_list s | PageNext b => pg_next s b end.
Definition link_below (prev : page_link) (lo : Z) : Prop := match prev with PageList => True | PageNext q => q <= lo end.
(** Below [lo] only the link [prev] changes. *)
Record kept_below (s s' : slabs) (prev : page_link) (lo : Z) : Prop := {
  kb_moved : page_moved s s';
  kb_page : forall x, x <= lo -> pg_page s' x = pg_page s x;
  kb_next : forall x, x <= lo -> prev <> PageNext x -> pg_next s' x = pg_next s x;
  kb_list : prev <> PageList -> rt_page_list s' = rt_page_list s
}.
Lemma page_runs_frame s s' rs : forall p lo hi, page_runs s p rs -> apart lo rs hi ->
  (forall x, lo < x -> pg_page s' x = pg_page s x /\ pg_next s' x = pg_next s x) -> page_runs s' p rs.
Proof.
  induction rs as [|[b n] rs IH]; intros p lo hi; cbn [page_runs apart]; [done|]. intros (H1 & H2 & H3) (A1 & _ & A3 & _ & A5) Hf.
  destruct (Hf b) as [-> ->]; [done|]. split_and!; try done. eapply IH; [done|done|]. intros x Hx. apply Hf. unfold RT_MM_PAGE_SIZE in *. lia.
Qed.
Lemma kept_below_trans s s' prev b lo lo' :
  kept_below s s' (PageNext b) lo' -> lo < b <= lo' -> kept_below s s' prev lo.
Proof.
  intros [K1 K2 K3 K4] Hb. split; [done|intros x Hx; apply K2; lia|intros x Hx _; apply K3; [lia|intros [= ->]; lia]|intros _; by apply K4].
Qed.
Lemma kept_at s s' prev q lo b : kept_below s s' (PageNext b) lo -> link_below prev q -> q < b -> q <= lo -> page_at prev s' = page_at prev s.
Proof. intros [K1 K2 K3 K4] Hl Hq Hlo. destruct prev as [|p]; cbn in *; [by apply K4|]. apply K3; [lia|intros [= ->]; lia]. Qed.

Lemma wp_load_page prev s (Q : Z -> slabs -> Prop) : Q (page_at prev s) s -> wp (load_page prev) Q s.
Proof. intros HQ. by destruct prev. Qed.
(** The state after [*prev = v]. *)
Definition store_at (prev : page_link) (v : Z) (s : slabs) : slabs :=
  match prev with PageList => set_rt_page_list v s | PageNext b => set_pg_next (<[b := v]> (pg_next s)) s end.
Lemma wp_store_page prev v s (Q : unit -> slabs -> Prop) : Q tt (store_at prev v s) -> wp (store_page prev v) Q s.
Proof. intros HQ. by destruct prev. Qed.
Lemma page_at_store prev v s : page_at prev (store_at prev v s) = v.
Proof. destruct prev; cbn; [done|by rewrite upd_eq]. Qed.
Lemma pg_page_store prev v s : pg_page (store_at prev v s) = pg_page s.
Proof. by destruct prev. Qed.
Lemma pg_next_store prev v s x : prev <> PageNext x -> pg_next (store_at prev v s) x = pg_next s x.
Proof. destruct prev as [|b]; cbn; [done|]. intros Hne. rewrite upd_ne; [done|]. intros ->. done. Qed.
Lemma link_below_ne prev lo x : link_below prev lo -> lo < x -> prev <> PageNext x.
Proof. intros Hl Hx ->. cbn in Hl. lia. Qed.

Lemma wp_page_search n hi rs : forall fuel prev lo s (Q : Z -> slabs -> Prop),
  (length rs < fuel)%nat -> 0 < n -> 0 <= lo -> apart lo rs hi -> link_below prev lo -> page_runs s (page_at prev s) rs ->
  (page_take n rs = None -> Q 0 s) ->
  (forall a rs' s', page_take n rs = Some (a, rs') -> kept_below s s' prev lo -> page_runs s' (page_at prev s') rs' -> Q a s') ->
  wp (page_search fuel prev n) Q s.
Proof.
  induction rs as [|[b k] rs IH]; intros fuel prev lo s Q Hf Hn Hlo Ha Hl Hr HN HS; (destruct fuel as [|fuel]; [cbn in Hf; lia|]); cbn [page_search].
  - wp1. apply wp_load_page. cbn in Hr. rewrite Hr. cbn [Z.eqb]. wp1. by apply HN.
  - wp1. apply wp_load_page. cbn [page_runs apart length page_take] in *. destruct Hr as (E & Hk & Hr). destruct Ha as (A1 & A2 & A3 & A4 & A5). rewrite E.
    destruct (Z.eqb_spec b 0); [lia|]. unfold page_count. do 2 wp1. rewrite Hk. destruct (Z.gtb_spec k n); [|destruct (Z.eqb_spec k n) as [->|]].
    + unfold page_next, set_page_next, set_page_count. do 2 wp1. do 2 wp1. do 2 wp1. wp1. apply wp_store_page. wp1. apply (HS b ((b + n * PAGE, k - n) :: rs)); [done|..].
      * split; try done; [by destruct prev, s|..].
        -- intros x Hx. rewrite pg_page_store. cbn. rewrite upd_ne; [done|]. unfold RT_MM_PAGE_SIZE. lia.
        -- intros x Hx Hne. rewrite pg_next_store by done. cbn. rewrite upd_ne; [done|]. unfold RT_MM_PAGE_SIZE. lia.
        -- by destruct prev.
      * rewrite page_at_store. cbn [page_runs]. rewrite pg_page_store, pg_next_store by (eapply link_below_ne; [exact Hl|unfold RT_MM_PAGE_SIZE; lia]). cbn. rewrite !upd_eq.
        split_and!; try done. eapply page_runs_frame; [exact Hr|exact A5|]. intros x Hx. rewrite pg_page_store, pg_next_store by (eapply link_below_ne; [exact Hl|unfold RT_MM_PAGE_SIZE in *; lia]).
        cbn. rewrite !upd_ne by (unfold RT_MM_PAGE_SIZE in *; lia). done.
    + unfold page_next. do 2 wp1. wp1. apply wp_store_page. wp1. apply (HS b rs); [done|..].
      * split; try done; [by destruct prev, s|..]; try by destruct prev. intros x Hx Hne. by apply pg_next_store.
      * rewrite page_at_store. eapply page_runs_frame; [exact Hr|exact A5|]. intros x Hx.
        rewrite pg_page_store, pg_next_store by (eapply link_below_ne; [exact Hl|unfold RT_MM_PAGE_SIZE in *; lia]). done.
    + eapply (IH fuel (PageNext b) (b + k * PAGE)); try done; [lia|unfold RT_MM_PAGE_SIZE; lia|cbn; unfold RT_MM_PAGE_SIZE; lia|..].
      * intros Et. apply HN. by rewrite Et.
      * intros a rs' s' Et K Hr'. apply (HS a ((b, k) :: rs')); [by rewrite Et|..].
        -- eapply kept_below_trans; [exact K|unfold RT_MM_PAGE_SIZE; lia].
        -- cbn [page_runs]. rewrite (kb_page _ _ _ _ K) by (unfold RT_MM_PAGE_SIZE; lia). split_and!; [|done|exact Hr'].
           rewrite <- E. eapply kept_at; [exact K|exact Hl|lia|unfold RT_MM_PAGE_SIZE; lia].
Qed.

(** A run of its own, in front of the list that [prev] leads to. *)
Lemma wp_page_insert prev n k b lo hi rs s (Q : unit -> slabs -> Prop) :
  link_below prev lo -> lo < n -> 0 < k -> page_runs s b rs -> apart (n + k * PAGE) rs hi ->
  (forall s', kept_below s s' prev lo -> page_runs s' (page_at prev s') ((n, k) :: rs) -> Q tt s') ->
  wp (page_insert prev n k b) Q s.
Proof.
  intros Hl Hn Hk Hr Ha HQ. unfold page_insert, set_page_count, set_page_next. do 2 wp1. do 2 wp1. apply wp_store_page. apply HQ.
  - split; [by destruct prev, s|..]; [| |by destruct prev].
    + intros x Hx. rewrite pg_page_store. cbn. by rewrite upd_ne by lia.
    + intros x Hx Hne. rewrite pg_next_store by done. cbn. by rewrite upd_ne by lia.
  - rewrite page_at_store. cbn [page_runs]. rewrite pg_page_store, pg_next_store by (by eapply link_below_ne). cbn. rewrite !upd_eq.
    split_and!; try done. eapply page_runs_frame; [exact Hr|exact Ha|]. intros x Hx. unfold RT_MM_PAGE_SIZE in *.
    rewrite pg_page_store, pg_next_store by (eapply link_below_ne; [exact Hl|lia]). cbn. by rewrite !upd_ne by lia.
Qed.
(** The run [b], which [prev] leads to, grows. *)
Lemma wp_page_extend prev b k n lo hi rs s (Q : unit -> slabs -> Prop) :
  link_below prev lo -> lo < b -> 0 < k -> 0 < n -> hi < 2 ^ 32 -> b + (k + n) * PAGE <= hi -> 0 <= lo ->
  page_runs s (page_at prev s) ((b, k) :: rs) -> apart (b + (k + n) * PAGE - 1) rs hi ->
  (forall s', kept_below s s' prev lo -> page_runs s' (page_at prev s') (join_run b (k + n) rs) -> Q tt s') ->
  wp (page_extend b n) Q s.
Proof.
  intros Hl Hb Hk Hn Hhi Hend Hlo (E & Hp & Hr) Ha HQ. unfold page_extend, page_count, set_page_count, page_next, set_page_next. do 2 wp1. do 2 wp1. do 2 wp1. do 2 wp1.
  cbn [pg_page pg_next set_pg_page]. rewrite upd_eq, Hp. unfold RT_MM_PAGE_SIZE in *. rewrite (uint_small 32 (k + n)) by lia.
  assert (forall v, kept_below s (set_pg_page (<[b := v]> (pg_page s)) s) prev lo) as K.
  { intros v. split; [by destruct s|..]; [|done|done]. intros x Hx. cbn. by rewrite upd_ne by lia. }
  assert (forall f, page_at prev (set_pg_page f s) = b) as Ep by (intros f; rewrite <- E; by destruct prev).
  destruct rs as [|[c m] rs]; cbn [page_runs join_run apart] in *.
  - rewrite Hr. destruct (Z.eqb_spec (b + (k + n) * 4096) 0); [lia|]. wp1. apply HQ; [apply K|]. rewrite Ep. cbn. by rewrite upd_eq.
  - destruct Hr as (Ec & Hm & Hr), Ha as (A1 & A2 & A3 & A4 & A5). rewrite Ec. unfold RT_MM_PAGE_SIZE in *. destruct (Z.eqb_spec (b + (k + n) * 4096) c).
    + do 2 wp1. do 2 wp1. do 2 wp1. wp1. cbn [pg_page pg_next set_pg_page]. rewrite (upd_ne _ b c), Hm by lia. rewrite (uint_small 32 (k + n + m)) by lia. apply HQ.
      * split; [by destruct s|..]; [| |done].
        -- intros x Hx. cbn. by rewrite !upd_ne by lia.
        -- intros x Hx Hne. cbn. by rewrite !upd_ne by lia.
      * assert (page_at prev (set_pg_next (<[b := pg_next s c]> (pg_next s)) (set_pg_page (<[b := k + n + m]> (<[b := k + n]> (pg_page s))) (set_pg_page (<[b := k + n]> (pg_page s)) s))) = b) as ->.
        { destruct prev; cbn in *; [done|]. rewrite upd_ne by lia. done. }
        cbn. rewrite !upd_eq. split_and!; try done. eapply page_runs_frame; [exact Hr|exact A5|]. intros x Hx. cbn. unfold RT_MM_PAGE_SIZE in *. by rewrite !upd_ne by lia.
    + wp1. apply HQ; [apply K|]. rewrite Ep. cbn. rewrite upd_eq, (upd_ne _ b c) by lia. split_and!; try done.
      eapply page_runs_frame; [exact Hr|exact A5|]. intros x Hx. cbn. unfold RT_MM_PAGE_SIZE in *. by rewrite !upd_ne by lia.
Qed.
Lemma wp_page_free_loop a n hi rs : forall fuel prev lo s (Q : unit -> slabs -> Prop),
  (length rs < fuel)%nat -> 0 < n -> 0 <= lo < a -> a + n * PAGE <= hi -> hi < 2 ^ 32 -> apart lo rs hi -> clear_of a n rs -> link_below prev lo ->
  page_runs s (page_at prev s) rs ->
  (forall s', kept_below s s' prev lo -> page_runs s' (page_at prev s') (page_give a n rs) -> Q tt s') ->
  wp (page_free_loop fuel prev a n) Q s.
Proof.
  induction rs as [|[b k] rs IH]; intros fuel prev lo s Q Hf Hn Hlo Hhi Hmax Ha Hc Hl Hr HQ; (destruct fuel as [|fuel]; [cbn in Hf; lia|]); cbn [page_free_loop].
  - wp1. apply wp_load_page. cbn in Hr. rewrite Hr. cbn [Z.eqb]. eapply (wp_page_insert _ _ _ _ _ hi []); [exact Hl|lia|lia|done|done|exact HQ].
  - wp1. apply wp_load_page. pose proof Hr as Hr0. pose proof Ha as Ha0. cbn [page_runs apart length page_give] in *. destruct Hr as (E & Hk & Hr). destruct Ha as (A1 & A2 & A3 & A4 & A5).
    apply Forall_cons in Hc as [Hb Hc]. unfold run_end in Hb. cbn in Hb. rewrite E. destruct (Z.eqb_spec b 0); [lia|]. unfold page_count. do 2 wp1. rewrite Hk.
    wp1. wp1; [lia|]. wp1. wp1; [unfold RT_MM_PAGE_SIZE in *; lia|].
    destruct (Z.eqb_spec (b + k * PAGE) a) as [<-|]; [|destruct (Z.eqb_spec b (a + n * PAGE)) as [->|]; [|destruct (Z.gtb_spec b (a + n * PAGE))]].
    + eapply (wp_page_extend _ b k n lo hi rs); try done; [unfold RT_MM_PAGE_SIZE in *; lia|lia|].
      destruct rs as [|[c m] rs]; [done|]. apply Forall_cons in Hc as [Hc _]. unfold run_end in Hc. cbn [apart fst snd] in *.
      unfold RT_MM_PAGE_SIZE in *. destruct A5 as (J1 & J2 & J3 & J4 & J5). split_and!; try done. lia.
    + unfold set_page_count, page_next, set_page_next. rewrite (uint_small 32 (k + n)) by (unfold RT_MM_PAGE_SIZE in *; lia). do 2 wp1. do 2 wp1. do 2 wp1. apply wp_store_page.
      assert (a <> a + n * PAGE) as Hna by (unfold RT_MM_PAGE_SIZE; lia). apply HQ.
      * split; [by destruct prev, s|..]; [| |by destruct prev].
        -- intros x Hx. rewrite pg_page_store. cbn. by rewrite upd_ne by lia.
        -- intros x Hx Hne. rewrite pg_next_store by done. cbn. by rewrite upd_ne by lia.
      * rewrite page_at_store. cbn [page_runs]. rewrite pg_page_store, pg_next_store by (eapply link_below_ne; [exact Hl|lia]). cbn. rewrite !upd_eq.
        split_and!; try done. eapply page_runs_frame; [exact Hr|exact A5|]. intros x Hx. unfold RT_MM_PAGE_SIZE in *.
        rewrite pg_page_store, pg_next_store by (eapply link_below_ne; [exact Hl|lia]). cbn. by rewrite !upd_ne by lia.
    + eapply (wp_page_insert _ _ _ _ _ hi ((b, k) :: rs)); [exact Hl|lia|lia| |cbn; split_and!; try done; lia|exact HQ]. by rewrite <- E in Hr0 |- *.
    + eapply (IH fuel (PageNext b) (b + k * PAGE)); try done; [lia|unfold RT_MM_PAGE_SIZE in *; lia|cbn; unfold RT_MM_PAGE_SIZE; lia|].
      intros s' K Hr'. apply HQ; [eapply kept_below_trans; [exact K|unfold RT_MM_PAGE_SIZE; lia]|].
      cbn [page_runs]. rewrite (kb_page _ _ _ _ K) by (unfold RT_MM_PAGE_SIZE; lia). split_and!; [|done|exact Hr'].
      rewrite <- E. eapply kept_at; [exact K|exact Hl|lia|unfold RT_MM_PAGE_SIZE; lia].
Qed.

(** *** The critical sections *)
Lemma page_ok_fuel s rs : page_ok s rs -> (length rs < page_fuel s)%nat.
Proof.
  intros [H1 H2 H3]. apply apart_length in H2; [|lia]. unfold page_fuel, RT_MM_PAGE_BITS, RT_MM_PAGE_SIZE in *. rewrite Z.shiftr_div_pow2 by lia. change (2 ^ 12) with 4096.
  assert (Z.of_nat (length rs) <= (heap_end s - heap_start s + 1) / 4096) by (apply Z.div_le_lower_bound; lia).
  assert ((heap_end s - heap_start s + 1) / 4096 <= (heap_end s - heap_start s) / 4096 + 1); [|lia].
  transitivity ((heap_end s - heap_start s + 1 * 4096) / 4096); [apply Z.div_le_mono; lia|]. rewrite Z.div_add by lia. lia.
Qed.
Lemma page_moved_ok s s' rs' lo : page_moved s s' -> 0 < heap_start s <= heap_end s /\ heap_end s < 2 ^ 32 ->
  page_runs s' (rt_page_list s') rs' -> apart lo rs' (heap_end s) -> lo = heap_start s - 1 -> page_ok s' rs'.
Proof. intros -> Hh Hr Ha ->. by split. Qed.
Lemma wp_page_alloc_section s rs n (Q : Z -> slabs -> Prop) :
  page_ok s rs -> 0 < n -> (page_take n rs = None -> Q 0 s) ->
  (forall a rs' s', page_take n rs = Some (a, rs') -> page_moved s s' -> page_ok s' rs' -> Q a s') ->
  wp (page_alloc_section n) Q s.
Proof.
  intros H Hn HN HS. pose proof H as [H1 H2 H3]. unfold page_alloc_section. do 2 wp1.
  eapply (wp_page_search n _ rs _ PageList); [by apply page_ok_fuel|done| |exact H2|done|exact H1|exact HN|]; [lia|].
  intros a rs' s' Et [K _ _ _] Hr. apply (HS a rs' s' Et); [done|]. eapply page_moved_ok; [done|done|exact Hr|by eapply page_take_apart|done].
Qed.
(** The pages from [a] on can be given back: they are in the heap, and none of them is free. *)
Record freeable (s : slabs) (rs : list run) (a n : Z) : Prop := {
  fb_count : 0 < n;
  fb_align : a mod PAGE = 0;
  fb_heap : heap_start s <= a /\ a + n * PAGE <= heap_end s;
  fb_clear : clear_of a n rs
}.
Lemma wp_page_free_section s rs a n (Q : unit -> slabs -> Prop) :
  page_ok s rs -> freeable s rs a n -> (forall s', page_moved s s' -> page_ok s' (page_give a n rs) -> Q tt s') ->
  wp (page_free_section a n) Q s.
Proof.
  intros H [F1 F2 F3 F4] HQ. pose proof H as [H1 H2 H3]. unfold page_free_section. do 2 wp1.
  eapply (wp_page_free_loop a n _ rs _ PageList (heap_start s - 1)); [by apply page_ok_fuel|done|lia|apply F3|lia|exact H2|exact F4|done|exact H1|].
  intros s' [K _ _ _] Hr. apply HQ; [done|]. eapply page_moved_ok; [done|done|exact Hr| |done]. apply page_give_apart; try done; lia.
Qed.

(** *** rt_page_alloc and rt_page_free *)
Section calls.
Context {cfg : Config} {kh : KHeap} {sz : ObjectSizes} {st : StaticThreads} {hs : SlabSem}.
Implicit Types (s : slstate).

Definition heap_unlocked s : Prop := lock_free (ss_kernel s) slab_heap_sem.
(** The kernel of [s'] is that of [s], its semaphore counts [v]. *)
Definition sem_at s s' (v : Z) : Prop := lock_at (ss_kernel s) (ss_kernel s') slab_heap_sem v.
Lemma sem_at_refl s : heap_unlocked s -> sem_at s s 1.
Proof. apply lock_at_refl. Qed.
Lemma sem_at_unlocked s s' : heap_unlocked s -> sem_at s s' 1 -> heap_unlocked s'.
Proof. apply lock_at_free. Qed.
Lemma sem_at_trans s s1 s2 v w : sem_at s s1 v -> sem_at s1 s2 w -> sem_at s s2 w.
Proof. apply lock_at_trans. Qed.

Lemma wp_on_slab_kernel {A} (m : M kstate A) (Q : A -> slstate -> Prop) s :
  wp m (fun a k => Q a (set_ss_kernel k s)) (ss_kernel s) -> wp (on_slab_kernel m) Q s.
Proof. unfold wp, on_slab_kernel. by destruct (m (ss_kernel s)) as [[a k]|]. Qed.
Lemma wpr_on_slab {A} (m : M slabs A) (Q : A -> slstate -> Prop) s :
  wp m (fun a v => Q a (set_ss_slab v s)) (ss_slab s) -> wpr (on_slab m) Q s.
Proof. unfold wp, wpr, on_slab, now. by destruct (m (ss_slab s)) as [[a v]|]. Qed.
Lemma wpr_gets_slab {A} (f : slabs -> A) (Q : A -> slstate -> Prop) s : Q (f (ss_slab s)) s -> wpr (on_slab (gets f)) Q s.
Proof. intros H. apply wpr_on_slab. wp1. by destruct s. Qed.
Lemma wpr_lock_heap s (Q : unit -> slstate -> Prop) :
  heap_unlocked s -> (forall k, lock_at (ss_kernel s) k slab_heap_sem 0 -> Q tt (set_ss_kernel k s)) -> wpr lock_heap Q s.
Proof.
  intros Hl HQ. unfold lock_heap. wpr1. apply wpr_await, wp_on_slab_kernel. apply wp_lock_take; [done|]. intros k Hk. wpr1. by apply HQ.
Qed.
Lemma wpr_unlock_heap s0 s v (Q : unit -> slstate -> Prop) :
  heap_unlocked s0 -> sem_at s0 s v -> 0 <= v < 65535 -> (forall k, lock_at (ss_kernel s0) k slab_heap_sem (v + 1) -> Q tt (set_ss_kernel k s)) -> wpr unlock_heap Q s.
Proof.
  intros Hl Hs Hv HQ. unfold unlock_heap. wpr1. wpr1. apply wp_on_slab_kernel. eapply wp_lock_release; [exact Hl|exact Hs|done|].
  intros k Hk. wpr1. by apply HQ.
Qed.
Lemma wpr_locked {A} s (f : M slabs A) (Q : A -> slstate -> Prop) :
  heap_unlocked s -> wp f (fun a v => forall s', sem_at s s' 1 -> ss_slab s' = v -> Q a s') (ss_slab s) -> wpr (locked f) Q s.
Proof.
  intros Hl Hf. unfold locked. wpr1. apply wpr_lock_heap; [done|]. intros k Hk. wpr1. apply wpr_on_slab. eapply wp_mono; [exact Hf|].
  intros a v HQ. wpr1. eapply wpr_unlock_heap; [exact Hl|exact Hk|lia|]. intros k' Hk'. wpr1. by apply HQ.
Qed.

Lemma wpr_page_alloc s rs n (Q : Z -> slstate -> Prop) :
  heap_unlocked s -> page_ok (ss_slab s) rs -> 0 < n ->
  (forall s', page_take n rs = None -> sem_at s s' 1 -> ss_slab s' = ss_slab s -> Q 0 s') ->
  (forall a rs' s', page_take n rs = Some (a, rs') -> sem_at s s' 1 -> page_moved (ss_slab s) (ss_slab s') -> page_ok (ss_slab s') rs' -> Q a s') ->
  wpr (rt_page_alloc n) Q s.
Proof.
  intros Hl H Hn HN HS. unfold rt_page_alloc. destruct (Z.eqb_spec n 0); [lia|]. apply wpr_locked; [done|].
  eapply wp_page_alloc_section; [exact H|done|..].
  - intros Et s' Hs E. by apply HN.
  - intros a rs' v Et Hm Hok s' Hs <-. by eapply HS.
Qed.
Lemma page_base (s : slabs) rs a n : page_ok s rs -> freeable s rs a n -> a <> 0.
Proof. intros [_ _ H] [_ _ F _]. lia. Qed.
Lemma wpr_page_free s rs a n (Q : unit -> slstate -> Prop) :
  heap_unlocked s -> page_ok (ss_slab s) rs -> freeable (ss_slab s) rs a n ->
  (forall s', sem_at s s' 1 -> page_moved (ss_slab s) (ss_slab s') -> page_ok (ss_slab s') (page_give a n rs) -> Q tt s') ->
  wpr (rt_page_free a n) Q s.
Proof.
  intros Hl H Hf HQ. pose proof (page_base _ _ _ _ H Hf) as Hne. pose proof Hf as [F1 F2 F3 F4]. unfold rt_page_free.
  wpr1. wpr1. wp1; [by apply Z.eqb_neq in Hne as ->|]. wpr1. wpr1. wp1; [by apply Z.eqb_eq|]. wpr1. wpr1. wp1; [by destruct (Z.eqb_spec n 0); [lia|]|].
  apply wpr_locked; [done|]. eapply wp_page_free_section; [exact H|exact Hf|]. intros v Hm Hok s' Hs <-. by apply HQ.
Qed.

(** With the heap unlocked, rt_page_alloc does not wait and returns the start of the first
    run of free pages that is long enough, or RT_NULL with the heap as it was when there is
    none; only heads of free runs are written, and the heap is unlocked again. *)
Theorem rt_page_alloc_refines s rs n :
  heap_unlocked s -> page_ok (ss_slab s) rs -> 0 < n ->
  exists r s', rt_page_alloc n s = Some (Done r, s') /\ sem_at s s' 1 /\ page_moved (ss_slab s) (ss_slab s') /\
    match page_take n rs with
    | Some (a, rs') => r = a /\ page_ok (ss_slab s') rs'
    | None => r = 0 /\ ss_slab s' = ss_slab s
    end.
Proof.
  intros Hl H Hn. assert (wpr (rt_page_alloc n) (fun r s' => sem_at s s' 1 /\ page_moved (ss_slab s) (ss_slab s') /\
    match page_take n rs with Some (a, rs') => r = a /\ page_ok (ss_slab s') rs' | None => r = 0 /\ ss_slab s' = ss_slab s end) s) as Hw.
  { eapply wpr_page_alloc; [done..| |].
    - intros s' -> Hs ->. split_and!; try done. apply page_moved_refl.
    - intros a rs' s' -> Hs Hm Hok. done. }
  apply wpr_run in Hw as (r & s' & E & Hr). by exists r, s'.
Qed.
(** C13 What rt_page_alloc returns is page-aligned, inside the heap, and was free; the other free
    pages stay free, and rt_page_free gives the runs of before back. *)
Theorem rt_page_alloc_free s rs n a s1 :
  heap_unlocked s -> page_ok (ss_slab s) rs -> 0 < n -> rt_page_alloc n s = Some (Done a, s1) -> a <> 0 ->
  a mod PAGE = 0 /\ heap_start (ss_slab s) <= a /\ a + n * PAGE <= heap_end (ss_slab s) /\
  exists rs1, page_ok (ss_slab s1) rs1 /\ (forall x, page_free_at rs x <-> page_free_at rs1 x \/ a <= x < a + n * PAGE) /\
    (forall x, page_free_at rs1 x -> ~ a <= x < a + n * PAGE) /\
    exists s2, rt_page_free a n s1 = Some (Done tt, s2) /\ sem_at s s2 1 /\ page_ok (ss_slab s2) rs.
Proof.
  intros Hl H Hn E Ha. assert (wpr (rt_page_alloc n) (fun a s1 => a <> 0 -> a mod PAGE = 0 /\ heap_start (ss_slab s) <= a /\ a + n * PAGE <= heap_end (ss_slab s) /\
    exists rs1, page_ok (ss_slab s1) rs1 /\ (forall x, page_free_at rs x <-> page_free_at rs1 x \/ a <= x < a + n * PAGE) /\
    (forall x, page_free_at rs1 x -> ~ a <= x < a + n * PAGE) /\
    exists s2, rt_page_free a n s1 = Some (Done tt, s2) /\ sem_at s s2 1 /\ page_ok (ss_slab s2) rs) s) as Hw.
  { eapply wpr_page_alloc; [done..| |]; [by intros|]. clear a s1 E Ha. intros a rs1 s1 Et Hs Hm Hok _. pose proof (po_apart _ _ H) as Hap.
    destruct (page_take_apart _ _ _ _ _ _ Hn Hap Et) as [_ Hlo]. destruct (page_take_clear _ _ _ _ _ _ Hn Hap Et) as (Hc & Hal & Hhi).
    split_and!; [done|lia|done|]. exists rs1. split_and!; [done|by intros x; eapply page_take_free| |].
    - intros x Hx Hin. unfold page_free_at in Hx. apply Exists_exists in Hx as (r & Hr & Hxr). eapply Forall_forall in Hc; [|exact Hr]. unfold in_run in Hxr. lia.
    - assert (wpr (rt_page_free a n) (fun _ s2 => sem_at s s2 1 /\ page_ok (ss_slab s2) rs) s1) as Hw.
      { eapply wpr_page_free; [by eapply sem_at_unlocked|exact Hok| |].
        - destruct (page_moved_heap _ _ Hm) as [E1 E2]. split; rewrite ?E1, ?E2; try done. lia.
        - intros s2 Hs2 _ Hok2. rewrite (page_give_take _ _ _ _ _ _ Hn Hap Et) in Hok2. split; [by eapply sem_at_trans|done]. }
      apply wpr_run in Hw as ([] & s2 & E2 & Hr). by exists s2. }
  unfold wpr in Hw. rewrite E in Hw. by apply Hw.
Qed.
(** rt_page_free makes the pages free again, joined with the free runs that touch them; only
    heads of free runs are written. *)
Theorem rt_page_free_refines s rs a n :
  heap_unlocked s -> page_ok (ss_slab s) rs -> freeable (ss_slab s) rs a n ->
  exists s', rt_page_free a n s = Some (Done tt, s') /\ sem_at s s' 1 /\ page_moved (ss_slab s) (ss_slab s') /\
    page_ok (ss_slab s') (page_give a n rs) /\ forall x, page_free_at (page_give a n rs) x <-> a <= x < a + n * PAGE \/ page_free_at rs x.
Proof.
  intros Hl H Hf. assert (wpr (rt_page_free a n) (fun _ s' => sem_at s s' 1 /\ page_moved (ss_slab s) (ss_slab s') /\
    page_ok (ss_slab s') (page_give a n rs)) s) as Hw by (eapply wpr_page_free; eauto).
  apply wpr_run in Hw as ([] & s' & E & H1 & H2 & H3). exists s'. split_and!; try done. intros x. eapply page_give_free; [by apply Hf|by apply H].
Qed.
End calls.
