(* ===== verification/SlabSpec.v ===== *)
(** The slab allocator refines a map from page runs to their uses: zones of chunks of one
    size, spare zones, blocks of whole pages and the table of page uses.  What a use grants
    is disjoint from everything else. *)
From stdpp Require Import gmap.
From S2P Require Import Prelude RtList Kservice MemOps Kernel Scheduler Object TimerCore Invariant Thread Timer Ipc Semaphore Lock Resume Slab PageSpec.

(** *** Chunk sizes *)
(** The size of the chunks of the zones with index [zi]. *)
Definition chunk_of (zi : Z) : Z :=
  if zi <? 16 then (zi + 1) * 8
  else if zi <? 24 then (zi - 7) * 16
  else if zi <? 32 then (zi - 15) * 32
  else if zi <? 40 then (zi - 23) * 64
  else if zi <? 48 then (zi - 31) * 128
  else if zi <? 56 then (zi - 39) * 256
  else if zi <? 64 then (zi - 47) * 512
  else (zi - 55) * 1024.
(** A check of [n] numbers from [x] on. *)
Fixpoint check_from (f : Z -> bool) (n : nat) (x : Z) : bool :=
  match n with O => true | S n => f x && check_from f n (x + 1) end.
Lemma check_from_spec f n : forall lo x, check_from f n lo = true -> lo <= x < lo + Z.of_nat n -> f x = true.
Proof.
  induction n as [|n IH]; intros lo x; cbn [check_from]; [lia|]. intros [H1 H2]%andb_true_iff Hx. destruct (decide (x = lo)) as [->|]; [done|].
  apply (IH (lo + 1)); [done|lia].
Qed.

(** The size of a request determines the index of its zone, and the index the size of the
    chunk, which is a multiple of 8, at least the request, and larger by less than 8 bytes or
    an eighth of it. *)
Theorem zoneindex_spec n : 0 < n < 16384 ->
  exists zi, zoneindex n = (zi, chunk_of zi) /\ 0 <= zi < NZONES /\ n <= chunk_of zi <= 16384 /\ chunk_of zi mod 8 = 0 /\
    (chunk_of zi - n < 8 \/ 8 * (chunk_of zi - n) < n).
Proof.
  intros Hn. pose (f := fun n => let '(zi, c) := zoneindex n in
    (c =? chunk_of zi) && (0 <=? zi) && (zi <? NZONES) && (n <=? c) && (c <=? 16384) && (c mod 8 =? 0) && ((c - n <? 8) || (8 * (c - n) <? n))).
  assert (f n = true) as H by (apply (check_from_spec f (Z.to_nat 16383) 1); [vm_compute; reflexivity|lia]).
  unfold f in H. destruct (zoneindex n) as [zi c]. rewrite !andb_true_iff, orb_true_iff in H.
  destruct H as [[[[[[->%Z.eqb_eq H1] H2] H3] H4] H5%Z.eqb_eq] H6]. exists zi. split_and!; try done; lia.
Qed.
(** Where chunks start in a zone, and that there is room for them. *)
Lemma chunk_geometry zi : 0 <= zi < NZONES ->
  8 <= chunk_of zi <= 16384 /\ chunk_of zi mod 8 = 0 /\ SIZEOF_SLAB_ZONE <= chunk_offset (chunk_of zi) <= Z.max 64 (chunk_of zi) /\ chunk_offset (chunk_of zi) mod 8 = 0.
Proof.
  intros Hz. pose (f := fun zi => (8 <=? chunk_of zi) && (chunk_of zi <=? 16384) && (chunk_of zi mod 8 =? 0) &&
    (SIZEOF_SLAB_ZONE <=? chunk_offset (chunk_of zi)) && (chunk_offset (chunk_of zi) <=? Z.max 64 (chunk_of zi)) && (chunk_offset (chunk_of zi) mod 8 =? 0)).
  assert (f zi = true) as H by (apply (check_from_spec f 72 0); [vm_compute; reflexivity|exact Hz]).
  unfold f in H. rewrite !andb_true_iff in H. destruct H as [[[[[H1 H2] H3%Z.eqb_eq] H4] H5] H6%Z.eqb_eq]. split_and!; try done; lia.
Qed.
(** A chunk whose size is a power of two starts at a multiple of it in its zone. *)
Lemma chunk_offset_pow2 k : 3 <= k <= 14 -> chunk_offset (2 ^ k) mod 2 ^ k = 0.
Proof.
  intros Hk. pose (f := fun k => chunk_offset (2 ^ k) mod 2 ^ k =? 0).
  assert (f k = true) as H by (apply (check_from_spec f 12 3); [vm_compute; reflexivity|lia]). by apply Z.eqb_eq in H.
Qed.

(** *** Uses of pages *)
(** A zone: its index, the number of the last chunk that was used once, the freed chunks. *)
Record zone_view := mk_zv { zv_index : Z; zv_fresh : Z; zv_freed : list Z }.
Inductive use := UZone (v : zone_view) | USpare | ULarge (n : Z) | UTable (n : Z).
(** The whole heap: the size of its zones, the free runs, the uses of the others by their first
    page, the lists of zones with a free chunk, and the list of spare zones. *)
Record slab_view := mk_sv {
  sv_zsize : Z;
  sv_runs : list run;
  sv_uses : gmap Z use;
  sv_lists : Z -> list Z;
  sv_spare : list Z
}.
Section view.
Context (zs : Z).
Definition zone_pages : Z := zs / PAGE.
Definition use_pages (u : use) : Z := match u with UZone _ | USpare => zone_pages | ULarge n | UTable n => n end.
Definition zv_size (v : zone_view) : Z := chunk_of (zv_index v).
Definition zv_offset (v : zone_view) : Z := chunk_offset (zv_size v).
Definition zv_nmax (v : zone_view) : Z := (zs - zv_offset v) / zv_size v.
Definition zv_avail (v : zone_view) : Z := zv_nmax v - 1 - zv_fresh v + Z.of_nat (length (zv_freed v)).
(** The chunk number [i] of the zone [z]. *)
Definition chunk_at (z : Z) (v : zone_view) (i : Z) : Z := z + zv_offset v + i * zv_size v.
(** The bytes a use grants. *)
Definition use_bytes (u : use) : Z :=
  match u with
  | UZone v => zv_size v * (zv_fresh v + 1 - Z.of_nat (length (zv_freed v)))
  | ULarge n => n * PAGE
  | USpare | UTable _ => 0
  end.
(** A block of [n] bytes is granted at [a]. *)
Definition grants (p : Z) (u : use) (a n : Z) : Prop :=
  match u with
  | UZone v => n = zv_size v /\ a ∉ zv_freed v /\ exists i, 0 <= i <= zv_fresh v /\ a = chunk_at p v i
  | ULarge k => a = p /\ n = k * PAGE
  | USpare | UTable _ => False
  end.
Definition live (us : gmap Z use) (a n : Z) : Prop := exists p u, us !! p = Some u /\ grants p u a n.
Definition live_bytes (us : gmap Z use) : Z := map_fold (fun _ u n => use_bytes u + n) 0 us.
(** A zone is well formed. *)
Record zone_ok (z : Z) (v : zone_view) : Prop := {
  zo_index : 0 <= zv_index v < NZONES;
  zo_small : zv_size v <= zone_limit_of zs;
  zo_fresh : 0 <= zv_fresh v < zv_nmax v;
  zo_nodup : NoDup (zv_freed v);
  zo_freed : forall x, x ∈ zv_freed v -> exists i, 0 <= i <= zv_fresh v /\ x = chunk_at z v i
}.

(** *** Regions *)
(** The [n] pages from [a] on are in the heap, and neither free nor used. *)
Record spot (s : slabs) (rs : list run) (us : gmap Z use) (a n : Z) : Prop := {
  sp_free : freeable s rs a n;
  sp_uses : forall b u, us !! b = Some u -> a + n * PAGE <= b \/ b + use_pages u * PAGE <= a
}.
Definition spots (s : slabs) (rs : list run) (us : gmap Z use) : Prop :=
  forall a u, us !! a = Some u -> spot s rs (delete a us) a (use_pages u).
End view.

Section regions.
Context (zs : Z).
Implicit Types (s : slabs) (us : gmap Z use).
Lemma clear_of_free lo hi a n rs : apart lo rs hi -> 0 < n -> clear_of a n rs <-> forall x, a <= x < a + n * PAGE -> ~ page_free_at rs x.
Proof.
  intros Ha Hn. apply apart_ends in Ha. unfold clear_of, page_free_at. rewrite !Forall_forall in *. split.
  - intros Hc x Hx (r & Hr & Hxr)%Exists_exists. specialize (Hc r Hr). unfold in_run in Hxr. lia.
  - intros Hc r Hr. destruct (Ha r Hr) as (H1 & H2 & H3). destruct (decide (run_end r <= a)); [by left|]. right.
    destruct (decide (a + n * PAGE <= r.1)); [done|]. exfalso. apply (Hc (Z.max a r.1)); [unfold RT_MM_PAGE_SIZE in *; lia|].
    apply Exists_exists. exists r. split; [done|]. unfold in_run. unfold RT_MM_PAGE_SIZE in *. lia.
Qed.
Lemma spot_uses_pos s rs us a u : spots zs s rs us -> us !! a = Some u -> 0 < use_pages zs u.
Proof. intros H Hu. by apply (H a u Hu). Qed.
Lemma spot_none s rs us a n : spots zs s rs us -> spot zs s rs us a n -> us !! a = None.
Proof.
  intros H [[Hn _ _ _] Hs]. apply eq_None_not_Some. intros (u & Hu). pose proof (spot_uses_pos _ _ _ _ _ H Hu) as Hp. specialize (Hs _ _ Hu).
  unfold RT_MM_PAGE_SIZE in *. lia.
Qed.
Lemma spots_insert s rs us a u : spots zs s rs us -> spot zs s rs us a (use_pages zs u) -> spots zs s rs (<[a := u]> us).
Proof.
  intros H Hs b w Hb. pose proof (spot_none _ _ _ _ _ H Hs) as Ha. destruct (decide (a = b)) as [->|Hne].
  - rewrite lookup_insert_eq in Hb. injection Hb as <-. by rewrite delete_insert_id.
  - rewrite lookup_insert_ne in Hb by done. rewrite delete_insert_ne by done. destruct (H b w Hb) as [F Hd]. split; [done|].
    intros c x Hc. destruct (decide (a = c)) as [->|Hac].
    + rewrite lookup_insert_eq in Hc. injection Hc as <-. pose proof (sp_uses _ _ _ _ _ _ Hs b w Hb). lia.
    + rewrite lookup_insert_ne in Hc by done. by apply (Hd c x).
Qed.
Lemma spot_mono s rs us us' a n : spot zs s rs us a n -> (forall b u, us' !! b = Some u -> exists u', us !! b = Some u' /\ use_pages zs u' = use_pages zs u) -> spot zs s rs us' a n.
Proof. intros [F Hs] Hm. split; [done|]. intros b u Hb. destruct (Hm b u Hb) as (u' & Hu & <-). by apply Hs. Qed.
Lemma lookup_delete_Some_2 us a b c x : delete b (delete a us) !! c = Some x -> b <> c /\ a <> c /\ us !! c = Some x.
Proof. by rewrite !lookup_delete_Some. Qed.
Lemma spots_delete s rs us a : spots zs s rs us -> spots zs s rs (delete a us).
Proof.
  intros H b w Hb. rewrite lookup_delete_Some in Hb. destruct Hb as [Hne Hb]. eapply spot_mono; [by apply H|].
  intros c x (Hcb & Hca & Hc)%lookup_delete_Some_2. exists x. by rewrite lookup_delete_Some.
Qed.
Lemma spots_replace s rs us a u u' : spots zs s rs us -> us !! a = Some u -> use_pages zs u' = use_pages zs u -> spots zs s rs (<[a := u']> us).
Proof.
  intros H Hu Hp. rewrite <- insert_delete_eq. apply spots_insert; [by apply spots_delete|]. rewrite Hp. by apply H.
Qed.
Lemma freeable_runs s rs rs' lo hi lo' hi' a n : apart lo rs hi -> apart lo' rs' hi' -> freeable s rs a n ->
  (forall x, a <= x < a + n * PAGE -> page_free_at rs' x -> page_free_at rs x) -> freeable s rs' a n.
Proof.
  intros Ha Ha' [F1 F2 F3 F4] Hf. split; try done. eapply clear_of_free; [exact Ha'|done|]. intros x Hx Hx'.
  eapply clear_of_free in F4; [|exact Ha|done|exact Hx]. by apply F4, Hf.
Qed.
Lemma spots_heap s s' rs us : spots zs s rs us -> heap_start s' = heap_start s -> heap_end s' = heap_end s -> spots zs s' rs us.
Proof.
  intros H E1 E2 a u Hu. destruct (H a u Hu) as [[F1 F2 F3 F4] Hs]. split; [split; try done; by rewrite E1, E2|done].
Qed.
Lemma spot_heap s s' rs us a n : spot zs s rs us a n -> heap_start s' = heap_start s -> heap_end s' = heap_end s -> spot zs s' rs us a n.
Proof. intros [[F1 F2 F3 F4] Hs] E1 E2. split; [split; try done; by rewrite E1, E2|done]. Qed.
End regions.

(** *** Lists that end in RT_NULL *)
Fixpoint nlist (next : Z -> Z) (p : Z) (xs : list Z) : Prop :=
  match xs with
  | [] => p = 0
  | x :: xs => p = x /\ x <> 0 /\ nlist next (next x) xs
  end.
Lemma nlist_frame next next' xs : forall p, nlist next p xs -> (forall x, x ∈ xs -> next' x = next x) -> nlist next' p xs.
Proof.
  induction xs as [|x xs IH]; intros p; cbn [nlist]; [done|]. intros (-> & Hx & H) Hf. rewrite Hf by by left. split_and!; try done.
  apply IH; [done|]. intros y Hy. apply Hf. by right.
Qed.
Lemma nlist_upd next p xs y v : nlist next p xs -> y ∉ xs -> nlist (<[y := v]> next) p xs.
Proof. intros H Hy. eapply nlist_frame; [exact H|]. intros x Hx. rewrite upd_ne; [done|]. intros ->. done. Qed.
Lemma nlist_nonzero next p xs : nlist next p xs -> 0 ∉ xs.
Proof. revert p. induction xs as [|x xs IH]; intros p; cbn [nlist]; [by intros _ ?%elem_of_nil|]. intros (_ & Hx & H) [<-|Hy]%elem_of_cons; [done|]. by eapply IH. Qed.
Lemma nlist_head next p xs : nlist next p xs -> p = hd 0 xs.
Proof. destruct xs; cbn; [done|by intros (-> & _)]. Qed.

(** *** The invariant *)
(** A list of zones, which are those that satisfy [P]. *)
Record zone_list (next : Z -> Z) (p : Z) (xs : list Z) (P : Z -> Prop) : Prop := {
  zl_list : nlist next p xs;
  zl_nodup : NoDup xs;
  zl_elem : forall z, z ∈ xs <-> P z
}.
Definition page_index (s : slabs) (a : Z) : Z := (a - heap_start s) / PAGE.
Section invariant.
Context (zs : Z).
Record zone_rep (s : slabs) (z : Z) (v : zone_view) : Prop := {
  zr_ok : zone_ok zs z v;
  zr_header : sl_zones s z = mk_zone ZALLOC_SLAB_MAGIC (zv_avail zs v) (zv_nmax zs v) (z + zv_offset v) (zv_fresh v) (zv_size v) (zv_index v) (z_freechunk (sl_zones s z));
  zr_chunks : nlist (c_next s) (z_freechunk (sl_zones s z)) (zv_freed v)
}.
(** The entries of the pages of a zone. *)
Definition marked (s : slabs) (z : Z) : Prop :=
  forall j, 0 <= j < zone_pages zs -> mu_type s (page_index s z + j) = PAGE_TYPE_SMALL /\ mu_size s (page_index s z + j) = j.
Definition use_rep (s : slabs) (z : Z) (u : use) : Prop :=
  match u with
  | UZone v => zone_rep s z v /\ marked s z
  | USpare => marked s z
  | ULarge n => mu_type s (page_index s z) = PAGE_TYPE_LARGE /\ mu_size s (page_index s z) = n
  | UTable n => memusage s = z
  end.
Definition listed (us : gmap Z use) (zi z : Z) : Prop := exists v, us !! z = Some (UZone v) /\ zv_index v = zi /\ 0 < zv_avail zs v.
End invariant.

Record slab_ok (s : slabs) (V : slab_view) : Prop := {
  so_pages : page_ok s (sv_runs V);
  so_aligned : heap_start s mod PAGE = 0;
  so_zsize : zone_size s = sv_zsize V /\ zone_limit s = zone_limit_of (sv_zsize V) /\ zone_page_cnt s = zone_pages (sv_zsize V);
  so_sizes : sv_zsize V = 2 ^ 15 \/ sv_zsize V = 2 ^ 16 \/ sv_zsize V = 2 ^ 17;
  so_spots : spots (sv_zsize V) s (sv_runs V) (sv_uses V);
  so_uses : forall z u, sv_uses V !! z = Some u -> use_rep (sv_zsize V) s z u;
  so_lists : forall zi, 0 <= zi < NZONES -> zone_list (z_next s) (zone_array s zi) (sv_lists V zi) (listed (sv_zsize V) (sv_uses V) zi);
  so_spare : zone_list (z_next s) (zone_free s) (sv_spare V) (fun z => sv_uses V !! z = Some USpare);
  so_count : zone_free_cnt s = Z.of_nat (length (sv_spare V)) /\ (length (sv_spare V) <= 2)%nat;
  so_used : used_mem s = uint32 (live_bytes (sv_uses V))
}.
Definition set_sv_runs (v : list run) (V : slab_view) : slab_view := mk_sv (sv_zsize V) v (sv_uses V) (sv_lists V) (sv_spare V).
Definition set_sv_uses (v : gmap Z use) (V : slab_view) : slab_view := mk_sv (sv_zsize V) (sv_runs V) v (sv_lists V) (sv_spare V).
Definition set_sv_lists (v : Z -> list Z) (V : slab_view) : slab_view := mk_sv (sv_zsize V) (sv_runs V) (sv_uses V) v (sv_spare V).
Definition set_sv_spare (v : list Z) (V : slab_view) : slab_view := mk_sv (sv_zsize V) (sv_runs V) (sv_uses V) (sv_lists V) v.

(** *** Facts of geometry *)
Section geometry.
Context (zs : Z) (Hzs : zs = 2 ^ 15 \/ zs = 2 ^ 16 \/ zs = 2 ^ 17).
Lemma zone_pages_eq : zone_pages zs * PAGE = zs /\ 8 <= zone_pages zs <= 32.
Proof. by destruct Hzs as [->|[->| ->]]. Qed.
Lemma limit_eq : 8192 <= zone_limit_of zs <= 16384 /\ 4 * zone_limit_of zs <= zs /\ 0 < zs <= 2 ^ 17.
Proof. by destruct Hzs as [->|[->| ->]]. Qed.
Lemma zone_ok_geometry z v : zone_ok zs z v ->
  8 <= zv_size v <= 16384 /\ zv_size v mod 8 = 0 /\ 36 <= zv_offset v /\ zv_offset v mod 8 = 0 /\ 3 <= zv_nmax zs v < 2 ^ 17 /\ zv_offset v + zv_nmax zs v * zv_size v <= zs.
Proof.
  intros [H1 H2 H3 _ _]. destruct (chunk_geometry _ H1) as (G1 & G2 & G3 & G4). pose proof limit_eq as (L1 & L2 & L3). unfold zv_nmax, zv_offset, zv_size, SIZEOF_SLAB_ZONE in *.
  set (c := chunk_of (zv_index v)) in *. set (o := chunk_offset c) in *. pose proof (Z.mul_div_le (zs - o) c).
  assert (3 <= (zs - o) / c) by (apply Z.div_le_lower_bound; lia).
  assert ((zs - o) / c < 2 ^ 17) by (apply Z.div_lt_upper_bound; lia). split_and!; try done; lia.
Qed.
Lemma chunk_at_in z v i : zone_ok zs z v -> 0 <= i < zv_nmax zs v -> z + 36 <= chunk_at z v i /\ chunk_at z v i + zv_size v <= z + zs.
Proof. intros H Hi. pose proof (zone_ok_geometry _ _ H) as (G1 & G2 & G3 & G4 & G5 & G6). unfold chunk_at. nia. Qed.
Lemma chunk_at_inj z v i j : zone_ok zs z v -> chunk_at z v i = chunk_at z v j -> i = j.
Proof. intros H. pose proof (zone_ok_geometry _ _ H) as (G1 & _). unfold chunk_at. intros E. nia. Qed.
Lemma chunk_at_apart z v i j : zone_ok zs z v -> i < j -> chunk_at z v i + zv_size v <= chunk_at z v j.
Proof. intros H. pose proof (zone_ok_geometry _ _ H) as (G1 & _). unfold chunk_at. intros E. nia. Qed.
End geometry.

(** *** The table of page uses *)
Lemma page_of_eq p : page_of p = p / PAGE * PAGE.
Proof.
  unfold page_of, RT_MM_PAGE_MASK, RT_MM_PAGE_SIZE. change (4096 - 1) with (Z.ones 12). rewrite <- Z.ldiff_land, Z.ldiff_ones_r by lia.
  rewrite Z.shiftl_mul_pow2, Z.shiftr_div_pow2 by lia. done.
Qed.
Lemma page_of_aligned p : p mod PAGE = 0 -> page_of p = p.
Proof. intros H. rewrite page_of_eq. unfold RT_MM_PAGE_SIZE in *. pose proof (Z.div_mod p 4096). lia. Qed.
(** An address in the [n] pages from [z] on is in the page number [j] of them. *)
Lemma page_of_in z n p : z mod PAGE = 0 -> z <= p < z + n * PAGE -> exists j, 0 <= j < n /\ page_of p = z + j * PAGE.
Proof.
  intros Hz Hp. rewrite page_of_eq. unfold RT_MM_PAGE_SIZE in *. exists (p / 4096 - z / 4096). pose proof (Z.div_mod z 4096). pose proof (Z.div_mod p 4096). pose proof (Z.mod_pos_bound p 4096). lia.
Qed.
Lemma page_index_add s z j : page_index s (z + j * PAGE) = page_index s z + j.
Proof. unfold page_index, RT_MM_PAGE_SIZE. replace (z + j * 4096 - heap_start s) with (z - heap_start s + j * 4096) by lia. apply Z.div_add. lia. Qed.
Lemma wp_btokup s a (Q : Z -> slabs -> Prop) : 0 <= a - heap_start s < 2 ^ 32 -> Q (page_index s a) s -> wp (btokup a) Q s.
Proof.
  intros Ha HQ. unfold btokup. wp1. rewrite uint_small by done. unfold RT_MM_PAGE_BITS. by rewrite Z.shiftr_div_pow2 by lia.
Qed.

(** *** What is granted *)
Section live.
Context (zs : Z) (Hzs : zs = 2 ^ 15 \/ zs = 2 ^ 16 \/ zs = 2 ^ 17).
Implicit Types (us : gmap Z use).
Lemma live_insert us p u a n : us !! p = None -> live (<[p := u]> us) a n <-> grants p u a n \/ live us a n.
Proof.
  intros Hp. unfold live. split.
  - intros (q & w & [[<- <-]|[Hne Hq]]%lookup_insert_Some & Hg); [by left|right; by exists q, w].
  - intros [Hg|(q & w & Hq & Hg)]; [exists p, u; by rewrite lookup_insert_eq|]. exists q, w. rewrite lookup_insert_ne by congruence. done.
Qed.
Lemma live_delete us p u a n : us !! p = Some u -> live us a n <-> grants p u a n \/ live (delete p us) a n.
Proof. intros Hp. rewrite <- (insert_delete_id us p u Hp) at 1. apply live_insert. apply lookup_delete_eq. Qed.
Lemma live_replace us p u a n : live (<[p := u]> us) a n <-> grants p u a n \/ live (delete p us) a n.
Proof. rewrite <- insert_delete_eq. apply live_insert. apply lookup_delete_eq. Qed.
Lemma live_bytes_insert us p u : us !! p = None -> live_bytes (<[p := u]> us) = use_bytes u + live_bytes us.
Proof. intros Hp. unfold live_bytes. apply (map_fold_insert_L (fun _ u n => use_bytes u + n)); [|done]. intros. lia. Qed.
Lemma live_bytes_delete us p u : us !! p = Some u -> live_bytes us = use_bytes u + live_bytes (delete p us).
Proof. intros Hp. rewrite <- (insert_delete_id us p u Hp) at 1. apply live_bytes_insert. apply lookup_delete_eq. Qed.
Lemma live_bytes_replace us p u w : us !! p = Some w -> live_bytes (<[p := u]> us) = live_bytes us + (use_bytes u - use_bytes w).
Proof. intros Hp. rewrite <- insert_delete_eq, live_bytes_insert by apply lookup_delete_eq. rewrite (live_bytes_delete us p w Hp). lia. Qed.

(** A block is inside the pages of its use. *)
Lemma grants_in s rs us p u a n : spots zs s rs us -> us !! p = Some u -> (forall v, u = UZone v -> zone_ok zs p v) -> grants p u a n ->
  p <= a /\ a + n <= p + use_pages zs u * PAGE /\ 8 <= n /\ a mod 8 = 0.
Proof.
  intros Hs Hp Hz Hg. destruct (Hs p u Hp) as [[F1 F2 F3 F4] _]. pose proof (zone_pages_eq zs Hzs) as [Ez _].
  assert (p mod 8 = 0) as Hp8.
  { unfold RT_MM_PAGE_SIZE in F2. pose proof (Z.div_mod p 4096). rewrite <- (Z.mod_add _ (- (512 * (p / 4096)))) by lia. by replace (p + - (512 * (p / 4096)) * 8) with 0 by lia. }
  destruct u as [v| |k|k]; cbn [grants use_pages] in *; try done.
  - destruct Hg as (-> & _ & i & Hi & ->). specialize (Hz v eq_refl). pose proof (zone_ok_geometry zs Hzs _ _ Hz) as (G1 & G2 & G3 & G4 & G5 & G6).
    destruct (chunk_at_in zs Hzs p v i Hz) as [C1 C2]; [destruct Hz; lia|]. rewrite Ez. split_and!; try lia.
    unfold chunk_at. by rewrite Z.add_mod, (Z.add_mod p), Hp8, G4, Z.mul_mod, G2, Z.mul_0_r by lia.
  - destruct Hg as [-> ->]. split_and!; try done; unfold RT_MM_PAGE_SIZE in *; lia.
Qed.
End live.

(** *** Safety of what is granted *)
Lemma slab_zone_ok s V z v : slab_ok s V -> sv_uses V !! z = Some (UZone v) -> zone_ok (sv_zsize V) z v.
Proof. intros H Hz. by apply (so_uses _ _ H z (UZone v) Hz). Qed.
Lemma slab_grants_in s V p u a n : slab_ok s V -> sv_uses V !! p = Some u -> grants p u a n ->
  p <= a /\ a + n <= p + use_pages (sv_zsize V) u * PAGE /\ 8 <= n /\ a mod 8 = 0.
Proof.
  intros H Hp Hg. eapply grants_in; [apply H|apply H|exact Hp| |exact Hg]. intros v ->. by eapply slab_zone_ok.
Qed.
(** Two uses have no page in common. *)
Lemma slab_uses_apart s V p u q w : slab_ok s V -> sv_uses V !! p = Some u -> sv_uses V !! q = Some w -> p <> q ->
  p + use_pages (sv_zsize V) u * PAGE <= q \/ q + use_pages (sv_zsize V) w * PAGE <= p.
Proof. intros H Hp Hq Hne. apply (sp_uses _ _ _ _ _ _ (so_spots _ _ H p u Hp)). by rewrite lookup_delete_ne. Qed.
(** A granted block and any chunk of a zone that is not that block. *)
Lemma grants_chunk s V p u a n z v i : slab_ok s V -> sv_uses V !! p = Some u -> grants p u a n -> sv_uses V !! z = Some (UZone v) -> 0 <= i <= zv_fresh v ->
  a <> chunk_at z v i -> a + n <= chunk_at z v i \/ chunk_at z v i + zv_size v <= a.
Proof.
  intros H Hp Hg Hz Hi Hne. pose proof (slab_grants_in _ _ _ _ _ _ H Hp Hg) as (I1 & I2 & _). pose proof (slab_zone_ok _ _ _ _ H Hz) as Ho. pose proof (so_sizes _ _ H) as Hzs.
  destruct (chunk_at_in _ Hzs z v i Ho) as [C1 C2]; [destruct Ho; lia|]. pose proof (zone_pages_eq _ Hzs) as [Ez _]. destruct (decide (p = z)) as [->|Hpz].
  - rewrite Hz in Hp. injection Hp as <-. destruct Hg as (-> & _ & j & Hj & ->).
    destruct (decide (j < i)); [left; by eapply chunk_at_apart|]. destruct (decide (i < j)); [right; by eapply chunk_at_apart|].
    exfalso. apply Hne. by replace i with j by lia.
  - destruct (slab_uses_apart _ _ _ _ _ _ H Hp Hz Hpz); cbn [use_pages] in *; lia.
Qed.
(** Two granted blocks are the same or apart. *)
Lemma slab_live_apart s V a n b m : slab_ok s V -> live (sv_uses V) a n -> live (sv_uses V) b m -> a = b /\ n = m \/ a + n <= b \/ b + m <= a.
Proof.
  intros H (p & u & Hp & Hg) (q & w & Hq & Hb). pose proof (slab_grants_in _ _ _ _ _ _ H Hp Hg) as (I1 & I2 & I3 & I4).
  pose proof (slab_grants_in _ _ _ _ _ _ H Hq Hb) as (J1 & J2 & J3 & J4). destruct (decide (p = q)) as [->|Hne].
  - rewrite Hq in Hp. injection Hp as ->. destruct u as [v| |k|k]; try done.
    + destruct (decide (a = b)) as [->|Hab]; [left; split; [done|]; by destruct Hg as (-> & _), Hb as (-> & _)|right].
      pose proof Hb as (-> & _ & i & Hi & Eb). rewrite Eb in Hab |- *. exact (grants_chunk _ _ _ _ _ _ _ _ _ H Hq Hg Hq Hi Hab).
    + destruct Hg as [-> ->], Hb as [-> ->]. by left.
  - right. pose proof (slab_uses_apart _ _ _ _ _ _ H Hp Hq Hne). lia.
Qed.
(** C12 Every granted block is 8-byte aligned and inside the heap, and shares no byte with a
    free page, the header of a zone, a freed chunk, the table of page uses or another granted
    block: what the owner of a block writes never reaches the allocator or another owner. *)
Theorem slab_blocks_safe s V a n : slab_ok s V -> live (sv_uses V) a n ->
  a mod 8 = 0 /\ heap_start s <= a /\ a + n <= heap_end s /\
  (forall x, a <= x < a + n -> ~ page_free_at (sv_runs V) x) /\
  (forall z v, sv_uses V !! z = Some (UZone v) -> a + n <= z \/ z + SIZEOF_SLAB_ZONE <= a) /\
  (forall z v x, sv_uses V !! z = Some (UZone v) -> x ∈ zv_freed v -> a + n <= x \/ x + zv_size v <= a) /\
  (forall t k, sv_uses V !! t = Some (UTable k) -> a + n <= t \/ t + k * PAGE <= a) /\
  (forall b m, live (sv_uses V) b m -> a = b /\ n = m \/ a + n <= b \/ b + m <= a).
Proof.
  intros H (p & u & Hp & Hg). pose proof (slab_grants_in _ _ _ _ _ _ H Hp Hg) as (I1 & I2 & I3 & I4). destruct (so_spots _ _ H p u Hp) as [[F1 F2 F3 F4] _].
  pose proof (so_sizes _ _ H) as Hzs. split_and!; try lia.
  - intros x Hx Hf. eapply clear_of_free in F4; [by apply F4|apply H|done|lia].
  - intros z v Hz. unfold SIZEOF_SLAB_ZONE. destruct (decide (p = z)) as [->|Hne].
    + rewrite Hz in Hp. injection Hp as <-. destruct Hg as (-> & _ & i & Hi & ->). right.
      pose proof (slab_zone_ok _ _ _ _ H Hz) as Ho. destruct (chunk_at_in _ Hzs z v i Ho); [destruct Ho; lia|lia].
    + pose proof (slab_uses_apart _ _ _ _ _ _ H Hp Hz Hne). pose proof (zone_pages_eq _ Hzs). cbn [use_pages] in *. unfold RT_MM_PAGE_SIZE in *. lia.
  - intros z v x Hz Hx. pose proof (slab_zone_ok _ _ _ _ H Hz) as Ho. destruct (zo_freed _ _ _ Ho x Hx) as (i & Hi & ->).
    apply (grants_chunk s V p u a n z v i H Hp Hg Hz Hi). intros ->. destruct (decide (p = z)) as [->|Hne].
    + rewrite Hz in Hp. injection Hp as <-. by destruct Hg as (_ & Hg & _).
    + pose proof (slab_uses_apart _ _ _ _ _ _ H Hp Hz Hne). destruct (chunk_at_in _ Hzs z v i Ho); [destruct Ho; lia|].
      pose proof (zone_pages_eq _ Hzs). pose proof (zone_ok_geometry _ Hzs _ _ Ho). cbn [use_pages] in *. lia.
  - intros t k Ht. destruct (decide (p = t)) as [->|Hne]; [rewrite Ht in Hp; injection Hp as <-; by destruct Hg|].
    pose proof (slab_uses_apart _ _ _ _ _ _ H Hp Ht Hne). cbn [use_pages] in *. lia.
  - intros b m Hb. eapply slab_live_apart; [exact H|by exists p, u|exact Hb].
Qed.
