(* ===== verification/SlabMalloc.v ===== *)
(** The critical sections of rt_malloc in src/slab.c keep the invariant of the slab allocator:
    a chunk of a zone that has one, a new zone, the table of page uses. *)
From stdpp Require Import gmap.
From S2P Require Import Prelude RtList Kservice MemOps Kernel Scheduler Object TimerCore Invariant Thread Timer Ipc Semaphore Lock Resume Slab PageSpec SlabSpec.

(** *** Lists of zones *)
Lemma zone_list_ext next next' p xs P P' : zone_list next p xs P -> (forall x, x ∈ xs -> next' x = next x) -> (forall z, P' z <-> P z) -> zone_list next' p xs P'.
Proof. intros [L1 L2 L3] Hf HP. split; [by eapply nlist_frame|done|]. intros z. by rewrite L3, HP. Qed.
Lemma zone_list_push next next' p z xs P P' : zone_list next p xs P -> z <> 0 -> z ∉ xs -> next' z = p -> (forall x, x ∈ xs -> next' x = next x) ->
  (forall y, P' y <-> y = z \/ P y) -> zone_list next' z (z :: xs) P'.
Proof.
  intros [L1 L2 L3] Hz Hx Hn Hf HP. split; [|by apply NoDup_cons|intros y; rewrite elem_of_cons, L3, HP; done].
  cbn. rewrite Hn. split_and!; try done. by eapply nlist_frame.
Qed.
Lemma zone_list_pop next next' p z xs P P' : zone_list next p (z :: xs) P -> (forall x, x ∈ xs -> next' x = next x) ->
  (forall y, P' y <-> y <> z /\ P y) -> p = z /\ zone_list next' (next z) xs P'.
Proof.
  intros [(L1 & L2 & L3) [L4 L5]%NoDup_cons L6] Hf HP. split; [done|]. split; [by eapply nlist_frame|done|].
  intros y. rewrite HP, <- L6, elem_of_cons. split; [intros Hy; split; [by intros ->|by right]|intros (? & [|]); done].
Qed.
Section listed.
Context (zs : Z).
Implicit Types (us : gmap Z use).
Lemma listed_insert us z u zi y : listed zs (<[z := u]> us) zi y <->
  y = z /\ (exists v, u = UZone v /\ zv_index v = zi /\ 0 < zv_avail zs v) \/ y <> z /\ listed zs us zi y.
Proof.
  unfold listed. split.
  - intros (v & [[<- ->]|[Hne Hl]]%lookup_insert_Some & Hi & Ha); [left|right]; (split; [done|]); by exists v.
  - intros [[-> (v & -> & Hi & Ha)]|[Hne (v & Hl & Hi & Ha)]]; exists v; [by rewrite lookup_insert_eq|by rewrite lookup_insert_ne].
Qed.
Lemma listed_delete us z zi y : listed zs (delete z us) zi y <-> y <> z /\ listed zs us zi y.
Proof. unfold listed. setoid_rewrite lookup_delete_Some. naive_solver. Qed.
End listed.

(** *** Steps on one zone *)
(** Only the zone [z], its chunks, the lists of zones and the counters of bytes change. *)
Record zone_step (zs : Z) (s s' : slabs) (z : Z) : Prop := {
  zp_pages : pg_next s' = pg_next s /\ pg_page s' = pg_page s /\ rt_page_list s' = rt_page_list s;
  zp_heap : heap_start s' = heap_start s /\ heap_end s' = heap_end s;
  zp_size : zone_size s' = zone_size s /\ zone_limit s' = zone_limit s /\ zone_page_cnt s' = zone_page_cnt s;
  zp_usage : mu_type s' = mu_type s /\ mu_size s' = mu_size s /\ memusage s' = memusage s;
  zp_zones : forall y, y <> z -> sl_zones s' y = sl_zones s y;
  zp_chunks : forall x, ~ z <= x < z + zs -> c_next s' x = c_next s x;
  zp_bytes : sl_bytes s' = sl_bytes s
}.
Lemma page_ok_frame s s' rs : pg_next s' = pg_next s -> pg_page s' = pg_page s -> rt_page_list s' = rt_page_list s ->
  heap_start s' = heap_start s -> heap_end s' = heap_end s -> page_ok s rs -> page_ok s' rs.
Proof.
  intros E1 E2 E3 E4 E5 [H1 H2 H3]. split; rewrite ?E3, ?E4, ?E5; try done.
  eapply page_runs_frame; [exact H1|exact H2|]. intros x _. by rewrite E1, E2.
Qed.
Lemma marked_frame zs s s' z : marked zs s z -> heap_start s' = heap_start s -> mu_type s' = mu_type s -> mu_size s' = mu_size s -> marked zs s' z.
Proof. intros H E1 E2 E3. unfold marked, page_index in *. by rewrite E1, E2, E3. Qed.
Lemma zone_rep_frame zs s s' z v : zone_rep zs s z v -> sl_zones s' z = sl_zones s z -> (forall x, x ∈ zv_freed v -> c_next s' x = c_next s x) -> zone_rep zs s' z v.
Proof. intros [H1 H2 H3] E Hf. split; rewrite ?E; try done. by eapply nlist_frame. Qed.

(** The use of the pages of [z] may change; the lists and the counter are the caller's. *)
Lemma slab_ok_at s s' V z us lists spare : let zs := sv_zsize V in
  slab_ok s V -> zone_step zs s s' z -> (forall y, y <> z -> us !! y = sv_uses V !! y) -> spot zs s (sv_runs V) (delete z us) z (zone_pages zs) ->
  spots zs s (sv_runs V) us -> (forall u, us !! z = Some u -> use_rep zs s' z u) ->
  (forall zi, 0 <= zi < NZONES -> zone_list (z_next s') (zone_array s' zi) (lists zi) (listed zs us zi)) ->
  zone_list (z_next s') (zone_free s') spare (fun y => us !! y = Some USpare) ->
  zone_free_cnt s' = Z.of_nat (length spare) /\ (length spare <= 2)%nat -> used_mem s' = uint32 (live_bytes us) ->
  slab_ok s' (mk_sv zs (sv_runs V) us lists spare).
Proof.
  intros zs. subst zs. intros H [(A1 & A2 & A3) (B1 & B2) (C1 & C2 & C3) (D1 & D2 & D3) E F _] Hus Hp Hs Hu Hl Hf Hc Hb. destruct H as [S1 S2 S3 S4 S5 S6 S7 S8 S9 S10].
  split; cbn [sv_zsize sv_runs sv_uses sv_lists sv_spare]; try done.
  - by apply (page_ok_frame s).
  - by rewrite B1.
  - by rewrite C1, C2, C3.
  - by apply (spots_heap _ s).
  - intros y w Hy. destruct (decide (y = z)) as [->|Hne]; [by apply Hu|].
    pose proof Hy as Hy'. rewrite Hus in Hy by done. specialize (S6 y w Hy). destruct w as [v| |n|n]; cbn [use_rep] in *.
    + destruct S6 as [Hr Hm]. split; [|by apply (marked_frame _ s)]. apply (zone_rep_frame _ s); [done|by apply E|]. intros x Hx. apply F.
      destruct (zo_freed _ _ _ (zr_ok _ _ _ _ Hr) x Hx) as (i & Hi & ->). destruct (chunk_at_in _ S4 y v i (zr_ok _ _ _ _ Hr)) as [G1 G2]; [destruct (zr_ok _ _ _ _ Hr); lia|].
      pose proof (zone_ok_geometry _ S4 _ _ (zr_ok _ _ _ _ Hr)) as (G3 & _). pose proof (zone_pages_eq _ S4) as [G4 _].
      destruct (sp_uses _ _ _ _ _ _ Hp y (UZone v)) as [G5|G5]; [by rewrite lookup_delete_ne by done| |cbn [use_pages] in G5]; rewrite G4 in G5; lia.
    + by apply (marked_frame _ s).
    + unfold page_index. by rewrite B1, D1, D2.
    + by rewrite D3.
Qed.
Lemma slab_ok_use s s' V z u lists spare : let zs := sv_zsize V in let us := <[z := u]> (sv_uses V) in
  slab_ok s V -> zone_step zs s s' z -> use_pages zs u = zone_pages zs -> spots zs s (sv_runs V) us -> use_rep zs s' z u ->
  (forall zi, 0 <= zi < NZONES -> zone_list (z_next s') (zone_array s' zi) (lists zi) (listed zs us zi)) ->
  zone_list (z_next s') (zone_free s') spare (fun y => us !! y = Some USpare) ->
  zone_free_cnt s' = Z.of_nat (length spare) /\ (length spare <= 2)%nat -> used_mem s' = uint32 (live_bytes us) ->
  slab_ok s' (mk_sv zs (sv_runs V) us lists spare).
Proof.
  intros zs us H Hstep Hp Hs Hu Hl Hf Hc Hb. apply (slab_ok_at s s' V z); try done.
  - intros y Hne. unfold us. by rewrite lookup_insert_ne.
  - fold zs. rewrite <- Hp. apply Hs. apply lookup_insert_eq.
  - intros w Hw. unfold us in Hw. rewrite lookup_insert_eq in Hw. by injection Hw as <-.
Qed.
(** How a changed zone changes what is granted and its bytes. *)
Lemma used_after n m : uint32 (uint32 n + m) = uint32 (n + m).
Proof. unfold uint. by rewrite Zplus_mod_idemp_l. Qed.

(** *** Granting *)
(** The zones in use stay in use, for chunks of the same size. *)
Definition zones_kept (us us' : gmap Z use) : Prop :=
  forall z v, us !! z = Some (UZone v) -> exists v', us' !! z = Some (UZone v') /\ zv_index v' = zv_index v.
Lemma zones_kept_refl us : zones_kept us us.
Proof. intros z v Hz. by exists v. Qed.
Lemma zones_kept_insert us z u : us !! z = None -> zones_kept us (<[z := u]> us).
Proof. intros Hz y v Hy. exists v. rewrite lookup_insert_ne; [done|]. intros ->. congruence. Qed.
(** The block of [n] bytes at [a] is granted, and nothing else changes for the owners. *)
Record slab_grant (s s' : slabs) (V V' : slab_view) (a n : Z) : Prop := {
  sg_ok : slab_ok s' V';
  sg_live : forall b m, live (sv_uses V') b m <-> live (sv_uses V) b m \/ b = a /\ m = n;
  sg_new : forall m, ~ live (sv_uses V) a m;
  sg_heap : heap_start s' = heap_start s /\ heap_end s' = heap_end s /\ sv_zsize V' = sv_zsize V;
  sg_bytes : sl_bytes s' = sl_bytes s;
  sg_zones : zones_kept (sv_uses V) (sv_uses V')
}.
(** What lies in a zone belongs to no other use. *)
Lemma zone_not_elsewhere s V z u a : slab_ok s V -> spot (sv_zsize V) s (sv_runs V) (delete z (sv_uses V)) z (use_pages (sv_zsize V) u) ->
  z <= a < z + use_pages (sv_zsize V) u * PAGE -> forall m, ~ live (delete z (sv_uses V)) a m.
Proof.
  intros H [_ Hs] Ha m (p & w & Hp & Hg). specialize (Hs p w Hp). apply lookup_delete_Some in Hp as [Hne Hp].
  pose proof (slab_grants_in _ _ _ _ _ _ H Hp Hg) as (I1 & I2 & I3 & _). lia.
Qed.
(** A chunk that was never used or has been freed. *)
Lemma chunk_not_live s V z v i : slab_ok s V -> sv_uses V !! z = Some (UZone v) -> 0 <= i < zv_nmax (sv_zsize V) v ->
  zv_fresh v < i \/ chunk_at z v i ∈ zv_freed v -> forall m, ~ live (sv_uses V) (chunk_at z v i) m.
Proof.
  intros H Hz Hi Hc m Hl. apply (live_delete _ _ _ _ _ Hz) in Hl as [(-> & Hn & j & Hj & E)|Hl].
  - pose proof (slab_zone_ok _ _ _ _ H Hz) as Ho. destruct Hc as [Hc|Hc]; [|done].
    apply (chunk_at_inj _ (so_sizes _ _ H) _ _ _ _ Ho) in E. lia.
  - pose proof (slab_zone_ok _ _ _ _ H Hz) as Ho. destruct (chunk_at_in _ (so_sizes _ _ H) z v i Ho Hi) as [C1 C2].
    pose proof (zone_ok_geometry _ (so_sizes _ _ H) _ _ Ho) as (G1 & _). pose proof (zone_pages_eq _ (so_sizes _ _ H)) as [Ez _].
    eapply (zone_not_elsewhere s V z (UZone v)); [done|by apply (so_spots _ _ H)| |exact Hl]. cbn [use_pages]. lia.
Qed.
(** The zone after a chunk is taken, and the chunk. *)
Definition zv_take (zs z : Z) (v : zone_view) : zone_view * Z :=
  if zv_fresh v + 1 =? zv_nmax zs v then (mk_zv (zv_index v) (zv_fresh v) (tl (zv_freed v)), hd 0 (zv_freed v))
  else (mk_zv (zv_index v) (zv_fresh v + 1) (zv_freed v), chunk_at z v (zv_fresh v + 1)).
Record zone_take (zs z : Z) (v v' : zone_view) (a : Z) : Prop := {
  zt_ok : zone_ok zs z v';
  zt_index : zv_index v' = zv_index v;
  zt_avail : zv_avail zs v' = zv_avail zs v - 1;
  zt_bytes : use_bytes (UZone v') = use_bytes (UZone v) + zv_size v;
  zt_chunk : exists i, a = chunk_at z v i /\ 0 <= i < zv_nmax zs v /\ (zv_fresh v < i \/ chunk_at z v i ∈ zv_freed v);
  zt_grants : forall b m, grants z (UZone v') b m <-> grants z (UZone v) b m \/ b = a /\ m = zv_size v
}.
Lemma grants_index z v v' a n : zv_index v' = zv_index v ->
  grants z (UZone v') a n <-> n = zv_size v /\ a ∉ zv_freed v' /\ exists i, 0 <= i <= zv_fresh v' /\ a = chunk_at z v i.
Proof. intros E. cbn [grants]. unfold chunk_at, zv_offset, zv_size. by rewrite E. Qed.
Lemma zv_take_spec zs z v : (zs = 2 ^ 15 \/ zs = 2 ^ 16 \/ zs = 2 ^ 17) -> zone_ok zs z v -> 0 < zv_avail zs v ->
  let '(v', a) := zv_take zs z v in zone_take zs z v v' a.
Proof.
  intros Hzs Ho Ha. pose proof Ho as [O1 O2 O3 O4 O5]. unfold zv_take. destruct (Z.eqb_spec (zv_fresh v + 1) (zv_nmax zs v)) as [E|E].
  - unfold zv_avail in Ha. destruct (zv_freed v) as [|x xs] eqn:Ef; [cbn in Ha; lia|]. cbn [hd tl]. apply NoDup_cons in O4 as [O4 O6].
    destruct (O5 x) as (i & Hi & ->); [by left|]. split; cbn [zv_index zv_fresh zv_freed]; try done.
    + split; try done. intros y Hy. apply O5. by right.
    + unfold zv_avail, zv_nmax, zv_offset, zv_size. cbn [zv_index zv_fresh zv_freed]. rewrite Ef. cbn [length]. lia.
    + unfold use_bytes, zv_size. cbn [zv_index zv_fresh zv_freed]. rewrite Ef. cbn [length]. lia.
    + exists i. rewrite Ef. split; [done|]. split; [lia|]. right. by left.
    + intros b m. rewrite !(grants_index z v) by done. cbn [zv_freed zv_fresh]. rewrite Ef, elem_of_cons.
      split; [|intros [(-> & Hb & Hj)|[-> ->]]; split_and!; try tauto; by exists i].
      intros (-> & Hb & Hj). destruct (decide (b = chunk_at z v i)) as [->|]; [by right|left]. split_and!; try tauto.
  - assert (zv_fresh v + 1 < zv_nmax zs v) as Hlt by lia. split; cbn [zv_index zv_fresh zv_freed]; try done.
    + split; try done; cbn [zv_fresh zv_freed]; [change (zv_nmax zs (mk_zv (zv_index v) (zv_fresh v + 1) (zv_freed v))) with (zv_nmax zs v); lia|].
      intros x Hx. destruct (O5 x Hx) as (i & Hi & ->). exists i. split; [lia|done].
    + unfold zv_avail, zv_nmax, zv_offset, zv_size. cbn [zv_index zv_fresh zv_freed]. lia.
    + unfold use_bytes, zv_size. cbn [zv_index zv_fresh zv_freed]. lia.
    + exists (zv_fresh v + 1). split; [done|]. split; [lia|]. left. lia.
    + intros b m. rewrite !(grants_index z v) by done. cbn [zv_freed zv_fresh]. split.
      * intros (-> & Hb & j & Hj & ->). destruct (decide (j = zv_fresh v + 1)) as [->|]; [by right|left]. split_and!; try done. exists j. split; [lia|done].
      * intros [(-> & Hb & j & Hj & ->)|[-> ->]]; split_and!; try done; [exists j; split; [lia|done]| |exists (zv_fresh v + 1); split; [lia|done]].
        intros (j & Hj & E')%O5. apply (chunk_at_inj zs Hzs z v _ _ Ho) in E'. lia.
Qed.
Lemma wp_count_mem n s (Q : unit -> slabs -> Prop) :
  (forall m, Q tt (set_max_mem m (set_used_mem (uint32 (used_mem s + n)) s))) -> wp (count_mem n) Q s.
Proof.
  intros HQ. unfold count_mem. do 2 wp1. wp1. cbn [used_mem set_used_mem max_mem]. case_match; [apply HQ|].
  match goal with |- Q tt ?x => replace x with (set_max_mem (max_mem s) x) by (by destruct s); apply HQ end.
Qed.
(** What take_chunk does to the lists: the zone leaves its list with its last chunk. *)
Definition list_dropped (zi z : Z) (last : bool) (s : slabs) : slabs :=
  if last then set_z_next (<[z := 0]> (z_next s)) (set_zone_array (<[zi := z_next s z]> (zone_array s)) s) else s.
Lemma wp_list_drop zi z (last : bool) s (Q : unit -> slabs -> Prop) : Q tt (list_dropped zi z last s) ->
  wp (if last then next ← zone_next z; set_zone_head zi next ;; set_zone_next z 0 else mret tt) Q s.
Proof. by destruct last. Qed.
Lemma list_dropped_fields zi z last s : exists f g, list_dropped zi z last s = set_z_next f (set_zone_array g s).
Proof. destruct last; [by eexists _, _|]. exists (z_next s), (zone_array s). by destruct s. Qed.
Record list_drop (s s' : slabs) (zi z : Z) (last : bool) : Prop := {
  ld_next : z_next s' = if last then <[z := 0]> (z_next s) else z_next s;
  ld_array : zone_array s' = if last then <[zi := z_next s z]> (zone_array s) else zone_array s;
  ld_spare : zone_free s' = zone_free s /\ zone_free_cnt s' = zone_free_cnt s
}.
Lemma list_dropped_drop s0 zi z last s : z_next s = z_next s0 -> zone_array s = zone_array s0 -> zone_free s = zone_free s0 -> zone_free_cnt s = zone_free_cnt s0 ->
  list_drop s0 (list_dropped zi z last s) zi z last.
Proof. intros E1 E2 E3 E4. destruct last; split; cbn; by rewrite ?E1, ?E2, ?E3, ?E4. Qed.
Lemma wp_take_chunk_raw zs s z v (Q : Z -> slabs -> Prop) : (zs = 2 ^ 15 \/ zs = 2 ^ 16 \/ zs = 2 ^ 17) -> zone_rep zs s z v -> 0 < zv_avail zs v ->
  (forall s', zone_step zs s s' z -> zone_rep zs s' z (zv_take zs z v).1 -> list_drop s s' (zv_index v) z (zv_avail zs v =? 1) ->
    used_mem s' = uint32 (used_mem s + zv_size v) -> Q (zv_take zs z v).2 s') ->
  wp (take_chunk (zv_index v) z (zv_size v)) Q s.
Proof.
  intros Hzs [Ho Hh Hc] Ha HQ. pose proof (zv_take_spec zs z v Hzs Ho Ha) as Ht. pose proof (zone_ok_geometry zs Hzs _ _ Ho) as (G1 & _).
  unfold take_chunk, zone, mod_zone. do 2 wp1. rewrite Hh. cbn [z_nfree]. wp1. wp1; [lia|]. do 2 wp1.
  replace (zv_avail zs v - 1 =? 0) with (zv_avail zs v =? 1) by lia. wp1. apply wp_list_drop. rewrite Hh. set (s1 := set_sl_zones _ s).
  pose proof (list_dropped_drop s (zv_index v) z (zv_avail zs v =? 1) s1 eq_refl eq_refl eq_refl eq_refl) as Hd.
  destruct (list_dropped_fields (zv_index v) z (zv_avail zs v =? 1) s1) as (f & g & Es). rewrite Es in Hd |- *. clear Es.
  do 2 wp1. unfold s1. cbn [sl_zones set_sl_zones set_z_next set_zone_array]. rewrite upd_eq. cbn [z_uindex z_nmax z_baseptr z_freechunk z_chunksize set_z_nfree].
  unfold zv_take in *. destruct (Z.eqb_spec (zv_fresh v + 1) (zv_nmax zs v)) as [E|E]; cbn [negb fst snd] in *.
  - unfold zv_avail in Ha. destruct (zv_freed v) as [|x xs] eqn:Ef; [cbn in Ha; lia|]. cbn [nlist] in Hc. destruct Hc as (Ex & Hx & Hc). rewrite Ex. cbn [hd tl] in *.
    wp1. do 2 wp1. do 2 wp1. wp1. wp1. apply wp_count_mem. intros m. wp1. apply HQ.
    + split; try done. intros y Hy. cbn. by rewrite !upd_ne by done.
    + split; [apply Ht|..]; cbn; rewrite upd_eq; [|exact Hc]. cbn. rewrite upd_eq. cbn. pose proof (zt_avail _ _ _ _ _ Ht) as Ev. by rewrite Ev.
    + destruct Hd as [D1 D2 D3]. by split.
    + done.
  - wp1. do 2 wp1. wp1. wp1. apply wp_count_mem. intros m. wp1. apply HQ.
    + split; try done. intros y Hy. cbn. by rewrite !upd_ne by done.
    + split; [apply Ht|..]; cbn; rewrite upd_eq; [|cbn; rewrite upd_eq; exact Hc]. cbn. rewrite upd_eq. cbn. pose proof (zt_avail _ _ _ _ _ Ht) as Ev. by rewrite Ev.
    + destruct Hd as [D1 D2 D3]. by split.
    + done.
Qed.
Lemma listed_take zs us z v v' zi y : us !! z = Some (UZone v) -> zv_index v' = zv_index v -> zv_avail zs v' = zv_avail zs v - 1 -> 0 < zv_avail zs v ->
  listed zs (<[z := UZone v']> us) zi y <-> listed zs us zi y /\ ~ (y = z /\ zv_avail zs v = 1).
Proof.
  intros Hz Hi Ha Hp. rewrite listed_insert. split.
  - intros [[-> (w & [= <-] & Hw & Hav)]|[Hne Hl]]; [|by split; [|intros [? _]]]. split; [|lia]. exists v. split_and!; try done. by rewrite <- Hi.
  - intros [Hl Hn]. destruct (decide (y = z)) as [->|Hne]; [left|by right]. split; [done|]. destruct Hl as (w & Hw & <- & Hav).
    rewrite Hz in Hw. injection Hw as <-. exists v'. split_and!; try done. lia.
Qed.
Lemma spare_insert (us : gmap Z use) z u w y : us !! z = Some w -> w <> USpare -> u <> USpare -> <[z := u]> us !! y = Some USpare <-> us !! y = Some USpare.
Proof.
  intros Hz Hw Hu. destruct (decide (y = z)) as [->|Hne]; [|by rewrite lookup_insert_ne]. rewrite lookup_insert_eq, Hz. split; by intros [= ->].
Qed.
Lemma wp_take_chunk s V z zl zi (Q : Z -> slabs -> Prop) : slab_ok s V -> 0 <= zi < NZONES -> sv_lists V zi = z :: zl ->
  (forall a s' V', slab_grant s s' V V' a (chunk_of zi) -> sv_runs V' = sv_runs V -> Q a s') ->
  wp (take_chunk zi z (chunk_of zi)) Q s.
Proof.
  intros H Hzi Hl HQ. pose proof (so_lists _ _ H zi Hzi) as Hlist. pose proof (so_sizes _ _ H) as Hzs.
  assert (listed (sv_zsize V) (sv_uses V) zi z) as (v & Hz & <- & Ha) by (apply Hlist; rewrite Hl; by left).
  pose proof (so_uses _ _ H z _ Hz) as [Hr Hm]. pose proof (zv_take_spec _ z v Hzs (zr_ok _ _ _ _ Hr) Ha) as Ht.
  change (chunk_of (zv_index v)) with (zv_size v). apply (wp_take_chunk_raw (sv_zsize V) s z v); [done..|]. intros s' Hs Hr' [D1 D2 [D3 D4]] Hu.
  destruct (zv_take (sv_zsize V) z v) as [v' a]. cbn [fst snd] in *. set (last := zv_avail (sv_zsize V) v =? 1) in *.
  pose proof (zt_index _ _ _ _ _ Ht) as Hi'. pose proof (zt_avail _ _ _ _ _ Ht) as Ha'.
  apply (HQ a s' (mk_sv (sv_zsize V) (sv_runs V) (<[z := UZone v']> (sv_uses V)) (if last then <[zv_index v := zl]> (sv_lists V) else sv_lists V) (sv_spare V))); [|done].
  split; cbn [sv_uses sv_zsize]; [apply (slab_ok_use s s' V z)|..]; try done.
  - eapply spots_replace; [apply H|exact Hz|done].
  - split; [done|]. destruct Hs as [_ [B1 _] _ (M1 & M2 & _) _ _ _]. by apply (marked_frame _ s).
  - intros zj Hzj. pose proof (so_lists _ _ H zj Hzj) as Lj. rewrite D1, D2. unfold last. destruct (Z.eqb_spec (zv_avail (sv_zsize V) v) 1) as [E1|E1].
    + destruct (decide (zj = zv_index v)) as [->|Hne].
      * rewrite !upd_eq. rewrite Hl in Lj. pose proof (zl_nodup _ _ _ _ Lj) as [Hnz _]%NoDup_cons.
        eapply (zone_list_pop _ _ _ z zl) in Lj as [_ Lj]; [exact Lj|intros x Hx; apply upd_ne; by intros <-|].
        intros y. rewrite (listed_take _ _ z v v') by done. naive_solver.
      * rewrite !upd_ne by done. eapply zone_list_ext; [exact Lj| |].
        -- intros x Hx. apply upd_ne. intros <-. apply Lj in Hx as (w & Hw & E & _). rewrite Hz in Hw. by injection Hw as <-.
        -- intros y. rewrite (listed_take _ _ z v v') by done. split; [by intros [? _]|]. intros Hy. split; [done|]. intros [-> _].
           destruct Hy as (w & Hw & E & _). rewrite Hz in Hw. by injection Hw as <-.
    + eapply zone_list_ext; [exact Lj|done|]. intros y. rewrite (listed_take _ _ z v v') by done. naive_solver.
  - rewrite D3, D1. eapply zone_list_ext; [apply H| |intros y; by apply (spare_insert _ _ _ (UZone v))].
    intros x Hx. destruct last; [|done]. apply upd_ne. intros <-. apply (so_spare _ _ H) in Hx. congruence.
  - rewrite D4. apply H.
  - rewrite Hu, (so_used _ _ H), used_after, (live_bytes_replace _ _ _ _ Hz), (zt_bytes _ _ _ _ _ Ht). f_equal. lia.
  - intros b m. rewrite live_replace, (live_delete _ _ _ b m Hz), (zt_grants _ _ _ _ _ Ht). tauto.
  - destruct (zt_chunk _ _ _ _ _ Ht) as (i & -> & Hi & Hc). by eapply chunk_not_live.
  - destruct Hs as [_ [B1 B2] _ _ _ _ _]. done.
  - by destruct Hs.
  - intros y w Hy. destruct (decide (y = z)) as [->|Hne]; [|exists w; by rewrite lookup_insert_ne]. exists v'. rewrite lookup_insert_eq. split; [done|].
    rewrite Hz in Hy. injection Hy as <-. done.
Qed.

(** *** The table of page uses *)
(** Only the [n] entries from [lo] on change. *)
Definition mu_step (s s' : slabs) (lo n : Z) : Prop :=
  exists f g, s' = set_mu_type f (set_mu_size g s) /\ forall j, ~ lo <= j < lo + n -> f j = mu_type s j /\ g j = mu_size s j.
Lemma mu_step_refl s lo n : mu_step s s lo n.
Proof. exists (mu_type s), (mu_size s). split; [by destruct s|done]. Qed.
Lemma mu_step_out s s' lo n j : mu_step s s' lo n -> ~ lo <= j < lo + n -> mu_type s' j = mu_type s j /\ mu_size s' j = mu_size s j.
Proof. intros (f & g & -> & Ho) Hj. by apply Ho. Qed.
Lemma mu_step_heap s s' lo n : mu_step s s' lo n -> heap_start s' = heap_start s /\ heap_end s' = heap_end s /\ sl_bytes s' = sl_bytes s.
Proof. by intros (f & g & -> & _). Qed.
Lemma page_index_aligned s a b : heap_start s mod PAGE = 0 -> a mod PAGE = 0 -> b mod PAGE = 0 -> PAGE * (page_index s b - page_index s a) = b - a.
Proof.
  unfold page_index, RT_MM_PAGE_SIZE. intros H1 H2 H3. apply Z.mod_divide in H1 as (h & ->), H2 as (x & ->), H3 as (y & ->); [|lia..].
  rewrite <- !Z.mul_sub_distr_r, !Z.div_mul by lia. lia.
Qed.
Lemma slab_ok_mu s s' V a n : slab_ok s V -> spot (sv_zsize V) s (sv_runs V) (sv_uses V) a n -> mu_step s s' (page_index s a) n -> slab_ok s' V.
Proof.
  intros H [[F1 F2 F3 F4] Hs] (f & g & -> & Ho).
  pose proof H as [S1 S2 S3 S4 S5 S6 S7 S8 S9 S10]. split; try done.
  - by apply (page_ok_frame s).
  - by apply (spots_heap _ s).
  - intros z u Hz. specialize (Hs z u Hz). destruct (S5 z u Hz) as [[Z1 Z2 Z3 Z4] _].
    pose proof (page_index_aligned s a z S2 F2 Z2) as Hi. assert (forall j, 0 <= j < use_pages (sv_zsize V) u ->
      f (page_index s z + j) = mu_type s (page_index s z + j) /\ g (page_index s z + j) = mu_size s (page_index s z + j)) as Hj.
    { intros j Hj. apply Ho. unfold RT_MM_PAGE_SIZE in *. lia. }
    specialize (S6 z u Hz). destruct u as [v| |k|k]; cbn [use_rep use_pages] in *; try done.
    + destruct S6 as [Hr Hk]. split; [by apply (zone_rep_frame _ s)|]. intros j J. destruct (Hj j J) as [E1 E2]. destruct (Hk j J) as [K1 K2].
      split; [exact (eq_trans E1 K1)|exact (eq_trans E2 K2)].
    + intros j J. destruct (Hj j J) as [E1 E2]. destruct (S6 j J) as [K1 K2]. split; [exact (eq_trans E1 K1)|exact (eq_trans E2 K2)].
    + destruct (Hj 0) as [E1 E2]; [lia|]. rewrite !Z.add_0_r in E1, E2. destruct S6 as [K1 K2]. split; [exact (eq_trans E1 K1)|exact (eq_trans E2 K2)].
Qed.
Lemma mu_step_trans s s1 s2 lo n m : mu_step s s1 lo n -> mu_step s1 s2 (lo + n) m -> 0 <= n -> 0 <= m -> mu_step s s2 lo (n + m).
Proof.
  intros (f & g & -> & H1) (f' & g' & -> & H2) Hn Hm. exists f', g'. split; [done|]. intros j Hj. destruct (H2 j) as [E1 E2]; [lia|].
  destruct (H1 j) as [E3 E4]; [lia|]. cbn in E1, E2. by rewrite E1, E2.
Qed.
Lemma wp_set_usage i t v s (Q : unit -> slabs -> Prop) :
  (forall s', mu_step s s' i 1 -> mu_type s' i = t -> mu_size s' i = uint 30 v -> Q tt s') -> wp (set_usage i t v) Q s.
Proof.
  intros HQ. unfold set_usage. wp1. apply HQ; [|exact (upd_eq _ _ _)..]. eexists _, _. split; [reflexivity|].
  intros j Hj. split; apply upd_ne; lia.
Qed.
Lemma wp_mark_pages n : forall kup off s (Q : unit -> slabs -> Prop), 0 <= off -> off + Z.of_nat n <= 2 ^ 30 ->
  (forall s', mu_step s s' kup (Z.of_nat n) -> (forall j, 0 <= j < Z.of_nat n -> mu_type s' (kup + j) = PAGE_TYPE_SMALL /\ mu_size s' (kup + j) = off + j) -> Q tt s') ->
  wp (mark_pages n kup off) Q s.
Proof.
  induction n as [|n IH]; intros kup off s Q H0 Hmax HQ; cbn [mark_pages].
  - wp1. apply HQ; [apply mu_step_refl|lia].
  - wp1. apply wp_set_usage. intros s1 M1 T1 S1. apply IH; [lia|lia|]. intros s2 M2 T2. apply HQ.
    + replace (Z.of_nat (S n)) with (1 + Z.of_nat n) by lia. eapply mu_step_trans; [exact M1|exact M2|lia|lia].
    + intros j Hj. destruct (decide (j = 0)) as [->|].
      * rewrite !Z.add_0_r. destruct (mu_step_out _ _ _ _ kup M2) as [-> ->]; [lia|]. rewrite T1, S1, uint_small by lia. done.
      * destruct (T2 (j - 1)) as [E1 E2]; [lia|]. replace (kup + 1 + (j - 1)) with (kup + j) in E1, E2 by lia. split; [done|lia].
Qed.
Lemma wp_unmark_pages n : forall kup s (Q : unit -> slabs -> Prop), (forall s', mu_step s s' kup (Z.of_nat n) -> Q tt s') -> wp (unmark_pages n kup) Q s.
Proof.
  induction n as [|n IH]; intros kup s Q HQ; cbn [unmark_pages].
  - wp1. apply HQ, mu_step_refl.
  - wp1. apply wp_set_usage. intros s1 M1 _ _. apply IH. intros s2 M2. apply HQ.
    replace (Z.of_nat (S n)) with (1 + Z.of_nat n) by lia. eapply mu_step_trans; [exact M1|exact M2|lia|lia].
Qed.

(** *** A new zone *)
(** Nothing changes for the owners of blocks. *)
Record slab_quiet (s s' : slabs) (V V' : slab_view) : Prop := {
  sq_ok : slab_ok s' V';
  sq_live : forall b m, live (sv_uses V') b m <-> live (sv_uses V) b m;
  sq_heap : heap_start s' = heap_start s /\ heap_end s' = heap_end s /\ sv_zsize V' = sv_zsize V;
  sq_bytes : sl_bytes s' = sl_bytes s
}.
Lemma slab_quiet_refl s V : slab_ok s V -> slab_quiet s s V V.
Proof. intros H. by split. Qed.
Lemma slab_quiet_trans s s1 s2 V V1 V2 : slab_quiet s s1 V V1 -> slab_quiet s1 s2 V1 V2 -> slab_quiet s s2 V V2.
Proof.
  intros [A1 A2 (A3 & A4 & A5) A6] [B1 B2 (B3 & B4 & B5) B6]. split; [done|intros b m; by rewrite B2|by rewrite B3, B4, B5|by rewrite B6].
Qed.
Lemma slab_grant_after s s1 s2 V V1 V2 a n : slab_quiet s s1 V V1 -> zones_kept (sv_uses V) (sv_uses V1) -> slab_grant s1 s2 V1 V2 a n -> slab_grant s s2 V V2 a n.
Proof.
  intros [A1 A2 (A3 & A4 & A5) A6] Hk [B1 B2 B3 (B4 & B5 & B6) B7 B8].
  split; [done|intros b m; by rewrite B2, A2|intros m; by rewrite <- A2|by rewrite B4, B5, B6|by rewrite B7|].
  intros z v Hz. destruct (Hk z v Hz) as (v1 & Hz1 & E1), (B8 z v1 Hz1) as (v2 & Hz2 & E2). exists v2. split; [done|]. by rewrite E2.
Qed.
Definition zv_new (zi : Z) : zone_view := mk_zv zi 0 [].
Lemma zone_new_ok zs z zi : (zs = 2 ^ 15 \/ zs = 2 ^ 16 \/ zs = 2 ^ 17) -> 0 <= zi < NZONES -> chunk_of zi <= zone_limit_of zs -> zone_ok zs z (zv_new zi).
Proof.
  intros Hzs Hzi Hc. destruct (chunk_geometry zi Hzi) as (G1 & G2 & G3 & G4). destruct (limit_eq zs Hzs) as (L1 & L2 & L3).
  split; cbn; try done; [split; [lia|]|apply NoDup_nil_2|by intros x ?%elem_of_nil].
  unfold zv_nmax, zv_offset, zv_size. cbn [zv_index zv_new]. assert (1 <= (zs - chunk_offset (chunk_of zi)) / chunk_of zi); [|lia].
  apply Z.div_le_lower_bound; lia.
Qed.
Lemma wp_zone_setup_raw zs s z zi (Q : Z -> slabs -> Prop) : (zs = 2 ^ 15 \/ zs = 2 ^ 16 \/ zs = 2 ^ 17) -> zone_ok zs z (zv_new zi) -> zone_size s = zs ->
  (forall s', zone_step zs s s' z -> zone_rep zs s' z (zv_new zi) -> z_next s' = <[z := zone_array s zi]> (<[z := 0]> (z_next s)) ->
    zone_array s' = <[zi := z]> (zone_array s) -> zone_free s' = zone_free s -> zone_free_cnt s' = zone_free_cnt s ->
    used_mem s' = uint32 (used_mem s + chunk_of zi) -> Q (chunk_at z (zv_new zi) 0) s') ->
  wp (zone_setup zi z (chunk_of zi)) Q s.
Proof.
  intros Hzs Ho Es HQ. pose proof (zone_ok_geometry zs Hzs _ _ Ho) as (G1 & G2 & G3 & G4 & G5 & G6). destruct (limit_eq zs Hzs) as (L1 & L2 & L3).
  unfold zone_setup, mod_zone, zone, zone_head, set_zone_head, set_zone_next. do 2 wp1. do 2 wp1. do 2 wp1. cbn [zone_size set_z_next set_sl_zones]. rewrite Es.
  change (chunk_of zi) with (zv_size (zv_new zi)). change (chunk_offset (zv_size (zv_new zi))) with (zv_offset (zv_new zi)).
  rewrite (uint_small 32 (zs - _)) by nia. change ((zs - zv_offset (zv_new zi)) / zv_size (zv_new zi)) with (zv_nmax zs (zv_new zi)).
  do 2 wp1. do 2 wp1. do 2 wp1. do 2 wp1. do 2 wp1. wp1. apply wp_count_mem. intros m. wp1. cbn [sl_zones set_sl_zones set_z_next set_zone_array]. rewrite !upd_eq.
  cbn [z_baseptr z_uindex]. apply HQ; try done.
  - split; try done. intros y Hy. cbn. by rewrite !upd_ne by done.
  - split; [done|..]; cbn; rewrite !upd_eq; [|done]. cbn. f_equal. unfold zv_avail, zv_nmax, zv_offset, zv_size. cbn. lia.
Qed.
Lemma wp_zone_setup s V z zi (Q : Z -> slabs -> Prop) : slab_ok s V -> 0 <= zi < NZONES -> chunk_of zi <= zone_limit_of (sv_zsize V) ->
  spot (sv_zsize V) s (sv_runs V) (sv_uses V) z (zone_pages (sv_zsize V)) -> marked (sv_zsize V) s z ->
  (forall a s' V', slab_grant s s' V V' a (chunk_of zi) -> sv_runs V' = sv_runs V -> Q a s') -> wp (zone_setup zi z (chunk_of zi)) Q s.
Proof.
  intros H Hzi Hc Hsp Hm HQ. pose proof (so_sizes _ _ H) as Hzs. pose proof (zone_new_ok _ z zi Hzs Hzi Hc) as Ho.
  pose proof (spot_none _ _ _ _ _ _ (so_spots _ _ H) Hsp) as Hz. assert (z <> 0) as Hz0 by (destruct Hsp as [[_ _ F3 _] _]; pose proof (po_heap _ _ (so_pages _ _ H)); lia).
  apply (wp_zone_setup_raw (sv_zsize V)); [done|done|by apply H|]. intros s' Hs Hr D1 D2 D3 D4 Hu.
  set (us := <[z := UZone (zv_new zi)]> (sv_uses V)). set (lists := <[zi := z :: sv_lists V zi]> (sv_lists V)).
  assert (forall zj, z ∉ sv_lists V zj \/ ~ 0 <= zj < NZONES) as Hnot.
  { intros zj. destruct (decide (0 <= zj < NZONES)) as [Hj|]; [left|by right]. intros (v & Hv & _)%(zl_elem _ _ _ _ (so_lists _ _ H zj Hj)). congruence. }
  assert (forall x, x <> z -> z_next s' x = z_next s x) as Hne by (intros x Hx; rewrite D1; by rewrite !upd_ne by congruence).
  destruct (zone_ok_geometry _ Hzs _ _ Ho) as (G1 & _ & _ & _ & G5 & _).
  apply (HQ _ s' (mk_sv (sv_zsize V) (sv_runs V) us lists (sv_spare V))); [|done].
  split; cbn [sv_uses sv_zsize]; [apply (slab_ok_use s s' V z)|..]; try done.
  - by apply spots_insert; [apply H|].
  - split; [done|]. destruct Hs as [_ [B1 _] _ (M1 & M2 & _) _ _ _]. by apply (marked_frame _ s).
  - intros zj Hzj. pose proof (so_lists _ _ H zj Hzj) as Lj. destruct (Hnot zj) as [Hn|]; [|done]. unfold lists. rewrite D2. destruct (decide (zj = zi)) as [->|Hji].
    + rewrite !upd_eq. eapply zone_list_push; [exact Lj|done|done|by rewrite D1, upd_eq|intros x Hx; apply Hne; by intros ->|].
      intros y. unfold us. rewrite listed_insert. split.
      * intros [[-> _]|[_ Hl]]; [by left|by right].
      * intros [->|Hl]; [left; split; [done|]; exists (zv_new zi); split_and!; try done|].
        -- unfold zv_avail. change (zv_nmax (sv_zsize V) (zv_new zi)) with (zv_nmax (sv_zsize V) (zv_new zi)) in G5. cbn [zv_fresh zv_freed zv_new length]. lia.
        -- right. split; [|done]. intros ->. destruct Hl as (v & Hv & _). congruence.
    + rewrite !upd_ne by done. eapply zone_list_ext; [exact Lj|intros x Hx; apply Hne; by intros ->|]. intros y. unfold us. rewrite listed_insert. split.
      * intros [[-> (v & [= <-] & E & _)]|[_ Hl]]; [done|done].
      * intros Hl. right. split; [|done]. intros ->. destruct Hl as (v & Hv & _). congruence.
  - rewrite D3. eapply zone_list_ext; [apply H| |].
    + intros x Hx. apply Hne. intros ->. apply (so_spare _ _ H) in Hx. congruence.
    + intros y. unfold us. rewrite lookup_insert_Some. split; [intros [[_ [=]]|[_ Hy]]; done|]. intros Hy. right. split; [|done]. intros <-. congruence.
  - rewrite D4. apply H.
  - rewrite Hu, (so_used _ _ H), used_after. unfold us. rewrite live_bytes_insert by done. f_equal. cbn. change (zv_size (zv_new zi)) with (chunk_of zi). lia.
  - intros b m. unfold us. rewrite live_insert by done. rewrite (grants_index z (zv_new zi)) by done. cbn [zv_freed zv_fresh zv_new]. split.
    + intros [(-> & _ & i & Hi & ->)|Hl]; [right|by left]. by replace i with 0 by lia.
    + intros [Hl|[-> ->]]; [by right|left]. split_and!; [done|by intros ?%elem_of_nil|by exists 0].
  - intros m Hl. destruct (chunk_at_in _ Hzs z (zv_new zi) 0 Ho) as [C1 C2]; [cbn; lia|]. pose proof (zone_pages_eq _ Hzs) as [Ez _].
    eapply (zone_not_elsewhere s V z USpare); [done| |cbn [use_pages]|rewrite delete_id; [exact Hl|done]]; [rewrite delete_id by done; exact Hsp|lia].
  - destruct Hs as [_ [B1 B2] _ _ _ _ _]. by split_and!.
  - by destruct Hs.
  - by apply zones_kept_insert.
Qed.

(** *** Spare zones and whole pages *)
Lemma zones_kept_spare us z : us !! z = Some USpare -> zones_kept us (delete z us).
Proof. intros Hz y v Hy. exists v. rewrite lookup_delete_ne; [done|]. intros ->. congruence. Qed.
(** A use that grants nothing disappears. *)
Lemma live_delete_nothing us p u : us !! p = Some u -> (forall a n, ~ grants p u a n) -> forall a n, live (delete p us) a n <-> live us a n.
Proof. intros Hp Hg a n. rewrite (live_delete us p u a n Hp). split; [by right|intros [?|]; [by destruct (Hg a n)|done]]. Qed.
Lemma spare_bytes us p u : us !! p = Some u -> use_bytes u = 0 -> live_bytes (delete p us) = live_bytes us.
Proof. intros Hp E. rewrite (live_bytes_delete us p u Hp). lia. Qed.
Lemma wp_pop_zone s V z zl (Q : unit -> slabs -> Prop) : slab_ok s V -> sv_spare V = z :: zl ->
  (forall s' V', slab_quiet s s' V V' -> sv_runs V' = sv_runs V -> zones_kept (sv_uses V) (sv_uses V') ->
    spot (sv_zsize V) s' (sv_runs V') (sv_uses V') z (zone_pages (sv_zsize V)) -> marked (sv_zsize V) s' z -> Q tt s') ->
  wp (pop_zone z) Q s.
Proof.
  intros H Hl HQ. pose proof H as [S1 S2 S3 S4 S5 S6 S7 S8 [S9 S9'] S10]. rewrite Hl in S8, S9, S9'. cbn [length] in S9, S9'.
  assert (sv_uses V !! z = Some USpare) as Hz by (apply S8; by left).
  unfold pop_zone, zone_next. do 2 wp1. do 2 wp1. wp1. cbn [zone_free_cnt set_zone_free].
  pose proof (fun y => lookup_delete_Some (sv_uses V) z y USpare) as Hdel.
  destruct (zone_list_pop _ (z_next s) _ _ _ _ (fun y => delete z (sv_uses V) !! y = Some USpare) S8) as [Ez Ll]; [done|intros y; rewrite Hdel; naive_solver|].
  apply (HQ _ (mk_sv (sv_zsize V) (sv_runs V) (delete z (sv_uses V)) (sv_lists V) zl)); try done; [|by apply zones_kept_spare|..].
  - split; cbn [sv_uses sv_zsize]; [split; cbn [sv_zsize sv_runs sv_uses sv_lists sv_spare]|..]; try done.
    + by apply (page_ok_frame s).
    + apply (spots_heap _ s); [by apply spots_delete|done..].
    + intros y u [Hne Hy]%lookup_delete_Some. specialize (S6 y u Hy). destruct u as [v| | |]; cbn [use_rep] in *; try done.
      destruct S6 as [Hr Hm]. split; [by apply (zone_rep_frame _ s)|done].
    + intros zi Hzi. eapply zone_list_ext; [by apply S7|done|]. intros y. rewrite listed_delete. split; [by intros [_ ?]|].
      intros Hy. split; [|done]. intros ->. destruct Hy as (v & Hv & _). congruence.
    + cbn [zone_free_cnt set_zone_free_cnt set_zone_free]. rewrite S9. split; lia.
    + cbn. by rewrite (spare_bytes _ _ _ Hz).
    + apply (live_delete_nothing _ _ USpare); [done|by intros ? ? []].
  - cbn. by apply (spot_heap _ s); [apply (S5 z _ Hz)|..].
  - by apply (S6 z _ Hz).
Qed.
(** A spot becomes a block of whole pages; its bytes are counted later. *)
Lemma slab_ok_large s s' V a n m : slab_ok s V -> spot (sv_zsize V) s (sv_runs V) (sv_uses V) a n ->
  mu_step s s' (page_index s a) 1 -> mu_type s' (page_index s a) = PAGE_TYPE_LARGE -> mu_size s' (page_index s a) = n ->
  let s2 := set_max_mem m (set_used_mem (uint32 (used_mem s' + n * PAGE)) s') in
  slab_grant s s2 V (set_sv_uses (<[a := ULarge n]> (sv_uses V)) V) a (n * PAGE).
Proof.
  intros H Hsp Hm Ht Hz s2. pose proof (spot_none _ _ _ _ _ _ (so_spots _ _ H) Hsp) as Hn. pose proof Hsp as [[F1 F2 F3 F4] Hs].
  assert (spot (sv_zsize V) s (sv_runs V) (sv_uses V) a 1) as Hsp1.
  { split; [split; [lia|done|unfold RT_MM_PAGE_SIZE in *; lia|]|].
    - eapply Forall_impl; [exact F4|]. cbn. intros r. unfold RT_MM_PAGE_SIZE in *. lia.
    - intros b u Hb. specialize (Hs b u Hb). unfold RT_MM_PAGE_SIZE in *. lia. }
  pose proof (slab_ok_mu s s' V a 1 H Hsp1 Hm) as [S1 S2 S3 S4 S5 S6 S7 S8 S9 S10]. destruct (mu_step_heap _ _ _ _ Hm) as (B1 & B2 & B3).
  split; cbn [sv_uses sv_zsize set_sv_uses]; [split; cbn [sv_zsize sv_runs sv_uses sv_lists sv_spare set_sv_uses]|..]; try done.
  - by apply (page_ok_frame s').
  - apply (spots_heap _ s'); [apply spots_insert; [done|]|done..]. by apply (spot_heap _ s).
  - intros y u [[<- <-]|[Hne Hy]]%lookup_insert_Some.
    + cbn. unfold page_index in *. cbn. by rewrite B1.
    + specialize (S6 y u Hy). destruct u as [v| | |]; cbn [use_rep] in *; try done. destruct S6 as [Hr Hk]. split; [by apply (zone_rep_frame _ s')|done].
  - intros zi Hzi. eapply zone_list_ext; [by apply S7|done|]. intros y. rewrite listed_insert. split.
    + intros [[_ (v & [=] & _)]|[_ Hl]]; done.
    + intros Hl. right. split; [|done]. intros ->. destruct Hl as (v & Hv & _). congruence.
  - eapply zone_list_ext; [exact S8|done|]. intros y. rewrite lookup_insert_Some. split; [intros [[_ [=]]|[_ Hy]]; done|].
    intros Hy. right. split; [|done]. intros <-. congruence.
  - cbn [used_mem set_used_mem set_max_mem s2]. unfold s2. cbn. rewrite S10, used_after, live_bytes_insert by done. f_equal. cbn. lia.
  - intros b k. rewrite live_insert by done. cbn [grants]. tauto.
  - intros k Hl. apply (zone_not_elsewhere s V a (ULarge n) a H) with (m := k); rewrite ?delete_id by done; [exact Hsp| |exact Hl].
    cbn [use_pages]. unfold RT_MM_PAGE_SIZE in *. lia.
  - by apply zones_kept_insert.
Qed.
