(* ===== verification/SlabFree.v ===== *)
(** The critical sections of rt_free in src/slab.c keep the invariant of the slab allocator: a
    chunk goes back to its zone, an empty zone to the spare ones or to the pages. *)
From stdpp Require Import gmap.
From S2P Require Import Prelude RtList Kservice MemOps Kernel Scheduler Object TimerCore Invariant Thread Timer Ipc Semaphore Lock Resume Slab PageSpec SlabSpec SlabMalloc.

(** The block at [a] is no longer granted, and nothing else changes for the owners. *)
Record slab_return (s s' : slabs) (V V' : slab_view) (a : Z) : Prop := {
  sr_ok : slab_ok s' V';
  sr_live : forall b m, live (sv_uses V') b m <-> live (sv_uses V) b m /\ b <> a;
  sr_heap : heap_start s' = heap_start s /\ heap_end s' = heap_end s /\ sv_zsize V' = sv_zsize V;
  sr_bytes : sl_bytes s' = sl_bytes s
}.
Lemma slab_return_then s s1 s2 V V1 V2 a : slab_return s s1 V V1 a -> slab_quiet s1 s2 V1 V2 -> slab_return s s2 V V2 a.
Proof.
  intros [A1 A2 (A3 & A4 & A5) A6] [B1 B2 (B3 & B4 & B5) B6]. split; [done|intros b m; by rewrite B2, A2|by rewrite B3, B4, B5|by rewrite B6].
Qed.

(** *** A chunk goes back *)
Definition zv_put (v : zone_view) (a : Z) : zone_view := mk_zv (zv_index v) (zv_fresh v) (a :: zv_freed v).
Section put.
Context (zs : Z) (Hzs : zs = 2 ^ 15 \/ zs = 2 ^ 16 \/ zs = 2 ^ 17).
Lemma zv_put_ok z v a n : zone_ok zs z v -> grants z (UZone v) a n -> zone_ok zs z (zv_put v a).
Proof.
  intros [H1 H2 H3 H4 H5] (-> & Ha & i & Hi & ->). split; try done; cbn [zv_freed zv_put zv_fresh]; [by apply NoDup_cons|].
  intros x [->|Hx]%elem_of_cons; [by exists i|by apply H5].
Qed.
Lemma zv_put_avail v a : zv_avail zs (zv_put v a) = zv_avail zs v + 1.
Proof. unfold zv_avail. change (zv_nmax zs (zv_put v a)) with (zv_nmax zs v). cbn [zv_fresh zv_freed zv_put length]. lia. Qed.
Lemma zv_put_bytes v a : use_bytes (UZone (zv_put v a)) = use_bytes (UZone v) - zv_size v.
Proof. cbn [use_bytes]. change (zv_size (zv_put v a)) with (zv_size v). cbn [zv_fresh zv_freed zv_put length]. lia. Qed.
Lemma zv_put_grants z v a b m : grants z (UZone (zv_put v a)) b m <-> grants z (UZone v) b m /\ b <> a.
Proof. clear Hzs. rewrite !(grants_index z v) by done. cbn [zv_freed zv_fresh zv_put]. rewrite not_elem_of_cons. tauto. Qed.
Lemma zone_avail_range z v : zone_ok zs z v -> 0 <= zv_avail zs v <= zv_nmax zs v.
Proof.
  intros H. pose proof H as [H1 H2 H3 H4 H5]. unfold zv_avail. split; [lia|].
  assert (zv_freed v ⊆+ (chunk_at z v <$> seqZ 0 (zv_fresh v + 1))) as Hs.
  { apply NoDup_submseteq; [done|]. intros x Hx. destruct (H5 x Hx) as (i & Hi & ->). apply list_elem_of_fmap_2. apply elem_of_seqZ. lia. }
  apply submseteq_length in Hs. rewrite length_fmap, length_seqZ in Hs. lia.
Qed.
(** A zone all of whose chunks are free grants nothing. *)
Lemma zone_empty z v : zone_ok zs z v -> zv_avail zs v = zv_nmax zs v -> forall a n, ~ grants z (UZone v) a n.
Proof.
  intros [H1 H2 H3 H4 H5] Ha a n (_ & Hn & i & Hi & ->). unfold zv_avail in Ha. apply Hn.
  assert (zv_freed v ≡ₚ (chunk_at z v <$> seqZ 0 (zv_fresh v + 1))) as ->.
  { apply submseteq_length_Permutation; [|rewrite length_fmap, length_seqZ; lia].
    apply NoDup_submseteq; [done|]. intros x Hx. destruct (H5 x Hx) as (j & Hj & ->). apply list_elem_of_fmap_2. apply elem_of_seqZ. lia. }
  apply list_elem_of_fmap_2. apply elem_of_seqZ. lia.
Qed.
Lemma zone_empty_bytes z v : zone_ok zs z v -> zv_avail zs v = zv_nmax zs v -> use_bytes (UZone v) = 0.
Proof. intros [H1 H2 H3 H4 H5] Ha. unfold zv_avail in Ha. cbn [use_bytes]. replace (zv_fresh v + 1 - Z.of_nat (length (zv_freed v))) with 0 by lia. lia. Qed.

(** The zone enters its list with its first free chunk. *)
Definition list_entered (zi z : Z) (first : bool) (s : slabs) : slabs :=
  if first then set_zone_array (<[zi := z]> (zone_array s)) (set_z_next (<[z := zone_array s zi]> (z_next s)) s) else s.
Lemma wp_list_enter zi z (first : bool) s (Q : unit -> slabs -> Prop) : Q tt (list_entered zi z first s) ->
  wp (if first then head ← zone_head zi; set_zone_next z head ;; set_zone_head zi z else mret tt) Q s.
Proof. by destruct first. Qed.
Lemma wp_put_chunk_raw s z v a n (Q : unit -> slabs -> Prop) : 0 < z -> zone_rep zs s z v -> grants z (UZone v) a n ->
  (forall s', zone_step zs s s' z -> zone_rep zs s' z (zv_put v a) ->
    z_next s' = (if zv_avail zs v =? 0 then <[z := zone_array s (zv_index v)]> (z_next s) else z_next s) ->
    zone_array s' = (if zv_avail zs v =? 0 then <[zv_index v := z]> (zone_array s) else zone_array s) ->
    zone_free s' = zone_free s /\ zone_free_cnt s' = zone_free_cnt s -> used_mem s' = uint32 (used_mem s - zv_size v) -> Q tt s') ->
  wp (put_chunk z a) Q s.
Proof.
  intros Hz0 [Ho Hh Hc] Hg HQ. pose proof (zv_put_ok z v a n Ho Hg) as Ho'. pose proof Hg as (-> & Ha & i & Hi & Ea).
  pose proof (chunk_at_in zs Hzs z v i Ho ltac:(destruct Ho; lia)) as [C1 C2]. pose proof (zone_ok_geometry zs Hzs _ _ Ho) as (G1 & _).
  unfold put_chunk, zone, mod_zone, uncount_mem. do 2 wp1. rewrite Hh. cbn [z_magic z_freechunk z_chunksize z_nfree z_zoneindex]. wp1. wp1; [done|].
  do 2 wp1. do 2 wp1. do 2 wp1. do 2 wp1. apply wp_list_enter. cbn [sl_zones c_next used_mem set_c_next set_sl_zones set_used_mem]. rewrite upd_eq, Hh.
  pose proof (zv_put_avail v a) as Ev. apply HQ; try (by destruct (zv_avail zs v =? 0)).
  - split; try (by destruct (zv_avail zs v =? 0)).
    + intros y Hy. destruct (zv_avail zs v =? 0); cbn; by rewrite !upd_ne by done.
    + intros x Hx. destruct (zv_avail zs v =? 0); cbn; rewrite upd_ne; try done; lia.
  - assert (forall s', sl_zones s' = <[z := set_z_nfree (zv_avail zs v + 1) (set_z_freechunk a (sl_zones s z))]> (<[z := set_z_freechunk a (sl_zones s z)]> (sl_zones s)) ->
      c_next s' = <[a := z_freechunk (sl_zones s z)]> (c_next s) -> zone_rep zs s' z (zv_put v a)) as Hrep.
    { intros s' E1 E2. split; [done|..]; rewrite E1, upd_eq, Hh; cbn.
      - by rewrite Ev.
      - rewrite E2, upd_eq. split_and!; [done|lia|]. by apply nlist_upd. }
    rewrite Hh in Hrep. destruct (zv_avail zs v =? 0); apply Hrep; done.
Qed.
End put.
Lemma listed_put zs us z v a zi y : us !! z = Some (UZone v) -> zone_ok zs z v -> (zs = 2 ^ 15 \/ zs = 2 ^ 16 \/ zs = 2 ^ 17) ->
  listed zs (<[z := UZone (zv_put v a)]> us) zi y <-> y = z /\ zv_index v = zi \/ listed zs us zi y.
Proof.
  intros Hz Ho Hzs. pose proof (zone_avail_range zs z v Ho) as Hr. pose proof (zv_put_avail zs v a) as Ev. rewrite listed_insert. split.
  - intros [[-> (w & [= <-] & Hw & _)]|[_ Hl]]; [left; by split|by right].
  - destruct (decide (y = z)) as [->|Hne].
    + intros Hor. left. split; [done|]. exists (zv_put v a). split_and!; [done| |lia]. destruct Hor as [[_ Hi]|(w & Hw & Hi & _)]; [done|].
      rewrite Hz in Hw. by injection Hw as <-.
    + intros [[Hy _]|Hl]; [done|by right].
Qed.
Lemma slab_base s V z u : slab_ok s V -> sv_uses V !! z = Some u -> 0 < z.
Proof. intros H Hz. destruct (so_spots _ _ H z u Hz) as [[_ _ F3 _] _]. pose proof (po_heap _ _ (so_pages _ _ H)). lia. Qed.
Lemma wp_put_chunk s V z v a n (Q : unit -> slabs -> Prop) : slab_ok s V -> sv_uses V !! z = Some (UZone v) -> grants z (UZone v) a n ->
  (forall s' V', slab_return s s' V V' a -> sv_runs V' = sv_runs V -> sv_spare V' = sv_spare V -> sv_uses V' = <[z := UZone (zv_put v a)]> (sv_uses V) -> Q tt s') ->
  wp (put_chunk z a) Q s.
Proof.
  intros H Hz Hg HQ. pose proof (so_sizes _ _ H) as Hzs. pose proof (so_uses _ _ H z _ Hz) as [Hr Hm]. pose proof (zr_ok _ _ _ _ Hr) as Ho.
  pose proof (slab_base _ _ _ _ H Hz) as Hz0. apply (wp_put_chunk_raw (sv_zsize V) Hzs s z v a n); [done..|]. intros s' Hs Hr' D1 D2 [D3 D4] Hu.
  set (first := zv_avail (sv_zsize V) v =? 0) in *. set (us := <[z := UZone (zv_put v a)]> (sv_uses V)).
  assert (forall zi, 0 <= zi < NZONES -> z ∈ sv_lists V zi -> zi = zv_index v /\ first = false) as Hin.
  { intros zi Hzi Hx. apply (so_lists _ _ H zi Hzi) in Hx as (w & Hw & <- & Hav). rewrite Hz in Hw. injection Hw as <-. split; [done|]. unfold first. lia. }
  pose proof (zo_index _ _ _ Ho) as Hidx.
  apply (HQ s' (mk_sv (sv_zsize V) (sv_runs V) us (if first then <[zv_index v := z :: sv_lists V (zv_index v)]> (sv_lists V) else sv_lists V) (sv_spare V))); try done.
  split; cbn [sv_uses sv_zsize]; [apply (slab_ok_use s s' V z)|..]; try done.
  - eapply spots_replace; [apply H|exact Hz|done].
  - split; [done|]. destruct Hs as [_ [B1 _] _ (M1 & M2 & _) _ _ _]. by apply (marked_frame _ s).
  - intros zj Hzj. pose proof (so_lists _ _ H zj Hzj) as Lj. rewrite D1, D2. destruct first eqn:Ef.
    + destruct (decide (zj = zv_index v)) as [->|Hne].
      * rewrite !upd_eq. eapply zone_list_push; [exact Lj|lia|by intros [_ [=]]%Hin|by rewrite upd_eq|intros x Hx; apply upd_ne; intros <-; by apply Hin in Hx as [_ [=]]|].
        intros y. unfold us. rewrite listed_put by done. tauto.
      * rewrite !upd_ne by done. eapply zone_list_ext; [exact Lj|intros x Hx; apply upd_ne; intros <-; by apply Hin in Hx as [_ [=]]|].
        intros y. unfold us. rewrite listed_put by done. split; [by intros [[_ E]|?]; [|done]|by right].
    + eapply zone_list_ext; [exact Lj|done|]. intros y. unfold us. rewrite listed_put by done. split; [|by right].
      intros [[-> <-]|Hl]; [|done]. exists v. split_and!; try done. pose proof (zone_avail_range _ _ _ Ho). unfold first in Ef. lia.
  - rewrite D3, D1. eapply zone_list_ext; [apply H| |intros y; by apply (spare_insert _ _ _ (UZone v))].
    intros x Hx. destruct first; [|done]. apply upd_ne. intros <-. apply (so_spare _ _ H) in Hx. congruence.
  - rewrite D4. apply H.
  - rewrite Hu, (so_used _ _ H). unfold us. rewrite (live_bytes_replace _ _ _ _ Hz), zv_put_bytes. unfold Z.sub at 1. rewrite used_after. f_equal. lia.
  - intros b m. unfold us. rewrite live_replace, (live_delete _ _ _ b m Hz), zv_put_grants. split; [|tauto].
    intros [[Hb Hne]|Hl]; [by split; [left|]|]. split; [by right|]. intros ->. destruct Hg as (_ & _ & i & Hi & ->).
    destruct (chunk_at_in _ Hzs z v i Ho) as [C1 C2]; [destruct Ho; lia|]. pose proof (zone_pages_eq _ Hzs) as [Ez _]. pose proof (zone_ok_geometry _ Hzs _ _ Ho) as (G1 & _).
    apply (zone_not_elsewhere s V z (UZone v) (chunk_at z v i) H) with (m := m); [by apply (so_spots _ _ H)| |exact Hl]. cbn [use_pages]. lia.
  - destruct Hs as [_ [B1 B2] _ _ _ _ _]. by split_and!.
  - by destruct Hs.
Qed.

(** *** A zone leaves its list *)
Definition zone_at (pz : zone_link) (s : slabs) : Z := match pz with ZoneArray zi => zone_array s zi | ZoneNext z => z_next s z end.
(** Only links of zones change: that of [pz] and those of the zones [pre]. *)
Record links_step (s s' : slabs) (pz : zone_link) (pre : list Z) : Prop := {
  lk_eq : exists f g, s' = set_z_next f (set_zone_array g s);
  lk_next : forall x, x ∉ pre -> pz <> ZoneNext x -> z_next s' x = z_next s x;
  lk_array : forall zi, pz <> ZoneArray zi -> zone_array s' zi = zone_array s zi
}.
Lemma wp_unlink_zone z post : forall pre fuel pz s (Q : unit -> slabs -> Prop), (length pre < fuel)%nat ->
  nlist (z_next s) (zone_at pz s) (pre ++ z :: post) -> NoDup (pre ++ z :: post) -> (forall q, pz = ZoneNext q -> q ∉ pre ++ z :: post) ->
  (forall s', links_step s s' pz pre -> nlist (z_next s') (zone_at pz s') (pre ++ post) -> Q tt s') ->
  wp (unlink_zone fuel pz z) Q s.
Proof.
  induction pre as [|x pre IH]; intros fuel pz s Q Hf Hl Hnd Hq HQ; (destruct fuel as [|fuel]; [cbn in Hf; lia|]); cbn [unlink_zone].
  - cbn [app nlist] in Hl. destruct Hl as (E & Hz & Hl). assert (wp (load_zone pz) (fun p s1 => p = z /\ s1 = s) s) as Hload by (by destruct pz).
    wp1. eapply wp_mono; [exact Hload|]. intros p s1 [-> ->]. rewrite Z.eqb_refl. unfold zone_next. do 2 wp1. cbn [app] in *.
    assert (post <> [] -> z ∉ post) as Hn by (intros _; by apply NoDup_cons in Hnd as [? _]). destruct pz as [zi|q]; cbn [store_zone zone_at] in *.
    + unfold set_zone_head. apply HQ.
      * split; try done; [by exists (z_next s), (<[zi := z_next s z]> (zone_array s)); destruct s|]. intros zj Hne. cbn. rewrite upd_ne; [done|]. congruence.
      * cbn. by rewrite upd_eq.
    + unfold set_zone_next. assert (q ∉ z :: post) as Hqn by (by apply Hq). apply HQ.
      * split; try done; [by exists (<[q := z_next s z]> (z_next s)), (zone_array s); destruct s|]. intros y _ Hne. cbn. rewrite upd_ne; [done|]. congruence.
      * cbn. rewrite upd_eq. apply nlist_upd; [done|]. intros Hy. apply Hqn. by right.
  - cbn [app nlist] in Hl. destruct Hl as (E & Hx & Hl). assert (wp (load_zone pz) (fun p s1 => p = x /\ s1 = s) s) as Hload by (by destruct pz).
    wp1. eapply wp_mono; [exact Hload|]. intros p s1 [-> ->]. cbn [app] in Hnd. apply NoDup_cons in Hnd as [Hxn Hnd].
    assert (x <> z) as Hxz by (intros ->; apply Hxn, elem_of_app; right; by left). rewrite (proj2 (Z.eqb_neq x z) Hxz), (proj2 (Z.eqb_neq x 0) Hx).
    apply (IH fuel (ZoneNext x)); [cbn in Hf; lia|exact Hl|done|by intros q [= <-]|]. intros s' [K1 K2 K3] Hl'. apply HQ.
    + split; [done|..].
      * intros y Hy Hne. rewrite not_elem_of_cons in Hy. apply K2; [tauto|]. intros [= ->]. tauto.
      * intros zi Hne. by apply K3.
    + cbn [app nlist zone_at] in *. split_and!; [|done|exact Hl']. rewrite <- E. destruct pz as [zi|q]; cbn [zone_at]; [by apply K3|].
      assert (q ∉ x :: pre ++ z :: post) as Hqn by (by apply Hq). rewrite not_elem_of_cons, not_elem_of_app in Hqn. apply K2; [tauto|]. intros [= ->]. tauto.
Qed.
(** The zones of a list fit into the heap. *)
Lemma zones_length s V xs : slab_ok s V -> NoDup xs -> (forall z, z ∈ xs -> exists u, sv_uses V !! z = Some u) -> (length xs < page_fuel s)%nat.
Proof.
  intros H Hnd Hin. pose proof (so_pages _ _ H) as [_ _ Hh]. set (n := (heap_end s - heap_start s) / 4096).
  assert ((page_index s <$> xs) ⊆+ seqZ 0 n) as Hs.
  { apply NoDup_submseteq.
    - apply NoDup_fmap_2_strong; [|done]. intros x y Hx Hy E. destruct (Hin x Hx) as (u & Hu), (Hin y Hy) as (w & Hw).
      destruct (so_spots _ _ H x u Hu) as [[_ X _ _] _], (so_spots _ _ H y w Hw) as [[_ Y _ _] _].
      pose proof (page_index_aligned s x y (so_aligned _ _ H) X Y). unfold RT_MM_PAGE_SIZE in *. lia.
    - intros i Hi. apply list_elem_of_fmap in Hi as (x & -> & Hx). destruct (Hin x Hx) as (u & Hu). destruct (so_spots _ _ H x u Hu) as [[X1 X2 X3 _] _].
      apply elem_of_seqZ. unfold page_index, n, RT_MM_PAGE_SIZE in *. split; [apply Z.div_pos; lia|].
      assert ((x - heap_start s + 1 * 4096) / 4096 <= (heap_end s - heap_start s) / 4096) as Hle by (apply Z.div_le_mono; lia).
      rewrite Z.div_add in Hle by lia. lia. }
  apply submseteq_length in Hs. rewrite length_fmap, length_seqZ in Hs. unfold page_fuel, RT_MM_PAGE_BITS. rewrite Z.shiftr_div_pow2 by lia. change (2 ^ 12) with 4096. fold n. lia.
Qed.

(** *** A zone without blocks *)
(** What [retire_zone] leaves: the zone is on no list of its index, and first of the spare ones. *)
Record retired (s s' : slabs) (V : slab_view) (z : Z) (lists : Z -> list Z) : Prop := {
  rt_step : zone_step (sv_zsize V) s s' z;
  rt_lists : forall zi, 0 <= zi < NZONES -> zone_list (z_next s') (zone_array s' zi) (lists zi) (fun y => y <> z /\ listed (sv_zsize V) (sv_uses V) zi y);
  rt_next : z_next s' z = zone_free s;
  rt_spare : forall x, x ∈ sv_spare V -> z_next s' x = z_next s x;
  rt_first : zone_free s' = z;
  rt_count : zone_free_cnt s' = zone_free_cnt s + 1;
  rt_used : used_mem s' = used_mem s
}.
Lemma wp_retire_zone s V z v (Q : unit -> slabs -> Prop) : slab_ok s V -> sv_uses V !! z = Some (UZone v) -> 0 < zv_avail (sv_zsize V) v ->
  (forall s' lists, retired s s' V z lists -> Q tt s') -> wp (retire_zone z) Q s.
Proof.
  intros H Hz Ha HQ. pose proof (so_uses _ _ H z _ Hz) as [Hr _]. pose proof (zo_index _ _ _ (zr_ok _ _ _ _ Hr)) as Hidx. set (zi := zv_index v) in *.
  pose proof (so_lists _ _ H zi Hidx) as Lz. assert (z ∈ sv_lists V zi) as Hin by (apply Lz; by exists v).
  assert (forall x zj, 0 <= zj < NZONES -> zj <> zi -> x ∈ sv_lists V zj -> x ∉ sv_lists V zi) as Hdis.
  { intros x zj Hzj Hne Hx Hx'. apply (so_lists _ _ H zj Hzj) in Hx as (w & Hw & E & _). apply (so_lists _ _ H zi Hidx) in Hx' as (w' & Hw' & E' & _).
    rewrite Hw in Hw'. injection Hw' as <-. congruence. }
  assert (forall x, x ∈ sv_spare V -> x ∉ sv_lists V zi) as Hsp.
  { intros x Hx (w & Hw & _)%(zl_elem _ _ _ _ Lz). apply (so_spare _ _ H) in Hx. congruence. }
  apply list_elem_of_split in Hin as (pre & post & E). pose proof Lz as [L1 L2 L3]. rewrite E in L1, L2.
  assert ((length (pre ++ z :: post) < page_fuel s)%nat) as Hfuel.
  { apply (zones_length s V); [done|done|]. intros x Hx. rewrite <- E in Hx. apply L3 in Hx as (w & Hw & _). by eexists. }
  rewrite length_app in Hfuel. cbn [length] in Hfuel. unfold retire_zone, zone, mod_zone, set_zone_next. do 2 wp1. do 2 wp1. rewrite (zr_header _ _ _ _ Hr). cbn [z_zoneindex]. fold zi.
  wp1. eapply (wp_unlink_zone z post pre _ (ZoneArray zi)); [lia|exact L1|exact L2|done|]. intros s1 [(f & g & Es) K2 K3] Hl1. rewrite Es in *. clear Es. cbn [zone_at z_next zone_array set_z_next set_zone_array] in *.
  do 2 wp1. do 2 wp1. do 2 wp1. do 2 wp1. wp1. cbn [zone_free set_z_next set_zone_array set_sl_zones].
  assert (forall x, x ∉ sv_lists V zi -> f x = z_next s x) as Hf by (intros x Hx; apply K2; [|done]; intros Hx'; apply Hx; rewrite E; apply elem_of_app; by left).
  assert (NoDup (pre ++ post) /\ z ∉ pre ++ post) as [Hnd Hzn].
  { apply NoDup_app in L2 as (N1 & N2 & [N3 N4]%NoDup_cons). split; [apply NoDup_app; split_and!; try done; intros x Hx Hx'; apply (N2 x Hx); by right|].
    intros [Hx|Hx]%elem_of_app; [apply (N2 z Hx); by left|done]. }
  assert (forall x, x ∈ sv_lists V zi <-> x = z \/ x ∈ pre ++ post) as Hel by (intros x; rewrite E, !elem_of_app, elem_of_cons; tauto).
  apply (HQ _ (<[zi := pre ++ post]> (sv_lists V))). split; try done.
  - split; try done. intros y Hy. cbn. by rewrite upd_ne.
  - intros zj Hzj. cbn. destruct (decide (zj = zi)) as [->|Hne].
    + rewrite upd_eq. split; [by apply nlist_upd|done|]. intros y. rewrite <- L3, Hel. split; [intros Hy; split; [by intros ->|by right]|intros [? [|]]; done].
    + rewrite upd_ne by done. rewrite K3 by congruence. pose proof (so_lists _ _ H zj Hzj) as Lj. eapply zone_list_ext; [exact Lj| |].
      * intros x Hx. pose proof (Hdis x zj Hzj Hne Hx) as Hx'. rewrite upd_ne; [by apply Hf|]. intros <-. apply Hx', Hel. by left.
      * intros y. split; [by intros [_ ?]|]. intros Hy. split; [|done]. intros ->. destruct Hy as (w & Hw & Ei & _). rewrite Hz in Hw. injection Hw as <-. by apply Hne.
  - cbn. by rewrite upd_eq.
  - intros x Hx. cbn. pose proof (Hsp x Hx) as Hx'. rewrite upd_ne; [by apply Hf|]. intros <-. apply Hx', Hel. by left.
Qed.
Lemma zone_step_free zs s s1 z f c : zone_step zs s s1 z -> zone_step zs s (set_zone_free_cnt c (set_zone_free f s1)) z.
Proof. by intros []. Qed.
Lemma wp_release_zone s s1 V z v lists (Q : option Z -> slabs -> Prop) : slab_ok s V -> sv_uses V !! z = Some (UZone v) -> zv_avail (sv_zsize V) v = zv_nmax (sv_zsize V) v ->
  retired s s1 V z lists ->
  (forall s' V', slab_quiet s s' V V' -> Q None s') ->
  (forall s' V', slab_quiet s s' V V' -> spot (sv_zsize V) s' (sv_runs V') (sv_uses V') z (zone_pages (sv_zsize V)) -> Q (Some z) s') ->
  wp release_zone Q s1.
Proof.
  intros H Hz Ha [R1 R2 R3 R4 R5 R6 R7] HN HS. pose proof (so_uses _ _ H z _ Hz) as [Hr Hm]. pose proof (zr_ok _ _ _ _ Hr) as Ho. pose proof (so_sizes _ _ H) as Hzs.
  pose proof (zone_empty _ z v Ho Ha) as Hg. pose proof (zone_empty_bytes _ z v Ho Ha) as Hb. destruct (so_count _ _ H) as [Hc1 Hc2].
  pose proof (slab_base _ _ _ _ H Hz) as Hz0. pose proof (so_spare _ _ H) as Ls. assert (z ∉ sv_spare V) as Hzs' by (intros Hx; apply Ls in Hx; congruence).
  pose proof (zp_heap _ _ _ _ R1) as [B1 B2]. pose proof (zp_bytes _ _ _ _ R1) as B3. unfold release_zone. do 2 wp1. rewrite R6, Hc1. unfold ZONE_RELEASE_THRESH.
  destruct (Z.gtb_spec (Z.of_nat (length (sv_spare V)) + 1) 2) as [Hgt|Hle].
  - do 2 wp1. rewrite R5. unfold pop_zone, zone_next. wp1. do 2 wp1. do 2 wp1. wp1. cbn [zone_free_cnt set_zone_free]. rewrite R3, R6. set (s2 := set_zone_free_cnt _ _).
    assert (slab_ok s2 (mk_sv (sv_zsize V) (sv_runs V) (delete z (sv_uses V)) lists (sv_spare V))) as Hok2.
    { apply (slab_ok_at s s2 V z); try done.
      - by apply zone_step_free.
      - intros y Hne. by rewrite lookup_delete_ne.
      - rewrite delete_delete_eq. exact (so_spots _ _ H z _ Hz).
      - by apply spots_delete, H.
      - intros u. by rewrite lookup_delete_eq.
      - intros zi Hzi. eapply zone_list_ext; [by apply R2|done|]. intros y. by rewrite listed_delete.
      - eapply zone_list_ext; [exact Ls|exact R4|]. intros y. rewrite lookup_delete_Some. split; [by intros [_ ?]|]. intros Hy. split; [|done]. intros <-. congruence.
      - cbn. rewrite Hc1. split; [lia|done].
      - cbn. rewrite R7, (so_used _ _ H). by rewrite (spare_bytes _ _ _ Hz). }
    assert (spot (sv_zsize V) s2 (sv_runs V) (delete z (sv_uses V)) z (zone_pages (sv_zsize V))) as Hsp by (apply (spot_heap _ s); [exact (so_spots _ _ H z _ Hz)|done..]).
    pose proof (sp_free _ _ _ _ _ _ Hsp) as [F1 F2 F3 F4]. pose proof (po_heap _ _ (so_pages _ _ Hok2)) as Hh.
    wp1. apply wp_btokup; [unfold RT_MM_PAGE_SIZE in *; lia|]. do 2 wp1. destruct (so_zsize _ _ Hok2) as (_ & _ & ->). cbn [sv_zsize].
    wp1. apply wp_unmark_pages. intros s3 Hmu. rewrite Z2Nat.id in Hmu by lia. pose proof (mu_step_heap _ _ _ _ Hmu) as (M1 & M2 & M3). wp1.
    apply (HS s3 (mk_sv (sv_zsize V) (sv_runs V) (delete z (sv_uses V)) lists (sv_spare V))); [|by apply (spot_heap _ s2)].
    split; [by apply (slab_ok_mu s2 _ _ z (zone_pages (sv_zsize V)))| |rewrite M1, M2; by split_and!|rewrite M3; exact B3].
    by apply (live_delete_nothing _ _ (UZone v)).
  - wp1. apply (HN s1 (mk_sv (sv_zsize V) (sv_runs V) (<[z := USpare]> (sv_uses V)) lists (z :: sv_spare V))).
    split; cbn [sv_uses sv_zsize]; [|intros b m|by split_and!|done].
    + apply (slab_ok_use s s1 V z); try done.
      * eapply spots_replace; [apply H|exact Hz|done].
      * destruct R1 as [_ _ _ (E1 & E2 & _) _ _ _]. by apply (marked_frame _ s).
      * intros zi Hzi. eapply zone_list_ext; [by apply R2|done|]. intros y. rewrite listed_insert. split; [|by right].
        intros [[_ (w & [=] & _)]|Hl]; done.
      * rewrite R5. eapply zone_list_push; [exact Ls|lia|done|exact R3|exact R4|]. intros y. rewrite lookup_insert_Some. split.
        -- intros [[-> _]|[_ Hy]]; [by left|by right].
        -- destruct (decide (y = z)) as [->|Hne]; [by left|]. intros [|Hy]; [done|]. by right.
      * rewrite R6, Hc1. cbn [length]. lia.
      * rewrite R7, (so_used _ _ H), (live_bytes_replace _ _ _ _ Hz), Hb. cbn [use_bytes]. f_equal. lia.
    + rewrite live_replace, (live_delete _ _ _ b m Hz). cbn [grants]. split; [intros [[]|]; by right|]. intros [Hx|]; [by destruct (Hg b m)|by right].
Qed.

(** *** The whole section *)
Lemma chunk_page s V z v a n : slab_ok s V -> sv_uses V !! z = Some (UZone v) -> grants z (UZone v) a n ->
  exists j, page_of a = z + j * PAGE /\ 0 <= page_of a - heap_start s < 2 ^ 32 /\
    mu_type s (page_index s (page_of a)) = PAGE_TYPE_SMALL /\ mu_size s (page_index s (page_of a)) = j.
Proof.
  intros H Hz Hg. destruct (so_uses _ _ H z _ Hz) as [_ Hm]. pose proof (slab_grants_in _ _ _ _ _ _ H Hz Hg) as (I1 & I2 & I3 & _).
  destruct (so_spots _ _ H z _ Hz) as [[F1 F2 F3 F4] _]. pose proof (po_heap _ _ (so_pages _ _ H)). cbn [use_pages] in *.
  destruct (page_of_in z (zone_pages (sv_zsize V)) a F2) as (j & Hj & E); [lia|]. exists j. rewrite E, page_index_add.
  destruct (Hm j Hj) as [E1 E2]. split_and!; try done; unfold RT_MM_PAGE_SIZE in *; nia.
Qed.
Lemma wp_chunk_free_section s V z v a n (Q : option Z -> slabs -> Prop) : slab_ok s V -> sv_uses V !! z = Some (UZone v) -> grants z (UZone v) a n ->
  (forall s' V', slab_return s s' V V' a -> Q None s') ->
  (forall s' V', slab_return s s' V V' a -> spot (sv_zsize V') s' (sv_runs V') (sv_uses V') z (zone_pages (sv_zsize V')) -> Q (Some z) s') ->
  wp (chunk_free_section a) Q s.
Proof.
  intros H Hz Hg HN HS. destruct (chunk_page _ _ _ _ _ _ H Hz Hg) as (j & E & Hb & _ & Ej). unfold chunk_free_section, chunk_zone. wp1. wp1. apply wp_btokup; [done|].
  do 2 wp1. wp1. rewrite Ej. replace (page_of a - j * PAGE) with z by lia. wp1. eapply wp_put_chunk; [exact H|exact Hz|exact Hg|].
  intros s1 V1 Hret _ _ Eu. pose proof (sr_ok _ _ _ _ _ Hret) as H1. assert (sv_uses V1 !! z = Some (UZone (zv_put v a))) as Hz1 by (rewrite Eu; apply lookup_insert_eq).
  pose proof (sr_heap _ _ _ _ _ Hret) as (_ & _ & Ez). destruct (so_uses _ _ H1 z _ Hz1) as [Hr1 _].
  pose proof (slab_zone_ok _ _ _ _ H Hz) as Ho. pose proof (zone_avail_range _ z v Ho) as Hav. pose proof (zv_put_avail (sv_zsize V1) v a) as Hav1. rewrite Ez in Hav1 at 2.
  unfold zone, zone_next, zone_head. do 2 wp1. do 2 wp1. do 2 wp1. rewrite (zr_header _ _ _ _ Hr1). cbn [z_nfree z_nmax z_zoneindex].
  destruct (Z.eqb_spec (zv_avail (sv_zsize V1) (zv_put v a)) (zv_nmax (sv_zsize V1) (zv_put v a))) as [Ea|]; cbn [andb]; [|wp1; by apply (HN s1 V1)].
  case_match; [|wp1; by apply (HN s1 V1)]. wp1. eapply wp_retire_zone; [exact H1|exact Hz1|lia|]. intros s2 lists Hret2.
  eapply wp_release_zone; [exact H1|exact Hz1|exact Ea|exact Hret2|..].
  - intros s3 V3 Hq. apply (HN s3 V3). by eapply slab_return_then.
  - intros s3 V3 Hq Hsp. apply (HS s3 V3); [by eapply slab_return_then|]. pose proof (sq_heap _ _ _ _ Hq) as (_ & _ & ->). done.
Qed.
(** A block of whole pages. *)
Lemma wp_large_free_section s V a n (Q : Z -> slabs -> Prop) : slab_ok s V -> sv_uses V !! a = Some (ULarge n) ->
  (forall s' V', slab_return s s' V V' a -> spot (sv_zsize V') s' (sv_runs V') (sv_uses V') a n -> Q n s') ->
  wp (large_free_section (page_index s a)) Q s.
Proof.
  intros H Ha HQ. destruct (so_uses _ _ H a _ Ha) as [Ht Hs]. pose proof (so_spots _ _ H a _ Ha) as Hsp. cbn [use_pages] in Hsp. pose proof Hsp as [[F1 F2 F3 F4] Hd].
  pose proof H as [S1 S2 S3 S4 S5 S6 S7 S8 S9 S10]. unfold large_free_section, uncount_mem. do 2 wp1. do 2 wp1. do 2 wp1. wp1. rewrite Hs.
  cbn [used_mem set_mu_size]. set (s1 := set_used_mem (uint32 (used_mem s - n * PAGE)) s).
  assert (slab_ok s1 (set_sv_uses (delete a (sv_uses V)) V)) as Hok.
  { split; cbn [sv_zsize sv_runs sv_uses sv_lists sv_spare set_sv_uses]; try done.
    - by apply (page_ok_frame s).
    - apply (spots_heap _ s); [by apply spots_delete|done..].
    - intros y u [Hne Hy]%lookup_delete_Some. specialize (S6 y u Hy). destruct u as [v| | |]; cbn [use_rep] in *; try done.
      destruct S6 as [Hr Hm]. split; [by apply (zone_rep_frame _ s)|done].
    - intros zi Hzi. eapply zone_list_ext; [by apply S7|done|]. intros y. rewrite listed_delete. split; [by intros [_ ?]|].
      intros Hy. split; [|done]. intros ->. destruct Hy as (v & Hv & _). congruence.
    - eapply zone_list_ext; [exact S8|done|]. intros y. rewrite lookup_delete_Some. split; [by intros [_ ?]|]. intros Hy. split; [|done]. intros <-. congruence.
    - cbn. rewrite S10, (live_bytes_delete _ _ _ Ha). unfold Z.sub. rewrite used_after. f_equal. cbn [use_bytes]. lia. }
  assert (spot (sv_zsize V) s1 (sv_runs V) (delete a (sv_uses V)) a n) as Hsp1 by (by apply (spot_heap _ s)).
  apply (HQ _ (set_sv_uses (delete a (sv_uses V)) V)).
  - split; try done.
    + apply (slab_ok_mu s1 _ _ a n Hok Hsp1). exists (mu_type s), (<[page_index s a := 0]> (mu_size s)). split; [by destruct s|].
      intros j Hj. split; [done|]. apply upd_ne. intros <-. apply Hj. change (page_index s1 a) with (page_index s a). lia.
    + intros b m. cbn [sv_uses set_sv_uses]. rewrite (live_delete _ _ _ b m Ha). cbn [grants]. split.
      * intros Hl. split; [by right|]. intros ->. apply (zone_not_elsewhere s V a (ULarge n) a H) with (m := m); [exact Hsp|cbn [use_pages]; unfold RT_MM_PAGE_SIZE in *; lia|exact Hl].
      * intros [[[-> _]|Hl] Hne]; done.
  - by apply (spot_heap _ s1).
Qed.
