(* ===== verification/SlabCalls.v ===== *)
(** The calls of the slab allocator when the heap is unlocked: rt_malloc grants a block that
    nobody has, rt_free takes one back, rt_realloc keeps the contents. *)
From stdpp Require Import gmap.
From S2P Require Import Prelude RtList Kservice MemOps Kernel Scheduler Object TimerCore Invariant Thread Timer Ipc Semaphore Lock Resume Slab PageSpec SlabSpec SlabMalloc SlabFree.

(** *** Pages for the slab allocator *)
Lemma page_moved_rep zs s s' z u : page_moved s s' -> use_rep zs s z u -> use_rep zs s' z u.
Proof.
  intros -> Hu. destruct u as [v| | |]; cbn [use_rep] in *; try done. destruct Hu as [Hr Hm]. split; [by apply (zone_rep_frame _ s)|done].
Qed.
(** The free runs change around the uses. *)
Lemma slab_ok_paged s s' V rs : slab_ok s V -> page_moved s s' -> page_ok s' rs -> spots (sv_zsize V) s rs (sv_uses V) -> slab_ok s' (set_sv_runs rs V).
Proof.
  intros [S1 S2 S3 S4 S5 S6 S7 S8 S9 S10] Hm Hp Hs. destruct (page_moved_heap _ _ Hm) as [B1 B2].
  split; cbn [sv_zsize sv_runs sv_uses sv_lists sv_spare set_sv_runs]; try done; [by rewrite B1|by rewrite Hm|by apply (spots_heap _ s)|..].
  - intros z u Hz. eapply page_moved_rep; [done|by apply S6].
  - intros zi Hzi. rewrite Hm. by apply S7.
  - rewrite Hm. exact S8.
  - rewrite Hm. exact S9.
  - rewrite Hm. exact S10.
Qed.
Lemma slab_take_pages s s' V n a rs : slab_ok s V -> 0 < n -> page_take n (sv_runs V) = Some (a, rs) -> page_moved s s' -> page_ok s' rs ->
  slab_quiet s s' V (set_sv_runs rs V) /\ spot (sv_zsize V) s' rs (sv_uses V) a n.
Proof.
  intros H Hn Et Hm Hok. pose proof (po_apart _ _ (so_pages _ _ H)) as Ha. destruct (page_take_apart _ _ _ _ _ _ Hn Ha Et) as [Ha' Hlo].
  destruct (page_take_clear _ _ _ _ _ _ Hn Ha Et) as (Hc & Hal & Hhi). destruct (page_moved_heap _ _ Hm) as [B1 B2].
  pose proof (fun x => page_take_free _ _ _ _ _ _ x Hn Ha Et) as Hfree. split.
  - split; try done; [|by rewrite Hm]. apply (slab_ok_paged s); try done. intros b u Hb. destruct (so_spots _ _ H b u Hb) as [Hf Hs].
    split; [|done]. eapply freeable_runs; [exact Ha|exact Ha'|exact Hf|]. intros x _ Hx. apply Hfree. by left.
  - split; [split; rewrite ?B1, ?B2; try done; lia|]. intros b u Hb. destruct (so_spots _ _ H b u Hb) as [[F1 F2 F3 F4] _].
    destruct (decide (a + n * PAGE <= b)); [by left|]. destruct (decide (b + use_pages (sv_zsize V) u * PAGE <= a)); [by right|]. exfalso.
    eapply clear_of_free in F4; [|exact Ha|done|]; [apply F4, Hfree; right|]; [instantiate (1 := Z.max a b)|]; unfold RT_MM_PAGE_SIZE in *; lia.
Qed.
Lemma slab_give_pages s s' V n a : slab_ok s V -> spot (sv_zsize V) s (sv_runs V) (sv_uses V) a n -> page_moved s s' -> page_ok s' (page_give a n (sv_runs V)) ->
  slab_quiet s s' V (set_sv_runs (page_give a n (sv_runs V)) V).
Proof.
  intros H [[F1 F2 F3 F4] Hs] Hm Hok. pose proof (po_apart _ _ (so_pages _ _ H)) as Ha. destruct (page_moved_heap _ _ Hm) as [B1 B2].
  split; try done; [|by rewrite Hm]. apply (slab_ok_paged s); try done. intros b u Hb. destruct (so_spots _ _ H b u Hb) as [Hf Hd].
  split; [|done]. eapply freeable_runs; [exact Ha|exact (po_apart _ _ Hok)|exact Hf|].
  intros x Hx [Hx'|?]%(page_give_free _ _ _ _ _ _ F1 Ha); [|done]. specialize (Hs b u Hb). lia.
Qed.

Section calls.
Context {cfg : Config} {kh : KHeap} {sz : ObjectSizes} {st : StaticThreads} {hs : SlabSem}.
Implicit Types (s : slstate).

(** *** rt_malloc *)
Definition request_pages (size : Z) : Z := Z.shiftr (RT_ALIGN size PAGE) RT_MM_PAGE_BITS.
Lemma align_page x : RT_ALIGN x PAGE = uint32 (x + 4095) / PAGE * PAGE.
Proof.
  unfold RT_ALIGN. rewrite <- page_of_eq. unfold page_of, RT_MM_PAGE_MASK. f_equal. unfold RT_MM_PAGE_SIZE. f_equal. lia.
Qed.
Lemma request_pages_spec size : 0 <= size < 2 ^ 32 ->
  RT_ALIGN size PAGE = request_pages size * PAGE /\ 0 <= request_pages size < 2 ^ 20 /\ (0 < request_pages size -> size <= request_pages size * PAGE).
Proof.
  intros Hs. unfold request_pages. rewrite align_page. unfold RT_MM_PAGE_BITS, RT_MM_PAGE_SIZE. rewrite Z.shiftr_div_pow2 by lia. change (2 ^ 12) with 4096.
  rewrite Z.div_mul by lia. pose proof (uint_range 32 (size + 4095)). split; [done|]. split.
  - split; [apply Z.div_pos; lia|apply Z.div_lt_upper_bound; lia].
  - intros Hp. destruct (decide (size + 4095 < 2 ^ 32)).
    + rewrite uint_small by lia. pose proof (Z.div_mod (size + 4095) 4096). pose proof (Z.mod_pos_bound (size + 4095) 4096). lia.
    + exfalso. unfold uint in Hp. rewrite (Z.mod_eq _ (2 ^ 32)) in Hp by lia.
      assert ((size + 4095) / 2 ^ 32 = 1) as E by (symmetry; apply Z.div_unique with (size + 4095 - 2 ^ 32); lia). rewrite E in Hp.
      assert ((size + 4095 - 2 ^ 32 * 1) / 4096 = 0); [apply Z.div_small; lia|lia].
Qed.
(** There is no room: nothing is asked for, or no run is long enough; a small request needs a
    run only when no zone has a chunk and none is spare. *)
Definition exhausted (V : slab_view) (size : Z) : Prop :=
  if size =? 0 then True
  else if size >=? zone_limit_of (sv_zsize V) then request_pages size = 0 \/ page_take (request_pages size) (sv_runs V) = None
  else sv_lists V (zoneindex size).1 = [] /\ sv_spare V = [] /\ page_take (zone_pages (sv_zsize V)) (sv_runs V) = None.
(** How often rt_malloc has released the semaphore when it fails. *)
Definition fail_count (V : slab_view) (size : Z) : Z :=
  if (size =? 0) || (size >=? zone_limit_of (sv_zsize V)) then 1 else 2.
(** The size of the block that a request gets. *)
Definition usable (V : slab_view) (size : Z) : Z :=
  if size >=? zone_limit_of (sv_zsize V) then request_pages size * PAGE else (zoneindex size).2.

Lemma wpr_malloc_large s V size (Q : Z -> slstate -> Prop) : heap_unlocked s -> slab_ok (ss_slab s) V -> 0 <= size < 2 ^ 32 ->
  (forall s', request_pages size = 0 \/ page_take (request_pages size) (sv_runs V) = None -> sem_at s s' 1 -> ss_slab s' = ss_slab s -> Q 0 s') ->
  (forall a s' V', slab_grant (ss_slab s) (ss_slab s') V V' a (request_pages size * PAGE) -> 0 < request_pages size -> a <> 0 -> sem_at s s' 1 -> Q a s') ->
  wpr (malloc_large size) Q s.
Proof.
  intros Hl H Hsz HN HS. destruct (request_pages_spec size Hsz) as (E & Hp & Hge). unfold malloc_large. rewrite E.
  change (Z.shiftr (request_pages size * PAGE) RT_MM_PAGE_BITS) with (Z.shiftr (request_pages size * PAGE) 12).
  replace (Z.shiftr (request_pages size * PAGE) 12) with (request_pages size) by (unfold RT_MM_PAGE_SIZE; rewrite Z.shiftr_div_pow2, Z.div_mul by lia; lia).
  set (n := request_pages size) in *. wpr1. destruct (decide (n = 0)) as [E0|E0].
  { rewrite E0. apply wpr_ret. cbn [Z.eqb]. apply wpr_ret. apply HN; [by left|by apply sem_at_refl|done]. }
  assert (0 < n) as Hn by lia. eapply wpr_page_alloc; [exact Hl|apply H|done| |].
  - intros s' Et Hs Es. cbn [Z.eqb]. wpr1. apply HN; [by right|done|done].
  - intros a rs s1 Et Hs1 Hm Hok. destruct (slab_take_pages _ _ _ _ _ _ H Hn Et Hm Hok) as [Hq Hsp].
    pose proof (sp_free _ _ _ _ _ _ Hsp) as [F1 F2 F3 F4]. pose proof (po_heap _ _ Hok) as Hh. destruct (Z.eqb_spec a 0); [unfold RT_MM_PAGE_SIZE in *; lia|].
    wpr1. apply wpr_on_slab. wp1. apply wp_btokup; [unfold RT_MM_PAGE_SIZE in *; lia|]. apply wp_set_usage. intros v Hv Ht Hz. rewrite uint_small in Hz by lia.
    wpr1. apply wpr_lock_heap; [by eapply sem_at_unlocked|]. intros k Hk. wpr1. apply wpr_on_slab, wp_count_mem. intros m. wpr1.
    apply (wpr_unlock_heap s1 _ 0); [by eapply sem_at_unlocked|exact Hk|lia|]. intros k' Hk'. wpr1. eapply (HS a); [|done|lia|].
    + eapply slab_grant_after; [exact Hq|apply zones_kept_refl|]. cbn [ss_slab set_ss_slab set_ss_kernel]. apply (slab_ok_large (ss_slab s1) v (set_sv_runs rs V) a n m); [by apply Hq|exact Hsp|exact Hv|exact Ht|exact Hz].
    + eapply sem_at_trans; [exact Hs1|exact Hk'].
Qed.

Lemma zoneindex_small n : 0 < n < 8192 -> (zoneindex n).2 <= 8192.
Proof.
  intros Hn. assert (((zoneindex n).2 <=? 8192) = true); [|lia].
  apply (check_from_spec (fun n => (zoneindex n).2 <=? 8192) (Z.to_nat 8191) 1); [vm_compute; reflexivity|lia].
Qed.
Lemma zoneindex_ok (s : slabs) V size : slab_ok s V -> 0 < size < zone_limit_of (sv_zsize V) ->
  exists zi, zoneindex size = (zi, chunk_of zi) /\ 0 <= zi < NZONES /\ size <= chunk_of zi <= zone_limit_of (sv_zsize V).
Proof.
  intros H Hs. pose proof (so_sizes _ _ H) as Hzs. pose proof (limit_eq _ Hzs) as (L1 & L2 & L3).
  destruct (zoneindex_spec size) as (zi & E & Hzi & Hc & Hm & Hw); [lia|]. exists zi. split_and!; try done; try lia.
  destruct Hzs as [Ez|[Ez|Ez]]; rewrite Ez in *; [|exact (proj2 Hc)..].
  pose proof (zoneindex_small size) as Hsm. rewrite E in Hsm. change (zone_limit_of (2 ^ 15)) with 8192 in *. cbn [snd] in Hsm. lia.
Qed.
Lemma wpr_malloc_zone s0 s V zi (Q : Z -> slstate -> Prop) : heap_unlocked s0 -> sem_at s0 s 0 -> slab_ok (ss_slab s) V -> 0 <= zi < NZONES -> chunk_of zi <= zone_limit_of (sv_zsize V) ->
  (forall s', sv_spare V = [] -> page_take (zone_pages (sv_zsize V)) (sv_runs V) = None -> sem_at s0 s' 2 -> ss_slab s' = ss_slab s -> Q 0 s') ->
  (forall a s' V', slab_grant (ss_slab s) (ss_slab s') V V' a (chunk_of zi) -> sem_at s0 s' 1 -> Q a s') ->
  wpr (malloc_zone zi (chunk_of zi)) Q s.
Proof.
  intros Hl Hs H Hzi Hc HN HS. pose proof (so_sizes _ _ H) as Hzs. destruct (zone_pages_eq _ Hzs) as [Ep Hp]. destruct (limit_eq _ Hzs) as (L1 & L2 & L3).
  assert (0 < zone_pages (sv_zsize V)) as Hzp by lia.
  unfold malloc_zone. wpr1. apply wpr_gets_slab. pose proof (zl_list _ _ _ _ (so_spare _ _ H)) as Hsl. destruct (sv_spare V) as [|z zl] eqn:Esp; cbn [nlist] in Hsl.
  - rewrite Hsl. cbn [negb Z.eqb]. wpr1. apply (wpr_unlock_heap s0 _ 0); [done|done|lia|]. intros k Hk. wpr1. apply wpr_gets_slab.
    cbn [ss_slab set_ss_kernel]. destruct (so_zsize _ _ H) as (Z1 & Z2 & Z3). rewrite Z1. change (sv_zsize V / PAGE) with (zone_pages (sv_zsize V)).
    assert (heap_unlocked (set_ss_kernel k s)) as Hl1 by (by apply (sem_at_unlocked s0)). wpr1.
    apply (wpr_page_alloc _ (sv_runs V)); [done|apply H|lia| |].
    + intros s1 Et Hs1 Es1. cbn [Z.eqb]. wpr1. apply (wpr_unlock_heap s0 _ 1); [done|exact (sem_at_trans s0 (set_ss_kernel k s) s1 _ _ Hk Hs1)|lia|]. intros k' Hk'. wpr1. by apply HN.
    + intros z rs s1 Et Hs1 Hm Hok. destruct (slab_take_pages _ _ V _ _ _ H Hzp Et Hm Hok) as [Hq Hspot].
      pose proof (sp_free _ _ _ _ _ _ Hspot) as [F1 F2 F3 F4]. pose proof (po_heap _ _ Hok) as Hh. destruct (Z.eqb_spec z 0); [lia|].
      wpr1. apply wpr_lock_heap; [by eapply sem_at_unlocked|]. intros k' Hk'. wpr1. apply wpr_on_slab. unfold mark_zone. wp1. apply wp_btokup; [cbn; unfold RT_MM_PAGE_SIZE in *; lia|].
      do 2 wp1. cbn [ss_slab set_ss_kernel]. pose proof (so_zsize _ _ (sq_ok _ _ _ _ Hq)) as (_ & _ & ->). cbn [sv_zsize set_sv_runs].
      apply wp_mark_pages; [lia|lia|]. intros v Hv Hmark. rewrite Z2Nat.id in Hv, Hmark by lia.
      pose proof (slab_ok_mu _ _ _ _ _ (sq_ok _ _ _ _ Hq) Hspot Hv) as Hok2. destruct (mu_step_heap _ _ _ _ Hv) as (B1 & B2 & B3).
      wpr1. apply wpr_on_slab. apply (wp_zone_setup v (set_sv_runs rs V) z zi); try done; [by apply (spot_heap _ (ss_slab s1))|intros j Hj; unfold page_index; rewrite B1; by apply Hmark|].
      intros a s' V' Hg _. wpr1. apply (wpr_unlock_heap s1 _ 0); [by eapply sem_at_unlocked|done|lia|]. intros k'' Hk''. wpr1.
      apply (HS a _ V'); [|exact (lock_at_trans _ _ _ _ _ _ Hk (lock_at_trans _ _ _ _ _ _ Hs1 Hk''))].
      cbn [ss_slab set_ss_kernel set_ss_slab]. eapply slab_grant_after; [exact Hq|apply zones_kept_refl|]. eapply slab_grant_after; [|apply zones_kept_refl|exact Hg]. by split.
  - destruct Hsl as (-> & Hz0 & _). apply Z.eqb_neq in Hz0 as Hz1. rewrite Hz1. cbn [negb]. wpr1. apply wpr_on_slab. eapply wp_pop_zone; [exact H|exact Esp|].
    intros v V1 Hq Er Hk1 Hspot Hm. wpr1. apply wpr_on_slab. pose proof (sq_heap _ _ _ _ Hq) as (_ & _ & Ez). rewrite <- Ez in Hc, Hspot, Hm.
    apply (wp_zone_setup v V1 z zi); [apply Hq|done|done|exact Hspot|done|]. intros a s' V' Hg _.
    wpr1. apply (wpr_unlock_heap s0 _ 0); [done|done|lia|]. intros k Hk. wpr1. apply (HS a _ V'); [|done]. by eapply slab_grant_after.
Qed.
Lemma wpr_slab_malloc s V size (Q : Z -> slstate -> Prop) : heap_unlocked s -> slab_ok (ss_slab s) V -> 0 <= size < 2 ^ 32 ->
  (forall s', exhausted V size -> sem_at s s' (fail_count V size) -> ss_slab s' = ss_slab s -> Q 0 s') ->
  (forall a s' V', slab_grant (ss_slab s) (ss_slab s') V V' a (usable V size) -> size <= usable V size -> a <> 0 -> sem_at s s' 1 -> Q a s') ->
  wpr (slab_malloc size) Q s.
Proof.
  intros Hl H Hsz HN HS. unfold slab_malloc, exhausted, fail_count, usable in *. destruct (Z.eqb_spec size 0) as [->|Hne].
  { wpr1. apply HN; [done|by apply sem_at_refl|done]. }
  wpr1. apply wpr_gets_slab. destruct (so_zsize _ _ H) as (Z1 & Z2 & Z3). rewrite Z2. destruct (Z.geb_spec size (zone_limit_of (sv_zsize V))) as [Hge|Hlt]; cbn [orb] in *.
  - eapply wpr_malloc_large; [exact Hl|exact H|done| |].
    + intros s' Hn Hs Es. by apply HN.
    + intros a s' V' Hg Hp Ha Hs. apply (HS a s' V'); try done. destruct (request_pages_spec size Hsz) as (_ & _ & Hr). by apply Hr.
  - destruct (zoneindex_ok _ V size H) as (zi & E & Hzi & Hc1 & Hc2); [lia|]. rewrite E in *. cbn [fst snd] in *.
    assert (forall a s' V', slab_grant (ss_slab s) (ss_slab s') V V' a (chunk_of zi) -> a <> 0) as Hnz.
    { intros a s' V' [G1 G2 _ _ _] ->. destruct (slab_blocks_safe _ _ 0 (chunk_of zi) G1) as (_ & Hlo & _); [apply G2; by right|].
      pose proof (po_heap _ _ (so_pages _ _ G1)). lia. }
    wpr1. apply wpr_lock_heap; [done|]. intros k Hk. wpr1. wpr1. wp1; [lia|]. wpr1. apply wpr_gets_slab. cbn [ss_slab set_ss_kernel].
    pose proof (zl_list _ _ _ _ (so_lists _ _ H zi Hzi)) as Hll. destruct (sv_lists V zi) as [|z zl] eqn:El; cbn [nlist] in Hll.
    + rewrite Hll. cbn [negb Z.eqb]. eapply (wpr_malloc_zone s _ V); try done.
      * intros s' Esp Et Hs Es. apply HN; [by split_and!|done|done].
      * intros a s' V' Hg Hs. apply (HS a s' V'); try done. by eapply Hnz.
    + destruct Hll as (-> & Hz0 & _). apply Z.eqb_neq in Hz0. rewrite Hz0. cbn [negb]. wpr1. apply wpr_on_slab. eapply wp_take_chunk; [exact H|done|exact El|].
      intros a v V' Hg _. wpr1. apply (wpr_unlock_heap s _ 0); [done|done|lia|]. intros k' Hk'. wpr1.
      eapply (HS a (set_ss_kernel k' _) V'); [exact Hg|done| |done]. apply (Hnz a (set_ss_kernel k' (set_ss_slab v s)) V'). exact Hg.
Qed.

(** *** rt_free *)
Lemma wpr_give s V a n (Q : unit -> slstate -> Prop) : heap_unlocked s -> slab_ok (ss_slab s) V -> spot (sv_zsize V) (ss_slab s) (sv_runs V) (sv_uses V) a n ->
  (forall s' V', slab_quiet (ss_slab s) (ss_slab s') V V' -> sem_at s s' 1 -> Q tt s') -> wpr (rt_page_free a n) Q s.
Proof.
  intros Hl H Hsp HQ. eapply wpr_page_free; [exact Hl|apply H|apply Hsp|]. intros s' Hs Hm Hok. eapply HQ; [|exact Hs]. by apply slab_give_pages.
Qed.
Lemma wpr_slab_free s V a n (Q : unit -> slstate -> Prop) : heap_unlocked s -> slab_ok (ss_slab s) V -> live (sv_uses V) a n ->
  (forall s' V', slab_return (ss_slab s) (ss_slab s') V V' a -> sem_at s s' 1 -> Q tt s') -> wpr (slab_free a) Q s.
Proof.
  intros Hl H (p & u & Hp & Hg) HQ. pose proof (slab_base _ _ _ _ H Hp) as Hp0. pose proof (slab_grants_in _ _ _ _ _ _ H Hp Hg) as (I1 & I2 & I3 & _).
  unfold slab_free. destruct (Z.eqb_spec a 0); [lia|]. wpr1. apply wpr_on_slab. destruct u as [v| |k|k]; try done.
  - destruct (chunk_page _ _ _ _ _ _ H Hp Hg) as (j & E & Hb & Et & _). apply wp_btokup; [done|]. replace (set_ss_slab (ss_slab s) s) with s by (by destruct s).
    wpr1. apply wpr_gets_slab. rewrite Et. change (PAGE_TYPE_SMALL =? PAGE_TYPE_LARGE) with false. cbn beta iota. wpr1. apply wpr_locked; [done|].
    eapply wp_chunk_free_section; [exact H|exact Hp|exact Hg|..].
    + intros v' V' Hr s' Hs <-. wpr1. by eapply HQ.
    + intros v' V' Hr Hsp s' Hs <-. wpr1. apply wpr_gets_slab. pose proof (sr_ok _ _ _ _ _ Hr) as Hok. destruct (so_zsize _ _ Hok) as (-> & _).
      change (sv_zsize V' / PAGE) with (zone_pages (sv_zsize V')). eapply wpr_give; [by eapply sem_at_unlocked|exact Hok|exact Hsp|].
      intros s2 V2 Hq Hs2. apply (HQ s2 V2); [by eapply slab_return_then|by eapply sem_at_trans].
  - destruct Hg as [-> ->]. destruct (so_spots _ _ H p _ Hp) as [[F1 F2 F3 F4] _]. pose proof (po_heap _ _ (so_pages _ _ H)) as Hh. destruct (so_uses _ _ H p _ Hp) as [Et _].
    rewrite page_of_aligned by done. apply wp_btokup; [unfold RT_MM_PAGE_SIZE in *; cbn [use_pages] in *; lia|]. replace (set_ss_slab (ss_slab s) s) with s by (by destruct s).
    wpr1. apply wpr_gets_slab. rewrite Et. change (PAGE_TYPE_LARGE =? PAGE_TYPE_LARGE) with true. cbn beta iota. wpr1. apply wpr_locked; [done|].
    eapply wp_large_free_section; [exact H|exact Hp|]. intros v' V' Hr Hsp s' Hs <-. eapply wpr_give; [by eapply sem_at_unlocked|apply Hr|exact Hsp|].
    intros s2 V2 Hq Hs2. apply (HQ s2 V2); [by eapply slab_return_then|by eapply sem_at_trans].
Qed.

(** *** rt_realloc *)
Lemma slab_ok_bytes (s : slabs) V f : slab_ok s V -> slab_ok (set_sl_bytes f s) V.
Proof.
  intros [S1 S2 S3 S4 S5 S6 S7 S8 S9 S10]. split; try done; [by apply (page_ok_frame s)|by apply (spots_heap _ s)|].
  intros z u Hz. specialize (S6 z u Hz). destruct u as [v| | |]; cbn [use_rep] in *; try done. destruct S6 as [Hr Hm]. split; [by apply (zone_rep_frame _ s)|done].
Qed.
(** The block of [n] bytes at [a] has become the block of [m] bytes at [r], with its first bytes;
    no byte of another block changes, and the other owners keep their blocks. *)
Record slab_moved (s s' : slabs) (V V' : slab_view) (a n r m size : Z) : Prop := {
  sm_ok : slab_ok s' V';
  sm_live : forall b k, live (sv_uses V') b k <-> live (sv_uses V) b k /\ b <> a \/ b = r /\ k = m;
  sm_copied : forall i, 0 <= i < Z.min n size -> sl_bytes s' (r + i) = sl_bytes s (a + i);
  sm_bytes : forall x, ~ r <= x < r + m -> sl_bytes s' x = sl_bytes s x
}.
Lemma wpr_move s0 s V0 V a n r m size size' (Q : Z -> slstate -> Prop) : heap_unlocked s -> slab_ok (ss_slab s0) V0 -> live (sv_uses V0) a n ->
  slab_grant (ss_slab s0) (ss_slab s) V0 V r m -> size <= size' <= m -> 0 <= size ->
  (forall s' V', slab_moved (ss_slab s0) (ss_slab s') V0 V' a n r m size -> r <> a -> sem_at s s' 1 -> Q r s') ->
  wpr (on_slab (realloc_copy r a size' n) ;; slab_free a ;; mret r) Q s.
Proof.
  intros Hl H0 Ha Hg Hsz Hpos HQ. pose proof Hg as [G1 G2 G3 _ G5 _]. assert (r <> a) as Hne by (intros ->; by apply (G3 n)).
  assert (live (sv_uses V) a n) as Ha1 by (apply G2; by left). assert (live (sv_uses V) r m) as Hr1 by (apply G2; by right).
  destruct (slab_blocks_safe _ _ _ _ G1 Ha1) as (_ & _ & _ & _ & _ & _ & _ & Hd). destruct (Hd r m Hr1) as [[? _]|Hd']; [congruence|].
  assert (0 <= n) as Hn by (destruct Ha as (p & u & Hp & Hgr); pose proof (slab_grants_in _ _ _ _ _ _ H0 Hp Hgr); lia).
  wpr1. apply wpr_on_slab. unfold realloc_copy. wp1. set (k := if size' >? n then n else size'). assert (k = Z.min n size') as Ek by (unfold k; destruct (Z.gtb_spec size' n); lia).
  set (s2 := set_ss_slab _ s). wpr1. eapply (wpr_slab_free s2 V a n); [exact Hl|by apply slab_ok_bytes|exact Ha1|]. intros s3 V3 [R1 R2 R3 R4] Hs3. wpr1.
  apply (HQ s3 V3); [|done|exact Hs3]. cbn [ss_slab set_ss_slab s2 sl_bytes set_sl_bytes] in R4.
  assert (forall x, sl_bytes (ss_slab s3) x = if decide (r <= x < r + k) then sl_bytes (ss_slab s0) (a + (x - r)) else sl_bytes (ss_slab s0) x) as Hb.
  { intros x. rewrite R4, <- G5. unfold s2. cbn. rewrite rt_memcpy_moved by lia. unfold moved. done. }
  split; [done| | |].
  - intros b j. rewrite R2, G2. split; [intros [[?|[-> ->]] ?]; [by left|by right]|]. intros [[? ?]|[-> ->]]; (split; [|done]); [by left|by right].
  - intros i Hi. rewrite Hb, decide_True by lia. f_equal. lia.
  - intros x Hx. rewrite Hb, decide_False by lia. done.
Qed.
(** The request that rt_realloc makes: for a chunk the size is rounded up first. *)
Definition realloc_request (V : slab_view) (a size : Z) : Z := match sv_uses V !! a with Some (ULarge _) => size | _ => (zoneindex size).2 end.
Inductive slab_realloc_result (s : slstate) (V : slab_view) (a n size : Z) : Z -> slstate -> Prop :=
| SR_null s' size' : size <= size' -> exhausted V size' -> sem_at s s' (fail_count V size') -> ss_slab s' = ss_slab s -> slab_realloc_result s V a n size 0 s'
| SR_same : size <= n -> slab_realloc_result s V a n size a s
| SR_moved r s' V' m : r <> a -> size <= m -> sem_at s s' 1 -> slab_moved (ss_slab s) (ss_slab s') V V' a n r m size -> slab_realloc_result s V a n size r s'.
Lemma zoneindex_le n : 0 < n < 2 ^ 32 -> n <= (zoneindex n).2 < 2 ^ 32.
Proof.
  intros Hn. destruct (decide (n < 16384)) as [Hlt|Hge].
  - destruct (zoneindex_spec n) as (zi & -> & _ & Hc & _); [lia|]. cbn. lia.
  - unfold zoneindex. destruct (Z.ltb_spec n 128); [lia|]. destruct (Z.ltb_spec n 256); [lia|]. destruct (Z.ltb_spec n 8192); [lia|]. destruct (Z.ltb_spec n 16384); [lia|]. cbn. lia.
Qed.
(** rt_malloc for the new block, and the copy, with the old size [n]. *)
Lemma wpr_realloc_malloc s V a n size size' (f : Z -> R slstate Z) (Q : Z -> slstate -> Prop) : heap_unlocked s -> slab_ok (ss_slab s) V -> live (sv_uses V) a n ->
  0 <= size <= size' -> size' < 2 ^ 32 ->
  (forall r s1 V1 Q', zones_kept (sv_uses V) (sv_uses V1) -> slab_ok (ss_slab s1) V1 -> wpr (on_slab (realloc_copy r a size' n) ;; slab_free a ;; mret r) Q' s1 -> wpr (f r) Q' s1) ->
  (forall r s', slab_realloc_result s V a n size r s' -> Q r s') ->
  wpr (nptr ← slab_malloc size'; if nptr =? 0 then mret 0 else f nptr) Q s.
Proof.
  intros Hl H Ha Hs1 Hs2 Hf HQ. wpr1. eapply wpr_slab_malloc; [exact Hl|exact H|lia|..].
  - intros s' Hex Hs Es. cbn [Z.eqb]. wpr1. apply HQ. apply (SR_null _ _ _ _ _ s' size'); [lia|done..].
  - intros r s1 V1 Hg Hu Hr Hs. apply Z.eqb_neq in Hr. rewrite Hr. apply (Hf r s1 V1); [apply Hg|apply Hg|].
    eapply (wpr_move s s1 V V1 a n r (usable V size') size size'); [by eapply sem_at_unlocked|exact H|exact Ha|exact Hg|lia|lia|].
    intros s' V' Hm Hne Hs'. apply HQ. eapply SR_moved; [exact Hne| |by eapply sem_at_trans|exact Hm]. lia.
Qed.
Lemma wpr_slab_realloc s V a n size (Q : Z -> slstate -> Prop) : heap_unlocked s -> slab_ok (ss_slab s) V -> live (sv_uses V) a n -> 0 < size < 2 ^ 32 ->
  (forall r s', slab_realloc_result s V a n size r s' -> Q r s') -> wpr (slab_realloc a size) Q s.
Proof.
  intros Hl H Ha Hsz HQ. pose proof Ha as (p & u & Hp & Hg). pose proof (slab_base _ _ _ _ H Hp) as Hp0. pose proof (slab_grants_in _ _ _ _ _ _ H Hp Hg) as (I1 & I2 & I3 & _).
  unfold slab_realloc. destruct (Z.eqb_spec a 0); [lia|]. destruct (Z.eqb_spec size 0); [lia|]. wpr1. apply wpr_on_slab. destruct u as [v| |k|k]; try done.
  - destruct (chunk_page _ _ _ _ _ _ H Hp Hg) as (j & E & Hb & Et & Ej). apply wp_btokup; [done|]. replace (set_ss_slab (ss_slab s) s) with s by (by destruct s).
    wpr1. apply wpr_gets_slab. rewrite Et. change (PAGE_TYPE_SMALL =? PAGE_TYPE_LARGE) with false. change (PAGE_TYPE_SMALL =? PAGE_TYPE_SMALL) with true. cbn beta iota.
    wpr1. apply wpr_on_slab. unfold chunk_zone. wp1. apply wp_btokup; [done|]. do 2 wp1. wp1. rewrite Ej. replace (page_of a - j * PAGE) with p by lia.
    replace (set_ss_slab (ss_slab s) s) with s by (by destruct s). wpr1. apply wpr_gets_slab. destruct (so_uses _ _ H p _ Hp) as [Hr _]. rewrite (zr_header _ _ _ _ Hr). cbn [z_magic z_chunksize].
    wpr1. wpr1. wp1; [done|]. pose proof (zoneindex_le size Hsz) as Hle. destruct (zoneindex size) as [zi size']. cbn [snd] in Hle.
    assert (n = zv_size v) as -> by (by destruct Hg as (-> & _)). destruct (Z.eqb_spec (zv_size v) size') as [E'|E'].
    + wpr1. apply HQ, SR_same. lia.
    + eapply (wpr_realloc_malloc s V a (zv_size v) size size'); [done|done|exact Ha|lia|lia| |exact HQ].
      intros r s1 V1 Q' Hk Hok Hw. wpr1. apply wpr_gets_slab. destruct (Hk p v Hp) as (v1 & Hv1 & Ei). destruct (so_uses _ _ Hok p _ Hv1) as [Hr1 _].
      rewrite (zr_header _ _ _ _ Hr1). cbn [z_chunksize]. unfold zv_size at 1. rewrite Ei. exact Hw.
  - pose proof Hg as [-> ->]. destruct (so_spots _ _ H p _ Hp) as [[F1 F2 F3 F4] _]. pose proof (po_heap _ _ (so_pages _ _ H)) as Hh. destruct (so_uses _ _ H p _ Hp) as [Et Es]. cbn [use_pages] in *.
    rewrite page_of_aligned by done. apply wp_btokup; [unfold RT_MM_PAGE_SIZE in *; lia|]. replace (set_ss_slab (ss_slab s) s) with s by (by destruct s).
    wpr1. apply wpr_gets_slab. rewrite Et. change (PAGE_TYPE_LARGE =? PAGE_TYPE_LARGE) with true. cbn beta iota. wpr1. apply wpr_gets_slab. rewrite Es.
    assert (uint32 (Z.shiftl k RT_MM_PAGE_BITS) = k * PAGE) as ->.
    { unfold RT_MM_PAGE_BITS. rewrite Z.shiftl_mul_pow2 by lia. change (2 ^ 12) with PAGE. apply uint_small. unfold RT_MM_PAGE_SIZE in *. lia. }
    eapply (wpr_realloc_malloc s V p (k * PAGE) size size); [done|done|exact Ha|lia|lia| |exact HQ]. intros r s1 V1 Q' _ _ Hw. exact Hw.
Qed.

(** *** The start *)
Lemma zone_size_of_sizes limsize : zone_size_of limsize = 2 ^ 15 \/ zone_size_of limsize = 2 ^ 16 \/ zone_size_of limsize = 2 ^ 17.
Proof.
  unfold zone_size_of. cbn [zone_size_loop]. change (Z.shiftl ZALLOC_MIN_ZONE_SIZE 1) with (2 ^ 16). change (Z.shiftl (2 ^ 16) 1) with (2 ^ 17).
  destruct (_ && _); [|by left]. destruct (_ && _); [by right; right|by right; left].
Qed.
(** The statics of src/slab.c before rt_system_heap_init. *)
Record slab_statics (s : slabs) : Prop := {
  ss_array : forall zi, zone_array s zi = 0;
  ss_free : zone_free s = 0 /\ zone_free_cnt s = 0;
  ss_used : used_mem s = 0
}.
(** The pages of the table. *)
Definition table_pages (npages : Z) : Z := request_pages (npages * SIZEOF_MEMUSAGE).
(** A heap of [n] pages from [a] on, without a block. *)
Definition fresh_view (a n : Z) : slab_view :=
  let t := table_pages n in
  mk_sv (zone_size_of (n * PAGE)) (if n =? t then [] else [(a + t * PAGE, n - t)]) {[ a := UTable t ]} (fun _ => []) [].
Lemma fresh_uses a n p u : sv_uses (fresh_view a n) !! p = Some u -> p = a /\ u = UTable (table_pages n).
Proof. change (sv_uses (fresh_view a n)) with ({[ a := UTable (table_pages n) ]} : gmap Z use). by intros [<- <-]%lookup_singleton_Some. Qed.
Lemma fresh_not_live a n b m : ~ live (sv_uses (fresh_view a n)) b m.
Proof. by intros (p & u & [-> ->]%fresh_uses & Hg). Qed.
Lemma table_pages_range n : 0 < n < 2 ^ 20 -> 0 < table_pages n <= n /\ n * SIZEOF_MEMUSAGE <= table_pages n * PAGE.
Proof.
  intros Hn. unfold table_pages, SIZEOF_MEMUSAGE. destruct (request_pages_spec (n * 4)) as (E & Hr & _); [lia|]. rewrite align_page, uint_small in E by lia.
  unfold RT_MM_PAGE_SIZE in *. pose proof (Z.div_mod (n * 4 + 4095) 4096). pose proof (Z.mod_pos_bound (n * 4 + 4095) 4096). lia.
Qed.
(** The statics after the sizes and the table are set. *)
Definition sizes_set (zsize table : Z) (s : slabs) : slabs :=
  set_memusage table (set_zone_page_cnt (zsize / PAGE) (set_zone_limit (zone_limit_of zsize) (set_zone_size zsize s))).
Lemma fresh_view_ok (s : slabs) a n : slab_statics s -> heap_start s = a -> heap_end s = a + n * PAGE -> 0 < a -> a mod PAGE = 0 -> 0 < n < 2 ^ 20 -> heap_end s < 2 ^ 32 ->
  page_ok s (sv_runs (fresh_view a n)) -> slab_ok (sizes_set (zone_size_of (n * PAGE)) a s) (fresh_view a n).
Proof.
  intros [A1 [A2 A3] A4] E1 E2 Ha Hm Hn Hmax Hp. destruct (table_pages_range n Hn) as [T1 T2].
  pose proof (fresh_uses a n) as Hus.
  split; try done.
  - by apply (page_ok_frame s).
  - cbn. by rewrite E1.
  - apply zone_size_of_sizes.
  - intros y u Hy. pose proof Hy as Hy'. apply Hus in Hy as [-> ->]. cbn [use_pages]. split; [split|].
    + lia.
    + done.
    + cbn. rewrite E1, E2. unfold RT_MM_PAGE_SIZE. lia.
    + cbn [sv_runs fresh_view]. destruct (n =? table_pages n); [by apply Forall_nil_2|]. apply Forall_cons. split; [right; cbn; lia|by apply Forall_nil_2].
    + intros b w Hb. apply lookup_delete_Some in Hb as [Hne Hb]. apply Hus in Hb as [-> _]. done.
  - intros y u Hy. apply Hus in Hy as [-> ->]. done.
  - intros zi _. split; [apply A1|by apply NoDup_nil_2|]. intros y. split; [by intros ?%elem_of_nil|]. intros (v & Hv & _). by apply Hus in Hv as [_ [=]].
  - split; [exact A2|by apply NoDup_nil_2|]. intros y. split; [by intros ?%elem_of_nil|]. intros Hv. by apply Hus in Hv as [_ [=]].
  - cbn. rewrite A3. split; [done|lia].
  - cbn [used_mem sizes_set set_memusage set_zone_page_cnt set_zone_limit set_zone_size]. rewrite A4. cbn [sv_uses fresh_view]. unfold live_bytes. by rewrite map_fold_singleton.
Qed.
Lemma RT_ALIGN_DOWN_page x : RT_ALIGN_DOWN x PAGE = x / PAGE * PAGE.
Proof. rewrite <- page_of_eq. done. Qed.
(** rt_system_heap_init sets up an empty heap on the whole pages of the memory it is given: no
    block is granted, and all pages but those of the table are free. *)
Theorem slab_heap_init_fresh s begin_addr end_addr :
  let a := RT_ALIGN begin_addr PAGE in let n := (RT_ALIGN_DOWN end_addr PAGE - a) / PAGE in
  slab_statics (ss_slab s) -> k_interrupt_nest (k_core (ss_kernel s)) = 0 -> 0 < begin_addr -> begin_addr + PAGE <= 2 ^ 32 -> 0 <= end_addr < 2 ^ 32 -> a < RT_ALIGN_DOWN end_addr PAGE ->
  exists s', slab_heap_init begin_addr end_addr s = Some (Done tt, s') /\ heap_unlocked s' /\ slab_ok (ss_slab s') (fresh_view a n).
Proof.
  intros a n Hst Hnest Hb1 Hb2 He Hlt. pose proof (RT_ALIGN_DOWN_page end_addr) as Ee. remember (end_addr / PAGE) as e eqn:Hee.
  assert (a = (begin_addr + 4095) / PAGE * PAGE) as Ea by (unfold a; rewrite align_page, uint_small by (unfold RT_MM_PAGE_SIZE in *; lia); done).
  assert (a mod PAGE = 0) as Hm by (rewrite Ea; apply Z.mod_mul; unfold RT_MM_PAGE_SIZE; lia).
  assert (e * PAGE = a + n * PAGE /\ 0 < n < 2 ^ 20 /\ 0 < a /\ e * PAGE < 2 ^ 32) as (En & Hn & Ha & Hmax).
  { unfold n. rewrite Ee in *. unfold RT_MM_PAGE_SIZE in *. pose proof (Z.div_mod a 4096). replace (e * 4096 - a) with ((e - a / 4096) * 4096) by lia.
    rewrite Z.div_mul by lia. pose proof (Z.div_mod end_addr 4096). pose proof (Z.mod_pos_bound end_addr 4096). pose proof (Z.div_mod (begin_addr + 4095) 4096).
    pose proof (Z.mod_pos_bound (begin_addr + 4095) 4096). lia. }
  destruct (table_pages_range n Hn) as [T1 T2].
  assert (wpr (slab_heap_init begin_addr end_addr) (fun _ s' => heap_unlocked s' /\ slab_ok (ss_slab s') (fresh_view a n)) s) as Hw; [|by apply wpr_run in Hw as ([] & s' & E & Hr); exists s'].
  unfold slab_heap_init. fold a. rewrite Ee. wpr1. wpr1. apply wp_on_slab_kernel. wp1. unfold RT_DEBUG_NOT_IN_INTERRUPT. do 2 wp1. rewrite Hnest. wp1; [done|].
  wpr1. apply wpr_on_slab. wp1. destruct (Z.geb_spec a (e * PAGE)); [unfold RT_MM_PAGE_SIZE in *; lia|]. replace (e * PAGE - a) with (n * PAGE) by lia.
  rewrite Z.div_mul by (unfold RT_MM_PAGE_SIZE; lia). wpr1. wpr1. apply wp_on_slab_kernel, wp_lock_init. intros k Hk. wpr1. unfold rt_page_init.
  wpr1. wpr1. wp1; [by destruct (Z.eqb_spec a 0); [lia|]|]. wpr1. wpr1. wp1; [by destruct (Z.eqb_spec n 0); [lia|]|]. wpr1. apply wpr_on_slab. wp1.
  eapply (wpr_page_free _ [] a n); [exact Hk|by split; cbn; [|done|lia]|split; [lia|done|cbn; lia|by apply Forall_nil_2]|].
  intros s1 Hs1 Hm1 Hok1. cbn [page_give] in Hok1. do 3 (wpr1; apply wpr_on_slab; wp1). wpr1.
  assert (RT_ALIGN (n * SIZEOF_MEMUSAGE) PAGE / PAGE = table_pages n) as ->.
  { unfold table_pages, request_pages, RT_MM_PAGE_BITS. by rewrite Z.shiftr_div_pow2 by lia. }
  assert (heap_unlocked s1) as Hl1 by (eapply lock_at_free; [exact Hk|exact Hs1]). destruct (page_moved_heap _ _ Hm1) as [B1 B2].
  assert (slab_statics (ss_slab s1)) as Hst1 by (rewrite Hm1; destruct Hst; by split).
  apply (wpr_page_alloc _ [(a, n)]); [exact Hl1|by apply (page_ok_frame (ss_slab s1))|lia|..].
  - intros s' Et. cbn [page_take] in Et. destruct (Z.gtb_spec n (table_pages n)); [done|]. destruct (Z.eqb_spec n (table_pages n)); [done|lia].
  - intros b rs s2 Et Hs2 Hm2 Hok2. apply wpr_on_slab. wp1. split; [eapply lock_at_free; [exact Hl1|exact Hs2]|].
    cbn [ss_slab set_ss_slab] in Hm2 |- *. destruct (page_moved_heap _ _ Hm2) as [C1 C2]. assert (b = a /\ rs = sv_runs (fresh_view a n)) as [-> ->].
    { cbn [page_take sv_runs fresh_view] in *. destruct (Z.gtb_spec n (table_pages n)), (Z.eqb_spec n (table_pages n)); try lia; by injection Et as <- <-. }
    set (v := set_pg_next (pg_next (ss_slab s2)) (set_pg_page (pg_page (ss_slab s2)) (set_rt_page_list (rt_page_list (ss_slab s2)) (ss_slab s1)))).
    replace (set_memusage a (ss_slab s2)) with (sizes_set (zone_size_of (n * PAGE)) a v) by (rewrite Hm2; reflexivity).
    apply fresh_view_ok; try done.
    + by destruct Hst1.
    + exact (eq_trans B2 En).
    + change (heap_end v) with (heap_end (ss_slab s1)). rewrite B2. exact Hmax.
    + by apply (page_ok_frame (ss_slab s2)).
Qed.
(** *** The theorems *)
(** C10 With the heap unlocked, rt_malloc does not wait.  When there is room it returns a block
    that was not granted, of at least the size asked for, grants it, and changes nothing for
    the other owners: no other block, no byte of the heap; otherwise it returns RT_NULL and
    changes nothing but, for a small request, the semaphore. *)
Theorem slab_malloc_refines s V size : heap_unlocked s -> slab_ok (ss_slab s) V -> 0 <= size < 2 ^ 32 ->
  exists r s', slab_malloc size s = Some (Done r, s') /\
    (r = 0 /\ exhausted V size /\ sem_at s s' (fail_count V size) /\ ss_slab s' = ss_slab s \/
     r <> 0 /\ size <= usable V size /\ sem_at s s' 1 /\ exists V', slab_grant (ss_slab s) (ss_slab s') V V' r (usable V size)).
Proof.
  intros Hl H Hsz. apply wpr_run. eapply wpr_slab_malloc; [exact Hl|exact H|exact Hsz|..].
  - intros s' He Hs Es. by left.
  - intros a s' V' Hg Hu Ha Hs. right. split_and!; try done. by exists V'.
Qed.
(** C11 rt_free takes a granted block back and changes nothing for the other owners; the heap
    stays well formed whether the block was a chunk or whole pages, and whether its zone stays
    in use, becomes a spare one or goes back to the pages. *)
Theorem slab_free_refines s V a n : heap_unlocked s -> slab_ok (ss_slab s) V -> live (sv_uses V) a n ->
  exists s' V', slab_free a s = Some (Done tt, s') /\ sem_at s s' 1 /\ slab_return (ss_slab s) (ss_slab s') V V' a.
Proof.
  intros Hl H Ha. assert (wpr (slab_free a) (fun _ s' => exists V', sem_at s s' 1 /\ slab_return (ss_slab s) (ss_slab s') V V' a) s) as Hw.
  { eapply wpr_slab_free; [exact Hl|exact H|exact Ha|]. eauto. }
  apply wpr_run in Hw as ([] & s' & E & V' & H1 & H2). by exists s', V'.
Qed.
(** rt_realloc of a granted block returns RT_NULL and leaves the block as it is, or the same
    block when it is long enough, or another block with the same first bytes, up to the smaller
    size; no byte of any other block changes. *)
Theorem slab_realloc_keeps s V a n size : heap_unlocked s -> slab_ok (ss_slab s) V -> live (sv_uses V) a n -> 0 < size < 2 ^ 32 ->
  exists r s', slab_realloc a size s = Some (Done r, s') /\ slab_realloc_result s V a n size r s'.
Proof. intros Hl H Ha Hsz. apply wpr_run. eapply wpr_slab_realloc; [exact Hl|exact H|exact Ha|exact Hsz|]. done. Qed.
(** What rt_calloc grants is zero, as far as the product of its arguments goes. *)
Theorem slab_calloc_zeroes s V count size : heap_unlocked s -> slab_ok (ss_slab s) V ->
  let total := uint32 (count * size) in
  exists r s', slab_calloc count size s = Some (Done r, s') /\ (r <> 0 -> total <= usable V total /\
    forall x, sl_bytes (ss_slab s') x = if decide (r <= x < r + total) then 0 else sl_bytes (ss_slab s) x).
Proof.
  intros Hl H total. apply wpr_run. unfold slab_calloc. fold total. pose proof (uint_range 32 (count * size)) as Ht. fold total in Ht.
  wpr1. eapply wpr_slab_malloc; [exact Hl|exact H|lia|..].
  - intros s' _ _ _. cbn [negb Z.eqb]. by wpr1.
  - intros a s' V' Hg Hu Ha Hs. apply Z.eqb_neq in Ha. rewrite Ha. cbn [negb]. wpr1. apply wpr_on_slab. wp1. wpr1. intros _. split; [done|]. intros x.
    cbn. rewrite rt_memset_filled by lia. unfold filled. rewrite (sg_bytes _ _ _ _ _ _ Hg). done.
Qed.
End calls.
