(* ===== verification/Heaps.v ===== *)
(** The slab allocator and the first-fit heap implement the heap of the system. *)
From S2P Require Import Prelude RtList Kservice MemOps Kernel Scheduler Object TimerCore Invariant Thread Timer Ipc Semaphore Lock Resume SysHeap Mem HeapSpec HeapCalls HeapRealloc Slab PageSpec SlabSpec SlabMalloc SlabFree SlabCalls.

(** ** src/slab.c *)
Section slab_instance.
Context {cfg : Config} {kh : KHeap} {sz : ObjectSizes} {st : StaticThreads} {hs : SlabSem}.

#[global] Instance slab_system_heap : SystemHeap slstate := {|
  sys_malloc := slab_malloc;
  sys_free := slab_free;
  sys_bytes s := sl_bytes (ss_slab s);
  set_sys_bytes v s := set_ss_slab (set_sl_bytes v (ss_slab s)) s
|}.
(** The view of the slab allocator, and the bounds of its memory. *)
Definition slab_rep (s : slstate) (V : slab_view * (Z * Z)) : Prop :=
  heap_unlocked s /\ slab_ok (ss_slab s) V.1 /\ heap_start (ss_slab s) = V.2.1 /\ heap_end (ss_slab s) = V.2.2.
(** A block lies in the heap. *)
Lemma slab_live_in s V a n : slab_ok s V -> live (sv_uses V) a n -> heap_start s <= a /\ a + n <= heap_end s /\ 8 <= n /\ a mod 8 = 0.
Proof.
  intros H (p & u & Hp & Hg). pose proof (slab_grants_in _ _ _ _ _ _ H Hp Hg) as (I1 & I2 & I3 & I4). destruct (so_spots _ _ H p u Hp) as [[F1 F2 F3 F4] _]. lia.
Qed.
#[global] Program Instance slab_heap_laws : HeapLaws slstate := {|
  heap_view := slab_view * (Z * Z);
  heap_rep := slab_rep;
  heap_live V := live (sv_uses V.1);
  heap_range V x := V.2.1 <= x < V.2.2
|}.
Next Obligation.
  intros s [V [lo hi]] n Q (Hl & H & Elo & Ehi) Hn HN HS. cbn [fst snd] in *. eapply wpr_slab_malloc; [exact Hl|exact H|lia|..].
  - intros s' _ _ E. apply HN. cbn. by rewrite E.
  - intros a s' V' [G1 G2 G3 (G4 & G5 & _) G6 _] Hu Ha Hs. apply (HS a (usable V n) (V', (lo, hi))); try done.
    split_and!; [exact (sem_at_unlocked _ _ Hl Hs)|exact G1|cbn; lia|cbn; lia].
Qed.
Next Obligation.
  intros s [V [lo hi]] a n Q (Hl & H & Elo & Ehi) Ha HQ. cbn [fst snd] in *. eapply wpr_slab_free; [exact Hl|exact H|exact Ha|].
  intros s' V' [G1 G2 (G3 & G4 & _) G5] Hs. apply (HQ (V', (lo, hi))); try done.
  split_and!; [exact (sem_at_unlocked _ _ Hl Hs)|exact G1|cbn; lia|cbn; lia].
Qed.
Next Obligation.
  intros s [V [lo hi]] a n (Hl & H & Elo & Ehi) Ha. cbn [fst snd] in *. destruct (slab_live_in _ _ _ _ H Ha) as (I1 & I2 & I3 & I4).
  pose proof (po_heap _ _ (so_pages _ _ H)). split_and!; [lia|lia| |lia].
  pose proof (Z.div_mod a 8). rewrite <- (Z.mod_add _ (- (2 * (a / 8)))) by lia. by replace (a + - (2 * (a / 8)) * 4) with 0 by lia.
Qed.
Next Obligation. intros s [V [lo hi]] a n x (Hl & H & Elo & Ehi) Ha Hx. cbn [fst snd] in *. destruct (slab_live_in _ _ _ _ H Ha). lia. Qed.
Next Obligation. intros s [V [lo hi]] a n b m (Hl & H & _) Ha Hb. exact (slab_live_apart _ _ _ _ _ _ H Ha Hb). Qed.
Next Obligation. done. Qed.
Next Obligation. intros v s [V [lo hi]] (Hl & H & Elo & Ehi). split_and!; [done|by apply slab_ok_bytes|done|done]. Qed.
End slab_instance.

(** ** src/mem.c *)
Section small_instance.
Context {cfg : Config} {al : AlignOK cfg} {sz : ObjectSizes} {st : StaticThreads} {hs : HeapSem}.

#[global] Instance small_system_heap : SystemHeap kstate := {|
  sys_malloc size := r ← rt_malloc size; mret (default 0 r);
  sys_free a := rt_free (if a =? 0 then None else Some a);
  sys_bytes k := h_bytes (the_heap k);
  set_sys_bytes v k := set_k_core (set_k_heap (set_h_bytes v (the_heap k)) (k_core k)) k
|}.
(** The view of the first-fit heap: its blocks, and the bounds of its memory. *)
Definition small_live (V : list block * (Z * Z)) (a m : Z) : Prop :=
  exists p n, block_at 0 V.1 p n true /\ a = V.2.1 + p + SIZEOF_STRUCT_MEM /\ m = n - SIZEOF_STRUCT_MEM /\ 0 < m.
Definition small_rep (k : kstate) (V : list block * (Z * Z)) : Prop :=
  quiet k /\ heap_ok (the_heap k) V.1 /\ h_ptr (the_heap k) = V.2.1 /\ h_end (the_heap k) = V.2.2.
Lemma block_at_range nd prev pos bs top p n u : seg nd prev pos bs top -> block_at pos bs p n u -> pos <= p /\ p + n <= pos + total bs.
Proof.
  pose proof header_pos as Hp. revert prev pos. induction bs as [|[k w] bs IH]; intros prev pos; cbn [seg block_at total]; [done|].
  intros (_ & _ & _ & _ & Hk & _ & Hs) [[-> [= <- <-]]|Hb]; [pose proof (seg_total Hp _ _ _ _ _ Hs); lia|]. specialize (IH _ _ Hs Hb). cbn in *. lia.
Qed.
Lemma small_live_in h V a m : heap_ok h V.1 -> h_ptr h = V.2.1 -> small_live V a m ->
  h_ptr h + SIZEOF_STRUCT_MEM <= a /\ a + m <= h_ptr h + h_end h /\ a mod 4 = 0.
Proof.
  intros H Ep (p & n & Hb & Ea & Em & _). apply block_at_split in Hb as (pre & post & E & ->). pose proof (ho_seg _ _ H) as Hseg. rewrite E in Hseg.
  pose proof (seg_mid _ _ _ _ _ Hseg) as [M1 M2 M3 M4 M5 M6 M7 M8]. pose proof header_pos as Hp. pose proof (seg_total Hp _ _ _ _ _ M7).
  pose proof (ho_total _ _ H) as Et. rewrite E, total_app in Et. cbn [total] in Et. split_and!; [lia|lia|].
  assert (a mod RT_ALIGN_SIZE = 0) as Ha.
  { rewrite Ea, <- Ep. apply mod_align_add; [apply mod_align_add; [apply H|exact (total_mod _ _ _ _ _ M6)]|apply header_size]. }
  destruct al as (k & Hk & Ek). rewrite Ek in Ha. rewrite <- (Z.mod_mod_divide a (2 ^ k) 4), Ha; [done|]. exists (2 ^ (k - 2)). rewrite <- (Z.pow_add_r 2 _ 2) by lia. f_equal. lia.
Qed.
#[global] Program Instance small_heap_laws : HeapLaws kstate := {|
  heap_view := list block * (Z * Z);
  heap_rep := small_rep;
  heap_live := small_live;
  heap_range V x := V.2.1 <= x < V.2.1 + V.2.2
|}.
Next Obligation.
  intros k [bs [lo top]] n Q (Hq & H & Elo & Et) Hn HN HS. cbn [fst snd] in *. cbn. wpr1. eapply wpr_malloc; [done..| |].
  - intros _ _ k' Hs. cbn [default]. wpr1. apply HN. cbn. by rewrite (mv_heap _ _ _ _ Hs).
  - intros pre m post h' [-> Hf _ Hok _ (A1 & A2 & A3 & A4) _ _] _ k' Hs. wpr1. cbn [default]. destruct (used_carve pre m post (malloc_size n) Hf) as (j & Hj & Hu).
    pose proof (mv_heap _ _ _ _ Hs) as Eh. pose proof align_range. pose proof header_pos as Hp. assert (n <= malloc_size n) as Hge by (apply malloc_size_ge; lia).
    pose proof min_size as [Hmin _]. assert (0 < malloc_size n) as Hpos by (unfold malloc_size; case_match; lia). pose proof (ho_base _ _ H) as (B1 & _).
    pose proof (seg_mid _ _ _ _ _ (ho_seg _ _ H)) as [_ _ _ _ [Hm _] M6 _ _]. pose proof (seg_total Hp _ _ _ _ _ M6) as Htot.
    apply (HS (h_ptr (the_heap k) + total pre + SIZEOF_STRUCT_MEM) (j - SIZEOF_STRUCT_MEM) (pre ++ carve (malloc_size n) m ++ post, (lo, top))).
    + split_and!; cbn [fst snd]; [exact (heap_step_quiet _ _ _ Hq Hs)|by rewrite Eh|by rewrite Eh, A1|by rewrite Eh, A2].
    + lia.
    + lia.
    + intros b i. unfold small_live. cbn [fst snd]. split.
      * intros (p & l & Hb & -> & -> & Hl). apply Hu in Hb as [Hb|[-> ->]]; [left; by exists p, l|right; split; [lia|done]].
      * intros [(p & l & Hb & E1 & E2 & E3)|[-> ->]]; [exists p, l; split_and!; try done; apply Hu; by left|].
        exists (total pre), j. split_and!; [apply Hu; by right|lia|done|lia].
    + intros i (p & l & Hb & E1 & E2 & Hl). cbn [fst snd] in *. assert (p = total pre) as -> by lia.
      assert (block_at 0 (pre ++ (m, false) :: post) (total pre) m false) as Hb' by (apply block_at_split; by exists pre, post).
      destruct (block_at_apart _ _ _ _ _ _ _ _ _ _ _ (ho_seg _ _ H) Hb Hb') as [(_ & _ & [=])|?]. lia.
    + done.
    + cbn. by rewrite Eh, A4.
Qed.
Next Obligation.
  intros k [bs [lo top]] a n Q (Hq & H & Elo & Et) Ha HQ. cbn [fst snd] in *. pose proof (small_live_in _ (bs, (lo, top)) _ _ H Elo Ha) as (I1 & I2 & _). pose proof (ho_base _ _ H) as (B1 & _). pose proof header_pos as Hp.
  destruct Ha as (p & m & Hb & Ea & En & Hn). cbn [fst snd] in *. cbn. destruct (Z.eqb_spec a 0); [lia|]. pose proof Hb as Hb'. apply block_at_split in Hb' as (pre & post & -> & ->).
  assert (used_block (the_heap k) (pre ++ (m, true) :: post) pre m post a) as Hu by (split; [done|done|by rewrite Elo|lia]).
  eapply wpr_free; [done|exact Hu|]. intros h' k' Hok _ (A1 & A2 & A3 & A4) _ _ _ Hs. pose proof (mv_heap _ _ _ _ Hs) as Eh.
  apply (HQ (plugged pre m post, (lo, top))).
  - split_and!; cbn [fst snd]; [exact (heap_step_quiet _ _ _ Hq Hs)|by rewrite Eh|by rewrite Eh, A1|by rewrite Eh, A2].
  - intros b i. unfold small_live. cbn [fst snd]. split.
    + intros (q & l & Hq' & -> & -> & Hl). assert (block_at 0 (pre ++ (m, true) :: post) q l true) as Hb2.
      { apply used_plugged in Hq'. rewrite block_at_app. cbn [block_at fst]. rewrite Z.add_0_l. naive_solver. }
      split; [by exists q, l|]. intros E. assert (q = total pre) as -> by lia. destruct (block_at_apart _ _ _ _ _ _ _ _ _ _ _ (ho_seg _ _ H) Hb Hb2) as [(_ & <- & _)|?]; [|lia].
      pose proof (seg_mid _ _ _ _ _ (ho_seg _ _ H)) as [_ _ _ _ [Hm _] M6 M7 _].
      apply used_plugged in Hq' as [Hq'|Hq']; [apply (block_at_range _ _ _ _ _ _ _ _ M6) in Hq'|apply (block_at_range _ _ _ _ _ _ _ _ M7) in Hq']; lia.
    + intros [(q & l & Hq' & -> & -> & Hl) Hne]. exists q, l. split_and!; try done. apply used_plugged. rewrite block_at_app in Hq'. cbn [block_at fst] in Hq'. rewrite Z.add_0_l in Hq'.
      destruct Hq' as [?|[[<- _]|?]]; [by left| |by right]. by destruct Hne.
  - done.
  - cbn. by rewrite Eh, A4.
Qed.
Next Obligation.
  intros k [bs [lo top]] a n (Hq & H & Elo & Et) Ha. destruct (small_live_in _ _ _ _ H Elo Ha) as (I1 & I2 & I3). pose proof (ho_base _ _ H) as (B1 & _ & B3). pose proof header_pos.
  destruct Ha as (p & m & _ & _ & Em & Hm). split_and!; lia.
Qed.
Next Obligation.
  intros k [bs [lo top]] a n x (Hq & H & Elo & Et) Ha Hx. destruct (small_live_in _ _ _ _ H Elo Ha) as (I1 & I2 & _). pose proof header_pos. cbn [fst snd] in *. lia.
Qed.
Next Obligation.
  intros k [bs [lo top]] a n b m (Hq & H & _) (p & i & Hp & -> & -> & _) (q & j & Hb & -> & -> & _). cbn [fst snd] in *.
  destruct (block_at_apart _ _ _ _ _ _ _ _ _ _ _ (ho_seg _ _ H) Hp Hb) as [(-> & -> & _)|?]; [by left|right]. pose proof header_pos. lia.
Qed.
Next Obligation. done. Qed.
Next Obligation. intros v k [bs [lo top]] (Hq & H & Elo & Et). split_and!; [by destruct Hq|by apply heap_ok_bytes|done|done]. Qed.
End small_instance.
