(* ===== verification/Path.v ===== *)
(** The paths of the file systems (components/dfs/src/dfs.c): dfs_normalize_path makes a path
    absolute and takes out its empty, "." and ".." components, in place; dfs_subdir is the part of
    a path below a directory. *)
From Stdlib Require Import Ascii.
From S2P Require Import Prelude MemOps Kernel Print Resume SysHeap HeapUse.

Notation SLASH := (chr "/").
Notation DOT := (chr ".").

(** The working directory, if the configuration has one: its address. *)
Class DfsConfig := { DFS_USING_WORKDIR : bool; working_directory : Z }.

Section path.
Context {cfg : Config} {dc : DfsConfig}.

(** The characters of the string at [a]. *)
Fixpoint read_string (fuel : nat) (a : Z) (m : memory) : option (list Z) :=
  match fuel with
  | O => None
  | S fuel => if m a =? 0 then Some [] else s ← read_string fuel (a + 1) m; Some (m a :: s)
  end.

(** *** In place *)
(** [while ((c = *src++) != '\0' && c != '/') *dst++ = c;]: the last [c], [src] and [dst]. *)
Fixpoint copy_segment (fuel : nat) (src dst : Z) : M memory (Z * Z * Z) :=
  match fuel with
  | O => diverge
  | S fuel =>
    c ← gets (fun m => m src);
    if negb (c =? 0) && negb (c =? SLASH) then
      modify (fun m => <[dst := c]> m) ;;
      copy_segment fuel (src + 1) (dst + 1)
    else mret (c, src + 1, dst)
  end.
(** [while (c == '/') c = *src++;] *)
Fixpoint pass_slashes (fuel : nat) (c src : Z) : M memory Z :=
  match fuel with
  | O => diverge
  | S fuel => if c =? SLASH then c ← gets (fun m => m src); pass_slashes fuel c (src + 1) else mret src
  end.
(** [while ( *src == '/' && *src != '\0') src++;] *)
Fixpoint skip_slashes (fuel : nat) (src : Z) : M memory Z :=
  match fuel with
  | O => diverge
  | S fuel =>
    c ← gets (fun m => m src);
    if (c =? SLASH) && negb (c =? 0) then skip_slashes fuel (src + 1) else mret src
  end.
(** [while (dst0 < dst && dst[-1] != '/') dst--;] *)
Fixpoint back_up (fuel : nat) (dst0 dst : Z) : M memory Z :=
  match fuel with
  | O => diverge
  | S fuel =>
    c ← gets (fun m => m (dst - 1));
    if (dst0 <? dst) && negb (c =? SLASH) then back_up fuel dst0 (dst - 1) else mret dst
  end.
(** ["copy up the next '/' and erase all '/'"], and the loop goes on, or ends with the path. *)
Definition copy_up (loop : Z -> Z -> M memory (option Z)) (src dst : Z) : M memory (option Z) :=
  '(c, src, dst) ← copy_segment loop_fuel src dst;
  if c =? SLASH then
    modify (fun m => <[dst := SLASH]> m) ;;
    src ← pass_slashes loop_fuel c src;
    loop (src - 1) (dst + 1)
  else mret (Some dst).
(** The label up_one: the last component goes; [None] when there is none. *)
Definition up_one (loop : Z -> Z -> M memory (option Z)) (dst0 src dst : Z) : M memory (option Z) :=
  if dst - 1 <? dst0 then mret None
  else
    dst ← back_up loop_fuel dst0 (dst - 1);
    loop src dst.
(** The loop: the end of the path, or [None] when it climbs too far. *)
Fixpoint normalize_loop (fuel : nat) (dst0 src dst : Z) : M memory (option Z) :=
  match fuel with
  | O => diverge
  | S fuel =>
    c ← gets (fun m => m src);
    c1 ← gets (fun m => m (src + 1));
    c2 ← gets (fun m => m (src + 2));
    if c =? DOT then
      if c1 =? 0 then copy_up (normalize_loop fuel dst0) (src + 1) dst
      else if c1 =? SLASH then
        src ← skip_slashes loop_fuel (src + 2);
        normalize_loop fuel dst0 src dst
      else if c1 =? DOT then
        if c2 =? 0 then up_one (normalize_loop fuel dst0) dst0 (src + 2) dst
        else if c2 =? SLASH then
          src ← skip_slashes loop_fuel (src + 3);
          up_one (normalize_loop fuel dst0) dst0 src dst
        else copy_up (normalize_loop fuel dst0) src dst
      else copy_up (normalize_loop fuel dst0) src dst
    else copy_up (normalize_loop fuel dst0) src dst
  end.
(** The terminator, and the last slash away. *)
Definition path_end (fullpath dst : Z) : M memory unit :=
  modify (fun m => <[dst := 0]> m) ;;
  c ← gets (fun m => m (dst - 1));
  if negb (dst - 1 =? fullpath) && (c =? SLASH) then modify (fun m => <[dst - 1 := 0]> m) else mret tt.

Context {S : Type} {sh : SystemHeap S}.

(** The directory and the name, one behind the other. *)
Definition join_path (directory filename : Z) : R S Z :=
  dlen ← string_length directory;
  flen ← string_length filename;
  let size := uint32 (dlen + flen + 2) in
  fullpath ← sys_malloc size;
  if fullpath =? 0 then mret 0
  else
    on_bytes (fun m =>
      d ← read_string loop_fuel directory m;
      f ← read_string loop_fuel filename m;
      '(_, m) ← rt_snprintf fullpath size (chr <$> ["%"; "s"; "/"; "%"; "s"]%char) [Text (Some d); Text (Some f)] m;
      Some (tt, m)) ;;
    mret fullpath.
Definition dfs_normalize_path (directory filename : Z) : R S Z :=
  now (rt_assert (negb (filename =? 0))) ;;
  c ← on_bytes (gets (fun m => m filename));
  if negb DFS_USING_WORKDIR && (directory =? 0) && negb (c =? SLASH) then mret 0
  else
    let directory := if DFS_USING_WORKDIR && (directory =? 0) then working_directory else directory in
    fullpath ← (if negb (c =? SLASH) then join_path directory filename else rt_strdup filename);
    if fullpath =? 0 then mret 0
    else
      r ← on_bytes (normalize_loop loop_fuel fullpath fullpath fullpath);
      match r with
      | None => sys_free fullpath ;; mret 0
      | Some dst => on_bytes (path_end fullpath dst) ;; mret fullpath
      end.
End path.

(** The part of [filename] below [directory]: the inner [None] is RT_NULL, for the same path;
    the outer one is a directory longer than the path, where the code reads past the end. *)
Definition dfs_subdir (directory filename : list Z) : option (option (list Z)) :=
  let n := length directory in
  if bool_decide (n = length filename) then Some None
  else if bool_decide (length filename < n)%nat then None
  else if negb (nth n filename 0 =? SLASH) && negb (Nat.eqb n 0) then Some (Some (drop (n - 1) filename))
  else Some (Some (drop n filename)).

(** ** The reference *)
(** The components of a path: what is between its slashes, without the empty ones. *)
Fixpoint components (name s : list Z) : list (list Z) :=
  let done := if bool_decide (name = []) then [] else [name] in
  match s with
  | [] => done
  | c :: s => if c =? SLASH then done ++ components [] s else components (name ++ [c]) s
  end.
(** Walking down them from a directory; [None] is a way above the root. *)
Fixpoint resolve (names stack : list (list Z)) : option (list (list Z)) :=
  match names with
  | [] => Some stack
  | n :: names =>
    if bool_decide (n = [DOT]) then resolve names stack
    else if bool_decide (n = [DOT; DOT]) then match stack with [] => None | _ :: stack => resolve names stack end
    else resolve names (n :: stack)
  end.
Definition path_text (stack : list (list Z)) : list Z :=
  match stack with [] => [SLASH] | _ => mjoin ((fun n => SLASH :: n) <$> rev stack) end.

(** ** Text in memory *)
Definition text_at (m : memory) (a : Z) (l : list Z) : Prop := forall i c, l !! i = Some c -> m (a + Z.of_nat i) = c.
Lemma text_at_app m a l k : text_at m a (l ++ k) <-> text_at m a l /\ text_at m (a + Z.of_nat (length l)) k.
Proof.
  split.
  - intros H. split; intros i c Hi.
    + apply H. by apply lookup_app_l_Some.
    + replace (a + Z.of_nat (length l) + Z.of_nat i) with (a + Z.of_nat (length l + i)) by lia. apply H. rewrite lookup_app_r by lia. by replace (length l + i - length l)%nat with i by lia.
  - intros [H1 H2] i c Hi. apply lookup_app_Some in Hi as [Hi|[Hl Hi]]; [by apply H1|].
    replace (a + Z.of_nat i) with (a + Z.of_nat (length l) + Z.of_nat (i - length l)) by lia. by apply H2.
Qed.
Lemma text_at_cons m a c l : text_at m a (c :: l) <-> m a = c /\ text_at m (a + 1) l.
Proof.
  change (c :: l) with ([c] ++ l). rewrite text_at_app. cbn [length]. split; intros [H1 H2]; (split; [|done]).
  - rewrite <- (H1 O c eq_refl). f_equal. lia.
  - intros [|[|i]] d [= <-]. by rewrite Z.add_0_r.
Qed.
Lemma text_at_nil m a : text_at m a [].
Proof. intros i c Hi. by rewrite lookup_nil in Hi. Qed.
Lemma text_at_frame m m' a l : (forall x, a <= x < a + Z.of_nat (length l) -> m' x = m x) -> text_at m a l -> text_at m' a l.
Proof. intros He H i c Hi. pose proof (lookup_lt_Some _ _ _ Hi). rewrite He by lia. by apply H. Qed.
Lemma string_chars m a s : string_at m a s <-> text_at m a (s ++ [0]) /\ 0 ∉ s.
Proof.
  rewrite string_at_nth. split; intros [H1 H2].
  - split; [|done]. intros i c Hi. pose proof (lookup_lt_Some _ _ _ Hi) as Hl. rewrite length_app in Hl. cbn in Hl. rewrite H2 by lia.
    apply lookup_app_Some in Hi as [Hi|[Hge Hi]]; [by apply nth_lookup_Some|]. rewrite nth_overflow by done. apply list_lookup_singleton_Some in Hi as [_ <-]. done.
  - split; [done|]. intros i Hi. rewrite (H1 i (nth i s 0)); [done|]. destruct (decide (i < length s)%nat) as [Hl|Hge].
    + rewrite lookup_app_l by done. destruct (lookup_lt_is_Some_2 s i Hl) as [c Hc]. by rewrite (nth_lookup_Some _ _ _ _ Hc).
    + rewrite lookup_app_r, nth_overflow by lia. by replace (i - length s)%nat with O by lia.
Qed.

(** ** What the loops do *)
Definition segment (l : list Z) : Prop := 0 ∉ l /\ SLASH ∉ l.
(** The bytes outside [n] from [a] are as they were. *)
Definition same_outside (m m' : memory) (a n : Z) : Prop := forall x, ~ a <= x < a + n -> m' x = m x.

Section loops.
Context {cfg : Config}.
Implicit Types (m : memory).

Lemma wp_copy_segment seg t : t = 0 \/ t = SLASH -> segment seg -> forall fuel m src dst (Q : Z * Z * Z -> memory -> Prop), (length seg < fuel)%nat ->
  text_at m src (seg ++ [t]) -> dst <= src ->
  (forall m', text_at m' dst seg -> same_outside m m' dst (Z.of_nat (length seg)) ->
     Q (t, src + Z.of_nat (length seg) + 1, dst + Z.of_nat (length seg)) m') ->
  wp (copy_segment fuel src dst) Q m.
Proof.
  intros Ht. induction seg as [|c seg IH]; intros Hs [|fuel] m src dst Q Hf Hm Hd HQ; cbn [length] in *; try lia; cbn [copy_segment app] in *; apply text_at_cons in Hm as [Hc Hm].
  - wp1. wp1. rewrite Hc. replace (negb (t =? 0) && negb (t =? SLASH)) with false by (by destruct Ht as [-> | ->]). wp1.
    specialize (HQ m (text_at_nil _ _)). rewrite !Z.add_0_r in HQ. by apply HQ.
  - destruct Hs as [[H1 H1']%not_elem_of_cons [H2 H2']%not_elem_of_cons]. wp1. wp1. rewrite Hc.
    destruct (Z.eqb_spec c 0); [by subst|]. destruct (Z.eqb_spec c SLASH); [by subst|]. cbn [negb andb]. wp1. wp1. apply IH; [done|lia| |lia|].
    + eapply text_at_frame; [|exact Hm]. intros x Hx. apply upd_ne. lia.
    + intros m' Hm' Hs'. replace (src + 1 + Z.of_nat (length seg) + 1) with (src + Z.of_nat (S (length seg)) + 1) by lia.
      replace (dst + 1 + Z.of_nat (length seg)) with (dst + Z.of_nat (S (length seg))) by lia. apply HQ.
      * apply text_at_cons. split; [|done]. rewrite Hs' by lia. apply upd_eq.
      * intros x Hx. rewrite Hs' by lia. apply upd_ne. lia.
Qed.
(** Slashes, up to another character. *)
Lemma wp_skip_slashes k c : c <> SLASH -> forall fuel m src (Q : Z -> memory -> Prop), (k < fuel)%nat -> text_at m src (replicate k SLASH ++ [c]) ->
  Q (src + Z.of_nat k) m -> wp (skip_slashes fuel src) Q m.
Proof.
  intros Hc. induction k as [|k IH]; intros [|fuel] m src Q Hf Hm HQ; try lia; cbn [skip_slashes replicate app] in *; apply text_at_cons in Hm as [E Hm]; wp1; wp1; rewrite E.
  - apply Z.eqb_neq in Hc. rewrite Hc. cbn [andb]. wp1. by rewrite Z.add_0_r in HQ.
  - rewrite Z.eqb_refl. cbn [andb negb Z.eqb]. apply IH; [lia|done|]. by replace (src + 1 + Z.of_nat k) with (src + Z.of_nat (S k)) by lia.
Qed.
Lemma wp_pass_slashes k c : c <> SLASH -> forall fuel m src (Q : Z -> memory -> Prop), (S k < fuel)%nat -> text_at m src (replicate k SLASH ++ [c]) ->
  Q (src + Z.of_nat k + 1) m -> wp (pass_slashes fuel SLASH src) Q m.
Proof.
  intros Hc. induction k as [|k IH]; intros [|fuel] m src Q Hf Hm HQ; try lia; cbn [pass_slashes replicate app] in *; apply text_at_cons in Hm as [E Hm]; rewrite Z.eqb_refl; wp1; wp1; rewrite E.
  - destruct fuel as [|fuel]; [lia|]. cbn [pass_slashes]. apply Z.eqb_neq in Hc. rewrite Hc. wp1. by rewrite Z.add_0_r in HQ.
  - apply IH; [lia|done|]. by replace (src + 1 + Z.of_nat k + 1) with (src + Z.of_nat (S k) + 1) by lia.
Qed.
(** Back over a component, to the slash in front of it. *)
Lemma wp_back_up n : SLASH ∉ n -> forall fuel dst0 m a (Q : Z -> memory -> Prop), (length n < fuel)%nat -> dst0 <= a -> text_at m a (SLASH :: n) ->
  Q (a + 1) m -> wp (back_up fuel dst0 (a + 1 + Z.of_nat (length n))) Q m.
Proof.
  induction n as [|c n IH] using rev_ind; intros Hn [|fuel] dst0 m a Q Hf Hd Hm HQ; try lia; cbn [back_up]; wp1; wp1.
  - apply text_at_cons in Hm as [E _]. replace (a + 1 + Z.of_nat (length (@nil Z)) - 1) with a by (cbn; lia). rewrite E, Z.eqb_refl, andb_false_r. wp1.
    cbn [length]. by rewrite Z.add_0_r.
  - rewrite length_app in *. cbn [length] in *. change (SLASH :: n ++ [c]) with ((SLASH :: n) ++ [c]) in Hm. apply text_at_app in Hm as [Hm Hc]. apply text_at_cons in Hc as [Hc _].
    cbn [length] in Hc. apply not_elem_of_app in Hn as [Hn Hc']. replace (a + 1 + Z.of_nat (length n + 1) - 1) with (a + Z.of_nat (S (length n))) by lia. rewrite Hc.
    destruct (Z.eqb_spec c SLASH) as [->|]; [by destruct Hc'; left|]. destruct (Z.ltb_spec dst0 (a + 1 + Z.of_nat (length n + 1))); [|lia]. cbn [andb negb].
    replace (a + Z.of_nat (S (length n))) with (a + 1 + Z.of_nat (length n)) by lia. apply IH; [done|lia|done|done|done].
Qed.

(** The text of a stack of components, each with its slash. *)
Definition open_text (st : list (list Z)) : list Z := SLASH :: mjoin ((fun n => n ++ [SLASH]) <$> rev st).
Lemma open_text_cons n st : open_text (n :: st) = open_text st ++ n ++ [SLASH].
Proof. unfold open_text. cbn [rev]. rewrite fmap_app. cbn [fmap list_fmap]. rewrite join_app. cbn [mjoin list_join]. by rewrite app_nil_r. Qed.
Lemma open_text_slash st : exists x, open_text st = x ++ [SLASH].
Proof. destruct st as [|n st]; [by exists []|]. rewrite open_text_cons, app_assoc. eauto. Qed.
Lemma wp_up_one loop m p n st src (Q : option Z -> memory -> Prop) : SLASH ∉ n -> (length n < loop_fuel)%nat -> text_at m p (open_text (n :: st)) ->
  wp (loop src (p + Z.of_nat (length (open_text st)))) Q m -> wp (up_one loop p src (p + Z.of_nat (length (open_text (n :: st))))) Q m.
Proof.
  intros Hn Hf Hm HQ. unfold up_one. destruct (open_text_slash st) as [x Ex]. rewrite open_text_cons, Ex in *. rewrite !length_app in *. cbn [length] in *.
  destruct (Z.ltb_spec (p + Z.of_nat (length x + 1 + (length n + 1)) - 1) p); [lia|]. wp1.
  replace (p + Z.of_nat (length x + 1 + (length n + 1)) - 1) with (p + Z.of_nat (length x) + 1 + Z.of_nat (length n)) by lia.
  apply wp_back_up; [done|done|lia| |by replace (p + Z.of_nat (length x) + 1) with (p + Z.of_nat (length x + 1)) by lia].
  rewrite <- app_assoc in Hm. apply text_at_app in Hm as [_ Hm]. change ([SLASH] ++ n ++ [SLASH]) with ((SLASH :: n) ++ [SLASH]) in Hm. by apply text_at_app in Hm as [Hm _].
Qed.
Lemma wp_copy_up_end loop seg m src dst (Q : option Z -> memory -> Prop) : segment seg -> (length seg < loop_fuel)%nat -> text_at m src (seg ++ [0]) -> dst <= src ->
  (forall m', text_at m' dst seg -> same_outside m m' dst (Z.of_nat (length seg)) -> Q (Some (dst + Z.of_nat (length seg))) m') -> wp (copy_up loop src dst) Q m.
Proof.
  intros Hs Hf Hm Hd HQ. unfold copy_up. wp1. eapply wp_copy_segment; [by left|done|done|exact Hm|done|]. intros m' H1 H2. cbn beta iota. change (0 =? SLASH) with false. cbn beta iota. wp1. by apply HQ.
Qed.
Lemma wp_copy_up_slash loop seg k c m src dst (Q : option Z -> memory -> Prop) : segment seg -> c <> SLASH -> (length seg < loop_fuel)%nat -> (S k < loop_fuel)%nat ->
  text_at m src (seg ++ SLASH :: replicate k SLASH ++ [c]) -> dst <= src ->
  (forall m', text_at m' dst (seg ++ [SLASH]) -> same_outside m m' dst (Z.of_nat (length seg) + 1) ->
     wp (loop (src + Z.of_nat (length seg) + 1 + Z.of_nat k) (dst + Z.of_nat (length seg) + 1)) Q m') -> wp (copy_up loop src dst) Q m.
Proof.
  intros Hs Hc Hf Hk Hm Hd HQ. unfold copy_up. wp1. change (SLASH :: replicate k SLASH ++ [c]) with ([SLASH] ++ replicate k SLASH ++ [c]) in Hm. rewrite app_assoc in Hm.
  apply text_at_app in Hm as [Hm Hr]. rewrite length_app in Hr. cbn [length] in Hr. replace (src + Z.of_nat (length seg + 1)) with (src + Z.of_nat (length seg) + 1) in Hr by lia.
  eapply wp_copy_segment; [by right|done|done|exact Hm|done|]. intros m' H1 H2. cbn beta iota. rewrite Z.eqb_refl. wp1. wp1. wp1.
  eapply (wp_pass_slashes k c); [done|done| |].
  - eapply text_at_frame; [|exact Hr]. intros x Hx. rewrite upd_ne by lia. apply H2. lia.
  - replace (src + Z.of_nat (length seg) + 1 + Z.of_nat k + 1 - 1) with (src + Z.of_nat (length seg) + 1 + Z.of_nat k) by lia. apply HQ.
    + apply text_at_app. split; [|apply text_at_cons; split; [apply upd_eq|apply text_at_nil]]. eapply text_at_frame; [|exact H1]. intros x Hx. apply upd_ne. lia.
    + intros x Hx. rewrite upd_ne by lia. apply H2. lia.
Qed.

(** *** The components of the text that is left *)
Lemma components_seg seg tail acc : SLASH ∉ seg -> components acc (seg ++ tail) = components (acc ++ seg) tail.
Proof.
  revert acc. induction seg as [|c seg IH]; intros acc Hs; [by rewrite app_nil_r|]. apply not_elem_of_cons in Hs as [Hc Hs]. cbn [app components].
  destruct (Z.eqb_spec c SLASH); [by subst|]. rewrite IH by done. by rewrite <- app_assoc.
Qed.
Lemma components_slashes k r : components [] (replicate k SLASH ++ r) = components [] r.
Proof. induction k as [|k IH]; [done|]. cbn [replicate app components]. rewrite Z.eqb_refl. rewrite bool_decide_true by done. exact IH. Qed.
Lemma components_end seg : segment seg -> seg <> [] -> components [] seg = [seg].
Proof. intros [_ Hs] Hne. rewrite <- (app_nil_r seg) at 1. rewrite components_seg by done. cbn [app components]. by rewrite bool_decide_false. Qed.
Lemma components_next seg k r : segment seg -> seg <> [] -> components [] (seg ++ SLASH :: replicate k SLASH ++ r) = seg :: components [] r.
Proof.
  intros [_ Hs] Hne. rewrite components_seg by done. cbn [app components]. rewrite Z.eqb_refl, bool_decide_false by done. by rewrite components_slashes.
Qed.
(** A segment, and what comes behind it. *)
Lemma segment_cons c l : c <> 0 -> c <> SLASH -> segment l -> segment (c :: l).
Proof. intros H1 H2 [H3 H4]. split; by apply not_elem_of_cons. Qed.
Lemma split_slashes r : exists k r', r = replicate k SLASH ++ r' /\ hd 0 r' <> SLASH.
Proof.
  induction r as [|c r IH]; [by exists O, []|]. destruct (Z.eqb_spec c SLASH) as [->|Hc].
  - destruct IH as (k & r' & -> & Hr). by exists (Datatypes.S k), r'.
  - by exists O, (c :: r).
Qed.
Lemma split_segment s : 0 ∉ s -> exists seg tail, s = seg ++ tail /\ segment seg /\
  (tail = [] \/ exists k r, tail = SLASH :: replicate k SLASH ++ r /\ hd 0 r <> SLASH).
Proof.
  induction s as [|c s IH]; intros H0; [exists [], []; split_and!; [done|by split; apply not_elem_of_nil|by left]|].
  apply not_elem_of_cons in H0 as [Hc H0]. destruct (Z.eqb_spec c SLASH) as [->|Hs].
  - destruct (split_slashes s) as (k & r & -> & Hr). exists [], (SLASH :: replicate k SLASH ++ r). split_and!; [done|by split; apply not_elem_of_nil|right; eauto].
  - destruct (IH H0) as (seg & tail & -> & H1 & H2). exists (c :: seg), tail. split_and!; [done|by apply segment_cons|done].
Qed.

(** *** The loop *)
(** Where the path ends in memory: behind its last component, or behind a slash. *)
Definition path_end_text (st : list (list Z)) (l : list Z) : Prop := l = open_text st \/ exists n st', st = n :: st' /\ l = open_text st' ++ n.
(** What the loop leaves of the rest of the path, which starts at [src]. *)
Definition normalized (m m' : memory) (p src : Z) (rest : list Z) (st : list (list Z)) (r : option Z) : Prop :=
  exists l, path_end_text st l /\ text_at m' p l /\ r = Some (p + Z.of_nat (length l)) /\ p + Z.of_nat (length l) <= src + Z.of_nat (length rest) /\
    same_outside m m' p (src + Z.of_nat (length rest) - p).
Lemma normalized_weaken m m1 m' p src src1 rest rest1 st r : same_outside m m1 p (src + Z.of_nat (length rest) - p) ->
  src1 + Z.of_nat (length rest1) <= src + Z.of_nat (length rest) -> normalized m1 m' p src1 rest1 st r -> normalized m m' p src rest st r.
Proof.
  intros Hm Hle (l & H1 & H2 & H3 & H4 & H5). exists l. split_and!; try done; [lia|]. intros x Hx. rewrite H5 by lia. apply Hm. lia.
Qed.

(** A component that is no dots is copied. *)
Lemma wp_step_name fuel m p src dst seg t (Q : option Z -> memory -> Prop) : segment seg -> seg <> [DOT] -> seg <> [DOT; DOT] -> t = 0 \/ t = SLASH ->
  text_at m src (seg ++ [t]) -> wp (copy_up (normalize_loop fuel p) src dst) Q m -> wp (normalize_loop (S fuel) p src dst) Q m.
Proof.
  intros [H0 Hs] Hd Hdd Ht Hm HQ. cbn [normalize_loop]. do 6 wp1. destruct (Z.eqb_spec (m src) DOT) as [E|]; [|done].
  destruct seg as [|a seg]; cbn [app] in Hm; apply text_at_cons in Hm as [Ea Hm]; [by destruct Ht as [-> | ->]; rewrite Ea in E|].
  assert (a = DOT) as -> by congruence. apply not_elem_of_cons in H0 as [_ H0]. apply not_elem_of_cons in Hs as [_ Hs].
  destruct seg as [|b seg]; [by destruct Hd|]. cbn [app] in Hm. apply text_at_cons in Hm as [Eb Hm]. rewrite Eb. apply not_elem_of_cons in H0 as [B1 H0]. apply not_elem_of_cons in Hs as [B2 Hs].
  destruct (Z.eqb_spec b 0); [by subst|]. destruct (Z.eqb_spec b SLASH); [by subst|]. destruct (Z.eqb_spec b DOT) as [->|]; [|done].
  destruct seg as [|d seg]; [by destruct Hdd|]. cbn [app] in Hm. apply text_at_cons in Hm as [Ed _]. replace (src + 1 + 1) with (src + 2) in Ed by lia. rewrite Ed.
  apply not_elem_of_cons in H0 as [D1 _]. apply not_elem_of_cons in Hs as [D2 _]. destruct (Z.eqb_spec d 0); [by subst|]. destruct (Z.eqb_spec d SLASH); [by subst|]. done.
Qed.
Lemma head_slash seg tail : hd 0 (seg ++ SLASH :: tail) <> SLASH -> seg <> [].
Proof. by intros H ->. Qed.
Lemma hd_end r : r ++ [0] = hd 0 r :: tl (r ++ [0]).
Proof. by destruct r. Qed.
(** What is known in front of the rest of the path. *)
Record loop_inv (m : memory) (p src : Z) (rest : list Z) (st : list (list Z)) : Prop := {
  li_string : text_at m src (rest ++ [0]);
  li_clean : 0 ∉ rest;
  li_head : hd 0 rest <> SLASH;
  li_text : text_at m p (open_text st);
  li_place : p + Z.of_nat (length (open_text st)) <= src;
  li_names : Forall (fun n => SLASH ∉ n) st;
  li_short : src + Z.of_nat (length rest) + 1 < p + Z.of_nat loop_fuel
}.
(** The invariant behind a component and its slashes. *)
Lemma loop_inv_next m m' p src seg k r st st' : loop_inv m p src (seg ++ SLASH :: replicate k SLASH ++ r) st -> hd 0 r <> SLASH ->
  same_outside m m' p (src + Z.of_nat (length seg) + 1 - p) -> text_at m' p (open_text st') -> p + Z.of_nat (length (open_text st')) <= src + Z.of_nat (length seg) + 1 ->
  Forall (fun n => SLASH ∉ n) st' -> loop_inv m' p (src + Z.of_nat (length seg) + 1 + Z.of_nat k) r st'.
Proof.
  intros [I1 I2 I3 I4 I5 I6 I7] Hr Hm Ht Hp Hn. rewrite length_app in I7. cbn [length] in I7. rewrite length_app, length_replicate in I7. split; try done; [| |lia|lia].
  - rewrite <- app_assoc in I1. cbn [app] in I1. rewrite <- app_assoc in I1. apply text_at_app in I1 as [_ I1]. apply text_at_cons in I1 as [_ I1]. apply text_at_app in I1 as [_ I1]. rewrite length_replicate in I1.
    eapply text_at_frame; [|exact I1]. intros x Hx. apply Hm. lia.
  - apply not_elem_of_app in I2 as [_ I2]. apply not_elem_of_cons in I2 as [_ I2]. by apply not_elem_of_app in I2 as [_ I2].
Qed.
Lemma open_text_fits n st p src m rest : loop_inv m p src rest (n :: st) -> SLASH ∉ n /\ (length n < loop_fuel)%nat /\ p + Z.of_nat (length (open_text st)) <= src.
Proof.
  intros [I1 I2 I3 I4 I5 I6 I7]. apply Forall_cons in I6 as [Hn _]. rewrite open_text_cons, !length_app in I5. cbn [length] in I5. split_and!; [done|lia|lia].
Qed.

Lemma same_outside_refl m a n : same_outside m m a n.
Proof. done. Qed.
(** A path that ends with a component that is no dots. *)
Lemma normalize_name_end fuel m p src seg st (Q : option Z -> memory -> Prop) : loop_inv m p src seg st -> segment seg -> seg <> [DOT] -> seg <> [DOT; DOT] ->
  (forall m' r, normalized m m' p src seg (if decide (seg = []) then st else seg :: st) r -> Q r m') ->
  wp (normalize_loop (S fuel) p src (p + Z.of_nat (length (open_text st)))) Q m.
Proof.
  intros [I1 I2 I3 I4 I5 I6 I7] Hs Hd Hdd HQ. eapply wp_step_name; [exact Hs|done|done|by left|exact I1|].
  eapply wp_copy_up_end; [exact Hs|lia|exact I1|done|]. intros m' H1 H2. apply HQ. exists (open_text st ++ seg). rewrite length_app. split_and!; [|apply text_at_app; split; [|exact H1]|f_equal; lia|lia|intros x Hx; apply H2; lia].
  - case_decide as E; [left; by rewrite E, app_nil_r|right; eauto].
  - eapply text_at_frame; [|exact I4]. intros x Hx. apply H2. lia.
Qed.
(** A path that ends with dots. *)
Lemma normalize_dot_end fuel m p src st (Q : option Z -> memory -> Prop) : loop_inv m p src [DOT] st ->
  (forall m' r, normalized m m' p src [DOT] st r -> Q r m') -> wp (normalize_loop (S fuel) p src (p + Z.of_nat (length (open_text st)))) Q m.
Proof.
  intros [I1 I2 I3 I4 I5 I6 I7] HQ. cbn [app length] in *. apply text_at_cons in I1 as [E I1]. pose proof I1 as I1'. apply text_at_cons in I1' as [E1 _]. cbn [normalize_loop]. do 6 wp1. rewrite E, Z.eqb_refl, E1, Z.eqb_refl.
  eapply (wp_copy_up_end _ []); [by split; apply not_elem_of_nil|cbn [length]; lia|exact I1|lia|]. intros m' _ H2. rewrite Z.add_0_r. apply HQ.
  exists (open_text st). split_and!; [by left| |done|cbn [length]; lia|].
  - eapply text_at_frame; [|exact I4]. intros x Hx. apply H2. cbn [length]. lia.
  - intros x Hx. apply H2. cbn [length] in *. lia.
Qed.
(** What is left after "..": the loop goes on behind the directory above. *)
Lemma up_one_again fuel m p src src' rest n st (Q : option Z -> memory -> Prop) : loop_inv m p src rest (n :: st) ->
  wp (normalize_loop fuel p src' (p + Z.of_nat (length (open_text st)))) Q m ->
  wp (up_one (normalize_loop fuel p) p src' (p + Z.of_nat (length (open_text (n :: st))))) Q m.
Proof. intros Hi HQ. destruct (open_text_fits _ _ _ _ _ _ Hi) as (H1 & H2 & _). apply wp_up_one; [done|done|apply Hi|exact HQ]. Qed.
Lemma open_text_below m p n st : text_at m p (open_text (n :: st)) -> text_at m p (open_text st).
Proof. rewrite open_text_cons. intros H. by apply text_at_app in H as [H _]. Qed.

(** The dots in front of the rest of the path. *)
Lemma step_dot fuel m p src dst tail (Q : option Z -> memory -> Prop) : text_at m src (DOT :: SLASH :: tail) ->
  wp (skip_slashes loop_fuel (src + 2)) (fun src m => wp (normalize_loop fuel p src dst) Q m) m -> wp (normalize_loop (S fuel) p src dst) Q m.
Proof.
  intros Hm HQ. apply text_at_cons in Hm as [E Hm]. apply text_at_cons in Hm as [E1 _]. cbn [normalize_loop]. do 6 wp1. rewrite E, Z.eqb_refl, E1.
  change (SLASH =? 0) with false. rewrite Z.eqb_refl. cbn beta iota. by wp1.
Qed.
Lemma step_dots fuel m p src dst t (Q : option Z -> memory -> Prop) : text_at m src [DOT; DOT; t] ->
  (t = 0 -> wp (up_one (normalize_loop fuel p) p (src + 2) dst) Q m) ->
  (t = SLASH -> wp (skip_slashes loop_fuel (src + 3)) (fun src m => wp (up_one (normalize_loop fuel p) p src dst) Q m) m) ->
  t = 0 \/ t = SLASH -> wp (normalize_loop (S fuel) p src dst) Q m.
Proof.
  intros Hm H0 Hs Ht. apply text_at_cons in Hm as [E Hm]. apply text_at_cons in Hm as [E1 Hm]. apply text_at_cons in Hm as [E2 _]. replace (src + 1 + 1) with (src + 2) in E2 by lia.
  cbn [normalize_loop]. do 6 wp1. rewrite E, Z.eqb_refl, E1, E2. change (DOT =? 0) with false. change (DOT =? SLASH) with false. rewrite Z.eqb_refl. cbn beta iota.
  destruct Ht as [-> | ->]; [by apply H0|]. change (SLASH =? 0) with false. rewrite Z.eqb_refl. cbn beta iota. wp1. by apply Hs.
Qed.
Lemma loop_inv_slashes m p src seg k r st : loop_inv m p src (seg ++ SLASH :: replicate k SLASH ++ r) st ->
  text_at m (src + Z.of_nat (length seg) + 1) (replicate k SLASH ++ [hd 0 r]) /\ (S k < loop_fuel)%nat.
Proof.
  intros [I1 I2 I3 I4 I5 I6 I7]. rewrite length_app in I7. cbn [length] in I7. rewrite length_app, length_replicate in I7. split; [|lia].
  rewrite <- app_assoc in I1. cbn [app] in I1. apply text_at_app in I1 as [_ I1]. apply text_at_cons in I1 as [_ I1]. rewrite <- app_assoc, hd_end in I1.
  change (hd 0 r :: tl (r ++ [0])) with ([hd 0 r] ++ tl (r ++ [0])) in I1. rewrite app_assoc in I1. by apply text_at_app in I1 as [I1 _].
Qed.

Lemma wp_normalize_loop p fuel : forall rest st st' m src (Q : option Z -> memory -> Prop), (S (length rest) < fuel)%nat -> loop_inv m p src rest st ->
  resolve (components [] rest) st = Some st' -> (forall m' r, normalized m m' p src rest st' r -> Q r m') ->
  wp (normalize_loop fuel p src (p + Z.of_nat (length (open_text st)))) Q m.
Proof.
  induction fuel as [|fuel IH]; intros rest st st' m src Q Hf Hi Hres HQ; [lia|].
  destruct (split_segment rest (li_clean _ _ _ _ _ Hi)) as (seg & tail & -> & Hs & [->|(k & r & -> & Hr)]).
  - rewrite app_nil_r in *. destruct (decide (seg = [DOT])) as [->|Hd]; [apply normalize_dot_end; [done|]; by injection Hres as <-|].
    destruct (decide (seg = [DOT; DOT])) as [->|Hdd].
    + cbn in Hres. destruct st as [|n st]; [done|]. injection Hres as <-. destruct (open_text_fits _ _ _ _ _ _ Hi) as (_ & _ & Hp).
      eapply (step_dots _ _ _ _ _ 0); [exact (li_string _ _ _ _ _ Hi)|intros _|done|by left]. eapply up_one_again; [exact Hi|]. destruct Hi as [I1 I2 I3 I4 I5 I6 I7]. cbn [length] in *.
      apply (IH [] st st); [cbn; lia| |done|].
      * apply Forall_cons in I6 as [_ I6]. split; try done; [|by apply not_elem_of_nil|by eapply open_text_below|lia|cbn [length]; lia].
        by apply (text_at_app m src [DOT; DOT] [0]) in I1 as [_ I1].
      * intros m' r Hn. apply HQ. eapply normalized_weaken; [apply same_outside_refl| |exact Hn]. cbn [length]. lia.
    + apply (normalize_name_end fuel m p src seg st); [done..|]. intros m' r' Hn. apply HQ. case_decide as E; [subst seg; by injection Hres as <-|].
      rewrite components_end in Hres by done. cbn [resolve] in Hres. rewrite !bool_decide_false in Hres by done. by injection Hres as <-.
  - pose proof (head_slash _ _ (li_head _ _ _ _ _ Hi)) as Hne. rewrite components_next in Hres by done. cbn [resolve] in Hres.
    pose proof (li_short _ _ _ _ _ Hi) as Hsh. rewrite length_app in Hsh, Hf. cbn [length] in Hsh, Hf. rewrite length_app, length_replicate in Hsh, Hf. pose proof (li_place _ _ _ _ _ Hi) as Hpl.
    assert (forall m1 src1 m' r', same_outside m m1 p (src + Z.of_nat (length seg) + 1 - p) -> src1 = src + Z.of_nat (length seg) + 1 + Z.of_nat k -> normalized m1 m' p src1 r st' r' -> Q r' m') as Hgo.
    { intros m1 src1 m' r' Hm1 -> Hn. apply HQ. eapply normalized_weaken; [| |exact Hn]; rewrite length_app; cbn [length]; rewrite length_app, length_replicate; [|lia]. intros x Hx. apply Hm1. lia. }
    destruct (decide (seg = [DOT])) as [->|Hd]; [|destruct (decide (seg = [DOT; DOT])) as [->|Hdd]].
    + cbn in Hres. eapply step_dot; [exact (proj1 (proj1 (text_at_app _ _ ([DOT; SLASH]) _) (li_string _ _ _ _ _ Hi)))|]. cbn [length] in *.
      destruct (loop_inv_slashes _ _ _ _ _ _ _ Hi) as [Ht Hk]. eapply (wp_skip_slashes k); [exact Hr|lia|by replace (src + 2) with (src + Z.of_nat 1 + 1) by lia|]. replace (src + 2 + Z.of_nat k) with (src + Z.of_nat 1 + 1 + Z.of_nat k) by lia.
      eapply (IH r st st'); [lia| |exact Hres|intros m' r' Hn; eapply Hgo; [apply same_outside_refl|done|exact Hn]].
      apply (loop_inv_next m m p src [DOT] k r st st); try done; [apply Hi|cbn [length]; lia|apply Hi].
    + cbn in Hres. destruct st as [|n st]; [done|]. destruct (open_text_fits _ _ _ _ _ _ Hi) as (_ & _ & Hp). cbn [length] in *.
      destruct (loop_inv_slashes _ _ _ _ _ _ _ Hi) as [Ht Hk].
      eapply (step_dots _ _ _ _ _ SLASH); [exact (proj1 (proj1 (text_at_app _ _ ([DOT; DOT; SLASH]) _) (li_string _ _ _ _ _ Hi)))|done|intros _|by right].
      eapply (wp_skip_slashes k); [exact Hr|lia|by replace (src + 3) with (src + Z.of_nat 2 + 1) by lia|]. eapply up_one_again; [exact Hi|]. replace (src + 3 + Z.of_nat k) with (src + Z.of_nat 2 + 1 + Z.of_nat k) by lia.
      eapply (IH r st st'); [lia| |exact Hres|intros m' r' Hn; eapply Hgo; [apply same_outside_refl|done|exact Hn]].
      apply (loop_inv_next m m p src [DOT; DOT] k r (n :: st) st); try done; [eapply open_text_below, Hi|cbn [length]; lia|]. pose proof (li_names _ _ _ _ _ Hi) as Hn. by apply Forall_cons in Hn as [_ Hn].
    + rewrite !bool_decide_false in Hres by done. destruct (loop_inv_slashes _ _ _ _ _ _ _ Hi) as [Ht Hk].
      assert (text_at m src (seg ++ SLASH :: replicate k SLASH ++ [hd 0 r])) as Hall.
      { apply text_at_app. pose proof (li_string _ _ _ _ _ Hi) as I1. rewrite <- app_assoc in I1. cbn [app] in I1. apply text_at_app in I1 as [I1 I2]. split; [exact I1|].
        apply text_at_cons in I2 as [I2 _]. by apply text_at_cons. }
      eapply wp_step_name; [exact Hs|done|done|by right| |].
      { change (SLASH :: replicate k SLASH ++ [hd 0 r]) with ([SLASH] ++ replicate k SLASH ++ [hd 0 r]) in Hall. rewrite app_assoc in Hall. by apply text_at_app in Hall as [Hall _]. }
      eapply (wp_copy_up_slash _ seg k (hd 0 r)); [exact Hs|exact Hr|lia|lia|exact Hall|exact Hpl|]. intros m' H1 H2.
      assert (text_at m' p (open_text (seg :: st))) as Hot.
      { rewrite open_text_cons. apply text_at_app. split; [|exact H1]. eapply text_at_frame; [|exact (li_text _ _ _ _ _ Hi)]. intros x Hx. apply H2. lia. }
      replace (p + Z.of_nat (length (open_text st)) + Z.of_nat (length seg) + 1) with (p + Z.of_nat (length (open_text (seg :: st)))) by (rewrite open_text_cons, !length_app; cbn [length]; lia).
      assert (same_outside m m' p (src + Z.of_nat (length seg) + 1 - p)) as Hso by (intros x Hx; apply H2; lia).
      eapply (IH r (seg :: st) st'); [lia| |exact Hres|intros m2 r' Hn; eapply Hgo; [exact Hso|done|exact Hn]].
      apply (loop_inv_next m m' p src seg k r st (seg :: st)); try done.
      * rewrite open_text_cons, !length_app. cbn [length]. lia.
      * apply Forall_cons. split; [apply Hs|apply Hi].
Qed.
End loops.

(** *** The whole path *)
Section whole.
Context {cfg : Config}.
Implicit Types (m : memory).

Definition names_ok (ns : list (list Z)) : Prop := Forall (fun n => n <> [] /\ segment n) ns.
Lemma components_ok acc s : 0 ∉ s -> segment acc -> names_ok (components acc s).
Proof.
  assert (forall acc, segment acc -> names_ok (if bool_decide (acc = []) then [] else [acc])) as Hd.
  { intros a Ha. case_bool_decide; [by apply Forall_nil_2|]. apply Forall_cons. split; [done|by apply Forall_nil_2]. }
  revert acc. induction s as [|c s IH]; intros acc H0 Ha; cbn [components]; [by apply Hd|]. apply not_elem_of_cons in H0 as [Hc H0].
  destruct (Z.eqb_spec c SLASH) as [->|Hs].
  - apply Forall_app. split; [by apply Hd|]. apply IH; [done|]. by split; apply not_elem_of_nil.
  - apply IH; [done|]. destruct Ha as [A1 A2]. split; apply not_elem_of_app; (split; [done|]); by apply not_elem_of_cons; split; [|apply not_elem_of_nil].
Qed.
Lemma resolve_ok ns st st' : names_ok ns -> names_ok st -> resolve ns st = Some st' -> names_ok st'.
Proof.
  intros Hn. revert st. induction Hn as [|n ns Hn _ IH]; intros st Hst; cbn [resolve]; [by intros [= <-]|].
  case_bool_decide; [by apply IH|]. case_bool_decide.
  - destruct st as [|x st]; [done|]. apply Forall_cons in Hst as [_ Hst]. by apply IH.
  - apply IH. by apply Forall_cons.
Qed.
Lemma path_text_cons n st : path_text (n :: st) = open_text st ++ n.
Proof.
  assert (forall l : list (list Z), SLASH :: mjoin ((fun n => n ++ [SLASH]) <$> l) = mjoin ((fun n => SLASH :: n) <$> l) ++ [SLASH]) as H.
  { induction l as [|x l IH]; [done|]. cbn [fmap list_fmap mjoin list_join] in *. cbn [app]. f_equal. rewrite <- !app_assoc. f_equal. exact IH. }
  unfold path_text, open_text. rewrite H. cbn [rev]. rewrite fmap_app, join_app. cbn [fmap list_fmap mjoin list_join]. rewrite app_nil_r. by rewrite <- app_assoc.
Qed.
Lemma path_text_clean st : names_ok st -> 0 ∉ path_text st.
Proof.
  assert (forall l : list (list Z), names_ok l -> 0 ∉ mjoin ((fun n => SLASH :: n) <$> l)) as H.
  { induction 1 as [|n l [_ [Hn _]] _ IH]; [by apply not_elem_of_nil|]. cbn [fmap list_fmap mjoin list_join]. apply not_elem_of_app. split; [by apply not_elem_of_cons|done]. }
  destruct st as [|n st]; intros Hs; [by apply not_elem_of_cons; split; [|apply not_elem_of_nil]|]. apply H. apply Forall_rev. exact Hs.
Qed.
(** The terminator, and no slash at the end. *)
Lemma wp_path_end m p st l (Q : unit -> memory -> Prop) : names_ok st -> path_end_text st l -> text_at m p l ->
  (forall m', string_at m' p (path_text st) -> same_outside m m' p (Z.of_nat (length l) + 1) -> Q tt m') -> wp (path_end p (p + Z.of_nat (length l))) Q m.
Proof.
  intros Hok Hl Hm HQ. unfold path_end. do 3 wp1. wp1. set (d := p + Z.of_nat (length l)) in *. pose proof (path_text_clean st Hok) as Hc.
  assert (forall k, text_at m p k -> Z.of_nat (length k) <= Z.of_nat (length l) -> k = path_text st ->
    string_at (<[p + Z.of_nat (length k) := 0]> (<[d := 0]> m)) p (path_text st)) as Hs.
  { intros k Hk Hlen E. rewrite <- E in *. apply string_chars. split; [|done]. apply text_at_app. split.
    - eapply text_at_frame; [|exact Hk]. intros x Hx. rewrite !upd_ne by lia. done.
    - apply text_at_cons. split; [apply upd_eq|apply text_at_nil]. }
  assert (forall k, k = l -> k = path_text st -> string_at (<[d := 0]> m) p (path_text st)) as Hs'.
  { intros k -> E. eapply string_at_ext; [|apply (Hs l Hm); [done|exact E]]. intros i Hi. rewrite (upd_case (<[d := 0]> m)). fold d. case_decide as D; [|done]. by rewrite <- D, upd_eq. }
  destruct Hl as [->|(n & st' & -> & ->)].
  - destruct st as [|n st].
    + replace (d - 1) with p by (unfold d, open_text; cbn; lia). rewrite Z.eqb_refl. cbn [negb andb]. wp1. apply HQ; [by apply (Hs' [SLASH])|]. intros x Hx. apply upd_ne. lia.
    + rewrite open_text_cons, app_assoc in *. apply text_at_app in Hm as [Hm Hsl]. apply text_at_cons in Hsl as [Hsl _].
      assert (d - 1 = p + Z.of_nat (length (open_text st ++ n))) as Ed by (unfold d; rewrite open_text_cons, !length_app; cbn [length]; lia).
      rewrite upd_ne, Ed, Hsl, Z.eqb_refl by lia.
      destruct (Z.eqb_spec (p + Z.of_nat (length (open_text st ++ n))) p) as [E|]; [rewrite length_app in E; unfold open_text in E; cbn [length] in E; lia|]. cbn [negb andb]. wp1. apply HQ.
      * apply Hs; [done|rewrite (length_app (_ ++ _)); lia|by rewrite path_text_cons].
      * intros x Hx. rewrite (length_app (_ ++ _)) in Hx. cbn [length] in Hx. rewrite !upd_ne by lia. done.
  - assert (SLASH ∉ n /\ n <> []) as [Hn Hne] by (apply Forall_cons in Hok as [[? [_ ?]] _]; done). destruct n as [|c n _] using rev_ind; [done|].
    assert (<[d := 0]> m (d - 1) = c) as ->.
    { rewrite upd_ne by lia. rewrite app_assoc in Hm. apply text_at_app in Hm as [_ Hm]. apply text_at_cons in Hm as [Hm _]. rewrite <- Hm. f_equal. unfold d. rewrite app_assoc, (length_app (_ ++ _)). cbn [length]. lia. }
    apply not_elem_of_app in Hn as [_ Hn]. destruct (Z.eqb_spec c SLASH) as [->|]; [by destruct Hn; left|]. rewrite andb_false_r. wp1. apply HQ.
    + eapply Hs'; [done|]. by rewrite path_text_cons.
    + intros x Hx. apply upd_ne. lia.
Qed.
(** The first slash, and the rest. *)
Lemma wp_normalize m p rest st (Q : option Z -> memory -> Prop) : string_at m p (SLASH :: rest) -> (length rest + 3 < loop_fuel)%nat ->
  resolve (components [] rest) [] = Some st -> (forall m' l, path_end_text st l -> text_at m' p l -> (length l <= S (length rest))%nat ->
    same_outside m m' p (Z.of_nat (S (length rest))) -> Q (Some (p + Z.of_nat (length l))) m') ->
  wp (normalize_loop loop_fuel p p p) Q m.
Proof.
  intros Hm Hf Hres HQ. apply string_chars in Hm as [Hm H0]. apply not_elem_of_cons in H0 as [_ H0]. destruct (split_slashes rest) as (k & r & -> & Hr). rewrite components_slashes in Hres. rewrite length_app, length_replicate in *.
  destruct loop_fuel as [|fuel] eqn:Ef; [lia|]. rewrite <- Ef in *. assert (segment []) as Hnil by (split; apply not_elem_of_nil).
  assert (text_at m p ([] ++ SLASH :: replicate k SLASH ++ [hd 0 r])) as Hm1.
  { cbn [app] in *. rewrite <- app_assoc, hd_end in Hm. change (SLASH :: replicate k SLASH ++ hd 0 r :: tl (r ++ [0])) with ((SLASH :: replicate k SLASH) ++ [hd 0 r] ++ tl (r ++ [0])) in Hm. rewrite app_assoc in Hm. by apply text_at_app in Hm as [Hm _]. }
  rewrite Ef. eapply (wp_step_name _ _ _ _ _ []); [exact Hnil|done|done|by right| |].
  { apply text_at_cons in Hm1 as [Hm1 _]. apply text_at_cons. split; [exact Hm1|apply text_at_nil]. }
  eapply (wp_copy_up_slash _ [] k (hd 0 r)); [exact Hnil|exact Hr|cbn; lia|lia|exact Hm1|lia|]. intros m' H1 H2. cbn [length app] in *. rewrite !Z.add_0_r in *.
  apply (wp_normalize_loop p fuel r [] st); [lia| |exact Hres|].
  - split; [|by apply not_elem_of_app in H0 as [_ H0]|exact Hr|exact H1|cbn; lia|by apply Forall_nil_2|lia].
    cbn [app] in Hm. apply text_at_cons in Hm as [_ Hm]. rewrite <- app_assoc in Hm. apply text_at_app in Hm as [_ Hm]. rewrite length_replicate in Hm. eapply text_at_frame; [|exact Hm]. intros x Hx. apply H2. lia.
  - intros m2 x (l & L1 & L2 & -> & L4 & L5). apply HQ; [done|done|lia|]. intros y Hy. rewrite L5 by lia. apply H2. lia.
Qed.
End whole.

(** ** dfs_normalize_path *)
Section normalize.
Context {cfg : Config} {dc : DfsConfig} {S : Type} {sh : SystemHeap S} {hl : HeapLaws S}.
Implicit Types (s : S) (V : heap_view).

Lemma read_string_spec m str : forall fuel a, string_at m a str -> (length str < fuel)%nat -> read_string fuel a m = Some str.
Proof.
  induction str as [|c str IH]; intros [|fuel] a Hs Hf; cbn [length] in *; try lia; cbn [read_string].
  - destruct Hs as (_ & _ & Hs). cbn in Hs. rewrite Z.add_0_r in Hs. by rewrite Hs.
  - apply string_at_tl in Hs as (E & Hc & Hs). rewrite E. apply Z.eqb_neq in Hc. rewrite Hc, (IH _ _ Hs) by lia. done.
Qed.
Definition join_format : list Z := chr <$> ["%"; "s"; "/"; "%"; "s"]%char.
Lemma format_join d f : format join_format [Text (Some d); Text (Some f)] = Some (d ++ SLASH :: f).
Proof.
  transitivity (Some (string_text (Some d) (-1) (-1) 0 ++ SLASH :: string_text (Some f) (-1) (-1) 0 ++ [])); [reflexivity|].
  unfold string_text. change (-1 >? 0) with false. change (has 0 LEFT) with false. cbn match. rewrite !spaces_nil by lia. cbn [app]. by rewrite app_nil_r.
Qed.
Lemma snprintf_join m p d f : 0 <= p -> p + Z.of_nat (length d + length f + 2) <= 2 ^ 32 -> 0 ∉ d -> 0 ∉ f ->
  exists n m', rt_snprintf p (Z.of_nat (length d + length f + 2)) join_format [Text (Some d); Text (Some f)] m = Some (n, m') /\
    string_at m' p (d ++ SLASH :: f) /\ same_outside m m' p (Z.of_nat (length d + length f + 2)).
Proof.
  intros Hp Hm Hd Hf. destruct (vsnprintf_writes p (Z.of_nat (length d + length f + 2)) _ _ _ m Hp ltac:(lia) Hm (format_join d f)) as (n & m' & E & Hw & _).
  exists (int32 n), m'. split; [exact E|]. rewrite take_ge in Hw by (rewrite length_app; cbn [length]; lia). split.
  - apply string_chars. split; [|apply not_elem_of_app; split; [done|]; by apply not_elem_of_cons]. intros i c Hi. rewrite Hw. pose proof (lookup_lt_Some _ _ _ Hi) as Hl. rewrite !length_app in Hl. cbn [length] in Hl.
    unfold place. rewrite decide_True by lia. replace (Z.to_nat (p + Z.of_nat i - p)) with i by lia. by rewrite Hi.
  - intros x Hx. rewrite Hw. unfold place. rewrite decide_False by lia. done.
Qed.

(** A string that no allocation touches. *)
Record held s V (a : Z) (str : list Z) : Prop := {
  he_string : string_at (sys_bytes s) a str;
  he_kept : kept_from V a (Z.of_nat (length str) + 1);
  he_short : (length str < loop_fuel)%nat /\ Z.of_nat (length str) < 2 ^ 30
}.
Lemma held_same s s' V a str : sys_bytes s' = sys_bytes s -> held s V a str -> held s' V a str.
Proof. intros E [H1 H2 H3]. split; [by rewrite E|done|done]. Qed.
Lemma wpr_join_path s V dir name d f (Q : Z -> S -> Prop) : heap_rep s V -> held s V dir d -> held s V name f ->
  (forall s', sys_bytes s' = sys_bytes s -> Q 0 s') -> (forall r V' s', duplicated s s' V V' r (d ++ SLASH :: f) -> r <> 0 -> Q r s') -> wpr (join_path dir name) Q s.
Proof.
  intros Hs [D1 D2 [D3 D4]] [F1 F2 [F3 F4]] HN HS. unfold join_path. wpr1. eapply wpr_string_length; [done..|]. intros s1 ->. wpr1. eapply wpr_string_length; [by rewrite bytes_law|done|]. intros s2 ->. rewrite bytes_law.
  rewrite uint_small by lia. replace (Z.of_nat (length d) + Z.of_nat (length f) + 2) with (Z.of_nat (length d + length f + 2)) by lia.
  wpr1. eapply wpr_sys_malloc; [by apply bytes_frame, bytes_frame|lia|..].
  - intros s3 E. rewrite bytes_law in E. rewrite Z.eqb_refl. wpr1. by apply HN.
  - intros a m V' s3 Hb E. rewrite bytes_law in E. pose proof (nb_null _ _ _ _ _ _ Hb) as Ha. apply Z.eqb_neq in Ha as Ha'. rewrite Ha'. wpr1. apply wpr_on_bytes.
    pose proof (new_block_granted _ _ _ _ _ _ Hb) as Hg. pose proof (live_bounds _ _ _ _ (nb_rep _ _ _ _ _ _ Hb) Hg) as (B1 & _ & _ & B4). pose proof (nb_size _ _ _ _ _ _ Hb) as Hsz.
    unfold wp. rewrite E, (read_string_spec _ d loop_fuel dir), (read_string_spec _ f loop_fuel name) by done. cbn [mbind option_bind].
    change (chr <$> ["%"; "s"; "/"; "%"; "s"]%char) with join_format. destruct (snprintf_join (sys_bytes s) a d f) as (n & m' & -> & Hst & Hso); [lia|lia|apply D1|apply F1|]. cbn [mbind option_bind].
    wpr1. apply (HS a V'); [|done]. split; rewrite ?bytes_law.
    + exists m. apply new_block_bytes. rewrite length_app. cbn [length]. destruct Hb. split; try done. lia.
    + exact Hst.
    + intros x Hx. apply Hso. rewrite length_app in Hx. cbn [length] in Hx. lia.
Qed.

(** What the caller gives: the name is absolute, or stands below an absolute directory. *)
Definition full_path (d f : list Z) : list Z := if hd 0 f =? SLASH then f else d ++ SLASH :: f.
Definition base_directory (directory : Z) : Z := if DFS_USING_WORKDIR && (directory =? 0) then working_directory else directory.
Lemma full_path_absolute d f : hd 0 f = SLASH \/ hd 0 d = SLASH -> exists rest, full_path d f = SLASH :: rest.
Proof.
  unfold full_path. destruct (Z.eqb_spec (hd 0 f) SLASH) as [E|E].
  - destruct f as [|c f]; [done|]. cbn in E. subst c. eauto.
  - intros [?|Hd]; [done|]. destruct d as [|c d]; [done|]. cbn in Hd. subst c. cbn. eauto.
Qed.
(** The path is in a block of its own, and no other byte changed. *)
Record normal_path s s' V V' (r : Z) (full : list Z) (st : list (list Z)) : Prop := {
  np_block : exists m, new_block s' V V' r (Z.of_nat (length full) + 1) m;
  np_string : string_at (sys_bytes s') r (path_text st);
  np_bytes : forall x, ~ r <= x < r + Z.of_nat (length full) + 1 -> sys_bytes s' x = sys_bytes s x
}.
Lemma wpr_normalize_block s s0 V V' p full rest st (Q : Z -> S -> Prop) : duplicated s s0 V V' p full -> p <> 0 -> full = SLASH :: rest -> (length full + 3 < loop_fuel)%nat ->
  resolve (components [] full) [] = Some st -> (forall s', normal_path s s' V V' p full st -> Q p s') ->
  wpr (r ← on_bytes (normalize_loop loop_fuel p p p); match r with None => sys_free p ;; mret 0 | Some dst => on_bytes (path_end p dst) ;; mret p end) Q s0.
Proof.
  intros [(m & Hb) Hst Hby] Hp -> Hf Hres HQ. cbn [components] in Hres. rewrite Z.eqb_refl in Hres. cbn [bool_decide] in Hres. cbn [length] in Hf.
  wpr1. apply wpr_on_bytes. eapply wp_normalize; [exact Hst|lia|exact Hres|]. intros m1 l L1 L2 L3 L4. wpr1. apply wpr_on_bytes. rewrite bytes_law.
  assert (names_ok st) as Hok.
  { eapply resolve_ok; [|by apply Forall_nil_2|exact Hres]. apply components_ok; [|by split; apply not_elem_of_nil]. destruct Hst as (_ & H0 & _). by apply not_elem_of_cons in H0 as [_ H0]. }
  eapply wp_path_end; [exact Hok|exact L1|exact L2|]. intros m2 H1 H2. wpr1. apply HQ. split; rewrite ?bytes_law.
  - exists m. by apply new_block_bytes, new_block_bytes.
  - exact H1.
  - intros x Hx. cbn [length] in Hx. rewrite H2, L4 by lia. apply Hby. cbn [length]. lia.
Qed.
Lemma string_at_hd m a str : string_at m a str -> m a = hd 0 str.
Proof. intros [_ H]%string_at_nth. specialize (H O ltac:(lia)). rewrite Z.add_0_r in H. by destruct str. Qed.
Lemma duplicated_same s s1 s' V V' r l : sys_bytes s1 = sys_bytes s -> duplicated s1 s' V V' r l -> duplicated s s' V V' r l.
Proof. intros E [H1 H2 H3]. split; [done|done|]. by rewrite <- E. Qed.
(** The copy that is worked on: of the name, or of the directory and the name. *)
Lemma wpr_full_path s V dir name d f (Q : Z -> S -> Prop) : heap_rep s V -> held s V name f -> (hd 0 f <> SLASH -> held s V dir d) ->
  (forall s', sys_bytes s' = sys_bytes s -> Q 0 s') ->
  (forall r V' s', duplicated s s' V V' r (full_path d f) -> r <> 0 -> Q r s') ->
  wpr (if negb (hd 0 f =? SLASH) then join_path dir name else rt_strdup name) Q s.
Proof.
  intros Hs Hf Hd HN HS. unfold full_path in HS. destruct (Z.eqb_spec (hd 0 f) SLASH) as [E|E]; cbn [negb].
  - destruct Hf as [F1 F2 [F3 F4]]. eapply wpr_strdup; [done|exact F1|exact F2|done|lia|done|done].
  - eapply wpr_join_path; [done|by apply Hd|exact Hf|done|done].
Qed.

(** Paths: when the path stays below the root, dfs_normalize_path returns RT_NULL for want of
    memory, or a string of its own: the absolute path that the components of the directory and
    the name lead to, without empty components, dots and a slash at the end.  The loop works
    in place, inside the string it allocated, and no other byte of memory changes. *)
Theorem dfs_normalize_path_resolves s V directory filename d f st : heap_rep s V -> filename <> 0 -> held s V filename f ->
  (hd 0 f <> SLASH -> held s V (base_directory directory) d /\ hd 0 d = SLASH /\ (DFS_USING_WORKDIR = true \/ directory <> 0)) ->
  (length (full_path d f) + 3 < loop_fuel)%nat -> resolve (components [] (full_path d f)) [] = Some st ->
  exists r s', dfs_normalize_path directory filename s = Some (Done r, s') /\
    (r = 0 /\ sys_bytes s' = sys_bytes s \/ r <> 0 /\ exists V', normal_path s s' V V' r (full_path d f) st).
Proof.
  intros Hs Hname Hf Hd Hlen Hres. apply wpr_run. unfold dfs_normalize_path.
  wpr1. wpr1. wp1; [by apply negb_true_iff, Z.eqb_neq|]. wpr1. apply wpr_on_bytes. wp1. rewrite (string_at_hd _ _ _ (he_string _ _ _ _ Hf)).
  set (s1 := set_sys_bytes (sys_bytes s) s). assert (sys_bytes s1 = sys_bytes s) as E1 by apply bytes_law.
  assert (negb DFS_USING_WORKDIR && (directory =? 0) && negb (hd 0 f =? SLASH) = false) as ->.
  { destruct (Z.eqb_spec (hd 0 f) SLASH) as [|Hne]; [by rewrite andb_false_r|]. destruct (Hd Hne) as (_ & _ & [-> | Hdir]); [done|].
    apply Z.eqb_neq in Hdir. by rewrite Hdir, andb_false_r. }
  fold (base_directory directory). wpr1.
  apply (wpr_full_path s1 V _ _ d f); [by apply bytes_frame|by eapply held_same|intros Hne; eapply held_same; [exact E1|by apply Hd]|..].
  - intros s' E. rewrite Z.eqb_refl. wpr1. left. split; [done|]. congruence.
  - intros r V' s' Hdup%(duplicated_same s) Hr; [|exact E1]. apply Z.eqb_neq in Hr as Hr'. rewrite Hr'.
    destruct (full_path_absolute d f) as [rest Er]; [destruct (decide (hd 0 f = SLASH)); [by left|right; by apply Hd]|].
    eapply wpr_normalize_block; [exact Hdup|exact Hr|exact Er|done|done|]. intros s2 Hn. right. split; [done|]. by exists V'.
Qed.
End normalize.
