(* ===== verification/Device.v ===== *)
(** The device framework (src/device.c): devices are kernel objects with a reference
    count, flags and the driver's functions.  A driver is outside the kernel: its
    functions are given by a class, and may do anything to the state. *)
From S2P Require Import Prelude RtList Kservice Kernel Scheduler Object TimerCore Invariant Thread.

(** struct rt_device after its parent; a function pointer is its address, if any. *)
Record rt_device : Type := mk_device {
  dv_type : Z;
  dv_flag : Z;
  dv_open_flag : Z;
  dv_ref_count : Z;
  dv_rx_indicate : option Z;
  dv_tx_complete : option Z;
  dv_init : option Z;
  dv_open : option Z;
  dv_close : option Z;
  dv_read : option Z;
  dv_write : option Z;
  dv_control : option Z
}.
Definition set_dv_type (v : Z) (s : rt_device) : rt_device :=
  mk_device v (dv_flag s) (dv_open_flag s) (dv_ref_count s) (dv_rx_indicate s) (dv_tx_complete s) (dv_init s) (dv_open s) (dv_close s) (dv_read s) (dv_write s) (dv_control s).
Definition set_dv_flag (v : Z) (s : rt_device) : rt_device :=
  mk_device (dv_type s) v (dv_open_flag s) (dv_ref_count s) (dv_rx_indicate s) (dv_tx_complete s) (dv_init s) (dv_open s) (dv_close s) (dv_read s) (dv_write s) (dv_control s).
Definition set_dv_open_flag (v : Z) (s : rt_device) : rt_device :=
  mk_device (dv_type s) (dv_flag s) v (dv_ref_count s) (dv_rx_indicate s) (dv_tx_complete s) (dv_init s) (dv_open s) (dv_close s) (dv_read s) (dv_write s) (dv_control s).
Definition set_dv_ref_count (v : Z) (s : rt_device) : rt_device :=
  mk_device (dv_type s) (dv_flag s) (dv_open_flag s) v (dv_rx_indicate s) (dv_tx_complete s) (dv_init s) (dv_open s) (dv_close s) (dv_read s) (dv_write s) (dv_control s).
Definition set_dv_rx_indicate (v : option Z) (s : rt_device) : rt_device :=
  mk_device (dv_type s) (dv_flag s) (dv_open_flag s) (dv_ref_count s) v (dv_tx_complete s) (dv_init s) (dv_open s) (dv_close s) (dv_read s) (dv_write s) (dv_control s).
Definition set_dv_tx_complete (v : option Z) (s : rt_device) : rt_device :=
  mk_device (dv_type s) (dv_flag s) (dv_open_flag s) (dv_ref_count s) (dv_rx_indicate s) v (dv_init s) (dv_open s) (dv_close s) (dv_read s) (dv_write s) (dv_control s).
Definition set_dv_init (v : option Z) (s : rt_device) : rt_device :=
  mk_device (dv_type s) (dv_flag s) (dv_open_flag s) (dv_ref_count s) (dv_rx_indicate s) (dv_tx_complete s) v (dv_open s) (dv_close s) (dv_read s) (dv_write s) (dv_control s).
Definition set_dv_open (v : option Z) (s : rt_device) : rt_device :=
  mk_device (dv_type s) (dv_flag s) (dv_open_flag s) (dv_ref_count s) (dv_rx_indicate s) (dv_tx_complete s) (dv_init s) v (dv_close s) (dv_read s) (dv_write s) (dv_control s).
Definition set_dv_close (v : option Z) (s : rt_device) : rt_device :=
  mk_device (dv_type s) (dv_flag s) (dv_open_flag s) (dv_ref_count s) (dv_rx_indicate s) (dv_tx_complete s) (dv_init s) (dv_open s) v (dv_read s) (dv_write s) (dv_control s).
Definition set_dv_read (v : option Z) (s : rt_device) : rt_device :=
  mk_device (dv_type s) (dv_flag s) (dv_open_flag s) (dv_ref_count s) (dv_rx_indicate s) (dv_tx_complete s) (dv_init s) (dv_open s) (dv_close s) v (dv_write s) (dv_control s).
Definition set_dv_write (v : option Z) (s : rt_device) : rt_device :=
  mk_device (dv_type s) (dv_flag s) (dv_open_flag s) (dv_ref_count s) (dv_rx_indicate s) (dv_tx_complete s) (dv_init s) (dv_open s) (dv_close s) (dv_read s) v (dv_control s).
Definition set_dv_control (v : option Z) (s : rt_device) : rt_device :=
  mk_device (dv_type s) (dv_flag s) (dv_open_flag s) (dv_ref_count s) (dv_rx_indicate s) (dv_tx_complete s) (dv_init s) (dv_open s) (dv_close s) (dv_read s) (dv_write s) v.

Definition RT_ENOSYS : Z := 6.
Definition RT_EBUSY : Z := 7.
Definition RT_DEVICE_FLAG_STANDALONE : Z := 8.
Definition RT_DEVICE_FLAG_ACTIVATED : Z := 16.
Definition RT_DEVICE_OFLAG_CLOSE : Z := 0.
Definition RT_DEVICE_OFLAG_OPEN : Z := 8.

(** What the drivers work on. *)
Class DriverIO := driver_io : Type.
Section dstate.
Context {kh : KHeap} {dio : DriverIO}.
Record dstate : Type := mk_dstate {
  d_core : kcore;
  d_errno : Z;                 (* _errno of kservice.c *)
  d_devs : Z -> rt_device;
  d_io : driver_io
}.
Definition set_d_core (v : kcore) (s : dstate) : dstate := mk_dstate v (d_errno s) (d_devs s) (d_io s).
Definition set_d_errno (v : Z) (s : dstate) : dstate := mk_dstate (d_core s) v (d_devs s) (d_io s).
Definition set_d_devs (v : Z -> rt_device) (s : dstate) : dstate := mk_dstate (d_core s) (d_errno s) v (d_io s).
Definition set_d_io (v : driver_io) (s : dstate) : dstate := mk_dstate (d_core s) (d_errno s) (d_devs s) v.
(** A call through a function pointer with its device and arguments, and the message
    of a failed initialisation. *)
Class Drivers := {
  drv_call : Z -> Z -> list Z -> M dstate Z;
  print_init_error : Z -> Z -> M dstate unit
}.
End dstate.

Section device.
Context {cfg : Config} {kh : KHeap} {dio : DriverIO} {drv : Drivers}.

Definition on_core {A} (m : M kcore A) : M dstate A := fun s =>
  match m (d_core s) with Some (a, c) => Some (a, set_d_core c s) | None => None end.
Definition device (d : Z) : M dstate rt_device := gets (fun s => d_devs s d).
Definition mod_device (d : Z) (f : rt_device -> rt_device) : M dstate unit :=
  modify (fun s => set_d_devs (<[d := f (d_devs s d)]> (d_devs s)) s).

(** ** errno (src/kservice.c) *)
Definition rt_get_errno : M dstate Z :=
  nest ← gets (fun s => k_interrupt_nest (d_core s));
  if negb (nest =? 0) then gets d_errno
  else
    tid ← gets (fun s => rt_thread_self (d_core s));
    match tid with
    | None => gets d_errno
    | Some t => gets (fun s => th_error (k_threads (d_core s) t))
    end.
Definition rt_set_errno (error : Z) : M dstate unit :=
  nest ← gets (fun s => k_interrupt_nest (d_core s));
  if negb (nest =? 0) then modify (set_d_errno error)
  else
    tid ← gets (fun s => rt_thread_self (d_core s));
    match tid with
    | None => modify (set_d_errno error)
    | Some t => on_core (mod_thread t (set_th_error error))
    end.

(** ** Registration *)
(** [if (rt_thread_self() != RT_NULL) rt_enter_critical();], and back. *)
Definition device_find_enter : M kcore unit :=
  self ← gets rt_thread_self;
  if bool_decide (self <> None) then rt_enter_critical else mret tt.
Definition device_find_exit : M kcore unit :=
  self ← gets rt_thread_self;
  if bool_decide (self <> None) then rt_exit_critical else mret tt.
Definition rt_device_find (name : list Z) : M kcore (option oid) :=
  device_find_enter ;;
  node ← gets (fun c => l_next (k_links c) (LObjHead RT_Object_Class_Device));
  r ← object_search loop_fuel (LObjHead RT_Object_Class_Device) node name;
  device_find_exit ;;
  mret r.
Definition rt_device_register (dev : option Z) (name : list Z) (flags : Z) : M dstate Z :=
  match dev with
  | None => mret (- RT_ERROR)
  | Some d =>
    found ← on_core (rt_device_find name);
    match found with
    | Some _ => mret (- RT_ERROR)
    | None =>
      on_core (rt_object_init (ODevice d) RT_Object_Class_Device name) ;;
      mod_device d (set_dv_flag flags) ;;
      mod_device d (set_dv_ref_count 0) ;;
      mret RT_EOK
    end
  end.
Definition rt_device_unregister (d : Z) : M dstate Z :=
  on_core (rt_object_detach (ODevice d)) ;;
  mret RT_EOK.

(** ** Initialisation *)
(** The call of [dev->init], and the flag. *)
Definition device_run_init (d f : Z) : M dstate Z :=
  result ← drv_call f d [];
  (if negb (result =? RT_EOK) then print_init_error d result
   else mod_device d (fun dv => set_dv_flag (uint16 (Z.lor (dv_flag dv) RT_DEVICE_FLAG_ACTIVATED)) dv)) ;;
  mret result.
Definition activated (dv : rt_device) : bool := negb (Z.land (dv_flag dv) RT_DEVICE_FLAG_ACTIVATED =? 0).
Definition rt_device_init (d : Z) : M dstate Z :=
  dv ← device d;
  match dv_init dv with
  | Some f => if negb (activated dv) then device_run_init d f else mret RT_EOK
  | None => mret RT_EOK
  end.
(** The device of a list node. *)
Definition device_entry (n : lnode) : M dstate Z :=
  match n with LObj (ODevice d) => mret d | _ => diverge end.
Fixpoint init_all_loop (fuel : nat) (node : lnode) : M dstate unit :=
  match fuel with
  | O => diverge
  | S fuel =>
    if decide (node = LObjHead RT_Object_Class_Device) then mret tt
    else
      d ← device_entry node;
      dv ← device d;
      (match dv_init dv with
       | Some f => if negb (activated dv) then _ ← device_run_init d f; mret tt else mret tt
       | None => mret tt
       end) ;;
      node ← gets (fun s => l_next (k_links (d_core s)) node);
      init_all_loop fuel node
  end.
Definition rt_device_init_all : M dstate Z :=
  node ← gets (fun s => l_next (k_links (d_core s)) (LObjHead RT_Object_Class_Device));
  init_all_loop loop_fuel node ;;
  mret RT_EOK.

(** ** Open and close *)
Definition device_open_end (d oflag : Z) : M dstate Z :=
  dv ← device d;
  if negb (Z.land (dv_flag dv) RT_DEVICE_FLAG_STANDALONE =? 0) && negb (Z.land (dv_open_flag dv) RT_DEVICE_OFLAG_OPEN =? 0)
  then mret (- RT_EBUSY)
  else
    mod_device d (fun dv => set_dv_ref_count (uint8 (dv_ref_count dv + 1)) dv) ;;
    dv ← device d;
    rt_assert (negb (dv_ref_count dv =? 0)) ;;
    result ← (match dv_open dv with Some f => drv_call f d [oflag] | None => mret RT_EOK end);
    (if (result =? RT_EOK) || (result =? - RT_ENOSYS)
     then mod_device d (set_dv_open_flag (uint16 (Z.lor oflag RT_DEVICE_OFLAG_OPEN))) else mret tt) ;;
    mret result.
Definition device_activate (d : Z) : M dstate unit :=
  mod_device d (fun dv => set_dv_flag (uint16 (Z.lor (dv_flag dv) RT_DEVICE_FLAG_ACTIVATED)) dv).
Definition rt_device_open (d oflag : Z) : M dstate Z :=
  dv ← device d;
  if negb (activated dv) then
    match dv_init dv with
    | Some f =>
      result ← drv_call f d [];
      if negb (result =? RT_EOK) then print_init_error d result ;; mret result
      else device_activate d ;; device_open_end d oflag
    | None => device_activate d ;; device_open_end d oflag
    end
  else device_open_end d oflag.
Definition rt_device_close (d : Z) : M dstate Z :=
  dv ← device d;
  if dv_ref_count dv =? 0 then mret (- RT_ERROR)
  else
    mod_device d (fun dv => set_dv_ref_count (uint8 (dv_ref_count dv - 1)) dv) ;;
    dv ← device d;
    if negb (dv_ref_count dv =? 0) then mret RT_EOK
    else
      result ← (match dv_close dv with Some f => drv_call f d [] | None => mret RT_EOK end);
      (if (result =? RT_EOK) || (result =? - RT_ENOSYS)
       then mod_device d (set_dv_open_flag RT_DEVICE_OFLAG_CLOSE) else mret tt) ;;
      mret result.

(** ** Transfer and control *)
Definition rt_device_read (d pos buffer size : Z) : M dstate Z :=
  dv ← device d;
  if dv_ref_count dv =? 0 then rt_set_errno (- RT_ERROR) ;; mret 0
  else
    match dv_read dv with
    | Some f => drv_call f d [pos; buffer; size]
    | None => rt_set_errno (- RT_ENOSYS) ;; mret 0
    end.
Definition rt_device_write (d pos buffer size : Z) : M dstate Z :=
  dv ← device d;
  if dv_ref_count dv =? 0 then rt_set_errno (- RT_ERROR) ;; mret 0
  else
    match dv_write dv with
    | Some f => drv_call f d [pos; buffer; size]
    | None => rt_set_errno (- RT_ENOSYS) ;; mret 0
    end.
Definition rt_device_control (d cmd arg : Z) : M dstate Z :=
  dv ← device d;
  match dv_control dv with Some f => drv_call f d [cmd; arg] | None => mret RT_EOK end.
Definition rt_device_set_rx_indicate (d : Z) (rx_ind : option Z) : M dstate Z :=
  mod_device d (set_dv_rx_indicate rx_ind) ;; mret RT_EOK.
Definition rt_device_set_tx_complete (d : Z) (tx_done : option Z) : M dstate Z :=
  mod_device d (set_dv_tx_complete tx_done) ;; mret RT_EOK.
End device.

(** ** Drivers that only touch their own state *)
(** The contract the framework needs from a driver: a call returns, and changes
    neither the kernel nor the device structures. *)
Class IODrivers {kh : KHeap} {dio : DriverIO} (drv : Drivers) := {
  io_call : Z -> Z -> list Z -> driver_io -> Z * driver_io;
  io_print : Z -> Z -> driver_io -> driver_io;
  io_call_law f d args s : drv_call f d args s = Some ((io_call f d args (d_io s)).1, set_d_io (io_call f d args (d_io s)).2 s);
  io_print_law d r s : print_init_error d r s = Some (tt, set_d_io (io_print d r (d_io s)) s)
}.

Section device_spec.
Context {cfg : Config} {kh : KHeap} {dio : DriverIO} {drv : Drivers} {io : IODrivers drv}.
Implicit Types (s : dstate).

Lemma wp_device d (Q : rt_device -> dstate -> Prop) s : Q (d_devs s d) s -> wp (device d) Q s.
Proof. done. Qed.
Lemma wp_mod_device d f (Q : unit -> dstate -> Prop) s : Q tt (set_d_devs (<[d := f (d_devs s d)]> (d_devs s)) s) -> wp (mod_device d f) Q s.
Proof. done. Qed.
Lemma wp_on_core {A} (m : M kcore A) Q s : wp m (fun a c => Q a (set_d_core c s)) (d_core s) -> wp (on_core m) Q s.
Proof. unfold wp, on_core. by destruct (m (d_core s)) as [[a c]|]. Qed.
Lemma wp_drv_call f d args (Q : Z -> dstate -> Prop) s :
  Q (io_call f d args (d_io s)).1 (set_d_io (io_call f d args (d_io s)).2 s) -> wp (drv_call f d args) Q s.
Proof. unfold wp. by rewrite io_call_law. Qed.
Lemma wp_print d r (Q : unit -> dstate -> Prop) s : Q tt (set_d_io (io_print d r (d_io s)) s) -> wp (print_init_error d r) Q s.
Proof. unfold wp. by rewrite io_print_law. Qed.

(** *** errno *)
(** What rt_set_errno stored is what rt_get_errno reads, in an interrupt, before the
    scheduler runs and in a thread. *)
Lemma wp_set_errno e (Q : unit -> dstate -> Prop) s :
  (forall s', d_devs s' = d_devs s -> d_io s' = d_io s -> k_links (d_core s') = k_links (d_core s) ->
     rt_get_errno s' = Some (e, s') -> Q tt s') -> wp (rt_set_errno e) Q s.
Proof.
  intros HQ. unfold rt_set_errno. do 2 wp1. destruct (k_interrupt_nest (d_core s) =? 0) eqn:En; cbn [negb].
  - do 2 wp1. unfold rt_thread_self. destruct (k_current_thread (d_core s)) as [t|] eqn:Et.
    + apply wp_on_core. unfold mod_thread. wp1. apply HQ; try done.
      unfold rt_get_errno, rt_thread_self, mbind, M_bind, gets. cbn. rewrite En. cbn. rewrite Et. cbn. by rewrite upd_eq.
    + wp1. apply HQ; try done. unfold rt_get_errno, rt_thread_self, mbind, M_bind, gets. cbn. rewrite En. cbn. rewrite Et. done.
  - wp1. apply HQ; try done. unfold rt_get_errno, mbind, M_bind, gets. cbn. rewrite En. done.
Qed.
(** A device nobody opened is not read or written: the transfer returns 0 with the error
    -RT_ERROR in errno, and the driver is not called. *)
Theorem rt_device_closed_transfer d pos buffer size s :
  dv_ref_count (d_devs s d) = 0 ->
  forall op, op = rt_device_read \/ op = rt_device_write ->
  exists s', op d pos buffer size s = Some (0, s') /\ rt_get_errno s' = Some (- RT_ERROR, s') /\ d_io s' = d_io s /\ d_devs s' = d_devs s.
Proof.
  intros H op Hop.
  assert (wp (op d pos buffer size) (fun r s' => r = 0 /\ rt_get_errno s' = Some (- RT_ERROR, s') /\ d_io s' = d_io s /\ d_devs s' = d_devs s) s) as Hw.
  { destruct Hop as [-> | ->]; [unfold rt_device_read|unfold rt_device_write]; wp1; apply wp_device; rewrite H; cbn [Z.eqb]; wp1;
      apply wp_set_errno; intros s' E1 E2 _ E3; wp1; auto. }
  apply wp_run in Hw as (r & s' & E & -> & Hr). by exists s'.
Qed.

(** *** Open and close *)
(** A step of device [d]: the device, and the state of the drivers afterwards. *)
Record dev_step (s s' : dstate) (d : Z) (dv : rt_device) (i : driver_io) : Prop := {
  ds_core : d_core s' = d_core s;
  ds_errno : d_errno s' = d_errno s;
  ds_io : d_io s' = i;
  ds_dev : d_devs s' d = dv;
  ds_rest : forall e, e <> d -> d_devs s' e = d_devs s e
}.
Lemma dev_step_trans s s1 s2 d dv1 i1 dv2 i2 : dev_step s s1 d dv1 i1 -> dev_step s1 s2 d dv2 i2 -> dev_step s s2 d dv2 i2.
Proof. intros [A1 A2 A3 A4 A5] [B1 B2 B3 B4 B5]. split; [congruence..|done|done|]. intros e He. by rewrite B5, A5. Qed.
Ltac dev_steps := split; cbn; rewrite ?upd_eq; try done; intros; by rewrite ?upd_ne.
(** One more user: the driver's open is called with the flags. *)
Definition opened (dv : rt_device) (oflag : Z) (ok : bool) : rt_device :=
  let dv := set_dv_ref_count (dv_ref_count dv + 1) dv in
  if ok then set_dv_open_flag (uint16 (Z.lor oflag RT_DEVICE_OFLAG_OPEN)) dv else dv.
(** The last user is gone. *)
Definition closed (dv : rt_device) (ok : bool) : rt_device :=
  let dv := set_dv_ref_count 0 dv in if ok then set_dv_open_flag RT_DEVICE_OFLAG_CLOSE dv else dv.
Definition call_opt (f : option Z) (d : Z) (args : list Z) (i : driver_io) : Z * driver_io :=
  match f with Some f => io_call f d args i | None => (RT_EOK, i) end.
Definition fine (r : Z) : bool := (r =? RT_EOK) || (r =? - RT_ENOSYS).
Definition exclusive (dv : rt_device) : bool :=
  negb (Z.land (dv_flag dv) RT_DEVICE_FLAG_STANDALONE =? 0) && negb (Z.land (dv_open_flag dv) RT_DEVICE_OFLAG_OPEN =? 0).
Lemma wp_call_opt f d args (Q : Z -> dstate -> Prop) s :
  Q (call_opt f d args (d_io s)).1 (set_d_io (call_opt f d args (d_io s)).2 s) ->
  wp (match f with Some f => drv_call f d args | None => mret RT_EOK end) Q s.
Proof. intros HQ. destruct f; [by apply wp_drv_call|]. wp1. destruct s. exact HQ. Qed.
Lemma wp_device_open_end d oflag (Q : Z -> dstate -> Prop) s :
  let dv := d_devs s d in let ri := call_opt (dv_open dv) d [oflag] (d_io s) in
  exclusive dv = false -> 0 <= dv_ref_count dv < 255 ->
  (forall s', dev_step s s' d (opened dv oflag (fine ri.1)) ri.2 -> Q ri.1 s') -> wp (device_open_end d oflag) Q s.
Proof.
  intros dv ri Hx Hr HQ. unfold device_open_end. wp1. apply wp_device. fold dv. unfold exclusive in Hx. rewrite Hx.
  wp1. apply wp_mod_device. fold dv. rewrite (uint_small 8) by lia. wp1. apply wp_device. cbn [d_devs set_d_devs]. rewrite upd_eq. fold dv.
  wp1. wp1; [destruct (Z.eqb_spec (dv_ref_count (set_dv_ref_count (dv_ref_count dv + 1) dv)) 0) as [E|]; [cbn in E; lia|done]|].
  wp1. apply wp_call_opt. change (dv_open (set_dv_ref_count (dv_ref_count dv + 1) dv)) with (dv_open dv). cbn [d_io set_d_devs]. fold ri.
  wp1. fold (fine ri.1). destruct (fine ri.1) eqn:Ef.
  - apply wp_mod_device. wp1. apply HQ. dev_steps.
  - do 2 wp1. apply HQ. dev_steps.
Qed.
Lemma wp_device_close d (Q : Z -> dstate -> Prop) s :
  let dv := d_devs s d in 0 < dv_ref_count dv < 256 ->
  (forall s', 1 < dv_ref_count dv -> dev_step s s' d (set_dv_ref_count (dv_ref_count dv - 1) dv) (d_io s) -> Q RT_EOK s') ->
  (forall s', dv_ref_count dv = 1 -> let ri := call_opt (dv_close dv) d [] (d_io s) in
     dev_step s s' d (closed dv (fine ri.1)) ri.2 -> Q ri.1 s') ->
  wp (rt_device_close d) Q s.
Proof.
  intros dv Hr H1 H2. unfold rt_device_close. wp1. apply wp_device. fold dv. destruct (Z.eqb_spec (dv_ref_count dv) 0); [lia|].
  wp1. apply wp_mod_device. fold dv. rewrite uint_small by lia. wp1. apply wp_device. cbn [d_devs set_d_devs]. rewrite upd_eq.
  cbn [dv_ref_count set_dv_ref_count]. destruct (Z.eqb_spec (dv_ref_count dv - 1) 0) as [E|E]; cbn [negb]; [|wp1; apply H1; [lia|dev_steps]].
  replace (dv_ref_count dv - 1) with 0 by lia. wp1. apply wp_call_opt.
  change (dv_close (set_dv_ref_count 0 dv)) with (dv_close dv). cbn [d_io set_d_devs]. set (ri := call_opt _ _ _ _) in *.
  wp1. fold (fine ri.1). destruct (fine ri.1) eqn:Ef.
  - apply wp_mod_device. wp1. apply H2; [lia|]. fold ri. rewrite Ef. dev_steps.
  - do 2 wp1. apply H2; [lia|]. fold ri. rewrite Ef. dev_steps.
Qed.
(** Calls of users, and the device they see: a count of users, the driver's open at
    every open, and its close when the last user closes. *)
Inductive device_op := Open (oflag : Z) | Close.
Definition run_op (d : Z) (op : device_op) : M dstate Z :=
  match op with Open oflag => rt_device_open d oflag | Close => rt_device_close d end.
Fixpoint run_ops (d : Z) (ops : list device_op) : M dstate unit :=
  match ops with [] => mret tt | op :: ops => _ ← run_op d op; run_ops d ops end.
Definition users_step (dv : rt_device) (d : Z) (ui : Z * driver_io) (op : device_op) : Z * driver_io :=
  let '(users, i) := ui in
  match op with
  | Open oflag => (users + 1, (call_opt (dv_open dv) d [oflag] i).2)
  | Close => if users =? 0 then (0, i) else if users =? 1 then (0, (call_opt (dv_close dv) d [] i).2) else (users - 1, i)
  end.
(** What the calls leave alone. *)
Definition same_driver (dv dv' : rt_device) : Prop :=
  dv_flag dv' = dv_flag dv /\ dv_open dv' = dv_open dv /\ dv_close dv' = dv_close dv.
Lemma same_driver_opened dv oflag ok : same_driver dv (opened dv oflag ok).
Proof. by destruct ok. Qed.
Lemma same_driver_closed dv ok : same_driver dv (closed dv ok).
Proof. by destruct ok. Qed.
Definition shared (dv : rt_device) : Prop := activated dv = true /\ Z.land (dv_flag dv) RT_DEVICE_FLAG_STANDALONE = 0.
Lemma wp_run_op d op (Q : Z -> dstate -> Prop) s :
  let dv := d_devs s d in let '(users, i) := users_step dv d (dv_ref_count dv, d_io s) op in
  shared dv -> 0 <= dv_ref_count dv < 255 ->
  (forall r s' dv', dev_step s s' d dv' i -> same_driver dv dv' -> dv_ref_count dv' = users -> Q r s') -> wp (run_op d op) Q s.
Proof.
  intros dv. destruct op as [oflag|]; cbn [users_step run_op].
  - intros [Ha Hst] Hr HQ. unfold rt_device_open. wp1. apply wp_device. fold dv. rewrite Ha. cbn [negb]. apply wp_device_open_end.
    + fold dv. unfold exclusive. by rewrite Hst.
    + exact Hr.
    + intros s' H. fold dv in H. apply (HQ _ s' _ H); [apply same_driver_opened|by destruct (fine _)].
  - destruct (Z.eqb_spec (dv_ref_count dv) 0) as [E|E]; [|destruct (Z.eqb_spec (dv_ref_count dv) 1) as [E1|E1]]; intros _ Hr HQ.
    + unfold rt_device_close. wp1. apply wp_device. fold dv. rewrite E. cbn [Z.eqb]. wp1. by apply (HQ _ s dv).
    + apply wp_device_close; fold dv; [lia|intros; lia|]. intros s' _ ri H. apply (HQ _ s' _ H); [apply same_driver_closed|by destruct (fine _)].
    + apply wp_device_close; fold dv; [lia| |intros; lia]. intros s' _ H. by apply (HQ _ s' _ H).
Qed.
(** A standalone device has one user: a second open is refused, and nothing happens. *)
Theorem rt_device_standalone_busy d oflag s :
  activated (d_devs s d) = true -> exclusive (d_devs s d) = true -> rt_device_open d oflag s = Some (- RT_EBUSY, s).
Proof.
  intros Ha Hx. unfold rt_device_open, device_open_end, device, mbind, M_bind, gets. rewrite Ha. cbn [negb]. unfold exclusive in Hx. by rewrite Hx.
Qed.
(** When the driver's open fails, rt_device_open reports the failure but the device
    stays counted as open: a later rt_device_read calls the driver. *)
Theorem rt_device_open_failure_counts d oflag s :
  let dv := d_devs s d in let ri := call_opt (dv_open dv) d [oflag] (d_io s) in
  activated dv = true -> exclusive dv = false -> 0 <= dv_ref_count dv < 255 -> fine ri.1 = false ->
  exists s', rt_device_open d oflag s = Some (ri.1, s') /\ dv_ref_count (d_devs s' d) = dv_ref_count dv + 1 /\
    dv_open_flag (d_devs s' d) = dv_open_flag dv /\
    forall f pos buffer size, dv_read dv = Some f ->
      rt_device_read d pos buffer size s' = drv_call f d [pos; buffer; size] s'.
Proof.
  intros dv ri Ha Hx Hr Hf. assert (wp (rt_device_open d oflag) (fun r s' => r = ri.1 /\ dev_step s s' d (opened dv oflag false) ri.2) s) as Hw.
  { unfold rt_device_open. wp1. apply wp_device. fold dv. rewrite Ha. cbn [negb]. apply wp_device_open_end; [done..|].
    fold dv. fold ri. rewrite Hf. intros s' H. auto. }
  apply wp_run in Hw as (r & s' & E & -> & [_ _ _ H _]). exists s'. rewrite H. split_and!; [done|done|done|].
  intros f pos buffer size Hread. unfold rt_device_read, device, mbind, M_bind, gets. rewrite H. cbn. destruct (Z.eqb_spec (dv_ref_count dv + 1) 0); [lia|].
  by rewrite Hread.
Qed.

(** *** Registration *)
Implicit Types (L : lnode -> option (list lnode)).
Lemma wp_device_find R c L name os (Q : option oid -> kcore -> Prop) :
  ready_inv R c L -> (exists t, R t) -> L (LObjHead RT_Object_Class_Device) = Some (LObj <$> os) -> (length os < loop_fuel)%nat ->
  0 <= k_lock_nest c < 32767 ->
  (forall c', ready_inv R c' L -> k_objs c' = k_objs c -> k_lock_nest c' = k_lock_nest c -> Q (find (name_matches c name) os) c') ->
  wp (rt_device_find name) Q c.
Proof.
  intros Hi He HL Hf Hl HQ. unfold rt_device_find, device_find_enter, device_find_exit. do 3 wp1.
  destruct (decide (rt_thread_self c <> None)) as [Et|Et].
  - rewrite bool_decide_true by exact Et. unfold rt_enter_critical. wp_steps.
    destruct (int16_succ_pred _ Hl) as [N1 N2]. rewrite N1 in *. set (c1 := set_k_lock_nest (k_lock_nest c + 1) c).
    rewrite (rep_next_head _ _ _ _ (ri_rep _ _ _ Hi) HL). apply (object_search_spec c1 L _ name os _ (ri_rep _ _ _ Hi) []); [exact HL|done|].
    change (name_matches c1 name) with (name_matches c name). wp_steps. rewrite bool_decide_true by exact Et. unfold rt_exit_critical. wp_steps. subst c1. ksimpl. rewrite N2.
    destruct (Z.leb_spec (k_lock_nest c) 0) as [E|E]; wp_steps.
    + assert (k_lock_nest c = 0) as E0 by lia. eapply (wp_schedule R _ L); [|done|done|].
      * eapply ready_inv_frame; [exact Hi|done|exact (ri_rep _ _ _ Hi)|done..].
      * intros u _ _. wp_steps. apply HQ; case_decide; try done; try (by rewrite E0);
          (eapply ready_inv_frame; [exact Hi|done|exact (ri_rep _ _ _ Hi)|done..]).
    + apply HQ; [|done|done]. eapply ready_inv_frame; [exact Hi|done|exact (ri_rep _ _ _ Hi)|done..].
  - rewrite bool_decide_false by exact Et. wp_steps. rewrite (rep_next_head _ _ _ _ (ri_rep _ _ _ Hi) HL).
    apply (object_search_spec c L _ name os _ (ri_rep _ _ _ Hi) []); [exact HL|done|].
    wp_steps. rewrite bool_decide_false by exact Et. wp_steps. by apply HQ.
Qed.
(** Registering a device: a name that is taken is refused with the registry as it was;
    a new name is registered with the device's flags and no users, and found again. *)
Theorem rt_device_register_find R s L d name flags os :
  ready_inv R (d_core s) L -> (exists t, R t) -> L (LObjHead RT_Object_Class_Device) = Some (LObj <$> os) ->
  (S (length os) < loop_fuel)%nat -> 0 <= k_lock_nest (d_core s) < 32767 -> free_node L (LObj (ODevice d)) -> is_bytes name ->
  exists r s', rt_device_register (Some d) name flags s = Some (r, s') /\
    match find (name_matches (d_core s) name) os with
    | Some _ => r = - RT_ERROR /\ ready_inv R (d_core s') L /\ k_objs (d_core s') = k_objs (d_core s) /\ d_devs s' = d_devs s
    | None => r = RT_EOK /\ dv_flag (d_devs s' d) = flags /\ dv_ref_count (d_devs s' d) = 0 /\ d_io s' = d_io s /\
        exists s'', on_core (rt_device_find name) s' = Some (Some (ODevice d), s'')
    end.
Proof.
  intros Hi He HL Hf Hl Hfree Hb. match goal with |- exists r s', _ /\ @?P r s' => assert (wp (rt_device_register (Some d) name flags) P s) as Hw end.
  { cbn beta. unfold rt_device_register. wp1. apply wp_on_core. eapply wp_device_find; [exact Hi|done|exact HL|lia|done|].
    intros c1 Hi1 Eo En. destruct (find (name_matches (d_core s) name) os) as [o|] eqn:Efind; [by wp1|].
    wp1. apply wp_on_core. eapply wp_object_init; [exact Hi1|exact HL|exact Hfree|]. intros lk L' ob c' Hi2.
    wp1. apply wp_mod_device. wp1. apply wp_mod_device. wp1. split; [done|]. cbn [d_devs set_d_devs]. rewrite !upd_eq.
    split; [done|]. split; [done|]. split; [done|].
    assert (L' (LObjHead RT_Object_Class_Device) = Some (LObj <$> (ODevice d :: os))) as HL' by (unfold L'; by rewrite upd_eq).
    assert (forall s2, d_core s2 = c' -> wp (on_core (rt_device_find name)) (fun r _ => r = Some (ODevice d)) s2) as Hfind.
    { intros s2 E2. apply wp_on_core. rewrite E2. eapply wp_device_find; [exact Hi2|done|exact HL'|done|change (0 <= k_lock_nest c1 < 32767); by rewrite En|].
      intros c2 _ _ _. cbn [find]. unfold name_matches, c', ob; ksimpl. rewrite upd_eq. cbn [ob_name set_ob_name].
      assert (rt_strncmp (rt_strncpy name RT_NAME_MAX) name RT_NAME_MAX = 0) as ->; [|done].
      apply rt_strncmp_zero; [by apply rt_strncpy_bytes|done|apply rt_strncpy_idem]. }
    match goal with |- exists s'', _ ?s2 = _ => destruct (proj1 (wp_run _ _ _) (Hfind s2 eq_refl)) as (r & s'' & E & ->) end. by exists s''. }
  apply wp_run in Hw as (r & s' & E & Hr). by exists r, s'.
Qed.

(** *** Initialising all devices *)
(** The device [d] in turn: its init function, if it has one and is not activated. *)
Definition init_one (ds : (Z -> rt_device) * driver_io) (d : Z) : (Z -> rt_device) * driver_io :=
  let '(devs, i) := ds in
  match dv_init (devs d) with
  | Some f =>
    if activated (devs d) then (devs, i)
    else
      let '(r, i) := io_call f d [] i in
      if r =? RT_EOK then (<[d := set_dv_flag (uint16 (Z.lor (dv_flag (devs d)) RT_DEVICE_FLAG_ACTIVATED)) (devs d)]> devs, i)
      else (devs, io_print d r i)
  | None => (devs, i)
  end.
Lemma wp_init_all_loop L ds2 (Q : unit -> dstate -> Prop) : forall ds1 fuel s,
  rep (k_links (d_core s)) L -> L (LObjHead RT_Object_Class_Device) = Some ((fun d => LObj (ODevice d)) <$> (ds1 ++ ds2)) ->
  (length ds2 < fuel)%nat ->
  (forall s', d_core s' = d_core s -> d_errno s' = d_errno s -> (d_devs s', d_io s') = foldl init_one (d_devs s, d_io s) ds2 -> Q tt s') ->
  wp (init_all_loop fuel (hd (LObjHead RT_Object_Class_Device) ((fun d => LObj (ODevice d)) <$> ds2))) Q s.
Proof.
  induction ds2 as [|d ds2 IH]; intros ds1 fuel s Hrep HL Hf HQ; (destruct fuel as [|fuel]; cbn in Hf; [lia|]); cbn [init_all_loop].
  - cbn [hd fmap list_fmap]. rewrite decide_True by done. wp1. by apply HQ.
  - cbn [hd fmap list_fmap]. rewrite decide_False by done. cbn [device_entry]. do 2 wp1. wp1. apply wp_device. wp1.
    assert (forall s1, d_core s1 = d_core s -> d_errno s1 = d_errno s -> (d_devs s1, d_io s1) = init_one (d_devs s, d_io s) d ->
      wp (node ← gets (fun s => l_next (k_links (d_core s)) (LObj (ODevice d))); init_all_loop fuel node) Q s1) as Hnext.
    { intros s1 E1 E2 E3. do 2 wp1. rewrite E1.
      assert (L (LObjHead RT_Object_Class_Device) = Some (((fun d => LObj (ODevice d)) <$> ds1) ++ LObj (ODevice d) :: ((fun d => LObj (ODevice d)) <$> ds2))) as HL'.
      { by rewrite HL, fmap_app, fmap_cons. }
      rewrite (rep_next_mid _ _ _ _ _ _ Hrep HL'). rewrite <- E1 in Hrep. apply (IH (ds1 ++ [d])); [done|by rewrite <- app_assoc|lia|].
      intros s' F1 F2 F3. apply HQ; [congruence|congruence|]. cbn [foldl]. rewrite F3, E3. done. }
    destruct (dv_init (d_devs s d)) as [f|] eqn:Ef; [|wp1; apply Hnext; [done|done|unfold init_one; by rewrite Ef]].
    destruct (activated (d_devs s d)) eqn:Ea; cbn [negb]; [wp1; apply Hnext; [done|done|unfold init_one; by rewrite Ef, Ea]|].
    wp1. unfold device_run_init. wp1. apply wp_drv_call. destruct (io_call f d [] (d_io s)) as [r i] eqn:Er. cbn [fst snd]. wp1.
    destruct (r =? RT_EOK) eqn:E; cbn [negb].
    + apply wp_mod_device. do 2 wp1. apply Hnext; [done|done|]. cbn. by rewrite Ef, Ea, Er, E.
    + apply wp_print. do 2 wp1. apply Hnext; [done|done|]. cbn. by rewrite Ef, Ea, Er, E.
Qed.
(** rt_device_init_all ends, and visits the devices once in the order of the list: each
    one not activated has its init function called, and is activated exactly when it
    succeeds; the kernel is as before. *)
Theorem rt_device_init_all_visits s L ds :
  rep (k_links (d_core s)) L -> L (LObjHead RT_Object_Class_Device) = Some ((fun d => LObj (ODevice d)) <$> ds) ->
  (length ds < loop_fuel)%nat ->
  exists s', rt_device_init_all s = Some (RT_EOK, s') /\ d_core s' = d_core s /\
    (d_devs s', d_io s') = foldl init_one (d_devs s, d_io s) ds.
Proof.
  intros Hrep HL Hf. assert (wp rt_device_init_all (fun r s' => r = RT_EOK /\ d_core s' = d_core s /\
    (d_devs s', d_io s') = foldl init_one (d_devs s, d_io s) ds) s) as Hw.
  { unfold rt_device_init_all. do 2 wp1. wp1. rewrite (rep_next_head _ _ _ _ Hrep HL). apply (wp_init_all_loop L ds _ []); [done|done|done|].
    intros s' E1 E2 E3. by wp1. }
  apply wp_run in Hw as (r & s' & E & -> & Hr). by exists s'.
Qed.
End device_spec.
