(* ===== verification/DriverIpc.v ===== *)
(** The blocking parts shared by the driver structures of components/drivers/src
    (completions, data queues): a thread waits on a list of its own, first come first
    served, and is woken by the other side. *)
From S2P Require Import Prelude RtList Kservice Kernel Scheduler Object TimerCore Invariant Thread Timer Ipc.

(** struct rt_completion and struct rt_data_queue; their lists are the nodes [LWait]. *)
Record rt_completion : Type := mk_completion { cp_flag : Z }.
Record rt_data_queue : Type := mk_data_queue {
  dq_size : Z;
  dq_lwm : Z;
  dq_waiting_lwm : bool;
  dq_get_index : Z;
  dq_put_index : Z;
  dq_queue : option Z;
  dq_items : Z -> Z * Z;        (* data_ptr and data_size of the items *)
  dq_evt_notify : option Z
}.
Definition set_dq_size (v : Z) (s : rt_data_queue) : rt_data_queue :=
  mk_data_queue v (dq_lwm s) (dq_waiting_lwm s) (dq_get_index s) (dq_put_index s) (dq_queue s) (dq_items s) (dq_evt_notify s).
Definition set_dq_lwm (v : Z) (s : rt_data_queue) : rt_data_queue :=
  mk_data_queue (dq_size s) v (dq_waiting_lwm s) (dq_get_index s) (dq_put_index s) (dq_queue s) (dq_items s) (dq_evt_notify s).
Definition set_dq_waiting_lwm (v : bool) (s : rt_data_queue) : rt_data_queue :=
  mk_data_queue (dq_size s) (dq_lwm s) v (dq_get_index s) (dq_put_index s) (dq_queue s) (dq_items s) (dq_evt_notify s).
Definition set_dq_get_index (v : Z) (s : rt_data_queue) : rt_data_queue :=
  mk_data_queue (dq_size s) (dq_lwm s) (dq_waiting_lwm s) v (dq_put_index s) (dq_queue s) (dq_items s) (dq_evt_notify s).
Definition set_dq_put_index (v : Z) (s : rt_data_queue) : rt_data_queue :=
  mk_data_queue (dq_size s) (dq_lwm s) (dq_waiting_lwm s) (dq_get_index s) v (dq_queue s) (dq_items s) (dq_evt_notify s).
Definition set_dq_queue (v : option Z) (s : rt_data_queue) : rt_data_queue :=
  mk_data_queue (dq_size s) (dq_lwm s) (dq_waiting_lwm s) (dq_get_index s) (dq_put_index s) v (dq_items s) (dq_evt_notify s).
Definition set_dq_items (v : Z -> Z * Z) (s : rt_data_queue) : rt_data_queue :=
  mk_data_queue (dq_size s) (dq_lwm s) (dq_waiting_lwm s) (dq_get_index s) (dq_put_index s) (dq_queue s) v (dq_evt_notify s).
Definition set_dq_evt_notify (v : option Z) (s : rt_data_queue) : rt_data_queue :=
  mk_data_queue (dq_size s) (dq_lwm s) (dq_waiting_lwm s) (dq_get_index s) (dq_put_index s) (dq_queue s) (dq_items s) v.

Section dipc.
Context {kh : KHeap}.
(** The kernel with the completions and the data queues, the events reported to the
    applications so far (function, queue, event), and the interrupt mask. *)
Record dipc : Type := mk_dipc {
  di_core : kcore;
  di_comps : Z -> rt_completion;
  di_queues : Z -> rt_data_queue;
  di_events : list (Z * Z * Z);
  di_masked : bool              (* interrupts disabled *)
}.
Definition set_di_core (v : kcore) (s : dipc) : dipc := mk_dipc v (di_comps s) (di_queues s) (di_events s) (di_masked s).
Definition set_di_comps (v : Z -> rt_completion) (s : dipc) : dipc := mk_dipc (di_core s) v (di_queues s) (di_events s) (di_masked s).
Definition set_di_queues (v : Z -> rt_data_queue) (s : dipc) : dipc := mk_dipc (di_core s) (di_comps s) v (di_events s) (di_masked s).
Definition set_di_events (v : list (Z * Z * Z)) (s : dipc) : dipc := mk_dipc (di_core s) (di_comps s) (di_queues s) v (di_masked s).
Definition set_di_masked (v : bool) (s : dipc) : dipc := mk_dipc (di_core s) (di_comps s) (di_queues s) (di_events s) v.
(** rt_hw_interrupt_disable and rt_hw_interrupt_enable: the level saved is the mask. *)
Definition rt_hw_interrupt_disable : M dipc bool := level ← gets di_masked; modify (set_di_masked true) ;; mret level.
Definition rt_hw_interrupt_enable (level : bool) : M dipc unit := modify (set_di_masked level).
Definition core {A} (m : M kcore A) : M dipc A := fun s =>
  match m (di_core s) with Some (a, c) => Some (a, set_di_core c s) | None => None end.
Lemma wp_core {A} (m : M kcore A) Q s : wp m (fun a c => Q a (set_di_core c s)) (di_core s) -> wp (core m) Q s.
Proof. unfold wp, core. by destruct (m (di_core s)) as [[a c]|]. Qed.
Lemma wp_irq_disable (Q : bool -> dipc -> Prop) s : Q (di_masked s) (set_di_masked true s) -> wp rt_hw_interrupt_disable Q s.
Proof. done. Qed.
Lemma wp_irq_enable level (Q : unit -> dipc -> Prop) s : Q tt (set_di_masked level s) -> wp (rt_hw_interrupt_enable level) Q s.
Proof. done. Qed.
(** Enabling interrupts in the middle only sets the mask. *)
Lemma wp_core_enable {A} (m1 m2 : M kcore unit) level (f : unit -> M dipc A) Q s :
  wp (m1 ;; m2) (fun _ c => wp (f tt) Q (set_di_masked level (set_di_core c s))) (di_core s) ->
  wp (core m1 ;; rt_hw_interrupt_enable level ;; x ← core m2; f x) Q s.
Proof.
  unfold wp, core, rt_hw_interrupt_enable, modify, mbind, M_bind. destruct (m1 (di_core s)) as [[[] c]|]; [|done]. cbn.
  by destruct (m2 c) as [[[] c']|].
Qed.
End dipc.

Section driver_ipc.
Context {cfg : Config} {kh : KHeap} {sz : ObjectSizes} {st : StaticThreads}.
Implicit Types (L : lnode -> option (list lnode)) (c : kcore).

(** [rt_thread_suspend(thread); rt_list_insert_before(list, &thread->tlist);] *)
Definition suspend_on (h : lnode) (t : Z) : M kcore unit :=
  _ ← rt_thread_suspend t;
  mod_links (fun l => rt_list_insert_before l h (LTlist t)).
(** [if (!rt_list_isempty(list)) rt_thread_resume(the first thread)]; the result says
    whether there was one. *)
Definition resume_first (h : lnode) : M kcore bool :=
  empty ← gets (fun c => rt_list_isempty (k_links c) h);
  if negb empty then
    n ← gets (fun c => l_next (k_links c) h);
    t ← rt_thread_entry n;
    _ ← rt_thread_resume t;
    mret true
  else mret false.
(** The same, then rt_schedule. *)
Definition wake_first (h : lnode) : M kcore unit :=
  woken ← resume_first h;
  if (woken : bool) then rt_schedule else mret tt.

(** It is the waiting of rt_ipc_list_suspend on a FIFO list. *)
Lemma wp_suspend_on c L h t ws (Q : unit -> kcore -> Prop) :
  kinv c L -> thread_stat c t = RT_THREAD_READY -> wait_head h -> L h = Some (LTlist <$> ws) -> (length ws < loop_fuel)%nat ->
  (forall lk g tb, let c' := with_sched c lk (with_stat RT_THREAD_SUSPEND t c) g tb in
     let L' := ins (unlink L (LTlist t)) (LTlist t) h (LTlist <$> (ws ++ [t])) in kinv c' L' -> Q tt c') ->
  wp (suspend_on h t) Q c.
Proof.
  intros H Ht Hh HL Hlen HQ. assert (wp (rt_ipc_list_suspend h t RT_IPC_FLAG_FIFO) (fun _ c' => Q tt c') c) as Hw.
  { eapply wp_ipc_list_suspend; [exact H|done|done|exact HL|by left|done|]. intros lk g tb c' L'. exact (HQ lk g tb). }
  unfold suspend_on. unfold rt_ipc_list_suspend in Hw. revert Hw. unfold wp, mbind, M_bind. destruct (rt_thread_suspend t c) as [[a c1]|]; done.
Qed.
(** The first thread is ready again, and off the list. *)
Record resumed (c c' : kcore) L L' (h : lnode) (w : Z) (ws' : list Z) : Prop := {
  rs_inv : kinv c' L';
  rs_list : L' h = Some (LTlist <$> ws');
  rs_lists : forall g us, wait_head g -> g <> h -> L g = Some us -> L' g = Some us;
  rs_thread : k_threads c' w = set_th_stat RT_THREAD_READY (k_threads c w);
  rs_others : forall u, u <> w -> k_threads c' u = k_threads c u;
  rs_lock : k_lock_nest c' = k_lock_nest c /\ k_interrupt_nest c' = k_interrupt_nest c
}.
Lemma resumed_rescheduled c c1 c2 L L' h w ws' : resumed c c1 L L' h w ws' -> rescheduled c1 c2 -> kinv c2 L' -> resumed c c2 L L' h w ws'.
Proof. intros [H1 H2 H3 H4 H5 H6] (cur & prio & sw & ->) Hk. by split. Qed.
Lemma wp_resume_first c L h ws (Q : bool -> kcore -> Prop) :
  kinv c L -> wait_head h -> L h = Some (LTlist <$> ws) -> (ws = [] -> Q false c) ->
  (forall w ws' c' L', ws = w :: ws' -> resumed c c' L L' h w ws' -> Q true c') -> wp (resume_first h) Q c.
Proof.
  intros H Hh HL H1 H2. unfold resume_first. do 2 wp1. rewrite (rep_isempty _ _ _ _ (kinv_rep _ _ H) HL). destruct ws as [|w ws'].
  - rewrite bool_decide_true by done. cbn [negb]. wp1. by apply H1.
  - rewrite bool_decide_false by done. cbn [negb].
    assert (wp (rt_ipc_list_resume h) (fun _ c' => Q true c') c) as Hw.
    { eapply wp_ipc_list_resume; [exact H|done|exact HL|]. intros ts lk g tb c1 L' Hk HL' Hs. apply (H2 w ws' c1 L' eq_refl). split; [done|done|..].
      - intros g' us Hg Hne Hus. destruct (typed_threads _ _ _ (lo_typed _ _ _ (ki_lists _ _ H)) Hg Hus) as [us' ->].
        assert (w ∉ us') as Hnin.
        { intros Hin'. apply Hne. eapply (rep_unique _ _ _ _ _ _ (LTlist w) (kinv_rep _ _ H) Hus HL); [by apply elem_of_LTlist|by left]. }
        unfold L'. by rewrite (resume_lists_other c L w ts g' us' (lo_typed _ _ _ (ki_lists _ _ H)) (kinv_rep _ _ H) Hus Hnin Hg).
      - unfold c1; cbn. unfold with_stat. by rewrite upd_eq.
      - intros u Hu. unfold c1; cbn. unfold with_stat. by rewrite upd_ne.
      - unfold c1; cbn. unfold stopped_core. by case_match. }
    revert Hw. unfold rt_ipc_list_resume, wp, mbind, M_bind, gets. destruct (rt_thread_entry _ c) as [[t c1]|]; [|done].
    by destruct (rt_thread_resume t c1) as [[a c2]|].
Qed.
Lemma resumed_ready c c' L L' h w ws' : resumed c c' L L' h w ws' -> thread_stat c' w = RT_THREAD_READY.
Proof. intros H. unfold thread_stat. by rewrite (rs_thread _ _ _ _ _ _ _ H). Qed.
Lemma wp_wake_first_thread c L h ws (Q : unit -> kcore -> Prop) :
  kinv c L -> wait_head h -> L h = Some (LTlist <$> ws) -> (ws = [] -> Q tt c) ->
  (forall w ws' c' L', ws = w :: ws' -> resumed c c' L L' h w ws' -> Q tt c') -> wp (wake_first h) Q c.
Proof.
  intros H Hh HL H1 H2. unfold wake_first. wp1. eapply wp_resume_first; [exact H|done|exact HL|..].
  - intros E. wp1. auto.
  - intros w ws' c1 L' E Hr. eapply wp_schedule_kinv; [apply Hr|intros _; exists w; by eapply resumed_ready|].
    intros c2 Hsch Hk _ _. eapply H2; [done|]. by eapply resumed_rescheduled.
Qed.
End driver_ipc.
