(* ===== verification/Completion.v ===== *)
(** Completions (components/drivers/src/completion.c): one thread waits until another
    one, or an interrupt, reports that something is done. *)
From S2P Require Import Prelude RtList Kservice Kernel Scheduler Object TimerCore Invariant Thread Timer Ipc DriverIpc.

Section completion.
Context {cfg : Config} {kh : KHeap} {sz : ObjectSizes} {st : StaticThreads}.
Implicit Types (L : lnode -> option (list lnode)) (s : dipc).

Definition RT_COMPLETED : Z := 1.
Definition RT_UNCOMPLETED : Z := 0.
Definition mod_comp (a : Z) (v : Z) : M dipc unit :=
  modify (fun s => set_di_comps (<[a := mk_completion v]> (di_comps s)) s).
Definition rt_completion_init (a : Z) : M dipc unit :=
  level ← rt_hw_interrupt_disable;
  mod_comp a RT_UNCOMPLETED ;;
  core (mod_links (fun l => rt_list_init l (LWait WCompletion a))) ;;
  rt_hw_interrupt_enable level.

Definition rt_completion_wait (a timeout : Z) : M dipc (outcome Z Z) :=
  self ← gets (fun s => rt_thread_self (di_core s));
  level ← rt_hw_interrupt_disable;
  cp ← gets (fun s => di_comps s a);
  if negb (cp_flag cp =? RT_COMPLETED) then
    empty ← gets (fun s => rt_list_isempty (k_links (di_core s)) (LWait WCompletion a));
    rt_assert empty ;;
    if timeout =? 0 then rt_hw_interrupt_enable level ;; mret (Returned (- RT_ETIMEOUT))
    else
      match self with
      | None => diverge
      | Some t =>
        core (mod_thread t (set_th_error RT_EOK)) ;;
        core (suspend_on (LWait WCompletion a) t) ;;
        core RT_DEBUG_NOT_IN_INTERRUPT ;;
        core (start_thread_timer t timeout) ;;
        rt_hw_interrupt_enable level ;;
        core rt_schedule ;;
        mret (Waiting t)
      end
  else rt_hw_interrupt_enable level ;; mret (Returned RT_EOK).
Definition rt_completion_wait_resumed (a t : Z) : M dipc Z :=
  th ← core (thread t);
  level ← rt_hw_interrupt_disable;
  mod_comp a RT_UNCOMPLETED ;;
  rt_hw_interrupt_enable level ;;
  mret (th_error th).

Definition rt_completion_done (a : Z) : M dipc unit :=
  cp ← gets (fun s => di_comps s a);
  if cp_flag cp =? RT_COMPLETED then mret tt
  else
    level ← rt_hw_interrupt_disable;
    mod_comp a RT_COMPLETED ;;
    woken ← core (resume_first (LWait WCompletion a));
    rt_hw_interrupt_enable level ;;
    if (woken : bool) then core rt_schedule else mret tt.

(** ** The abstract completion: done or not, and the thread that waits *)
Record comp_rep s L (a : Z) (done : bool) (ws : list Z) : Prop := {
  cr_inv : kinv (di_core s) L;
  cr_flag : cp_flag (di_comps s a) = if done then RT_COMPLETED else RT_UNCOMPLETED;
  cr_list : L (LWait WCompletion a) = Some (LTlist <$> ws);
  cr_excl : done = true -> ws = []
}.
Lemma wp_mod_comp a v (Q : unit -> dipc -> Prop) s : Q tt (set_di_comps (<[a := mk_completion v]> (di_comps s)) s) -> wp (mod_comp a v) Q s.
Proof. done. Qed.

Lemma wp_completion_wait s L a dn t time (Q : outcome Z Z -> dipc -> Prop) :
  comp_rep s L a dn [] -> caller (di_core s) t -> lists_short L -> time < RT_TICK_MAX / 2 ->
  (dn = true -> Q (Returned RT_EOK) s) -> (dn = false -> time = 0 -> Q (Returned (- RT_ETIMEOUT)) s) ->
  (dn = false -> time <> 0 -> forall c' L',
     blocked (with_error RT_EOK t (di_core s)) c' L' (LWait WCompletion a) t [t] time ->
     comp_rep (set_di_core c' s) L' a false [t] -> Q (Waiting t) (set_di_core c' s)) ->
  wp (rt_completion_wait a time) Q s.
Proof.
  intros [C1 C2 C3 C4] Hca Hsh Htime H1 H2 H3. unfold rt_completion_wait. do 2 wp1. wp1. apply wp_irq_disable. do 2 wp1.
  cbn [di_comps set_di_masked]. rewrite C2. assert (forall b, set_di_masked (di_masked s) (set_di_masked b s) = s) as Hm by (by destruct s).
  destruct dn; cbn [Z.eqb negb RT_COMPLETED RT_UNCOMPLETED Pos.eqb]; [wp1; apply wp_irq_enable; rewrite Hm; wp1; by apply H1|].
  do 2 wp1. cbn [di_core set_di_masked]. rewrite (rep_isempty _ _ _ _ (kinv_rep _ _ C1) C3). wp1. wp1; [by rewrite bool_decide_true|].
  destruct (Z.eqb_spec time 0) as [E|E]; [wp1; apply wp_irq_enable; rewrite Hm; wp1; by apply H2|].
  unfold rt_thread_self. rewrite (ca_current _ _ Hca). wp1. apply wp_core. wp1. cbn [di_core set_di_masked]. fold (with_error RT_EOK t (di_core s)).
  assert (kinv (with_error RT_EOK t (di_core s)) L) as Hk by (by apply kinv_error).
  assert (caller (with_error RT_EOK t (di_core s)) t) as Hca' by (by apply caller_error).
  wp1. apply wp_core. eapply wp_suspend_on; [exact Hk|apply Hca'|done|exact C3|cbn; pose proof loop_fuel_pos; lia|]. intros lk g tb c1 L1 K1.
  wp1. apply wp_core. unfold RT_DEBUG_NOT_IN_INTERRUPT. do 2 wp1. wp1; [by apply Z.eqb_eq, (ca_nest _ _ Hca)|].
  apply wp_core_enable. eapply (wp_block_rest _ L (LWait WCompletion a) t time [] ([] ++ [t])); [exact Hk|exact K1|done|done|exact C3|done|done|].
  intros c' L' Hb _. wp1. assert (forall c2, set_di_masked (di_masked s) (set_di_core c' (set_di_core c2 (set_di_masked true s))) = set_di_core c' s) as Hm' by (by destruct s).
  apply (H3 eq_refl E c' L' Hb). split; [apply Hb|done|apply Hb|done].
Qed.
Lemma wp_completion_done s L a dn ws (Q : unit -> dipc -> Prop) :
  comp_rep s L a dn ws ->
  (dn = true -> Q tt s) ->
  (dn = false -> ws = [] -> Q tt (set_di_comps (<[a := mk_completion RT_COMPLETED]> (di_comps s)) s)) ->
  (forall w ws' c' L', dn = false -> ws = w :: ws' -> resumed (di_core s) c' L L' (LWait WCompletion a) w ws' ->
     Q tt (set_di_core c' (set_di_comps (<[a := mk_completion RT_COMPLETED]> (di_comps s)) s))) ->
  wp (rt_completion_done a) Q s.
Proof.
  intros [C1 C2 C3 C4] H1 H2 H3. unfold rt_completion_done. do 2 wp1. rewrite C2.
  destruct dn; cbn [Z.eqb RT_COMPLETED RT_UNCOMPLETED Pos.eqb]; [wp1; by apply H1|].
  wp1. apply wp_irq_disable. wp1. apply wp_mod_comp. wp1. apply wp_core. eapply wp_resume_first; [exact C1|done|exact C3|..].
  - intros E. wp1. apply wp_irq_enable. wp1. destruct s. by apply H2.
  - intros w ws' c1 L' E Hr. wp1. apply wp_irq_enable. apply wp_core.
    eapply wp_schedule_kinv; [apply Hr|intros _; exists w; by eapply resumed_ready|]. intros c2 Hsch Hk _ _.
    pose proof (resumed_rescheduled _ _ _ _ _ _ _ _ Hr Hsch Hk). destruct s. by eapply H3.
Qed.

(** rt_completion_wait returns at once when the completion is done, fails at once when it
    must not wait, and otherwise suspends the caller on the completion with its timer
    running, and another thread runs. *)
Theorem rt_completion_wait_refines s L a dn t time :
  comp_rep s L a dn [] -> caller (di_core s) t -> lists_short L -> time < RT_TICK_MAX / 2 ->
  exists r s' L' ws', rt_completion_wait a time s = Some (r, s') /\ comp_rep s' L' a dn ws' /\
    if dn then r = Returned RT_EOK /\ s' = s /\ ws' = []
    else if time =? 0 then r = Returned (- RT_ETIMEOUT) /\ s' = s /\ ws' = []
    else r = Waiting t /\ ws' = [t] /\ blocked (with_error RT_EOK t (di_core s)) (di_core s') L' (LWait WCompletion a) t [t] time.
Proof.
  intros HC Hca Hsh Htime. match goal with |- exists r s' L' ws', _ /\ @?P r s' L' ws' =>
    assert (wp (rt_completion_wait a time) (fun r s' => exists L' ws', P r s' L' ws') s) as Hw end.
  { cbn beta. eapply wp_completion_wait; [exact HC|done..| | |].
    - intros ->. by exists L, [].
    - intros -> ->. by exists L, [].
    - intros -> Hne c' L' Hb Hr. exists L', [t]. split; [done|]. by destruct (Z.eqb_spec time 0). }
  apply wp_run in Hw as (r & s' & E & L' & ws' & H). by exists r, s', L', ws'.
Qed.
(** rt_completion_done on a completion already done does nothing; otherwise it marks the
    completion done and wakes the thread that waits, if there is one. *)
Theorem rt_completion_done_refines s L a dn ws :
  comp_rep s L a dn ws ->
  exists s' L', rt_completion_done a s = Some (tt, s') /\ kinv (di_core s') L' /\ cp_flag (di_comps s' a) = RT_COMPLETED /\
    match ws with
    | w :: ws' => k_threads (di_core s') w = set_th_stat RT_THREAD_READY (k_threads (di_core s) w) /\
        L' (LWait WCompletion a) = Some (LTlist <$> ws') /\ forall u, u <> w -> k_threads (di_core s') u = k_threads (di_core s) u
    | [] => di_core s' = di_core s /\ L' = L
    end.
Proof.
  intros HC. pose proof HC as [C1 C2 C3 C4]. match goal with |- exists s' L', _ /\ @?P s' L' =>
    assert (wp (rt_completion_done a) (fun _ s' => exists L', P s' L') s) as Hw end.
  { cbn beta. eapply wp_completion_done; [exact HC|..].
    - intros ->. exists L. rewrite C4 by done. by rewrite C2.
    - intros -> ->. exists L. cbn. by rewrite upd_eq.
    - intros w ws' c' L' -> -> [R1 R2 R3 R4 R5 R6]. exists L'. cbn. by rewrite upd_eq. }
  apply wp_run in Hw as ([] & s' & E & L' & H). by exists s', L'.
Qed.
(** A thread that waits is woken by one rt_completion_done and returns RT_EOK, and the
    completion can be used again. *)
Theorem rt_completion_handoff s L a t time :
  comp_rep s L a false [] -> caller (di_core s) t -> lists_short L -> time <> 0 -> time < RT_TICK_MAX / 2 ->
  exists s1 s2 s3, rt_completion_wait a time s = Some (Waiting t, s1) /\ rt_completion_done a s1 = Some (tt, s2) /\
    thread_stat (di_core s2) t = RT_THREAD_READY /\
    rt_completion_wait_resumed a t s2 = Some (RT_EOK, s3) /\ cp_flag (di_comps s3 a) = RT_UNCOMPLETED.
Proof.
  intros HC Hca Hsh Hne Htime.
  assert (wp (rt_completion_wait a time) (fun r s1 => r = Waiting t /\ wp (rt_completion_done a) (fun _ s2 =>
     thread_stat (di_core s2) t = RT_THREAD_READY /\ wp (rt_completion_wait_resumed a t) (fun r s3 => r = RT_EOK /\ cp_flag (di_comps s3 a) = RT_UNCOMPLETED) s2) s1) s) as Hw.
  { eapply wp_completion_wait; [exact HC|done..|]. intros _ _ c' L' Hb Hr. split; [done|].
    eapply wp_completion_done; [exact Hr|done|done|].
    intros w ws' c2 L2 _ [= <- <-] [_ _ _ Hw _ _]. unfold thread_stat. cbn [di_core set_di_core set_di_comps] in *. split; [by rewrite Hw|].
    unfold rt_completion_wait_resumed. wp1. apply wp_core. wp1. wp1. apply wp_irq_disable. wp1. apply wp_mod_comp. wp1. apply wp_irq_enable. wp1. cbn. rewrite upd_eq, Hw. cbn.
    rewrite (bl_error _ _ _ _ _ _ _ Hb). unfold with_error. cbn. by rewrite upd_eq. }
  apply wp_run in Hw as (r & s1 & E1 & -> & Hw). apply wp_run in Hw as ([] & s2 & E2 & Hst & Hw). apply wp_run in Hw as (r & s3 & E3 & -> & Hf).
  by exists s1, s2, s3.
Qed.
(** A completion that is done when rt_completion_wait is called stays done: after one
    rt_completion_done, any number of waits return RT_EOK at once. *)
Theorem rt_completion_done_kept s L a time :
  comp_rep s L a false [] ->
  exists s1, rt_completion_done a s = Some (tt, s1) /\ rt_completion_wait a time s1 = Some (Returned RT_EOK, s1).
Proof.
  intros HC. assert (wp (rt_completion_done a) (fun _ s1 => rt_completion_wait a time s1 = Some (Returned RT_EOK, s1)) s) as Hw.
  { eapply wp_completion_done; [exact HC|done| |done]. intros _ _.
    unfold rt_completion_wait, rt_hw_interrupt_disable, mbind, M_bind, gets. cbn. rewrite upd_eq. by destruct s. }
  apply wp_run in Hw as ([] & s1 & E & H). by exists s1.
Qed.
End completion.
