(* ===== verification/DataQueue.v ===== *)
(** Data queues (components/drivers/src/dataqueue.c): a ring of (pointer, size) items
    with blocking push and pop, a low water mark, and notifications. *)
From S2P Require Import Prelude RtList Kservice Kernel Scheduler Object TimerCore Invariant Thread Timer Ipc DriverIpc.

Section data_queue.
Context {cfg : Config} {kh : KHeap} {sz : ObjectSizes} {st : StaticThreads}.
Implicit Types (L : lnode -> option (list lnode)) (s : dipc).

Definition RT_DATAQUEUE_EVENT_POP : Z := 1.
Definition RT_DATAQUEUE_EVENT_PUSH : Z := 2.
Definition RT_DATAQUEUE_EVENT_LWM : Z := 3.
Definition queue (q : Z) : M dipc rt_data_queue := gets (fun s => di_queues s q).
Definition mod_queue (q : Z) (f : rt_data_queue -> rt_data_queue) : M dipc unit :=
  modify (fun s => set_di_queues (<[q := f (di_queues s q)]> (di_queues s)) s).
(** [if (queue->evt_notify != RT_NULL) queue->evt_notify(queue, event);] *)
Definition evt_notify (q event : Z) : M dipc unit :=
  dq ← queue q;
  match dq_evt_notify dq with
  | Some f => modify (fun s => set_di_events (di_events s ++ [(f, q, event)]) s)
  | None => mret tt
  end.

(** sizeof(struct rt_data_item) is 8. *)
Definition rt_data_queue_init (q size lwm : Z) (notify : option Z) : M dipc Z :=
  mod_queue q (set_dq_evt_notify notify) ;;
  mod_queue q (set_dq_size size) ;;
  mod_queue q (set_dq_lwm lwm) ;;
  mod_queue q (set_dq_waiting_lwm false) ;;
  mod_queue q (set_dq_get_index 0) ;;
  mod_queue q (set_dq_put_index 0) ;;
  core (mod_links (fun l => rt_list_init l (LWait WPush q))) ;;
  core (mod_links (fun l => rt_list_init l (LWait WPop q))) ;;
  p ← core (RT_KERNEL_MALLOC (uint32 (8 * size)));
  mod_queue q (set_dq_queue p) ;;
  match p with None => mret (- RT_ENOMEM) | Some _ => mret RT_EOK end.

Definition dq_mask (dq : rt_data_queue) : Z := uint16 (dq_size dq - 1).
(** The part of both loops that waits. *)
Definition dq_block (h : lnode) (self : option Z) (timeout : Z) (level : bool) : M dipc Z :=
  core RT_DEBUG_NOT_IN_INTERRUPT ;;
  match self with
  | None => diverge
  | Some t =>
    core (mod_thread t (set_th_error RT_EOK)) ;;
    core (suspend_on h t) ;;
    core (start_thread_timer t timeout) ;;
    rt_hw_interrupt_enable level ;;
    core rt_schedule ;;
    mret t
  end.
Definition dq_put (data : Z * Z) (dq : rt_data_queue) : rt_data_queue :=
  let dq := set_dq_items (<[Z.land (dq_put_index dq) (dq_mask dq) := data]> (dq_items dq)) dq in
  set_dq_put_index (uint16 (dq_put_index dq + 1)) dq.

(** One round of the loop of rt_data_queue_push, and what follows it.  The difference of
    two 16-bit indices is an int. *)
Definition dq_push_loop (q : Z) (data : Z * Z) (timeout : Z) (self : option Z) (level : bool) : M dipc (outcome Z Z) :=
  dq ← queue q;
  if dq_put_index dq - dq_get_index dq =? dq_size dq then
    mod_queue q (set_dq_waiting_lwm true) ;;
    if timeout =? 0 then rt_hw_interrupt_enable level ;; mret (Returned (- RT_ETIMEOUT))
    else t ← dq_block (LWait WPush q) self timeout level; mret (Waiting t)
  else
    mod_queue q (dq_put data) ;;
    woken ← core (resume_first (LWait WPop q));
    rt_hw_interrupt_enable level ;;
    (if (woken : bool) then core rt_schedule else evt_notify q RT_DATAQUEUE_EVENT_PUSH) ;;
    mret (Returned RT_EOK).
Definition rt_data_queue_push (q : Z) (data : Z * Z) (timeout : Z) : M dipc (outcome Z Z) :=
  self ← gets (fun s => rt_thread_self (di_core s));
  level ← rt_hw_interrupt_disable;
  dq_push_loop q data timeout self level.
Definition rt_data_queue_push_resumed (q : Z) (data : Z * Z) (timeout t : Z) : M dipc (outcome Z Z) :=
  th ← core (thread t);
  level ← rt_hw_interrupt_disable;
  if negb (th_error th =? RT_EOK) then rt_hw_interrupt_enable level ;; mret (Returned (th_error th))
  else dq_push_loop q data timeout (Some t) level.

(** The result is the error code and the item stored through the pointers, if any.  When
    the queue falls to the low water mark, interrupts are enabled again only if a
    thread waits to push. *)
Definition dq_pop_loop (q timeout : Z) (self : option Z) (level : bool) : M dipc (outcome Z (Z * option (Z * Z))) :=
  dq ← queue q;
  if dq_get_index dq =? dq_put_index dq then
    if timeout =? 0 then rt_hw_interrupt_enable level ;; mret (Returned (- RT_ETIMEOUT, None))
    else t ← dq_block (LWait WPop q) self timeout level; mret (Waiting t)
  else
    let data := dq_items dq (Z.land (dq_get_index dq) (dq_mask dq)) in
    mod_queue q (fun dq => set_dq_get_index (uint16 (dq_get_index dq + 1)) dq) ;;
    dq ← queue q;
    if dq_waiting_lwm dq && (dq_put_index dq - dq_get_index dq <=? dq_lwm dq) then
      mod_queue q (set_dq_waiting_lwm false) ;;
      woken ← core (resume_first (LWait WPush q));
      (if (woken : bool) then rt_hw_interrupt_enable level ;; core rt_schedule else mret tt) ;;
      evt_notify q RT_DATAQUEUE_EVENT_LWM ;;
      mret (Returned (RT_EOK, Some data))
    else
      rt_hw_interrupt_enable level ;;
      evt_notify q RT_DATAQUEUE_EVENT_POP ;;
      mret (Returned (RT_EOK, Some data)).
Definition rt_data_queue_pop (q timeout : Z) : M dipc (outcome Z (Z * option (Z * Z))) :=
  self ← gets (fun s => rt_thread_self (di_core s));
  level ← rt_hw_interrupt_disable;
  dq_pop_loop q timeout self level.
Definition rt_data_queue_pop_resumed (q timeout t : Z) : M dipc (outcome Z (Z * option (Z * Z))) :=
  th ← core (thread t);
  level ← rt_hw_interrupt_disable;
  if negb (th_error th =? RT_EOK) then rt_hw_interrupt_enable level ;; mret (Returned (th_error th, None))
  else dq_pop_loop q timeout (Some t) level.

Definition rt_data_queue_peak (q : Z) : M dipc (Z * option (Z * Z)) :=
  level ← rt_hw_interrupt_disable;
  dq ← queue q;
  if dq_get_index dq =? dq_put_index dq then rt_hw_interrupt_enable level ;; mret (- RT_EEMPTY, None)
  else
    let data := dq_items dq (Z.land (dq_get_index dq) (dq_mask dq)) in
    rt_hw_interrupt_enable level ;;
    mret (RT_EOK, Some data).

(** Both loops of the reset do what rt_ipc_list_resume_all does. *)
Definition rt_data_queue_reset (q : Z) : M dipc unit :=
  core rt_enter_critical ;;
  core (resume_all_loop loop_fuel (LWait WPop q)) ;;
  core (resume_all_loop loop_fuel (LWait WPush q)) ;;
  core rt_exit_critical ;;
  core rt_schedule.

(** ** The abstract queue *)
(** The items [xs] lie from the read index on; the indices have not wrapped between
    them, and the size is a power of two. *)
Record dq_holds (dq : rt_data_queue) (xs : list (Z * Z)) : Prop := {
  dh_size : exists k, 0 <= k < 16 /\ dq_size dq = 2 ^ k;
  dh_get : 0 <= dq_get_index dq;
  dh_put : dq_put_index dq = dq_get_index dq + Z.of_nat (length xs);
  dh_wrap : dq_put_index dq < 65536;
  dh_full : Z.of_nat (length xs) <= dq_size dq;
  dh_items : forall i x, xs !! i = Some x -> dq_items dq ((dq_get_index dq + Z.of_nat i) mod dq_size dq) = x
}.
Lemma dq_mask_slot dq xs i : dq_holds dq xs -> Z.land i (dq_mask dq) = i mod dq_size dq.
Proof.
  intros [(k & Hk & E) _ _ _ _ _]. unfold dq_mask. rewrite E.
  assert (2 ^ k <= 2 ^ 15) by (apply Z.pow_le_mono_r; lia). assert (0 < 2 ^ k) by (apply Z.pow_pos_nonneg; lia).
  rewrite uint_small by (change (2 ^ 16) with 65536; change (2 ^ 15) with 32768 in *; lia).
  replace (2 ^ k - 1) with (Z.ones k) by (rewrite Z.ones_equiv; lia). apply Z.land_ones. lia.
Qed.
Lemma slots_apart n a i j : 0 < n -> 0 <= i < n -> 0 <= j < n -> (a + i) mod n = (a + j) mod n -> i = j.
Proof.
  intros Hn Hi Hj E. pose proof (Z.div_mod (a + i) n ltac:(lia)) as E1. pose proof (Z.div_mod (a + j) n ltac:(lia)) as E2.
  rewrite E in E1. set (x := (a + i) / n) in *. set (y := (a + j) / n) in *. assert (n * (x - y) = i - j) as Ed by lia.
  destruct (Z.lt_trichotomy x y) as [Hlt|[Heq|Hlt]]; [|subst; lia|].
  - assert (n * (x - y) <= n * -1) by (apply Z.mul_le_mono_nonneg_l; lia). lia.
  - assert (n * 1 <= n * (x - y)) by (apply Z.mul_le_mono_nonneg_l; lia). lia.
Qed.
Lemma dq_put_holds dq xs x : dq_holds dq xs -> Z.of_nat (length xs) < dq_size dq -> dq_put_index dq < 65535 -> dq_holds (dq_put x dq) (xs ++ [x]).
Proof.
  intros H Hlt Hw. pose proof (dq_mask_slot dq xs (dq_put_index dq) H) as Em. destruct H as [D1 D2 D3 D4 D5 D6]. unfold dq_put. rewrite Em.
  split; cbn; rewrite ?length_app; cbn; try done.
  - rewrite uint_small by lia. lia.
  - rewrite uint_small by lia. lia.
  - lia.
  - intros i y Hi. rewrite upd_case. destruct (decide (i < length xs)%nat) as [Hi'|Hi'].
    + rewrite lookup_app_l in Hi by done. rewrite decide_False; [by apply D6|]. rewrite D3. intros E.
      apply (slots_apart (dq_size dq) (dq_get_index dq)) in E; lia.
    + rewrite lookup_app_r in Hi by lia. apply list_lookup_singleton_Some in Hi as [Ei <-].
      rewrite decide_True by (f_equal; lia). done.
Qed.
Lemma dq_get_holds dq x xs : dq_holds dq (x :: xs) ->
  dq_items dq (Z.land (dq_get_index dq) (dq_mask dq)) = x /\ dq_holds (set_dq_get_index (uint16 (dq_get_index dq + 1)) dq) xs.
Proof.
  intros H. rewrite (dq_mask_slot _ _ _ H). destruct H as [D1 D2 D3 D4 D5 D6]. cbn [length] in *. split.
  - rewrite <- (D6 O x eq_refl). f_equal. f_equal. lia.
  - rewrite uint_small by lia. split; cbn; try done; try lia. intros i y Hi. rewrite <- (D6 (S i) y Hi). f_equal. f_equal. lia.
Qed.
(** The queue [q] holds [xs]; [ps] wait to push and [gs] to pop. *)
Record dq_rep s L (q : Z) (xs : list (Z * Z)) (ps gs : list Z) : Prop := {
  dr_inv : kinv (di_core s) L;
  dr_holds : dq_holds (di_queues s q) xs;
  dr_push : L (LWait WPush q) = Some (LTlist <$> ps);
  dr_pop : L (LWait WPop q) = Some (LTlist <$> gs)
}.
Lemma wp_queue q (Q : rt_data_queue -> dipc -> Prop) s : Q (di_queues s q) s -> wp (queue q) Q s.
Proof. done. Qed.
Lemma wp_mod_queue q f (Q : unit -> dipc -> Prop) s : Q tt (set_di_queues (<[q := f (di_queues s q)]> (di_queues s)) s) -> wp (mod_queue q f) Q s.
Proof. done. Qed.
(** A notification changes nothing but the log of events. *)
Definition notified (s : dipc) (q event : Z) : dipc :=
  match dq_evt_notify (di_queues s q) with Some f => set_di_events (di_events s ++ [(f, q, event)]) s | None => s end.
Lemma wp_evt_notify q e (Q : unit -> dipc -> Prop) s : Q tt (notified s q e) -> wp (evt_notify q e) Q s.
Proof. unfold evt_notify, notified. intros HQ. wp1. apply wp_queue. by destruct (dq_evt_notify _); wp1. Qed.
Lemma notified_core s q e : di_core (notified s q e) = di_core s /\ di_queues (notified s q e) = di_queues s /\ di_masked (notified s q e) = di_masked s.
Proof. unfold notified. by destruct (dq_evt_notify _). Qed.
(** The caller waits on [h], interrupts as they were. *)
Lemma wp_dq_block s L h t time level ws (Q : Z -> dipc -> Prop) :
  kinv (di_core s) L -> caller (di_core s) t -> wait_head h -> L h = Some (LTlist <$> ws) -> (length ws < loop_fuel)%nat ->
  lists_short L -> time < RT_TICK_MAX / 2 ->
  (forall c' L', blocked (with_error RT_EOK t (di_core s)) c' L' h t (ws ++ [t]) time ->
     (forall g us, wait_head g -> g <> h -> L g = Some us -> L' g = Some us) ->
     Q t (set_di_masked level (set_di_core c' s))) ->
  wp (dq_block h (Some t) time level) Q s.
Proof.
  intros H Hca Hh HL Hlen Hsh Htime HQ. unfold dq_block.
  assert (forall c2, set_di_core c2 s = set_di_core c2 s) as _ by done.
  wp1. apply wp_core. unfold RT_DEBUG_NOT_IN_INTERRUPT. do 2 wp1. wp1; [by apply Z.eqb_eq, (ca_nest _ _ Hca)|].
  wp1. apply wp_core. wp1. cbn [di_core set_di_core]. fold (with_error RT_EOK t (di_core s)).
  assert (kinv (with_error RT_EOK t (di_core s)) L) as Hk by (by apply kinv_error).
  assert (caller (with_error RT_EOK t (di_core s)) t) as Hca' by (by apply caller_error).
  wp1. apply wp_core. eapply wp_suspend_on; [exact Hk|apply Hca'|done|exact HL|done|]. intros lk g tb c1 L1 K1.
  apply wp_core_enable. eapply (wp_block_rest _ L h t time ws (ws ++ [t])); [exact Hk|exact K1|done|done|exact HL|done|done|].
  intros c' L' Hb Ho. wp1. by apply (HQ c' L').
Qed.

(** C36 rt_data_queue_push appends the item and wakes the first thread that waits to pop; a
    full queue refuses it at once without a timeout, or makes the caller wait behind
    the others, with the interrupt mask restored on every path. *)
Theorem rt_data_queue_push_refines s L q xs ps gs data t time :
  dq_rep s L q xs ps gs -> caller (di_core s) t -> lists_short L -> time < RT_TICK_MAX / 2 -> (length ps < loop_fuel)%nat ->
  dq_put_index (di_queues s q) < 65535 ->
  exists r s' L', rt_data_queue_push q data time s = Some (r, s') /\ di_masked s' = di_masked s /\
    if Z.of_nat (length xs) =? dq_size (di_queues s q) then
      dq_waiting_lwm (di_queues s' q) = true /\
      if time =? 0 then r = Returned (- RT_ETIMEOUT) /\ dq_rep s' L' q xs ps gs
      else r = Waiting t /\ dq_rep s' L' q xs (ps ++ [t]) gs /\
        blocked (with_error RT_EOK t (di_core s)) (di_core s') L' (LWait WPush q) t (ps ++ [t]) time
    else r = Returned RT_EOK /\ dq_rep s' L' q (xs ++ [data]) ps (tl gs) /\
      forall w, head gs = Some w -> thread_stat (di_core s') w = RT_THREAD_READY.
Proof.
  intros [D1 D2 D3 D4] Hca Hsh Htime Hlen Hput. match goal with |- exists r s' L', _ /\ @?P r s' L' =>
    assert (wp (rt_data_queue_push q data time) (fun r s' => exists L', P r s' L') s) as Hw end.
  { cbn beta. unfold rt_data_queue_push, dq_push_loop. do 2 wp1. wp1. apply wp_irq_disable. wp1. apply wp_queue. cbn [di_queues set_di_masked].
    set (dq := di_queues s q) in *. assert (dq_put_index dq - dq_get_index dq = Z.of_nat (length xs)) as -> by (pose proof (dh_put _ _ D2); lia).
    assert (dq_holds (set_dq_waiting_lwm true dq) xs) as D2' by (by destruct D2).
    destruct (Z.eqb_spec (Z.of_nat (length xs)) (dq_size dq)) as [E|E].
    - wp1. apply wp_mod_queue. destruct (Z.eqb_spec time 0) as [E0|E0].
      + wp1. apply wp_irq_enable. wp1. exists L. cbn. fold dq. rewrite upd_eq. split_and!; try done. split; try done. cbn. by rewrite upd_eq.
      + unfold rt_thread_self. rewrite (ca_current _ _ Hca). wp1. eapply wp_dq_block; [exact D1|done|done|exact D3|done|done|done|].
        intros c' L' Hb Ho. wp1. exists L'. cbn. fold dq. rewrite upd_eq. split_and!; try done.
        split; cbn; rewrite ?upd_eq; [apply Hb|done|apply Hb|by apply (Ho (LWait WPop q) _ I)].
    - wp1. apply wp_mod_queue. cbn [di_queues set_di_masked]. fold dq.
      assert (dq_holds (dq_put data dq) (xs ++ [data])) as Hput' by (apply dq_put_holds; [done|pose proof (dh_full _ _ D2); lia|done]).
      wp1. apply wp_core. eapply wp_resume_first; [exact D1|done|exact D4|..].
      + intros ->. wp1. apply wp_irq_enable. wp1. apply wp_evt_notify. wp1. exists L.
        match goal with |- context [notified ?s2 q ?e] => destruct (notified_core s2 q e) as (N1 & N2 & N3) end. rewrite N3.
        split; [done|]. split; [done|]. split; [|done]. split; rewrite ?N1, ?N2; try done. cbn. by rewrite upd_eq.
      + intros w gs' c1 L' -> Hr. wp1. apply wp_irq_enable. wp1. apply wp_core.
        eapply wp_schedule_kinv; [apply Hr|intros _; exists w; by eapply resumed_ready|]. intros c2 Hsch Hk _ _.
        pose proof (resumed_rescheduled _ _ _ _ _ _ _ _ Hr Hsch Hk) as Hr2. wp1. exists L'. cbn. split; [done|]. split; [done|]. split.
        * split; cbn; rewrite ?upd_eq; [exact Hk|done|by apply (rs_lists _ _ _ _ _ _ _ Hr2)|apply Hr2].
        * intros u [= <-]. by eapply resumed_ready. }
  apply wp_run in Hw as (r & s' & E & L' & H). by exists r, s', L'.
Qed.
(** C37 rt_data_queue_pop takes the oldest item; an empty queue fails at once without a
    timeout, or makes the caller wait.  When a push had to wait and the queue falls to
    its low water mark, the first thread that waits to push leaves the waiting list and
    becomes READY, and above the mark none does.  The interrupt mask is restored except
    in one case: the mark is reached and nobody waits any more, and then interrupts
    stay disabled. *)
Theorem rt_data_queue_pop_refines s L q xs ps gs t time :
  dq_rep s L q xs ps gs -> (xs = [] -> caller (di_core s) t) -> lists_short L -> time < RT_TICK_MAX / 2 -> (length gs < loop_fuel)%nat ->
  exists r s' L', rt_data_queue_pop q time s = Some (r, s') /\
    match xs with
    | [] => di_masked s' = di_masked s /\
      if time =? 0 then r = Returned (- RT_ETIMEOUT, None) /\ dq_rep s' L' q [] ps gs
      else r = Waiting t /\ dq_rep s' L' q [] ps (gs ++ [t]) /\
        blocked (with_error RT_EOK t (di_core s)) (di_core s') L' (LWait WPop q) t (gs ++ [t]) time
    | x :: xs' => let mark := dq_waiting_lwm (di_queues s q) && (Z.of_nat (length xs') <=? dq_lwm (di_queues s q)) in
      r = Returned (RT_EOK, Some x) /\ dq_rep s' L' q xs' (if mark then tl ps else ps) gs /\
      (mark = true -> forall w, head ps = Some w -> thread_stat (di_core s') w = RT_THREAD_READY) /\
      (mark = false -> di_core s' = di_core s) /\
      di_masked s' = (if mark && bool_decide (ps = []) then true else di_masked s)
    end.
Proof.
  intros [D1 D2 D3 D4] Hca Hsh Htime Hlen. match goal with |- exists r s' L', _ /\ @?P r s' L' =>
    assert (wp (rt_data_queue_pop q time) (fun r s' => exists L', P r s' L') s) as Hw end.
  { cbn beta. unfold rt_data_queue_pop, dq_pop_loop. do 2 wp1. wp1. apply wp_irq_disable. wp1. apply wp_queue. cbn [di_queues set_di_masked].
    set (dq := di_queues s q) in *. pose proof (dh_put _ _ D2) as Hp. destruct xs as [|x xs]; cbn [length] in Hp.
    - specialize (Hca eq_refl). destruct (Z.eqb_spec (dq_get_index dq) (dq_put_index dq)); [|lia]. destruct (Z.eqb_spec time 0) as [E0|E0].
      + wp1. apply wp_irq_enable. wp1. exists L. by split_and!.
      + unfold rt_thread_self. rewrite (ca_current _ _ Hca). wp1. eapply wp_dq_block; [exact D1|done|done|exact D4|done|done|done|].
        intros c' L' Hb Ho. wp1. exists L'. cbn. split_and!; try done. split; cbn; [apply Hb|done|by apply (Ho (LWait WPush q) _ I)|apply Hb].
    - destruct (Z.eqb_spec (dq_get_index dq) (dq_put_index dq)); [lia|]. destruct (dq_get_holds _ _ _ D2) as [-> Hget].
      cbv zeta. wp1. apply wp_mod_queue. wp1. apply wp_queue. cbn [di_queues set_di_queues set_di_masked]. rewrite upd_eq. fold dq.
      set (dq1 := set_dq_get_index _ dq) in *. assert (dq_put_index dq1 - dq_get_index dq1 = Z.of_nat (length xs)) as -> by (pose proof (dh_put _ _ Hget); lia).
      change (dq_waiting_lwm dq1) with (dq_waiting_lwm dq). change (dq_lwm dq1) with (dq_lwm dq).
      set (mark := dq_waiting_lwm dq && (Z.of_nat (length xs) <=? dq_lwm dq)). assert (dq_holds (set_dq_waiting_lwm false dq1) xs) as Hget' by (by destruct Hget).
      destruct mark.
      + wp1. apply wp_mod_queue. wp1. apply wp_core. cbn [di_core di_queues set_di_queues set_di_masked]. rewrite upd_eq.
        eapply wp_resume_first; [exact D1|done|exact D3|..].
        * intros ->. do 2 wp1. wp1. apply wp_evt_notify. wp1. exists L.
          match goal with |- context [notified ?s2 q ?e] => destruct (notified_core s2 q e) as (N1 & N2 & N3) end.
          split; [done|]. split; [|split; [done|split; [by rewrite N1|by rewrite N3]]]. split; rewrite ?N1, ?N2; try done. cbn. by rewrite upd_eq.
        * intros w ps' c1 L' -> Hr. wp1. wp1. apply wp_irq_enable. apply wp_core.
          eapply wp_schedule_kinv; [apply Hr|intros _; exists w; by eapply resumed_ready|]. intros c2 Hsch Hk _ _.
          pose proof (resumed_rescheduled _ _ _ _ _ _ _ _ Hr Hsch Hk) as Hr2. wp1. apply wp_evt_notify. wp1. exists L'.
          match goal with |- context [notified ?s2 q ?e] => destruct (notified_core s2 q e) as (N1 & N2 & N3) end.
          split; [done|]. split; [|split; [|split; [done|by rewrite N3]]].
          2: { intros _ u [= <-]. rewrite N1. by eapply resumed_ready. }
          split; rewrite ?N1, ?N2; cbn; rewrite ?upd_eq; [exact Hk|done|apply Hr2|by apply (rs_lists _ _ _ _ _ _ _ Hr2)].
      + wp1. apply wp_irq_enable. wp1. apply wp_evt_notify. wp1. exists L.
        match goal with |- context [notified ?s2 q ?e] => destruct (notified_core s2 q e) as (N1 & N2 & N3) end.
        split; [done|]. split; [|split; [done|split; [by rewrite N1|by rewrite N3]]]. split; rewrite ?N1, ?N2; try done. cbn. by rewrite upd_eq. }
  apply wp_run in Hw as (r & s' & E & L' & H). by exists r, s', L'.
Qed.
(** rt_data_queue_peak returns the oldest item and leaves the queue and the interrupt mask
    as they were. *)
Theorem rt_data_queue_peak_oldest s q xs : dq_holds (di_queues s q) xs ->
  rt_data_queue_peak q s = Some (match xs with [] => (- RT_EEMPTY, None) | x :: _ => (RT_EOK, Some x) end, s).
Proof.
  intros H. pose proof (dh_put _ _ H) as Hp. unfold rt_data_queue_peak, rt_hw_interrupt_disable, rt_hw_interrupt_enable, queue, mbind, M_bind, gets, modify. cbn.
  destruct xs as [|x xs]; cbn [length] in Hp.
  - destruct (Z.eqb_spec (dq_get_index (di_queues s q)) (dq_put_index (di_queues s q))); [|lia]. by destruct s.
  - destruct (Z.eqb_spec (dq_get_index (di_queues s q)) (dq_put_index (di_queues s q))); [lia|].
    destruct (dq_get_holds _ _ _ H) as [-> _]. by destruct s.
Qed.
(** rt_data_queue_reset wakes every thread that waits to pop or to push with the error
    -RT_ERROR; the items stay. *)
Theorem rt_data_queue_reset_wakes s L q xs ps gs :
  dq_rep s L q xs ps gs -> (length ps < loop_fuel)%nat -> (length gs < loop_fuel)%nat ->
  0 <= k_lock_nest (di_core s) < 32767 -> (exists u, thread_stat (di_core s) u = RT_THREAD_READY) ->
  exists s' L', rt_data_queue_reset q s = Some (tt, s') /\ dq_rep s' L' q xs [] [] /\
    (forall u, u ∈ ps ++ gs -> thread_stat (di_core s') u = RT_THREAD_READY /\ th_error (k_threads (di_core s') u) = - RT_ERROR) /\
    (forall u, u ∉ ps ++ gs -> k_threads (di_core s') u = k_threads (di_core s) u).
Proof.
  intros [D1 D2 D3 D4] Hps Hgs Hl [u0 Hu0]. match goal with |- exists s' L', _ /\ @?P s' L' =>
    assert (wp (rt_data_queue_reset q) (fun _ s' => exists L', P s' L') s) as Hw end.
  { cbn beta. unfold rt_data_queue_reset. wp1. apply wp_core. unfold rt_enter_critical. wp1.
    destruct (int16_succ_pred _ Hl) as [N1 N2]. rewrite N1 in *. cbn [di_core set_di_core].
    wp1. apply wp_core. eapply (wp_resume_all (LWait WPop q) gs); [done|by apply (kinv_nest (di_core s))|exact D4|done|].
    intros c1 L1 K1 HL1 S1 Hin1 Hout1 Ho1. wp1. apply wp_core.
    eapply (wp_resume_all (LWait WPush q) ps); [done|exact K1|by apply (Ho1 (LWait WPush q) _ I)|done|].
    intros c2 L2 K2 HL2 S2 Hin2 Hout2 Ho2. wp1. apply wp_core. unfold rt_exit_critical. do 2 wp1. do 2 wp1. ksimpl.
    destruct S1 as (_ & E1 & _). destruct S2 as (_ & E2 & _). cbn [di_core set_di_core] in *. ksimpl. rewrite E2, E1. ksimpl. rewrite N2.
    assert (forall u, u ∈ ps ++ gs -> thread_stat c2 u = RT_THREAD_READY /\ th_error (k_threads c2 u) = - RT_ERROR) as Hin.
    { intros u Hu. destruct (decide (u ∈ ps)) as [Hp|Hp]; [by apply Hin2|]. apply elem_of_app in Hu as [?|Hg]; [done|].
      unfold thread_stat. rewrite Hout2 by done. by apply Hin1. }
    assert (forall u, u ∉ ps ++ gs -> k_threads c2 u = k_threads (di_core s) u) as Hout.
    { intros u [Hp Hg]%not_elem_of_app. rewrite Hout2, Hout1 by done. done. }
    assert (exists u, thread_stat c2 u = RT_THREAD_READY) as Hr.
    { exists u0. destruct (decide (u0 ∈ ps ++ gs)) as [Hi|Hi]; [by apply Hin|]. unfold thread_stat. by rewrite Hout. }
    assert (forall c3 : kcore, kinv c3 L2 -> k_threads c3 = k_threads c2 -> exists L', dq_rep (set_di_core c3 s) L' q xs [] [] /\
      (forall u, u ∈ ps ++ gs -> thread_stat c3 u = RT_THREAD_READY /\ th_error (k_threads c3 u) = - RT_ERROR) /\
      (forall u, u ∉ ps ++ gs -> k_threads c3 u = k_threads (di_core s) u)) as Hend.
    { intros c3 K3 E3. exists L2. unfold thread_stat. rewrite E3. split; [|by split]. split; [done|done|done|].
      by apply (Ho2 (LWait WPop q) [] I). }
    assert (forall n, kinv (set_k_lock_nest n c2) L2) as Kn by (intros; by apply (kinv_nest c2)).
    assert (forall c3 : kcore, kinv c3 L2 -> k_threads c3 = k_threads c2 -> wp (core rt_schedule) (fun _ s' => exists L',
      dq_rep s' L' q xs [] [] /\
      (forall u, u ∈ ps ++ gs -> thread_stat (di_core s') u = RT_THREAD_READY /\ th_error (k_threads (di_core s') u) = - RT_ERROR) /\
      (forall u, u ∉ ps ++ gs -> k_threads (di_core s') u = k_threads (di_core s) u)) (set_di_core c3 s)) as Hlast.
    { intros c3 K3 E3. apply wp_core. eapply wp_schedule_kinv; [exact K3|intros _; unfold thread_stat; cbn [di_core set_di_core]; by rewrite E3|].
      intros c4 (cur & prio & sw & ->) K4 _ _. destruct s. by apply Hend. }
    destruct (k_lock_nest (di_core s) <=? 0).
    - wp1. wp1. eapply wp_schedule_kinv; [apply Kn|by intros _|]. intros c4 (cur & prio & sw & ->) K4 _ _. destruct s. by apply Hlast.
    - wp1. destruct s. by apply Hlast. }
  apply wp_run in Hw as ([] & s' & E & L' & H). by exists s', L'.
Qed.
(** Once the 16-bit put index has wrapped past the get index, a full queue is not seen as
    full: a push without a timeout succeeds and overwrites the oldest item. *)
Theorem rt_data_queue_wrap_overwrites s L q data k :
  let dq := di_queues s q in
  kinv (di_core s) L -> L (LWait WPop q) = Some [] -> 0 <= k < 16 -> dq_size dq = 2 ^ k ->
  0 <= dq_get_index dq < 65536 -> dq_put_index dq = dq_get_index dq + dq_size dq - 65536 -> 0 <= dq_put_index dq ->
  exists s', rt_data_queue_push q data 0 s = Some (Returned RT_EOK, s') /\
    dq_get_index (di_queues s' q) = dq_get_index dq /\
    dq_items (di_queues s' q) (Z.land (dq_get_index dq) (dq_mask dq)) = data.
Proof.
  intros dq D1 D4 Hk Hsz Hg Hp Hp0.
  assert (Z.land (dq_put_index dq) (dq_mask dq) = Z.land (dq_get_index dq) (dq_mask dq)) as Eslot.
  { assert (dq_mask dq = Z.ones k) as ->.
    { unfold dq_mask. rewrite Hsz. assert (2 ^ k <= 2 ^ 15) by (apply Z.pow_le_mono_r; lia). assert (0 < 2 ^ k) by (apply Z.pow_pos_nonneg; lia).
      rewrite uint_small by (change (2 ^ 16) with 65536; change (2 ^ 15) with 32768 in *; lia). rewrite Z.ones_equiv. lia. }
    rewrite !Z.land_ones by lia. assert (65536 = 2 ^ (16 - k) * 2 ^ k) as E by (rewrite <- Z.pow_add_r by lia; by replace (16 - k + k) with 16 by lia).
    rewrite Hp, Hsz, E. replace (dq_get_index dq + 2 ^ k - 2 ^ (16 - k) * 2 ^ k) with (dq_get_index dq + (1 - 2 ^ (16 - k)) * 2 ^ k) by lia.
    apply Z.mod_add. apply Z.pow_nonzero; lia. }
  assert (wp (rt_data_queue_push q data 0) (fun r s' => r = Returned RT_EOK /\ dq_get_index (di_queues s' q) = dq_get_index dq /\
    dq_items (di_queues s' q) (Z.land (dq_get_index dq) (dq_mask dq)) = data) s) as Hw.
  { unfold rt_data_queue_push, dq_push_loop. do 2 wp1. wp1. apply wp_irq_disable. wp1. apply wp_queue. cbn [di_queues set_di_masked]. fold dq.
    destruct (Z.eqb_spec (dq_put_index dq - dq_get_index dq) (dq_size dq)); [lia|]. wp1. apply wp_mod_queue. cbn [di_queues set_di_masked]. fold dq.
    wp1. apply wp_core. eapply (wp_resume_first _ _ _ []); [exact D1|done|exact D4| |done]. intros _. wp1. apply wp_irq_enable. wp1. apply wp_evt_notify. wp1.
    match goal with |- context [notified ?s2 q ?e] => destruct (notified_core s2 q e) as (N1 & N2 & N3) end. rewrite N2. cbn. rewrite upd_eq.
    split; [done|]. split; [done|]. unfold dq_put. cbn. rewrite Eslot. by rewrite upd_eq. }
  apply wp_run in Hw as (r & s' & E & -> & Hr). by exists s'.
Qed.
End data_queue.
