(* ===== verification/Pipe.v ===== *)
(** Pipe devices (components/drivers/src/pipe.c): a ring buffer behind the device
    interface, with threads that wait to read and to write. *)
From S2P Require Import Prelude RtList Kservice Kernel Scheduler Object TimerCore Invariant Thread Timer Ipc DriverIpc.
From S2P Require Import MemOps RingBuffer Device.

(** struct rt_pipe_device after its parent; the suspended lists are [LWait WRead] and
    [LWait WWrite]. *)
Record rt_pipe_device : Type := mk_pipe {
  pp_ringbuffer : rt_ringbuffer;
  pp_buffer_ptr : Z;              (* ringbuffer.buffer_ptr *)
  pp_flag : Z;
  pp_write_portal : option Z;
  pp_read_portal : option Z
}.
Definition set_pp_ringbuffer (v : rt_ringbuffer) (s : rt_pipe_device) : rt_pipe_device := mk_pipe v (pp_buffer_ptr s) (pp_flag s) (pp_write_portal s) (pp_read_portal s).
Definition set_pp_buffer_ptr (v : Z) (s : rt_pipe_device) : rt_pipe_device := mk_pipe (pp_ringbuffer s) v (pp_flag s) (pp_write_portal s) (pp_read_portal s).
Definition set_pp_flag (v : Z) (s : rt_pipe_device) : rt_pipe_device := mk_pipe (pp_ringbuffer s) (pp_buffer_ptr s) v (pp_write_portal s) (pp_read_portal s).
Definition set_pp_write_portal (v : option Z) (s : rt_pipe_device) : rt_pipe_device := mk_pipe (pp_ringbuffer s) (pp_buffer_ptr s) (pp_flag s) v (pp_read_portal s).
Definition set_pp_read_portal (v : option Z) (s : rt_pipe_device) : rt_pipe_device := mk_pipe (pp_ringbuffer s) (pp_buffer_ptr s) (pp_flag s) (pp_write_portal s) v.

(** struct rt_portal_device after its parent. *)
Record rt_portal_device : Type := mk_portal { pt_write_dev : option Z; pt_read_dev : option Z }.
Definition set_pt_write_dev (v : option Z) (s : rt_portal_device) : rt_portal_device := mk_portal v (pt_read_dev s).
Definition set_pt_read_dev (v : option Z) (s : rt_portal_device) : rt_portal_device := mk_portal (pt_write_dev s) v.

(** The state of these drivers: pipes, portals, the byte memory with the buffers of the
    callers, the interrupt mask, and what applications keep. *)
Class Apps := app_state : Type.
Record pipe_io {app : Apps} : Type := mk_pipe_io {
  pi_pipes : Z -> rt_pipe_device;
  pi_portals : Z -> rt_portal_device;
  pi_mem : Z -> Z;
  pi_masked : bool;
  pi_apps : app_state
}.
#[export] Instance pipe_driver_io {app : Apps} : DriverIO := pipe_io.
Definition set_pi_pipes {app : Apps} (v : Z -> rt_pipe_device) (i : pipe_io) : pipe_io := mk_pipe_io _ v (pi_portals i) (pi_mem i) (pi_masked i) (pi_apps i).
Definition set_pi_portals {app : Apps} (v : Z -> rt_portal_device) (i : pipe_io) : pipe_io := mk_pipe_io _ (pi_pipes i) v (pi_mem i) (pi_masked i) (pi_apps i).
Definition set_pi_mem {app : Apps} (v : Z -> Z) (i : pipe_io) : pipe_io := mk_pipe_io _ (pi_pipes i) (pi_portals i) v (pi_masked i) (pi_apps i).
Definition set_pi_masked {app : Apps} (v : bool) (i : pipe_io) : pipe_io := mk_pipe_io _ (pi_pipes i) (pi_portals i) (pi_mem i) v (pi_apps i).
Definition set_pi_apps {app : Apps} (v : app_state) (i : pipe_io) : pipe_io := mk_pipe_io _ (pi_pipes i) (pi_portals i) (pi_mem i) (pi_masked i) v.

Definition RT_PIPE_FLAG_BLOCK_RD : Z := 1.
Definition RT_PIPE_FLAG_BLOCK_WR : Z := 2.
Definition RT_PIPE_FLAG_FORCE_WR : Z := 4.
Definition PIPE_CTRL_GET_SPACE : Z := 20.
Definition RT_Device_Class_Pipe : Z := 15.
Definition RT_DEVICE_FLAG_RDWR : Z := 3.

(** Where the functions of the two drivers are, and sizeof of the structures. *)
Inductive driver_fn := FnPipeRead | FnPipeWrite | FnPipeControl
  | FnPortalInit | FnPortalOpen | FnPortalClose | FnPortalRead | FnPortalWrite | FnPortalRxIndicate | FnPortalTxComplete.
#[export] Instance driver_fn_eq_dec : EqDecision driver_fn.
Proof. solve_decision. Defined.
Class DriverCode := {
  fn_addr : driver_fn -> Z;
  sizeof_pipe : Z;
  sizeof_portal : Z
}.

Section pipe.
Context {cfg : Config} {kh : KHeap} {app : Apps} {drv : Drivers} {sz : ObjectSizes} {st : StaticThreads} {dc : DriverCode}.

Definition has_flag (flag mask : Z) : bool := negb (Z.land flag mask =? 0).
Definition mod_io (f : pipe_io -> pipe_io) : M dstate unit := modify (fun s => set_d_io (f (d_io s) : driver_io) s).
Definition irq_disable : M dstate bool := level ← gets (fun s => pi_masked (d_io s)); mod_io (set_pi_masked true) ;; mret level.
Definition irq_enable (level : bool) : M dstate unit := mod_io (set_pi_masked level).
Definition pipe (d : Z) : M dstate rt_pipe_device := gets (fun s => pi_pipes (d_io s) d).
Definition mod_pipe (d : Z) (f : rt_pipe_device -> rt_pipe_device) : M dstate unit :=
  mod_io (fun i => set_pi_pipes (<[d := f (pi_pipes i d)]> (pi_pipes i)) i).
(** The ring buffer operations on the pipe's buffer and the caller's; the size is
    converted to rt_uint16_t. *)
Definition ring_get (d buffer size : Z) : M dstate Z :=
  p ← pipe d;
  let '(n, bytes, rb) := rt_ringbuffer_get (uint16 size) (pp_ringbuffer p) in
  mod_pipe d (set_pp_ringbuffer rb) ;;
  mod_io (fun i => set_pi_mem (copy_in buffer bytes (pi_mem i)) i) ;;
  mret n.
Definition ring_put (force : bool) (d buffer size : Z) : M dstate Z :=
  p ← pipe d;
  bytes ← gets (fun s => copy_out buffer (uint16 size) (pi_mem (d_io s)));
  let '(n, rb) := (if force then rt_ringbuffer_put_force else rt_ringbuffer_put) bytes (uint16 size) (pp_ringbuffer p) in
  mod_pipe d (set_pp_ringbuffer rb) ;;
  mret n.

(** [if (!rt_list_isempty(list)) { RT_ASSERT(flag & block); ... }] of both functions that
    resume. *)
Definition resume_waiting (d block : Z) (h : lnode) : M dstate unit :=
  empty ← gets (fun s => rt_list_isempty (k_links (d_core s)) h);
  if negb empty then
    p ← pipe d;
    rt_assert (has_flag (pp_flag p) block) ;;
    n ← gets (fun s => l_next (k_links (d_core s)) h);
    thread ← on_core (rt_thread_entry n);
    _ ← on_core (rt_thread_resume thread);
    on_core rt_schedule
  else mret tt.
Definition _rt_pipe_resume_writer (d : Z) : M dstate unit := resume_waiting d RT_PIPE_FLAG_BLOCK_WR (LWait WWrite d).
Definition _rt_pipe_resume_reader (d : Z) : M dstate unit :=
  dv ← device d;
  p ← pipe d;
  (match dv_rx_indicate dv with
   | Some f => _ ← drv_call f d [rt_ringbuffer_data_len (pp_ringbuffer p)]; mret tt
   | None => mret tt
   end) ;;
  resume_waiting d RT_PIPE_FLAG_BLOCK_RD (LWait WRead d).
(** The thread waits: the part of both loops before rt_schedule, and that. *)
Definition pipe_block (h : lnode) (self : option Z) (level : bool) : M dstate (outcome Z Z) :=
  match self with
  | None => diverge
  | Some t =>
    on_core (suspend_on h t) ;;
    irq_enable level ;;
    on_core rt_schedule ;;
    mret (Waiting t)
  end.

(** ** Reading *)
(** One round of the loop, and what follows it. *)
Definition pipe_read_loop (d buffer size : Z) (self : option Z) : M dstate (outcome Z Z) :=
  level ← irq_disable;
  read_nbytes ← ring_get d buffer size;
  if read_nbytes =? 0 then pipe_block (LWait WRead d) self level
  else _rt_pipe_resume_writer d ;; irq_enable level ;; mret (Returned read_nbytes).
Definition rt_pipe_read (d pos buffer size : Z) : M dstate (outcome Z Z) :=
  p ← pipe d;
  if negb (has_flag (pp_flag p) RT_PIPE_FLAG_BLOCK_RD) then
    level ← irq_disable;
    read_nbytes ← ring_get d buffer size;
    (if negb (read_nbytes =? 0) then _rt_pipe_resume_writer d else mret tt) ;;
    irq_enable level ;;
    mret (Returned read_nbytes)
  else
    thread ← gets (fun s => rt_thread_self (d_core s));
    on_core RT_DEBUG_NOT_IN_INTERRUPT ;;
    pipe_read_loop d buffer size thread.
Definition rt_pipe_read_resumed (d buffer size t : Z) : M dstate (outcome Z Z) := pipe_read_loop d buffer size (Some t).

(** ** Writing *)
Definition pipe_write_loop (d buffer size : Z) (self : option Z) : M dstate (outcome Z Z) :=
  level ← irq_disable;
  write_nbytes ← ring_put false d buffer size;
  if write_nbytes =? 0 then pipe_block (LWait WWrite d) self level
  else _rt_pipe_resume_reader d ;; irq_enable level ;; mret (Returned write_nbytes).
Definition rt_pipe_write (d pos buffer size : Z) : M dstate (outcome Z Z) :=
  p ← pipe d;
  if has_flag (pp_flag p) RT_PIPE_FLAG_FORCE_WR || negb (has_flag (pp_flag p) RT_PIPE_FLAG_BLOCK_WR) then
    level ← irq_disable;
    write_nbytes ← ring_put (has_flag (pp_flag p) RT_PIPE_FLAG_FORCE_WR) d buffer size;
    _rt_pipe_resume_reader d ;;
    irq_enable level ;;
    mret (Returned write_nbytes)
  else
    thread ← gets (fun s => rt_thread_self (d_core s));
    on_core RT_DEBUG_NOT_IN_INTERRUPT ;;
    pipe_write_loop d buffer size thread.
Definition rt_pipe_write_resumed (d buffer size t : Z) : M dstate (outcome Z Z) := pipe_write_loop d buffer size (Some t).

(** ** Control, initialisation and removal *)
Definition rt_pipe_control (d cmd args : Z) : M dstate Z :=
  (if (cmd =? PIPE_CTRL_GET_SPACE) && negb (args =? 0) then
     p ← pipe d;
     mod_io (fun i => set_pi_mem (store_word args (uint32 (rt_ringbuffer_space_len (pp_ringbuffer p))) (pi_mem i)) i)
   else mret tt) ;;
  mret RT_EOK.
(** The bytes at [buf] become those of the ring buffer; [size], an rt_size_t, is narrowed
    to the rt_int16_t that rt_ringbuffer_init takes. *)
Definition rt_pipe_init (d : Z) (name : list Z) (flag buf size : Z) : M dstate Z :=
  rt_assert (negb (buf =? 0)) ;;
  on_core (mod_links (fun l => rt_list_init l (LWait WRead d))) ;;
  on_core (mod_links (fun l => rt_list_init l (LWait WWrite d))) ;;
  pool ← gets (fun s => fun i => pi_mem (d_io s) (buf + i));
  match rt_ringbuffer_init pool size with
  | None => diverge
  | Some rb =>
    mod_pipe d (set_pp_ringbuffer rb) ;;
    mod_pipe d (set_pp_buffer_ptr buf) ;;
    mod_pipe d (set_pp_flag flag) ;;
    mod_device d (set_dv_type RT_Device_Class_Pipe) ;;
    mod_device d (set_dv_init None) ;;
    mod_device d (set_dv_open None) ;;
    mod_device d (set_dv_close None) ;;
    mod_device d (set_dv_read (Some (fn_addr FnPipeRead))) ;;
    mod_device d (set_dv_write (Some (fn_addr FnPipeWrite))) ;;
    mod_device d (set_dv_control (Some (fn_addr FnPipeControl))) ;;
    rt_device_register (Some d) name RT_DEVICE_FLAG_RDWR
  end.
Definition rt_pipe_detach (d : Z) : M dstate Z := rt_device_unregister d.
(** The zeroed structures that rt_calloc returns. *)
Definition zero_device : rt_device := mk_device 0 0 0 0 None None None None None None None None.
Definition zero_pipe : rt_pipe_device := mk_pipe (mk_rb (fun _ => 0) 0 0 0 0 0) 0 0 None None.
Definition rt_pipe_create (name : list Z) (flag size : Z) : M dstate Z :=
  let size := RT_ALIGN size RT_ALIGN_SIZE in
  p ← on_core (RT_KERNEL_MALLOC sizeof_pipe);
  match p with
  | None => mret (- RT_ENOMEM)
  | Some d =>
    on_core (mod_object (ODevice d) (fun _ => mk_object [] 0 0)) ;;
    mod_device d (fun _ => zero_device) ;;
    mod_pipe d (fun _ => zero_pipe) ;;
    rb_memptr ← on_core (RT_KERNEL_MALLOC size);
    match rb_memptr with
    | None => on_core (RT_KERNEL_FREE d) ;; mret (- RT_ENOMEM)
    | Some buf => rt_pipe_init d name flag buf size
    end
  end.
Definition rt_pipe_destroy (pipe_ptr : option Z) : M dstate unit :=
  match pipe_ptr with
  | None => mret tt
  | Some d =>
    _ ← rt_pipe_detach d;
    p ← pipe d;
    on_core (RT_KERNEL_FREE (pp_buffer_ptr p)) ;;
    on_core (RT_KERNEL_FREE d)
  end.
End pipe.

(** ** The abstract pipe: a bounded queue of bytes, waiting readers and waiting writers *)
Section pipe_spec.
Context {cfg : Config} {kh : KHeap} {app : Apps} {drv : Drivers} {sz : ObjectSizes} {st : StaticThreads}.
Implicit Types (s : dstate) (L : lnode -> option (list lnode)).

Definition ring s d : rt_ringbuffer := pp_ringbuffer (pi_pipes (d_io s) d).
Definition pipe_flag s d : Z := pp_flag (pi_pipes (d_io s) d).
Definition memory s : Z -> Z := pi_mem (d_io s).
Definition masked s : bool := pi_masked (d_io s).
Record pipe_rep s L (d : Z) (xs : list Z) (rs ws : list Z) : Prop := {
  pr_inv : kinv (d_core s) L;
  pr_ring : rb_ok (ring s d);
  pr_bytes : rb_contents (ring s d) = xs;
  pr_readers : L (LWait WRead d) = Some (LTlist <$> rs);
  pr_writers : L (LWait WWrite d) = Some (LTlist <$> ws);
  pr_block_rd : rs <> [] -> has_flag (pipe_flag s d) RT_PIPE_FLAG_BLOCK_RD = true;
  pr_block_wr : ws <> [] -> has_flag (pipe_flag s d) RT_PIPE_FLAG_BLOCK_WR = true
}.

Lemma wp_mod_io f (Q : unit -> dstate -> Prop) s : Q tt (set_d_io (f (d_io s) : driver_io) s) -> wp (mod_io f) Q s.
Proof. done. Qed.
Lemma wp_pipe_irq_disable (Q : bool -> dstate -> Prop) s : Q (masked s) (set_d_io (set_pi_masked true (d_io s) : driver_io) s) -> wp irq_disable Q s.
Proof. done. Qed.
Lemma wp_pipe d (Q : rt_pipe_device -> dstate -> Prop) s : Q (pi_pipes (d_io s) d) s -> wp (pipe d) Q s.
Proof. done. Qed.
(** What the ring operations leave behind: the ring buffer [rb] and the memory [m]. *)
Definition with_ring (d : Z) (rb : rt_ringbuffer) (m : Z -> Z) s : dstate :=
  set_d_io (set_pi_mem m (set_pi_pipes (<[d := set_pp_ringbuffer rb (pi_pipes (d_io s) d)]> (pi_pipes (d_io s))) (d_io s)) : driver_io) s.
Lemma rb_contents_len rb : rb_ok rb -> Z.of_nat (length (rb_contents rb)) = rb_len rb.
Proof. intros [_ _ _ _ _ Hl]. rewrite rb_contents_length. lia. Qed.
Lemma wp_ring_get d buffer size (Q : Z -> dstate -> Prop) s :
  rb_ok (ring s d) ->
  (let xs := rb_contents (ring s d) in let n := Z.min (uint16 size) (Z.of_nat (length xs)) in
   forall rb', rb_ok rb' -> rb_contents rb' = drop (Z.to_nat n) xs -> rb_buffer_size rb' = rb_buffer_size (ring s d) ->
   Q n (with_ring d rb' (copy_in buffer (take (Z.to_nat n) xs) (memory s)) s)) -> wp (ring_get d buffer size) Q s.
Proof.
  intros Hok HQ. cbn zeta in HQ. rewrite (rb_contents_len _ Hok) in HQ. unfold ring_get. wp1. apply wp_pipe. fold (ring s d).
  pose proof (rt_ringbuffer_get_fifo (ring s d) (uint16 size) Hok (uint_range 16 size ltac:(lia))) as H.
  pose proof (rb_get_size (ring s d) (uint16 size)) as Hs.
  destruct (rt_ringbuffer_get _ _) as [[n bytes] rb']. destruct H as (-> & -> & Hok' & Hc). cbn [snd] in Hs.
  wp1. apply wp_mod_io. wp1. apply wp_mod_io. wp1. by apply HQ.
Qed.
Lemma wp_ring_put d buffer size (Q : Z -> dstate -> Prop) s :
  rb_ok (ring s d) ->
  (let xs := rb_contents (ring s d) in
   let n := Z.min (uint16 size) (rb_buffer_size (ring s d) - Z.of_nat (length xs)) in
   forall rb', rb_ok rb' -> rb_contents rb' = xs ++ copy_out buffer n (memory s) -> rb_buffer_size rb' = rb_buffer_size (ring s d) ->
   Q n (with_ring d rb' (memory s) s)) -> wp (ring_put false d buffer size) Q s.
Proof.
  intros Hok HQ. cbn zeta in HQ. rewrite (rb_contents_len _ Hok) in HQ. unfold ring_put. wp1. apply wp_pipe. do 2 wp1. fold (ring s d).
  pose proof (uint_range 16 size ltac:(lia)) as Hr.
  pose proof (rt_ringbuffer_put_fifo (ring s d) (copy_out buffer (uint16 size) (memory s)) (uint16 size) Hok Hr) as H.
  rewrite copy_out_length in H. specialize (H ltac:(lia)).
  pose proof (rb_put_size (ring s d) (copy_out buffer (uint16 size) (memory s)) (uint16 size)) as Hs. cbn zeta in H.
  fold (memory s). destruct (rt_ringbuffer_put _ _ _) as [n rb']. destruct H as (-> & Hok' & Hc). cbn [snd] in Hs.
  wp1. apply wp_mod_io. wp1. apply HQ; [done| |done]. rewrite Hc. f_equal.
  apply list_eq. intros i. rewrite lookup_take, !copy_out_lookup. pose proof (ok_len _ Hok). repeat case_decide; try done; lia.
Qed.
(** The first waiting thread, if any, is ready again. *)
Lemma wp_resume_waiting d block h L ws (Q : unit -> dstate -> Prop) s :
  kinv (d_core s) L -> wait_head h -> L h = Some (LTlist <$> ws) -> (ws <> [] -> has_flag (pipe_flag s d) block = true) ->
  (ws = [] -> Q tt s) ->
  (forall w ws' c' L', ws = w :: ws' -> resumed (d_core s) c' L L' h w ws' -> Q tt (set_d_core c' s)) ->
  wp (resume_waiting d block h) Q s.
Proof.
  intros H Hh HL Hf H1 H2.
  assert (wp (on_core (wake_first h)) Q s) as Hw.
  { apply wp_on_core. eapply wp_wake_first_thread; [exact H|done|exact HL|..]; [by destruct s|exact H2]. }
  assert (rt_list_isempty (k_links (d_core s)) h = bool_decide (ws = [])) as He.
  { rewrite (rep_isempty _ _ _ _ (kinv_rep _ _ H) HL). apply bool_decide_ext. by destruct ws. }
  revert Hw. unfold resume_waiting, wake_first, resume_first, wp, on_core, mbind, M_bind, pipe, gets, rt_assert, mret, M_ret. rewrite He.
  destruct ws as [|w ws']; cbn [bool_decide decide negb]; [by destruct s|].
  rewrite bool_decide_false by done. cbn [negb]. match goal with |- context [has_flag ?x block] => replace (has_flag x block) with true by (symmetry; by apply Hf) end.
  destruct (rt_thread_entry _ (d_core s)) as [[t c1]|]; [|done]. cbn [d_core set_d_core].
  destruct (rt_thread_resume t c1) as [[a c2]|]; [|done]. cbn [d_core set_d_core]. by destruct (rt_schedule c2) as [[[] c3]|].
Qed.
(** The caller waits on [h], interrupts as they were. *)
Lemma wp_pipe_block h L t ws level (Q : outcome Z Z -> dstate -> Prop) s :
  kinv (d_core s) L -> caller (d_core s) t -> wait_head h -> L h = Some (LTlist <$> ws) -> (length ws < loop_fuel)%nat -> lists_short L ->
  (forall c' L', blocked (d_core s) c' L' h t (ws ++ [t]) 0 ->
     (forall g us, wait_head g -> g <> h -> L g = Some us -> L' g = Some us) ->
     Q (Waiting t) (set_d_io (set_pi_masked level (d_io s) : driver_io) (set_d_core c' s))) ->
  wp (pipe_block h (Some t) level) Q s.
Proof.
  intros H Hca Hh HL Hlen Hsh HQ. unfold pipe_block. wp1. apply wp_on_core.
  eapply wp_suspend_on; [exact H|apply Hca|done|exact HL|done|]. intros lk g tb c1 L1 K1. wp1. apply wp_mod_io. wp1. apply wp_on_core.
  eapply (wp_block_rest (d_core s) L h t 0 ws (ws ++ [t])); [exact H|exact K1|exact Hca|exact Hh|exact HL|exact Hsh|done|].
  intros c' L' B O. wp1. by apply (HQ c' L').
Qed.

Lemma copy_out_in off l (m : Z -> Z) n : n = Z.of_nat (length l) -> copy_out off n (copy_in off l m) = l.
Proof.
  intros ->. apply list_eq. intros i. rewrite copy_out_lookup. unfold copy_in. case_decide.
  - destruct (Z.leb_spec off (off + Z.of_nat i)), (Z.ltb_spec (off + Z.of_nat i) (off + Z.of_nat (length l))); try lia. cbn [andb].
    replace (Z.to_nat (off + Z.of_nat i - off)) with i by lia. symmetry. destruct (nth_lookup_or_length l i 0); [done|lia].
  - symmetry. apply lookup_ge_None. lia.
Qed.
(** Enough of the state is as it was. *)
Lemma pipe_rep_core s s' L L' d xs xs' rs rs' ws ws' rb :
  pipe_rep s L d xs rs ws -> kinv (d_core s') L' -> ring s' d = rb -> rb_ok rb -> rb_contents rb = xs' -> pipe_flag s' d = pipe_flag s d ->
  L' (LWait WRead d) = Some (LTlist <$> rs') -> L' (LWait WWrite d) = Some (LTlist <$> ws') ->
  (rs' <> [] -> rs <> [] \/ has_flag (pipe_flag s d) RT_PIPE_FLAG_BLOCK_RD = true) ->
  (ws' <> [] -> ws <> [] \/ has_flag (pipe_flag s d) RT_PIPE_FLAG_BLOCK_WR = true) ->
  pipe_rep s' L' d xs' rs' ws'.
Proof.
  intros [P1 P2 P3 P4 P5 P6 P7] H <- Hok Hc Hf Hr Hw Br Bw. split; try done; rewrite Hf.
  - intros Hn. destruct (Br Hn); auto.
  - intros Hn. destruct (Bw Hn); auto.
Qed.
(** Nothing of the drivers has changed but the contents of the pipe [d], the memory and
    what applications keep. *)
Record same_pipe s s' d : Prop := {
  sp_masked : masked s' = masked s;
  sp_devs : d_devs s' = d_devs s;
  sp_portals : pi_portals (d_io s') = pi_portals (d_io s);
  sp_pipes : exists rb, rb_buffer_size rb = rb_buffer_size (ring s d) /\
    pi_pipes (d_io s') = <[d := set_pp_ringbuffer rb (pi_pipes (d_io s) d)]> (pi_pipes (d_io s))
}.
Lemma same_pipe_ring s s' d rb :
  masked s' = masked s -> d_devs s' = d_devs s -> pi_portals (d_io s') = pi_portals (d_io s) ->
  pi_pipes (d_io s') = <[d := set_pp_ringbuffer rb (pi_pipes (d_io s) d)]> (pi_pipes (d_io s)) ->
  rb_buffer_size rb = rb_buffer_size (ring s d) -> same_pipe s s' d.
Proof. intros. split; try done. by exists rb. Qed.
Lemma same_pipe_size s s' d : same_pipe s s' d -> rb_buffer_size (ring s' d) = rb_buffer_size (ring s d).
Proof. intros [_ _ _ (rb & Hs & E)]. unfold ring at 1. rewrite E, upd_eq. exact Hs. Qed.
Lemma same_pipe_flag s s' d : same_pipe s s' d -> pipe_flag s' d = pipe_flag s d.
Proof. intros [_ _ _ (rb & Hs & E)]. unfold pipe_flag at 1. by rewrite E, upd_eq. Qed.
Lemma same_pipe_other s s' d q : same_pipe s s' d -> q <> d -> pi_pipes (d_io s') q = pi_pipes (d_io s) q.
Proof. intros [_ _ _ (rb & Hs & E)] Hq. by rewrite E, upd_ne. Qed.
Section read.
Context s L (d : Z) (xs rs ws : list Z) (buffer size n : Z).
Hypothesis HP : pipe_rep s L d xs rs ws.
Hypothesis Hn : n = Z.min (uint16 size) (Z.of_nat (length xs)).
(** Bytes were read: they are in the caller's buffer, and the first waiting writer runs
    on. *)
Definition bytes_read (r : outcome Z Z) s' : Prop :=
  r = Returned n /\ same_pipe s s' d /\ copy_out buffer n (memory s') = take (Z.to_nat n) xs /\
  exists L', pipe_rep s' L' d (drop (Z.to_nat n) xs) rs (tl ws) /\ forall w, head ws = Some w -> thread_stat (d_core s') w = RT_THREAD_READY.
Definition read_waits (t : Z) (r : outcome Z Z) s' : Prop :=
  r = Waiting t /\ same_pipe s s' d /\
  exists L', pipe_rep s' L' d xs (rs ++ [t]) ws /\ blocked (d_core s) (d_core s') L' (LWait WRead d) t (rs ++ [t]) 0.

(** After the ring was read. *)
Definition masking s0 : dstate := set_d_io (set_pi_masked true (d_io s0) : driver_io) s0.
Lemma wp_read_done rb (Q : outcome Z Z -> dstate -> Prop) :
  rb_ok rb -> rb_contents rb = drop (Z.to_nat n) xs -> rb_buffer_size rb = rb_buffer_size (ring s d) ->
  (forall s', bytes_read (Returned n) s' -> Q (Returned n) s') ->
  wp (_rt_pipe_resume_writer d ;; irq_enable (masked s) ;; mret (Returned n))
    Q (with_ring d rb (copy_in buffer (take (Z.to_nat n) xs) (memory s)) (masking s)).
Proof.
  intros Hok Hc Hsz HQ. assert (0 <= n <= Z.of_nat (length xs)) as Hr by (pose proof (uint_range 16 size); lia).
  wp1. eapply wp_resume_waiting; [apply HP|done|apply HP|cbn; unfold pipe_flag; cbn; rewrite upd_eq; apply HP|..].
  - intros E. wp1. apply wp_mod_io. wp1. apply HQ. split; [done|]. split; [by eapply same_pipe_ring|]. split; [apply copy_out_in; rewrite length_take; lia|].
    exists L. split; [|intros w; by rewrite E].
    eapply pipe_rep_core; [exact HP|apply HP|unfold ring; cbn; rewrite upd_eq; done|done|done|unfold pipe_flag; cbn; by rewrite upd_eq|apply HP|..].
    + rewrite E. cbn [tl]. rewrite <- E. apply HP.
    + by left.
    + by rewrite E.
  - intros w ws' c' L' E Hres. wp1. apply wp_mod_io. wp1. apply HQ. split; [done|]. split; [by eapply same_pipe_ring|]. split; [apply copy_out_in; rewrite length_take; lia|].
    exists L'. rewrite E. cbn [tl head]. split; [|intros ? [= <-]; by eapply resumed_ready].
    eapply pipe_rep_core; [exact HP|apply Hres|unfold ring; cbn; rewrite upd_eq; done|done|done|unfold pipe_flag; cbn; by rewrite upd_eq|..].
    + by apply (rs_lists _ _ _ _ _ _ _ Hres); [| |apply HP].
    + apply Hres.
    + by left.
    + left. by rewrite E.
Qed.
Definition blocks_rd : Prop := has_flag (pipe_flag s d) RT_PIPE_FLAG_BLOCK_RD = true.
Lemma wp_pipe_read_loop t (Q : outcome Z Z -> dstate -> Prop) :
  (n = 0 -> blocks_rd /\ caller (d_core s) t /\ lists_short L /\ (length rs < loop_fuel)%nat) ->
  (n <> 0 -> forall s', bytes_read (Returned n) s' -> Q (Returned n) s') ->
  (n = 0 -> forall s', read_waits t (Waiting t) s' -> Q (Waiting t) s') ->
  wp (pipe_read_loop d buffer size (Some t)) Q s.
Proof.
  intros Hb H1 H2. unfold pipe_read_loop. wp1. apply wp_pipe_irq_disable. wp1. apply wp_ring_get; [apply HP|].
  cbn zeta. change (ring (set_d_io _ s) d) with (ring s d). rewrite (pr_bytes _ _ _ _ _ _ HP), <- Hn. intros rb Hok Hc Hsz.
  destruct (Z.eqb_spec n 0) as [E|E]; [|apply wp_read_done; [done|done|done|by apply H1]].
  destruct (Hb E) as (Hbl' & Hca & Hsh & Hlen).
  eapply wp_pipe_block; [apply HP|done|done|apply HP|done|done|]. intros c' L' Hbl Ho. apply H2; [done|]. split; [done|].
  split; [by eapply same_pipe_ring|].
  exists L'. split; [|exact Hbl].
  eapply pipe_rep_core; [exact HP|apply Hbl|unfold ring; cbn; rewrite upd_eq; done|done|cbn; by rewrite Hc, E|unfold pipe_flag; cbn; by rewrite upd_eq|apply Hbl|..].
  - apply (Ho (LWait WWrite d)); [done|done|apply HP].
  - by right.
  - by left.
Qed.
Lemma wp_pipe_read pos t (Q : outcome Z Z -> dstate -> Prop) :
  (blocks_rd -> caller (d_core s) t /\ lists_short L /\ (length rs < loop_fuel)%nat) ->
  (n <> 0 -> forall s', bytes_read (Returned n) s' -> Q (Returned n) s') ->
  (n = 0 -> blocks_rd -> forall s', read_waits t (Waiting t) s' -> Q (Waiting t) s') ->
  (n = 0 -> ~ blocks_rd -> forall s', same_pipe s s' d -> d_core s' = d_core s -> pipe_rep s' L d xs rs ws -> Q (Returned 0) s') ->
  wp (rt_pipe_read d pos buffer size) Q s.
Proof.
  intros Hb H1 H2 H3. unfold rt_pipe_read. wp1. apply wp_pipe. fold (pipe_flag s d).
  destruct (has_flag (pipe_flag s d) RT_PIPE_FLAG_BLOCK_RD) eqn:Ef; cbn [negb].
  - destruct (Hb Ef) as (Hca & Hsh & Hlen). do 2 wp1. unfold rt_thread_self. rewrite (ca_current _ _ Hca). wp1. apply wp_on_core. unfold RT_DEBUG_NOT_IN_INTERRUPT.
    do 2 wp1. wp1; [by apply Z.eqb_eq, (ca_nest _ _ Hca)|].
    assert (set_d_core (d_core s) s = s) as -> by (by destruct s). apply wp_pipe_read_loop; auto.
  - wp1. apply wp_pipe_irq_disable. wp1. apply wp_ring_get; [apply HP|].
    cbn zeta. change (ring (set_d_io _ s) d) with (ring s d). rewrite (pr_bytes _ _ _ _ _ _ HP), <- Hn. intros rb Hok Hc Hsz.
    destruct (Z.eqb_spec n 0) as [E|E]; cbn [negb]; [|apply wp_read_done; [done|done|done|by apply H1]].
    do 3 wp1. apply wp_mod_io. wp1. rewrite E. apply H3; [done|unfold blocks_rd; by rewrite Ef|by eapply same_pipe_ring|done|].
    eapply pipe_rep_core; [exact HP|apply HP|unfold ring; cbn; rewrite upd_eq; done|done|cbn; by rewrite Hc, E|unfold pipe_flag; cbn; by rewrite upd_eq|apply HP|apply HP|..]; by left.
Qed.
End read.

(** The receive callback of the application, if there is one: it returns, keeps the
    kernel well-formed, leaves the threads that wait on the pipe, and changes nothing
    else but the application's own state. *)
Definition app_callback s0 (d : Z) : Prop := forall f, dv_rx_indicate (d_devs s0 d) = Some f ->
  forall k s L, kinv (d_core s) L -> d_devs s = d_devs s0 -> pp_read_portal (pi_pipes (d_io s) d) = pp_read_portal (pi_pipes (d_io s0) d) ->
  exists r s' L' a, drv_call f d [k] s = Some (r, s') /\ kinv (d_core s') L' /\ (forall w, L' (LWait w d) = L (LWait w d)) /\
    d_devs s' = d_devs s /\ d_io s' = (set_pi_apps a (d_io s) : driver_io).
Lemma app_callback_same s s' d : app_callback s d -> same_pipe s s' d -> app_callback s' d.
Proof.
  intros H Hs f. rewrite (sp_devs _ _ _ Hs). destruct (sp_pipes _ _ _ Hs) as (rb & _ & E). rewrite E, upd_eq. exact (H f).
Qed.
Section write.
Context s L (d : Z) (xs rs ws : list Z) (buffer size n : Z).
Hypothesis HP : pipe_rep s L d xs rs ws.
Hypothesis Hn : n = Z.min (uint16 size) (rb_buffer_size (ring s d) - Z.of_nat (length xs)).
Hypothesis Hcall : app_callback s d.
(** Bytes were written: they follow those in the pipe, and the first waiting reader runs
    on. *)
Definition bytes_written (r : outcome Z Z) s' : Prop :=
  r = Returned n /\ same_pipe s s' d /\
  exists L', pipe_rep s' L' d (xs ++ copy_out buffer n (memory s)) (tl rs) ws /\
    forall w, head rs = Some w -> thread_stat (d_core s') w = RT_THREAD_READY.
Definition write_waits (t : Z) (r : outcome Z Z) s' : Prop :=
  r = Waiting t /\ same_pipe s s' d /\
  exists L', pipe_rep s' L' d xs rs (ws ++ [t]) /\ blocked (d_core s) (d_core s') L' (LWait WWrite d) t (ws ++ [t]) 0.
Definition blocks_wr : Prop := has_flag (pipe_flag s d) RT_PIPE_FLAG_BLOCK_WR = true.

Lemma wp_rx_indicate s1 L1 (Q : unit -> dstate -> Prop) :
  d_devs s1 = d_devs s -> pp_read_portal (pi_pipes (d_io s1) d) = pp_read_portal (pi_pipes (d_io s) d) -> kinv (d_core s1) L1 ->
  (forall s2 L2 a, kinv (d_core s2) L2 -> (forall w, L2 (LWait w d) = L1 (LWait w d)) -> d_devs s2 = d_devs s1 ->
     d_io s2 = (set_pi_apps a (d_io s1) : driver_io) -> wp (resume_waiting d RT_PIPE_FLAG_BLOCK_RD (LWait WRead d)) Q s2) ->
  wp (_rt_pipe_resume_reader d) Q s1.
Proof.
  intros Ed Er H1 HQ. unfold _rt_pipe_resume_reader. wp1. apply wp_device. wp1. apply wp_pipe. wp1. rewrite Ed.
  destruct (dv_rx_indicate (d_devs s d)) as [f|] eqn:Ef.
  2: { wp1. apply (HQ s1 L1 (pi_apps (d_io s1))); [done..|]. by destruct s1 as [? ? ? []]. }
  wp1. destruct (Hcall f Ef (rt_ringbuffer_data_len (pp_ringbuffer (pi_pipes (d_io s1) d))) s1 L1 H1 Ed Er) as (r & s2 & L2 & a & E & K & HL & Hd & Hi).
  unfold wp at 1. rewrite E. wp1. by apply (HQ s2 L2 a).
Qed.
Lemma wp_write_done rb (Q : outcome Z Z -> dstate -> Prop) :
  rb_ok rb -> rb_contents rb = xs ++ copy_out buffer n (memory s) -> rb_buffer_size rb = rb_buffer_size (ring s d) ->
  (forall s', bytes_written (Returned n) s' -> Q (Returned n) s') ->
  wp (_rt_pipe_resume_reader d ;; irq_enable (masked s) ;; mret (Returned n)) Q (with_ring d rb (memory s) (masking s)).
Proof.
  intros Hok Hc Hsz HQ. wp1. eapply (wp_rx_indicate _ L); [done|by cbn; rewrite upd_eq|apply HP|]. intros s2 L2 a K2 HL2 Hd2 Hi2.
  assert (pi_pipes (d_io s2) d = set_pp_ringbuffer rb (pi_pipes (d_io s) d)) as Ep by (rewrite Hi2; cbn; by rewrite upd_eq).
  assert (forall s3, d_devs s3 = d_devs s2 -> d_io s3 = (set_pi_masked (masked s) (d_io s2) : driver_io) -> same_pipe s s3 d) as Hsame.
  { intros s3 Hd3 Hi3. apply (same_pipe_ring _ _ _ rb); [unfold masked at 1; by rewrite Hi3|by rewrite Hd3, Hd2|by rewrite Hi3; cbn; rewrite Hi2|by rewrite Hi3; cbn; rewrite Hi2|done]. }
  assert (ring s2 d = rb) as Er by (unfold ring; by rewrite Ep). assert (pipe_flag s2 d = pipe_flag s d) as Ef by (unfold pipe_flag; by rewrite Ep).
  eapply wp_resume_waiting; [exact K2|done|rewrite HL2; apply HP|rewrite Ef; apply HP|..].
  - intros E. wp1. apply wp_mod_io. wp1. apply HQ. split; [done|]. split; [by apply Hsame|].
    exists L2. split; [|intros w; by rewrite E].
    eapply pipe_rep_core; [exact HP|exact K2|exact Er|done|done|exact Ef|rewrite HL2, E; cbn [tl]; rewrite <- E; apply HP|rewrite HL2; apply HP|by rewrite E|by left].
  - intros w rs' c' L' E Hres. wp1. apply wp_mod_io. wp1. apply HQ. split; [done|]. split; [by apply Hsame|].
    exists L'. rewrite E. cbn [tl head]. split; [|intros ? [= <-]; by eapply resumed_ready].
    eapply pipe_rep_core; [exact HP|apply Hres|exact Er|done|done|exact Ef|apply Hres| |left; by rewrite E|by left].
    apply (rs_lists _ _ _ _ _ _ _ Hres); [done|done|]. rewrite HL2. apply HP.
Qed.
Lemma wp_pipe_write_loop t (Q : outcome Z Z -> dstate -> Prop) :
  blocks_wr -> caller (d_core s) t -> lists_short L -> (length ws < loop_fuel)%nat ->
  (n <> 0 -> forall s', bytes_written (Returned n) s' -> Q (Returned n) s') ->
  (n = 0 -> forall s', write_waits t (Waiting t) s' -> Q (Waiting t) s') ->
  wp (pipe_write_loop d buffer size (Some t)) Q s.
Proof.
  intros Hb Hca Hsh Hlen H1 H2. unfold pipe_write_loop. wp1. apply wp_pipe_irq_disable. wp1. apply wp_ring_put; [apply HP|].
  cbn zeta. change (ring (set_d_io _ s) d) with (ring s d). rewrite (pr_bytes _ _ _ _ _ _ HP), <- Hn. intros rb Hok Hc Hsz.
  destruct (Z.eqb_spec n 0) as [E|E]; [|apply wp_write_done; [done|done|done|by apply H1]].
  eapply wp_pipe_block; [apply HP|done|done|apply HP|done|done|]. intros c' L' Hbl Ho. apply H2; [done|]. split; [done|].
  split; [by eapply same_pipe_ring|].
  exists L'. split; [|exact Hbl].
  eapply pipe_rep_core; [exact HP|apply Hbl|unfold ring; cbn; rewrite upd_eq; done|done|cbn; rewrite Hc, E; apply app_nil_r|unfold pipe_flag; cbn; by rewrite upd_eq| |apply Hbl|..].
  - apply (Ho (LWait WRead d)); [done|done|apply HP].
  - by left.
  - by right.
Qed.
Lemma wp_pipe_write pos t (Q : outcome Z Z -> dstate -> Prop) :
  has_flag (pipe_flag s d) RT_PIPE_FLAG_FORCE_WR = false ->
  (blocks_wr -> caller (d_core s) t /\ lists_short L /\ (length ws < loop_fuel)%nat) ->
  (n <> 0 \/ ~ blocks_wr -> forall s', bytes_written (Returned n) s' -> Q (Returned n) s') ->
  (n = 0 -> blocks_wr -> forall s', write_waits t (Waiting t) s' -> Q (Waiting t) s') ->
  wp (rt_pipe_write d pos buffer size) Q s.
Proof.
  intros Hfo Hb H1 H2. unfold rt_pipe_write. wp1. apply wp_pipe. fold (pipe_flag s d). rewrite Hfo. cbn [orb].
  destruct (has_flag (pipe_flag s d) RT_PIPE_FLAG_BLOCK_WR) eqn:Ef; cbn [negb].
  - destruct (Hb Ef) as (Hca & Hsh & Hlen). do 2 wp1. unfold rt_thread_self. rewrite (ca_current _ _ Hca). wp1. apply wp_on_core. unfold RT_DEBUG_NOT_IN_INTERRUPT.
    do 2 wp1. wp1; [by apply Z.eqb_eq, (ca_nest _ _ Hca)|].
    assert (set_d_core (d_core s) s = s) as -> by (by destruct s). apply wp_pipe_write_loop; auto.
  - wp1. apply wp_pipe_irq_disable. wp1. apply wp_ring_put; [apply HP|].
    cbn zeta. change (ring (set_d_io _ s) d) with (ring s d). rewrite (pr_bytes _ _ _ _ _ _ HP), <- Hn. intros rb Hok Hc Hsz.
    apply wp_write_done; [done|done|done|]. apply H1. right. unfold blocks_wr. by rewrite Ef.
Qed.
End write.

(** rt_pipe_read takes the oldest bytes out of the pipe into the caller's buffer, and makes
    the first waiting writer ready; when there is nothing to take, a pipe that blocks
    readers suspends the caller behind the others, any other pipe returns 0. *)
Theorem rt_pipe_read_refines s L d pos buffer size t xs rs ws :
  pipe_rep s L d xs rs ws -> (blocks_rd s d -> caller (d_core s) t /\ lists_short L /\ (length rs < loop_fuel)%nat) ->
  let n := Z.min (uint16 size) (Z.of_nat (length xs)) in
  exists r s' L', rt_pipe_read d pos buffer size s = Some (r, s') /\ same_pipe s s' d /\
    if n =? 0 then
      if has_flag (pipe_flag s d) RT_PIPE_FLAG_BLOCK_RD then
        r = Waiting t /\ pipe_rep s' L' d xs (rs ++ [t]) ws /\ blocked (d_core s) (d_core s') L' (LWait WRead d) t (rs ++ [t]) 0
      else r = Returned 0 /\ pipe_rep s' L' d xs rs ws /\ d_core s' = d_core s
    else r = Returned n /\ copy_out buffer n (memory s') = take (Z.to_nat n) xs /\
      pipe_rep s' L' d (drop (Z.to_nat n) xs) rs (tl ws) /\ forall w, head ws = Some w -> thread_stat (d_core s') w = RT_THREAD_READY.
Proof.
  intros HP Hb n. match goal with |- exists r s' L', _ /\ @?P r s' L' =>
    assert (wp (rt_pipe_read d pos buffer size) (fun r s' => exists L', P r s' L') s) as Hw end.
  { cbn beta. eapply (wp_pipe_read s L d xs rs ws buffer size n HP eq_refl pos t); [exact Hb|..].
    - intros Hn s' (_ & Hm & Hc & L' & HR & HW). exists L'. destruct (Z.eqb_spec n 0); [done|]. done.
    - intros -> -> s' (_ & Hm & L' & HR & HB). by exists L'.
    - intros -> Hnb s' Hm Hc HR. exists L. unfold blocks_rd in Hnb. by destruct (has_flag _ _). }
  apply wp_run in Hw as (r & s' & E & L' & H). by exists r, s', L'.
Qed.
(** rt_pipe_write, on a pipe that does not force writes, appends as many bytes as there is
    room for, and makes the first waiting reader ready; when the pipe is full and blocks
    writers, the caller is suspended behind the others. *)
Theorem rt_pipe_write_refines s L d pos buffer size t xs rs ws :
  pipe_rep s L d xs rs ws -> app_callback s d ->
  has_flag (pipe_flag s d) RT_PIPE_FLAG_FORCE_WR = false ->
  (blocks_wr s d -> caller (d_core s) t /\ lists_short L /\ (length ws < loop_fuel)%nat) ->
  let n := Z.min (uint16 size) (rb_buffer_size (ring s d) - Z.of_nat (length xs)) in
  exists r s' L', rt_pipe_write d pos buffer size s = Some (r, s') /\ same_pipe s s' d /\
    if (n =? 0) && has_flag (pipe_flag s d) RT_PIPE_FLAG_BLOCK_WR then
      r = Waiting t /\ pipe_rep s' L' d xs rs (ws ++ [t]) /\ blocked (d_core s) (d_core s') L' (LWait WWrite d) t (ws ++ [t]) 0
    else r = Returned n /\ pipe_rep s' L' d (xs ++ copy_out buffer n (memory s)) (tl rs) ws /\
      forall w, head rs = Some w -> thread_stat (d_core s') w = RT_THREAD_READY.
Proof.
  intros HP Hc Hf Hb n. match goal with |- exists r s' L', _ /\ @?P r s' L' =>
    assert (wp (rt_pipe_write d pos buffer size) (fun r s' => exists L', P r s' L') s) as Hw end.
  { cbn beta. eapply (wp_pipe_write s L d xs rs ws buffer size n HP eq_refl Hc pos t); [exact Hf|exact Hb|..].
    - intros Hn s' (_ & Hm & L' & HR & HW). exists L'. split; [done|]. unfold blocks_wr in Hn.
      destruct (Z.eqb_spec n 0), (has_flag (pipe_flag s d) RT_PIPE_FLAG_BLOCK_WR); try done. by destruct Hn.
    - intros -> -> s' (_ & Hm & L' & HR & HB). by exists L'. }
  apply wp_run in Hw as (r & s' & E & L' & H). by exists r, s', L'.
Qed.
(** A reader that waits on an empty pipe is made ready by the next write, and returns with
    the bytes written. *)
Theorem rt_pipe_handoff s L d pos buffer size t pos' buffer' k :
  pipe_rep s L d [] [] [] -> blocks_rd s d -> has_flag (pipe_flag s d) RT_PIPE_FLAG_FORCE_WR = false -> ~ blocks_wr s d ->
  app_callback s d ->
  caller (d_core s) t -> lists_short L -> 0 < size < 65536 -> 0 < k < 65536 -> k <= rb_buffer_size (ring s d) ->
  exists s1 s2 s3, rt_pipe_read d pos buffer size s = Some (Waiting t, s1) /\ rt_pipe_write d pos' buffer' k s1 = Some (Returned k, s2) /\
    thread_stat (d_core s2) t = RT_THREAD_READY /\
    rt_pipe_read_resumed d buffer size t s2 = Some (Returned (Z.min size k), s3) /\
    copy_out buffer (Z.min size k) (memory s3) = take (Z.to_nat (Z.min size k)) (copy_out buffer' k (memory s1)).
Proof.
  intros HP Hrd Hf Hwr Hcb Hca Hsh Hsize Hk Hcap. pose proof (pr_ring _ _ _ _ _ _ HP) as Hok.
  assert (wp (rt_pipe_read d pos buffer size) (fun r s1 => r = Waiting t /\ wp (rt_pipe_write d pos' buffer' k) (fun r s2 => r = Returned k /\
     thread_stat (d_core s2) t = RT_THREAD_READY /\ wp (rt_pipe_read_resumed d buffer size t) (fun r s3 => r = Returned (Z.min size k) /\
     copy_out buffer (Z.min size k) (memory s3) = take (Z.to_nat (Z.min size k)) (copy_out buffer' k (memory s1))) s2) s1) s) as Hw.
  { eapply (wp_pipe_read s L d [] [] [] buffer size 0 HP); [cbn; pose proof (uint_range 16 size); lia| |done| |done].
    { intros _. split; [done|]. split; [done|]. cbn. pose proof loop_fuel_pos. lia. }
    intros _ _ s1 (_ & Hs1 & L1 & HP1 & Hbl). split; [done|]. pose proof (same_pipe_flag _ _ _ Hs1) as Ef1.
    eapply (wp_pipe_write s1 L1 d [] [t] [] buffer' k k HP1) with (t := t).
    1: { rewrite (same_pipe_size _ _ _ Hs1). cbn. rewrite uint_small; lia. }
    1: by eapply app_callback_same. 1: by rewrite Ef1. 1: by unfold blocks_wr; rewrite Ef1. 2: lia.
    intros _ s2 (_ & Hs2 & L2 & HP2 & Hready). split; [done|]. split; [by apply Hready|].
    assert (Z.of_nat (length ([] ++ copy_out buffer' k (memory s1))) = k) as El by (cbn; rewrite copy_out_length; lia).
    eapply (wp_pipe_read_loop s2 L2 d _ [] [] buffer size (Z.min size k) HP2); [rewrite El, uint_small; lia|lia| |lia].
    intros _ s3 (_ & _ & Hc & _). by split. }
  apply wp_run in Hw as (r & s1 & E1 & -> & Hw). apply wp_run in Hw as (r & s2 & E2 & -> & Hst & Hw).
  apply wp_run in Hw as (r & s3 & E3 & -> & Hc). by exists s1, s2, s3.
Qed.
(** Two readers wait; a write of several bytes wakes the first, which reads one byte and
    returns.  The second still waits, although there are bytes for it in the pipe. *)
Theorem rt_pipe_reader_left_behind s L d t1 t2 pos' buffer' k buffer :
  pipe_rep s L d [] [t1; t2] [] -> has_flag (pipe_flag s d) RT_PIPE_FLAG_FORCE_WR = false -> ~ blocks_wr s d -> app_callback s d ->
  1 < k < 65536 -> k <= rb_buffer_size (ring s d) ->
  exists s1 s2 L2 xs, rt_pipe_write d pos' buffer' k s = Some (Returned k, s1) /\
    rt_pipe_read_resumed d buffer 1 t1 s1 = Some (Returned 1, s2) /\
    pipe_rep s2 L2 d xs [t2] [] /\ Z.of_nat (length xs) = k - 1.
Proof.
  intros HP Hf Hwr Hcb Hk Hcap.
  assert (wp (rt_pipe_write d pos' buffer' k) (fun r s1 => r = Returned k /\ wp (rt_pipe_read_resumed d buffer 1 t1) (fun r s2 => r = Returned 1 /\
    exists L2 xs, pipe_rep s2 L2 d xs [t2] [] /\ Z.of_nat (length xs) = k - 1) s1) s) as Hw.
  { eapply (wp_pipe_write s L d [] [t1; t2] [] buffer' k k HP) with (t := t1); [cbn; rewrite uint_small; lia|done|done|done| |lia].
    intros _ s1 (_ & _ & L1 & HP1 & _). split; [done|]. rewrite app_nil_l in HP1.
    assert (Z.of_nat (length (copy_out buffer' k (memory s))) = k) as El by (rewrite copy_out_length; lia).
    eapply (wp_pipe_read_loop s1 L1 d _ [t2] [] buffer 1 1 HP1); [rewrite El, uint_small; lia|lia| |lia].
    intros _ s2 (_ & _ & _ & L2 & HP2 & _). split; [done|]. exists L2, (drop (Z.to_nat 1) (copy_out buffer' k (memory s))). split; [exact HP2|]. rewrite length_drop. lia. }
  apply wp_run in Hw as (r & s1 & E1 & -> & Hw). apply wp_run in Hw as (r & s2 & E2 & -> & L2 & xs & H). by exists s1, s2, L2, xs.
Qed.

(** *** The stream of bytes *)
Lemma wlp_on_core {A} (m : M kcore A) (Q : A -> dstate -> Prop) s : (forall a c, Q a (set_d_core c s)) -> wlp (on_core m) Q s.
Proof. unfold wlp, on_core. intros H a s'. destruct (m (d_core s)) as [[b c]|]; [|done]. intros [= <- <-]. apply H. Qed.
(** [m] leaves the pipe and the memory alone, if it returns. *)
Definition untouched {A} (d : Z) (m : M dstate A) s : Prop :=
  wlp m (fun _ s' => pi_pipes (d_io s') d = pi_pipes (d_io s) d /\ memory s' = memory s) s.
Lemma resume_waiting_untouched d block h s : untouched d (resume_waiting d block h) s.
Proof.
  unfold untouched, resume_waiting, pipe. do 2 wlp1. destruct (negb _); [|by wlp1]. do 6 wlp1.
  wlp1. apply wlp_on_core. intros w c. wlp1. apply wlp_on_core. intros e c'. by apply wlp_on_core.
Qed.
Lemma pipe_block_untouched d h self level s : untouched d (pipe_block h self level) s /\ wlp (pipe_block h self level) (fun r _ => exists t, r = Waiting t) s.
Proof.
  unfold untouched, pipe_block, irq_enable, mod_io. destruct self as [t|]; [|split; apply wlp_diverge].
  split; (wlp1; apply wlp_on_core; intros a c; do 3 wlp1; apply wlp_on_core; intros e c'; wlp1); [done|by exists t].
Qed.
Definition transferred (r : outcome Z Z) : Z := match r with Returned n => n | Waiting _ => 0 end.
(** The bytes [out] left the pipe and the bytes [inn] entered it. *)
Definition moved d s s' (out inn : list Z) : Prop :=
  rb_ok (ring s' d) /\ pipe_flag s' d = pipe_flag s d /\ out ++ rb_contents (ring s' d) = rb_contents (ring s d) ++ inn.
Lemma moved_ring d s s' rb out inn : pi_pipes (d_io s') d = set_pp_ringbuffer rb (pi_pipes (d_io s) d) -> rb_ok rb ->
  out ++ rb_contents rb = rb_contents (ring s d) ++ inn -> moved d s s' out inn.
Proof. intros E Hok Hc. unfold moved, ring, pipe_flag. by rewrite E. Qed.

Lemma wlp_untouched {A B} d (m : M dstate A) (f : A -> M dstate B) (Q : B -> dstate -> Prop) s :
  untouched d m s -> (forall a s', pi_pipes (d_io s') d = pi_pipes (d_io s) d -> memory s' = memory s -> wlp (f a) Q s') -> wlp (mbind f m) Q s.
Proof. intros H Hf. apply wlp_bind. eapply wlp_mono; [exact H|]. intros a s' [E1 E2]. by apply Hf. Qed.
(** The end of a transfer. *)
Lemma wlp_transfer_end d (m : M dstate unit) level n (Q : outcome Z Z -> dstate -> Prop) s :
  untouched d m s -> (forall s', pi_pipes (d_io s') d = pi_pipes (d_io s) d -> memory s' = memory s -> Q (Returned n) s') ->
  wlp (m ;; irq_enable level ;; mret (Returned n)) Q s.
Proof. intros H HQ. eapply wlp_untouched; [exact H|]. intros [] s1 E1 E2. unfold irq_enable, mod_io. do 3 wlp1. by apply HQ. Qed.
Lemma wlp_block_end d h self level (Q : outcome Z Z -> dstate -> Prop) s :
  (forall t s', pi_pipes (d_io s') d = pi_pipes (d_io s) d -> memory s' = memory s -> Q (Waiting t) s') -> wlp (pipe_block h self level) Q s.
Proof.
  intros HQ r s' E. destruct (pipe_block_untouched d h self level s) as [H1 H2].
  destruct (H1 _ _ E) as [E1 E2]. destruct (H2 _ _ E) as [t ->]. by apply HQ.
Qed.
Definition read_moves d buffer s (r : outcome Z Z) s' : Prop := moved d s s' (copy_out buffer (transferred r) (memory s')) [].
Lemma read_moves_bytes d buffer n rb s s' :
  rb_ok (ring s d) -> rb_ok rb -> rb_contents rb = drop (Z.to_nat n) (rb_contents (ring s d)) -> 0 <= n <= Z.of_nat (length (rb_contents (ring s d))) ->
  pi_pipes (d_io s') d = set_pp_ringbuffer rb (pi_pipes (d_io s) d) ->
  memory s' = copy_in buffer (take (Z.to_nat n) (rb_contents (ring s d))) (memory s) -> read_moves d buffer s (Returned n) s'.
Proof.
  intros Hok0 Hok Hc Hn Ep Em. apply (moved_ring _ _ _ rb); [done|done|]. rewrite Em. cbn [transferred].
  rewrite copy_out_in by (rewrite length_take; lia). by rewrite Hc, app_nil_r, take_drop.
Qed.
Lemma pipe_read_loop_moves d buffer size self s : rb_ok (ring s d) -> wlp (pipe_read_loop d buffer size self) (read_moves d buffer s) s.
Proof.
  intros Hok. unfold pipe_read_loop. wlp1. apply wp_wlp, wp_pipe_irq_disable. wlp1. apply wp_wlp, wp_ring_get; [done|]. cbn zeta.
  change (ring (set_d_io _ s) d) with (ring s d). intros rb Hok' Hc _. pose proof (uint_range 16 size ltac:(lia)) as Hr.
  set (n := Z.min (uint16 size) _) in *.
  destruct (Z.eqb_spec n 0) as [E|E].
  - apply (wlp_block_end d). intros t s' E1 E2. apply (moved_ring _ _ _ rb); [|done|].
    + rewrite E1. cbn. by rewrite upd_eq.
    + cbn. by rewrite Hc, E, app_nil_r.
  - apply (wlp_transfer_end d); [apply resume_waiting_untouched|]. intros s' E1 E2. eapply read_moves_bytes; [done|done|exact Hc|lia| |].
    + rewrite E1. cbn. by rewrite upd_eq.
    + by rewrite E2.
Qed.
Lemma rt_pipe_read_moves d pos buffer size s : rb_ok (ring s d) -> wlp (rt_pipe_read d pos buffer size) (read_moves d buffer s) s.
Proof.
  intros Hok. unfold rt_pipe_read, pipe. do 2 wlp1. destruct (negb _).
  2: { do 2 wlp1. wlp1. apply wlp_on_core. intros [] c.
       eapply wlp_mono; [by apply pipe_read_loop_moves|]. intros r s' H. exact H. }
  wlp1. apply wp_wlp, wp_pipe_irq_disable. wlp1. apply wp_wlp, wp_ring_get; [done|]. cbn zeta.
  change (ring (set_d_io _ s) d) with (ring s d). intros rb Hok' Hc _. pose proof (uint_range 16 size ltac:(lia)) as Hr.
  set (n := Z.min (uint16 size) _) in *. apply (wlp_transfer_end d).
  - destruct (negb _); [apply resume_waiting_untouched|by apply wlp_ret].
  - intros s' E1 E2. eapply read_moves_bytes; [done|done|exact Hc|lia| |].
    + rewrite E1. cbn. by rewrite upd_eq.
    + by rewrite E2.
Qed.
(** The receive callback does not touch the pipe. *)
Definition callback_leaves d s : Prop := forall f, dv_rx_indicate (d_devs s d) = Some f ->
  forall k s1, wlp (drv_call f d [k]) (fun _ s2 => pi_pipes (d_io s2) d = pi_pipes (d_io s1) d) s1.
Definition write_moves d buffer s (r : outcome Z Z) s' : Prop := moved d s s' [] (copy_out buffer (transferred r) (memory s)).
Lemma wlp_write_end d rb level buffer n s s1 :
  callback_leaves d s -> d_devs s1 = d_devs s -> pi_pipes (d_io s1) d = set_pp_ringbuffer rb (pi_pipes (d_io s) d) -> rb_ok rb ->
  rb_contents rb = rb_contents (ring s d) ++ copy_out buffer n (memory s) ->
  wlp (_rt_pipe_resume_reader d ;; irq_enable level ;; mret (Returned n)) (write_moves d buffer s) s1.
Proof.
  intros Hl Ed Ep Hok Hc. wlp1. unfold _rt_pipe_resume_reader, device, pipe. do 5 wlp1. rewrite Ed.
  eapply (wlp_mono _ (fun _ s2 => pi_pipes (d_io s2) d = pi_pipes (d_io s1) d)).
  - destruct (dv_rx_indicate (d_devs s d)) as [f|] eqn:Ef; [|by wlp1].
    wlp1. eapply wlp_mono; [by apply (Hl f Ef)|]. intros r s2 E. by wlp1.
  - intros [] s2 E. eapply wlp_mono; [apply resume_waiting_untouched|]. intros [] s3 [E3 _]. unfold irq_enable, mod_io. do 3 wlp1.
    apply (moved_ring _ _ _ rb); [etrans; [exact E3|by etrans; [exact E|exact Ep]]|done|by rewrite Hc].
Qed.
Lemma pipe_write_loop_moves d buffer size self s : rb_ok (ring s d) -> callback_leaves d s -> wlp (pipe_write_loop d buffer size self) (write_moves d buffer s) s.
Proof.
  intros Hok Hl. unfold pipe_write_loop. wlp1. apply wp_wlp, wp_pipe_irq_disable. wlp1. apply wp_wlp, wp_ring_put; [done|]. cbn zeta.
  change (ring (set_d_io _ s) d) with (ring s d). intros rb Hok' Hc _. set (n := Z.min (uint16 size) _) in *.
  destruct (Z.eqb_spec n 0) as [E|E].
  - apply (wlp_block_end d). intros t s' E1 E2. apply (moved_ring _ _ _ rb); [|done|by rewrite Hc, E].
    rewrite E1. cbn. by rewrite upd_eq.
  - eapply wlp_write_end; [exact Hl|done|cbn; by rewrite upd_eq|done|exact Hc].
Qed.
Lemma rt_pipe_write_moves d pos buffer size s :
  rb_ok (ring s d) -> callback_leaves d s -> has_flag (pipe_flag s d) RT_PIPE_FLAG_FORCE_WR = false ->
  wlp (rt_pipe_write d pos buffer size) (write_moves d buffer s) s.
Proof.
  intros Hok Hl Hf. unfold rt_pipe_write. wlp1. apply wp_wlp, wp_pipe. fold (pipe_flag s d). rewrite Hf. cbn [orb]. destruct (negb _).
  2: { do 2 wlp1. wlp1. apply wlp_on_core. intros [] c.
       eapply wlp_mono; [by apply pipe_write_loop_moves|]. intros r s' H. exact H. }
  wlp1. apply wp_wlp, wp_pipe_irq_disable. wlp1. apply wp_wlp, wp_ring_put; [done|]. cbn zeta.
  change (ring (set_d_io _ s) d) with (ring s d). intros rb Hok' Hc _.
  eapply wlp_write_end; [exact Hl|done|cbn; by rewrite upd_eq|done|exact Hc].
Qed.
(** Any number of threads and interrupts read from and write to the pipe, some of them
    waiting in between, while the rest of the system does anything but touch the
    pipe: [ins] are the bytes accepted so far, [outs] the bytes delivered. *)
Inductive pipe_run d s0 : list Z -> list Z -> dstate -> Prop :=
| run_start : pipe_run d s0 [] [] s0
| run_read ins outs s pos buffer size r s' :
    pipe_run d s0 ins outs s ->
    rt_pipe_read d pos buffer size s = Some (r, s') \/ (exists t, rt_pipe_read_resumed d buffer size t s = Some (r, s')) ->
    pipe_run d s0 ins (outs ++ copy_out buffer (transferred r) (memory s')) s'
| run_write ins outs s pos buffer size r s' :
    pipe_run d s0 ins outs s -> callback_leaves d s ->
    rt_pipe_write d pos buffer size s = Some (r, s') \/ (exists t, rt_pipe_write_resumed d buffer size t s = Some (r, s')) ->
    pipe_run d s0 (ins ++ copy_out buffer (transferred r) (memory s)) outs s'
| run_other ins outs s s' :
    pipe_run d s0 ins outs s -> pi_pipes (d_io s') d = pi_pipes (d_io s) d -> pipe_run d s0 ins outs s'.
(** C34 No byte is lost, duplicated or reordered by a pipe that does not force writes: at any
    time, the bytes delivered followed by those in the pipe are those that were in it
    at first followed by those accepted; and the pipe never holds more than its size. *)
Theorem rt_pipe_stream d s0 ins outs s :
  pipe_run d s0 ins outs s -> rb_ok (ring s0 d) -> has_flag (pipe_flag s0 d) RT_PIPE_FLAG_FORCE_WR = false ->
  outs ++ rb_contents (ring s d) = rb_contents (ring s0 d) ++ ins /\
  Z.of_nat (length (rb_contents (ring s d))) <= rb_buffer_size (ring s d).
Proof.
  intros Hrun Hok Hf. assert (moved d s0 s outs ins) as (Hok' & _ & Hc).
  2: { split; [done|]. rewrite rb_contents_len by done. apply Hok'. }
  induction Hrun as [|i o s pos buffer size r s' _ IH Hr|i o s pos buffer size r s' _ IH Hl Hw|i o s s' _ IH E].
  - unfold moved. by rewrite app_nil_r.
  - destruct IH as (K1 & K2 & K3). assert (read_moves d buffer s r s') as (M1 & M2 & M3).
    { destruct Hr as [E|[t E]]; [exact (rt_pipe_read_moves _ _ _ _ _ K1 _ _ E)|exact (pipe_read_loop_moves _ _ _ _ _ K1 _ _ E)]. }
    split; [done|]. split; [congruence|]. rewrite <- app_assoc, M3, app_nil_r. exact K3.
  - destruct IH as (K1 & K2 & K3). assert (write_moves d buffer s r s') as (M1 & M2 & M3).
    { destruct Hw as [E|[t E]]; [refine (rt_pipe_write_moves _ _ _ _ _ K1 Hl _ _ _ E); by rewrite K2|exact (pipe_write_loop_moves _ _ _ _ _ K1 Hl _ _ E)]. }
    split; [done|]. split; [congruence|]. rewrite app_nil_l in M3. by rewrite M3, !app_assoc, K3.
  - unfold moved, ring, pipe_flag in *. by rewrite E.
Qed.
End pipe_spec.
