(* ===== verification/Portal.v ===== *)
(** Portal devices (components/drivers/src/portal.c): a device that writes into one pipe and
    reads from another, so that two portals on two pipes make a connection in both
    directions; and the drivers of pipes and portals as the device framework calls them. *)
From S2P Require Import Prelude RtList Kservice Kernel Scheduler Object TimerCore Invariant Thread Timer Ipc DriverIpc.
From S2P Require Import RingBuffer Device Pipe.

Definition RT_Device_Class_Portal : Z := 16.
Definition RT_DEVICE_OFLAG_RDONLY : Z := 1.
Definition RT_DEVICE_OFLAG_WRONLY : Z := 2.

Section portal.
Context {cfg : Config} {kh : KHeap} {app : Apps} {drv : Drivers} {sz : ObjectSizes} {st : StaticThreads} {dc : DriverCode}.

Definition portal (d : Z) : M dstate rt_portal_device := gets (fun s => pi_portals (d_io s) d).
Definition mod_portal (d : Z) (f : rt_portal_device -> rt_portal_device) : M dstate unit :=
  mod_io (fun i => set_pi_portals (<[d := f (pi_portals i d)]> (pi_portals i)) i).
(** [RT_ASSERT(dev != RT_NULL)] of the functions of device.c. *)
Definition nonnull (p : option Z) : M dstate Z := match p with Some d => mret d | None => diverge end.

Definition _portal_init (d : Z) : M dstate Z :=
  p ← portal d;
  write_dev ← nonnull (pt_write_dev p);
  err ← rt_device_init write_dev;
  if negb (err =? RT_EOK) then mret err
  else
    p ← portal d;
    read_dev ← nonnull (pt_read_dev p);
    rt_device_init read_dev.
Definition _portal_open (d oflag : Z) : M dstate Z :=
  if oflag =? 0 then mret (- RT_ERROR)
  else
    err ← (if has_flag oflag RT_DEVICE_OFLAG_RDONLY then
             p ← portal d; read_dev ← nonnull (pt_read_dev p); rt_device_open read_dev RT_DEVICE_OFLAG_RDONLY
           else mret RT_EOK);
    if negb (err =? RT_EOK) then mret err
    else
      err ← (if has_flag oflag RT_DEVICE_OFLAG_WRONLY then
               p ← portal d; write_dev ← nonnull (pt_write_dev p); rt_device_open write_dev RT_DEVICE_OFLAG_WRONLY
             else mret RT_EOK);
      if negb (err =? RT_EOK) then mret err else mret RT_EOK.
Definition _portal_close (d : Z) : M dstate Z :=
  p ← portal d;
  write_dev ← nonnull (pt_write_dev p);
  _ ← rt_device_close write_dev;
  p ← portal d;
  read_dev ← nonnull (pt_read_dev p);
  _ ← rt_device_close read_dev;
  mret RT_EOK.
Definition _portal_read (d pos buffer size : Z) : M dstate Z :=
  p ← portal d;
  read_dev ← nonnull (pt_read_dev p);
  rt_device_read read_dev pos buffer size.
Definition _portal_write (d pos buffer size : Z) : M dstate Z :=
  p ← portal d;
  write_dev ← nonnull (pt_write_dev p);
  rt_device_write write_dev pos buffer size.
(** The callbacks installed on the pipes; [d] is the pipe. *)
Definition _portal_rx_indicate (d size : Z) : M dstate Z :=
  dv ← device d;
  rt_assert (dv_type dv =? RT_Device_Class_Pipe) ;;
  p ← pipe d;
  read_portal ← nonnull (pp_read_portal p);
  pv ← device read_portal;
  match dv_rx_indicate pv with
  | Some f => drv_call f read_portal [size]
  | None => mret (- RT_ENOSYS)
  end.
Definition _portal_tx_complete (d buf : Z) : M dstate Z :=
  dv ← device d;
  rt_assert (dv_type dv =? RT_Device_Class_Pipe) ;;
  p ← pipe d;
  write_portal ← nonnull (pp_write_portal p);
  pv ← device write_portal;
  match dv_tx_complete pv with
  | Some f => drv_call f write_portal [buf]
  | None => mret (- RT_ENOSYS)
  end.

Definition find_device (name : list Z) : M dstate (option Z) :=
  o ← on_core (rt_device_find name);
  mret (match o with Some (ODevice d) => Some d | _ => None end).
(** When the device to read from is not found, the callback is set on the null pointer
    that was found, which fails the assertion of rt_device_set_tx_complete. *)
Definition rt_portal_init (portal : Z) (portal_name write_dev read_dev : list Z) : M dstate Z :=
  mod_device portal (set_dv_type RT_Device_Class_Portal) ;;
  mod_device portal (set_dv_init (Some (fn_addr FnPortalInit))) ;;
  mod_device portal (set_dv_open (Some (fn_addr FnPortalOpen))) ;;
  mod_device portal (set_dv_close (Some (fn_addr FnPortalClose))) ;;
  mod_device portal (set_dv_write (Some (fn_addr FnPortalWrite))) ;;
  mod_device portal (set_dv_read (Some (fn_addr FnPortalRead))) ;;
  mod_device portal (set_dv_control None) ;;
  wd ← find_device write_dev;
  match wd with
  | None => mret (- RT_ENOSYS)
  | Some dev =>
    dv ← device dev;
    rt_assert (dv_type dv =? RT_Device_Class_Pipe) ;;
    mod_portal portal (set_pt_write_dev (Some dev)) ;;
    _ ← rt_device_set_tx_complete portal (dv_tx_complete dv);
    _ ← rt_device_set_tx_complete dev (Some (fn_addr FnPortalTxComplete));
    mod_pipe dev (set_pp_write_portal (Some portal)) ;;
    rd ← find_device read_dev;
    match rd with
    | None =>
      dev ← nonnull rd;
      pv ← device portal;
      _ ← rt_device_set_tx_complete dev (dv_tx_complete pv);
      mret (- RT_ENOSYS)
    | Some dev =>
      dv ← device dev;
      rt_assert (dv_type dv =? RT_Device_Class_Pipe) ;;
      mod_portal portal (set_pt_read_dev (Some dev)) ;;
      _ ← rt_device_set_rx_indicate portal (dv_rx_indicate dv);
      _ ← rt_device_set_rx_indicate dev (Some (fn_addr FnPortalRxIndicate));
      mod_pipe dev (set_pp_read_portal (Some portal)) ;;
      rt_device_register (Some portal) portal_name RT_DEVICE_FLAG_RDWR
    end
  end.
Definition rt_portal_detach (portal : Z) : M dstate Z := rt_device_unregister portal.
Definition rt_portal_create (name write_dev read_dev : list Z) : M dstate Z :=
  p ← on_core (RT_KERNEL_MALLOC sizeof_portal);
  match p with
  | None => mret (- RT_ENOMEM)
  | Some d =>
    on_core (mod_object (ODevice d) (fun _ => mk_object [] 0 0)) ;;
    mod_device d (fun _ => zero_device) ;;
    mod_portal d (fun _ => mk_portal None None) ;;
    rt_portal_init d name write_dev read_dev
  end.
Definition rt_portal_destroy (portal : option Z) : M dstate unit :=
  match portal with
  | None => mret tt
  | Some d => _ ← rt_portal_detach d; on_core (RT_KERNEL_FREE d)
  end.

(** ** Calls through function pointers *)
(** A transfer that does not wait. *)
Definition returned (m : M dstate (outcome Z Z)) : M dstate Z :=
  r ← m; match r with Returned n => mret n | Waiting _ => diverge end.
(** The functions of both drivers by their addresses; any other address is a function of
    an application. *)
Definition dispatch (apps : Z -> Z -> list Z -> M dstate Z) (f d : Z) (args : list Z) : M dstate Z :=
  match args with
  | [pos; buffer; size] =>
    if f =? fn_addr FnPipeRead then returned (rt_pipe_read d pos buffer size)
    else if f =? fn_addr FnPipeWrite then returned (rt_pipe_write d pos buffer size)
    else if f =? fn_addr FnPortalRead then _portal_read d pos buffer size
    else if f =? fn_addr FnPortalWrite then _portal_write d pos buffer size
    else apps f d args
  | [cmd; arg] =>
    if f =? fn_addr FnPipeControl then
      rt_pipe_control d cmd arg
    else apps f d args
  | [x] =>
    if f =? fn_addr FnPortalOpen then _portal_open d x
    else if f =? fn_addr FnPortalRxIndicate then _portal_rx_indicate d x
    else if f =? fn_addr FnPortalTxComplete then _portal_tx_complete d x
    else apps f d args
  | [] =>
    if f =? fn_addr FnPortalInit then _portal_init d
    else if f =? fn_addr FnPortalClose then _portal_close d
    else apps f d args
  | _ => apps f d args
  end.
End portal.

(** The drivers call one another to a depth of at most [n]. *)
Section linked.
Context {cfg : Config} {kh : KHeap} {app : Apps} {sz : ObjectSizes} {st : StaticThreads} {dc : DriverCode}.
Context (apps : Z -> Z -> list Z -> M dstate Z) (print : Z -> Z -> M dstate unit).
Fixpoint linked (n : nat) : Drivers := {|
  drv_call := match n with O => apps | S n => dispatch (drv := linked n) apps end;
  print_init_error := print
|}.

(** ** A connection *)
(** What portal [a] writes goes into the pipe [p], from which portal [b] reads; the
    pipe does not block. *)
Record portal_link (s : dstate) (a b p : Z) : Prop := {
  pl_write_dev : pt_write_dev (pi_portals (d_io s) a) = Some p;
  pl_read_dev : pt_read_dev (pi_portals (d_io s) b) = Some p;
  pl_write : dv_write (d_devs s a) = Some (fn_addr FnPortalWrite);
  pl_read : dv_read (d_devs s b) = Some (fn_addr FnPortalRead);
  pl_pipe_write : dv_write (d_devs s p) = Some (fn_addr FnPipeWrite);
  pl_pipe_read : dv_read (d_devs s p) = Some (fn_addr FnPipeRead);
  pl_indicate : dv_rx_indicate (d_devs s p) = Some (fn_addr FnPortalRxIndicate);
  pl_type : dv_type (d_devs s p) = RT_Device_Class_Pipe;
  pl_portal : pp_read_portal (pi_pipes (d_io s) p) = Some b;
  pl_flag : pipe_flag s p = 0;
  pl_open : dv_ref_count (d_devs s a) <> 0 /\ dv_ref_count (d_devs s b) <> 0 /\ dv_ref_count (d_devs s p) <> 0
}.
Lemma portal_link_same s s' a b p : portal_link s a b p -> same_pipe s s' p -> portal_link s' a b p.
Proof.
  intros [] Hs. pose proof (sp_devs _ _ _ Hs) as Ed. pose proof (sp_portals _ _ _ Hs) as Ep.
  split; rewrite ?Ed, ?Ep; try done.
  - destruct (sp_pipes _ _ _ Hs) as (rb & _ & E). by rewrite E, upd_eq.
  - by rewrite (same_pipe_flag _ _ _ Hs).
Qed.
Section connection.
Hypothesis fn_addr_inj : forall f g, fn_addr f = fn_addr g -> f = g.
Lemma fn_addr_eqb f g : (fn_addr f =? fn_addr g) = bool_decide (f = g).
Proof. destruct (Z.eqb_spec (fn_addr f) (fn_addr g)) as [E|E]; [by rewrite bool_decide_true by auto|]. rewrite bool_decide_false; [done|]. by intros ->. Qed.
(** The application's callback on the reading portal, if any: it keeps the kernel
    well-formed, leaves the threads that wait on the pipe, and changes nothing else but
    the application's own state. *)
Definition portal_callback (s : dstate) (b p : Z) : Prop := forall f, dv_rx_indicate (d_devs s b) = Some f ->
  (forall g, f <> fn_addr g) /\
  forall k s1 L, kinv (d_core s1) L -> exists r s2 L' a, apps f b [k] s1 = Some (r, s2) /\ kinv (d_core s2) L' /\
    (forall w, L' (LWait w p) = L (LWait w p)) /\ d_devs s2 = d_devs s1 /\ d_io s2 = (set_pi_apps a (d_io s1) : driver_io).
(** A function of the application is called as it is. *)
Lemma linked_apps n f d k s : (forall g, f <> fn_addr g) -> drv_call (Drivers := linked n) f d [k] s = apps f d [k] s.
Proof.
  intros Hf. destruct n as [|n]; [done|]. cbn. destruct (Z.eqb_spec f (fn_addr FnPortalOpen)) as [E|_]; [by apply Hf in E|].
  destruct (Z.eqb_spec f (fn_addr FnPortalRxIndicate)) as [E|_]; [by apply Hf in E|].
  destruct (Z.eqb_spec f (fn_addr FnPortalTxComplete)) as [E|_]; [by apply Hf in E|]. done.
Qed.
Lemma portal_app_callback n s a b p : portal_link s a b p -> portal_callback s b p -> app_callback (drv := linked (S n)) s p.
Proof.
  intros Hl Hc f Ef k s1 L HK Ed Ep. rewrite (pl_indicate _ _ _ _ Hl) in Ef. injection Ef as <-. cbn [linked drv_call dispatch].
  rewrite !fn_addr_eqb, bool_decide_false, bool_decide_true by done.
  match goal with |- exists r s' L' a, _ /\ @?P r s' L' a =>
    assert (wp (_portal_rx_indicate (drv := linked n) p k) (fun r s' => exists L' a, P r s' L' a) s1) as Hw end.
  { unfold _portal_rx_indicate. wp1. apply wp_device. rewrite Ed. wp1. wp1; [by apply Z.eqb_eq, (pl_type _ _ _ _ Hl)|].
    wp1. apply wp_pipe. rewrite Ep, (pl_portal _ _ _ _ Hl). cbn [nonnull]. do 2 wp1. wp1. apply wp_device. rewrite Ed.
    destruct (dv_rx_indicate (d_devs s b)) as [f|] eqn:Eb.
    - destruct (Hc f Eb) as [Hf Hcall]. unfold wp. rewrite linked_apps by done.
      destruct (Hcall k s1 L HK) as (r & s2 & L2 & a2 & E2 & H). rewrite E2. exists L2, a2. rewrite Ed in H. exact H.
    - wp1. exists L, (pi_apps (d_io s1)). split_and!; try done. by destruct s1 as [? ? ? []]. }
  apply wp_run in Hw as (r & s' & E & L' & a' & H). by exists r, s', L', a'.
Qed.
Lemma linked_call3 n f d x y z : drv_call (Drivers := linked (S n)) (fn_addr f) d [x; y; z] =
  match f with
  | FnPipeRead => returned (rt_pipe_read d x y z)
  | FnPipeWrite => returned (rt_pipe_write (drv := linked n) d x y z)
  | FnPortalRead => _portal_read (drv := linked n) d x y z
  | FnPortalWrite => _portal_write (drv := linked n) d x y z
  | _ => apps (fn_addr f) d [x; y; z]
  end.
Proof. cbn. rewrite !fn_addr_eqb. by destruct f. Qed.
(** A write at one end. *)
Lemma wp_portal_write n s L a b p xs pos buffer size (Q : Z -> dstate -> Prop) :
  portal_link s a b p -> portal_callback s b p -> pipe_rep s L p xs [] [] ->
  let k := Z.min (uint16 size) (rb_buffer_size (ring s p) - Z.of_nat (length xs)) in
  (forall s' L', same_pipe s s' p -> pipe_rep s' L' p (xs ++ copy_out buffer k (memory s)) [] [] -> Q k s') ->
  wp (rt_device_write (drv := linked (S (S (S n)))) a pos buffer size) Q s.
Proof.
  intros Hl Hc HP k HQ. unfold rt_device_write at 1. wp1. apply wp_device. destruct (pl_open _ _ _ _ Hl) as (Ha & Hb & Hp).
  destruct (Z.eqb_spec (dv_ref_count (d_devs s a)) 0); [done|]. rewrite (pl_write _ _ _ _ Hl), linked_call3.
  unfold _portal_write, portal. do 2 wp1. change (@pi_portals _ (d_io s) a) with (pi_portals (d_io s) a).
  rewrite (pl_write_dev _ _ _ _ Hl). cbn [nonnull]. do 2 wp1.
  unfold rt_device_write. wp1. apply wp_device. destruct (Z.eqb_spec (dv_ref_count (d_devs s p)) 0); [done|].
  rewrite (pl_pipe_write _ _ _ _ Hl), linked_call3. unfold returned. wp1.
  eapply (wp_pipe_write (drv := linked (S n)) s L p xs [] [] buffer size k HP eq_refl) with (t := 0); [by eapply portal_app_callback|..].
  - by rewrite (pl_flag _ _ _ _ Hl).
  - unfold blocks_wr. by rewrite (pl_flag _ _ _ _ Hl).
  - intros _ s' (_ & Hs & L' & HP' & _). wp1. by apply (HQ s' L').
  - unfold blocks_wr. by rewrite (pl_flag _ _ _ _ Hl).
Qed.
(** A read at the other. *)
Lemma wp_portal_read n s L a b p xs pos buffer size (Q : Z -> dstate -> Prop) :
  portal_link s a b p -> pipe_rep s L p xs [] [] ->
  let k := Z.min (uint16 size) (Z.of_nat (length xs)) in
  (forall s' L', same_pipe s s' p -> pipe_rep s' L' p (drop (Z.to_nat k) xs) [] [] -> copy_out buffer k (memory s') = take (Z.to_nat k) xs -> Q k s') ->
  wp (rt_device_read (drv := linked (S (S (S n)))) b pos buffer size) Q s.
Proof.
  intros Hl HP k HQ. unfold rt_device_read at 1. wp1. apply wp_device. destruct (pl_open _ _ _ _ Hl) as (Ha & Hb & Hp).
  destruct (Z.eqb_spec (dv_ref_count (d_devs s b)) 0); [done|]. rewrite (pl_read _ _ _ _ Hl), linked_call3.
  unfold _portal_read, portal. do 2 wp1. change (@pi_portals _ (d_io s) b) with (pi_portals (d_io s) b).
  rewrite (pl_read_dev _ _ _ _ Hl). cbn [nonnull]. do 2 wp1.
  unfold rt_device_read. wp1. apply wp_device. destruct (Z.eqb_spec (dv_ref_count (d_devs s p)) 0); [done|].
  rewrite (pl_pipe_read _ _ _ _ Hl), linked_call3. unfold returned. wp1.
  eapply (wp_pipe_read s L p xs [] [] buffer size k HP eq_refl) with (t := 0).
  - unfold blocks_rd. by rewrite (pl_flag _ _ _ _ Hl).
  - intros _ s' (_ & Hs & Hcp & L' & HP' & _). wp1. by apply (HQ s' L').
  - intros _. unfold blocks_rd. by rewrite (pl_flag _ _ _ _ Hl).
  - intros E _ s' Hs _ HP'. wp1. rewrite <- E. apply (HQ s' L Hs).
    + by rewrite E.
    + by rewrite E.
Qed.
(** C35 Two portals on a pipe are a connection: what is written to the one is read from the
    other, byte for byte, behind what was already on its way; a pipe of the other
    direction is not touched. *)
Theorem portal_connection n s L a b p xs pos buffer size pos' buffer' size' :
  portal_link s a b p -> portal_callback s b p -> pipe_rep s L p xs [] [] ->
  let k := Z.min (uint16 size) (rb_buffer_size (ring s p) - Z.of_nat (length xs)) in
  let sent := xs ++ copy_out buffer k (memory s) in
  let k' := Z.min (uint16 size') (Z.of_nat (length sent)) in
  exists s1 s2 L2, rt_device_write (drv := linked (S (S (S n)))) a pos buffer size s = Some (k, s1) /\
    rt_device_read (drv := linked (S (S (S n)))) b pos' buffer' size' s1 = Some (k', s2) /\
    copy_out buffer' k' (memory s2) = take (Z.to_nat k') sent /\
    portal_link s2 a b p /\ pipe_rep s2 L2 p (drop (Z.to_nat k') sent) [] [] /\
    forall q, q <> p -> pi_pipes (d_io s2) q = pi_pipes (d_io s) q.
Proof.
  intros Hl Hc HP k sent k'.
  assert (wp (rt_device_write (drv := linked (S (S (S n)))) a pos buffer size) (fun r s1 => r = k /\
    wp (rt_device_read (drv := linked (S (S (S n)))) b pos' buffer' size') (fun r s2 => r = k' /\ copy_out buffer' k' (memory s2) = take (Z.to_nat k') sent /\
      portal_link s2 a b p /\ (exists L2, pipe_rep s2 L2 p (drop (Z.to_nat k') sent) [] []) /\
      forall q, q <> p -> pi_pipes (d_io s2) q = pi_pipes (d_io s) q) s1) s) as Hw.
  { eapply wp_portal_write; [exact Hl|exact Hc|exact HP|]. intros s1 L1 Hs1 HP1. split; [done|].
    pose proof (portal_link_same _ _ _ _ _ Hl Hs1) as Hl1. eapply wp_portal_read; [exact Hl1|exact HP1|]. intros s2 L2 Hs2 HP2 Hcp.
    split; [done|]. split; [exact Hcp|]. split; [by eapply portal_link_same|]. split; [by exists L2|]. intros q Hq.
    by rewrite (same_pipe_other _ _ _ _ Hs2 Hq), (same_pipe_other _ _ _ _ Hs1 Hq). }
  apply wp_run in Hw as (r & s1 & E1 & -> & Hw). apply wp_run in Hw as (r & s2 & E2 & -> & Hcp & Hl2 & [L2 HP2] & Ho).
  by exists s1, s2, L2.
Qed.
End connection.
End linked.
