(* ===== verification/FinshVM.v ===== *)
(** The virtual machine of the shell (components/finsh/finsh_vm.c and finsh_ops.c): a stack
    machine whose slots are unions of a char, a short and a long.  long has 32 bits, the
    bytes of a word are in little-endian order, and a shift of a negative number is
    arithmetic.  The program counter is the part of the text segment that it points to:
    the code never moves it back.  A function called is a parameter. *)
From S2P Require Import Prelude MemOps.
Implicit Types (m : memory).

Inductive width := BYTE | WORD | DWORD.
#[global] Instance width_eq_dec : EqDecision width.
Proof. solve_decision. Defined.
Definition bits (w : width) : Z := match w with BYTE => 8 | WORD => 16 | DWORD => 32 end.
Definition FINSH_STACK_MAX : Z := 64.
Definition FINSH_TEXT_MAX : Z := 128.

(** What the port decides (is char signed?), and the functions that can be called: a
    function gets its arguments, and gives back its result and the memory. *)
Class Finsh := {
  char_signed : bool;
  op_func : Z -> list Z -> memory -> option (Z * memory)
}.

Section finsh_vm.
Context `{Finsh}.

(** ** Unions and bytes *)
(** [sp->char_value] and so on, the slot being a 32-bit pattern. *)
Definition get (w : width) (slot : Z) : Z :=
  match w with BYTE => if char_signed then sint 8 slot else uint 8 slot | WORD => sint 16 slot | DWORD => sint 32 slot end.
(** [sp->char_value = v]: the other bytes of the slot stay. *)
Definition put (w : width) (v slot : Z) : Z := slot - uint (bits w) slot + uint (bits w) v.
Definition width_bytes (w : width) : nat := match w with BYTE => 1 | WORD => 2 | DWORD => 4 end.
Fixpoint le_bytes (n : nat) (v : Z) : list Z := match n with O => [] | S n => uint8 v :: le_bytes n (v / 256) end.
Fixpoint le_value (bs : list Z) : Z := match bs with [] => 0 | b :: bs => uint8 b + 256 * le_value bs end.
(** Reading and writing through a char, short or long pointer. *)
Fixpoint read_bytes (n : nat) (a : Z) m : list Z := match n with O => [] | S n => m a :: read_bytes n (a + 1) m end.
Fixpoint write_bytes (bs : list Z) (a : Z) m : memory := match bs with [] => m | b :: bs => <[a := b]> (write_bytes bs (a + 1) m) end.
Definition load (w : width) (a : Z) m : Z := le_value (read_bytes (width_bytes w) a m).
Definition store (w : width) (a v : Z) m : memory := write_bytes (le_bytes (width_bytes w) v) a m.

(** ** State *)
Record vm := mk_vm { finsh_pc : list Z; finsh_vm_stack : Z -> Z; finsh_sp : Z; vm_mem : memory }.
(** The slot at an index, if it lies in the stack. *)
Definition slot (i : Z) (s : vm) : option Z :=
  if (0 <=? i) && (i <? FINSH_STACK_MAX) then Some (finsh_vm_stack s i) else None.
Definition set_slot (i v : Z) (s : vm) : option vm :=
  if (0 <=? i) && (i <? FINSH_STACK_MAX) then Some (mk_vm (finsh_pc s) (<[i := v]> (finsh_vm_stack s)) (finsh_sp s) (vm_mem s)) else None.
Definition move_sp (d : Z) (s : vm) : vm := mk_vm (finsh_pc s) (finsh_vm_stack s) (finsh_sp s + d) (vm_mem s).
Definition set_pc (pc : list Z) (s : vm) : vm := mk_vm pc (finsh_vm_stack s) (finsh_sp s) (vm_mem s).
Definition set_mem m (s : vm) : vm := mk_vm (finsh_pc s) (finsh_vm_stack s) (finsh_sp s) m.
(** The next [n] bytes of the text segment. *)
Definition fetch (n : nat) (s : vm) : option (list Z * vm) :=
  if decide (n <= length (finsh_pc s))%nat then Some (take n (finsh_pc s), set_pc (drop n (finsh_pc s)) s) else None.

(** ** Operations *)
Inductive binop := Add | Sub | Div | Mod | Mul | And | Or | Xor | Shl | Shr.
(** The C operators on int and long, as integers: [None] for a division that C leaves open
    and for a shift by a distance that is not below 32.  Where the sum, difference, product
    or left shift does not fit a long, C leaves the result open too; here the slot keeps its
    low bits, as two's-complement machines do. *)
Definition c_binop (o : binop) (a b : Z) : option Z :=
  match o with
  | Add => Some (a + b)
  | Sub => Some (a - b)
  | Mul => Some (a * b)
  | Div => if (b =? 0) || ((a =? - 2 ^ 31) && (b =? -1)) then None else Some (Z.quot a b)
  | Mod => if (b =? 0) || ((a =? - 2 ^ 31) && (b =? -1)) then None else Some (Z.rem a b)
  | And => Some (Z.land a b)
  | Or => Some (Z.lor a b)
  | Xor => Some (Z.lxor a b)
  | Shl => if (0 <=? b) && (b <? 32) then Some (Z.shiftl a b) else None
  | Shr => if (0 <=? b) && (b <? 32) then Some (Z.shiftr a b) else None
  end.
Definition OP_bin (o : binop) (w : width) (s : vm) : option vm :=
  a ← slot (finsh_sp s - 2) s; b ← slot (finsh_sp s - 1) s;
  r ← c_binop o (get w a) (get w b);
  s' ← set_slot (finsh_sp s - 2) (put w r a) s; Some (move_sp (-1) s').
Definition OP_bw (w : width) (s : vm) : option vm :=
  a ← slot (finsh_sp s - 1) s; set_slot (finsh_sp s - 1) (put w (Z.lnot (get w a)) a) s.
Definition OP_ld (w : width) (s : vm) : option vm :=
  a ← slot (finsh_sp s) s; '(bs, s) ← fetch (width_bytes w) s;
  s ← set_slot (finsh_sp s) (put w (le_value bs) a) s; Some (move_sp 1 s).
Definition OP_ld_value (w : width) (s : vm) : option vm :=
  a ← slot (finsh_sp s) s; '(bs, s) ← fetch 4 s;
  s ← set_slot (finsh_sp s) (put w (load w (le_value bs) (vm_mem s)) a) s; Some (move_sp 1 s).
Definition OP_ld_value_stack (w : width) (s : vm) : option vm :=
  a ← slot (finsh_sp s - 1) s; set_slot (finsh_sp s - 1) (put w (load w (uint32 a) (vm_mem s)) a) s.
Definition OP_st (w : width) (s : vm) : option vm :=
  a ← slot (finsh_sp s - 2) s; b ← slot (finsh_sp s - 1) s;
  Some (move_sp (-1) (set_mem (store w (uint32 a) (get w b) (vm_mem s)) s)).
Definition OP_pop (s : vm) : option vm := Some (move_sp (-1) s).
(** The [n] values below index [sp], the lowest one first. *)
Fixpoint parameterv (n : nat) (sp : Z) (s : vm) : option (list Z) :=
  match n with
  | O => Some []
  | S n => v ← slot (sp - 1) s; vs ← parameterv n (sp - 1) s; Some (vs ++ [uint32 v])
  end.
Definition OP_call (s : vm) : option vm :=
  '(bs, s) ← fetch 1 s;
  let parameters := Z.to_nat (le_value bs) in
  if decide (16 < parameters)%nat then None else
  ps ← parameterv parameters (finsh_sp s) s;
  let sp := finsh_sp s - 1 - Z.of_nat parameters in
  f ← slot sp s;
  '(r, m) ← op_func (uint32 f) (match ps with [] => [0] | _ => ps end) (vm_mem s);
  s ← set_slot sp (uint32 r) (set_mem m s);
  Some (move_sp (- Z.of_nat parameters) s).

Definition op_table : list (vm -> option vm) := [
  Some;
  OP_bin Add BYTE; OP_bin Add WORD; OP_bin Add DWORD; OP_bin Sub BYTE; OP_bin Sub WORD; OP_bin Sub DWORD;
  OP_bin Div BYTE; OP_bin Div WORD; OP_bin Div DWORD; OP_bin Mod BYTE; OP_bin Mod WORD; OP_bin Mod DWORD;
  OP_bin Mul BYTE; OP_bin Mul WORD; OP_bin Mul DWORD; OP_bin And BYTE; OP_bin And WORD; OP_bin And DWORD;
  OP_bin Or BYTE; OP_bin Or WORD; OP_bin Or DWORD; OP_bin Xor BYTE; OP_bin Xor WORD; OP_bin Xor DWORD;
  OP_bw BYTE; OP_bw WORD; OP_bw DWORD; OP_bin Shl BYTE; OP_bin Shl WORD; OP_bin Shl DWORD;
  OP_bin Shr BYTE; OP_bin Shr WORD; OP_bin Shr DWORD; OP_ld BYTE; OP_ld WORD; OP_ld DWORD;
  OP_ld_value BYTE; OP_ld_value WORD; OP_ld_value DWORD; OP_st BYTE; OP_st WORD; OP_st DWORD;
  OP_pop; OP_call; OP_ld_value_stack BYTE; OP_ld_value_stack WORD; OP_ld_value_stack DWORD].
(** One round of the loop: an entry past the end of the table is a null pointer. *)
Definition vm_step (s : vm) : option vm :=
  '(op, s) ← fetch 1 s; f ← op_table !! Z.to_nat (le_value op); f s.
Fixpoint vm_loop (fuel : nat) (s : vm) : option vm :=
  match finsh_pc s, fuel with
  | [], _ => Some s
  | _, O => None
  | _, S fuel => s ← vm_step s; vm_loop fuel s
  end.
(** The text segment, the stack and the memory at the start. *)
Definition finsh_vm_run (text_segment : list Z) (stack : Z -> Z) m : option vm :=
  vm_loop (length text_segment) (mk_vm text_segment stack 0 m).
End finsh_vm.
