(* ===== verification/FinshCompiler.v ===== *)
(** The compiler of the shell (components/finsh/finsh_compiler.c): it annotates the syntax
    tree with types and translates it to the code of [FinshVM].  A tree is in first-child,
    next-sibling form, as the parser builds it. *)
From S2P Require Import Prelude MemOps FinshVM.
Implicit Types (m : memory).

(** ** The syntax tree (finsh_node.h, finsh.h) *)
Inductive node_type :=
| FINSH_NODE_UNKNOWN | FINSH_NODE_ID
| FINSH_NODE_VALUE_CHAR | FINSH_NODE_VALUE_INT | FINSH_NODE_VALUE_LONG | FINSH_NODE_VALUE_STRING | FINSH_NODE_VALUE_NULL
| FINSH_NODE_SYS_ADD | FINSH_NODE_SYS_SUB | FINSH_NODE_SYS_MUL | FINSH_NODE_SYS_DIV | FINSH_NODE_SYS_MOD
| FINSH_NODE_SYS_AND | FINSH_NODE_SYS_OR | FINSH_NODE_SYS_XOR | FINSH_NODE_SYS_BITWISE | FINSH_NODE_SYS_SHL | FINSH_NODE_SYS_SHR
| FINSH_NODE_SYS_FUNC | FINSH_NODE_SYS_ASSIGN | FINSH_NODE_SYS_CAST
| FINSH_NODE_SYS_PREINC | FINSH_NODE_SYS_PREDEC | FINSH_NODE_SYS_INC | FINSH_NODE_SYS_DEC
| FINSH_NODE_SYS_GETVALUE | FINSH_NODE_SYS_GETADDR | FINSH_NODE_SYS_NULL.
#[global] Instance node_type_eq_dec : EqDecision node_type.
Proof. solve_decision. Defined.
Inductive finsh_type :=
| finsh_type_unknown | finsh_type_void | finsh_type_voidp | finsh_type_char | finsh_type_uchar | finsh_type_charp
| finsh_type_short | finsh_type_ushort | finsh_type_shortp | finsh_type_int | finsh_type_uint | finsh_type_intp
| finsh_type_long | finsh_type_ulong | finsh_type_longp.
(** A node, or the null pointer.  [value] is the union of the constants, [id] the pointer
    to the variable, system variable or system call. *)
Inductive finsh_node :=
| NULL
| Node (type : node_type) (data_type idtype value id : Z) (sibling child : finsh_node).

Definition FINSH_IDTYPE_VAR : Z := 0x01.
Definition FINSH_IDTYPE_SYSVAR : Z := 0x02.
Definition FINSH_IDTYPE_SYSCALL : Z := 0x04.
Definition FINSH_IDTYPE_ADDRESS : Z := 0x08.
Definition FINSH_DATA_TYPE_VOID : Z := 0x00.
Definition FINSH_DATA_TYPE_BYTE : Z := 0x01.
Definition FINSH_DATA_TYPE_WORD : Z := 0x02.
Definition FINSH_DATA_TYPE_DWORD : Z := 0x03.
Definition FINSH_ERROR_UNKNOWN_TYPE : Z := 3.
Definition FINSH_ERROR_UNKNOWN_NODE : Z := 8.

Definition FINSH_NODE_MAX : Z := 16.

(** What the pointers of identifiers point to; the linker and the tables of the shell
    decide it. *)
Class Symbols := {
  var_type : Z -> finsh_type;
  sysvar_type : Z -> finsh_type;
  sysvar_var : Z -> Z;
  syscall_func : Z -> Z
}.
(** [&var->value], behind 17 bytes of name and the type. *)
Definition var_value (var : Z) : Z := var + 20.

(** ** Opcodes *)
Definition by_width (b w d : Z) (t : width) : Z := match t with BYTE => b | WORD => w | DWORD => d end.
Definition FINSH_OP_ADD := by_width 0x01 0x02 0x03.
Definition FINSH_OP_SUB := by_width 0x04 0x05 0x06.
Definition FINSH_OP_DIV := by_width 0x07 0x08 0x09.
Definition FINSH_OP_MOD := by_width 0x0A 0x0B 0x0C.
Definition FINSH_OP_MUL := by_width 0x0D 0x0E 0x0F.
Definition FINSH_OP_AND := by_width 0x10 0x11 0x12.
Definition FINSH_OP_OR := by_width 0x13 0x14 0x15.
Definition FINSH_OP_XOR := by_width 0x16 0x17 0x18.
Definition FINSH_OP_BITWISE := by_width 0x19 0x1A 0x1B.
Definition FINSH_OP_SHL := by_width 0x1C 0x1D 0x1E.
Definition FINSH_OP_SHR := by_width 0x1F 0x20 0x21.
Definition FINSH_OP_LD := by_width 0x22 0x23 0x24.
Definition FINSH_OP_LD_VALUE := by_width 0x25 0x26 0x27.
Definition FINSH_OP_ST := by_width 0x28 0x29 0x2A.
Definition FINSH_OP_POP : Z := 0x2B.
Definition FINSH_OP_SYSCALL : Z := 0x2C.
Definition FINSH_OP_LD_VALUE_STACK := by_width 0x2D 0x2E 0x2F.

(** ** Output: the bytes emitted and the errors set, in order *)
Definition output : Type := list Z * list Z.
Definition no_code : output := ([], []).
Definition finsh_code_byte (x : Z) : output := ([uint8 x], []).
Definition finsh_code_word (x : Z) : output := (le_bytes 2 x, []).
Definition finsh_code_dword (x : Z) : output := (le_bytes 4 x, []).
Definition finsh_error_set (e : Z) : output := ([], [e]).
Definition emit (a b : output) : output := (fst a ++ fst b, snd a ++ snd b).
Notation "a ;+ b" := (emit a b) (at level 60, right associativity).
(** A constant of a width. *)
Definition finsh_code_const (w : width) (x : Z) : output :=
  match w with BYTE => finsh_code_byte x | WORD => finsh_code_word x | DWORD => finsh_code_dword x end.

(** The width a data type stands for. *)
Definition width_of (data_type : Z) : option width :=
  if data_type =? FINSH_DATA_TYPE_BYTE then Some BYTE
  else if data_type =? FINSH_DATA_TYPE_WORD then Some WORD
  else if data_type =? FINSH_DATA_TYPE_DWORD then Some DWORD
  else None.
(** The width of the load the compiler emits for a variable: none for a [void*]. *)
Definition load_width (t : finsh_type) : option width :=
  match t with
  | finsh_type_char | finsh_type_uchar => Some BYTE
  | finsh_type_short | finsh_type_ushort => Some WORD
  | finsh_type_int | finsh_type_uint | finsh_type_long | finsh_type_ulong
  | finsh_type_charp | finsh_type_shortp | finsh_type_intp | finsh_type_longp => Some DWORD
  | _ => None
  end.
(** The data type of a variable; [None] sets FINSH_ERROR_UNKNOWN_TYPE. *)
Definition data_type_of (t : finsh_type) : option Z :=
  match t with
  | finsh_type_void => Some FINSH_DATA_TYPE_VOID
  | finsh_type_char | finsh_type_uchar => Some FINSH_DATA_TYPE_BYTE
  | finsh_type_short | finsh_type_ushort => Some FINSH_DATA_TYPE_WORD
  | finsh_type_int | finsh_type_uint | finsh_type_long | finsh_type_ulong
  | finsh_type_charp | finsh_type_voidp | finsh_type_shortp | finsh_type_intp | finsh_type_longp => Some FINSH_DATA_TYPE_DWORD
  | finsh_type_unknown => None
  end.
Definition flag (idtype mask : Z) : bool := negb (Z.land idtype mask =? 0).

Section finsh_compiler.
Context `{Symbols}.

(** The load of a variable of type [t] at [addr], or of its address. *)
Definition compile_var (idtype : Z) (t : finsh_type) (addr : Z) : output :=
  match load_width t with
  | Some w =>
    (if flag idtype FINSH_IDTYPE_ADDRESS then finsh_code_byte (FINSH_OP_LD DWORD) else finsh_code_byte (FINSH_OP_LD_VALUE w)) ;+
    finsh_code_dword addr
  | None => no_code
  end.
Definition compile_id (idtype id : Z) : output :=
  if flag idtype FINSH_IDTYPE_SYSCALL then finsh_code_byte (FINSH_OP_LD DWORD) ;+ finsh_code_dword (syscall_func id)
  else if flag idtype FINSH_IDTYPE_SYSVAR then
    if id =? 0 then no_code else compile_var idtype (sysvar_type id) (sysvar_var id)
  else if id =? 0 then no_code else compile_var idtype (var_type id) (var_value id).
(** An operation of the width of the node; nothing for another data type. *)
Definition compile_op (op : width -> Z) (data_type : Z) : output :=
  match width_of data_type with Some w => finsh_code_byte (op w) | None => no_code end.
(** The siblings of a node. *)
Fixpoint siblings (n : finsh_node) : Z := match n with NULL => 0 | Node _ _ _ _ _ s _ => 1 + siblings s end.
Definition child_type (n : finsh_node) : node_type := match n with NULL => FINSH_NODE_UNKNOWN | Node ty _ _ _ _ _ _ => ty end.
Definition child_id (n : finsh_node) : Z := match n with NULL => 0 | Node _ _ _ _ id _ _ => id end.
Definition child_data_type (n : finsh_node) : Z := match n with NULL => 0 | Node _ dt _ _ _ _ _ => dt end.
Definition compile_store (data_type : Z) : output :=
  match width_of data_type with
  | Some w => finsh_code_byte (FINSH_OP_ST w) ;+ finsh_code_byte (FINSH_OP_LD_VALUE_STACK w)
  | None => finsh_error_set FINSH_ERROR_UNKNOWN_TYPE
  end.
(** [++x], [--x]: the address is on the stack. *)
Definition compile_pre (op : width -> Z) (data_type var : Z) : output :=
  match width_of data_type with
  | Some w =>
    finsh_code_byte (FINSH_OP_LD_VALUE w) ;+ finsh_code_dword (var_value var) ;+
    finsh_code_byte (FINSH_OP_LD w) ;+ finsh_code_const w 1 ;+
    finsh_code_byte (op w) ;+ finsh_code_byte (FINSH_OP_ST w) ;+
    finsh_code_byte (FINSH_OP_LD_VALUE_STACK DWORD)
  | None => no_code
  end.
(** [x++], [x--]: the value is on the stack, and stays. *)
Definition compile_post (op : width -> Z) (data_type var : Z) : output :=
  match width_of data_type with
  | Some w =>
    finsh_code_byte (FINSH_OP_LD DWORD) ;+ finsh_code_dword (var_value var) ;+
    finsh_code_byte (FINSH_OP_LD_VALUE w) ;+ finsh_code_dword (var_value var) ;+
    finsh_code_byte (FINSH_OP_LD w) ;+ finsh_code_const w 1 ;+
    finsh_code_byte (op w) ;+ finsh_code_byte (FINSH_OP_ST w) ;+ finsh_code_byte FINSH_OP_POP
  | None => no_code
  end.
(** The code of one node behind the code of its children; [None] where a null child is
    followed. *)
Definition compile_node (type : node_type) (data_type idtype value id : Z) (child : finsh_node) : option output :=
  match type with
  | FINSH_NODE_ID => Some (compile_id idtype id)
  | FINSH_NODE_VALUE_CHAR => Some (finsh_code_byte (FINSH_OP_LD BYTE) ;+ finsh_code_byte value)
  | FINSH_NODE_VALUE_INT | FINSH_NODE_VALUE_LONG | FINSH_NODE_VALUE_NULL | FINSH_NODE_VALUE_STRING =>
    Some (finsh_code_byte (FINSH_OP_LD DWORD) ;+ finsh_code_dword value)
  | FINSH_NODE_SYS_ADD => Some (compile_op FINSH_OP_ADD data_type)
  | FINSH_NODE_SYS_SUB => Some (compile_op FINSH_OP_SUB data_type)
  | FINSH_NODE_SYS_MUL => Some (compile_op FINSH_OP_MUL data_type)
  | FINSH_NODE_SYS_DIV => Some (compile_op FINSH_OP_DIV data_type)
  | FINSH_NODE_SYS_MOD => Some (compile_op FINSH_OP_MOD data_type)
  | FINSH_NODE_SYS_AND => Some (compile_op FINSH_OP_AND data_type)
  | FINSH_NODE_SYS_OR => Some (compile_op FINSH_OP_OR data_type)
  | FINSH_NODE_SYS_XOR => Some (compile_op FINSH_OP_XOR data_type)
  | FINSH_NODE_SYS_BITWISE => Some (compile_op FINSH_OP_BITWISE data_type)
  | FINSH_NODE_SYS_SHL => Some (compile_op FINSH_OP_SHL data_type)
  | FINSH_NODE_SYS_SHR => Some (compile_op FINSH_OP_SHR data_type)
  | FINSH_NODE_SYS_FUNC =>
    Some (match child with
          | NULL => no_code
          | Node _ _ _ _ _ sibling _ => finsh_code_byte FINSH_OP_SYSCALL ;+ finsh_code_byte (siblings sibling)
          end)
  | FINSH_NODE_SYS_ASSIGN =>
    match child with
    | NULL => None
    | Node FINSH_NODE_ID dt _ _ _ _ _ => Some (compile_store dt)
    | Node FINSH_NODE_SYS_GETVALUE dt _ _ _ _ _ => Some (compile_store (Z.land dt 0x0F))
    | _ => Some no_code
    end
  | FINSH_NODE_SYS_PREINC => Some (if decide (child_type child = FINSH_NODE_ID) then compile_pre FINSH_OP_ADD data_type (child_id child) else no_code)
  | FINSH_NODE_SYS_PREDEC => Some (if decide (child_type child = FINSH_NODE_ID) then compile_pre FINSH_OP_SUB data_type (child_id child) else no_code)
  | FINSH_NODE_SYS_INC => Some (if decide (child_type child = FINSH_NODE_ID) then compile_post FINSH_OP_ADD data_type (child_id child) else no_code)
  | FINSH_NODE_SYS_DEC => Some (if decide (child_type child = FINSH_NODE_ID) then compile_post FINSH_OP_SUB data_type (child_id child) else no_code)
  | FINSH_NODE_SYS_NULL => Some (finsh_code_dword 0)
  | FINSH_NODE_SYS_GETVALUE =>
    Some (if flag idtype FINSH_IDTYPE_ADDRESS then no_code else compile_op FINSH_OP_LD_VALUE_STACK data_type)
  | FINSH_NODE_SYS_GETADDR => Some no_code
  | FINSH_NODE_UNKNOWN | FINSH_NODE_SYS_CAST => Some (finsh_error_set FINSH_ERROR_UNKNOWN_NODE)
  end.
Fixpoint finsh_compile (node : finsh_node) : option output :=
  match node with
  | NULL => Some no_code
  | Node type data_type idtype value id sibling child =>
    a ← finsh_compile child; b ← compile_node type data_type idtype value id child; c ← finsh_compile sibling; Some (a ;+ b ;+ c)
  end.

(** ** Types *)
Definition checks_address (type : node_type) : bool :=
  bool_decide (type ∈ [FINSH_NODE_SYS_ASSIGN; FINSH_NODE_SYS_PREINC; FINSH_NODE_SYS_PREDEC; FINSH_NODE_SYS_GETADDR]).
(** The data type of a leaf, and the errors set. *)
Definition leaf_type (type : node_type) (data_type idtype id : Z) : Z * list Z :=
  let of_type t := match data_type_of t with Some dt => (dt, []) | None => (data_type, [FINSH_ERROR_UNKNOWN_TYPE]) end in
  match type with
  | FINSH_NODE_ID =>
    if flag idtype FINSH_IDTYPE_VAR then if id =? 0 then (data_type, []) else of_type (var_type id)
    else if flag idtype FINSH_IDTYPE_SYSVAR then if id =? 0 then (data_type, []) else of_type (sysvar_type id)
    else (data_type, [])
  | FINSH_NODE_VALUE_CHAR => (FINSH_DATA_TYPE_BYTE, [])
  | FINSH_NODE_VALUE_INT | FINSH_NODE_VALUE_LONG | FINSH_NODE_VALUE_STRING | FINSH_NODE_VALUE_NULL => (FINSH_DATA_TYPE_DWORD, [])
  | _ => (data_type, [])
  end.
Fixpoint finsh_type_check (node : finsh_node) (is_addr : Z) : finsh_node * list Z :=
  match node with
  | NULL => (NULL, [])
  | Node type data_type idtype value id sibling child =>
    let '(child, e1) := finsh_type_check child
      (if checks_address type then FINSH_IDTYPE_ADDRESS
       else if bool_decide (type = FINSH_NODE_SYS_GETVALUE) && negb (is_addr =? 0) then 0 else is_addr) in
    let '(sibling, e2) := finsh_type_check sibling 0 in
    let idtype := if idtype =? FINSH_IDTYPE_SYSCALL then idtype else Z.lor idtype is_addr in
    let '(data_type, e3) := match child with NULL => leaf_type type data_type idtype id | Node _ dt _ _ _ _ _ => (dt, []) end in
    (Node type data_type idtype value id sibling child, e1 ++ e2 ++ e3)
  end.

(** ** finsh_compiler_run *)
Definition set_sibling (s n : finsh_node) : finsh_node :=
  match n with NULL => NULL | Node ty dt it v id _ ch => Node ty dt it v id s ch end.
(** The loop over the statements, each compiled without its siblings. *)
Fixpoint compile_statements (node : finsh_node) : option output :=
  match node with
  | NULL => Some no_code
  | Node _ _ _ _ _ sibling _ =>
    a ← finsh_compile (set_sibling NULL node); b ← compile_statements sibling;
    Some (a ;+ (match sibling with NULL => no_code | _ => finsh_code_byte FINSH_OP_POP end) ;+ b)
  end.
(** The text segment, filled up with zeros, and the errors; [None] when the code does not fit. *)
Definition finsh_compiler_run (node : finsh_node) : option (list Z * list Z) :=
  let '(node, e) := finsh_type_check node 0 in
  '(code, errors) ← compile_statements node;
  if decide (Z.of_nat (length code) <= FINSH_TEXT_MAX) then
    Some (code ++ replicate (Z.to_nat FINSH_TEXT_MAX - length code) 0, e ++ errors)
  else None.
End finsh_compiler.
