(* ===== verification/FinshCorrect.v ===== *)
(** Correctness of the compiler and the virtual machine of the shell: the code of a typed
    tree computes what the tree means, provided that no operation takes more bytes of a value
    than the machine has written. *)
From stdpp Require Import relations.
From S2P Require Import Prelude MemOps FinshVM FinshCompiler.
Implicit Types (m : memory).

(** ** The meaning of a typed tree *)
(** A value, of which the low bytes of a width count. *)
Notation datum := (width * Z)%type.
Definition binop_of (type : node_type) : option binop :=
  match type with
  | FINSH_NODE_SYS_ADD => Some Add | FINSH_NODE_SYS_SUB => Some Sub | FINSH_NODE_SYS_MUL => Some Mul
  | FINSH_NODE_SYS_DIV => Some Div | FINSH_NODE_SYS_MOD => Some Mod | FINSH_NODE_SYS_AND => Some And
  | FINSH_NODE_SYS_OR => Some Or | FINSH_NODE_SYS_XOR => Some Xor | FINSH_NODE_SYS_SHL => Some Shl
  | FINSH_NODE_SYS_SHR => Some Shr | _ => None
  end.
(** The step of an increment or decrement. *)
Definition step_of (type : node_type) : option (bool * binop) :=
  match type with
  | FINSH_NODE_SYS_PREINC => Some (true, Add) | FINSH_NODE_SYS_PREDEC => Some (true, Sub)
  | FINSH_NODE_SYS_INC => Some (false, Add) | FINSH_NODE_SYS_DEC => Some (false, Sub) | _ => None
  end.

Section meaning.
Context `{Finsh} `{Symbols}.

Definition narrow (w : width) (v : datum) : option Z :=
  if decide (bits w <= bits (fst v)) then Some (get w (snd v)) else None.
Definition eval_var (idtype : Z) (t : finsh_type) (addr : Z) m : option datum :=
  w ← load_width t;
  Some (if flag idtype FINSH_IDTYPE_ADDRESS then (DWORD, addr) else (w, load w (uint32 addr) m)).
Definition eval_id (idtype id : Z) m : option datum :=
  if flag idtype FINSH_IDTYPE_SYSCALL then Some (DWORD, syscall_func id)
  else if id =? 0 then None
  else if flag idtype FINSH_IDTYPE_SYSVAR then eval_var idtype (sysvar_type id) (sysvar_var id) m
  else eval_var idtype (var_type id) (var_value id) m.
Definition assign_type (child : finsh_node) : option width :=
  match child with
  | Node FINSH_NODE_ID dt _ _ _ _ _ => width_of dt
  | Node FINSH_NODE_SYS_GETVALUE dt _ _ _ _ _ => width_of (Z.land dt 0x0F)
  | _ => None
  end.
(** The stepped variable: its old value and the memory with the new one. *)
Definition eval_step (o : binop) (w : width) (addr var : Z) m : option (Z * memory) :=
  let old := get w (load w (uint32 (var_value var)) m) in
  new ← c_binop o old 1; Some (new, store w (uint32 addr) new m).
Definition eval_node (type : node_type) (data_type idtype value id : Z) (child : finsh_node) (args : list datum) m :
    option (datum * memory) :=
  match type, args with
  | FINSH_NODE_ID, [] => v ← eval_id idtype id m; Some (v, m)
  | FINSH_NODE_VALUE_CHAR, [] => Some ((BYTE, value), m)
  | (FINSH_NODE_VALUE_INT | FINSH_NODE_VALUE_LONG | FINSH_NODE_VALUE_STRING | FINSH_NODE_VALUE_NULL), [] => Some ((DWORD, value), m)
  | FINSH_NODE_SYS_BITWISE, [a] => w ← width_of data_type; x ← narrow w a; Some ((w, Z.lnot x), m)
  | FINSH_NODE_SYS_FUNC, f :: ps =>
    f ← narrow DWORD f; xs ← mapM (narrow DWORD) ps;
    if decide (16 < length ps)%nat then None else
    '(r, m) ← op_func (uint32 f) (match xs with [] => [0] | _ => (fun x => uint32 x) <$> xs end) m; Some ((DWORD, r), m)
  | FINSH_NODE_SYS_ASSIGN, [p; v] =>
    w ← assign_type child; a ← narrow DWORD p; x ← narrow w v; Some ((w, x), store w (uint32 a) x m)
  | FINSH_NODE_SYS_GETVALUE, [p] =>
    if flag idtype FINSH_IDTYPE_ADDRESS then Some (p, m)
    else w ← width_of data_type; a ← narrow DWORD p; Some ((w, load w (uint32 a) m), m)
  | FINSH_NODE_SYS_GETADDR, [p] => Some (p, m)
  | _, [a; b] => o ← binop_of type; w ← width_of data_type; x ← narrow w a; y ← narrow w b; r ← c_binop o x y; Some ((w, r), m)
  | _, [a] =>
    '(pre, o) ← step_of type; w ← width_of data_type;
    if decide (child_type child = FINSH_NODE_ID) then
      if (pre : bool) then p ← narrow DWORD a; '(new, m) ← eval_step o w p (child_id child) m; Some ((w, new), m)
      else '(_, m) ← eval_step o w (var_value (child_id child)) (child_id child) m; Some (a, m)
    else None
  | _, _ => None
  end.
(** The values of a node and its siblings, in order. *)
Fixpoint eval (node : finsh_node) m : option (list datum * memory) :=
  match node with
  | NULL => Some ([], m)
  | Node type data_type idtype value id sibling child =>
    '(args, m) ← eval child m; '(v, m) ← eval_node type data_type idtype value id child args m;
    '(vs, m) ← eval sibling m; Some (v :: vs, m)
  end.
(** A program: the value of its last statement. *)
Fixpoint eval_program (node : finsh_node) m : option (datum * memory) :=
  match node with
  | NULL => None
  | Node _ _ _ _ _ sibling _ =>
    '(vs, m) ← eval (set_sibling NULL node) m;
    match vs, sibling with
    | [v], NULL => Some (v, m)
    | [_], _ => eval_program sibling m
    | _, _ => None
    end
  end.
Fixpoint size (node : finsh_node) : Z := match node with NULL => 0 | Node _ _ _ _ _ s c => 1 + size s + size c end.
End meaning.

(** ** Bytes *)
Lemma le_value_bytes n v : le_value (le_bytes n v) = uint (8 * Z.of_nat n) v.
Proof.
  revert v. induction n as [|n IH]; intros v; cbn [le_bytes le_value]; [unfold uint; rewrite Z.mod_1_r; lia|].
  rewrite IH. unfold uint. rewrite Zmod_mod. replace (8 * Z.of_nat (S n)) with (8 + 8 * Z.of_nat n) by lia.
  rewrite Z.pow_add_r by lia. rewrite Z.rem_mul_r by lia. change (2 ^ 8) with 256. lia.
Qed.
Section union.
Context `{Finsh}.
Lemma bits_bounds w : 8 <= bits w <= 32.
Proof. destruct w; cbn; lia. Qed.
Lemma bits_bytes w : 8 * Z.of_nat (width_bytes w) = bits w.
Proof. by destruct w. Qed.
Lemma uint_put w v slot : uint (bits w) (put w v slot) = uint (bits w) v.
Proof.
  unfold put. pose proof (bits_bounds w). rewrite <- (uint_uint (bits w) (bits w) v) at 2 by lia.
  unfold uint. rewrite <- Zplus_mod_idemp_l, Zminus_mod_idemp_r, Z.sub_diag, Zmod_0_l, Z.add_0_l. done.
Qed.
Lemma get_uint w w' v : bits w <= bits w' -> get w (uint (bits w') v) = get w v.
Proof.
  intros Hw. pose proof (bits_bounds w).
  assert (uint (bits w) (uint (bits w') v) = uint (bits w) v) as E by (apply uint_uint; lia).
  destruct w; cbn [get bits] in *; [destruct char_signed|..]; rewrite <- ?(sint_uint _ (uint _ v)), E, ?sint_uint; done.
Qed.
Lemma uint_put_dword w v slot : uint (bits w) (put DWORD v slot) = uint (bits w) v.
Proof.
  pose proof (bits_bounds w). rewrite <- (uint_uint (bits w) (bits DWORD) (put _ _ _)), uint_put by (cbn; lia). apply uint_uint. cbn. lia.
Qed.
(** A slot holds a datum: its low bytes are those of the value. *)
Definition fits (slot : Z) (d : datum) : Prop := uint (bits (fst d)) slot = uint (bits (fst d)) (snd d).
Lemma fits_put w v slot : fits (put w v slot) (w, v).
Proof. apply uint_put. Qed.
Lemma narrow_get w slot d x : fits slot d -> narrow w d = Some x -> get w slot = x.
Proof.
  unfold fits, narrow. intros F. case_decide; [|done]. intros [= <-].
  by rewrite <- (get_uint w (fst d) slot), F, get_uint by done.
Qed.
Lemma uint_get w v : uint (bits w) (get w v) = uint (bits w) v.
Proof. destruct w; cbn [get bits]; [destruct char_signed|..]; rewrite ?uint_sint by lia; try done. by apply uint_uint. Qed.
Lemma get_put w v slot : get w (put w v slot) = get w v.
Proof. by rewrite <- (get_uint w w (put w v slot)), uint_put, get_uint. Qed.
Lemma get_one w : get w 1 = 1.
Proof. by destruct w; cbn; [destruct char_signed|..]. Qed.
Lemma le_bytes_uint n v : le_bytes n (uint (8 * Z.of_nat n) v) = le_bytes n v.
Proof.
  revert v. induction n as [|n IH]; intros v; [done|]. cbn [le_bytes]. f_equal; [apply uint_uint; lia|].
  rewrite <- (IH (v / 256)). f_equal. unfold uint. replace (8 * Z.of_nat (S n)) with (8 + 8 * Z.of_nat n) by lia.
  rewrite Z.pow_add_r, Z.rem_mul_r by lia. change (2 ^ 8) with 256.
  rewrite Z.mul_comm, Z.div_add by lia. rewrite (Z.div_small (v mod 256)); [lia|]. apply Z.mod_pos_bound. lia.
Qed.
Lemma store_get w a v m : store w a (get w v) m = store w a v m.
Proof.
  unfold store. by rewrite <- (le_bytes_uint _ (get w v)), bits_bytes, uint_get, <- bits_bytes, le_bytes_uint.
Qed.
Lemma narrow_address slot d x : fits slot d -> narrow DWORD d = Some x -> uint32 slot = uint32 x.
Proof. intros F E. rewrite <- (narrow_get DWORD slot d x F E). symmetry. apply (uint_get DWORD). Qed.
End union.

Lemma length_le_bytes n v : length (le_bytes n v) = n.
Proof. revert v. induction n as [|n IH]; intros v; cbn; [done|]. by rewrite IH. Qed.
Lemma read_bytes_ext n a m m' : (forall x, a <= x -> m x = m' x) -> read_bytes n a m = read_bytes n a m'.
Proof. revert a. induction n as [|n IH]; intros a E; cbn; [done|]. rewrite E by lia. f_equal. apply IH. intros x Hx. apply E. lia. Qed.
Lemma read_write bs a m : read_bytes (length bs) a (write_bytes bs a m) = bs.
Proof.
  revert a. induction bs as [|b bs IH]; intros a; cbn [write_bytes length read_bytes]; [done|]. rewrite upd_eq. f_equal.
  etrans; [|apply (IH (a + 1))]. apply read_bytes_ext. intros x Hx. apply upd_ne. lia.
Qed.
Lemma load_store w a v m : load w a (store w a v m) = uint (bits w) v.
Proof.
  unfold load, store. rewrite <- (length_le_bytes (width_bytes w) v) at 1. by rewrite read_write, le_value_bytes, bits_bytes.
Qed.
Lemma le_value_low n k a m : uint (8 * Z.of_nat n) (le_value (read_bytes (n + k) a m)) = le_value (read_bytes n a m).
Proof.
  revert a. induction n as [|n IH]; intros a; [unfold uint; by rewrite Z.mod_1_r|]. cbn [Nat.add read_bytes le_value].
  rewrite <- (IH (a + 1)). unfold uint. replace (8 * Z.of_nat (S n)) with (8 + 8 * Z.of_nat n) by lia.
  rewrite Z.pow_add_r by lia. rewrite Z.rem_mul_r by lia. change (2 ^ 8) with 256. f_equal.
  - rewrite Z.mul_comm, Z_mod_plus_full. apply Zmod_mod.
  - do 2 f_equal. rewrite Z.mul_comm, Z.div_add by lia. rewrite (Z.div_small (_ mod _)); [lia|]. apply Z.mod_pos_bound. lia.
Qed.
(** A wider load at the address of a store has the stored value in its low bytes. *)
Lemma load_low w a m : uint (bits w) (load DWORD a m) = load w a m.
Proof.
  unfold load. rewrite <- bits_bytes. change (width_bytes DWORD) with 4%nat.
  replace 4%nat with (width_bytes w + (4 - width_bytes w))%nat by (by destruct w). apply le_value_low.
Qed.

(** ** Steps *)
Section steps.
Context `{Finsh} `{Symbols}.
Definition steps : relation vm := rtc (fun s s' => vm_step s = Some s').
Lemma slot_in i pc st sp m : 0 <= i < FINSH_STACK_MAX -> slot i (mk_vm pc st sp m) = Some (st i).
Proof. intros Hi. unfold slot. destruct (Z.leb_spec 0 i), (Z.ltb_spec i FINSH_STACK_MAX); try lia. done. Qed.
Lemma set_slot_in i v pc st sp m : 0 <= i < FINSH_STACK_MAX -> set_slot i v (mk_vm pc st sp m) = Some (mk_vm pc (<[i := v]> st) sp m).
Proof. intros Hi. unfold set_slot. destruct (Z.leb_spec 0 i), (Z.ltb_spec i FINSH_STACK_MAX); try lia. done. Qed.
Lemma fetch_app bs pc st sp m : fetch (length bs) (mk_vm (bs ++ pc) st sp m) = Some (bs, mk_vm pc st sp m).
Proof.
  unfold fetch. cbn [finsh_pc]. rewrite decide_True by (rewrite length_app; lia). by rewrite take_app_length, drop_app_length.
Qed.
Lemma fetch_bytes n v pc st sp m : fetch n (mk_vm (le_bytes n v ++ pc) st sp m) = Some (le_bytes n v, mk_vm pc st sp m).
Proof. rewrite <- (length_le_bytes n v) at 1. apply fetch_app. Qed.
(** An operation behind its opcode. *)
Lemma steps_op op f pc st sp m s' s'' : op_table !! Z.to_nat (uint8 op) = Some f -> f (mk_vm pc st sp m) = Some s' ->
  steps s' s'' -> steps (mk_vm (uint8 op :: pc) st sp m) s''.
Proof.
  intros Hf E Hs. eapply rtc_l; [|exact Hs]. unfold vm_step. change (uint8 op :: pc) with ([uint8 op] ++ pc).
  rewrite (fetch_app [uint8 op]). cbn [mbind option_bind le_value]. rewrite Z.mul_0_r, Z.add_0_r, uint_uint by lia.
  rewrite Hf. cbn [mbind option_bind]. exact E.
Qed.
Definition binop_code (o : binop) : width -> Z :=
  match o with
  | Add => FINSH_OP_ADD | Sub => FINSH_OP_SUB | Div => FINSH_OP_DIV | Mod => FINSH_OP_MOD | Mul => FINSH_OP_MUL
  | And => FINSH_OP_AND | Or => FINSH_OP_OR | Xor => FINSH_OP_XOR | Shl => FINSH_OP_SHL | Shr => FINSH_OP_SHR
  end.
Lemma steps_bin o w pc st sp m r s : 2 <= sp <= FINSH_STACK_MAX -> c_binop o (get w (st (sp - 2))) (get w (st (sp - 1))) = Some r ->
  steps (mk_vm pc (<[sp - 2 := put w r (st (sp - 2))]> st) (sp - 1) m) s -> steps (mk_vm (uint8 (binop_code o w) :: pc) st sp m) s.
Proof.
  intros Hsp Hr. apply (steps_op _ (OP_bin o w)); [by destruct o, w|]. unfold OP_bin. cbn [finsh_sp].
  rewrite !slot_in by lia. cbn [mbind option_bind]. rewrite Hr. cbn [mbind option_bind]. by rewrite set_slot_in by lia.
Qed.
Lemma steps_bw w pc st sp m s : 1 <= sp <= FINSH_STACK_MAX ->
  steps (mk_vm pc (<[sp - 1 := put w (Z.lnot (get w (st (sp - 1)))) (st (sp - 1))]> st) sp m) s ->
  steps (mk_vm (uint8 (FINSH_OP_BITWISE w) :: pc) st sp m) s.
Proof.
  intros Hsp. apply (steps_op _ (OP_bw w)); [by destruct w|]. unfold OP_bw. cbn [finsh_sp].
  rewrite !slot_in by lia. cbn [mbind option_bind]. by rewrite set_slot_in by lia.
Qed.
Lemma steps_ld w v pc st sp m s : 0 <= sp < FINSH_STACK_MAX ->
  steps (mk_vm pc (<[sp := put w (uint (bits w) v) (st sp)]> st) (sp + 1) m) s ->
  steps (mk_vm (uint8 (FINSH_OP_LD w) :: le_bytes (width_bytes w) v ++ pc) st sp m) s.
Proof.
  intros Hsp. apply (steps_op _ (OP_ld w)); [by destruct w|]. unfold OP_ld. cbn [finsh_sp].
  rewrite slot_in by lia. cbn [mbind option_bind]. rewrite fetch_bytes. cbn [mbind option_bind finsh_sp].
  rewrite le_value_bytes, bits_bytes. by rewrite set_slot_in by lia.
Qed.
Lemma steps_ld_value w a pc st sp m s : 0 <= sp < FINSH_STACK_MAX ->
  steps (mk_vm pc (<[sp := put w (load w (uint32 a) m) (st sp)]> st) (sp + 1) m) s ->
  steps (mk_vm (uint8 (FINSH_OP_LD_VALUE w) :: le_bytes 4 a ++ pc) st sp m) s.
Proof.
  intros Hsp. apply (steps_op _ (OP_ld_value w)); [by destruct w|]. unfold OP_ld_value. cbn [finsh_sp].
  rewrite slot_in by lia. cbn [mbind option_bind]. rewrite fetch_bytes. cbn [mbind option_bind finsh_sp].
  rewrite le_value_bytes. by rewrite set_slot_in by lia.
Qed.
Lemma steps_ld_value_stack w pc st sp m s : 1 <= sp <= FINSH_STACK_MAX ->
  steps (mk_vm pc (<[sp - 1 := put w (load w (uint32 (st (sp - 1))) m) (st (sp - 1))]> st) sp m) s ->
  steps (mk_vm (uint8 (FINSH_OP_LD_VALUE_STACK w) :: pc) st sp m) s.
Proof.
  intros Hsp. apply (steps_op _ (OP_ld_value_stack w)); [by destruct w|]. unfold OP_ld_value_stack. cbn [finsh_sp vm_mem].
  rewrite !slot_in by lia. cbn [mbind option_bind]. by rewrite set_slot_in by lia.
Qed.
Lemma steps_st w pc st sp m s : 2 <= sp <= FINSH_STACK_MAX ->
  steps (mk_vm pc st (sp - 1) (store w (uint32 (st (sp - 2))) (get w (st (sp - 1))) m)) s ->
  steps (mk_vm (uint8 (FINSH_OP_ST w) :: pc) st sp m) s.
Proof.
  intros Hsp. apply (steps_op _ (OP_st w)); [by destruct w|]. unfold OP_st. cbn [finsh_sp vm_mem]. by rewrite !slot_in by lia.
Qed.
Lemma steps_pop pc st sp m s : steps (mk_vm pc st (sp - 1) m) s -> steps (mk_vm (uint8 FINSH_OP_POP :: pc) st sp m) s.
Proof. by apply (steps_op _ OP_pop). Qed.

(** ** Code of a node: it takes the arguments from the stack and leaves the result *)
Definition on_stack (st : Z -> Z) (sp : Z) (ds : list datum) : Prop := forall i d, ds !! i = Some d -> fits (st (sp + Z.of_nat i)) d.
Definition runs (code : list Z) (args : list datum) m (r : datum) m' : Prop := forall rest st sp,
  0 <= sp -> sp + Z.of_nat (length args) + 3 <= FINSH_STACK_MAX -> on_stack st sp args ->
  exists st', steps (mk_vm (code ++ rest) st (sp + Z.of_nat (length args)) m) (mk_vm rest st' (sp + 1) m') /\
    (forall i, i < sp -> st' i = st i) /\ fits (st' sp) r.
Lemma on_stack_0 st sp a ds : on_stack st sp (a :: ds) -> fits (st sp) a.
Proof. intros Hs. specialize (Hs 0%nat a eq_refl). by rewrite Z.add_0_r in Hs. Qed.
Lemma on_stack_1 st sp a b ds : on_stack st sp (a :: b :: ds) -> fits (st (sp + 1)) b.
Proof. intros Hs. exact (Hs 1%nat b eq_refl). Qed.
Ltac stack_frame := let i := fresh in let Hi := fresh in intros i Hi; rewrite ?upd_ne by lia; reflexivity.
(** One more run of a fixed code: the state afterwards is left to find. *)
Ltac step_with L := eapply L; [unfold FINSH_STACK_MAX in *; lia|].
Lemma runs_const w v m : runs (uint8 (FINSH_OP_LD w) :: le_bytes (width_bytes w) v) [] m (w, v) m.
Proof.
  intros rest st sp H1 H2 _. cbn [length] in *. rewrite Z.add_0_r in *. eexists. split; [|split].
  - cbn [app]. step_with steps_ld. reflexivity.
  - stack_frame.
  - rewrite upd_eq. unfold fits. cbn [fst snd]. rewrite uint_put. pose proof (bits_bounds w). apply uint_uint. lia.
Qed.
Lemma runs_load w a m : runs (uint8 (FINSH_OP_LD_VALUE w) :: le_bytes 4 a) [] m (w, load w (uint32 a) m) m.
Proof.
  intros rest st sp H1 H2 _. cbn [length] in *. rewrite Z.add_0_r in *. eexists. split; [|split].
  - cbn [app]. step_with steps_ld_value. reflexivity.
  - stack_frame.
  - rewrite upd_eq. apply fits_put.
Qed.
Lemma runs_bin o w a b x y r m : narrow w a = Some x -> narrow w b = Some y -> c_binop o x y = Some r ->
  runs [uint8 (binop_code o w)] [a; b] m (w, r) m.
Proof.
  intros Hx Hy Hr rest st sp H1 H2 Hs. change (Z.of_nat (length [a; b])) with 2 in *. eexists. split; [|split].
  - cbn [app]. eapply steps_bin; [unfold FINSH_STACK_MAX in *; lia| |].
    + replace (sp + 2 - 2) with sp by lia. replace (sp + 2 - 1) with (sp + 1) by lia.
      by rewrite (narrow_get w _ a x (on_stack_0 _ _ _ _ Hs) Hx), (narrow_get w _ b y (on_stack_1 _ _ _ _ _ Hs) Hy).
    + replace (sp + 2 - 1) with (sp + 1) by lia. reflexivity.
  - stack_frame.
  - replace (sp + 2 - 2) with sp by lia. rewrite upd_eq. apply fits_put.
Qed.
Lemma runs_bw w a x m : narrow w a = Some x -> runs [uint8 (FINSH_OP_BITWISE w)] [a] m (w, Z.lnot x) m.
Proof.
  intros Hx rest st sp H1 H2 Hs. change (Z.of_nat (length [a])) with 1 in *. eexists. split; [|split].
  - cbn [app]. step_with steps_bw. reflexivity.
  - stack_frame.
  - replace (sp + 1 - 1) with sp by lia. rewrite upd_eq, (narrow_get w _ a x (on_stack_0 _ _ _ _ Hs) Hx). apply fits_put.
Qed.
Lemma runs_deref w a x m : narrow DWORD a = Some x -> runs [uint8 (FINSH_OP_LD_VALUE_STACK w)] [a] m (w, load w (uint32 x) m) m.
Proof.
  intros Hx rest st sp H1 H2 Hs. change (Z.of_nat (length [a])) with 1 in *. eexists. split; [|split].
  - cbn [app]. step_with steps_ld_value_stack. reflexivity.
  - stack_frame.
  - replace (sp + 1 - 1) with sp by lia. rewrite upd_eq, (narrow_address _ a x (on_stack_0 _ _ _ _ Hs) Hx). apply fits_put.
Qed.
Lemma runs_assign w a v x y m : narrow DWORD a = Some x -> narrow w v = Some y ->
  runs [uint8 (FINSH_OP_ST w); uint8 (FINSH_OP_LD_VALUE_STACK w)] [a; v] m (w, y) (store w (uint32 x) y m).
Proof.
  intros Hx Hy rest st sp H1 H2 Hs. change (Z.of_nat (length [a; v])) with 2 in *. eexists. split; [|split].
  - cbn [app]. step_with steps_st. replace (sp + 2 - 1) with (sp + 1) by lia. replace (sp + 2 - 2) with sp by lia.
    rewrite (narrow_address _ a x (on_stack_0 _ _ _ _ Hs) Hx), (narrow_get w _ v y (on_stack_1 _ _ _ _ _ Hs) Hy).
    step_with steps_ld_value_stack. reflexivity.
  - stack_frame.
  - replace (sp + 1 - 1) with sp by lia. rewrite upd_eq, (narrow_address _ a x (on_stack_0 _ _ _ _ Hs) Hx).
    unfold fits. cbn [fst snd]. rewrite uint_put, load_store. pose proof (bits_bounds w). apply uint_uint. lia.
Qed.
(** [++x]: the result is a DWORD, of which the low bytes are the new value. *)
Lemma runs_pre o w a x var r m : narrow DWORD a = Some x ->
  c_binop o (get w (load w (uint32 var) m)) 1 = Some r ->
  runs (uint8 (FINSH_OP_LD_VALUE w) :: le_bytes 4 var ++ uint8 (FINSH_OP_LD w) :: le_bytes (width_bytes w) 1 ++
        [uint8 (binop_code o w); uint8 (FINSH_OP_ST w); uint8 (FINSH_OP_LD_VALUE_STACK DWORD)])
    [a] m (w, r) (store w (uint32 x) r m).
Proof.
  intros Hx Hr rest st sp H1 H2 Hs. change (Z.of_nat (length [a])) with 1 in *.
  pose proof (narrow_address _ a x (on_stack_0 _ _ _ _ Hs) Hx) as Ha. eexists. split; [|split].
  - cbn [app]. rewrite <- !app_assoc. cbn [app]. rewrite <- !app_assoc. step_with steps_ld_value. step_with steps_ld.
    replace (sp + 1 + 1) with (sp + 2) by lia. cbn [app]. eapply steps_bin; [unfold FINSH_STACK_MAX in *; lia| |].
    { replace (sp + 2 + 1 - 2) with (sp + 1) by lia. replace (sp + 2 + 1 - 1) with (sp + 2) by lia.
      rewrite upd_eq, upd_ne, upd_eq, !get_put, get_uint, get_one by lia. exact Hr. }
    replace (sp + 2 + 1 - 2) with (sp + 1) by lia. replace (sp + 2 + 1 - 1) with (sp + 2) by lia.
    step_with steps_st. replace (sp + 2 - 1) with (sp + 1) by lia. replace (sp + 2 - 2) with sp by lia.
    rewrite upd_eq, !(upd_ne _ _ sp) by lia.
    step_with steps_ld_value_stack. replace (sp + 1 - 1) with sp by lia. rewrite get_put, store_get, !(upd_ne _ _ sp), Ha by lia. reflexivity.
  - stack_frame.
  - rewrite upd_eq. unfold fits. cbn [fst snd]. by rewrite uint_put_dword, load_low, load_store.
Qed.
(** [x++]: the value that was on the stack stays. *)
Lemma runs_post o w a var r m : c_binop o (get w (load w (uint32 var) m)) 1 = Some r ->
  runs (uint8 (FINSH_OP_LD DWORD) :: le_bytes 4 var ++ uint8 (FINSH_OP_LD_VALUE w) :: le_bytes 4 var ++
        uint8 (FINSH_OP_LD w) :: le_bytes (width_bytes w) 1 ++
        [uint8 (binop_code o w); uint8 (FINSH_OP_ST w); uint8 FINSH_OP_POP])
    [a] m a (store w (uint32 var) r m).
Proof.
  intros Hr rest st sp H1 H2 Hs. change (Z.of_nat (length [a])) with 1 in *. eexists. split; [|split].
  - cbn [app]. rewrite <- !app_assoc. cbn [app]. rewrite <- !app_assoc. cbn [app]. rewrite <- !app_assoc.
    eapply (steps_ld DWORD); [unfold FINSH_STACK_MAX in *; lia|]. step_with steps_ld_value. step_with steps_ld.
    replace (sp + 1 + 1) with (sp + 2) by lia. replace (sp + 2 + 1) with (sp + 3) by lia.
    cbn [app]. eapply steps_bin; [unfold FINSH_STACK_MAX in *; lia| |].
    { replace (sp + 3 + 1 - 2) with (sp + 2) by lia. replace (sp + 3 + 1 - 1) with (sp + 3) by lia.
      rewrite upd_eq, upd_ne, upd_eq, !get_put, get_uint, get_one by lia. exact Hr. }
    replace (sp + 3 + 1 - 2) with (sp + 2) by lia. replace (sp + 3 + 1 - 1) with (sp + 3) by lia.
    step_with steps_st. replace (sp + 3 - 1) with (sp + 2) by lia. replace (sp + 3 - 2) with (sp + 1) by lia.
    rewrite upd_eq, !(upd_ne _ _ (sp + 1)), upd_eq by lia.
    apply steps_pop. replace (sp + 2 - 1) with (sp + 1) by lia. rewrite get_put, store_get.
    assert (uint32 (put DWORD (uint (bits DWORD) var) (st (sp + 1))) = uint32 var) as ->; [|reflexivity].
    rewrite (uint_put_dword DWORD). apply uint_uint. cbn. lia.
  - stack_frame.
  - rewrite !upd_ne by lia. by apply (on_stack_0 _ _ _ _ Hs).
Qed.
Lemma parameterv_spec xs pc st sp sp0 m : 0 <= sp - Z.of_nat (length xs) -> sp <= FINSH_STACK_MAX ->
  (forall k x, xs !! k = Some x -> uint32 (st (sp - Z.of_nat (length xs) + Z.of_nat k)) = x) ->
  parameterv (length xs) sp (mk_vm pc st sp0 m) = Some xs.
Proof.
  revert sp. induction xs as [|x xs IH] using rev_ind; intros sp H1 H2 Hx; [done|].
  rewrite length_app in *. cbn [length] in *. rewrite Nat.add_1_r in *. cbn [parameterv]. rewrite slot_in by lia. cbn [mbind option_bind].
  rewrite IH; [|lia..|].
  - cbn [mbind option_bind]. do 3 f_equal. rewrite <- (Hx (length xs) x) by (by rewrite lookup_app_r, Nat.sub_diag by lia).
    do 2 f_equal. lia.
  - intros k y Hk. rewrite <- (Hx k y) by (rewrite lookup_app_l; [done|]; by eapply lookup_lt_Some). do 2 f_equal. lia.
Qed.
Lemma on_stack_params ps xs st sp k x : mapM (narrow DWORD) ps = Some xs -> on_stack st sp ps ->
  xs !! k = Some x -> uint32 (st (sp + Z.of_nat k)) = uint32 x.
Proof.
  intros Hm Hs Hk. apply mapM_Some_1 in Hm. destruct (Forall2_lookup_r _ _ _ _ _ Hm Hk) as (d & Hd & Hn).
  by eapply narrow_address, Hn; apply Hs.
Qed.
Lemma runs_call f ps x xs r m m' : narrow DWORD f = Some x -> mapM (narrow DWORD) ps = Some xs -> (length ps <= 16)%nat ->
  op_func (uint32 x) (match xs with [] => [0] | _ => (fun x => uint32 x) <$> xs end) m = Some (r, m') ->
  runs [uint8 FINSH_OP_SYSCALL; uint8 (Z.of_nat (length ps))] (f :: ps) m (DWORD, r) m'.
Proof.
  intros Hx Hxs Hl Hf rest st sp H1 H2 Hs. pose proof (on_stack_0 _ _ _ _ Hs) as Hf0.
  assert (on_stack st (sp + 1) ps) as Hps by (intros i d Hd; rewrite <- (Z.add_assoc sp), (Z.add_1_l (Z.of_nat i)), <- Nat2Z.inj_succ; by apply Hs).
  assert (length xs = length ps) as Hlen by (by apply mapM_Some_1, Forall2_length in Hxs).
  cbn [length] in *. rewrite Nat2Z.inj_succ in *. set (ys := (fun x => uint32 x) <$> xs).
  assert (length ys = length ps) as Hys by (by unfold ys; rewrite length_fmap).
  exists (<[sp := uint32 r]> st). split; [|split; [stack_frame|]].
  2:{ rewrite upd_eq. unfold fits. cbn [fst snd]. apply uint_uint. cbn. lia. }
  apply (steps_op _ OP_call _ _ _ _ (mk_vm rest (<[sp := uint32 r]> st) (sp + 1) m')); [done| |reflexivity].
  assert (uint8 (Z.of_nat (length ps)) = Z.of_nat (length ps)) as E8 by (apply uint_small; lia).
  unfold OP_call. rewrite (fetch_app [uint8 (Z.of_nat (length ps))] rest). cbn [mbind option_bind le_value finsh_sp vm_mem].
  rewrite Z.mul_0_r, Z.add_0_r, !E8, Nat2Z.id, decide_False, <- Hys by lia.
  rewrite parameterv_spec; [|lia..|].
  - cbn [mbind option_bind]. rewrite slot_in by lia. cbn [mbind option_bind].
    replace (sp + Z.succ (Z.of_nat (length ys)) - 1 - Z.of_nat (length ys)) with sp by lia.
    rewrite (narrow_address _ f x Hf0 Hx).
    replace (match ys with [] => [0] | _ :: _ => ys end) with (match xs with [] => [0] | _ => ys end) by (unfold ys; by destruct xs).
    unfold ys. rewrite Hf. fold ys. cbn [mbind option_bind]. unfold set_mem. cbn [finsh_pc finsh_vm_stack finsh_sp].
    rewrite set_slot_in by (unfold FINSH_STACK_MAX in *; lia). cbn [mbind option_bind]. unfold move_sp.
    cbn [finsh_pc finsh_vm_stack finsh_sp vm_mem]. do 2 f_equal. lia.
  - intros k y Hk. unfold ys in Hk. rewrite list_lookup_fmap in Hk. destruct (xs !! k) as [z|] eqn:Hz; [|done]. injection Hk as <-.
    rewrite <- (on_stack_params ps xs st (sp + 1) k z) by done. do 2 f_equal. lia.
Qed.
Lemma runs_nil a m : runs [] [a] m a m.
Proof.
  intros rest st sp H1 H2 Hs. exists st. split; [reflexivity|]. split; [done|]. by apply (on_stack_0 _ _ _ _ Hs).
Qed.

(** ** The code of a node *)
(** A node's code is emitted, and it runs. *)
Definition compiled (o : option output) (args : list datum) m r m' : Prop := exists c e, o = Some (c, e) /\ runs c args m r m'.
Lemma node_var idtype t addr m r : eval_var idtype t addr m = Some r -> compiled (Some (compile_var idtype t addr)) [] m r m.
Proof.
  unfold eval_var, compile_var. destruct (load_width t) as [w|]; [|done]. cbn [mbind option_bind].
  intros [= <-]. destruct (flag idtype FINSH_IDTYPE_ADDRESS); eexists _, _; (split; [reflexivity|]); [apply (runs_const DWORD)|apply runs_load].
Qed.
Lemma node_id idtype id m r : eval_id idtype id m = Some r -> compiled (Some (compile_id idtype id)) [] m r m.
Proof.
  unfold eval_id, compile_id. destruct (flag idtype FINSH_IDTYPE_SYSCALL).
  { intros [= <-]. eexists _, _. split; [reflexivity|]. apply (runs_const DWORD). }
  destruct (id =? 0); [done|]. destruct (flag idtype FINSH_IDTYPE_SYSVAR); apply node_var.
Qed.
Lemma node_bin type o dt idtype value id child a b m r m' : binop_of type = Some o ->
  (w ← width_of dt; x ← narrow w a; y ← narrow w b; r ← c_binop o x y; Some ((w, r), m)) = Some (r, m') ->
  compiled (compile_node type dt idtype value id child) [a; b] m r m'.
Proof.
  intros Ho. assert (compile_node type dt idtype value id child = Some (compile_op (binop_code o) dt)) as ->.
  { destruct type; cbn in Ho; by simplify_eq. }
  unfold compile_op. destruct (width_of dt) as [w|]; [|done]. cbn [mbind option_bind].
  destruct (narrow w a) as [x|] eqn:Hx; [|done]. destruct (narrow w b) as [y|] eqn:Hy; [|done]. cbn [mbind option_bind].
  destruct (c_binop o x y) as [z|] eqn:Hr; [|done]. intros [= <- <-].
  eexists _, _. split; [reflexivity|]. by eapply runs_bin.
Qed.
Lemma node_pre o dt child a m r m' : 
  (w ← width_of dt; p ← narrow DWORD a; '(new, m) ← eval_step o w p (child_id child) m; Some ((w, new), m)) = Some (r, m') ->
  compiled (Some (compile_pre (binop_code o) dt (child_id child))) [a] m r m'.
Proof.
  unfold compile_pre, eval_step. destruct (width_of dt) as [w|]; [|done]. cbn [mbind option_bind].
  destruct (narrow DWORD a) as [x|] eqn:Hx; [|done]. cbn [mbind option_bind].
  destruct (c_binop _ _ _) as [z|] eqn:Hr; [|done]. intros [= <- <-].
  eexists _, _. split; [reflexivity|]. pose proof (runs_pre o w a x _ z m Hx Hr) as R. by destruct w.
Qed.
Lemma node_post o dt child a m r m' :
  (w ← width_of dt; '(_, m) ← eval_step o w (var_value (child_id child)) (child_id child) m; Some (a, m)) = Some (r, m') ->
  compiled (Some (compile_post (binop_code o) dt (child_id child))) [a] m r m'.
Proof.
  unfold compile_post, eval_step. destruct (width_of dt) as [w|]; [|done]. cbn [mbind option_bind].
  destruct (c_binop _ _ _) as [z|] eqn:Hr; [|done]. intros [= <- <-].
  eexists _, _. split; [reflexivity|]. pose proof (runs_post o w a _ z m Hr) as R. by destruct w.
Qed.
Lemma node_store w dt a v m r m' : width_of dt = Some w ->
  (x ← narrow DWORD a; y ← narrow w v; Some ((w, y), store w (uint32 x) y m)) = Some (r, m') ->
  compiled (Some (compile_store dt)) [a; v] m r m'.
Proof.
  intros Hw. unfold compile_store. rewrite Hw.
  destruct (narrow DWORD a) as [x|] eqn:Hx; [|done]. cbn [mbind option_bind].
  destruct (narrow w v) as [y|] eqn:Hy; [|done]. intros [= <- <-]. eexists _, _. split; [reflexivity|]. by apply runs_assign.
Qed.
Lemma node_call dt idtype value id child args m r m' : Z.of_nat (length args) = siblings child ->
  eval_node FINSH_NODE_SYS_FUNC dt idtype value id child args m = Some (r, m') ->
  compiled (compile_node FINSH_NODE_SYS_FUNC dt idtype value id child) args m r m'.
Proof.
  intros Hl. destruct args as [|f ps]; [done|]. destruct child as [|ty d it v i sib ch]; [cbn in Hl; lia|].
  cbn [eval_node compile_node siblings length] in *.
  destruct (narrow DWORD f) as [x|] eqn:Hx; [|done]. cbn [mbind option_bind].
  destruct (mapM (narrow DWORD) ps) as [xs|] eqn:Hxs; [|done]. cbn [mbind option_bind]. case_decide; [done|].
  destruct (op_func _ _ m) as [[z m1]|] eqn:Hf; [|done]. intros [= <- <-].
  replace (siblings sib) with (Z.of_nat (length ps)) by lia. eexists _, _. split; [reflexivity|]. apply (runs_call f ps x xs); [done..|lia|done].
Qed.
(** Every node with a meaning is translated to code that computes it. *)
Lemma node_runs type dt idtype value id child args m r m' : Z.of_nat (length args) = siblings child ->
  eval_node type dt idtype value id child args m = Some (r, m') -> compiled (compile_node type dt idtype value id child) args m r m'.
Proof.
  intros Hl. destruct (decide (type = FINSH_NODE_SYS_FUNC)) as [->|Hnf]; [by apply node_call|].
  destruct args as [|a [|b [|c args]]].
  - destruct type; try done; cbn [eval_node].
    + destruct (eval_id idtype id m) as [v|] eqn:E; [|done]. intros [= <- <-]. by apply node_id.
    + intros [= <- <-]. eexists _, _. split; [reflexivity|]. apply (runs_const BYTE).
    + intros [= <- <-]. eexists _, _. split; [reflexivity|]. apply (runs_const DWORD).
    + intros [= <- <-]. eexists _, _. split; [reflexivity|]. apply (runs_const DWORD).
    + intros [= <- <-]. eexists _, _. split; [reflexivity|]. apply (runs_const DWORD).
    + intros [= <- <-]. eexists _, _. split; [reflexivity|]. apply (runs_const DWORD).
  - destruct type; try done; cbn [eval_node step_of mbind option_bind compile_node].
    + unfold compile_op. destruct (width_of dt) as [w|]; [|done]. cbn [mbind option_bind].
      destruct (narrow w a) as [x|] eqn:Hx; [|done]. intros [= <- <-]. eexists _, _. split; [reflexivity|]. by apply runs_bw.
    + destruct (width_of dt) eqn:E; [|done]. cbn [mbind option_bind]. case_decide; [|done]. intros Hr. apply (node_pre Add). by rewrite E.
    + destruct (width_of dt) eqn:E; [|done]. cbn [mbind option_bind]. case_decide; [|done]. intros Hr. apply (node_pre Sub). by rewrite E.
    + destruct (width_of dt) eqn:E; [|done]. cbn [mbind option_bind]. case_decide; [|done]. intros Hr. apply (node_post Add). by rewrite E.
    + destruct (width_of dt) eqn:E; [|done]. cbn [mbind option_bind]. case_decide; [|done]. intros Hr. apply (node_post Sub). by rewrite E.
    + destruct (flag idtype FINSH_IDTYPE_ADDRESS); [intros [= <- <-]; eexists _, _; (split; [reflexivity|]); apply runs_nil|].
      unfold compile_op. destruct (width_of dt) as [w|]; [|done]. cbn [mbind option_bind].
      destruct (narrow DWORD a) as [x|] eqn:Hx; [|done]. intros [= <- <-]. eexists _, _. split; [reflexivity|]. by apply runs_deref.
    + intros [= <- <-]. eexists _, _. split; [reflexivity|]. apply runs_nil.
  - destruct (binop_of type) as [o|] eqn:Ho.
    + intros Hr. apply (node_bin type o); [done|]. destruct type; try done; cbn in Ho; simplify_eq; exact Hr.
    + destruct type; try done. cbn [eval_node compile_node]. unfold assign_type.
      destruct child as [|ty d it v i sib ch]; [done|]. destruct ty; try done.
      * destruct (width_of d) as [w|] eqn:Hw; [|done]. by apply node_store.
      * destruct (width_of _) as [w|] eqn:Hw; [|done]. by apply node_store.
  - by destruct type.
Qed.

(** ** The code of a tree *)
Lemma eval_length t m vs m' : eval t m = Some (vs, m') -> Z.of_nat (length vs) = siblings t.
Proof.
  revert m vs m'. induction t as [|ty dt it v id sib IHs ch IHc]; intros m vs m'; cbn [eval siblings]; [by intros [= <- <-]|].
  destruct (eval ch m) as [[args m1]|]; [|done]. cbn [mbind option_bind]. destruct (eval_node _ _ _ _ _ _ _ _) as [[r m2]|]; [|done].
  cbn [mbind option_bind]. destruct (eval sib m2) as [[rs m3]|] eqn:E; [|done]. intros [= <- <-]. cbn [length]. rewrite Nat2Z.inj_succ, (IHs _ _ _ E). lia.
Qed.
Lemma size_nonneg t : 0 <= size t.
Proof. induction t; cbn [size]; lia. Qed.
Lemma siblings_size t : siblings t <= size t.
Proof. induction t; cbn [size siblings]; [lia|]. pose proof (size_nonneg t2). lia. Qed.
Definition tree_runs (code : list Z) (room : Z) m (vs : list datum) m' : Prop := forall rest st sp,
  0 <= sp -> sp + room <= FINSH_STACK_MAX ->
  exists st', steps (mk_vm (code ++ rest) st sp m) (mk_vm rest st' (sp + Z.of_nat (length vs)) m') /\
    (forall i, i < sp -> st' i = st i) /\ on_stack st' sp vs.
Lemma compile_runs t m vs m' : eval t m = Some (vs, m') -> exists c e, finsh_compile t = Some (c, e) /\ tree_runs c (size t + 2) m vs m'.
Proof.
  revert m vs m'. induction t as [|ty dt it v id sib IHs ch IHc]; intros m vs m'; cbn [eval finsh_compile].
  { intros [= <- <-]. eexists _, _. split; [reflexivity|]. intros rest st sp H1 H2. exists st. cbn. rewrite Z.add_0_r. split; [reflexivity|]. split; done. }
  destruct (eval ch m) as [[args m1]|] eqn:Ec; [|done]. cbn [mbind option_bind].
  destruct (eval_node _ _ _ _ _ _ _ _) as [[r m2]|] eqn:En; [|done]. cbn [mbind option_bind].
  destruct (eval sib m2) as [[rs m3]|] eqn:Es; [|done]. intros [= <- <-].
  destruct (IHc _ _ _ Ec) as (cc & ec & -> & Rc). destruct (IHs _ _ _ Es) as (cs & es & -> & Rs).
  pose proof (eval_length _ _ _ _ Ec) as Hl. destruct (node_runs _ _ _ _ _ _ _ _ _ _ Hl En) as (cn & en & -> & Rn).
  cbn [mbind option_bind]. eexists _, _. split; [reflexivity|]. cbn [emit fst snd]. intros rest st sp H1 H2. cbn [size] in H2.
  pose proof (siblings_size ch). pose proof (size_nonneg ch). pose proof (size_nonneg sib). rewrite <- !app_assoc.
  destruct (Rc (cn ++ cs ++ rest) st sp) as (st1 & S1 & F1 & V1); [lia|lia|].
  destruct (Rn (cs ++ rest) st1 sp) as (st2 & S2 & F2 & V2); [lia|lia|done|].
  destruct (Rs rest st2 (sp + 1)) as (st3 & S3 & F3 & V3); [lia|lia|].
  exists st3. cbn [length]. rewrite Nat2Z.inj_succ. replace (sp + Z.succ _) with (sp + 1 + Z.of_nat (length rs)) by lia.
  split; [etrans; [exact S1|]; etrans; [exact S2|exact S3]|]. split; [intros i Hi; rewrite F3, F2, F1 by lia; done|].
  intros [|i] d Hd; cbn in Hd; [injection Hd as <-; rewrite Z.add_0_r, F3 by lia; exact V2|].
  rewrite Nat2Z.inj_succ. replace (sp + Z.succ (Z.of_nat i)) with (sp + 1 + Z.of_nat i) by lia. by apply V3.
Qed.
(** ** Programs *)
Lemma program_runs t m v m' : eval_program t m = Some (v, m') ->
  exists c e, compile_statements t = Some (c, e) /\ tree_runs c (size t + 2) m [v] m'.
Proof.
  revert m. induction t as [|ty dt it vl id sib IHs ch _]; intros m; cbn [eval_program compile_statements]; [done|].
  destruct (eval (set_sibling NULL _) m) as [[vs m1]|] eqn:E; [|done]. cbn [mbind option_bind].
  destruct (compile_runs _ _ _ _ E) as (c & e & -> & R). cbn [mbind option_bind]. cbn [set_sibling size] in R.
  destruct vs as [|v1 [|? ?]]; [done| |done]. pose proof (size_nonneg ch).
  assert (0 <= size sib) by apply size_nonneg.
  intros Hs. assert (compiled_rest : sib = NULL \/ exists cs es, eval_program sib m1 = Some (v, m') /\ compile_statements sib = Some (cs, es) /\
    match sib with NULL => no_code | _ => finsh_code_byte FINSH_OP_POP end = finsh_code_byte FINSH_OP_POP /\ tree_runs cs (size sib + 2) m1 [v] m').
  { destruct sib; [by left|right]. destruct (IHs _ Hs) as (cs & es & Ecs & Rcs). by exists cs, es. }
  destruct compiled_rest as [->|(cs & es & Hp & -> & -> & Rs)]; cbn [compile_statements mbind option_bind emit fst snd no_code finsh_code_byte].
  - injection Hs as -> ->. eexists _, _. split; [reflexivity|]. cbn [app]. rewrite app_nil_r.
    intros rest st sp H3 H4. apply R; [done|]. cbn [size] in *. lia.
  - eexists _, _. split; [reflexivity|]. intros rest st sp H3 H4. cbn [size] in H4. rewrite <- !app_assoc.
    destruct (R ([uint8 FINSH_OP_POP] ++ cs ++ rest) st sp) as (st1 & S1 & F1 & _); [lia|lia|].
    destruct (Rs rest st1 sp) as (st2 & S2 & F2 & V2); [lia|lia|].
    exists st2. split; [|split; [intros i Hi; rewrite F2, F1 by lia; done|done]].
    etrans; [exact S1|]. cbn [app]. apply steps_pop. change (Z.of_nat (length [v1])) with 1. by replace (sp + 1 - 1) with sp by lia.
Qed.
(** A step never moves the program counter back, so that the length of the text bounds the
    rounds. *)
Lemma fetch_length n s bs s' : fetch n s = Some (bs, s') -> length (finsh_pc s) = (n + length (finsh_pc s'))%nat.
Proof. unfold fetch. case_decide; [|done]. intros [= <- <-]. cbn [set_pc finsh_pc]. rewrite length_drop. lia. Qed.
Definition shrinks (f : vm -> option vm) : Prop := forall s s', f s = Some s' -> (length (finsh_pc s') <= length (finsh_pc s))%nat.
Lemma set_slot_pc i v s s' : set_slot i v s = Some s' -> length (finsh_pc s') = length (finsh_pc s).
Proof. unfold set_slot. case_match; [|done]. by intros [= <-]. Qed.
Ltac shrink_step :=
  match goal with
  | H : mbind _ _ = Some _ |- _ => apply bind_Some in H as (? & ? & H)
  | x : (_ * vm)%type |- _ => destruct x
  | x : (Z * memory)%type |- _ => destruct x
  | H : Some _ = Some _ |- _ => injection H as <-
  | H : set_slot _ _ _ = Some _ |- _ => apply set_slot_pc in H
  | H : fetch _ _ = Some _ |- _ => apply fetch_length in H
  | H : (if ?b then None else _) = Some _ |- _ => destruct b; [done|]
  end.
Ltac shrink := intros s s' E; repeat shrink_step; cbn [move_sp set_mem finsh_pc] in *; lia.
Lemma shrinks_bin o w : shrinks (OP_bin o w).
Proof. unfold OP_bin. shrink. Qed.
Lemma shrinks_bw w : shrinks (OP_bw w).
Proof. unfold OP_bw. shrink. Qed.
Lemma shrinks_ld w : shrinks (OP_ld w).
Proof. unfold OP_ld. shrink. Qed.
Lemma shrinks_ld_value w : shrinks (OP_ld_value w).
Proof. unfold OP_ld_value. shrink. Qed.
Lemma shrinks_ld_value_stack w : shrinks (OP_ld_value_stack w).
Proof. unfold OP_ld_value_stack. shrink. Qed.
Lemma shrinks_st w : shrinks (OP_st w).
Proof. unfold OP_st. shrink. Qed.
Lemma shrinks_call : shrinks OP_call.
Proof. unfold OP_call. shrink. Qed.
Lemma op_table_shrinks : Forall shrinks op_table.
Proof.
  unfold op_table. repeat (apply Forall_cons; split); try apply Forall_nil; auto using shrinks_bin, shrinks_bw, shrinks_ld,
    shrinks_ld_value, shrinks_ld_value_stack, shrinks_st, shrinks_call; unfold OP_pop; shrink.
Qed.
Lemma vm_step_length s s' : vm_step s = Some s' -> (length (finsh_pc s') < length (finsh_pc s))%nat.
Proof.
  unfold vm_step. intros E. apply bind_Some in E as ([op s1] & E1%fetch_length & E). apply bind_Some in E as (f & Hf & E).
  pose proof (proj1 (Forall_lookup _ _) op_table_shrinks _ _ Hf _ _ E). lia.
Qed.
(** Enough rounds: the loop does not depend on more. *)
Lemma vm_loop_fuel f1 f2 s : (length (finsh_pc s) <= f1)%nat -> (length (finsh_pc s) <= f2)%nat -> vm_loop f1 s = vm_loop f2 s.
Proof.
  revert f2 s. induction f1 as [|f1 IH]; intros [|f2] s H1 H2.
  1-3: assert (finsh_pc s = []) as E by (apply length_zero_iff_nil; lia); cbn [vm_loop]; by rewrite E.
  cbn [vm_loop]. destruct (finsh_pc s) eqn:E; [done|]. destruct (vm_step s) as [s1|] eqn:Es; [|done].
  apply vm_step_length in Es. rewrite E in Es. cbn [mbind option_bind length] in *. apply IH; lia.
Qed.
Lemma steps_loop s s' : steps s s' -> finsh_pc s' = [] -> forall fuel, (length (finsh_pc s) <= fuel)%nat -> vm_loop fuel s = Some s'.
Proof.
  intros Hs He. induction Hs as [s|s s1 s' Hst Hs IH]; intros fuel Hf.
  - destruct fuel; cbn [vm_loop]; by rewrite He.
  - pose proof (vm_step_length _ _ Hst). destruct fuel as [|fuel]; [lia|]. cbn [vm_loop].
    destruct (finsh_pc s) eqn:E; [cbn in *; lia|]. rewrite Hst. cbn [mbind option_bind]. apply IH; [done|]. cbn [length] in *. lia.
Qed.
(** The rest of the text segment is zero, and 0 does nothing. *)
Lemma steps_noop k st sp m : steps (mk_vm (replicate k 0) st sp m) (mk_vm [] st sp m).
Proof.
  induction k as [|k IH]; [reflexivity|]. cbn [replicate]. apply (steps_op 0 Some _ _ _ _ (mk_vm (replicate k 0) st sp m)); [done|done|exact IH].
Qed.

(** The machine runs the code of a program to the end of the text segment. *)
Lemma tree_runs_vm code room m v m' stack : tree_runs code room m [v] m' -> room <= FINSH_STACK_MAX ->
  exists stack', finsh_vm_run (code ++ replicate (Z.to_nat FINSH_TEXT_MAX - length code) 0) stack m = Some (mk_vm [] stack' 1 m') /\
    fits (stack' 0) v.
Proof.
  intros R Hr. destruct (R (replicate (Z.to_nat FINSH_TEXT_MAX - length code) 0) stack 0) as (st & S & _ & V); [lia|lia|].
  exists st. split; [|by apply on_stack_0 in V]. apply steps_loop; [|done|done]. etrans; [exact S|]. apply steps_noop.
Qed.
Lemma finsh_compiler_run_code root text errors m v m' : finsh_compiler_run root = Some (text, errors) ->
  eval_program (fst (finsh_type_check root 0)) m = Some (v, m') ->
  exists code, text = code ++ replicate (Z.to_nat FINSH_TEXT_MAX - length code) 0 /\
    tree_runs code (size (fst (finsh_type_check root 0)) + 2) m [v] m'.
Proof.
  unfold finsh_compiler_run. destruct (finsh_type_check root 0) as [node e0]. cbn [fst]. intros Hc Hp.
  destruct (program_runs _ _ _ _ Hp) as (c & e & E & R). rewrite E in Hc. cbn [mbind option_bind] in Hc.
  case_decide; [|done]. injection Hc as <- _. by exists c.
Qed.

(** C31 The compiler and the virtual machine of the shell agree with the meaning of the tree: if a
    program that passed the type check has a meaning, in which no operation takes more bytes of
    a value than its operands have, its code fits into the text segment and the tree has no more
    nodes than the node table, then the machine runs to the end of the segment, leaves the memory
    the program leaves and nothing but the value of its last statement on the stack. *)
Theorem finsh_run_correct root text errors stack m v m' :
  eval_program (fst (finsh_type_check root 0)) m = Some (v, m') -> size (fst (finsh_type_check root 0)) <= FINSH_NODE_MAX ->
  finsh_compiler_run root = Some (text, errors) ->
  exists stack', finsh_vm_run text stack m = Some (mk_vm [] stack' 1 m') /\ fits (stack' 0) v.
Proof.
  intros Hp Hsz Hc. destruct (finsh_compiler_run_code _ _ _ _ _ _ Hc Hp) as (code & -> & R).
  apply (tree_runs_vm _ _ _ _ _ stack R). unfold FINSH_STACK_MAX, FINSH_NODE_MAX in *. lia.
Qed.
(** The loop of the virtual machine terminates for every text segment: with as many rounds as the
    segment has bytes it is through, and more rounds change nothing. *)
Theorem finsh_vm_run_terminates fuel text stack m : (length text <= fuel)%nat ->
  vm_loop fuel (mk_vm text stack 0 m) = finsh_vm_run text stack m.
Proof. intros Hf. by apply vm_loop_fuel. Qed.
End steps.
