(* ===== verification/FinshInt.v ===== *)
(** What a user of the shell relies on: statements over variables of type int and long are
    computed as C computes them, from the tree the parser builds to the value the shell
    prints. *)
From S2P Require Import Prelude MemOps FinshVM FinshCompiler FinshCorrect.
Implicit Types (m : memory).

(** ** Integer expressions *)
Inductive expr :=
| Num (z : Z)
| Var (id : Z)
| Bin (o : binop) (a b : expr)
| Neg (a : expr)
| Not (a : expr)
| Assign (id : Z) (a : expr)
| Step (pre : bool) (up : bool) (id : Z).

Section finsh_int.
Context `{Finsh} `{Symbols}.

(** The int variable at [&var->value]. *)
Definition int_var (id : Z) m : Z := int32 (load DWORD (uint32 (var_value id)) m).
Definition set_int_var (id v : Z) m : memory := store DWORD (uint32 (var_value id)) v m.
(** The value of an expression and its effects, left to right; [None] where C leaves the
    result open. *)
Fixpoint sem (e : expr) m : option (Z * memory) :=
  match e with
  | Num z => Some (int32 z, m)
  | Var id => Some (int_var id m, m)
  | Bin o a b => '(x, m) ← sem a m; '(y, m) ← sem b m; r ← c_binop o x y; Some (int32 r, m)
  | Neg a => '(x, m) ← sem a m; Some (int32 (- x), m)
  | Not a => '(x, m) ← sem a m; Some (int32 (Z.lnot x), m)
  | Assign id a => '(x, m) ← sem a m; Some (x, set_int_var id x m)
  | Step pre up id =>
    let old := int_var id m in
    let new := int32 (if up then old + 1 else old - 1) in
    Some (if pre then new else old, set_int_var id new m)
  end.
Fixpoint sem_program (es : list expr) m : option (Z * memory) :=
  match es with
  | [] => None
  | [e] => sem e m
  | e :: es => '(_, m) ← sem e m; sem_program es m
  end.

(** The trees of the parser (make_sys_node and finsh_node_new_id of a variable). *)
Definition binop_node (o : binop) : node_type :=
  match o with
  | Add => FINSH_NODE_SYS_ADD | Sub => FINSH_NODE_SYS_SUB | Div => FINSH_NODE_SYS_DIV | Mod => FINSH_NODE_SYS_MOD
  | Mul => FINSH_NODE_SYS_MUL | And => FINSH_NODE_SYS_AND | Or => FINSH_NODE_SYS_OR | Xor => FINSH_NODE_SYS_XOR
  | Shl => FINSH_NODE_SYS_SHL | Shr => FINSH_NODE_SYS_SHR
  end.
Definition step_node (pre up : bool) : node_type :=
  match pre, up with
  | true, true => FINSH_NODE_SYS_PREINC | true, false => FINSH_NODE_SYS_PREDEC
  | false, true => FINSH_NODE_SYS_INC | false, false => FINSH_NODE_SYS_DEC
  end.
Definition sys_node (type : node_type) (sibling child : finsh_node) : finsh_node := Node type 0 0 0 0 sibling child.
Definition var_node (id : Z) (sibling : finsh_node) : finsh_node := Node FINSH_NODE_ID 0 FINSH_IDTYPE_VAR 0 id sibling NULL.
Fixpoint tree_of (e : expr) (sibling : finsh_node) : finsh_node :=
  match e with
  | Num z => Node FINSH_NODE_VALUE_INT 0 0 z 0 sibling NULL
  | Var id => var_node id sibling
  | Bin o a b => sys_node (binop_node o) sibling (tree_of a (tree_of b NULL))
  | Neg a => sys_node FINSH_NODE_SYS_SUB sibling (Node FINSH_NODE_VALUE_LONG 0 0 0 0 (tree_of a NULL) NULL)
  | Not a => sys_node FINSH_NODE_SYS_BITWISE sibling (tree_of a NULL)
  | Assign id a => sys_node FINSH_NODE_SYS_ASSIGN sibling (var_node id (tree_of a NULL))
  | Step pre up id => sys_node (step_node pre up) sibling (var_node id NULL)
  end.
Fixpoint tree_of_program (es : list expr) : finsh_node :=
  match es with [] => NULL | e :: es => tree_of e (tree_of_program es) end.
(** The variables are of type int or long; the machine computes with unsigned ones as with
    signed ones. *)
Definition int_typed (id : Z) : Prop :=
  id <> 0 /\ var_type id ∈ [finsh_type_int; finsh_type_long].
Fixpoint int_expr (e : expr) : Prop :=
  match e with
  | Num _ => True
  | Var id | Step _ _ id => int_typed id
  | Bin _ a b => int_expr a /\ int_expr b
  | Neg a | Not a => int_expr a
  | Assign id a => int_typed id /\ int_expr a
  end.

(** ** Types *)
Definition checked (n : finsh_node) : finsh_node := fst (finsh_type_check n 0).
Lemma int_typed_dword id : int_typed id -> data_type_of (var_type id) = Some FINSH_DATA_TYPE_DWORD /\ load_width (var_type id) = Some DWORD.
Proof. intros [_ Ht]. repeat (apply elem_of_cons in Ht as [->|Ht]; [done|]). by apply elem_of_nil in Ht. Qed.
Lemma check_node ty dt it v id sib ch :
  checked (Node ty dt it v id sib ch) =
    let ch' := fst (finsh_type_check ch (if checks_address ty then FINSH_IDTYPE_ADDRESS else 0)) in
    let it' := if it =? FINSH_IDTYPE_SYSCALL then it else Z.lor it 0 in
    Node ty (match ch' with NULL => fst (leaf_type ty dt it' id) | Node _ d _ _ _ _ _ => d end) it' v id (checked sib) ch'.
Proof.
  unfold checked. cbn [finsh_type_check]. rewrite andb_false_r.
  destruct (finsh_type_check ch _) as [ch' e1]. destruct (finsh_type_check sib 0) as [sib' e2]. cbn [fst].
  destruct ch'; [|done]. by destruct (leaf_type _ _ _ _).
Qed.
Lemma check_var id sib is_addr : int_typed id -> is_addr = 0 \/ is_addr = FINSH_IDTYPE_ADDRESS ->
  fst (finsh_type_check (var_node id sib) is_addr) =
    Node FINSH_NODE_ID FINSH_DATA_TYPE_DWORD (Z.lor FINSH_IDTYPE_VAR is_addr) 0 id (checked sib) NULL.
Proof.
  intros Hid. destruct (int_typed_dword _ Hid) as [Hd _]. destruct Hid as [H0' _]. unfold checked, var_node. cbn [finsh_type_check].
  destruct (finsh_type_check sib 0) as [sib' e2]. cbn [fst leaf_type].
  apply Z.eqb_neq in H0'. intros [->| ->]; cbn; by rewrite H0', Hd.
Qed.
Lemma checks_binop o : checks_address (binop_node o) = false.
Proof. by destruct o. Qed.
Lemma checks_step pre up : checks_address (step_node pre up) = pre.
Proof. by destruct pre, up. Qed.
(** The annotated tree: type DWORD everywhere, and an address exactly for the variables
    that are assigned or stepped first. *)
Fixpoint typed_tree (e : expr) (sibling : finsh_node) : finsh_node :=
  let sys type child := Node type FINSH_DATA_TYPE_DWORD 0 0 0 sibling child in
  let var addr id sibling := Node FINSH_NODE_ID FINSH_DATA_TYPE_DWORD (if (addr : bool) then 9 else 1) 0 id sibling NULL in
  match e with
  | Num z => Node FINSH_NODE_VALUE_INT FINSH_DATA_TYPE_DWORD 0 z 0 sibling NULL
  | Var id => var false id sibling
  | Bin o a b => sys (binop_node o) (typed_tree a (typed_tree b NULL))
  | Neg a => sys FINSH_NODE_SYS_SUB (Node FINSH_NODE_VALUE_LONG FINSH_DATA_TYPE_DWORD 0 0 0 (typed_tree a NULL) NULL)
  | Not a => sys FINSH_NODE_SYS_BITWISE (typed_tree a NULL)
  | Assign id a => sys FINSH_NODE_SYS_ASSIGN (var true id (typed_tree a NULL))
  | Step pre up id => sys (step_node pre up) (var pre id NULL)
  end.
Lemma typed_dword e sib : exists ty it v id ch, typed_tree e sib = Node ty FINSH_DATA_TYPE_DWORD it v id sib ch.
Proof. destruct e; eexists _, _, _, _, _; reflexivity. Qed.
Lemma check_sys type sib ch ty it v id sib' ch' :
  fst (finsh_type_check ch (if checks_address type then FINSH_IDTYPE_ADDRESS else 0)) = Node ty FINSH_DATA_TYPE_DWORD it v id sib' ch' ->
  checked (sys_node type sib ch) = Node type FINSH_DATA_TYPE_DWORD 0 0 0 (checked sib) (Node ty FINSH_DATA_TYPE_DWORD it v id sib' ch').
Proof. intros E. unfold sys_node. by rewrite check_node, E. Qed.
Lemma checked_typed e sib : int_expr e -> checked (tree_of e sib) = typed_tree e (checked sib).
Proof.
  revert sib. induction e as [z|id|o a IHa b IHb|a IHa|a IHa|id a IHa|pre up id]; intros sib He; cbn [tree_of int_expr typed_tree] in *.
  - by rewrite check_node.
  - unfold checked at 1. by rewrite check_var by auto.
  - destruct He as [Ha Hb]. destruct (typed_dword a (typed_tree b NULL)) as (ty & it & v & id & ch & E). rewrite E.
    apply check_sys. rewrite checks_binop. change (checked (tree_of a (tree_of b NULL)) = Node ty FINSH_DATA_TYPE_DWORD it v id (typed_tree b NULL) ch).
    by rewrite (IHa _ Ha), (IHb _ Hb).
  - apply check_sys. cbn [checks_address]. change (checked (Node FINSH_NODE_VALUE_LONG 0 0 0 0 (tree_of a NULL) NULL) = Node FINSH_NODE_VALUE_LONG FINSH_DATA_TYPE_DWORD 0 0 0 (typed_tree a NULL) NULL).
    by rewrite check_node, (IHa _ He).
  - destruct (typed_dword a NULL) as (ty & it & v & id & ch & E). rewrite E. apply check_sys.
    change (checked (tree_of a NULL) = Node ty FINSH_DATA_TYPE_DWORD it v id NULL ch). by rewrite (IHa _ He).
  - destruct He as [Hid Ha]. apply check_sys. change (checks_address FINSH_NODE_SYS_ASSIGN) with true. cbn match.
    by rewrite check_var, (IHa _ Ha) by auto.
  - destruct pre, up; apply check_sys; cbn [step_node]; (rewrite check_var; [done|done|]); [by right..|by left|by left].
Qed.

(** No error is set. *)
Definition silent (n : finsh_node) : Prop := forall is_addr, is_addr = 0 \/ is_addr = FINSH_IDTYPE_ADDRESS -> snd (finsh_type_check n is_addr) = [].
Lemma silent_null : silent NULL.
Proof. by intros a _. Qed.
Lemma silent_node ty dt it v id sib ch : silent ch -> silent sib ->
  (ch = NULL -> forall a, a = 0 \/ a = FINSH_IDTYPE_ADDRESS -> snd (leaf_type ty dt (if it =? FINSH_IDTYPE_SYSCALL then it else Z.lor it a) id) = []) -> silent (Node ty dt it v id sib ch).
Proof.
  intros Hc Hs Hl a Ha. cbn [finsh_type_check].
  set (a' := if checks_address ty then _ else _). assert (a' = 0 \/ a' = FINSH_IDTYPE_ADDRESS) as Ha'.
  { unfold a'. destruct (checks_address ty); [by right|]. destruct (_ && _); [by left|done]. }
  specialize (Hc a' Ha'). specialize (Hs 0 (or_introl eq_refl)).
  destruct (finsh_type_check ch a') as [ch' e1] eqn:Ec, (finsh_type_check sib 0) as [sib' e2]. cbn [snd] in Hc, Hs. subst e1 e2.
  destruct ch as [|cty cdt cit cv cid csib cch].
  - injection Ec as <-. specialize (Hl eq_refl a Ha). destruct (leaf_type _ _ _ _) as [d e3]. cbn [snd] in *. by subst e3.
  - cbn [finsh_type_check] in Ec. destruct (finsh_type_check cch _), (finsh_type_check csib 0). destruct f; [destruct (leaf_type _ _ _ _)|]; by injection Ec as <- _.
Qed.
Lemma silent_expr e sib : int_expr e -> silent sib -> silent (tree_of e sib).
Proof.
  assert (forall id sib, int_typed id -> silent sib -> silent (var_node id sib)) as Hv.
  { intros id s Hid Hs. apply silent_node; [apply silent_null|done|]. destruct (int_typed_dword _ Hid) as [Hd _].
    destruct Hid as [Hn _]. apply Z.eqb_neq in Hn. intros _ a [->| ->]; cbn; by rewrite Hn, Hd. }
  revert sib. induction e as [z|id|o a IHa b IHb|a IHa|a IHa|id a IHa|pre up id]; intros sib He Hs; cbn [tree_of int_expr] in *.
  all: try (by apply Hv).
  - by apply silent_node; [apply silent_null| |].
  - destruct He. apply silent_node; [|done|by destruct a]. apply IHa; [done|]. apply IHb; [done|apply silent_null].
  - apply silent_node; [|done|done]. apply silent_node; [apply silent_null| |done]. apply IHa; [done|apply silent_null].
  - apply silent_node; [|done|by destruct a]. apply IHa; [done|apply silent_null].
  - destruct He. apply silent_node; [|done|done]. apply Hv; [done|]. apply IHa; [done|apply silent_null].
  - apply silent_node; [|done|done]. apply Hv; [done|apply silent_null].
Qed.
Lemma check_no_errors es : Forall int_expr es -> snd (finsh_type_check (tree_of_program es) 0) = [].
Proof.
  intros Hes. assert (silent (tree_of_program es)) as Hs; [|by apply Hs; left].
  induction Hes as [|e es He Hes IH]; [apply silent_null|]. by apply silent_expr.
Qed.
Fixpoint typed_program (es : list expr) : finsh_node :=
  match es with [] => NULL | e :: es => typed_tree e (typed_program es) end.
(** C32 The type check gives every node of an int program the type DWORD and loads addresses exactly
    for the variables that are assigned or stepped first; it sets no error. *)
Theorem finsh_type_check_int es : Forall int_expr es -> finsh_type_check (tree_of_program es) 0 = (typed_program es, []).
Proof.
  intros Hes. rewrite <- (check_no_errors es Hes). rewrite (surjective_pairing (finsh_type_check _ _)). f_equal.
  induction Hes as [|e es He Hes IH]; [done|]. cbn [tree_of_program typed_program]. rewrite <- IH. by apply checked_typed.
Qed.

(** ** Values *)
Lemma narrow_dword d : narrow DWORD (DWORD, d) = Some (int32 d).
Proof. done. Qed.
Lemma sint_sint z : int32 (int32 z) = int32 z.
Proof. by rewrite <- (sint_uint 32 (sint 32 z)), uint_sint, sint_uint by lia. Qed.
Lemma eval_var_int id m : int_typed id -> eval_id 1 id m = Some (DWORD, load DWORD (uint32 (var_value id)) m).
Proof.
  intros Hid. destruct (int_typed_dword _ Hid) as [_ Hw]. destruct Hid as [Hn _]. apply Z.eqb_neq in Hn.
  unfold eval_id, eval_var. cbn. by rewrite Hn, Hw.
Qed.
Lemma eval_addr_int id m : int_typed id -> eval_id 9 id m = Some (DWORD, var_value id).
Proof.
  intros Hid. destruct (int_typed_dword _ Hid) as [_ Hw]. destruct Hid as [Hn _]. apply Z.eqb_neq in Hn.
  unfold eval_id, eval_var. cbn. by rewrite Hn, Hw.
Qed.
Lemma uint_of_int z : uint32 (int32 z) = uint32 z.
Proof. by rewrite uint_sint by lia. Qed.
Lemma eval_bin o child a b r m : c_binop o (int32 a) (int32 b) = Some r ->
  eval_node (binop_node o) FINSH_DATA_TYPE_DWORD 0 0 0 child [(DWORD, a); (DWORD, b)] m = Some ((DWORD, r), m).
Proof.
  intros Hr. destruct o; cbn [binop_node eval_node binop_of]; change (width_of FINSH_DATA_TYPE_DWORD) with (Some DWORD);
    cbn [mbind option_bind]; rewrite !narrow_dword; cbn [mbind option_bind]; by rewrite Hr.
Qed.
Lemma eval_step_int up addr id m : uint32 addr = uint32 (var_value id) ->
  let new := if (up : bool) then int_var id m + 1 else int_var id m - 1 in
  eval_step (if up then Add else Sub) DWORD addr id m = Some (new, set_int_var id (int32 new) m).
Proof.
  intros Ha new. unfold eval_step, set_int_var. change (get DWORD (load DWORD (uint32 (var_value id)) m)) with (int_var id m).
  rewrite Ha. change (int32 new) with (get DWORD new). rewrite store_get. by destruct up.
Qed.
Lemma eval_node_step pre up dt it v id sib ch a m :
  eval_node (step_node pre up) FINSH_DATA_TYPE_DWORD 0 0 0 (Node FINSH_NODE_ID dt it v id sib ch) [(DWORD, a)] m =
    let o := if up then Add else Sub in
    if pre then '(new, m) ← eval_step o DWORD (int32 a) id m; Some ((DWORD, new), m)
    else '(_, m) ← eval_step o DWORD (var_value id) id m; Some ((DWORD, a), m).
Proof. by destruct pre, up. Qed.
(** A typed expression evaluates to its value. *)
Lemma eval_typed e : int_expr e -> forall m v m1 sib, sem e m = Some (v, m1) ->
  exists d, int32 d = v /\ eval (typed_tree e sib) m = ('(vs, m2) ← eval sib m1; Some ((DWORD, d) :: vs, m2)).
Proof.
  induction e as [z|id|o a IHa b IHb|a IHa|a IHa|id a IHa|pre up id]; intros He m v m1 sib; cbn [sem int_expr typed_tree eval] in *.
  - intros [= <- <-]. by exists z.
  - intros [= <- <-]. cbn [eval_node mbind option_bind]. rewrite eval_var_int by done. by eexists.
  - destruct He as [Ha Hb]. destruct (sem a m) as [[x ma]|] eqn:Ea; [|done]. cbn [mbind option_bind].
    destruct (sem b ma) as [[y mb]|] eqn:Eb; [|done]. cbn [mbind option_bind].
    destruct (c_binop o x y) as [r|] eqn:Er; [|done]. intros [= <- <-].
    destruct (IHa Ha _ _ _ (typed_tree b NULL) Ea) as (da & <- & ->). destruct (IHb Hb _ _ _ NULL Eb) as (db & <- & ->).
    cbn [eval mbind option_bind]. exists r. split; [done|]. by rewrite (eval_bin o _ da db r).
  - destruct (sem a m) as [[x ma]|] eqn:Ea; [|done]. cbn [mbind option_bind]. intros [= <- <-].
    destruct (IHa He _ _ _ NULL Ea) as (da & <- & E). cbn [eval_node mbind option_bind]. rewrite E. cbn [eval mbind option_bind]. exists (0 - int32 da). split; [by f_equal; lia|].
    change (width_of FINSH_DATA_TYPE_DWORD) with (Some DWORD). cbn [binop_of mbind option_bind]. by rewrite !narrow_dword.
  - destruct (sem a m) as [[x ma]|] eqn:Ea; [|done]. cbn [mbind option_bind]. intros [= <- <-].
    destruct (IHa He _ _ _ NULL Ea) as (da & <- & ->). cbn [eval mbind option_bind eval_node]. exists (Z.lnot (int32 da)). by split.
  - destruct He as [Hid Ha]. destruct (sem a m) as [[x ma]|] eqn:Ea; [|done]. cbn [mbind option_bind]. intros [= <- <-].
    destruct (IHa Ha _ _ _ NULL Ea) as (da & <- & E). cbn [eval_node mbind option_bind].
    rewrite eval_addr_int by done. cbn [mbind option_bind]. rewrite E. cbn [eval mbind option_bind eval_node assign_type].
    change (width_of FINSH_DATA_TYPE_DWORD) with (Some DWORD). cbn [mbind option_bind]. rewrite !narrow_dword. cbn [mbind option_bind].
    exists (int32 da). split; [apply sint_sint|]. unfold set_int_var. by rewrite uint_of_int.
  - intros [= <- <-]. cbn [eval_node mbind option_bind]. destruct pre; rewrite ?eval_addr_int, ?eval_var_int by done; cbn [mbind option_bind].
    + eexists. split; [reflexivity|]. rewrite eval_node_step. cbv zeta. by rewrite (eval_step_int up _ id m (uint_of_int _)).
    + eexists. split; [reflexivity|]. rewrite eval_node_step. cbv zeta. by rewrite (eval_step_int up _ id m eq_refl).
Qed.

(** ** Programs *)
Lemma checked_null : checked NULL = NULL.
Proof. done. Qed.
Lemma set_sibling_typed e sib s : set_sibling s (typed_tree e sib) = typed_tree e s.
Proof. by destruct e. Qed.
Lemma eval_program_typed es : Forall int_expr es -> forall m v m', sem_program es m = Some (v, m') ->
  exists d, int32 d = v /\ eval_program (checked (tree_of_program es)) m = Some ((DWORD, d), m').
Proof.
  induction 1 as [|e es He Hes IH]; intros m v m'; [done|]. cbn [sem_program tree_of_program]. rewrite checked_typed by done.
  intros Hs. assert (exists v1 m1, sem e m = Some (v1, m1) /\ match es with [] => v = v1 /\ m' = m1 | _ => sem_program es m1 = Some (v, m') end) as (v1 & m1 & E & R).
  { destruct es; [by exists v, m'|]. destruct (sem e m) as [[v1 m1]|]; [|done]. by exists v1, m1. }
  destruct (eval_typed e He m v1 m1 NULL E) as (d & <- & Ed).
  assert (forall sib, eval_program (typed_tree e sib) m = match sib with NULL => Some ((DWORD, d), m1) | _ => eval_program sib m1 end) as ->.
  { intros sib. destruct (typed_dword e sib) as (ty & it & w & id & ch & Et). rewrite Et. cbn [eval_program]. rewrite <- Et, set_sibling_typed, Ed.
    cbn [eval mbind option_bind]. by destruct sib. }
  destruct es as [|e2 es].
  - destruct R as [-> ->]. exists d. by split.
  - destruct (IH _ _ _ R) as (d2 & <- & E2). exists d2. split; [done|]. rewrite <- E2.
    cbn [tree_of_program]. rewrite checked_typed by (by apply Forall_cons in Hes as [? _]).
    by destruct (typed_dword e2 (checked (tree_of_program es))) as (? & ? & ? & ? & ? & ->).
Qed.

(** A list of int statements, given to the compiler as the tree the parser builds for it,
    leaves the value of the last statement as C computes it at the bottom of the stack, where the
    shell takes the value it prints, and the memory as C leaves it, if the program fits into the
    node table and its code into the text segment. *)
Theorem finsh_int_correct es text errors stack m v m' : Forall int_expr es -> sem_program es m = Some (v, m') ->
  size (checked (tree_of_program es)) <= FINSH_NODE_MAX -> finsh_compiler_run (tree_of_program es) = Some (text, errors) ->
  exists stack', finsh_vm_run text stack m = Some (mk_vm [] stack' 1 m') /\ int32 (stack' 0) = v.
Proof.
  intros Hes Hs Hsz Hc. destruct (eval_program_typed es Hes m v m' Hs) as (d & <- & Hp).
  destruct (finsh_compiler_run_code _ _ _ _ _ _ Hc Hp) as (code & -> & R).
  destruct (tree_runs_vm _ _ _ _ _ stack R) as (st & E & Hf); [unfold FINSH_STACK_MAX, FINSH_NODE_MAX, checked in *; lia|].
  exists st. split; [exact E|].
  unfold fits in Hf. cbn [fst snd bits] in Hf. by rewrite <- (sint_uint 32 (st 0)), Hf, sint_uint.
Qed.
End finsh_int.
