(* ===== verification/FinshToken.v ===== *)
(** The lexer of the shell (components/finsh/finsh_token.c).  Characters are bytes; no
    test of the code depends on whether char is signed. *)
From S2P Require Import Prelude Kernel.

(** enum finsh_token_type; [finsh_token_type_0] is what memset leaves. *)
Inductive finsh_token_type :=
| finsh_token_type_0
| finsh_token_type_left_paren | finsh_token_type_right_paren | finsh_token_type_comma | finsh_token_type_semicolon
| finsh_token_type_mul | finsh_token_type_add | finsh_token_type_inc | finsh_token_type_sub | finsh_token_type_dec
| finsh_token_type_div | finsh_token_type_mod | finsh_token_type_assign | finsh_token_type_and | finsh_token_type_or
| finsh_token_type_xor | finsh_token_type_bitwise | finsh_token_type_shl | finsh_token_type_shr | finsh_token_type_comments
| finsh_token_type_void | finsh_token_type_char | finsh_token_type_short | finsh_token_type_int | finsh_token_type_long
| finsh_token_type_unsigned
| finsh_token_type_value_char | finsh_token_type_value_int | finsh_token_type_value_long | finsh_token_type_value_string
| finsh_token_type_value_null
| finsh_token_type_identifier | finsh_token_type_bad | finsh_token_type_eof.
#[global] Instance finsh_token_type_eq_dec : EqDecision finsh_token_type.
Proof. solve_decision. Defined.

Definition FINSH_NAME_MAX : Z := 16.
Definition FINSH_STRING_MAX : Z := 128.
Definition FINSH_ERROR_EXPECT_CHAR : Z := 9.
Definition FINSH_ERROR_UNEXPECT_END : Z := 10.
Definition FINSH_ERROR_UNKNOWN_TOKEN : Z := 11.

(** struct finsh_token, and global_errno.  The line is the string without its
    terminator; [tk_string] is the array. *)
Record finsh_token : Type := mk_token {
  tk_eof : bool;
  tk_replay : bool;
  tk_position : Z;
  tk_current_token : finsh_token_type;
  tk_value : Z;
  tk_string : list Z;
  tk_line : list Z;
  global_errno : Z
}.
Definition set_tk_eof (v : bool) (s : finsh_token) : finsh_token :=
  mk_token v (tk_replay s) (tk_position s) (tk_current_token s) (tk_value s) (tk_string s) (tk_line s) (global_errno s).
Definition set_tk_replay (v : bool) (s : finsh_token) : finsh_token :=
  mk_token (tk_eof s) v (tk_position s) (tk_current_token s) (tk_value s) (tk_string s) (tk_line s) (global_errno s).
Definition set_tk_position (v : Z) (s : finsh_token) : finsh_token :=
  mk_token (tk_eof s) (tk_replay s) v (tk_current_token s) (tk_value s) (tk_string s) (tk_line s) (global_errno s).
Definition set_tk_current_token (v : finsh_token_type) (s : finsh_token) : finsh_token :=
  mk_token (tk_eof s) (tk_replay s) (tk_position s) v (tk_value s) (tk_string s) (tk_line s) (global_errno s).
Definition set_tk_value (v : Z) (s : finsh_token) : finsh_token :=
  mk_token (tk_eof s) (tk_replay s) (tk_position s) (tk_current_token s) v (tk_string s) (tk_line s) (global_errno s).
Definition set_tk_string (v : list Z) (s : finsh_token) : finsh_token :=
  mk_token (tk_eof s) (tk_replay s) (tk_position s) (tk_current_token s) (tk_value s) v (tk_line s) (global_errno s).
Definition set_global_errno (v : Z) (s : finsh_token) : finsh_token :=
  mk_token (tk_eof s) (tk_replay s) (tk_position s) (tk_current_token s) (tk_value s) (tk_string s) (tk_line s) v.

(** ** Characters and strings *)
Definition is_digit (ch : Z) : bool := (48 <=? ch) && (ch <=? 57).
(** Unsigned comparison: below 0 is above 26. *)
Definition is_alpha (ch : Z) : bool := uint32 (Z.lor ch 32 - 97) <? 26.
Definition is_separator (ch : Z) : bool :=
  negb (((97 <=? ch) && (ch <=? 122)) || ((65 <=? ch) && (ch <=? 90)) || ((48 <=? ch) && (ch <=? 57)) || (ch =? 95)).
(** The string in an array, up to its terminator. *)
Fixpoint c_str (a : list Z) : list Z := match a with [] => [] | c :: a => if c =? 0 then [] else c :: c_str a end.
(** A string and its terminator stored at the start of an array; [None] when they do not
    fit. *)
Definition put_bytes (a bs : list Z) : option (list Z) :=
  if decide (length bs <= length a)%nat then Some (bs ++ drop (length bs) a) else None.

Definition finsh_name_table : list (list Z * finsh_token_type) :=
  [([118; 111; 105; 100], finsh_token_type_void); ([99; 104; 97; 114], finsh_token_type_char);
   ([115; 104; 111; 114; 116], finsh_token_type_short); ([105; 110; 116], finsh_token_type_int);
   ([108; 111; 110; 103], finsh_token_type_long); ([117; 110; 115; 105; 103; 110; 101; 100], finsh_token_type_unsigned);
   ([78; 85; 76; 76], finsh_token_type_value_null); ([110; 117; 108; 108], finsh_token_type_value_null)].

(** ** The functions of the lexer *)
Definition finsh_token_error_set (e : Z) : M finsh_token unit := modify (set_global_errno e).
Definition finsh_token_init (line : list Z) (errno : Z) : finsh_token :=
  mk_token false false 0 finsh_token_type_0 0 (replicate 128 0) line errno.
Definition token_next_char : M finsh_token Z := fun s =>
  if tk_eof s then Some (0, s)
  else if (tk_position s =? Z.of_nat (length (tk_line s))) || (nth (Z.to_nat (tk_position s)) (tk_line s) 0 =? 10)
  then Some (0, set_tk_position 0 (set_tk_eof true s))
  else Some (nth (Z.to_nat (tk_position s)) (tk_line s) 0, set_tk_position (tk_position s + 1) s).
Definition token_prev_char : M finsh_token unit := fun s =>
  if tk_eof s then Some (tt, s)
  else if tk_position s =? 0 then Some (tt, s)
  else Some (tt, set_tk_position (tk_position s - 1) s).
(** Loops over the characters of the line. *)
Definition line_fuel : M finsh_token nat := gets (fun s => S (S (length (tk_line s)))).
(** Characters taken while [p] holds; the result ends with the first one for which it
    does not. *)
Fixpoint take_chars (fuel : nat) (p : Z -> bool) (ch : Z) (acc : list Z) : M finsh_token (list Z * Z) :=
  match fuel with
  | O => diverge
  | S fuel =>
    if p ch then next ← token_next_char; take_chars fuel p next (acc ++ [ch])
    else mret (acc, ch)
  end.
(** [self->string], [*p = '\0'] included. *)
Definition store_string (bs : list Z) : M finsh_token unit := fun s =>
  match put_bytes (tk_string s) (bs ++ [0]) with Some a => Some (tt, set_tk_string a s) | None => None end.
(** The loop also tests for the end, where the character is a separator. *)
Definition token_get_string : M finsh_token Z :=
  ch ← token_next_char;
  eof ← gets tk_eof;
  if (eof : bool) then mret (-1)
  else
    store_string [] ;;
    if is_digit ch then token_prev_char ;; mret (-1)
    else
      fuel ← line_fuel;
      '(str, _) ← take_chars fuel (fun ch => negb (is_separator ch)) ch [];
      modify (set_tk_eof false) ;;
      token_prev_char ;;
      store_string str ;;
      mret 0.
Fixpoint trim_loop (fuel : nat) : M finsh_token unit :=
  match fuel with
  | O => diverge
  | S fuel =>
    ch ← token_next_char;
    if (ch =? 32) || (ch =? 9) || (ch =? 13) then trim_loop fuel else mret tt
  end.
Definition token_trim_space : M finsh_token unit :=
  fuel ← line_fuel; trim_loop fuel ;; token_prev_char.
Definition token_match_name (str : list Z) : M finsh_token bool :=
  match find (fun e => bool_decide (fst e = str)) finsh_name_table with
  | Some (_, ty) => modify (set_tk_current_token ty) ;; mret true
  | None => mret false
  end.

(** *** Numbers *)
Definition digit_value (ch : Z) : Z :=
  if (97 <=? ch) && (ch <=? 102) then ch - 97 + 10
  else if (65 <=? ch) && (ch <=? 70) then ch - 65 + 10
  else ch - 48.
(** The upper word of the number does not reach the result. *)
Definition token_spec_number (string : list Z) (b : Z) : Z :=
  let shift := if b =? 16 then 4 else if b =? 8 then 3 else 1 in
  int32 (foldl (fun v ch => uint32 (Z.lor (uint32 (Z.shiftl v shift)) (uint32 (digit_value ch)))) 0 string).
(** A number in base [b]; the digits go to an array of 128 bytes with a terminator. *)
Definition number_in_base (p : Z -> bool) (ch b : Z) : M finsh_token Z :=
  fuel ← line_fuel;
  '(buf, ch) ← take_chars fuel p ch [];
  if decide (length buf < 128)%nat then modify (set_tk_value (token_spec_number buf b)) ;; mret ch else diverge.
Definition token_proc_number : M finsh_token unit :=
  ch ← token_next_char;
  ch ← (if ch =? 48 then
          ch ← token_next_char;
          if (ch =? 120) || (ch =? 88) then
            ch ← token_next_char;
            number_in_base (fun ch => is_digit ch || is_alpha ch) ch 16
          else if (ch =? 98) || (ch =? 66) then
            ch ← token_next_char;
            number_in_base (fun ch => (ch =? 48) || (ch =? 49)) ch 2
          else number_in_base is_digit ch 8
        else
          fuel ← line_fuel;
          '(digits, ch) ← take_chars fuel is_digit ch [];
          modify (set_tk_value (foldl (fun v ch => int32 (v * 10 + (ch - 48))) 0 digits)) ;;
          mret ch);
  modify (set_tk_current_token finsh_token_type_value_int) ;;
  if (ch =? 108) || (ch =? 76) then modify (set_tk_current_token finsh_token_type_value_long) else token_prev_char.

(** *** Characters and strings in quotes *)
(** An unknown escape, digits included, gives the number in the rest of its buffer of 4
    bytes, which is empty. *)
Definition token_proc_char : M finsh_token Z :=
  ch ← token_next_char;
  ch ← (if ch =? 92 then
          ch ← token_next_char;
          if ch =? 110 then mret 10 else if ch =? 116 then mret 9 else if ch =? 118 then mret 11
          else if ch =? 98 then mret 8 else if ch =? 114 then mret 13 else if ch =? 92 then mret 92
          else if ch =? 39 then mret 39
          else
            fuel ← line_fuel;
            '(digits, _) ← take_chars fuel is_digit ch [];
            token_prev_char ;;
            if decide (length digits < 4)%nat then mret 0 else diverge
        else mret ch);
  quote ← token_next_char;
  (if negb (quote =? 39) then token_prev_char ;; finsh_token_error_set FINSH_ERROR_EXPECT_CHAR else mret tt) ;;
  mret ch.
(** [ch - '0' < b], unsigned. *)
Definition below (b ch : Z) : bool := uint32 (ch - 48) <? b.
Definition escape_number (b ch : Z) : M finsh_token Z :=
  fuel ← line_fuel;
  '(digits, _) ← take_chars fuel (below b) ch [];
  token_prev_char ;;
  mret (foldl (fun v ch => int32 (v * b + (ch - 48))) 0 digits).
Definition token_proc_escape : M finsh_token Z :=
  ch ← token_next_char;
  if ch =? 110 then mret 10 else if ch =? 116 then mret 9 else if ch =? 118 then mret 11
  else if ch =? 98 then mret 8 else if ch =? 114 then mret 13 else if ch =? 102 then mret 12
  else if ch =? 97 then mret 7
  else if ch =? 120 then ch ← token_next_char; escape_number 16 ch
  else if below 8 ch then escape_number 8 ch
  else mret 0.
(** The bytes are stored as they come, and terminated only at the closing quote. *)
Definition store_byte (i : nat) (b : Z) : M finsh_token unit :=
  modify (fun s => set_tk_string (<[i := uint8 b]> (tk_string s)) s).
Fixpoint string_loop (fuel : nat) (i : nat) : M finsh_token unit :=
  match fuel with
  | O => diverge
  | S fuel =>
    if decide (Z.of_nat i < FINSH_STRING_MAX) then
      ch ← token_next_char;
      eof ← gets tk_eof;
      if (eof : bool) then finsh_token_error_set FINSH_ERROR_UNEXPECT_END
      else if ch =? 92 then ch ← token_proc_escape; store_byte i ch ;; string_loop fuel (S i)
      else if ch =? 34 then store_byte i 0
      else store_byte i ch ;; string_loop fuel (S i)
    else mret tt
  end.
Definition token_proc_string : M finsh_token unit := string_loop (S (Z.to_nat FINSH_STRING_MAX)) 0.

(** *** One token *)
Definition set_token (t : finsh_token_type) : M finsh_token unit := modify (set_tk_current_token t).
(** An operator [two] of two equal characters, or else [one] or a bad token. *)
Definition token_double (c : Z) (two one : finsh_token_type) : M finsh_token unit :=
  ch ← token_next_char;
  if ch =? c then set_token two else token_prev_char ;; set_token one.
Definition token_operator (ch : Z) : M finsh_token unit :=
  if ch =? 40 then set_token finsh_token_type_left_paren
  else if ch =? 41 then set_token finsh_token_type_right_paren
  else if ch =? 44 then set_token finsh_token_type_comma
  else if ch =? 59 then set_token finsh_token_type_semicolon
  else if ch =? 38 then set_token finsh_token_type_and
  else if ch =? 42 then set_token finsh_token_type_mul
  else if ch =? 43 then token_double 43 finsh_token_type_inc finsh_token_type_add
  else if ch =? 45 then token_double 45 finsh_token_type_dec finsh_token_type_sub
  else if ch =? 47 then token_double 47 finsh_token_type_eof finsh_token_type_div
  else if ch =? 60 then token_double 60 finsh_token_type_shl finsh_token_type_bad
  else if ch =? 62 then token_double 62 finsh_token_type_shr finsh_token_type_bad
  else if ch =? 124 then set_token finsh_token_type_or
  else if ch =? 37 then set_token finsh_token_type_mod
  else if ch =? 126 then set_token finsh_token_type_bitwise
  else if ch =? 94 then set_token finsh_token_type_xor
  else if ch =? 61 then set_token finsh_token_type_assign
  else if ch =? 39 then ch ← token_proc_char; modify (set_tk_value ch) ;; set_token finsh_token_type_value_char
  else if ch =? 34 then token_proc_string ;; set_token finsh_token_type_value_string
  else if is_digit ch then token_prev_char ;; token_proc_number
  else finsh_token_error_set FINSH_ERROR_UNKNOWN_TOKEN ;; set_token finsh_token_type_bad.
Definition token_run : M finsh_token unit :=
  token_trim_space ;;
  _ ← token_get_string;
  eof ← gets tk_eof;
  if (eof : bool) then set_token finsh_token_type_eof
  else
    str ← gets (fun s => c_str (tk_string s));
    if bool_decide (str <> []) then
      matched ← token_match_name str;
      if (matched : bool) then mret tt else set_token finsh_token_type_identifier
    else
      ch ← token_next_char;
      token_operator ch.
Definition finsh_token_token : M finsh_token finsh_token_type :=
  replay ← gets tk_replay;
  (if (replay : bool) then modify (set_tk_replay false) else token_run) ;;
  gets tk_current_token.
Definition finsh_token_replay : M finsh_token unit := modify (set_tk_replay true).
