(* ===== verification/FinshHeap.v ===== *)
(** The heap of the shell (components/finsh/finsh_heap.c) and its variables
    (components/finsh/finsh_var.c). *)
From S2P Require Import Prelude MemOps Kernel FinshVM FinshCompiler FinshToken.
Implicit Types (m : memory).

Definition FINSH_HEAP_MAX : Z := 128.
Definition FINSH_VARIABLE_MAX : Z := 8.
Definition HEAP_ALIGNMENT : Z := 4.
(** Where the linker puts the arrays finsh_heap and global_variable. *)
Class FinshData := { finsh_heap : Z; global_variable : Z }.

#[global] Instance finsh_type_eq_dec : EqDecision finsh_type.
Proof. solve_decision. Defined.
(** struct finsh_var without its value, which is in memory. *)
Record finsh_var : Type := mk_var { fv_name : list Z; fv_type : finsh_type }.
Definition no_var : finsh_var := mk_var [] finsh_type_unknown.
(** struct finsh_block_header by address, the two lists, the variables and the memory. *)
Inductive block_list := free_list | allocate_list.
Record finsh_data : Type := mk_data {
  fd_length : Z -> Z;
  fd_next : Z -> option Z;
  fd_free_list : option Z;
  fd_allocate_list : option Z;
  fd_vars : list finsh_var;
  fd_mem : memory
}.
Definition set_fd_length (v : Z -> Z) (s : finsh_data) : finsh_data := mk_data v (fd_next s) (fd_free_list s) (fd_allocate_list s) (fd_vars s) (fd_mem s).
Definition set_fd_next (v : Z -> option Z) (s : finsh_data) : finsh_data := mk_data (fd_length s) v (fd_free_list s) (fd_allocate_list s) (fd_vars s) (fd_mem s).
Definition set_fd_vars (v : list finsh_var) (s : finsh_data) : finsh_data := mk_data (fd_length s) (fd_next s) (fd_free_list s) (fd_allocate_list s) v (fd_mem s).
Definition set_fd_mem (v : memory) (s : finsh_data) : finsh_data := mk_data (fd_length s) (fd_next s) (fd_free_list s) (fd_allocate_list s) (fd_vars s) v.
Definition list_of (l : block_list) (s : finsh_data) : option Z := match l with free_list => fd_free_list s | allocate_list => fd_allocate_list s end.
Definition set_list (l : block_list) (v : option Z) (s : finsh_data) : finsh_data :=
  match l with
  | free_list => mk_data (fd_length s) (fd_next s) v (fd_allocate_list s) (fd_vars s) (fd_mem s)
  | allocate_list => mk_data (fd_length s) (fd_next s) (fd_free_list s) v (fd_vars s) (fd_mem s)
  end.

Section finsh_heap.
Context `{FinshData}.

(** sizeof(struct finsh_block_header) is 8. *)
Definition sizeof_header : Z := 8.
Definition finsh_block_get_header (data : Z) : Z := data - sizeof_header.
Definition finsh_block_get_data (header : Z) : Z := header + sizeof_header.
Definition HEAP_ALIGN_SIZE (size : Z) : Z := uint32 (Z.land (size + HEAP_ALIGNMENT - 1) (Z.lnot (HEAP_ALIGNMENT - 1))).
Definition length_of (h : Z) : M finsh_data Z := gets (fun s => fd_length s h).
Definition next_of (h : Z) : M finsh_data (option Z) := gets (fun s => fd_next s h).
Definition set_length (h v : Z) : M finsh_data unit := modify (fun s => set_fd_length (<[h := v]> (fd_length s)) s).
Definition set_next (h : Z) (v : option Z) : M finsh_data unit := modify (fun s => set_fd_next (<[h := v]> (fd_next s)) s).
(** A list holds at most one header per 8 bytes of the heap. *)
Definition block_fuel : nat := Z.to_nat (FINSH_HEAP_MAX / sizeof_header + 1).

Definition finsh_heap_init : M finsh_data unit :=
  modify (fun s => set_fd_mem (write_bytes (replicate 128 0) finsh_heap (fd_mem s)) s) ;;
  modify (set_list free_list (Some finsh_heap)) ;;
  set_length finsh_heap (FINSH_HEAP_MAX - sizeof_header) ;;
  set_next finsh_heap None ;;
  modify (set_list allocate_list None).

(** *** Lists of blocks *)
(** The node behind which the header goes: the last one, or one whose next is above it. *)
Fixpoint insert_point (fuel : nat) (node header : Z) : M finsh_data Z :=
  match fuel with
  | O => diverge
  | S fuel =>
    next ← next_of node;
    match next with
    | None => mret node
    | Some next => if next >? header then mret node else insert_point fuel next header
    end
  end.
Definition finsh_block_insert (l : block_list) (header : Z) : M finsh_data unit :=
  first ← gets (list_of l);
  match first with
  | None => modify (set_list l (Some header))
  | Some node =>
    if node >? header then set_next header (Some node) ;; modify (set_list l (Some header))
    else
      node ← insert_point block_fuel node header;
      next ← next_of node;
      (match next with Some _ => set_next header next | None => mret tt end) ;;
      set_next node (Some header)
  end.
Fixpoint remove_loop (fuel : nat) (node : option Z) (header : Z) : M finsh_data unit :=
  match fuel, node with
  | _, None => mret tt
  | O, _ => diverge
  | S fuel, Some node =>
    next ← next_of node;
    if bool_decide (next = Some header) then after ← next_of header; set_next node after
    else remove_loop fuel next header
  end.
Definition finsh_block_remove (l : block_list) (header : Z) : M finsh_data unit :=
  first ← gets (list_of l);
  if bool_decide (first = Some header) then
    next ← next_of header;
    modify (set_list l next) ;;
    set_next header None
  else remove_loop block_fuel first header.
Definition finsh_block_split (header size : Z) : M finsh_data unit :=
  let next := header + sizeof_header + size in
  length ← length_of header;
  set_length next (uint32 (length - sizeof_header - size)) ;;
  set_length header size ;;
  after ← next_of header;
  set_next next after ;;
  set_next header (Some next).
Fixpoint previous (fuel : nat) (node : option Z) (header : Z) : M finsh_data (option Z) :=
  match fuel, node with
  | _, None => mret None
  | O, _ => diverge
  | S fuel, Some n =>
    next ← next_of n;
    if bool_decide (next = Some header) then mret (Some n) else previous fuel next header
  end.
(** The blocks [a] and [b] are neighbours. *)
Definition close_to (a : Z) (b : option Z) : M finsh_data bool :=
  length ← length_of a;
  mret (bool_decide (b = Some (a + length + sizeof_header))).
Definition finsh_block_merge (l : block_list) (header : Z) : M finsh_data unit :=
  next_node ← next_of header;
  first ← gets (list_of l);
  prev_node ← (if bool_decide (first = Some header) then mret None else previous block_fuel first header);
  next_close ← close_to header next_node;
  length ← length_of header;
  prev_close ← (match prev_node with Some p => close_to p (Some header) | None => mret false end);
  match prev_node, next_node, prev_close, next_close with
  | Some p, Some n, true, true =>
    plength ← length_of p;
    nlength ← length_of n;
    after ← next_of n;
    set_length p (plength + (length + nlength + 2 * sizeof_header)) ;;
    set_next p after
  | Some p, _, true, _ =>
    plength ← length_of p;
    after ← next_of header;
    set_length p (plength + (length + sizeof_header)) ;;
    set_next p after
  | _, Some n, _, true =>
    nlength ← length_of n;
    after ← next_of n;
    set_length header (length + (nlength + sizeof_header)) ;;
    set_next header after
  | _, _, _, _ => mret tt
  end.

Definition finsh_heap_free (ptr : Z) : M finsh_data unit :=
  let header := finsh_block_get_header ptr in
  finsh_block_remove allocate_list header ;;
  finsh_block_insert free_list header ;;
  finsh_block_merge free_list header.

(** *** Variables *)
Definition var_at (i : nat) : Z := global_variable + 24 * Z.of_nat i.
Definition var_ptr (s : finsh_data) (i : nat) : Z := load DWORD (uint32 (var_value (var_at i))) (fd_mem s).
(** Some variable of a known type holds the pointer. *)
Definition in_use (ptr : Z) (s : finsh_data) : bool :=
  existsb (fun '(i, v) => negb (bool_decide (fv_type v = finsh_type_unknown)) && (var_ptr s i =? ptr)) (zip (seq 0 (length (fd_vars s))) (fd_vars s)).
Fixpoint gc_loop (fuel : nat) (header : option Z) : M finsh_data unit :=
  match fuel, header with
  | _, None => mret tt
  | O, _ => diverge
  | S fuel, Some temp =>
    used ← gets (in_use (finsh_block_get_data temp));
    next ← next_of temp;
    (if (used : bool) then mret tt else finsh_heap_free (finsh_block_get_data temp)) ;;
    gc_loop fuel next
  end.
Definition finsh_heap_gc : M finsh_data unit := first ← gets fd_allocate_list; gc_loop block_fuel first.
(** The first free block for which [small] does not hold. *)
Fixpoint find_block (fuel : nat) (small : Z -> bool) (header : option Z) : M finsh_data (option Z) :=
  match fuel, header with
  | _, None => mret None
  | O, _ => diverge
  | S fuel, Some h =>
    length ← length_of h;
    if small length then next ← next_of h; find_block fuel small next else mret header
  end.
Definition finsh_heap_allocate (size : Z) : M finsh_data (option Z) :=
  let size := HEAP_ALIGN_SIZE size in
  first ← gets fd_free_list;
  header ← find_block block_fuel (fun length => length <=? uint32 (size + sizeof_header)) first;
  header ← (match header with
            | Some _ => mret header
            | None =>
              finsh_heap_gc ;;
              first ← gets fd_free_list;
              find_block block_fuel (fun length => length <? uint32 (size + sizeof_header)) first
            end);
  match header with
  | None => mret None
  | Some header =>
    finsh_block_split header size ;;
    finsh_block_remove free_list header ;;
    set_next header None ;;
    finsh_block_insert allocate_list header ;;
    modify (fun s => set_fd_mem (write_bytes (replicate (Z.to_nat size) 0) (finsh_block_get_data header) (fd_mem s)) s) ;;
    mret (Some (finsh_block_get_data header))
  end.

(** strncmp(a, b, FINSH_NAME_MAX) == 0 *)
Definition same_name (a b : list Z) : bool := bool_decide (take (Z.to_nat FINSH_NAME_MAX) a = take (Z.to_nat FINSH_NAME_MAX) b).
Definition finsh_var_init : M finsh_data unit :=
  modify (set_fd_vars (replicate (Z.to_nat FINSH_VARIABLE_MAX) no_var)) ;;
  modify (fun s => set_fd_mem (write_bytes (replicate (Z.to_nat (24 * FINSH_VARIABLE_MAX)) 0) global_variable (fd_mem s)) s).
(** The index of the first empty entry, or [None] when the name is taken. *)
Fixpoint insert_scan (name : list Z) (vs : list finsh_var) (i : nat) (empty : option nat) : option (option nat) :=
  match vs with
  | [] => Some empty
  | v :: vs =>
    if same_name (fv_name v) name then None
    else insert_scan name vs (S i) (if bool_decide (fv_type v = finsh_type_unknown) && bool_decide (empty = None) then Some i else empty)
  end.
Definition finsh_var_insert (name : list Z) (type : finsh_type) : M finsh_data Z :=
  vs ← gets fd_vars;
  match insert_scan name vs 0 None with
  | Some (Some i) =>
    modify (set_fd_vars (<[i := mk_var (take (Z.to_nat FINSH_NAME_MAX) name) type]> vs)) ;;
    mret (Z.of_nat i)
  | _ => mret (-1)
  end.
Definition find_var (name : list Z) (vs : list finsh_var) : option nat :=
  fst <$> list_find (fun v => same_name (fv_name v) name = true) vs.
Definition finsh_var_delete (name : list Z) : M finsh_data Z :=
  vs ← gets fd_vars;
  match find_var name vs with
  | None => mret (-1)
  | Some i =>
    modify (set_fd_vars (<[i := no_var]> vs)) ;;
    modify (fun s => set_fd_mem (write_bytes (replicate 24 0) (var_at i) (fd_mem s)) s) ;;
    mret 0
  end.
Definition finsh_var_lookup (name : list Z) : M finsh_data (option Z) :=
  vs ← gets fd_vars;
  mret (var_at <$> find_var name vs).
End finsh_heap.
