(* ===== verification/FinshParser.v ===== *)
(** The parser of the shell (components/finsh/finsh_parser.c) and the table of syntax nodes
    it fills (components/finsh/finsh_node.c). *)
From S2P Require Import Prelude MemOps Kernel FinshVM FinshCompiler FinshToken FinshHeap.

Definition FINSH_ERROR_INVALID_TOKEN : Z := 1.
Definition FINSH_ERROR_EXPECT_TYPE : Z := 2.
Definition FINSH_ERROR_VARIABLE_EXIST : Z := 4.
Definition FINSH_ERROR_EXPECT_OPERATOR : Z := 5.
Definition FINSH_ERROR_MEMORY_FULL : Z := 6.
Definition FINSH_ERROR_UNKNOWN_SYMBOL : Z := 13.
Definition FINSH_ERROR_NULL_NODE : Z := 14.

(** struct finsh_node in the table; a pointer to a node is its index. *)
Record node : Type := mk_node {
  nd_type : node_type;
  nd_data_type : Z;
  nd_idtype : Z;
  nd_value : Z;
  nd_id : Z;
  nd_sibling : option Z;
  nd_child : option Z
}.
Definition zero_node : node := mk_node FINSH_NODE_UNKNOWN 0 0 0 0 None None.
Definition set_nd_type (v : node_type) (n : node) : node := mk_node v (nd_data_type n) (nd_idtype n) (nd_value n) (nd_id n) (nd_sibling n) (nd_child n).
Definition set_nd_data_type (v : Z) (n : node) : node := mk_node (nd_type n) v (nd_idtype n) (nd_value n) (nd_id n) (nd_sibling n) (nd_child n).
Definition set_nd_value (v : Z) (n : node) : node := mk_node (nd_type n) (nd_data_type n) (nd_idtype n) v (nd_id n) (nd_sibling n) (nd_child n).
Definition set_nd_ident (idtype id : Z) (n : node) : node := mk_node (nd_type n) (nd_data_type n) idtype (nd_value n) id (nd_sibling n) (nd_child n).
Definition set_nd_sibling (v : option Z) (n : node) : node := mk_node (nd_type n) (nd_data_type n) (nd_idtype n) (nd_value n) (nd_id n) v (nd_child n).
Definition set_nd_child (v : option Z) (n : node) : node := mk_node (nd_type n) (nd_data_type n) (nd_idtype n) (nd_value n) (nd_id n) (nd_sibling n) v.

(** The shell: the lexer, the table of nodes, variables, heap and memory, the lists of
    system variables and calls added at run time (name and address), and the root. *)
Record shell : Type := mk_shell {
  sh_token : finsh_token;
  sh_nodes : Z -> node;
  sh_data : finsh_data;
  global_sysvar_list : list (list Z * Z);
  global_syscall_list : list (list Z * Z);
  sh_root : option Z
}.
Definition set_sh_token (v : finsh_token) (s : shell) : shell := mk_shell v (sh_nodes s) (sh_data s) (global_sysvar_list s) (global_syscall_list s) (sh_root s).
Definition set_sh_nodes (v : Z -> node) (s : shell) : shell := mk_shell (sh_token s) v (sh_data s) (global_sysvar_list s) (global_syscall_list s) (sh_root s).
Definition set_sh_data (v : finsh_data) (s : shell) : shell := mk_shell (sh_token s) (sh_nodes s) v (global_sysvar_list s) (global_syscall_list s) (sh_root s).
Definition set_sh_root (v : option Z) (s : shell) : shell := mk_shell (sh_token s) (sh_nodes s) (sh_data s) (global_sysvar_list s) (global_syscall_list s) v.
(** The tables of exported variables and functions that the linker collects: name and
    address of each entry. *)
Class SymbolTables := {
  sysvar_table : list (list Z * Z);
  syscall_table : list (list Z * Z)
}.

Section finsh_parser.
Context `{FinshData} `{SymbolTables}.

Definition on_token {A} (m : M finsh_token A) : M shell A := fun s =>
  match m (sh_token s) with Some (a, t) => Some (a, set_sh_token t s) | None => None end.
Definition on_data {A} (m : M finsh_data A) : M shell A := fun s =>
  match m (sh_data s) with Some (a, d) => Some (a, set_sh_data d s) | None => None end.
Definition error_set (e : Z) : M shell unit := on_token (finsh_token_error_set e).
Definition next_token : M shell finsh_token_type := on_token finsh_token_token.
Definition replay : M shell unit := on_token finsh_token_replay.
Definition token_string : M shell (list Z) := gets (fun s => c_str (tk_string (sh_token s))).
Definition token_value : M shell Z := gets (fun s => tk_value (sh_token s)).
(** A null pointer is not followed. *)
Definition mod_node (p : option Z) (f : node -> node) : M shell unit :=
  match p with Some i => modify (fun s => set_sh_nodes (<[i := f (sh_nodes s i)]> (sh_nodes s)) s) | None => diverge end.
Definition sibling_of (p : option Z) : M shell (option Z) :=
  match p with Some i => gets (fun s => nd_sibling (sh_nodes s i)) | None => diverge end.

(** ** finsh_node.c *)
Definition finsh_node_init : M shell unit := modify (set_sh_nodes (fun _ => zero_node)).
Fixpoint empty_entry (fuel : nat) (i : Z) (nodes : Z -> node) : option Z :=
  match fuel with
  | O => None
  | S fuel => if bool_decide (nd_type (nodes i) = FINSH_NODE_UNKNOWN) then Some i else empty_entry fuel (i + 1) nodes
  end.
Definition finsh_node_allocate (type : node_type) : M shell (option Z) :=
  entry ← gets (fun s => empty_entry (Z.to_nat FINSH_NODE_MAX) 0 (sh_nodes s));
  match entry with
  | None => mret None
  | Some i => mod_node (Some i) (set_nd_type type) ;; mret (Some i)
  end.
(** A constant. *)
Definition node_new_value (type : node_type) (v : Z) : M shell (option Z) :=
  n ← finsh_node_allocate type;
  match n with
  | None => error_set FINSH_ERROR_MEMORY_FULL ;; mret None
  | Some _ => mod_node n (set_nd_value v) ;; mret n
  end.
Definition finsh_node_new_char (c : Z) : M shell (option Z) := node_new_value FINSH_NODE_VALUE_CHAR c.
Definition finsh_node_new_int (i : Z) : M shell (option Z) := node_new_value FINSH_NODE_VALUE_INT i.
Definition finsh_node_new_long (l : Z) : M shell (option Z) := node_new_value FINSH_NODE_VALUE_LONG l.
Definition finsh_node_new_ptr (ptr : Z) : M shell (option Z) := node_new_value FINSH_NODE_VALUE_NULL ptr.
Definition finsh_node_new_string (s : list Z) : M shell (option Z) :=
  n ← finsh_node_allocate FINSH_NODE_VALUE_STRING;
  match n with
  | None => error_set FINSH_ERROR_MEMORY_FULL ;; mret None
  | Some _ =>
    ptr ← on_data (finsh_heap_allocate (Z.of_nat (length s) + 1));
    match ptr with
    | None => diverge
    | Some ptr =>
      mod_node n (set_nd_value ptr) ;;
      on_data (modify (fun d => set_fd_mem (write_bytes (s ++ [0]) ptr (fd_mem d)) d)) ;;
      mret n
    end
  end.
(** The table of the linker by the whole name, the list by the prefix that was asked for. *)
Definition lookup_exact (name : list Z) (table : list (list Z * Z)) : option Z :=
  snd <$> find (fun e => bool_decide (fst e = name)) table.
Definition lookup_prefix (name : list Z) (items : list (list Z * Z)) : option Z :=
  snd <$> find (fun e => bool_decide (take (length name) (fst e) = name)) items.
Definition finsh_sysvar_lookup (name : list Z) : M shell (option Z) :=
  items ← gets global_sysvar_list;
  mret (match lookup_exact name sysvar_table with Some p => Some p | None => lookup_prefix name items end).
Definition finsh_syscall_lookup (name : list Z) : M shell (option Z) :=
  items ← gets global_syscall_list;
  mret (match lookup_exact name syscall_table with Some p => Some p | None => lookup_prefix name items end).
Definition finsh_node_new_id (id : list Z) : M shell (option Z) :=
  var ← on_data (finsh_var_lookup id);
  symbol ← (match var with
            | Some p => mret (Some (p, FINSH_IDTYPE_VAR))
            | None =>
              sysvar ← finsh_sysvar_lookup id;
              match sysvar with
              | Some p => mret (Some (p, FINSH_IDTYPE_SYSVAR))
              | None =>
                syscall ← finsh_syscall_lookup id;
                mret (match syscall with Some p => Some (p, FINSH_IDTYPE_SYSCALL) | None => None end)
              end
            end);
  match symbol with
  | Some (p, type) =>
    n ← finsh_node_allocate FINSH_NODE_ID;
    match n with
    | None => error_set FINSH_ERROR_MEMORY_FULL ;; mret None
    | Some _ => mod_node n (set_nd_ident type p) ;; mret n
    end
  | None => error_set FINSH_ERROR_UNKNOWN_SYMBOL ;; mret None
  end.
Definition make_sys_node (type : node_type) (node1 node2 : option Z) : M shell (option Z) :=
  n ← finsh_node_allocate type;
  match node1, n with
  | Some _, Some _ => mod_node n (set_nd_child node1) ;; mod_node node1 (set_nd_sibling node2) ;; mret n
  | _, _ => error_set FINSH_ERROR_NULL_NODE ;; mret n
  end.

(** ** finsh_parser.c: tokens *)
Definition check_token (token type : finsh_token_type) : M shell unit :=
  if bool_decide (token <> type) then error_set FINSH_ERROR_INVALID_TOKEN ;; replay else mret tt.
Definition match_token (type : finsh_token_type) : M shell unit := token ← next_token; check_token token type.
Definition base_type (token : finsh_token_type) : option finsh_type :=
  match token with
  | finsh_token_type_void => Some finsh_type_void
  | finsh_token_type_char => Some finsh_type_char
  | finsh_token_type_short => Some finsh_type_short
  | finsh_token_type_int => Some finsh_type_int
  | finsh_token_type_long => Some finsh_type_long
  | _ => None
  end.
Definition is_base_type (token : finsh_token_type) : bool := bool_decide (base_type token <> None).
Definition unsigned_type (token : finsh_token_type) : option finsh_type :=
  match token with
  | finsh_token_type_char => Some finsh_type_uchar
  | finsh_token_type_short => Some finsh_type_ushort
  | finsh_token_type_int => Some finsh_type_uint
  | finsh_token_type_long => Some finsh_type_ulong
  | _ => None
  end.
Definition pointer_type (t : finsh_type) : finsh_type :=
  match t with
  | finsh_type_char | finsh_type_uchar => finsh_type_charp
  | finsh_type_short | finsh_type_ushort => finsh_type_shortp
  | finsh_type_int | finsh_type_uint => finsh_type_intp
  | finsh_type_long | finsh_type_ulong => finsh_type_longp
  | _ => finsh_type_voidp
  end.
(** Behind the base type. *)
Definition type_pointer (t : finsh_type) : M shell finsh_type :=
  token ← next_token;
  if bool_decide (token = finsh_token_type_mul) then mret (pointer_type t) else replay ;; mret t.
Definition type_return : M shell finsh_type := replay ;; error_set FINSH_ERROR_UNKNOWN_TYPE ;; mret finsh_type_unknown.
Definition proc_type : M shell finsh_type :=
  token ← next_token;
  match base_type token with
  | Some t => type_pointer t
  | None =>
    if bool_decide (token = finsh_token_type_unsigned) then
      token ← next_token;
      if is_base_type token then
        match unsigned_type token with Some t => type_pointer t | None => type_return end
      else replay ;; error_set FINSH_ERROR_EXPECT_TYPE ;; type_pointer finsh_type_unknown
    else type_return
  end.
(** strncpy takes FINSH_NAME_MAX characters at most.  For an identifier of that length or
    more it writes no NUL, and the last byte of the caller's array [id] is whatever the
    stack held: the model takes that byte to be 0. *)
Definition proc_identifier : M shell (list Z) :=
  match_token finsh_token_type_identifier ;;
  id ← token_string;
  mret (take (Z.to_nat FINSH_NAME_MAX) id).

(** ** Expressions *)
(** The number of an enumerator of enum finsh_type. *)
Definition type_number (t : finsh_type) : Z :=
  match t with
  | finsh_type_unknown => 0 | finsh_type_void => 1 | finsh_type_voidp => 2 | finsh_type_char => 3 | finsh_type_uchar => 4
  | finsh_type_charp => 5 | finsh_type_short => 6 | finsh_type_ushort => 7 | finsh_type_shortp => 8 | finsh_type_int => 9
  | finsh_type_uint => 10 | finsh_type_intp => 11 | finsh_type_long => 12 | finsh_type_ulong => 13 | finsh_type_longp => 14
  end.
(** The recursive calls of the expressions. *)
Section recursive.
Context (fuel : nat) (proc_assign_expr proc_cast_expr : M shell (option Z)).
Fixpoint param_loop (fuel : nat) (assign : option Z) : M shell unit :=
  match fuel with
  | O => diverge
  | S fuel =>
    token ← next_token;
    if bool_decide (token = finsh_token_type_comma) then
      next ← proc_assign_expr;
      mod_node assign (set_nd_sibling next) ;;
      match next with
      | Some _ => param_loop fuel next
      | None => error_set FINSH_ERROR_EXPECT_OPERATOR ;; param_loop fuel assign
      end
    else mret tt
  end.
Definition proc_param_list : M shell (option Z) :=
  assign ← proc_assign_expr;
  match assign with
  | None => mret None
  | Some _ => param_loop fuel assign ;; replay ;; mret assign
  end.
Definition proc_primary_expr : M shell (option Z) :=
  token ← next_token;
  match token with
  | finsh_token_type_identifier => replay ;; id ← proc_identifier; finsh_node_new_id id
  | finsh_token_type_left_paren => expr ← proc_assign_expr; match_token finsh_token_type_right_paren ;; mret expr
  | finsh_token_type_value_int => v ← token_value; finsh_node_new_int v
  | finsh_token_type_value_long => v ← token_value; finsh_node_new_long v
  | finsh_token_type_value_char => v ← token_value; finsh_node_new_char v
  | finsh_token_type_value_string => s ← token_string; finsh_node_new_string s
  | finsh_token_type_value_null => finsh_node_new_ptr 0
  | _ => error_set FINSH_ERROR_INVALID_TOKEN ;; mret None
  end.
Fixpoint postfix_loop (fuel : nat) (postfix : option Z) : M shell (option Z) :=
  match fuel with
  | O => diverge
  | S fuel =>
    token ← next_token;
    match token with
    | finsh_token_type_inc => postfix ← make_sys_node FINSH_NODE_SYS_INC postfix None; postfix_loop fuel postfix
    | finsh_token_type_dec => postfix ← make_sys_node FINSH_NODE_SYS_DEC postfix None; postfix_loop fuel postfix
    | finsh_token_type_left_paren =>
      token ← next_token;
      param_list ← (if bool_decide (token <> finsh_token_type_right_paren) then
                      replay ;;
                      l ← proc_param_list;
                      match_token finsh_token_type_right_paren ;;
                      mret l
                    else mret None);
      postfix ← make_sys_node FINSH_NODE_SYS_FUNC postfix param_list;
      postfix_loop fuel postfix
    | _ => replay ;; mret postfix
    end
  end.
Definition proc_postfix_expr : M shell (option Z) := postfix ← proc_primary_expr; postfix_loop fuel postfix.
Definition proc_unary_expr : M shell (option Z) :=
  token ← next_token;
  match token with
  | finsh_token_type_add => proc_cast_expr
  | finsh_token_type_inc => cast ← proc_cast_expr; make_sys_node FINSH_NODE_SYS_PREINC cast None
  | finsh_token_type_sub => cast ← proc_cast_expr; zero ← finsh_node_new_long 0; make_sys_node FINSH_NODE_SYS_SUB zero cast
  | finsh_token_type_dec => cast ← proc_cast_expr; make_sys_node FINSH_NODE_SYS_PREDEC cast None
  | finsh_token_type_bitwise => cast ← proc_cast_expr; make_sys_node FINSH_NODE_SYS_BITWISE cast None
  | finsh_token_type_mul => cast ← proc_cast_expr; make_sys_node FINSH_NODE_SYS_GETVALUE cast None
  | finsh_token_type_and => cast ← proc_cast_expr; make_sys_node FINSH_NODE_SYS_GETADDR cast None
  | _ => replay ;; proc_postfix_expr
  end.
Definition cast_body : M shell (option Z) :=
  token ← next_token;
  if bool_decide (token = finsh_token_type_left_paren) then
    type ← proc_type;
    match_token finsh_token_type_right_paren ;;
    cast ← proc_cast_expr;
    match cast with
    | Some _ => mod_node cast (set_nd_data_type (type_number type)) ;; mret cast
    | None => replay ;; proc_unary_expr
    end
  else replay ;; proc_unary_expr.

(** A level of binary operators, which associate to the left. *)
Fixpoint binary_loop (fuel : nat) (op : finsh_token_type -> option node_type) (operand : M shell (option Z)) (left : option Z) : M shell (option Z) :=
  match fuel with
  | O => diverge
  | S fuel =>
    token ← next_token;
    match op token with
    | None => replay ;; mret left
    | Some type =>
      right ← operand;
      match right with
      | None => error_set FINSH_ERROR_EXPECT_OPERATOR ;; binary_loop fuel op operand left
      | Some _ => left ← make_sys_node type left right; binary_loop fuel op operand left
      end
    end
  end.
Definition binary_level (op : finsh_token_type -> option node_type) (operand : M shell (option Z)) : M shell (option Z) :=
  left ← operand; binary_loop fuel op operand left.
Definition mul_op (t : finsh_token_type) : option node_type :=
  match t with
  | finsh_token_type_mul => Some FINSH_NODE_SYS_MUL
  | finsh_token_type_div => Some FINSH_NODE_SYS_DIV
  | finsh_token_type_mod => Some FINSH_NODE_SYS_MOD
  | _ => None
  end.
Definition add_op (t : finsh_token_type) : option node_type :=
  match t with finsh_token_type_sub => Some FINSH_NODE_SYS_SUB | finsh_token_type_add => Some FINSH_NODE_SYS_ADD | _ => None end.
Definition shift_op (t : finsh_token_type) : option node_type :=
  match t with finsh_token_type_shl => Some FINSH_NODE_SYS_SHL | finsh_token_type_shr => Some FINSH_NODE_SYS_SHR | _ => None end.
Definition and_op (t : finsh_token_type) : option node_type := match t with finsh_token_type_and => Some FINSH_NODE_SYS_AND | _ => None end.
Definition xor_op (t : finsh_token_type) : option node_type := match t with finsh_token_type_xor => Some FINSH_NODE_SYS_XOR | _ => None end.
Definition or_op (t : finsh_token_type) : option node_type := match t with finsh_token_type_or => Some FINSH_NODE_SYS_OR | _ => None end.
Definition proc_multiplicative_expr : M shell (option Z) := binary_level mul_op proc_cast_expr.
Definition proc_additive_expr : M shell (option Z) := binary_level add_op proc_multiplicative_expr.
Definition proc_shift_expr : M shell (option Z) := binary_level shift_op proc_additive_expr.
Definition proc_and_expr : M shell (option Z) := binary_level and_op proc_shift_expr.
Definition proc_exclusive_or_expr : M shell (option Z) := binary_level xor_op proc_and_expr.
Definition proc_inclusive_or_expr : M shell (option Z) := binary_level or_op proc_exclusive_or_expr.
Definition assign_body : M shell (option Z) :=
  or ← proc_inclusive_or_expr;
  token ← next_token;
  if bool_decide (token = finsh_token_type_assign) then
    assign ← proc_assign_expr;
    make_sys_node FINSH_NODE_SYS_ASSIGN or assign
  else replay ;; mret or.
End recursive.
(** [fuel] bounds the depth of the recursion and the length of the loops; each call of
    either function consumes a token. *)
Fixpoint proc_assign_expr (fuel : nat) : M shell (option Z) := fun s =>
  match fuel with
  | O => diverge s
  | S fuel => assign_body fuel (proc_assign_expr fuel) (proc_cast_expr fuel) s
  end
with proc_cast_expr (fuel : nat) : M shell (option Z) := fun s =>
  match fuel with
  | O => diverge s
  | S fuel => cast_body fuel (proc_assign_expr fuel) (proc_cast_expr fuel) s
  end.
Definition proc_expr (fuel : nat) : M shell (option Z) := proc_assign_expr fuel.

(** ** Statements *)
Definition proc_expr_statement (fuel : nat) : M shell (option Z) :=
  token ← next_token;
  if bool_decide (token <> finsh_token_type_semicolon) then
    replay ;;
    expr ← proc_expr fuel;
    match_token finsh_token_type_semicolon ;;
    mret expr
  else mret None.
Definition declare (type : finsh_type) : M shell (list Z) :=
  id ← proc_identifier;
  r ← on_data (finsh_var_insert id type);
  (if r <? 0 then error_set FINSH_ERROR_VARIABLE_EXIST else mret tt) ;;
  mret id.
(** An initial value: the node that assigns it goes behind [end]; the next token. *)
Definition decl_init (fuel : nat) (id : list Z) (token : finsh_token_type) (node last : option Z) : M shell (finsh_token_type * option Z * option Z) :=
  assign ← proc_assign_expr fuel;
  match assign with
  | None => mret (token, node, last)
  | Some _ =>
    idnode ← finsh_node_new_id id;
    new ← make_sys_node FINSH_NODE_SYS_ASSIGN idnode assign;
    (match node with Some _ => mod_node last (set_nd_sibling new) | None => mret tt end) ;;
    token ← next_token;
    mret (token, match node with Some _ => node | None => new end, new)
  end.
Fixpoint decl_loop (n fuel : nat) (type : finsh_type) (token : finsh_token_type) (node last : option Z) : M shell (option Z) :=
  match n with
  | O => diverge
  | S n =>
    if bool_decide (token = finsh_token_type_comma) then
      id ← declare type;
      token ← next_token;
      if bool_decide (token = finsh_token_type_assign) then
        '(token, node, last) ← decl_init fuel id token node last;
        decl_loop n fuel type token node last
      else decl_loop n fuel type token node last
    else check_token token finsh_token_type_semicolon ;; mret node
  end.
Definition proc_variable_decl (fuel : nat) : M shell (option Z) :=
  type ← proc_type;
  id ← declare type;
  token ← next_token;
  match token with
  | finsh_token_type_comma => decl_loop fuel fuel type token None None
  | finsh_token_type_assign =>
    '(token, node, last) ← decl_init fuel id token None None;
    decl_loop fuel fuel type token node last
  | finsh_token_type_semicolon => mret None
  | _ => error_set FINSH_ERROR_EXPECT_TYPE ;; mret None
  end.
(** A statement, linked behind [node]; the new [node]. *)
Definition link_statement (proc : M shell (option Z)) (skip : bool) (node : option Z) : M shell (option Z) :=
  root ← gets sh_root;
  match root with
  | Some _ =>
    new ← proc;
    mod_node node (set_nd_sibling new) ;;
    match new with
    | Some _ => mret new
    | None => if skip then _ ← next_token; mret node else mret node
    end
  | None => node ← proc; modify (set_sh_root node) ;; mret node
  end.
Fixpoint run_loop (n fuel : nat) (token : finsh_token_type) (node : option Z) : M shell unit :=
  match n with
  | O => diverge
  | S n =>
    if bool_decide (token = finsh_token_type_eof) || bool_decide (token = finsh_token_type_bad) then mret tt
    else
      replay ;;
      node ← (if bool_decide (token = finsh_token_type_identifier) then link_statement (proc_expr_statement fuel) false node
              else if is_base_type token || bool_decide (token = finsh_token_type_unsigned) then link_statement (proc_variable_decl fuel) false node
              else link_statement (proc_expr_statement fuel) true node);
      root ← gets sh_root;
      match root with
      | None => mret tt
      | Some _ => token ← next_token; run_loop n fuel token node
      end
  end.
Definition parser_fuel (string : list Z) : nat := S (S (length string)).
Definition finsh_parser_run (string : list Z) : M shell unit :=
  modify (fun s => set_sh_token (finsh_token_init string (global_errno (sh_token s))) s) ;;
  token ← next_token;
  run_loop (parser_fuel string) (parser_fuel string) token None.
(** The tree that a pointer to a node is followed to, as the compiler walks it; [None] when
    the walk does not end within [fuel] steps. *)
Fixpoint tree_at (fuel : nat) (nodes : Z -> node) (p : option Z) : option finsh_node :=
  match p, fuel with
  | None, _ => Some NULL
  | Some _, O => None
  | Some i, S fuel =>
    let n := nodes i in
    sibling ← tree_at fuel nodes (nd_sibling n); child ← tree_at fuel nodes (nd_child n);
    Some (Node (nd_type n) (nd_data_type n) (nd_idtype n) (nd_value n) (nd_id n) sibling child)
  end.
Definition finsh_parser_init : M shell unit :=
  modify (fun s => set_sh_root None (set_sh_token (finsh_token_init [] (global_errno (sh_token s))) s)).
End finsh_parser.
