(* ===== verification/FinshLex.v ===== *)
(** What the lexer of the shell makes of a line of lexemes with spaces between them: the
    lexemes. *)
From S2P Require Import Prelude Kernel FinshToken.

(** ** Lexemes and their text *)
Inductive lexeme := LOp (t : finsh_token_type) | LNum (z : Z) | LId (name : list Z) | LKey (t : finsh_token_type).
Definition op_text (t : finsh_token_type) : option (list Z) :=
  match t with
  | finsh_token_type_left_paren => Some [40] | finsh_token_type_right_paren => Some [41]
  | finsh_token_type_comma => Some [44] | finsh_token_type_semicolon => Some [59]
  | finsh_token_type_and => Some [38] | finsh_token_type_mul => Some [42]
  | finsh_token_type_add => Some [43] | finsh_token_type_inc => Some [43; 43]
  | finsh_token_type_sub => Some [45] | finsh_token_type_dec => Some [45; 45]
  | finsh_token_type_div => Some [47]
  | finsh_token_type_shl => Some [60; 60] | finsh_token_type_shr => Some [62; 62]
  | finsh_token_type_or => Some [124] | finsh_token_type_mod => Some [37]
  | finsh_token_type_bitwise => Some [126] | finsh_token_type_xor => Some [94]
  | finsh_token_type_assign => Some [61]
  | _ => None
  end.
Fixpoint decimal (fuel : nat) (n : Z) : list Z :=
  match fuel with
  | O => []
  | S fuel => (if n <? 10 then [] else decimal fuel (n / 10)) ++ [48 + n mod 10]
  end.
Definition key_text (t : finsh_token_type) : option (list Z) := fst <$> find (fun e => bool_decide (snd e = t)) finsh_name_table.
Definition text_of (l : lexeme) : list Z :=
  match l with LOp t => default [] (op_text t) | LNum z => decimal 10 z | LId name => name | LKey t => default [] (key_text t) end.
Definition line_of (ls : list lexeme) : list Z := flat_map (fun l => text_of l ++ [32]) ls.
Definition type_of (l : lexeme) : finsh_token_type :=
  match l with LOp t | LKey t => t | LNum _ => finsh_token_type_value_int | LId _ => finsh_token_type_identifier end.
(** Words are letters, digits and underscores, no digit first; names are no keywords. *)
Definition is_word (name : list Z) : Prop :=
  match name with c :: _ => is_digit c = false | [] => False end /\
  Forall (fun c => is_separator c = false /\ 0 < c < 256) name /\ (length name < 128)%nat.
Definition is_name (name : list Z) : Prop := is_word name /\ name ∉ (fst <$> finsh_name_table).
Definition lexeme_ok (l : lexeme) : Prop :=
  match l with LOp t => op_text t <> None | LNum z => 0 <= z < 2 ^ 31 | LId name => is_name name | LKey t => key_text t <> None end.

(** ** The lexer at a position of the line *)
Definition at_pos (p : nat) (s : finsh_token) : finsh_token := set_tk_position (Z.of_nat p) s.
Lemma wp_next p s c (Q : Z -> finsh_token -> Prop) :
  tk_eof s = false -> tk_line s !! p = Some c -> c <> 10 -> Q c (at_pos (S p) s) -> wp token_next_char Q (at_pos p s).
Proof.
  intros He Hc Hn HQ. unfold wp, token_next_char. cbn. rewrite He. pose proof (lookup_lt_Some _ _ _ Hc).
  rewrite Nat2Z.id. rewrite (nth_lookup_Some _ _ 0 _ Hc). destruct (Z.eqb_spec (Z.of_nat p) (Z.of_nat (length (tk_line s)))); [lia|].
  destruct (Z.eqb_spec c 10); [done|]. cbn [orb]. unfold at_pos in HQ. rewrite Nat2Z.inj_succ, <- Z.add_1_r in HQ. exact HQ.
Qed.
Lemma wp_next_end s (Q : Z -> finsh_token -> Prop) :
  tk_eof s = false -> Q 0 (at_pos 0 (set_tk_eof true s)) -> wp token_next_char Q (at_pos (length (tk_line s)) s).
Proof. intros He HQ. unfold wp, token_next_char. cbn. by rewrite He, Z.eqb_refl. Qed.
Lemma wp_prev p s (Q : unit -> finsh_token -> Prop) : tk_eof s = false -> Q tt (at_pos p s) -> wp token_prev_char Q (at_pos (S p) s).
Proof.
  intros He HQ. unfold wp, token_prev_char. cbn [tk_eof at_pos set_tk_position tk_position]. rewrite He.
  destruct (Z.eqb_spec (Z.of_nat (S p)) 0); [lia|]. unfold at_pos in HQ. by replace (Z.of_nat (S p) - 1) with (Z.of_nat p) by lia.
Qed.
(** The line from a position on. *)
Definition sees (p : nat) (s : finsh_token) (cs : list Z) : Prop := tk_eof s = false /\ drop p (tk_line s) = cs /\ Forall (fun c => c <> 10) cs.
Lemma wp_next_sees p s c cs (Q : Z -> finsh_token -> Prop) : sees p s (c :: cs) -> Q c (at_pos (S p) s) -> wp token_next_char Q (at_pos p s).
Proof.
  intros (He & Hd & Hf) HQ. inv Hf. eapply (wp_next _ _ c); [done| |done|done].
  rewrite <- (Nat.add_0_r p), <- lookup_drop, Hd. done.
Qed.
Lemma sees_app p s cs ds : sees p s (cs ++ ds) -> sees (p + length cs) s ds.
Proof.
  intros (He & Hd & Hf). split; [done|]. split; [|by apply Forall_app in Hf as [_ Hf]].
  by rewrite <- drop_drop, Hd, drop_app_length.
Qed.
Lemma sees_cons p s c cs : sees p s (c :: cs) -> sees (S p) s cs.
Proof. intros Hs. apply (sees_app p s [c] cs) in Hs. by rewrite Nat.add_1_r in Hs. Qed.
Lemma sees_fuel p s cs : sees p s cs -> (length cs <= length (tk_line s))%nat.
Proof. intros (_ & <- & _). rewrite length_drop. lia. Qed.
Lemma wp_take pr s d rest : pr d = false -> forall cs fuel p c acc (Q : list Z * Z -> finsh_token -> Prop),
  pr c = true -> Forall (fun c => pr c = true) cs -> sees p s (cs ++ d :: rest) -> (S (length cs) < fuel)%nat ->
  Q (acc ++ c :: cs, d) (at_pos (S (p + length cs)) s) -> wp (take_chars fuel pr c acc) Q (at_pos p s).
Proof.
  intros Hd. induction cs as [|c' cs IH]; intros fuel p c acc Q Hc Hcs Hs Hf HQ;
    (destruct fuel as [|fuel]; [cbn in Hf; lia|]); cbn [take_chars]; rewrite Hc; wp1.
  - eapply wp_next_sees; [exact Hs|]. destruct fuel as [|fuel]; [cbn in Hf; lia|]. cbn [take_chars]. rewrite Hd. wp1.
    cbn [length] in HQ. by rewrite Nat.add_0_r in HQ.
  - inv Hcs. eapply wp_next_sees; [exact Hs|]. apply IH; [done|done|by eapply sees_cons|cbn in Hf; lia|].
    rewrite <- app_assoc. cbn [length app] in HQ |- *. by rewrite Nat.add_succ_r in HQ.
Qed.
(** ** Spaces *)
Definition is_space (ch : Z) : bool := (ch =? 32) || (ch =? 9) || (ch =? 13).
Lemma wp_trim s c cs (Q : unit -> finsh_token -> Prop) : is_space c = false -> forall k p fuel,
  sees p s (replicate k 32 ++ c :: cs) -> (k < fuel)%nat -> Q tt (at_pos (S (p + k)) s) -> wp (trim_loop fuel) Q (at_pos p s).
Proof.
  intros Hc. induction k as [|k IH]; intros p fuel Hs Hf HQ; (destruct fuel as [|fuel]; [lia|]); cbn [trim_loop replicate app] in *; wp1.
  - eapply wp_next_sees; [exact Hs|]. fold (is_space c). rewrite Hc. wp1. by rewrite Nat.add_0_r in HQ.
  - eapply wp_next_sees; [exact Hs|]. cbn [Z.eqb Pos.eqb orb]. apply IH; [by eapply sees_cons|lia|by rewrite Nat.add_succ_r in HQ].
Qed.
Lemma wp_trim_space p s k c cs (Q : unit -> finsh_token -> Prop) : is_space c = false ->
  sees p s (replicate k 32 ++ c :: cs) -> Q tt (at_pos (p + k) s) -> wp token_trim_space Q (at_pos p s).
Proof.
  intros Hc Hs HQ. unfold token_trim_space, line_fuel. do 3 wp1. pose proof (sees_fuel _ _ _ Hs) as Hf. rewrite length_app, length_replicate in Hf. cbn in Hf.
  eapply wp_trim; [exact Hc|exact Hs|cbn; lia|]. by apply wp_prev; [apply Hs|].
Qed.
(** At the end of the line the lexer stays at the end. *)
Definition at_end (s : finsh_token) : finsh_token := at_pos 0 (set_tk_eof true s).
Lemma wp_trim_end s (Q : unit -> finsh_token -> Prop) : forall k p fuel, sees p s (replicate k 32) -> (p + k = length (tk_line s))%nat -> (k < fuel)%nat ->
  Q tt (at_end s) -> wp (trim_loop fuel) Q (at_pos p s).
Proof.
  induction k as [|k IH]; intros p fuel Hs Hl Hf HQ; (destruct fuel as [|fuel]; [lia|]); cbn [trim_loop replicate] in *; wp1.
  - rewrite Nat.add_0_r in Hl. subst p. apply wp_next_end; [apply Hs|]. cbn [Z.eqb orb]. by wp1.
  - eapply wp_next_sees; [exact Hs|]. cbn [Z.eqb Pos.eqb orb]. apply IH; [by eapply sees_cons|lia|lia|done].
Qed.
Lemma wp_token_end p s k (Q : unit -> finsh_token -> Prop) : sees p s (replicate k 32) -> (p <= length (tk_line s))%nat ->
  (forall s', tk_current_token s' = finsh_token_type_eof -> global_errno s' = global_errno s -> tk_replay s' = tk_replay s -> Q tt s') ->
  wp token_run Q (at_pos p s).
Proof.
  intros Hs Hp HQ. assert (p + k = length (tk_line s))%nat as Hk.
  { destruct Hs as (_ & Hd & _). apply (f_equal length) in Hd. rewrite length_drop, length_replicate in Hd. lia. }
  unfold token_run, token_trim_space, line_fuel. do 4 wp1. eapply wp_trim_end; [exact Hs|exact Hk|cbn; lia|].
  unfold wp, token_prev_char, token_get_string, token_next_char, mbind, M_bind, gets. cbn. by apply HQ.
Qed.

(** ** The start of a token *)
Lemma put_bytes_fits a bs : (length bs <= length a)%nat -> put_bytes a bs = Some (bs ++ drop (length bs) a).
Proof. intros Hl. unfold put_bytes. by rewrite decide_True. Qed.
Lemma c_str_app name rest : Forall (fun c => c <> 0) name -> c_str (name ++ 0 :: rest) = name.
Proof. induction 1 as [|c name Hc _ IH]; [done|]. cbn. destruct (Z.eqb_spec c 0); [done|]. by rewrite IH. Qed.
Lemma wp_store_string bs s (Q : unit -> finsh_token -> Prop) : (length bs < length (tk_string s))%nat ->
  (forall a, length a = length (tk_string s) -> (Forall (fun c => c <> 0) bs -> c_str a = bs) -> Q tt (set_tk_string a s)) -> wp (store_string bs) Q s.
Proof.
  intros Hl HQ. unfold wp, store_string. rewrite put_bytes_fits by (rewrite length_app; cbn; lia). apply HQ.
  - rewrite !length_app, length_drop. cbn. lia.
  - intros Hb. rewrite <- app_assoc. by apply c_str_app.
Qed.
Lemma set_eof_false s : tk_eof s = false -> set_tk_eof false s = s.
Proof. destruct s. cbn. by intros ->. Qed.
(** A character that starts no name: the string is empty. *)
Lemma wp_get_nothing p s c cs (Q : Z -> finsh_token -> Prop) :
  sees p s (c :: cs) -> is_digit c = true \/ is_separator c = true -> length (tk_string s) = 128%nat ->
  (forall r a, length a = 128%nat -> c_str a = [] -> Q r (at_pos p (set_tk_string a s))) -> wp token_get_string Q (at_pos p s).
Proof.
  intros Hs Hc Hl HQ. unfold token_get_string, line_fuel. wp1. eapply wp_next_sees; [exact Hs|]. do 2 wp1. cbn [tk_eof at_pos set_tk_position]. rewrite (proj1 Hs).
  wp1. apply wp_store_string; [cbn; lia|]. intros a Ha Hz. cbn in Ha. destruct (is_digit c) eqn:Ed.
  - wp1. apply (wp_prev p (set_tk_string a s)); [apply Hs|]. wp1. apply HQ; [lia|by apply Hz].
  - destruct Hc as [Hc|Hc]; [done|]. do 2 wp1. wp1. cbn [take_chars]. rewrite Hc. cbn [negb]. do 3 wp1.
    change (set_tk_eof false (set_tk_string a (at_pos (S p) s))) with (at_pos (S p) (set_tk_eof false (set_tk_string a s))).
    rewrite set_eof_false by apply Hs. wp1. apply (wp_prev p (set_tk_string a s)); [apply Hs|].
    wp1. apply wp_store_string; [cbn; lia|]. intros a' Ha' Hz'. wp1. apply (HQ 0 a'); [cbn in Ha'; lia|by apply Hz'].
Qed.
(** A name. *)
Lemma wp_get_name p s name cs (Q : Z -> finsh_token -> Prop) :
  sees p s (name ++ 32 :: cs) -> is_word name -> length (tk_string s) = 128%nat ->
  (forall a, length a = 128%nat -> c_str a = name -> Q 0 (at_pos (p + length name) (set_tk_string a s))) -> wp token_get_string Q (at_pos p s).
Proof.
  intros Hs (Hd & Hn & Hlen) Hl HQ. destruct name as [|c name]; [done|]. inv Hn. unfold token_get_string, line_fuel. wp1.
  eapply wp_next_sees; [exact Hs|]. do 2 wp1. cbn [tk_eof at_pos set_tk_position]. rewrite (proj1 Hs).
  wp1. apply wp_store_string; [cbn; lia|]. intros a Ha _. cbn in Ha. rewrite Hd. do 2 wp1. wp1.
  pose proof (sees_fuel _ _ _ Hs) as Hf. rewrite length_app in Hf. cbn in Hf.
  eapply (wp_take (fun ch => negb (is_separator ch)) (set_tk_string a s) 32 cs) with (cs := name) (p := S p); [done|by destruct H1 as [-> _]|eapply Forall_impl; [eassumption|]; by intros ? [-> _]|exact (sees_cons _ _ _ _ Hs)|cbn; lia|].
  do 2 wp1. change (set_tk_eof false (at_pos ?q (set_tk_string a s))) with (at_pos q (set_tk_eof false (set_tk_string a s))).
  rewrite set_eof_false by apply Hs. wp1. apply wp_prev; [apply Hs|]. wp1. apply wp_store_string; [cbn in *; lia|]. intros a' Ha' Hz. wp1.
  replace (S p + length name)%nat with (p + length (c :: name))%nat by (cbn; lia). apply (HQ a'); [cbn in Ha'; lia|]. apply Hz. constructor; [lia|].
  eapply Forall_impl; [eassumption|]. intros x [_ Hx]. lia.
Qed.

(** ** Operators *)
Lemma wp_double p s c two one d cs (Q : unit -> finsh_token -> Prop) : sees p s (d :: cs) ->
  (d = c -> Q tt (at_pos (S p) (set_tk_current_token two s))) -> (d <> c -> Q tt (at_pos p (set_tk_current_token one s))) ->
  wp (token_double c two one) Q (at_pos p s).
Proof.
  intros Hs H1 H2. unfold token_double, set_token. wp1. eapply wp_next_sees; [exact Hs|]. destruct (Z.eqb_spec d c); [wp1; by apply H1|].
  wp1. apply wp_prev; [apply Hs|]. wp1. by apply H2.
Qed.
Lemma wp_operator p s t c cs rest (Q : unit -> finsh_token -> Prop) : op_text t = Some (c :: cs) -> sees p s (c :: cs ++ 32 :: rest) ->
  Q tt (at_pos (p + length (c :: cs)) (set_tk_current_token t s)) -> wp (token_operator c) Q (at_pos (S p) s).
Proof.
  intros Ht Hs HQ. apply sees_cons in Hs. cbn [length] in HQ.
  destruct t; cbn in Ht; try discriminate; injection Ht as <- <-; unfold token_operator; cbn [Z.eqb Pos.eqb];
    solve [ unfold set_token; wp1; cbn [length] in HQ; rewrite Nat.add_1_r in HQ; exact HQ
          | eapply wp_double; [exact Hs|done|]; cbn [length] in HQ; rewrite ?Nat.add_1_r in HQ; intros _; exact HQ
          | eapply wp_double; [exact Hs| |done]; intros _; cbn [length] in HQ; rewrite Nat.add_succ_r, Nat.add_1_r in HQ; exact HQ ].
Qed.

(** ** Numbers *)
Lemma decimal_digits fuel n : 0 <= n -> Forall (fun c => is_digit c = true) (decimal fuel n).
Proof.
  revert n. induction fuel as [|fuel IH]; intros n Hn; [done|]. cbn [decimal]. apply Forall_app. split.
  - destruct (n <? 10); [done|]. apply IH. apply Z.div_pos; lia.
  - constructor; [|done]. pose proof (Z.mod_pos_bound n 10 ltac:(lia)). unfold is_digit. apply andb_true_intro. split; apply Z.leb_le; lia.
Qed.
Lemma decimal_first fuel n : 0 < n -> n < 10 ^ Z.of_nat fuel -> exists c cs, decimal fuel n = c :: cs /\ 49 <= c <= 57.
Proof.
  revert n. induction fuel as [|fuel IH]; intros n Hn Hf; [cbn in Hf; lia|]. cbn [decimal]. rewrite Nat2Z.inj_succ, Z.pow_succ_r in Hf by lia.
  destruct (Z.ltb_spec n 10).
  - exists (48 + n mod 10), []. split; [done|]. rewrite Z.mod_small; lia.
  - destruct (IH (n / 10)) as (c & cs & -> & Hc); [apply Z.div_str_pos; lia|apply Z.div_lt_upper_bound; lia|].
    by exists c, (cs ++ [48 + n mod 10]).
Qed.
Lemma decimal_value fuel n : 0 <= n < 2 ^ 31 -> n < 10 ^ Z.of_nat fuel ->
  foldl (fun v ch => int32 (v * 10 + (ch - 48))) 0 (decimal fuel n) = n.
Proof.
  revert n. induction fuel as [|fuel IH]; intros n Hn Hf; [cbn in *; lia|]. cbn [decimal]. rewrite Nat2Z.inj_succ, Z.pow_succ_r in Hf by lia.
  rewrite foldl_app. cbn [foldl]. pose proof (Z.div_mod n 10 ltac:(lia)).
  assert (foldl (fun v ch => int32 (v * 10 + (ch - 48))) 0 (if n <? 10 then [] else decimal fuel (n / 10)) = n / 10) as ->.
  { destruct (Z.ltb_spec n 10); [rewrite Z.div_small by lia; done|]. apply IH; [|apply Z.div_lt_upper_bound; lia].
    split; [apply Z.div_pos; lia|]. apply Z.div_lt_upper_bound; lia. }
  replace (n / 10 * 10 + (48 + n mod 10 - 48)) with n by lia. apply sint_small; lia.
Qed.
Lemma wp_number p s n rest (Q : unit -> finsh_token -> Prop) : 0 <= n < 2 ^ 31 -> sees p s (decimal 10 n ++ 32 :: rest) ->
  Q tt (at_pos (p + length (decimal 10 n)) (set_tk_current_token finsh_token_type_value_int (set_tk_value n s))) ->
  wp token_proc_number Q (at_pos p s).
Proof.
  intros Hn Hs HQ. unfold token_proc_number. destruct (Z.eq_dec n 0) as [->|H0].
  - cbn [decimal Z.ltb Z.compare app] in *. change (48 + 0 mod 10) with 48 in *. wp1. eapply wp_next_sees; [exact Hs|]. cbn [Z.eqb Pos.eqb].
    repeat wp1. eapply wp_next_sees; [exact (sees_cons _ _ _ _ Hs)|]. cbn [Z.eqb Pos.eqb orb]. unfold number_in_base, line_fuel. repeat wp1.
    cbn [take_chars]. change (is_digit 32) with false. cbn match. repeat wp1. rewrite decide_True by (cbn; lia). repeat wp1. cbn [Z.eqb Pos.eqb orb].
    apply (wp_prev (S p) (set_tk_current_token finsh_token_type_value_int (set_tk_value 0 s))); [apply Hs|]. rewrite Nat.add_1_r in HQ. exact HQ.
  - destruct (decimal_first 10 n ltac:(lia) ltac:(cbn; lia)) as (c & cs & E & Hc). pose proof (decimal_digits 10 n ltac:(lia)) as Hd.
    pose proof (decimal_value 10 n Hn ltac:(cbn; lia)) as Hv. rewrite E in *. apply Forall_cons in Hd as [Hd Hds]. wp1. eapply wp_next_sees; [exact Hs|].
    destruct (Z.eqb_spec c 48); [lia|]. unfold line_fuel. repeat wp1. pose proof (sees_fuel _ _ _ Hs) as Hf. rewrite length_app in Hf. cbn in Hf.
    eapply (wp_take is_digit s 32 rest) with (cs := cs) (p := S p); [done|done|done|exact (sees_cons _ _ _ _ Hs)|cbn; lia|].
    repeat wp1. cbn [Z.eqb Pos.eqb orb app]. rewrite Hv. apply (wp_prev _ (set_tk_current_token finsh_token_type_value_int (set_tk_value n s))); [apply Hs|].
    replace (S p + length cs)%nat with (p + length (c :: cs))%nat by (cbn; lia). exact HQ.
Qed.

(** ** One token *)
(** The current token is the lexeme. *)
Definition delivered (l : lexeme) (s : finsh_token) : Prop :=
  tk_current_token s = type_of l /\ match l with LNum z => tk_value s = z | LId name => c_str (tk_string s) = name | LOp _ | LKey _ => True end.
(** The lexemes are what is left of the line. *)
Definition ahead (ls : list lexeme) (s : finsh_token) : Prop :=
  exists p k, tk_position s = Z.of_nat p /\ (p <= length (tk_line s))%nat /\ sees p s (replicate k 32 ++ line_of ls) /\
  length (tk_string s) = 128%nat /\ Forall lexeme_ok ls.
Lemma at_pos_id p s : tk_position s = Z.of_nat p -> at_pos p s = s.
Proof. destruct s. cbn. by intros ->. Qed.
Lemma op_start t c cs : op_text t = Some (c :: cs) -> is_space c = false /\ is_digit c = false /\ is_separator c = true.
Proof. destruct t; cbn; try discriminate; intros [= <- <-]; done. Qed.
Lemma word_start c name : is_word (c :: name) -> is_space c = false.
Proof.
  intros (_ & Hn & _). apply Forall_cons in Hn as [[Hs _] _]. unfold is_space.
  destruct (Z.eqb_spec c 32); [by subst|]. destruct (Z.eqb_spec c 9); [by subst|]. destruct (Z.eqb_spec c 13); by subst.
Qed.
Lemma decimal_start n : 0 <= n < 2 ^ 31 -> exists c cs, decimal 10 n = c :: cs /\ is_digit c = true.
Proof.
  intros Hn. pose proof (decimal_digits 10 n ltac:(lia)) as Hd. destruct (decimal 10 n) as [|c cs] eqn:E.
  - cbn [decimal] in E. by apply app_eq_nil in E as [_ E].
  - exists c, cs. by apply Forall_cons in Hd as [Hd _].
Qed.
Lemma match_name_fails name s : name ∉ (fst <$> finsh_name_table) -> token_match_name name s = Some (false, s).
Proof.
  intros Hn. unfold token_match_name. destruct (find _ _) as [[n t]|] eqn:E; [|done]. apply find_some in E as [Hi Hb].
  apply bool_decide_eq_true in Hb. cbn in Hb. subst n. destruct Hn. apply list_elem_of_fmap. exists (name, t). split; [done|]. by apply list_elem_of_In.
Qed.
Lemma key_word t : key_text t <> None -> exists name, key_text t = Some name /\ is_word name /\
  forall s, token_match_name name s = Some (true, set_tk_current_token t s).
Proof.
  unfold is_word. destruct t; try done; intros _; eexists; (split; [reflexivity|]); (split; [|done]);
    (split; [done|]); (split; [|cbn; lia]); repeat (constructor; [split; [done|lia]|]); constructor.
Qed.
(** What [token_run] does behind the spaces. *)
Lemma wp_token_text p s l rest (Q : unit -> finsh_token -> Prop) : lexeme_ok l -> length (tk_string s) = 128%nat ->
  sees p s (text_of l ++ 32 :: rest) ->
  (forall s', delivered l s' -> s' = at_pos (p + length (text_of l)) (set_tk_current_token (tk_current_token s') (set_tk_value (tk_value s') (set_tk_string (tk_string s') s))) ->
    length (tk_string s') = 128%nat -> Q tt s') ->
  wp (_ ← token_get_string; eof ← gets tk_eof;
      if (eof : bool) then set_token finsh_token_type_eof
      else str ← gets (fun s => c_str (tk_string s));
           if bool_decide (str <> []) then matched ← token_match_name str; if (matched : bool) then mret tt else set_token finsh_token_type_identifier
           else ch ← token_next_char; token_operator ch) Q (at_pos p s).
Proof.
  intros Hok Hl Hs HQ. destruct l as [t|n|name|t]; cbn [text_of lexeme_ok] in *.
  - destruct (op_text t) as [[|c cs]|] eqn:Et; [by destruct t| |done]. destruct (op_start _ _ _ Et) as (_ & _ & Hsep). cbn [default app length] in *. wp1.
    eapply wp_get_nothing; [exact Hs|by right|done|]. intros r a Ha Hz. do 2 wp1. cbn [tk_eof at_pos set_tk_position set_tk_string]. rewrite (proj1 Hs).
    do 2 wp1. cbn [tk_string at_pos set_tk_position set_tk_string]. rewrite Hz, bool_decide_false by tauto. wp1.
    apply (wp_next_sees p (set_tk_string a s) c (cs ++ 32 :: rest)); [exact Hs|].
    eapply (wp_operator p (set_tk_string a s)); [exact Et|exact Hs|]. apply HQ; [by split|by destruct s|done].
  - destruct (decimal_start n Hok) as (c & cs & E & Hc). assert (exists cs', decimal 10 n ++ 32 :: rest = c :: cs') as [cs' E'] by (rewrite E; eexists; reflexivity).
    wp1. eapply wp_get_nothing; [rewrite <- E'; exact Hs|by left|done|]. intros r a Ha Hz. do 2 wp1. cbn [tk_eof at_pos set_tk_position set_tk_string]. rewrite (proj1 Hs).
    do 2 wp1. cbn [tk_string at_pos set_tk_position set_tk_string]. rewrite Hz, bool_decide_false by tauto. wp1.
    apply (wp_next_sees p (set_tk_string a s) c cs'); [rewrite <- E'; exact Hs|].
    assert (forall d, is_digit c = true -> token_operator c d = (token_prev_char ;; token_proc_number) d) as Hop.
    { intros d. unfold is_digit. intros [H1 H2]%andb_true_iff. apply Z.leb_le in H1, H2. unfold token_operator.
      do 18 (rewrite (proj2 (Z.eqb_neq _ _)) by lia; cbn match). unfold is_digit. by rewrite (proj2 (Z.leb_le _ _) H1), (proj2 (Z.leb_le _ _) H2). }
    unfold wp at 1. rewrite Hop by done. match goal with |- match ?m ?s with _ => _ end => change (wp m Q s) end. wp1.
    apply (wp_prev p (set_tk_string a s)); [apply Hs|]. eapply (wp_number p (set_tk_string a s)); [exact Hok|exact Hs|].
    apply HQ; [by split|by destruct s|done].
  - wp1. eapply wp_get_name; [exact Hs|apply Hok|done|]. intros a Ha Hz. do 2 wp1. cbn [tk_eof at_pos set_tk_position set_tk_string]. rewrite (proj1 Hs).
    do 2 wp1. cbn [tk_string at_pos set_tk_position set_tk_string]. rewrite Hz, bool_decide_true by (destruct name; [by destruct Hok as [[] _]|done]). wp1.
    unfold wp at 1. rewrite match_name_fails by apply Hok. unfold set_token. wp1. apply HQ; [by split|by destruct s|done].
  - destruct (key_word t Hok) as (name & E & Hw & Hm). rewrite E in *. cbn [default] in *. wp1. eapply wp_get_name; [exact Hs|apply Hw|done|]. intros a Ha Hz.
    do 2 wp1. cbn [tk_eof at_pos set_tk_position set_tk_string]. rewrite (proj1 Hs).
    do 2 wp1. cbn [tk_string at_pos set_tk_position set_tk_string]. rewrite Hz, bool_decide_true by (destruct name; [by destruct Hw|done]). wp1.
    unfold wp at 1. rewrite Hm. wp1. apply HQ; [by split|by destruct s|done].
Qed.
Lemma text_start l rest : lexeme_ok l -> exists c cs, text_of l ++ rest = c :: cs /\ is_space c = false.
Proof.
  destruct l as [t|n|name|t]; cbn [lexeme_ok text_of].
  - intros Ht. destruct (op_text t) as [[|c cs]|] eqn:E; [by destruct t| |done]. exists c, (cs ++ rest). split; [done|]. by apply (op_start t c cs).
  - intros Hn. destruct (decimal_start n Hn) as (c & cs & -> & Hc). exists c, (cs ++ rest). split; [done|]. unfold is_digit in Hc. unfold is_space.
    apply andb_true_iff in Hc as [H1 H2]. apply Z.leb_le in H1, H2. by rewrite !(proj2 (Z.eqb_neq _ _)) by lia.
  - intros Hn. destruct name as [|c name]; [by destruct Hn as [[] _]|]. exists c, (name ++ rest). split; [done|]. by apply (word_start c name), Hn.
  - intros Hk. destruct (key_word t Hk) as ([|c name] & E & Hw & _); [by destruct Hw|]. rewrite E. exists c, (name ++ rest). split; [done|]. by apply (word_start c name).
Qed.
Lemma wp_token_run l ls s (Q : unit -> finsh_token -> Prop) : ahead (l :: ls) s ->
  (forall s', delivered l s' -> ahead ls s' -> global_errno s' = global_errno s -> tk_replay s' = tk_replay s -> Q tt s') -> wp token_run Q s.
Proof.
  intros (p & k & Hp & Hle & Hs & Hl & Hok) HQ. apply Forall_cons in Hok as [Hok Hoks]. cbn [line_of flat_map] in Hs. rewrite <- app_assoc in Hs. cbn [app] in Hs.
  destruct (text_start l (32 :: line_of ls) Hok) as (c & cs & E & Hc). rewrite <- (at_pos_id p s Hp). unfold token_run. wp1.
  eapply wp_trim_space; [exact Hc|rewrite <- E; exact Hs|]. apply sees_app in Hs. rewrite length_replicate in Hs.
  eapply wp_token_text; [exact Hok|done|exact Hs|]. intros s' Hd Hs' Hl'. apply HQ; [done| |by rewrite Hs'..].
  exists (p + k + length (text_of l))%nat, 1%nat. pose proof (sees_app _ _ _ _ Hs) as (He & Hdr & Hf). rewrite Hs'. cbn in *. split; [done|]. split; [|by split].
  apply (f_equal length) in Hdr. rewrite length_drop in Hdr. cbn in Hdr. lia.
Qed.
Lemma wp_token_run_end s (Q : unit -> finsh_token -> Prop) : ahead [] s ->
  (forall s', tk_current_token s' = finsh_token_type_eof -> global_errno s' = global_errno s -> tk_replay s' = tk_replay s -> Q tt s') -> wp token_run Q s.
Proof. intros (p & k & Hp & Hle & Hs & _) HQ. cbn in Hs. rewrite app_nil_r in Hs. rewrite <- (at_pos_id p s Hp). by eapply wp_token_end. Qed.

(** ** The tokens the parser gets *)
(** The last token was [l]; the parser may ask for it again. *)
Definition got (l : lexeme) (ls : list lexeme) (s : finsh_token) : Prop := tk_replay s = false /\ delivered l s /\ ahead ls s.
Definition queue (ls : list lexeme) (s : finsh_token) : Prop :=
  if tk_replay s then match ls with l :: ls => delivered l s /\ ahead ls s | [] => False end else ahead ls s.
Lemma got_queue l ls s : got l ls s -> queue ls s.
Proof. intros (Hr & _ & Ha). unfold queue. by rewrite Hr. Qed.
Lemma got_replay l ls s : got l ls s -> queue (l :: ls) (set_tk_replay true s).
Proof. intros (_ & Hd & Ha). by split. Qed.
Lemma got_token l ls s : got l ls s -> tk_current_token s = type_of l.
Proof. by intros (_ & [Ht _] & _). Qed.
(** A line of lexemes gives the lexemes, one after the other. *)
Lemma wp_token l ls s (Q : finsh_token_type -> finsh_token -> Prop) : queue (l :: ls) s ->
  (forall s', got l ls s' -> global_errno s' = global_errno s -> Q (type_of l) s') -> wp finsh_token_token Q s.
Proof.
  intros Hq HQ. unfold finsh_token_token, queue in *. do 2 wp1. destruct (tk_replay s) eqn:Hr.
  - destruct Hq as [Hd Ha]. do 2 wp1. assert (got l ls (set_tk_replay false s)) as Hg by done. wp1. rewrite (got_token _ _ _ Hg). by apply HQ.
  - wp1. eapply wp_token_run; [exact Hq|]. intros s' Hd Ha He Hr'. wp1. assert (got l ls s') as Hg by (split; [congruence|by split]).
    rewrite (got_token _ _ _ Hg). by apply HQ.
Qed.
Lemma wp_token_eof s (Q : finsh_token_type -> finsh_token -> Prop) : queue [] s ->
  (forall s', global_errno s' = global_errno s -> Q finsh_token_type_eof s') -> wp finsh_token_token Q s.
Proof.
  intros Hq HQ. unfold finsh_token_token, queue in *. do 2 wp1. destruct (tk_replay s) eqn:Hr; [done|].
  wp1. eapply wp_token_run_end; [exact Hq|]. intros s' Ht He _. wp1. rewrite Ht. by apply HQ.
Qed.
Lemma line_no_newline ls : Forall lexeme_ok ls -> Forall (fun c => c <> 10) (line_of ls).
Proof.
  induction 1 as [|l ls Hl _ IH]; [done|]. cbn [line_of flat_map]. rewrite !Forall_app. split; [split; [|by repeat constructor]|done].
  assert (forall name, is_word name -> Forall (fun c => c <> 10) name) as Hword.
  { intros name (_ & Hn & _). eapply Forall_impl; [exact Hn|]. by intros c [Hc _] ->. }
  destruct l as [t|n|name|t]; cbn [text_of lexeme_ok] in *.
  - destruct t; cbn in *; try done; by repeat constructor.
  - eapply Forall_impl; [apply decimal_digits; lia|]. by intros c Hc ->.
  - by apply Hword, Hl.
  - destruct (key_word t Hl) as (name & -> & Hw & _). by apply Hword.
Qed.
(** The lexer at the start of a line. *)
Lemma init_queue ls e : Forall lexeme_ok ls -> queue ls (finsh_token_init (line_of ls) e).
Proof.
  intros Hok. exists 0%nat, 0%nat. split; [done|]. split; [lia|]. split; [|done]. split; [done|]. split; [done|]. by apply line_no_newline.
Qed.
(** The lexemes up to the end of the line, as the parser can see them. *)
Definition lexeme_of (t : finsh_token_type) (s : finsh_token) : lexeme :=
  match t with
  | finsh_token_type_value_int => LNum (tk_value s)
  | finsh_token_type_identifier => LId (c_str (tk_string s))
  | _ => if bool_decide (key_text t = None) then LOp t else LKey t
  end.
Fixpoint lex (fuel : nat) : M finsh_token (list lexeme) :=
  match fuel with
  | O => diverge
  | S fuel =>
    t ← finsh_token_token;
    if bool_decide (t = finsh_token_type_eof) then mret []
    else l ← gets (lexeme_of t); ls ← lex fuel; mret (l :: ls)
  end.
Lemma lexeme_of_got l ls s : lexeme_ok l -> got l ls s -> lexeme_of (type_of l) s = l.
Proof. intros Hok (_ & [_ Hd] & _). destruct l as [t| | |t]; cbn in *; [by destruct t|by rewrite Hd|by rewrite Hd|by destruct t]. Qed.
Lemma not_eof l : lexeme_ok l -> type_of l <> finsh_token_type_eof.
Proof. destruct l as [t| | |t]; cbn; [|done|done|]; intros Ht ->; by cbn in Ht. Qed.
Lemma wp_lex ls : Forall lexeme_ok ls -> forall s (Q : list lexeme -> finsh_token -> Prop), queue ls s ->
  (forall s', global_errno s' = global_errno s -> Q ls s') -> wp (lex (S (length ls))) Q s.
Proof.
  induction 1 as [|l ls Hl _ IH]; intros s Q Hq HQ; cbn [lex length]; wp1.
  - apply wp_token_eof; [done|]. intros s' He. rewrite bool_decide_true by done. wp1. by apply HQ.
  - eapply wp_token; [exact Hq|]. intros s' Hg He. rewrite bool_decide_false by (by apply not_eof). do 2 wp1.
    wp1. apply IH; [by eapply got_queue|]. intros s2 He2. wp1. rewrite (lexeme_of_got _ _ _ Hl Hg). apply HQ. congruence.
Qed.
(** C30 The lexer gives back the lexemes a line was written from, operators, decimal numbers and names
    with one space behind each, and sets no error. *)
Theorem finsh_lexer_roundtrip ls e : Forall lexeme_ok ls ->
  exists s, lex (S (length ls)) (finsh_token_init (line_of ls) e) = Some (ls, s) /\ global_errno s = e.
Proof.
  intros Hok. assert (wp (lex (S (length ls))) (fun r s => r = ls /\ global_errno s = e) (finsh_token_init (line_of ls) e)) as Hw.
  { apply (wp_lex ls Hok); [by apply init_queue|]. done. }
  apply wp_run in Hw as (r & s & E & -> & He). by exists s.
Qed.
