(* ===== verification/FinshGrammar.v ===== *)
(** What the parser of the shell builds for the text of statements over integer variables:
    the tree the compiler is proved correct for.  There are no parentheses in the text, for
    the parser takes a left parenthesis for the start of a cast. *)
From S2P Require Import Prelude MemOps Kernel FinshVM FinshCompiler FinshInt FinshToken FinshHeap FinshParser FinshLex.

(** ** Text *)
Definition op_token (o : binop) : finsh_token_type :=
  match o with
  | Add => finsh_token_type_add | Sub => finsh_token_type_sub | Div => finsh_token_type_div | Mod => finsh_token_type_mod
  | Mul => finsh_token_type_mul | And => finsh_token_type_and | Or => finsh_token_type_or | Xor => finsh_token_type_xor
  | Shl => finsh_token_type_shl | Shr => finsh_token_type_shr
  end.
Definition step_token (up : bool) : finsh_token_type := if up then finsh_token_type_inc else finsh_token_type_dec.
(** The level of the grammar that makes an expression: 0 the unary ones, 7 the assignment. *)
Definition op_rank (o : binop) : nat :=
  match o with Mul | Div | Mod => 1 | Add | Sub => 2 | Shl | Shr => 3 | And => 4 | Xor => 5 | Or => 6 end.
Definition rank (e : expr) : nat := match e with Bin o _ _ => op_rank o | Assign _ _ => 7 | _ => 0 end.
(** The text of the expression groups as the expression does. *)
Fixpoint plain (e : expr) : Prop :=
  match e with
  | Bin o a b => plain a /\ plain b /\ (rank a <= op_rank o)%nat /\ (rank b < op_rank o)%nat
  | Neg a | Not a => plain a /\ rank a = 0%nat
  | Assign _ a => plain a
  | _ => True
  end.
(** Nodes of an expression, and of a program. *)
Fixpoint nodes_of (e : expr) : Z :=
  match e with
  | Num _ | Var _ => 1
  | Bin _ a b => nodes_of a + nodes_of b + 1
  | Neg a => nodes_of a + 2
  | Not a => nodes_of a + 1
  | Assign _ a => nodes_of a + 2
  | Step _ _ _ => 2
  end.
Fixpoint program_nodes (es : list expr) : Z := match es with [] => 0 | e :: es => nodes_of e + program_nodes es end.
Lemma nodes_pos e : 1 <= nodes_of e.
Proof. induction e; cbn; lia. Qed.

Section finsh_grammar.
Context `{FinshData} `{SymbolTables} (vars : list finsh_var).

(** An identifier is the pointer to its variable. *)
Definition var_name (id : Z) : list Z := fv_name (nth (Z.to_nat ((id - global_variable) / 24)) vars no_var).
Definition declared (id : Z) : Prop :=
  is_name (var_name id) /\ (length (var_name id) < 16)%nat /\ var_at <$> find_var (var_name id) vars = Some id.
Fixpoint toks (e : expr) : list lexeme :=
  match e with
  | Num z => [LNum z]
  | Var id => [LId (var_name id)]
  | Bin o a b => toks a ++ LOp (op_token o) :: toks b
  | Neg a => LOp finsh_token_type_sub :: toks a
  | Not a => LOp finsh_token_type_bitwise :: toks a
  | Assign id a => LId (var_name id) :: LOp finsh_token_type_assign :: toks a
  | Step true up id => [LOp (step_token up); LId (var_name id)]
  | Step false up id => [LId (var_name id); LOp (step_token up)]
  end.
Fixpoint writable (e : expr) : Prop :=
  match e with
  | Num z => 0 <= z < 2 ^ 31
  | Var id | Step _ _ id => declared id
  | Bin _ a b => writable a /\ writable b
  | Neg a | Not a => writable a
  | Assign id a => declared id /\ writable a
  end.
Fixpoint program_toks (es : list expr) : list lexeme :=
  match es with [] => [] | e :: es => toks e ++ LOp finsh_token_type_semicolon :: program_toks es end.
Definition program_text (es : list expr) : list Z := line_of (program_toks es).

(** ** Trees in the table *)
(** The nodes of an expression are allocated one behind the other, the root last. *)
Definition root_of (c : Z) (e : expr) : Z := c + nodes_of e - 1.
Fixpoint enc (nodes : Z -> node) (c : Z) (e : expr) (sib : option Z) : Prop :=
  match e with
  | Num z => nodes c = mk_node FINSH_NODE_VALUE_INT 0 0 z 0 sib None
  | Var id => nodes c = mk_node FINSH_NODE_ID 0 FINSH_IDTYPE_VAR 0 id sib None
  | Bin o a b =>
    enc nodes c a (Some (root_of (c + nodes_of a) b)) /\ enc nodes (c + nodes_of a) b None /\
    nodes (c + nodes_of a + nodes_of b) = mk_node (binop_node o) 0 0 0 0 sib (Some (root_of c a))
  | Neg a =>
    enc nodes c a None /\ nodes (c + nodes_of a) = mk_node FINSH_NODE_VALUE_LONG 0 0 0 0 (Some (root_of c a)) None /\
    nodes (c + nodes_of a + 1) = mk_node FINSH_NODE_SYS_SUB 0 0 0 0 sib (Some (c + nodes_of a))
  | Not a => enc nodes c a None /\ nodes (c + nodes_of a) = mk_node FINSH_NODE_SYS_BITWISE 0 0 0 0 sib (Some (root_of c a))
  | Assign id a =>
    nodes c = mk_node FINSH_NODE_ID 0 FINSH_IDTYPE_VAR 0 id (Some (root_of (c + 1) a)) None /\ enc nodes (c + 1) a None /\
    nodes (c + 1 + nodes_of a) = mk_node FINSH_NODE_SYS_ASSIGN 0 0 0 0 sib (Some c)
  | Step pre up id =>
    nodes c = mk_node FINSH_NODE_ID 0 FINSH_IDTYPE_VAR 0 id None None /\
    nodes (c + 1) = mk_node (step_node pre up) 0 0 0 0 sib (Some c)
  end.
Lemma enc_frame e : forall nodes nodes' c sib, (forall i, c <= i < c + nodes_of e -> nodes' i = nodes i) -> enc nodes c e sib -> enc nodes' c e sib.
Proof.
  induction e as [z|id|o a IHa b IHb|a IHa|a IHa|id a IHa|pre up id]; intros nodes nodes' c sib Hf; cbn [enc nodes_of] in *.
  all: pose proof nodes_pos as Hpos.
  - by rewrite Hf by lia.
  - by rewrite Hf by lia.
  - pose proof (Hpos a). pose proof (Hpos b). intros (Ha & Hb & Hr). split; [|split].
    + eapply IHa; [|exact Ha]. intros i Hi. apply Hf. lia.
    + eapply IHb; [|exact Hb]. intros i Hi. apply Hf. lia.
    + by rewrite Hf by lia.
  - pose proof (Hpos a). intros (Ha & Hz & Hr). split; [|split; by rewrite Hf by lia]. eapply IHa; [|exact Ha]. intros i Hi. apply Hf. lia.
  - pose proof (Hpos a). intros (Ha & Hr). split; [|by rewrite Hf by lia]. eapply IHa; [|exact Ha]. intros i Hi. apply Hf. lia.
  - pose proof (Hpos a). intros (Hv & Ha & Hr). split; [by rewrite Hf by lia|]. split; [|by rewrite Hf by lia]. eapply IHa; [|exact Ha]. intros i Hi. apply Hf. lia.
  - intros [Hv Hr]. by rewrite !Hf by lia.
Qed.
(** The sibling of the root is set later. *)
Lemma enc_sibling e nodes nodes' c sib sib' : (forall i, c <= i < root_of c e -> nodes' i = nodes i) ->
  nodes' (root_of c e) = set_nd_sibling sib' (nodes (root_of c e)) -> enc nodes c e sib -> enc nodes' c e sib'.
Proof.
  unfold root_of. destruct e as [z|id|o a b|a|a|id a|pre up id]; intros Hf Hr; cbn [enc nodes_of] in *.
  all: pose proof nodes_pos as Hpos.
  - replace (c + 1 - 1) with c in Hr by lia. intros E. by rewrite Hr, E.
  - replace (c + 1 - 1) with c in Hr by lia. intros E. by rewrite Hr, E.
  - pose proof (Hpos a). pose proof (Hpos b). replace (c + (nodes_of a + nodes_of b + 1) - 1) with (c + nodes_of a + nodes_of b) in * by lia. intros (Ha & Hb & E).
    split; [|split; [|by rewrite Hr, E]]; eapply enc_frame; [|eassumption| |eassumption]; intros i Hi; apply Hf; lia.
  - pose proof (Hpos a). replace (c + (nodes_of a + 2) - 1) with (c + nodes_of a + 1) in * by lia. intros (Ha & Hz & E).
    split; [|split; [by rewrite Hf by lia|by rewrite Hr, E]]. eapply enc_frame; [|eassumption]; intros i Hi; apply Hf; lia.
  - pose proof (Hpos a). replace (c + (nodes_of a + 1) - 1) with (c + nodes_of a) in * by lia. intros (Ha & E).
    split; [|by rewrite Hr, E]. eapply enc_frame; [|eassumption]; intros i Hi; apply Hf; lia.
  - pose proof (Hpos a). replace (c + (nodes_of a + 2) - 1) with (c + 1 + nodes_of a) in * by lia. intros (Hv & Ha & E).
    split; [by rewrite Hf by lia|split; [|by rewrite Hr, E]]. eapply enc_frame; [|eassumption]; intros i Hi; apply Hf; lia.
  - replace (c + 2 - 1) with (c + 1) in * by lia. intros [Hv E]. split; [by rewrite Hf by lia|by rewrite Hr, E].
Qed.

(** The tree behind a pointer into the table. *)
Lemma tree_at_mono n : forall nodes p t m, tree_at n nodes p = Some t -> (n <= m)%nat -> tree_at m nodes p = Some t.
Proof.
  induction n as [|n IH]; intros nodes p t m E Hm; (destruct p as [i|]; [|by destruct m]); cbn [tree_at] in E; [done|].
  destruct m as [|m]; [lia|]. cbn [tree_at]. destruct (tree_at n nodes (nd_sibling _)) as [s|] eqn:Es; [|done]. cbn [mbind option_bind] in E.
  destruct (tree_at n nodes (nd_child _)) as [ch|] eqn:Ec; [|done]. rewrite (IH _ _ _ m Es), (IH _ _ _ m Ec) by lia. exact E.
Qed.
Lemma tree_at_node n nodes i ty dt it v id sib ch ts tc : nodes i = mk_node ty dt it v id sib ch ->
  tree_at n nodes sib = Some ts -> tree_at n nodes ch = Some tc -> tree_at (S n) nodes (Some i) = Some (Node ty dt it v id ts tc).
Proof. intros E Es Ec. cbn [tree_at]. rewrite E. cbn [nd_sibling nd_child]. by rewrite Es, Ec. Qed.
Lemma enc_tree e : forall nodes c sib n t, enc nodes c e sib -> tree_at n nodes sib = Some t ->
  tree_at (n + Z.to_nat (nodes_of e)) nodes (Some (root_of c e)) = Some (tree_of e t).
Proof.
  pose proof nodes_pos as Hpos. assert (forall k nodes, tree_at k nodes None = Some NULL) as Hnull by (by intros []).
  unfold root_of. induction e as [z|id|o a IHa b IHb|a IHa|a IHa|id a IHa|pre up id]; intros nodes c sib n t He Ht; cbn [enc nodes_of tree_of] in *.
  - replace (c + 1 - 1) with c by lia. rewrite Nat.add_1_r. by eapply tree_at_node.
  - replace (c + 1 - 1) with c by lia. rewrite Nat.add_1_r. by eapply tree_at_node.
  - destruct He as (Ha & Hb & Hr). pose proof (Hpos a). pose proof (Hpos b).
    replace (c + (nodes_of a + nodes_of b + 1) - 1) with (c + nodes_of a + nodes_of b) by lia.
    replace (n + Z.to_nat (nodes_of a + nodes_of b + 1))%nat with (S (n + (Z.to_nat (nodes_of b) + Z.to_nat (nodes_of a)))) by lia.
    eapply tree_at_node; [exact Hr|eapply tree_at_mono; [exact Ht|lia]|]. eapply (tree_at_mono (0 + Z.to_nat (nodes_of b) + Z.to_nat (nodes_of a))); [|lia].
    eapply IHa; [exact Ha|]. eapply (IHb _ (c + nodes_of a)); [exact Hb|done].
  - destruct He as (Ha & Hz & Hr). pose proof (Hpos a). replace (c + (nodes_of a + 2) - 1) with (c + nodes_of a + 1) by lia.
    replace (n + Z.to_nat (nodes_of a + 2))%nat with (S (S (n + Z.to_nat (nodes_of a)))) by lia.
    eapply tree_at_node; [exact Hr|eapply tree_at_mono; [exact Ht|lia]|]. eapply tree_at_node; [exact Hz| |done].
    eapply (tree_at_mono (0 + Z.to_nat (nodes_of a))); [|lia]. by eapply IHa.
  - destruct He as (Ha & Hr). pose proof (Hpos a). replace (c + (nodes_of a + 1) - 1) with (c + nodes_of a) by lia.
    replace (n + Z.to_nat (nodes_of a + 1))%nat with (S (n + Z.to_nat (nodes_of a))) by lia.
    eapply tree_at_node; [exact Hr|eapply tree_at_mono; [exact Ht|lia]|]. eapply (tree_at_mono (0 + Z.to_nat (nodes_of a))); [|lia]. by eapply IHa.
  - destruct He as (Hv & Ha & Hr). pose proof (Hpos a). replace (c + (nodes_of a + 2) - 1) with (c + 1 + nodes_of a) by lia.
    replace (n + Z.to_nat (nodes_of a + 2))%nat with (S (S (n + Z.to_nat (nodes_of a)))) by lia.
    eapply tree_at_node; [exact Hr|eapply tree_at_mono; [exact Ht|lia]|]. eapply tree_at_node; [exact Hv| |done].
    eapply (tree_at_mono (0 + Z.to_nat (nodes_of a))); [|lia]. by eapply IHa.
  - destruct He as [Hv Hr]. replace (c + 2 - 1) with (c + 1) by lia. change (Z.to_nat 2) with 2%nat. replace (n + 2)%nat with (S (S n)) by lia.
    eapply tree_at_node; [exact Hr|eapply tree_at_mono; [exact Ht|lia]|]. by eapply tree_at_node.
Qed.
(** Statements in the table, each the sibling of the one before it. *)
Definition first_root (c : Z) (es : list expr) : option Z := match es with [] => None | e :: _ => Some (root_of c e) end.
Fixpoint encs (nodes : Z -> node) (c : Z) (es : list expr) : Prop :=
  match es with
  | [] => True
  | e :: es => enc nodes c e (first_root (c + nodes_of e) es) /\ encs nodes (c + nodes_of e) es
  end.
Lemma encs_tree es : forall nodes c, encs nodes c es -> tree_at (Z.to_nat (program_nodes es)) nodes (first_root c es) = Some (tree_of_program es).
Proof.
  induction es as [|e es IH]; intros nodes c; [done|]. cbn [encs program_nodes first_root tree_of_program]. intros [He Hes].
  pose proof (nodes_pos e). assert (0 <= program_nodes es) as Hp by (clear; induction es as [|e es IH]; cbn; [lia|pose proof (nodes_pos e); lia]).
  replace (Z.to_nat (nodes_of e + program_nodes es)) with (Z.to_nat (program_nodes es) + Z.to_nat (nodes_of e))%nat by lia.
  eapply enc_tree; [exact He|]. by apply IH.
Qed.
End finsh_grammar.
