(* ===== verification/FinshParse.v ===== *)
(** The parser of the shell on the text of statements over integer variables: it fills the
    table with their nodes and sets no error. *)
From S2P Require Import Prelude MemOps Kernel FinshVM FinshCompiler FinshInt FinshToken FinshHeap FinshParser FinshLex FinshGrammar.

Section finsh_parse.
Context `{FinshData} `{SymbolTables} (vars : list finsh_var).
Implicit Types (s : shell) (l : lexeme) (ls : list lexeme) (c : Z).

(** ** States while parsing *)
(** The first [c] nodes of the table are in use, and the variables are [vars]. *)
Definition table c s : Prop :=
  0 <= c /\ (forall i, 0 <= i < c -> nd_type (sh_nodes s i) <> FINSH_NODE_UNKNOWN) /\ (forall i, c <= i -> sh_nodes s i = zero_node) /\
  fd_vars (sh_data s) = vars.
Definition st ls c s : Prop := queue ls (sh_token s) /\ table c s.
Definition has l ls c s : Prop := got l ls (sh_token s) /\ table c s.
(** The nodes below [c] stay, and what is no business of an expression. *)
Definition keeps c s s' : Prop :=
  (forall i, i < c -> sh_nodes s' i = sh_nodes s i) /\ sh_data s' = sh_data s /\ sh_root s' = sh_root s /\
  global_errno (sh_token s') = global_errno (sh_token s).
Lemma parse_keeps_refl c s : keeps c s s.
Proof. by split. Qed.
Lemma parse_keeps_trans c c' s1 s2 s3 : keeps c s1 s2 -> keeps c' s2 s3 -> c <= c' -> keeps c s1 s3.
Proof.
  intros (N1 & D1 & R1 & E1) (N2 & D2 & R2 & E2) Hc. split; [|split; [|split]; congruence].
  intros i Hi. rewrite N2 by lia. by apply N1.
Qed.
Lemma has_st l ls c s : has l ls c s -> st ls c s.
Proof. intros [Hg Ht]. split; [by eapply got_queue|done]. Qed.
Lemma table_token c t s : table c s -> table c (set_sh_token t s).
Proof. done. Qed.

(** ** Tokens *)
Lemma wp_on_token {A} (m : M finsh_token A) Q s : wp m (fun a t => Q a (set_sh_token t s)) (sh_token s) -> wp (on_token m) Q s.
Proof. unfold wp, on_token. by destruct (m (sh_token s)) as [[a t]|]. Qed.
Lemma wp_next_token l ls c s (Q : finsh_token_type -> shell -> Prop) : st (l :: ls) c s ->
  (forall s', has l ls c s' -> keeps c s s' -> Q (type_of l) s') -> wp next_token Q s.
Proof.
  intros [Hq Ht] HQ. apply wp_on_token. eapply wp_token; [exact Hq|]. intros t Hg He. apply HQ; [by split|by split].
Qed.
Lemma wp_replay l ls c s (Q : unit -> shell -> Prop) : has l ls c s ->
  (forall s', st (l :: ls) c s' -> keeps c s s' -> Q tt s') -> wp replay Q s.
Proof.
  intros [Hg Ht] HQ. apply wp_on_token. unfold finsh_token_replay. wp1. apply HQ; [|by split]. split; [by apply got_replay|done].
Qed.
Lemma wp_match l ls c s (Q : unit -> shell -> Prop) : st (l :: ls) c s ->
  (forall s', has l ls c s' -> keeps c s s' -> Q tt s') -> wp (match_token (type_of l)) Q s.
Proof.
  intros Hs HQ. unfold match_token. wp1. eapply wp_next_token; [exact Hs|]. intros s' Hh Hk. unfold check_token.
  rewrite bool_decide_false by tauto. wp1. by apply HQ.
Qed.

(** ** Nodes *)
Definition fresh_node (n : node) c s (Q : option Z -> shell -> Prop) : Prop :=
  forall s', sh_token s' = sh_token s -> table (c + 1) s' -> sh_nodes s' c = n -> keeps c s s' -> Q (Some c) s'.
Lemma empty_entry_at c s fuel i : table c s -> 0 <= i <= c -> (Z.to_nat (c - i) < fuel)%nat -> empty_entry fuel i (sh_nodes s) = Some c.
Proof.
  intros (_ & Hu & Hf & _). revert i. induction fuel as [|fuel IH]; intros i Hi Hl; [lia|]. cbn [empty_entry].
  destruct (Z.eq_dec i c) as [->|]; [by rewrite Hf, bool_decide_true by (lia || done)|].
  rewrite bool_decide_false by (apply Hu; lia). apply IH; lia.
Qed.
Lemma wp_allocate ty c s (Q : option Z -> shell -> Prop) : table c s -> c < FINSH_NODE_MAX -> ty <> FINSH_NODE_UNKNOWN ->
  fresh_node (mk_node ty 0 0 0 0 None None) c s Q -> wp (finsh_node_allocate ty) Q s.
Proof.
  intros Ht Hc Hty HQ. unfold finsh_node_allocate. do 2 wp1. pose proof Ht as (H0' & Hu & Hf & Hv). rewrite (empty_entry_at c) by (unfold FINSH_NODE_MAX in *; (done || lia)).
  unfold mod_node. do 3 wp1. apply HQ; [done| | |].
  - split; [lia|]. cbn [sh_nodes set_sh_nodes sh_data]. split; [|split; [|done]]; intros i Hi; rewrite upd_case; destruct (decide (c = i)); [by rewrite Hf by lia|apply Hu; lia|lia|apply Hf; lia].
  - cbn [sh_nodes set_sh_nodes]. by rewrite upd_eq, Hf by lia.
  - split; [|by split]. intros i Hi. cbn [sh_nodes set_sh_nodes]. by rewrite upd_ne by lia.
Qed.
(** A new node that is changed at once. *)
Lemma wp_mod_fresh f c s s0 n (Q : option Z -> shell -> Prop) : table (c + 1) s -> 0 <= c -> sh_nodes s c = n -> nd_type (f n) <> FINSH_NODE_UNKNOWN ->
  sh_token s = sh_token s0 -> keeps c s0 s -> fresh_node (f n) c s0 Q -> wp (mod_node (Some c) f ;; mret (Some c)) Q s.
Proof.
  intros (H0' & Hu & Hf & Hv) Hc <- Hty Ht (Hn & Hd & Hr & He) HQ. unfold mod_node. do 3 wp1. apply HQ; [done| | |].
  - split; [lia|]. cbn [sh_nodes set_sh_nodes sh_data]. split; [|split; [|done]]; intros i Hi; rewrite upd_case; destruct (decide (c = i)) as [->|]; [done|apply Hu; lia|lia|apply Hf; lia].
  - cbn [sh_nodes set_sh_nodes]. by rewrite upd_eq.
  - split; [|by split]. intros i Hi. cbn [sh_nodes set_sh_nodes]. rewrite upd_ne by lia. by apply Hn.
Qed.
Lemma wp_new_value ty v c s (Q : option Z -> shell -> Prop) : table c s -> c < FINSH_NODE_MAX -> ty <> FINSH_NODE_UNKNOWN ->
  fresh_node (mk_node ty 0 0 v 0 None None) c s Q -> wp (node_new_value ty v) Q s.
Proof.
  intros Ht Hc Hty HQ. unfold node_new_value. wp1. apply (wp_allocate _ c); [done..|]. intros s' Et Ht' En Hk. cbn match.
  eapply wp_mod_fresh; [exact Ht'|apply Ht|exact En|done|done|done|exact HQ].
Qed.
Lemma wp_new_id id c s (Q : option Z -> shell -> Prop) : declared vars id -> table c s -> c < FINSH_NODE_MAX ->
  fresh_node (mk_node FINSH_NODE_ID 0 FINSH_IDTYPE_VAR 0 id None None) c s Q -> wp (finsh_node_new_id (var_name vars id)) Q s.
Proof.
  intros (_ & _ & Hd) Ht Hc HQ. unfold finsh_node_new_id. wp1.
  assert (finsh_var_lookup (var_name vars id) (sh_data s) = Some (Some id, sh_data s)) as El.
  { unfold finsh_var_lookup, mbind, M_bind, gets. cbn. destruct Ht as (_ & _ & _ & ->). by rewrite Hd. }
  unfold wp at 1, on_data. rewrite El. replace (set_sh_data (sh_data s) s) with s by (by destruct s). do 2 wp1.
  wp1. apply (wp_allocate _ c); [done..|]. intros s' Et Ht' En Hk. cbn match.
  eapply wp_mod_fresh; [exact Ht'|apply Ht|exact En|done|done|done|exact HQ].
Qed.
(** A node over a child [i], whose sibling is set. *)
Lemma wp_make_sys ty i sib c s (Q : option Z -> shell -> Prop) : table c s -> c < FINSH_NODE_MAX -> 0 <= i < c -> ty <> FINSH_NODE_UNKNOWN ->
  (forall s', sh_token s' = sh_token s -> table (c + 1) s' -> sh_nodes s' c = mk_node ty 0 0 0 0 None (Some i) ->
    sh_nodes s' i = set_nd_sibling sib (sh_nodes s i) -> (forall j, j < c -> j <> i -> sh_nodes s' j = sh_nodes s j) -> keeps 0 s s' -> Q (Some c) s') ->
  wp (make_sys_node ty (Some i) sib) Q s.
Proof.
  intros Ht Hc Hi Hty HQ. unfold make_sys_node. wp1. apply (wp_allocate _ c); [done..|]. intros s' Et (H0' & Hu & Hf & Hv) En (Hn & Hd & Hr & He). cbn match.
  unfold mod_node. do 5 wp1. apply HQ; cbn [sh_nodes set_sh_nodes sh_token sh_data].
  - done.
  - split; [lia|]. cbn [sh_nodes set_sh_nodes sh_data]. split; [|split; [|done]]; intros j Hj; rewrite !upd_case;
      destruct (decide (i = j)) as [->|]; destruct (decide (c = j)) as [->|]; try lia; try (by rewrite En); [apply Hu; lia|apply Hu; lia|apply Hf; lia].
  - by rewrite upd_ne, upd_eq, En by lia.
  - rewrite upd_eq, upd_ne by lia. by rewrite Hn by lia.
  - intros j Hj Hne. rewrite !upd_ne by lia. by apply Hn.
  - split; [|by split]. intros j Hj. cbn [sh_nodes set_sh_nodes]. rewrite !upd_ne by lia. apply Hn. lia.
Qed.

(** ** Expressions *)
(** [m] parses the text of [e] in front of [l]. *)
Definition parsed e c s s' : Prop := enc (sh_nodes s') c e None /\ keeps c s s'.
Definition parses (m : M shell (option Z)) (e : expr) l : Prop := forall s ls c (Q : option Z -> shell -> Prop),
  st (toks vars e ++ l :: ls) c s -> c + nodes_of e <= FINSH_NODE_MAX ->
  (forall s', st (l :: ls) (c + nodes_of e) s' -> parsed e c s s' -> Q (Some (root_of c e)) s') -> wp m Q s.
(** The binary operators by level, and the levels above the unary expressions. *)
Definition ops (j : nat) : finsh_token_type -> option node_type :=
  match j with 1%nat => mul_op | 2%nat => add_op | 3%nat => shift_op | 4%nat => and_op | 5%nat => xor_op | _ => or_op end.
Fixpoint level (f j : nat) : M shell (option Z) :=
  match j with O => proc_cast_expr f | S j' => binary_level f (ops j) (level f j') end.
Lemma level_or f : proc_inclusive_or_expr f (proc_cast_expr f) = level f 6.
Proof. done. Qed.
(** The text of an expression up to level [j] ends in front of [l]. *)
Definition stops (j : nat) l : Prop :=
  type_of l ∉ [finsh_token_type_inc; finsh_token_type_dec; finsh_token_type_left_paren] /\
  forall i, (1 <= i <= j)%nat -> ops i (type_of l) = None.
Lemma stops_le j i l : stops j l -> (i <= j)%nat -> stops i l.
Proof. intros [Hp Hs] Hi. split; [done|]. intros k Hk. apply Hs. lia. Qed.
Lemma op_stops o j : (j < op_rank o)%nat -> stops j (LOp (op_token o)).
Proof.
  intros Hj. split; [by destruct o; cbn; rewrite !not_elem_of_cons; repeat split; try apply not_elem_of_nil|].
  intros i Hi. assert (i < op_rank o)%nat as Hi' by lia. destruct i as [|[|[|[|[|[|i]]]]]]; destruct o; cbn in *; try done; lia.
Qed.
Lemma ops_node o : ops (op_rank o) (op_token o) = Some (binop_node o).
Proof. by destruct o. Qed.
Lemma semicolon_stops : stops 6 (LOp finsh_token_type_semicolon).
Proof.
  split; [rewrite !not_elem_of_cons; repeat split; try done; apply not_elem_of_nil|].
  intros i Hi. destruct i as [|[|[|[|[|[|i]]]]]]; done.
Qed.
Lemma assign_stops : stops 6 (LOp finsh_token_type_assign).
Proof.
  split; [rewrite !not_elem_of_cons; repeat split; try done; apply not_elem_of_nil|].
  intros i Hi. destruct i as [|[|[|[|[|[|i]]]]]]; done.
Qed.

(** *** Binary operators *)
(** Behind the operand the loop of the level goes on with the rounds that are left. *)
Definition continues (f j : nat) (e : expr) : Prop := forall l s ls c m n (Q : option Z -> shell -> Prop),
  stops j l -> st (toks vars e ++ l :: ls) c s -> c + nodes_of e <= FINSH_NODE_MAX -> (length (toks vars e) + m <= n)%nat ->
  (forall m' s', (m <= m')%nat -> st (l :: ls) (c + nodes_of e) s' -> parsed e c s s' ->
    wp (binary_loop m' (ops (S j)) (level f j) (Some (root_of c e))) Q s') ->
  wp (left ← level f j; binary_loop n (ops (S j)) (level f j) left) Q s.
Lemma parses_continues f j e : (forall l, stops j l -> parses (level f j) e l) -> continues f j e.
Proof.
  intros Hp l s ls c m n Q Hl Hs Hc Hn HQ. wp1. eapply (Hp l Hl); [exact Hs|done|]. intros s' Hs' Hp'. apply HQ; [lia|done|done].
Qed.
Lemma continues_parses f j e l : continues f j e -> (length (toks vars e) < f)%nat -> stops (S j) l -> parses (level f (S j)) e l.
Proof.
  intros Hk Hf Hl s ls c Q Hs Hc HQ. cbn [level]. unfold binary_level.
  eapply (Hk l) with (m := 1%nat); [by eapply stops_le; [exact Hl|lia]|exact Hs|done|lia|]. intros m' s' Hm Hs' [He Hkp].
  destruct m' as [|m']; [lia|]. cbn [binary_loop]. wp1. eapply wp_next_token; [exact Hs'|]. intros s2 Hh Hk2.
  destruct Hl as [_ Hl]. rewrite Hl by lia. wp1. eapply wp_replay; [exact Hh|]. intros s3 Hs3 Hk3. wp1.
  assert (keeps (c + nodes_of e) s' s3) as Hk' by (eapply parse_keeps_trans; [exact Hk2|exact Hk3|lia]).
  apply HQ; [done|]. split; [|eapply parse_keeps_trans; [exact Hkp|exact Hk'|pose proof (nodes_pos e); lia]].
  eapply enc_frame; [|exact He]. intros i Hi. apply Hk'. lia.
Qed.
Lemma bin_node_known o : binop_node o <> FINSH_NODE_UNKNOWN.
Proof. by destruct o. Qed.
(** [make_sys_node] over the trees of [a] and [b]. *)
Lemma wp_make_bin o a b c s ls l s0 (Q : option Z -> shell -> Prop) :
  st (l :: ls) (c + nodes_of a + nodes_of b) s -> 0 <= c -> c + nodes_of a + nodes_of b < FINSH_NODE_MAX ->
  enc (sh_nodes s) c a None -> enc (sh_nodes s) (c + nodes_of a) b None -> keeps c s0 s ->
  (forall s', st (l :: ls) (c + nodes_of (Bin o a b)) s' -> parsed (Bin o a b) c s0 s' -> Q (Some (root_of c (Bin o a b))) s') ->
  wp (make_sys_node (binop_node o) (Some (root_of c a)) (Some (root_of (c + nodes_of a) b))) Q s.
Proof.
  intros [Hq Ht] H0' Hc Ha Hb Hk HQ. pose proof (nodes_pos a). pose proof (nodes_pos b). unfold root_of in *. cbn [nodes_of] in HQ.
  replace (c + (nodes_of a + nodes_of b + 1) - 1) with (c + nodes_of a + nodes_of b) in HQ by lia.
  eapply wp_make_sys; [exact Ht|done|lia|apply bin_node_known|]. intros s' Et Ht' En Ei Ho Hk'. apply HQ.
  - split; [by rewrite Et|]. by replace (c + (nodes_of a + nodes_of b + 1)) with (c + nodes_of a + nodes_of b + 1) by lia.
  - split.
    + cbn [enc]. unfold root_of. split; [|split; [|by rewrite En]].
      * eapply enc_sibling; [|exact Ei|exact Ha]. unfold root_of. intros i Hi. apply Ho; lia.
      * eapply enc_frame; [|exact Hb]. intros i Hi. apply Ho; lia.
    + split; [|destruct Hk as (_ & Hd & Hr & He), Hk' as (_ & Hd' & Hr' & He'); split; [|split]; congruence].
      intros i Hi. rewrite Ho by lia. by apply Hk.
Qed.
Lemma continues_bin f j o a b : op_rank o = S j -> continues f j a -> (forall l, stops j l -> parses (level f j) b l) -> continues f j (Bin o a b).
Proof.
  intros Hj Ha Hb l s ls c m n Q Hl Hs Hc Hn HQ. cbn [toks nodes_of] in *. rewrite length_app in Hn. cbn [length] in Hn. pose proof (nodes_pos a). pose proof (nodes_pos b).
  assert (0 <= c) as Hc0 by apply Hs. rewrite <- app_assoc in Hs. cbn [app] in Hs.
  eapply (Ha (LOp (op_token o))) with (m := S (length (toks vars b) + m)); [apply op_stops; lia|exact Hs|lia|lia|].
  intros m' s1 Hm Hs1 [He1 Hk1]. destruct m' as [|m']; [lia|]. cbn [binary_loop]. wp1. eapply wp_next_token; [exact Hs1|]. intros s2 Hh2 Hk2.
  cbn [type_of]. rewrite <- Hj, ops_node. wp1. eapply (Hb l Hl); [exact (has_st _ _ _ _ Hh2)|lia|]. intros s3 Hs3 [He3 Hk3]. wp1.
  assert (keeps (c + nodes_of a) s1 s3) as Hk13 by (eapply parse_keeps_trans; [exact Hk2|exact Hk3|lia]).
  eapply wp_make_bin with (s0 := s); [exact Hs3|done|lia| |exact He3| |].
  - eapply enc_frame; [|exact He1]. intros i Hi. apply Hk13. lia.
  - eapply parse_keeps_trans; [exact Hk1|exact Hk13|lia].
  - intros s4 Hs4 Hp4. rewrite Hj. apply HQ; [lia|done|done].
Qed.

(** *** Unary expressions *)
(** A look at the next token. *)
Lemma wp_peek l ls c s (f : finsh_token_type -> M shell (option Z)) (k : M shell (option Z)) (Q : option Z -> shell -> Prop) : st (l :: ls) c s ->
  f (type_of l) = (replay ;; k) -> (forall s', st (l :: ls) c s' -> keeps c s s' -> wp k Q s') -> wp (token ← next_token; f token) Q s.
Proof.
  intros Hs Hf HQ. wp1. eapply wp_next_token; [exact Hs|]. intros s1 Hh Hk. rewrite Hf. wp1. eapply wp_replay; [exact Hh|]. intros s2 Hs2 Hk2.
  apply HQ; [done|]. eapply parse_keeps_trans; [exact Hk|exact Hk2|lia].
Qed.
Lemma postfix_stop f n l ls c s p assign (Q : option Z -> shell -> Prop) : stops 0 l -> (0 < n)%nat -> st (l :: ls) c s ->
  (forall s', st (l :: ls) c s' -> keeps c s s' -> Q p s') -> wp (postfix_loop f assign n p) Q s.
Proof.
  intros [Hl _] Hf Hs HQ. destruct n as [|n]; [lia|]. cbn [postfix_loop]. eapply wp_peek; [exact Hs| |].
  - rewrite !not_elem_of_cons in Hl. destruct (type_of l); try done; tauto.
  - intros s' Hs' Hk. wp1. by apply HQ.
Qed.
(** A number or a name, up to the loop over the postfix operators. *)
Definition leaf (e : expr) : Prop := match e with Num _ | Var _ => True | _ => False end.
Lemma leaf_toks e : leaf e -> exists l, toks vars e = [l] /\ (type_of l = finsh_token_type_value_int \/ type_of l = finsh_token_type_identifier).
Proof. destruct e; try done; eexists; split; [reflexivity|by left|reflexivity|by right]. Qed.
Lemma wp_primary e l ls c s assign (Q : option Z -> shell -> Prop) : leaf e -> writable vars e -> toks vars e = [l] -> st (l :: ls) c s ->
  c < FINSH_NODE_MAX -> (forall s', st ls (c + 1) s' -> parsed e c s s' -> Q (Some c) s') -> wp (proc_primary_expr assign) Q s.
Proof.
  intros Hleaf Hw [= El] Hs Hc HQ. unfold proc_primary_expr. wp1. eapply wp_next_token; [exact Hs|]. intros s1 Hh1 Hk1.
  assert (forall n s2, sh_token s2 = sh_token s1 -> enc (fun _ => n) c e None -> table (c + 1) s2 -> sh_nodes s2 c = n -> keeps c s1 s2 -> Q (Some c) s2) as HQ'.
  { intros n s2 Et En Ht Ec Hk. apply HQ; [split; [rewrite Et; by eapply got_queue, Hh1|done]|]. split; [|eapply parse_keeps_trans; [exact Hk1|exact Hk|lia]].
    destruct e; try done; cbn [enc] in *; congruence. }
  destruct e as [z|id| | | | |]; try done; cbn [toks] in El; injection El as <-; cbn [type_of].
  - unfold token_value. do 2 wp1. destruct Hh1 as [(_ & [_ Hv] & _) Ht]. rewrite Hv. eapply wp_new_value; [exact Ht|done|done|]. intros s2 Et Ht2 En Hk. by eapply HQ'.
  - wp1. eapply wp_replay; [exact Hh1|]. intros s2 Hs2 Hk2. unfold proc_identifier. do 2 wp1. apply (wp_match (LId (var_name vars id)) ls c); [exact Hs2|]. intros s3 Hh3 Hk3.
    unfold token_string. do 3 wp1. destruct Hh3 as [Hg3 Ht3]. pose proof Hg3 as (_ & [_ Hn] & _). rewrite Hn.
    rewrite take_ge by (destruct Hw as (_ & Hlen & _); change (Z.to_nat FINSH_NAME_MAX) with 16%nat; lia). eapply wp_new_id; [exact Hw|exact Ht3|done|]. intros s4 Et Ht4 En Hk4.
    assert (keeps c s s4) as Hk by (eapply parse_keeps_trans; [exact Hk1|eapply parse_keeps_trans; [exact Hk2|eapply parse_keeps_trans; [exact Hk3|exact Hk4|lia]|lia]|lia]).
    apply HQ; [split; [rewrite Et; by eapply got_queue|done]|]. by split.
Qed.
Lemma wp_leaf f e ls c s (Q : option Z -> shell -> Prop) : leaf e -> writable vars e -> st (toks vars e ++ ls) c s -> c < FINSH_NODE_MAX ->
  (forall s', st ls (c + 1) s' -> parsed e c s s' -> wp (postfix_loop f (proc_assign_expr f) f (Some c)) Q s') -> wp (proc_cast_expr (S f)) Q s.
Proof.
  intros Hleaf Hw Hs Hc HQ. destruct (leaf_toks e Hleaf) as (l & El & Hl). rewrite El in Hs. cbn [app] in Hs. change (proc_cast_expr (S f)) with (cast_body f (proc_assign_expr f) (proc_cast_expr f)). unfold cast_body.
  eapply wp_peek; [exact Hs|by destruct Hl as [-> | ->]|]. intros s1 Hs1 Hk1. unfold proc_unary_expr. eapply wp_peek; [exact Hs1|by destruct Hl as [-> | ->]|].
  intros s2 Hs2 Hk2. unfold proc_postfix_expr. wp1. eapply wp_primary; [done|done|exact El|exact Hs2|done|]. intros s3 Hs3 [He Hk3].
  apply HQ; [done|]. split; [done|]. eapply parse_keeps_trans; [exact Hk1|eapply parse_keeps_trans; [exact Hk2|exact Hk3|lia]|lia].
Qed.
Lemma parses_leaf f e l : leaf e -> writable vars e -> (1 < f)%nat -> stops 0 l -> parses (proc_cast_expr f) e l.
Proof.
  intros Hleaf Hw Hf Hl s ls c Q Hs Hc HQ. destruct f as [|f]; [lia|]. assert (nodes_of e = 1) as En by (by destruct e). unfold root_of in HQ. rewrite En in *.
  replace (c + 1 - 1) with c in HQ by lia. eapply wp_leaf; [done|done|exact Hs|lia|]. intros s1 Hs1 [He Hk]. eapply postfix_stop; [done|lia|exact Hs1|].
  intros s2 Hs2 Hk2. apply HQ; [done|]. split; [|eapply parse_keeps_trans; [exact Hk|exact Hk2|lia]]. eapply enc_frame; [|exact He]. intros i Hi. apply Hk2. lia.
Qed.
(** A node over one operand. *)
Lemma wp_make_one ty a c s ls l s0 (Q : option Z -> shell -> Prop) :
  st (l :: ls) (c + nodes_of a) s -> 0 <= c -> c + nodes_of a < FINSH_NODE_MAX -> ty <> FINSH_NODE_UNKNOWN -> parsed a c s0 s ->
  (forall s', st (l :: ls) (c + nodes_of a + 1) s' -> parsed a c s0 s' -> sh_nodes s' (c + nodes_of a) = mk_node ty 0 0 0 0 None (Some (root_of c a)) ->
    Q (Some (c + nodes_of a)) s') -> wp (make_sys_node ty (Some (root_of c a)) None) Q s.
Proof.
  intros [Hq Ht] H0' Hc Hty [Ha Hk] HQ. pose proof (nodes_pos a). eapply wp_make_sys; [exact Ht|done|unfold root_of; lia|done|].
  intros s' Et Ht' En Ei Ho Hk'. apply HQ; [split; [by rewrite Et|done]| |done]. split.
  - eapply enc_sibling; [|exact Ei|exact Ha]. unfold root_of in *. intros i Hi. apply Ho; lia.
  - split; [|destruct Hk as (_ & Hd & Hr & He), Hk' as (_ & Hd' & Hr' & He'); split; [|split]; congruence].
    intros i Hi. unfold root_of in *. rewrite Ho by lia. by apply Hk.
Qed.
(** A unary operator, up to its operand. *)
Lemma wp_unary f t ls c s m (Q : option Z -> shell -> Prop) : st (LOp t :: ls) c s -> t <> finsh_token_type_left_paren ->
  proc_unary_expr f (proc_assign_expr f) (proc_cast_expr f) = (token ← next_token; m token) ->
  (forall s', st ls c s' -> keeps c s s' -> wp (m t) Q s') -> wp (proc_cast_expr (S f)) Q s.
Proof.
  intros Hs Hne Hm HQ. change (proc_cast_expr (S f)) with (cast_body f (proc_assign_expr f) (proc_cast_expr f)). unfold cast_body. eapply wp_peek; [exact Hs|by rewrite bool_decide_false|]. intros s1 Hs1 Hk1.
  rewrite Hm. wp1. eapply wp_next_token; [exact Hs1|]. intros s2 Hh2 Hk2. apply HQ; [by eapply has_st|]. eapply parse_keeps_trans; [exact Hk1|exact Hk2|lia].
Qed.
Lemma step_known pre up : step_node pre up <> FINSH_NODE_UNKNOWN.
Proof. by destruct pre, up. Qed.
Lemma parsed_over a c s0 s1 s2 : parsed a c s1 s2 -> keeps c s0 s1 -> parsed a c s0 s2.
Proof. intros [He Hk] Hk0. split; [done|]. eapply parse_keeps_trans; [exact Hk0|exact Hk|lia]. Qed.
Lemma parses_postfix f up id l : declared vars id -> (2 < f)%nat -> stops 0 l -> parses (proc_cast_expr f) (Step false up id) l.
Proof.
  intros Hid Hf Hl s ls c Q Hs Hc HQ. cbn [toks nodes_of] in *. assert (0 <= c) as Hc0 by apply Hs. destruct f as [|[|[|f]]]; [lia..|].
  eapply (wp_leaf _ (Var id) (LOp (step_token up) :: l :: ls)); [done|done|exact Hs|lia|]. intros s1 Hs1 Hp1. cbn [postfix_loop]. wp1.
  eapply wp_next_token; [exact Hs1|]. intros s2 Hh2 Hk2. apply has_st in Hh2.
  assert (parsed (Var id) c s s2) as Hp2.
  { destruct Hp1 as [He1 Hk1]. split; [|eapply parse_keeps_trans; [exact Hk1|exact Hk2|lia]]. eapply enc_frame; [|exact He1]. cbn [nodes_of]. intros i Hi. apply Hk2. lia. }
  assert (wp (postfix ← make_sys_node (step_node false up) (Some c) None; postfix_loop (S (S f)) (proc_assign_expr (S (S f))) (S f) postfix) Q s2) as Hw; [|by destruct up].
  wp1. replace (Some c) with (Some (root_of c (Var id))) by (unfold root_of; cbn [nodes_of]; f_equal; lia).
  eapply wp_make_one; [exact Hh2|done|cbn [nodes_of]; lia|apply step_known|exact Hp2|]. cbn [nodes_of]. intros s3 Hs3 [He3 Hk3] En.
  eapply postfix_stop; [exact Hl|lia|exact Hs3|]. intros s4 Hs4 Hk4. unfold root_of in *. cbn [nodes_of] in *.
  replace (c + 2 - 1) with (c + 1) in HQ by lia. replace (c + 2) with (c + 1 + 1) in HQ by lia. replace (c + 1 - 1) with c in En by lia.
  apply HQ; [done|]. split; [|eapply parse_keeps_trans; [exact Hk3|exact Hk4|lia]]. cbn [enc] in *. rewrite !(proj1 Hk4) by lia. by split.
Qed.
Lemma parses_prefix f up id l : declared vars id -> (2 < f)%nat -> stops 0 l -> parses (proc_cast_expr f) (Step true up id) l.
Proof.
  intros Hid Hf Hl s ls c Q Hs Hc HQ. cbn [toks nodes_of] in *. assert (0 <= c) as Hc0 by apply Hs. destruct f as [|f]; [lia|].
  eapply (wp_unary f (step_token up)); [exact Hs|by destruct up|reflexivity|]. intros s1 Hs1 Hk1.
  assert (wp (cast ← proc_cast_expr f; make_sys_node (step_node true up) cast None) Q s1) as Hw; [|by destruct up].
  wp1. eapply (parses_leaf f (Var id)); [done|done|lia|exact Hl|exact Hs1|cbn [nodes_of]; lia|]. cbn [nodes_of]. intros s2 Hs2 Hp2.
  eapply wp_make_one; [exact Hs2|done|cbn [nodes_of]; lia|apply step_known|by eapply parsed_over|]. cbn [nodes_of]. intros s3 Hs3 [He3 Hk3] En.
  unfold root_of in *. cbn [nodes_of] in *. replace (c + 2 - 1) with (c + 1) in HQ by lia. replace (c + 2) with (c + 1 + 1) in HQ by lia. replace (c + 1 - 1) with c in En by lia.
  apply HQ; [done|]. split; [|done]. by split.
Qed.
Lemma parses_not f a l : (forall l, stops 0 l -> parses (proc_cast_expr f) a l) -> stops 0 l -> parses (proc_cast_expr (S f)) (Not a) l.
Proof.
  intros Ha Hl s ls c Q Hs Hc HQ. cbn [toks nodes_of] in *. assert (0 <= c) as Hc0 by apply Hs.
  eapply (wp_unary f finsh_token_type_bitwise); [exact Hs|done|reflexivity|]. intros s1 Hs1 Hk1. cbn beta iota.
  wp1. eapply (Ha l Hl); [exact Hs1|lia|]. intros s2 Hs2 Hp2. eapply wp_make_one; [exact Hs2|done|lia|done|by eapply parsed_over|].
  intros s3 Hs3 [He3 Hk3] En. unfold root_of in HQ. cbn [nodes_of] in HQ. replace (c + (nodes_of a + 1) - 1) with (c + nodes_of a) in HQ by lia.
  replace (c + (nodes_of a + 1)) with (c + nodes_of a + 1) in HQ by lia. apply HQ; [done|]. split; [|done]. by split.
Qed.
Lemma parses_neg f a l : (forall l, stops 0 l -> parses (proc_cast_expr f) a l) -> stops 0 l -> parses (proc_cast_expr (S f)) (Neg a) l.
Proof.
  intros Ha Hl s ls c Q Hs Hc HQ. cbn [toks nodes_of] in *. assert (0 <= c) as Hc0 by apply Hs. pose proof (nodes_pos a).
  eapply (wp_unary f finsh_token_type_sub); [exact Hs|done|reflexivity|]. intros s1 Hs1 Hk1. cbn beta iota.
  wp1. eapply (Ha l Hl); [exact Hs1|lia|]. intros s2 [Hq2 Ht2] [He2 Hk2]. wp1.
  eapply wp_new_value; [exact Ht2|lia|done|]. intros s3 Et3 Ht3 En3 Hk3.
  eapply wp_make_sys; [exact Ht3|lia|lia|done|]. intros s4 Et4 Ht4 En4 Ei4 Ho4 Hk4.
  unfold root_of in HQ. cbn [nodes_of] in HQ. replace (c + (nodes_of a + 2) - 1) with (c + nodes_of a + 1) in HQ by lia.
  replace (c + (nodes_of a + 2)) with (c + nodes_of a + 1 + 1) in HQ by lia. apply HQ.
  - split; [by rewrite Et4, Et3|done].
  - assert (keeps c s s3) as Hk by (eapply parse_keeps_trans; [exact Hk1|eapply parse_keeps_trans; [exact Hk2|exact Hk3|lia]|lia]). split.
    + cbn [enc]. rewrite En4, Ei4, En3. split; [|done]. eapply enc_frame; [|exact He2]. intros i Hi. rewrite Ho4 by lia. by apply Hk3; lia.
    + split; [|destruct Hk as (_ & Hd & Hr & He), Hk4 as (_ & Hd' & Hr' & He'); split; [|split]; congruence].
      intros i Hi. rewrite Ho4 by lia. by apply Hk.
Qed.

(** *** All levels *)
Definition parses_levels (e : expr) : Prop := forall f j l, (length (toks vars e) < f)%nat -> (rank e <= j <= 6)%nat -> stops j l -> parses (level f j) e l.
(** An expression of level 0 is parsed at level 0, and one of a higher level by the loop of that
    level; then every level above parses it. *)
Lemma levels_up e : (forall f l, rank e = 0%nat -> (length (toks vars e) < f)%nat -> stops 0 l -> parses (proc_cast_expr f) e l) ->
  (forall f j, rank e = S j -> (length (toks vars e) < f)%nat -> continues f j e) -> parses_levels e.
Proof.
  intros Hbase Htop f j l Hf [Hr Hj]. revert l. induction j as [|j IH]; intros l Hl; [apply Hbase; [lia|done|done]|].
  apply continues_parses; [|done|done]. destruct (decide (rank e = S j)) as [E|E]; [by apply Htop|].
  apply parses_continues. apply IH; lia.
Qed.
Lemma toks_pos e : (1 <= length (toks vars e))%nat.
Proof. destruct e as [| |o a b|a|a|id a|[] ]; cbn; try rewrite length_app; cbn; lia. Qed.
(** The whole of an expression, in front of its semicolon. *)
Definition parses_assign (e : expr) : Prop := forall f, (S (length (toks vars e)) < f)%nat -> parses (proc_assign_expr f) e (LOp finsh_token_type_semicolon).
Lemma assign_levels e : (rank e <= 6)%nat -> parses_levels e -> parses_assign e.
Proof.
  intros Hr Hp f Hf s ls c Q Hs Hc HQ. destruct f as [|f]; [lia|].
  change (proc_assign_expr (S f)) with (or ← level f 6; token ← next_token; if bool_decide (token = finsh_token_type_assign) then
    assign ← proc_assign_expr f; make_sys_node FINSH_NODE_SYS_ASSIGN or assign else replay ;; mret or).
  wp1. eapply Hp; [lia|lia|apply semicolon_stops|exact Hs|done|]. intros s1 Hs1 [He1 Hk1]. eapply wp_peek; [exact Hs1|reflexivity|].
  intros s2 Hs2 Hk2. wp1. apply HQ; [done|]. split; [|eapply parse_keeps_trans; [exact Hk1|exact Hk2|pose proof (nodes_pos e); lia]].
  eapply enc_frame; [|exact He1]. intros i Hi. apply Hk2. lia.
Qed.
Lemma assign_assign id a : declared vars id -> parses_assign a -> parses_assign (Assign id a).
Proof.
  intros Hid Ha f Hf s ls c Q Hs Hc HQ. cbn [toks nodes_of length] in *. destruct f as [|f]; [lia|]. pose proof (nodes_pos a). assert (0 <= c) as Hc0 by apply Hs.
  change (proc_assign_expr (S f)) with (or ← level f 6; token ← next_token; if bool_decide (token = finsh_token_type_assign) then
    assign ← proc_assign_expr f; make_sys_node FINSH_NODE_SYS_ASSIGN or assign else replay ;; mret or).
  assert (parses_levels (Var id)) as Hv by (apply levels_up; [intros f' l _ Hf' Hl; by apply parses_leaf|done]).
  wp1. eapply (Hv f 6%nat (LOp finsh_token_type_assign)); [cbn; lia|cbn; lia|apply assign_stops|exact Hs|cbn; lia|].
  unfold root_of. cbn [nodes_of]. intros s1 Hs1 [He1 Hk1]. wp1. eapply wp_next_token; [exact Hs1|]. intros s2 Hh2 Hk2. cbn [type_of].
  rewrite bool_decide_true by done. wp1. eapply Ha; [lia|exact (has_st _ _ _ _ Hh2)|lia|]. intros s3 [Hq3 Ht3] [He3 Hk3].
  replace (c + 1 - 1) with c by lia. eapply wp_make_sys; [exact Ht3|lia|lia|done|]. intros s4 Et4 Ht4 En4 Ei4 Ho4 Hk4.
  unfold root_of in HQ. cbn [nodes_of] in HQ. replace (c + (nodes_of a + 2) - 1) with (c + 1 + nodes_of a) in HQ by lia.
  replace (c + (nodes_of a + 2)) with (c + 1 + nodes_of a + 1) in HQ by lia.
  assert (keeps (c + 1) s1 s3) as Hk13 by (eapply parse_keeps_trans; [exact Hk2|exact Hk3|lia]).
  assert (keeps c s s3) as Hk by (eapply parse_keeps_trans; [exact Hk1|exact Hk13|lia]). apply HQ; [split; [by rewrite Et4|done]|]. split.
  - cbn [enc] in *. rewrite En4, Ei4, (proj1 Hk13), He1 by lia. split; [done|]. split; [|done].
    eapply enc_frame; [|exact He3]. intros i Hi. apply Ho4; lia.
  - split; [|destruct Hk as (_ & Hd & Hr & He), Hk4 as (_ & Hd' & Hr' & He'); split; [|split]; congruence].
    intros i Hi. rewrite Ho4 by lia. by apply Hk.
Qed.
Lemma op_rank_le o : (op_rank o <= 6)%nat.
Proof. destruct o; cbn; lia. Qed.
Definition loops (e : expr) : Prop := forall f j, rank e = S j -> (length (toks vars e) < f)%nat -> continues f j e.
Lemma level_0 e : rank e = 0%nat -> (forall f l, (length (toks vars e) < f)%nat -> stops 0 l -> parses (proc_cast_expr f) e l) -> parses_levels e /\ loops e.
Proof. intros Hr Hp. split; [|intros f j E; congruence]. apply levels_up; [by intros f l _; apply Hp|intros f j E; congruence]. Qed.
Lemma parse_levels e : plain e -> writable vars e -> (rank e <= 6)%nat -> parses_levels e /\ loops e.
Proof.
  induction e as [z|id|o a IHa b IHb|a IHa|a IHa|id a IHa|pre up id]; intros Hp Hw Hr; cbn [plain writable] in *.
  - apply level_0; [done|]. intros f l Hf Hl. by apply parses_leaf.
  - apply level_0; [done|]. intros f l Hf Hl. by apply parses_leaf.
  - destruct Hp as (Hpa & Hpb & Hra & Hrb), Hw as [Hwa Hwb]. cbn [rank] in Hr. destruct (IHa Hpa Hwa ltac:(lia)) as [La Ka], (IHb Hpb Hwb ltac:(lia)) as [Lb _].
    assert (loops (Bin o a b)) as HK.
    { intros f j E Hf. cbn [toks rank] in *. rewrite length_app in Hf. cbn [length] in Hf. apply continues_bin; [done| |intros l Hl; apply Lb; [lia|lia|done]].
      destruct (decide (rank a = S j)) as [Ea|Ea]; [apply Ka; [done|lia]|]. apply parses_continues. intros l Hl. apply La; [lia|lia|done]. }
    split; [|done]. apply levels_up; [|done]. intros f l E. by destruct o.
  - destruct Hp as [Hpa Hra]. destruct (IHa Hpa Hw ltac:(lia)) as [La _]. apply level_0; [done|]. cbn [toks length]. intros f l Hf Hl. destruct f as [|f]; [lia|].
    apply parses_neg; [|done]. intros l' Hl'. apply (La f 0%nat); [lia|lia|done].
  - destruct Hp as [Hpa Hra]. destruct (IHa Hpa Hw ltac:(lia)) as [La _]. apply level_0; [done|]. cbn [toks length]. intros f l Hf Hl. destruct f as [|f]; [lia|].
    apply parses_not; [|done]. intros l' Hl'. apply (La f 0%nat); [lia|lia|done].
  - cbn in Hr. lia.
  - apply level_0; [done|]. intros f l Hf Hl. destruct pre; cbn [toks length] in Hf; [by apply parses_prefix|by apply parses_postfix].
Qed.
Lemma rank_low e : (rank e <= 6)%nat \/ exists id a, e = Assign id a.
Proof. destruct e; [left; cbn; lia|left; cbn; lia|left; apply op_rank_le|left; cbn; lia|left; cbn; lia|by right; eexists _, _|left; cbn; lia]. Qed.
Lemma parse_expr e : plain e -> writable vars e -> parses_assign e.
Proof.
  induction e as [z|id|o a IHa b IHb|a IHa|a IHa|id a IHa|pre up id]; intros Hp Hw.
  6: { destruct Hw. apply assign_assign; [done|]. by apply IHa. }
  all: match goal with |- parses_assign ?e => destruct (rank_low e) as [Hr|(? & ? & [=])] end; by apply assign_levels, parse_levels.
Qed.

(** ** Statements *)
Definition starts (t : finsh_token_type) : Prop :=
  t ∈ [finsh_token_type_value_int; finsh_token_type_identifier; finsh_token_type_sub; finsh_token_type_bitwise; finsh_token_type_inc; finsh_token_type_dec].
Lemma toks_start e : exists l ls, toks vars e = l :: ls /\ starts (type_of l).
Proof.
  unfold starts. induction e as [z|id|o a (l & ls & E & Hl) b _|a _|a _|id a _|[] up id]; cbn [toks].
  3: by rewrite E; eexists _, _.
  all: eexists _, _; split; [reflexivity|]; cbn; try destruct up; set_solver.
Qed.
Lemma wp_statement f e ls c s (Q : option Z -> shell -> Prop) : plain e -> writable vars e -> (S (length (toks vars e)) < f)%nat ->
  st (toks vars e ++ LOp finsh_token_type_semicolon :: ls) c s -> c + nodes_of e <= FINSH_NODE_MAX ->
  (forall s', st ls (c + nodes_of e) s' -> parsed e c s s' -> Q (Some (root_of c e)) s') -> wp (proc_expr_statement f) Q s.
Proof.
  intros Hp Hw Hf Hs Hc HQ. unfold proc_expr_statement. destruct (toks_start e) as (l & ts & El & Hl). rewrite El in Hs. cbn [app] in Hs.
  eapply wp_peek; [exact Hs| |].
  { rewrite bool_decide_true; [reflexivity|]. intros E. unfold starts in Hl. rewrite E in Hl. set_solver. }
  intros s1 Hs1 Hk1. wp1. unfold proc_expr. change (l :: ts ++ LOp finsh_token_type_semicolon :: ls) with ((l :: ts) ++ LOp finsh_token_type_semicolon :: ls) in Hs1.
  rewrite <- El in Hs1. eapply parse_expr; [done|done|done|exact Hs1|done|]. intros s2 Hs2 [He2 Hk2]. wp1.
  apply (wp_match (LOp finsh_token_type_semicolon) ls (c + nodes_of e)); [exact Hs2|]. intros s3 Hh3 Hk3. wp1. apply HQ; [by eapply has_st|]. split.
  - eapply enc_frame; [|exact He2]. intros i Hi. apply Hk3. lia.
  - pose proof (nodes_pos e). eapply parse_keeps_trans; [exact Hk1|eapply parse_keeps_trans; [exact Hk2|exact Hk3|lia]|lia].
Qed.
(** The three kinds of statement start differently; an expression is read the same way. *)
Lemma run_loop_step n f t node : starts t -> run_loop (S n) f t node =
  (replay ;; node ← link_statement (proc_expr_statement f) (negb (bool_decide (t = finsh_token_type_identifier))) node;
   root ← gets sh_root; match root with None => mret tt | Some _ => token ← next_token; run_loop n f token node end).
Proof. unfold starts. rewrite !elem_of_cons, elem_of_nil. by intros [->|[->|[->|[->|[->|[->|[]]]]]]]. Qed.
Lemma table_sibling i v c s : 0 <= i < c -> table c s -> table c (set_sh_nodes (<[i := set_nd_sibling v (sh_nodes s i)]> (sh_nodes s)) s).
Proof.
  intros Hi (H0' & Hu & Hf & Hv). split; [done|]. cbn [sh_nodes set_sh_nodes sh_data].
  split; [|split; [|done]]; intros j Hj; rewrite upd_case; destruct (decide (i = j)) as [->|]; [apply Hu; lia|apply Hu; lia|lia|apply Hf; lia].
Qed.
Lemma wp_link f e ls c s i skip (Q : option Z -> shell -> Prop) : plain e -> writable vars e -> (S (length (toks vars e)) < f)%nat ->
  st (toks vars e ++ LOp finsh_token_type_semicolon :: ls) c s -> c + nodes_of e <= FINSH_NODE_MAX -> is_Some (sh_root s) -> 0 <= i < c ->
  (forall s', st ls (c + nodes_of e) s' -> enc (sh_nodes s') c e None -> sh_nodes s' i = set_nd_sibling (Some (root_of c e)) (sh_nodes s i) ->
    (forall j, j < c -> j <> i -> sh_nodes s' j = sh_nodes s j) -> keeps 0 s s' -> Q (Some (root_of c e)) s') ->
  wp (link_statement (proc_expr_statement f) skip (Some i)) Q s.
Proof.
  intros Hp Hw Hf Hs Hc [r Hr] Hi HQ. unfold link_statement. do 2 wp1. rewrite Hr. wp1. eapply wp_statement; [done|done|done|exact Hs|done|].
  intros s1 [Hq1 Ht1] [He1 Hk1]. pose proof (nodes_pos e). unfold mod_node. do 3 wp1. apply HQ.
  - split; [done|]. apply table_sibling; [lia|done].
  - eapply enc_frame; [|exact He1]. intros j Hj. cbn [sh_nodes set_sh_nodes]. by rewrite upd_ne by lia.
  - cbn [sh_nodes set_sh_nodes]. rewrite upd_eq. f_equal. apply Hk1. lia.
  - intros j Hj Hne. cbn [sh_nodes set_sh_nodes]. rewrite upd_ne by lia. apply Hk1. lia.
  - split; [|by destruct Hk1 as (_ & Hd & Hr1 & He)]. intros j Hj. cbn [sh_nodes set_sh_nodes]. rewrite upd_ne by lia. apply Hk1. lia.
Qed.
Definition program_ok f es : Prop := Forall (fun e => plain e /\ writable vars e /\ (S (length (toks vars e)) < f)%nat) es.
Lemma root_range c e : 0 <= c -> c <= root_of c e < c + nodes_of e.
Proof. unfold root_of. pose proof (nodes_pos e). lia. Qed.
Lemma enc_root_sibling nodes c e : enc nodes c e None -> nd_sibling (nodes (root_of c e)) = None.
Proof.
  unfold root_of. destruct e; cbn [enc nodes_of]; intros He; repeat match goal with H : _ /\ _ |- _ => destruct H end.
  all: match goal with |- nd_sibling (_ ?i) = _ => match goal with E : _ ?j = mk_node _ _ _ _ _ None _ |- _ => replace i with j by lia; by rewrite E end end.
Qed.
Lemma program_nodes_pos es : 0 <= program_nodes es.
Proof. induction es as [|e es IH]; cbn; [lia|pose proof (nodes_pos e); lia]. Qed.
(** The statements behind the node [i]. *)
Lemma wp_statements f es : program_ok f es -> forall n c s i (Q : unit -> shell -> Prop),
  st (program_toks vars es) c s -> c + program_nodes es <= FINSH_NODE_MAX -> (length es < n)%nat -> is_Some (sh_root s) -> 0 <= i < c ->
  nd_sibling (sh_nodes s i) = None ->
  (forall s', encs (sh_nodes s') c es -> sh_nodes s' i = set_nd_sibling (first_root c es) (sh_nodes s i) ->
    (forall j, j < c -> j <> i -> sh_nodes s' j = sh_nodes s j) -> keeps 0 s s' -> Q tt s') ->
  wp (token ← next_token; run_loop n f token (Some i)) Q s.
Proof.
  induction 1 as [|e es (Hp & Hw & Hf) _ IH]; intros n c s i Q Hs Hc Hn Hr Hi Hsib HQ; (destruct n as [|n]; [cbn in Hn; lia|]).
  - wp1. destruct Hs as [Hq Ht]. apply wp_on_token, wp_token_eof; [done|]. intros t He. cbn [run_loop]. rewrite bool_decide_true by done. cbn [orb].
    wp1. apply HQ; [done| |done|done]. cbn [first_root]. cbn. rewrite <- Hsib. by destruct (sh_nodes s i).
  - cbn [program_toks program_nodes length] in *. destruct (toks_start e) as (l & ts & El & Hl). assert (0 <= c) as Hc0 by apply Hs. pose proof (nodes_pos e).
    pose proof (program_nodes_pos es) as Hpn.
    pose proof Hs as Hs'. rewrite El in Hs'. cbn [app] in Hs'. wp1. eapply wp_next_token; [exact Hs'|]. intros s1 Hh1 Hk1. rewrite run_loop_step by done.
    wp1. eapply wp_replay; [exact Hh1|]. intros s2 Hs2 Hk2. assert (keeps c s s2) as Hk by (eapply parse_keeps_trans; [exact Hk1|exact Hk2|lia]).
    change (l :: ts ++ LOp finsh_token_type_semicolon :: program_toks vars es) with ((l :: ts) ++ LOp finsh_token_type_semicolon :: program_toks vars es) in Hs2.
    rewrite <- El in Hs2. assert (is_Some (sh_root s2)) as Hr2 by (destruct Hk as (_ & _ & -> & _); done).
    wp1. eapply wp_link; [done|done|done|exact Hs2|lia|done|done|]. intros s3 Hs3 He3 Ei3 Ho3 Hk3. do 2 wp1.
    assert (is_Some (sh_root s3)) as [r Hr3] by (destruct Hk3 as (_ & _ & -> & _); done). rewrite Hr3. pose proof (root_range c e Hc0).
    eapply IH; [exact Hs3|lia|lia|by eexists|lia|by eapply enc_root_sibling|]. intros s4 He4 Ei4 Ho4 Hk4. apply HQ.
    + cbn [encs]. split; [|done]. eapply enc_sibling; [|exact Ei4|exact He3]. intros j Hj. apply Ho4; lia.
    + cbn [first_root]. rewrite Ho4 by lia. rewrite Ei3. f_equal. by apply Hk; lia.
    + intros j Hj Hne. rewrite Ho4, Ho3 by lia. by apply Hk.
    + eapply parse_keeps_trans; [|exact Hk4|lia]. eapply (parse_keeps_trans _ 0); [|exact Hk3|lia]. destruct Hk as (Hn' & Hk'). split; [|done]. intros j Hj. apply Hn'. lia.
Qed.

(** ** A whole line *)
(** The first statement becomes the root. *)
Lemma wp_program f es n s (Q : unit -> shell -> Prop) : program_ok f es -> es <> [] -> st (program_toks vars es) 0 s ->
  program_nodes es <= FINSH_NODE_MAX -> (length es < n)%nat -> sh_root s = None ->
  (forall s', encs (sh_nodes s') 0 es -> sh_root s' = first_root 0 es -> sh_data s' = sh_data s ->
    global_errno (sh_token s') = global_errno (sh_token s) -> Q tt s') ->
  wp (token ← next_token; run_loop n f token None) Q s.
Proof.
  intros Hok Hne Hs Hc Hn Hr HQ. destruct Hok as [|e es (Hp & Hw & Hf) Hok]; [done|]. destruct n as [|n]; [cbn in Hn; lia|].
  cbn [program_toks program_nodes length] in *. destruct (toks_start e) as (l & ts & El & Hl). pose proof (nodes_pos e). pose proof (program_nodes_pos es).
  pose proof Hs as Hs'. rewrite El in Hs'. cbn [app] in Hs'. wp1. eapply wp_next_token; [exact Hs'|]. intros s1 Hh1 Hk1. rewrite run_loop_step by done.
  wp1. eapply wp_replay; [exact Hh1|]. intros s2 Hs2 Hk2. assert (keeps 0 s s2) as Hk by (eapply parse_keeps_trans; [exact Hk1|exact Hk2|lia]).
  change (l :: ts ++ LOp finsh_token_type_semicolon :: program_toks vars es) with ((l :: ts) ++ LOp finsh_token_type_semicolon :: program_toks vars es) in Hs2.
  rewrite <- El in Hs2. unfold link_statement. do 3 wp1. replace (sh_root s2) with (@None Z) by (destruct Hk as (_ & _ & -> & _); done).
  wp1. eapply wp_statement; [done|done|done|exact Hs2|lia|]. intros s3 Hs3 [He3 Hk3]. do 3 wp1. do 2 wp1. cbn [sh_root set_sh_root].
  pose proof (root_range 0 e ltac:(lia)). eapply (wp_statements f es Hok n (0 + nodes_of e)); [exact Hs3|lia|lia|by eexists|lia|by apply enc_root_sibling|].
  intros s4 He4 Ei4 Ho4 (_ & Hd4 & Hr4 & Ee4). cbn [sh_nodes sh_data sh_root sh_token set_sh_root] in *. destruct Hk as (_ & Hd & _ & Ee), Hk3 as (_ & Hd3 & _ & Ee3).
  apply HQ; [|done|congruence|congruence]. split; [|done]. eapply enc_sibling; [|exact Ei4|exact He3]. intros j Hj. apply Ho4; lia.
Qed.
Lemma toks_ok e : writable vars e -> Forall lexeme_ok (toks vars e).
Proof.
  induction e as [z|id|o a IHa b IHb|a IHa|a IHa|id a IHa|pre up id]; cbn [writable toks].
  - intros Hz. by constructor.
  - intros Hid. constructor; [apply Hid|done].
  - intros [Ha Hb]. apply Forall_app. split; [by apply IHa|]. constructor; [by destruct o|by apply IHb].
  - intros Ha. constructor; [done|by apply IHa].
  - intros Ha. constructor; [done|by apply IHa].
  - intros [Hid Ha]. constructor; [apply Hid|]. constructor; [done|by apply IHa].
  - intros Hid. destruct pre, up; (constructor; [|constructor; [|constructor]]); try done; apply Hid.
Qed.
Lemma program_toks_ok es : Forall (writable vars) es -> Forall lexeme_ok (program_toks vars es).
Proof. induction 1 as [|e es He _ IH]; [done|]. cbn [program_toks]. apply Forall_app. split; [by apply toks_ok|]. by constructor. Qed.
(** There is fuel for every token. *)
Lemma line_length ls : (length ls <= length (line_of ls))%nat.
Proof. induction ls as [|l ls IH]; [done|]. cbn [line_of flat_map]. rewrite !length_app. cbn in *. unfold line_of in *. lia. Qed.
Lemma program_length es : (length es <= length (program_toks vars es))%nat.
Proof. induction es as [|e es IH]; [done|]. cbn [program_toks]. rewrite length_app. cbn. lia. Qed.
Lemma program_fuel es f : (length (program_toks vars es) < f)%nat -> Forall plain es -> Forall (writable vars) es -> program_ok f es.
Proof.
  intros Hf Hp Hw. induction es as [|e es IH]; [constructor|]. apply Forall_cons in Hp as [Hp Hps], Hw as [Hw Hws]. cbn [program_toks] in Hf.
  rewrite length_app in Hf. cbn [length] in Hf. constructor; [split; [done|split; [done|lia]]|]. apply IH; [lia|done|done].
Qed.
(** The shell is ready for a line: no node, no root. *)
Definition ready s : Prop := table 0 s /\ sh_root s = None.
Lemma wp_parser_run es s (Q : unit -> shell -> Prop) : ready s -> es <> [] -> Forall plain es -> Forall (writable vars) es ->
  program_nodes es <= FINSH_NODE_MAX ->
  (forall s', tree_at (Z.to_nat FINSH_NODE_MAX) (sh_nodes s') (sh_root s') = Some (tree_of_program es) -> sh_data s' = sh_data s ->
    global_errno (sh_token s') = global_errno (sh_token s) -> Q tt s') ->
  wp (finsh_parser_run (program_text vars es)) Q s.
Proof.
  intros [Ht Hr] Hne Hp Hw Hn HQ. pose proof (line_length (program_toks vars es)) as Hl. pose proof (program_length es). unfold finsh_parser_run, parser_fuel, program_text. wp1. wp1.
  pose proof (program_nodes_pos es). eapply (wp_program _ es); [|done| |done|lia|done|].
  - apply program_fuel; [|done|done]. lia.
  - split; [|done]. cbn [sh_token set_sh_token]. apply init_queue. by apply program_toks_ok.
  - intros s' He Hr' Hd Ee. cbn [sh_data sh_token set_sh_token global_errno finsh_token_init] in *. apply HQ; [|done|done]. rewrite Hr'.
    eapply tree_at_mono; [by apply encs_tree|lia].
Qed.
(** C29 The parser, given the text of statements over integer variables, fills the node table with
    their trees, in the order of the text and grouped by the precedence of the operators,
    and sets no error; the text ends each statement with a semicolon and needs no parentheses. *)
Theorem finsh_parser_correct es s : ready s -> es <> [] -> Forall plain es -> Forall (writable vars) es -> program_nodes es <= FINSH_NODE_MAX ->
  exists s', finsh_parser_run (program_text vars es) s = Some (tt, s') /\
    tree_at (Z.to_nat FINSH_NODE_MAX) (sh_nodes s') (sh_root s') = Some (tree_of_program es) /\
    sh_data s' = sh_data s /\ global_errno (sh_token s') = global_errno (sh_token s).
Proof.
  intros Hs Hne Hp Hw Hn. assert (wp (finsh_parser_run (program_text vars es)) (fun _ s' =>
    tree_at (Z.to_nat FINSH_NODE_MAX) (sh_nodes s') (sh_root s') = Some (tree_of_program es) /\
    sh_data s' = sh_data s /\ global_errno (sh_token s') = global_errno (sh_token s)) s) as Hwp by (by apply wp_parser_run).
  apply wp_run in Hwp as ([] & s' & E & HQ). by exists s'.
Qed.
End finsh_parse.
