(* ===== verification/FinshShell.v ===== *)
(** A line of the shell from its text to the value it prints (components/finsh/shell.c and
    finsh_init.c): lexer, parser, compiler and virtual machine one behind the other. *)
From S2P Require Import Prelude MemOps Kernel FinshVM FinshCompiler FinshCorrect FinshInt FinshToken FinshHeap FinshParser FinshLex FinshGrammar FinshParse.

(** The shell with the stack of the machine, which is not cleared between two lines. *)
Record machine : Type := mk_machine { ma_shell : shell; ma_stack : Z -> Z }.
Definition set_ma_shell (v : shell) (s : machine) : machine := mk_machine v (ma_stack s).
(** What a line prints. *)
Inductive outcome := Message (errno : Z) | Nothing | Value (v : Z).
Definition FINSH_ERROR_OK : Z := 0.

Section finsh_shell.
Context `{FinshData} `{SymbolTables} `{Finsh} `{base : Symbols}.
Implicit Types (s : machine) (vars : list finsh_var).

Definition on_shell {A} (m : M shell A) : M machine A := fun s =>
  match m (ma_shell s) with Some (a, t) => Some (a, set_ma_shell t s) | None => None end.
Definition set_memory (m : memory) : M shell unit := on_data (modify (set_fd_mem m)).

(** ** finsh_init.c and finsh_error.c *)
Definition finsh_error_init : M shell unit := error_set FINSH_ERROR_OK.
Definition finsh_init : M shell unit :=
  finsh_parser_init ;;
  finsh_node_init ;;
  on_data finsh_var_init ;;
  finsh_error_init ;;
  on_data finsh_heap_init.
Definition finsh_flush : M shell unit :=
  finsh_parser_init ;;
  finsh_node_init ;;
  finsh_error_init.
Definition finsh_reset : M shell unit :=
  finsh_node_init ;;
  on_data finsh_var_init ;;
  finsh_error_init ;;
  on_data finsh_heap_init.
Definition finsh_stack_bottom : M machine Z := gets (fun s => int32 (ma_stack s 0)).
Definition finsh_errno : M machine Z := gets (fun s => global_errno (sh_token (ma_shell s))).

(** ** shell.c *)
(** The type of a variable is in its entry of the table. *)
Definition symbols_of vars : Symbols := {|
  var_type id := fv_type (nth (Z.to_nat ((id - global_variable) / 24)) vars no_var);
  sysvar_type := @sysvar_type base;
  sysvar_var := @sysvar_var base;
  syscall_func := @syscall_func base
|}.
(** The compiler on the tree in the table: it clears one slot of the stack, and every error it
    sets replaces the one before.  It also takes the tree apart, which [finsh_flush] drops. *)
Definition compile_root : M machine (list Z) := fun s =>
  let sh := ma_shell s in
  match tree_at (Z.to_nat FINSH_NODE_MAX) (sh_nodes sh) (sh_root sh) with
  | None => None
  | Some tree =>
    match finsh_compiler_run (H := symbols_of (fd_vars (sh_data sh))) tree with
    | None => None
    | Some (text, errors) =>
      let token := set_global_errno (foldl (fun _ e => e) (global_errno (sh_token sh)) errors) (sh_token sh) in
      Some (text, mk_machine (set_sh_token token sh) (<[0 := 0]> (ma_stack s)))
    end
  end.
Definition run_text (text : list Z) : M machine unit := fun s =>
  match finsh_vm_run text (ma_stack s) (fd_mem (sh_data (ma_shell s))) with
  | None => None
  | Some v => Some (tt, mk_machine (set_sh_data (set_fd_mem (vm_mem v) (sh_data (ma_shell s))) (ma_shell s)) (finsh_vm_stack v))
  end.
Definition finsh_run_line (line : list Z) : M machine outcome :=
  on_shell (finsh_parser_run line) ;;
  errno ← finsh_errno;
  out ← (if errno =? FINSH_ERROR_OK then
           text ← compile_root;
           errno ← finsh_errno;
           if errno =? FINSH_ERROR_OK then
             run_text text ;;
             v ← finsh_stack_bottom;
             mret (Value v)
           else mret Nothing
         else mret (Message errno));
  on_shell finsh_flush ;;
  mret out.

(** ** The compiler sets no error for int programs *)
Definition quiet (n : finsh_node) : Prop := forall o, finsh_compile (H := base) n = Some o -> snd o = [].
Lemma quiet_node ty dt it v id sib ch : quiet ch -> quiet sib -> (forall o, compile_node (H := base) ty dt it v id ch = Some o -> snd o = []) ->
  quiet (Node ty dt it v id sib ch).
Proof.
  intros Hc Hs Hn o. cbn [finsh_compile]. destruct (finsh_compile ch) as [a|] eqn:Ea; [|done]. destruct (compile_node _ _ _ _ _ ch) as [b|] eqn:Eb; [|done].
  destruct (finsh_compile sib) as [d|] eqn:Ed; [|done]. cbn [mbind option_bind]. intros [= <-]. cbn [emit snd]. by rewrite (Hc _ Ea), (Hn _ eq_refl), (Hs _ Ed).
Qed.
Lemma quiet_null : quiet NULL.
Proof. by intros o [= <-]. Qed.
Lemma quiet_var addr dt id sib : quiet sib -> quiet (Node FINSH_NODE_ID dt addr 0 id sib NULL).
Proof.
  intros Hs. apply quiet_node; [apply quiet_null|done|]. intros o [= <-]. unfold compile_id, compile_var.
  repeat case_match; done.
Qed.
Lemma quiet_typed e : forall sib, quiet sib -> quiet (typed_tree e sib).
Proof.
  induction e as [z|id|o a IHa b IHb|a IHa|a IHa|id a IHa|pre up id]; intros sib Hs; cbn [typed_tree].
  - apply quiet_node; [apply quiet_null|done|]. by intros o [= <-].
  - by apply quiet_var.
  - apply quiet_node; [by apply IHa, IHb, quiet_null|done|]. by destruct o; intros ? [= <-].
  - apply quiet_node; [|done|by intros o [= <-]]. apply quiet_node; [apply quiet_null|by apply IHa, quiet_null|by intros o [= <-]].
  - apply quiet_node; [by apply IHa, quiet_null|done|by intros o [= <-]].
  - apply quiet_node; [by apply quiet_var, IHa, quiet_null|done|by intros o [= <-]].
  - apply quiet_node; [by apply quiet_var, quiet_null|done|]. by destruct pre, up; intros o [= <-].
Qed.
Lemma compile_quiet es : Forall int_expr es -> forall o, compile_statements (H := base) (checked (H0 := base) (tree_of_program es)) = Some o -> snd o = [].
Proof.
  induction 1 as [|e es He _ IH]; intros o; [by intros [= <-]|]. cbn [tree_of_program]. rewrite checked_typed by done.
  destruct (typed_dword e (checked (tree_of_program es))) as (ty & it & v & id & ch & Et). rewrite Et. cbn [compile_statements]. rewrite <- Et, set_sibling_typed.
  destruct (finsh_compile (typed_tree e NULL)) as [a|] eqn:Ea; [|done]. destruct (compile_statements _) as [b|]; [|done]. cbn [mbind option_bind].
  intros [= <-]. cbn [emit snd]. rewrite (quiet_typed e NULL quiet_null a Ea), (IH b eq_refl). by case_match.
Qed.
Lemma compiler_quiet es text errors : Forall int_expr es -> finsh_compiler_run (H := base) (tree_of_program es) = Some (text, errors) -> errors = [].
Proof.
  intros Hes. unfold finsh_compiler_run. pose proof (check_no_errors es Hes) as Hc. pose proof (compile_quiet es Hes) as Hq. unfold checked in Hq.
  destruct (finsh_type_check (tree_of_program es) 0) as [n e]. cbn [fst snd] in *. subst e.
  destruct (compile_statements n) as [[code errors']|]; [|done]. cbn [mbind option_bind]. specialize (Hq _ eq_refl). cbn [snd] in Hq. subst errors'.
  case_decide; [|done]. by intros [= _ <-].
Qed.
(** The type check keeps the size of a tree. *)
Lemma size_check n a : size (fst (finsh_type_check (H := base) n a)) = size n.
Proof.
  revert a. induction n as [|ty dt it v id sib IHs ch IHc]; intros a; [done|]. cbn [finsh_type_check size].
  set (a' := if checks_address ty then _ else _). specialize (IHc a'). specialize (IHs 0).
  destruct (finsh_type_check ch a') as [ch' e1], (finsh_type_check sib 0) as [sib' e2]. cbn [fst] in *.
  destruct ch'; [destruct (leaf_type _ _ _ _)|]; cbn [fst size] in *; lia.
Qed.
Lemma size_tree e sib : size (tree_of e sib) = nodes_of e + size sib.
Proof. revert sib. induction e; intros sib; cbn [tree_of size nodes_of sys_node var_node]; rewrite ?IHe, ?IHe1, ?IHe2; cbn [size]; rewrite ?IHe, ?IHe2; cbn [size]; lia. Qed.
Lemma size_program es : size (tree_of_program es) = program_nodes es.
Proof. induction es as [|e es IH]; cbn [tree_of_program program_nodes size]; [done|]. by rewrite size_tree, IH. Qed.
End finsh_shell.
