(* ===== verification/FinshSession.v ===== *)
(** Sessions of the shell: the user declares integer variables and types statements over
    them; every line prints what C computes, and leaves the shell ready for the next. *)
From S2P Require Import Prelude MemOps Kernel FinshVM FinshCompiler FinshCorrect FinshInt FinshToken FinshHeap FinshParser FinshLex FinshGrammar FinshParse FinshShell.

Section finsh_session.
Context `{FinshData} `{SymbolTables} `{Finsh} `{base : Symbols}.
Implicit Types (s : machine) (vars : list finsh_var) (name : list Z).

(** ** Lines *)
Inductive command := Declare_int name | Statements (es : list expr).
Definition declare_line name : list Z := line_of [LKey finsh_token_type_int; LId name; LOp finsh_token_type_semicolon].
Definition command_text vars (cmd : command) : list Z :=
  match cmd with Declare_int name => declare_line name | Statements es => program_text vars es end.
(** The first free entry takes the variable, whatever value it has. *)
Definition declare_var name vars : list finsh_var :=
  match insert_scan name vars 0 None with Some (Some i) => <[i := mk_var name finsh_type_int]> vars | _ => vars end.
Definition vars_after (cmd : command) vars : list finsh_var :=
  match cmd with Declare_int name => declare_var name vars | Statements _ => vars end.
Definition command_sem (cmd : command) (m : memory) : option (Z * memory) :=
  match cmd with Declare_int _ => Some (0, m) | Statements es => sem_program es m end.
(** A name of less than 16 characters that is not taken, and room for it; statements the grammar
    can express, over declared variables, that fit the node table and the text segment. *)
Definition command_ok vars (cmd : command) : Prop :=
  match cmd with
  | Declare_int name => is_name name /\ (length name < 16)%nat /\ exists i, insert_scan name vars 0 None = Some (Some i)
  | Statements es =>
    Forall plain es /\ Forall (writable vars) es /\ Forall (int_expr (H0 := symbols_of (base := base) vars)) es /\
    program_nodes es <= FINSH_NODE_MAX /\ is_Some (finsh_compiler_run (H := symbols_of (base := base) vars) (tree_of_program es))
  end.
(** The state between two lines. *)
Definition line_ready vars s : Prop := ready vars (ma_shell s) /\ global_errno (sh_token (ma_shell s)) = 0.
Definition memory_of s : memory := fd_mem (sh_data (ma_shell s)).

(** ** The parser on a declaration *)
Lemma wp_var_insert name i vars (d : finsh_data) (Q : Z -> finsh_data -> Prop) : fd_vars d = vars -> (length name < 16)%nat ->
  insert_scan name vars 0 None = Some (Some i) -> Q (Z.of_nat i) (set_fd_vars (declare_var name vars) d) -> wp (finsh_var_insert name finsh_type_int) Q d.
Proof.
  intros Hv Hl Hi HQ. unfold finsh_var_insert, declare_var in *. do 2 wp1. rewrite Hv, Hi in *. do 3 wp1.
  rewrite take_ge by (change (Z.to_nat FINSH_NAME_MAX) with 16%nat; lia). exact HQ.
Qed.
Lemma wp_parse_declare name vars (s : shell) i (Q : unit -> shell -> Prop) : is_name name -> (length name < 16)%nat -> insert_scan name vars 0 None = Some (Some i) ->
  ready vars s ->
  (forall s' : shell, sh_root s' = None -> sh_data s' = set_fd_vars (declare_var name vars) (sh_data s) ->
    global_errno (sh_token s') = global_errno (sh_token s) -> Q tt s') -> wp (finsh_parser_run (declare_line name)) Q s.
Proof.
  intros Hn Hl Hi [Ht Hr] HQ. unfold finsh_parser_run, parser_fuel. set (fuel := S (S _)). wp1. wp1.
  set (t0 := set_sh_token _ _). assert (st vars [LKey finsh_token_type_int; LId name; LOp finsh_token_type_semicolon] 0 t0) as Hs0.
  { split; [|done]. apply init_queue. by repeat (constructor; [done|]). }
  wp1. eapply wp_next_token; [exact Hs0|]. intros s1 Hh1 Hk1. cbn [type_of]. subst fuel. set (fuel := S (length _)). cbn [run_loop].
  change (bool_decide (finsh_token_type_int = finsh_token_type_eof) || bool_decide (finsh_token_type_int = finsh_token_type_bad)) with false.
  change (bool_decide (finsh_token_type_int = finsh_token_type_identifier)) with false. change (is_base_type finsh_token_type_int) with true. cbn [orb].
  wp1. eapply wp_replay; [exact Hh1|]. intros s2 Hs2 Hk2. unfold link_statement. do 3 wp1. assert (sh_root s2 = None) as Hr2 by (destruct Hk1 as (_ & _ & E1 & _), Hk2 as (_ & _ & E2 & _); by rewrite E2, E1).
  rewrite Hr2. wp1. unfold proc_variable_decl, proc_type, type_pointer, declare, proc_identifier. do 2 wp1.
  eapply wp_next_token; [exact Hs2|]. intros s3 Hh3 Hk3. cbn [type_of base_type]. wp1.
  eapply wp_next_token; [exact (has_st _ _ _ _ _ Hh3)|]. intros s4 Hh4 Hk4. rewrite bool_decide_false by done. wp1.
  eapply wp_replay; [exact Hh4|]. intros s5 Hs5 Hk5. do 4 wp1. apply (wp_match vars (LId name) [LOp finsh_token_type_semicolon] 0); [exact Hs5|].
  intros s6 Hh6 Hk6. unfold token_string. do 3 wp1. pose proof Hh6 as [(_ & [_ Hname] & _) Ht6]. cbn in Hname. rewrite Hname.
  rewrite take_ge by (change (Z.to_nat FINSH_NAME_MAX) with 16%nat; lia).
  assert (keeps 0 t0 s6) as Hk.
  { eapply parse_keeps_trans; [exact Hk1|eapply parse_keeps_trans; [exact Hk2|eapply parse_keeps_trans; [exact Hk3|eapply parse_keeps_trans; [exact Hk4|eapply parse_keeps_trans; [exact Hk5|exact Hk6|lia]|lia]|lia]|lia]|lia]. }
  destruct Hk as (_ & Hd & Hr6 & He). wp1. unfold wp at 1, on_data.
  pose proof (wp_var_insert name i vars (sh_data s6) (fun r d => r = Z.of_nat i /\ d = set_fd_vars (declare_var name vars) (sh_data s6)) ltac:(apply Ht6) Hl Hi (conj eq_refl eq_refl)) as Hw.
  apply wp_run in Hw as (r & d & -> & -> & ->). destruct (Z.ltb_spec (Z.of_nat i) 0); [lia|]. do 3 wp1.
  set (s7 := set_sh_data _ s6). assert (st (declare_var name vars) [LOp finsh_token_type_semicolon] 0 s7) as Hs7.
  { split; [by eapply got_queue, Hh6|]. destruct Ht6 as (H0' & Hu & Hf & _). by split; [|split; [|split]]. }
  wp1. eapply wp_next_token; [exact Hs7|]. intros s8 Hh8 (_ & Hd8 & Hr8 & He8). cbn [type_of]. do 3 wp1. do 2 wp1. cbn [sh_root set_sh_root].
  wp1. apply HQ; [done| |].
  - cbn [sh_data set_sh_root]. rewrite Hd8. cbn [s7 sh_data set_sh_data]. by rewrite Hd.
  - cbn [sh_token set_sh_root]. rewrite He8. exact He.
Qed.

(** ** One line *)
Lemma wp_on_shell {A} (m : M shell A) (Q : A -> machine -> Prop) s : wp m (fun a sh => Q a (set_ma_shell sh s)) (ma_shell s) -> wp (on_shell m) Q s.
Proof. unfold wp, on_shell. by destruct (m (ma_shell s)) as [[a sh]|]. Qed.
Lemma table_init d sh vars : fd_vars d = vars -> sh_data sh = d -> sh_nodes sh = (fun _ => zero_node) -> table vars 0 sh.
Proof. intros Hv Hd Hn. split; [done|]. rewrite Hn, Hd. split; [lia|]. by split. Qed.
(** After a line the shell is ready again, whatever is left of the line. *)
Lemma wp_flush vars s (Q : unit -> machine -> Prop) : fd_vars (sh_data (ma_shell s)) = vars ->
  (forall s', line_ready vars s' -> memory_of s' = memory_of s -> Q tt s') -> wp (on_shell finsh_flush) Q s.
Proof.
  intros Hv HQ. apply wp_on_shell. unfold finsh_flush, finsh_parser_init, finsh_node_init, finsh_error_init, error_set, finsh_token_error_set. do 4 wp1.
  apply wp_on_token. wp1. apply HQ; [|done]. split; [|done]. split; [|done]. by eapply table_init.
Qed.
(** The compiler and the machine on the tree that the parser has left. *)
Definition runs_to vars (tree : finsh_node) (m : memory) (v : Z) (m' : memory) : Prop :=
  exists text, finsh_compiler_run (H := symbols_of (base := base) vars) tree = Some (text, []) /\
  forall stack, stack 0 = 0 -> exists stack', option_map (fun r => (finsh_vm_stack r, vm_mem r)) (finsh_vm_run text stack m) = Some (stack', m') /\ int32 (stack' 0) = v.
Lemma wp_run_line line vars tree v m' s (Q : outcome -> machine -> Prop) :
  (forall Q : unit -> shell -> Prop, (forall sh', tree_at (Z.to_nat FINSH_NODE_MAX) (sh_nodes sh') (sh_root sh') = Some tree -> fd_vars (sh_data sh') = vars ->
    fd_mem (sh_data sh') = memory_of s -> global_errno (sh_token sh') = 0 -> Q tt sh') -> wp (finsh_parser_run line) Q (ma_shell s)) ->
  runs_to vars tree (memory_of s) v m' -> (forall s', line_ready vars s' -> memory_of s' = m' -> Q (Value v) s') -> wp (finsh_run_line (base := base) line) Q s.
Proof.
  intros Hparse (text & Hc & Hrun) HQ. unfold finsh_run_line. wp1. apply wp_on_shell, Hparse. intros sh1 Ht Hv Hm He. unfold finsh_errno. do 2 wp1.
  cbn [ma_shell set_ma_shell]. rewrite He. change (0 =? FINSH_ERROR_OK) with true. cbn match. do 2 wp1. unfold wp at 1, compile_root. cbn [ma_shell set_ma_shell ma_stack].
  rewrite Ht, Hv, Hc. cbn [foldl]. do 2 wp1. cbn [ma_shell]. cbn [global_errno sh_token set_global_errno set_sh_token]. rewrite He. change (0 =? FINSH_ERROR_OK) with true. cbn match.
  destruct (Hrun (<[0 := 0]> (ma_stack s)) (upd_eq _ _ _)) as (st' & E & Hv'). wp1. unfold wp at 1, run_text. cbn [ma_shell ma_stack sh_data set_sh_token]. rewrite Hm.
  destruct (finsh_vm_run text _ (memory_of s)) as [r|]; [|done]. cbn [option_map] in E. injection E as Est Emem. unfold finsh_stack_bottom. do 3 wp1. cbn [ma_stack]. rewrite Est, Hv'.
  wp1. eapply wp_flush; [cbn; exact Hv|]. intros s' Hr Hm'. wp1. apply HQ; [done|]. rewrite Hm'. exact Emem.
Qed.
(** No statement: the machine does nothing, and the cleared slot is printed. *)
Lemma runs_nothing vars m : runs_to vars NULL m 0 m.
Proof.
  exists (replicate 128 0). split; [done|]. intros stack H0'. exists stack. split; [|by rewrite H0'].
  unfold finsh_vm_run. by rewrite (steps_loop (mk_vm (replicate 128 0) stack 0 m) (mk_vm [] stack 0 m) (steps_noop _ _ _ _)).
Qed.
Lemma runs_program vars es m v m' : Forall (int_expr (H0 := symbols_of (base := base) vars)) es -> program_nodes es <= FINSH_NODE_MAX ->
  is_Some (finsh_compiler_run (H := symbols_of (base := base) vars) (tree_of_program es)) -> sem_program es m = Some (v, m') -> runs_to vars (tree_of_program es) m v m'.
Proof.
  intros Hes Hn [[text errors] Hc] Hs. pose proof (compiler_quiet (base := symbols_of (base := base) vars) es text errors Hes Hc) as ->. exists text. split; [exact Hc|].
  intros stack _. destruct (finsh_int_correct (H0 := symbols_of (base := base) vars) es text [] stack m v m' Hes Hs) as (st & E & V); [|exact Hc|].
  - unfold checked. by rewrite size_check, size_program.
  - exists st. split; [by rewrite E|done].
Qed.
Lemma wp_command cmd vars m v m' s (Q : outcome -> machine -> Prop) : command_ok vars cmd -> line_ready vars s -> memory_of s = m -> command_sem cmd m = Some (v, m') ->
  (forall s', line_ready (vars_after cmd vars) s' -> memory_of s' = m' -> Q (Value v) s') -> wp (finsh_run_line (base := base) (command_text vars cmd)) Q s.
Proof.
  intros Hok [Hr He] Hm Hs HQ. destruct cmd as [name|es]; cbn [command_ok command_sem command_text vars_after] in *.
  - destruct Hok as (Hn & Hl & i & Hi). injection Hs as <- <-. eapply wp_run_line; [|by apply runs_nothing|by rewrite Hm]. intros Q' HQ'.
    eapply wp_parse_declare; [done|done|exact Hi|done|]. intros sh' Hroot Hd Ee. apply HQ'; [by rewrite Hroot|by rewrite Hd|by rewrite Hd|by rewrite Ee].
  - destruct Hok as (Hp & Hw & Hes & Hn & Hc). eapply wp_run_line; [|by rewrite Hm; apply runs_program|done]. intros Q' HQ'.
    eapply wp_parser_run; [done|by destruct es|done|done|done|]. intros sh' Ht Hd Ee. apply HQ'; [done|by rewrite Hd; apply Hr|by rewrite Hd|by rewrite Ee].
Qed.

(** ** Sessions *)
Fixpoint session_lines vars (cmds : list command) : list (list Z) :=
  match cmds with [] => [] | cmd :: cmds => command_text vars cmd :: session_lines (vars_after cmd vars) cmds end.
Fixpoint session_ok vars (cmds : list command) : Prop :=
  match cmds with [] => True | cmd :: cmds => command_ok vars cmd /\ session_ok (vars_after cmd vars) cmds end.
Definition session_vars vars (cmds : list command) : list finsh_var := foldl (fun vars cmd => vars_after cmd vars) vars cmds.
Fixpoint session_sem (cmds : list command) (m : memory) : option (list Z * memory) :=
  match cmds with
  | [] => Some ([], m)
  | cmd :: cmds => '(v, m) ← command_sem cmd m; '(vs, m) ← session_sem cmds m; Some (v :: vs, m)
  end.
Fixpoint finsh_run_lines (lines : list (list Z)) : M machine (list outcome) :=
  match lines with
  | [] => mret []
  | line :: lines => o ← finsh_run_line (base := base) line; os ← finsh_run_lines lines; mret (o :: os)
  end.
Lemma wp_session cmds : forall vars s vs m' (Q : list outcome -> machine -> Prop), line_ready vars s -> session_ok vars cmds -> session_sem cmds (memory_of s) = Some (vs, m') ->
  (forall s', line_ready (session_vars vars cmds) s' -> memory_of s' = m' -> Q (Value <$> vs) s') -> wp (finsh_run_lines (session_lines vars cmds)) Q s.
Proof.
  induction cmds as [|cmd cmds IH]; intros vars s vs m' Q Hr Hok Hs HQ; cbn [session_lines finsh_run_lines session_sem] in *.
  - injection Hs as <- <-. wp1. by apply HQ.
  - destruct Hok as [Hok Hoks]. destruct (command_sem cmd (memory_of s)) as [[v m1]|] eqn:E1; [|done]. cbn [mbind option_bind] in Hs.
    destruct (session_sem cmds m1) as [[vs2 m2]|] eqn:E2; [|done]. cbn [mbind option_bind] in Hs. injection Hs as <- <-.
    wp1. eapply wp_command; [exact Hok|exact Hr|reflexivity|exact E1|]. intros s1 Hr1 Hm1. wp1. eapply IH; [exact Hr1|exact Hoks|by rewrite Hm1|].
    intros s2 Hr2 Hm2. wp1. by apply HQ.
Qed.
(** C28 A session of the shell computes what C computes: each line, from its text through the lexer,
    the parser, the compiler and the virtual machine, prints the value of its last statement
    and leaves the variables in memory as C does, and a declaration takes a variable from
    the table; the shell is then ready for the next line. *)
Theorem finsh_session_correct vars cmds s vs m' : line_ready vars s -> session_ok vars cmds -> session_sem cmds (memory_of s) = Some (vs, m') ->
  exists s', finsh_run_lines (session_lines vars cmds) s = Some (Value <$> vs, s') /\ line_ready (session_vars vars cmds) s' /\ memory_of s' = m'.
Proof.
  intros Hr Hok Hs. assert (wp (finsh_run_lines (session_lines vars cmds)) (fun os s' => os = Value <$> vs /\ line_ready (session_vars vars cmds) s' /\ memory_of s' = m') s) as Hw
    by (by eapply wp_session).
  apply wp_run in Hw as (os & s' & E & -> & HQ). by exists s'.
Qed.
(** The shell is ready after [finsh_init]; all variables are free. *)
Lemma finsh_init_ready (sh : shell) st : exists sh', finsh_init sh = Some (tt, sh') /\ line_ready (replicate 8 no_var) (mk_machine sh' st).
Proof. eexists. split; [reflexivity|]. split; [|done]. split; [|done]. by eapply table_init; [|reflexivity|]. Qed.

(** ** Variables *)
Lemma insert_scan_free name vars : forall k e i, insert_scan name vars k e = Some (Some i) ->
  Forall (fun v => same_name (fv_name v) name = false) vars /\ (e = Some i \/ e = None /\ (k <= i < k + length vars)%nat).
Proof.
  induction vars as [|v vars IH]; intros k e i; cbn [insert_scan length]; [intros [= ->]; split; [constructor|by left]|].
  destruct (same_name (fv_name v) name) eqn:Ev; [done|]. intros Hs. apply IH in Hs as [Hf Hi]. split; [by constructor|].
  destruct (bool_decide _ && bool_decide _) eqn:Eb.
  - apply andb_true_iff in Eb as [_ ->%bool_decide_eq_true]. right. split; [done|]. destruct Hi as [[= ->]|[[=] _]]. lia.
  - destruct Hi as [->|[-> Hi]]; [by left|right; split; [done|lia]].
Qed.
Lemma insert_scan_unknown name vars : forall k e i old, insert_scan name vars k e = Some (Some i) -> (e = Some i -> False) -> vars !! (i - k)%nat = Some old ->
  fv_type old = finsh_type_unknown.
Proof.
  induction vars as [|v vars IH]; intros k e i old; cbn [insert_scan]; [by intros [= ->] He; destruct He|].
  destruct (same_name (fv_name v) name) eqn:Ev; [done|]. intros Hs He Hl. pose proof (insert_scan_free _ _ _ _ _ Hs) as [_ Hi].
  destruct (bool_decide _ && bool_decide _) eqn:Eb.
  - apply andb_true_iff in Eb as [Ht%bool_decide_eq_true _]. destruct Hi as [[= ->]|[[=] _]]. rewrite Nat.sub_diag in Hl. by injection Hl as ->.
  - destruct Hi as [->|[-> Hi]]; [by destruct He|]. eapply (IH (S k)); [exact Hs|done|]. replace (i - k)%nat with (S (i - S k)) in Hl by lia. exact Hl.
Qed.
Lemma find_var_inserted name v vars i : Forall (fun v => same_name (fv_name v) name = false) vars -> (i < length vars)%nat ->
  same_name (fv_name v) name = true -> find_var name (<[i := v]> vars) = Some i.
Proof.
  intros Hf Hi Hv. unfold find_var. apply fmap_Some. exists (i, v). split; [|done]. apply list_find_Some. split; [by rewrite list_lookup_insert_eq|].
  split; [done|]. intros j y Hj Hlt. rewrite list_lookup_insert_ne in Hj by lia. rewrite Forall_lookup in Hf. by rewrite (Hf _ _ Hj).
Qed.
Lemma find_var_other name v old vars i : vars !! i = Some old -> same_name (fv_name old) name = false -> same_name (fv_name v) name = false ->
  find_var name (<[i := v]> vars) = find_var name vars.
Proof.
  unfold find_var. intros Hi Ho Hv. f_equal. revert i Hi. induction vars as [|w vars IH]; intros [|i] Hi; [done|done| |]; cbn [insert list_insert list_find].
  - injection Hi as ->. by rewrite !decide_False by congruence.
  - destruct (decide (same_name (fv_name w) name = true)); [done|]. f_equal. by apply IH.
Qed.
Lemma same_name_take name n : same_name (take 16 name) n = same_name name n.
Proof. unfold same_name. change (Z.to_nat FINSH_NAME_MAX) with 16%nat. by rewrite take_take. Qed.
(** A declared variable is found under its name in the entry it was put into, with its type,
    and every other name is found where it was, if free entries have no name. *)
Theorem finsh_var_insert_lookup name type (d : finsh_data) i : insert_scan name (fd_vars d) 0 None = Some (Some i) ->
  Forall (fun v => fv_type v = finsh_type_unknown -> fv_name v = []) (fd_vars d) ->
  exists d', finsh_var_insert name type d = Some (Z.of_nat i, d') /\ finsh_var_lookup name d' = Some (Some (var_at i), d') /\
    fv_type <$> fd_vars d' !! i = Some type /\
    forall other, same_name name other = false -> other <> [] ->
      fst <$> finsh_var_lookup other d' = fst <$> finsh_var_lookup other d.
Proof.
  intros Hi Hfree. destruct (insert_scan_free _ _ _ _ _ Hi) as [Hf [[=]|[_ Hr]]]. eexists. split.
  { unfold finsh_var_insert, mbind, M_bind, gets. rewrite Hi. reflexivity. }
  cbn [fd_vars set_fd_vars]. unfold finsh_var_lookup, mbind, M_bind, gets. cbn [fd_vars set_fd_vars]. change (Z.to_nat FINSH_NAME_MAX) with 16%nat. split; [|split].
  - rewrite find_var_inserted; [done|done|lia|]. cbn [fv_name]. rewrite same_name_take. by apply bool_decide_true.
  - by rewrite list_lookup_insert_eq by lia.
  - intros other Ho Hne. destruct (lookup_lt_is_Some_2 (fd_vars d) i ltac:(lia)) as [old E].
    rewrite (find_var_other other _ old); [done|done| |by cbn [fv_name]; rewrite same_name_take]. rewrite Forall_lookup in Hfree.
    assert (fv_type old = finsh_type_unknown) as Ht by (by eapply (insert_scan_unknown name _ 0 None); [exact Hi|done|rewrite Nat.sub_0_r]).
    rewrite (Hfree _ _ E Ht). apply bool_decide_false. change (Z.to_nat FINSH_NAME_MAX) with 16%nat. by destruct other.
Qed.
End finsh_session.
