(* ===== verification/Demo.v ===== *)
(** A concrete kernel: a configuration, the state after reset, and a state with two
    threads, used to instantiate the theorems. *)
From S2P Require Import Prelude RtList Kservice Kernel Scheduler Object TimerCore Invariant Thread Timer TimerCheck Clock Ipc.

#[global] Instance demo_config : Config := {|
  RT_THREAD_PRIORITY_MAX := 32;
  RT_TIMER_SKIP_LIST_LEVEL := 2;
  RT_TIMER_SKIP_LIST_MASK := 3;
  RT_USING_TIMER_SOFT := true;
  RT_TIMER_THREAD_PRIO := 4;
  RT_TICK_PER_SECOND := 100;
  RT_NAME_MAX := 8;
  RT_ALIGN_SIZE := 4;
  loop_fuel := 100;
  prio_max_range := ltac:(lia);
  skip_level_pos := ltac:(lia);
  loop_fuel_pos := ltac:(lia)
|}.
(** An allocator that never frees. *)
#[global] Instance demo_heap : KHeap := {|
  heap := Z;
  heap_malloc h n := (Some h, h + n);
  heap_free h a := h
|}.
#[global] Instance demo_sizes : ObjectSizes := fun _ => 64.
#[global] Instance demo_threads : StaticThreads := {|
  timer_thread := 1000; timer_thread_stack := 2000; timer_thread_stack_size := 512; timer_thread_entry := 3000;
  timer_name := []; idle := 4000; idle_stack := 5000; idle_stack_size := 512; idle_entry := 6000; idle_name := []
|}.

(** Every node alone in its ring, every thread initialised and not started, every
    timer stopped: a thread's timer calls rt_thread_timeout, a timer object calls an
    application function after three ticks, periodically when its address is even. *)
Definition blank_thread (t : Z) : rt_thread :=
  mk_thread 0 0 0 0 0 RT_THREAD_INIT 0 (if t =? 1 then 10 else 20) 0 0 0 0 0 5 5 None 0.
Definition blank_timer (tm : timer_id) : rt_timer :=
  match tm with TThread t => mk_timer TF_rt_thread_timeout t 0 0 | TObj a => mk_timer (TF_user a) 0 3 0 end.
Definition blank_object (o : oid) : rt_object :=
  mk_object [] 0 (match o with OTimer (TObj a) => if Z.even a then RT_TIMER_FLAG_PERIODIC else 0 | _ => 0 end).
Definition blank : kcore :=
  mk_kcore (mk_links (fun n => n) (fun n => n)) blank_object blank_thread blank_timer 0 0 0 None 0 0 (fun _ => 0) 0 (10000 : heap) [].
Definition blank_lists : lnode -> option (list lnode) := fun _ => Some [].

Lemma blank_rep : rep (k_links blank) blank_lists.
Proof.
  split.
  - intros h xs [= <-]. split; [done|]. apply NoDup_singleton.
  - intros h1 h2 xs1 xs2 x [= <-] [= <-] H1%list_elem_of_singleton H2%list_elem_of_singleton. by subst.
Qed.
Lemma blank_kinv : kinv blank blank_lists.
Proof.
  assert (forall s, ~ live (thread_stat blank) s) as Hl by (intros s [H|H]; done).
  split; [|split; try done| |]; try (intros t Ht; by destruct (Hl t)).
  - split; [exact blank_rep| |done|].
    + intros p _. exists []. split; [done|]. intros t. split; [intros H; by apply elem_of_nil in H|by intros [H _]].
    + split; try done.
      * intros p _. cbn. rewrite Z.bits_0. split; [done|]. by intros (t & H & _).
      * by intros p (t & H & _).
  - intros h xs x [= <-] H. by apply elem_of_nil in H.
  - intros h xs t _ [= <-] H. by apply elem_of_nil in H.
  - intros soft lvl xs tm [= <-] H. by apply elem_of_nil in H.
  - intros soft lvl xs tm [= <-] H. by apply elem_of_nil in H.
  - intros soft lvl xs t [= <-] H. by apply elem_of_nil in H.
Qed.
Lemma blank_fresh t : thread_fresh blank blank_lists t.
Proof. split; try done. unfold blank; ksimpl. unfold blank_thread. cbn. case_match; lia. Qed.

(** Thread 2 at priority 20 and thread 1 at priority 10 are started, then the
    scheduler runs: thread 1 is the current thread. *)
Definition boot : M kcore unit :=
  _ ← rt_thread_startup 2; _ ← rt_thread_startup 1; rt_schedule.
Definition demo : kcore := match boot blank with Some (_, c) => c | None => blank end.

(** The lists and the flags are as at reset, but for the two threads. *)
Record demo_lists (c : kcore) (L : lnode -> option (list lnode)) : Prop := {
  dl_inv : kinv c L;
  dl_empty : forall h, (forall p, h <> LReady p) -> (forall t, h <> LTlist t) -> L h = Some [];
  dl_objs : k_objs c = blank_object;
  dl_timers : k_timers c = blank_timer
}.
Lemma started c L t Q :
  demo_lists c L -> thread_fresh c L t -> k_current_thread c = None ->
  (forall c' L', demo_lists c' L' -> thread_stat c' t = RT_THREAD_READY ->
     th_current_priority (k_threads c' t) = th_init_priority (k_threads c t) ->
     (forall u, u <> t -> k_threads c' u = k_threads c u) -> (forall u, u <> t -> L (LTlist u) = Some [] -> L' (LTlist u) = Some []) ->
     k_current_thread c' = None -> k_lock_nest c' = k_lock_nest c -> k_interrupt_nest c' = k_interrupt_nest c ->
     k_rt_tick c' = k_rt_tick c -> Q RT_EOK c') ->
  wp (rt_thread_startup t) Q c.
Proof.
  intros [D1 D2 D3 D4] Hf Hc HQ. eapply wp_thread_startup; [exact D1|exact Hf|].
  intros c1 L' c' Hs Ho Hp Hl Hcur HL (E1 & E2 & E3 & E4) Hk Hr Hm. rewrite Hc in Hm. subst c1. apply (HQ c' L').
  - split; [exact Hk| |congruence|congruence]. intros h H1 H2. by rewrite HL, D2.
  - exact Hs.
  - exact Hp.
  - exact Ho.
  - intros u Hu Hn. rewrite HL by congruence. by rewrite Hn.
  - congruence.
  - done.
  - done.
  - done.
Qed.

Record demo_state (c : kcore) (L : lnode -> option (list lnode)) : Prop := {
  ds_lists : demo_lists c L;
  ds_caller : caller c 1;
  ds_other : thread_stat c 2 = RT_THREAD_READY;
  ds_rest : forall u, u <> 1 -> u <> 2 -> k_threads c u = blank_thread u;
  ds_node : forall u, u <> 1 -> u <> 2 -> L (LTlist u) = Some [];
  ds_tick : k_rt_tick c = 0
}.
Lemma boot_state : wp boot (fun _ c => exists L, demo_state c L) blank.
Proof.
  unfold boot. wp1. eapply started; [by split; [exact blank_kinv|..]|apply blank_fresh|done|].
  intros c1 L1 D1 S1 P1 O1 N1 C1 K1 I1 T1. wp1. eapply started; [exact D1| |exact C1|].
  { destruct D1 as [A1 A2 A3 A4]. split; [unfold thread_stat; by rewrite O1|rewrite O1 by done; cbn; lia|by apply N1| | |].
    - intros l Hl. by apply A2.
    - unfold thread_timer_ok. by rewrite A3, A4.
    - unfold timer_activated. by rewrite A3. }
  intros c2 L2 D2 S2 P2 O2 N2 C2 K2 I2 T2.
  assert (thread_stat c2 2 = RT_THREAD_READY) as S2' by (unfold thread_stat; by rewrite O2).
  eapply wp_schedule_kinv; [exact (dl_inv _ _ D2)|by exists 1|]. intros c3 (cur & prio & sw & ->) Hk Hn _.
  destruct (Hn ltac:(by rewrite K2, K1)) as (n & E & Hr & Hmin & _). exists L2.
  assert (n = 1) as ->.
  { destruct (decide (n = 1)) as [|Hne]; [done|]. exfalso. specialize (Hmin 1 S2). rewrite P2, O1 in Hmin by done.
    destruct (decide (n = 2)) as [->|Hne2].
    - rewrite O2, P1 in Hmin by done. cbn in Hmin. lia.
    - unfold thread_stat in Hr. rewrite O2, O1 in Hr by done. done. }
  split.
  - destruct D2 as [A1 A2 A3 A4]. by split.
  - split; [exact E|exact S2|ksimpl; by rewrite I2, I1|ksimpl; by rewrite K2, K1|]. by exists 2.
  - exact S2'.
  - intros u H1 H2. ksimpl. by rewrite O2, O1.
  - intros u H1 H2. apply N2; [done|]. by apply N1.
  - ksimpl. by rewrite T2, T1.
Qed.
Lemma demo_ok : exists L, demo_state demo L.
Proof. destruct (proj1 (wp_run _ _ _) boot_state) as (u & c & E & H). unfold demo. by rewrite E. Qed.

(** The whole kernel: thread 1 runs, every IPC object is new. *)
Definition new_mailbox : rt_mailbox := mk_mb (Some 7000) (fun _ => 0) 2 0 0 0.
Definition new_mq : rt_messagequeue :=
  mk_mq (Some 7100) 8 2 0 None None (Some 1) (<[1 := Some 0]> (fun _ => None)) (fun _ => replicate 8 0).
Definition new_mempool : rt_mempool := mk_mp (Some 8000) 24 8 8000 2 2 0.
(** Object 1 of each kind; semaphore 2 holds a unit. *)
Definition kernel (c : kcore) : kstate :=
  mk_kstate c (fun s => mk_sem (if s =? 2 then 1 else 0)) (fun _ => mk_mutex 1 0 0 None) (fun _ => mk_event 0)
    (fun _ => new_mailbox) (fun _ => new_mq) (fun _ => new_mempool)
    (<[8000 := 8012]> (<[8012 := 0]> (fun _ => 0))).

Lemma demo_short c L : demo_lists c L -> lists_short L.
Proof. intros D soft xs. rewrite (dl_empty _ _ D) by done. intros [= <-]. cbn. lia. Qed.
Lemma demo_runnable c L : demo_state c L -> exists u, thread_stat c u = RT_THREAD_READY.
Proof. intros D. exists 2. apply D. Qed.
Lemma demo_wait c L h : demo_lists c L -> wait_head h -> L h = Some (LTlist <$> []).
Proof. intros D Hh. apply (dl_empty _ _ D); by destruct h. Qed.
Lemma demo_flag c L o : demo_lists c L -> (forall tm, o <> OTimer tm) -> ob_flag (k_objs c o) = RT_IPC_FLAG_FIFO.
Proof. intros D Ho. rewrite (dl_objs _ _ D). destruct o; try done. by destruct (Ho tm). Qed.
