(* ===== verification/Witnesses.v ===== *)
(** The theorems at concrete inputs: each hypothesis holds for the kernel of Demo.v,
    and the conclusion tells what happens there. *)
From Stdlib Require Import Sorted.
From S2P Require Import Prelude RtList Kservice Kernel Scheduler Object TimerCore Invariant Thread Timer TimerCheck.
From S2P Require Import Clock Ipc Timed System Semaphore Mutex Event Mailbox MessageQueue Mempool RingBuffer Demo.

(** ** Support *)
Lemma demo_sem L s v : demo_state demo L -> v = sem_value (k_sems (kernel demo) s) -> sem_rep (kernel demo) L s v [].
Proof.
  intros D ->. split; [apply D|done| |by apply (demo_wait demo L); [apply D|]|done].
  cbn. case_match; lia.
Qed.
Lemma demo_mutex L m : demo_state demo L -> mutex_rep (kernel demo) L m None [].
Proof. intros D. split; [apply D|done|by apply (demo_wait demo L); [apply D|]|done]. Qed.
Lemma demo_event L e : demo_state demo L -> event_rep (kernel demo) L e 0 [].
Proof. intros D. split; [apply D|done|lia|]. by apply (demo_wait demo L); [apply D|]. Qed.
Lemma demo_mailbox L m : demo_state demo L -> mb_rep (kernel demo) L m [] [] [].
Proof.
  intros D. split; [apply D| |by apply (demo_wait demo L); [apply D|]|by apply (demo_wait demo L); [apply D|]].
  split; try done; cbn; lia.
Qed.
Lemma demo_mq L q : demo_state demo L -> mq_rep (kernel demo) L q [] [].
Proof.
  intros D. split; [apply D| |by apply (demo_wait demo L); [apply D|]]. exists [1; 0], []. split; [|done].
  split; cbn; try done; try lia. apply Permutation_swap.
Qed.
Lemma demo_mempool L p : demo_state demo L -> mp_rep (kernel demo) L p [8000; 8012] [] [].
Proof.
  intros D. split; try done; [apply D| | |by apply (demo_wait demo L); [apply D|]].
  - by intros b Hb%elem_of_nil.
  - apply (bool_decide_unpack _). by vm_compute.
Qed.
Lemma demo_ipc_flag L o : demo_state demo L -> (forall tm, o <> OTimer tm) -> ob_flag (k_objs demo o) = RT_IPC_FLAG_FIFO.
Proof. intros D. apply (demo_flag demo L). apply D. Qed.

Lemma bytes_ok s : forallb (fun c => (0 <=? c) && (c <? 256)) s = true -> is_bytes s.
Proof.
  intros H. apply Forall_forall. intros c Hc. rewrite forallb_forall in H. specialize (H c).
  rewrite list_elem_of_In in Hc. specialize (H Hc). lia.
Qed.

(** ** Data structures and services *)
Lemma rt_list_refines_witness :
  rt_list_isempty (rt_list_remove (rt_list_insert_after (k_links blank) (LReady 0) (LTlist 1)) (LTlist 1)) (LReady 0) = true.
Proof.
  assert (rep (rt_list_insert_after (k_links blank) (LReady 0) (LTlist 1)) (<[LReady 0 := Some [LTlist 1]]> (<[LTlist 1 := None]> blank_lists))) as H.
  { apply rep_insert_front; [exact blank_rep|done| |done]. split; [by right|]. intros h xs [= <-]. by apply not_elem_of_nil. }
  assert (free_node (<[LReady 0 := Some [LTlist 1]]> (<[LTlist 1 := None]> blank_lists)) (LTlist 2)) as Hf.
  { split; [by right|]. intros h xs. rewrite !upd_case. repeat case_decide; intros [= <-]; [|by apply not_elem_of_nil].
    by intros [?|?%elem_of_nil]%elem_of_cons. }
  destruct (rt_list_refines _ _ (LReady 0) [LTlist 1] (LTlist 2) (LTlist 1) H) as (_ & _ & _ & _ & _ & E);
    [by rewrite upd_eq|exact Hf|done|by left|]. rewrite E. by apply bool_decide_eq_true.
Defined.
Lemma rt_ffs_lowest_bit_witness : Z.testbit 40 (__rt_ffs 40 - 1) = true.
Proof. destruct (rt_ffs_lowest_bit 40) as [[E _]|(_ & _ & E & _)]; [lia|discriminate E|exact E]. Defined.
Lemma rt_strncmp_strncpy_names_witness : rt_strncmp [116; 49; 0; 5] [116; 49] 4 = 0.
Proof.
  destruct (rt_strncmp_strncpy_names [116; 49; 0; 5] [116; 49] 4) as [E _]; [by apply bytes_ok..|]. by apply E.
Defined.
Lemma rt_object_init_find_witness :
  exists c1 c2, rt_object_init (OSem 1) RT_Object_Class_Semaphore [115; 49] demo = Some (tt, c1) /\
    rt_object_find (Some [115; 49]) 1 c1 = Some (Some (OSem 1), c2).
Proof.
  destruct demo_ok as [L D].
  destruct (rt_object_init_find _ demo L (OSem 1) RT_Object_Class_Semaphore [115; 49] [] (ki_ready _ _ (dl_inv _ _ (ds_lists _ _ D))))
    as (c1 & L1 & c2 & E1 & _ & _ & E2 & _).
  - exists 2. exact (ds_other _ _ D).
  - by apply (dl_empty _ _ (ds_lists _ _ D)).
  - split; [right; by apply (dl_empty _ _ (ds_lists _ _ D))|]. intros h xs HL Hin.
    pose proof (lo_typed _ _ _ (ki_lists _ _ (dl_inv _ _ (ds_lists _ _ D))) h xs _ HL Hin) as Hn.
    destruct h; try done. rewrite (dl_empty _ _ (ds_lists _ _ D)) in HL by done. injection HL as <-. by apply elem_of_nil in Hin.
  - cbn. lia.
  - exact (ca_nest _ _ (ds_caller _ _ D)).
  - rewrite (ca_lock _ _ (ds_caller _ _ D)). lia.
  - done.
  - by apply bytes_ok.
  - by exists c1, c2.
Defined.

(** ** Threads *)
Lemma rt_schedule_runs_highest_witness : exists c' t, rt_schedule demo = Some (tt, c') /\ k_current_thread c' = Some t.
Proof.
  destruct demo_ok as [L D].
  destruct (rt_schedule_runs_highest demo L (dl_inv _ _ (ds_lists _ _ D))) as (c' & E & _ & _ & _ & H).
  - intros _. exists 2. exact (ds_other _ _ D).
  - destruct (H (ca_lock _ _ (ds_caller _ _ D))) as (t & Ht & _). exists c', t. exact (conj E Ht).
Defined.
Lemma rt_thread_suspend_spec_witness : exists c', rt_thread_suspend 2 demo = Some (RT_EOK, c') /\ thread_stat c' 2 = RT_THREAD_SUSPEND.
Proof.
  destruct demo_ok as [L D].
  destruct (rt_thread_suspend_spec demo L 2 (dl_inv _ _ (ds_lists _ _ D))) as [[H _]|(_ & c' & E & _ & E2 & _)].
  - by destruct (H (ds_other _ _ D)).
  - exists c'. split; [exact E|]. unfold thread_stat. by rewrite E2.
Defined.
Lemma rt_thread_resume_spec_witness :
  exists c1 c2, rt_thread_suspend 2 demo = Some (RT_EOK, c1) /\ rt_thread_resume 2 c1 = Some (RT_EOK, c2) /\
    thread_stat c2 2 = RT_THREAD_READY.
Proof.
  destruct demo_ok as [L D].
  assert (wp (rt_thread_suspend 2) (fun r c1 => r = RT_EOK /\ thread_stat c1 2 = RT_THREAD_SUSPEND /\ kinv c1 (unlink L (LTlist 2))) demo) as Hw.
  { eapply wp_thread_suspend; [exact (dl_inv _ _ (ds_lists _ _ D))|intros H; by destruct (H (ds_other _ _ D))|].
    intros _ lk g tb c1 Hk. split; [done|]. split; [by unfold c1; rewrite thread_stat_with_sched, upd_eq|exact Hk]. }
  apply wp_run in Hw as (r & c1 & E1 & -> & Hs & Hk).
  destruct (rt_thread_resume_spec c1 (unlink L (LTlist 2)) 2 Hk) as [[H _]|(_ & c2 & L2 & ts & E2 & _ & E3 & _)]; [done|].
  exists c1, c2. split; [exact E1|]. split; [exact E2|]. unfold thread_stat. by rewrite E3.
Defined.
Lemma rt_thread_yield_round_robin_witness : exists c', rt_thread_yield demo = Some (RT_EOK, c').
Proof.
  destruct demo_ok as [L D]. pose proof (ca_ready _ _ (ds_caller _ _ D)) as Hr.
  destruct (kinv_queue demo L 1 (dl_inv _ _ (ds_lists _ _ D)) (or_introl Hr)) as (ts & HL & Hts).
  destruct (list_elem_of_split ts 1 (proj2 Hts Hr)) as (us & vs & ->).
  destruct (rt_thread_yield_round_robin demo L 1 us vs (dl_inv _ _ (ds_lists _ _ D)) (ca_current _ _ (ds_caller _ _ D)) Hr HL) as (c' & E & _).
  exists c'. exact E.
Defined.
Lemma rt_thread_change_priority_spec_witness :
  exists c', rt_thread_control 2 RT_THREAD_CTRL_CHANGE_PRIORITY 3 demo = Some (RT_EOK, c') /\ th_current_priority (k_threads c' 2) = 3.
Proof.
  destruct demo_ok as [L D].
  destruct (rt_thread_change_priority_spec demo L 2 3 (dl_inv _ _ (ds_lists _ _ D))) as (c' & L' & E & _ & E2 & _); [cbn; lia|].
  exists c'. split; [exact E|]. rewrite E2. apply new_priority_fields.
Defined.
Lemma demo_fresh L : demo_state demo L -> thread_fresh demo L 3.
Proof.
  intros D. pose proof (ds_rest _ _ D 3) as E. specialize (E ltac:(done) ltac:(done)). destruct (ds_lists _ _ D) as [A1 A2 A3 A4].
  split; [unfold thread_stat; by rewrite E|rewrite E; cbn; lia|by apply (ds_node _ _ D)|intros l Hl; by apply A2| |].
  - unfold thread_timer_ok. by rewrite A3, A4.
  - unfold timer_activated. by rewrite A3.
Qed.
Lemma rt_thread_startup_spec_witness : exists c', rt_thread_startup 3 demo = Some (RT_EOK, c') /\ thread_stat c' 3 = RT_THREAD_READY.
Proof.
  destruct demo_ok as [L D].
  destruct (rt_thread_startup_spec demo L 3 (dl_inv _ _ (ds_lists _ _ D)) (demo_fresh L D)) as (c' & L' & E & _ & E2 & _).
  exists c'. exact (conj E E2).
Defined.

(** ** Timers *)
Lemma demo_rows c L a : demo_state c L -> rows_on L (TObj a).
Proof. intros D l Hl. left. by apply (dl_empty _ _ (ds_lists _ _ D)). Qed.
Lemma demo_inactive c L a : demo_state c L -> timer_activated c (TObj a) = false.
Proof. intros D. unfold timer_activated. rewrite (dl_objs _ _ (ds_lists _ _ D)). cbn. by destruct (Z.even a). Qed.
Lemma demo_hard c L a : demo_state c L -> has_flag c (TObj a) RT_TIMER_FLAG_SOFT_TIMER = false.
Proof. intros D. unfold has_flag. rewrite (dl_objs _ _ (ds_lists _ _ D)). cbn. by destruct (Z.even a). Qed.
Lemma rt_timer_start_sorted_witness :
  exists c', rt_timer_start (TObj 4) demo = Some (RT_EOK, c') /\ timer_activated c' (TObj 4) = true /\ ticks_left c' (TObj 4) = 3.
Proof.
  destruct demo_ok as [L D]. pose proof (dl_timers _ _ (ds_lists _ _ D)) as Et.
  destruct (rt_timer_start_sorted demo L (TObj 4) [] (dl_inv _ _ (ds_lists _ _ D)) (demo_short _ _ (ds_lists _ _ D)) (demo_rows demo L 4 D)
    (demo_hard demo L 4 D)) as (c' & L' & a & b & E & _ & _ & _ & E1 & E2 & _).
  - done.
  - rewrite Et. change (RT_TICK_MAX / 2) with 2147483647. cbn. lia.
  - by apply (demo_inactive demo L).
  - by apply (dl_empty _ _ (ds_lists _ _ D)).
  - constructor.
  - intros x Hx. by apply elem_of_nil in Hx.
  - exists c'. rewrite Et in E2. exact (conj E (conj E1 E2)).
Defined.
Lemma rt_timer_stop_spec_witness : rt_timer_stop (TObj 4) demo = Some (- RT_ERROR, demo).
Proof.
  destruct demo_ok as [L D].
  destruct (rt_timer_stop_spec demo L (TObj 4) (dl_inv _ _ (ds_lists _ _ D)) (fun _ => demo_rows demo L 4 D)) as [[_ E]|[E _]]; [exact E|].
  by rewrite (demo_inactive demo L) in E.
Defined.

(** The periodic timer 4 runs alone on the hard list. *)
Definition tick_only (c : kcore) : kcore := set_k_rt_tick (uint32 (k_rt_tick c + 1)) c.
Lemma demo_timed c0 L : demo_state c0 L ->
  wp (rt_timer_start (TObj 4)) (fun r c => r = RT_EOK /\ exists L', checking c L' [TObj 4] /\ ticks_left c (TObj 4) = 3 /\
    periodic c (TObj 4) = true /\ tm_init_tick (k_timers c (TObj 4)) = 3 /\ k_current_thread c = Some 1 /\ thread_stat c 1 = RT_THREAD_READY) c0.
Proof.
  intros D. pose proof (dl_timers _ _ (ds_lists _ _ D)) as Et. pose proof (dl_objs _ _ (ds_lists _ _ D)) as Eo.
  eapply (wp_timer_start_sorted c0 L (TObj 4) []); [exact (dl_inv _ _ (ds_lists _ _ D))|exact (demo_short _ _ (ds_lists _ _ D))|
    exact (demo_rows c0 L 4 D)|exact (demo_hard c0 L 4 D)|done| |exact (demo_inactive c0 L 4 D)| |constructor| |].
  - rewrite Et. change (RT_TICK_MAX / 2) with 2147483647. cbn. lia.
  - by apply (dl_empty _ _ (ds_lists _ _ D)).
  - intros x Hx. by apply elem_of_nil in Hx.
  - intros A B k lk a b El Hk Hrows c' L' Hk' HL' Hleft _ _ Hs Hw.
    assert (a = [] /\ b = []) as [-> ->] by (by destruct a, b). split; [done|]. exists L'.
    assert (lists_short L') as Hsh.
    { intros soft xs E. destruct soft; [|rewrite HL' in E; injection E as <-; cbn; lia].
      unfold L' in E. cbn in E. rewrite decide_False in E by naive_solver. by apply (demo_short _ _ (ds_lists _ _ D)) in E. }
    rewrite Et in Hleft.
    split; [|split; [exact Hleft|split; [|split; [|split]]]].
    + split; [exact Hk'|exact Hsh|exact HL'|exact Hs|exact Hw|]. intros x ->%list_elem_of_singleton. split; [exists 4; unfold c', activated_core, armed; ksimpl; by rewrite upd_eq, Et|].
      unfold periodic, has_flag, c', activated_core, armed; ksimpl. rewrite !upd_eq, Eo, Et. cbn. split; [done|]. intros _.
      change (RT_TICK_MAX / 2) with 2147483647. lia.
    + unfold periodic, has_flag, c', activated_core; ksimpl. rewrite upd_eq. unfold armed; ksimpl. by rewrite Eo.
    + unfold c', activated_core, armed; ksimpl. by rewrite upd_eq, Et.
    + unfold c', activated_core, armed; ksimpl. exact (ca_current _ _ (ds_caller _ _ D)).
    + unfold c', activated_core, armed, thread_stat; ksimpl. exact (ca_ready _ _ (ds_caller _ _ D)).
Qed.
Lemma tick_only_checking c L tms n :
  checking c L tms -> (forall x, x ∈ tms -> ticks_left c x = n) -> 0 < n ->
  checking (tick_only c) L tms /\ forall x, x ∈ tms -> ticks_left (tick_only c) x = n - 1.
Proof.
  intros H Hn Hp. split; [apply checking_tick; [done|]|]; intros x Hx; specialize (Hn x Hx).
  - unfold due. lia.
  - pose proof (ck_window _ _ _ H x Hx). unfold tick_only. rewrite ticks_left_tick; lia.
Qed.
Definition no_timeout (f a : Z) : M kcore unit := mret tt.

Lemma rt_timer_check_fires_due_witness :
  exists c c', rt_timer_start (TObj 4) demo = Some (RT_EOK, c) /\
    rt_timer_check no_timeout 2 (tick_only (tick_only (tick_only c))) = Some (tt, c') /\ ticks_left c' (TObj 4) = 3.
Proof.
  destruct demo_ok as [L D]. pose proof (proj1 (wp_run _ _ _) (demo_timed demo L D)) as (r & c & E & -> & L' & Hc & Hl & Hp & Hi & _ & _).
  assert (forall x, x ∈ [TObj 4] -> ticks_left c x = 3) as H0 by (by intros x ->%list_elem_of_singleton).
  destruct (tick_only_checking c L' _ 3 Hc H0 ltac:(lia)) as [C1 H1].
  destruct (tick_only_checking _ L' _ _ C1 H1 ltac:(lia)) as [C2 H2].
  destruct (tick_only_checking _ L' _ _ C2 H2 ltac:(lia)) as [C3 H3].
  destruct (rt_timer_check_fires_due no_timeout (fun _ _ _ => eq_refl) _ L' [TObj 4] 2 C3 ltac:(cbn; lia)) as (c' & L2 & tms' & E2 & _ & Hch).
  exists c, c'. split; [exact E|]. split; [exact E2|].
  rewrite (ch_periodic _ _ _ _ Hch (TObj 4)); [exact Hi|by left| |exact Hp].
  unfold due. rewrite H3; [lia|by left].
Defined.

Lemma rt_tick_increase_step_witness :
  exists c c', rt_timer_start (TObj 4) demo = Some (RT_EOK, c) /\
    rt_tick_increase no_timeout 2 c = Some (tt, c') /\ k_rt_tick c' = uint32 (k_rt_tick c + 1).
Proof.
  destruct demo_ok as [L D]. pose proof (proj1 (wp_run _ _ _) (demo_timed demo L D)) as (r & c & E & -> & L' & Hc & Hl & Hp & Hi & H1 & H2).
  destruct (rt_tick_increase_step no_timeout (fun _ _ _ => eq_refl) c L' [TObj 4] 1 2 Hc) as (c' & L2 & tms' & E2 & _ & Ht & _).
  - intros x ->%list_elem_of_singleton. unfold due. rewrite Hl. lia.
  - exact H1.
  - exact H2.
  - cbn. lia.
  - exists c, c'. exact (conj E (conj E2 Ht)).
Defined.
Lemma rt_tick_from_millisecond_ceil_witness : rt_tick_from_millisecond 25 = 3.
Proof. pose proof (rt_tick_from_millisecond_ceil 25) as H. cbn in H. specialize (H ltac:(lia) ltac:(lia) ltac:(lia)). lia. Defined.

(** ** Waiting lists and the whole kernel *)
Lemma rt_ipc_list_suspend_prio_witness :
  exists c', rt_ipc_list_suspend (LSuspend (OSem 5)) 2 RT_IPC_FLAG_PRIO demo = Some (RT_EOK, c') /\ thread_stat c' 2 = RT_THREAD_SUSPEND.
Proof.
  destruct demo_ok as [L D].
  destruct (rt_ipc_list_suspend_prio demo L (LSuspend (OSem 5)) 2 [] (dl_inv _ _ (ds_lists _ _ D)) (ds_other _ _ D)) as (c' & L' & ws1 & ws2 & E & _ & E2 & _).
  - done.
  - by apply (dl_empty _ _ (ds_lists _ _ D)).
  - cbn. lia.
  - constructor.
  - exists c'. exact (conj E E2).
Defined.
Lemma demo_quiet L : demo_state demo L -> timed demo L [].
Proof.
  intros D. pose proof (dl_inv _ _ (ds_lists _ _ D)) as Hk. split; [exact Hk|by apply (dl_empty _ _ (ds_lists _ _ D))|constructor|..].
  - by intros x Hx%elem_of_nil.
  - by intros x Hx%elem_of_nil.
  - intros t Ht. unfold timer_activated in Ht. by rewrite (dl_objs _ _ (ds_lists _ _ D)) in Ht.
  - intros xs HL. by apply (demo_short _ _ (ds_lists _ _ D)) in HL.
Qed.
Lemma reachable_invariant_witness :
  exists c, rt_thread_suspend 2 demo = Some (RT_EOK, c) /\ exists L tms, timed c L tms /\ bitmap_exact c.
Proof.
  destruct demo_ok as [L D]. pose proof (dl_inv _ _ (ds_lists _ _ D)) as Hk. pose proof (demo_quiet L D) as H0.
  assert (wp (rt_thread_suspend 2) (fun r _ => r = RT_EOK) demo) as Hw.
  { eapply wp_thread_suspend; [exact Hk|intros H; by destruct (H (ds_other _ _ D))|]. done. }
  apply wp_run in Hw as (r & c & E & ->). exists c. split; [exact E|].
  destruct (reachable_invariant no_timeout (fun _ _ _ => eq_refl) demo L [] c H0) as (L' & tms & H1 & H2 & _); [|by exists L', tms].
  exists [C_suspend 2]. eapply (runs_cons no_timeout demo L [] (C_suspend 2) c); [exact H0|done| |constructor].
  cbn [run_call]. unfold discard. cbn. unfold mbind, M_bind. by rewrite E.
Defined.
(** Thread 1 sleeps for one tick. *)
Definition asleep : bool :=
  match rt_thread_sleep 1 demo with
  | Some (_, c) => bool_decide (k_current_thread c = Some 2) && (thread_stat c 2 =? RT_THREAD_READY) && (thread_stat c 1 =? RT_THREAD_SUSPEND)
  | None => false
  end.
Lemma asleep_true : asleep = true.
Proof. vm_compute. reflexivity. Qed.
Lemma asleep_current c : rt_thread_sleep 1 demo = Some (tt, c) ->
  k_current_thread c = Some 2 /\ thread_stat c 2 = RT_THREAD_READY /\ thread_stat c 1 = RT_THREAD_SUSPEND.
Proof.
  pose proof asleep_true as H. unfold asleep in H. intros E. rewrite E in H. clear E.
  apply andb_true_iff in H as [[H1%bool_decide_eq_true H2%Z.eqb_eq]%andb_true_iff H3%Z.eqb_eq]. auto.
Qed.
Lemma run_sleep t time c : run_call no_timeout (C_sleep t time) c = rt_thread_sleep time c.
Proof. done. Qed.
(** Then one tick passes. *)
Lemma sleep_then_tick c0 L : demo_state c0 L -> timed c0 L [] ->
  (forall c, rt_thread_sleep 1 c0 = Some (tt, c) -> k_current_thread c = Some 2 /\ thread_stat c 2 = RT_THREAD_READY) ->
  may_call (C_sleep 1 1) c0 L /\
  exists c1 L1 tms1 c2, rt_thread_sleep 1 c0 = Some (tt, c1) /\ timed c1 L1 tms1 /\ may_call C_tick c1 L1 /\ run_call no_timeout C_tick c1 = Some (tt, c2).
Proof.
  intros D H0 Hcur. assert (timers_short L) as Hsh by (intros xs HL; by apply (demo_short _ _ (ds_lists _ _ D)) in HL).
  assert (may_call (C_sleep 1 1) c0 L) as Hmay.
  { split; [exact (ds_caller _ _ D)|]. split; [exact Hsh|]. change (RT_TICK_MAX / 2) with 2147483647. lia. }
  split; [done|]. pose proof (wp_sleep_timed (fun _ => False) c0 L 1 1 [] H0 (ds_caller _ _ D) Hsh (proj2 (proj2 Hmay))) as Hw.
  apply wp_run in Hw as ([] & c1 & E & L1 & tms1 & H1 & _ & _ & Hsub). destruct (Hcur _ E) as [Hc1 Hc2].
  assert (length tms1 <= 1)%nat as Hlen.
  { pose proof (timed_NoDup _ _ _ H1) as Hnd. apply (submseteq_length tms1 [TThread 1]), NoDup_submseteq; [exact Hnd|].
    intros x Hx. destruct (Hsub x Hx) as [->|Hx']; [by left|]. by apply elem_of_nil in Hx'. }
  assert (may_call C_tick c1 L1) as Htick.
  { split; [|exists 2; exact (conj Hc1 Hc2)]. intros xs HL. rewrite (td_list _ _ _ H1) in HL. injection HL as <-. rewrite length_fmap.
    cbn. lia. }
  pose proof (call_kinv no_timeout (fun _ _ _ => eq_refl) C_tick c1 L1 tms1 H1 Htick) as ([] & c2 & E2 & _)%wp_run.
  by exists c1, L1, tms1, c2.
Qed.
Lemma wait_ends_in_time_witness :
  exists c1 c', rt_thread_sleep 1 demo = Some (tt, c1) /\ thread_stat c1 1 = RT_THREAD_SUSPEND /\
    run_call no_timeout C_tick c1 = Some (tt, c') /\ thread_stat c' 1 = RT_THREAD_READY.
Proof.
  destruct demo_ok as [L D]. pose proof (demo_quiet L D) as H0.
  destruct (sleep_then_tick demo L D H0) as (Hmay & c1 & L1 & tms1 & c2 & E & H1 & Htick & E2).
  { intros c E. destruct (asleep_current c E) as (A & B & _). exact (conj A B). }
  destruct (asleep_current c1 E) as (_ & _ & Hc). exists c1, c2. split; [exact E|]. split; [exact Hc|]. split; [exact E2|].
  rewrite <- (run_sleep 1) in E.
  destruct (wait_ends_in_time no_timeout (fun _ _ _ => eq_refl) demo L [] (C_sleep 1 1) 1 1 c1 [C_tick] c2 H0 Hmay) as (ys & zs & c' & El & Hr & Ht & Hs);
    [by left|lia|exact E| | |reflexivity|]; clear E.
  - eapply runs_cons; [exact H1|exact Htick|exact E2|constructor].
  - by intros [?|?%elem_of_nil]%elem_of_cons.
  - destruct ys as [|y ys].
    { inversion Hr; subst. pose proof (eq_trans (eq_sym Hs) Hc) as E0. discriminate E0. }
    cbn in El. injection El as <- El. symmetry in El. apply app_eq_nil in El as [-> ->].
    inversion Hr as [|? ? ? ? ? ? ? ? ? E3 Hr3]; subst. inversion Hr3; subst. rewrite E2 in E3. by injection E3 as <-.
Defined.
Lemma critical_section_locks_witness :
  exists c1, rt_enter_critical demo = Some (tt, c1) /\ rt_schedule c1 = Some (tt, c1).
Proof.
  destruct demo_ok as [L D].
  destruct (critical_section_locks demo L (dl_inv _ _ (ds_lists _ _ D))) as (c1 & c2 & E1 & _ & E2 & _).
  - rewrite (ca_lock _ _ (ds_caller _ _ D)). lia.
  - intros _. exact (demo_runnable _ _ D).
  - exists c1. exact (conj E1 E2).
Defined.

(** Thread 2 waits on the list [h]. *)
Definition park (h : lnode) : M kcore unit :=
  _ ← rt_thread_suspend 2; mod_links (fun l => rt_list_insert_after l h (LTlist 2)).
Record parked (c : kcore) (L : lnode -> option (list lnode)) (h : lnode) : Prop := {
  pk_inv : kinv c L;
  pk_list : L h = Some [LTlist 2];
  pk_ready : thread_stat c 1 = RT_THREAD_READY;
  pk_rows : rows_off L (TThread 2);
  pk_empty : forall g, g <> h -> (forall p, g <> LReady p) -> (forall t, g <> LTlist t) -> L g = Some []
}.
Lemma park_state c0 L0 h : demo_state c0 L0 -> wait_head h -> wp (park h) (fun _ c => exists L, parked c L h) c0.
Proof.
  intros D Hh. pose proof (dl_inv _ _ (ds_lists _ _ D)) as H. pose proof (ds_other _ _ D) as H2.
  pose proof (ca_ready _ _ (ds_caller _ _ D)) as Hc. unfold park. wp1.
  eapply wp_thread_suspend; [exact H|by rewrite H2|]. intros _ lk g tb c1 Hk1. wp1.
  set (L1 := unlink L0 (LTlist 2)) in *. assert (h <> LTlist 2) as Hne by (by destruct h).
  assert (free_node L1 (LTlist 2)) as Hf.
  { eapply unlink_free; [exact (kinv_rep _ _ H)|]. eapply kinv_on_list; [exact H|by left]. }
  assert (L1 h = Some (LTlist <$> [])) as HL1 by (unfold L1; rewrite unlink_ne, (demo_wait c0 L0 h (ds_lists _ _ D)) by done; done).
  assert (thread_stat c1 2 = RT_THREAD_SUSPEND) as Hs1 by (unfold c1; by rewrite thread_stat_with_sched, upd_eq).
  set (lk2 := rt_list_insert_after _ h (LTlist 2)).
  assert (kinv (set_k_links lk2 c1) (ins L1 (LTlist 2) h (LTlist <$> [2]))) as Hk2.
  { apply (kinv_wait c1 L1 h 2 []); try done; [by intros; rewrite elem_of_cons|].
    apply rep_insert_front; [exact (kinv_rep _ _ Hk1)|done|done|done]. }
  eexists. split; [exact Hk2|unfold ins; by rewrite upd_eq| | |].
  - change (thread_stat c1 1 = RT_THREAD_READY). unfold c1. rewrite thread_stat_with_sched, upd_ne by done. exact Hc.
  - apply (kinv_rows_off _ _ _ Hk2). unfold c1, with_sched, with_stat, timer_activated; ksimpl.
    by rewrite (dl_objs _ _ (ds_lists _ _ D)).
  - intros n Hg Hr Ht. unfold ins. rewrite upd_ne by congruence. unfold L1. rewrite upd_ne by (apply not_eq_sym, Ht).
    rewrite unlink_ne by apply Ht. by rewrite (dl_empty _ _ (ds_lists _ _ D)).
Qed.

(** ** Semaphores *)
Lemma rt_sem_take_refines_witness : exists k', rt_sem_take 2 0 (kernel demo) = Some (Returned RT_EOK, k').
Proof.
  destruct demo_ok as [L D].
  destruct (rt_sem_take_refines (kernel demo) L 2 1 [] 1 0 (demo_sem L 2 1 D eq_refl) (ds_caller _ _ D)) as (r & k' & L' & v' & ws' & E & Hs & _).
  - left. by apply (demo_ipc_flag L).
  - exact (demo_short _ _ (ds_lists _ _ D)).
  - cbn. lia.
  - done.
  - inversion Hs; subst. exists k'. exact E.
Defined.
Lemma rt_sem_release_refines_witness :
  exists c k', park (LSuspend (OSem 1)) demo = Some (tt, c) /\ rt_sem_release 1 (kernel c) = Some (RT_EOK, k') /\
    thread_stat (k_core k') 2 = RT_THREAD_READY.
Proof.
  destruct demo_ok as [L0 D]. pose proof (proj1 (wp_run _ _ _) (park_state demo L0 (LSuspend (OSem 1)) D I)) as ([] & c & E & L & [P1 P2 P3 P4 _]).
  destruct (rt_sem_release_refines (kernel c) L 1 0 [2]) as (k' & L' & v' & ws' & woken & E2 & Hs & _ & Hw).
  - split; [exact P1|done|lia|exact P2|lia].
  - intros _. by exists 1.
  - inversion Hs; subst. destruct Hw as [Hw _]. exists c, k'. exact (conj E (conj E2 Hw)).
Defined.
Lemma rt_sem_handoff_witness : exists k1 k2, rt_sem_take 1 50 (kernel demo) = Some (Waiting 1, k1) /\ rt_sem_release 1 k1 = Some (RT_EOK, k2).
Proof.
  destruct demo_ok as [L D].
  destruct (rt_sem_handoff (kernel demo) L 1 1 50 (demo_sem L 1 0 D eq_refl) (ds_caller _ _ D)) as (k1 & k2 & k3 & E1 & E2 & _).
  - left. by apply (demo_ipc_flag L).
  - exact (demo_short _ _ (ds_lists _ _ D)).
  - done.
  - done.
  - exists k1, k2. exact (conj E1 E2).
Defined.
Lemma rt_sem_reset_wakes_all_witness :
  exists c k', park (LSuspend (OSem 1)) demo = Some (tt, c) /\ rt_sem_control 1 RT_IPC_CMD_RESET 7 (kernel c) = Some (RT_EOK, k') /\
    thread_stat (k_core k') 2 = RT_THREAD_READY.
Proof.
  destruct demo_ok as [L0 D]. pose proof (proj1 (wp_run _ _ _) (park_state demo L0 (LSuspend (OSem 1)) D I)) as ([] & c & E & L & [P1 P2 P3 P4 _]).
  destruct (rt_sem_reset_wakes_all (kernel c) L 1 0 [2] 7) as (k' & L' & E2 & _ & Hw & _).
  - split; [exact P1|done|lia|exact P2|lia].
  - lia.
  - cbn. lia.
  - by exists 1.
  - exists c, k'. split; [exact E|]. split; [exact E2|]. apply Hw. by left.
Defined.
