(* ===== verification/WitnessesIpc.v ===== *)
(** The theorems on mutexes, events, mailboxes, message queues, memory pools and ring
    buffers at concrete inputs. *)
From S2P Require Import Prelude RtList Kservice Kernel Scheduler Object TimerCore Invariant Thread Timer TimerCheck.
From S2P Require Import Clock Ipc System Semaphore Mutex Event Mailbox MessageQueue Mempool RingBuffer Demo Witnesses.

(** ** Mutexes *)
Lemma rt_mutex_take_refines_witness : exists k', rt_mutex_take 1 0 (kernel demo) = Some (Returned RT_EOK, k').
Proof.
  destruct demo_ok as [L D].
  destruct (rt_mutex_take_refines (kernel demo) L 1 None [] 1 0 (demo_mutex L 1 D) (ds_caller _ _ D)) as (r & k' & L' & own' & ws' & E & Hs & _).
  - left. by apply (demo_ipc_flag L).
  - exact (demo_short _ _ (ds_lists _ _ D)).
  - cbn. lia.
  - done.
  - done.
  - inversion Hs; subst. exists k'. exact E.
Defined.
Lemma rt_mutex_release_refines_witness : exists k', rt_mutex_release 1 (kernel demo) = Some (- RT_ERROR, k').
Proof.
  destruct demo_ok as [L D].
  destruct (rt_mutex_release_refines (kernel demo) L 1 None [] 1 (demo_mutex L 1 D) (ds_caller _ _ D)) as (r & k' & L' & own' & ws' & E & Hs & _).
  inversion Hs; subst. exists k'. exact E.
Defined.

(** ** Events *)
(** Thread 2 waits for the events of 5 = 1 + 4 together and takes them; 1 and 8 are
    pending. *)
Definition asks (c : kcore) : kstate :=
  let th := set_th_event_info (RT_EVENT_FLAG_AND + RT_EVENT_FLAG_CLEAR) (set_th_event_set 5 (k_threads c 2)) in
  set_k_events (fun _ => mk_event 9) (kernel (set_k_threads (<[2 := th]> (k_threads c)) c)).
Lemma asks_rep c L : parked c L (LSuspend (OEvent 1)) -> event_rep (asks c) L 1 9 [2].
Proof.
  intros [P1 P2 P3 P4 _]. split; [|done|lia|exact P2].
  unfold asks. set (th := set_th_event_info _ _). set (c' := set_k_threads _ c).
  assert (forall u, k_threads c' u = if decide (u = 2) then th else k_threads c u) as Hu by (intros u; unfold c'; ksimpl; rewrite upd_case; repeat case_decide; by subst).
  eapply kinv_thread_frame; [exact P1|done..| |]; intros u; unfold thread_stat; change (k_core _) with c';
    rewrite Hu; case_decide; subst; by repeat split.
Qed.
Lemma rt_event_send_refines_witness :
  exists c k', park (LSuspend (OEvent 1)) demo = Some (tt, c) /\ rt_event_send 1 4 (asks c) = Some (RT_EOK, k') /\
    event_set (k_events k' 1) = 8 /\ thread_stat (k_core k') 2 = RT_THREAD_READY /\ th_event_set (k_threads (k_core k') 2) = 5.
Proof.
  destruct demo_ok as [L0 D]. pose proof (proj1 (wp_run _ _ _) (park_state demo L0 (LSuspend (OEvent 1)) D I)) as ([] & c & E & L & P).
  destruct (rt_event_send_refines (asks c) L 1 9 4 [2] (asks_rep c L P)) as [[H _]|(_ & k' & L' & set' & woken & rest & E2 & Hp & Hr & Hw & _)].
  - lia.
  - cbn. lia.
  - intros w [->|Hw%elem_of_nil]%elem_of_cons; [|done]. change (0 <= 5 < 2 ^ 32). lia.
  - exists 1. exact (pk_ready _ _ _ P).
  - done.
  - injection Hp as <- <- <-. specialize (Hw 2 5 ltac:(by left)).
    exists c, k'. split; [exact E|]. split; [exact E2|]. split; [exact (er_set _ _ _ _ _ Hr)|]. unfold thread_stat. by rewrite Hw.
Defined.
Lemma rt_event_recv_refines_witness :
  exists k', rt_event_recv 1 5 RT_EVENT_FLAG_AND 0 (kernel demo) = Some (Returned (- RT_ETIMEOUT, None), k').
Proof.
  destruct demo_ok as [L D].
  destruct (rt_event_recv_refines (kernel demo) L 1 0 [] 1 5 RT_EVENT_FLAG_AND 0 (demo_event L 1 D) (ds_caller _ _ D))
    as (r & k' & L' & set' & ws' & E & Hs & _).
  - left. by apply (demo_ipc_flag L).
  - exact (demo_short _ _ (ds_lists _ _ D)).
  - cbn. lia.
  - done.
  - done.
  - inversion Hs; subst; try done. exists k'. exact E.
Defined.

(** ** Mailboxes *)
Lemma rt_mb_send_wait_refines_witness : exists k', rt_mb_send_wait 1 77 0 (kernel demo) = Some (Returned RT_EOK, k').
Proof.
  destruct demo_ok as [L D].
  destruct (rt_mb_send_wait_refines (kernel demo) L 1 77 1 0 [] [] [] (demo_mailbox L 1 D)) as (r & k' & L' & msgs' & rs' & ss' & E & Hs & _).
  - left. by apply (demo_ipc_flag L).
  - exact (ca_current _ _ (ds_caller _ _ D)).
  - exact (demo_runnable _ _ D).
  - done.
  - inversion Hs; subst; try done. exists k'. exact E.
Defined.
Lemma rt_mb_recv_refines_witness : exists w k', rt_mb_recv 1 50 (kernel demo) = Some (Waiting w, k').
Proof.
  destruct demo_ok as [L D].
  destruct (rt_mb_recv_refines (kernel demo) L 1 1 50 [] [] [] (demo_mailbox L 1 D)) as (r & k' & L' & msgs' & rs' & ss' & E & Hs & _).
  - left. by apply (demo_ipc_flag L).
  - exact (ca_current _ _ (ds_caller _ _ D)).
  - exact (demo_runnable _ _ D).
  - intros _. split; [exact (ds_caller _ _ D)|]. split; [exact (demo_short _ _ (ds_lists _ _ D))|]. split; [cbn; lia|done].
  - inversion Hs; subst; try done. eexists _, k'. exact E.
Defined.

(** ** Message queues *)
Lemma rt_mq_send_refines_witness : exists k', rt_mq_send 1 [1; 2; 3] 3 (kernel demo) = Some (RT_EOK, k').
Proof.
  destruct demo_ok as [L D].
  destruct (rt_mq_send_refines (kernel demo) L 1 [1; 2; 3] [] [] (demo_mq L 1 D)) as (r & k' & E & [[H _]|[(_ & H & _)|(_ & _ & -> & _)]]).
  - done.
  - exact (demo_runnable _ _ D).
  - done.
  - done.
  - exists k'. exact E.
Defined.
Lemma rt_mq_urgent_refines_witness : exists k', rt_mq_urgent 1 [1; 2; 3; 4; 5; 6; 7; 8; 9] 9 (kernel demo) = Some (- RT_ERROR, k').
Proof.
  destruct demo_ok as [L D].
  destruct (rt_mq_urgent_refines (kernel demo) L 1 [1; 2; 3; 4; 5; 6; 7; 8; 9] [] [] (demo_mq L 1 D)) as (r & k' & E & [(_ & -> & _)|[[H _]|[H _]]]).
  - done.
  - exact (demo_runnable _ _ D).
  - exists k'. exact E.
  - by destruct H.
  - by destruct H.
Defined.
Lemma rt_mq_recv_refines_witness : exists k', rt_mq_recv 1 8 0 (kernel demo) = Some (Returned (- RT_ETIMEOUT, None), k').
Proof.
  destruct demo_ok as [L D].
  destruct (rt_mq_recv_refines (kernel demo) L 1 8 1 0 [] [] (demo_mq L 1 D)) as (r & k' & L' & msgs' & ws' & E & Hs & _).
  - done.
  - left. by apply (demo_ipc_flag L).
  - exact (ca_current _ _ (ds_caller _ _ D)).
  - done.
  - inversion Hs; subst; try done. exists k'. exact E.
Defined.
(** Two senders overlap: the second one links its message first. *)
Definition mq_two : rt_messagequeue := mq_init_lists new_mq.
Lemma mq_interleaving_witness :
  exists b, mq_runs (mq_two, []) [LNone; LNone; LNone; LNone; LPut false [8]; LPut true [9]] (b, []) /\
    exists bs, spec_runs [LNone; LNone; LNone; LNone; LPut false [8]; LPut true [9]] bs.
Proof.
  assert (exists b, mq_runs (mq_two, []) [LNone; LNone; LNone; LNone; LPut false [8]; LPut true [9]] (b, [])) as [b H].
  { epose proof (runs_snoc _ _ _ _ _ (runs_nil (mq_two, [])) ltac:(eapply (st_alloc mq_two [] false [8] 1); reflexivity)) as H1.
    epose proof (runs_snoc _ _ _ _ _ H1 ltac:(eapply (st_alloc _ _ true [9] 0); reflexivity)) as H2.
    epose proof (runs_snoc _ _ _ _ _ H2 ltac:(eapply (st_fill _ [USend 0 [9] false true] [] false [8] 1))) as H3.
    epose proof (runs_snoc _ _ _ _ _ H3 ltac:(eapply (st_fill _ [] [USend 1 [8] true false] true [9] 0))) as H4.
    epose proof (runs_snoc _ _ _ _ _ H4 ltac:(eapply (st_link _ [USend 0 [9] true true] [] false [8] 1))) as H5.
    epose proof (runs_snoc _ _ _ _ _ H5 ltac:(eapply (st_link _ [] [] true [9] 0))) as H6. eexists. exact H6. }
  destruct (mq_interleaving new_mq _ _ _ ltac:(cbn; lia) H) as (bs & _ & _ & Hs & _).
  exists b. split; [exact H|]. exists bs. exact Hs.
Defined.

(** ** Memory pools *)
Lemma rt_mp_alloc_refines_witness : exists k', rt_mp_alloc 1 0 (kernel demo) = Some (Returned (Some 8004), k').
Proof.
  destruct demo_ok as [L D].
  destruct (rt_mp_alloc_refines (kernel demo) L 1 [8000; 8012] [] [] 1 0 (demo_mempool L 1 D)) as (r & k' & L' & f' & u' & ws' & E & Hs & _).
  - done.
  - inversion Hs; subst; try done. exists k'. exact E.
Defined.
(** Both blocks of pool 1 are in use, and thread 2 waits for one. *)
Definition exhausted (c : kcore) : kstate :=
  let k := kernel c in
  set_k_mem (<[8000 := 1]> (<[8012 := 1]> (fun _ => 0)))
    (set_k_mps (fun _ => mk_mp (Some 8000) 24 8 0 2 0 1) k).
Lemma exhausted_rep c L : parked c L (LSuspend (OMemPool 1)) -> mp_rep (exhausted c) L 1 [] [8000; 8012] [2].
Proof.
  intros [P1 P2 P3 P4 _]. split; [exact P1|done| | |done|done|exact P2|done].
  - by intros b [->|[->|Hb%elem_of_nil]%elem_of_cons]%elem_of_cons.
  - apply (bool_decide_unpack _). by vm_compute.
Qed.
Lemma rt_mp_free_refines_witness :
  exists c k', park (LSuspend (OMemPool 1)) demo = Some (tt, c) /\ rt_mp_free 8004 (exhausted c) = Some (tt, k') /\
    thread_stat (k_core k') 2 = RT_THREAD_READY.
Proof.
  destruct demo_ok as [L0 D]. pose proof (proj1 (wp_run _ _ _) (park_state demo L0 (LSuspend (OMemPool 1)) D I)) as ([] & c & E & L & P).
  destruct (rt_mp_free_refines (exhausted c) L 1 [] [8000; 8012] [2] 8000 (exhausted_rep c L P)) as (k' & L' & E2 & _ & Hw & _).
  - by left.
  - exists c, k'. split; [exact E|]. split; [exact E2|]. unfold thread_stat. rewrite (Hw 2); [reflexivity|reflexivity].
Defined.
Lemma mp_init_blocks_chain_witness :
  exists k', mp_init_blocks 1 8000 (kernel demo) = Some (tt, k') /\ blocks (k_mem k') (mp_block_list (k_mps k' 1)) [8000; 8012].
Proof.
  destruct (mp_init_blocks_chain (kernel demo) 1 8000) as (k' & E & _ & Hb & _).
  - lia.
  - done.
  - done.
  - exists k'. exact (conj E Hb).
Defined.
Lemma rt_mp_timeout_breaks_free_witness :
  exists c k1, park (LSuspend (OMemPool 1)) demo = Some (tt, c) /\
    lift (rt_thread_timeout 2) (exhausted c) = Some (tt, k1) /\ rt_mp_free 8004 k1 = None.
Proof.
  destruct demo_ok as [L0 D]. pose proof (proj1 (wp_run _ _ _) (park_state demo L0 (LSuspend (OMemPool 1)) D I)) as ([] & c & E & L & P).
  destruct (rt_mp_timeout_breaks_free (exhausted c) L 1 [8000; 8012] 2 8000 (exhausted_rep c L P)) as (k1 & E2 & _ & _ & E3).
  - exact (pk_rows _ _ _ P).
  - by left.
  - exists c, k1. exact (conj E (conj E2 E3)).
Defined.

(** ** Ring buffers *)
(** A buffer of four bytes, empty, with both indices at [i]. *)
Definition rb_at (i : Z) : rt_ringbuffer := mk_rb (fun _ => 0) 0 i 0 i 4.
Lemma rb_at_ok : rb_ok (rb_at 3).
Proof. split; vm_compute; intuition discriminate. Qed.
(** With three bytes in it, across the end of the array. *)
Definition rb_three : rt_ringbuffer := mk_rb (<[3 := 7]> (<[0 := 8]> (<[1 := 9]> (fun _ => 0)))) 0 3 1 2 4.
Lemma rb_three_ok : rb_ok rb_three.
Proof. split; vm_compute; intuition discriminate. Qed.
Definition rb_full : rt_ringbuffer := mk_rb (<[3 := 7]> (<[0 := 8]> (<[1 := 9]> (<[2 := 10]> (fun _ => 0))))) 0 3 1 3 4.
Lemma rb_full_ok : rb_ok rb_full.
Proof. split; vm_compute; intuition discriminate. Qed.
Lemma rt_ringbuffer_put_fifo_witness : fst (rt_ringbuffer_put [1; 2; 3] 3 (rb_at 3)) = 3.
Proof.
  pose proof (rt_ringbuffer_put_fifo (rb_at 3) [1; 2; 3] 3 rb_at_ok ltac:(lia) ltac:(cbn; lia)) as H. cbn zeta in H.
  destruct (rt_ringbuffer_put [1; 2; 3] 3 (rb_at 3)) as [r rb']. exact (proj1 H).
Defined.
Lemma rt_ringbuffer_get_fifo_witness : fst (rt_ringbuffer_get 2 rb_three) = (2, [7; 8]).
Proof.
  pose proof (rt_ringbuffer_get_fifo rb_three 2 rb_three_ok ltac:(lia)) as H. cbn zeta in H.
  destruct (rt_ringbuffer_get 2 rb_three) as [[r bytes] rb']. destruct H as (-> & -> & _). reflexivity.
Defined.
Lemma rt_ringbuffer_put_force_full_witness : rb_contents (snd (rt_ringbuffer_put_force [1; 2] 2 rb_full)) = [9; 10; 1; 2].
Proof.
  pose proof (rt_ringbuffer_put_force_full rb_full [1; 2] 2 rb_full_ok eq_refl ltac:(lia) ltac:(cbn; lia)) as H. cbn zeta in H.
  destruct (rt_ringbuffer_put_force [1; 2] 2 rb_full) as [r rb']. destruct H as (_ & _ & H). cbn [snd]. rewrite H. reflexivity.
Defined.
Lemma rt_ringbuffer_put_force_overtakes_witness :
  rb_len rb_three = 3 /\ rt_ringbuffer_data_len (snd (rt_ringbuffer_put_force [1; 2; 3] 3 rb_three)) = 2.
Proof. split; [reflexivity|]. apply (rt_ringbuffer_put_force_overtakes rb_three [1; 2; 3] 3 rb_three_ok); vm_compute; intuition discriminate. Defined.
