(* ===== verification/WitnessesMem.v ===== *)
(** The theorems on the memory operations and the small memory allocator at concrete
    inputs: a heap of 288 bytes at address 1000, fresh or with a used block. *)
From S2P Require Import Prelude RtList Kservice MemOps Kernel Scheduler Object TimerCore Invariant Thread Timer TimerCheck Clock Ipc Semaphore.
From S2P Require Import Demo Resume Mem HeapSpec HeapCalls HeapRealloc.

(** ** Memory operations *)
(** "foobar" at 0 and "bar" at 100, zeros elsewhere. *)
Definition text : memory := fun a =>
  nth (Z.to_nat a) [102; 111; 111; 98; 97; 114] 0 + (if 100 <=? a then nth (Z.to_nat (a - 100)) [98; 97; 114] 0 else 0).
Lemma rt_memset_fills_witness : rt_memset 5 300 40 text 44 = 44.
Proof. rewrite rt_memset_fills; [reflexivity|lia]. Defined.
Lemma rt_memcpy_copies_witness : rt_memcpy 200 0 6 text 203 = 98.
Proof. rewrite rt_memcpy_copies; [reflexivity|lia|lia]. Defined.
Lemma rt_memmove_copies_witness : rt_memmove 2 0 6 text 5 = 98.
Proof. rewrite rt_memmove_copies; [reflexivity|lia]. Defined.
Lemma text_foobar : string_at text 0 [102; 111; 111; 98; 97; 114].
Proof. split; [reflexivity|]. split; [by rewrite !elem_of_cons, elem_of_nil; lia|reflexivity]. Qed.
Lemma text_bar : string_at text 100 [98; 97; 114].
Proof. split; [reflexivity|]. split; [by rewrite !elem_of_cons, elem_of_nil; lia|reflexivity]. Qed.
Lemma rt_strstr_first_witness : exists k, rt_strstr 10 0 100 text = Some (Some (0 + Z.of_nat k)) /\ occurs [98; 97; 114] [102; 111; 111; 98; 97; 114] k.
Proof.
  destruct (rt_strstr_first text 0 100 _ _ 10 text_foobar text_bar) as [[_ H]|(k & E & _ & Ho & _)]; [cbn; lia|cbn; lia| |].
  - destruct (H 3%nat). reflexivity.
  - exists k. exact (conj E Ho).
Defined.
Lemma rt_strcasecmp_lower_witness : rt_strcasecmp [70; 79; 111; 0] [102; 111; 79; 0] = 0.
Proof. apply rt_strcasecmp_lower; [unfold is_bytes; repeat constructor; lia..|reflexivity]. Defined.

(** ** The heap *)
#[local] Remove Hints demo_heap : typeclass_instances.
#[local] Instance demo_heap_sem : HeapSem := 77.
#[local] Instance demo_align : AlignOK demo_config.
Proof. exists 2. done. Qed.
(** The state of a kernel with the heap [h]: all rings empty, the semaphore at 1. *)
Definition heap_kernel (h : heap_state) : kstate :=
  mk_kstate (mk_kcore (mk_links (fun n => n) (fun n => n)) blank_object blank_thread blank_timer 0 0 0 None 0 0 (fun _ => 0) 0 (h : heap) [])
    (fun _ => mk_sem 1) (fun _ => mk_mutex 1 0 0 None) (fun _ => mk_event 0)
    (fun _ => new_mailbox) (fun _ => new_mq) (fun _ => new_mempool) (fun _ => 0).
Lemma heap_kernel_quiet h : quiet (heap_kernel h).
Proof. by split. Qed.
(** Nothing allocated; lfree at the only block. *)
Definition fresh : heap_state :=
  mk_heap 1000 288 0 276 0 0 (fun q => if q =? 0 then mk_heap_mem HEAP_MAGIC 0 288 0 else mk_heap_mem HEAP_MAGIC 1 288 288) (fun _ => 7).
Lemma fresh_ok : heap_ok fresh [(288, false)].
Proof. apply heap_ok_fresh; try done; cbn; lia. Qed.
(** A used block of 100 bytes (with its header), then a free one. *)
Definition partly_used : heap_state :=
  mk_heap 1000 288 100 276 100 100
    (fun q => if q =? 0 then mk_heap_mem HEAP_MAGIC 1 100 0 else if q =? 100 then mk_heap_mem 0 0 288 0 else mk_heap_mem HEAP_MAGIC 1 288 288)
    (fun a => a mod 256).
Lemma partly_used_block : used_block partly_used [(100, true); (188, false)] [] 100 [(188, false)] 1012.
Proof.
  split; try done. split; try done.
  cbn. by right; left.
Qed.
Definition after {A} (m : R kstate A) (k : kstate) : kstate := match m k with Some (_, k') => k' | None => k end.
Definition result {A} (m : R kstate A) (k : kstate) : option A := match m k with Some (Done r, _) => Some r | _ => None end.
Lemma after_run {A} (m : R kstate A) k r : result m k = Some r -> m k = Some (Done r, after m k).
Proof. unfold result, after. destruct (m k) as [[[r'|] k']|]; try done. by intros [= ->]. Qed.

Lemma rt_system_heap_init_fresh_witness : exists k', rt_system_heap_init 998 1302 (heap_kernel (mk_heap 0 0 0 0 0 0 (fun _ => mk_heap_mem 9 9 9 9) (fun _ => 7))) = Some (tt, k') /\
  heap_ok (the_heap k') [(288, false)].
Proof.
  destruct (rt_system_heap_init_fresh (heap_kernel (mk_heap 0 0 0 0 0 0 (fun _ => mk_heap_mem 9 9 9 9) (fun _ => 7))) 998 1302)
    as (k' & E & _ & H & _); [reflexivity|reflexivity|lia|lia|vm_compute; discriminate|]. exists k'. exact (conj E H).
Defined.
Lemma rt_malloc_refines_witness : exists k', rt_malloc 50 (heap_kernel fresh) = Some (Done (Some 1012), k').
Proof.
  destruct (rt_malloc_refines (heap_kernel fresh) [(288, false)] 50 (heap_kernel_quiet _) fresh_ok) as (r & k' & h' & E & _ & _ & Hr & _).
  exists k'. rewrite E, Hr. reflexivity.
Defined.
Lemma rt_malloc_safe_witness : exists m post', heap_ok (the_heap (after (rt_malloc 50) (heap_kernel fresh))) ((m, true) :: post').
Proof.
  destruct (rt_malloc_safe (heap_kernel fresh) [(288, false)] 50 1012 (after (rt_malloc 50) (heap_kernel fresh)) (heap_kernel_quiet _) fresh_ok)
    as (pre & n & post & m & post' & E & H & _); [lia|vm_compute; discriminate|apply after_run; vm_compute; reflexivity|].
  destruct pre as [|b pre]; [exists m, post'; exact H|]. exfalso. injection E as _ E. by destruct pre.
Defined.
Lemma rt_malloc_free_roundtrip_witness : exists k2, rt_free (Some 1012) (after (rt_malloc 50) (heap_kernel fresh)) = Some (Done tt, k2) /\
  heap_ok (the_heap k2) [(288, false)].
Proof.
  destruct (rt_malloc_free_roundtrip (heap_kernel fresh) [(288, false)] 50 1012 (after (rt_malloc 50) (heap_kernel fresh)) (heap_kernel_quiet _) fresh_ok)
    as (k2 & h2 & E & M & H & _); [apply after_run; vm_compute; reflexivity|]. exists k2. rewrite (mv_heap _ _ _ _ M). exact (conj E H).
Defined.
Lemma rt_free_refines_witness : exists k', rt_free (Some 1012) (heap_kernel partly_used) = Some (Done tt, k') /\ heap_ok (the_heap k') [(288, false)].
Proof.
  destruct (rt_free_refines (heap_kernel partly_used) _ _ _ _ _ (heap_kernel_quiet _) partly_used_block) as (k' & h' & E & M & H & _).
  exists k'. rewrite (mv_heap _ _ _ _ M). exact (conj E H).
Defined.
(** The free block at 1112 and, freed twice, the block at 1012. *)
Lemma rt_free_rejects_witness : rt_free (Some 1112) (heap_kernel partly_used) = None /\
  exists k', rt_free (Some 1012) (heap_kernel partly_used) = Some (Done tt, k') /\ rt_free (Some 1012) k' = None.
Proof.
  destruct (rt_free_rejects (heap_kernel partly_used) [(100, true); (188, false)] (heap_kernel_quiet _) (ub_ok _ _ _ _ _ _ partly_used_block)) as [H1 H2].
  split; [|exact (H2 _ _ _ _ partly_used_block)]. apply H1. right. right. exists [(100, true)], 188, []. exact (conj eq_refl eq_refl).
Defined.
Lemma rt_malloc_whole_heap_fails_witness : exists k', rt_malloc 276 (heap_kernel fresh) = Some (Done None, k').
Proof. exact (rt_malloc_whole_heap_fails (heap_kernel fresh) [(288, false)] (heap_kernel_quiet _) fresh_ok). Defined.
Lemma rt_calloc_zeroed_witness : exists k' h', rt_calloc 5 10 (heap_kernel fresh) = Some (Done (Some 1012), k') /\ heap_step (heap_kernel fresh) k' h' 1 /\
  h_bytes h' 1061 = 0 /\ h_bytes h' 1062 = 7.
Proof.
  destruct (rt_calloc_zeroed (heap_kernel fresh) [(288, false)] 5 10 (heap_kernel_quiet _) fresh_ok) as (r & k' & h' & E & M & Hr & _ & Hb).
  exists k', h'. rewrite E, Hr, !Hb. exact (conj eq_refl (conj M (conj eq_refl eq_refl))).
Defined.
Lemma rt_realloc_keeps_witness : exists r k' h', rt_realloc (Some 1012) 120 (heap_kernel partly_used) = Some (Done r, k') /\
  heap_step (heap_kernel partly_used) k' h' 1 /\ kept_block partly_used [(100, true); (188, false)] [] 100 120 1012 h' r.
Proof.
  destruct (rt_realloc_keeps (heap_kernel partly_used) _ _ _ _ _ 120 (heap_kernel_quiet _) partly_used_block) as (r & k' & h' & H);
    [lia|vm_compute; discriminate|]. exists r, k', h'. exact H.
Defined.

(** Shrinking a block below lfree leaves lfree where it was: the bytes given back are
    free, but rt_malloc does not find them before a lower block is freed. *)
Definition all_used : heap_state :=
  mk_heap 1000 288 288 276 288 288
    (fun q => if q =? 0 then mk_heap_mem HEAP_MAGIC 1 200 0 else if q =? 200 then mk_heap_mem HEAP_MAGIC 1 288 0 else mk_heap_mem HEAP_MAGIC 1 288 288)
    (fun _ => 7).
Example rt_realloc_shrink_hides_block : let k := after (rt_realloc (Some 1012) 20) (heap_kernel all_used) in
  result (rt_realloc (Some 1012) 20) (heap_kernel all_used) = Some (Some 1012) /\
  heap_ok (the_heap k) [(32, true); (168, false); (88, true)] /\ ~ lowest (the_heap k) [(32, true); (168, false); (88, true)] /\
  result (rt_malloc 50) k = Some None.
Proof.
  cbv zeta. split; [vm_compute; reflexivity|]. split; [|split; [vm_compute; discriminate|vm_compute; reflexivity]].
  split; try (vm_compute; split_and!; done).
  - vm_compute. right. right. right. done.
  - vm_compute. done.
Qed.
(** A request close to 2^32 bytes wraps to 0 when it is aligned, and gets the smallest
    block. *)
Example rt_malloc_wraps : result (rt_malloc (2 ^ 32 - 2)) (heap_kernel fresh) = Some (Some 1012).
Proof. vm_compute. reflexivity. Qed.
