(* ===== verification/WitnessesPath.v ===== *)
(** The theorems on the users of the heap at concrete inputs, on the first-fit heap, and
    what dfs_normalize_path does with a path that leaves the root. *)
From Stdlib Require Import Ascii String.
From S2P Require Import Prelude RtList Kservice MemOps Kernel Print PrintSpec Resume SysHeap HeapUse Mem HeapSpec HeapCalls Heaps Path Demo WitnessesMem.

#[local] Remove Hints demo_heap : typeclass_instances.
#[local] Existing Instance demo_heap_sem.
#[local] Existing Instance demo_align.
#[local] Instance demo_dfs : DfsConfig := {| DFS_USING_WORKDIR := false; working_directory := 0 |}.

(** A text at [a], and 0 everywhere else. *)
Definition text_memory (a : Z) (cs : list Z) : memory := fun x => if a <=? x then nth (Z.to_nat (x - a)) cs 0 else 0.
Definition text_kernel (cs : list Z) : kstate := heap_kernel (set_h_bytes (text_memory 5000 cs) fresh).
Definition text_view : heap_view (S := kstate) := ([(288, false)], (1000, 288)).
Lemma text_kernel_rep cs : heap_rep (text_kernel cs) text_view.
Proof.
  split; [apply heap_kernel_quiet|]. split; [|by split]. change (heap_ok (set_h_bytes (text_memory 5000 cs) fresh) [(288, false)]).
  destruct fresh_ok. by split.
Qed.
Definition messy : list Z := chars "/a/./b//../c/".
Lemma messy_held : held (text_kernel messy) text_view 5000 messy.
Proof.
  split; [|right; intros x Hx; cbn; lia|split; [apply Nat.ltb_lt; by vm_compute|by vm_compute]].
  split; [by vm_compute|]. split; [apply (bool_decide_unpack _); by vm_compute|by vm_compute].
Qed.
Lemma dfs_normalize_path_resolves_witness : exists r s', dfs_normalize_path 0 5000 (text_kernel messy) = Some (Done r, s') /\
  (r = 0 \/ string_at (sys_bytes s') r (chars "/a/c")).
Proof.
  destruct (dfs_normalize_path_resolves (text_kernel messy) text_view 0 5000 [] messy [chars "c"; chars "a"] (text_kernel_rep messy) ltac:(lia) messy_held)
    as (r & s' & E & [[Hr _]|(_ & V' & Hn)]).
  - intros H. by destruct H.
  - apply Nat.ltb_lt. by vm_compute.
  - by vm_compute.
  - exists r, s'. exact (conj E (or_introl Hr)).
  - exists r, s'. exact (conj E (or_intror (np_string _ _ _ _ _ _ _ Hn))).
Defined.

(** *** Above the root *)
(** The string that is left at 1000 when the code has worked on [s] there. *)
Definition normalized (s : string) : option (list Z) :=
  r ← normalize_loop loop_fuel 1000 1000 1000 (text_memory 1000 (chars s));
  match r with
  | (Some dst, m) => '(_, m) ← path_end 1000 dst m; read_string loop_fuel 1000 m
  | (None, _) => None
  end.
(** ".." at the root gives the empty string, and the code looks at the byte in front of the
    block, which becomes 0 if it is a slash. *)
Lemma root_parent_empty : normalized "/.." = Some [] /\
  option_map (fun o => snd o 999) (path_end 1000 1000 (<[999 := SLASH]> (text_memory 1000 []))) = Some 0.
Proof. split; by vm_compute. Qed.
(** A name behind it gives a relative path. *)
Lemma root_parent_relative : normalized "/../a" = Some (chars "a").
Proof. by vm_compute. Qed.
(** Only two of them are refused. *)
Lemma root_parent_twice : normalized "/../.." = None.
Proof. by vm_compute. Qed.
