(* ===== verification/WitnessesMemHeap.v ===== *)
(** The theorems on the memory heap allocator at concrete inputs: a heap of 300 bytes at address
    1000, and what it does with calls the theorems exclude. *)
From S2P Require Import Prelude RtList Kservice MemOps Kernel Scheduler Object TimerCore Invariant Thread Timer TimerCheck Clock Ipc Semaphore.
From S2P Require Import Demo Lock Resume Mem HeapSpec HeapCalls MemHeap MemHeapSpec MemHeapAlloc MemHeapCalls MemHeapRealloc.

#[local] Instance demo_pools : MemHeapLayout := {| free_header h := h + 20; heap_lock h := h; system_heap := 500 |}.
#[local] Instance demo_word_align : AlignOK demo_config.
Proof. exists 2. done. Qed.
(** The heap 500 with one free block, and a kernel whose semaphores are free. *)
Definition fresh_pool : memheaps :=
  mk_memheaps (fun a => if a =? 1000 then RT_MEMHEAP_MAGIC else Z.lor RT_MEMHEAP_MAGIC RT_MEMHEAP_USED) (fun _ => 500)
    (mk_links (fun a => if a =? 1000 then 1276 else 1000) (fun a => if a =? 1000 then 1276 else 1000))
    (mk_links (fun a => if a =? 520 then 1000 else 520) (fun a => if a =? 520 then 1000 else 520))
    (fun _ => mk_memheap 1000 300 252 48 1000 520) (fun a => a mod 256).
Definition pool_kernel : kstate :=
  mk_kstate blank (fun _ => mk_sem 1) (fun _ => mk_mutex 1 0 0 None) (fun _ => mk_event 0)
    (fun _ => new_mailbox) (fun _ => new_mq) (fun _ => new_mempool) (fun _ => 0).
Definition pool_state (m : memheaps) : mhstate := mk_mhstate _ _ pool_kernel 0 m.
Lemma pool_lock m : lock_free (ms_kernel (pool_state m)) 500.
Proof. by split. Qed.
Lemma fresh_pool_ok : memheap_ok fresh_pool 500 1000 [(276, false)] [1000].
Proof.
  split; try done; try (cbn; lia).
  split; [vm_compute; split_and!; done|]. apply NoDup_cons. split; [by intros ?%list_elem_of_singleton|apply NoDup_singleton].
Qed.
Definition mh_after {A} (m : R mhstate A) (k : mhstate) : mhstate := match m k with Some (_, k') => k' | None => k end.
Definition mh_result {A} (m : R mhstate A) (k : mhstate) : option A := match m k with Some (Done r, _) => Some r | _ => None end.
Lemma mh_run {A} (m : R mhstate A) k r : mh_result m k = Some r -> m k = Some (Done r, mh_after m k).
Proof. unfold mh_result, mh_after. destruct (m k) as [[[r'|] k']|]; try done. by intros [= ->]. Qed.
(** A used block of 44 bytes, with its header, in front of the free one. *)
Definition used_pool : memheaps :=
  mk_memheaps (fun a => if a =? 1044 then RT_MEMHEAP_MAGIC else Z.lor RT_MEMHEAP_MAGIC RT_MEMHEAP_USED) (fun _ => 500)
    (mk_links (fun a => if a =? 1000 then 1044 else if a =? 1044 then 1276 else 1000) (fun a => if a =? 1000 then 1276 else if a =? 1044 then 1000 else 1044))
    (mk_links (fun a => if a =? 520 then 1044 else 520) (fun a => if a =? 520 then 1044 else 520))
    (fun _ => mk_memheap 1000 300 208 92 1000 520) (fun a => a mod 256).
Lemma used_pool_ok : memheap_ok used_pool 500 1000 [(44, true); (232, false)] [1044].
Proof.
  split; try done; try (cbn; lia).
  split; [vm_compute; split_and!; done|]. apply NoDup_cons. split; [by intros ?%list_elem_of_singleton|apply NoDup_singleton].
Qed.

Lemma rt_memheap_alloc_refines_witness : exists s' bs' fs', rt_memheap_alloc 500 20 (pool_state fresh_pool) = Some (Done (Some 1024), s') /\
  heap_moved (pool_state fresh_pool) s' 500 1000 [(276, false)] bs' fs' /\ alloc_result 1000 20 [(276, false)] [1000] (Some 1024) bs' fs'.
Proof.
  destruct (rt_memheap_alloc_refines (pool_state fresh_pool) 500 1000 [(276, false)] [1000] 20) as (r & s' & bs' & fs' & E & H & Hr); [done|exact (pool_lock _)|exact fresh_pool_ok|].
  assert (mh_result (rt_memheap_alloc 500 20) (pool_state fresh_pool) = Some (Some 1024)) as V by (vm_compute; reflexivity).
  unfold mh_result in V. rewrite E in V. injection V as ->. exists s', bs', fs'. exact (conj E (conj H Hr)).
Defined.
Lemma rt_memheap_free_refines_witness : exists s', rt_memheap_free 1024 (pool_state used_pool) = Some (Done tt, s') /\
  heap_moved (pool_state used_pool) s' 500 1000 [(44, true); (232, false)] [(276, false)] [1000].
Proof. exact (rt_memheap_free_refines (pool_state used_pool) 500 1000 [] 44 [(232, false)] [1044] (pool_lock _) used_pool_ok). Defined.
Lemma rt_memheap_alloc_free_witness : exists s2 fs2, rt_memheap_free 1024 (mh_after (rt_memheap_alloc 500 20) (pool_state fresh_pool)) = Some (Done tt, s2) /\
  memheap_ok (ms_mem s2) 500 1000 [(276, false)] fs2.
Proof.
  destruct (rt_memheap_alloc_free (pool_state fresh_pool) 500 1000 [(276, false)] [1000] 20 1024 (mh_after (rt_memheap_alloc 500 20) (pool_state fresh_pool)))
    as (pre & n & post & m & post' & _ & _ & _ & _ & _ & _ & _ & s2 & fs2 & E & _ & H);
    [done|exact (pool_lock _)|exact fresh_pool_ok|lia|vm_compute; discriminate|apply mh_run; vm_compute; reflexivity|].
  exists s2, fs2. exact (conj E H).
Defined.
Lemma rt_memheap_init_fresh_witness : exists s', rt_memheap_init 500 [104] 1000 302 (pool_state used_pool) = Some (RT_EOK, s') /\
  memheap_ok (ms_mem s') 500 1000 [(276, false)] [1000].
Proof.
  destruct (rt_memheap_init_fresh (pool_state used_pool) 500 [104] 1000 302) as (s' & E & _ & H & _); [done|done|vm_compute; discriminate|done|done|vm_compute; discriminate|cbn; lia|].
  exists s'. exact (conj E H).
Defined.
(** The used block grows from 20 to 100 bytes in place. *)
Lemma rt_memheap_realloc_keeps_witness : exists s', rt_memheap_realloc 500 1024 100 (pool_state used_pool) = Some (Done (Some 1024), s') /\
  realloc_kept (pool_state used_pool) s' 500 1000 [(44, true); (232, false)] [] 44 100 (Some 1024).
Proof.
  destruct (rt_memheap_realloc_keeps (pool_state used_pool) 500 1000 [] 44 [(232, false)] [1044] 100) as (r & s' & E & _ & _ & H);
    [done|exact (pool_lock _)|exact used_pool_ok|lia|vm_compute; discriminate|].
  assert (mh_result (rt_memheap_realloc 500 1024 100) (pool_state used_pool) = Some (Some 1024)) as V by (vm_compute; reflexivity).
  unfold mh_result in V. change (1000 + total [] + RT_MEMHEAP_SIZE) with 1024 in E. rewrite E in V. injection V as ->. exists s'. exact (conj E H).
Defined.

(** *** Behaviour outside the theorems *)
(** Freeing a block twice is accepted, and the block is granted again and again. *)
Definition double_free : R mhstate (list (option Z)) :=
  p1 ← rt_memheap_alloc 500 20; p2 ← rt_memheap_alloc 500 20;
  rt_memheap_free 1024 ;; rt_memheap_free 1024 ;;
  p3 ← rt_memheap_alloc 500 20; p4 ← rt_memheap_alloc 500 20; mret [p1; p2; p3; p4].
Example memheap_double_free : mh_result double_free (pool_state fresh_pool) = Some [Some 1024; Some 1068; Some 1024; Some 1024].
Proof. vm_compute. reflexivity. Qed.
(** All 252 bytes are free in one block, but a request for them is refused. *)
Example memheap_all_refused : mp_available_size (mh_pools fresh_pool 500) = 252 /\ mh_result (rt_memheap_alloc 500 252) (pool_state fresh_pool) = Some None /\
  mh_result (rt_memheap_alloc 500 248) (pool_state fresh_pool) = Some (Some 1024).
Proof. vm_compute. auto. Qed.
(** A size close to 2^32 wraps: rt_memheap_realloc reports that a block of 20 bytes has
    4294967288. *)
Definition huge_realloc : R mhstate (option Z * option Z) :=
  p1 ← rt_memheap_alloc 500 20; p2 ← rt_memheap_realloc 500 1024 (2 ^ 32 - 8); mret (p1, p2).
Example memheap_realloc_wraps : mh_result huge_realloc (pool_state fresh_pool) = Some (Some 1024, Some 1024).
Proof. vm_compute. reflexivity. Qed.
(** Where RT_ALIGN_SIZE is 8, RT_MEMHEAP_MINIALLOC is not a multiple of it: a small block
    leaves the next one misaligned. *)
Definition config_align8 : Config := {|
  RT_THREAD_PRIORITY_MAX := 32; RT_TIMER_SKIP_LIST_LEVEL := 2; RT_TIMER_SKIP_LIST_MASK := 3; RT_USING_TIMER_SOFT := true;
  RT_TIMER_THREAD_PRIO := 4; RT_TICK_PER_SECOND := 100; RT_NAME_MAX := 8; RT_ALIGN_SIZE := 8; loop_fuel := 100;
  prio_max_range := ltac:(lia); skip_level_pos := ltac:(lia); loop_fuel_pos := ltac:(lia) |}.
Definition two_small : M memheaps (option Z * option Z) :=
  p1 ← @alloc_section config_align8 500 (@memheap_size config_align8 4);
  p2 ← @alloc_section config_align8 500 (@memheap_size config_align8 4); mret (p1, p2).
Example memheap_align8 : option_map fst (two_small fresh_pool) = Some (Some 1024, Some 1060) /\ 1060 mod 8 = 4.
Proof. vm_compute. auto. Qed.
(** As the heap of the system, rt_realloc moves a block into another heap and never frees the
    old one: the bytes available in the first heap stay the same, and the old block is lost. *)
Definition moved_realloc : R mhstate (option Z * option Z) :=
  _ ← now (rt_memheap_init 500 [104] 1000 300); _ ← now (rt_memheap_init 600 [105] 2000 900);
  p1 ← memheap_malloc 100; p2 ← memheap_realloc 1024 400; mret (p1, p2).
Example memheap_realloc_leaks : mh_result moved_realloc (pool_state fresh_pool) = Some (Some 1024, Some 2024) /\
  mp_available_size (mh_pools (ms_mem (mh_after moved_realloc (pool_state fresh_pool))) 500) = 128.
Proof. vm_compute. auto. Qed.
