(* ===== verification/WitnessesSlab.v ===== *)
(** The theorems on the slab allocator at concrete inputs: a heap of 20 pages at address 8192,
    and what it does where the code and its comments differ. *)
From stdpp Require Import gmap.
From S2P Require Import Prelude RtList Kservice MemOps Kernel Scheduler Object TimerCore Invariant Thread Timer TimerCheck Clock Ipc Semaphore.
From S2P Require Import Demo Lock Resume Slab PageSpec SlabSpec SlabMalloc SlabFree SlabCalls.

#[local] Instance demo_slab_sem : SlabSem := 77.
Definition slab_kernel : kstate :=
  mk_kstate blank (fun _ => mk_sem 1) (fun _ => mk_mutex 1 0 0 None) (fun _ => mk_event 0)
    (fun _ => new_mailbox) (fun _ => new_mq) (fun _ => new_mempool) (fun _ => 0).
Definition slab_state (v : slabs) : slstate := mk_slstate _ _ slab_kernel v.
Lemma slab_state_unlocked v : heap_unlocked (slab_state v).
Proof. by split. Qed.
(** 20 pages from 8192 on: one for the table, 19 free. *)
Definition bare_slab : slabs :=
  mk_slabs (fun _ => 0) (fun _ => 19) 12288 (fun _ => zone_zero) (fun _ => 0) (fun _ => 0) (fun _ => 0) 0 0 0 0 0
    (fun _ => 0) (fun _ => 0) 0 8192 90112 0 0 (fun a => a mod 251).
Definition fresh_slab : slabs := sizes_set (zone_size_of (20 * PAGE)) 8192 bare_slab.
Lemma fresh_slab_ok : slab_ok fresh_slab (fresh_view 8192 20).
Proof. by apply fresh_view_ok. Qed.
Definition sl_after {A} (m : R slstate A) (s : slstate) : slstate := match m s with Some (_, s') => s' | None => s end.
Definition sl_result {A} (m : R slstate A) (s : slstate) : option A := match m s with Some (Done r, _) => Some r | _ => None end.
Lemma sl_run {A} (m : R slstate A) s r : sl_result m s = Some r -> m s = Some (Done r, sl_after m s).
Proof. unfold sl_result, sl_after. destruct (m s) as [[[r'|] s']|]; try done. by intros [= ->]. Qed.

Lemma sl_run_ex {A} (m : R slstate A) s r : sl_result m s = Some r -> exists s', m s = Some (Done r, s').
Proof. intros H. exists (sl_after m s). by apply sl_run. Qed.
Lemma first_malloc : exists s', slab_malloc 100 (slab_state fresh_slab) = Some (Done 12328, s').
Proof. apply sl_run_ex. vm_compute. reflexivity. Qed.
(** 100 bytes come from a new zone of chunks of 104 bytes, its first chunk behind the header. *)
Lemma slab_malloc_refines_witness : exists s' V', slab_malloc 100 (slab_state fresh_slab) = Some (Done 12328, s') /\
  sem_at (slab_state fresh_slab) s' 1 /\ slab_grant fresh_slab (ss_slab s') (fresh_view 8192 20) V' 12328 104.
Proof.
  destruct (slab_malloc_refines (slab_state fresh_slab) (fresh_view 8192 20) 100) as (r & s' & E & Hr); [exact (slab_state_unlocked _)|exact fresh_slab_ok|lia|].
  destruct first_malloc as (s1 & E1). rewrite E1 in E. injection E as <- <-. destruct Hr as [(Hr & _)|(_ & _ & Hs & V' & Hg)]; [discriminate Hr|].
  assert (usable (fresh_view 8192 20) 100 = 104) as Hu by (vm_compute; reflexivity). rewrite Hu in Hg.
  exists s1, V'. exact (conj E1 (conj Hs Hg)).
Defined.
(** A state with a granted block. *)
Lemma granted_state : exists s V, heap_unlocked s /\ slab_ok (ss_slab s) V /\ live (sv_uses V) 12328 104.
Proof.
  assert (wpr (slab_malloc 100) (fun r s => r = 12328 -> exists V, heap_unlocked s /\ slab_ok (ss_slab s) V /\ live (sv_uses V) 12328 104) (slab_state fresh_slab)) as Hw.
  { eapply wpr_slab_malloc; [apply slab_state_unlocked|exact fresh_slab_ok|lia|by intros|]. intros a s V Hg _ _ Hs ->. exists V. split_and!.
    - exact (sem_at_unlocked _ _ (slab_state_unlocked _) Hs).
    - apply Hg.
    - apply Hg. by right. }
  destruct (proj1 (wpr_run _ _ _) Hw) as (r & s & E & Hr). clear Hw. destruct first_malloc as (s1 & E1). rewrite E1 in E. injection E as <- <-.
  destruct (Hr eq_refl) as (V & H). exists s1, V. exact H.
Qed.
Lemma slab_free_refines_witness : exists s V s' V', slab_free 12328 s = Some (Done tt, s') /\ slab_return (ss_slab s) (ss_slab s') V V' 12328.
Proof.
  destruct granted_state as (s & V & Hl & H & Ha). destruct (slab_free_refines s V 12328 104 Hl H Ha) as (s' & V' & E & _ & Hr).
  exists s, V, s', V'. exact (conj E Hr).
Defined.
Lemma slab_blocks_safe_witness : exists s V, slab_ok (ss_slab s) V /\ live (sv_uses V) 12328 104 /\ forall x, 12328 <= x < 12432 -> ~ page_free_at (sv_runs V) x.
Proof.
  destruct granted_state as (s & V & _ & H & Ha). exists s, V. split; [exact H|]. split; [exact Ha|]. destruct (slab_blocks_safe (ss_slab s) V 12328 104 H Ha) as (_ & _ & _ & Hf & _).
  intros x Hx. apply Hf. lia.
Defined.
Lemma slab_realloc_keeps_witness : exists s V r s', slab_realloc 12328 500 s = Some (Done r, s') /\ slab_realloc_result s V 12328 104 500 r s'.
Proof.
  destruct granted_state as (s & V & Hl & H & Ha). destruct (slab_realloc_keeps s V 12328 104 500 Hl H Ha) as (r & s' & E & Hr); [lia|].
  exists s, V, r, s'. exact (conj E Hr).
Defined.
Lemma rt_page_alloc_free_witness : exists s2, rt_page_free 12288 3 (sl_after (rt_page_alloc 3) (slab_state fresh_slab)) = Some (Done tt, s2) /\ page_ok (ss_slab s2) [(12288, 19)].
Proof.
  destruct (rt_page_alloc_free (slab_state fresh_slab) [(12288, 19)] 3 12288 (sl_after (rt_page_alloc 3) (slab_state fresh_slab)))
    as (_ & _ & _ & rs1 & _ & _ & _ & s2 & E & _ & H); [exact (slab_state_unlocked _)|exact (so_pages _ _ fresh_slab_ok)|lia|apply sl_run; vm_compute; reflexivity|discriminate|].
  exists s2. exact (conj E H).
Defined.
Lemma rt_page_free_refines_witness : exists s', rt_page_free 8192 1 (slab_state fresh_slab) = Some (Done tt, s') /\ page_ok (ss_slab s') [(8192, 20)].
Proof.
  destruct (rt_page_free_refines (slab_state fresh_slab) [(12288, 19)] 8192 1) as (s' & E & _ & _ & H & _); [exact (slab_state_unlocked _)|exact (so_pages _ _ fresh_slab_ok)| |].
  - split; [lia|done|cbn; unfold RT_MM_PAGE_SIZE; lia|]. apply Forall_cons. split; [right; cbn; unfold RT_MM_PAGE_SIZE; lia|by apply Forall_nil_2].
  - exists s'. exact (conj E H).
Defined.
Lemma slab_heap_init_fresh_witness : exists s', slab_heap_init 5000 91000 (slab_state bare_slab) = Some (Done tt, s') /\ slab_ok (ss_slab s') (fresh_view 8192 20).
Proof.
  destruct (slab_heap_init_fresh (slab_state bare_slab) 5000 91000) as (s' & E & _ & H); [by split|done|lia|vm_compute; discriminate|lia|by vm_compute|].
  exists s'. exact (conj E H).
Defined.

(** *** Where the code and its comments differ *)
Definition slab_entry (s : slstate) (a : Z) : Z := mu_type (ss_slab s) (page_index (ss_slab s) a).
Definition full_slab : slabs := set_rt_page_list 0 fresh_slab.
(** A small request that finds no page for its zone releases the semaphore twice: it was 1 and
    is 2, and from then on two threads can be in the heap at once. *)
Lemma slab_fail_releases_twice :
  let s := sl_after (slab_malloc 8) (slab_state full_slab) in
  sl_result (slab_malloc 8) (slab_state full_slab) = Some 0 /\ sem_value (k_sems (ss_kernel s) slab_heap_sem) = 2.
Proof. vm_compute. split; reflexivity. Qed.
(** A request for nothing gets RT_NULL. *)
Lemma slab_malloc_zero : sl_result (slab_malloc 0) (slab_state fresh_slab) = Some 0.
Proof. vm_compute. reflexivity. Qed.
(** A chunk that was freed is not used again while the zone has one that was never used. *)
Lemma slab_prefers_fresh :
  let s1 := sl_after (slab_malloc 100) (slab_state fresh_slab) in
  sl_result (slab_malloc 100) (sl_after (slab_free 12328) s1) = Some 12432.
Proof. vm_compute. reflexivity. Qed.
(** A block of 8192 bytes that is not a multiple of 8192. *)
Lemma slab_power_unaligned : sl_result (slab_malloc 8192) (slab_state fresh_slab) = Some 12288 /\ 12288 mod 8192 = 4096.
Proof. vm_compute. split; reflexivity. Qed.
(** A whole page comes from a zone. *)
Lemma slab_page_in_zone :
  let s := sl_after (slab_malloc 4096) (slab_state fresh_slab) in
  sl_result (slab_malloc 4096) (slab_state fresh_slab) = Some 16384 /\ slab_entry s 16384 = PAGE_TYPE_SMALL.
Proof. vm_compute. split; reflexivity. Qed.
(** The product of the arguments of rt_calloc wraps: 65536 objects of 65537 bytes get 16 pages. *)
Lemma slab_calloc_wraps : let s := sl_after (slab_calloc 65536 65537) (slab_state fresh_slab) in
  sl_result (slab_calloc 65536 65537) (slab_state fresh_slab) = Some 12288 /\ mu_size (ss_slab s) (page_index (ss_slab s) 12288) = 16.
Proof. vm_compute. split; reflexivity. Qed.
