(* ===== verification/WitnessesDev.v ===== *)
(** The theorems on devices, completions and data queues at concrete inputs. *)
From S2P Require Import Prelude RtList Kservice Kernel Scheduler Object TimerCore Invariant Thread Timer TimerCheck.
From S2P Require Import Clock Ipc System Device DriverIpc Completion DataQueue Demo Witnesses.

(** ** Devices *)
(** Drivers that log their calls; function 7 fails with -RT_ERROR, the others succeed. *)
#[local] Instance log_io : DriverIO := list Z.
#[local] Instance log_drivers : Drivers := {|
  drv_call f d args s := Some (if f =? 7 then - RT_ERROR else RT_EOK, set_d_io ((f :: d_io s) : driver_io) s);
  print_init_error d r s := Some (tt, s)
|}.
Lemma log_call_law f d args s : drv_call f d args s = Some (if f =? 7 then - RT_ERROR else RT_EOK, set_d_io ((f :: d_io s) : driver_io) s).
Proof. done. Qed.
Lemma log_print_law d r s : print_init_error d r s = Some (tt, set_d_io (d_io s) s).
Proof. by destruct s. Qed.
#[local] Instance log_contract : IODrivers log_drivers := {|
  io_call f d args i := (if f =? 7 then - RT_ERROR else RT_EOK, (f :: i) : driver_io);
  io_print d r i := i;
  io_call_law := log_call_law;
  io_print_law := log_print_law
|}.
(** An activated device with the functions 1 to 4, and its users. *)
Definition demo_device (flag users open : Z) : rt_device :=
  mk_device 0 flag 0 users None None (Some 1) (Some open) (Some 3) (Some 4) None None.
Definition dev_kernel (flag users open : Z) : dstate := mk_dstate demo 0 (fun _ => demo_device flag users open) ([] : driver_io).

Lemma rt_device_closed_transfer_witness : exists s', rt_device_read 5 0 0 10 (dev_kernel 16 0 2) = Some (0, s') /\ rt_get_errno s' = Some (- RT_ERROR, s').
Proof.
  destruct (rt_device_closed_transfer 5 0 0 10 (dev_kernel 16 0 2) eq_refl rt_device_read (or_introl eq_refl)) as (s' & E & H & _).
  exists s'. exact (conj E H).
Defined.
Lemma rt_device_standalone_busy_witness :
  let s := mk_dstate demo 0 (fun _ => set_dv_open_flag 11 (demo_device 24 1 2)) ([] : driver_io) in rt_device_open 5 3 s = Some (- RT_EBUSY, s).
Proof. exact (rt_device_standalone_busy 5 3 (mk_dstate demo 0 (fun _ => set_dv_open_flag 11 (demo_device 24 1 2)) ([] : driver_io)) eq_refl eq_refl). Defined.
Lemma rt_device_open_failure_counts_witness : exists s', rt_device_open 5 3 (dev_kernel 16 0 7) = Some (- RT_ERROR, s') /\ dv_ref_count (d_devs s' 5) = 1.
Proof.
  destruct (rt_device_open_failure_counts 5 3 (dev_kernel 16 0 7)) as (s' & E & H & _); [reflexivity|reflexivity|cbn; lia|vm_compute; reflexivity|].
  exists s'. exact (conj E H).
Defined.
Lemma rt_device_register_find_witness : exists s' s'', rt_device_register (Some 5) [117; 49] 3 (dev_kernel 16 0 2) = Some (RT_EOK, s') /\
  on_core (rt_device_find [117; 49]) s' = Some (Some (ODevice 5), s'').
Proof.
  destruct demo_ok as [L D].
  destruct (rt_device_register_find _ (dev_kernel 16 0 2) L 5 [117; 49] 3 [] (ki_ready _ _ (dl_inv _ _ (ds_lists _ _ D))))
    as (r & s' & E & -> & _ & _ & _ & s'' & H).
  - exists 2. exact (ds_other _ _ D).
  - by apply (dl_empty _ _ (ds_lists _ _ D)).
  - cbn. lia.
  - change (0 <= k_lock_nest demo < 32767). rewrite (ca_lock _ _ (ds_caller _ _ D)). lia.
  - split; [right; by apply (dl_empty _ _ (ds_lists _ _ D))|]. intros h xs HL Hin.
    pose proof (lo_typed _ _ _ (ki_lists _ _ (dl_inv _ _ (ds_lists _ _ D))) h xs _ HL Hin) as Hn.
    destruct h; try done. rewrite (dl_empty _ _ (ds_lists _ _ D)) in HL by done. injection HL as <-. by apply elem_of_nil in Hin.
  - by apply bytes_ok.
  - exists s', s''. exact (conj E H).
Defined.
(** Devices 5 and 6 on the list of the class, in that order. *)
Definition dev_head : lnode := LObjHead RT_Object_Class_Device.
Definition two_devices : kcore :=
  set_k_links (rt_list_insert_before (rt_list_insert_before (k_links blank) dev_head (LObj (ODevice 5))) dev_head (LObj (ODevice 6))) blank.
Definition one_list : lnode -> option (list lnode) := <[dev_head := Some ([] ++ [LObj (ODevice 5)])]> (<[LObj (ODevice 5) := None]> blank_lists).
Definition two_lists : lnode -> option (list lnode) := <[dev_head := Some ([LObj (ODevice 5)] ++ [LObj (ODevice 6)])]> (<[LObj (ODevice 6) := None]> one_list).
Lemma two_rep : rep (k_links two_devices) two_lists.
Proof.
  unfold two_devices, two_lists; ksimpl. apply rep_insert_tail; [|done| |done].
  - unfold one_list. apply rep_insert_tail; [exact blank_rep|done| |done]. split; [by right|]. intros h xs [= <-] H. by apply elem_of_nil in H.
  - split; [by right|]. intros h xs. unfold one_list. rewrite !upd_case. repeat case_decide; try done.
    + intros [= <-] Hin. by apply list_elem_of_singleton in Hin.
    + intros [= <-] Hin. by apply elem_of_nil in Hin.
Qed.
Lemma rt_device_init_all_visits_witness : exists s', rt_device_init_all (mk_dstate two_devices 0 (fun _ => demo_device 0 0 2) ([] : driver_io)) = Some (RT_EOK, s') /\
  d_io s' = ([1; 1] : driver_io) /\ activated (d_devs s' 5) = true /\ activated (d_devs s' 6) = true.
Proof.
  destruct (rt_device_init_all_visits (mk_dstate two_devices 0 (fun _ => demo_device 0 0 2) ([] : driver_io)) two_lists [5; 6] two_rep eq_refl)
    as (s' & E & _ & H); [cbn; lia|]. exists s'. injection H as H1 H2. rewrite H1, H2. exact (conj E (conj eq_refl (conj eq_refl eq_refl))).
Defined.

(** ** Completions *)
Definition dipc_kernel (flag : Z) (dq : rt_data_queue) : dipc := mk_dipc demo (fun _ => mk_completion flag) (fun _ => dq) [] false.
Definition empty_queue : rt_data_queue := mk_data_queue 4 1 false 0 0 (Some 9000) (fun _ => (0, 0)) None.
Lemma demo_completion L a dn dq : demo_state demo L -> comp_rep (dipc_kernel (if dn : bool then 1 else 0) dq) L a dn [].
Proof. intros D. split; [apply D|by destruct dn|by apply (demo_wait demo L); [apply D|]|done]. Qed.
Lemma rt_completion_wait_refines_witness : exists s', rt_completion_wait 3 20 (dipc_kernel 0 empty_queue) = Some (Waiting 1, s').
Proof.
  destruct demo_ok as [L D].
  destruct (rt_completion_wait_refines (dipc_kernel 0 empty_queue) L 3 false 1 20 (demo_completion L 3 false empty_queue D) (ds_caller _ _ D)
    (demo_short _ _ (ds_lists _ _ D))) as (r & s' & L' & ws' & E & _ & -> & _); [done|]. exists s'. exact E.
Defined.
Lemma rt_completion_done_refines_witness : exists s', rt_completion_done 3 (dipc_kernel 0 empty_queue) = Some (tt, s') /\ cp_flag (di_comps s' 3) = RT_COMPLETED.
Proof.
  destruct demo_ok as [L D].
  destruct (rt_completion_done_refines (dipc_kernel 0 empty_queue) L 3 false [] (demo_completion L 3 false empty_queue D)) as (s' & L' & E & _ & H & _).
  exists s'. exact (conj E H).
Defined.
Lemma rt_completion_handoff_witness : exists s1 s2, rt_completion_wait 3 20 (dipc_kernel 0 empty_queue) = Some (Waiting 1, s1) /\
  rt_completion_done 3 s1 = Some (tt, s2) /\ thread_stat (di_core s2) 1 = RT_THREAD_READY.
Proof.
  destruct demo_ok as [L D].
  destruct (rt_completion_handoff (dipc_kernel 0 empty_queue) L 3 1 20 (demo_completion L 3 false empty_queue D) (ds_caller _ _ D)
    (demo_short _ _ (ds_lists _ _ D))) as (s1 & s2 & s3 & E1 & E2 & H & _); [done|done|]. exists s1, s2. exact (conj E1 (conj E2 H)).
Defined.
Lemma rt_completion_done_kept_witness : exists s1, rt_completion_done 3 (dipc_kernel 0 empty_queue) = Some (tt, s1) /\
  rt_completion_wait 3 20 s1 = Some (Returned RT_EOK, s1).
Proof. destruct demo_ok as [L D]. exact (rt_completion_done_kept (dipc_kernel 0 empty_queue) L 3 20 (demo_completion L 3 false empty_queue D)). Defined.

(** ** Data queues *)
(** One item, at the low water mark, a push having waited; and a full ring whose put
    index has wrapped. *)
Definition one_item : rt_data_queue := mk_data_queue 4 1 true 6 7 (Some 9000) (fun i => (i, 10)) None.
Definition wrapped_queue : rt_data_queue := mk_data_queue 4 1 false 65534 2 (Some 9000) (fun i => (i, 10)) None.
Lemma demo_queue L dq xs : demo_state demo L -> dq_holds dq xs -> dq_rep (dipc_kernel 0 dq) L 3 xs [] [].
Proof. intros D H. split; [apply D|exact H|by apply (demo_wait demo L); [apply D|]..]. Qed.
Lemma empty_queue_holds : dq_holds empty_queue [].
Proof. split; try (cbn; lia); [exists 2; split; [lia|done]|done]. Qed.
Lemma one_item_holds : dq_holds one_item [(2, 10)].
Proof. split; try (cbn; lia); [exists 2; split; [lia|done]|]. intros [|i] x; [by intros [= <-]|done]. Qed.
Lemma rt_data_queue_push_refines_witness : exists s' L', rt_data_queue_push 3 (100, 8) 0 (dipc_kernel 0 empty_queue) = Some (Returned RT_EOK, s') /\
  dq_rep s' L' 3 [(100, 8)] [] [].
Proof.
  destruct demo_ok as [L D].
  destruct (rt_data_queue_push_refines (dipc_kernel 0 empty_queue) L 3 [] [] [] (100, 8) 1 0 (demo_queue L _ _ D empty_queue_holds) (ds_caller _ _ D)
    (demo_short _ _ (ds_lists _ _ D))) as (r & s' & L' & E & _ & -> & H & _); [done|cbn; lia|cbn; lia|]. exists s', L'. exact (conj E H).
Defined.
(** Thread 2 waits to push; the queue falls to its low water mark. *)
Lemma rt_data_queue_pop_refines_witness :
  exists c s', park (LWait WPush 3) demo = Some (tt, c) /\
    rt_data_queue_pop 3 0 (set_di_core c (dipc_kernel 0 one_item)) = Some (Returned (RT_EOK, Some (2, 10)), s') /\
    thread_stat (di_core s') 2 = RT_THREAD_READY /\ di_masked s' = false.
Proof.
  destruct demo_ok as [L0 D]. pose proof (proj1 (wp_run _ _ _) (park_state demo L0 (LWait WPush 3) D I)) as ([] & c & E & L & [P1 P2 P3 P4 P5]).
  destruct (rt_data_queue_pop_refines (set_di_core c (dipc_kernel 0 one_item)) L 3 [(2, 10)] [2] [] 1 0)
    as (r & s' & L' & E2 & -> & _ & Hw & _ & Hm).
  - split; [exact P1|exact one_item_holds|exact P2|by apply P5].
  - done.
  - intros soft xs. rewrite P5 by done. intros [= <-]. cbn. lia.
  - done.
  - cbn. lia.
  - exists c, s'. split; [exact E|]. split; [exact E2|]. split; [by apply Hw|exact Hm].
Defined.
Lemma rt_data_queue_peak_oldest_witness : rt_data_queue_peak 3 (dipc_kernel 0 one_item) = Some ((RT_EOK, Some (2, 10)), dipc_kernel 0 one_item).
Proof. exact (rt_data_queue_peak_oldest (dipc_kernel 0 one_item) 3 [(2, 10)] one_item_holds). Defined.
Lemma rt_data_queue_reset_wakes_witness : exists s' L', rt_data_queue_reset 3 (dipc_kernel 0 one_item) = Some (tt, s') /\ dq_rep s' L' 3 [(2, 10)] [] [].
Proof.
  destruct demo_ok as [L D].
  destruct (rt_data_queue_reset_wakes (dipc_kernel 0 one_item) L 3 [(2, 10)] [] [] (demo_queue L _ _ D one_item_holds))
    as (s' & L' & E & H & _); [cbn; lia|cbn; lia| |exact (demo_runnable _ _ D)|].
  - change (0 <= k_lock_nest demo < 32767). rewrite (ca_lock _ _ (ds_caller _ _ D)). lia.
  - exists s', L'. exact (conj E H).
Defined.
Lemma rt_data_queue_wrap_overwrites_witness : exists s', rt_data_queue_push 3 (100, 8) 0 (dipc_kernel 0 wrapped_queue) = Some (Returned RT_EOK, s') /\
  dq_items (di_queues s' 3) 2 = (100, 8).
Proof.
  destruct demo_ok as [L D].
  destruct (rt_data_queue_wrap_overwrites (dipc_kernel 0 wrapped_queue) L 3 (100, 8) 2) as (s' & E & _ & H).
  - apply D.
  - by apply (demo_wait demo L); [apply D|].
  - lia.
  - reflexivity.
  - cbn. lia.
  - reflexivity.
  - cbn. lia.
  - exists s'. exact (conj E H).
Defined.
