(* ===== verification/WitnessesPipe.v ===== *)
(** The theorems on pipes and portals at concrete inputs. *)
From S2P Require Import Prelude RtList Kservice Kernel Scheduler Object TimerCore Invariant Thread Timer TimerCheck.
From S2P Require Import Clock Ipc System RingBuffer Device DriverIpc Pipe Portal Demo Witnesses WitnessesIpc.

(** An application counts the calls of its function 900. *)
#[local] Instance count_apps : Apps := Z.
Definition apps (f d : Z) (args : list Z) : M dstate Z :=
  mod_io (fun i => set_pi_apps (pi_apps i + 1 : app_state) i) ;; mret RT_EOK.
Definition no_print (d r : Z) : M dstate unit := mret tt.
Definition addr (f : driver_fn) : Z :=
  match f with
  | FnPipeRead => 1 | FnPipeWrite => 2 | FnPipeControl => 3 | FnPortalInit => 4 | FnPortalOpen => 5
  | FnPortalClose => 6 | FnPortalRead => 7 | FnPortalWrite => 8 | FnPortalRxIndicate => 9 | FnPortalTxComplete => 10
  end.
#[local] Instance demo_code : DriverCode := {| fn_addr := addr; sizeof_pipe := 100; sizeof_portal := 60 |}.
Lemma addr_inj (f g : driver_fn) : fn_addr f = fn_addr g -> f = g.
Proof. by destruct f, g. Qed.
#[local] Instance demo_drivers : Drivers := linked apps no_print 4.

(** Pipe 5 with the flags [flag] and three bytes in its ring of four; pipe 6 empty. *)
Definition demo_pipe (flag : Z) (rb : rt_ringbuffer) : rt_pipe_device := mk_pipe rb 7000 flag None (Some 8).
Definition demo_pipe_device : rt_device := mk_device 15 3 0 1 (Some 9) None None None None (Some 1) (Some 2) (Some 3).
(** The portals 8 and 9. *)
Definition demo_portal_device : rt_device := mk_device 16 3 0 1 (Some 900) None (Some 4) (Some 5) (Some 6) (Some 7) (Some 8) None.
Definition pipe_kernel (flag : Z) : dstate :=
  mk_dstate demo 0 (fun d => if d <=? 6 then demo_pipe_device else demo_portal_device)
    (mk_pipe_io _ (fun d => demo_pipe flag (if d =? 5 then rb_three else rb_at 3))
       (fun d => if d =? 8 then mk_portal (Some 6) (Some 5) else mk_portal (Some 5) (Some 6)) (fun a => a mod 256) false 0 : driver_io).
Lemma demo_pipe_5 flag L : demo_state demo L -> pipe_rep (pipe_kernel flag) L 5 [7; 8; 9] [] [].
Proof. intros D. split; [apply D|exact rb_three_ok|done|by apply (demo_wait demo L); [apply D|]..|done|done]. Qed.
Lemma demo_pipe_6 flag L : demo_state demo L -> pipe_rep (pipe_kernel flag) L 6 [] [] [].
Proof. intros D. split; [apply D|exact rb_at_ok|done|by apply (demo_wait demo L); [apply D|]..|done|done]. Qed.
Lemma demo_link : portal_link (pipe_kernel 0) 9 8 5.
Proof. by split. Qed.
Lemma demo_portal_callback d : portal_callback apps (pipe_kernel 0) 8 d.
Proof.
  intros f [= <-]. split; [by intros []|]. intros k s1 L H. by exists RT_EOK, (set_d_io (set_pi_apps (pi_apps (d_io s1) + 1 : app_state) (d_io s1) : driver_io) s1), L, (pi_apps (d_io s1) + 1).
Qed.
Lemma demo_app_callback : app_callback (pipe_kernel 0) 5.
Proof. exact (portal_app_callback apps no_print addr_inj 3 (pipe_kernel 0) 9 8 5 demo_link (demo_portal_callback 5)). Qed.

Lemma rt_pipe_read_refines_witness :
  (exists s', rt_pipe_read 5 0 1000 2 (pipe_kernel 0) = Some (Returned 2, s') /\ copy_out 1000 2 (memory s') = [7; 8]) /\
  (exists s', rt_pipe_read 6 0 1000 2 (pipe_kernel 1) = Some (Waiting 1, s')).
Proof.
  destruct demo_ok as [L D]. split.
  - destruct (rt_pipe_read_refines (pipe_kernel 0) L 5 0 1000 2 1 [7; 8; 9] [] [] (demo_pipe_5 0 L D)) as (r & s' & L' & E & _ & -> & H & _); [done|].
    exists s'. exact (conj E H).
  - destruct (rt_pipe_read_refines (pipe_kernel 1) L 6 0 1000 2 1 [] [] [] (demo_pipe_6 1 L D)) as (r & s' & L' & E & _ & -> & _).
    + intros _. split; [exact (ds_caller _ _ D)|]. split; [exact (demo_short _ _ (ds_lists _ _ D))|cbn; lia].
    + exists s'. exact E.
Defined.
Lemma rt_pipe_write_refines_witness : exists s' L', rt_pipe_write 5 0 1000 2 (pipe_kernel 0) = Some (Returned 1, s') /\
  pipe_rep s' L' 5 [7; 8; 9; 232] [] [].
Proof.
  destruct demo_ok as [L D].
  destruct (rt_pipe_write_refines (pipe_kernel 0) L 5 0 1000 2 1 [7; 8; 9] [] [] (demo_pipe_5 0 L D) demo_app_callback eq_refl) as (r & s' & L' & E & _ & -> & H & _); [done|].
  exists s', L'. exact (conj E H).
Defined.
(** A pipe that blocks readers only, without callback. *)
Definition quiet_kernel (flag : Z) : dstate := set_d_devs (fun _ => set_dv_rx_indicate None demo_pipe_device) (pipe_kernel flag).
Lemma quiet_callback flag d : app_callback (quiet_kernel flag) d.
Proof. by intros f. Qed.
Lemma quiet_pipe_6 flag L : demo_state demo L -> pipe_rep (quiet_kernel flag) L 6 [] [] [].
Proof. intros D. by destruct (demo_pipe_6 flag L D). Qed.
Lemma rt_pipe_handoff_witness : exists s1 s2 s3, rt_pipe_read 6 0 1000 8 (quiet_kernel 1) = Some (Waiting 1, s1) /\
  rt_pipe_write 6 0 2000 3 s1 = Some (Returned 3, s2) /\ rt_pipe_read_resumed 6 1000 8 1 s2 = Some (Returned 3, s3).
Proof.
  destruct demo_ok as [L D].
  destruct (rt_pipe_handoff (quiet_kernel 1) L 6 0 1000 8 1 0 2000 3 (quiet_pipe_6 1 L D) eq_refl eq_refl) as (s1 & s2 & s3 & E1 & E2 & _ & E3 & _).
  - discriminate.
  - exact (quiet_callback 1 6).
  - exact (ds_caller _ _ D).
  - exact (demo_short _ _ (ds_lists _ _ D)).
  - lia.
  - lia.
  - cbn. lia.
  - exists s1, s2, s3. exact (conj E1 (conj E2 E3)).
Defined.
(** A read of three bytes, then a write of six into the pipe of four. *)
Lemma quiet_pipe_5 L : demo_state demo L -> pipe_rep (quiet_kernel 0) L 5 [7; 8; 9] [] [].
Proof. intros D. by destruct (demo_pipe_5 0 L D). Qed.
Lemma demo_run : exists ins s, pipe_run 5 (quiet_kernel 0) ins [7; 8; 9] s /\ length ins = 4%nat.
Proof.
  destruct demo_ok as [L D].
  assert (wp (rt_pipe_read 5 0 1000 3) (fun r s1 => r = Returned 3 /\ copy_out 1000 3 (memory s1) = [7; 8; 9] /\ d_devs s1 = d_devs (quiet_kernel 0) /\
    wp (rt_pipe_write 5 0 2000 6) (fun r s2 => r = Returned 4) s1) (quiet_kernel 0)) as Hw.
  { eapply (wp_pipe_read _ L 5 [7; 8; 9] [] [] 1000 3 3 (quiet_pipe_5 L D) eq_refl 0 1); [done| |done|done].
    intros _ s1 (_ & Hs & Hc & L1 & HP & _). split; [done|]. split; [exact Hc|]. split; [apply Hs|].
    eapply (wp_pipe_write s1 L1 5 [] [] [] 2000 6 4 HP) with (t := 1).
    - by rewrite (same_pipe_size _ _ _ Hs).
    - eapply app_callback_same; [apply quiet_callback|exact Hs].
    - by rewrite (same_pipe_flag _ _ _ Hs).
    - unfold blocks_wr. by rewrite (same_pipe_flag _ _ _ Hs).
    - intros _ s2 _. done.
    - intros H. discriminate H. }
  apply wp_run in Hw as (r & s1 & E1 & -> & Hc & Hd & Hw). apply wp_run in Hw as (r & s2 & E2 & ->).
  exists ([] ++ copy_out 2000 4 (memory s1)), s2. split; [|done].
  eapply (run_write 5 (quiet_kernel 0) [] [7; 8; 9] s1 0 2000 6 (Returned 4) s2); [|intros f; rewrite Hd; discriminate|by left].
  rewrite <- Hc. eapply (run_read 5 (quiet_kernel 0) [] [] (quiet_kernel 0) 0 1000 3 (Returned 3) s1); [apply run_start|by left].
Qed.
Lemma rt_pipe_stream_witness : exists ins s, pipe_run 5 (quiet_kernel 0) ins [7; 8; 9] s /\ [7; 8; 9] ++ rb_contents (ring s 5) = [7; 8; 9] ++ ins.
Proof.
  destruct demo_run as (ins & s & H & _). exists ins, s. split; [exact H|].
  exact (proj1 (rt_pipe_stream 5 (quiet_kernel 0) ins [7; 8; 9] s H rb_three_ok eq_refl)).
Defined.
Lemma portal_connection_witness : exists s1 s2, rt_device_write 9 0 1000 1 (pipe_kernel 0) = Some (1, s1) /\
  rt_device_read 8 0 2000 10 s1 = Some (4, s2) /\ copy_out 2000 4 (memory s2) = [7; 8; 9; 232].
Proof.
  destruct demo_ok as [L D].
  destruct (portal_connection apps no_print addr_inj 1 (pipe_kernel 0) L 9 8 5 [7; 8; 9] 0 1000 1 0 2000 10 demo_link (demo_portal_callback 5) (demo_pipe_5 0 L D))
    as (s1 & s2 & L2 & E1 & E2 & H & _). exists s1, s2. exact (conj E1 (conj E2 H)).
Defined.

(** rt_portal_init with a pipe to write to and no device to read from does not return: it
    sets the callback of the null pointer. *)
Definition bare_kernel : dstate :=
  mk_dstate demo 0 (fun _ => zero_device) (mk_pipe_io _ (fun _ => zero_pipe) (fun _ => mk_portal None None) (fun _ => 0) false 0 : driver_io).
Lemma rt_portal_init_missing_read :
  match rt_pipe_init 5 [112; 48] 0 7000 16 bare_kernel with
  | Some (r, s) => r = RT_EOK /\ rt_portal_init 8 [112; 116] [112; 48] [112; 49] s = None /\ fst <$> rt_portal_init 8 [112; 116] [112; 49] [112; 48] s = Some (- RT_ENOSYS)
  | None => False
  end.
Proof. vm_compute. repeat split. Qed.
(** A portal opened for reading only closes the pipe to write to all the same, which
    another user has open. *)
Lemma portal_close_unopened :
  match _portal_open 9 RT_DEVICE_OFLAG_RDONLY (pipe_kernel 0) with
  | Some (_, s) =>
    match _portal_close 9 s with
    | Some (_, s') => dv_ref_count (d_devs (pipe_kernel 0) 5) = 1 /\ dv_ref_count (d_devs s' 5) = 0
    | None => False
    end
  | None => False
  end.
Proof. vm_compute. repeat split. Qed.
