(* ===== verification/WitnessesPrint.v ===== *)
(** The theorems on formatted output at concrete inputs. *)
From Stdlib Require Import Ascii String.
From S2P Require Import Prelude MemOps Print PrintSpec.

(** "v=%-*d%s|%05hx%.3u%%" with the width 4, -42, no string, 255 with a bit above the low
    half word, and 7: "v=-42 (NULL)|000ff007%", cut to 20 characters. *)
Definition demo_pieces : list piece :=
  [Literal (chr "v"); Literal (chr "=");
   Directive (mk_directive [Minus] WidthArg NoPrecision NoQualifier Decimal);
   Directive (mk_directive [] NoWidth NoPrecision NoQualifier Str); Literal (chr "|");
   Directive (mk_directive [Zero] (Width 5) NoPrecision Half LowHex);
   Directive (mk_directive [] NoWidth (Precision 3) NoQualifier Unsigned);
   Directive (mk_directive [] NoWidth NoPrecision NoQualifier Percent)].
Definition demo_args : list arg := [Word 4; Word (-42); Text None; Word 65791; Word 7].
Lemma decimal_roundtrip_witness : exists ds, format (chr <$> ["%"; "d"]%char) [Word (-2013)] = Some ([chr "-"] ++ ds) /\
  skip_atoi (ds ++ [chr ";"]) 0 = (2013, [chr ";"]).
Proof. exact (decimal_roundtrip (-2013) [chr ";"] ltac:(lia) eq_refl). Defined.
(** A negative number past the end of the buffer counts one character too many: 7 for
    "a%-5d", whose text has 6. *)
Lemma rt_snprintf_counts_sign : exists m', rt_snprintf 100 1 (chr <$> ["a"; "%"; "-"; "5"; "d"]%char) [Word (-1)] (fun _ => 0) = Some (7, m') /\
  option_map length (format (chr <$> ["a"; "%"; "-"; "5"; "d"]%char) [Word (-1)]) = Some 6%nat.
Proof. eexists. vm_compute. split; reflexivity. Qed.
(** The precision 0 does not cut a string. *)
Lemma string_precision_zero : format (chr <$> ["%"; "."; "0"; "s"]%char) [Text (Some [chr "x"])] = Some [chr "x"].
Proof. vm_compute. reflexivity. Qed.
