(* ===== verification/WitnessesFinsh.v ===== *)
(** The theorems on the shell's compiler at concrete programs, and programs that it does not
    translate as C would. *)
From S2P Require Import Prelude MemOps FinshVM FinshCompiler FinshCorrect FinshInt.

#[local] Instance demo_finsh : Finsh := {| char_signed := true; op_func f args m := Some (f + hd 0 args, m) |}.
(** Variables at 100 (int), 120 (unsigned int), 140 (char), 160 (void pointer) and 180 (char
    pointer), a system variable of type int at 5000, a function at 7000. *)
#[local] Instance demo_symbols : Symbols := {|
  var_type id := if id =? 100 then finsh_type_int else if id =? 120 then finsh_type_uint else if id =? 140 then finsh_type_char
                 else if id =? 160 then finsh_type_voidp else finsh_type_charp;
  sysvar_type id := finsh_type_int;
  sysvar_var id := 5000;
  syscall_func id := 7000
|}.
Definition zero_memory : memory := fun _ => 0.
Definition zero_stack : Z -> Z := fun _ => 0.
Lemma demo_int : int_typed 100.
Proof. split; [lia|]. vm_compute. constructor. Qed.
(** x = 7; x = -x * 3 + ++x; x *)
Definition demo_program : list expr :=
  [Assign 100 (Num 7); Assign 100 (Bin Add (Bin Mul (Neg (Var 100)) (Num 3)) (Step true true 100)); Var 100].
Lemma demo_program_int : Forall int_expr demo_program.
Proof. repeat constructor; apply demo_int. Qed.
Lemma finsh_type_check_int_witness : finsh_type_check (tree_of_program demo_program) 0 = (typed_program demo_program, []).
Proof. exact (finsh_type_check_int demo_program demo_program_int). Defined.
Lemma finsh_int_correct_witness : exists text stack' m', finsh_vm_run text zero_stack zero_memory = Some (mk_vm [] stack' 1 m') /\
  int32 (stack' 0) = -13.
Proof.
  assert (is_Some (finsh_compiler_run (tree_of_program demo_program))) as [[text errors] Hc] by (vm_compute; eexists; reflexivity).
  destruct (sem_program demo_program zero_memory) as [[v m']|] eqn:Hs; [|exfalso; revert Hs; vm_compute; discriminate].
  assert (v = -13) as -> by (revert Hs; cbn; intros [= <- _]; vm_compute; reflexivity).
  destruct (finsh_int_correct demo_program text errors zero_stack zero_memory (-13) m' demo_program_int Hs ltac:(vm_compute; discriminate) Hc) as (st & E & V).
  exists text, st, m'. split; [exact E|exact V].
Defined.
(** c = 'a' for a char variable. *)
Definition id_node (idtype id : Z) (sibling : finsh_node) : finsh_node := Node FINSH_NODE_ID 0 idtype 0 id sibling NULL.
Definition char_assign : finsh_node := sys_node FINSH_NODE_SYS_ASSIGN NULL (id_node 1 140 (Node FINSH_NODE_VALUE_CHAR 0 0 97 0 NULL NULL)).
Lemma char_assign_value : eval_program (fst (finsh_type_check char_assign 0)) zero_memory = Some ((BYTE, 97), <[160 := 97]> zero_memory).
Proof. vm_compute. reflexivity. Qed.
Lemma finsh_run_correct_witness : exists text stack', finsh_vm_run text zero_stack zero_memory = Some (mk_vm [] stack' 1 (<[160 := 97]> zero_memory)) /\
  fits (stack' 0) (BYTE, 97).
Proof.
  destruct (finsh_compiler_run char_assign) as [[text errors]|] eqn:Hc; [|exfalso; revert Hc; vm_compute; discriminate].
  destruct (finsh_run_correct char_assign text errors zero_stack zero_memory (BYTE, 97) (<[160 := 97]> zero_memory) char_assign_value
    ltac:(vm_compute; discriminate) Hc) as (st & E & V).
  exists text, st. split; [exact E|exact V].
Defined.
Lemma finsh_vm_run_terminates_witness : vm_loop 200 (mk_vm (replicate 128 0) zero_stack 0 zero_memory) = finsh_vm_run (replicate 128 0) zero_stack zero_memory.
Proof. exact (finsh_vm_run_terminates 200 (replicate 128 0) zero_stack zero_memory ltac:(vm_compute; lia)). Defined.

(** ** Departures from C *)
(** Six statements "x++;" have 12 nodes, and more code than the text segment holds. *)
Definition six_steps : finsh_node := tree_of_program (replicate 6 (Step false true 100)).
Lemma finsh_text_overflow : size six_steps = 12 /\ finsh_compiler_run six_steps = None /\
  option_map (fun o => length (fst o)) (compile_statements (checked six_steps)) = Some 143%nat.
Proof. vm_compute. split; [reflexivity|split; reflexivity]. Qed.
(** The last byte of a program, the value at the bottom of the stack, on a stack of old values. *)
Definition old_stack : Z -> Z := fun _ => 0x12345678.
Definition shell_value (n : finsh_node) : option Z :=
  '(text, _) ← finsh_compiler_run n; s ← finsh_vm_run text old_stack zero_memory; Some (int32 (finsh_vm_stack s 0)).
Definition call_node (sibling : finsh_node) : finsh_node := sys_node FINSH_NODE_SYS_FUNC sibling (id_node FINSH_IDTYPE_SYSCALL 1 NULL).
(** "f() + 2": a call has no data type, and an addition without one is not emitted. *)
Lemma finsh_call_plus : shell_value (sys_node FINSH_NODE_SYS_ADD NULL (call_node (Node FINSH_NODE_VALUE_INT 0 0 2 0 NULL NULL))) = Some 7000.
Proof. vm_compute. reflexivity. Qed.
(** "x = 'a'" for an int x: only the low byte of the slot is written, and four are stored. *)
Lemma finsh_char_to_int : shell_value (sys_node FINSH_NODE_SYS_ASSIGN NULL (id_node 1 100 (Node FINSH_NODE_VALUE_CHAR 0 0 97 0 NULL NULL))) = Some 0x12345661.
Proof. vm_compute. reflexivity. Qed.
(** An unsigned variable is divided as a signed one: u = 4294967294, u / 2. *)
Lemma finsh_unsigned_div : shell_value (tree_of_program [Assign 120 (Num 4294967294); Bin Div (Var 120) (Num 2)]) = Some (-1).
Proof. vm_compute. reflexivity. Qed.
(** No load is emitted for a variable of type void pointer. *)
Lemma finsh_voidp_no_code : compile_id FINSH_IDTYPE_VAR 160 = no_code.
Proof. reflexivity. Qed.
(** "++v" for a system variable loads the word behind its table entry, not the variable. *)
Lemma finsh_preinc_sysvar :
  finsh_compile (checked (sys_node FINSH_NODE_SYS_PREINC NULL (id_node FINSH_IDTYPE_SYSVAR 300 NULL))) =
  Some (finsh_code_byte (FINSH_OP_LD DWORD) ;+ finsh_code_dword 5000 ;+ compile_pre FINSH_OP_ADD FINSH_DATA_TYPE_DWORD 300).
Proof. vm_compute. reflexivity. Qed.
(** "*p" for a char pointer loads a DWORD. *)
Lemma finsh_char_deref :
  finsh_compile (checked (sys_node FINSH_NODE_SYS_GETVALUE NULL (id_node FINSH_IDTYPE_VAR 180 NULL))) =
  Some (finsh_code_byte (FINSH_OP_LD_VALUE DWORD) ;+ finsh_code_dword 200 ;+ finsh_code_byte (FINSH_OP_LD_VALUE_STACK DWORD)).
Proof. vm_compute. reflexivity. Qed.
