(* ===== verification/WitnessesShell.v ===== *)
(** The theorems on the lexer, the parser and the lines of the shell at concrete inputs, and
    lines that the shell does not take as its grammar says. *)
From Stdlib Require Import Ascii String.
From S2P Require Import Prelude MemOps Kernel FinshVM FinshCompiler FinshInt FinshToken FinshHeap FinshParser FinshLex FinshGrammar FinshParse FinshShell FinshSession.
Local Open Scope string_scope.

Definition text (s : string) : list Z := map (fun c => Z.of_N (N_of_ascii c)) (list_ascii_of_string s).
#[local] Instance shell_data : FinshData := {| finsh_heap := 0x1000; global_variable := 0x2000 |}.
#[local] Instance shell_tables : SymbolTables := {| sysvar_table := [(text "tick", 0x3000)]; syscall_table := [(text "hello", 0x3100)] |}.
#[local] Instance shell_finsh : Finsh := {| char_signed := true; op_func f args m := Some (f + hd 0 args, m) |}.
#[local] Instance shell_symbols : Symbols :=
  {| var_type id := finsh_type_unknown; sysvar_type id := finsh_type_int; sysvar_var id := 0x3200; syscall_func id := 0x3300 |}.
(** Everything zero, and initialised. *)
Definition power_on : shell :=
  mk_shell (finsh_token_init [] 0) (fun _ => zero_node) (mk_data (fun _ => 0) (fun _ => None) None None [] (fun _ => 0)) [] [] None.
Definition started : machine := match finsh_init power_on with Some (_, s) => mk_machine s (fun _ => 0) | None => mk_machine power_on (fun _ => 0) end.
(** What the lines print. *)
Definition prints (lines : list string) : option (list outcome) := fst <$> finsh_run_lines (base := shell_symbols) (map text lines) started.
Lemma session_prints : prints ["int x ;"; "x = 3 + 4 * 5 ;"; "++ x * 2 - x ++ ; x ;"] = Some [Value 0; Value 23; Value 25].
Proof. vm_compute. reflexivity. Qed.

(** ** The theorems *)
Lemma x_name : is_name (text "x").
Proof. split; [split; [done|split; [repeat constructor; vm_compute; congruence|vm_compute; lia]]|]. vm_compute. intros Hx. repeat (apply elem_of_cons in Hx as [Hx|Hx]; [done|]). by apply elem_of_nil in Hx. Qed.
Definition demo_lexemes : list lexeme := [LKey finsh_token_type_int; LId (text "x"); LOp finsh_token_type_shl; LNum 1037; LOp finsh_token_type_semicolon].
Lemma finsh_lexer_roundtrip_witness : line_of demo_lexemes = text "int x << 1037 ; " /\
  exists s, lex 6 (finsh_token_init (line_of demo_lexemes) 0) = Some (demo_lexemes, s) /\ global_errno s = 0.
Proof.
  split; [reflexivity|]. apply (finsh_lexer_roundtrip demo_lexemes 0). constructor; [done|]. constructor; [exact x_name|].
  constructor; [done|]. constructor; [cbn; lia|]. by constructor.
Defined.
Definition one_var : list finsh_var := mk_var (text "x") finsh_type_int :: replicate 7 no_var.
Lemma x_declared : declared one_var 0x2000.
Proof. split; [exact x_name|]. split; [vm_compute; lia|]. reflexivity. Qed.
(** x = 3 + 4 * 5; ++x * 2 - x++; x *)
Definition demo_statements : list expr :=
  [Assign 0x2000 (Bin Add (Num 3) (Bin Mul (Num 4) (Num 5)));
   Bin Sub (Bin Mul (Step true true 0x2000) (Num 2)) (Step false true 0x2000); Var 0x2000].
Lemma demo_writable : Forall (writable one_var) demo_statements.
Proof.
  pose proof x_declared as Hx. constructor; [split; [exact Hx|cbn; lia]|]. constructor; [|constructor; [exact Hx|constructor]].
  split; [split; [exact Hx|cbn; lia]|exact Hx].
Qed.
Lemma demo_plain : Forall plain demo_statements.
Proof. repeat constructor; cbn; lia. Qed.
Definition ready_shell : shell := set_sh_data (set_fd_vars one_var (sh_data (ma_shell started))) (ma_shell started).
Lemma ready_shell_ready : ready one_var ready_shell.
Proof. split; [|done]. by eapply table_init; [|reflexivity|]. Qed.
Lemma finsh_parser_correct_witness : program_text one_var demo_statements = text "x = 3 + 4 * 5 ; ++ x * 2 - x ++ ; x ; " /\
  exists s', finsh_parser_run (program_text one_var demo_statements) ready_shell = Some (tt, s') /\
    tree_at (Z.to_nat FINSH_NODE_MAX) (sh_nodes s') (sh_root s') = Some (tree_of_program demo_statements) /\
    sh_data s' = sh_data ready_shell /\ global_errno (sh_token s') = global_errno (sh_token ready_shell).
Proof.
  split; [vm_compute; reflexivity|]. apply (finsh_parser_correct one_var demo_statements ready_shell ready_shell_ready); [discriminate|exact demo_plain|exact demo_writable|vm_compute; discriminate].
Defined.
Definition demo_session : list command := [Declare_int (text "x"); Statements demo_statements].
Lemma demo_session_ok : session_ok (base := shell_symbols) (replicate 8 no_var) demo_session.
Proof.
  split; [split; [exact x_name|split; [vm_compute; lia|exists 0%nat; reflexivity]]|]. split; [|done].
  change (vars_after (Declare_int (text "x")) (replicate 8 no_var)) with one_var. split; [exact demo_plain|]. split; [exact demo_writable|].
  split; [|split; [vm_compute; discriminate|vm_compute; eexists; reflexivity]].
  assert (int_typed (H0 := symbols_of (base := shell_symbols) one_var) 0x2000) as Hx by (split; [lia|vm_compute; constructor]).
  repeat constructor; apply Hx.
Qed.
Lemma started_ready : line_ready (replicate 8 no_var) started.
Proof. split; [|reflexivity]. split; [|done]. by eapply table_init; [|reflexivity|]. Qed.
Lemma session_values : option_map fst (session_sem demo_session (memory_of started)) = Some [0; 25].
Proof. vm_compute. reflexivity. Qed.
Lemma finsh_session_correct_witness : exists s', finsh_run_lines (base := shell_symbols) (session_lines (replicate 8 no_var) demo_session) started =
  Some ([Value 0; Value 25], s') /\ line_ready one_var s'.
Proof.
  pose proof session_values as Hv. destruct (session_sem demo_session (memory_of started)) as [[vs m']|] eqn:Hs; [|discriminate Hv].
  assert (vs = [0; 25]) as -> by (cbn in Hv; congruence).
  destruct (finsh_session_correct (base := shell_symbols) (replicate 8 no_var) demo_session started [0; 25] m' started_ready demo_session_ok Hs) as (s' & E & R & _).
  exists s'. split; [exact E|exact R].
Defined.
Lemma finsh_var_insert_lookup_witness : exists d', finsh_var_insert (text "x") finsh_type_int (sh_data (ma_shell started)) = Some (0, d') /\
  finsh_var_lookup (text "x") d' = Some (Some 0x2000, d').
Proof.
  destruct (finsh_var_insert_lookup (text "x") finsh_type_int (sh_data (ma_shell started)) 0) as (d' & E & L & _); [reflexivity|by repeat constructor|].
  exists d'. split; [exact E|exact L].
Defined.

(** ** Departures from the grammar and from C *)
(** A left parenthesis always starts a cast: the error is that no type follows. *)
Lemma parenthesis_rejected : prints ["( 1 + 2 ) * 3 ;"; "3 * ( 1 + 2 ) ;"] = Some [Message 14; Message 1].
Proof. vm_compute. reflexivity. Qed.
(** A declaration without a value leaves no root, and the rest of the line is dropped. *)
Lemma declaration_drops_rest : prints ["int a ; a = 3 ;"; "a ;"] = Some [Value 0; Value 0].
Proof. vm_compute. reflexivity. Qed.
(** The statement behind a declaration takes the place of its second value. *)
Lemma declaration_loses_value : prints ["int a = 1 , b = 2 ; a ;"; "b ;"; "int c = 1 , d = 2 ;"; "d ;"] = Some [Value 1; Value 0; Value 2; Value 2].
Proof. vm_compute. reflexivity. Qed.
(** A cast does not change the value. *)
Lemma cast_ignored : prints ["(char) 300 ;"] = Some [Value 300].
Proof. vm_compute. reflexivity. Qed.
(** Hexadecimal digits are all letters, the suffix too. *)
Lemma hex_suffix : prints ["0x10 ;"; "0x10L ;"; "0b101L ;"] = Some [Value 16; Value 284; Value 5].
Proof. vm_compute. reflexivity. Qed.
(** Numbers behind a backslash: 65 in a character constant is 0. *)
Lemma char_escape_zero : prints ["'\65' ;"; "'\n' ;"] = Some [Value 0; Value 10].
Proof. vm_compute. reflexivity. Qed.
(** What the token of a string constant holds. *)
Definition constant (l : string) : option (list Z) :=
  option_map (fun r => c_str (tk_string (snd r))) (token_run (finsh_token_init (34 :: text l ++ [34]) 0)).
(** An escaped backslash ends the string, as an escaped quote does. *)
Lemma string_escape_ends : constant "a\\b" = Some (text "a") /\ constant "a\x41\101" = Some (text "aAA").
Proof. vm_compute. split; reflexivity. Qed.
(** The digits of a hexadecimal escape are the 16 characters from '0' on: no letters. *)
Lemma hex_escape_letters : constant "\x4Fb" = Some (4 :: text "Fb").
Proof. vm_compute. reflexivity. Qed.
(** A name that no table has is found in the list when an entry starts with it. *)
Definition with_call : shell := mk_shell (sh_token power_on) (sh_nodes power_on) (sh_data (ma_shell started)) [] [(text "reboot", 0x4000)] None.
Lemma lookup_by_prefix : option_map fst (finsh_syscall_lookup (text "re") with_call) = Some (Some 0x4000).
Proof. vm_compute. reflexivity. Qed.
